(* ===== verification/_CoqProject ===== *)
-Q . S2P
Prelude.v
Ordered.v
Identity.v
Outcome.v
Lifecycle.v
Record.v
Coordination.v
Confirmation.v
ConfirmationProofs.v
Rows.v
Store.v
StoreProofs.v
Planning.v
Coordinator.v
CoordinatorProofs.v
Recovery.v
RecoveryProofs.v
RecoveryComplete.v
Protocol.v
ProtocolProofs.v
SampleCodec.v
VoteRecovery.v
Transcript.v
Generation.v
SampleTables.v
GenerationProofs.v
Projection.v
Agreement.v
ProjectionProofs.v
HelperPlans.v
RetirementProofs.v
Composition.v
SharePolicy.v
SharePolicyProofs.v
RoundPlanning.v
RoundPlanningProofs.v
RoundRules.v
RoundProjection.v
Bundling.v
BundlingProofs.v
Helpers.v
ShareLedger.v
HelperClient.v
ShareWire.v
SharePolling.v
ShareTracking.v
InitialDelivery.v
SampleShares.v
ShareLedgerProofs.v
ShareTrackingProofs.v
InitialDeliveryProofs.v
MerkleTree.v
TreeSerde.v
KvStore.v
KvStoreProofs.v
TreeServer.v
TreeClient.v
TreeSyncProofs.v
TreeSync.v
VanWitnessProofs.v
