(* ===== verification/Prelude.v ===== *)
(** * Verification of zcash_voting

    The library [zcash_voting] lets a wallet take part in a shielded vote: it
    bundles notes, delegates their weight, casts votes and reports shares.
    This development models the parts whose mistakes cost a vote:

    - the durable lifecycle of a transaction on the vote chain
      ([src/zcash_voting/src/chain_submission/]): what may be sent, when it may
      be sent again, and when it counts as confirmed, rejected or lost;
    - the locks that keep concurrent callers of it apart;
    - the planner that decides, from one snapshot of a round, what the wallet
      still owes ([src/zcash_voting/src/round_planning/]);
    - the policy that spreads a vote's shares over helpers and time
      ([src/zcash_voting/src/share_policy/]);
    - the delivery of those shares: the durable ledger of which helper may
      hold a share, the requests to helpers, the first delivery of a share,
      and the pass that confirms or recovers late shares ([share.rs],
      [helper/], [share_tracking/]);
    - the vote commitment tree, its server and the clients that follow it
      ([src/vote-commitment-tree/], [src/vote-commitment-tree-client/]), and
      the witnesses the wallet draws from it ([tree_sync.rs]);
    - the planner that decides which notes vote together
      ([src/zcash_voting/src/note_bundling.rs]).

    ** Parts, files and how they interact

    A caller hands a request to the coordinator. The coordinator takes the
    locks, asks the store to reserve a row for the derived generation, posts
    the transaction to the chain's endpoints, records every answer through the
    store, polls for confirmation and, when an answer was lost, searches the
    commitment tree. The store writes rows of one SQLite table, each of which
    is one state of a pure state machine. In the same transactions it derives
    generations from the voting tables (bundles, votes and their recovery
    texts) and projects confirmations and rejections back into them.

    - [Prelude.v]: [Result], machine integers, text and its UTF-8 length, and
      the list lemmas and hints the other files share.
    - [Ordered.v]: ordered maps and sets as lists in key order, stable sorting
      and loops that return early.
    - [Identity.v]: [identity.rs] and the lock keys of [coordination.rs].
      Targets, identities with [ChainSubmissionIdentity::new], the durable
      key [submission_identity_key], generations and candidate hashes.
    - [Outcome.v]: [result.rs]. State names, diagnostics with their escaping,
      validated confirmations, results and failures.
    - [Lifecycle.v]: [state.rs]. States, observations and
      [apply_submission_observation]; a lifecycle is a sequence of accepted
      observations.
    - [Record.v]: [store.rs] and the data of [generation.rs]. Requests with
      their validation, derived generations, the durable record and its
      bookkeeping, error adapters.
    - [Coordination.v]: [coordination.rs]. The registries of weak lock
      handles, what every kind of caller locks and in which order, the
      interleaving of callers step by step, and the in-flight registry.
    - [Confirmation.v], [ConfirmationProofs.v]: the validation of
      [chain_submission/confirmation.rs], [validate_hash_confirmation], which
      matches a committed transaction's events against a generation.
    - [Rows.v]: the table [chain_submissions] of
      [storage/migrations/006_delegate_cast.sql] (CHECKs in three-valued
      logic, unique indexes, triggers) and the row codec of
      [store/sqlite.rs].
    - [Store.v]: every operation of [store/sqlite.rs], in transactions whose
      statements, BEGIN and COMMIT may fail. Generation derivation and the
      projection of a confirmation into the other tables are the interface
      [SubmissionDomain], with the laws the store relies on; [Projection.v]
      implements it.
    - [StoreProofs.v]: the abstract steps of the table, the refinement, and
      the invariants of histories.
    - [Planning.v]: [planning.rs]. The hash of a target, by its own query and
      from the snapshot of a round.
    - [Coordinator.v]: [coordinator.rs]. One pass, [advance_with_recovery],
      with admission, the attempt loop, reconciliation, recovery and
      confirmation.
    - [CoordinatorProofs.v]: triples over the pass and its guarantees.
    - [Recovery.v]: [recovery.rs]. The paginated scan of the commitment tree,
      [scan_exact_layout].
    - [RecoveryProofs.v], [RecoveryComplete.v]: the scan against a search of
      the plain leaf list; scanning an honest replica succeeds.
    - [Protocol.v], [ProtocolProofs.v]: [protocol.rs], [transport.rs] and
      [ingress_timeout.rs]. Endpoint URLs, the requests of a POST and of a
      lookup, the deadline, and what an answer is evidence of.
    - [VoteRecovery.v]: the recovery record of a signed vote ([vote.rs]), its
      JSON form, batch digests and assembly, and the wire requests built from
      it ([vote_commitment.rs], [wire_codec.rs]).
    - [Transcript.v]: the transcript of [generation.rs] under the digest.
    - [Generation.v], [GenerationProofs.v]: the voting tables, the queries on
      them and the derivation of all four kinds ([generation.rs],
      [delegate.rs], [delegate_and_vote_batch/], [storage/queries/]).
    - [Projection.v]: the projection of a confirmation and the retirement of
      a rejected combined batch ([confirmation.rs] twice, [vote.rs]), with
      the triggers of [001_init.sql]; the instance [voting_domain].
    - [Agreement.v], [ProjectionProofs.v], [HelperPlans.v],
      [RetirementProofs.v]: what derivations do not depend on, and the
      correctness of projection and retirement.
    - [Composition.v]: the store run on the voting tables.
    - [SampleCodec.v], [SampleTables.v]: concrete parameters and tables at
      which the theorems are applied.
    - [SharePolicy.v], [SharePolicyProofs.v]: [share_policy/]. Timing of
      submissions and tracking passes, the server shuffle, resubmission order
      and the placement of a commitment's shares.
    - [RoundPlanning.v]: [round_planning/] with the ballot and plan types of
      [session.rs]. Vote units, the classifier [classify_round] and the
      projection [project].
    - [RoundPlanningProofs.v], [RoundRules.v], [RoundProjection.v]: grouping and
      the loops; the rule table and its guarantees; the plan.
    - [Bundling.v], [BundlingProofs.v]: [note_bundling.rs], its policies, the
      version 1 planner and eligibility, and their correctness.
    - [Helpers.v]: [helper/url.rs] and [helper/health.rs]. The canonical URL
      of a helper and the process-wide health scores.
    - [ShareLedger.v], [ShareLedgerProofs.v]: the delivery state of [share.rs]
      and the statements of [storage/queries/share_delegations.rs], with their
      compare-and-retry loops under changes by other connections.
    - [HelperClient.v]: [helper/client.rs], [helper/transport.rs] and
      [ingress_timeout.rs]. Answers of helpers, retries, requests for shares.
    - [ShareWire.v]: the request that carries a share ([wire.rs],
      [wire_codec.rs]) and its reconstruction from a vote's recovery.
    - [SharePolling.v]: [share_tracking/confirmation.rs] and
      [configured_fleet.rs]. The search for a quorum of confirmations.
    - [ShareTracking.v], [ShareTrackingProofs.v]: [share_tracking/mod.rs] and
      [recovery.rs]. One tracking pass, [track_pending_shares].
    - [InitialDelivery.v], [InitialDeliveryProofs.v]:
      [share_tracking/initial_delivery.rs] and [post_capacity.rs]. Handing one
      share of a committed vote to helpers, in waves,
      [submit_committed_share_to_helpers].
    - [SampleShares.v]: concrete helpers, a share and an environment.
    - [MerkleTree.v]: [hash.rs], [anchor.rs] and [path.rs] of the tree. Nodes,
      empty subtrees, authentication paths with their bytes, and the root of
      a plain list of leaves they are compared with.
    - [TreeSerde.v], [KvStore.v], [KvStoreProofs.v]: [serde.rs] and
      [kv_shard_store.rs]. The stored forms of shards and checkpoints, and the
      shard store over the host's key-value callbacks, against ordered maps.
    - [TreeServer.v], [TreeClient.v], [TreeSyncProofs.v]: [server.rs],
      [memory_server.rs], [sync_api.rs] and [client.rs]. Appending and
      checkpointing, a sync with its limits and checks, and the two together.
    - [TreeSync.v], [VanWitnessProofs.v]: [http_sync_api.rs] and [types.rs] of
      the client crate, the queries for the wallet's positions and
      [tree_sync.rs]. The trees of all rounds, [sync_and_witness].

    ** State and effects

    Store operations are programs of a state and error monad ([Tx]) over the
    table and the rest of the database; an error rolls everything back. A
    coordinator pass is a program ([Co]) over a world: the database, the log
    of posts and the history of store operations. It asks an [Environment]
    for what it cannot decide: locks, clock, cancellation, epochs, chain
    answers, scan verdicts, waits and storage faults. The scan ([Sc]) asks a
    [ScanEnvironment] for the clock, interruptions and HTTP answers. A tracking
    pass ([Tr]) runs over the database, the log of its requests and its
    report, in a [TrackingEnv] that also changes the database between any two
    of its steps. A first delivery adds the order and the waits of the requests
    of a wave ([DeliveryEnv]). The shard store ([Kv]) runs over the host's map
    and a [KvEnv] that says which calls fail; a sync asks a [SyncApi] for the
    server's answers and the time elapsed. Every question is numbered by a tick, so the theorems hold
    for every behaviour of the outside world. Panics are an outcome of their
    own.

    Numbers are integers with their width as a predicate; where the source
    may overflow the wrap-around is written out. Bytes are lists of integers,
    text is a list of code points.

    ** What the theorems show

    - State machine: the accepted transitions are exactly the documented
      ones; dispatch ambiguity is never forgotten without chain evidence; a
      row vanishes or is rejected for good only if nothing was dispatched; a
      tracked hash was returned by the chain.
    - Rows: a record that the schema allows is written and loads back.
    - Store: every operation under every fault performs one abstract step or
      changes nothing; histories keep the schema, hash ownership and one
      unresolved submission per bundle; finished submissions are permanent.
    - Coordinator: a pass always returns, without panic, within its attempts;
      every post is durably reserved at the time it is sent; a cancellation or
      a failure without a state means nothing can have reached the chain; an
      imported delegation is never posted.
    - Coordination: leases held at the same time never interfere, the locks
      never deadlock, and the in-flight registry counts exactly the live
      submissions.
    - Confirmation: a transaction confirms a generation exactly when one event
      of its round says what the generation expects; the event such a
      transaction emits is accepted and read back.
    - Recovery: a verdict is that of a full search of a snapshot that agrees
      with its root; ambiguity is real; the scan is bounded; an honest replica
      gets a verdict and the request limit is enough for it.
    - Planning: the snapshot of a round exists on every reachable table and
      agrees with every target's own query.
    - Protocol: a submission reported as unsent did not reach the chain; an
      answer is an acceptance or a rejection exactly on documented evidence;
      a lookup gives the strongest answer of the endpoints.
    - Recovery records and generations: the stored text of a vote is lossless;
      a batch digest fixes the batch's actions and a generation digest fixes
      identity, leaves, roster and request, up to a hash collision.
    - Projection: a confirmation records exactly its hash and positions, is
      idempotent, keeps every derivation and every helper plan; a rejected
      combined batch is retired completely and its streak counted.
    - Composition: a submission confirmed by one process is recognised by
      the next without a write.
    - Round planning: the loops find exactly the obligations of the rule table;
      a cast never competes with work the chain may have seen; such work
      survives every roster; no choice is lost; every step resolves; planning
      never panics; a round reported as done owes only background work.
    - Share policy: the shuffle reaches every order by exactly one choice of
      swaps; delayed shares stay ahead of the round's last moments; shares are
      always planned, spread evenly and within each helper's quota; tracking
      wakes at the earliest time a share wants attention.
    - Helpers and their ledger: a canonical URL is stable; evidence about a
      helper only grows, whatever other connections do; a reservation holds of
      the row it is written to; a definite failure of a request is definite.
    - Tracking: every request is on disk before it leaves; a helper is asked at
      most once per share and pass, with the share's own request and before
      the cutoff; a confirmation rests on a quorum; the report, also that of a
      failed pass, is on disk; the pass returns.
    - First delivery: requests go to distinct helpers of the fleet, carry the
      share as it is on disk and are recorded first; a helper that may hold
      the share is never forgotten; undisturbed, the delivery reaches its
      target or asks everyone.
    - Tree: a path that leads to a root pins its leaf, up to a hash collision;
      paths, shards and checkpoints are read back from their bytes; the shard
      store behaves as ordered maps whatever calls fail, as long as iterators
      do not ([iterator_failure_is_silent] shows what happens if they do).
    - Following the tree: a client that reports success holds the leaves the
      server announced, unless the announced block is older than its own; an
      honest server is followed in one page; a witness is given only if the
      wallet's notes are where they should be, and one honest node among
      unreachable ones is enough to get it.
    - Bundling: no note is lost or used twice; bundles are valid and weights
      exact; the plan does not depend on selection order; the privacy trim is
      within its budget and leaves the fewest bundles.

    ** Bounds and fuel

    The attempt loop has the policy's [maximum_post_attempts] as fuel and the
    page loop has [MAX_RECOVERY_LEAF_REQUESTS]; running out is an outcome of
    its own, and [pass_returns_within_budget] and [scan_is_bounded] prove that
    it never occurs. The recovery of a share has one round more than there are
    helpers as fuel, and [the_pass_returns] proves that this is enough; a first
    delivery has as many waves, and reservations per wave, as helpers remain,
    and [first_delivery_is_thorough] proves that it returns; the
    ledger's retry loops are shown to end in [ledger_only_strengthens]. A
    stored shard is read with as many nodes of fuel as it has bytes, which
    [read_node_fuel] proves enough, and a sync has the limit [max_pages] on its
    pages, which the code reports as an error of its own. The
    planner's theorems assume that the selected notes'
    values sum to a [u64], which the supply of zatoshi guarantees.

    ** Parameters

    Code outside the repository is a parameter with documented laws: hex
    and base64 coding, the canonical field check and the compiler's Unicode
    tables ([Externals]), JSON decoding and the Merkle root of a frontier
    ([TreeExternals]), the text of SQLite's errors ([SqliteText]), JSON and
    URL parsing of the protocol ([ProtocolExternals]), JSON of recovery
    records and BLAKE2b ([RecoveryExternals]), SHA-256, the signature checks
    and SQLite's JSON functions ([DomainExternals], with [JsonAgreement] for
    their agreement with the JSON crate on the texts the library writes),
    the URL parser ([UrlCrate] with [UrlLaws]), JSON of URL lists, of helper
    answers and of share requests, and the curve checks and hash of a share
    ([UrlListJson], [HelperJson], [ShareExternals]), the Pallas field with its
    Poseidon hash ([PallasHash]), the shardtree crate by the leaves, marks and
    checkpoints it keeps ([ShardTree], [MemoryTree]), its retention bits and
    address arithmetic ([RetentionBits], [ShardCrate]) and the JSON of the tree
    queries ([SyncJson]). [RefTree] shows that the laws of the tree can hold. No
    law says that a hash is injective: the binding theorems exhibit a
    collision instead.

    ** Not modelled

    The durable plans of deliveries and the drivers that repeat
    passes and steps are natural next parts; of the commitment tree, the raw
    pointers of the callbacks, poisoned locks and the command-line tool are
    left out; the probes of a helper preflight, the registry of share locks
    (whose answers are inputs) and the functions of the share policy that take
    floating-point samples are left out. Zero-knowledge proving, PIR,
    configuration and the transports rest on external crates. Observability
    calls have no effect on the modelled state and are left out. *)

From stdpp Require Import base gmap strings list numbers.
Local Open Scope Z_scope.

(** ** Results

    Rust's [Result<A, E>]. The propagation operator [?] is [let? x := m in k]. *)
Inductive result (A E : Type) : Type :=
| Ok (a : A)
| Err (e : E).
Arguments Ok {A E} a.
Arguments Err {A E} e.

Declare Scope voting_scope.
Delimit Scope voting_scope with voting.

Notation "'let?' x ':=' m 'in' k" :=
  (match m with
   | Ok x => k
   | Err e => Err e
   end)
  (at level 10, x pattern, m at level 100, k at level 200)
  : voting_scope.

Definition map_err {A E F : Type} (f : E -> F) (r : result A E) : result A F :=
  match r with
  | Ok a => Ok a
  | Err e => Err (f e)
  end.

Definition ok_or {A E : Type} (o : option A) (e : E) : result A E :=
  match o with
  | Some a => Ok a
  | None => Err e
  end.

Definition is_ok {A E : Type} (r : result A E) : bool :=
  match r with
  | Ok _ => true
  | Err _ => false
  end.

(** [iter().map(f).collect::<Result<Vec<_>, _>>()]: stops at the first error. *)
Fixpoint try_map {A B E : Type} (f : A -> result B E) (l : list A) : result (list B) E :=
  match l with
  | [] => Ok []
  | a :: l' =>
      match f a with
      | Err e => Err e
      | Ok b =>
          match try_map f l' with
          | Err e => Err e
          | Ok bs => Ok (b :: bs)
          end
      end
  end.

(** ** Machine integers *)
Definition u8_max : Z := 255.
Definition u32_max : Z := 4294967295.
Definition u64_max : Z := 18446744073709551615.
Definition i64_max : Z := 9223372036854775807.

Definition is_u8 (z : Z) : Prop := 0 <= z <= u8_max.
Definition is_u32 (z : Z) : Prop := 0 <= z <= u32_max.
Definition is_u64 (z : Z) : Prop := 0 <= z <= u64_max.

(** [u64::checked_add], [u64::saturating_add] and [u64::saturating_sub]. *)
Definition checked_add_u64 (a b : Z) : option Z :=
  if a + b <=? u64_max then Some (a + b) else None.
Definition saturating_add_u64 (a b : Z) : Z := Z.min (a + b) u64_max.
Definition saturating_sub_u64 (a b : Z) : Z := Z.max (a - b) 0.

(** ** Big-endian byte strings

    [to_be_bytes] of an [n]-byte unsigned integer and [from_be_bytes]. *)
Fixpoint be_bytes (n : nat) (z : Z) : list Z :=
  match n with
  | O => []
  | S k => (z / 256 ^ Z.of_nat k) mod 256 :: be_bytes k z
  end.

Definition be_decode (l : list Z) : Z := foldl (fun acc b => acc * 256 + b) 0 l.

Lemma be_bytes_u8 n z : Forall is_u8 (be_bytes n z).
Proof.
  induction n as [|n IH]; cbn [be_bytes]; constructor; [|done]. unfold is_u8, u8_max.
  pose proof (Z.mod_pos_bound (z / 256 ^ Z.of_nat n) 256 ltac:(lia)). lia.
Qed.

(** The bytes of a UTF-8 string. *)
Fixpoint string_bytes (s : string) : list Z :=
  match s with
  | EmptyString => []
  | String c s' => Z.of_N (Ascii.N_of_ascii c) :: string_bytes s'
  end.

(** ** Text

    A Rust [str] as its [chars()]: a list of Unicode scalar values. [lit] is
    a string literal of the source, all of which are ASCII. *)
Definition text := list Z.

Definition lit (s : string) : text := string_bytes s.

(** A lowercase hexadecimal digit. *)
Definition lower_hex (c : Z) : Prop := 48 <= c <= 57 \/ 97 <= c <= 102.

(** [char::is_whitespace]: the Unicode [White_Space] property. *)
Definition is_whitespace (c : Z) : bool :=
  ((9 <=? c) && (c <=? 13)) || (c =? 32) || (c =? 133) || (c =? 160) || (c =? 5760)
  || ((8192 <=? c) && (c <=? 8202)) || (c =? 8232) || (c =? 8233) || (c =? 8239)
  || (c =? 8287) || (c =? 12288).

Fixpoint trim_start (t : text) : text :=
  match t with
  | c :: t' => if is_whitespace c then trim_start t' else t
  | [] => []
  end.
Definition trim (t : text) : text := rev (trim_start (rev (trim_start t))).

(** ** Shared lemmas *)
Lemma length_be_bytes n z : length (be_bytes n z) = n.
Proof. induction n as [|n IH]; simpl; [done|]. by rewrite IH. Qed.

Lemma foldl_be_acc l acc :
  foldl (fun a b => a * 256 + b) acc l = acc * 256 ^ Z.of_nat (length l) + be_decode l.
Proof.
  unfold be_decode. revert acc.
  induction l as [|b l IH]; intros acc; [simpl; lia|].
  cbn [foldl length]. rewrite IH, (IH (0 * 256 + b)). rewrite Nat2Z.inj_succ, Z.pow_succ_r by lia. lia.
Qed.

Lemma be_decode_cons b l :
  be_decode (b :: l) = b * 256 ^ Z.of_nat (length l) + be_decode l.
Proof. unfold be_decode at 1. simpl. by rewrite foldl_be_acc. Qed.

Lemma be_decode_be_bytes n z : be_decode (be_bytes n z) = z mod 256 ^ Z.of_nat n.
Proof.
  induction n as [|n IH].
  - simpl. unfold be_decode. simpl. by rewrite Z.mod_1_r.
  - cbn [be_bytes]. rewrite be_decode_cons, length_be_bytes, IH.
    rewrite Nat2Z.inj_succ, Z.pow_succ_r by lia.
    assert (0 < 256 ^ Z.of_nat n) by (apply Z.pow_pos_nonneg; lia).
    rewrite (Z.mul_comm 256), (Z.rem_mul_r z) by lia. lia.
Qed.

Lemma be_decode_be_bytes_small n z :
  0 <= z < 256 ^ Z.of_nat n -> be_decode (be_bytes n z) = z.
Proof. intros H. rewrite be_decode_be_bytes. by apply Z.mod_small. Qed.

Lemma be_bytes_inj n a b :
  0 <= a < 256 ^ Z.of_nat n -> 0 <= b < 256 ^ Z.of_nat n ->
  be_bytes n a = be_bytes n b -> a = b.
Proof.
  intros Ha Hb Heq. apply (f_equal be_decode) in Heq.
  by rewrite !be_decode_be_bytes_small in Heq.
Qed.

Lemma length_string_bytes s : length (string_bytes s) = String.length s.
Proof. induction s as [|c s IH]; simpl; [done|]. by rewrite IH. Qed.

Lemma string_bytes_inj s t : string_bytes s = string_bytes t -> s = t.
Proof.
  revert t. induction s as [|c s IH]; intros [|d t] H; simplify_eq/=; try done.
  f_equal; [|by apply IH].
  match goal with H : Ascii.N_of_ascii _ = _ |- _ => rename H into Hn end.
  rewrite <- (Ascii.ascii_N_embedding c), Hn. apply Ascii.ascii_N_embedding.
Qed.

Lemma filter_all {A} (P : A -> Prop) `{!forall a, Decision (P a)} l : Forall P l -> filter P l = l.
Proof. induction 1 as [|a l Ha _ IH]; [done|]. rewrite filter_cons_True by done. by rewrite IH. Qed.

Lemma filter_none {A} (P : A -> Prop) `{!forall a, Decision (P a)} l : Forall (fun a => ~ P a) l -> filter P l = [].
Proof. induction 1 as [|a l Ha _ IH]; [done|]. by rewrite filter_cons_False. Qed.

Lemma try_map_length {A B E} (f : A -> result B E) l bs :
  try_map f l = Ok bs -> length bs = length l.
Proof.
  revert bs. induction l as [|a l IH]; intros bs H; simplify_eq/=; [done|].
  repeat case_match; simplify_eq/=. by rewrite (IH _ eq_refl).
Qed.

Lemma try_map_elem {A B E} (f : A -> result B E) l bs b :
  try_map f l = Ok bs -> b ∈ bs <-> exists a, a ∈ l /\ f a = Ok b.
Proof.
  revert bs. induction l as [|a l IH]; intros bs Hbs; cbn in Hbs.
  - simplify_eq. split; [by intros ?%elem_of_nil|by intros (?&?%elem_of_nil&_)].
  - destruct (f a) as [c|] eqn:Ea; [|done]. destruct (try_map f l) as [cs|]; [|done].
    simplify_eq. rewrite elem_of_cons, (IH cs eq_refl). split.
    + intros [->|(a'&Ha'&Hb)]; [exists a|exists a']; rewrite elem_of_cons; by auto.
    + intros (a'&Ha'&Hb). apply elem_of_cons in Ha' as [->|Ha']; [left; congruence|by eauto].
Qed.

#[global] Arguments be_bytes : simpl never.
#[global] Arguments be_decode : simpl never.
