(* ===== verification/Ordered.v ===== *)
(** * Ordered maps, ordered sets and stable sorting

    A Rust [BTreeMap] or [BTreeSet] as the list of its entries in key order,
    the stable [slice::sort_by], loops that return early with an error, and the
    lemmas the components share about them. *)

From Stdlib Require Import ZifyBool.
From stdpp Require Import base gmap list numbers sorting.
From S2P Require Import Prelude.
Local Open Scope Z_scope.

(** ** Ordered maps and folds *)
Section ordered.
Context {K V : Type} `{EqDecision K}.

Fixpoint bt_get (k : K) (m : list (K * V)) : option V :=
  match m with
  | [] => None
  | (k', v) :: m => if decide (k = k') then Some v else bt_get k m
  end.
End ordered.

Fixpoint zmap_insert {V} (k : Z) (v : V) (m : list (Z * V)) : list (Z * V) :=
  match m with
  | [] => [(k, v)]
  | (k', v') :: rest =>
      if k <? k' then (k, v) :: m
      else if k =? k' then (k, v) :: rest
      else (k', v') :: zmap_insert k v rest
  end.

Fixpoint zset_insert (k : Z) (s : list Z) : list Z :=
  match s with
  | [] => [k]
  | k' :: rest =>
      if k <? k' then k :: s else if k =? k' then s else k' :: zset_insert k rest
  end.

(** A loop whose body may return early with an error. *)
Fixpoint try_fold {S A E} (f : S -> A -> result S E) (s : S) (l : list A) : result S E :=
  match l with
  | [] => Ok s
  | a :: l =>
      match f s a with
      | Ok s => try_fold f s l
      | Err e => Err e
      end
  end.

(** ** Sorting: [slice::sort_by] is stable *)
Section stable_sort.
Context {A : Type} (leb : A -> A -> bool).

Fixpoint insert_sorted (a : A) (l : list A) : list A :=
  match l with
  | [] => [a]
  | b :: l' => if leb a b then a :: l else b :: insert_sorted a l'
  end.

Definition stable_sort (l : list A) : list A := foldr insert_sorted [] l.
End stable_sort.

Section sorting_facts.
Context {A : Type} (leb : A -> A -> bool).
Notation R := (fun a b => leb a b = true).

Lemma insert_sorted_perm a l : insert_sorted leb a l ≡ₚ a :: l.
Proof.
  induction l as [|b l IH]; simpl; [done|]. destruct (leb a b); [done|].
  rewrite IH. by apply Permutation_swap.
Qed.

Lemma stable_sort_perm l : stable_sort leb l ≡ₚ l.
Proof.
  induction l as [|a l IH]; simpl; [done|]. by rewrite insert_sorted_perm, IH.
Qed.

Context (Htotal : forall a b, leb a b = true \/ leb b a = true).
Context (Htrans : forall a b c, leb a b = true -> leb b c = true -> leb a c = true).

Lemma insert_sorted_sorted a l : StronglySorted R l -> StronglySorted R (insert_sorted leb a l).
Proof.
  induction 1 as [|b l Hl IH Hb]; simpl; [by repeat constructor|].
  destruct (leb a b) eqn:Hab.
  - constructor; [by constructor|]. constructor; [done|].
    apply Forall_impl with (1 := Hb). intros c Hc. by eapply Htrans.
  - constructor; [done|]. rewrite insert_sorted_perm. constructor; [|done].
    destruct (Htotal a b); congruence.
Qed.

Lemma stable_sort_sorted l : StronglySorted R (stable_sort leb l).
Proof.
  induction l as [|a l IH]; simpl; [constructor|]. by apply insert_sorted_sorted.
Qed.

(** A sort by a key that separates the elements depends only on which elements
    there are. *)
Lemma stable_sort_canonical l l' :
  l ≡ₚ l' ->
  (forall a b, a ∈ l -> b ∈ l -> leb a b = true -> leb b a = true -> a = b) ->
  stable_sort leb l = stable_sort leb l'.
Proof.
  intros Hperm Hanti.
  apply (StronglySorted_unique_strong R); [|apply stable_sort_sorted..|].
  - intros a b Ha Hb. rewrite (stable_sort_perm l) in Ha.
    rewrite (stable_sort_perm l'), <- Hperm in Hb. by apply Hanti.
  - by rewrite !stable_sort_perm.
Qed.
End sorting_facts.

(** ** Lookups *)
Section lookups.
Context {K V : Type} `{EqDecision K}.
Implicit Types m : list (K * V).

Lemma bt_get_elem k v m : bt_get k m = Some v -> (k, v) ∈ m.
Proof.
  induction m as [|[k' v'] m IH]; cbn; [done|]. case_decide; [|by constructor; apply IH].
  intros [= ->]. subst. by constructor.
Qed.

Lemma bt_get_intro k v m : NoDup (map fst m) -> (k, v) ∈ m -> bt_get k m = Some v.
Proof.
  induction m as [|[k' v'] m IH]; cbn; [by intros _ ?%elem_of_nil|].
  intros [Hk Hm]%NoDup_cons [[= -> ->]|Hin]%elem_of_cons; [by rewrite decide_True|].
  rewrite decide_False; [by apply IH|]. intros ->. apply Hk. by apply (list_elem_of_fmap_2 fst m (k', v)).
Qed.

Lemma bt_get_None k m : bt_get k m = None <-> k ∉ map fst m.
Proof.
  induction m as [|[k' v'] m IH]; cbn; [by split; [intros _ ?%elem_of_nil|]|].
  rewrite not_elem_of_cons. case_decide; [naive_solver|]. rewrite IH. naive_solver.
Qed.

Lemma bt_get_is_Some k m : is_Some (bt_get k m) <-> k ∈ map fst m.
Proof.
  rewrite <- (not_eq_None_Some (bt_get k m)), bt_get_None.
  destruct (decide (k ∈ map fst m)); naive_solver.
Qed.
End lookups.

Lemma zmap_insert_get {V} k k' (v : V) m :
  bt_get k' (zmap_insert k v m) = if decide (k' = k) then Some v else bt_get k' m.
Proof.
  induction m as [|[j w] m IH]; cbn; [done|].
  destruct (k <? j) eqn:?; cbn; [done|]. destruct (k =? j) eqn:?; cbn.
  - assert (k = j) as -> by lia. by repeat case_decide.
  - rewrite IH. repeat case_decide; try done; lia.
Qed.

Lemma zset_insert_elem k k' l : k' ∈ zset_insert k l <-> k' = k \/ k' ∈ l.
Proof.
  induction l as [|j l IH]; cbn; [by rewrite list_elem_of_singleton; split; [left|intros [|?%elem_of_nil]]|].
  destruct (k <? j) eqn:?; [by rewrite elem_of_cons|]. destruct (k =? j) eqn:?.
  - assert (k = j) as -> by lia. rewrite elem_of_cons. naive_solver.
  - rewrite !elem_of_cons, IH. naive_solver.
Qed.

Lemma zset_insert_sorted k l :
  StronglySorted Z.lt l -> StronglySorted Z.lt (zset_insert k l).
Proof.
  induction 1 as [|j l Hl IH Hj]; cbn; [by repeat constructor|].
  destruct (k <? j) eqn:?.
  - constructor; [by constructor|]. constructor; [lia|].
    eapply Forall_impl; [done|]. intros; lia.
  - destruct (k =? j) eqn:?; [by constructor|]. constructor; [done|].
    apply list.Forall_forall. intros x [->|Hx]%zset_insert_elem; [lia|].
    rewrite list.Forall_forall in Hj. by apply Hj.
Qed.

Lemma zmap_insert_elem {V} k (v : V) m e :
  e ∈ zmap_insert k v m -> e = (k, v) \/ e ∈ m.
Proof.
  induction m as [|[k' v'] m IH]; cbn; [set_solver|].
  destruct (k <? k') eqn:?; [set_solver|]. destruct (k =? k') eqn:?; set_solver.
Qed.

Lemma zmap_insert_sorted {V} k (v : V) m :
  StronglySorted Z.lt (map fst m) -> StronglySorted Z.lt (map fst (zmap_insert k v m)).
Proof.
  assert (forall m, map fst (zmap_insert k v m) = zset_insert k (map fst m)) as Hm.
  { clear. induction m as [|[k' v'] m IH]; cbn; [done|].
    destruct (k <? k') eqn:?; [done|]. destruct (k =? k') eqn:?; cbn; [|by rewrite IH].
    f_equal. lia. }
  rewrite Hm. apply zset_insert_sorted.
Qed.

Lemma zset_fold_elem {A} (g : A -> Z) l s k :
  k ∈ foldl (fun set a => zset_insert (g a) set) s l <-> k ∈ s \/ exists a, a ∈ l /\ k = g a.
Proof.
  revert s. induction l as [|a l IH]; intros s; cbn.
  - split; [by left|]. intros [|(?&?%elem_of_nil&_)]; done.
  - rewrite IH, zset_insert_elem. setoid_rewrite elem_of_cons. naive_solver.
Qed.

(** ** Loops with early returns

    What holds before a loop and is kept by every round holds after it, and no
    round fails in the excluded way. *)
Lemma try_fold_spec {S A E} (I : list A -> S -> Prop) (bad : E -> Prop) f l s :
  I [] s ->
  (forall past a rest s, l = past ++ a :: rest -> I past s ->
     match f s a with
     | Ok s' => I (past ++ [a]) s'
     | Err e => ~ bad e
     end) ->
  match try_fold f s l with
  | Ok s' => I l s'
  | Err e => ~ bad e
  end.
Proof.
  intros Hs Hf. assert (forall past rest s, l = past ++ rest -> I past s ->
    match try_fold f s rest with Ok s' => I l s' | Err e => ~ bad e end) as Hgo.
  { intros past rest. revert past. induction rest as [|a rest IH]; intros past s' Hl Hi; cbn.
    - by rewrite app_nil_r in Hl; subst.
    - specialize (Hf past a rest s' Hl Hi). destruct (f s' a) as [s''|]; [|done].
      apply (IH (past ++ [a])); [|done]. by rewrite <- app_assoc. }
  by apply (Hgo [] l s).
Qed.

(** The same for a loop that returned. *)
Lemma try_fold_inv {S A E} (I : list A -> S -> Prop) (f : S -> A -> result S E) l s s' :
  try_fold f s l = Ok s' -> I [] s ->
  (forall past a rest s s', l = past ++ a :: rest -> I past s -> f s a = Ok s' ->
     I (past ++ [a]) s') ->
  I l s'.
Proof.
  intros Hrun Hs Hf. pose proof (try_fold_spec I (fun _ => False) f l s Hs) as Hspec.
  rewrite Hrun in Hspec. apply Hspec. intros past a rest t Hl Hi.
  destruct (f t a) eqn:?; [by eapply Hf|tauto].
Qed.

(** A loop within a loop is one loop over the pairs. *)
Lemma try_fold_concat {S A B E} (f : S -> B -> result S E) (g : A -> list B) s l :
  try_fold (fun s a => try_fold f s (g a)) s l = try_fold f s (concat (map g l)).
Proof.
  assert (forall l1 l2 s, try_fold f s (l1 ++ l2)
    = match try_fold f s l1 with Ok s => try_fold f s l2 | Err e => Err e end) as Happ.
  { induction l1 as [|b l1 IH]; intros l2 s'; cbn; [done|]. destruct (f s' b); [apply IH|done]. }
  revert s. induction l as [|a l IH]; intros s; cbn; [done|]. rewrite Happ.
  destruct (try_fold f s (g a)); [apply IH|done].
Qed.

Lemma try_fold_ext {S A E} (f g : S -> A -> result S E) s l :
  (forall s a, a ∈ l -> f s a = g s a) -> try_fold f s l = try_fold g s l.
Proof.
  revert s. induction l as [|a l IH]; intros s Hfg; cbn; [done|].
  rewrite Hfg by constructor. destruct (g s a); [|done]. apply IH. intros. apply Hfg. by constructor.
Qed.

(** The parts of a concatenation without duplicates share no element. *)
Lemma NoDup_concat_unique {A B} (g : A -> list B) l x y b :
  NoDup (concat (map g l)) -> x ∈ l -> y ∈ l -> b ∈ g x -> b ∈ g y -> x = y.
Proof.
  induction l as [|a l IH]; cbn; [by intros _ ?%elem_of_nil|].
  intros (_&Hd&Hnd)%NoDup_app Hx Hy Hbx Hby.
  assert (forall z, z ∈ l -> b ∈ g z -> b ∈ concat (map g l)) as Hin.
  { intros z Hz Hb. apply list_elem_of_In, in_concat. exists (g z).
    split; [|by apply list_elem_of_In]. by apply in_map, list_elem_of_In. }
  apply elem_of_cons in Hx as [->|Hx], Hy as [->|Hy]; [done| | |by apply IH].
  - exfalso. eapply (Hd b); [done|]. by eapply Hin.
  - exfalso. eapply (Hd b); [done|]. by eapply Hin.
Qed.

Lemma elem_of_concat_map {A B} (g : A -> list B) l b :
  b ∈ concat (map g l) <-> exists x, x ∈ l /\ b ∈ g x.
Proof.
  rewrite list_elem_of_In, in_concat. setoid_rewrite in_map_iff. setoid_rewrite list_elem_of_In.
  naive_solver.
Qed.
