(* ===== verification/Identity.v ===== *)
(** * Submission identities

    Models [chain_submission/identity.rs] and the process-local operation keys
    of [chain_submission/coordination.rs]: the typed target of a submission,
    its validated identity, the durable primary key derived from it, the
    generation that binds an identity to a digest, and the candidate
    transaction hash. The theorems show that the durable key and the lock key
    separate distinct identities. *)

From Stdlib Require Import ZifyBool.
From stdpp Require Import base gmap strings list numbers.
From S2P Require Import Prelude.
Local Open Scope Z_scope.
Local Open Scope voting_scope.

(** ** Third-party functions

    [pallas::Base::from_repr] (is the encoding canonical?), [hex] and [base64]
    are crates outside this repository; the Unicode tables are those of the
    compiler's library. The documented facts the lifecycle relies on are that
    bytes are encoded by two lowercase hexadecimal digits each and decoded
    again. *)
Class Externals := {
  pallas_canonical : list Z -> bool;
  hex_encode : list Z -> string;
  hex_decode : text -> option (list Z);
  base64_encode : list Z -> text;
  base64_decode : text -> option (list Z);
  char_grapheme_extended : Z -> bool;
  char_printable : Z -> bool;
  hex_decode_encode : forall b,
    Forall is_u8 b -> hex_decode (lit (hex_encode b)) = Some b;
  hex_encode_digits : forall b,
    Forall is_u8 b ->
    Forall lower_hex (lit (hex_encode b)) /\ length (lit (hex_encode b)) = (2 * length b)%nat
}.

(** ** Data *)
Inductive Network := Testnet | Mainnet | Regtest.

Inductive ChainSubmissionTarget :=
| Delegation
| Vote (proposal_id : Z)
| VoteBatch (ordered_batch_digest : list Z)
| DelegateAndVoteBatch (ordered_batch_digest : list Z).

#[global] Instance Network_eq_dec : EqDecision Network.
Proof. solve_decision. Defined.
#[global] Instance ChainSubmissionTarget_eq_dec : EqDecision ChainSubmissionTarget.
Proof. solve_decision. Defined.

Definition batch_digest (t : ChainSubmissionTarget) : option (list Z) :=
  match t with
  | VoteBatch d | DelegateAndVoteBatch d => Some d
  | _ => None
  end.

Definition is_combined (t : ChainSubmissionTarget) : bool :=
  match t with
  | DelegateAndVoteBatch _ => true
  | _ => false
  end.

Record ChainSubmissionIdentity := mk_identity {
  wallet_id : string;
  network : Network;
  vote_round_id : list Z;
  bundle_index : Z;
  target : ChainSubmissionTarget
}.

#[global] Instance ChainSubmissionIdentity_eq_dec : EqDecision ChainSubmissionIdentity.
Proof. solve_decision. Defined.

Inductive ChainSubmissionIdentityError :=
| EmptyWalletId
| InvalidVoteRoundId
| InvalidProposalId (proposal_id : Z).

Definition MIN_PROPOSAL_ID : Z := 1.
Definition MAX_PROPOSAL_ID : Z := 50.
Definition DIGEST_BYTES : nat := 32.

(** [types::validate_vote_round_id_bytes], reduced to whether it succeeds:
    the only caller discards the error. *)
Definition validate_vote_round_id_bytes `{Externals} (id : list Z) : bool :=
  if decide (length id = DIGEST_BYTES) then pallas_canonical id else false.

(** [ChainSubmissionIdentity::new]. *)
Definition identity_new `{Externals} (w : string) (n : Network) (round : list Z)
    (bundle : Z) (t : ChainSubmissionTarget)
    : result ChainSubmissionIdentity ChainSubmissionIdentityError :=
  if decide (w = EmptyString) then Err EmptyWalletId
  else if negb (validate_vote_round_id_bytes round) then Err InvalidVoteRoundId
  else match t with
       | Vote p =>
           if (MIN_PROPOSAL_ID <=? p) && (p <=? MAX_PROPOSAL_ID)
           then Ok (mk_identity w n round bundle t)
           else Err (InvalidProposalId p)
       | _ => Ok (mk_identity w n round bundle t)
       end.

(** ** Durable key *)
Definition network_name (n : Network) : string :=
  match n with
  | Mainnet => "mainnet"
  | Testnet => "testnet"
  | Regtest => "regtest"
  end.

Definition identity_key_domain : list Z :=
  string_bytes "zcash_voting.chain_submission.identity.v1" ++ [0].

(** One length-prefixed component of the key. *)
Definition framed (value : list Z) : list Z :=
  be_bytes 8 (Z.of_nat (length value)) ++ value.

Definition target_key (t : ChainSubmissionTarget) : list Z :=
  match t with
  | Delegation => [0]
  | Vote p => 1 :: be_bytes 4 p
  | VoteBatch d | DelegateAndVoteBatch d =>
      (if is_combined t then 3 else 2) :: d
  end.

Definition submission_identity_key (i : ChainSubmissionIdentity) : list Z :=
  identity_key_domain
    ++ framed (string_bytes (wallet_id i))
    ++ framed (string_bytes (network_name (network i)))
    ++ framed (vote_round_id i)
    ++ be_bytes 4 (bundle_index i)
    ++ target_key (target i).

(** ** Process-local operation keys ([coordination.rs]) *)
Definition network_rank (n : Network) : Z :=
  match n with
  | Mainnet => 0
  | Testnet => 1
  | Regtest => 2
  end.

Record RoundOperationKey := mk_round_key {
  rk_wallet_id : string;
  rk_network : Z;
  rk_vote_round_id : list Z
}.

Record BundleOperationKey := mk_bundle_key {
  bk_round : RoundOperationKey;
  bk_bundle_index : Z
}.

Record SubmissionOperationKey := mk_operation_key {
  ok_bundle : BundleOperationKey;
  ok_target_kind : Z;
  ok_target_value : list Z
}.

#[global] Instance RoundOperationKey_eq_dec : EqDecision RoundOperationKey.
Proof. solve_decision. Defined.
#[global] Instance BundleOperationKey_eq_dec : EqDecision BundleOperationKey.
Proof. solve_decision. Defined.
#[global] Instance SubmissionOperationKey_eq_dec : EqDecision SubmissionOperationKey.
Proof. solve_decision. Defined.

Definition round_key (i : ChainSubmissionIdentity) : RoundOperationKey :=
  mk_round_key (wallet_id i) (network_rank (network i)) (vote_round_id i).

Definition bundle_key (i : ChainSubmissionIdentity) : BundleOperationKey :=
  mk_bundle_key (round_key i) (bundle_index i).

Definition operation_key (i : ChainSubmissionIdentity) : SubmissionOperationKey :=
  let '(kind, value) :=
    match target i with
    | Delegation => (0, [])
    | Vote p => (1, be_bytes 4 p)
    | VoteBatch d => (2, d)
    | DelegateAndVoteBatch d => (3, d)
    end in
  mk_operation_key (bundle_key i) kind value.

(** ** Generations and candidate hashes

    [ChainSubmissionGenerationDigest] and [CandidateTransactionHash] wrap 32
    bytes each. *)
Record ChainSubmissionGeneration := mk_generation {
  gen_identity : ChainSubmissionIdentity;
  gen_digest : list Z
}.

#[global] Instance ChainSubmissionGeneration_eq_dec : EqDecision ChainSubmissionGeneration.
Proof. solve_decision. Defined.

Definition CandidateTransactionHash := list Z.

(** ** Typing invariants

    What the Rust types guarantee of every value: 32-byte arrays, [u32]
    fields and allocations no longer than [u64::MAX]. *)
Definition wf_bytes32 (b : list Z) : Prop := length b = DIGEST_BYTES.

Definition wf_target (t : ChainSubmissionTarget) : Prop :=
  match t with
  | Delegation => True
  | Vote p => is_u32 p
  | VoteBatch d | DelegateAndVoteBatch d => wf_bytes32 d
  end.

Record wf_identity (i : ChainSubmissionIdentity) : Prop := {
  wf_wallet : Z.of_nat (String.length (wallet_id i)) <= u64_max;
  wf_round : wf_bytes32 (vote_round_id i);
  wf_bundle : is_u32 (bundle_index i);
  wf_tgt : wf_target (target i)
}.

(** ** A concrete reading of the third-party functions

    Lowercase hexadecimal, and the canonical encodings approximated by "every
    encoding is canonical"; used to evaluate the model on concrete inputs. *)
Definition hex_digit (d : Z) : Ascii.ascii :=
  Ascii.ascii_of_N (Z.to_N (if d <? 10 then 48 + d else 87 + d)).

Fixpoint hex_string (l : list Z) : string :=
  match l with
  | [] => EmptyString
  | b :: l => String (hex_digit (b / 16)) (String (hex_digit (b mod 16)) (hex_string l))
  end.

Definition hex_undigit (c : Z) : option Z :=
  if (48 <=? c) && (c <=? 57) then Some (c - 48)
  else if (97 <=? c) && (c <=? 102) then Some (c - 87) else None.

Fixpoint hex_parse (t : text) : option (list Z) :=
  match t with
  | [] => Some []
  | a :: b :: t =>
      match hex_undigit a, hex_undigit b, hex_parse t with
      | Some a, Some b, Some l => Some (16 * a + b :: l)
      | _, _, _ => None
      end
  | _ => None
  end.

(** A concrete identity. *)
Definition example_identity : ChainSubmissionIdentity :=
  mk_identity "wallet" Mainnet (replicate 32 1) 0 (Vote 3).

(** ** Lemmas *)
Lemma network_name_inj a b : network_name a = network_name b -> a = b.
Proof. by destruct a, b. Qed.

Lemma network_rank_inj a b : network_rank a = network_rank b -> a = b.
Proof. by destruct a, b. Qed.

Lemma framed_app_inj a b x y :
  Z.of_nat (length a) <= u64_max -> Z.of_nat (length b) <= u64_max ->
  framed a ++ x = framed b ++ y -> a = b /\ x = y.
Proof.
  unfold framed. intros Ha Hb H. rewrite <- !app_assoc in H.
  apply app_inj_1 in H as [Hlen H]; [|by rewrite !length_be_bytes].
  apply be_bytes_inj in Hlen; [|unfold u64_max in *; lia..].
  apply app_inj_1 in H; [done|lia].
Qed.

Lemma target_key_inj a b :
  wf_target a -> wf_target b -> target_key a = target_key b -> a = b.
Proof.
  destruct a as [|p|d|d], b as [|q|e|e]; simpl; intros Ha Hb H;
    try (exfalso; congruence); try congruence.
  apply (f_equal tail) in H. simpl in H. f_equal.
  eapply (be_bytes_inj 4); [..|eassumption]; unfold is_u32, u32_max in *; lia.
Qed.

Lemma bundle_key_inj_fields i j :
  bundle_key i = bundle_key j ->
  wallet_id i = wallet_id j /\ network i = network j /\
  vote_round_id i = vote_round_id j /\ bundle_index i = bundle_index j.
Proof.
  unfold bundle_key, round_key. intros H. simplify_eq.
  eauto using network_rank_inj.
Qed.

Lemma operation_key_bundle i : ok_bundle (operation_key i) = bundle_key i.
Proof. unfold operation_key. by destruct (target i). Qed.

Lemma operation_key_target i :
  target_key (target i) = ok_target_kind (operation_key i) :: ok_target_value (operation_key i).
Proof. unfold operation_key. by destruct (target i). Qed.

(** Durable key: two identities with the same primary key are equal. *)
Theorem submission_identity_key_injective (i j : ChainSubmissionIdentity) :
  wf_identity i -> wf_identity j ->
  submission_identity_key i = submission_identity_key j -> i = j.
Proof.
  intros [Hwi Hri Hbi Hti] [Hwj Hrj Hbj Htj] H. unfold submission_identity_key in H.
  apply app_inj_1 in H as [_ H]; [|done].
  apply framed_app_inj in H as [Hw H]; [|rewrite length_string_bytes; lia..].
  apply framed_app_inj in H as [Hn H];
    [|by destruct (network i)|by destruct (network j)].
  apply framed_app_inj in H as [Hr H];
    [|unfold wf_bytes32, DIGEST_BYTES, u64_max in *; lia..].
  apply app_inj_1 in H as [Hb H]; [|by rewrite !length_be_bytes].
  apply be_bytes_inj in Hb; [|unfold is_u32, u32_max in *; lia..].
  apply target_key_inj in H; [|done..].
  apply string_bytes_inj in Hw, Hn. apply network_name_inj in Hn.
  destruct i, j; simpl in *; by subst.
Qed.

(** The lock key separates identities whose target is well formed. *)
Lemma operation_key_injective i j :
  wf_target (target i) -> wf_target (target j) -> operation_key i = operation_key j -> i = j.
Proof.
  intros Hi Hj H.
  assert (bundle_key i = bundle_key j) as Hb by (by rewrite <- !operation_key_bundle, H).
  apply bundle_key_inj_fields in Hb as (? & ? & ? & ?).
  assert (target i = target j) as Ht.
  { apply target_key_inj; [done..|]. by rewrite !operation_key_target, H. }
  destruct i, j; simpl in *; by subst.
Qed.

Lemma hex_digit_code d :
  0 <= d < 16 ->
  Z.of_N (Ascii.N_of_ascii (hex_digit d)) = if d <? 10 then 48 + d else 87 + d.
Proof.
  intros Hd. unfold hex_digit. rewrite Ascii.N_ascii_embedding by (case_match; lia).
  rewrite Z2N.id; [done|case_match; lia].
Qed.

Lemma hex_undigit_digit d :
  0 <= d < 16 -> hex_undigit (Z.of_N (Ascii.N_of_ascii (hex_digit d))) = Some d.
Proof.
  intros Hd. rewrite hex_digit_code by done. unfold hex_undigit.
  repeat case_match; try (f_equal; lia); lia.
Qed.

Lemma hex_parse_string b : Forall is_u8 b -> hex_parse (lit (hex_string b)) = Some b.
Proof.
  unfold lit. induction 1 as [|x b Hx _ IH]; [done|]. unfold is_u8, u8_max in Hx.
  cbn [hex_string string_bytes hex_parse].
  rewrite !hex_undigit_digit, IH by (Z.to_euclidean_division_equations; lia).
  do 2 f_equal. Z.to_euclidean_division_equations; lia.
Qed.

Lemma hex_string_digits b :
  Forall is_u8 b ->
  Forall lower_hex (lit (hex_string b)) /\ length (lit (hex_string b)) = (2 * length b)%nat.
Proof.
  unfold lit. induction 1 as [|x b Hx _ [IHd IHl]]; [by split; [constructor|]|].
  unfold is_u8, u8_max in Hx. cbn [hex_string string_bytes length]. split; [|lia].
  constructor; [|constructor; [|done]]; unfold lower_hex;
    rewrite hex_digit_code by (Z.to_euclidean_division_equations; lia); case_match;
    Z.to_euclidean_division_equations; lia.
Qed.

(** [base64] is any invertible code here; the identity is one. *)
Definition example_externals : Externals := {|
  pallas_canonical := fun _ => true;
  hex_encode := hex_string;
  hex_decode := hex_parse;
  base64_encode := id;
  base64_decode := Some;
  char_grapheme_extended := fun _ => false;
  char_printable := fun c => bool_decide (32 <= c < 127);
  hex_decode_encode := hex_parse_string;
  hex_encode_digits := hex_string_digits
|}.

Lemma example_identity_wf : wf_identity example_identity.
Proof. split; unfold is_u32, u32_max; simpl; try done; lia. Qed.

Lemma submission_identity_key_injective_witness :
  wf_identity example_identity /\ example_identity = example_identity.
Proof.
  split; [exact example_identity_wf|].
  exact (submission_identity_key_injective example_identity example_identity
           example_identity_wf example_identity_wf eq_refl).
Defined.
