(* ===== verification/Outcome.v ===== *)
(** * Outcomes, diagnostics and confirmations

    Models [chain_submission/result.rs]: the durable state names, the bounded
    and escaped diagnostics, the validated confirmations, the public result of
    an advancement pass and the failure value that carries the strongest state
    known when an operation failed. The theorems show that a diagnostic always
    satisfies the length and character constraints of its column, that its
    stable name round-trips, and that a validated confirmation addresses only
    leaves of the commitment tree. *)

From Stdlib Require Import ZifyBool.
From stdpp Require Import base gmap strings list numbers.
From S2P Require Import Prelude Identity.
Local Open Scope Z_scope.
Local Open Scope voting_scope.

Definition MAX_CHAIN_SUBMISSION_DIAGNOSTIC_BYTES : Z := 512.
Definition TREE_DEPTH : Z := 24.
Definition TREE_CAPACITY : Z := Z.shiftl 1 TREE_DEPTH.

(** ** Durable states and diagnostic kinds *)
Inductive ChainSubmissionState :=
| SSubmitting
| STracking
| SRecovering
| SSubmittedWithoutHash
| SConfirmed
| SRejected.

Inductive ChainSubmissionDiagnosticKind :=
| AmbiguousDispatch
| AmbiguousAttemptsExhausted
| NullifierAlreadySpent
| KTrackingWindowExpired
| ChainRejected
| ReconciliationPending
| InvalidProtocolResponse
| StorageFailure
| EndpointUnsupported
| RouteAnswerReplaced.

#[global] Instance ChainSubmissionState_eq_dec : EqDecision ChainSubmissionState.
Proof. solve_decision. Defined.
#[global] Instance ChainSubmissionDiagnosticKind_eq_dec :
  EqDecision ChainSubmissionDiagnosticKind.
Proof. solve_decision. Defined.

Definition kind_as_str (k : ChainSubmissionDiagnosticKind) : string :=
  match k with
  | AmbiguousDispatch => "ambiguous_dispatch"
  | AmbiguousAttemptsExhausted => "ambiguous_attempts_exhausted"
  | NullifierAlreadySpent => "nullifier_already_spent"
  | KTrackingWindowExpired => "tracking_window_expired"
  | ChainRejected => "chain_rejected"
  | ReconciliationPending => "reconciliation_pending"
  | InvalidProtocolResponse => "invalid_protocol_response"
  | StorageFailure => "storage_failure"
  | EndpointUnsupported => "endpoint_unsupported"
  | RouteAnswerReplaced => "route_answer_replaced"
  end.

Definition kind_from_stable_name (s : string) : option ChainSubmissionDiagnosticKind :=
  if decide (s = "ambiguous_dispatch") then Some AmbiguousDispatch
  else if decide (s = "ambiguous_attempts_exhausted") then Some AmbiguousAttemptsExhausted
  else if decide (s = "nullifier_already_spent") then Some NullifierAlreadySpent
  else if decide (s = "tracking_window_expired") then Some KTrackingWindowExpired
  else if decide (s = "chain_rejected") then Some ChainRejected
  else if decide (s = "reconciliation_pending") then Some ReconciliationPending
  else if decide (s = "invalid_protocol_response") then Some InvalidProtocolResponse
  else if decide (s = "storage_failure") then Some StorageFailure
  else if decide (s = "endpoint_unsupported") then Some EndpointUnsupported
  else if decide (s = "route_answer_replaced") then Some RouteAnswerReplaced
  else None.

(** ** Escaping

    [char::escape_default] and [char::len_utf8] of the Rust standard library. *)
Definition char_len_utf8 (c : Z) : Z :=
  if c <? 128 then 1 else if c <? 2048 then 2 else if c <? 65536 then 3 else 4.

Definition text_len_utf8 (t : text) : Z := foldr (fun c n => char_len_utf8 c + n) 0 t.

Definition lower_hex_digit (d : Z) : Z := if d <? 10 then 48 + d else 87 + d.

Fixpoint strip_leading_zeros (ds : list Z) : list Z :=
  match ds with
  | d :: ((_ :: _) as rest) => if d =? 0 then strip_leading_zeros rest else ds
  | _ => ds
  end.

Definition hex_digits (c : Z) : list Z :=
  strip_leading_zeros
    ((fun k => (c / 16 ^ k) mod 16) <$> [5; 4; 3; 2; 1; 0]).

Definition escape_unicode (c : Z) : text :=
  [92; 117; 123] ++ (lower_hex_digit <$> hex_digits c) ++ [125].

Definition escape_default (c : Z) : text :=
  if c =? 9 then [92; 116]
  else if c =? 13 then [92; 114]
  else if c =? 10 then [92; 110]
  else if (c =? 39) || (c =? 34) || (c =? 92) then [92; c]
  else if (32 <=? c) && (c <=? 126) then [c]
  else escape_unicode c.

(** The loop of [bounded_redacted_text]: stop at the first character whose
    complete escape does not fit. *)
Fixpoint bounded_redacted_loop (bounded : text) (chars : text) : text :=
  match chars with
  | [] => bounded
  | character :: rest =>
      let escaped_length := text_len_utf8 (escape_default character) in
      if MAX_CHAIN_SUBMISSION_DIAGNOSTIC_BYTES <? text_len_utf8 bounded + escaped_length
      then bounded
      else bounded_redacted_loop (bounded ++ escape_default character) rest
  end.

Definition bounded_redacted_text (redacted_message : text) : text :=
  bounded_redacted_loop [] redacted_message.

(** ** Diagnostics *)
Record ChainSubmissionDiagnostic := mk_diagnostic {
  diag_kind : ChainSubmissionDiagnosticKind;
  diag_message : text
}.

#[global] Instance ChainSubmissionDiagnostic_eq_dec : EqDecision ChainSubmissionDiagnostic.
Proof. solve_decision. Defined.

Definition from_redacted_message (k : ChainSubmissionDiagnosticKind) (m : text)
    : ChainSubmissionDiagnostic :=
  mk_diagnostic k (bounded_redacted_text m).

(** ** Confirmations *)
Inductive ChainSubmissionConfirmationSource := HashSource | TreeSource.

Record ChainSubmissionConfirmation := mk_confirmation {
  conf_source : ChainSubmissionConfirmationSource;
  conf_transaction_hash : option CandidateTransactionHash;
  conf_final_van_position : Z;
  conf_vote_commitment_positions : list Z
}.

Inductive ValidatedChainSubmissionConfirmation :=
| VHash (c : ChainSubmissionConfirmation)
| VTree (c : ChainSubmissionConfirmation).

Inductive ChainSubmissionConfirmationError := PositionOutOfRange.

#[global] Instance ChainSubmissionConfirmationSource_eq_dec :
  EqDecision ChainSubmissionConfirmationSource.
Proof. solve_decision. Defined.
#[global] Instance ChainSubmissionConfirmation_eq_dec : EqDecision ChainSubmissionConfirmation.
Proof. solve_decision. Defined.
#[global] Instance ValidatedChainSubmissionConfirmation_eq_dec :
  EqDecision ValidatedChainSubmissionConfirmation.
Proof. solve_decision. Defined.

(** [ValidatedChainSubmissionConfirmation::confirmation] and [into_public]. *)
Definition confirmation (v : ValidatedChainSubmissionConfirmation) : ChainSubmissionConfirmation :=
  match v with
  | VHash c | VTree c => c
  end.

Definition validate_tree_positions (final_van : Z) (positions : list Z)
    : result unit ChainSubmissionConfirmationError :=
  if (TREE_CAPACITY <=? final_van) || existsb (fun p => TREE_CAPACITY <=? p) positions
  then Err PositionOutOfRange
  else Ok tt.

Definition from_hash (h : CandidateTransactionHash) (final_van : Z) (positions : list Z)
    : result ValidatedChainSubmissionConfirmation ChainSubmissionConfirmationError :=
  let? _ := validate_tree_positions final_van positions in
  Ok (VHash (mk_confirmation HashSource (Some h) final_van positions)).

Definition from_tree (final_van : Z) (positions : list Z)
    : result ValidatedChainSubmissionConfirmation ChainSubmissionConfirmationError :=
  let? _ := validate_tree_positions final_van positions in
  Ok (VTree (mk_confirmation TreeSource None final_van positions)).

(** ** Results and failures *)
Inductive ChainSubmissionPending :=
| PTracking (candidate : CandidateTransactionHash)
| PRecovering (candidate : option CandidateTransactionHash)
              (diagnostic : ChainSubmissionDiagnostic).

Inductive ChainSubmissionResult :=
| RConfirmed (c : ChainSubmissionConfirmation)
| RPending (p : ChainSubmissionPending)
| RSubmittedWithoutHash (d : ChainSubmissionDiagnostic)
| RRejected (d : ChainSubmissionDiagnostic)
| RCancelled.

Definition result_durable_state (r : ChainSubmissionResult) : option ChainSubmissionState :=
  match r with
  | RConfirmed _ => Some SConfirmed
  | RPending (PTracking _) => Some STracking
  | RPending (PRecovering _ _) => Some SRecovering
  | RSubmittedWithoutHash _ => Some SSubmittedWithoutHash
  | RRejected _ => Some SRejected
  | RCancelled => None
  end.

Inductive ChainSubmissionFailureKind :=
| FInvalidInput
| FInvariantViolation
| FStorage
| FTransport
| FProtocol.

Inductive ChainSubmissionStateEvidence :=
| Durable
| KnownPossiblyDispatched.

Record ChainSubmissionFailureState := mk_failure_state {
  fs_state : ChainSubmissionState;
  fs_evidence : ChainSubmissionStateEvidence
}.

Record ChainSubmissionFailure := mk_failure {
  fail_kind : ChainSubmissionFailureKind;
  fail_strongest_state : option ChainSubmissionFailureState;
  fail_message : text
}.

Definition failure_state_durable (s : ChainSubmissionState) : ChainSubmissionFailureState :=
  mk_failure_state s Durable.

Definition failure_state_known_possibly_dispatched : ChainSubmissionFailureState :=
  mk_failure_state SRecovering KnownPossiblyDispatched.

Definition without_state (k : ChainSubmissionFailureKind) (m : text) : ChainSubmissionFailure :=
  mk_failure k None (bounded_redacted_text m).

Definition with_durable_state (k : ChainSubmissionFailureKind) (s : ChainSubmissionState)
    (m : text) : ChainSubmissionFailure :=
  mk_failure k (Some (failure_state_durable s)) (bounded_redacted_text m).

Definition with_known_possible_dispatch (k : ChainSubmissionFailureKind) (m : text)
    : ChainSubmissionFailure :=
  mk_failure k (Some failure_state_known_possibly_dispatched) (bounded_redacted_text m).

(** The coordinator's [attach_state] closures: keep a state the error already
    carries, otherwise report [s] as durable. *)
Definition attach_state (s : ChainSubmissionState) (e : ChainSubmissionFailure)
    : ChainSubmissionFailure :=
  match fail_strongest_state e with
  | Some _ => e
  | None => with_durable_state (fail_kind e) s (fail_message e)
  end.

(** ** Lemmas on escaping *)
Definition printable (c : Z) : Prop := 32 <= c <= 126.

(** The characters [escape_default] leaves alone. *)
Definition plain_char (c : Z) : Prop := printable c /\ c <> 34 /\ c <> 39 /\ c <> 92.

Lemma text_len_utf8_app a b : text_len_utf8 (a ++ b) = text_len_utf8 a + text_len_utf8 b.
Proof.
  unfold text_len_utf8. induction a as [|c a IH]; simpl; [done|]. rewrite IH. lia.
Qed.

Lemma text_len_utf8_nonneg t : 0 <= text_len_utf8 t.
Proof.
  unfold text_len_utf8. induction t as [|c t IH]; simpl; [done|].
  unfold char_len_utf8 at 1. repeat case_match; lia.
Qed.

Lemma strip_leading_zeros_subset ds d : d ∈ strip_leading_zeros ds -> d ∈ ds.
Proof.
  induction ds as [|x [|y ds] IH]; simpl; [done..|].
  case_match; [|done]. intros Hd. apply list_elem_of_further. by apply IH.
Qed.

Lemma escape_default_printable c : Forall printable (escape_default c).
Proof.
  unfold escape_default, escape_unicode, printable.
  repeat case_match; try (repeat constructor; lia).
  apply Forall_app; split; [repeat constructor; lia|].
  apply Forall_app; split; [|repeat constructor; lia].
  apply Forall_fmap, Forall_forall. intros d Hd. simpl.
  apply list_elem_of_In in Hd. apply strip_leading_zeros_subset, list_elem_of_fmap in Hd as (k & -> & _).
  unfold lower_hex_digit.
  assert (0 <= (c / 16 ^ k) mod 16 < 16) by (apply Z.mod_pos_bound; done).
  case_match; lia.
Qed.

Lemma escape_default_plain c : plain_char c -> escape_default c = [c].
Proof.
  intros ((Hlo & Hhi) & H34 & H39 & H92). unfold escape_default.
  repeat case_match; try done; lia.
Qed.

(** The whole behaviour of the loop: it appends the escapes of a prefix of the
    input, and the prefix is maximal. *)
Lemma bounded_redacted_loop_spec bounded chars :
  text_len_utf8 bounded <= MAX_CHAIN_SUBMISSION_DIAGNOSTIC_BYTES ->
  exists k, (k <= length chars)%nat /\
    bounded_redacted_loop bounded chars = bounded ++ mjoin (escape_default <$> take k chars) /\
    text_len_utf8 (bounded_redacted_loop bounded chars)
      <= MAX_CHAIN_SUBMISSION_DIAGNOSTIC_BYTES /\
    (k = length chars \/
     MAX_CHAIN_SUBMISSION_DIAGNOSTIC_BYTES <
       text_len_utf8 (bounded ++ mjoin (escape_default <$> take (S k) chars))).
Proof.
  revert bounded. induction chars as [|c rest IH]; intros bounded Hb; simpl.
  - exists 0%nat. simpl. rewrite app_nil_r. auto.
  - case_match eqn:Hfit.
    + exists 0%nat. simpl. rewrite !app_nil_r. apply Z.ltb_lt in Hfit.
      split_and!; [lia|done|done|right]. by rewrite text_len_utf8_app.
    + apply Z.ltb_ge in Hfit. rewrite <- text_len_utf8_app in Hfit.
      destruct (IH _ Hfit) as (k & Hk & Heq & Hlen & Hmax).
      exists (S k). cbn [take fmap list_fmap mjoin list_join length].
      rewrite <- app_assoc in Heq, Hmax.
      split_and!; [lia|done|done|].
      destruct Hmax as [->|Hmax]; [by left|right]. done.
Qed.

Lemma bounded_redacted_loop_printable bounded chars :
  Forall printable bounded -> Forall printable (bounded_redacted_loop bounded chars).
Proof.
  revert bounded. induction chars as [|c rest IH]; intros bounded Hb; simpl; [done|].
  case_match; [done|]. apply IH, Forall_app. auto using escape_default_printable.
Qed.

Lemma bounded_redacted_text_length m :
  text_len_utf8 (bounded_redacted_text m) <= MAX_CHAIN_SUBMISSION_DIAGNOSTIC_BYTES.
Proof.
  destruct (bounded_redacted_loop_spec [] m) as (k & _ & _ & H & _); [done|exact H].
Qed.

Lemma mjoin_escape_plain m : Forall plain_char m -> mjoin (escape_default <$> m) = m.
Proof.
  induction 1 as [|c m Hc Hm IH]; [done|].
  cbn [fmap list_fmap mjoin list_join]. rewrite escape_default_plain by done.
  simpl. f_equal. exact IH.
Qed.

(** Short plain text is a fixed point of the redaction. *)
Lemma bounded_redacted_text_plain m :
  Forall plain_char m -> text_len_utf8 m <= MAX_CHAIN_SUBMISSION_DIAGNOSTIC_BYTES ->
  bounded_redacted_text m = m.
Proof.
  intros Hm Hlen. unfold bounded_redacted_text.
  destruct (bounded_redacted_loop_spec [] m) as (k & Hk & Heq & _ & Hmax); [done|].
  rewrite Heq. simpl in *. rewrite mjoin_escape_plain by (by apply Forall_take).
  destruct Hmax as [->|Hmax]; [by rewrite firstn_all|].
  rewrite mjoin_escape_plain in Hmax by (by apply Forall_take).
  exfalso. rewrite <- (take_drop (S k) m), text_len_utf8_app in Hlen.
  pose proof (text_len_utf8_nonneg (drop (S k) m)). lia.
Qed.

(** Diagnostics: every diagnostic built by the lifecycle is printable
    ASCII of at most 512 bytes, made of the complete escapes of the longest
    prefix of the message that fits; no escape sequence is ever cut. *)
Theorem diagnostic_bounded_and_escaped (k : ChainSubmissionDiagnosticKind) (m : text) :
  let d := from_redacted_message k m in
  text_len_utf8 (diag_message d) <= MAX_CHAIN_SUBMISSION_DIAGNOSTIC_BYTES /\
  Forall printable (diag_message d) /\
  exists n, diag_message d = mjoin (escape_default <$> take n m) /\
    (n = length m \/
     MAX_CHAIN_SUBMISSION_DIAGNOSTIC_BYTES
       < text_len_utf8 (mjoin (escape_default <$> take (S n) m))).
Proof.
  simpl. split_and!.
  - apply bounded_redacted_text_length.
  - by apply bounded_redacted_loop_printable.
  - destruct (bounded_redacted_loop_spec [] m) as (n & _ & Heq & _ & Hmax); [done|].
    exists n. split; [exact Heq|]. destruct Hmax; [by left|by right].
Qed.

(** Diagnostic names: the stable discriminator stored in a row parses
    back to its kind, and nothing else parses to that kind. *)
Theorem diagnostic_kind_name_roundtrip (s : string) (k : ChainSubmissionDiagnosticKind) :
  kind_from_stable_name s = Some k <-> s = kind_as_str k.
Proof.
  split.
  - unfold kind_from_stable_name. intros H. repeat case_decide; by simplify_eq.
  - intros ->. by destruct k.
Qed.

Lemma validate_tree_positions_ok v ps :
  validate_tree_positions v ps = Ok tt <-> v < TREE_CAPACITY /\ Forall (fun p => p < TREE_CAPACITY) ps.
Proof.
  unfold validate_tree_positions. case_match eqn:H.
  - split; [done|]. intros [Hv Hps]. apply orb_true_iff in H as [H|H]; [lia|].
    apply existsb_exists in H as (p & Hin & Hp).
    rewrite List.Forall_forall in Hps. specialize (Hps p Hin). lia.
  - apply orb_false_iff in H as [Hv Hps]. split; [intros _|done].
    split; [lia|]. apply List.Forall_forall. intros p Hin.
    destruct (TREE_CAPACITY <=? p) eqn:Hp; [|lia].
    rewrite (proj2 (existsb_exists _ _)) in Hps by eauto. done.
Qed.

(** Confirmation positions: both constructors of a validated
    confirmation succeed exactly when every position addresses a leaf of the
    depth-24 tree, and then record the source, the hash and the positions. *)
Theorem validated_confirmation_positions (h : CandidateTransactionHash) (v : Z) (ps : list Z) :
  let in_tree := v < TREE_CAPACITY /\ Forall (fun p => p < TREE_CAPACITY) ps in
  (forall c, from_hash h v ps = Ok c <->
     in_tree /\ c = VHash (mk_confirmation HashSource (Some h) v ps)) /\
  (forall c, from_tree v ps = Ok c <->
     in_tree /\ c = VTree (mk_confirmation TreeSource None v ps)).
Proof.
  intros in_tree. unfold in_tree.
  split; intros c; rewrite <- validate_tree_positions_ok;
    unfold from_hash, from_tree;
    destruct (validate_tree_positions v ps) as [[]|]; naive_solver.
Qed.
