(* ===== verification/Lifecycle.v ===== *)
(** * The submission state machine

    Models [chain_submission/state.rs]: the typed state of one semantic
    generation, the observations the coordinator applies to it, and the pure
    transition function. The theorems show that the transition function
    accepts exactly the documented edges, that a row disappears or is
    terminally rejected only when nothing can have been dispatched, and where
    candidate hashes and dispatch evidence come from. *)

From stdpp Require Import base gmap strings list numbers.
From S2P Require Import Prelude Identity Outcome.
Local Open Scope Z_scope.
Local Open Scope voting_scope.

(** ** States and observations *)
Inductive SubmissionRecordState :=
| Submitting
| Tracking (candidate_transaction_hash : CandidateTransactionHash)
| Recovering (candidate_transaction_hash : option CandidateTransactionHash)
             (ambiguity_diagnostic : ChainSubmissionDiagnostic)
| SubmittedWithoutHash (d : ChainSubmissionDiagnostic)
| Confirmed (v : ValidatedChainSubmissionConfirmation)
| Rejected (d : ChainSubmissionDiagnostic).

#[global] Instance SubmissionRecordState_eq_dec : EqDecision SubmissionRecordState.
Proof. solve_decision. Defined.

Inductive SubmissionObservation :=
| OReserveFreshSubmission
| ODefinitelyNotDispatched
| OUsableCandidateHash (candidate : CandidateTransactionHash)
| OPossiblyDispatched (d : ChainSubmissionDiagnostic)
| ODefiniteRejection (d : ChainSubmissionDiagnostic)
| OTerminalRejection (d : ChainSubmissionDiagnostic)
| OSubmittedWithoutHash (d : ChainSubmissionDiagnostic)
| OCandidatePending
| OTrackingWindowExpired (d : ChainSubmissionDiagnostic)
| OCandidateCommittedFailure (d : ChainSubmissionDiagnostic)
| OTerminalCandidateFailure (d : ChainSubmissionDiagnostic)
| OConfirmed (v : ValidatedChainSubmissionConfirmation)
| OContinueRecovery
| OAbandonedSubmitting (d : ChainSubmissionDiagnostic).

Inductive SubmissionTransitionError :=
| IllegalTransition (from : option ChainSubmissionState) (observation : string)
| ConflictingCandidateHash
| ConfirmationDoesNotMatchCandidate
| ConflictingConfirmation.

(** ** Queries on a state *)

(** The kinds recorded by a POST that may have been dispatched. *)
Definition is_dispatch_ambiguity (k : ChainSubmissionDiagnosticKind) : bool :=
  match k with
  | AmbiguousDispatch | InvalidProtocolResponse | EndpointUnsupported
  | RouteAnswerReplaced => true
  | _ => false
  end.

Definition permits_ambiguous_retry (s : SubmissionRecordState) : bool :=
  match s with
  | Recovering None d => is_dispatch_ambiguity (diag_kind d)
  | _ => false
  end.

Definition has_unresolved_dispatch (s : SubmissionRecordState) : bool :=
  match s with
  | Recovering _ d =>
      match diag_kind d with
      | AmbiguousDispatch | InvalidProtocolResponse | EndpointUnsupported
      | RouteAnswerReplaced | KTrackingWindowExpired => true
      | _ => false
      end
  | _ => false
  end.

Definition durable_state (s : SubmissionRecordState) : ChainSubmissionState :=
  match s with
  | Submitting => SSubmitting
  | Tracking _ => STracking
  | Recovering _ _ => SRecovering
  | SubmittedWithoutHash _ => SSubmittedWithoutHash
  | Confirmed _ => SConfirmed
  | Rejected _ => SRejected
  end.

Definition observation_name (o : SubmissionObservation) : string :=
  match o with
  | OReserveFreshSubmission => "reserve_fresh_submission"
  | ODefinitelyNotDispatched => "definitely_not_dispatched"
  | OUsableCandidateHash _ => "usable_candidate_hash"
  | OPossiblyDispatched _ => "possibly_dispatched"
  | ODefiniteRejection _ => "definite_rejection"
  | OTerminalRejection _ => "terminal_rejection"
  | OSubmittedWithoutHash _ => "submitted_without_hash"
  | OCandidatePending => "candidate_pending"
  | OTrackingWindowExpired _ => "tracking_window_expired"
  | OCandidateCommittedFailure _ => "candidate_committed_failure"
  | OTerminalCandidateFailure _ => "terminal_candidate_failure"
  | OConfirmed _ => "confirmed"
  | OContinueRecovery => "continue_recovery"
  | OAbandonedSubmitting _ => "abandoned_submitting"
  end.

(** ** Confirmation checks *)
Definition require_hash_confirmation_for_candidate
    (v : ValidatedChainSubmissionConfirmation) (candidate : CandidateTransactionHash)
    : result unit SubmissionTransitionError :=
  match v with
  | VHash c =>
      if decide (conf_transaction_hash c = Some candidate)
      then Ok tt
      else Err ConfirmationDoesNotMatchCandidate
  | VTree _ => Err ConfirmationDoesNotMatchCandidate
  end.

Definition require_valid_recovery_confirmation
    (v : ValidatedChainSubmissionConfirmation) (candidate : option CandidateTransactionHash)
    : result unit SubmissionTransitionError :=
  match v with
  | VHash _ =>
      match candidate with
      | None => Err ConfirmationDoesNotMatchCandidate
      | Some candidate => require_hash_confirmation_for_candidate v candidate
      end
  | VTree _ => Ok tt
  end.

(** ** The transition function *)
Definition illegal_transition (current : option SubmissionRecordState)
    (o : SubmissionObservation)
    : result (option SubmissionRecordState) SubmissionTransitionError :=
  Err (IllegalTransition (durable_state <$> current) (observation_name o)).

Definition apply_submission_observation (current : option SubmissionRecordState)
    (o : SubmissionObservation)
    : result (option SubmissionRecordState) SubmissionTransitionError :=
  match current, o with
  | None, OReserveFreshSubmission => Ok (Some Submitting)

  | Some Submitting, ODefinitelyNotDispatched => Ok None
  | Some Submitting, OUsableCandidateHash candidate => Ok (Some (Tracking candidate))
  | Some Submitting, OPossiblyDispatched d
  | Some Submitting, OAbandonedSubmitting d => Ok (Some (Recovering None d))
  | Some Submitting, ODefiniteRejection d => Ok (Some (Recovering None d))
  | Some Submitting, OTerminalRejection d => Ok (Some (Rejected d))
  | Some Submitting, OSubmittedWithoutHash d
  | Some (Recovering _ _), OSubmittedWithoutHash d => Ok (Some (SubmittedWithoutHash d))

  | Some (Tracking candidate), OCandidatePending => Ok (Some (Tracking candidate))
  | Some (Tracking candidate), OTrackingWindowExpired d =>
      Ok (Some (Recovering (Some candidate) d))
  | Some (Tracking _), OCandidateCommittedFailure d => Ok (Some (Recovering None d))
  | Some (Tracking _), OTerminalCandidateFailure d
  | Some (Recovering _ _), OTerminalCandidateFailure d => Ok (Some (Rejected d))
  | Some (Tracking candidate), OConfirmed v =>
      let? _ := require_hash_confirmation_for_candidate v candidate in
      Ok (Some (Confirmed v))

  | Some (Recovering None _), OUsableCandidateHash candidate =>
      Ok (Some (Tracking candidate))
  | Some (Recovering (Some existing) d), OUsableCandidateHash candidate =>
      if decide (existing = candidate)
      then Ok (Some (Recovering (Some existing) d))
      else Err ConflictingCandidateHash
  | Some (Recovering None _), OPossiblyDispatched d => Ok (Some (Recovering None d))
  | Some (Recovering c d), OContinueRecovery => Ok (Some (Recovering c d))
  | Some (Recovering c d), OPossiblyDispatched _ => Ok (Some (Recovering c d))
  | Some (Recovering c d), ODefiniteRejection _ => Ok (Some (Recovering c d))
  | Some (Recovering c d), ODefinitelyNotDispatched => Ok (Some (Recovering c d))
  | Some (Recovering (Some c) d), OCandidatePending => Ok (Some (Recovering (Some c) d))
  | Some (Recovering (Some _) _), OCandidateCommittedFailure d =>
      Ok (Some (Recovering None d))
  | Some (Recovering candidate _), OConfirmed v =>
      let? _ := require_valid_recovery_confirmation v candidate in
      Ok (Some (Confirmed v))

  | Some (Confirmed existing), OConfirmed replayed =>
      if decide (existing = replayed)
      then Ok (Some (Confirmed existing))
      else Err ConflictingConfirmation
  | current, o => illegal_transition current o
  end.

(** ** The documented transition matrix

    The legality table of [is_legal_edge] in the tests of [state.rs]: which
    observation may follow which state. *)
Inductive StateCase :=
| CAbsent | CSubmitting | CTracking | CRecoveringWithoutCandidate
| CRecoveringWithCandidate | CConfirmedByHash | CConfirmedByTree
| CRejected | CSubmittedWithoutHash.

Inductive ObservationKind :=
| KReserveFreshSubmission | KDefinitelyNotDispatched | KUsableCandidateHash
| KPossiblyDispatched | KDefiniteRejection | KTerminalRejection
| KCandidatePending | KTrackingExpired | KCandidateCommittedFailure
| KTerminalCandidateFailure | KConfirmedByHash | KConfirmedByTree
| KContinueRecovery | KAbandonedSubmitting | KSubmittedWithoutHash.

Definition is_legal_edge (s : StateCase) (o : ObservationKind) : bool :=
  match s with
  | CAbsent =>
      match o with KReserveFreshSubmission => true | _ => false end
  | CSubmitting =>
      match o with
      | KDefinitelyNotDispatched | KUsableCandidateHash | KPossiblyDispatched
      | KDefiniteRejection | KTerminalRejection | KSubmittedWithoutHash
      | KAbandonedSubmitting => true
      | _ => false
      end
  | CTracking =>
      match o with
      | KCandidatePending | KTrackingExpired | KCandidateCommittedFailure
      | KTerminalCandidateFailure | KConfirmedByHash => true
      | _ => false
      end
  | CRecoveringWithoutCandidate =>
      match o with
      | KDefinitelyNotDispatched | KUsableCandidateHash | KPossiblyDispatched
      | KDefiniteRejection | KTerminalCandidateFailure | KConfirmedByTree
      | KContinueRecovery | KSubmittedWithoutHash => true
      | _ => false
      end
  | CRecoveringWithCandidate =>
      match o with
      | KDefinitelyNotDispatched | KUsableCandidateHash | KPossiblyDispatched
      | KDefiniteRejection | KCandidatePending | KCandidateCommittedFailure
      | KTerminalCandidateFailure | KConfirmedByHash | KConfirmedByTree
      | KContinueRecovery | KSubmittedWithoutHash => true
      | _ => false
      end
  | CConfirmedByHash => match o with KConfirmedByHash => true | _ => false end
  | CConfirmedByTree => match o with KConfirmedByTree => true | _ => false end
  | CRejected | CSubmittedWithoutHash => false
  end.

(** The case of a concrete state and the kind of a concrete observation. *)
Definition state_case (s : option SubmissionRecordState) : StateCase :=
  match s with
  | None => CAbsent
  | Some Submitting => CSubmitting
  | Some (Tracking _) => CTracking
  | Some (Recovering None _) => CRecoveringWithoutCandidate
  | Some (Recovering (Some _) _) => CRecoveringWithCandidate
  | Some (SubmittedWithoutHash _) => CSubmittedWithoutHash
  | Some (Confirmed (VHash _)) => CConfirmedByHash
  | Some (Confirmed (VTree _)) => CConfirmedByTree
  | Some (Rejected _) => CRejected
  end.

Definition observation_kind (o : SubmissionObservation) : ObservationKind :=
  match o with
  | OReserveFreshSubmission => KReserveFreshSubmission
  | ODefinitelyNotDispatched => KDefinitelyNotDispatched
  | OUsableCandidateHash _ => KUsableCandidateHash
  | OPossiblyDispatched _ => KPossiblyDispatched
  | ODefiniteRejection _ => KDefiniteRejection
  | OTerminalRejection _ => KTerminalRejection
  | OSubmittedWithoutHash _ => KSubmittedWithoutHash
  | OCandidatePending => KCandidatePending
  | OTrackingWindowExpired _ => KTrackingExpired
  | OCandidateCommittedFailure _ => KCandidateCommittedFailure
  | OTerminalCandidateFailure _ => KTerminalCandidateFailure
  | OConfirmed (VHash _) => KConfirmedByHash
  | OConfirmed (VTree _) => KConfirmedByTree
  | OContinueRecovery => KContinueRecovery
  | OAbandonedSubmitting _ => KAbandonedSubmitting
  end.

(** A returned hash or a confirmation must agree with what the row holds. *)
Definition hashes_agree (s : option SubmissionRecordState) (o : SubmissionObservation) : Prop :=
  match s, o with
  | Some (Recovering (Some existing) _), OUsableCandidateHash c => existing = c
  | Some (Tracking c), OConfirmed (VHash v)
  | Some (Recovering (Some c) _), OConfirmed (VHash v) => conf_transaction_hash v = Some c
  | Some (Confirmed a), OConfirmed b => a = b
  | _, _ => True
  end.

(** ** Histories

    [lifecycle h s]: applying the observations [h] (latest first) to an absent
    row leads to [s]. *)
Inductive lifecycle : list SubmissionObservation -> option SubmissionRecordState -> Prop :=
| lifecycle_start : lifecycle [] None
| lifecycle_step h s o s' :
    lifecycle h s -> apply_submission_observation s o = Ok s' -> lifecycle (o :: h) s'.

Definition is_terminal (s : SubmissionRecordState) : bool :=
  match s with
  | SubmittedWithoutHash _ | Confirmed _ | Rejected _ => true
  | _ => false
  end.

(** Observations of a reservation that never left the process. *)
Definition never_sent (o : SubmissionObservation) : Prop :=
  o = OReserveFreshSubmission \/ o = ODefinitelyNotDispatched.

(** The candidate hash a state carries. *)
Definition candidate_of (s : option SubmissionRecordState) : option CandidateTransactionHash :=
  match s with
  | Some (Tracking c) => Some c
  | Some (Recovering oc _) => oc
  | Some (Confirmed (VHash v)) => conf_transaction_hash v
  | _ => None
  end.

(** The observations that carry a diagnostic into a dispatch-ambiguous state
    carry a dispatch-ambiguity kind. This is how the coordinator builds them. *)
Definition dispatch_diagnostic_ok (o : SubmissionObservation) : Prop :=
  match o with
  | OPossiblyDispatched d | OAbandonedSubmitting d => is_dispatch_ambiguity (diag_kind d) = true
  | OTrackingWindowExpired d => diag_kind d = KTrackingWindowExpired
  | _ => True
  end.

(** Observations that settle what happened to an ambiguous dispatch. *)
Definition settles_dispatch (o : SubmissionObservation) : Prop :=
  match o with
  | OUsableCandidateHash _ | OCandidateCommittedFailure _ | OTerminalCandidateFailure _
  | OSubmittedWithoutHash _ | OConfirmed _ => True
  | _ => False
  end.

(** Concrete values. *)
Definition example_hash : CandidateTransactionHash := replicate 32 5.
Definition example_ambiguity : ChainSubmissionDiagnostic :=
  from_redacted_message AmbiguousDispatch (lit "timeout").
Definition example_rejection : ChainSubmissionDiagnostic :=
  from_redacted_message ChainRejected (lit "refused").

(** Case analysis on an accepted transition: one goal per accepted edge. *)
Ltac split_state s := destruct s as [|?c|[?c|] ?d|?d|[?v|?v]|?d].

Ltac split_observation o :=
  destruct o as [| |?c'|?d'|?d'|?d'|?d'| |?d'|?d'|?d'|[?v'|?v']| |?d'].

Ltac inv_transition H :=
  match type of H with
  | apply_submission_observation ?s ?o = Ok _ =>
      first [is_var s; destruct s as [s|]; [split_state s|]
            | match s with Some ?s => is_var s; split_state s end
            | idtac];
      first [is_var o; split_observation o | idtac];
      cbn in H; unfold illegal_transition in H;
      repeat (case_decide || case_match); simplify_eq
  end.

Create HintDb lifecycle.
#[export] Hint Constructors lifecycle : lifecycle.

(** Edges: the transition function accepts an observation exactly when
    the documented matrix allows the edge and the hashes involved agree. *)
Theorem transition_matrix_exact (s : option SubmissionRecordState) (o : SubmissionObservation) :
  is_ok (apply_submission_observation s o) = true <->
  is_legal_edge (state_case s) (observation_kind o) = true /\ hashes_agree s o.
Proof.
  destruct s as [[|c|[c|] d|d|[v|v]|d]|];
    destruct o as [| |c'|d'|d'|d'|d'| |d'|d'|d'|[v'|v']| |d']; cbn;
    repeat case_decide; cbn; intuition congruence.
Qed.

Lemma lifecycle_present_or_never_sent h s :
  lifecycle h s ->
  s = None \/ s = Some Submitting -> Forall never_sent h.
Proof.
  induction 1 as [|h s o s' Hl IH Hstep]; [constructor|].
  unfold never_sent in *.
  intros [->| ->]; inv_transition Hstep; constructor; auto.
Qed.

(** Absence: a row is absent only if every reservation made for the
    generation was followed by proof that it was not sent. *)
Theorem absent_row_was_never_sent h :
  lifecycle h None -> Forall never_sent h.
Proof. intros H. eapply lifecycle_present_or_never_sent; eauto. Qed.

(** Terminal rejection: a terminal rejection ends a generation only
    when no earlier attempt can have been dispatched. *)
Theorem terminal_rejection_after_no_dispatch h s d s' :
  lifecycle h s ->
  apply_submission_observation s (OTerminalRejection d) = Ok s' ->
  s = Some Submitting /\ s' = Some (Rejected d) /\ Forall never_sent h.
Proof.
  intros Hl H. inv_transition H. split_and!; [done..|].
  eapply lifecycle_present_or_never_sent; eauto.
Qed.

(** Hash provenance: a hash that is tracked, held for recovery or
    recorded by a hash confirmation was returned by the chain for this very
    generation. *)
Theorem candidate_hash_was_returned h s c :
  lifecycle h s -> candidate_of s = Some c -> OUsableCandidateHash c ∈ h.
Proof.
  intros Hl. revert c. induction Hl as [|h s o s' Hl IH Hstep]; intros c0 Hc; [done|].
  inv_transition Hstep; simpl in *; simplify_eq;
    try (apply list_elem_of_here); try (apply list_elem_of_further; apply IH; congruence).
Qed.

(** Sticky ambiguity: once a row records an unresolved dispatch, every
    accepted observation either keeps that evidence or is itself the chain
    evidence that resolves it; nothing else erases it. *)
Theorem unresolved_dispatch_is_sticky s o s' :
  has_unresolved_dispatch s = true -> dispatch_diagnostic_ok o ->
  apply_submission_observation (Some s) o = Ok s' ->
  settles_dispatch o \/ exists t, s' = Some t /\ has_unresolved_dispatch t = true.
Proof.
  intros Hu Hd H. inv_transition H; simpl in *; auto; right; eexists; (split; [done|]);
    simpl; try done; unfold is_dispatch_ambiguity in Hd; by case_match.
Qed.

Lemma permits_retry_has_unresolved s :
  permits_ambiguous_retry s = true -> has_unresolved_dispatch s = true.
Proof. destruct s as [|c|[c|] d|d|v|d]; simpl; try done. by destruct (diag_kind d). Qed.

#[export] Hint Resolve permits_retry_has_unresolved : lifecycle.

(** ** The theorems at concrete inputs *)
Lemma lifecycle_reserved : lifecycle [OReserveFreshSubmission] (Some Submitting).
Proof. eapply lifecycle_step; [apply lifecycle_start|reflexivity]. Qed.

Lemma absent_row_was_never_sent_witness :
  Forall never_sent [ODefinitelyNotDispatched; OReserveFreshSubmission].
Proof.
  apply (absent_row_was_never_sent [ODefinitelyNotDispatched; OReserveFreshSubmission]).
  eapply lifecycle_step; [exact lifecycle_reserved|reflexivity].
Defined.

Lemma terminal_rejection_after_no_dispatch_witness :
  Some Submitting = Some Submitting /\
  Some (Rejected example_rejection) = Some (Rejected example_rejection) /\
  Forall never_sent [OReserveFreshSubmission].
Proof.
  exact (terminal_rejection_after_no_dispatch [OReserveFreshSubmission] (Some Submitting)
    example_rejection _ lifecycle_reserved eq_refl).
Defined.

Lemma candidate_hash_was_returned_witness :
  OUsableCandidateHash example_hash ∈ [OUsableCandidateHash example_hash; OReserveFreshSubmission].
Proof.
  apply (candidate_hash_was_returned _ (Some (Tracking example_hash)) example_hash);
    [|reflexivity].
  eapply lifecycle_step; [exact lifecycle_reserved|reflexivity].
Defined.

Lemma unresolved_dispatch_is_sticky_witness :
  settles_dispatch OContinueRecovery \/
  exists t, Some (Recovering None example_ambiguity) = Some t /\ has_unresolved_dispatch t = true.
Proof.
  exact (unresolved_dispatch_is_sticky (Recovering None example_ambiguity) OContinueRecovery
    _ eq_refl I eq_refl).
Defined.

