(* ===== verification/Record.v ===== *)
(** * Advancement requests and durable records

    Models the storage contract of [chain_submission/store.rs]: the request a
    caller advances, the derived generation it is checked against
    ([generation.rs]), the durable record with its bookkeeping rules, and the
    error adapters every store uses. The theorems show what a vote-batch
    request admits, that its lock roster is strictly ordered, and how a record
    changes when a transition settles. *)

From stdpp Require Import base gmap strings list numbers sorting pretty.
From S2P Require Import Prelude Identity Outcome Lifecycle.
Local Open Scope Z_scope.
Local Open Scope voting_scope.

(** ** Errors of the surrounding crate

    [VotingError] with the two variants the lifecycle distinguishes; the
    others keep only their display text. *)
Inductive VotingError :=
| VInvalidInput (message : text)
| VInternal (message : text)
| VOther (display : text).

Definition voting_error_to_string (e : VotingError) : text :=
  match e with
  | VInvalidInput m => lit "Invalid input: " ++ m
  | VInternal m => lit "Internal error: " ++ m
  | VOther m => m
  end.

(** [format!("{n}")] of an unsigned integer. *)
Definition decimal (z : Z) : text := lit (pretty z).

Definition identity_error_to_string (e : ChainSubmissionIdentityError) : text :=
  match e with
  | EmptyWalletId => lit "chain submission wallet_id must not be empty"
  | InvalidVoteRoundId => lit "vote_round_id must be a canonical Pallas field encoding"
  | InvalidProposalId p =>
      lit "proposal_id must be between " ++ decimal MIN_PROPOSAL_ID ++ lit " and "
        ++ decimal MAX_PROPOSAL_ID ++ lit ", got " ++ decimal p
  end.

(** [{:?}] of [Option<ChainSubmissionState>]. *)
Definition debug_state (s : ChainSubmissionState) : text :=
  match s with
  | SSubmitting => lit "Submitting"
  | STracking => lit "Tracking"
  | SRecovering => lit "Recovering"
  | SSubmittedWithoutHash => lit "SubmittedWithoutHash"
  | SConfirmed => lit "Confirmed"
  | SRejected => lit "Rejected"
  end.

Definition debug_option_state (s : option ChainSubmissionState) : text :=
  match s with
  | None => lit "None"
  | Some s => lit "Some(" ++ debug_state s ++ lit ")"
  end.

Definition transition_error_to_string (e : SubmissionTransitionError) : text :=
  match e with
  | IllegalTransition from o =>
      lit "illegal chain submission transition from " ++ debug_option_state from
        ++ lit " after " ++ lit o
  | ConflictingCandidateHash =>
      lit "candidate transaction hash conflicts with the durable candidate"
  | ConfirmationDoesNotMatchCandidate =>
      lit "hash confirmation does not match the durable candidate transaction"
  | ConflictingConfirmation =>
      lit "terminal confirmation conflicts with the durable confirmation"
  end.

Definition confirmation_error_to_string (e : ChainSubmissionConfirmationError) : text :=
  match e with
  | PositionOutOfRange =>
      lit "chain tree positions must be below the commitment-tree capacity"
  end.

(** ** Derived generations ([generation.rs]) *)
Inductive ExpectedTreeLayout :=
| LDelegation (delegation_van : list Z)
| LVote (successor_van vote_commitment : list Z)
| LVoteBatch (final_successor_van : list Z) (vote_commitments : list (list Z)).

Definition layout_leaves (l : ExpectedTreeLayout) : list (list Z) :=
  match l with
  | LDelegation van => [van]
  | LVote van vc => [van; vc]
  | LVoteBatch van vcs => van :: vcs
  end.

(** *** Wire requests ([wire.rs]) *)
Record DelegationSubmissionWire := mk_delegation_wire {
  dw_rk : text;
  dw_spend_auth_sig : text;
  dw_tx1_effects : text;
  dw_nf_signed : text;
  dw_cmx_new : text;
  dw_gov_comm : text;
  dw_gov_nullifiers : list text;
  dw_proof : text;
  dw_vote_round_id : text
}.

Record VoteCommitmentWire := mk_vote_wire {
  vw_van_nullifier : text;
  vw_vote_authority_note_new : text;
  vw_vote_commitment : text;
  vw_proposal_id : Z;
  vw_proof : text;
  vw_vote_round_id : text;
  vw_anchor_height : Z;
  vw_r_vpk : text;
  vw_vote_auth_sig : text
}.

Record VoteCommitmentBatchWire := mk_batch_wire { bw_votes : list VoteCommitmentWire }.

Record DelegateAndVoteBatchWire := mk_combined_wire {
  cw_delegation : DelegationSubmissionWire;
  cw_batch : VoteCommitmentBatchWire
}.

Inductive ChainSubmissionRequest :=
| QDelegation (wire : DelegationSubmissionWire)
| QImportedDelegation (candidate : CandidateTransactionHash)
| QVote (wire : VoteCommitmentWire)
| QVoteBatch (wire : VoteCommitmentBatchWire)
| QDelegateAndVoteBatch (wire : DelegateAndVoteBatchWire).

Record BoundGeneration := mk_bound {
  bound_generation : ChainSubmissionGeneration;
  bound_expected_layout : ExpectedTreeLayout;
  bound_ordered_proposal_ids : list Z
}.

Record DerivedChainSubmission := mk_derived {
  derived_bound : BoundGeneration;
  derived_request : ChainSubmissionRequest
}.

Definition derived_generation (d : DerivedChainSubmission) : ChainSubmissionGeneration :=
  bound_generation (derived_bound d).

Definition derived_ordered_proposal_ids (d : DerivedChainSubmission) : list Z :=
  bound_ordered_proposal_ids (derived_bound d).

Definition imported_candidate (d : DerivedChainSubmission) : option CandidateTransactionHash :=
  match derived_request d with
  | QImportedDelegation c => Some c
  | _ => None
  end.

(** ** Advancement requests *)
Inductive SubmissionDerivationRequest :=
| DDelegation (identity : ChainSubmissionIdentity) (spend_auth_signature : list Z)
| DImportedDelegation (identity : ChainSubmissionIdentity)
| DVote (identity : ChainSubmissionIdentity)
| DVoteBatch (identity : ChainSubmissionIdentity).

Definition derivation_identity (d : SubmissionDerivationRequest) : ChainSubmissionIdentity :=
  match d with
  | DDelegation i _ | DImportedDelegation i | DVote i | DVoteBatch i => i
  end.

Record StoreAdvancementRequest := mk_request {
  req_derivation : SubmissionDerivationRequest;
  req_member_identities : list ChainSubmissionIdentity;
  req_ordered_batch_proposal_ids : option (list Z)
}.

Definition req_identity (r : StoreAdvancementRequest) : ChainSubmissionIdentity :=
  derivation_identity (req_derivation r).

Definition request_delegation (i : ChainSubmissionIdentity) (sig : list Z)
    : StoreAdvancementRequest := mk_request (DDelegation i sig) [] None.
Definition request_imported_delegation (i : ChainSubmissionIdentity)
    : StoreAdvancementRequest := mk_request (DImportedDelegation i) [] None.
Definition request_vote (i : ChainSubmissionIdentity)
    : StoreAdvancementRequest := mk_request (DVote i) [] None.

Definition applicable_identities (r : StoreAdvancementRequest) : list ChainSubmissionIdentity :=
  req_member_identities r ++ [req_identity r].

Definition is_batch (r : StoreAdvancementRequest) : bool :=
  match req_derivation r with DVoteBatch _ => true | _ => false end.

Definition is_imported_delegation (r : StoreAdvancementRequest) : bool :=
  match req_derivation r with DImportedDelegation _ => true | _ => false end.

(** *** The derived order of [SubmissionOperationKey] *)
Definition then_compare (c : comparison) (d : comparison) : comparison :=
  match c with Eq => d | _ => c end.

Fixpoint bytes_compare (a b : list Z) : comparison :=
  match a, b with
  | [], [] => Eq
  | [], _ :: _ => Lt
  | _ :: _, [] => Gt
  | x :: a', y :: b' => then_compare (x ?= y) (bytes_compare a' b')
  end.

Definition round_key_compare (a b : RoundOperationKey) : comparison :=
  then_compare (bytes_compare (string_bytes (rk_wallet_id a)) (string_bytes (rk_wallet_id b)))
    (then_compare (Z.compare (rk_network a) (rk_network b))
                  (bytes_compare (rk_vote_round_id a) (rk_vote_round_id b))).

Definition bundle_key_compare (a b : BundleOperationKey) : comparison :=
  then_compare (round_key_compare (bk_round a) (bk_round b))
               (Z.compare (bk_bundle_index a) (bk_bundle_index b)).

Definition operation_key_compare (a b : SubmissionOperationKey) : comparison :=
  then_compare (bundle_key_compare (ok_bundle a) (ok_bundle b))
    (then_compare (Z.compare (ok_target_kind a) (ok_target_kind b))
                  (bytes_compare (ok_target_value a) (ok_target_value b))).

Definition operation_key_le (a b : ChainSubmissionIdentity) : Prop :=
  operation_key_compare (operation_key a) (operation_key b) <> Gt.

#[global] Instance operation_key_le_dec a b : Decision (operation_key_le a b).
Proof. unfold operation_key_le. apply _. Defined.

(** [Vec::dedup]: drops consecutive repetitions. *)
Fixpoint dedup (l : list ChainSubmissionIdentity) : list ChainSubmissionIdentity :=
  match l with
  | a :: ((b :: _) as rest) => if decide (a = b) then dedup rest else a :: dedup rest
  | _ => l
  end.

Definition MAX_VOTE_BATCH_ACTIONS : nat := Z.to_nat MAX_PROPOSAL_ID.

(** [ChainSubmissionIdentity::new] with its error mapped to a failure. *)
Definition member_identity `{Externals} (i : ChainSubmissionIdentity)
    (t : ChainSubmissionTarget) : result ChainSubmissionIdentity ChainSubmissionFailure :=
  map_err (fun e => without_state FInvalidInput (identity_error_to_string e))
    (identity_new (wallet_id i) (network i) (vote_round_id i) (bundle_index i) t).

Definition request_vote_batch `{Externals} (identity : ChainSubmissionIdentity)
    (ordered_proposal_ids : list Z) : result StoreAdvancementRequest ChainSubmissionFailure :=
  if bool_decide (batch_digest (target identity) = None)
     || bool_decide (ordered_proposal_ids = [])
  then Err (without_state FInvalidInput
    (lit "vote-batch requests require a batch identity and a non-empty ordered proposal roster"))
  else if bool_decide (MAX_VOTE_BATCH_ACTIONS < length ordered_proposal_ids)%nat
  then Err (without_state FInvalidInput
    (lit "vote-batch proposal roster exceeds the "
       ++ decimal (Z.of_nat MAX_VOTE_BATCH_ACTIONS) ++ lit "-action protocol maximum"))
  else
    let? votes := try_map (fun p => member_identity identity (Vote p)) ordered_proposal_ids in
    let? members :=
      (if is_combined (target identity)
       then let? delegation := member_identity identity Delegation in
            Ok (votes ++ [delegation])
       else Ok votes) in
    let sorted := merge_sort operation_key_le members in
    if decide (length (dedup sorted) = length sorted)
    then Ok (mk_request (DVoteBatch identity) (dedup sorted) (Some ordered_proposal_ids))
    else Err (without_state FInvalidInput
      (lit "vote-batch proposal roster contains duplicates")).

Definition verify_batch_roster (r : StoreAdvancementRequest) (authoritative : list Z)
    : result unit ChainSubmissionFailure :=
  match req_ordered_batch_proposal_ids r with
  | Some expected =>
      if decide (authoritative = expected) then Ok tt
      else Err (without_state FInvalidInput
        (lit "vote-batch proposal roster does not match the complete persisted batch"))
  | None => Ok tt
  end.

Definition validate_target (r : StoreAdvancementRequest) : result unit ChainSubmissionFailure :=
  let valid :=
    match req_derivation r, target (req_identity r) with
    | DDelegation _ _, Delegation => true
    | DImportedDelegation _, Delegation => true
    | DVote _, Vote _ => true
    | DVoteBatch _, (VoteBatch _ | DelegateAndVoteBatch _) => true
    | _, _ => false
    end in
  if valid then Ok tt
  else Err (without_state FInvalidInput
    (lit "submission request kind does not match its typed identity target")).

(** ** Durable records *)
Record StoredChainSubmission := mk_stored {
  st_identity : ChainSubmissionIdentity;
  st_generation_digest : list Z;
  st_state : SubmissionRecordState;
  st_committed_post_reservations : Z;
  st_tracking_started_at : option Z;
  st_diagnostic : option ChainSubmissionDiagnostic;
  st_created_at : Z;
  st_updated_at : Z
}.

Definition st_durable_state (r : StoredChainSubmission) : ChainSubmissionState :=
  durable_state (st_state r).

Definition is_tracking (s : SubmissionRecordState) : bool :=
  match s with Tracking _ => true | _ => false end.

(** The record with its typed state replaced, as the store does before it
    settles the bookkeeping. *)
Definition with_state (r : StoredChainSubmission) (s : SubmissionRecordState)
    : StoredChainSubmission :=
  mk_stored (st_identity r) (st_generation_digest r) s
    (st_committed_post_reservations r) (st_tracking_started_at r)
    (st_diagnostic r) (st_created_at r) (st_updated_at r).

Definition settle_after_transition (r : StoredChainSubmission)
    (previous : ChainSubmissionState)
    (explicit_diagnostic : option ChainSubmissionDiagnostic) (now : Z)
    : StoredChainSubmission :=
  let entered_tracking :=
    is_tracking (st_state r) && negb (bool_decide (previous = STracking)) in
  let diagnostic :=
    match st_state r with
    | Recovering _ d | SubmittedWithoutHash d | Rejected d => Some d
    | _ =>
        match explicit_diagnostic with
        | Some d => Some d
        | None => if entered_tracking then None else st_diagnostic r
        end
    end in
  let effective_now := Z.max now (st_updated_at r) in
  let tracking_started_at :=
    if is_tracking (st_state r) && bool_decide (st_tracking_started_at r = None)
    then Some effective_now else st_tracking_started_at r in
  mk_stored (st_identity r) (st_generation_digest r) (st_state r)
    (st_committed_post_reservations r) tracking_started_at diagnostic
    (st_created_at r) effective_now.

Definition retires_combined_generation (r : StoredChainSubmission)
    (previous : ChainSubmissionState) : bool :=
  match st_state r with Rejected _ => true | _ => false end
  && negb (bool_decide (previous = SRejected))
  && is_combined (target (st_identity r)).

Definition fresh (g : ChainSubmissionGeneration) (committed_post_reservations now : Z)
    : StoredChainSubmission :=
  mk_stored (gen_identity g) (gen_digest g) Submitting committed_post_reservations
    None None now now.

Definition adopted_imported_delegation (g : ChainSubmissionGeneration)
    (candidate : CandidateTransactionHash) (now : Z) : StoredChainSubmission :=
  mk_stored (gen_identity g) (gen_digest g) (Tracking candidate) 0
    (Some now) None now now.

Definition public_result (r : StoredChainSubmission)
    : result ChainSubmissionResult ChainSubmissionFailure :=
  match st_state r with
  | Submitting => Err (with_durable_state FInvariantViolation SSubmitting
      (lit "Submitting must be normalized before returning from an advancement pass"))
  | Tracking c => Ok (RPending (PTracking c))
  | Recovering c d => Ok (RPending (PRecovering c d))
  | SubmittedWithoutHash d => Ok (RSubmittedWithoutHash d)
  | Confirmed v => Ok (RConfirmed (confirmation v))
  | Rejected d => Ok (RRejected d)
  end.

Inductive StoreAdmission :=
| NoAuthoritativeState
| Authoritative (record : StoredChainSubmission)
| AbandonedReservation (record : StoredChainSubmission)
| Ready (derived : DerivedChainSubmission) (record : StoredChainSubmission)
        (fresh_reservation : bool).

Inductive ConfirmationCommit :=
| CommitInterrupted (record : StoredChainSubmission)
| CommitConfirmed (record : StoredChainSubmission).

(** ** Shared error adapters *)
Definition abandoned_diagnostic : ChainSubmissionDiagnostic :=
  from_redacted_message AmbiguousDispatch
    (lit "an unclassified submission reservation survived process interruption").

Definition ensure_generation (r : StoredChainSubmission) (g : ChainSubmissionGeneration)
    : result unit ChainSubmissionFailure :=
  if bool_decide (st_identity r = gen_identity g)
     && bool_decide (st_generation_digest r = gen_digest g)
  then Ok tt
  else Err (with_durable_state FInvalidInput (st_durable_state r)
    (lit "stored submission belongs to a different semantic generation")).

Definition transition_failure (s : ChainSubmissionState) (message : text)
    : ChainSubmissionFailure := with_durable_state FInvariantViolation s message.

Definition preserve_loaded_state (e : ChainSubmissionFailure)
    (r : option StoredChainSubmission) : ChainSubmissionFailure :=
  match fail_strongest_state e, r with
  | None, Some r => with_durable_state (fail_kind e) (st_durable_state r) (fail_message e)
  | _, _ => e
  end.

Definition map_generation_error (e : VotingError) : ChainSubmissionFailure :=
  without_state
    (match e with VInvalidInput _ => FInvalidInput | _ => FStorage end)
    (voting_error_to_string e).

(** ** What a vote-batch request promises *)

(** The roster conditions under which a batch request is accepted. *)
Definition batch_roster_valid `{Externals} (i : ChainSubmissionIdentity) (ids : list Z) : Prop :=
  wallet_id i <> EmptyString /\ validate_vote_round_id_bytes (vote_round_id i) = true /\
  batch_digest (target i) <> None /\ ids <> [] /\
  (length ids <= MAX_VOTE_BATCH_ACTIONS)%nat /\
  Forall (fun p => MIN_PROPOSAL_ID <= p <= MAX_PROPOSAL_ID) ids /\ NoDup ids.

Definition with_target (i : ChainSubmissionIdentity) (t : ChainSubmissionTarget)
    : ChainSubmissionIdentity :=
  mk_identity (wallet_id i) (network i) (vote_round_id i) (bundle_index i) t.

(** The singleton submissions a batch overlaps. *)
Definition overlapped_identities (i : ChainSubmissionIdentity) (ids : list Z)
    : list ChainSubmissionIdentity :=
  (with_target i ∘ Vote <$> ids)
    ++ (if is_combined (target i) then [with_target i Delegation] else []).

Definition operation_key_lt (a b : ChainSubmissionIdentity) : Prop :=
  operation_key_compare (operation_key a) (operation_key b) = Lt.

(** ** The lock order is a total order *)
Lemma bytes_compare_refl a : bytes_compare a a = Eq.
Proof. induction a as [|x a IH]; simpl; [done|]. by rewrite Z.compare_refl. Qed.

Lemma then_compare_opp c d : CompOpp (then_compare c d) = then_compare (CompOpp c) (CompOpp d).
Proof. by destruct c. Qed.

Lemma then_compare_eq c d : then_compare c d = Eq <-> c = Eq /\ d = Eq.
Proof. destruct c; simpl; intuition congruence. Qed.

Lemma bytes_compare_eq a b : bytes_compare a b = Eq -> a = b.
Proof.
  revert b. induction a as [|x a IH]; intros [|y b]; simpl; try done.
  rewrite then_compare_eq. intros [->%Z.compare_eq ->%IH]. done.
Qed.

Lemma bytes_compare_antisym a b : bytes_compare b a = CompOpp (bytes_compare a b).
Proof.
  revert b. induction a as [|x a IH]; intros [|y b]; simpl; try done.
  by rewrite then_compare_opp, <- Z.compare_antisym, <- IH.
Qed.

Lemma operation_key_compare_antisym a b :
  operation_key_compare b a = CompOpp (operation_key_compare a b).
Proof.
  unfold operation_key_compare, bundle_key_compare, round_key_compare.
  rewrite !then_compare_opp, <- !bytes_compare_antisym, <- !Z.compare_antisym. done.
Qed.

Lemma operation_key_compare_eq a b : operation_key_compare a b = Eq -> a = b.
Proof.
  unfold operation_key_compare, bundle_key_compare, round_key_compare.
  rewrite !then_compare_eq.
  intros [[(Hw%bytes_compare_eq & Hn%Z.compare_eq & Hr%bytes_compare_eq) Hb%Z.compare_eq]
            [Hk%Z.compare_eq Hv%bytes_compare_eq]].
  apply string_bytes_inj in Hw.
  destruct a as [[[] ?] ? ?], b as [[[] ?] ? ?]; simpl in *. by subst.
Qed.

#[global] Instance operation_key_le_total : Total operation_key_le.
Proof.
  intros a b. unfold operation_key_le.
  rewrite (operation_key_compare_antisym (operation_key a)).
  destruct (operation_key_compare (operation_key a) (operation_key b)); simpl; auto.
Qed.

(** ** Settling a transition *)

(** Bookkeeping never touches what identifies the record, its typed state or
    its reservation count, and never moves its clock back. *)
Lemma settle_preserves r p d now :
  let r' := settle_after_transition r p d now in
  st_identity r' = st_identity r /\ st_generation_digest r' = st_generation_digest r /\
  st_state r' = st_state r /\
  st_committed_post_reservations r' = st_committed_post_reservations r /\
  st_created_at r' = st_created_at r /\ st_updated_at r <= st_updated_at r' /\
  now <= st_updated_at r'.
Proof. simpl. repeat split; lia. Qed.

Lemma settle_keeps_tracking_start r p d now t :
  st_tracking_started_at r = Some t ->
  st_tracking_started_at (settle_after_transition r p d now) = Some t.
Proof. intros H. simpl. rewrite H. by destruct (is_tracking (st_state r)). Qed.

(** ** Transitivity of the lock order *)
Lemma then_compare_trans c1 c2 c3 d1 d2 d3 :
  (c1 = Lt -> c2 = Lt -> c3 = Lt) -> (c1 = Eq -> c3 = c2) -> (c2 = Eq -> c3 = c1) ->
  (d1 = Lt -> d2 = Lt -> d3 = Lt) ->
  then_compare c1 d1 = Lt -> then_compare c2 d2 = Lt -> then_compare c3 d3 = Lt.
Proof.
  intros Ht Hl Hr Hd. destruct c1, c2; simpl; intros H1 H2; try done.
  - rewrite Hl by done. simpl. auto.
  - by rewrite Hl.
  - by rewrite Hr.
  - by rewrite Ht.
Qed.

Lemma Zcompare_trans_lt x y z : (x ?= y) = Lt -> (y ?= z) = Lt -> (x ?= z) = Lt.
Proof. rewrite !Z.compare_lt_iff. lia. Qed.

Lemma bytes_compare_trans a b c :
  bytes_compare a b = Lt -> bytes_compare b c = Lt -> bytes_compare a c = Lt.
Proof.
  revert b c. induction a as [|x a IH]; intros [|y b] [|z c]; simpl; try done.
  apply (then_compare_trans (x ?= y) (y ?= z) (x ?= z)
           (bytes_compare a b) (bytes_compare b c) (bytes_compare a c)).
  - apply Zcompare_trans_lt.
  - by intros ->%Z.compare_eq.
  - by intros ->%Z.compare_eq.
  - apply IH.
Qed.

Lemma round_key_compare_eq a b : round_key_compare a b = Eq -> a = b.
Proof.
  unfold round_key_compare. rewrite !then_compare_eq.
  intros (Hw%bytes_compare_eq%string_bytes_inj & Hn%Z.compare_eq & Hr%bytes_compare_eq).
  destruct a, b; simpl in *. by subst.
Qed.

Lemma bundle_key_compare_eq a b : bundle_key_compare a b = Eq -> a = b.
Proof.
  unfold bundle_key_compare. rewrite then_compare_eq.
  intros [Hr%round_key_compare_eq Hb%Z.compare_eq]. destruct a, b; simpl in *. by subst.
Qed.

(** One lexicographic level: discharges the side conditions of
    [then_compare_trans] from the level's own equality lemma. *)
Ltac lex_level eq :=
  apply then_compare_trans;
  [|let H := fresh in intros H; apply eq in H; by rewrite H
   |let H := fresh in intros H; apply eq in H; by rewrite H|].

Lemma round_key_compare_trans a b c :
  round_key_compare a b = Lt -> round_key_compare b c = Lt -> round_key_compare a c = Lt.
Proof.
  unfold round_key_compare.
  lex_level bytes_compare_eq; [apply bytes_compare_trans|].
  lex_level Z.compare_eq; [apply Zcompare_trans_lt|apply bytes_compare_trans].
Qed.

Lemma operation_key_compare_trans a b c :
  operation_key_compare a b = Lt -> operation_key_compare b c = Lt ->
  operation_key_compare a c = Lt.
Proof.
  unfold operation_key_compare.
  lex_level bundle_key_compare_eq.
  - unfold bundle_key_compare.
    lex_level round_key_compare_eq; [apply round_key_compare_trans|apply Zcompare_trans_lt].
  - lex_level Z.compare_eq; [apply Zcompare_trans_lt|apply bytes_compare_trans].
Qed.

#[global] Instance operation_key_le_trans : Transitive operation_key_le.
Proof.
  intros a b c. unfold operation_key_le.
  destruct (operation_key_compare (operation_key a) (operation_key b)) eqn:Hab; [|intros _|done].
  - apply operation_key_compare_eq in Hab. by rewrite Hab.
  - destruct (operation_key_compare (operation_key b) (operation_key c)) eqn:Hbc; [| |done].
    + apply operation_key_compare_eq in Hbc. rewrite <- Hbc. congruence.
    + by rewrite (operation_key_compare_trans _ _ _ Hab Hbc).
Qed.

(** ** Building a vote-batch request *)
Section vote_batch.
Context `{Externals}.

Lemma member_identity_ok i t j :
  member_identity i t = Ok j <->
  j = with_target i t /\ wallet_id i <> EmptyString /\
  validate_vote_round_id_bytes (vote_round_id i) = true /\
  match t with Vote p => MIN_PROPOSAL_ID <= p <= MAX_PROPOSAL_ID | _ => True end.
Proof.
  unfold member_identity, identity_new, with_target.
  case_decide; simpl; [intuition congruence|].
  destruct (validate_vote_round_id_bytes _); simpl; [|intuition congruence].
  destruct t; simpl; try (intuition congruence).
  destruct (_ && _) eqn:Hp; simpl; split; intros; destruct_and?; simplify_eq;
    split_and?; try done; lia.
Qed.

Lemma member_votes_ok i ids votes :
  ids <> [] ->
  try_map (fun p => member_identity i (Vote p)) ids = Ok votes <->
  votes = (with_target i ∘ Vote <$> ids) /\ wallet_id i <> EmptyString /\
  validate_vote_round_id_bytes (vote_round_id i) = true /\
  Forall (fun p => MIN_PROPOSAL_ID <= p <= MAX_PROPOSAL_ID) ids.
Proof.
  revert votes. induction ids as [|p ids IH]; intros votes; [done|intros _].
  cbn [try_map fmap list_fmap].
  destruct (member_identity i (Vote p)) as [j|e] eqn:Hj.
  - apply member_identity_ok in Hj as (-> & Hw & Hr & Hp).
    destruct (decide (ids = [])) as [->|Hne].
    + simpl. rewrite Forall_singleton. split; [by intros [= <-]|by intros (-> & _)].
    + destruct (try_map _ ids) as [bs|e] eqn:Hbs.
      * destruct (IH bs Hne) as [(-> & _ & _ & Hall) _]; [done|]. rewrite Forall_cons.
        split; [by intros [= <-]|by intros (-> & _)].
      * split; [done|]. rewrite Forall_cons. intros (_ & _ & _ & _ & Hall).
        exfalso. assert (Err e = Ok (with_target i ∘ Vote <$> ids)) by (by apply IH). done.
  - split; [done|]. rewrite Forall_cons. intros (_ & Hw & Hr & Hp & _). exfalso.
    assert (member_identity i (Vote p) = Ok (with_target i (Vote p)))
      by (by apply member_identity_ok). congruence.
Qed.
End vote_batch.

Lemma dedup_cons_cons a b l :
  dedup (a :: b :: l) = if decide (a = b) then dedup (b :: l) else a :: dedup (b :: l).
Proof. done. Qed.

Lemma dedup_length l : (length (dedup l) <= length l)%nat.
Proof.
  induction l as [|a [|b l] IH]; [done..|]. rewrite dedup_cons_cons.
  case_decide; cbn [length] in *; lia.
Qed.

Lemma dedup_NoDup l : NoDup l -> dedup l = l.
Proof.
  induction l as [|a [|b l] IH]; intros Hnd; [done..|].
  apply NoDup_cons in Hnd as [Ha Hnd]. rewrite dedup_cons_cons.
  rewrite decide_False by set_solver. f_equal. by apply IH.
Qed.

(** On a list sorted by a key that separates its members, dropping
    neighbouring repetitions drops nothing only if there are none. *)
Lemma dedup_sorted_NoDup l :
  (forall a b, a ∈ l -> b ∈ l -> operation_key a = operation_key b -> a = b) ->
  StronglySorted operation_key_le l -> length (dedup l) = length l ->
  StronglySorted operation_key_lt l.
Proof.
  induction l as [|a [|b l] IH]; intros Hinj Hs Hlen; [constructor|repeat constructor|].
  apply StronglySorted_inv in Hs as [Hs Hall]. rewrite dedup_cons_cons in Hlen.
  pose proof (dedup_length (b :: l)) as Hle.
  case_decide as Hab; [cbn [length] in *; lia|].
  assert (StronglySorted operation_key_lt (b :: l)) as Hlt.
  { apply IH; [set_solver|done|]. cbn [length] in *. lia. }
  constructor; [done|].
  assert (operation_key_lt a b) as Hfirst.
  { apply Forall_cons in Hall as [Hle' _]. unfold operation_key_lt, operation_key_le in *.
    destruct (operation_key_compare _ _) eqn:Hc; try done.
    apply operation_key_compare_eq, Hinj in Hc; set_solver. }
  constructor; [done|]. apply StronglySorted_inv in Hlt as [_ Hb].
  eapply Forall_impl; [exact Hb|]. intros c. by apply operation_key_compare_trans.
Qed.

Lemma StronglySorted_lt_NoDup l : StronglySorted operation_key_lt l -> NoDup l.
Proof.
  induction 1 as [|a l Hs IH Hall]; constructor; [|done].
  intros Hin. rewrite Forall_forall in Hall.
  specialize (Hall a Hin). unfold operation_key_lt in Hall.
  pose proof (operation_key_compare_antisym (operation_key a) (operation_key a)) as Ho.
  rewrite Hall in Ho. done.
Qed.

Section vote_batch_spec.
Context `{Externals}.

Lemma overlapped_identities_inj i ids a b :
  Forall (fun p => MIN_PROPOSAL_ID <= p <= MAX_PROPOSAL_ID) ids ->
  a ∈ overlapped_identities i ids -> b ∈ overlapped_identities i ids ->
  operation_key a = operation_key b -> a = b.
Proof.
  intros Hall Ha Hb. rewrite Forall_forall in Hall.
  assert (forall x, x ∈ overlapped_identities i ids -> wf_target (target x)) as Hwf.
  { intros x. unfold overlapped_identities. rewrite elem_of_app, list_elem_of_fmap.
    intros [(p & -> & Hp%Hall)|Hx].
    - simpl. unfold is_u32, u32_max, MIN_PROPOSAL_ID, MAX_PROPOSAL_ID in *. lia.
    - destruct (is_combined (target i)); [|set_solver].
      apply list_elem_of_singleton in Hx as ->. exact I. }
  apply operation_key_injective; auto.
Qed.

#[local] Instance with_target_vote_inj i : Inj (=) (=) (with_target i ∘ Vote).
Proof. intros p q. by intros [= ->]. Qed.

Lemma overlapped_identities_NoDup i ids : NoDup (overlapped_identities i ids) <-> NoDup ids.
Proof.
  unfold overlapped_identities. rewrite NoDup_app, (NoDup_fmap (with_target i ∘ Vote)).
  split; [by intros (? & _)|]. intros Hnd. split_and!; [done| |].
  - intros x Hx%list_elem_of_fmap. destruct Hx as (p & -> & _).
    destruct (is_combined _); set_solver.
  - destruct (is_combined _); repeat constructor; set_solver.
Qed.

(** What the construction computes once the roster's members are valid. *)
Lemma request_vote_batch_eq i ids :
  wallet_id i <> EmptyString -> validate_vote_round_id_bytes (vote_round_id i) = true ->
  batch_digest (target i) <> None -> ids <> [] ->
  (length ids <= MAX_VOTE_BATCH_ACTIONS)%nat ->
  Forall (fun p => MIN_PROPOSAL_ID <= p <= MAX_PROPOSAL_ID) ids ->
  let sorted := merge_sort operation_key_le (overlapped_identities i ids) in
  request_vote_batch i ids =
    if decide (length (dedup sorted) = length sorted)
    then Ok (mk_request (DVoteBatch i) (dedup sorted) (Some ids))
    else Err (without_state FInvalidInput
      (lit "vote-batch proposal roster contains duplicates")).
Proof.
  intros Hw Hr Hd Hne Hlen Hall. unfold request_vote_batch, overlapped_identities.
  rewrite !bool_decide_eq_false_2 by (done || lia). cbn [orb].
  assert (try_map (fun p => member_identity i (Vote p)) ids
          = Ok (with_target i ∘ Vote <$> ids)) as -> by (by apply member_votes_ok).
  assert (member_identity i Delegation = Ok (with_target i Delegation)) as ->
    by (by apply member_identity_ok).
  destruct (is_combined (target i)); [done|]. by rewrite app_nil_r.
Qed.

Lemma request_vote_batch_guards i ids r :
  request_vote_batch i ids = Ok r ->
  wallet_id i <> EmptyString /\ validate_vote_round_id_bytes (vote_round_id i) = true /\
  batch_digest (target i) <> None /\ ids <> [] /\
  (length ids <= MAX_VOTE_BATCH_ACTIONS)%nat /\
  Forall (fun p => MIN_PROPOSAL_ID <= p <= MAX_PROPOSAL_ID) ids.
Proof.
  unfold request_vote_batch. intros Heq.
  destruct (bool_decide (batch_digest (target i) = None)) eqn:Hd; [done|].
  destruct (bool_decide (ids = [])) eqn:Hn; [done|]. cbn [orb] in Heq.
  destruct (bool_decide (_ < _)%nat) eqn:Hl; [done|].
  apply bool_decide_eq_false in Hd, Hn, Hl.
  destruct (try_map _ ids) eqn:Hv; [|done].
  apply member_votes_ok in Hv as (_ & Hw & Hr & Hall); [|done].
  split_and!; try done. lia.
Qed.

Lemma request_vote_batch_shape i ids r :
  request_vote_batch i ids = Ok r ->
  req_derivation r = DVoteBatch i /\ req_ordered_batch_proposal_ids r = Some ids /\
  req_member_identities r ≡ₚ overlapped_identities i ids /\
  StronglySorted operation_key_lt (req_member_identities r).
Proof.
  intros Heq. destruct (request_vote_batch_guards _ _ _ Heq) as (Hw & Hr & Hd & Hne & Hl & Hall).
  rewrite request_vote_batch_eq in Heq by done. cbv zeta in Heq.
  set (l := merge_sort operation_key_le (overlapped_identities i ids)) in *.
  assert (l ≡ₚ overlapped_identities i ids) as Hp by apply merge_sort_Permutation.
  case_decide as Hlen; [|done]. injection Heq as <-. simpl.
  assert (StronglySorted operation_key_lt l) as Hs.
  { apply dedup_sorted_NoDup; [|by apply StronglySorted_merge_sort; apply _|done].
    intros a b. rewrite Hp. by apply overlapped_identities_inj. }
  by rewrite dedup_NoDup by (by apply StronglySorted_lt_NoDup).
Qed.

(** Batch roster: a batch request is built exactly for a valid roster:
    a batch identity, between one and fifty proposals, each in range, none
    repeated. It keeps the caller's order, and its lock roster is the overlapped
    single submissions (the delegation included when combined) in strictly
    increasing lock order. *)
Theorem vote_batch_request_spec i ids :
  (is_ok (request_vote_batch i ids) = true <-> batch_roster_valid i ids) /\
  forall r, request_vote_batch i ids = Ok r ->
    req_derivation r = DVoteBatch i /\ req_ordered_batch_proposal_ids r = Some ids /\
    req_member_identities r ≡ₚ overlapped_identities i ids /\
    StronglySorted operation_key_lt (req_member_identities r).
Proof.
  split; [|apply request_vote_batch_shape]. unfold batch_roster_valid. split.
  - destruct (request_vote_batch i ids) as [r|] eqn:Heq; [intros _|done].
    destruct (request_vote_batch_shape _ _ _ Heq) as (_ & _ & Hp & Hs).
    apply StronglySorted_lt_NoDup in Hs. rewrite Hp, overlapped_identities_NoDup in Hs.
    pose proof (request_vote_batch_guards _ _ _ Heq). naive_solver.
  - intros (Hw & Hr & Hd & Hne & Hl & Hall & Hnd).
    rewrite request_vote_batch_eq by done. cbv zeta.
    rewrite decide_True; [done|]. f_equal. apply dedup_NoDup.
    by rewrite merge_sort_Permutation, overlapped_identities_NoDup.
Qed.
End vote_batch_spec.
