(* ===== verification/Coordination.v ===== *)
(** * Lock acquisition

    Models [chain_submission/coordination.rs]: the registries of weak lock
    handles, the order in which an operation takes its locks, and the registry
    of submissions in flight. Callers run concurrently: a step relation
    interleaves their accesses to the registries, the grants of the locks and
    the release of leases. The theorems show that weak handles never give two
    callers different locks for one key, so conflicting leases exclude each
    other, and that the lock order rules out deadlock. *)

From stdpp Require Import base gmap strings list numbers sorting.
From S2P Require Import Prelude Identity Outcome Lifecycle Record.
Local Open Scope Z_scope.
Local Open Scope voting_scope.

#[global] Instance RoundOperationKey_countable : Countable RoundOperationKey.
Proof.
  apply (inj_countable' (fun k => (rk_wallet_id k, rk_network k, rk_vote_round_id k))
    (fun '(w, n, r) => mk_round_key w n r)). by intros [].
Defined.
#[global] Instance BundleOperationKey_countable : Countable BundleOperationKey.
Proof.
  apply (inj_countable' (fun k => (bk_round k, bk_bundle_index k))
    (fun '(r, b) => mk_bundle_key r b)). by intros [].
Defined.
#[global] Instance SubmissionOperationKey_countable : Countable SubmissionOperationKey.
Proof.
  apply (inj_countable' (fun k => (ok_bundle k, ok_target_kind k, ok_target_value k))
    (fun '(b, k, v) => mk_operation_key b k v)). by intros [].
Defined.

(** ** Registries of weak handles *)

(** A lock object; its [Arc] strong count is the number of its owners. *)
Definition LockId := nat.

Record Registry (K : Type) `{Countable K} := mk_registry {
  reg_poisoned : bool;
  reg_entries : gmap K LockId
}.
Arguments mk_registry {K _ _} _ _.
Arguments reg_poisoned {K _ _} _.
Arguments reg_entries {K _ _} _.

(** [alive] tells whether a lock's strong count is positive; [created] is the
    object [create] would allocate. *)
Definition shared_lock {K} `{Countable K} (alive : LockId -> bool) (created : LockId)
    (key : K) (registry : Registry K) : result (LockId * Registry K) ChainSubmissionFailure :=
  if reg_poisoned registry then
    Err (without_state FInvariantViolation (lit "chain submission lock registry is poisoned"))
  else
    let retained := filter (fun entry => alive entry.2 = true) (reg_entries registry) in
    match retained !! key with
    | Some lock => Ok (lock, mk_registry false retained)
    | None => Ok (created, mk_registry false (<[key := created]> retained))
    end.

Record InFlight := mk_in_flight {
  fl_poisoned : bool;
  fl_counts : gmap SubmissionOperationKey Z
}.

Record SubmissionCoordination := mk_coordination {
  account_gates : Registry string;
  round_gates : Registry RoundOperationKey;
  bundle_locks : Registry BundleOperationKey;
  identity_locks : Registry SubmissionOperationKey;
  in_flight : InFlight
}.

(** ** What a caller acquires *)
Inductive LockKey :=
| AccountGate (wallet_id : string)
| RoundGate (key : RoundOperationKey)
| BundleLock (key : BundleOperationKey)
| IdentityLock (key : SubmissionOperationKey).

#[global] Instance LockKey_eq_dec : EqDecision LockKey.
Proof. solve_decision. Defined.

(** A read guard, or a write guard or mutex guard. *)
Inductive Access := Shared | Exclusive.

#[global] Instance Access_eq_dec : EqDecision Access.
Proof. solve_decision. Defined.

Definition Request : Type := LockKey * Access.

Inductive Caller :=
| Acquire (operation : ChainSubmissionIdentity) (applicable : list ChainSubmissionIdentity)
| DelegationSetup (identity : ChainSubmissionIdentity)
| RoundExclusive (identity : ChainSubmissionIdentity)
| AccountExclusive (wallet_id : string).

(** [sort] and [dedup] of the keys of [acquire]. *)
Definition key_le (a b : SubmissionOperationKey) : Prop := operation_key_compare a b <> Gt.

#[global] Instance key_le_dec a b : Decision (key_le a b).
Proof. unfold key_le. apply _. Defined.

Fixpoint dedup_keys (l : list SubmissionOperationKey) : list SubmissionOperationKey :=
  match l with
  | a :: ((b :: _) as rest) =>
      if decide (a = b) then dedup_keys rest else a :: dedup_keys rest
  | _ => l
  end.

Definition identity_keys (operation : ChainSubmissionIdentity)
    (applicable : list ChainSubmissionIdentity) : list SubmissionOperationKey :=
  dedup_keys (merge_sort key_le (map operation_key applicable ++ [operation_key operation])).

Definition setup_requests (i : ChainSubmissionIdentity) : list Request :=
  [(AccountGate (wallet_id i), Shared); (RoundGate (round_key i), Shared);
   (BundleLock (bundle_key i), Exclusive)].

Definition acquire_requests (operation : ChainSubmissionIdentity)
    (applicable : list ChainSubmissionIdentity) : list Request :=
  setup_requests operation
    ++ map (fun key => (IdentityLock key, Exclusive)) (identity_keys operation applicable).

Definition round_exclusive_requests (i : ChainSubmissionIdentity) : list Request :=
  [(RoundGate (round_key i), Exclusive)].

Definition account_exclusive_requests (wallet : string) : list Request :=
  [(AccountGate wallet, Exclusive)].

(** The locks of a caller, in the order it takes them. *)
Definition requests (c : Caller) : list Request :=
  match c with
  | Acquire operation applicable => acquire_requests operation applicable
  | DelegationSetup identity => setup_requests identity
  | RoundExclusive identity => round_exclusive_requests identity
  | AccountExclusive wallet => account_exclusive_requests wallet
  end.

(** [acquire] awaits its locks; the others report contention. *)
Definition awaits (c : Caller) : bool :=
  match c with Acquire _ _ => true | _ => false end.

(** ** Callers in progress *)
Record Guard := mk_guard {
  g_request : Request;
  g_lock : LockId
}.

(** [task_handle] is the handle obtained for the first of [task_rest]. *)
Record Task := mk_task {
  task_caller : Caller;
  task_guards : list Guard;
  task_handle : option LockId;
  task_rest : list Request
}.

Definition TaskId := nat.

Record System := mk_system {
  coordination : SubmissionCoordination;
  tasks : gmap TaskId Task;
  next_lock : LockId
}.

Definition task_locks (t : Task) : list LockId :=
  map g_lock (task_guards t) ++ match task_handle t with Some l => [l] | None => [] end.

(** [Weak::strong_count]: every guard and every handle owns its lock. *)
Definition alive (ts : gmap TaskId Task) (l : LockId) : bool :=
  existsb (fun '(_, t) => bool_decide (l ∈ task_locks t)) (map_to_list ts).

Definition conflicts (a b : Access) : bool :=
  match a, b with Shared, Shared => false | _, _ => true end.

(** Whether a guard held by some caller keeps [access] to the lock away. *)
Definition contended (ts : gmap TaskId Task) (l : LockId) (access : Access) : bool :=
  existsb (fun '(_, t) =>
      existsb (fun g => bool_decide (g_lock g = l) && conflicts access (g_request g).2)
        (task_guards t))
    (map_to_list ts).

Definition lock_of_key (alive : LockId -> bool) (created : LockId) (key : LockKey)
    (c : SubmissionCoordination)
    : result (LockId * SubmissionCoordination) ChainSubmissionFailure :=
  match key with
  | AccountGate k =>
      let? (l, r) := shared_lock alive created k (account_gates c) in
      Ok (l, mk_coordination r (round_gates c) (bundle_locks c) (identity_locks c) (in_flight c))
  | RoundGate k =>
      let? (l, r) := shared_lock alive created k (round_gates c) in
      Ok (l, mk_coordination (account_gates c) r (bundle_locks c) (identity_locks c) (in_flight c))
  | BundleLock k =>
      let? (l, r) := shared_lock alive created k (bundle_locks c) in
      Ok (l, mk_coordination (account_gates c) (round_gates c) r (identity_locks c) (in_flight c))
  | IdentityLock k =>
      let? (l, r) := shared_lock alive created k (identity_locks c) in
      Ok (l, mk_coordination (account_gates c) (round_gates c) (bundle_locks c) r (in_flight c))
  end.

(** What happens to a caller: it looks its next lock up, is granted it, finds
    it busy, gives its lease back, or is dropped while it still waits. A panic
    under a registry's mutex poisons it. *)
Inductive Event :=
| EStart (id : TaskId) (caller : Caller)
| ELookup (id : TaskId)
| EGrant (id : TaskId)
| EBusy (id : TaskId)
| ERelease (id : TaskId)
| EDropped (id : TaskId)
| EPoison (accounts rounds bundles identities : bool).

Definition with_task (s : System) (id : TaskId) (t : Task) : System :=
  mk_system (coordination s) (<[id := t]> (tasks s)) (next_lock s).

Definition without_task (s : System) (id : TaskId) : System :=
  mk_system (coordination s) (delete id (tasks s)) (next_lock s).

Definition lookup_step (s : System) (id : TaskId) (t : Task) : option System :=
  match task_handle t, task_rest t with
  | None, (key, _) :: _ =>
      Some match lock_of_key (alive (tasks s)) (next_lock s) key (coordination s) with
      | Ok (l, c) =>
          mk_system c
            (<[id := mk_task (task_caller t) (task_guards t) (Some l) (task_rest t)]> (tasks s))
            (S (next_lock s))
      | Err _ => without_task s id
      end
  | _, _ => None
  end.

Definition grant_step (s : System) (id : TaskId) (t : Task) : option System :=
  match task_handle t, task_rest t with
  | Some l, request :: rest =>
      if contended (tasks s) l request.2 then None
      else Some (with_task s id
        (mk_task (task_caller t) (task_guards t ++ [mk_guard request l]) None rest))
  | _, _ => None
  end.

Definition busy_step (s : System) (id : TaskId) (t : Task) : option System :=
  match task_handle t, task_rest t with
  | Some l, request :: _ =>
      if negb (awaits (task_caller t)) && contended (tasks s) l request.2
      then Some (without_task s id) else None
  | _, _ => None
  end.

Definition release_step (s : System) (id : TaskId) (t : Task) : option System :=
  match task_rest t with [] => Some (without_task s id) | _ => None end.

Definition poison {K} `{Countable K} (p : bool) (r : Registry K) : Registry K :=
  mk_registry (p || reg_poisoned r) (reg_entries r).

Definition run_event (s : System) (e : Event) : option System :=
  match e with
  | EStart id caller =>
      if decide (tasks s !! id = None)
      then Some (with_task s id (mk_task caller [] None (requests caller))) else None
  | ELookup id => t ← tasks s !! id; lookup_step s id t
  | EGrant id => t ← tasks s !! id; grant_step s id t
  | EBusy id => t ← tasks s !! id; busy_step s id t
  | ERelease id => t ← tasks s !! id; release_step s id t
  | EDropped id => t ← tasks s !! id; Some (without_task s id)
  | EPoison p1 p2 p3 p4 =>
      let c := coordination s in
      Some (mk_system
        (mk_coordination (poison p1 (account_gates c)) (poison p2 (round_gates c))
           (poison p3 (bundle_locks c)) (poison p4 (identity_locks c)) (in_flight c))
        (tasks s) (next_lock s))
  end.

Definition empty_registry {K} `{Countable K} : Registry K := mk_registry false ∅.

(** [SubmissionCoordination::default]: every registry starts empty. *)
Definition initial : System :=
  mk_system (mk_coordination empty_registry empty_registry empty_registry empty_registry
               (mk_in_flight false ∅)) ∅ 0%nat.

Inductive reachable : System -> Prop :=
| reachable_initial : reachable initial
| reachable_step s e s' : reachable s -> run_event s e = Some s' -> reachable s'.

(** ** Submissions in flight *)
Definition usize_max : Z := u64_max.

Definition flight_poisoned : ChainSubmissionFailure :=
  without_state FInvariantViolation (lit "chain submission in-flight registry is poisoned").

(** [+= 1] on a [usize], wrapping at its width. *)
Definition register_in_flight (i : ChainSubmissionIdentity) (f : InFlight)
    : result (SubmissionOperationKey * InFlight) ChainSubmissionFailure :=
  if fl_poisoned f then Err flight_poisoned
  else
    let key := operation_key i in
    let count := default 0 (fl_counts f !! key) in
    Ok (key, mk_in_flight false (<[key := (count + 1) mod (usize_max + 1)]> (fl_counts f))).

(** [drop] of the registration of [key]. *)
Definition drop_in_flight (key : SubmissionOperationKey) (f : InFlight) : InFlight :=
  if fl_poisoned f then f
  else match fl_counts f !! key with
  | Some count =>
      let count := (count - 1) mod (usize_max + 1) in
      if count =? 0 then mk_in_flight false (delete key (fl_counts f))
      else mk_in_flight false (<[key := count]> (fl_counts f))
  | None => f
  end.

Definition has_in_flight_for_round (i : ChainSubmissionIdentity) (f : InFlight)
    : result bool ChainSubmissionFailure :=
  if fl_poisoned f then Err flight_poisoned
  else Ok (existsb (fun '(key, _) => bool_decide (bk_round (ok_bundle key) = round_key i))
             (map_to_list (fl_counts f))).

(** ** The lock order *)
Definition lock_rank (k : LockKey) : Z :=
  match k with AccountGate _ => 0 | RoundGate _ => 1 | BundleLock _ => 2 | IdentityLock _ => 3 end.

(** The normative order: account, round, bundle, then identities by key. *)
Definition lock_lt (a b : LockKey) : Prop :=
  lock_rank a < lock_rank b
  \/ match a, b with
     | IdentityLock a, IdentityLock b => operation_key_compare a b = Lt
     | _, _ => False
     end.

Lemma operation_key_compare_irrefl a : operation_key_compare a a <> Lt.
Proof.
  intros Ha. pose proof (operation_key_compare_antisym a a) as Ho. by rewrite Ha in Ho.
Qed.

#[global] Instance lock_lt_irreflexive : Irreflexive lock_lt.
Proof.
  intros a [Ha|Ha]; [lia|]. destruct a; try done. by apply operation_key_compare_irrefl in Ha.
Qed.

#[global] Instance lock_lt_transitive : Transitive lock_lt.
Proof.
  intros a b c [Hab|Hab] [Hbc|Hbc].
  - left. lia.
  - left. destruct b, c; simpl in *; done.
  - left. destruct a, b; simpl in *; done.
  - right. destruct a, b, c; try done. by eapply operation_key_compare_trans.
Qed.

#[global] Instance key_le_total : Total key_le.
Proof.
  intros a b. unfold key_le. rewrite (operation_key_compare_antisym a b).
  destruct (operation_key_compare a b); simpl; auto.
Qed.

Lemma key_lt_le_trans a b c :
  operation_key_compare a b = Lt -> key_le b c -> operation_key_compare a c = Lt.
Proof.
  intros Hab Hbc. unfold key_le in Hbc. destruct (operation_key_compare b c) eqn:Hc; [| |done].
  - apply operation_key_compare_eq in Hc. by subst.
  - by eapply operation_key_compare_trans.
Qed.

#[global] Instance key_le_transitive : Transitive key_le.
Proof.
  intros a b c. unfold key_le at 1 3. destruct (operation_key_compare a b) eqn:Hab; [|intros _|done].
  - apply operation_key_compare_eq in Hab as ->. by intros.
  - intros Hbc. by rewrite (key_lt_le_trans _ _ _ Hab Hbc).
Qed.

Lemma dedup_keys_elem l k : k ∈ dedup_keys l <-> k ∈ l.
Proof.
  induction l as [|a [|b l] IH]; [done..|].
  change (dedup_keys (a :: b :: l))
    with (if decide (a = b) then dedup_keys (b :: l) else a :: dedup_keys (b :: l)).
  case_decide; [subst|]; set_solver.
Qed.

(** Sorting and dropping repetitions gives a strictly increasing list. *)
Lemma dedup_keys_sorted l :
  StronglySorted key_le l ->
  StronglySorted (fun a b => operation_key_compare a b = Lt) (dedup_keys l).
Proof.
  induction l as [|a [|b l] IH]; intros Hs; [constructor|repeat constructor|].
  apply StronglySorted_inv in Hs as [Hs Ha].
  change (dedup_keys (a :: b :: l))
    with (if decide (a = b) then dedup_keys (b :: l) else a :: dedup_keys (b :: l)).
  case_decide as Hab; [by apply IH|]. constructor; [by apply IH|].
  apply Forall_forall. intros k Hk.
  apply (proj1 (dedup_keys_elem (b :: l) k)) in Hk.
  inversion Ha as [|? ? Hb _]; subst.
  assert (operation_key_compare a b = Lt) as Hlt.
  { unfold key_le in Hb. destruct (operation_key_compare a b) eqn:Hc; [|done|done].
    by apply operation_key_compare_eq in Hc. }
  apply StronglySorted_inv in Hs as [_ Hbl]. rewrite Forall_forall in Hbl.
  apply elem_of_cons in Hk as [->|Hk]; [done|]. eapply key_lt_le_trans; [done|by apply Hbl].
Qed.

Lemma identity_keys_sorted i l :
  StronglySorted (fun a b => operation_key_compare a b = Lt) (identity_keys i l).
Proof. apply dedup_keys_sorted. apply (StronglySorted_merge_sort key_le). Qed.

Lemma identity_keys_elem i l k :
  k ∈ identity_keys i l <-> k = operation_key i \/ k ∈ map operation_key l.
Proof.
  unfold identity_keys. rewrite dedup_keys_elem, merge_sort_Permutation. set_solver.
Qed.

(** Every caller takes its locks in strictly increasing order. *)
Lemma requests_sorted c : StronglySorted lock_lt (map fst (requests c)).
Proof.
  assert (forall l, StronglySorted (fun a b => operation_key_compare a b = Lt) l ->
    StronglySorted lock_lt (map fst (map (fun key => (IdentityLock key, Exclusive)) l))) as Hids.
  { induction 1 as [|k l _ IH Hk]; simpl; constructor; [done|].
    rewrite map_map. apply Forall_map. eapply Forall_impl; [exact Hk|]. intros ? ?. by right. }
  destruct c as [i l|i|i|w]; simpl; repeat (constructor; [|]); try done.
  1: apply Hids, identity_keys_sorted.
  all: repeat constructor; try (left; simpl; lia).
  all: rewrite map_map; apply Forall_map, Forall_true; intros; left; simpl; lia.
Qed.

(** ** Weak handles resolve to one lock per key *)
Definition entry (c : SubmissionCoordination) (k : LockKey) : option LockId :=
  match k with
  | AccountGate k => reg_entries (account_gates c) !! k
  | RoundGate k => reg_entries (round_gates c) !! k
  | BundleLock k => reg_entries (bundle_locks c) !! k
  | IdentityLock k => reg_entries (identity_locks c) !! k
  end.

(** The handles a caller owns, with the keys they were looked up for. *)
Definition task_refs (t : Task) : list (LockKey * LockId) :=
  map (fun g => ((g_request g).1, g_lock g)) (task_guards t)
    ++ match task_handle t, task_rest t with Some l, (k, _) :: _ => [(k, l)] | _, _ => [] end.

Definition handle_wf (t : Task) : Prop := is_Some (task_handle t) -> task_rest t <> [].

Lemma shared_lock_ok {K} `{Countable K} al created (key : K) r l r' :
  shared_lock al created key r = Ok (l, r') ->
  reg_entries r' !! key = Some l
  /\ (reg_entries r !! key = Some l \/ l = created)
  /\ (forall k' l', k' <> key -> reg_entries r' !! k' = Some l' -> reg_entries r !! k' = Some l')
  /\ (forall k' l', reg_entries r !! k' = Some l' -> al l' = true -> reg_entries r' !! k' = Some l').
Proof.
  unfold shared_lock. destruct (reg_poisoned r); [done|].
  set (kept := filter _ _). cbv zeta.
  assert (forall k' l', kept !! k' = Some l' <-> reg_entries r !! k' = Some l' /\ al l' = true) as Hk.
  { intros. unfold kept. by rewrite map_lookup_filter_Some. }
  destruct (kept !! key) as [l0|] eqn:Hl; intros [= <- <-]; cbn [reg_entries].
  - apply Hk in Hl as Hl'. split_and!; [done|left; tauto| |].
    + intros k' l' _ Hl''. by apply Hk in Hl'' as [? _].
    + intros k' l' ? ?. by apply Hk.
  - split_and!; [apply lookup_insert_eq|by right| |].
    + intros k' l' Hne. rewrite lookup_insert_ne by done. intros Hl''. by apply Hk in Hl'' as [? _].
    + intros k' l' He Ha. rewrite lookup_insert_ne; [by apply Hk|].
      intros <-. assert (kept !! key = Some l') by (by apply Hk). congruence.
Qed.

Lemma lock_of_key_ok al created key c l c' :
  lock_of_key al created key c = Ok (l, c') ->
  entry c' key = Some l
  /\ (entry c key = Some l \/ l = created)
  /\ (forall k' l', k' <> key -> entry c' k' = Some l' -> entry c k' = Some l')
  /\ (forall k' l', entry c k' = Some l' -> al l' = true -> entry c' k' = Some l').
Proof.
  destruct key as [k|k|k|k]; cbn [lock_of_key];
    (destruct (shared_lock _ _ _ _) as [[l0 r]|] eqn:Hs; [|done]);
    intros [= <- <-]; apply shared_lock_ok in Hs as (He&Hold&Hback&Hkept);
    (split_and!; [done|done| |]); intros [] l'; cbn; try done; intros;
    first [by apply Hkept | apply Hback; [congruence|done]].
Qed.

Record invariant (s : System) : Prop := {
  inv_refs : forall id t k l, tasks s !! id = Some t -> (k, l) ∈ task_refs t ->
    entry (coordination s) k = Some l;
  inv_fresh : forall k l, entry (coordination s) k = Some l -> (l < next_lock s)%nat;
  inv_keys : forall k k' l, entry (coordination s) k = Some l ->
    entry (coordination s) k' = Some l -> k = k';
  inv_excludes : forall id1 id2 t1 t2 g1 g2, id1 <> id2 ->
    tasks s !! id1 = Some t1 -> tasks s !! id2 = Some t2 ->
    g1 ∈ task_guards t1 -> g2 ∈ task_guards t2 -> g_lock g1 = g_lock g2 ->
    conflicts (g_request g1).2 (g_request g2).2 = false;
  inv_plan : forall id t, tasks s !! id = Some t ->
    map g_request (task_guards t) ++ task_rest t = requests (task_caller t) /\ handle_wf t
}.

Lemma existsb_tasks ts (p : TaskId * Task -> bool) :
  existsb p (map_to_list ts) = true <-> exists id t, ts !! id = Some t /\ p (id, t) = true.
Proof.
  rewrite existsb_exists. split.
  - intros ([id t]&Hin&Hp). exists id, t. split; [|done].
    by apply elem_of_map_to_list, list_elem_of_In.
  - intros (id&t&Hin&Hp). exists (id, t). split; [|done].
    by apply list_elem_of_In, elem_of_map_to_list.
Qed.

Lemma alive_ref ts id t k l : ts !! id = Some t -> (k, l) ∈ task_refs t -> alive ts l = true.
Proof.
  intros Ht Hr. apply existsb_tasks. exists id, t. split; [done|]. apply bool_decide_eq_true.
  unfold task_refs, task_locks in *. apply elem_of_app in Hr as [Hg|Hh].
  - apply elem_of_app. left. apply list_elem_of_fmap in Hg as (g&[= -> ->]&Hg).
    apply list_elem_of_fmap. by exists g.
  - apply elem_of_app. right. destruct (task_handle t); [|by apply elem_of_nil in Hh].
    destruct (task_rest t) as [|[]]; set_solver.
Qed.

Lemma contended_spec ts l a :
  contended ts l a = true <->
  exists id t g, ts !! id = Some t /\ g ∈ task_guards t /\ g_lock g = l
    /\ conflicts a (g_request g).2 = true.
Proof.
  unfold contended. rewrite existsb_tasks. split.
  - intros (id&t&Ht&Hg). apply existsb_exists in Hg as (g&Hg&Hc).
    apply andb_prop in Hc as [Hl%bool_decide_eq_true Hc]. exists id, t, g.
    split_and!; try done. by apply list_elem_of_In.
  - intros (id&t&g&Ht&Hg&Hl&Hc). exists id, t. split; [done|]. apply existsb_exists.
    exists g. split; [by apply list_elem_of_In|]. by rewrite bool_decide_eq_true_2.
Qed.

Lemma conflicts_sym a b : conflicts a b = conflicts b a.
Proof. by destruct a, b. Qed.

Lemma without_task_invariant s id : invariant s -> invariant (without_task s id).
Proof.
  intros []. constructor; cbn; try done; intros *; rewrite ?lookup_delete_Some; naive_solver.
Qed.

(** Replacing a caller keeps the invariant if its guards do not conflict with
    the others' and its handles resolve. *)
Lemma with_task_invariant s id t :
  invariant s ->
  (forall k l, (k, l) ∈ task_refs t -> entry (coordination s) k = Some l) ->
  (forall id' t' g g', id' <> id -> tasks s !! id' = Some t' -> g ∈ task_guards t ->
     g' ∈ task_guards t' -> g_lock g = g_lock g' ->
     conflicts (g_request g).2 (g_request g').2 = false) ->
  map g_request (task_guards t) ++ task_rest t = requests (task_caller t) -> handle_wf t ->
  invariant (with_task s id t).
Proof.
  intros [] Hrefs Hexcl Hplan Hwf. constructor; cbn; try done.
  - intros id' t' k l [[<- <-]|[? ?]]%lookup_insert_Some; eauto.
  - intros id1 id2 t1 t2 g1 g2 Hne [[<- <-]|[? Ht1]]%lookup_insert_Some
      [[<- <-]|[? Ht2]]%lookup_insert_Some Hg1 Hg2 Hl; [done|eauto| |eauto].
    rewrite conflicts_sym. by eapply (Hexcl id1 t1 g2 g1).
  - intros id' t' [[<- <-]|[? ?]]%lookup_insert_Some; eauto.
Qed.

(** Registries may forget dead entries and gain a fresh one. *)
Lemma new_entries_invariant s key l c :
  invariant s ->
  lock_of_key (alive (tasks s)) (next_lock s) key (coordination s) = Ok (l, c) ->
  invariant (mk_system c (tasks s) (S (next_lock s))) /\ entry c key = Some l.
Proof.
  intros [Hrefs Hfresh Hkeys Hex Hplan] (Hl&Hold&Hback&Hkept)%lock_of_key_ok. split; [|done].
  assert (forall k' l', entry c k' = Some l' -> k' = key /\ l' = l
    \/ k' <> key /\ entry (coordination s) k' = Some l') as Hsplit.
  { intros k' l' He. destruct (decide (k' = key)) as [->|Hne]; [left|right; eauto].
    split; congruence. }
  assert (forall k', k' <> key -> entry (coordination s) k' <> Some l) as Hother.
  { intros k' Hne He. destruct Hold as [Hold| ->]; [by apply Hne, (Hkeys _ _ _ He Hold)|].
    apply Hfresh in He. lia. }
  constructor; cbn.
  - intros id t k' l' Ht Hr. apply Hkept; [by eapply Hrefs|by eapply alive_ref].
  - intros k' l' [[-> ->]|[_ He]]%Hsplit; [|apply Hfresh in He; lia].
    destruct Hold as [Hold| ->]; [apply Hfresh in Hold|]; lia.
  - intros k1 k2 l' [[-> ->]|[? H1']]%Hsplit [[-> Heq]|[? H2']]%Hsplit; [done|..|eauto].
    + by apply Hother in H2'.
    + subst. by apply Hother in H1'.
  - done.
  - done.
Qed.

Lemma lookup_step_invariant s id t s' :
  invariant s -> tasks s !! id = Some t -> lookup_step s id t = Some s' -> invariant s'.
Proof.
  intros Hi Ht. unfold lookup_step. destruct (task_handle t) eqn:Hh; [done|].
  destruct (task_rest t) as [|[key a] rest] eqn:Hr; [done|].
  destruct (inv_plan _ Hi _ _ Ht) as [Hplan _].
  destruct (lock_of_key _ _ _ _) as [[l c]|] eqn:Hk; intros [= <-];
    [|by apply without_task_invariant].
  apply (new_entries_invariant _ _ _ _ Hi) in Hk as [Hi' Hl].
  change (invariant (with_task (mk_system c (tasks s) (S (next_lock s))) id
    (mk_task (task_caller t) (task_guards t) (Some l) ((key, a) :: rest)))).
  apply with_task_invariant; [done|..]; cbn.
  - intros k l' Hin. apply elem_of_app in Hin as [Hin|Hin].
    + eapply (inv_refs _ Hi'); [exact Ht|]. apply elem_of_app. by left.
    + apply list_elem_of_singleton in Hin as [= -> ->]. done.
  - intros id' t' g g' Hne Ht' Hg Hg' Hl'. by eapply (inv_excludes _ Hi id id' t t').
  - by rewrite Hr in Hplan.
  - done.
Qed.

Lemma grant_step_invariant s id t s' :
  invariant s -> tasks s !! id = Some t -> grant_step s id t = Some s' -> invariant s'.
Proof.
  intros Hi Ht. unfold grant_step. destruct (task_handle t) as [l|] eqn:Hh; [|done].
  destruct (task_rest t) as [|[key a] rest] eqn:Hr; [done|].
  destruct (contended _ _ _) eqn:Hc; [done|]. intros [= <-].
  destruct (inv_plan _ Hi _ _ Ht) as [Hplan _].
  apply with_task_invariant; [done|..]; cbn.
  - intros k l' Hin. eapply (inv_refs _ Hi); [exact Ht|].
    unfold task_refs. rewrite Hh, Hr. by rewrite map_app, app_nil_r in Hin.
  - intros id' t' g g' Hne Ht' Hg Hg' Hl. apply elem_of_app in Hg as [Hg|Hg].
    + by eapply (inv_excludes _ Hi id id' t t').
    + apply list_elem_of_singleton in Hg as ->. cbn in *. apply not_true_is_false. intros Hx.
      rewrite <- not_true_iff_false, contended_spec in Hc. apply Hc. by exists id', t', g'.
  - rewrite map_app, <- app_assoc. cbn. by rewrite <- Hr.
  - by intros [? ?].
Qed.

Lemma event_invariant s e s' : invariant s -> run_event s e = Some s' -> invariant s'.
Proof.
  intros Hi. destruct e as [id c|id|id|id|id|id|p1 p2 p3 p4]; cbn [run_event].
  1: { case_decide; [|done]. intros [= <-]. apply with_task_invariant; [done|..]; cbn;
    [intros * Hin|intros * ? ? Hin| |]; try (by apply elem_of_nil in Hin); [done|by intros [? ?]]. }
  all: try (destruct (tasks s !! id) as [t|] eqn:Ht; [|done]; cbn [mbind option_bind]).
  - by apply lookup_step_invariant.
  - by apply grant_step_invariant.
  - unfold busy_step. destruct (task_handle t), (task_rest t); try done.
    destruct (_ && _); [|done]. intros [= <-]. by apply without_task_invariant.
  - unfold release_step. destruct (task_rest t); [|done]. intros [= <-].
    by apply without_task_invariant.
  - intros [= <-]. by apply without_task_invariant.
  - intros [= <-]. destruct Hi as [Hrefs Hfresh Hkeys Hex Hplan].
    assert (forall k, entry (mk_coordination (poison p1 (account_gates (coordination s)))
      (poison p2 (round_gates (coordination s))) (poison p3 (bundle_locks (coordination s)))
      (poison p4 (identity_locks (coordination s))) (in_flight (coordination s))) k
      = entry (coordination s) k) as He by (by intros []).
    constructor; cbn [coordination tasks next_lock]; try done; intros *; rewrite ?He; eauto.
Qed.

Lemma reachable_invariant s : reachable s -> invariant s.
Proof.
  induction 1 as [|s e s' _ IH He]; [|by eapply event_invariant].
  constructor; cbn; try done; intros *; try (by rewrite lookup_empty).
  all: destruct k; cbn; by rewrite lookup_empty.
Qed.

(** ** Leases exclude each other *)
Definition lease (t : Task) : Prop := task_rest t = [].

(** The pairs of operations that must not run together. *)
Definition interfere (a b : Caller) : Prop :=
  match a, b with
  | (Acquire i _ | DelegationSetup i), (Acquire j _ | DelegationSetup j) =>
      bundle_key i = bundle_key j
      \/ match a, b with
         | Acquire i l, Acquire j m =>
             exists key, key ∈ identity_keys i l /\ key ∈ identity_keys j m
         | _, _ => False
         end
  | RoundExclusive i, (Acquire j _ | DelegationSetup j | RoundExclusive j)
  | (Acquire i _ | DelegationSetup i), RoundExclusive j => round_key i = round_key j
  | AccountExclusive w, (Acquire j _ | DelegationSetup j) => w = wallet_id j
  | (Acquire i _ | DelegationSetup i), AccountExclusive w => wallet_id i = w
  | AccountExclusive w, AccountExclusive w' => w = w'
  | RoundExclusive _, AccountExclusive _ | AccountExclusive _, RoundExclusive _ => False
  end.

Lemma interfere_requests a b :
  interfere a b ->
  exists key x y, (key, x) ∈ requests a /\ (key, y) ∈ requests b /\ conflicts x y = true.
Proof.
  assert (forall i l key, key ∈ identity_keys i l ->
    (IdentityLock key, Exclusive) ∈ requests (Acquire i l)) as Hids.
  { intros i l key Hk. apply (elem_of_app (setup_requests i)). right.
    apply list_elem_of_fmap. by exists key. }
  destruct a as [i l|i|i|w], b as [j m|j|j|w']; cbn [interfere]; try done.
  1: intros [Hb|(key&Hk&Hk')];
    [|exists (IdentityLock key), Exclusive, Exclusive; split_and!; [by apply Hids..|done]].
  2,5,6: intros [Hb|[]].
  1-4: exists (BundleLock (bundle_key i)), Exclusive, Exclusive.
  all: try intros Hb.
  5,7: exists (RoundGate (round_key i)), Shared, Exclusive.
  7,8: exists (AccountGate w'), Shared, Exclusive.
  9,10: exists (RoundGate (round_key i)), Exclusive, Shared.
  11: exists (RoundGate (round_key i)), Exclusive, Exclusive.
  12,13: exists (AccountGate w), Exclusive, Shared.
  14: exists (AccountGate w), Exclusive, Exclusive.
  all: split_and!; cbn; unfold setup_requests, round_exclusive_requests; rewrite ?Hb; repeat constructor.
Qed.

Lemma lease_guard s id t key a :
  invariant s -> tasks s !! id = Some t -> lease t -> (key, a) ∈ requests (task_caller t) ->
  exists g, g ∈ task_guards t /\ g_request g = (key, a)
    /\ entry (coordination s) key = Some (g_lock g).
Proof.
  intros Hi Ht Hl Hin. destruct (inv_plan _ Hi _ _ Ht) as [Hplan _].
  rewrite Hl, app_nil_r in Hplan. rewrite <- Hplan in Hin.
  apply list_elem_of_fmap in Hin as (g&Hr&Hg). exists g. split_and!; [done|done|].
  eapply (inv_refs _ Hi _ _ _ _ Ht). apply elem_of_app. left.
  apply list_elem_of_fmap. exists g. by rewrite <- Hr.
Qed.

(** C29 (exclusion): however callers interleave, two leases held at the same
    time never interfere: not two operations on one bundle or one identity,
    no operation of a round or wallet beside an exclusive lease of it. *)
Theorem conflicting_leases_exclude s id1 id2 t1 t2 :
  reachable s -> id1 <> id2 ->
  tasks s !! id1 = Some t1 -> tasks s !! id2 = Some t2 -> lease t1 -> lease t2 ->
  ~ interfere (task_caller t1) (task_caller t2).
Proof.
  intros Hi%reachable_invariant Hne Ht1 Ht2 Hl1 Hl2
    (key&x&y&Hx&Hy&Hc)%interfere_requests.
  apply (lease_guard _ _ _ _ _ Hi Ht1 Hl1) in Hx as (g1&Hg1&Hr1&He1).
  apply (lease_guard _ _ _ _ _ Hi Ht2 Hl2) in Hy as (g2&Hg2&Hr2&He2).
  assert (g_lock g1 = g_lock g2) as Hlock by congruence.
  pose proof (inv_excludes _ Hi _ _ _ _ _ _ Hne Ht1 Ht2 Hg1 Hg2 Hlock) as Hex.
  rewrite Hr1, Hr2 in Hex. cbn in Hex. congruence.
Qed.

Fixpoint run_events (s : System) (es : list Event) : option System :=
  match es with
  | [] => Some s
  | e :: es => s' ← run_event s e; run_events s' es
  end.

Lemma run_events_reachable s es s' : reachable s -> run_events s es = Some s' -> reachable s'.
Proof.
  revert s. induction es as [|e es IH]; intros s Hs; cbn; [by intros [= <-]|].
  destruct (run_event s e) as [s1|] eqn:He; [|done]. apply IH. by eapply reachable_step.
Qed.

(** ** No deadlock *)

(** The steps callers make themselves. *)
Definition progresses (e : Event) : bool :=
  match e with ELookup _ | EGrant _ | EBusy _ | ERelease _ => true | _ => false end.

Definition task_work (t : Task) : nat :=
  (2 * length (task_rest t) + match task_handle t with Some _ => 0 | None => 1 end)%nat.

(** How many steps the callers have left. *)
Definition work (s : System) : nat :=
  sum_list (map (fun '(_, t) => task_work t) (map_to_list (tasks s))).

Lemma work_delete s id t :
  tasks s !! id = Some t -> (work (without_task s id) + task_work t = work s)%nat.
Proof.
  intros Ht. unfold work. cbn [tasks without_task].
  rewrite <- (map_to_list_delete _ _ _ Ht). cbn. lia.
Qed.

Lemma work_insert s c id t t' n :
  tasks s !! id = Some t ->
  (work (mk_system c (<[id := t']> (tasks s)) n) + task_work t = work s + task_work t')%nat.
Proof.
  intros Ht. rewrite <- (work_delete s id t Ht). unfold work. cbn [tasks without_task].
  rewrite <- insert_delete_eq, (map_to_list_insert _ id t') by apply lookup_delete_eq. cbn. lia.
Qed.

Lemma task_work_pos t : handle_wf t -> (0 < task_work t)%nat.
Proof.
  unfold handle_wf, task_work. destruct (task_handle t); [|lia].
  intros Hr. destruct (task_rest t); [by destruct Hr|]. cbn. lia.
Qed.

Lemma less_work w a b c : (w + a = b + c)%nat -> (c < a)%nat -> (w < b)%nat.
Proof. lia. Qed.

Lemma progress_decreases_work s e s' :
  invariant s -> progresses e = true -> run_event s e = Some s' -> (work s' < work s)%nat.
Proof.
  intros Hi. destruct e as [id c|id|id|id|id|id|]; try done; intros _; cbn [run_event];
    (destruct (tasks s !! id) as [t|] eqn:Ht; [|done]); cbn [mbind option_bind];
    pose proof (work_delete _ _ _ Ht) as Hd;
    pose proof (task_work_pos _ (proj2 (inv_plan _ Hi _ _ Ht))) as Hpos.
  - unfold lookup_step. destruct (task_handle t) eqn:Hh; [done|].
    destruct (task_rest t) as [|[key a] rest] eqn:Hr; [done|].
    destruct (lock_of_key _ _ _ _) as [[l c]|]; intros [= <-]; [|lia].
    pose proof (work_insert s c id t (mk_task (task_caller t) (task_guards t) (Some l)
      ((key, a) :: rest)) (S (next_lock s)) Ht) as Hw.
    unfold task_work in Hw. rewrite Hh, Hr in Hw. cbn [task_rest task_handle length] in Hw.
    eapply less_work; [exact Hw|lia].
  - unfold grant_step. destruct (task_handle t) as [l|] eqn:Hh; [|done].
    destruct (task_rest t) as [|r rest] eqn:Hr; [done|].
    destruct (contended _ _ _); [done|]. intros [= <-].
    pose proof (work_insert s (coordination s) id t (mk_task (task_caller t)
      (task_guards t ++ [mk_guard r l]) None rest) (next_lock s) Ht) as Hw.
    unfold task_work in Hw. rewrite Hh, Hr in Hw. cbn [task_rest task_handle length] in Hw.
    eapply less_work; [exact Hw|lia].
  - unfold busy_step. destruct (task_handle t), (task_rest t); try done.
    destruct (_ && _); [|done]. intros [= <-]. lia.
  - unfold release_step. destruct (task_rest t); [|done]. intros [= <-]. lia.
Qed.

(** The key a caller waits for, when somebody keeps it away. *)
Definition blocked_on (s : System) (id : TaskId) (k : LockKey) : Prop :=
  exists t l a rest, tasks s !! id = Some t /\ task_handle t = Some l
    /\ task_rest t = (k, a) :: rest /\ contended (tasks s) l a = true.

Lemma progress_or_blocked s id t :
  tasks s !! id = Some t -> handle_wf t ->
  (exists e s', progresses e = true /\ run_event s e = Some s') \/ (exists k, blocked_on s id k).
Proof.
  intros Ht Hwf. destruct (task_rest t) as [|[k a] rest] eqn:Hr.
  { left. exists (ERelease id), (without_task s id). split; [done|].
    cbn. rewrite Ht. cbn. unfold release_step. by rewrite Hr. }
  destruct (task_handle t) as [l|] eqn:Hh.
  - destruct (contended (tasks s) l a) eqn:Hc; [right; by exists k, t, l, a, rest|left].
    eexists (EGrant id), _. split; [done|]. cbn. rewrite Ht. cbn. unfold grant_step.
    rewrite Hh, Hr. cbn. by rewrite Hc.
  - left. eexists (ELookup id), _. split; [done|]. cbn. rewrite Ht. cbn. unfold lookup_step.
    by rewrite Hh, Hr.
Qed.

(** Whoever keeps a lock away and is blocked waits for a later lock. *)
Lemma blocked_ascends s id k :
  invariant s -> blocked_on s id k ->
  (forall id' t', tasks s !! id' = Some t' -> exists k', blocked_on s id' k') ->
  exists id' k', blocked_on s id' k' /\ lock_lt k k'.
Proof.
  intros Hi (t&l&a&rest&Ht&Hh&Hr&Hc) Hall.
  apply contended_spec in Hc as (id'&t'&g&Ht'&Hg&Hl&_).
  destruct (Hall _ _ Ht') as (k'&Hb). exists id', k'. split; [done|].
  destruct Hb as (t2&l2&a2&rest2&Ht2&_&Hr2&_). rewrite Ht' in Ht2. injection Ht2 as <-.
  assert (k = (g_request g).1) as ->.
  { apply (inv_keys _ Hi _ _ l).
    - eapply (inv_refs _ Hi _ _ _ _ Ht). unfold task_refs. rewrite Hh, Hr.
      apply elem_of_app. right. by constructor.
    - rewrite <- Hl. eapply (inv_refs _ Hi _ _ _ _ Ht'). apply elem_of_app. left.
      apply list_elem_of_fmap. by exists g. }
  destruct (inv_plan _ Hi _ _ Ht') as [Hplan _].
  pose proof (requests_sorted (task_caller t')) as Hs. rewrite <- Hplan, Hr2, map_app in Hs.
  eapply StronglySorted_app_1_elem_of; [exact Hs| |by constructor].
  rewrite map_map. apply list_elem_of_fmap. by exists g.
Qed.

(** A finite set of keys has no endless ascent. *)
Lemma no_ascent (P : LockKey -> Prop) (l : list LockKey) :
  (forall k, P k -> k ∈ l) -> (forall k, P k -> exists k', P k' /\ lock_lt k k') ->
  forall k, ~ P k.
Proof.
  intros Hl Hup k Hk.
  assert (forall n k, P k -> exists c, length c = n /\ StronglySorted lock_lt (k :: c)
    /\ Forall P (k :: c)) as Hchain.
  { intros n. induction n as [|n IH]; intros k0 Hk0.
    - exists []. split_and!; [done|repeat constructor|by repeat constructor].
    - destruct (Hup _ Hk0) as (k'&Hk'&Hlt). destruct (IH _ Hk') as (c&Hn&Hs&Hp).
      exists (k' :: c). split_and!; [by cbn; rewrite Hn| |by constructor].
      constructor; [done|]. apply StronglySorted_inv in Hs as [_ Hc]. constructor; [done|].
      eapply Forall_impl; [exact Hc|]. intros ? ?. by etrans. }
  destruct (Hchain (length l) k Hk) as (c&Hn&Hs&Hp).
  assert (NoDup (k :: c)) as Hnd.
  { clear -Hs. induction Hs as [|a r _ IH Ha]; constructor; [|done].
    intros Hin. rewrite Forall_forall in Ha. apply (irreflexivity lock_lt a), Ha.
    first [exact Hin|by apply list_elem_of_In]. }
  assert (k :: c ⊆+ l) as Hsub.
  { apply NoDup_submseteq; [done|]. intros x Hx. apply Hl. rewrite Forall_forall in Hp.
    apply Hp. first [exact Hx|by apply list_elem_of_In]. }
  apply submseteq_length in Hsub. cbn in Hsub. lia.
Qed.

Lemma one_or_all {X} (A : Prop) (B : X -> Prop) (l : list X) :
  (forall x, x ∈ l -> A \/ B x) -> A \/ forall x, x ∈ l -> B x.
Proof.
  induction l as [|x l IH]; intros Hx; [right; by intros ? ?%elem_of_nil|].
  destruct (Hx x) as [?|Hb]; [by constructor|by left|].
  destruct IH as [?|Hall]; [intros; apply Hx; by constructor|by left|].
  right. by intros y [->|Hy]%elem_of_cons; [|apply Hall].
Qed.

(** C30 (progress): as long as a caller is left, some caller can look up, take or
    be refused its next lock or give its lease back, so the locks never
    deadlock; and every such step shortens the work left, so without new
    callers all of them are served or refused. *)
Theorem acquisition_makes_progress s :
  reachable s ->
  (tasks s <> ∅ -> exists e s', progresses e = true /\ run_event s e = Some s')
  /\ (forall e s', progresses e = true -> run_event s e = Some s' -> (work s' < work s)%nat).
Proof.
  intros Hi%reachable_invariant. split; [|intros e s'; by apply progress_decreases_work].
  intros Hne. apply map_choose in Hne as (id&t&Ht).
  destruct (one_or_all (exists e s', progresses e = true /\ run_event s e = Some s')
    (fun '(id, _) => exists k, blocked_on s id k) (map_to_list (tasks s))) as [?|Hall]; [|done|].
  { intros [id' t'] Ht'%elem_of_map_to_list. apply (progress_or_blocked _ _ _ Ht').
    apply (inv_plan _ Hi _ _ Ht'). }
  exfalso. assert (forall id' t', tasks s !! id' = Some t' -> exists k, blocked_on s id' k) as Hb.
  { intros id' t' Ht'. by apply (Hall (id', t')), elem_of_map_to_list. }
  destruct (Hb _ _ Ht) as (k&Hk).
  apply (no_ascent (fun k => exists id, blocked_on s id k)
    (omap (fun '(_, t) => fst <$> head (task_rest t)) (map_to_list (tasks s)))) with (k := k).
  - intros k' (id'&t'&l&a&rest&Ht'&_&Hr&_). apply list_elem_of_omap. exists (id', t').
    split; [by apply elem_of_map_to_list|]. by rewrite Hr.
  - intros k' (id'&Hk'). destruct (blocked_ascends _ _ _ Hi Hk' Hb) as (id2&k2&?&?). eauto.
  - eauto.
Qed.

(** ** The registry of submissions in flight *)
Inductive FlightEvent :=
| Registered (identity : ChainSubmissionIdentity)
| Dropped (key : SubmissionOperationKey).

(** Ends one registration of [key]. *)
Fixpoint remove_live (key : SubmissionOperationKey) (live : list SubmissionOperationKey)
    : option (list SubmissionOperationKey) :=
  match live with
  | [] => None
  | a :: live => if decide (a = key) then Some live else cons a <$> remove_live key live
  end.

Lemma remove_live_perm key live live' : remove_live key live = Some live' -> live ≡ₚ key :: live'.
Proof.
  revert live'. induction live as [|a live IH]; intros live'; cbn; [done|].
  case_decide; [by intros [= <-]; subst|].
  destruct (remove_live key live) as [l|]; [|done]. intros [= <-]. rewrite (IH l) by done. apply perm_swap.
Qed.

(** A registration hands out an [InFlightSubmission]; only a live one drops. *)
Definition flight_event (s : InFlight * list SubmissionOperationKey) (e : FlightEvent)
    : option (InFlight * list SubmissionOperationKey) :=
  match e with
  | Registered i =>
      Some match register_in_flight i s.1 with
      | Ok (key, f) => (f, key :: s.2)
      | Err _ => s
      end
  | Dropped key => live ← remove_live key s.2; Some (drop_in_flight key s.1, live)
  end.

Fixpoint flight_run (s : InFlight * list SubmissionOperationKey) (es : list FlightEvent)
    : option (InFlight * list SubmissionOperationKey) :=
  match es with
  | [] => Some s
  | e :: es => s' ← flight_event s e; flight_run s' es
  end.

Definition registrations (key : SubmissionOperationKey) (live : list SubmissionOperationKey) : Z :=
  Z.of_nat (length (filter (fun k => k = key) live)).

Definition counts_live (f : InFlight) (live : list SubmissionOperationKey) : Prop :=
  fl_poisoned f = false /\
  forall key, fl_counts f !! key
    = if registrations key live =? 0 then None else Some (registrations key live).

Lemma registrations_cons a key live :
  registrations key (a :: live) = registrations key live + if decide (a = key) then 1 else 0.
Proof.
  unfold registrations. rewrite filter_cons. case_decide; cbn [length]; lia.
Qed.

Lemma registrations_bound key live : 0 <= registrations key live <= Z.of_nat (length live).
Proof.
  unfold registrations. pose proof (length_filter (fun k => k = key) live). lia.
Qed.

Lemma remove_live_registrations a live live' key :
  remove_live a live = Some live' ->
  registrations key live = registrations key live' + if decide (a = key) then 1 else 0.
Proof.
  intros Hp%remove_live_perm. rewrite <- registrations_cons.
  unfold registrations. by rewrite Hp.
Qed.

Lemma flight_event_counts f live e f' live' :
  counts_live f live -> Z.of_nat (length live) < usize_max ->
  flight_event (f, live) e = Some (f', live') ->
  counts_live f' live' /\ (length live' <= S (length live))%nat.
Proof.
  intros [Hp Hc] Hlen. unfold flight_event. destruct e as [i|a]; cbn [fst snd].
  - unfold register_in_flight. rewrite Hp. intros [= <- <-]. split; [|done].
    split; [done|]. intros key. cbn [fl_counts]. rewrite registrations_cons.
    pose proof (registrations_bound (operation_key i) live) as Hb.
    case_decide as Hk; [subst key; rewrite lookup_insert_eq, Hc|by rewrite lookup_insert_ne, Z.add_0_r].
    rewrite Z.mod_small by (destruct (_ =? 0) eqn:?; cbn; unfold usize_max in *; lia).
    destruct (registrations _ live =? 0) eqn:Hz; cbn [default];
      (destruct (_ + 1 =? 0) eqn:?; [lia|]); f_equal; lia.
  - destruct (remove_live a live) as [l|] eqn:Hr; [|done]. cbn. intros [= <- <-].
    pose proof (remove_live_registrations a live l a Hr) as Ha. rewrite decide_True in Ha by done.
    pose proof (registrations_bound a l) as Hb. apply remove_live_perm in Hr as Hperm.
    apply Permutation_length in Hperm as Hl. cbn in Hl. split; [|lia].
    unfold drop_in_flight. rewrite Hp, Hc. destruct (_ =? 0) eqn:Hz; [lia|].
    rewrite Z.mod_small by (unfold usize_max in *; lia).
    replace (registrations a live - 1) with (registrations a l) by lia.
    destruct (registrations a l =? 0) eqn:Hl0; (split; [done|]); intros key; cbn [fl_counts];
      pose proof (remove_live_registrations a live l key Hr) as Hkey;
      (case_decide as Hk; [subst key|]); rewrite ?lookup_delete_eq, ?lookup_insert_eq.
    + by rewrite Hl0.
    + rewrite lookup_delete_ne by done. rewrite Hc, Hkey. by rewrite Z.add_0_r.
    + by rewrite Hl0.
    + rewrite lookup_insert_ne by done. rewrite Hc, Hkey. by rewrite Z.add_0_r.
Qed.

Lemma flight_run_counts es f live f' live' :
  counts_live f live -> Z.of_nat (length live) + Z.of_nat (length es) <= usize_max ->
  flight_run (f, live) es = Some (f', live') -> counts_live f' live'.
Proof.
  revert f live. induction es as [|e es IH]; intros f live Hc Hlen; cbn; [by intros [= <- <-]|].
  destruct (flight_event (f, live) e) as [[f1 l1]|] eqn:He; [|done]. cbn [length] in Hlen.
  apply flight_event_counts in He as [Hc' Hl]; [|done|lia]. apply IH; [done|lia].
Qed.

(** In flight: after any history of registrations and drops the registry
    counts exactly the live registrations and forgets every other key, so a
    round is reported in flight exactly when one of its submissions is. *)
Theorem in_flight_is_exact es f live i :
  Z.of_nat (length es) <= usize_max ->
  flight_run (mk_in_flight false ∅, []) es = Some (f, live) ->
  (forall key, fl_counts f !! key
     = if registrations key live =? 0 then None else Some (registrations key live))
  /\ has_in_flight_for_round i f
     = Ok (bool_decide (Exists (fun key => bk_round (ok_bundle key) = round_key i) live)).
Proof.
  intros Hlen Hrun. apply flight_run_counts in Hrun as [Hp Hc]; [|by split|by cbn; lia].
  split; [done|]. unfold has_in_flight_for_round. rewrite Hp. f_equal.
  apply eq_bool_prop_intro. rewrite !Is_true_true, bool_decide_eq_true, existsb_exists, Exists_exists.
  split.
  - intros ([key n]&Hin&Hr%bool_decide_eq_true). exists key.
    apply list_elem_of_In, elem_of_map_to_list in Hin. rewrite Hc in Hin. split; [|done].
    destruct (registrations key live =? 0) eqn:Hz; [done|].
    assert (key ∈ filter (fun k => k = key) live) as Hk.
    { unfold registrations in Hz. destruct (filter _ live) as [|x xs] eqn:Hf; [done|].
      assert (x ∈ filter (fun k => k = key) live) as Hx by (rewrite Hf; by constructor).
      apply list_elem_of_filter in Hx as [-> _]. by constructor. }
    by apply list_elem_of_filter in Hk as [_ ?].
  - intros (key&Hin&Hr). exists (key, registrations key live).
    split; [|by apply bool_decide_eq_true]. apply list_elem_of_In, elem_of_map_to_list.
    rewrite Hc. destruct (registrations key live =? 0) eqn:Hz; [|done]. exfalso.
    unfold registrations in Hz. assert (key ∈ filter (fun k => k = key) live) as Hk
      by (by apply list_elem_of_filter).
    destruct (filter _ live); [by apply elem_of_nil in Hk|done].
Qed.

(** ** Exclusive access is refused exactly while the round is in use *)
Definition round_in_use (s : System) (i : ChainSubmissionIdentity) : Prop :=
  exists id t g, tasks s !! id = Some t /\ g ∈ task_guards t
    /\ (g_request g).1 = RoundGate (round_key i).

(** Nobody holds a lock that was created just now; an existing lock is held by
    the callers that hold a guard for its key. *)
Lemma exclusive_contended s key l c :
  invariant s ->
  lock_of_key (alive (tasks s)) (next_lock s) key (coordination s) = Ok (l, c) ->
  contended (tasks s) l Exclusive = true
  <-> exists id t g, tasks s !! id = Some t /\ g ∈ task_guards t /\ (g_request g).1 = key.
Proof.
  intros Hi Hk. destruct (new_entries_invariant _ _ _ _ Hi Hk) as [Hi' Hl].
  assert (forall id t g, tasks s !! id = Some t -> g ∈ task_guards t ->
    entry c (g_request g).1 = Some (g_lock g)) as Hentry.
  { intros id t g Ht Hg. apply (inv_refs _ Hi' _ _ _ _ Ht). apply elem_of_app. left.
    apply list_elem_of_fmap. by exists g. }
  rewrite contended_spec. split; intros (id&t&g&Ht&Hg&Hx); exists id, t, g;
    (split; [done|split; [done|]]).
  - destruct Hx as [<- _]. apply (inv_keys _ Hi' _ _ (g_lock g)); [by eapply Hentry|done].
  - specialize (Hentry _ _ _ Ht Hg). subst key. split; [congruence|].
    by destruct (g_request g) as [? []].
Qed.

(** [try_acquire_round_exclusive] succeeds exactly when no operation of the
    round holds its gate, and otherwise reports that it is busy. *)
Lemma round_exclusive_exact s id i :
  reachable s -> tasks s !! id = None -> reg_poisoned (round_gates (coordination s)) = false ->
  (is_Some (run_events s [EStart id (RoundExclusive i); ELookup id; EGrant id])
   <-> ~ round_in_use s i)
  /\ (is_Some (run_events s [EStart id (RoundExclusive i); ELookup id; EBusy id])
      <-> round_in_use s i).
Proof.
  intros Hs Hid Hp. set (s1 := with_task s id
    (mk_task (RoundExclusive i) [] None (round_exclusive_requests i))).
  assert (run_event s (EStart id (RoundExclusive i)) = Some s1) as Hstart
    by (cbn; by rewrite decide_True).
  assert (invariant s1) as Hi1 by (eapply reachable_invariant, reachable_step; done).
  assert (round_in_use s i <-> exists id' t g, tasks s1 !! id' = Some t /\ g ∈ task_guards t
    /\ (g_request g).1 = RoundGate (round_key i)) as Huse.
  { split; intros (id'&t&g&Ht&Hg&Hr); exists id', t, g; split_and!; try done; cbn in *.
    - rewrite lookup_insert_ne; [done|]. congruence.
    - apply lookup_insert_Some in Ht as [[_ <-]|[_ ?]]; [by apply elem_of_nil in Hg|done]. }
  destruct (lock_of_key (alive (tasks s1)) (next_lock s1) (RoundGate (round_key i))
    (coordination s1)) as [[l c]|] eqn:Hk.
  2: { exfalso. revert Hk. cbn [lock_of_key]. unfold shared_lock.
    change (round_gates (coordination s1)) with (round_gates (coordination s)). rewrite Hp.
    cbv beta iota zeta. set (kept := filter _ _). by destruct (kept !! round_key i). }
  pose proof (exclusive_contended _ _ _ _ Hi1 Hk) as Hc. rewrite <- Huse in Hc.
  set (t2 := mk_task (RoundExclusive i) [] (Some l) (round_exclusive_requests i)).
  set (s2 := mk_system c (<[id := t2]> (tasks s1)) (S (next_lock s1))).
  assert (run_event s1 (ELookup id) = Some s2) as Hlook.
  { cbn [run_event]. unfold s1 at 2. cbn [tasks with_task]. rewrite lookup_insert_eq.
    cbn [mbind option_bind]. unfold lookup_step.
    cbn [task_handle task_rest round_exclusive_requests task_caller task_guards].
    rewrite Hk. done. }
  assert (contended (tasks s2) l Exclusive = contended (tasks s1) l Exclusive) as Hsame.
  { apply eq_bool_prop_intro. rewrite !Is_true_true, !contended_spec.
    split; intros (id'&t&g&Ht&Hg&Hx); exists id', t, g; (split; [|done]); cbn [tasks s2] in *.
    - apply lookup_insert_Some in Ht as [[_ <-]|[_ ?]]; [by apply elem_of_nil in Hg|done].
    - apply lookup_insert_Some. right. split; [|done]. intros <-. cbn [s1 tasks with_task] in Ht.
      apply lookup_insert_Some in Ht as [[_ <-]|[? _]]; [by apply elem_of_nil in Hg|done]. }
  assert (tasks s2 !! id = Some t2) as Ht2 by apply lookup_insert_eq.
  cbn [run_events]. rewrite Hstart. cbn [mbind option_bind]. rewrite Hlook.
  cbn [mbind option_bind run_event]. rewrite Ht2. cbn [mbind option_bind].
  unfold grant_step, busy_step. cbn [t2 task_handle task_rest round_exclusive_requests snd].
  rewrite Hsame, <- Hc. cbn [awaits task_caller negb andb].
  destruct (contended (tasks s1) l Exclusive); cbn [mbind option_bind];
    split; split; intros Hx; try done; try (by destruct Hx); by eexists.
Qed.

(** ** Witnesses *)
Definition example_bundle (b : Z) : ChainSubmissionIdentity :=
  mk_identity "wallet" Mainnet (replicate 32 1) b (Vote 3).

(** Two callers of one wallet and round. *)
Definition example_pair (a b : Caller) (events : list Event) : option System :=
  run_events initial (EStart 0%nat a :: EStart 1%nat b :: events).

Lemma example_pair_reachable a b events s : example_pair a b events = Some s -> reachable s.
Proof. apply run_events_reachable. constructor. Qed.

(** Four locks of one caller. *)
Definition example_four (id : TaskId) : list Event :=
  [ELookup id; EGrant id; ELookup id; EGrant id; ELookup id; EGrant id; ELookup id; EGrant id].

Definition both_leased (s : System) : bool :=
  match tasks s !! 0%nat, tasks s !! 1%nat with
  | Some t1, Some t2 => bool_decide (task_rest t1 = []) && bool_decide (task_rest t2 = [])
  | _, _ => false
  end.

Lemma some_system (run : option System) (p : System -> bool) :
  match run with Some s => p s | None => false end = true -> exists s, run = Some s /\ p s = true.
Proof. destruct run; [eauto|done]. Qed.

Lemma conflicting_leases_exclude_witness :
  exists s t1 t2,
    example_pair (Acquire (example_bundle 0) []) (Acquire (example_bundle 1) [])
      (example_four 0%nat ++ example_four 1%nat) = Some s
    /\ tasks s !! 0%nat = Some t1 /\ tasks s !! 1%nat = Some t2 /\ lease t1 /\ lease t2
    /\ ~ interfere (task_caller t1) (task_caller t2).
Proof.
  destruct (some_system (example_pair (Acquire (example_bundle 0) [])
    (Acquire (example_bundle 1) []) (example_four 0%nat ++ example_four 1%nat)) both_leased)
    as (s&Hs&Hb); [vm_compute; reflexivity|].
  pose proof (example_pair_reachable _ _ _ _ Hs) as Hr. unfold both_leased in Hb.
  destruct (tasks s !! 0%nat) as [t1|] eqn:Ht1; [|discriminate Hb].
  destruct (tasks s !! 1%nat) as [t2|] eqn:Ht2; [|discriminate Hb].
  apply andb_prop in Hb as [Hl1%bool_decide_eq_true Hl2%bool_decide_eq_true].
  exists s, t1, t2. split; [exact Hs|]. clear Hs.
  split_and!; try done. by apply (conflicting_leases_exclude s 0%nat 1%nat).
Defined.

Lemma acquisition_makes_progress_witness :
  exists s, example_pair (Acquire (example_bundle 0) []) (Acquire (example_bundle 0) [])
      (example_four 0%nat ++ take 5 (example_four 1%nat)) = Some s
    /\ (exists e s', progresses e = true /\ run_event s e = Some s').
Proof.
  destruct (some_system (example_pair (Acquire (example_bundle 0) [])
    (Acquire (example_bundle 0) []) (example_four 0%nat ++ take 5 (example_four 1%nat)))
    (fun s => bool_decide (is_Some (tasks s !! 0%nat)))) as (s&Hs&Hb);
    [vm_compute; reflexivity|].
  pose proof (example_pair_reachable _ _ _ _ Hs) as Hr.
  exists s. split; [exact Hs|]. clear Hs. apply (acquisition_makes_progress s); [exact Hr|].
  apply bool_decide_eq_true in Hb as [t Ht]. intros He. by rewrite He in Ht.
Defined.

Definition example_flights : list FlightEvent :=
  [Registered (example_bundle 0); Registered (example_bundle 0);
   Dropped (operation_key (example_bundle 0))].

Lemma in_flight_is_exact_witness :
  exists f live, flight_run (mk_in_flight false ∅, []) example_flights = Some (f, live)
    /\ has_in_flight_for_round (example_bundle 1) f = Ok true.
Proof.
  assert (snd <$> flight_run (mk_in_flight false ∅, []) example_flights
    = Some [operation_key (example_bundle 0)]) as Hlive by (vm_compute; reflexivity).
  destruct (flight_run (mk_in_flight false ∅, []) example_flights) as [[f live]|] eqn:Hrun;
    [|discriminate Hlive].
  exists f, live. split; [exact eq_refl|]. cbn in Hlive. injection Hlive as ->.
  destruct (in_flight_is_exact example_flights f _ (example_bundle 1)
    ltac:(vm_compute; discriminate) Hrun) as [_ ->].
  vm_compute. reflexivity.
Defined.
