(* ===== verification/Confirmation.v ===== *)
(** * Validation of confirmation events

    Models the event validation of [chain_submission/confirmation.rs] and the
    event data of [confirmation.rs]: how the events of a committed transaction
    are matched against a locked generation before a confirmation is recorded.
    [ConfirmationProofs.v] shows what an accepted event says. *)

From stdpp Require Import base gmap strings list numbers.
From S2P Require Import Prelude Identity Outcome Lifecycle Record.
Local Open Scope Z_scope.
Local Open Scope voting_scope.

(** ** Events *)
Record TxEventAttribute := mk_attribute { attr_key : text; attr_value : text }.
Record TxEvent := mk_event { event_type : text; event_attributes : list TxEventAttribute }.

Definition DELEGATE_VOTE_EVENT : string := "delegate_vote".
Definition CAST_VOTE_EVENT : string := "cast_vote".
Definition CAST_VOTE_BATCH_EVENT : string := "cast_vote_batch".
Definition LEAF_INDEX_ATTRIBUTE : string := "leaf_index".
Definition BATCH_DIGEST_ATTRIBUTE : string := "batch_digest".
Definition BATCH_SIZE_ATTRIBUTE : string := "batch_size".
Definition FINAL_VAN_LEAF_INDEX_ATTRIBUTE : string := "final_van_leaf_index".
Definition VC_LEAF_INDICES_ATTRIBUTE : string := "vote_commitment_leaf_indices".
Definition PROPOSAL_IDS_ATTRIBUTE : string := "proposal_ids".
Definition VAN_NULLIFIERS_ATTRIBUTE : string := "van_nullifiers".
Definition NULLIFIER_COUNT_ATTRIBUTE : string := "nullifier_count".
Definition ROUND_ID_ATTRIBUTES : list string := ["vote_round_id"; "round_id"]%string.

(** ** Strings *)

(** [str::as_bytes]: the UTF-8 encoding. *)
Definition utf8_char (c : Z) : list Z :=
  if c <? 128 then [c]
  else if c <? 2048 then [192 + c / 64; 128 + c mod 64]
  else if c <? 65536 then [224 + c / 4096; 128 + c / 64 mod 64; 128 + c mod 64]
  else [240 + c / 262144; 128 + c / 4096 mod 64; 128 + c / 64 mod 64; 128 + c mod 64].
Definition utf8 (t : text) : list Z := mjoin (map utf8_char t).

(** [str::is_ascii]. *)
Definition is_ascii (t : text) : bool := forallb (fun c => c <? 128) t.

(** [str::split] at one character. *)
Fixpoint split_on (separator : Z) (t : text) : list text :=
  match t with
  | [] => [[]]
  | c :: t =>
      if c =? separator then [] :: split_on separator t
      else match split_on separator t with
           | part :: parts => (c :: part) :: parts
           | [] => [[c]]
           end
  end.

Definition comma : Z := 44.

(** [str::parse::<u64>]: decimal digits after an optional plus sign. *)
Fixpoint parse_digits (acc : Z) (t : text) : option Z :=
  match t with
  | [] => Some acc
  | c :: t =>
      if (48 <=? c) && (c <=? 57) then
        if acc * 10 + (c - 48) <=? u64_max then parse_digits (acc * 10 + (c - 48)) t else None
      else None
  end.

Definition parse_u64 (t : text) : option Z :=
  let digits := match t with
                | c :: rest => if c =? 43 then rest else t
                | [] => []
                end in
  match digits with
  | [] => None
  | _ => parse_digits 0 digits
  end.

(** [usize] has 64 bits. *)
Definition usize_max : Z := u64_max.

Section validation.
Context `{Externals}.

(** [format!("{t:?}")] of a string. *)
Definition escape_debug (c : Z) : text :=
  if c =? 0 then [92; 48]
  else if c =? 9 then [92; 116]
  else if c =? 13 then [92; 114]
  else if c =? 10 then [92; 110]
  else if (c =? 34) || (c =? 92) then [92; c]
  else if char_grapheme_extended c then escape_unicode c
  else if char_printable c then [c]
  else escape_unicode c.
Definition str_debug (t : text) : text := [34] ++ mjoin (map escape_debug t) ++ [34].

(** ** Attribute values *)
Definition parse_compat_u64 (raw : text) (field : string) : result Z VotingError :=
  let raw := trim raw in
  match parse_u64 raw with
  | Some value => Ok value
  | None =>
      match (if is_ascii raw then None else parse_u64 (base64_encode (utf8 raw))) with
      | Some value => Ok value
      | None => Err (VInvalidInput (lit field
                  ++ lit " must be an unsigned 64-bit integer, got " ++ str_debug raw))
      end
  end.

Definition parse_csv {T : Type} (raw : text) (field : string)
    (parse : text -> result T VotingError) : result (list T) VotingError :=
  let values := map trim (split_on comma raw) in
  if bool_decide (values = []) || existsb (fun value => bool_decide (value = [])) values
  then Err (VInvalidInput (lit field ++ lit " must be a nonempty comma-separated list"))
  else try_map parse values.

Definition parse_csv_u64 (raw : text) : result (list Z) VotingError :=
  parse_csv raw "cast_vote_batch vote_commitment_leaf_indices"
    (fun value => parse_compat_u64 value "cast_vote_batch position").

Definition parse_csv_u32 (raw : text) : result (list Z) VotingError :=
  parse_csv raw "cast_vote_batch proposal_ids" (fun value =>
    let? proposal_id := parse_compat_u64 value "cast_vote_batch proposal id" in
    if proposal_id <=? u32_max then Ok proposal_id
    else Err (VInvalidInput (lit "cast_vote_batch proposal id does not fit u32"))).

Definition is_lower_hex (byte : Z) : bool :=
  ((48 <=? byte) && (byte <=? 57)) || ((97 <=? byte) && (byte <=? 102)).

Definition parse_canonical_hex32 (raw : text) (field : string) : result (list Z) VotingError :=
  let malformed := VInvalidInput (lit field ++ lit " must be 32-byte canonical lowercase hex") in
  if negb (bool_decide (length (utf8 raw) = 64%nat)) || negb (forallb is_lower_hex (utf8 raw))
  then Err malformed
  else
    let? bytes := ok_or (hex_decode raw) malformed in
    if bool_decide (length bytes = 32%nat) then Ok bytes else Err malformed.

Definition parse_csv_strings (raw : text) : result (list text) VotingError :=
  parse_csv raw "cast_vote_batch van_nullifiers" (fun value =>
    let? _ := parse_canonical_hex32 value "cast_vote_batch VAN nullifier" in Ok value).

(** ** Events of a round *)
Definition round_id_matches (event_round_id expected_round_id : text) : bool :=
  bool_decide (event_round_id = expected_round_id)
  || bool_decide (base64_encode (utf8 event_round_id) = expected_round_id).

Definition round_values (event : TxEvent) : list text :=
  map attr_value
    (List.filter (fun a => existsb (fun k => bool_decide (attr_key a = lit k)) ROUND_ID_ATTRIBUTES)
       (event_attributes event)).

(** What the loop of [required_event_for_round] carries. *)
Record EventSearch := mk_event_search {
  es_matching : option TxEvent;
  es_wrong_round : option text;
  es_missing_round : bool
}.

Definition search_event (event_type_ round_id : text) (s : EventSearch) (event : TxEvent)
    : result EventSearch VotingError :=
  match round_values event with
  | _ :: _ :: _ => Err (VInvalidInput
      (event_type_ ++ lit " event must contain exactly one round identity attribute"))
  | [value] =>
      if round_id_matches value round_id then
        match es_matching s with
        | Some _ => Err (VInvalidInput (lit "ambiguous " ++ event_type_
            ++ lit " events for round " ++ round_id ++ lit "; expected one"))
        | None => Ok (mk_event_search (Some event) (es_wrong_round s) (es_missing_round s))
        end
      else Ok (mk_event_search (es_matching s) (Some value) (es_missing_round s))
  | [] => Ok (mk_event_search (es_matching s) (es_wrong_round s) true)
  end.

Fixpoint search_events (event_type_ round_id : text) (s : EventSearch) (events : list TxEvent)
    : result EventSearch VotingError :=
  match events with
  | [] => Ok s
  | event :: events =>
      if bool_decide (event_type event = event_type_) then
        let? s := search_event event_type_ round_id s event in
        search_events event_type_ round_id s events
      else search_events event_type_ round_id s events
  end.

Definition required_event_for_round (events : list TxEvent) (event_type_ : string)
    (round_id : text) : result TxEvent VotingError :=
  let name := lit event_type_ in
  let? s := search_events name round_id (mk_event_search None None false) events in
  ok_or (es_matching s) (VInvalidInput
    match es_wrong_round s with
    | Some value => name ++ lit " round mismatch: expected " ++ round_id ++ lit ", got " ++ value
    | None =>
        if es_missing_round s then name ++ lit " event is missing its round identity"
        else lit "missing " ++ name ++ lit " event for round " ++ round_id
    end).

Definition attribute_values (event : TxEvent) (key : string) : list text :=
  map attr_value (List.filter (fun a => bool_decide (attr_key a = lit key)) (event_attributes event)).

Definition required_attribute (event : TxEvent) (event_type_ key : string)
    : result text VotingError :=
  match attribute_values event key with
  | [value] => Ok value
  | [] => Err (VInvalidInput
      (lit "missing " ++ lit event_type_ ++ lit " " ++ lit key ++ lit " in transaction events"))
  | _ => Err (VInvalidInput
      (lit "ambiguous " ++ lit event_type_ ++ lit " " ++ lit key
         ++ lit " attributes in transaction events; expected one"))
  end.

(** ** One confirmation *)
Definition confirmation_error (e : ChainSubmissionConfirmationError) : VotingError :=
  VInvalidInput (confirmation_error_to_string e).

Definition validate_delegation (round_id : text) (h : CandidateTransactionHash)
    (events : list TxEvent) : result ValidatedChainSubmissionConfirmation VotingError :=
  let? event := required_event_for_round events DELEGATE_VOTE_EVENT round_id in
  let? raw := required_attribute event DELEGATE_VOTE_EVENT LEAF_INDEX_ATTRIBUTE in
  let? van := parse_compat_u64 raw "delegate_vote leaf_index" in
  map_err confirmation_error (from_hash h van []).

Definition validate_vote (round_id : text) (h : CandidateTransactionHash)
    (events : list TxEvent) : result ValidatedChainSubmissionConfirmation VotingError :=
  let? event := required_event_for_round events CAST_VOTE_EVENT round_id in
  let? raw := required_attribute event CAST_VOTE_EVENT LEAF_INDEX_ATTRIBUTE in
  match map trim (split_on comma raw) with
  | [first; second] =>
      let? van := parse_compat_u64 first "cast_vote VAN position" in
      let? vc := parse_compat_u64 second "cast_vote commitment position" in
      map_err confirmation_error (from_hash h van [vc])
  | _ => Err (VInvalidInput
      (lit "cast_vote leaf_index must contain VAN and vote-commitment positions"))
  end.

Definition batch_event (t : ChainSubmissionTarget) : string :=
  if is_combined t then "delegate_and_cast_vote_batch" else CAST_VOTE_BATCH_EVENT.

(** The combined delegation's nullifier count. *)
Definition check_nullifier_count (request : ChainSubmissionRequest) (event : TxEvent)
    (name : string) : result unit VotingError :=
  match request with
  | QDelegateAndVoteBatch combined =>
      let? raw := required_attribute event name NULLIFIER_COUNT_ATTRIBUTE in
      let? nullifiers := parse_compat_u64 raw "combined delegation nullifier count" in
      if nullifiers =? Z.of_nat (length (dw_gov_nullifiers (cw_delegation combined))) then Ok tt
      else Err (VInvalidInput
        (lit "combined delegation nullifier count does not match the locked generation"))
  | _ => Ok tt
  end.

(** The checks of a batch before its votes are read: nullifier count, digest,
    size and proposal order. The result is the batch size. *)
Definition check_batch_header (derived : DerivedChainSubmission) (digest : list Z)
    (vote_commitments : list (list Z)) (event : TxEvent) (name : string)
    : result Z VotingError :=
  let? _ := check_nullifier_count (derived_request derived) event name in
  let? raw := required_attribute event name BATCH_DIGEST_ATTRIBUTE in
  let? event_digest := parse_canonical_hex32 raw "cast_vote_batch batch_digest" in
  if negb (bool_decide (event_digest = digest)) then
    Err (VInvalidInput (lit "cast_vote_batch digest does not match the locked generation"))
  else
    let? raw := required_attribute event name BATCH_SIZE_ATTRIBUTE in
    let? batch_size := parse_compat_u64 raw "cast_vote_batch batch_size" in
    if usize_max <? batch_size then
      Err (VInvalidInput (lit "cast_vote_batch batch_size does not fit usize"))
    else if (batch_size =? 0) || (Z.of_nat MAX_VOTE_BATCH_ACTIONS <? batch_size)
            || negb (batch_size =? Z.of_nat (length vote_commitments)) then
      Err (VInvalidInput (lit "cast_vote_batch size does not match the locked generation"))
    else
      let? raw := required_attribute event name PROPOSAL_IDS_ATTRIBUTE in
      let? proposal_ids := parse_csv_u32 raw in
      if bool_decide (proposal_ids = derived_ordered_proposal_ids derived) then Ok batch_size
      else Err (VInvalidInput
        (lit "cast_vote_batch proposal order does not match the locked generation")).

Definition batch_votes (request : ChainSubmissionRequest) : option (list VoteCommitmentWire) :=
  match request with
  | QVoteBatch batch => Some (bw_votes batch)
  | QDelegateAndVoteBatch combined => Some (bw_votes (cw_batch combined))
  | _ => None
  end.

Definition expected_nullifier (vote : VoteCommitmentWire) : result text VotingError :=
  let? bytes := ok_or (base64_decode (vw_van_nullifier vote))
    (VInternal (lit "derived batch nullifier is not canonical base64")) in
  if bool_decide (length bytes = 32%nat) then Ok (lit (hex_encode bytes))
  else Err (VInternal (lit "derived batch nullifier has invalid length")).

(** Are the positions [van + index + 1], [van + index + 2], and so on? *)
Fixpoint adjacent (van index : Z) (positions : list Z) : bool :=
  match positions with
  | [] => true
  | position :: positions =>
      match checked_add_u64 van (index + 1) with
      | Some expected => (position =? expected) && adjacent van (index + 1) positions
      | None => false
      end
  end.

(** The checks of a batch after its votes are read. *)
Definition validate_batch_actions (votes : list VoteCommitmentWire) (event : TxEvent)
    (name : string) (batch_size : Z) (h : CandidateTransactionHash)
    : result ValidatedChainSubmissionConfirmation VotingError :=
  let? expected_nullifiers := try_map expected_nullifier votes in
  let? raw := required_attribute event name VAN_NULLIFIERS_ATTRIBUTE in
  let? event_nullifiers := parse_csv_strings raw in
  if negb (bool_decide (event_nullifiers = expected_nullifiers)) then
    Err (VInvalidInput (lit "cast_vote_batch nullifier order does not match the locked generation"))
  else
    let? raw := required_attribute event name FINAL_VAN_LEAF_INDEX_ATTRIBUTE in
    let? van := parse_compat_u64 raw "cast_vote_batch final VAN position" in
    let? raw := required_attribute event name VC_LEAF_INDICES_ATTRIBUTE in
    let? positions := parse_csv_u64 raw in
    if negb (Z.of_nat (length positions) =? batch_size) || negb (adjacent van 0 positions) then
      Err (VInvalidInput
        (lit "cast_vote_batch positions must be the complete adjacent action layout"))
    else map_err confirmation_error (from_hash h van positions).

(** [None] is the [unreachable!] of a batch layout without a batch request. *)
Definition validate_batch (derived : DerivedChainSubmission) (digest : list Z)
    (vote_commitments : list (list Z)) (round_id : text) (h : CandidateTransactionHash)
    (events : list TxEvent)
    : option (result ValidatedChainSubmissionConfirmation VotingError) :=
  let name := batch_event (target (gen_identity (derived_generation derived))) in
  match required_event_for_round events name round_id with
  | Err e => Some (Err e)
  | Ok event =>
      match check_batch_header derived digest vote_commitments event name with
      | Err e => Some (Err e)
      | Ok batch_size =>
          match batch_votes (derived_request derived) with
          | None => None
          | Some votes => Some (validate_batch_actions votes event name batch_size h)
          end
      end
  end.

Definition validate_hash_confirmation (derived : DerivedChainSubmission)
    (h : CandidateTransactionHash) (events : list TxEvent)
    : option (result ValidatedChainSubmissionConfirmation VotingError) :=
  let identity := gen_identity (derived_generation derived) in
  let round_id := lit (hex_encode (vote_round_id identity)) in
  match target identity, bound_expected_layout (derived_bound derived) with
  | Delegation, LDelegation _ => Some (validate_delegation round_id h events)
  | Vote _, LVote _ _ => Some (validate_vote round_id h events)
  | (VoteBatch digest | DelegateAndVoteBatch digest), LVoteBatch _ vote_commitments =>
      validate_batch derived digest vote_commitments round_id h events
  | _, _ => Some (Err (VInternal
      (lit "chain submission identity and expected layout disagree")))
  end.

Definition validate_imported_delegation_confirmation (bound : BoundGeneration)
    (h : CandidateTransactionHash) (events : list TxEvent)
    : result ValidatedChainSubmissionConfirmation VotingError :=
  let identity := gen_identity (bound_generation bound) in
  match target identity, bound_expected_layout bound with
  | Delegation, LDelegation _ =>
      validate_delegation (lit (hex_encode (vote_round_id identity))) h events
  | _, _ => Err (VInvalidInput
      (lit "imported delegation confirmation has an invalid generation layout"))
  end.
End validation.
