(* ===== verification/ConfirmationProofs.v ===== *)
(** * An accepted confirmation says what the generation expects

    What the events of a committed transaction must say to confirm a
    generation, that [validate_hash_confirmation] accepts exactly those, and
    that the event a generation's transaction emits is accepted and read back
    at its positions. *)

From Stdlib Require Import ZifyBool.
From stdpp Require Import base gmap strings list numbers pretty.
From S2P Require Import Prelude Identity Outcome Lifecycle Record Confirmation.
Local Open Scope Z_scope.
Local Open Scope voting_scope.

(** ** What an event says

    The specification: the reading of numbers and lists, and what an event must
    carry to confirm a generation at given positions. *)
Section specification.
Context `{Externals}.

Definition reads_u64 (raw : text) (n : Z) : Prop :=
  parse_u64 (trim raw) = Some n \/
  (parse_u64 (trim raw) = None /\ is_ascii (trim raw) = false /\
   parse_u64 (base64_encode (utf8 (trim raw))) = Some n).

Definition reads_u32 (raw : text) (n : Z) : Prop := reads_u64 raw n /\ n <= u32_max.

Definition reads_hex32 (raw : text) (bytes : list Z) : Prop :=
  length (utf8 raw) = 64%nat /\ Forall lower_hex (utf8 raw) /\
  hex_decode raw = Some bytes /\ length bytes = 32%nat.

Definition reads_list {T : Type} (reads : text -> T -> Prop) (raw : text) (l : list T) : Prop :=
  Forall2 reads (map trim (split_on comma raw)) l.

(** The nullifiers a batch event must list, in action order. *)
Definition nullifier_text (vote : VoteCommitmentWire) (nullifier : text) : Prop :=
  exists bytes, base64_decode (vw_van_nullifier vote) = Some bytes /\
    length bytes = 32%nat /\ nullifier = lit (hex_encode bytes).

Definition has_attribute {T : Type} (event : TxEvent) (key : string)
    (reads : text -> T -> Prop) (value : T) : Prop :=
  exists raw, attribute_values event key = [raw] /\ reads raw value.

Definition batch_says (x : DerivedChainSubmission) (digest : list Z) (actions : nat)
    (event : TxEvent) (van : Z) (positions : list Z) : Prop :=
  (forall combined, derived_request x = QDelegateAndVoteBatch combined ->
     has_attribute event NULLIFIER_COUNT_ATTRIBUTE reads_u64
       (Z.of_nat (length (dw_gov_nullifiers (cw_delegation combined))))) /\
  has_attribute event BATCH_DIGEST_ATTRIBUTE reads_hex32 digest /\
  has_attribute event BATCH_SIZE_ATTRIBUTE reads_u64 (Z.of_nat actions) /\
  (1 <= actions <= MAX_VOTE_BATCH_ACTIONS)%nat /\
  has_attribute event PROPOSAL_IDS_ATTRIBUTE (reads_list reads_u32)
    (derived_ordered_proposal_ids x) /\
  (exists votes nullifiers, batch_votes (derived_request x) = Some votes /\
     Forall2 nullifier_text votes nullifiers /\
     has_attribute event VAN_NULLIFIERS_ATTRIBUTE
       (reads_list (fun raw t => raw = t /\ exists bytes, reads_hex32 raw bytes)) nullifiers) /\
  has_attribute event FINAL_VAN_LEAF_INDEX_ATTRIBUTE reads_u64 van /\
  has_attribute event VC_LEAF_INDICES_ATTRIBUTE (reads_list reads_u64) positions /\
  positions = seqZ (van + 1) (Z.of_nat actions).

Definition event_says (x : DerivedChainSubmission) (event : TxEvent) (van : Z)
    (positions : list Z) : Prop :=
  match target (gen_identity (derived_generation x)),
        bound_expected_layout (derived_bound x) with
  | Delegation, LDelegation _ =>
      positions = [] /\ has_attribute event LEAF_INDEX_ATTRIBUTE reads_u64 van
  | Vote _, LVote _ _ =>
      exists vc, positions = [vc] /\
        has_attribute event LEAF_INDEX_ATTRIBUTE (reads_list reads_u64) [van; vc]
  | (VoteBatch digest | DelegateAndVoteBatch digest), LVoteBatch _ vote_commitments =>
      batch_says x digest (length vote_commitments) event van positions
  | _, _ => False
  end.

(** The event a generation's target emits. *)
Definition target_event (t : ChainSubmissionTarget) : string :=
  match t with
  | Delegation => DELEGATE_VOTE_EVENT
  | Vote _ => CAST_VOTE_EVENT
  | _ => batch_event t
  end.

Definition names_round (name : string) (round_id : text) (event : TxEvent) : bool :=
  bool_decide (event_type event = lit name)
  && match round_values event with [value] => round_id_matches value round_id | _ => false end.

(** No event of the type carries two round identities. *)
Definition one_round_each (name : string) (events : list TxEvent) : Prop :=
  Forall (fun event => event_type event = lit name -> (length (round_values event) <= 1)%nat)
    events.

(** [event] is the only one of its type for the round. *)
Definition the_event (events : list TxEvent) (name : string) (round_id : text)
    (event : TxEvent) : Prop :=
  List.filter (names_round name round_id) events = [event] /\ one_round_each name events.

Definition round_text (x : DerivedChainSubmission) : text :=
  lit (hex_encode (vote_round_id (gen_identity (derived_generation x)))).

(** A batch layout comes with a batch request. *)
Definition batch_has_votes (x : DerivedChainSubmission) : Prop :=
  match bound_expected_layout (derived_bound x) with
  | LVoteBatch _ _ => batch_votes (derived_request x) <> None
  | _ => True
  end.

(** ** Lemmas on the readers *)
Lemma search_event_ok name round s event s' :
  event_type event = lit name ->
  search_event (lit name) round s event = Ok s' <->
  (length (round_values event) <= 1)%nat /\
  (names_round name round event = true -> es_matching s = None) /\
  s' = (match round_values event with
        | [value] => if round_id_matches value round
                     then mk_event_search (Some event) (es_wrong_round s) (es_missing_round s)
                     else mk_event_search (es_matching s) (Some value) (es_missing_round s)
        | _ => mk_event_search (es_matching s) (es_wrong_round s) true
        end).
Proof.
  intros Ht. unfold search_event, names_round. rewrite bool_decide_eq_true_2 by done.
  destruct (round_values event) as [|value [|v vs]]; simpl.
  - split; [intros [= <-]; split_and!; [lia|done|done]|by intros (_ & _ & ->)].
  - destruct (round_id_matches value round).
    + destruct (es_matching s); simpl; split; try done.
      * by intros (_ & Hm & _); specialize (Hm eq_refl).
      * intros [= <-]; split_and!; [lia|done|done].
      * by intros (_ & _ & ->).
    + split; [intros [= <-]; split_and!; [lia|done|done]|by intros (_ & _ & ->)].
  - split; [done|]. intros [? _]. lia.
Qed.

Lemma names_round_typed name round event :
  event_type event = lit name ->
  names_round name round event
    = match round_values event with [value] => round_id_matches value round | _ => false end.
Proof. intros Ht. unfold names_round. by rewrite bool_decide_eq_true_2. Qed.

Lemma names_round_other name round event :
  event_type event <> lit name -> names_round name round event = false.
Proof. intros Ht. unfold names_round. by rewrite bool_decide_eq_false_2. Qed.

Lemma search_events_ok name round events : forall s s',
  search_events (lit name) round s events = Ok s' ->
  one_round_each name events /\
  option_list (es_matching s')
    = option_list (es_matching s) ++ List.filter (names_round name round) events.
Proof.
  induction events as [|event events IH]; intros s s' Hs; simpl in Hs.
  - injection Hs as <-. split; [constructor|]. simpl. by rewrite app_nil_r.
  - case_bool_decide as Ht.
    + destruct (search_event (lit name) round s event) as [s1|] eqn:H1; [|done].
      apply search_event_ok in H1 as (Hone & Hnone & ->); [|done].
      apply IH in Hs as [Hrest ->]. split; [by constructor|]. simpl.
      rewrite names_round_typed in * by done.
      destruct (round_values event) as [|value [|]]; simpl in *; [done| |lia].
      destruct (round_id_matches value round); [|done]. by rewrite (Hnone eq_refl).
    + apply IH in Hs as [Hrest ->]. split; [by constructor|]. simpl.
      by rewrite names_round_other.
Qed.

Lemma search_events_total name round events : forall s,
  one_round_each name events ->
  (length (option_list (es_matching s) ++ List.filter (names_round name round) events) <= 1)%nat ->
  exists s', search_events (lit name) round s events = Ok s'.
Proof.
  induction events as [|event events IH]; intros s Hone Hlen; [by exists s|].
  apply Forall_cons_iff in Hone as [He Hone]. simpl in *. case_bool_decide as Ht.
  - assert (names_round name round event = true -> es_matching s = None) as Hnone.
    { intros Hn. rewrite Hn, length_app in Hlen. destruct (es_matching s); [simpl in Hlen; lia|done]. }
    destruct (search_event (lit name) round s event) as [s1|e] eqn:H1.
    + apply search_event_ok in H1 as (_ & _ & ->); [|done]. apply IH; [done|].
      rewrite names_round_typed in * by done.
      destruct (round_values event) as [|value [|]]; simpl in *; [done| |specialize (He Ht); lia].
      destruct (round_id_matches value round); [|done]. by rewrite (Hnone eq_refl) in Hlen.
    + exfalso. assert (exists s1, search_event (lit name) round s event = Ok s1) as [s1 Hs1]
        by (eexists; apply search_event_ok; [done|split_and!; [by apply He|done|done]]).
      congruence.
  - apply IH; [done|]. by rewrite names_round_other in Hlen.
Qed.

Lemma required_event_iff events name round event :
  required_event_for_round events name round = Ok event <-> the_event events name round event.
Proof.
  unfold required_event_for_round, the_event. split.
  - destruct (search_events _ _ _ _) as [s|] eqn:Hs; [|done].
    apply search_events_ok in Hs as [Hone Hm]. simpl in Hm.
    destruct (es_matching s); simpl in *; [|done]. intros [= <-]. by split.
  - intros [Hf Hone].
    destruct (search_events_total name round events (mk_event_search None None false)) as [s Hs];
      [done|by rewrite Hf|]. rewrite Hs.
    apply search_events_ok in Hs as [_ Hm]. rewrite Hf in Hm. simpl in Hm.
    destruct (es_matching s); simpl in *; [|done]. by injection Hm as ->.
Qed.

Lemma required_attribute_iff event name key raw :
  required_attribute event name key = Ok raw <-> attribute_values event key = [raw].
Proof.
  unfold required_attribute. destruct (attribute_values event key) as [|v [|]]; [done| |done].
  split; intros [= <-]; done.
Qed.

Lemma parse_compat_u64_iff raw field n :
  parse_compat_u64 raw field = Ok n <-> reads_u64 raw n.
Proof.
  unfold parse_compat_u64, reads_u64. destruct (parse_u64 (trim raw)) as [v|].
  - split; [intros [= <-]; by left|]. intros [[= <-]|[? _]]; done.
  - destruct (is_ascii (trim raw)); [split; [done|intros [|(_ & ? & _)]; done]|].
    destruct (parse_u64 (base64_encode _)) as [v|].
    + split; [intros [= <-]; by right|]. intros [|(_ & _ & [= <-])]; done.
    + split; [done|]. intros [|(_ & _ & ?)]; done.
Qed.

Lemma try_map_iff {A B E : Type} (f : A -> result B E) (R : A -> B -> Prop) l l' :
  (forall a b, f a = Ok b <-> R a b) -> try_map f l = Ok l' <-> Forall2 R l l'.
Proof.
  intros Hf. revert l'. induction l as [|a l IH]; intros l'; simpl.
  - split; [intros [= <-]; constructor|]. intros Hn. by inversion Hn.
  - destruct (f a) as [b|e] eqn:Ha.
    + apply Hf in Ha as Hb. destruct (try_map f l) as [bs|e] eqn:Hl.
      * split.
        -- intros [= <-]. constructor; [done|]. by apply IH.
        -- intros Hc. inversion Hc as [|? b' ? bs' Hb' Hbs']; subst.
           apply Hf in Hb'. apply IH in Hbs'. congruence.
      * split; [done|]. intros Hc. inversion Hc as [|? b' ? bs' Hb' Hbs']; subst.
        apply IH in Hbs'. congruence.
    + split; [done|]. intros Hc. inversion Hc as [|? b' ? bs' Hb' Hbs']; subst.
      apply Hf in Hb'. congruence.
Qed.

Lemma parse_csv_iff {T : Type} raw field (parse : text -> result T VotingError) R l :
  (forall a b, parse a = Ok b <-> R a b) -> (forall b, ~ R [] b) ->
  parse_csv raw field parse = Ok l <-> reads_list R raw l.
Proof.
  intros Hp Hempty. unfold parse_csv, reads_list.
  rewrite <- (try_map_iff parse R) by done.
  destruct (_ || _) eqn:Hb; [|done]. split; [done|]. intros Hl. exfalso.
  apply (try_map_iff parse R) in Hl; [|done]. apply orb_true_iff in Hb as [Hb|Hb].
  - apply bool_decide_eq_true in Hb. destruct raw; simpl in Hb; [done|].
    repeat case_match; done.
  - apply existsb_exists in Hb as (value & Hin & Hv). apply bool_decide_eq_true in Hv as ->.
    apply list_elem_of_In, list_elem_of_lookup in Hin as [i Hi].
    eapply Forall2_lookup_l in Hl as (b & _ & Hb); [|exact Hi]. by apply (Hempty b).
Qed.

Lemma parse_digits_bound t : forall acc n,
  0 <= acc <= u64_max -> parse_digits acc t = Some n -> is_u64 n.
Proof.
  induction t as [|c t IH]; intros acc n Hacc Hp; simpl in Hp; [by injection Hp as <-|].
  destruct (_ && _) eqn:Hd; [|done]. destruct (acc * 10 + (c - 48) <=? u64_max) eqn:Hle; [|done].
  apply IH in Hp; [done|lia].
Qed.

Lemma parse_u64_bound t n : parse_u64 t = Some n -> is_u64 n.
Proof.
  assert (0 <= 0 <= u64_max) by (unfold u64_max; lia).
  unfold parse_u64. repeat case_match; try done; by apply parse_digits_bound.
Qed.

Lemma reads_u64_bound raw n : reads_u64 raw n -> is_u64 n.
Proof. intros [?|(_ & _ & ?)]; by eapply parse_u64_bound. Qed.

Lemma reads_u64_empty n : ~ reads_u64 [] n.
Proof. intros [?|(_ & ? & _)]; done. Qed.

Lemma parse_csv_u64_iff raw l : parse_csv_u64 raw = Ok l <-> reads_list reads_u64 raw l.
Proof. apply parse_csv_iff; [intros; apply parse_compat_u64_iff|apply reads_u64_empty]. Qed.

Lemma parse_csv_u32_iff raw l : parse_csv_u32 raw = Ok l <-> reads_list reads_u32 raw l.
Proof.
  apply parse_csv_iff; [|intros b [? _]; by eapply reads_u64_empty].
  intros a b. unfold reads_u32.
  destruct (parse_compat_u64 a _) as [n|e] eqn:Hn.
  - apply parse_compat_u64_iff in Hn as Hr. destruct (n <=? u32_max) eqn:Hle.
    + split; [intros [= <-]; split; [done|lia]|]. intros [Hb _].
      apply (parse_compat_u64_iff a "cast_vote_batch proposal id") in Hb. congruence.
    + split; [done|]. intros [Hb ?].
      apply (parse_compat_u64_iff a "cast_vote_batch proposal id") in Hb.
      rewrite Hn in Hb. injection Hb as ->. lia.
  - split; [done|]. intros [Hb _].
    apply (parse_compat_u64_iff a "cast_vote_batch proposal id") in Hb. congruence.
Qed.

Lemma parse_canonical_hex32_iff raw field bytes :
  parse_canonical_hex32 raw field = Ok bytes <-> reads_hex32 raw bytes.
Proof.
  unfold parse_canonical_hex32, reads_hex32.
  assert (forallb is_lower_hex (utf8 raw) = true <-> Forall lower_hex (utf8 raw)) as Hhex.
  { rewrite forallb_forall, List.Forall_forall. apply forall_proper. intros b.
    unfold is_lower_hex, lower_hex. split; intros Hb Hin; specialize (Hb Hin); lia. }
  case_bool_decide as Hlen; simpl; [|split; [done|intros [? _]; done]].
  destruct (forallb is_lower_hex (utf8 raw)); simpl.
  - destruct (hex_decode raw) as [b|]; simpl; [|split; [done|intros (_ & _ & ? & _); done]].
    case_bool_decide as Hb.
    + split; [intros [= <-]; split_and!; [done|by apply Hhex|done|done]|].
      by intros (_ & _ & [= ->] & _).
    + split; [done|]. by intros (_ & _ & [= ->] & ?).
  - split; [done|]. intros (_ & Hf & _). by apply Hhex in Hf.
Qed.

Lemma parse_csv_strings_iff raw l :
  parse_csv_strings raw = Ok l <->
  reads_list (fun raw t => raw = t /\ exists bytes, reads_hex32 raw bytes) raw l.
Proof.
  apply parse_csv_iff; [|intros b (_ & bytes & ? & _); done].
  intros a b. destruct (parse_canonical_hex32 a _) as [bytes|e] eqn:Hb.
  - apply parse_canonical_hex32_iff in Hb. split; [intros [= <-]; by eauto|].
    by intros [-> _].
  - split; [done|]. intros [_ [bytes Hr]].
    apply (parse_canonical_hex32_iff a "cast_vote_batch VAN nullifier") in Hr. congruence.
Qed.

Lemma expected_nullifier_iff vote t : expected_nullifier vote = Ok t <-> nullifier_text vote t.
Proof.
  unfold expected_nullifier, nullifier_text, ok_or.
  destruct (base64_decode _) as [bytes|]; [|split; [done|intros (? & ? & _); done]].
  case_bool_decide as Hlen.
  - split; [intros [= <-]; by exists bytes|]. by intros (? & [= <-] & _ & ->).
  - split; [done|]. by intros (? & [= <-] & ? & _).
Qed.

Lemma adjacent_iff van positions : forall index,
  Forall is_u64 positions ->
  adjacent van index positions = true <->
  positions = seqZ (van + index + 1) (Z.of_nat (length positions)).
Proof.
  induction positions as [|p positions IH]; intros index Hu; [done|].
  apply Forall_cons_iff in Hu as [Hp Hu]. unfold is_u64 in Hp. cbn [adjacent length].
  rewrite seqZ_cons by lia. rewrite Nat2Z.inj_succ.
  replace (Z.pred (Z.succ (Z.of_nat (length positions)))) with (Z.of_nat (length positions)) by lia.
  replace (Z.succ (van + index + 1)) with (van + (index + 1) + 1) by lia.
  unfold checked_add_u64. destruct (van + (index + 1) <=? u64_max) eqn:Hle.
  - rewrite andb_true_iff, (IH (index + 1)), Z.eqb_eq by done. split.
    + intros [-> Hs]. f_equal; [lia|done].
    + intros [= -> Hs]. split; [lia|done].
  - split; [done|]. intros [= -> _]. lia.
Qed.

Lemma from_hash_iff h van positions v :
  map_err confirmation_error (from_hash h van positions) = Ok v <->
  van < TREE_CAPACITY /\ Forall (fun p => p < TREE_CAPACITY) positions /\
  v = VHash (mk_confirmation HashSource (Some h) van positions).
Proof.
  unfold from_hash, validate_tree_positions.
  assert (existsb (fun p => TREE_CAPACITY <=? p) positions = false
          <-> Forall (fun p => p < TREE_CAPACITY) positions) as Hps.
  { induction positions as [|p positions IH]; simpl; [done|].
    rewrite orb_false_iff, IH, Forall_cons_iff. by rewrite Z.leb_gt. }
  destruct (TREE_CAPACITY <=? van) eqn:Hv; simpl; [split; [done|intros [? _]; lia]|].
  destruct (existsb _ positions); simpl.
  - split; [done|]. intros (_ & Hf & _). by apply Hps in Hf.
  - split; [intros [= <-]; split_and!; [lia|by apply Hps|done]|by intros (_ & _ & ->)].
Qed.

Lemma read_attribute {T U : Type} event name key (parse : text -> result T VotingError) R
    (k : T -> result U VotingError) u :
  (forall raw t, parse raw = Ok t <-> R raw t) ->
  (let? raw := required_attribute event name key in let? t := parse raw in k t) = Ok u <->
  exists t, has_attribute event key R t /\ k t = Ok u.
Proof.
  intros Hp. unfold has_attribute. split.
  - destruct (required_attribute event name key) as [raw|] eqn:Ha; [|done].
    apply required_attribute_iff in Ha. destruct (parse raw) as [t|] eqn:Ht; [|done].
    apply Hp in Ht. eauto.
  - intros (t & (raw & Ha & Hr) & Hk). apply (required_attribute_iff _ name) in Ha as ->.
    by apply Hp in Hr as ->.
Qed.

Lemma validate_delegation_iff round h events v :
  validate_delegation round h events = Ok v <->
  exists event van, the_event events DELEGATE_VOTE_EVENT round event /\
    has_attribute event LEAF_INDEX_ATTRIBUTE reads_u64 van /\
    van < TREE_CAPACITY /\ v = VHash (mk_confirmation HashSource (Some h) van []).
Proof.
  unfold validate_delegation. split.
  - destruct (required_event_for_round _ _ _) as [event|] eqn:He; [|done].
    apply required_event_iff in He. intros Hv.
    apply (read_attribute _ _ _ _ reads_u64) in Hv as (van & Ha & Hv);
      [|intros; apply parse_compat_u64_iff].
    apply from_hash_iff in Hv as (Hvan & _ & ->). by exists event, van.
  - intros (event & van & He & Ha & Hvan & ->). apply required_event_iff in He as ->.
    apply (read_attribute _ _ _ _ reads_u64); [intros; apply parse_compat_u64_iff|].
    exists van. split; [done|]. apply from_hash_iff. by split_and!.
Qed.

Lemma validate_vote_iff round h events v :
  validate_vote round h events = Ok v <->
  exists event van vc, the_event events CAST_VOTE_EVENT round event /\
    has_attribute event LEAF_INDEX_ATTRIBUTE (reads_list reads_u64) [van; vc] /\
    van < TREE_CAPACITY /\ vc < TREE_CAPACITY /\
    v = VHash (mk_confirmation HashSource (Some h) van [vc]).
Proof.
  unfold validate_vote, has_attribute, reads_list. split.
  - destruct (required_event_for_round _ _ _) as [event|] eqn:He; [|done].
    destruct (required_attribute _ _ _) as [raw|] eqn:Ha; [|done].
    apply required_event_iff in He. apply required_attribute_iff in Ha.
    destruct (map trim (split_on comma raw)) as [|a [|b [|]]] eqn:Hs; try done.
    destruct (parse_compat_u64 a _) as [van|] eqn:Hvan; [|done].
    destruct (parse_compat_u64 b _) as [vc|] eqn:Hvc; [|done].
    apply parse_compat_u64_iff in Hvan, Hvc.
    intros (? & Hf & ->)%from_hash_iff. rewrite Forall_singleton in Hf.
    exists event, van, vc. split_and!; try done. exists raw. rewrite Hs.
    split; [done|]. by apply Forall2_cons_2; [|apply Forall2_cons_2].
  - intros (event & van & vc & He & (raw & Ha & Hr) & Hvan & Hvc & ->).
    apply required_event_iff in He as ->.
    apply (required_attribute_iff _ CAST_VOTE_EVENT) in Ha as ->.
    destruct (map trim (split_on comma raw)) as [|a [|b [|]]];
      try by apply Forall2_length in Hr.
    inversion Hr as [|???? Hra Hr']. inversion Hr' as [|???? Hrb _]. subst.
    apply (parse_compat_u64_iff a "cast_vote VAN position") in Hra as ->.
    apply (parse_compat_u64_iff b "cast_vote commitment position") in Hrb as ->.
    apply from_hash_iff. split_and!; [done|by constructor|done].
Qed.

Lemma check_nullifier_count_iff request event name :
  check_nullifier_count request event name = Ok tt <->
  forall combined, request = QDelegateAndVoteBatch combined ->
    has_attribute event NULLIFIER_COUNT_ATTRIBUTE reads_u64
      (Z.of_nat (length (dw_gov_nullifiers (cw_delegation combined)))).
Proof.
  unfold check_nullifier_count. destruct request as [| | | |combined]; try by split.
  rewrite (read_attribute _ _ _ _ reads_u64) by (intros; apply parse_compat_u64_iff). split.
  - intros (n & Ha & Hn) c [= <-]. destruct (n =? _) eqn:Heq; [|done].
    by apply Z.eqb_eq in Heq as <-.
  - intros Ha. eexists. split; [by apply Ha|]. by rewrite Z.eqb_refl.
Qed.

Lemma check_batch_header_iff x digest vcs event name size :
  check_batch_header x digest vcs event name = Ok size <->
  (forall combined, derived_request x = QDelegateAndVoteBatch combined ->
     has_attribute event NULLIFIER_COUNT_ATTRIBUTE reads_u64
       (Z.of_nat (length (dw_gov_nullifiers (cw_delegation combined))))) /\
  has_attribute event BATCH_DIGEST_ATTRIBUTE reads_hex32 digest /\
  has_attribute event BATCH_SIZE_ATTRIBUTE reads_u64 size /\
  size = Z.of_nat (length vcs) /\ (1 <= length vcs <= MAX_VOTE_BATCH_ACTIONS)%nat /\
  has_attribute event PROPOSAL_IDS_ATTRIBUTE (reads_list reads_u32)
    (derived_ordered_proposal_ids x).
Proof.
  unfold check_batch_header.
  destruct (check_nullifier_count (derived_request x) event name) as [[]|e] eqn:Hc.
  2: { split; [done|]. intros (Hn & _).
       apply (check_nullifier_count_iff _ _ name) in Hn. congruence. }
  rewrite <- (check_nullifier_count_iff _ _ name), Hc.
  rewrite (read_attribute _ _ _ _ reads_hex32) by (intros; apply parse_canonical_hex32_iff).
  split.
  - intros (d & Hd & Hrest). case_bool_decide; simplify_eq/=.
    apply (read_attribute _ _ _ _ reads_u64) in Hrest as (n & Hs & Hrest);
      [|intros; apply parse_compat_u64_iff].
    destruct (usize_max <? n); [done|]. destruct (_ || _) eqn:Hb; [done|].
    apply (read_attribute _ _ _ _ (reads_list reads_u32)) in Hrest as (ids & Hi & Hrest);
      [|intros; apply parse_csv_u32_iff].
    case_bool_decide; simplify_eq. split_and!; try done; lia.
  - intros (_ & Hd & Hs & -> & Hlen & Hi). exists digest. split; [done|].
    rewrite bool_decide_eq_true_2 by done. simpl.
    apply (read_attribute _ _ _ _ reads_u64); [intros; apply parse_compat_u64_iff|].
    eexists. split; [done|]. destruct Hs as (raw & _ & Hs%reads_u64_bound).
    unfold is_u64 in Hs. unfold usize_max. rewrite (proj2 (Z.ltb_ge _ _)) by lia.
    replace (_ || _) with false by lia.
    apply (read_attribute _ _ _ _ (reads_list reads_u32)); [intros; apply parse_csv_u32_iff|].
    eexists. split; [done|]. by rewrite bool_decide_eq_true_2.
Qed.

Lemma attribute_positions_bound event key positions :
  has_attribute event key (reads_list reads_u64) positions -> Forall is_u64 positions.
Proof.
  intros (raw & _ & Hr). unfold reads_list in Hr.
  induction Hr as [|a n l ns Ha _ IH]; constructor; [by eapply reads_u64_bound|done].
Qed.

Lemma validate_batch_actions_iff votes event name size h v :
  validate_batch_actions votes event name size h = Ok v <->
  exists nullifiers van positions,
    Forall2 nullifier_text votes nullifiers /\
    has_attribute event VAN_NULLIFIERS_ATTRIBUTE
      (reads_list (fun raw t => raw = t /\ exists bytes, reads_hex32 raw bytes)) nullifiers /\
    has_attribute event FINAL_VAN_LEAF_INDEX_ATTRIBUTE reads_u64 van /\
    has_attribute event VC_LEAF_INDICES_ATTRIBUTE (reads_list reads_u64) positions /\
    positions = seqZ (van + 1) size /\ 0 <= size /\
    van < TREE_CAPACITY /\ Forall (fun p => p < TREE_CAPACITY) positions /\
    v = VHash (mk_confirmation HashSource (Some h) van positions).
Proof.
  unfold validate_batch_actions.
  destruct (try_map expected_nullifier votes) as [ns|e] eqn:Hn.
  2: { split; [done|]. intros (ns & _ & _ & Hns & _).
       apply (try_map_iff expected_nullifier) in Hns; [congruence|apply expected_nullifier_iff]. }
  assert (Forall2 nullifier_text votes ns) as Hns
    by (apply (try_map_iff expected_nullifier); [apply expected_nullifier_iff|done]).
  rewrite (read_attribute _ _ _ _ _) by (intros; apply parse_csv_strings_iff). split.
  - intros (ns' & Ha & Hrest). case_bool_decide; simplify_eq/=.
    apply (read_attribute _ _ _ _ reads_u64) in Hrest as (van & Hvan & Hrest);
      [|intros; apply parse_compat_u64_iff].
    apply (read_attribute _ _ _ _ (reads_list reads_u64)) in Hrest as (ps & Hps & Hrest);
      [|intros; apply parse_csv_u64_iff].
    assert (Forall is_u64 ps) as Hu by by apply (attribute_positions_bound event VC_LEAF_INDICES_ATTRIBUTE).
    destruct (Z.of_nat (length ps) =? size) eqn:Hsize; [|done]. apply Z.eqb_eq in Hsize.
    destruct (adjacent van 0 ps) eqn:Hadj; [|done].
    apply adjacent_iff in Hadj; [|done]. apply from_hash_iff in Hrest as (? & ? & ->).
    exists ns, van, ps. rewrite Z.add_0_r, Hsize in Hadj. split_and!; try done. lia.
  - intros (ns' & van & ps & Hns' & Ha & Hvan & Hps & Heq & Hsize & ? & ? & ->).
    apply (try_map_iff expected_nullifier) in Hns'; [|apply expected_nullifier_iff].
    assert (ns' = ns) as -> by congruence. exists ns. split; [done|].
    rewrite bool_decide_eq_true_2 by done. simpl.
    apply (read_attribute _ _ _ _ reads_u64); [intros; apply parse_compat_u64_iff|].
    exists van. split; [done|].
    apply (read_attribute _ _ _ _ (reads_list reads_u64)); [intros; apply parse_csv_u64_iff|].
    exists ps. split; [done|].
    assert (Forall is_u64 ps) as Hu by by apply (attribute_positions_bound event VC_LEAF_INDICES_ATTRIBUTE).
    assert (Z.of_nat (length ps) = size) as Hlen by (rewrite Heq, length_seqZ; lia).
    rewrite (proj2 (Z.eqb_eq _ _) Hlen), (proj2 (adjacent_iff van ps 0 Hu)).
    + by apply from_hash_iff.
    + by rewrite Hlen, Z.add_0_r.
Qed.

Lemma validate_batch_iff x digest vcs round h events v :
  validate_batch x digest vcs round h events = Some (Ok v) <->
  exists event van positions,
    the_event events (batch_event (target (gen_identity (derived_generation x)))) round event /\
    batch_says x digest (length vcs) event van positions /\
    van < TREE_CAPACITY /\ Forall (fun p => p < TREE_CAPACITY) positions /\
    v = VHash (mk_confirmation HashSource (Some h) van positions).
Proof.
  unfold validate_batch, batch_says. set (name := batch_event _). split.
  - destruct (required_event_for_round _ _ _) as [event|] eqn:He; [|done].
    apply required_event_iff in He.
    destruct (check_batch_header _ _ _ _ _) as [size|] eqn:Hh; [|done].
    apply check_batch_header_iff in Hh as (Hc & Hd & Hs & -> & Hlen & Hi).
    destruct (batch_votes (derived_request x)) as [votes|] eqn:Hv; [|done].
    intros [= (ns & van & ps & Hns & Hn & Hvan & Hps & -> & _ & ? & ? & ->)%validate_batch_actions_iff].
    exists event, van, (seqZ (van + 1) (Z.of_nat (length vcs))). split_and!; try done; try lia.
    by exists votes, ns.
  - intros (event & van & ps & He & (Hc & Hd & Hs & Hlen & Hi & (votes & ns & Hv & Hns & Hn)
      & Hvan & Hps & Heq) & ? & ? & ->).
    apply required_event_iff in He as ->.
    rewrite (proj2 (check_batch_header_iff x digest vcs event name (Z.of_nat (length vcs))))
      by (split_and!; try done; lia).
    rewrite Hv. f_equal. apply validate_batch_actions_iff.
    exists ns, van, ps. split_and!; try done. lia.
Qed.

(** A batch layout with a batch request never reaches the [unreachable!]. *)
Lemma validation_returns x h events :
  batch_has_votes x -> validate_hash_confirmation x h events <> None.
Proof.
  unfold batch_has_votes, validate_hash_confirmation, validate_batch. intros Hv.
  destruct (target _), (bound_expected_layout _); try done;
    repeat case_match; try done; congruence.
Qed.

Lemma validation_iff x h events v :
  validate_hash_confirmation x h events = Some (Ok v) <->
  exists event van positions,
    the_event events (target_event (target (gen_identity (derived_generation x))))
      (round_text x) event /\
    event_says x event van positions /\
    van < TREE_CAPACITY /\ Forall (fun p => p < TREE_CAPACITY) positions /\
    v = VHash (mk_confirmation HashSource (Some h) van positions).
Proof.
  unfold validate_hash_confirmation, event_says. fold (round_text x).
  destruct (target _) as [|p|d|d] eqn:Ht,
    (bound_expected_layout (derived_bound x)) as [?|? ?|? vcs]; simpl;
    try (split; [done|]; intros (? & ? & ? & _ & ? & _); done).
  - split; [intros [= (e & van & ? & ? & ? & ->)%validate_delegation_iff]; by exists e, van, []|].
    intros (e & van & ps & He & [-> Ha] & ? & ? & ->). f_equal. apply validate_delegation_iff. eauto 8.
  - split.
    + intros [= (e & van & vc & ? & ? & ? & ? & ->)%validate_vote_iff].
      exists e, van, [vc]. split_and!; eauto.
    + intros (e & van & ps & He & (vc & -> & Ha) & ? & Hf & ->). f_equal. apply validate_vote_iff.
      rewrite Forall_singleton in Hf. eauto 10.
  - rewrite validate_batch_iff, Ht. done.
  - rewrite validate_batch_iff, Ht. done.
Qed.

End specification.

(** ** The event a transaction emits *)
Fixpoint join_comma (l : list text) : text :=
  match l with
  | [] => []
  | [t] => t
  | t :: l => t ++ comma :: join_comma l
  end.

Definition attribute (key : string) (value : text) : TxEventAttribute :=
  mk_attribute (lit key) value.

(** A character that neither trimming nor splitting touches. *)
Definition bare (c : Z) : Prop := is_whitespace c = false /\ c <> comma /\ 0 <= c < 128.

Section emitted.
Context `{Externals}.

Definition emitted_nullifier (vote : VoteCommitmentWire) : text :=
  match base64_decode (vw_van_nullifier vote) with
  | Some bytes => lit (hex_encode bytes)
  | None => []
  end.

Definition emitted_count (request : ChainSubmissionRequest) : list TxEventAttribute :=
  match request with
  | QDelegateAndVoteBatch combined =>
      [attribute NULLIFIER_COUNT_ATTRIBUTE
         (decimal (Z.of_nat (length (dw_gov_nullifiers (cw_delegation combined)))))]
  | _ => []
  end.

Definition action_positions (x : DerivedChainSubmission) (van : Z) : list Z :=
  seqZ (van + 1)
    (Z.of_nat (length (layout_leaves (bound_expected_layout (derived_bound x)))) - 1).

Definition emitted_attributes (x : DerivedChainSubmission) (van : Z) : list TxEventAttribute :=
  match bound_expected_layout (derived_bound x) with
  | LDelegation _ => [attribute LEAF_INDEX_ATTRIBUTE (decimal van)]
  | LVote _ _ =>
      [attribute LEAF_INDEX_ATTRIBUTE (join_comma [decimal van; decimal (van + 1)])]
  | LVoteBatch _ vote_commitments =>
      emitted_count (derived_request x) ++
      [attribute BATCH_DIGEST_ATTRIBUTE (lit (hex_encode
         (default [] (batch_digest (target (gen_identity (derived_generation x)))))));
       attribute BATCH_SIZE_ATTRIBUTE (decimal (Z.of_nat (length vote_commitments)));
       attribute FINAL_VAN_LEAF_INDEX_ATTRIBUTE (decimal van);
       attribute VC_LEAF_INDICES_ATTRIBUTE (join_comma (map decimal (action_positions x van)));
       attribute PROPOSAL_IDS_ATTRIBUTE
         (join_comma (map decimal (derived_ordered_proposal_ids x)));
       attribute VAN_NULLIFIERS_ATTRIBUTE
         (join_comma (map emitted_nullifier
            (default [] (batch_votes (derived_request x)))))]
  end.

Definition emitted_event (x : DerivedChainSubmission) (van : Z) : TxEvent :=
  mk_event (lit (target_event (target (gen_identity (derived_generation x)))))
    (attribute "vote_round_id" (round_text x) :: emitted_attributes x van).

(** A vote whose nullifier is the base64 of 32 bytes. *)
Definition emittable_vote (vote : VoteCommitmentWire) : Prop :=
  exists bytes, base64_decode (vw_van_nullifier vote) = Some bytes /\
    Forall is_u8 bytes /\ length bytes = 32%nat.

Definition emittable_batch (x : DerivedChainSubmission) (digest : list Z)
    (vote_commitments : list (list Z)) : Prop :=
  Forall is_u8 digest /\ length digest = 32%nat /\
  (1 <= length vote_commitments <= MAX_VOTE_BATCH_ACTIONS)%nat /\
  derived_ordered_proposal_ids x <> [] /\ Forall is_u32 (derived_ordered_proposal_ids x) /\
  (exists votes, batch_votes (derived_request x) = Some votes /\ votes <> [] /\
     Forall emittable_vote votes) /\
  forall combined, derived_request x = QDelegateAndVoteBatch combined ->
    is_u64 (Z.of_nat (length (dw_gov_nullifiers (cw_delegation combined)))).

(** A derived submission as derivation makes them. *)
Definition emittable (x : DerivedChainSubmission) : Prop :=
  match target (gen_identity (derived_generation x)),
        bound_expected_layout (derived_bound x) with
  | Delegation, LDelegation _ | Vote _, LVote _ _ => True
  | (VoteBatch digest | DelegateAndVoteBatch digest), LVoteBatch _ vote_commitments =>
      emittable_batch x digest vote_commitments
  | _, _ => False
  end.

(** *** Trimming, splitting and printing *)
Lemma trim_start_bare t : Forall bare t -> trim_start t = t.
Proof. destruct 1 as [|c t [Hc _] _]; simpl; [done|]. by rewrite Hc. Qed.

Lemma trim_bare t : Forall bare t -> trim t = t.
Proof.
  intros Ht. unfold trim. rewrite (trim_start_bare t) by done.
  rewrite trim_start_bare by (by apply Forall_rev). apply rev_involutive.
Qed.

Lemma utf8_bare t : Forall bare t -> utf8 t = t.
Proof.
  unfold utf8. induction 1 as [|c t (_ & _ & Hc) _ IH]; simpl; [done|]. rewrite IH.
  unfold utf8_char. by rewrite (proj2 (Z.ltb_lt _ _)) by lia.
Qed.

Lemma split_on_app t rest :
  Forall bare t -> split_on comma (t ++ comma :: rest) = t :: split_on comma rest.
Proof.
  induction 1 as [|c t (_ & Hc & _) _ IH]; simpl; [done|].
  rewrite (proj2 (Z.eqb_neq _ _) Hc). by rewrite IH.
Qed.

Lemma split_on_bare t : Forall bare t -> split_on comma t = [t].
Proof.
  induction 1 as [|c t (_ & Hc & _) _ IH]; simpl; [done|].
  rewrite (proj2 (Z.eqb_neq _ _) Hc). by rewrite IH.
Qed.

Lemma split_join l :
  l <> [] -> Forall (Forall bare) l -> map trim (split_on comma (join_comma l)) = l.
Proof.
  intros Hl Hf. induction Hf as [|t l Ht Hf IH]; [done|].
  destruct l as [|t' l].
  - simpl. rewrite split_on_bare by done. simpl. by rewrite trim_bare.
  - change (join_comma (t :: t' :: l)) with (t ++ comma :: join_comma (t' :: l)).
    rewrite split_on_app by done. cbn [map]. rewrite trim_bare, IH by done. done.
Qed.

Lemma reads_joined {T : Type} (R : text -> T -> Prop) (print : T -> text) (l : list T) :
  l <> [] -> Forall (fun a => Forall bare (print a) /\ R (print a) a) l ->
  reads_list R (join_comma (map print l)) l.
Proof.
  intros Hl Hf. unfold reads_list. rewrite split_join.
  - clear Hl. induction Hf as [|a l [_ Ha] _ IH]; simpl; [done|]. by apply Forall2_cons_2.
  - by destruct l.
  - clear Hl. induction Hf as [|a l [Ha _] _ IH]; simpl; by constructor.
Qed.

Definition digit (c : Z) : Prop := 48 <= c <= 57.

Lemma digit_bare c : digit c -> bare c.
Proof.
  unfold digit, bare, is_whitespace, comma. intros Hc. split_and!; [|lia|lia|lia].
  repeat (apply orb_false_iff; split); lia.
Qed.

Lemma lower_hex_bare c : lower_hex c -> bare c.
Proof.
  unfold lower_hex, bare, is_whitespace, comma. intros Hc. split_and!; [|lia|lia|lia].
  repeat (apply orb_false_iff; split); lia.
Qed.

Lemma pretty_N_char_code d :
  (d < 10)%N -> Z.of_N (Ascii.N_of_ascii (pretty_N_char d)) = 48 + Z.of_N d.
Proof.
  intros Hd. destruct d as [|p]; [done|].
  do 4 (destruct p as [p|p|]; try done); lia.
Qed.

Lemma parse_pretty_go n : forall s,
  Z.of_N n <= u64_max ->
  parse_digits 0 (string_bytes (pretty_N_go n s)) = parse_digits (Z.of_N n) (string_bytes s) /\
  (Forall digit (string_bytes s) -> Forall digit (string_bytes (pretty_N_go n s))).
Proof.
  induction n as [n IH] using (well_founded_ind N.lt_wf_0). intros s Hn.
  destruct (decide (n = 0%N)) as [->|Hpos].
  { by rewrite pretty_N_go_0. }
  rewrite pretty_N_go_step by lia.
  assert (n mod 10 < 10)%N as Hmod by (apply N.mod_lt; lia).
  assert (Z.of_N n = 10 * Z.of_N (n / 10) + Z.of_N (n mod 10)) as Hdiv
    by (pose proof (N.div_mod' n 10) as Hd; lia).
  assert (n / 10 < n)%N as Hlt by (apply N.div_lt; lia).
  assert (Z.of_N (n / 10) <= u64_max) as Hle by lia.
  destruct (IH _ Hlt (String (pretty_N_char (n mod 10)) s) Hle) as [-> Hd].
  cbn [string_bytes parse_digits] in *. rewrite pretty_N_char_code in * by done.
  pose proof (N2Z.is_nonneg (n mod 10)) as Hm. apply N2Z.inj_lt in Hmod.
  change (Z.of_N 10) with 10 in Hmod. set (m := Z.of_N (n mod 10)) in *.
  set (k := Z.of_N (n / 10)) in *. clearbody m k. clear Hlt IH.
  assert ((48 <=? 48 + m) && (48 + m <=? 57) = true) as -> by lia.
  replace (k * 10 + (48 + m - 48)) with (Z.of_N n) by lia.
  rewrite (proj2 (Z.leb_le _ _) Hn). split; [done|].
  intros Hs. apply Hd. constructor; [|done]. unfold digit. lia.
Qed.

Lemma decimal_digits n :
  is_u64 n -> parse_u64 (decimal n) = Some n /\ Forall digit (decimal n).
Proof.
  unfold is_u64, decimal, lit. intros Hn. destruct n as [|p|p]; [|  |lia].
  { split; [done|]. repeat constructor; unfold digit; simpl; lia. }
  change (pretty (Z.pos p)) with (pretty (N.pos p)). unfold pretty, pretty_N.
  rewrite decide_False by done.
  destruct (parse_pretty_go (N.pos p) "") as [Hp Hd]; [simpl; lia|].
  specialize (Hd ltac:(constructor)). split; [|done]. unfold parse_u64.
  destruct (string_bytes _) as [|c t] eqn:Ht; [by simpl in Hp|].
  apply Forall_cons_iff in Hd as [Hc _]. unfold digit in Hc.
  rewrite (proj2 (Z.eqb_neq c 43)) by lia. by rewrite Hp.
Qed.

Lemma decimal_bare n : is_u64 n -> Forall bare (decimal n).
Proof. intros [_ Hd]%decimal_digits. eapply Forall_impl; [exact Hd|apply digit_bare]. Qed.

Lemma reads_decimal n : is_u64 n -> reads_u64 (decimal n) n.
Proof.
  intros Hn. left. rewrite trim_bare by by apply decimal_bare. by apply decimal_digits.
Qed.

Lemma reads_decimals l :
  l <> [] -> Forall is_u64 l -> reads_list reads_u64 (join_comma (map decimal l)) l.
Proof.
  intros Hl Hf. apply reads_joined; [done|]. eapply Forall_impl; [exact Hf|]. simpl.
  intros n Hn. split; [by apply decimal_bare|by apply reads_decimal].
Qed.

Lemma hex_bare bytes : Forall is_u8 bytes -> Forall bare (lit (hex_encode bytes)).
Proof. intros [Hd _]%hex_encode_digits. eapply Forall_impl; [exact Hd|apply lower_hex_bare]. Qed.

Lemma reads_hex bytes :
  Forall is_u8 bytes -> length bytes = 32%nat -> reads_hex32 (lit (hex_encode bytes)) bytes.
Proof.
  intros Hb Hlen. pose proof (hex_encode_digits _ Hb) as [Hd Hl].
  unfold reads_hex32. rewrite utf8_bare by by apply hex_bare.
  split_and!; [lia|done|by apply hex_decode_encode|done].
Qed.

(** *** The attributes of the emitted event *)
Lemma attribute_values_cons ty key' value attributes key :
  attribute_values (mk_event ty (attribute key' value :: attributes)) key
  = (if bool_decide (key' = key) then [value] else [])
    ++ attribute_values (mk_event ty attributes) key.
Proof.
  unfold attribute_values. simpl. case_bool_decide as Hk; case_bool_decide as Hk'; try done.
  - by apply string_bytes_inj in Hk.
  - by subst.
Qed.

Lemma attribute_values_count ty request attributes key :
  key <> NULLIFIER_COUNT_ATTRIBUTE ->
  attribute_values (mk_event ty (emitted_count request ++ attributes)) key
  = attribute_values (mk_event ty attributes) key.
Proof.
  intros Hk. destruct request; try done. simpl. rewrite attribute_values_cons.
  by rewrite bool_decide_eq_false_2.
Qed.

Lemma attribute_values_nil ty key : attribute_values (mk_event ty []) key = [].
Proof. done. Qed.

Lemma action_positions_bound x van :
  0 <= van ->
  van + Z.of_nat (length (layout_leaves (bound_expected_layout (derived_bound x)))) <= TREE_CAPACITY ->
  Forall (fun p => p < TREE_CAPACITY) (action_positions x van) /\
  Forall is_u64 (action_positions x van).
Proof.
  assert (TREE_CAPACITY <= u64_max) as Hmax by by vm_compute.
  unfold action_positions, is_u64. intros Hvan Hcap.
  split; apply Forall_seqZ; intros p Hp; lia.
Qed.
End emitted.

Ltac find_attribute :=
  unfold has_attribute;
  eexists; split;
  [rewrite ?attribute_values_cons, ?attribute_values_count, ?attribute_values_cons,
     ?attribute_values_nil by discriminate; reflexivity|].

Section accepted.
Context `{Externals}.

Lemma emitted_nullifiers votes :
  votes <> [] -> Forall emittable_vote votes ->
  Forall2 nullifier_text votes (map emitted_nullifier votes) /\
  reads_list (fun raw t => raw = t /\ exists bytes, reads_hex32 raw bytes)
    (join_comma (map emitted_nullifier votes)) (map emitted_nullifier votes).
Proof.
  intros Hne Hv. split.
  - induction Hv as [|vote votes (bytes & Hb & _ & Hlen) _ IH]; simpl; [done|].
    apply Forall2_cons_2; [|destruct votes; [done|by apply IH]].
    exists bytes. unfold emitted_nullifier. by rewrite Hb.
  - rewrite <- (map_id (map emitted_nullifier votes)) at 1.
    apply reads_joined; [by destruct votes|]. apply Forall_map. eapply Forall_impl; [exact Hv|].
    intros vote (bytes & Hb & Hu & Hlen). unfold emitted_nullifier, compose. rewrite Hb. simpl.
    split; [by apply hex_bare|]. split; [done|]. exists bytes. by apply reads_hex.
Qed.

Lemma emitted_batch_says x digest van_leaf vcs van :
  bound_expected_layout (derived_bound x) = LVoteBatch van_leaf vcs ->
  batch_digest (target (gen_identity (derived_generation x))) = Some digest ->
  emittable_batch x digest vcs -> 0 <= van ->
  van + Z.of_nat (length (layout_leaves (bound_expected_layout (derived_bound x))))
    <= TREE_CAPACITY ->
  batch_says x digest (length vcs) (emitted_event x van) van (action_positions x van).
Proof.
  intros Hl Hd (Hdigest & Hdlen & Hlen & Hids & Hu & (votes & Hv & Hvne & Hvs) & Hcount) Hvan Hcap.
  assert (TREE_CAPACITY <= u64_max) as Hmax by by vm_compute.
  destruct (action_positions_bound x van Hvan Hcap) as [_ Hps].
  assert (action_positions x van = seqZ (van + 1) (Z.of_nat (length vcs))) as Hact.
  { unfold action_positions. rewrite Hl. simpl. f_equal. lia. }
  rewrite Hl in Hcap. simpl in Hcap.
  unfold batch_says, emitted_event, emitted_attributes. rewrite Hl, Hd, Hv. simpl default.
  split_and!; [|find_attribute|find_attribute|lia|lia|find_attribute| |find_attribute|find_attribute|done].
  - intros combined Hr. rewrite Hr. cbn [emitted_count app]. find_attribute.
    by apply reads_decimal, Hcount.
  - by apply reads_hex.
  - apply reads_decimal. unfold is_u64. lia.
  - apply reads_joined; [done|]. eapply Forall_impl; [exact Hu|]. intros n Hn. simpl.
    assert (is_u64 n) by (unfold is_u32, is_u64, u32_max, u64_max in *; lia).
    split; [by apply decimal_bare|]. split; [by apply reads_decimal|by destruct Hn].
  - exists votes, (map emitted_nullifier votes).
    destruct (emitted_nullifiers votes Hvne Hvs) as [Hn Hr].
    split_and!; [done|done|]. by find_attribute.
  - apply reads_decimal. unfold is_u64. lia.
  - apply reads_decimals; [|done]. rewrite Hact. intros Hnil.
    apply (f_equal length) in Hnil. rewrite length_seqZ in Hnil. simpl in Hnil. lia.
Qed.

Lemma round_values_cons ty key value attributes :
  round_values (mk_event ty (attribute key value :: attributes))
  = (if existsb (fun k => bool_decide (key = k)) ROUND_ID_ATTRIBUTES then [value] else [])
    ++ round_values (mk_event ty attributes).
Proof.
  unfold round_values. cbn [event_attributes List.filter].
  assert (existsb (fun k => bool_decide (attr_key (attribute key value) = lit k))
            ROUND_ID_ATTRIBUTES
          = existsb (fun k => bool_decide (key = k)) ROUND_ID_ATTRIBUTES) as ->.
  { induction ROUND_ID_ATTRIBUTES as [|k ks IH]; [done|]. cbn [existsb]. rewrite IH. f_equal.
    apply bool_decide_ext. unfold attribute, lit. cbn [attr_key].
    split; [apply string_bytes_inj|by intros ->]. }
  by destruct (existsb _ _).
Qed.

Lemma round_values_emitted x van : round_values (emitted_event x van) = [round_text x].
Proof.
  unfold emitted_event, emitted_attributes, emitted_count. rewrite round_values_cons.
  destruct (bound_expected_layout _); [..|destruct (derived_request x)]; simpl app;
    rewrite ?round_values_cons; reflexivity.
Qed.

Lemma emitted_event_says x van :
  emittable x -> 0 <= van ->
  van + Z.of_nat (length (layout_leaves (bound_expected_layout (derived_bound x))))
    <= TREE_CAPACITY ->
  event_says x (emitted_event x van) van (action_positions x van).
Proof.
  assert (TREE_CAPACITY <= u64_max) as Hmax by by vm_compute.
  unfold event_says, emittable. intros He Hvan Hcap.
  destruct (target _) as [|p|d|d] eqn:Ht, (bound_expected_layout (derived_bound x)) as [l|l c|l cs] eqn:Hl;
    try done; simpl in Hcap.
  - unfold action_positions, emitted_event, emitted_attributes. rewrite Hl. split; [done|].
    find_attribute. apply reads_decimal. unfold is_u64. lia.
  - unfold action_positions, emitted_event, emitted_attributes. rewrite Hl. exists (van + 1).
    split; [done|]. find_attribute.
    apply (reads_decimals [van; van + 1]); [done|].
    repeat constructor; unfold is_u64; lia.
  - eapply emitted_batch_says; rewrite ?Ht, ?Hl; simpl; done || lia.
  - eapply emitted_batch_says; rewrite ?Ht, ?Hl; simpl; done || lia.
Qed.

(** Events that do not speak of the generation's round. *)
Definition silent_on (x : DerivedChainSubmission) (events : list TxEvent) : Prop :=
  let name := target_event (target (gen_identity (derived_generation x))) in
  one_round_each name events /\
  List.filter (names_round name (round_text x)) events = [].

(** Emitted events are accepted: the event that a generation's transaction
    emits at a free place of the tree, among any events that do not speak of
    its round, confirms the generation at exactly its positions. *)
Theorem emitted_event_accepted x h van before after :
  emittable x -> 0 <= van ->
  van + Z.of_nat (length (layout_leaves (bound_expected_layout (derived_bound x))))
    <= TREE_CAPACITY ->
  silent_on x before -> silent_on x after ->
  validate_hash_confirmation x h (before ++ emitted_event x van :: after)
    = Some (Ok (VHash (mk_confirmation HashSource (Some h) van (action_positions x van)))).
Proof.
  intros He Hvan Hcap [Hb Hbf] [Ha Haf]. apply validation_iff.
  exists (emitted_event x van), van, (action_positions x van).
  pose proof (round_values_emitted x van) as Hr.
  pose proof (action_positions_bound x van Hvan Hcap) as [Hps _].
  split_and!; [split|by apply emitted_event_says| |done|done].
  - rewrite List.filter_app. simpl. rewrite Hbf, Haf.
    rewrite names_round_typed by done. rewrite Hr. unfold round_id_matches.
    by rewrite bool_decide_eq_true_2.
  - apply Forall_app. split; [done|]. constructor; [|done]. intros _. rewrite Hr. simpl. lia.
  - destruct (bound_expected_layout _); simpl in Hcap; lia.
Qed.
End accepted.

(** ** A combined batch at position 40 *)
Definition example_vote (nullifier proposal_id : Z) : VoteCommitmentWire :=
  mk_vote_wire (replicate 32 nullifier) [] [] proposal_id [] [] 0 [] [].

Definition example_combined : DelegateAndVoteBatchWire :=
  mk_combined_wire (mk_delegation_wire [] [] [] [] [] [] [[]; []; []] [] [])
    (mk_batch_wire [example_vote 11 3; example_vote 12 4]).

Definition example_batch : DerivedChainSubmission :=
  mk_derived
    (mk_bound
       (mk_generation
          (mk_identity "wallet" Mainnet (replicate 32 1) 0 (DelegateAndVoteBatch (replicate 32 5)))
          (replicate 32 7))
       (LVoteBatch (replicate 32 8) [replicate 32 9; replicate 32 10]) [3; 4])
    (QDelegateAndVoteBatch example_combined).

(** An event of another round. *)
Definition example_other_event : TxEvent :=
  mk_event (lit "delegate_and_cast_vote_batch") [attribute "round_id" (lit "another round")].

Lemma example_vote_emittable n p : is_u8 n -> @emittable_vote example_externals (example_vote n p).
Proof.
  intros Hn. exists (replicate 32 n). split_and!; [done| |done].
  by apply Forall_replicate.
Qed.

Lemma example_batch_emittable : @emittable example_externals example_batch.
Proof.
  assert (forall n, 0 <= n <= 255 -> is_u8 n) as Hu by by unfold is_u8, u8_max.
  change (@emittable_batch example_externals example_batch (replicate 32 5)
            [replicate 32 9; replicate 32 10]).
  split; [apply Forall_replicate, Hu; lia|]. split; [reflexivity|].
  split; [simpl; unfold MAX_VOTE_BATCH_ACTIONS, MAX_PROPOSAL_ID; lia|]. split; [done|].
  split; [simpl; repeat constructor; unfold is_u32, u32_max; lia|]. split.
  - exists [example_vote 11 3; example_vote 12 4]. split_and!; [done|done|].
    repeat constructor; apply example_vote_emittable, Hu; lia.
  - intros combined [= <-]. unfold is_u64, u64_max. simpl. lia.
Qed.

Lemma emitted_event_accepted_witness :
  @validate_hash_confirmation example_externals example_batch (replicate 32 6)
    ([example_other_event] ++ @emitted_event example_externals example_batch 40 :: [])
  = Some (Ok (VHash (mk_confirmation HashSource (Some (replicate 32 6)) 40 [41; 42]))).
Proof.
  apply (@emitted_event_accepted example_externals example_batch (replicate 32 6) 40
           [example_other_event] []).
  - exact example_batch_emittable.
  - lia.
  - vm_compute. congruence.
  - split; [|vm_compute; reflexivity]. constructor; [|constructor]. intros _. vm_compute. lia.
  - split; [constructor|reflexivity].
Defined.
