(* ===== verification/Rows.v ===== *)
(** * Rows of the submission table

    Models the table [chain_submissions] of
    [storage/migrations/006_delegate_cast.sql] (its CHECK constraints with
    SQL's three-valued logic, unique indexes and triggers) and the codec of
    [chain_submission/store/sqlite.rs] between rows and durable records.
    Columns hold values of their declared type, which is what the two insert
    statements and the update statement bind. *)

From stdpp Require Import base gmap strings list numbers.
From S2P Require Import Prelude Identity Outcome Lifecycle Record.
Local Open Scope Z_scope.
Local Open Scope voting_scope.

(** ** Columns *)
Record Row := mk_row {
  c_round_id : string;
  c_wallet_id : string;
  c_network : string;
  c_bundle_index : Z;
  c_kind : string;
  c_proposal_id : option Z;
  c_ordered_batch_digest : option (list Z);
  c_generation_digest : list Z;
  c_state : string;
  c_candidate_transaction_hash : option (list Z);
  c_committed_post_reservations : Z;
  c_tracking_started_at : option Z;
  c_diagnostic_kind : option string;
  c_diagnostic : option text;
  c_confirmation_source : option string;
  c_confirmed_transaction_hash : option (list Z);
  c_final_van_position : option Z;
  c_vote_commitment_positions : option (list Z);
  c_created_at : Z;
  c_updated_at : Z
}.

(** The table, by its primary key [identity_key]. *)
Notation Table := (gmap (list Z) Row).

(** ** Three-valued conditions: [None] is SQL's NULL *)
Definition tri : Type := option bool.

Definition tri_not (a : tri) : tri := negb <$> a.

Definition tri_and (a b : tri) : tri :=
  match a, b with
  | Some false, _ | _, Some false => Some false
  | Some true, Some true => Some true
  | _, _ => None
  end.

Definition tri_or (a b : tri) : tri :=
  match a, b with
  | Some true, _ | _, Some true => Some true
  | Some false, Some false => Some false
  | _, _ => None
  end.

Definition tri_eq {A} `{EqDecision A} (a b : option A) : tri :=
  match a, b with
  | Some x, Some y => Some (bool_decide (x = y))
  | _, _ => None
  end.

Definition is_null {A} (a : option A) : tri :=
  Some (match a with None => true | Some _ => false end).
Definition is_not_null {A} (a : option A) : tri := tri_not (is_null a).

Definition tri_in (a : option string) (l : list string) : tri :=
  (fun s => bool_decide (s ∈ l)) <$> a.

Definition tri_between (a : option Z) (lo hi : Z) : tri :=
  (fun z => (lo <=? z) && (z <=? hi)) <$> a.

Definition has_length (a : option (list Z)) (n : nat) : tri :=
  (fun l => bool_decide (length l = n)) <$> a.

(** A CHECK rejects a row only when its condition is false. *)
Definition passes (t : tri) : bool := match t with Some false => false | _ => true end.

(** ** The CHECK constraints, in the order of the schema *)
Definition check_kind_columns (r : Row) : tri :=
  let kind := Some (c_kind r) in
  tri_or
    (tri_or
      (tri_and (tri_and (tri_eq kind (Some "delegation"%string)) (is_null (c_proposal_id r)))
               (is_null (c_ordered_batch_digest r)))
      (tri_and (tri_and (tri_eq kind (Some "vote"%string))
                        (tri_between (c_proposal_id r) 1 50))
               (is_null (c_ordered_batch_digest r))))
    (tri_and (tri_and (tri_in kind ["vote_batch"; "delegate_and_cast_vote_batch"]%string)
                      (is_null (c_proposal_id r)))
             (has_length (c_ordered_batch_digest r) 32)).

Definition check_state_columns (r : Row) : tri :=
  let state := Some (c_state r) in
  tri_or
    (tri_or
      (tri_and (tri_and (tri_eq state (Some "submitting"%string))
                        (is_null (c_candidate_transaction_hash r)))
               (is_null (c_tracking_started_at r)))
      (tri_and (tri_and (tri_eq state (Some "tracking"%string))
                        (is_not_null (c_candidate_transaction_hash r)))
               (is_not_null (c_tracking_started_at r))))
    (tri_in state ["recovering"; "submitted_without_hash"; "confirmed"; "rejected"]%string).

Definition check_hashless (r : Row) : tri :=
  tri_or (tri_not (tri_eq (Some (c_state r)) (Some "submitted_without_hash"%string)))
    (tri_and (tri_and (tri_and (tri_and
       (is_null (c_candidate_transaction_hash r)) (is_null (c_confirmed_transaction_hash r)))
       (is_null (c_final_van_position r))) (is_null (c_vote_commitment_positions r)))
       (is_not_null (c_diagnostic_kind r))).

Definition check_confirmed (r : Row) : tri :=
  tri_or (tri_not (tri_eq (Some (c_state r)) (Some "confirmed"%string)))
    (tri_and (is_not_null (c_final_van_position r))
             (is_not_null (c_vote_commitment_positions r))).

Definition check_hash_source (r : Row) : tri :=
  tri_or (tri_not (tri_eq (c_confirmation_source r) (Some "hash"%string)))
    (tri_and (is_not_null (c_confirmed_transaction_hash r))
       (tri_eq (c_candidate_transaction_hash r) (c_confirmed_transaction_hash r))).

Definition check_tree_source (r : Row) : tri :=
  tri_or (tri_not (tri_eq (c_confirmation_source r) (Some "tree"%string)))
    (is_null (c_confirmed_transaction_hash r)).

Definition row_checks (key : list Z) (r : Row) : list tri :=
  [ tri_in (Some (c_network r)) ["mainnet"; "testnet"; "regtest"]%string;
    tri_between (Some (c_bundle_index r)) 0 4294967295;
    tri_in (Some (c_kind r))
      ["delegation"; "vote"; "vote_batch"; "delegate_and_cast_vote_batch"]%string;
    has_length (Some (c_generation_digest r)) 32;
    tri_in (Some (c_state r)) ["submitting"; "tracking"; "recovering";
      "submitted_without_hash"; "confirmed"; "rejected"]%string;
    Some (0 <=? c_committed_post_reservations r);
    tri_in (c_confirmation_source r) ["hash"; "tree"]%string;
    Some (0 <=? c_created_at r);
    Some (c_created_at r <=? c_updated_at r);
    Some (bool_decide (32 <= length key)%nat);
    check_kind_columns r;
    tri_or (is_null (c_candidate_transaction_hash r))
           (has_length (c_candidate_transaction_hash r) 32);
    tri_or (is_null (c_confirmed_transaction_hash r))
           (has_length (c_confirmed_transaction_hash r) 32);
    check_state_columns r;
    check_hashless r;
    tri_eq (is_null (c_diagnostic_kind r)) (is_null (c_diagnostic r));
    tri_or (is_null (c_diagnostic r))
           ((fun m => text_len_utf8 m <=? 512) <$> c_diagnostic r);
    tri_eq (tri_eq (Some (c_state r)) (Some "confirmed"%string))
           (is_not_null (c_confirmation_source r));
    check_confirmed r;
    check_hash_source r;
    check_tree_source r ].

Definition row_ok (key : list Z) (r : Row) : bool := forallb passes (row_checks key r).

(** ** Statements *)

(** The ways a statement fails; [rusqlite] supplies their display text. *)
Inductive SqlError :=
| InvalidQuery
| ToSqlConversionFailure
| ConstraintViolation
| QueryReturnedNoRows
| EngineFailure.

Class SqliteText := sql_error_to_string : SqlError -> text.

Definition storage_error `{SqliteText} (e : SqlError) : ChainSubmissionFailure :=
  without_state FStorage (sql_error_to_string e).

(** Binding a [u64] to an INTEGER column. *)
Definition bind_u64 (z : Z) : option Z := if z <=? i64_max then Some z else None.

(** Binding an [Option<u64>]. *)
Definition bind_opt_u64 (z : option Z) : option (option Z) :=
  match z with
  | None => Some None
  | Some z => Some <$> bind_u64 z
  end.

(** Two rows that a unique index keeps apart; NULL hashes never collide. *)
Definition same_hash (a b : option (list Z)) : bool :=
  match a, b with
  | Some x, Some y => bool_decide (x = y)
  | _, _ => false
  end.

Definition same_identity_index (a b : Row) : bool :=
  bool_decide (c_wallet_id a = c_wallet_id b) && bool_decide (c_network a = c_network b)
  && bool_decide (c_round_id a = c_round_id b) && bool_decide (c_kind a = c_kind b)
  && bool_decide (c_bundle_index a = c_bundle_index b)
  && bool_decide (default (-1) (c_proposal_id a) = default (-1) (c_proposal_id b))
  && bool_decide (default [] (c_ordered_batch_digest a) = default [] (c_ordered_batch_digest b)).

Definition unique_conflict (a b : Row) : bool :=
  same_identity_index a b
  || same_hash (c_candidate_transaction_hash a) (c_candidate_transaction_hash b)
  || same_hash (c_confirmed_transaction_hash a) (c_confirmed_transaction_hash b).

(** [SELECT EXISTS(SELECT 1 FROM chain_submissions WHERE ...)]. *)
Definition exists_row (p : list Z -> Row -> bool) (t : Table) : bool :=
  existsb (fun kr => p kr.1 kr.2) (map_to_list t).

Definition conflicts (t : Table) (key : list Z) (r : Row) : bool :=
  exists_row (fun k other => negb (bool_decide (k = key)) && unique_conflict r other) t.

(** INSERT: the primary key, the foreign key to [rounds], the CHECKs and the
    unique indexes. *)
Definition insert_row (round_exists : bool) (t : Table) (key : list Z) (r : Row)
    : result Table SqlError :=
  if bool_decide (is_Some (t !! key)) || negb round_exists || negb (row_ok key r)
     || conflicts t key r
  then Err ConstraintViolation
  else Ok (<[key := r]> t).

(** The two triggers a lifecycle update can raise. The identity trigger is
    attached to columns this update never assigns. *)
Definition trigger_aborts (old new : Row) : bool :=
  (c_committed_post_reservations new <? c_committed_post_reservations old)
  || match c_tracking_started_at old with
     | Some _ => negb (bool_decide (c_tracking_started_at new = c_tracking_started_at old))
     | None => false
     end.

(** UPDATE ... WHERE identity_key = key; no matching row is not an error. *)
Definition update_row (t : Table) (key : list Z) (f : Row -> Row) : result Table SqlError :=
  match t !! key with
  | None => Ok t
  | Some old =>
      let new := f old in
      if trigger_aborts old new || negb (row_ok key new) || conflicts t key new
      then Err ConstraintViolation
      else Ok (<[key := new]> t)
  end.

(** ** Codec: [encode_positions] and [decode_positions] *)
Definition encode_positions (positions : list Z) : list Z :=
  1 :: be_bytes 4 (Z.of_nat (length positions)) ++ mjoin (be_bytes 8 <$> positions).

(** [chunks_exact(8)] of [n] chunks. *)
Fixpoint chunks8 (n : nat) (l : list Z) : list (list Z) :=
  match n with
  | O => []
  | S n => take 8 l :: chunks8 n (drop 8 l)
  end.

Definition decode_positions (encoded : list Z) : option (list Z) :=
  match encoded with
  | version :: body =>
      if bool_decide (length encoded < 5)%nat || negb (version =? 1) then None
      else
        let count := be_decode (take 4 body) in
        if Z.of_nat (length encoded) =? 5 + count * 8
        then Some (be_decode <$> chunks8 (Z.to_nat count) (drop 4 body))
        else None
  | [] => None
  end.

#[global] Arguments encode_positions : simpl never.
#[global] Arguments decode_positions : simpl never.

Definition bytes32 (value : list Z) : option (list Z) :=
  if bool_decide (length value = 32)%nat then Some value else None.

(** [u64::try_from] of an INTEGER column. *)
Definition u64_of_i64 (z : Z) : option Z := if 0 <=? z then Some z else None.

(** [Option::map(f).transpose()]. *)
Definition opt_try {A B} (f : A -> option B) (a : option A) : option (option B) :=
  match a with
  | None => Some None
  | Some a => Some <$> f a
  end.

Definition load_diagnostic (r : Row) : option (option ChainSubmissionDiagnostic) :=
  match c_diagnostic_kind r, c_diagnostic r with
  | Some kind, Some message =>
      k ← kind_from_stable_name kind; Some (Some (from_redacted_message k message))
  | None, None => Some None
  | _, _ => None
  end.

(** The columns of a confirmation, when a source is recorded. *)
Definition load_confirmation (r : Row)
    : option (option (string * Z * list Z * option CandidateTransactionHash)) :=
  match c_confirmation_source r with
  | None => Some None
  | Some source =>
      final_van ← c_final_van_position r;
      final_van ← u64_of_i64 final_van;
      encoded ← c_vote_commitment_positions r;
      positions ← decode_positions encoded;
      hash ← opt_try bytes32 (c_confirmed_transaction_hash r);
      Some (Some (source, final_van, positions, hash))
  end.

Definition load_state (r : Row) (candidate : option CandidateTransactionHash)
    (diagnostic : option ChainSubmissionDiagnostic)
    (conf : option (string * Z * list Z * option CandidateTransactionHash))
    : option SubmissionRecordState :=
  let state := c_state r in
  if decide (state = "submitting"%string) then Some Submitting
  else if decide (state = "tracking"%string) then Tracking <$> candidate
  else if decide (state = "recovering"%string) then Recovering candidate <$> diagnostic
  else if decide (state = "submitted_without_hash"%string)
  then SubmittedWithoutHash <$> diagnostic
  else if decide (state = "confirmed"%string) then
    match conf with
    | None => None
    | Some (source, final_van, positions, hash) =>
        let value :=
          if decide (source = "hash"%string)
          then h ← hash; Some (from_hash h final_van positions)
          else if decide (source = "tree"%string)
          then Some (from_tree final_van positions)
          else None in
        match value with
        | Some (Ok v) => Some (Confirmed v)
        | _ => None
        end
    end
  else if decide (state = "rejected"%string) then Rejected <$> diagnostic
  else None.

(** [load_one]: [None] is its [InvalidQuery] error. *)
Definition load_row (identity : ChainSubmissionIdentity) (r : Row)
    : option StoredChainSubmission :=
  diagnostic ← load_diagnostic r;
  candidate ← opt_try bytes32 (c_candidate_transaction_hash r);
  conf ← load_confirmation r;
  state ← load_state r candidate diagnostic conf;
  digest ← bytes32 (c_generation_digest r);
  attempts ← u64_of_i64 (c_committed_post_reservations r);
  tracking ← opt_try u64_of_i64 (c_tracking_started_at r);
  created ← u64_of_i64 (c_created_at r);
  updated ← u64_of_i64 (c_updated_at r);
  Some (mk_stored identity digest state attempts tracking diagnostic created updated).

Definition load_submission `{SqliteText} (t : Table) (identity : ChainSubmissionIdentity)
    : result (option StoredChainSubmission) ChainSubmissionFailure :=
  match t !! submission_identity_key identity with
  | None => Ok None
  | Some r =>
      match load_row identity r with
      | Some record => Ok (Some record)
      | None => Err (storage_error InvalidQuery)
      end
  end.

(** ** Writing rows *)
Definition target_columns (t : ChainSubmissionTarget)
    : string * option Z * option (list Z) :=
  match t with
  | Delegation => ("delegation"%string, None, None)
  | Vote p => ("vote"%string, Some p, None)
  | VoteBatch d => ("vote_batch"%string, None, Some d)
  | DelegateAndVoteBatch d => ("delegate_and_cast_vote_batch"%string, None, Some d)
  end.

Section writes.
Context `{Externals} `{SqliteText}.

Definition fresh_row (record : StoredChainSubmission) (attempts created : Z) : Row :=
  let i := st_identity record in
  let '(kind, proposal, batch) := target_columns (target i) in
  mk_row (hex_encode (vote_round_id i)) (wallet_id i) (network_name (network i))
    (bundle_index i) kind proposal batch (st_generation_digest record) "submitting"
    None attempts None None None None None None None created created.

Definition insert_fresh (round_exists : bool) (t : Table) (record : StoredChainSubmission)
    : result Table ChainSubmissionFailure :=
  match bind_u64 (st_committed_post_reservations record), bind_u64 (st_created_at record) with
  | Some attempts, Some created =>
      map_err storage_error
        (insert_row round_exists t (submission_identity_key (st_identity record))
           (fresh_row record attempts created))
  | _, _ => Err (storage_error ToSqlConversionFailure)
  end.

Definition imported_row (record : StoredChainSubmission)
    (candidate : CandidateTransactionHash) (created : Z) : Row :=
  let i := st_identity record in
  mk_row (hex_encode (vote_round_id i)) (wallet_id i) (network_name (network i))
    (bundle_index i) "delegation" None None (st_generation_digest record) "tracking"
    (Some candidate) 0 (Some created) None None None None None None created created.

Definition insert_imported_delegation (round_exists : bool) (t : Table)
    (record : StoredChainSubmission) (candidate : CandidateTransactionHash)
    : result Table ChainSubmissionFailure :=
  match bind_u64 (st_created_at record) with
  | Some created =>
      map_err storage_error
        (insert_row round_exists t (submission_identity_key (st_identity record))
           (imported_row record candidate created))
  | None => Err (storage_error ToSqlConversionFailure)
  end.
End writes.

(** The columns [persist_mutable] derives from the typed state. *)
Definition mutable_columns (record : StoredChainSubmission)
    : string * option CandidateTransactionHash * option ChainSubmissionDiagnostic
      * option ChainSubmissionConfirmation :=
  match st_state record with
  | Submitting => ("submitting"%string, None, None, None)
  | Tracking c => ("tracking"%string, Some c, st_diagnostic record, None)
  | Recovering c d => ("recovering"%string, c, Some d, None)
  | SubmittedWithoutHash d => ("submitted_without_hash"%string, None, Some d, None)
  | Confirmed v =>
      ("confirmed"%string, conf_transaction_hash (confirmation v), None, Some (confirmation v))
  | Rejected d => ("rejected"%string, None, Some d, None)
  end.

Definition source_name (s : ChainSubmissionConfirmationSource) : string :=
  match s with HashSource => "hash" | TreeSource => "tree" end.

(** The row after the UPDATE, given the bound integers. *)
Definition mutable_row (record : StoredChainSubmission) (attempts : Z)
    (tracking final_van : option Z) (updated : Z) (old : Row) : Row :=
  let '(state, candidate, diagnostic, conf) := mutable_columns record in
  mk_row (c_round_id old) (c_wallet_id old) (c_network old) (c_bundle_index old)
    (c_kind old) (c_proposal_id old) (c_ordered_batch_digest old) (c_generation_digest old)
    state candidate attempts tracking
    (kind_as_str ∘ diag_kind <$> diagnostic) (diag_message <$> diagnostic)
    (source_name ∘ conf_source <$> conf) (conf ≫= conf_transaction_hash) final_van
    (encode_positions ∘ conf_vote_commitment_positions <$> conf)
    (c_created_at old) updated.

Definition persist_mutable `{SqliteText} (t : Table) (record : StoredChainSubmission)
    : result Table ChainSubmissionFailure :=
  let conf := (mutable_columns record).2 in
  match bind_u64 (st_committed_post_reservations record),
        bind_opt_u64 (st_tracking_started_at record),
        bind_opt_u64 (conf_final_van_position <$> conf),
        bind_u64 (st_updated_at record) with
  | Some attempts, Some tracking, Some final_van, Some updated =>
      map_err storage_error
        (update_row t (submission_identity_key (st_identity record))
           (mutable_row record attempts tracking final_van updated))
  | _, _, _, _ => Err (storage_error ToSqlConversionFailure)
  end.

(** ** Well-formed records *)
Definition wf_hash (h : list Z) : Prop := length h = 32%nat.

Definition wf_diag (d : ChainSubmissionDiagnostic) : Prop :=
  text_len_utf8 (diag_message d) <= 512.

(** What [from_hash] and [from_tree] establish, on [u64] positions. *)
Definition wf_confirmation (v : ValidatedChainSubmissionConfirmation) : Prop :=
  let c := confirmation v in
  0 <= conf_final_van_position c < TREE_CAPACITY /\
  Forall (fun p => 0 <= p < TREE_CAPACITY) (conf_vote_commitment_positions c) /\
  Z.of_nat (length (conf_vote_commitment_positions c)) <= u32_max /\
  match v with
  | VHash c => conf_source c = HashSource /\
      exists h, conf_transaction_hash c = Some h /\ wf_hash h
  | VTree c => conf_source c = TreeSource /\ conf_transaction_hash c = None
  end.

(** The diagnostic column agrees with the typed state. *)
Definition wf_state (record : StoredChainSubmission) : Prop :=
  match st_state record with
  | Submitting => st_diagnostic record = None /\ st_tracking_started_at record = None
  | Tracking c => wf_hash c /\ is_Some (st_tracking_started_at record) /\
      (forall d, st_diagnostic record = Some d -> wf_diag d)
  | Recovering c d => (forall h, c = Some h -> wf_hash h) /\
      st_diagnostic record = Some d /\ wf_diag d
  | SubmittedWithoutHash d | Rejected d => st_diagnostic record = Some d /\ wf_diag d
  | Confirmed v => st_diagnostic record = None /\ wf_confirmation v
  end.

Record wf_record (record : StoredChainSubmission) : Prop := {
  wf_digest : wf_hash (st_generation_digest record);
  wf_reservations : 0 <= st_committed_post_reservations record <= i64_max;
  wf_tracking : forall z, st_tracking_started_at record = Some z -> 0 <= z <= i64_max;
  wf_created : 0 <= st_created_at record;
  wf_updated : st_created_at record <= st_updated_at record <= i64_max;
  wf_st : wf_state record
}.

(** Loading builds every diagnostic with [from_redacted_message] again. *)
Definition reescape (d : ChainSubmissionDiagnostic) : ChainSubmissionDiagnostic :=
  from_redacted_message (diag_kind d) (diag_message d).

Definition reescape_state (s : SubmissionRecordState) : SubmissionRecordState :=
  match s with
  | Recovering c d => Recovering c (reescape d)
  | SubmittedWithoutHash d => SubmittedWithoutHash (reescape d)
  | Rejected d => Rejected (reescape d)
  | s => s
  end.

Definition reescape_record (r : StoredChainSubmission) : StoredChainSubmission :=
  mk_stored (st_identity r) (st_generation_digest r) (reescape_state (st_state r))
    (st_committed_post_reservations r) (st_tracking_started_at r)
    (reescape <$> st_diagnostic r) (st_created_at r) (st_updated_at r).

(** The row [persist_mutable] writes for a well-formed record. *)
Definition written_row (r : StoredChainSubmission) (old : Row) : Row :=
  mutable_row r (st_committed_post_reservations r) (st_tracking_started_at r)
    (conf_final_van_position <$> (mutable_columns r).2) (st_updated_at r) old.

(** The constraints on the columns a lifecycle update may change. *)
Definition mutable_checks (r : Row) : list tri :=
  drop 11 (row_checks [] r).

Definition state_columns_ok (r : Row) : bool :=
  passes (tri_in (Some (c_state r)) ["submitting"; "tracking"; "recovering";
    "submitted_without_hash"; "confirmed"; "rejected"]%string)
  && passes (tri_in (c_confirmation_source r) ["hash"; "tree"]%string)
  && forallb passes (mutable_checks r).

(** The constraints on the columns no update changes, and on the counters. *)
Definition identity_columns_ok (key : list Z) (r : Row) : bool :=
  passes (tri_in (Some (c_network r)) ["mainnet"; "testnet"; "regtest"]%string)
  && passes (tri_between (Some (c_bundle_index r)) 0 4294967295)
  && passes (tri_in (Some (c_kind r))
       ["delegation"; "vote"; "vote_batch"; "delegate_and_cast_vote_batch"]%string)
  && passes (has_length (Some (c_generation_digest r)) 32)
  && passes (Some (0 <=? c_created_at r))
  && passes (Some (bool_decide (32 <= length key)%nat))
  && passes (check_kind_columns r).

Definition counters_ok (r : Row) : bool :=
  passes (Some (0 <=? c_committed_post_reservations r))
  && passes (Some (c_created_at r <=? c_updated_at r)).

(** What the update statement needs beyond a well-formed record: the row is
    there, is the record's own, and no trigger or index objects. *)
Record persistable (t : Table) (r : StoredChainSubmission) (old : Row) : Prop := {
  pr_row : t !! submission_identity_key (st_identity r) = Some old;
  pr_ok : row_ok (submission_identity_key (st_identity r)) old = true;
  pr_created : c_created_at old = st_created_at r;
  pr_digest : c_generation_digest old = st_generation_digest r;
  pr_trigger : trigger_aborts old (written_row r old) = false;
  pr_unique : conflicts t (submission_identity_key (st_identity r)) (written_row r old) = false
}.

(** Concrete values: a reservation's row and the record that starts tracking
    its hash. *)
Definition example_text : SqliteText := fun _ => [].

Definition example_reserved : StoredChainSubmission :=
  mk_stored example_identity (replicate 32 7) Submitting 1 None None 100 100.

Definition example_row : Row := @fresh_row example_externals example_reserved 1 100.

Definition example_tracking : StoredChainSubmission :=
  mk_stored example_identity (replicate 32 7) (Tracking example_hash) 1 (Some 120) None 100 120.

Definition example_table : Table :=
  {[ submission_identity_key example_identity := example_row ]}.

Definition example_batch_row : Row :=
  mk_row "r" "w" "mainnet" 0 "vote_batch" None None [] "submitting"
    None 0 None None None None None None None 0 0.

(** ** Round trips *)
Lemma mjoin_be8_cons p ps :
  mjoin (be_bytes 8 <$> p :: ps) = be_bytes 8 p ++ mjoin (be_bytes 8 <$> ps).
Proof. done. Qed.

Lemma chunks8_mjoin ps :
  chunks8 (length ps) (mjoin (be_bytes 8 <$> ps)) = be_bytes 8 <$> ps.
Proof.
  induction ps as [|p ps IH]; [done|]. rewrite mjoin_be8_cons, fmap_cons.
  cbn [length chunks8].
  assert (length (be_bytes 8 p) = 8%nat) as Hl by apply length_be_bytes.
  rewrite take_app_length', drop_app_length' by done. by rewrite IH.
Qed.

Lemma length_mjoin_be8 ps : length (mjoin (be_bytes 8 <$> ps)) = (8 * length ps)%nat.
Proof.
  induction ps as [|p ps IH]; [done|].
  rewrite mjoin_be8_cons, length_app, length_be_bytes, IH. cbn [length]. lia.
Qed.

Lemma decode_encode_positions ps :
  Forall is_u64 ps -> Z.of_nat (length ps) <= u32_max ->
  decode_positions (encode_positions ps) = Some ps.
Proof.
  intros Hps Hlen. unfold decode_positions, encode_positions.
  assert (length (be_bytes 4 (Z.of_nat (length ps))) = 4%nat) as H4 by apply length_be_bytes.
  rewrite bool_decide_eq_false_2 by (cbn [length]; rewrite length_app; lia).
  rewrite Z.eqb_refl. cbn [orb negb].
  rewrite take_app_length', drop_app_length' by done.
  rewrite be_decode_be_bytes_small by (unfold u32_max in *; lia).
  cbn [length]. rewrite length_app, length_mjoin_be8, H4.
  replace (Z.of_nat (S (4 + 8 * length ps)) =? 5 + Z.of_nat (length ps) * 8) with true by lia.
  rewrite Nat2Z.id, chunks8_mjoin. f_equal. rewrite <- list_fmap_compose.
  transitivity (id <$> ps); [|by rewrite list_fmap_id].
  apply list_fmap_ext. intros i p Hp. eapply Forall_lookup_1 in Hps; [|done].
  apply be_decode_be_bytes_small. unfold is_u64, u64_max in Hps. simpl. lia.
Qed.

Lemma reescape_kind d : diag_kind (reescape d) = diag_kind d.
Proof. done. Qed.

Lemma opt_try_bytes32 o : (forall h, o = Some h -> wf_hash h) -> opt_try bytes32 o = Some o.
Proof.
  destruct o as [h|]; [|done]. intros Hh. simpl. unfold bytes32.
  by rewrite bool_decide_eq_true_2 by (by apply Hh).
Qed.

Lemma opt_try_u64 o :
  (forall z, o = Some z -> 0 <= z <= i64_max) -> opt_try u64_of_i64 o = Some o.
Proof.
  destruct o as [z|]; [|done]. intros Hz. specialize (Hz z eq_refl). simpl. unfold u64_of_i64.
  by replace (0 <=? z) with true by lia.
Qed.

Lemma u64_of_i64_ok z : 0 <= z -> u64_of_i64 z = Some z.
Proof. intros. unfold u64_of_i64. by replace (0 <=? z) with true by lia. Qed.

Lemma bytes32_ok h : wf_hash h -> bytes32 h = Some h.
Proof. intros. unfold bytes32. by rewrite bool_decide_eq_true_2. Qed.

Lemma load_diagnostic_written kind msg r :
  c_diagnostic_kind r = Some (kind_as_str kind) -> c_diagnostic r = Some msg ->
  load_diagnostic r = Some (Some (from_redacted_message kind msg)).
Proof. intros Hk Hm. unfold load_diagnostic. rewrite Hk, Hm. by destruct kind. Qed.

Lemma wf_positions_u64 ps :
  Forall (fun p => 0 <= p < TREE_CAPACITY) ps -> Forall is_u64 ps.
Proof.
  apply Forall_impl. intros p Hp. unfold is_u64, u64_max.
  assert (TREE_CAPACITY = 16777216) as Hc by reflexivity. lia.
Qed.

Lemma validate_wf_positions van ps :
  van < TREE_CAPACITY -> Forall (fun p => 0 <= p < TREE_CAPACITY) ps ->
  validate_tree_positions van ps = Ok tt.
Proof.
  intros Hv Hps. unfold validate_tree_positions.
  replace (TREE_CAPACITY <=? van) with false by lia. cbn [orb].
  replace (existsb _ ps) with false; [done|]. symmetry.
  induction Hps as [|p ps Hp Hps IH]; [done|]. simpl. rewrite IH.
  by replace (TREE_CAPACITY <=? p) with false by lia.
Qed.

Lemma load_written_confirmed r old v :
  st_state r = Confirmed v -> wf_confirmation v ->
  exists conf, load_confirmation (written_row r old) = Some conf /\
    load_state (written_row r old) (conf_transaction_hash (confirmation v)) None conf
      = Some (Confirmed v).
Proof.
  intros Hs (Hvan & Hps & Hlen & Hsrc).
  unfold written_row, mutable_row, mutable_columns, load_confirmation, load_state.
  rewrite Hs. simpl.
  rewrite u64_of_i64_ok by lia. simpl.
  rewrite decode_encode_positions by (done || by apply wf_positions_u64). simpl.
  pose proof (validate_wf_positions _ _ (proj2 Hvan) Hps) as Hval.
  destruct v as [[src h van ps]|[src h van ps]]; simpl in *.
  - destruct Hsrc as [-> (h' & -> & Hh)]. simpl. rewrite bytes32_ok by done.
    eexists. split; [done|]. simpl. unfold from_hash. by rewrite Hval.
  - destruct Hsrc as [-> ->]. simpl. eexists. split; [done|]. simpl.
    unfold from_tree. by rewrite Hval.
Qed.

Lemma load_written_diagnostic r old :
  wf_state r -> load_diagnostic (written_row r old) = Some (reescape <$> st_diagnostic r).
Proof.
  unfold wf_state, written_row, mutable_row, mutable_columns, load_diagnostic.
  destruct (st_state r) as [|c|c d|d|v|d]; simpl; intros Hs; destruct_and?;
    repeat match goal with H : st_diagnostic r = _ |- _ => rewrite H end; simpl; try done.
  - by destruct (st_diagnostic r) as [[[] m]|].
  - by destruct d as [[] m].
  - by destruct d as [[] m].
  - by destruct d as [[] m].
Qed.

Lemma load_written_candidate r old :
  wf_state r ->
  opt_try bytes32 (c_candidate_transaction_hash (written_row r old))
    = Some (c_candidate_transaction_hash (written_row r old)).
Proof.
  intros Hs. apply opt_try_bytes32. revert Hs.
  unfold wf_state, wf_confirmation, written_row, mutable_row, mutable_columns.
  destruct (st_state r) as [|c|c d|d|[v|v]|d]; simpl; intros Hs h Hh;
    destruct_and?; simplify_eq; try done; naive_solver.
Qed.

Lemma load_written_state r old :
  wf_state r ->
  exists conf, load_confirmation (written_row r old) = Some conf /\
    load_state (written_row r old) (c_candidate_transaction_hash (written_row r old))
      (reescape <$> st_diagnostic r) conf = Some (reescape_state (st_state r)).
Proof.
  intros Hs. destruct (st_state r) as [|c|c d|d|v|d] eqn:Hst.
  5: { unfold wf_state in Hs. rewrite Hst in Hs. destruct Hs as [Hd Hv].
       destruct (load_written_confirmed r old v Hst Hv) as (conf & Hc & Hl).
       exists conf. split; [done|]. rewrite Hd. simpl. rewrite <- Hl.
       unfold written_row, mutable_row, mutable_columns. by rewrite Hst. }
  all: exists None; unfold wf_state in Hs; rewrite Hst in Hs; destruct_and?;
    unfold load_confirmation, load_state, written_row, mutable_row, mutable_columns;
    rewrite Hst; simpl; split; [done|];
    repeat match goal with H : st_diagnostic _ = _ |- _ => rewrite H end; done.
Qed.

Lemma written_row_columns r old :
  c_generation_digest (written_row r old) = c_generation_digest old /\
  c_committed_post_reservations (written_row r old) = st_committed_post_reservations r /\
  c_tracking_started_at (written_row r old) = st_tracking_started_at r /\
  c_created_at (written_row r old) = c_created_at old /\
  c_updated_at (written_row r old) = st_updated_at r.
Proof. unfold written_row, mutable_row, mutable_columns. by destruct (st_state r). Qed.

Lemma load_row_written r old :
  wf_record r -> c_generation_digest old = st_generation_digest r ->
  c_created_at old = st_created_at r ->
  load_row (st_identity r) (written_row r old) = Some (reescape_record r).
Proof.
  intros [Hd Hr Ht Hc Hu Hs] Hod Hoc. unfold load_row, reescape_record.
  destruct (written_row_columns r old) as (-> & -> & -> & -> & ->).
  rewrite Hod, Hoc, (bytes32_ok _ Hd), (opt_try_u64 _ Ht), !u64_of_i64_ok by lia.
  rewrite load_written_diagnostic, load_written_candidate by done. simpl.
  destruct (load_written_state r old Hs) as (conf & -> & Hst). simpl. by rewrite Hst.
Qed.

(** ** The schema accepts what the lifecycle writes *)

Lemma passes_or_null {A} (o : option A) (t : tri) :
  (o <> None -> t = Some true) -> passes (tri_or (is_null o) t) = true.
Proof. destruct o; simpl; [|done]. intros Ht. by rewrite Ht. Qed.

Lemma hash_column_passes o :
  (forall h, o = Some h -> wf_hash h) -> passes (tri_or (is_null o) (has_length o 32)) = true.
Proof.
  intros Hh. apply passes_or_null. destruct o as [h|]; [intros _|done]. simpl.
  by rewrite bool_decide_eq_true_2 by (by apply Hh).
Qed.

Lemma length32_true h : wf_hash h -> bool_decide (length h = 32%nat) = true.
Proof. intros. by apply bool_decide_eq_true_2. Qed.

Lemma diag_len_true d : wf_diag d -> (text_len_utf8 (diag_message d) <=? 512) = true.
Proof. unfold wf_diag. lia. Qed.

Lemma written_row_state_columns r old : wf_state r -> state_columns_ok (written_row r old) = true.
Proof.
  unfold wf_state, state_columns_ok, mutable_checks, written_row, mutable_row, mutable_columns.
  destruct (st_state r) as [|c|c d|d|v|d]; intros Hs; simpl.
  - by destruct Hs as [_ ->].
  - destruct Hs as (Hc & [z Hz] & Hd). rewrite length32_true, Hz by done.
    destruct (st_diagnostic r) as [d|]; [|done]. simpl. by rewrite diag_len_true by auto.
  - destruct Hs as (Hc & _ & Hd). rewrite diag_len_true by done.
    destruct c as [h|]; [|done]. simpl. by rewrite length32_true by auto.
  - destruct Hs as [_ Hd]. by rewrite diag_len_true.
  - destruct Hs as (_ & _ & _ & _ & Hv). destruct v as [c|c]; simpl in *.
    + destruct Hv as [Hsrc (h & Hh & Hw)]. unfold check_hash_source. simpl.
      rewrite Hsrc, Hh. simpl. rewrite length32_true by done.
      by rewrite bool_decide_eq_true_2.
    + destruct Hv as [Hsrc Hh]. unfold check_hash_source. simpl. by rewrite Hsrc, Hh.
  - destruct Hs as [_ Hd]. by rewrite diag_len_true.
Qed.

Lemma row_ok_split key r :
  row_ok key r = true <->
  identity_columns_ok key r = true /\ counters_ok r = true /\ state_columns_ok r = true.
Proof.
  unfold row_ok, identity_columns_ok, counters_ok, state_columns_ok, mutable_checks, row_checks.
  cbn [forallb drop]. rewrite !andb_true_iff.
  repeat match goal with |- context [passes ?t] => generalize (passes t = true); intro end.
  tauto.
Qed.

Lemma identity_columns_written key r old :
  identity_columns_ok key (written_row r old) = identity_columns_ok key old.
Proof. unfold written_row, mutable_row, mutable_columns. by destruct (st_state r). Qed.

Lemma row_ok_written key r old :
  row_ok key old = true -> wf_record r -> c_created_at old = st_created_at r ->
  row_ok key (written_row r old) = true.
Proof.
  intros Hold [_ Hr _ _ Hu Hs] Hc. apply row_ok_split in Hold as (Hi & _ & _).
  apply row_ok_split. split_and!.
  - by rewrite identity_columns_written.
  - unfold counters_ok. destruct (written_row_columns r old) as (_ & -> & _ & -> & ->).
    assert ((0 <=? st_committed_post_reservations r) = true) as -> by lia.
    by assert ((c_created_at old <=? st_updated_at r) = true) as -> by lia.
  - by apply written_row_state_columns.
Qed.

(** ** Persisting and reloading *)
Section persist.
Context `{SqliteText}.

Lemma bind_u64_ok z : z <= i64_max -> bind_u64 z = Some z.
Proof. intros. unfold bind_u64. by replace (z <=? i64_max) with true by lia. Qed.

Lemma bind_opt_u64_ok o :
  (forall z, o = Some z -> z <= i64_max) -> bind_opt_u64 o = Some o.
Proof. destruct o as [z|]; [|done]. intros Hz. simpl. by rewrite bind_u64_ok by auto. Qed.

Lemma wf_final_van r z :
  wf_state r -> conf_final_van_position <$> (mutable_columns r).2 = Some z -> z <= i64_max.
Proof.
  unfold wf_state, wf_confirmation, mutable_columns.
  destruct (st_state r) as [|c|c d|d|v|d]; simpl; intros Hs Hz; simplify_eq.
  assert (TREE_CAPACITY = 16777216) as Hc by reflexivity. unfold i64_max. lia.
Qed.

Lemma persist_mutable_ok t r old :
  wf_record r -> persistable t r old ->
  persist_mutable t r = Ok (<[submission_identity_key (st_identity r) := written_row r old]> t).
Proof.
  intros Hw [Hrow Hok Hc Hd Htr Hun]. unfold persist_mutable.
  rewrite !bind_u64_ok by (destruct Hw; lia).
  rewrite bind_opt_u64_ok by (intros z Hz; apply (wf_tracking r Hw) in Hz; lia).
  rewrite bind_opt_u64_ok by (intros z; apply wf_final_van, Hw).
  unfold update_row. rewrite Hrow. fold (written_row r old).
  by rewrite Htr, Hun, row_ok_written by done.
Qed.

(** C39 (durability): a well-formed record that the row's triggers and the
    unique indexes allow is always written, passing every CHECK of the schema,
    and loading it back gives the same record, with its diagnostic's message
    escaped once more. *)
Theorem persist_then_load t r old :
  wf_record r -> persistable t r old ->
  exists t', persist_mutable t r = Ok t' /\
    load_submission t' (st_identity r) = Ok (Some (reescape_record r)) /\
    forall k, k <> submission_identity_key (st_identity r) -> t' !! k = t !! k.
Proof.
  intros Hw Hp. eexists. split; [by apply persist_mutable_ok|]. split.
  - unfold load_submission. rewrite lookup_insert_eq.
    by rewrite load_row_written by (done || apply Hp).
  - intros k Hk. by rewrite lookup_insert_ne.
Qed.
End persist.

(** Reloading keeps a diagnostic's kind, and keeps its message
    when that is short and free of quotes, backslashes and characters outside
    printable ASCII. *)
Lemma reload_keeps_plain_diagnostic d :
  diag_kind (reescape d) = diag_kind d /\
  (Forall plain_char (diag_message d) ->
   text_len_utf8 (diag_message d) <= MAX_CHAIN_SUBMISSION_DIAGNOSTIC_BYTES -> reescape d = d).
Proof.
  split; [done|]. intros Hp Hl. destruct d as [k m]. unfold reescape, from_redacted_message.
  simpl in *. by rewrite bounded_redacted_text_plain.
Qed.

(** Reload escapes again: a stored message is escaped again on every
    load, so one that contains a quote keeps changing. *)
Theorem reload_rewrites_escaped_diagnostic :
  exists d, d = from_redacted_message ChainRejected (lit "can't spend") /\
    diag_message d = lit "can\'t spend" /\
    diag_message (reescape d) = lit "can\\\'t spend" /\
    diag_message (reescape (reescape d)) = lit "can\\\\\\\'t spend".
Proof. eexists. split; [reflexivity|]. by vm_compute. Qed.

(** NULL passes: the constraint that ties a batch kind to a 32-byte digest
    does not reject a missing digest: its condition is then NULL, not false. *)
Theorem batch_row_without_digest_passes r :
  c_kind r = "vote_batch"%string -> c_proposal_id r = None ->
  c_ordered_batch_digest r = None ->
  check_kind_columns r = None /\ passes (check_kind_columns r) = true.
Proof. intros Hk Hp Hd. unfold check_kind_columns. rewrite Hk, Hp, Hd. done. Qed.

(** ** The theorems at concrete inputs *)
Lemma example_tracking_wf : wf_record example_tracking.
Proof.
  split; unfold i64_max; simpl; try done; intros z [= <-]; done.
Qed.

Lemma example_persistable : persistable example_table example_tracking example_row.
Proof. split; vm_compute; reflexivity. Qed.

Lemma persist_then_load_witness :
  exists t', @persist_mutable example_text example_table example_tracking = Ok t' /\
    @load_submission example_text t' example_identity
      = Ok (Some (reescape_record example_tracking)) /\
    forall k, k <> submission_identity_key example_identity -> t' !! k = example_table !! k.
Proof.
  exact (@persist_then_load example_text example_table example_tracking example_row
    example_tracking_wf example_persistable).
Defined.

Lemma batch_row_without_digest_passes_witness :
  check_kind_columns example_batch_row = None /\
  passes (check_kind_columns example_batch_row) = true.
Proof. exact (batch_row_without_digest_passes example_batch_row eq_refl eq_refl eq_refl). Defined.
