(* ===== verification/Store.v ===== *)
(** * The SQLite submission store

    Models the operations of [chain_submission/store/sqlite.rs] over the rows
    of [Rows.v]: one definition per method of [ChainSubmissionStore], run in a
    transaction that rolls back on every error. A statement, the opening of the
    transaction or its commit may fail, as a fault oracle decides. The rest of
    the database (rounds, bundles, votes, proofs) is an interface: what
    generation derivation promises to the store, and the projection of a
    confirmation. *)

From stdpp Require Import base gmap strings list numbers.
From S2P Require Import Prelude Identity Outcome Lifecycle Record Confirmation Rows.
Local Open Scope Z_scope.
Local Open Scope voting_scope.

Record CommittedTransaction := mk_committed {
  committed_height : Z;
  committed_code : Z;
  committed_events : list TxEvent
}.

(** ** The rest of the database

    [D] is the content of every other table. The laws are what the code of
    [generation.rs] establishes on every path: a derived generation carries the
    requested identity and a 32-byte digest, and its request is of the kind its
    target and layout call for. *)
Class SubmissionDomain (D : Type) := {
  derive_generation :
    Table -> D -> SubmissionDerivationRequest -> result DerivedChainSubmission VotingError;
  round_row_exists : D -> string -> string -> bool;
  (** [None]: no bundle row; otherwise whether the bundle records a delegation
      transaction or a VAN position. *)
  bundle_delegated : D -> string -> string -> Z -> option bool;
  combined_recovery_exists : D -> string -> string -> Z -> bool;
  apply_confirmed_generation :
    Table -> D -> BoundGeneration -> ValidatedChainSubmissionConfirmation -> result D VotingError;
  retire_rejected_combined_generation :
    Table -> D -> ChainSubmissionIdentity -> ChainSubmissionDiagnostic -> Z ->
    result D VotingError;

  derive_identity t d q x :
    derive_generation t d q = Ok x ->
    gen_identity (derived_generation x) = derivation_identity q;
  derive_digest t d q x :
    derive_generation t d q = Ok x -> wf_hash (gen_digest (derived_generation x));
  (** A batch request is derived only for a batch identity of its kind. *)
  derive_request_target t d q x :
    derive_generation t d q = Ok x ->
    match derived_request x with
    | QVoteBatch _ => exists digest, target (derivation_identity q) = VoteBatch digest
    | QDelegateAndVoteBatch _ =>
        exists digest, target (derivation_identity q) = DelegateAndVoteBatch digest
    | QImportedDelegation _ =>
        exists i, q = DImportedDelegation i
    | _ => True
    end;
  derive_candidate t d q x c :
    derive_generation t d q = Ok x -> imported_candidate x = Some c -> wf_hash c;
  (** A batch layout is derived only with a batch request. *)
  derive_batch_votes t d q x :
    derive_generation t d q = Ok x ->
    match bound_expected_layout (derived_bound x) with
    | LVoteBatch _ _ => batch_votes (derived_request x) <> None
    | _ => True
    end
}.

(** ** Transactions *)
Record Db (D : Type) := mk_db { db_table : Table; db_rest : D }.
Arguments mk_db {D} _ _.
Arguments db_table {D} _.
Arguments db_rest {D} _.

(** The state inside a transaction: how many statements ran, the database, and
    the flag [store_admit] shares with its error mapping. *)
Record TxState (D : Type) := mk_tx { tx_step : nat; tx_db : Db D; tx_flag : bool }.
Arguments mk_tx {D} _ _ _.
Arguments tx_step {D} _.
Arguments tx_db {D} _.
Arguments tx_flag {D} _.

Definition Tx (D A : Type) : Type :=
  TxState D -> result A ChainSubmissionFailure * TxState D.

Definition tx_ret {D A} (a : A) : Tx D A := fun s => (Ok a, s).
Definition tx_fail {D A} (e : ChainSubmissionFailure) : Tx D A := fun s => (Err e, s).
Definition tx_bind {D A B} (m : Tx D A) (k : A -> Tx D B) : Tx D B := fun s =>
  match m s with
  | (Ok a, s') => k a s'
  | (Err e, s') => (Err e, s')
  end.
Definition tx_lift {D A} (r : result A ChainSubmissionFailure) : Tx D A := fun s => (r, s).
Definition tx_map_err {D A} (f : ChainSubmissionFailure -> ChainSubmissionFailure)
    (m : Tx D A) : Tx D A := fun s => let '(r, s') := m s in (map_err f r, s').
Definition tx_set_flag {D} : Tx D unit := fun s => (Ok tt, mk_tx (tx_step s) (tx_db s) true).

Declare Scope tx_scope.
Delimit Scope tx_scope with tx.
Notation "'let*' x ':=' m 'in' k" := (tx_bind m (fun x => k))
  (at level 10, x pattern, m at level 100, k at level 200) : tx_scope.
Local Open Scope tx_scope.

Definition possible_dispatch_error (e : ChainSubmissionFailure) : ChainSubmissionFailure :=
  with_known_possible_dispatch (fail_kind e) (fail_message e).

Section store.
Context `{Externals} `{SqliteText} {D : Type} `{SubmissionDomain D}.

(** Which statement of a transaction fails, and how: statement 0 is BEGIN and
    the last one COMMIT. *)
Variable fault : nat -> option SqlError.

(** One statement: the oracle may fail it before it has any effect. *)
Definition tx_stmt {A} (f : Db D -> result (A * Db D) ChainSubmissionFailure) : Tx D A := fun s =>
  let s' := mk_tx (S (tx_step s)) (tx_db s) (tx_flag s) in
  match fault (tx_step s) with
  | Some e => (Err (storage_error e), s')
  | None =>
      match f (tx_db s) with
      | Ok (a, db) => (Ok a, mk_tx (S (tx_step s)) db (tx_flag s))
      | Err e => (Err e, s')
      end
  end.

Definition tx_query {A} (f : Table -> D -> result A ChainSubmissionFailure) : Tx D A :=
  tx_stmt (fun db => let? a := f (db_table db) (db_rest db) in Ok (a, db)).

Definition tx_write (f : Table -> D -> result Table ChainSubmissionFailure) : Tx D unit :=
  tx_stmt (fun db => let? t := f (db_table db) (db_rest db) in Ok (tt, mk_db t (db_rest db))).

(** A change to the other tables, made of statements of its own: a fault in
    one of them is an error like any other the code maps. *)
Definition tx_domain (f : Table -> D -> result D VotingError) : Tx D unit := fun s =>
  let s' := mk_tx (S (tx_step s)) (tx_db s) (tx_flag s) in
  match fault (tx_step s) with
  | Some e => (Err (map_generation_error (VOther (sql_error_to_string e))), s')
  | None =>
      match f (db_table (tx_db s)) (db_rest (tx_db s)) with
      | Ok d => (Ok tt, mk_tx (S (tx_step s)) (mk_db (db_table (tx_db s)) d) (tx_flag s))
      | Err e => (Err (map_generation_error e), s')
      end
  end.

(** [transact]: an error anywhere leaves the database as it was. The flag is
    returned for [store_admit]. *)
Definition transact {A} (operation : Tx D A) (db : Db D)
    : result A ChainSubmissionFailure * bool * Db D :=
  match fault 0%nat with
  | Some e => (Err (storage_error e), false, db)
  | None =>
      match operation (mk_tx 1 db false) with
      | (Err e, s) => (Err e, tx_flag s, db)
      | (Ok a, s) =>
          match fault (tx_step s) with
          | Some e => (Err (storage_error e), tx_flag s, db)
          | None => (Ok a, tx_flag s, tx_db s)
          end
      end
  end.

Definition transact_ {A} (operation : Tx D A) (db : Db D)
    : result A ChainSubmissionFailure * Db D :=
  let '(r, _, db') := transact operation db in (r, db').

(** ** Statements of the store *)
Definition tx_load (i : ChainSubmissionIdentity) : Tx D (option StoredChainSubmission) :=
  tx_query (fun t _ => load_submission t i).

(** [load_submission(..)?.ok_or_else(..)]. *)
Definition tx_load_present (i : ChainSubmissionIdentity) (missing : string)
    : Tx D StoredChainSubmission :=
  let* existing := tx_load i in
  match existing with
  | Some r => tx_ret r
  | None => tx_fail (without_state FInvariantViolation (lit missing))
  end.

Definition tx_persist (r : StoredChainSubmission) : Tx D unit :=
  tx_write (fun t _ => persist_mutable t r).

Definition tx_delete (i : ChainSubmissionIdentity) : Tx D unit :=
  tx_write (fun t _ => Ok (delete (submission_identity_key i) t)).

Definition derive (q : SubmissionDerivationRequest) : Tx D DerivedChainSubmission := fun s =>
  let s' := mk_tx (S (tx_step s)) (tx_db s) (tx_flag s) in
  match fault (tx_step s) with
  | Some e => (Err (map_generation_error (VOther (sql_error_to_string e))), s')
  | None => (map_err map_generation_error
               (derive_generation (db_table (tx_db s)) (db_rest (tx_db s)) q), s')
  end.

Definition with_updated (r : StoredChainSubmission) (state : SubmissionRecordState)
    (diagnostic : option ChainSubmissionDiagnostic) (now : Z) : StoredChainSubmission :=
  mk_stored (st_identity r) (st_generation_digest r) state
    (st_committed_post_reservations r) (st_tracking_started_at r) diagnostic
    (st_created_at r) (Z.max now (st_updated_at r)).

Definition normalize_abandoned (r : StoredChainSubmission) (now : Z)
    : Tx D StoredChainSubmission :=
  match apply_submission_observation (Some (st_state r))
          (OAbandonedSubmitting abandoned_diagnostic) with
  | Err e => tx_fail (possible_dispatch_error
               (transition_failure SSubmitting (transition_error_to_string e)))
  | Ok None => tx_fail (possible_dispatch_error (transition_failure SSubmitting
               (lit "abandoned reservation normalization removed the durable row")))
  | Ok (Some state) =>
      let diagnostic := match state with Recovering _ d => Some d | _ => None end in
      let r' := with_updated r state diagnostic now in
      let* _ := tx_map_err possible_dispatch_error (tx_persist r') in
      tx_ret r'
  end.

(** ** Admission guards *)
Definition in_bundle (i : ChainSubmissionIdentity) (r : Row) : bool :=
  bool_decide (c_wallet_id r = wallet_id i)
  && bool_decide (c_network r = network_name (network i))
  && bool_decide (c_round_id r = hex_encode (vote_round_id i))
  && bool_decide (c_bundle_index r = bundle_index i).

Definition unresolved_name (state : string) : bool :=
  bool_decide (state ∈ ["submitting"; "tracking"; "recovering"; "submitted_without_hash"]%string).

(** The [predecessor] query. *)
Definition has_predecessor (i : ChainSubmissionIdentity) (t : Table) : bool :=
  exists_row (fun _ r => in_bundle i r && unresolved_name (c_state r)) t.

(** The [superseded] query. *)
Definition has_successor_vote (i : ChainSubmissionIdentity) (t : Table) : bool :=
  exists_row (fun _ r => in_bundle i r
    && bool_decide (c_kind r ∈ ["vote"; "vote_batch"; "delegate_and_cast_vote_batch"]%string)
    && bool_decide (c_state r = "confirmed"%string)) t.

Definition owns_hash (h : CandidateTransactionHash) (r : Row) : bool :=
  same_hash (c_candidate_transaction_hash r) (Some h)
  || same_hash (c_confirmed_transaction_hash r) (Some h).

(** The [occupied] query: unlike the others it does not restrict the network. *)
Definition bundle_occupied (i : ChainSubmissionIdentity) (t : Table) (d : D)
    : result bool ChainSubmissionFailure :=
  match bundle_delegated d (hex_encode (vote_round_id i)) (wallet_id i) (bundle_index i) with
  | None => Err (storage_error QueryReturnedNoRows)
  | Some delegated =>
      Ok (delegated || exists_row (fun _ r =>
        bool_decide (c_round_id r = hex_encode (vote_round_id i))
        && bool_decide (c_wallet_id r = wallet_id i)
        && bool_decide (c_bundle_index r = bundle_index i)) t)
  end.

(** [if query? { return Err(InvalidInput, message) }]. *)
Definition tx_guard (q : Table -> D -> result bool ChainSubmissionFailure) (message : string)
    : Tx D unit :=
  let* refused := tx_query q in
  if refused : bool then tx_fail (without_state FInvalidInput (lit message)) else tx_ret tt.

Definition tx_when (b : bool) (m : Tx D unit) : Tx D unit := if b then m else tx_ret tt.

Definition is_delegation (t : ChainSubmissionTarget) : bool :=
  match t with Delegation => true | _ => false end.

(** The queries a request without a row of its own must pass, in order. *)
Definition admission_guards (i : ChainSubmissionIdentity) : Tx D unit :=
  let* _ := tx_when (is_combined (target i))
    (tx_guard (bundle_occupied i) "combined admission requires a fresh delegation") in
  let* _ := tx_when (is_delegation (target i))
    (tx_guard (fun _ d => Ok (combined_recovery_exists d (hex_encode (vote_round_id i))
                                (wallet_id i) (bundle_index i)))
       "persisted combined recovery owns this delegation") in
  let* _ := tx_guard (fun t _ => Ok (has_predecessor i t))
    "another submission for this bundle has not established an authoritative successor" in
  tx_when (is_delegation (target i))
    (tx_guard (fun t _ => Ok (has_successor_vote i t))
       "a confirmed vote already succeeds this bundle's delegation").

Definition round_row (d : D) (i : ChainSubmissionIdentity) : bool :=
  round_row_exists d (hex_encode (vote_round_id i)) (wallet_id i).

Definition admit_imported (request : StoreAdvancementRequest) (now : Z) : Tx D StoreAdmission :=
  let* derived := derive (req_derivation request) in
  match imported_candidate derived with
  | None => tx_fail (without_state FInvariantViolation
      (lit "imported delegation derivation omitted its transaction hash"))
  | Some candidate =>
      let* _ := tx_guard (fun t _ => Ok (exists_row (fun _ r => owns_hash candidate r) t))
        "imported delegation transaction hash belongs to another submission" in
      let record := adopted_imported_delegation (derived_generation derived) candidate now in
      let* _ := tx_write (fun t d =>
        insert_imported_delegation (round_row d (st_identity record)) t record candidate) in
      tx_ret (Ready derived record false)
  end.

(** The request already has a row that is not a reservation. *)
Definition admit_existing (request : StoreAdvancementRequest) (record : StoredChainSubmission)
    (batch_derived : option DerivedChainSubmission) : Tx D StoreAdmission :=
  let preserve := fun e => preserve_loaded_state e (Some record) in
  let* derived := match batch_derived with
                  | Some derived => tx_ret derived
                  | None => tx_map_err preserve (derive (req_derivation request))
                  end in
  let* _ := tx_map_err preserve
    (tx_lift (verify_batch_roster request (derived_ordered_proposal_ids derived))) in
  let* _ := tx_lift (ensure_generation record (derived_generation derived)) in
  if is_terminal (st_state record) then tx_ret (Authoritative record)
  else tx_ret (Ready derived record false).

(** The request has no row: pass the guards, then adopt or reserve. *)
Definition admit_new (request : StoreAdvancementRequest)
    (batch_derived : option DerivedChainSubmission) (ordinal now : Z) : Tx D StoreAdmission :=
  let* _ := admission_guards (req_identity request) in
  if is_imported_delegation request then admit_imported request now
  else
    let* derived := match batch_derived with
                    | Some derived => tx_ret derived
                    | None => derive (req_derivation request)
                    end in
    let* _ := tx_lift (verify_batch_roster request (derived_ordered_proposal_ids derived)) in
    let record := fresh (derived_generation derived) ordinal now in
    let* _ := tx_write (fun t d =>
      insert_fresh (round_row d (st_identity record)) t record) in
    tx_ret (Ready derived record true).

Definition is_submitting (s : SubmissionRecordState) : bool :=
  match s with Submitting => true | _ => false end.

(** A batch is derived and its roster checked before anything else. *)
Definition admit_batch (request : StoreAdvancementRequest)
    (existing : option StoredChainSubmission) : Tx D (option DerivedChainSubmission) :=
  if is_batch request then
    let preserve := fun e => preserve_loaded_state e existing in
    let* derived := tx_map_err preserve (derive (req_derivation request)) in
    let* _ := tx_map_err preserve
      (tx_lift (verify_batch_roster request (derived_ordered_proposal_ids derived))) in
    tx_ret (Some derived)
  else tx_ret None.

Definition admit_body (request : StoreAdvancementRequest) (work_allowed : bool)
    (ordinal now : Z) : Tx D StoreAdmission :=
  let* existing := tx_load (req_identity request) in
  match existing, work_allowed with
  | None, false => tx_ret NoAuthoritativeState
  | Some record, false =>
      if is_submitting (st_state record) then
        let* _ := tx_set_flag in
        let* record := normalize_abandoned record now in
        tx_ret (Authoritative record)
      else tx_ret (Authoritative record)
  | _, true =>
      match existing with
      | Some record =>
          if is_submitting (st_state record) then
            let* _ := tx_set_flag in
            let* record := normalize_abandoned record now in
            tx_ret (AbandonedReservation record)
          else
            let* batch := admit_batch request existing in
            admit_existing request record batch
      | None =>
          let* batch := admit_batch request existing in
          admit_new request batch ordinal now
      end
  end.

(** ** The operations of [ChainSubmissionStore] *)
Definition store_admit (request : StoreAdvancementRequest) (work_allowed : bool) (ordinal now : Z)
    (db : Db D) : result StoreAdmission ChainSubmissionFailure * Db D :=
  match validate_target request with
  | Err e => (Err e, db)
  | Ok _ =>
      let '(r, flag, db') := transact (admit_body request work_allowed ordinal now) db in
      (map_err (fun e => if flag : bool then possible_dispatch_error e else e) r, db')
  end.

Definition remove_fresh_reservation (g : ChainSubmissionGeneration) (db : Db D)
    : result unit ChainSubmissionFailure * Db D :=
  transact_ (
    let* record := tx_load_present (gen_identity g) "fresh reservation disappeared" in
    let* _ := tx_lift (ensure_generation record g) in
    if is_submitting (st_state record) then tx_delete (gen_identity g)
    else tx_fail (with_durable_state FInvariantViolation (st_durable_state record)
           (lit "only a fresh Submitting reservation can be removed"))) db.

(** The hash an observation brings is checked against every other row. *)
Definition screen_candidate (i : ChainSubmissionIdentity) (o : SubmissionObservation)
    : Tx D SubmissionObservation :=
  match o with
  | OUsableCandidateHash candidate =>
      let* owned_elsewhere := tx_query (fun t _ => Ok (exists_row (fun k r =>
        negb (bool_decide (k = submission_identity_key i)) && owns_hash candidate r) t)) in
      if owned_elsewhere : bool
      then tx_ret (OPossiblyDispatched (from_redacted_message InvalidProtocolResponse
             (lit "vote-chain returned a transaction hash owned by another semantic generation")))
      else tx_ret (OUsableCandidateHash candidate)
  | o => tx_ret o
  end.

Definition apply_observation_body (g : ChainSubmissionGeneration) (o : SubmissionObservation)
    (diagnostic : option ChainSubmissionDiagnostic) (now : Z) : Tx D StoredChainSubmission :=
  let* record := tx_load_present (gen_identity g)
    "submission disappeared during lifecycle transition" in
  let* _ := tx_lift (ensure_generation record g) in
  let previous := st_durable_state record in
  let* o := screen_candidate (gen_identity g) o in
  match apply_submission_observation (Some (st_state record)) o with
  | Err e => tx_fail (transition_failure previous (transition_error_to_string e))
  | Ok None => tx_fail (transition_failure previous
                 (lit "transition unexpectedly removed durable row"))
  | Ok (Some state) =>
      let record := settle_after_transition (with_state record state) previous diagnostic now in
      if retires_combined_generation record previous then
        match st_diagnostic record with
        | None => tx_fail (transition_failure previous
                    (lit "a rejected row carries its diagnostic"))
        | Some d =>
            let* _ := tx_domain (fun t rest => retire_rejected_combined_generation t rest
                        (gen_identity g) d (st_updated_at record)) in
            let* _ := tx_delete (gen_identity g) in
            tx_ret record
        end
      else
        let* _ := tx_persist record in
        tx_ret record
  end.

Definition apply_observation (g : ChainSubmissionGeneration) (o : SubmissionObservation)
    (diagnostic : option ChainSubmissionDiagnostic) (now : Z) (db : Db D)
    : result StoredChainSubmission ChainSubmissionFailure * Db D :=
  transact_ (apply_observation_body g o diagnostic now) db.

Definition classify_post (g : ChainSubmissionGeneration) (o : SubmissionObservation) (now : Z)
    : Db D -> result StoredChainSubmission ChainSubmissionFailure * Db D :=
  apply_observation g o None now.

Definition reconcile (g : ChainSubmissionGeneration) (o : SubmissionObservation)
    (diagnostic : option ChainSubmissionDiagnostic) (now : Z)
    : Db D -> result StoredChainSubmission ChainSubmissionFailure * Db D :=
  apply_observation g o diagnostic now.

(** [checked_add(1).filter(|count| *count <= i64::MAX as u64)]. *)
Definition next_reservation (count : Z) : option Z :=
  match checked_add_u64 count 1 with
  | Some n => if n <=? i64_max then Some n else None
  | None => None
  end.

Definition with_reservation (r : StoredChainSubmission) (count : Z)
    (state : SubmissionRecordState) (now : Z) : StoredChainSubmission :=
  mk_stored (st_identity r) (st_generation_digest r) state count
    (st_tracking_started_at r) (st_diagnostic r) (st_created_at r)
    (Z.max now (st_updated_at r)).

Definition reserve_ambiguous_retry_body (g : ChainSubmissionGeneration) (now : Z)
    : Tx D StoredChainSubmission :=
  let* record := tx_load_present (gen_identity g)
    "submission disappeared before ambiguous retry reservation" in
  let* _ := tx_lift (ensure_generation record g) in
  if permits_ambiguous_retry (st_state record) then
    match next_reservation (st_committed_post_reservations record) with
    | None => tx_fail (with_durable_state FInvariantViolation SRecovering
                (lit "submission reservation counter overflowed"))
    | Some count =>
        let record := with_reservation record count (st_state record) now in
        let* _ := tx_persist record in
        tx_ret record
    end
  else tx_fail (with_durable_state FInvariantViolation (st_durable_state record)
         (lit "ambiguous retry requires a hashless possibly-dispatched recovery row")).

Definition reserve_ambiguous_retry (g : ChainSubmissionGeneration) (now : Z) (db : Db D)
    : result StoredChainSubmission ChainSubmissionFailure * Db D :=
  transact_ (reserve_ambiguous_retry_body g now) db.

(** The tail shared by both confirmations: apply the observation, project the
    confirmation onto the other tables, persist. The code unwraps the new
    state; a confirmation never removes a row ([confirmation_keeps_row]), so
    the branch that would panic is unreachable. *)
Definition commit_confirmation (record : StoredChainSubmission) (derived : DerivedChainSubmission)
    (v : ValidatedChainSubmissionConfirmation) (now : Z) : Tx D ConfirmationCommit :=
  let previous := st_durable_state record in
  match apply_submission_observation (Some (st_state record)) (OConfirmed v) with
  | Err e => tx_fail (transition_failure previous (transition_error_to_string e))
  | Ok None => tx_fail (transition_failure previous (lit "unreachable"))
  | Ok (Some state) =>
      let record := with_updated record state None now in
      let* _ := tx_domain (fun t rest =>
        apply_confirmed_generation t rest (derived_bound derived) v) in
      let* _ := tx_persist record in
      tx_ret (CommitConfirmed record)
  end.

(** A panic of the validation would roll the transaction back like an error;
    [derived_validation_returns] shows that it is unreachable. *)
Definition confirm_committed_body (request : StoreAdvancementRequest)
    (expected : ChainSubmissionGeneration) (candidate : CandidateTransactionHash)
    (committed : CommittedTransaction) (commit_allowed : bool) (now : Z)
    : Tx D ConfirmationCommit :=
  let* record := tx_load_present (gen_identity expected)
    "submission disappeared before confirmation" in
  let* _ := tx_lift (ensure_generation record expected) in
  let* derived := tx_map_err (fun e => preserve_loaded_state e (Some record))
    (derive (req_derivation request)) in
  if negb (bool_decide (derived_generation derived = expected)) then
    tx_fail (with_durable_state FInvalidInput (st_durable_state record)
      (lit "semantic generation changed before confirmation"))
  else if negb commit_allowed then tx_ret (CommitInterrupted record)
  else
    let validated :=
      if is_imported_delegation request
      then Some (validate_imported_delegation_confirmation (derived_bound derived) candidate
             (committed_events committed))
      else validate_hash_confirmation derived candidate (committed_events committed) in
    match validated with
    | None => tx_fail (with_durable_state FProtocol (st_durable_state record) (lit "unreachable"))
    | Some (Err e) => tx_fail (with_durable_state FProtocol (st_durable_state record)
                 (voting_error_to_string e))
    | Some (Ok v) => commit_confirmation record derived v now
    end.

Definition confirm_committed (request : StoreAdvancementRequest)
    (expected : ChainSubmissionGeneration) (candidate : CandidateTransactionHash)
    (committed : CommittedTransaction) (commit_allowed : bool) (now : Z) (db : Db D)
    : result ConfirmationCommit ChainSubmissionFailure * Db D :=
  transact_ (confirm_committed_body request expected candidate committed commit_allowed now) db.

Definition confirm_tree_body (request : StoreAdvancementRequest)
    (expected : ChainSubmissionGeneration) (final_van_position : Z)
    (vote_commitment_positions : list Z) (commit_allowed : bool) (now : Z)
    : Tx D ConfirmationCommit :=
  let* record := tx_load_present (gen_identity expected)
    "submission disappeared before tree confirmation" in
  let* _ := tx_lift (ensure_generation record expected) in
  let preserve := fun e => preserve_loaded_state e (Some record) in
  let* derived := tx_map_err preserve (derive (req_derivation request)) in
  let* _ := tx_map_err preserve
    (tx_lift (verify_batch_roster request (derived_ordered_proposal_ids derived))) in
  if negb (bool_decide (derived_generation derived = expected)) then
    tx_fail (with_durable_state FInvalidInput (st_durable_state record)
      (lit "semantic generation changed before tree confirmation"))
  else if negb commit_allowed then tx_ret (CommitInterrupted record)
  else
    match from_tree final_van_position vote_commitment_positions with
    | Err e => tx_fail (with_durable_state FProtocol (st_durable_state record)
                 (confirmation_error_to_string e))
    | Ok v => commit_confirmation record derived v now
    end.

Definition confirm_tree (request : StoreAdvancementRequest)
    (expected : ChainSubmissionGeneration) (final_van_position : Z)
    (vote_commitment_positions : list Z) (commit_allowed : bool) (now : Z) (db : Db D)
    : result ConfirmationCommit ChainSubmissionFailure * Db D :=
  transact_ (confirm_tree_body request expected final_van_position
               vote_commitment_positions commit_allowed now) db.

(** [RecoveryRetryAuthorization]: the identity of the operation that holds it,
    and the generation and candidate its scan did not find. *)
Record RecoveryRetryAuthorization := mk_authorization {
  auth_identity : ChainSubmissionIdentity;
  auth_generation_digest : list Z;
  auth_candidate : option CandidateTransactionHash
}.

Definition reserve_recovery_retry_body (request : StoreAdvancementRequest)
    (auth : RecoveryRetryAuthorization) (now : Z) : Tx D StoredChainSubmission :=
  if negb (bool_decide (req_identity request = auth_identity auth)) then
    tx_fail (without_state FInvalidInput
      (lit "recovery request does not match its authorization identity"))
  else
    let* record := tx_load_present (auth_identity auth)
      "submission disappeared before recovery retry reservation" in
    if negb (bool_decide (st_generation_digest record = auth_generation_digest auth)) then
      tx_fail (with_durable_state FInvalidInput (st_durable_state record)
        (lit "recovery authorization belongs to a different generation"))
    else
      let preserve := fun e => preserve_loaded_state e (Some record) in
      let* derived := tx_map_err preserve (derive (req_derivation request)) in
      let* _ := tx_map_err preserve
        (tx_lift (verify_batch_roster request (derived_ordered_proposal_ids derived))) in
      let* _ := tx_lift (ensure_generation record (derived_generation derived)) in
      match st_state record with
      | Recovering candidate diagnostic =>
          if bool_decide (candidate = auth_candidate auth) then
            match next_reservation (st_committed_post_reservations record) with
            | None => tx_fail (with_durable_state FInvariantViolation SRecovering
                        (lit "recovery reservation counter overflowed"))
            | Some count =>
                let record := with_reservation record count (Recovering None diagnostic) now in
                let* _ := tx_persist record in
                tx_ret record
            end
          else tx_fail (with_durable_state FInvariantViolation (st_durable_state record)
                 (lit "recovery authorization no longer matches durable state"))
      | _ => tx_fail (with_durable_state FInvariantViolation (st_durable_state record)
               (lit "recovery authorization no longer matches durable state"))
      end.

Definition reserve_recovery_retry (request : StoreAdvancementRequest)
    (auth : RecoveryRetryAuthorization) (now : Z) (db : Db D)
    : result StoredChainSubmission ChainSubmissionFailure * Db D :=
  transact_ (reserve_recovery_retry_body request auth now) db.

End store.

(** ** Histories of operations *)
Inductive StoreOperation :=
| OpAdmit (request : StoreAdvancementRequest) (work_allowed : bool) (ordinal now : Z)
| OpRemoveFresh (g : ChainSubmissionGeneration)
| OpClassifyPost (g : ChainSubmissionGeneration) (o : SubmissionObservation) (now : Z)
| OpReserveAmbiguousRetry (g : ChainSubmissionGeneration) (now : Z)
| OpReconcile (g : ChainSubmissionGeneration) (o : SubmissionObservation)
    (d : option ChainSubmissionDiagnostic) (now : Z)
| OpConfirmCommitted (request : StoreAdvancementRequest) (g : ChainSubmissionGeneration)
    (candidate : CandidateTransactionHash) (committed : CommittedTransaction)
    (commit_allowed : bool) (now : Z)
| OpConfirmTree (request : StoreAdvancementRequest) (g : ChainSubmissionGeneration)
    (final_van : Z) (positions : list Z) (commit_allowed : bool) (now : Z)
| OpReserveRecoveryRetry (request : StoreAdvancementRequest)
    (auth : RecoveryRetryAuthorization) (now : Z).

Section histories.
Context `{Externals} `{SqliteText} {D : Type} `{SubmissionDomain D}.

Definition ran {A} (r : result A ChainSubmissionFailure * Db D) : bool * Db D :=
  (is_ok r.1, r.2).

(** Whether the operation succeeded, and the database after it. *)
Definition run_operation (fault : nat -> option SqlError) (op : StoreOperation) (db : Db D)
    : bool * Db D :=
  match op with
  | OpAdmit q w n now => ran (store_admit fault q w n now db)
  | OpRemoveFresh g => ran (remove_fresh_reservation fault g db)
  | OpClassifyPost g o now => ran (classify_post fault g o now db)
  | OpReserveAmbiguousRetry g now => ran (reserve_ambiguous_retry fault g now db)
  | OpReconcile g o d now => ran (reconcile fault g o d now db)
  | OpConfirmCommitted q g c tx ok now => ran (confirm_committed fault q g c tx ok now db)
  | OpConfirmTree q g van ps ok now => ran (confirm_tree fault q g van ps ok now db)
  | OpReserveRecoveryRetry q auth now => ran (reserve_recovery_retry fault q auth now db)
  end.

(** A history: operations in order, each with the faults it meets. *)
Definition run_history (h : list ((nat -> option SqlError) * StoreOperation)) (db : Db D)
    : Db D :=
  foldl (fun db fo => (run_operation fo.1 fo.2 db).2) db h.
End histories.

(** ** A concrete domain

    One wallet whose every derivation succeeds with a fixed digest; used to
    evaluate the store. *)
Definition example_derived (q : SubmissionDerivationRequest) : DerivedChainSubmission :=
  mk_derived (mk_bound (mk_generation (derivation_identity q) (replicate 32 7))
                (LVote (replicate 32 8) (replicate 32 9)) [3])
    (QVote (mk_vote_wire [] [] [] 3 [] [] 0 [] [])).

Definition example_domain : SubmissionDomain unit.
Proof.
  refine {|
    derive_generation := fun _ _ q => Ok (example_derived q);
    round_row_exists := fun _ _ _ => true;
    bundle_delegated := fun _ _ _ _ => Some false;
    combined_recovery_exists := fun _ _ _ _ => false;
    apply_confirmed_generation := fun _ d _ _ => Ok d;
    retire_rejected_combined_generation := fun _ d _ _ _ => Ok d
  |}.
  - by intros t d q x [= <-].
  - by intros t d q x [= <-].
  - by intros t d q x [= <-].
  - intros t d q x c [= <-] [=].
  - by intros t d q x [= <-].
Defined.

Definition no_faults : nat -> option SqlError := fun _ => None.

Definition example_run (op : StoreOperation) (db : Db unit) : bool * Db unit :=
  @run_operation example_externals example_text unit example_domain no_faults op db.

(** The event of the example vote, at positions 4 and 5. *)
Definition example_event : TxEvent :=
  mk_event (lit CAST_VOTE_EVENT)
    [mk_attribute (lit "vote_round_id") (lit (hex_string (vote_round_id example_identity)));
     mk_attribute (lit LEAF_INDEX_ATTRIBUTE) (lit "4, 5")].

(** Reserve, record the returned hash, and confirm it. *)
Definition example_generation : ChainSubmissionGeneration :=
  mk_generation example_identity (replicate 32 7).
Definition example_db0 : Db unit :=
  (example_run (OpAdmit (request_vote example_identity) true 1 100) (mk_db ∅ tt)).2.
Definition example_db1 : Db unit :=
  (example_run (OpClassifyPost example_generation (OUsableCandidateHash example_hash) 120)
     example_db0).2.
Definition example_db2 : Db unit :=
  (example_run (OpConfirmCommitted (request_vote example_identity) example_generation
     example_hash (mk_committed 9 0 [example_event]) true 130) example_db1).2.
Definition example_confirmed_row : Row :=
  default example_row (db_table example_db2 !! submission_identity_key example_identity).
