(* ===== verification/StoreProofs.v ===== *)
(** * Correctness of the submission store

    An abstract account of what a store operation may do to the table
    ([store_step]: nothing, one reservation or adoption, one lifecycle update,
    one removal), the refinement of every operation of [Store.v] by it, and the
    invariants that follow for every sequence of operations. *)

From stdpp Require Import base gmap strings list numbers.
From S2P Require Import Prelude Identity Outcome Lifecycle Record Rows Store.
From S2P Require Import Confirmation ConfirmationProofs.
Local Open Scope Z_scope.
Local Open Scope voting_scope.
Local Open Scope tx_scope.

(** ** Abstract steps *)

(** How a record may change: through the transition function, or by
    reserving one more POST for a recovering row, which retires its hash. *)
Inductive state_change : SubmissionRecordState -> Z -> SubmissionRecordState -> Z -> Prop :=
| change_observed s o s' n :
    apply_submission_observation (Some s) o = Ok (Some s') -> state_change s n s' n
| change_reserved c d n :
    state_change (Recovering c d) n (Recovering None d) (n + 1).

Record evolves (r r' : StoredChainSubmission) : Prop := {
  ev_identity : st_identity r' = st_identity r;
  ev_digest : st_generation_digest r' = st_generation_digest r;
  ev_created : st_created_at r' = st_created_at r;
  ev_updated : st_updated_at r <= st_updated_at r';
  ev_state : state_change (st_state r) (st_committed_post_reservations r)
               (st_state r') (st_committed_post_reservations r')
}.

Section steps.
Context `{Externals}.

(** The row an insert writes for an identity. *)
Definition inserted_row (i : ChainSubmissionIdentity) (r : Row) : Prop :=
  exists record, st_identity record = i /\
    ((exists n c, r = fresh_row record n c) \/
     (target i = Delegation /\ exists h c, r = imported_row record h c)).

(** A removed row was an unsent reservation, or a combined batch whose
    rejection the state machine accepts. *)
Definition removable (record : StoredChainSubmission) : Prop :=
  st_state record = Submitting \/
  (is_combined (target (st_identity record)) = true /\
   exists o d, apply_submission_observation (Some (st_state record)) o = Ok (Some (Rejected d))).

Inductive store_step (t : Table) : Table -> Prop :=
| step_none : store_step t t
| step_insert i r :
    t !! submission_identity_key i = None -> inserted_row i r ->
    row_ok (submission_identity_key i) r = true ->
    has_predecessor i t = false -> conflicts t (submission_identity_key i) r = false ->
    store_step t (<[submission_identity_key i := r]> t)
| step_update i old new record record' :
    t !! submission_identity_key i = Some old -> load_row i old = Some record ->
    evolves record record' ->
    new = written_row record' old ->
    trigger_aborts old new = false -> row_ok (submission_identity_key i) new = true ->
    conflicts t (submission_identity_key i) new = false ->
    store_step t (<[submission_identity_key i := new]> t)
| step_delete i old record :
    t !! submission_identity_key i = Some old -> load_row i old = Some record ->
    removable record -> store_step t (delete (submission_identity_key i) t).
End steps.

(** ** Invariants of the table *)
Definition state_name (s : SubmissionRecordState) : string :=
  match s with
  | Submitting => "submitting"
  | Tracking _ => "tracking"
  | Recovering _ _ => "recovering"
  | SubmittedWithoutHash _ => "submitted_without_hash"
  | Confirmed _ => "confirmed"
  | Rejected _ => "rejected"
  end.

Definition finished_name (state : string) : bool :=
  bool_decide (state ∈ ["submitted_without_hash"; "confirmed"; "rejected"]%string).

Definition same_bundle (a b : Row) : Prop :=
  c_wallet_id a = c_wallet_id b /\ c_network a = c_network b /\
  c_round_id a = c_round_id b /\ c_bundle_index a = c_bundle_index b.

(** A vote row names its proposal and a batch row names its batch. *)
Definition names_target (r : Row) : Prop :=
  (c_kind r = "vote"%string -> is_Some (c_proposal_id r)) /\
  (c_kind r ∈ ["vote_batch"; "delegate_and_cast_vote_batch"]%string ->
   is_Some (c_ordered_batch_digest r)).

(** Every row passes the schema and names its target, which the schema alone
    does not ensure; a confirmed hash is the row's candidate; two rows of
    one bundle are never both unresolved; no hash has two owners. *)
Record table_invariant (t : Table) : Prop := {
  ti_rows : forall k r, t !! k = Some r -> row_ok k r = true;
  ti_targets : forall k r, t !! k = Some r -> names_target r;
  ti_confirmed : forall k r, t !! k = Some r ->
    c_confirmed_transaction_hash r = None \/
    c_confirmed_transaction_hash r = c_candidate_transaction_hash r;
  ti_unresolved : forall k1 k2 r1 r2, k1 <> k2 -> t !! k1 = Some r1 -> t !! k2 = Some r2 ->
    same_bundle r1 r2 -> unresolved_name (c_state r1) = true ->
    unresolved_name (c_state r2) = false;
  ti_hashes : forall k1 k2 r1 r2 h, k1 <> k2 -> t !! k1 = Some r1 -> t !! k2 = Some r2 ->
    owns_hash h r1 = true -> owns_hash h r2 = false
}.

(** What one step keeps of a row that stays. *)
Record row_evolution (r r' : Row) : Prop := {
  re_identity : same_bundle r r' /\ c_kind r' = c_kind r /\
    c_proposal_id r' = c_proposal_id r /\
    c_ordered_batch_digest r' = c_ordered_batch_digest r;
  re_generation : c_generation_digest r' = c_generation_digest r;
  re_created : c_created_at r' = c_created_at r;
  re_reservations : c_committed_post_reservations r <= c_committed_post_reservations r';
  re_tracking : forall z, c_tracking_started_at r = Some z -> c_tracking_started_at r' = Some z
}.

(** ** A Hoare layer for transactions *)
Definition tx_spec {D A} (P : Db D -> Prop) (m : Tx D A) (Q : A -> Db D -> Prop) : Prop :=
  forall s a s', P (tx_db s) -> m s = (Ok a, s') -> Q a (tx_db s').

Lemma tx_spec_ret {D A} (P : Db D -> Prop) (a : A) Q :
  (forall db, P db -> Q a db) -> tx_spec P (tx_ret a) Q.
Proof. intros HQ s b s' HP [= <- <-]. auto. Qed.

Lemma tx_spec_fail {D A} (P : Db D -> Prop) e (Q : A -> Db D -> Prop) :
  tx_spec P (tx_fail e) Q.
Proof. intros s b s' HP [=]. Qed.

Lemma tx_spec_bind {D A B} (P : Db D -> Prop) (m : Tx D A) (k : A -> Tx D B) R Q :
  tx_spec P m R -> (forall a, tx_spec (R a) (k a) Q) -> tx_spec P (tx_bind m k) Q.
Proof.
  intros Hm Hk s b s' HP. unfold tx_bind. destruct (m s) as [[a|e] s1] eqn:Hs; [|done].
  intros Hb. eapply Hk; [|exact Hb]. eapply Hm; eauto.
Qed.

Lemma tx_spec_lift {D A} (P : Db D -> Prop) (r : result A ChainSubmissionFailure) Q :
  (forall a db, r = Ok a -> P db -> Q a db) -> tx_spec P (tx_lift r) Q.
Proof. intros HQ s a s' HP [= -> <-]. auto. Qed.

Lemma tx_spec_map_err {D A} (P : Db D -> Prop) f (m : Tx D A) Q :
  tx_spec P m Q -> tx_spec P (tx_map_err f m) Q.
Proof.
  intros Hm s a s' HP. unfold tx_map_err. destruct (m s) as [[b|e] s1] eqn:Hs; simpl; [|done].
  intros [= <- <-]. eapply Hm; eauto.
Qed.

Lemma tx_spec_flag {D} (P : Db D -> Prop) : tx_spec P tx_set_flag (fun _ => P).
Proof. by intros s a s' HP [= <- <-]. Qed.

Section statements.
Context `{SqliteText} {D : Type} `{SubmissionDomain D} (fault : nat -> option SqlError).

Lemma tx_spec_query {A} (P : Db D -> Prop) (f : Table -> D -> result A ChainSubmissionFailure) Q :
  (forall a db, f (db_table db) (db_rest db) = Ok a -> P db -> Q a db) ->
  tx_spec P (tx_query fault f) Q.
Proof.
  intros HQ s a s' HP. unfold tx_query, tx_stmt. destruct (fault _); [done|].
  destruct (f _ _) as [b|] eqn:Hf; [|done]. intros [= <- <-]. auto.
Qed.

Lemma tx_spec_write (P : Db D -> Prop) (f : Table -> D -> result Table ChainSubmissionFailure) Q :
  (forall t db, f (db_table db) (db_rest db) = Ok t -> P db -> Q tt (mk_db t (db_rest db))) ->
  tx_spec P (tx_write fault f) Q.
Proof.
  intros HQ s a s' HP. unfold tx_write, tx_stmt. destruct (fault _); [done|].
  destruct (f _ _) as [b|] eqn:Hf; [|done]. intros [= <- <-]. by apply (HQ b (tx_db s)).
Qed.

Lemma tx_spec_domain (P : Db D -> Prop) (f : Table -> D -> result D VotingError) Q :
  (forall d db, P db -> Q tt (mk_db (db_table db) d)) -> tx_spec P (tx_domain fault f) Q.
Proof.
  intros HQ s a s' HP. unfold tx_domain. destruct (fault _); [done|].
  destruct (f _ _) as [b|] eqn:Hf; [|done]. intros [= <- <-]. by apply (HQ b (tx_db s)).
Qed.

Lemma tx_spec_derive (P : Db D -> Prop) q Q :
  (forall x db, derive_generation (db_table db) (db_rest db) q = Ok x -> P db -> Q x db) ->
  tx_spec P (derive fault q) Q.
Proof.
  intros HQ s a s' HP. unfold derive. destruct (fault _); [done|].
  destruct (derive_generation _ _ q) as [x|] eqn:Hx; [|done]. intros [= <- <-]. auto.
Qed.

(** An error leaves the database untouched; a success satisfies the body's
    postcondition. *)
Lemma transact_spec {A} (m : Tx D A) (db : Db D) Q :
  tx_spec (eq db) m Q ->
  let '(r, _, db') := transact fault m db in
  match r with Ok a => Q a db' | Err _ => db' = db end.
Proof.
  intros Hm. unfold transact. destruct (fault 0%nat); [done|].
  destruct (m _) as [[a|e] s] eqn:Hs; [|done]. destruct (fault (tx_step s)); [done|].
  by eapply Hm; [|exact Hs].
Qed.
End statements.

(** ** Rules for bodies that have not written yet

    [at_table t]: the submission table is still [t]. Each rule runs one more
    reading statement and hands its result to the rest of the body. *)
Section reading.
Context `{Externals} `{SqliteText} {D : Type} `{SubmissionDomain D}.
Context (fault : nat -> option SqlError).

Definition at_table (t : Table) (db : Db D) : Prop := db_table db = t.

Lemma bind_query {A B : Type} (t : Table) (f : Table -> D -> result A ChainSubmissionFailure)
    (k : A -> Tx D B) (Q : B -> Db D -> Prop) :
  (forall a d, f t d = Ok a -> tx_spec (at_table t) (k a) Q) ->
  tx_spec (at_table t) (tx_bind (tx_query fault f) k) Q.
Proof.
  intros Hk. eapply (tx_spec_bind _ _ _
    (fun a db => at_table t db /\ exists d, f t d = Ok a)).
  - apply tx_spec_query. unfold at_table. intros a db Hf <-. eauto.
  - intros a s b s' [Ht (d & Hd)] Hb. by eapply Hk.
Qed.

Lemma bind_lift {A B : Type} (t : Table) (r : result A ChainSubmissionFailure) (k : A -> Tx D B) (Q : B -> Db D -> Prop) :
  (forall a, r = Ok a -> tx_spec (at_table t) (k a) Q) ->
  tx_spec (at_table t) (tx_bind (tx_lift r) k) Q.
Proof.
  intros Hk s b s' HP. unfold tx_bind, tx_lift. destruct r as [a|]; [|done].
  by apply Hk.
Qed.

Lemma bind_map_err {A B : Type} P f (m : Tx D A) (k : A -> Tx D B) (Q : B -> Db D -> Prop) :
  tx_spec P (tx_bind m k) Q -> tx_spec P (tx_bind (tx_map_err f m) k) Q.
Proof.
  intros Hm s b s' HP. unfold tx_bind, tx_map_err. specialize (Hm s b s' HP).
  unfold tx_bind in Hm. destruct (m s) as [[a|e] s1]; [done|]. done.
Qed.

Lemma bind_derive {B : Type} (t : Table) q (k : DerivedChainSubmission -> Tx D B) (Q : B -> Db D -> Prop) :
  (forall x, gen_identity (derived_generation x) = derivation_identity q ->
     tx_spec (at_table t) (k x) Q) ->
  tx_spec (at_table t) (tx_bind (derive fault q) k) Q.
Proof.
  intros Hk. eapply (tx_spec_bind _ _ _ (fun x db => at_table t db /\
    gen_identity (derived_generation x) = derivation_identity q)).
  - apply tx_spec_derive. intros x db Hx Ht. split; [done|]. by eapply derive_identity.
  - intros x s b s' [Ht Hi] Hb. by eapply Hk.
Qed.

Lemma bind_load {B : Type} (t : Table) i (k : option StoredChainSubmission -> Tx D B) (Q : B -> Db D -> Prop) :
  (forall r, load_submission t i = Ok r -> tx_spec (at_table t) (k r) Q) ->
  tx_spec (at_table t) (tx_bind (tx_load fault i) k) Q.
Proof. intros Hk. apply bind_query. intros a d. apply Hk. Qed.

Lemma bind_load_present {B : Type} (t : Table) i m (k : StoredChainSubmission -> Tx D B) (Q : B -> Db D -> Prop) :
  (forall r, load_submission t i = Ok (Some r) -> tx_spec (at_table t) (k r) Q) ->
  tx_spec (at_table t) (tx_bind (tx_load_present fault i m) k) Q.
Proof.
  intros Hk. eapply (tx_spec_bind _ _ _
    (fun r db => at_table t db /\ load_submission t i = Ok (Some r))).
  - apply bind_load. intros [r|] Hr; [|apply tx_spec_fail]. apply tx_spec_ret. auto.
  - intros r s b s' [Ht Hr] Hb. by eapply Hk.
Qed.

Lemma bind_guard {B : Type} (t : Table) q m (k : unit -> Tx D B) (Q : B -> Db D -> Prop) :
  (forall d, q t d = Ok false -> tx_spec (at_table t) (k tt) Q) ->
  tx_spec (at_table t) (tx_bind (tx_guard fault q m) k) Q.
Proof.
  intros Hk. eapply (tx_spec_bind _ _ _ (fun _ db => at_table t db /\ exists d, q t d = Ok false)).
  - apply bind_query. intros [] d Hd; [apply tx_spec_fail|]. apply tx_spec_ret. eauto.
  - intros [] s b s' [Ht (d & Hd)] Hb. by eapply Hk.
Qed.

Lemma bind_when_guard {B : Type} (t : Table) (c : bool) q m (k : unit -> Tx D B) (Q : B -> Db D -> Prop) :
  tx_spec (at_table t) (k tt) Q ->
  tx_spec (at_table t) (tx_bind (tx_when c (tx_guard fault q m)) k) Q.
Proof.
  intros Hk. destruct c; [by apply bind_guard|]. exact Hk.
Qed.
End reading.

(** ** Statements as steps *)
Section step_lemmas.
Context `{Externals} `{SqliteText}.

Lemma load_submission_some t i record :
  load_submission t i = Ok (Some record) ->
  exists old, t !! submission_identity_key i = Some old /\ load_row i old = Some record.
Proof.
  unfold load_submission. destruct (t !! _) as [old|]; [|done].
  destruct (load_row i old) eqn:Hl; [|done]. intros [= <-]. eauto.
Qed.

Lemma load_submission_none t i :
  load_submission t i = Ok None -> t !! submission_identity_key i = None.
Proof. unfold load_submission. destruct (t !! _); [|done]. by case_match. Qed.

Lemma load_row_identity i old record : load_row i old = Some record -> st_identity record = i.
Proof.
  unfold load_row. intros Hl. repeat (simplify_option_eq || case_match). done.
Qed.

Lemma bind_u64_some z z' : bind_u64 z = Some z' -> z' = z.
Proof. unfold bind_u64. case_match; by intros [= <-]. Qed.

Lemma bind_opt_u64_some z z' : bind_opt_u64 z = Some z' -> z' = z.
Proof.
  destruct z as [z|]; simpl; [|by intros [= <-]].
  destruct (bind_u64 z) eqn:Hb; [|done]. apply bind_u64_some in Hb as ->. by intros [= <-].
Qed.

Lemma persist_step t t' i old record record' :
  t !! submission_identity_key i = Some old -> load_row i old = Some record ->
  evolves record record' -> persist_mutable t record' = Ok t' -> store_step t t'.
Proof.
  intros Hrow Hload Hev. pose proof (load_row_identity _ _ _ Hload) as Hi.
  unfold persist_mutable.
  destruct (bind_u64 (st_committed_post_reservations record')) as [n|] eqn:Hn; [|done].
  destruct (bind_opt_u64 (st_tracking_started_at record')) as [tr|] eqn:Htr; [|done].
  destruct (bind_opt_u64 _) as [van|] eqn:Hvan in |- *; [|done].
  destruct (bind_u64 (st_updated_at record')) as [u|] eqn:Hu; [|done].
  apply bind_u64_some in Hn as ->, Hu as ->. apply bind_opt_u64_some in Htr as ->, Hvan as ->.
  rewrite (ev_identity _ _ Hev), Hi. unfold update_row. rewrite Hrow.
  fold (written_row record' old).
  destruct (trigger_aborts _ _) eqn:Ht; [done|].
  destruct (row_ok _ _) eqn:Hok; [|done].
  destruct (conflicts _ _ _) eqn:Hc; [done|]. simpl. intros [= <-].
  eapply step_update; eauto.
Qed.

Lemma insert_row_ok re t key r t' :
  insert_row re t key r = Ok t' ->
  t !! key = None /\ row_ok key r = true /\ conflicts t key r = false /\ t' = <[key := r]> t.
Proof.
  unfold insert_row. destruct (bool_decide _) eqn:Hs; [done|].
  destruct re; [|done]. destruct (row_ok key r) eqn:Hok; [|done].
  destruct (conflicts t key r) eqn:Hc; [done|]. simpl. intros [= <-].
  apply bool_decide_eq_false in Hs. split_and!; try done. by apply eq_None_not_Some.
Qed.

Lemma insert_fresh_step re t record t' :
  has_predecessor (st_identity record) t = false ->
  insert_fresh re t record = Ok t' -> store_step t t'.
Proof.
  intros Hp. unfold insert_fresh.
  destruct (bind_u64 (st_committed_post_reservations record)) as [n|]; [|done].
  destruct (bind_u64 (st_created_at record)) as [c|]; [|done].
  destruct (insert_row _ _ _ _) as [t1|] eqn:Hi; [|done]. intros [= <-].
  apply insert_row_ok in Hi as (Hn & Hok & Hc & ->).
  apply step_insert; try done. exists record. eauto 10.
Qed.

Lemma insert_imported_step re t record h t' :
  target (st_identity record) = Delegation ->
  has_predecessor (st_identity record) t = false ->
  insert_imported_delegation re t record h = Ok t' -> store_step t t'.
Proof.
  intros Htg Hp. unfold insert_imported_delegation.
  destruct (bind_u64 (st_created_at record)) as [c|]; [|done].
  destruct (insert_row _ _ _ _) as [t1|] eqn:Hi; [|done]. intros [= <-].
  apply insert_row_ok in Hi as (Hn & Hok & Hc & ->).
  apply step_insert; try done. exists record. eauto 10.
Qed.
End step_lemmas.

(** ** Every operation is one step *)
Lemma evolves_settled r o s' p d now :
  apply_submission_observation (Some (st_state r)) o = Ok (Some s') ->
  evolves r (settle_after_transition (with_state r s') p d now).
Proof. intros Ho. split; try done; simpl; [lia|]. by eapply change_observed. Qed.

Lemma evolves_updated r o s' d now :
  apply_submission_observation (Some (st_state r)) o = Ok (Some s') ->
  evolves r (with_updated r s' d now).
Proof. intros Ho. split; try done; simpl; [lia|]. by eapply change_observed. Qed.

Lemma next_reservation_some n m : next_reservation n = Some m -> m = n + 1.
Proof.
  unfold next_reservation, checked_add_u64. repeat case_match; intros; by simplify_eq.
Qed.

Lemma evolves_reserved r c d n now :
  st_state r = Recovering c d ->
  next_reservation (st_committed_post_reservations r) = Some n ->
  evolves r (with_reservation r n (Recovering None d) now).
Proof.
  intros Hs ->%next_reservation_some. split; try done; simpl; [lia|]. rewrite Hs. constructor.
Qed.

Lemma permits_ambiguous_retry_recovering s :
  permits_ambiguous_retry s = true -> exists d, s = Recovering None d.
Proof. destruct s as [|c|[c|] d|d|v|d]; simpl; try done. eauto. Qed.

Section refinement.
Context `{Externals} `{SqliteText} {D : Type} `{SubmissionDomain D}.
Context (fault : nat -> option SqlError).

Notation stepped t := (fun _ db => store_step t (db_table db)).

Lemma ret_step {A : Type} (t : Table) (a : A) : tx_spec (D:=D) (at_table t) (tx_ret a) (stepped t).
Proof. apply tx_spec_ret. intros db ->. constructor. Qed.

Lemma persist_bind_step {A : Type} (t : Table) i record record' (a : A) :
  load_submission t i = Ok (Some record) -> evolves record record' ->
  tx_spec (D:=D) (at_table t) (let* _ := tx_persist fault record' in tx_ret a) (stepped t).
Proof.
  intros Hl Hev. apply load_submission_some in Hl as (old & Hrow & Hload).
  eapply (tx_spec_bind _ _ _ (stepped t)); [|intros; by apply tx_spec_ret].
  apply tx_spec_write. intros t' db Hp Ht. rewrite Ht in Hp. by eapply persist_step.
Qed.

Lemma delete_step (t : Table) i record :
  load_submission t i = Ok (Some record) -> removable record ->
  tx_spec (D:=D) (at_table t) (tx_delete fault i) (stepped t).
Proof.
  intros Hl Hr. apply load_submission_some in Hl as (old & Hrow & Hload).
  apply tx_spec_write. intros t' db [= <-] ->. by eapply step_delete.
Qed.

Lemma normalize_step (t : Table) i record now :
  load_submission t i = Ok (Some record) ->
  tx_spec (D:=D) (at_table t) (normalize_abandoned fault record now) (stepped t).
Proof.
  intros Hl. unfold normalize_abandoned.
  destruct (apply_submission_observation _ _) as [[s'|]|e] eqn:Ho; try apply tx_spec_fail.
  apply bind_map_err. eapply persist_bind_step; [done|]. by eapply evolves_updated.
Qed.

Lemma flag_normalize_step (t : Table) i record now (f : StoredChainSubmission -> StoreAdmission) :
  load_submission t i = Ok (Some record) ->
  tx_spec (D:=D) (at_table t)
    (let* _ := tx_set_flag in let* r := normalize_abandoned fault record now in tx_ret (f r))
    (stepped t).
Proof.
  intros Hl. eapply tx_spec_bind; [apply tx_spec_flag|]. intros [].
  eapply (tx_spec_bind _ _ _ (stepped t)); [by eapply normalize_step|].
  intros r. by apply tx_spec_ret.
Qed.

Lemma bind_admission_guards {B : Type} (t : Table) i (k : unit -> Tx D B)
    (Q : B -> Db D -> Prop) :
  (has_predecessor i t = false -> tx_spec (at_table t) (k tt) Q) ->
  tx_spec (at_table t) (tx_bind (admission_guards fault i) k) Q.
Proof.
  intros Hk. eapply (tx_spec_bind _ _ _
    (fun _ db => at_table t db /\ has_predecessor i t = false)).
  - unfold admission_guards. apply bind_when_guard, bind_when_guard, bind_guard.
    intros d [= Hp]. destruct (is_delegation _); [|apply tx_spec_ret; auto].
    unfold tx_when, tx_guard. apply bind_query. intros [] d'; [intros; apply tx_spec_fail|].
    intros _. apply tx_spec_ret. auto.
  - intros [] s b s' [Ht Hp] Hb. by eapply Hk.
Qed.

Lemma admit_imported_step (t : Table) request now :
  target (req_identity request) = Delegation ->
  has_predecessor (req_identity request) t = false ->
  tx_spec (D:=D) (at_table t) (admit_imported fault request now) (stepped t).
Proof.
  intros Htg Hp. unfold admit_imported. apply bind_derive. intros x Hx.
  destruct (imported_candidate x) as [c|]; [|apply tx_spec_fail].
  apply bind_guard. intros _ _.
  eapply (tx_spec_bind _ _ _ (stepped t)); [|intros; by apply tx_spec_ret].
  apply tx_spec_write. intros t' db Hi Ht. rewrite Ht in Hi.
  eapply insert_imported_step; [..|exact Hi]; simpl; by rewrite Hx.
Qed.

Lemma reserve_fresh_step (t : Table) request x ordinal now :
  gen_identity (derived_generation x) = req_identity request ->
  has_predecessor (req_identity request) t = false ->
  tx_spec (D:=D) (at_table t)
    (let record := fresh (derived_generation x) ordinal now in
     let* _ := tx_lift (verify_batch_roster request (derived_ordered_proposal_ids x)) in
     let* _ := tx_write fault (fun t d => insert_fresh (round_row d (st_identity record)) t record) in
     tx_ret (Ready x record true)) (stepped t).
Proof.
  intros Hx Hp. simpl. apply bind_lift. intros _ _.
  eapply (tx_spec_bind _ _ _ (stepped t)); [|intros; by apply tx_spec_ret].
  apply tx_spec_write. intros t' db Hi Ht. rewrite Ht in Hi.
  eapply insert_fresh_step; [|exact Hi]. simpl. by rewrite Hx.
Qed.

(** A batch derivation carries the request's identity. *)
Definition derived_for (request : StoreAdvancementRequest)
    (o : option DerivedChainSubmission) : Prop :=
  forall x, o = Some x -> gen_identity (derived_generation x) = req_identity request.

Lemma bind_admit_batch {B : Type} (t : Table) request existing
    (k : option DerivedChainSubmission -> Tx D B) (Q : B -> Db D -> Prop) :
  (forall o, derived_for request o -> tx_spec (at_table t) (k o) Q) ->
  tx_spec (at_table t) (tx_bind (admit_batch fault request existing) k) Q.
Proof.
  intros Hk. eapply (tx_spec_bind _ _ _ (fun o db => at_table t db /\ derived_for request o)).
  - unfold admit_batch. destruct (is_batch request); [|by apply tx_spec_ret].
    apply bind_map_err, bind_derive. intros x Hx. apply bind_map_err, bind_lift.
    intros _ _. apply tx_spec_ret. intros db Ht. split; [done|]. by intros y [= <-].
  - intros o s b s' [Ht Ho] Hb. by eapply Hk.
Qed.

Lemma admit_existing_step (t : Table) request record o :
  tx_spec (D:=D) (at_table t) (admit_existing fault request record o) (stepped t).
Proof.
  unfold admit_existing.
  assert (forall x, tx_spec (D:=D) (at_table t)
    (let* _ := tx_map_err (fun e => preserve_loaded_state e (Some record))
       (tx_lift (verify_batch_roster request (derived_ordered_proposal_ids x))) in
     let* _ := tx_lift (ensure_generation record (derived_generation x)) in
     if is_terminal (st_state record) then tx_ret (Authoritative record)
     else tx_ret (Ready x record false)) (stepped t)) as Hrest.
  { intros x. apply bind_map_err, bind_lift. intros _ _. apply bind_lift. intros _ _.
    destruct (is_terminal _); apply ret_step. }
  destruct o as [x|]; [exact (Hrest x)|]. apply bind_map_err, bind_derive. auto.
Qed.

Lemma admit_new_step (t : Table) request o ordinal now :
  derived_for request o ->
  (is_imported_delegation request = true -> target (req_identity request) = Delegation) ->
  tx_spec (D:=D) (at_table t) (admit_new fault request o ordinal now) (stepped t).
Proof.
  intros Ho Himp. unfold admit_new. apply bind_admission_guards. intros Hp.
  destruct (is_imported_delegation request); [by apply admit_imported_step; auto|].
  destruct o as [x|].
  - apply (reserve_fresh_step t request x ordinal now); [by apply Ho|done].
  - apply bind_derive. intros x Hx. by apply (reserve_fresh_step t request x ordinal now).
Qed.

Lemma admit_body_step (t : Table) request work ordinal now :
  (is_imported_delegation request = true -> target (req_identity request) = Delegation) ->
  tx_spec (D:=D) (at_table t) (admit_body fault request work ordinal now) (stepped t).
Proof.
  intros Himp. unfold admit_body. apply bind_load. intros [record|] Hl; destruct work.
  - destruct (is_submitting _); [by eapply flag_normalize_step|].
    apply bind_admit_batch. intros. apply admit_existing_step.
  - destruct (is_submitting _); [by eapply flag_normalize_step|apply ret_step].
  - apply bind_admit_batch. intros o Ho. by apply admit_new_step.
  - apply ret_step.
Qed.

Lemma bind_screen_candidate {B : Type} (t : Table) i o (k : SubmissionObservation -> Tx D B)
    (Q : B -> Db D -> Prop) :
  (forall o, tx_spec (at_table t) (k o) Q) ->
  tx_spec (at_table t) (tx_bind (screen_candidate fault i o) k) Q.
Proof.
  intros Hk. eapply (tx_spec_bind _ _ _ (fun _ => at_table t)); [|done].
  destruct o; try by apply tx_spec_ret. apply bind_query. intros [] d _; by apply tx_spec_ret.
Qed.

Lemma apply_observation_body_step (t : Table) g o d now :
  tx_spec (D:=D) (at_table t) (apply_observation_body fault g o d now) (stepped t).
Proof.
  unfold apply_observation_body. apply bind_load_present. intros r Hl.
  apply bind_lift. intros _ _. apply bind_screen_candidate. clear o. intros o.
  destruct (apply_submission_observation _ o) as [[s'|]|e] eqn:Ho; try apply tx_spec_fail.
  destruct (retires_combined_generation _ _) eqn:Hret.
  - destruct (st_diagnostic _) as [d'|]; [|apply tx_spec_fail].
    unfold retires_combined_generation in Hret. simpl in Hret.
    apply andb_true_iff in Hret as [[Hrej _]%andb_true_iff Hcomb].
    destruct s'; try done.
    eapply (tx_spec_bind _ _ _ (fun _ => at_table t)); [by apply tx_spec_domain|].
    intros []. eapply (tx_spec_bind _ _ _ (stepped t)); [|intros; by apply tx_spec_ret].
    eapply delete_step; [done|]. right. eauto.
  - eapply persist_bind_step; [done|]. by eapply evolves_settled.
Qed.

Lemma reserve_ambiguous_retry_body_step (t : Table) g now :
  tx_spec (D:=D) (at_table t) (reserve_ambiguous_retry_body fault g now) (stepped t).
Proof.
  unfold reserve_ambiguous_retry_body. apply bind_load_present. intros r Hl.
  apply bind_lift. intros _ _.
  destruct (permits_ambiguous_retry _) eqn:Hp; [|apply tx_spec_fail].
  destruct (next_reservation _) as [n|] eqn:Hn; [|apply tx_spec_fail].
  apply permits_ambiguous_retry_recovering in Hp as [d Hd]. rewrite Hd.
  eapply persist_bind_step; [done|]. by eapply evolves_reserved.
Qed.

Lemma commit_confirmation_step (t : Table) i record x v now :
  load_submission t i = Ok (Some record) ->
  tx_spec (D:=D) (at_table t) (commit_confirmation fault record x v now) (stepped t).
Proof.
  intros Hl. unfold commit_confirmation.
  destruct (apply_submission_observation _ _) as [[s'|]|e] eqn:Ho; try apply tx_spec_fail.
  eapply (tx_spec_bind _ _ _ (fun _ => at_table t)); [by apply tx_spec_domain|].
  intros []. eapply persist_bind_step; [done|]. by eapply evolves_updated.
Qed.

(** The validation of a derived generation never reaches its [unreachable!]. *)
Lemma derived_validation_returns t (d : D) q x h events :
  derive_generation t d q = Ok x -> validate_hash_confirmation x h events <> None.
Proof. intros Hx. apply validation_returns. by eapply derive_batch_votes. Qed.

Lemma confirm_committed_body_step (t : Table) q g c tx ok now :
  tx_spec (D:=D) (at_table t) (confirm_committed_body fault q g c tx ok now) (stepped t).
Proof.
  unfold confirm_committed_body. apply bind_load_present. intros r Hl.
  apply bind_lift. intros _ _. apply bind_map_err, bind_derive. intros x _.
  destruct (negb (bool_decide _)); [apply tx_spec_fail|].
  destruct (negb ok); [apply ret_step|].
  destruct (if is_imported_delegation q then _ else _) as [[v|e]|]; try apply tx_spec_fail.
  by eapply commit_confirmation_step.
Qed.

Lemma confirm_tree_body_step (t : Table) q g van ps ok now :
  tx_spec (D:=D) (at_table t) (confirm_tree_body fault q g van ps ok now) (stepped t).
Proof.
  unfold confirm_tree_body. apply bind_load_present. intros r Hl.
  apply bind_lift. intros _ _. apply bind_map_err, bind_derive. intros x _.
  apply bind_map_err, bind_lift. intros _ _.
  destruct (negb (bool_decide _)); [apply tx_spec_fail|].
  destruct (negb ok); [apply ret_step|].
  destruct (from_tree van ps); [|apply tx_spec_fail].
  by eapply commit_confirmation_step.
Qed.

Lemma reserve_recovery_retry_body_step (t : Table) q auth now :
  tx_spec (D:=D) (at_table t) (reserve_recovery_retry_body fault q auth now) (stepped t).
Proof.
  unfold reserve_recovery_retry_body.
  destruct (negb (bool_decide _)); [apply tx_spec_fail|].
  apply bind_load_present. intros r Hl.
  destruct (negb (bool_decide _)); [apply tx_spec_fail|].
  apply bind_map_err, bind_derive. intros x _. apply bind_map_err, bind_lift. intros _ _.
  apply bind_lift. intros _ _.
  destruct (st_state r) as [| |c d| | |] eqn:Hs; try apply tx_spec_fail.
  destruct (bool_decide _); [|apply tx_spec_fail].
  destruct (next_reservation _) as [n|] eqn:Hn; [|apply tx_spec_fail].
  eapply persist_bind_step; [done|]. by eapply evolves_reserved.
Qed.

(** A transaction whose body is one step is one step, and none at all when it
    fails. *)
Lemma transact_step {A : Type} (m : Tx D A) (db : Db D) :
  tx_spec (at_table (db_table db)) m (stepped (db_table db)) ->
  let '(r, _, db') := transact fault m db in
  store_step (db_table db) (db_table db') /\ (is_ok r = false -> db' = db).
Proof.
  intros Hm. pose proof (transact_spec fault m db (stepped (db_table db))) as Ht.
  destruct (transact fault m db) as [[[a|e] fl] db'].
  - split; [|done]. apply Ht. intros s b s' Hdb Hb. eapply Hm; [|exact Hb].
    unfold at_table. by rewrite <- Hdb.
  - assert (db' = db) as ->; [|split; [constructor|done]].
    apply Ht. intros s b s' Hdb Hb. eapply Hm; [|exact Hb]. unfold at_table. by rewrite <- Hdb.
Qed.

Lemma transact__step {A : Type} (m : Tx D A) (db : Db D) :
  tx_spec (at_table (db_table db)) m (stepped (db_table db)) ->
  let '(ok, db') := ran (transact_ fault m db) in
  store_step (db_table db) (db_table db') /\ (ok = false -> db' = db).
Proof.
  intros Hm. apply transact_step in Hm. unfold ran, transact_.
  by destruct (transact fault m db) as [[r fl] db'].
Qed.
End refinement.

(** ** Invariants along steps *)
Lemma load_row_state i r record :
  load_row i r = Some record -> c_state r = state_name (st_state record).
Proof.
  unfold load_row. intros Hl. simplify_option_eq. clear -Heqo2.
  unfold load_state in Heqo2. repeat case_decide; simplify_option_eq; try done;
    repeat case_match; simplify_eq; done.
Qed.

Lemma written_row_state r old : c_state (written_row r old) = state_name (st_state r).
Proof. unfold written_row, mutable_row, mutable_columns. by destruct (st_state r). Qed.

Lemma state_change_unresolved s n s' n' :
  state_change s n s' n' -> unresolved_name (state_name s') = true ->
  unresolved_name (state_name s) = true.
Proof. intros [? o ? ? Ho|]; [|done]. inv_transition Ho; done. Qed.

Lemma exists_row_false p t k r : exists_row p t = false -> t !! k = Some r -> p k r = false.
Proof.
  unfold exists_row. intros Hf Hr. apply elem_of_map_to_list in Hr.
  destruct (p k r) eqn:Hp; [|done]. exfalso.
  assert (existsb (fun kr => p kr.1 kr.2) (map_to_list t) = true) as Ht; [|congruence].
  apply existsb_exists. exists (k, r). split; [by apply list_elem_of_In|done].
Qed.

Lemma conflicts_false t key r k other :
  conflicts t key r = false -> k <> key -> t !! k = Some other -> unique_conflict r other = false.
Proof.
  intros Hc Hk Ho. eapply exists_row_false in Hc; [|exact Ho]. cbv beta in Hc.
  by rewrite bool_decide_eq_false_2 in Hc.
Qed.

Lemma same_hash_true a b : same_hash a b = true <-> exists h, a = Some h /\ b = Some h.
Proof.
  destruct a as [a|], b as [b|]; simpl; try (naive_solver).
  rewrite bool_decide_eq_true. naive_solver.
Qed.

Lemma owns_hash_candidate h r :
  c_confirmed_transaction_hash r = None \/
  c_confirmed_transaction_hash r = c_candidate_transaction_hash r ->
  owns_hash h r = true -> c_candidate_transaction_hash r = Some h.
Proof.
  unfold owns_hash. rewrite orb_true_iff, !same_hash_true.
  intros Hc [(x & Hx & Hh)|(x & Hx & Hh)]; simplify_eq; [done|].
  destruct Hc as [Hc|Hc]; rewrite Hc in Hx; done.
Qed.

Lemma unique_conflict_candidate a b h :
  unique_conflict a b = false -> c_candidate_transaction_hash a = Some h ->
  c_candidate_transaction_hash b = Some h -> False.
Proof.
  unfold unique_conflict. rewrite !orb_false_iff. intros [[_ Hs] _] Ha Hb.
  assert (same_hash (c_candidate_transaction_hash a) (c_candidate_transaction_hash b) = true);
    [|congruence]. apply same_hash_true. eauto.
Qed.

(** Writing a row the schema and the indexes accept, into a bundle whose other
    rows allow its state, keeps the invariant. *)
Lemma table_invariant_write t key new :
  table_invariant t -> row_ok key new = true -> names_target new -> conflicts t key new = false ->
  (c_confirmed_transaction_hash new = None \/
   c_confirmed_transaction_hash new = c_candidate_transaction_hash new) ->
  (unresolved_name (c_state new) = true -> forall k r, k <> key -> t !! k = Some r ->
     same_bundle new r -> unresolved_name (c_state r) = false) ->
  table_invariant (<[key := new]> t).
Proof.
  intros [Hrows Hbatch Hconf Hun Hh] Hok Hnb Hc Hcf Hb.
  assert (forall k r h, k <> key -> t !! k = Some r -> owns_hash h new = true ->
    owns_hash h r = true -> False) as Hown.
  { intros k r h Hk Hr Hn Ho. eapply (unique_conflict_candidate new r h).
    - by eapply conflicts_false.
    - by apply owns_hash_candidate.
    - apply owns_hash_candidate; [by eapply Hconf|done]. }
  split.
  - intros k r [[<- <-]|[_ Hr]]%lookup_insert_Some; eauto.
  - intros k r [[<- <-]|[_ Hr]]%lookup_insert_Some; eauto.
  - intros k r [[<- <-]|[_ Hr]]%lookup_insert_Some; eauto.
  - intros k1 k2 r1 r2 Hne [[<- <-]|[Hk1 H1]]%lookup_insert_Some
      [[<- <-]|[Hk2 H2]]%lookup_insert_Some Hsb Hu; [done|by eauto| |by eauto].
    destruct (unresolved_name (c_state new)) eqn:Hn; [|done].
    rewrite (Hb eq_refl k1 r1) in Hu; [done|done|done|].
    unfold same_bundle in *. intuition congruence.
  - intros k1 k2 r1 r2 h Hne [[<- <-]|[Hk1 H1]]%lookup_insert_Some
      [[<- <-]|[Hk2 H2]]%lookup_insert_Some Ho; [done| | |by eauto].
    + destruct (owns_hash h r2) eqn:Ho2; [|done]. exfalso. eauto.
    + destruct (owns_hash h new) eqn:Ho2; [|done]. exfalso. eauto.
Qed.

Lemma written_row_confirmed r old :
  c_confirmed_transaction_hash (written_row r old) = None \/
  c_confirmed_transaction_hash (written_row r old) = c_candidate_transaction_hash (written_row r old).
Proof. unfold written_row, mutable_row, mutable_columns. destruct (st_state r); auto. Qed.

Lemma written_row_bundle r old : same_bundle old (written_row r old).
Proof. unfold written_row, mutable_row, mutable_columns. by destruct (st_state r). Qed.

Lemma written_row_target r old : names_target old -> names_target (written_row r old).
Proof. unfold names_target, written_row, mutable_row, mutable_columns. by destruct (st_state r). Qed.

Section invariant_steps.
Context `{Externals}.

Lemma inserted_row_target i r : inserted_row i r -> names_target r.
Proof.
  intros (record & <- & [(n & c & ->)|(_ & h & c & ->)]); unfold names_target.
  - unfold fresh_row, target_columns. destruct (target _); simpl; split; done || set_solver.
  - simpl. split; [done|set_solver].
Qed.

Lemma inserted_row_shape i r :
  inserted_row i r ->
  c_confirmed_transaction_hash r = None /\ forall r', same_bundle r r' -> in_bundle i r' = true.
Proof.
  intros (record & <- & [(n & c & ->)|(_ & h & c & ->)]).
  - unfold fresh_row, same_bundle, in_bundle.
    destruct (target_columns _) as [[? ?] ?]. simpl. split; [done|].
    intros r' (<- & <- & <- & <-). by rewrite !bool_decide_eq_true_2.
  - unfold imported_row, same_bundle, in_bundle. simpl. split; [done|].
    intros r' (<- & <- & <- & <-). by rewrite !bool_decide_eq_true_2.
Qed.

Lemma store_step_invariant t t' : store_step t t' -> table_invariant t -> table_invariant t'.
Proof.
  intros [ |i r Hn Hi Hok Hp Hc|i old new rec rec' Ho Hl Hev -> Htr Hok Hc|i old rec Ho Hl Hr] Ht.
  - done.
  - pose proof (inserted_row_target _ _ Hi).
    apply inserted_row_shape in Hi as [Hcf Hin]. apply table_invariant_write; auto.
    intros _ k r' Hk Hr' Hsb. eapply exists_row_false in Hp; [|exact Hr'].
    cbv beta in Hp. rewrite Hin in Hp by done. done.
  - apply table_invariant_write; eauto using written_row_confirmed, written_row_target, ti_targets.
    rewrite written_row_state. intros Hu k r Hk Hr Hsb.
    refine (ti_unresolved t Ht (submission_identity_key i) k old r _ Ho Hr _ _); [congruence| |].
    + pose proof (written_row_bundle rec' old) as Hw. unfold same_bundle in *.
      destruct_and!. split_and!; congruence.
    + rewrite (load_row_state _ _ _ Hl). eapply state_change_unresolved; [apply Hev|done].
  - destruct Ht as [H1 Hb H2 H3 H4]. split.
    + intros k r [_ Hk]%lookup_delete_Some. eauto.
    + intros k r [_ Hk]%lookup_delete_Some. eauto.
    + intros k r [_ Hk]%lookup_delete_Some. eauto.
    + intros k1 k2 r1 r2 Hne [_ ?]%lookup_delete_Some [_ ?]%lookup_delete_Some. eauto.
    + intros k1 k2 r1 r2 h Hne [_ ?]%lookup_delete_Some [_ ?]%lookup_delete_Some. eauto.
Qed.

Lemma store_step_row t t' k r r' :
  store_step t t' -> t !! k = Some r -> t' !! k = Some r' -> row_evolution r r'.
Proof.
  assert (forall r, row_evolution r r) as Hrefl by (intros; split; try done; lia).
  intros [ |i x Hn Hi Hok Hp Hc|i old new rec rec' Ho Hl Hev -> Htr Hok Hc|i old rec Ho Hl Hr] Hk.
  - intros. by simplify_eq.
  - intros [[<- <-]|[_ Hk']]%lookup_insert_Some; by simplify_eq.
  - intros [[<- <-]|[_ Hk']]%lookup_insert_Some; [|by simplify_eq]. simplify_eq.
    unfold trigger_aborts in Htr. apply orb_false_iff in Htr as [Hres Htrack].
    split.
    + split; [apply written_row_bundle|].
      unfold written_row, mutable_row, mutable_columns. by destruct (st_state rec').
    + by destruct (written_row_columns rec' old) as (-> & _).
    + by destruct (written_row_columns rec' old) as (_ & _ & _ & -> & _).
    + lia.
    + intros z Hz. rewrite Hz in Htrack. by case_bool_decide.
  - intros [_ Hk']%lookup_delete_Some. by simplify_eq.
Qed.
End invariant_steps.

Lemma is_submitting_true s : is_submitting s = true -> s = Submitting.
Proof. by destruct s. Qed.

Section operations.
Context `{Externals} `{SqliteText} {D : Type} `{SubmissionDomain D}.

Lemma validate_target_imported request :
  validate_target request = Ok tt -> is_imported_delegation request = true ->
  target (req_identity request) = Delegation.
Proof.
  unfold validate_target, is_imported_delegation.
  destruct (req_derivation request); try done. by destruct (target _).
Qed.

Lemma admit_step fault q w n now (db : Db D) :
  let '(ok, db') := ran (store_admit fault q w n now db) in
  store_step (db_table db) (db_table db') /\ (ok = false -> db' = db).
Proof.
  unfold store_admit. destruct (validate_target q) as [[]|e] eqn:Hv; [|by split; [constructor|]].
  assert (tx_spec (at_table (db_table db)) (admit_body fault q w n now)
            (fun _ db' => store_step (db_table db) (db_table db'))) as Hb.
  { apply admit_body_step. by apply validate_target_imported. }
  apply (transact_step fault) in Hb.
  destruct (transact fault _ db) as [[[a|e] fl] db']; unfold ran; simpl in *; done.
Qed.

Lemma remove_fresh_step fault g (db : Db D) :
  let '(ok, db') := ran (remove_fresh_reservation fault g db) in
  store_step (db_table db) (db_table db') /\ (ok = false -> db' = db).
Proof.
  apply transact__step. apply bind_load_present. intros r Hl. apply bind_lift. intros _ _.
  destruct (is_submitting _) eqn:Hs; [|apply tx_spec_fail].
  eapply delete_step; [done|]. left. by apply is_submitting_true.
Qed.

Lemma run_operation_step fault op (db : Db D) :
  let '(ok, db') := run_operation fault op db in
  store_step (db_table db) (db_table db') /\ (ok = false -> db' = db).
Proof.
  destruct op; simpl.
  - apply admit_step.
  - apply remove_fresh_step.
  - apply transact__step, apply_observation_body_step.
  - apply transact__step, reserve_ambiguous_retry_body_step.
  - apply transact__step, apply_observation_body_step.
  - apply transact__step, confirm_committed_body_step.
  - apply transact__step, confirm_tree_body_step.
  - apply transact__step, reserve_recovery_retry_body_step.
Qed.

Lemma empty_table_invariant : table_invariant ∅.
Proof. split; intros *; rewrite ?lookup_empty; done. Qed.

(** C1 (refinement): whatever fails inside it, every store operation either
    performs exactly one abstract step on the submission table, or reports an
    error and leaves the whole database as it was. *)
Theorem store_operation_refines fault op (db : Db D) :
  store_step (db_table db) (db_table (run_operation fault op db).2) /\
  ((run_operation fault op db).1 = false -> (run_operation fault op db).2 = db).
Proof.
  pose proof (run_operation_step fault op db) as Hs. by destruct (run_operation fault op db).
Qed.

Lemma run_history_invariant h (db : Db D) :
  table_invariant (db_table db) -> table_invariant (db_table (run_history h db)).
Proof.
  revert db. induction h as [|[fault op] h IH]; intros db Hdb; [done|].
  simpl. apply IH. pose proof (run_operation_step fault op db) as Hs.
  destruct (run_operation fault op db) as [ok db']. eapply store_step_invariant; [apply Hs|done].
Qed.

(** C2 (table invariant): after any history of operations and faults, starting
    from an empty table, every row passes the schema, no bundle has two
    unresolved submissions, and no transaction hash belongs to two rows. *)
Theorem history_keeps_invariant h (d : D) :
  table_invariant (db_table (run_history h (mk_db ∅ d))).
Proof. apply run_history_invariant, empty_table_invariant. Qed.

(** Immutable parts: a row that is there before and after an operation
    keeps its identity columns, generation digest and creation time; its
    reservation count never drops and its tracking window never restarts. *)
Theorem operation_keeps_row fault op (db : Db D) k r r' :
  db_table db !! k = Some r -> db_table (run_operation fault op db).2 !! k = Some r' ->
  row_evolution r r'.
Proof.
  intros Hr Hr'. pose proof (run_operation_step fault op db) as Hs.
  destruct (run_operation fault op db) as [ok db']. by eapply store_step_row; [apply Hs|..].
Qed.
End operations.

(** ** Finished submissions *)
Lemma state_change_terminal s n s' n' :
  is_terminal s = true -> state_change s n s' n' -> s' = s.
Proof.
  intros Ht Hc. inversion Hc as [? o ? ? Ho|]; subst; [|done].
  inv_transition Ho; simpl in Ht; done.
Qed.

Lemma terminal_not_removable record : is_terminal (st_state record) = true -> ~ removable record.
Proof.
  intros Ht [Hs|(_ & o & d & Ho)]; [by rewrite Hs in Ht|].
  destruct (st_state record) as [| | | | |]; try done; inv_transition Ho.
Qed.

Lemma finished_name_terminal s : finished_name (state_name s) = is_terminal s.
Proof. by destruct s. Qed.

Section finished.
Context `{Externals} `{SqliteText} {D : Type} `{SubmissionDomain D}.

Lemma store_step_finished t t' k r :
  store_step t t' -> t !! k = Some r -> finished_name (c_state r) = true ->
  exists r', t' !! k = Some r' /\ c_state r' = c_state r.
Proof.
  intros [ |i x Hn Hi Hok Hp Hc|i old new rec rec' Ho Hl Hev -> Htr Hok Hc|i old rec Ho Hl Hr]
    Hk Hf; [by eauto|..];
    (destruct (decide (k = submission_identity_key i)) as [->|Hne];
      [|eexists; split; [by rewrite ?lookup_insert_ne, ?lookup_delete_ne by congruence|done]]).
  - congruence.
  - simplify_eq. rewrite lookup_insert_eq. eexists. split; [done|].
    rewrite (load_row_state _ _ _ Hl) in *. rewrite finished_name_terminal in Hf.
    by rewrite written_row_state, (state_change_terminal _ _ _ _ Hf (ev_state _ _ Hev)).
  - simplify_eq. rewrite (load_row_state _ _ _ Hl), finished_name_terminal in Hf.
    by apply terminal_not_removable in Hf.
Qed.

(** C38 (permanence): a submission recorded as confirmed, rejected or submitted
    without a hash stays recorded as such through every later history. *)
Theorem finished_submission_is_permanent h (db : Db D) k r :
  db_table db !! k = Some r -> finished_name (c_state r) = true ->
  exists r', db_table (run_history h db) !! k = Some r' /\ c_state r' = c_state r.
Proof.
  unfold run_history. revert db r. induction h as [|[fault op] h IH]; intros db r Hr Hf; [by eauto|].
  simpl. pose proof (run_operation_step fault op db) as Hs.
  destruct (run_operation fault op db) as [ok db']. destruct Hs as [Hs _].
  destruct (store_step_finished _ _ _ _ Hs Hr Hf) as (r1 & Hr1 & He).
  destruct (IH db' r1 Hr1) as (r2 & Hr2 & He2); [by rewrite He|]. exists r2. by rewrite He2.
Qed.
End finished.

(** ** The theorems at concrete inputs *)
Lemma example_reserved_row :
  db_table example_db0 !! submission_identity_key example_identity = Some example_row.
Proof. vm_compute. reflexivity. Qed.

Lemma operation_keeps_row_witness :
  exists r', db_table example_db1 !! submission_identity_key example_identity = Some r' /\
    c_state r' = "tracking"%string /\ row_evolution example_row r'.
Proof.
  eexists. split; [vm_compute; reflexivity|]. split; [reflexivity|].
  eapply (@operation_keeps_row example_externals example_text unit example_domain no_faults
    (OpClassifyPost example_generation (OUsableCandidateHash example_hash) 120) example_db0
    (submission_identity_key example_identity)).
  - vm_compute. reflexivity.
  - vm_compute. reflexivity.
Defined.

Lemma finished_submission_is_permanent_witness :
  c_state example_confirmed_row = "confirmed"%string /\
  exists r', db_table (@run_history example_externals example_text unit example_domain
      [(no_faults, OpRemoveFresh example_generation)] example_db2)
    !! submission_identity_key example_identity = Some r' /\
    c_state r' = c_state example_confirmed_row.
Proof.
  split; [vm_compute; reflexivity|].
  apply (@finished_submission_is_permanent example_externals example_text unit example_domain
    [(no_faults, OpRemoveFresh example_generation)] example_db2
    (submission_identity_key example_identity) example_confirmed_row).
  - vm_compute. reflexivity.
  - vm_compute. reflexivity.
Defined.
