(* ===== verification/Planning.v ===== *)
(** * What planners read of a submission

    Models [chain_submission/planning.rs]: the transaction hash the lifecycle
    associates with a target, read by one query per target or from one
    snapshot of a round. Reading does not fail here; a failing statement is
    returned as it is. The theorem shows that on every table the store can
    produce the snapshot exists and answers every target as its own query
    does. *)

From stdpp Require Import base gmap strings list numbers countable.
From S2P Require Import Prelude Identity Outcome Lifecycle Record Rows Store StoreProofs.
Local Open Scope Z_scope.
Local Open Scope voting_scope.

(** ** One query per target *)
Inductive PlanningTarget :=
| PDelegation
| PVote (proposal_id : Z)
| PVoteBatch (ordered_batch_digest : list Z).

(** [COALESCE(confirmed_transaction_hash, candidate_transaction_hash)]. *)
Definition lifecycle_hash (r : Row) : option (list Z) :=
  match c_confirmed_transaction_hash r with
  | Some h => Some h
  | None => c_candidate_transaction_hash r
  end.

Definition in_round (wallet_id round_id : string) (r : Row) : bool :=
  bool_decide (c_round_id r = round_id) && bool_decide (c_wallet_id r = wallet_id).

(** The target's part of the WHERE clause; NULL selects nothing. *)
Definition serves_target (target : PlanningTarget) (r : Row) : bool :=
  match target with
  | PDelegation => bool_decide (c_kind r ∈ ["delegation"; "delegate_and_cast_vote_batch"]%string)
  | PVote p => bool_decide (c_kind r = "vote"%string) && bool_decide (c_proposal_id r = Some p)
  | PVoteBatch d =>
      bool_decide (c_kind r ∈ ["vote_batch"; "delegate_and_cast_vote_batch"]%string)
      && bool_decide (c_ordered_batch_digest r = Some d)
  end.

Definition table_rows (t : Table) : list Row := map snd (map_to_list t).

(** The rows of [SELECT DISTINCT ... LIMIT 2]. *)
Definition selected_hashes (t : Table) (wallet_id round_id : string) (bundle_index : Z)
    (target : PlanningTarget) : list (list Z) :=
  take 2 (remove_dups (omap (fun r =>
    if in_round wallet_id round_id r && bool_decide (c_bundle_index r = bundle_index)
       && serves_target target r
    then lifecycle_hash r else None) (table_rows t))).

Section planning.
Context `{Externals}.

Definition lifecycle_transaction_hash (t : Table) (wallet_id round_id : string)
    (bundle_index : Z) (target : PlanningTarget) : option string :=
  match selected_hashes t wallet_id round_id bundle_index target with
  | [hash] => Some (hex_encode hash)
  | _ => None
  end.

(** ** One snapshot of a round *)
Inductive LifecycleHashKey :=
| KDelegation (bundle_index : Z)
| KVote (bundle_index proposal_id : Z)
| KVoteBatch (bundle_index : Z) (ordered_batch_digest : list Z).

#[global] Instance LifecycleHashKey_eq_dec : EqDecision LifecycleHashKey.
Proof. solve_decision. Defined.

#[global] Instance LifecycleHashKey_countable : Countable LifecycleHashKey.
Proof.
  refine (inj_countable'
    (fun k => match k with
              | KDelegation b => inl b
              | KVote b p => inr (inl (b, p))
              | KVoteBatch b d => inr (inr (b, d))
              end)
    (fun s => match s with
              | inl b => KDelegation b
              | inr (inl (b, p)) => KVote b p
              | inr (inr (b, d)) => KVoteBatch b d
              end) _); by intros [].
Defined.

Notation LifecycleTransactionHashes := (gmap LifecycleHashKey (gset (list Z))).

Definition target_key (bundle_index : Z) (target : PlanningTarget) : LifecycleHashKey :=
  match target with
  | PDelegation => KDelegation bundle_index
  | PVote p => KVote bundle_index p
  | PVoteBatch d => KVoteBatch bundle_index d
  end.

(** [LifecycleTransactionHashes::hash]. *)
Definition snapshot_hash (hashes : LifecycleTransactionHashes) (bundle_index : Z)
    (target : PlanningTarget) : option string :=
  match hashes !! target_key bundle_index target with
  | Some set =>
      if bool_decide (size set = 1%nat) then hex_encode <$> head (elements set) else None
  | None => None
  end.

(** [as u32]. *)
Definition as_u32 (z : Z) : Z := z mod 4294967296.

Definition row_key (r : Row) : result LifecycleHashKey VotingError :=
  let b := as_u32 (c_bundle_index r) in
  if bool_decide (c_kind r = "delegation"%string) then Ok (KDelegation b)
  else
    let unexpected :=
      VInternal (lit "chain submission row has unexpected shape for kind " ++ lit (c_kind r)) in
    if bool_decide (c_kind r = "vote"%string) then
      match c_proposal_id r with
      | Some p => Ok (KVote b (as_u32 p))
      | None => Err unexpected
      end
    else if bool_decide (c_kind r ∈ ["vote_batch"; "delegate_and_cast_vote_batch"]%string) then
      match c_ordered_batch_digest r with
      | Some d =>
          if bool_decide (length d = 32%nat) then Ok (KVoteBatch b d)
          else Err (VInternal (lit "stored ordered batch digest is not 32 bytes"))
      | None => Err unexpected
      end
    else Err unexpected.

(** [entry(key).or_default().insert(hash)]. *)
Definition add_hash (key : LifecycleHashKey) (hash : list Z) (m : LifecycleTransactionHashes)
    : LifecycleTransactionHashes := <[key := default ∅ (m !! key) ∪ {[hash]}]> m.

Definition add_row (m : LifecycleTransactionHashes) (r : Row) (hash : list Z)
    : result LifecycleTransactionHashes VotingError :=
  let? key := row_key r in
  let m := if bool_decide (c_kind r = "delegate_and_cast_vote_batch"%string)
           then add_hash (KDelegation (as_u32 (c_bundle_index r))) hash m else m in
  Ok (add_hash key hash m).

Fixpoint add_rows (wallet_id round_id : string) (m : LifecycleTransactionHashes)
    (rows : list Row) : result LifecycleTransactionHashes VotingError :=
  match rows with
  | [] => Ok m
  | r :: rows =>
      match (if in_round wallet_id round_id r then lifecycle_hash r else None) with
      | Some hash =>
          let? m := add_row m r hash in
          add_rows wallet_id round_id m rows
      | None => add_rows wallet_id round_id m rows
      end
  end.

Definition lifecycle_transaction_hashes (t : Table) (wallet_id round_id : string)
    : result LifecycleTransactionHashes VotingError :=
  add_rows wallet_id round_id ∅ (table_rows t).

(** ** Hashes to report

    The authoritative row, then the projection column the caller's query
    read. *)
Definition delegation_transaction_hash (t : Table) (stored : result (option string) VotingError)
    (wallet_id round_id : string) (bundle_index : Z) : result (option string) VotingError :=
  match lifecycle_transaction_hash t wallet_id round_id bundle_index PDelegation with
  | Some hash => Ok (Some hash)
  | None => stored
  end.

Definition vote_transaction_hash (t : Table)
    (stored : Z -> result (option string) VotingError) (wallet_id round_id : string)
    (bundle_index proposal_id : Z) : result (option string) VotingError :=
  match lifecycle_transaction_hash t wallet_id round_id bundle_index (PVote proposal_id) with
  | Some hash => Ok (Some hash)
  | None => stored proposal_id
  end.

Definition vote_batch_transaction_hash (t : Table)
    (stored : Z -> result (option string) VotingError) (wallet_id round_id : string)
    (bundle_index : Z) (ordered_batch_digest : list Z) (anchor_proposal_id : Z)
    : result (option string) VotingError :=
  match lifecycle_transaction_hash t wallet_id round_id bundle_index
          (PVoteBatch ordered_batch_digest) with
  | Some hash => Ok (Some hash)
  | None => vote_transaction_hash t stored wallet_id round_id bundle_index anchor_proposal_id
  end.
End planning.

(** ** The snapshot answers as the query *)
Definition unique_of (l : list (list Z)) : option (list Z) :=
  match take 2 (remove_dups l) with [hash] => Some hash | _ => None end.

Lemma unique_of_spec l h : unique_of l = Some h <-> forall x, x ∈ l <-> x = h.
Proof.
  unfold unique_of. pose proof (NoDup_remove_dups l) as Hn.
  assert (forall x, x ∈ remove_dups l <-> x ∈ l) as Hin by (intros; apply elem_of_remove_dups).
  destruct (remove_dups l) as [|a [|b rest]]; simpl.
  - split; [done|]. intros Hl. assert (h ∈ l) as Hh by by apply Hl.
    apply Hin in Hh. by apply elem_of_nil in Hh.
  - split.
    + intros [= ->] x. rewrite <- Hin. set_solver.
    + intros Hl. f_equal. apply Hl, Hin. set_solver.
  - split; [done|]. intros Hl. inversion_clear Hn as [|? ? Ha _].
    assert (a = h) as -> by (apply Hl, Hin; set_solver).
    assert (b = h) as -> by (apply Hl, Hin; set_solver). set_solver.
Qed.

Definition unique_in (s : gset (list Z)) : option (list Z) :=
  if bool_decide (size s = 1%nat) then head (elements s) else None.

Lemma unique_in_spec s h : unique_in s = Some h <-> forall x, x ∈ s <-> x = h.
Proof.
  unfold unique_in. case_bool_decide as Hs.
  - apply size_1_elem_of in Hs as [y Hy]. apply leibniz_equiv in Hy as ->.
    rewrite elements_singleton. simpl. split; [intros [= ->]; set_solver|].
    intros Hx. f_equal. apply Hx. set_solver.
  - split; [done|]. intros Hx. exfalso. apply Hs.
    assert (s = {[h]}) as -> by (apply set_eq; intros x; rewrite Hx; set_solver).
    apply size_singleton.
Qed.

(** The columns of a row the store wrote. *)
Lemma row_shape k r :
  row_ok k r = true -> names_target r ->
  0 <= c_bundle_index r <= u32_max /\
  ((c_kind r = "delegation"%string /\ c_proposal_id r = None) \/
   (c_kind r = "vote"%string /\ exists p, c_proposal_id r = Some p /\ 1 <= p <= 50) \/
   (c_kind r ∈ ["vote_batch"; "delegate_and_cast_vote_batch"]%string /\
    exists d, c_ordered_batch_digest r = Some d /\ length d = 32%nat)).
Proof.
  unfold row_ok, row_checks, names_target, u32_max. cbn [forallb]. rewrite !andb_true_iff.
  intros (_ & Hb & Hkind & _ & _ & _ & _ & _ & _ & _ & Hcols & _) [Hv Hn].
  split; [unfold tri_between in Hb; simpl in Hb; destruct (_ && _) eqn:?; [lia|done]|].
  unfold tri_in in Hkind. simpl in Hkind. case_bool_decide as Hk; [|done].
  unfold check_kind_columns, tri_eq, tri_in, tri_between, has_length, is_null in Hcols.
  rewrite !elem_of_cons, elem_of_nil in Hk.
  destruct Hk as [Hk|[Hk|[Hk|[Hk|[]]]]]; rewrite Hk in *.
  - left. split; [done|]. by destruct (c_proposal_id r), (c_ordered_batch_digest r).
  - right; left. split; [done|]. destruct (Hv eq_refl) as [p Hp]. rewrite Hp in *. exists p.
    split; [done|]. simpl in Hcols. destruct (1 <=? p) eqn:?, (p <=? 50) eqn:?; [lia|..];
      by destruct (c_ordered_batch_digest r).
  - right; right. split; [set_solver|]. destruct (Hn ltac:(set_solver)) as [d Hd].
    rewrite Hd in *. exists d. split; [done|]. simpl in Hcols.
    destruct (c_proposal_id r); case_bool_decide; done.
  - right; right. split; [set_solver|]. destruct (Hn ltac:(set_solver)) as [d Hd].
    rewrite Hd in *. exists d. split; [done|]. simpl in Hcols.
    destruct (c_proposal_id r); case_bool_decide; done.
Qed.

(** The keys under which a row's hash is filed. *)
Definition filed_under (r : Row) (key : LifecycleHashKey) : Prop :=
  row_key r = Ok key \/
  (c_kind r = "delegate_and_cast_vote_batch"%string /\ key = KDelegation (as_u32 (c_bundle_index r))).

Definition planning_target_wf (target : PlanningTarget) : Prop :=
  match target with PVote p => is_u32 p | _ => True end.

Lemma as_u32_small z : 0 <= z <= u32_max -> as_u32 z = z.
Proof. unfold as_u32, u32_max. intros. apply Z.mod_small. lia. Qed.

Lemma row_key_ok k r : row_ok k r = true -> names_target r -> exists key, row_key r = Ok key.
Proof.
  intros Hok Hn. destruct (row_shape k r Hok Hn) as [_ Hs]. unfold row_key.
  destruct Hs as [[-> _]|[(-> & p & -> & _)|(Hk & d & -> & Hd)]]; [by eexists|by eexists|].
  rewrite !elem_of_cons, elem_of_nil in Hk. destruct Hk as [->|[->|[]]]; simpl;
    rewrite bool_decide_eq_true_2 by done; by eexists.
Qed.

Lemma filed_under_serves k r bundle target :
  row_ok k r = true -> names_target r -> is_u32 bundle -> planning_target_wf target ->
  filed_under r (target_key bundle target) <->
  bool_decide (c_bundle_index r = bundle) && serves_target target r = true.
Proof.
  intros Hok Hn Hb Ht. destruct (row_shape k r Hok Hn) as [Hi Hs]. unfold is_u32 in *.
  unfold filed_under, row_key. rewrite (as_u32_small (c_bundle_index r)) by done.
  rewrite andb_true_iff, bool_decide_eq_true.
  destruct Hs as [[Hk Hp]|[(Hk & p & Hp & Hr)|(Hk & d & Hd & Hl)]].
  - rewrite Hk. simpl. destruct target; simpl; rewrite Hk; simpl; naive_solver.
  - rewrite Hk, Hp. simpl. rewrite (as_u32_small p) by (unfold u32_max; lia).
    destruct target; simpl; rewrite Hk, ?Hp; simpl; rewrite ?bool_decide_eq_true; naive_solver.
  - rewrite !elem_of_cons, elem_of_nil in Hk.
    destruct Hk as [Hk|[Hk|[]]]; rewrite Hk, Hd; simpl;
      rewrite bool_decide_eq_true_2 by done;
      destruct target; simpl; rewrite Hk, ?Hd; simpl;
      rewrite ?bool_decide_eq_true; naive_solver.
Qed.

Lemma add_hash_elem key hash m key' h :
  h ∈ default ∅ (add_hash key hash m !! key') <->
  h ∈ default ∅ (m !! key') \/ (key' = key /\ h = hash).
Proof.
  unfold add_hash. destruct (decide (key = key')) as [->|Hne].
  - rewrite lookup_insert_eq. simpl. set_solver.
  - rewrite lookup_insert_ne by done. naive_solver.
Qed.

Lemma add_row_spec k m r hash :
  row_ok k r = true -> names_target r ->
  exists m', add_row m r hash = Ok m' /\
    forall key h, h ∈ default ∅ (m' !! key) <->
      h ∈ default ∅ (m !! key) \/ (filed_under r key /\ h = hash).
Proof.
  intros Hok Hn. destruct (row_key_ok k r Hok Hn) as [key0 Hkey].
  unfold add_row, filed_under. rewrite Hkey. eexists. split; [done|].
  intros key h. rewrite add_hash_elem. case_bool_decide; [rewrite add_hash_elem|]; naive_solver.
Qed.

Lemma add_rows_spec wallet round rows : forall m,
  Forall (fun r => exists k, row_ok k r = true /\ names_target r) rows ->
  exists m', add_rows wallet round m rows = Ok m' /\
    forall key h, h ∈ default ∅ (m' !! key) <->
      h ∈ default ∅ (m !! key) \/
      exists r, r ∈ rows /\ in_round wallet round r = true /\
        lifecycle_hash r = Some h /\ filed_under r key.
Proof.
  induction rows as [|r rows IH]; intros m Hrows; simpl.
  - exists m. split; [done|]. set_solver.
  - apply Forall_cons_iff in Hrows as [(k & Hok & Hn) Hrows].
    destruct (in_round wallet round r) eqn:Hin.
    2: { destruct (IH m Hrows) as (m' & -> & Hm). exists m'. split; [done|].
         intros key h. rewrite Hm. setoid_rewrite elem_of_cons. naive_solver congruence. }
    destruct (lifecycle_hash r) as [hash|] eqn:Hh.
    + destruct (add_row_spec k m r hash Hok Hn) as (m1 & -> & H1).
      destruct (IH m1 Hrows) as (m' & -> & Hm). exists m'. split; [done|].
      intros key h. rewrite Hm, H1. setoid_rewrite elem_of_cons. naive_solver.
    + destruct (IH m Hrows) as (m' & -> & Hm). exists m'. split; [done|].
      intros key h. rewrite Hm. setoid_rewrite elem_of_cons. naive_solver congruence.
Qed.

Lemma elem_of_table_rows t r : r ∈ table_rows t <-> exists k, t !! k = Some r.
Proof.
  unfold table_rows. rewrite list_elem_of_fmap. split.
  - intros ([k r'] & -> & Hin%elem_of_map_to_list). by exists k.
  - intros [k Hk%elem_of_map_to_list]. by exists (k, r).
Qed.

Lemma iff_eq_iff (A B C : Prop) : (A <-> B) -> (A <-> C) <-> (B <-> C).
Proof. tauto. Qed.

Section agreement.
Context `{Externals}.

Lemma snapshot_hash_unique m bundle target :
  snapshot_hash m bundle target
  = hex_encode <$> unique_in (default ∅ (m !! target_key bundle target)).
Proof.
  unfold snapshot_hash, unique_in. destruct (m !! _) as [s|]; simpl; [by case_bool_decide|done].
Qed.

(** Planning snapshot: on every table the store can produce, the snapshot
    of a round is read without error and reports for every target of every
    bundle the hash that target's own query reports. *)
Theorem planning_snapshot_agrees t wallet round :
  table_invariant t ->
  exists hashes, lifecycle_transaction_hashes t wallet round = Ok hashes /\
    forall bundle target, is_u32 bundle -> planning_target_wf target ->
      snapshot_hash hashes bundle target
      = lifecycle_transaction_hash t wallet round bundle target.
Proof.
  intros Ht.
  destruct (add_rows_spec wallet round (table_rows t) ∅) as (m & Hm & Hspec).
  { apply Forall_forall. intros r [k Hk]%list_elem_of_In%elem_of_table_rows. exists k.
    split; [by eapply ti_rows|by eapply ti_targets]. }
  exists m. split; [done|]. intros bundle target Hb Hw.
  rewrite snapshot_hash_unique. unfold lifecycle_transaction_hash, selected_hashes.
  set (l := omap _ (table_rows t)).
  transitivity (hex_encode <$> unique_of l).
  2: { unfold unique_of. by destruct (take 2 (remove_dups l)) as [|? [|]]. }
  f_equal. apply option_eq. intros h. rewrite unique_in_spec, unique_of_spec.
  apply forall_proper. intros x. apply iff_eq_iff. rewrite Hspec, lookup_empty. unfold l.
  rewrite list_elem_of_omap. split.
  - intros [Hx|(r & Hr & Hin & Hh & Hf)]; [by apply elem_of_empty in Hx|]. exists r. split; [done|].
    apply elem_of_table_rows in Hr as [k Hk].
    eapply filed_under_serves in Hf; [|by eapply ti_rows|by eapply ti_targets|done|done].
    by rewrite <- andb_assoc, Hin, Hf.
  - intros (r & Hr & Hh). right. exists r. split; [done|].
    apply elem_of_table_rows in Hr as [k Hk].
    rewrite <- andb_assoc in Hh. destruct (in_round wallet round r); [|done].
    destruct (_ && _) eqn:Hs in Hh; [|done]. split_and!; [done|done|].
    eapply filed_under_serves; [by eapply ti_rows|by eapply ti_targets|done..].
Qed.
End agreement.

(** A tracked vote of round 01...01. *)
Definition example_tracked : Table :=
  db_table (@run_history example_externals example_text unit example_domain
    [(no_faults, OpAdmit (request_vote example_identity) true 1 100);
     (no_faults, OpClassifyPost example_generation (OUsableCandidateHash example_hash) 120)]
    (mk_db ∅ tt)).

Definition example_round : string := hex_string (vote_round_id example_identity).

Lemma planning_snapshot_agrees_witness :
  exists hashes,
    lifecycle_transaction_hashes example_tracked "wallet" example_round = Ok hashes /\
    @snapshot_hash example_externals hashes 0 (PVote 3) = Some (hex_string example_hash).
Proof.
  destruct (@planning_snapshot_agrees example_externals example_tracked "wallet" example_round)
    as (hashes & Hh & Ha).
  - apply run_history_invariant, empty_table_invariant.
  - exists hashes. split; [exact Hh|]. rewrite Ha; [vm_compute; reflexivity| |];
      unfold planning_target_wf, is_u32, u32_max; lia.
Defined.
