(* ===== verification/Coordinator.v ===== *)
(** * The submission coordinator

    Models [chain_submission/coordinator.rs]: one bounded advancement pass of
    a submission. The pass is a program over a world (the database and a log
    of what was sent) that asks an environment for everything it cannot
    decide: the clock, the host's cancellation and epoch, the answers of the
    chain, interrupted waits and storage faults. Every question is answered by
    the tick at which it is asked, so the theorems hold for every behaviour of
    the outside world. A [panic!], an index out of bounds and a reached
    [unreachable!] are the outcome [Panicked]. *)

From stdpp Require Import base gmap strings list numbers.
From S2P Require Import Prelude Identity Outcome Lifecycle Record Rows Store.
Local Open Scope Z_scope.
Local Open Scope voting_scope.

(** ** Policy *)
Definition MAX_POST_ATTEMPTS_PER_PASS : nat := 8.
Definition MAX_RETRY_BACKOFF : Z := 600 * 1000000000.

(** Durations are in nanoseconds. *)
Record CoordinatorPolicy := mk_policy {
  tracking_window_seconds : Z;
  maximum_post_attempts : nat;
  retry_backoffs : list Z
}.

Definition policy_new (tracking_window : Z) (attempts : nat) (backoffs : list Z)
    : result CoordinatorPolicy ChainSubmissionFailure :=
  let seconds := tracking_window / 1000000000 in
  if (seconds =? 0) || negb (tracking_window =? seconds * 1000000000)
     || bool_decide (attempts = 0)%nat
     || bool_decide (MAX_POST_ATTEMPTS_PER_PASS < attempts)%nat
     || negb (bool_decide (length backoffs + 1 = attempts)%nat)
     || existsb (fun delay => (delay =? 0) || (MAX_RETRY_BACKOFF <? delay)) backoffs
  then Err (without_state FInvalidInput (lit
    "chain coordinator requires a nonzero whole-second tracking window, one to eight attempts, and one bounded nonzero backoff between attempts"))
  else Ok (mk_policy seconds attempts backoffs).

(** ** What the outside world answers *)
Inductive ChainRecoveryMode := StatusOnly | ExactTree.
#[global] Instance ChainRecoveryMode_eq_dec : EqDecision ChainRecoveryMode.
Proof. solve_decision. Defined.

Inductive ChainRejectionKind := RejNullifierAlreadySpent | RejOther.
#[global] Instance ChainRejectionKind_eq_dec : EqDecision ChainRejectionKind.
Proof. solve_decision. Defined.

(** [ChainTransportError], reduced to its message. *)
Inductive PostAttemptOutcome :=
| Accepted (candidate : CandidateTransactionHash)
| PostRejected (code : Z) (kind : ChainRejectionKind) (diagnostic : ChainSubmissionDiagnostic)
    (candidate : option CandidateTransactionHash)
| LocalFailure (diagnostic : ChainSubmissionDiagnostic)
| DefinitelyUnsent (error_message : text)
| NotDispatchedByServer
| PossiblyDispatched (diagnostic : ChainSubmissionDiagnostic).

Inductive TransactionStatusObservation :=
| StatusPending
| CommittedSuccess (committed : CommittedTransaction)
| CommittedFailure (committed : CommittedTransaction).

Inductive LookupFailure :=
| LookupTransport (error_message : text)
| LookupProtocol (diagnostic : ChainSubmissionDiagnostic).

Inductive Interruption := Cancelled | StaleEpoch.

Inductive LookupProgress :=
| LookupInterrupted
| LookupObserved (o : TransactionStatusObservation)
| LookupFailed (failure : LookupFailure).

(** The race between a POST and an interruption: the interruption tells
    whether dispatch had become possible. *)
Inductive PostRace :=
| RaceInterrupted (reason : Interruption) (dispatch_possible : bool)
| RaceFinished (outcome : PostAttemptOutcome).

Inductive RecoveryScanFailure :=
| ScanTransport (error_message : text)
| ScanInvalid (diagnostic : ChainSubmissionDiagnostic)
| ScanAmbiguousLayout (diagnostic : ChainSubmissionDiagnostic)
| ScanInterrupted.

(** A scan's verdict; a no-match becomes an authorization for the locked
    operation that asked for it. *)
Inductive ScanVerdict :=
| ScanMatch (final_van_position : Z) (vote_commitment_positions : list Z)
| ScanNoMatch.

Record Environment := mk_environment {
  env_acquire : nat -> option ChainSubmissionFailure;
  env_clock : nat -> result Z ChainSubmissionFailure;
  env_cancelled : nat -> bool;
  env_epoch : nat -> Z;
  env_register : nat -> option ChainSubmissionFailure;
  env_post : nat -> PostRace;
  env_lookup : nat -> LookupProgress;
  env_scan : nat -> result ScanVerdict RecoveryScanFailure;
  env_wait : nat -> option Interruption;
  env_fault : nat -> nat -> option SqlError;
  env_endpoint_count : nat
}.

(** ** The world and its programs *)

(** A call of the chain's submission endpoint: for which generation, at which
    endpoint, whether it may have been dispatched, and the submission table at
    that moment. *)
Record PostEvent := mk_post {
  post_generation : ChainSubmissionGeneration;
  post_endpoint : nat;
  post_dispatched : bool;
  post_table : Table
}.

Record World (D : Type) := mk_world {
  w_tick : nat;
  w_db : Db D;
  w_posts : list PostEvent;
  w_history : list ((nat -> option SqlError) * StoreOperation)
}.
Arguments mk_world {D} _ _ _ _.
Arguments w_tick {D} _.
Arguments w_db {D} _.
Arguments w_posts {D} _.
Arguments w_history {D} _.

Inductive outcome (A : Type) :=
| Done (a : A)
| Raised (e : ChainSubmissionFailure)
| Panicked
| OutOfFuel.
Arguments Done {A} _.
Arguments Raised {A} _.
Arguments Panicked {A}.
Arguments OutOfFuel {A}.

Definition Co (D A : Type) : Type := World D -> outcome A * World D.

Definition co_ret {D A} (a : A) : Co D A := fun w => (Done a, w).
Definition co_raise {D A} (e : ChainSubmissionFailure) : Co D A := fun w => (Raised e, w).
Definition co_panic {D A} : Co D A := fun w => (Panicked, w).
Definition co_fuel {D A} : Co D A := fun w => (OutOfFuel, w).
Definition co_bind {D A B} (m : Co D A) (k : A -> Co D B) : Co D B := fun w =>
  match m w with
  | (Done a, w') => k a w'
  | (Raised e, w') => (Raised e, w')
  | (Panicked, w') => (Panicked, w')
  | (OutOfFuel, w') => (OutOfFuel, w')
  end.
Definition co_lift {D A} (r : result A ChainSubmissionFailure) : Co D A := fun w =>
  (match r with Ok a => Done a | Err e => Raised e end, w).
Definition co_map_err {D A} (f : ChainSubmissionFailure -> ChainSubmissionFailure)
    (m : Co D A) : Co D A := fun w =>
  match m w with
  | (Raised e, w') => (Raised (f e), w')
  | r => r
  end.

(** One question to the environment. *)
Definition co_ask {D A} (answer : nat -> A) : Co D A := fun w =>
  (Done (answer (w_tick w)),
   mk_world (S (w_tick w)) (w_db w) (w_posts w) (w_history w)).

Declare Scope co_scope.
Delimit Scope co_scope with co.
Notation "'do!' x ':=' m 'in' k" := (co_bind m (fun x => k))
  (at level 10, x pattern, m at level 100, k at level 200) : co_scope.
Local Open Scope co_scope.

(** A vector index out of range panics. *)
Definition co_index {D A} (l : list A) (i : nat) : Co D A :=
  match l !! i with
  | Some a => co_ret a
  | None => co_panic
  end.

(** ** Small helpers of the coordinator *)
Definition after_dispatch_message (r : Interruption) : string :=
  match r with
  | Cancelled => "submission was cancelled after dispatch could not be excluded"
  | StaleEpoch => "host operation epoch changed after dispatch could not be excluded"
  end.

Definition interrupted_without_state (r : Interruption)
    : result ChainSubmissionResult ChainSubmissionFailure :=
  match r with
  | Cancelled => Ok RCancelled
  | StaleEpoch => Err (without_state FInvalidInput
      (lit "host operation epoch changed before request dispatch"))
  end.

Inductive AmbiguousRetryReservation :=
| RetryReserved (r : StoredChainSubmission)
| RetryInterrupted (r : StoredChainSubmission).

Inductive RecoveryScan :=
| RsMatch (final_van_position : Z) (vote_commitment_positions : list Z)
| RsNoMatch (authorization : RecoveryRetryAuthorization)
| RsInterrupted.

Definition is_retryable_dispatch_ambiguity (r : StoredChainSubmission) : bool :=
  permits_ambiguous_retry (st_state r).

Definition returned_candidate_is_unusable (r : StoredChainSubmission) : bool :=
  match st_state r with Recovering None _ => true | _ => false end.

Definition lookup_diagnostic (f : LookupFailure) : ChainSubmissionDiagnostic :=
  match f with
  | LookupProtocol d => d
  | LookupTransport m => from_redacted_message ReconciliationPending m
  end.

Definition lookup_failure (f : LookupFailure) (s : ChainSubmissionState)
    : ChainSubmissionFailure :=
  match f with
  | LookupProtocol d => with_durable_state FProtocol s (diag_message d)
  | LookupTransport m => with_durable_state FTransport s m
  end.

(** [usize::try_from(reservations).unwrap_or(MAX).saturating_sub(1) % count]. *)
Definition endpoint_index (reservations : Z) (count : nat) : nat :=
  (Z.to_nat (Z.max (reservations - 1) 0) mod count)%nat.

(** Whether a finished attempt may have reached the chain. *)
Definition may_have_dispatched (o : PostAttemptOutcome) : bool :=
  match o with
  | Accepted _ | PostRejected _ _ _ _ | PossiblyDispatched _ => true
  | LocalFailure _ | DefinitelyUnsent _ | NotDispatchedByServer => false
  end.

Section coordinator.
Context `{Externals} `{SqliteText} {D : Type} `{SubmissionDomain D}.
Variable env : Environment.
Variable policy : CoordinatorPolicy.

(** The arguments every step of one pass shares. *)
Variable request : StoreAdvancementRequest.
Variable recovery : ChainRecoveryMode.
Variable operation_epoch : Z.

Definition interruption_at (t : nat) : option Interruption :=
  if env_cancelled env t then Some Cancelled
  else if env_epoch env t =? operation_epoch then None else Some StaleEpoch.

Definition interruption : Co D (option Interruption) := co_ask interruption_at.

Definition now_seconds : Co D Z :=
  do! r := co_ask (env_clock env) in co_lift r.

(** A store call: runs in its own transaction with the faults of this tick. *)
Definition co_store {A} (op : StoreOperation)
    (f : (nat -> option SqlError) -> Db D -> result A ChainSubmissionFailure * Db D)
    : Co D A := fun w =>
  let fault := env_fault env (w_tick w) in
  let '(r, db) := f fault (w_db w) in
  (match r with Ok a => Done a | Err e => Raised e end,
   mk_world (S (w_tick w)) db (w_posts w) (w_history w ++ [(fault, op)])).

Definition s_admit (work_allowed : bool) (ordinal now : Z) : Co D StoreAdmission :=
  co_store (OpAdmit request work_allowed ordinal now)
    (fun f => store_admit f request work_allowed ordinal now).
Definition s_remove_fresh (g : ChainSubmissionGeneration) : Co D unit :=
  co_store (OpRemoveFresh g) (fun f => remove_fresh_reservation f g).
Definition s_classify (g : ChainSubmissionGeneration) (o : SubmissionObservation) (now : Z)
    : Co D StoredChainSubmission :=
  co_store (OpClassifyPost g o now) (fun f => classify_post f g o now).
Definition s_reserve_ambiguous (g : ChainSubmissionGeneration) (now : Z)
    : Co D StoredChainSubmission :=
  co_store (OpReserveAmbiguousRetry g now) (fun f => reserve_ambiguous_retry f g now).
Definition s_reconcile (g : ChainSubmissionGeneration) (o : SubmissionObservation)
    (d : option ChainSubmissionDiagnostic) (now : Z) : Co D StoredChainSubmission :=
  co_store (OpReconcile g o d now) (fun f => reconcile f g o d now).
Definition s_confirm_committed (g : ChainSubmissionGeneration)
    (candidate : CandidateTransactionHash) (committed : CommittedTransaction)
    (allowed : bool) (now : Z) : Co D ConfirmationCommit :=
  co_store (OpConfirmCommitted request g candidate committed allowed now)
    (fun f => confirm_committed f request g candidate committed allowed now).
Definition s_confirm_tree (g : ChainSubmissionGeneration) (van : Z) (ps : list Z)
    (allowed : bool) (now : Z) : Co D ConfirmationCommit :=
  co_store (OpConfirmTree request g van ps allowed now)
    (fun f => Store.confirm_tree f request g van ps allowed now).
Definition s_reserve_recovery (auth : RecoveryRetryAuthorization) (now : Z)
    : Co D StoredChainSubmission :=
  co_store (OpReserveRecoveryRetry request auth now)
    (fun f => reserve_recovery_retry f request auth now).

Definition co_public_result (r : StoredChainSubmission) : Co D ChainSubmissionResult :=
  co_lift (public_result r).

(** [with_durable_state(error.kind(), state, error.message())]. *)
Definition as_durable (s : ChainSubmissionState) (e : ChainSubmissionFailure)
    : ChainSubmissionFailure := with_durable_state (fail_kind e) s (fail_message e).

Definition as_possible_dispatch (e : ChainSubmissionFailure) : ChainSubmissionFailure :=
  with_known_possible_dispatch (fail_kind e) (fail_message e).

Definition classify_dispatched_post (g : ChainSubmissionGeneration)
    (o : SubmissionObservation) : Co D StoredChainSubmission :=
  do! now := co_map_err as_possible_dispatch now_seconds in
  co_map_err as_possible_dispatch (s_classify g o now).

Definition co_remove_fresh_reservation (g : ChainSubmissionGeneration) : Co D unit :=
  do! _ := co_map_err (as_durable SSubmitting) now_seconds in
  co_map_err (attach_state SSubmitting) (s_remove_fresh g).

Definition reconcile_with_durable_state (g : ChainSubmissionGeneration)
    (o : SubmissionObservation) (d : option ChainSubmissionDiagnostic)
    (s : ChainSubmissionState) : Co D StoredChainSubmission :=
  do! now := co_map_err (attach_state s) now_seconds in
  co_map_err (attach_state s) (s_reconcile g o d now).

Definition reserve_ambiguous_retry_after_backoff (g : ChainSubmissionGeneration)
    (reserved : StoredChainSubmission) : Co D AmbiguousRetryReservation :=
  do! interrupted := co_ask (env_wait env) in
  match interrupted with
  | Some _ => co_ret (RetryInterrupted reserved)
  | None =>
      let s := st_durable_state reserved in
      do! now := co_map_err (attach_state s) now_seconds in
      do! r := co_map_err (attach_state s) (s_reserve_ambiguous g now) in
      co_ret (RetryReserved r)
  end.

Definition tracking_expired_at (r : StoredChainSubmission) (now : Z) : Co D bool :=
  match st_tracking_started_at r with
  | None => co_raise (with_durable_state FInvariantViolation (st_durable_state r)
      (lit "Tracking record has no immutable tracking-start timestamp"))
  | Some started => co_ret ((now <? started)
      || (tracking_window_seconds policy <=? saturating_sub_u64 now started))
  end.

Definition tracking_expired (r : StoredChainSubmission) : Co D bool :=
  do! now := co_map_err (as_durable (st_durable_state r)) now_seconds in
  tracking_expired_at r now.

(** [submit_to_endpoint] in its race with an interruption. The imported
    delegation never reaches the network. *)
Definition submit_to_endpoint (derived : DerivedChainSubmission)
    (reserved : StoredChainSubmission) : Co D PostRace :=
  let g := derived_generation derived in
  let log := fun (r : PostRace) (dispatched : bool) (w : World D) =>
    (Done r, mk_world (S (w_tick w)) (w_db w)
       (w_posts w ++ [mk_post g (endpoint_index (st_committed_post_reservations reserved)
          (env_endpoint_count env)) dispatched (db_table (w_db w))]) (w_history w)) in
  let send : Co D PostRace := fun w =>
    match env_post env (w_tick w) with
    | RaceInterrupted reason false =>
        (Done (RaceInterrupted reason false),
         mk_world (S (w_tick w)) (w_db w) (w_posts w) (w_history w))
    | RaceInterrupted reason true => log (RaceInterrupted reason true) true w
    | RaceFinished o => log (RaceFinished o) (may_have_dispatched o) w
    end in
  (* the endpoint index is a remainder by the endpoint count *)
  if bool_decide (env_endpoint_count env = 0)%nat then co_panic else
  match derived_request derived, target (gen_identity g) with
  | QImportedDelegation _, _ => fun w =>
      (Done match env_post env (w_tick w) with
            | RaceInterrupted reason _ => RaceInterrupted reason false
            | RaceFinished _ => RaceFinished (LocalFailure
                (from_redacted_message InvalidProtocolResponse
                  (lit "a capability-imported delegation cannot be dispatched by the voter")))
            end, mk_world (S (w_tick w)) (w_db w) (w_posts w) (w_history w))
  | (QDelegation _ | QVote _), _ => send
  | QDelegateAndVoteBatch _, (VoteBatch _ | DelegateAndVoteBatch _) => send
  | QVoteBatch _, VoteBatch _ => send
  | _, _ => co_panic
  end.

Definition commit_result (c : ConfirmationCommit) : Co D ChainSubmissionResult :=
  match c with CommitInterrupted r | CommitConfirmed r => co_public_result r end.

(** [commit_allowed] is sampled inside the transaction; the sample is a
    question of its own here. *)
Definition co_confirm_tree (derived : DerivedChainSubmission) (van : Z) (ps : list Z)
    : Co D ChainSubmissionResult :=
  do! now := co_map_err (as_durable SRecovering) now_seconds in
  do! interrupted := interruption in
  let allowed := match interrupted with None => true | Some _ => false end in
  do! committed := co_map_err (attach_state SRecovering)
    (s_confirm_tree (derived_generation derived) van ps allowed now) in
  commit_result committed.

Definition confirm (derived : DerivedChainSubmission) (candidate : CandidateTransactionHash)
    (tx : CommittedTransaction) (s : ChainSubmissionState) : Co D ChainSubmissionResult :=
  do! now := co_map_err (as_durable s) now_seconds in
  do! interrupted := interruption in
  let allowed := match interrupted with None => true | Some _ => false end in
  do! committed := co_map_err (attach_state s)
    (s_confirm_committed (derived_generation derived) candidate tx allowed now) in
  commit_result committed.

Definition finish_inconclusive_tracking (derived : DerivedChainSubmission)
    (r : StoredChainSubmission) (d : option ChainSubmissionDiagnostic)
    : Co D StoredChainSubmission :=
  do! now := co_map_err (as_durable (st_durable_state r)) now_seconds in
  do! expired := tracking_expired_at r now in
  let diagnostic := from_redacted_message KTrackingWindowExpired
    (lit "finite candidate tracking window expired without a definitive result") in
  if expired : bool
  then reconcile_with_durable_state (derived_generation derived)
         (OTrackingWindowExpired diagnostic) (Some diagnostic) (st_durable_state r)
  else reconcile_with_durable_state (derived_generation derived)
         OCandidatePending d (st_durable_state r).

Definition scan_tree (derived : DerivedChainSubmission)
    (candidate : option CandidateTransactionHash) : Co D RecoveryScan :=
  do! scanned := co_ask (env_scan env) in
  match scanned with
  | Ok (ScanMatch van ps) => co_ret (RsMatch van ps)
  | Ok ScanNoMatch => co_ret (RsNoMatch (mk_authorization (req_identity request)
      (gen_digest (derived_generation derived)) candidate))
  | Err ScanInterrupted => co_ret RsInterrupted
  | Err (ScanInvalid d | ScanAmbiguousLayout d) =>
      do! _ := reconcile_with_durable_state (derived_generation derived)
        OContinueRecovery (Some d) SRecovering in
      co_raise (with_durable_state FProtocol SRecovering (diag_message d))
  | Err (ScanTransport m) =>
      do! _ := reconcile_with_durable_state (derived_generation derived)
        OContinueRecovery (Some (from_redacted_message ReconciliationPending m)) SRecovering in
      co_raise (with_durable_state FTransport SRecovering m)
  end.

Definition end_hashless (derived : DerivedChainSubmission) : Co D ChainSubmissionResult :=
  do! r := classify_dispatched_post (derived_generation derived)
    (OSubmittedWithoutHash (from_redacted_message NullifierAlreadySpent
      (lit "vote chain reported nullifier already spent after ambiguous dispatch"))) in
  co_public_result r.

Definition settle_nullifier_spent_after_dispatch (derived : DerivedChainSubmission)
    (current : StoredChainSubmission) : Co D ChainSubmissionResult :=
  match recovery with
  | StatusOnly => end_hashless derived
  | ExactTree =>
      do! scan := scan_tree derived None in
      match scan with
      | RsMatch van ps => co_confirm_tree derived van ps
      | RsNoMatch _ => end_hashless derived
      | RsInterrupted => co_public_result current
      end
  end.

(** The text a definite non-send reports. *)
Definition not_dispatched_message (o : PostAttemptOutcome) : text :=
  match o with
  | DefinitelyUnsent m => m
  | _ => lit "vote-chain request body timed out before server broadcast"
  end.

(** [next d r i]: continue the attempt loop of [submit_reserved_attempts] at
    attempt [i] with reservation [r]. *)
Definition Continue : Type :=
  DerivedChainSubmission -> StoredChainSubmission -> nat -> Co D ChainSubmissionResult.

(** The part of [submit_recovery_retry] after a POST that stays ambiguous. *)
Definition after_ambiguous_retry (next : Continue) (derived : DerivedChainSubmission)
    (ambiguous : StoredChainSubmission) (used : nat) : Co D ChainSubmissionResult :=
  if bool_decide (used + 1 = maximum_post_attempts policy)%nat
  then co_public_result ambiguous
  else
    do! interrupted := interruption in
    match interrupted with
    | Some _ => co_public_result ambiguous
    | None =>
        do! _ := co_index (retry_backoffs policy) used in
        do! reservation := reserve_ambiguous_retry_after_backoff
          (derived_generation derived) ambiguous in
        match reservation with
        | RetryReserved r => next derived r (used + 1)%nat
        | RetryInterrupted r => co_public_result r
        end
    end.

(** How [submit_recovery_retry] treats the outcome of its POST. *)
Definition recovery_retry_outcome (next : Continue) (derived : DerivedChainSubmission)
    (reserved : StoredChainSubmission) (used : nat) (o : PostAttemptOutcome)
    : Co D ChainSubmissionResult :=
  let g := derived_generation derived in
  match o with
  | Accepted candidate =>
      do! r := classify_dispatched_post g (OUsableCandidateHash candidate) in
      if returned_candidate_is_unusable r then after_ambiguous_retry next derived r used
      else co_public_result r
  | PossiblyDispatched d =>
      do! r := classify_dispatched_post g (OPossiblyDispatched d) in
      after_ambiguous_retry next derived r used
  | PostRejected _ kind d _ =>
      if has_unresolved_dispatch (st_state reserved)
         && bool_decide (kind = RejNullifierAlreadySpent)
      then settle_nullifier_spent_after_dispatch derived reserved
      else
        do! r := classify_dispatched_post g (ODefiniteRejection d) in
        co_raise (with_durable_state FProtocol (st_durable_state r) (diag_message d))
  | DefinitelyUnsent _ | NotDispatchedByServer =>
      let message := not_dispatched_message o in
      do! _ := reconcile_with_durable_state g ODefinitelyNotDispatched
        (Some (from_redacted_message ReconciliationPending message)) SRecovering in
      co_raise (with_durable_state FTransport SRecovering message)
  | LocalFailure d =>
      do! _ := reconcile_with_durable_state g OContinueRecovery (Some d) SRecovering in
      co_raise (with_durable_state FProtocol SRecovering (diag_message d))
  end.

Definition register_in_flight : Co D (option ChainSubmissionFailure) :=
  co_ask (env_register env).

(** The ambiguity an interruption leaves once dispatch was possible. *)
Definition interrupted_dispatch (reason : Interruption) : PostAttemptOutcome :=
  PossiblyDispatched (from_redacted_message AmbiguousDispatch
    (lit (after_dispatch_message reason))).

Definition submit_recovery_retry (next : Continue) (derived : DerivedChainSubmission)
    (reserved : StoredChainSubmission) (used : nat) : Co D ChainSubmissionResult :=
  do! interrupted := interruption in
  match interrupted with
  | Some _ => co_public_result reserved
  | None =>
      do! refused := register_in_flight in
      match refused with
      | Some e => co_raise (as_durable SRecovering e)
      | None =>
          do! race := submit_to_endpoint derived reserved in
          match race with
          | RaceInterrupted reason false => co_public_result reserved
          | RaceInterrupted reason true =>
              recovery_retry_outcome next derived reserved used (interrupted_dispatch reason)
          | RaceFinished o => recovery_retry_outcome next derived reserved used o
          end
      end
  end.

(** Reserve the POST a complete no-match scan authorizes, and send it. *)
Definition retry_after_no_match (next : Continue) (derived : DerivedChainSubmission)
    (r : StoredChainSubmission) (auth : RecoveryRetryAuthorization) (used : nat)
    : Co D ChainSubmissionResult :=
  do! interrupted := interruption in
  match interrupted with
  | Some _ => co_public_result r
  | None =>
      do! now := co_map_err (as_durable SRecovering) now_seconds in
      do! reserved := co_map_err (attach_state (st_durable_state r))
        (s_reserve_recovery auth now) in
      submit_recovery_retry next derived reserved used
  end.

Definition recover_if_enabled (next : Continue) (derived : DerivedChainSubmission)
    (r : StoredChainSubmission) (used : nat) : Co D ChainSubmissionResult :=
  match st_state r with
  | Recovering candidate _ =>
      if bool_decide (recovery = StatusOnly) || is_imported_delegation request
      then co_public_result r
      else
        do! interrupted := interruption in
        match interrupted with
        | Some _ => co_public_result r
        | None =>
            do! scan := scan_tree derived candidate in
            match scan with
            | RsMatch van ps => co_confirm_tree derived van ps
            | RsInterrupted => co_public_result r
            | RsNoMatch auth =>
                if bool_decide (maximum_post_attempts policy <= used)%nat
                then co_public_result r
                else
                  do! interrupted := interruption in
                  match interrupted with
                  | Some _ => co_public_result r
                  | None =>
                      match used with
                      | O => retry_after_no_match next derived r auth used
                      | S previous =>
                          do! _ := co_index (retry_backoffs policy) previous in
                          do! waited := co_ask (env_wait env) in
                          match waited with
                          | Some _ => co_public_result r
                          | None => retry_after_no_match next derived r auth used
                          end
                      end
                  end
            end
        end
  | _ => co_public_result r
  end.

Definition committed_failure_is_terminal (derived : DerivedChainSubmission) : bool :=
  is_imported_delegation request || is_combined (target (gen_identity (derived_generation derived))).

(** The [Tracking] arm of [reconcile_existing]. *)
Definition reconcile_tracking (next : Continue) (derived : DerivedChainSubmission)
    (r : StoredChainSubmission) (candidate : CandidateTransactionHash) (used : nat)
    (looked : LookupProgress) : Co D ChainSubmissionResult :=
  let g := derived_generation derived in
  match looked with
  | LookupInterrupted => co_public_result r
  | LookupObserved StatusPending =>
      do! r := finish_inconclusive_tracking derived r None in
      recover_if_enabled next derived r used
  | LookupFailed failure =>
      do! expired := tracking_expired r in
      if expired : bool then
        do! r := finish_inconclusive_tracking derived r (Some (lookup_diagnostic failure)) in
        recover_if_enabled next derived r used
      else
        do! _ := reconcile_with_durable_state g OCandidatePending
          (Some (lookup_diagnostic failure)) STracking in
        co_raise (lookup_failure failure STracking)
  | LookupObserved (CommittedFailure _) =>
      let d := from_redacted_message ChainRejected
        (lit "tracked vote-chain transaction committed unsuccessfully") in
      let o := if committed_failure_is_terminal derived
               then OTerminalCandidateFailure d else OCandidateCommittedFailure d in
      do! r := reconcile_with_durable_state g o (Some d) STracking in
      co_public_result r
  | LookupObserved (CommittedSuccess tx) => confirm derived candidate tx STracking
  end.

(** The [Recovering] arm of [reconcile_existing] with a candidate. *)
Definition reconcile_candidate (next : Continue) (derived : DerivedChainSubmission)
    (r : StoredChainSubmission) (candidate : CandidateTransactionHash) (used : nat)
    (looked : LookupProgress) : Co D ChainSubmissionResult :=
  let g := derived_generation derived in
  match looked with
  | LookupInterrupted => co_public_result r
  | LookupObserved (CommittedSuccess tx) => confirm derived candidate tx SRecovering
  | LookupObserved (CommittedFailure _) =>
      if committed_failure_is_terminal derived then
        let d := from_redacted_message ChainRejected
          (lit (if is_imported_delegation request
                then "imported vote-chain transaction committed unsuccessfully"
                else "combined vote-chain transaction committed unsuccessfully")) in
        do! r := reconcile_with_durable_state g (OTerminalCandidateFailure d) (Some d) SRecovering in
        co_public_result r
      else
        do! r := reconcile_with_durable_state g
          (OCandidateCommittedFailure (from_redacted_message ChainRejected
             (lit "recovery candidate committed unsuccessfully"))) None SRecovering in
        recover_if_enabled next derived r used
  | LookupObserved StatusPending =>
      do! r := reconcile_with_durable_state g OCandidatePending None SRecovering in
      recover_if_enabled next derived r used
  | LookupFailed failure =>
      do! r := reconcile_with_durable_state g OContinueRecovery
        (Some (lookup_diagnostic failure)) SRecovering in
      recover_if_enabled next derived r used
  end.

Definition reconcile_existing (next : Continue) (derived : DerivedChainSubmission)
    (r : StoredChainSubmission) (used : nat) : Co D ChainSubmissionResult :=
  match st_state r with
  | Tracking candidate =>
      do! interrupted := interruption in
      match interrupted with
      | Some _ => co_public_result r
      | None =>
          do! looked := co_ask (env_lookup env) in
          reconcile_tracking next derived r candidate used looked
      end
  | Recovering None _ => recover_if_enabled next derived r used
  | Recovering (Some candidate) _ =>
      do! interrupted := interruption in
      match interrupted with
      | Some _ => co_public_result r
      | None =>
          do! looked := co_ask (env_lookup env) in
          reconcile_candidate next derived r candidate used looked
      end
  | _ => co_public_result r
  end.

(** ** The attempt loop *)

(** What one attempt leaves for the next: the current reservation and whether
    ambiguity has been seen, or the pass's result. *)
Inductive AttemptStep :=
| StepReturn (result : ChainSubmissionResult)
| StepContinue (reserved : StoredChainSubmission) (ambiguity_seen : bool).

Definition step_return (m : Co D ChainSubmissionResult) : Co D AttemptStep :=
  do! r := m in co_ret (StepReturn r).

(** The body of one attempt up to the backoff. *)
Definition attempt_outcome (next : Continue) (derived : DerivedChainSubmission)
    (reserved : StoredChainSubmission) (ambiguity_seen : bool) (index : nat)
    (o : PostAttemptOutcome) : Co D AttemptStep :=
  let g := derived_generation derived in
  match o with
  | Accepted candidate =>
      do! r := classify_dispatched_post g (OUsableCandidateHash candidate) in
      if returned_candidate_is_unusable r then co_ret (StepContinue r true)
      else step_return (reconcile_existing next derived r (index + 1)%nat)
  | PostRejected _ kind d _ =>
      if ambiguity_seen && bool_decide (kind = RejNullifierAlreadySpent)
      then step_return (settle_nullifier_spent_after_dispatch derived reserved)
      else
        let terminal := negb ambiguity_seen && is_combined (target (gen_identity g))
                        && negb (bool_decide (kind = RejNullifierAlreadySpent)) in
        do! r := classify_dispatched_post g
          (if terminal then OTerminalRejection d else ODefiniteRejection d) in
        if ambiguity_seen
        then co_raise (with_durable_state FProtocol (st_durable_state r) (diag_message d))
        else step_return (co_public_result r)
  | PossiblyDispatched d =>
      do! r := classify_dispatched_post g (OPossiblyDispatched d) in
      do! interrupted := interruption in
      match interrupted with
      | Some _ => step_return (co_public_result r)
      | None => co_ret (StepContinue r true)
      end
  | LocalFailure d =>
      if ambiguity_seen
      then co_raise (with_durable_state FProtocol SRecovering (diag_message d))
      else
        do! _ := co_remove_fresh_reservation g in
        co_raise (without_state FProtocol (diag_message d))
  | DefinitelyUnsent _ | NotDispatchedByServer =>
      let message := not_dispatched_message o in
      let final := bool_decide (index + 1 = maximum_post_attempts policy)%nat in
      if ambiguity_seen then
        do! r := reconcile_with_durable_state g ODefinitelyNotDispatched
          (Some (from_redacted_message ReconciliationPending message)) SRecovering in
        if final then co_raise (with_durable_state FTransport SRecovering message)
        else co_ret (StepContinue r true)
      else
        do! _ := co_remove_fresh_reservation g in
        if final then co_raise (without_state FTransport message)
        else co_ret (StepContinue reserved false)
  end.

(** Leaving before dispatch: keep a durable ambiguity, otherwise take the
    fresh reservation back. *)
Definition leave_undispatched (derived : DerivedChainSubmission)
    (reserved : StoredChainSubmission) (ambiguity_seen : bool) (reason : Interruption)
    : Co D ChainSubmissionResult :=
  if ambiguity_seen then co_public_result reserved
  else
    do! _ := co_remove_fresh_reservation (derived_generation derived) in
    co_lift (interrupted_without_state reason).

Definition attempt (next : Continue) (derived : DerivedChainSubmission)
    (reserved : StoredChainSubmission) (ambiguity_seen : bool) (index : nat)
    : Co D AttemptStep :=
  do! interrupted := interruption in
  match interrupted with
  | Some reason => step_return (leave_undispatched derived reserved ambiguity_seen reason)
  | None =>
      do! refused := register_in_flight in
      match refused with
      | Some e =>
          do! _ := (if ambiguity_seen then co_ret tt
                    else co_remove_fresh_reservation (derived_generation derived)) in
          co_raise e
      | None =>
          do! race := submit_to_endpoint derived reserved in
          match race with
          | RaceInterrupted reason false =>
              step_return (leave_undispatched derived reserved ambiguity_seen reason)
          | RaceInterrupted reason true =>
              attempt_outcome next derived reserved ambiguity_seen index
                (interrupted_dispatch reason)
          | RaceFinished o => attempt_outcome next derived reserved ambiguity_seen index o
          end
      end
  end.

(** Reserving again after a first attempt that was not dispatched. *)
Definition readmit (loop : DerivedChainSubmission -> StoredChainSubmission ->
      Co D ChainSubmissionResult)
    (derived : DerivedChainSubmission) (index : nat) : Co D ChainSubmissionResult :=
  do! waited := co_ask (env_wait env) in
  match waited with
  | Some reason => co_lift (interrupted_without_state reason)
  | None =>
      do! now := now_seconds in
      do! admission := s_admit true (Z.of_nat (index + 2)) now in
      match admission with
      | Ready retry r fresh =>
          if fresh && bool_decide (derived_generation retry = derived_generation derived)
          then loop retry r
          else co_public_result r
      | Authoritative r | AbandonedReservation r => co_public_result r
      | NoAuthoritativeState => co_raise (without_state FInvariantViolation
          (lit "non-dispatched retry did not reserve the same generation"))
      end
  end.

(** [submit_reserved_attempts] from attempt [index]; the attempt number only
    grows, so the attempt budget bounds the recursion. *)
Fixpoint attempt_loop (fuel : nat) (derived : DerivedChainSubmission)
    (reserved : StoredChainSubmission) (ambiguity_seen : bool) (index : nat)
    : Co D ChainSubmissionResult :=
  if bool_decide (maximum_post_attempts policy <= index)%nat then co_panic
  else
    match fuel with
    | O => co_fuel
    | S fuel =>
        let next : Continue := fun d r i =>
          attempt_loop fuel d r (is_retryable_dispatch_ambiguity r) i in
        do! step := attempt next derived reserved ambiguity_seen index in
        match step with
        | StepReturn result => co_ret result
        | StepContinue reserved ambiguity_seen =>
            if bool_decide (index + 1 = maximum_post_attempts policy)%nat
            then co_public_result reserved
            else
              do! _ := co_index (retry_backoffs policy) index in
              if ambiguity_seen : bool then
                do! reservation := reserve_ambiguous_retry_after_backoff
                  (derived_generation derived) reserved in
                match reservation with
                | RetryReserved r => attempt_loop fuel derived r true (index + 1)%nat
                | RetryInterrupted r => co_public_result r
                end
              else readmit (fun d r => attempt_loop fuel d r false (index + 1)%nat)
                     derived index
        end
    end.

Definition submit_reserved_attempts (derived : DerivedChainSubmission)
    (reserved : StoredChainSubmission) (first : nat) : Co D ChainSubmissionResult :=
  attempt_loop (maximum_post_attempts policy) derived reserved
    (is_retryable_dispatch_ambiguity reserved) first.

(** ** One pass *)
Definition pass_ready (derived : DerivedChainSubmission) (r : StoredChainSubmission)
    (fresh : bool) : Co D ChainSubmissionResult :=
  if fresh then submit_reserved_attempts derived r 0
  else if bool_decide (recovery = StatusOnly) && is_retryable_dispatch_ambiguity r
          && negb (is_imported_delegation request) then
    do! interrupted := interruption in
    match interrupted with
    | None =>
        do! now := co_map_err (as_durable (st_durable_state r)) now_seconds in
        do! reserved := co_map_err (attach_state (st_durable_state r))
          (s_reserve_ambiguous (derived_generation derived) now) in
        submit_reserved_attempts derived reserved 0
    | Some _ => reconcile_existing submit_reserved_attempts derived r 0
    end
  else reconcile_existing submit_reserved_attempts derived r 0.

(** An abandoned reservation, normalized by its admission, is admitted again
    when exact-tree recovery may go on from it. *)
Definition readmit_abandoned (admission : StoreAdmission) (now : Z) : Co D StoreAdmission :=
  match admission with
  | AbandonedReservation r =>
      if bool_decide (recovery = ExactTree) then
        do! interrupted := interruption in
        match interrupted with
        | None => co_map_err (fun e => preserve_loaded_state e (Some r)) (s_admit true 1 now)
        | Some _ => co_ret (AbandonedReservation r)
        end
      else co_ret (AbandonedReservation r)
  | a => co_ret a
  end.

Definition advance_in_epoch : Co D ChainSubmissionResult :=
  do! refused := co_ask (env_acquire env) in
  match refused with
  | Some e => co_raise e
  | None =>
      do! interrupted := interruption in
      let work_allowed := match interrupted with None => true | Some _ => false end in
      do! now := now_seconds in
      do! admission := s_admit work_allowed 1 now in
      do! admission := readmit_abandoned admission now in
      match admission with
      | NoAuthoritativeState =>
          do! interrupted := interruption in
          match interrupted with
          | Some Cancelled => co_ret RCancelled
          | Some StaleEpoch => co_raise (without_state FInvalidInput
              (lit "host operation epoch changed before chain submission"))
          | None => co_raise (without_state FInvariantViolation
              (lit "admission returned no state for an active operation"))
          end
      | Authoritative r | AbandonedReservation r => co_public_result r
      | Ready derived r fresh => pass_ready derived r fresh
      end
  end.
End coordinator.

(** [advance_with_recovery]: the pass runs in the epoch sampled at its start. *)
Definition advance_with_recovery `{Externals} `{SqliteText} {D : Type} `{SubmissionDomain D}
    (env : Environment) (policy : CoordinatorPolicy) (request : StoreAdvancementRequest)
    (recovery : ChainRecoveryMode) : Co D ChainSubmissionResult :=
  do! epoch := co_ask (env_epoch env) in
  advance_in_epoch env policy request recovery epoch.
