(* ===== verification/CoordinatorProofs.v ===== *)
(** * Correctness of an advancement pass

    Triples for the coordinator's programs and, by them, what one pass of
    [Coordinator.v] guarantees in every environment: it returns (no panic, no
    exhausted fuel), it sends at most the attempts its policy allows, it sends
    only what is durably reserved, it reports a cancellation only if nothing
    can have been dispatched, and it changes the database only by store
    operations. *)

From stdpp Require Import base gmap strings list numbers.
From S2P Require Import Prelude Identity Outcome Lifecycle Record Rows Store.
From S2P Require Import StoreProofs Coordinator.
Local Open Scope Z_scope.
Local Open Scope voting_scope.
Local Open Scope tx_scope.
Local Open Scope co_scope.

(** ** What the world may have seen *)

(** The row of a generation reserves a POST: it is a fresh reservation, or a
    recovering row without a hash. *)
Definition reserved_in (t : Table) (g : ChainSubmissionGeneration) : Prop :=
  exists r, t !! submission_identity_key (gen_identity g) = Some r /\
    c_generation_digest r = gen_digest g /\
    (c_state r = "submitting"%string \/
     (c_state r = "recovering"%string /\ c_candidate_transaction_hash r = None)).

Definition post_reserved (p : PostEvent) : Prop := reserved_in (post_table p) (post_generation p).

Definition undispatched {D} (w : World D) : Prop :=
  Forall (fun p => post_dispatched p = false) (w_posts w).

(** The request kind agrees with the identity's target, so sending it does not
    panic. *)
Definition sendable (x : DerivedChainSubmission) : Prop :=
  match derived_request x with
  | QVoteBatch _ => exists d, target (gen_identity (derived_generation x)) = VoteBatch d
  | QDelegateAndVoteBatch _ =>
      exists d, target (gen_identity (derived_generation x)) = DelegateAndVoteBatch d
  | _ => True
  end.

Definition derived_facts (q : StoreAdvancementRequest) (x : DerivedChainSubmission) : Prop :=
  sendable x /\ gen_identity (derived_generation x) = req_identity q.

(** What an admission tells: a derivation for this request and, when a fresh
    reservation was made, that it is durable and not of an imported
    delegation. *)
Definition admitted {D} (q : StoreAdvancementRequest) (a : StoreAdmission) (db : Db D) : Prop :=
  match a with
  | Ready x r fresh => derived_facts q x /\
      (fresh = true -> is_imported_delegation q = false /\ st_state r = Submitting /\
         reserved_in (db_table db) (derived_generation x))
  | _ => True
  end.

(** A policy [CoordinatorPolicy::new] accepts. *)
Definition policy_ok (p : CoordinatorPolicy) : Prop :=
  (0 < maximum_post_attempts p <= MAX_POST_ATTEMPTS_PER_PASS)%nat /\
  (length (retry_backoffs p) + 1 = maximum_post_attempts p)%nat.

(** ** Triples *)
Definition triple {D A} (P : World D -> Prop) (m : Co D A)
    (Q : A -> World D -> Prop) (E : ChainSubmissionFailure -> World D -> Prop) : Prop :=
  forall w, P w ->
    match m w with
    | (Done a, w') => Q a w'
    | (Raised e, w') => E e w'
    | _ => False
    end.

Section triple_rules.
Context {D : Type}.
Implicit Types P : World D -> Prop.
Implicit Types E : ChainSubmissionFailure -> World D -> Prop.

Lemma triple_ret {A : Type} P (a : A) Q E : (forall w, P w -> Q a w) -> triple P (co_ret a) Q E.
Proof. intros HQ w HP. by apply HQ. Qed.

Lemma triple_raise {A : Type} P e (Q : A -> World D -> Prop) E :
  (forall w, P w -> E e w) -> triple P (co_raise e) Q E.
Proof. intros HE w HP. by apply HE. Qed.

Lemma triple_bind {A B : Type} P (m : Co D A) (k : A -> Co D B) R Q E :
  triple P m R E -> (forall a, triple (R a) (k a) Q E) -> triple P (co_bind m k) Q E.
Proof.
  intros Hm Hk w HP. specialize (Hm w HP). unfold co_bind.
  destruct (m w) as [[a|e| |] w']; try done. by apply Hk.
Qed.

Lemma triple_lift {A : Type} P (r : result A ChainSubmissionFailure) Q E :
  (forall a w, r = Ok a -> P w -> Q a w) -> (forall e w, r = Err e -> P w -> E e w) ->
  triple P (co_lift r) Q E.
Proof. intros HQ HE w HP. unfold co_lift. destruct r; auto. Qed.

Lemma triple_map_err {A : Type} P f (m : Co D A) Q E :
  triple P m Q (fun e w => E (f e) w) -> triple P (co_map_err f m) Q E.
Proof.
  intros Hm w HP. specialize (Hm w HP). unfold co_map_err.
  by destruct (m w) as [[a|e| |] w'].
Qed.

Lemma triple_weaken {A : Type} P P' (m : Co D A) (Q Q' : A -> World D -> Prop) E E' :
  triple P' m Q' E' -> (forall w, P w -> P' w) -> (forall a w, Q' a w -> Q a w) ->
  (forall e w, E' e w -> E e w) -> triple P m Q E.
Proof.
  intros Hm HP HQ HE w Hw. specialize (Hm w (HP w Hw)).
  destruct (m w) as [[a|e| |] w']; auto.
Qed.

Lemma triple_pure {A : Type} P (m : Co D A) (phi : Prop) Q E :
  (phi -> triple P m Q E) -> triple (fun w => phi /\ P w) m Q E.
Proof. intros Hm w [Hphi HP]. by apply Hm. Qed.

Lemma triple_index {A : Type} P (l : list A) i Q E :
  (i < length l)%nat -> (forall a w, P w -> Q a w) -> triple P (co_index l i) Q E.
Proof.
  intros Hi HQ. unfold co_index. destruct (lookup_lt_is_Some_2 l i Hi) as [a ->].
  apply triple_ret. auto.
Qed.
End triple_rules.

(** ** What the reserving store operations leave behind *)
Lemma load_row_digest i old r :
  load_row i old = Some r -> c_generation_digest old = st_generation_digest r.
Proof.
  unfold load_row, bytes32. intros Hl. simplify_option_eq. done.
Qed.

Lemma persist_written `{SqliteText} t t' r old :
  t !! submission_identity_key (st_identity r) = Some old -> persist_mutable t r = Ok t' ->
  t' = <[submission_identity_key (st_identity r) := written_row r old]> t.
Proof.
  intros Hrow. unfold persist_mutable.
  destruct (bind_u64 (st_committed_post_reservations r)) as [n|] eqn:Hn; [|done].
  destruct (bind_opt_u64 (st_tracking_started_at r)) as [tr|] eqn:Htr; [|done].
  destruct (bind_opt_u64 _) as [van|] eqn:Hvan in |- *; [|done].
  destruct (bind_u64 (st_updated_at r)) as [u|] eqn:Hu; [|done].
  apply bind_u64_some in Hn as ->, Hu as ->. apply bind_opt_u64_some in Htr as ->, Hvan as ->.
  unfold update_row. rewrite Hrow. fold (written_row r old).
  destruct (_ || _); [done|]. by intros [= <-].
Qed.

Lemma ensure_generation_ok r g u :
  ensure_generation r g = Ok u -> st_identity r = gen_identity g /\ st_generation_digest r = gen_digest g.
Proof.
  unfold ensure_generation. destruct (_ && _) eqn:Hb; [|done].
  apply andb_true_iff in Hb as [?%bool_decide_eq_true ?%bool_decide_eq_true]. done.
Qed.

Section reserving.
Context `{Externals} `{SqliteText} {D : Type} `{SubmissionDomain D}.
Context (fault : nat -> option SqlError).

(** Persisting a hashless recovering record of a generation reserves it. *)
Lemma persist_reserves {A : Type} (t : Table) i record record' d (a : A) g :
  load_submission t i = Ok (Some record) -> st_identity record' = i ->
  i = gen_identity g -> st_generation_digest record = gen_digest g ->
  st_state record' = Recovering None d ->
  tx_spec (D:=D) (at_table t) (let* _ := tx_persist fault record' in tx_ret a)
    (fun b db => b = a /\ reserved_in (db_table db) g).
Proof.
  intros Hl Hi Hg Hd Hs. apply load_submission_some in Hl as (old & Hrow & Hload).
  eapply (tx_spec_bind _ _ _ (fun _ db => reserved_in (db_table db) g));
    [|intros []; apply tx_spec_ret; auto].
  apply tx_spec_write. intros t' db Hp Ht. rewrite Ht in Hp. simpl.
  rewrite <- Hi in Hrow. apply (persist_written _ _ _ _ Hrow) in Hp as ->.
  exists (written_row record' old). rewrite <- Hg, <- Hi, lookup_insert_eq.
  destruct (written_row_columns record' old) as (-> & _).
  split_and!; [done|by rewrite (load_row_digest _ _ _ Hload)|right].
  unfold written_row, mutable_row, mutable_columns. by rewrite Hs.
Qed.

Lemma reserve_ambiguous_retry_body_result (t : Table) g now :
  tx_spec (D:=D) (at_table t) (reserve_ambiguous_retry_body fault g now)
    (fun r db => permits_ambiguous_retry (st_state r) = true /\ reserved_in (db_table db) g).
Proof.
  unfold reserve_ambiguous_retry_body. apply bind_load_present. intros r Hl.
  apply bind_lift. intros u [Hi Hd]%ensure_generation_ok.
  destruct (permits_ambiguous_retry _) eqn:Hp; [|apply tx_spec_fail].
  destruct (next_reservation _) as [n|] eqn:Hn; [|apply tx_spec_fail].
  destruct (permits_ambiguous_retry_recovering _ Hp) as [d Hs].
  intros s a s' Hat Ha. eapply persist_reserves in Ha as [-> Hr]; done.
Qed.

Lemma reserve_recovery_retry_body_result (t : Table) q g candidate now :
  gen_identity g = req_identity q ->
  tx_spec (D:=D) (at_table t) (reserve_recovery_retry_body fault q
      (mk_authorization (req_identity q) (gen_digest g) candidate) now)
    (fun r db => reserved_in (db_table db) g).
Proof.
  intros Hg. unfold reserve_recovery_retry_body. simpl.
  destruct (negb (bool_decide _)); [apply tx_spec_fail|].
  apply bind_load_present. intros r Hl.
  destruct (bool_decide (st_generation_digest r = _)) eqn:Hd; [|apply tx_spec_fail].
  apply bool_decide_eq_true in Hd. simpl.
  apply bind_map_err, bind_derive. intros x _. apply bind_map_err, bind_lift. intros _ _.
  apply bind_lift. intros _ _.
  destruct (st_state r) as [| |c d| | |] eqn:Hs; try apply tx_spec_fail.
  destruct (bool_decide _); [|apply tx_spec_fail].
  destruct (next_reservation _) as [n|] eqn:Hn; [|apply tx_spec_fail].
  apply load_submission_some in Hl as Hrow. destruct Hrow as (old & _ & Hload).
  intros s a s' Hat Ha. eapply persist_reserves in Ha as [_ Hr]; try done.
  simpl. by apply load_row_identity in Hload.
Qed.

Lemma bind_derive_sendable {B : Type} (t : Table) q (k : DerivedChainSubmission -> Tx D B)
    (Q : B -> Db D -> Prop) :
  (forall x, derived_facts q x -> tx_spec (at_table t) (k x) Q) ->
  tx_spec (at_table t) (tx_bind (derive fault (req_derivation q)) k) Q.
Proof.
  intros Hk. eapply (tx_spec_bind _ _ _ (fun x db => at_table t db /\ derived_facts q x)).
  - apply tx_spec_derive. intros x db Hx Ht. split; [done|].
    pose proof (derive_identity _ _ _ _ Hx) as Hi.
    pose proof (derive_request_target _ _ _ _ Hx) as Hr.
    split; [|done]. unfold sendable. rewrite Hi. by destruct (derived_request x).
  - intros x s b s' [Ht Hf] Hb. by eapply Hk.
Qed.

Lemma ret_admitted (t : Table) q a :
  match a with Ready x _ fresh => derived_facts q x /\ fresh = false | _ => True end ->
  tx_spec (D:=D) (at_table t) (tx_ret a) (admitted q).
Proof.
  intros Ha. apply tx_spec_ret. intros db _. destruct a; try done.
  destruct Ha as [Hx ->]. by split.
Qed.

Lemma reserve_fresh_admitted (t : Table) q x ordinal now :
  derived_facts q x -> is_imported_delegation q = false ->
  tx_spec (D:=D) (at_table t)
    (let record := fresh (derived_generation x) ordinal now in
     let* _ := tx_lift (verify_batch_roster q (derived_ordered_proposal_ids x)) in
     let* _ := tx_write fault (fun t d => insert_fresh (round_row d (st_identity record)) t record) in
     tx_ret (Ready x record true)) (admitted q).
Proof.
  intros Hx Himp. simpl. apply bind_lift. intros _ _.
  eapply (tx_spec_bind _ _ _ (fun _ db => reserved_in (db_table db) (derived_generation x)));
    [|intros []; apply tx_spec_ret; intros db Hr; split; [done|by intros _]].
  apply tx_spec_write. intros t' db Hi Ht. simpl in *. unfold insert_fresh in Hi. simpl in Hi.
  destruct (bind_u64 ordinal) as [n|]; [|done]. destruct (bind_u64 now) as [c|]; [|done].
  destruct (insert_row _ _ _ _) as [t1|] eqn:Hr; [|done]. simpl in Hi. injection Hi as <-.
  apply insert_row_ok in Hr as (_ & _ & _ & ->).
  eexists. split; [apply lookup_insert_eq|]. unfold fresh_row.
  destruct (target_columns _) as [[? ?] ?]. auto.
Qed.

Lemma admit_imported_admitted (t : Table) q now :
  tx_spec (D:=D) (at_table t) (admit_imported fault q now) (admitted q).
Proof.
  unfold admit_imported. apply bind_derive_sendable. intros x Hx.
  destruct (imported_candidate x) as [c|]; [|apply tx_spec_fail].
  apply bind_guard. intros _ _.
  eapply (tx_spec_bind _ _ _ (fun _ _ => True)); [by apply tx_spec_write|].
  intros []. apply tx_spec_ret. intros db _. by split.
Qed.

Lemma admit_existing_admitted (t : Table) q record o :
  (forall x, o = Some x -> derived_facts q x) ->
  tx_spec (D:=D) (at_table t) (admit_existing fault q record o) (admitted q).
Proof.
  intros Ho. unfold admit_existing.
  assert (forall x, derived_facts q x -> tx_spec (D:=D) (at_table t)
    (let* _ := tx_map_err (fun e => preserve_loaded_state e (Some record))
       (tx_lift (verify_batch_roster q (derived_ordered_proposal_ids x))) in
     let* _ := tx_lift (ensure_generation record (derived_generation x)) in
     if is_terminal (st_state record) then tx_ret (Authoritative record)
     else tx_ret (Ready x record false)) (admitted q)) as Hrest.
  { intros x Hx. apply bind_map_err, bind_lift. intros _ _. apply bind_lift. intros _ _.
    destruct (is_terminal _); by apply ret_admitted. }
  destruct o as [x|]; [exact (Hrest x (Ho x eq_refl))|].
  apply bind_map_err, bind_derive_sendable. auto.
Qed.

Lemma bind_admit_batch_facts {B : Type} (t : Table) q existing
    (k : option DerivedChainSubmission -> Tx D B) (Q : B -> Db D -> Prop) :
  (forall o, (forall x, o = Some x -> derived_facts q x) -> tx_spec (at_table t) (k o) Q) ->
  tx_spec (at_table t) (tx_bind (admit_batch fault q existing) k) Q.
Proof.
  intros Hk. eapply (tx_spec_bind _ _ _
    (fun o db => at_table t db /\ forall x, o = Some x -> derived_facts q x)).
  - unfold admit_batch. destruct (is_batch q); [|by apply tx_spec_ret].
    apply bind_map_err, bind_derive_sendable. intros x Hx. apply bind_map_err, bind_lift.
    intros _ _. apply tx_spec_ret. intros db Ht. split; [done|]. by intros y [= <-].
  - intros o s b s' [Ht Ho] Hb. by eapply Hk.
Qed.

Lemma admit_new_admitted (t : Table) q o ordinal now :
  (forall x, o = Some x -> derived_facts q x) ->
  tx_spec (D:=D) (at_table t) (admit_new fault q o ordinal now) (admitted q).
Proof.
  intros Ho. unfold admit_new. apply bind_admission_guards. intros _.
  destruct (is_imported_delegation q) eqn:Himp; [apply admit_imported_admitted|].
  destruct o as [x|].
  - by apply (reserve_fresh_admitted t q x ordinal now); [apply Ho|].
  - apply bind_derive_sendable. intros x Hx. by apply (reserve_fresh_admitted t q x ordinal now).
Qed.

Lemma normalize_admitted (t : Table) q record now (f : StoredChainSubmission -> StoreAdmission) :
  (forall r (db : Db D), admitted q (f r) db) ->
  tx_spec (D:=D) (at_table t)
    (let* _ := tx_set_flag in let* r := normalize_abandoned fault record now in tx_ret (f r))
    (admitted q).
Proof.
  intros Hf. eapply (tx_spec_bind _ _ _ (fun _ _ => True)); [done|]. intros [].
  eapply (tx_spec_bind _ _ _ (fun _ _ => True)); [done|]. intros r. by apply tx_spec_ret.
Qed.

Lemma admit_body_admitted (t : Table) q work ordinal now :
  tx_spec (D:=D) (at_table t) (admit_body fault q work ordinal now) (admitted q).
Proof.
  unfold admit_body. apply bind_load. intros [record|] Hl; destruct work.
  - destruct (is_submitting _); [by apply normalize_admitted|].
    apply bind_admit_batch_facts. intros o Ho. by apply admit_existing_admitted.
  - destruct (is_submitting _); [by apply normalize_admitted|by apply ret_admitted].
  - apply bind_admit_batch_facts. intros o Ho. by apply admit_new_admitted.
  - by apply ret_admitted.
Qed.

Lemma transact_result {A : Type} (m : Tx D A) (db : Db D) Q :
  tx_spec (at_table (db_table db)) m Q ->
  forall a, (transact_ fault m db).1 = Ok a -> Q a (transact_ fault m db).2.
Proof.
  intros Hm a Ha. unfold transact_ in *.
  pose proof (transact_spec fault m db Q) as Ht.
  destruct (transact fault m db) as [[r fl] db']. simpl in *. subst r. apply Ht.
  intros s b s' Hdb Hb. eapply Hm; [|exact Hb]. unfold at_table. by rewrite <- Hdb.
Qed.

Lemma store_admit_result q work ordinal now (db : Db D) a :
  (store_admit fault q work ordinal now db).1 = Ok a ->
  admitted q a (store_admit fault q work ordinal now db).2.
Proof.
  unfold store_admit. destruct (validate_target q); [|done].
  pose proof (transact_result (admit_body fault q work ordinal now) db (admitted q)
    (admit_body_admitted _ _ _ _ _) a) as Hr.
  unfold transact_ in Hr. destruct (transact fault _ db) as [[[b|e] fl] db']; simpl in *; auto.
  done.
Qed.
End reserving.

(** ** The invariant of a pass *)
Section pass.
Context `{Externals} `{SqliteText} {D : Type} `{SubmissionDomain D}.
Context (env : Environment) (policy : CoordinatorPolicy).
Context (request : StoreAdvancementRequest) (recovery : ChainRecoveryMode) (epoch : Z).
Context (db0 : Db D).

(** At most [k] POSTs so far, each reserved; the database is [db0] after the
    recorded store operations; with [quiet], nothing can have been sent. *)
Definition pass_state (k : nat) (quiet : bool) (w : World D) : Prop :=
  Forall post_reserved (w_posts w) /\ (length (w_posts w) <= k)%nat /\
  w_db w = run_history (w_history w) db0 /\ (quiet = true -> undispatched w).

Definition reserved_now (g : ChainSubmissionGeneration) (w : World D) : Prop :=
  reserved_in (db_table (w_db w)) g.

Definition registers : Prop := forall t, env_register env t = None.

(** What a pass guarantees when it returns, and when it fails. *)
Definition final_result (r : ChainSubmissionResult) (w : World D) : Prop :=
  pass_state (maximum_post_attempts policy) false w /\ (r = RCancelled -> undispatched w).

Definition final_failure (e : ChainSubmissionFailure) (w : World D) : Prop :=
  pass_state (maximum_post_attempts policy) false w /\
  (registers -> fail_strongest_state e = None -> undispatched w).

Lemma pass_state_weaken k k' q q' w :
  (k <= k')%nat -> (q' = true -> q = true) -> pass_state k q w -> pass_state k' q' w.
Proof. intros Hk Hq (Hp & Hl & Hd & Hu). split_and!; auto. lia. Qed.

Lemma stated_failure k q e w :
  (k <= maximum_post_attempts policy)%nat -> fail_strongest_state e <> None ->
  pass_state k q w -> final_failure e w.
Proof.
  intros Hk He Hw. split; [by eapply pass_state_weaken; [..|exact Hw]|]. by intros _ He'.
Qed.

Lemma quiet_failure k e w :
  (k <= maximum_post_attempts policy)%nat -> pass_state k true w -> final_failure e w.
Proof.
  intros Hk Hw. split; [by eapply pass_state_weaken; [..|exact Hw]|].
  intros _ _. by apply Hw.
Qed.

Lemma attach_state_stated s e : fail_strongest_state (attach_state s e) <> None.
Proof. unfold attach_state. by destruct (fail_strongest_state e) eqn:He; [rewrite He|]. Qed.

(** A question changes nothing the invariant mentions. *)
Lemma ask_rule {A : Type} k q (phi : World D -> Prop) (f : nat -> A) E :
  (forall t w, phi w -> phi (mk_world t (w_db w) (w_posts w) (w_history w))) ->
  triple (fun w => pass_state k q w /\ phi w) (co_ask f)
    (fun _ w => pass_state k q w /\ phi w) E.
Proof. intros Hphi w [Hw Hp]. simpl. split; [done|]. by apply Hphi. Qed.

Lemma ask_plain {A : Type} k q (f : nat -> A) E :
  triple (pass_state k q) (co_ask f) (fun _ => pass_state k q) E.
Proof. by intros w Hw. Qed.

Lemma ask_reserved {A : Type} k q g (f : nat -> A) E :
  triple (fun w => pass_state k q w /\ reserved_now g w) (co_ask f)
    (fun _ w => pass_state k q w /\ reserved_now g w) E.
Proof. by apply ask_rule. Qed.

(** The clock: a failure is whatever the clock says. *)
Lemma now_rule k q E :
  (forall e w, pass_state k q w -> E e w) ->
  triple (pass_state k q) (now_seconds env) (fun _ => pass_state k q) E.
Proof.
  intros HE. unfold now_seconds.
  eapply triple_bind; [apply ask_plain|]. intros r. apply triple_lift; auto.
Qed.

Lemma clock_rule k q f E :
  (forall e w, pass_state k q w -> E (f e) w) ->
  triple (pass_state k q) (co_map_err f (now_seconds env)) (fun _ => pass_state k q) E.
Proof.
  intros HE. by apply triple_map_err, now_rule.
Qed.

(** A store call: logged, and its result satisfies [phi] of the new database. *)
Lemma store_rule {A : Type} k q op
    (f : (nat -> option SqlError) -> Db D -> result A ChainSubmissionFailure * Db D)
    (phi : A -> Db D -> Prop) E :
  (forall fault db, (run_operation fault op db).2 = (f fault db).2) ->
  (forall fault db a, (f fault db).1 = Ok a -> phi a (f fault db).2) ->
  (forall e w, pass_state k q w -> E e w) ->
  triple (pass_state k q) (co_store env op f)
    (fun a w => pass_state k q w /\ phi a (w_db w)) E.
Proof.
  intros Hrun Hphi HE w (Hp & Hl & Hd & Hu). unfold co_store.
  specialize (Hrun (env_fault env (w_tick w)) (w_db w)).
  specialize (Hphi (env_fault env (w_tick w)) (w_db w)).
  destruct (f _ _) as [r db'] eqn:Hf. simpl in *.
  assert (pass_state k q (mk_world (S (w_tick w)) db' (w_posts w)
    (w_history w ++ [(env_fault env (w_tick w), op)]))) as Hw.
  { split_and!; try done. simpl. unfold run_history. rewrite foldl_app. simpl.
    fold (run_history (w_history w) db0). by rewrite <- Hd, Hrun. }
  destruct r as [a|e]; auto.
Qed.

Lemma ran_snd {A : Type} (r : result A ChainSubmissionFailure * Db D) : (ran r).2 = r.2.
Proof. done. Qed.

(** Returning a record's public result never reports a cancellation, and its
    only failure carries a state. *)
Lemma public_result_rule k q r :
  (k <= maximum_post_attempts policy)%nat ->
  triple (pass_state k q) (co_public_result r) final_result final_failure.
Proof.
  intros Hk. apply triple_lift.
  - intros a w Ha Hw. split; [by eapply pass_state_weaken; [..|exact Hw]|].
    unfold public_result in Ha. by destruct (st_state r); simplify_eq.
  - intros e w He Hw. eapply stated_failure; [done| |done].
    unfold public_result in He. destruct (st_state r); by simplify_eq.
Qed.

Notation keeps k q m E := (triple (pass_state k q) m (fun _ => pass_state k q) E).

Lemma admit_rule k q work ordinal now E :
  (forall e w, pass_state k q w -> E e w) ->
  triple (pass_state k q) (s_admit env request work ordinal now)
    (fun a w => pass_state k q w /\ admitted request a (w_db w)) E.
Proof.
  intros HE. apply store_rule; [done| |done]. intros fault db a. apply store_admit_result.
Qed.

Lemma reserve_ambiguous_rule k q g now E :
  (forall e w, pass_state k q w -> E e w) ->
  triple (pass_state k q) (s_reserve_ambiguous env g now)
    (fun r w => pass_state k q w /\
       (permits_ambiguous_retry (st_state r) = true /\ reserved_now g w)) E.
Proof.
  intros HE. apply (store_rule k q _ _
    (fun r db => permits_ambiguous_retry (st_state r) = true /\ reserved_in (db_table db) g));
    [done| |done].
  intros fault db r.
  exact (transact_result fault _ db _ (reserve_ambiguous_retry_body_result fault _ g now) r).
Qed.

Lemma reserve_recovery_rule k q g candidate now E :
  gen_identity g = req_identity request ->
  (forall e w, pass_state k q w -> E e w) ->
  triple (pass_state k q) (s_reserve_recovery env request
      (mk_authorization (req_identity request) (gen_digest g) candidate) now)
    (fun r w => pass_state k q w /\ reserved_now g w) E.
Proof.
  intros Hg HE. apply (store_rule k q _ _ (fun _ db => reserved_in (db_table db) g)); [done| |done].
  intros fault db r.
  exact (transact_result fault _ db _
    (reserve_recovery_retry_body_result fault _ request g candidate now Hg) r).
Qed.

(** Any store call keeps the invariant. *)
Lemma store_keeps {A : Type} k q op
    (f : (nat -> option SqlError) -> Db D -> result A ChainSubmissionFailure * Db D) E :
  (forall fault db, (run_operation fault op db).2 = (f fault db).2) ->
  (forall e w, pass_state k q w -> E e w) -> keeps k q (co_store env op f) E.
Proof.
  intros Hrun HE. eapply triple_weaken; [by apply (store_rule k q op f (fun _ _ => True))|done| |done].
  by intros a w [? _].
Qed.

(** Steps that fail only with a state attached. *)
Lemma classify_rule k q g o :
  (k <= maximum_post_attempts policy)%nat ->
  keeps k q (classify_dispatched_post env g o) final_failure.
Proof.
  intros Hk. eapply triple_bind; [apply clock_rule; intros; by eapply stated_failure|].
  intros now. apply triple_map_err, store_keeps; [done|]. intros. by eapply stated_failure.
Qed.

Lemma reconcile_rule k q g o d s :
  (k <= maximum_post_attempts policy)%nat ->
  keeps k q (reconcile_with_durable_state env g o d s) final_failure.
Proof.
  intros Hk. eapply triple_bind;
    [apply clock_rule; intros; eapply stated_failure; [done|apply attach_state_stated|done]|].
  intros now. apply triple_map_err, store_keeps; [done|].
  intros. eapply stated_failure; [done|apply attach_state_stated|done].
Qed.

Lemma remove_fresh_rule k q g :
  (k <= maximum_post_attempts policy)%nat ->
  keeps k q (co_remove_fresh_reservation env g) final_failure.
Proof.
  intros Hk. eapply triple_bind; [apply clock_rule; intros; by eapply stated_failure|].
  intros now. apply triple_map_err, store_keeps; [done|].
  intros. eapply stated_failure; [done|apply attach_state_stated|done].
Qed.

(** ** Sending *)
Definition after_race (k : nat) (q : bool) (race : PostRace) (w : World D) : Prop :=
  match race with
  | RaceInterrupted _ false => pass_state (k + 1) q w
  | RaceInterrupted _ true => pass_state (k + 1) false w
  | RaceFinished o => pass_state (k + 1) (q && negb (may_have_dispatched o)) w
  end.

Lemma logged_post k q g i (b : bool) w :
  pass_state k q w -> reserved_now g w ->
  pass_state (k + 1) (q && negb b) (mk_world (S (w_tick w)) (w_db w)
    (w_posts w ++ [mk_post g i b (db_table (w_db w))]) (w_history w)).
Proof.
  intros (Hp & Hl & Hd & Hu) Hr. split_and!; simpl.
  - apply Forall_app. split; [done|]. by apply Forall_singleton.
  - rewrite length_app. simpl. lia.
  - done.
  - intros [Hq Hb]%andb_true_iff. apply Forall_app. split; [by apply Hu|].
    apply Forall_singleton. simpl. by destruct b.
Qed.

Lemma submit_rule k q x r E :
  sendable x -> (0 < env_endpoint_count env)%nat ->
  triple (fun w => pass_state k q w /\ reserved_now (derived_generation x) w)
    (submit_to_endpoint env x r) (after_race k q) E.
Proof.
  intros Hs Hc w [Hw Hr]. unfold submit_to_endpoint.
  rewrite bool_decide_eq_false_2 by lia.
  assert (forall t, pass_state (k + 1) q (mk_world t (w_db w) (w_posts w) (w_history w))) as Hq.
  { intros t. eapply pass_state_weaken; [..|exact Hw]; [lia|done]. }
  unfold sendable in Hs.
  destruct (derived_request x) as [|c| | |];
    [| |
     |destruct Hs as [d ->]
     |destruct Hs as [d ->]].
  2: { destruct (env_post env (w_tick w)) as [reason b|o]; simpl; [apply Hq|].
       eapply pass_state_weaken; [| |apply Hq]; [lia|]. by rewrite andb_true_r. }
  all: destruct (env_post env (w_tick w)) as [reason [|]|o]; simpl;
    [|apply Hq|by apply logged_post].
  all: eapply pass_state_weaken; [| |by apply logged_post]; [lia|done].
Qed.

(** ** Confirming, tracking and scanning *)
Lemma commit_result_rule k q c :
  (k <= maximum_post_attempts policy)%nat ->
  triple (pass_state k q) (commit_result c) final_result final_failure.
Proof. intros Hk. destruct c; by apply public_result_rule. Qed.

Lemma confirm_tree_rule k q x van ps :
  (k <= maximum_post_attempts policy)%nat ->
  triple (pass_state k q) (co_confirm_tree env request epoch x van ps) final_result final_failure.
Proof.
  intros Hk. eapply triple_bind; [apply clock_rule; intros; by eapply stated_failure|].
  intros now. eapply triple_bind; [apply ask_plain|]. intros i.
  eapply (triple_bind _ _ _ (fun _ => pass_state k q)); [|intros c; by apply commit_result_rule].
  apply triple_map_err, store_keeps; [done|].
  intros. eapply stated_failure; [done|apply attach_state_stated|done].
Qed.

Lemma confirm_rule k q x c tx s :
  (k <= maximum_post_attempts policy)%nat ->
  triple (pass_state k q) (confirm env request epoch x c tx s) final_result final_failure.
Proof.
  intros Hk. eapply triple_bind; [apply clock_rule; intros; by eapply stated_failure|].
  intros now. eapply triple_bind; [apply ask_plain|]. intros i.
  eapply (triple_bind _ _ _ (fun _ => pass_state k q)); [|intros cm; by apply commit_result_rule].
  apply triple_map_err, store_keeps; [done|].
  intros. eapply stated_failure; [done|apply attach_state_stated|done].
Qed.

Lemma expired_rule k q r now :
  (k <= maximum_post_attempts policy)%nat ->
  keeps k q (tracking_expired_at policy r now) final_failure.
Proof.
  intros Hk. unfold tracking_expired_at.
  destruct (st_tracking_started_at r); [by apply triple_ret|].
  apply triple_raise. intros. by eapply stated_failure.
Qed.

Lemma tracking_expired_rule k q r :
  (k <= maximum_post_attempts policy)%nat ->
  keeps k q (tracking_expired env policy r) final_failure.
Proof.
  intros Hk. eapply triple_bind; [apply clock_rule; intros; by eapply stated_failure|].
  intros now. by apply expired_rule.
Qed.

Lemma finish_tracking_rule k q x r d :
  (k <= maximum_post_attempts policy)%nat ->
  keeps k q (finish_inconclusive_tracking env policy x r d) final_failure.
Proof.
  intros Hk. eapply triple_bind; [apply clock_rule; intros; by eapply stated_failure|].
  intros now. eapply triple_bind; [by apply expired_rule|].
  intros []; by apply reconcile_rule.
Qed.

Lemma scan_rule k q x candidate :
  (k <= maximum_post_attempts policy)%nat ->
  triple (pass_state k q) (scan_tree env request x candidate)
    (fun s w => pass_state k q w /\ forall auth, s = RsNoMatch auth ->
       auth = mk_authorization (req_identity request) (gen_digest (derived_generation x)) candidate)
    final_failure.
Proof.
  intros Hk. eapply triple_bind; [apply ask_plain|].
  intros [[van ps|]|[m|d|d|]]; try (apply triple_ret; intros; split; naive_solver).
  all: eapply triple_bind; [by apply reconcile_rule|]; intros _r; apply triple_raise;
    intros; by eapply stated_failure.
Qed.

Lemma end_hashless_rule k q x :
  (k <= maximum_post_attempts policy)%nat ->
  triple (pass_state k q) (end_hashless env x) final_result final_failure.
Proof.
  intros Hk. eapply triple_bind; [by apply classify_rule|]. intros r. by apply public_result_rule.
Qed.

Lemma settle_rule k q x r :
  (k <= maximum_post_attempts policy)%nat ->
  triple (pass_state k q) (settle_nullifier_spent_after_dispatch env request recovery epoch x r)
    final_result final_failure.
Proof.
  intros Hk. unfold settle_nullifier_spent_after_dispatch.
  destruct recovery; [by apply end_hashless_rule|].
  eapply triple_bind; [by apply scan_rule|].
  intros s. eapply (triple_weaken _ (pass_state k q)); [|by intros w [? _]|done|done].
  destruct s; [by apply confirm_tree_rule|by apply end_hashless_rule|by apply public_result_rule].
Qed.

(** ** The attempt loop *)
Context (Hpolicy : policy_ok policy) (Hendpoints : (0 < env_endpoint_count env)%nat).

(** A continuation that is right from attempt [n] on. *)
Definition next_ok (n : nat) (next : Continue (D:=D)) : Prop :=
  forall x r i, (n <= i < maximum_post_attempts policy)%nat -> derived_facts request x ->
    triple (fun w => pass_state i (negb (is_retryable_dispatch_ambiguity r)) w /\
                     reserved_now (derived_generation x) w)
      (next x r i) final_result final_failure.

Lemma backoff_index i :
  (i + 1 < maximum_post_attempts policy)%nat -> (i < length (retry_backoffs policy))%nat.
Proof. destruct Hpolicy as [_ Hl]. lia. Qed.

Lemma reserve_after_backoff_rule k q g r :
  (k <= maximum_post_attempts policy)%nat ->
  triple (pass_state k q) (reserve_ambiguous_retry_after_backoff env g r)
    (fun a w => pass_state k q w /\ match a with
       | RetryReserved r' => is_retryable_dispatch_ambiguity r' = true /\ reserved_now g w
       | RetryInterrupted _ => True end) final_failure.
Proof.
  intros Hk. eapply triple_bind; [apply ask_plain|]. intros [i|]; [by apply triple_ret|].
  eapply triple_bind;
    [apply clock_rule; intros; eapply stated_failure; [done|apply attach_state_stated|done]|].
  intros now. eapply triple_bind;
    [apply triple_map_err, reserve_ambiguous_rule; intros; eapply stated_failure;
       [done|apply attach_state_stated|done]|].
  intros r'. by apply triple_ret.
Qed.

Lemma after_ambiguous_rule n next x r used :
  next_ok n next -> (n <= used + 1)%nat -> (used < maximum_post_attempts policy)%nat ->
  derived_facts request x ->
  triple (pass_state (used + 1) false) (after_ambiguous_retry env policy epoch next x r used)
    final_result final_failure.
Proof.
  intros Hn Hle Hlt Hx. unfold after_ambiguous_retry.
  case_bool_decide as Hf; [apply public_result_rule; lia|].
  eapply triple_bind; [apply ask_plain|]. intros [i|]; [apply public_result_rule; lia|].
  eapply (triple_bind _ _ _ (fun _ => pass_state (used + 1) false));
    [by apply triple_index; [apply backoff_index; lia|]|].
  intros _b. eapply triple_bind; [apply reserve_after_backoff_rule; lia|].
  intros [r'|r']; simpl.
  - intros w (Hw & Hr' & Hres). apply Hn; [lia|done|]. by rewrite Hr'.
  - eapply (triple_weaken _ (pass_state (used + 1) false)); [|by intros w [? _]|done|done].
    apply public_result_rule. lia.
Qed.

Lemma recovery_outcome_rule n next x r used o q :
  next_ok n next -> (n <= used + 1)%nat -> (used < maximum_post_attempts policy)%nat ->
  derived_facts request x ->
  triple (pass_state (used + 1) q)
    (recovery_retry_outcome env policy request recovery epoch next x r used o)
    final_result final_failure.
Proof.
  intros Hn Hle Hlt Hx.
  eapply (triple_weaken _ (pass_state (used + 1) false));
    [|intros w; by apply pass_state_weaken|done|done].
  unfold recovery_retry_outcome. destruct o as [c|code kind d oc|d|m| |d].
  - eapply triple_bind; [apply classify_rule; lia|]. intros r'.
    destruct (returned_candidate_is_unusable r'); [by eapply after_ambiguous_rule|].
    apply public_result_rule. lia.
  - destruct (_ && _); [apply settle_rule; lia|].
    eapply triple_bind; [apply classify_rule; lia|]. intros r'. apply triple_raise.
    intros. eapply stated_failure; [|done|done]. lia.
  - eapply triple_bind; [apply reconcile_rule; lia|]. intros r'. apply triple_raise.
    intros. eapply stated_failure; [|done|done]. lia.
  - eapply triple_bind; [apply reconcile_rule; lia|]. intros r'. apply triple_raise.
    intros. eapply stated_failure; [|done|done]. lia.
  - eapply triple_bind; [apply reconcile_rule; lia|]. intros r'. apply triple_raise.
    intros. eapply stated_failure; [|done|done]. lia.
  - eapply triple_bind; [apply classify_rule; lia|]. intros r'. by eapply after_ambiguous_rule.
Qed.

Lemma recovery_retry_rule n next x r used :
  next_ok n next -> (n <= used + 1)%nat -> (used < maximum_post_attempts policy)%nat ->
  derived_facts request x ->
  triple (fun w => pass_state used false w /\ reserved_now (derived_generation x) w)
    (submit_recovery_retry env policy request recovery epoch next x r used)
    final_result final_failure.
Proof.
  intros Hn Hle Hlt Hx. unfold submit_recovery_retry.
  assert (forall r', triple (fun w => pass_state used false w /\ reserved_now (derived_generation x) w)
    (co_public_result r') final_result final_failure) as Hpub.
  { intros r'. eapply (triple_weaken _ (pass_state used false)); [|by intros w [? _]|done|done].
    apply public_result_rule. lia. }
  eapply triple_bind; [apply ask_reserved|]. intros [i|]; [apply Hpub|].
  eapply triple_bind; [apply ask_reserved|]. intros [e|].
  - apply triple_raise. intros w [Hw _]. eapply stated_failure; [|done|exact Hw]. lia.
  - eapply triple_bind; [apply submit_rule; [apply Hx|done]|].
    intros [reason [|]|o].
    + exact (recovery_outcome_rule n next x r used _ false Hn Hle Hlt Hx).
    + apply (public_result_rule (used + 1) false). lia.
    + exact (recovery_outcome_rule n next x r used _ _ Hn Hle Hlt Hx).
Qed.

Lemma retry_after_no_match_rule n next x r candidate used :
  next_ok n next -> (n <= used + 1)%nat -> (used < maximum_post_attempts policy)%nat ->
  derived_facts request x ->
  triple (pass_state used false)
    (retry_after_no_match env policy request recovery epoch next x r
      (mk_authorization (req_identity request) (gen_digest (derived_generation x)) candidate) used)
    final_result final_failure.
Proof.
  intros Hn Hle Hlt Hx. eapply triple_bind; [apply ask_plain|].
  intros [i|]; [apply public_result_rule; lia|].
  eapply triple_bind; [apply clock_rule; intros; eapply stated_failure; [|done|done]; lia|].
  intros now. eapply triple_bind;
    [apply triple_map_err, reserve_recovery_rule; [apply Hx|]; intros; eapply stated_failure;
       [|apply attach_state_stated|done]; lia|].
  intros r'. by eapply recovery_retry_rule.
Qed.

Lemma recover_rule n next x r used :
  next_ok n next -> (n <= used + 1)%nat -> (used <= maximum_post_attempts policy)%nat ->
  derived_facts request x ->
  triple (pass_state used false)
    (recover_if_enabled env policy request recovery epoch next x r used)
    final_result final_failure.
Proof.
  intros Hn Hle Hmax Hx. unfold recover_if_enabled.
  destruct (st_state r) as [|c|c d|d|v|d]; try (by apply public_result_rule).
  destruct (_ || _); [by apply public_result_rule|].
  eapply triple_bind; [apply ask_plain|]. intros [i|]; [by apply public_result_rule|].
  eapply triple_bind; [by apply scan_rule|]. intros s.
  destruct s as [van ps|auth|].
  - eapply (triple_weaken _ (pass_state used false)); [|by intros w [? _]|done|done].
    by apply confirm_tree_rule.
  - eapply (triple_weaken _ (fun w => auth = mk_authorization (req_identity request)
      (gen_digest (derived_generation x)) c /\ pass_state used false w));
      [|by intros w [Hw Ha]; auto|done|done].
    apply triple_pure. intros ->. case_bool_decide; [by apply public_result_rule|].
    eapply triple_bind; [apply ask_plain|]. intros [i|]; [by apply public_result_rule|].
    destruct used as [|previous]; [eapply retry_after_no_match_rule; eauto; lia|].
    eapply (triple_bind _ _ _ (fun _ => pass_state (S previous) false));
      [by apply triple_index; [apply backoff_index; lia|]|].
    intros _b. eapply triple_bind; [apply ask_plain|].
    intros [i|]; [by apply public_result_rule|]. eapply retry_after_no_match_rule; eauto; lia.
  - eapply (triple_weaken _ (pass_state used false)); [|by intros w [? _]|done|done].
    by apply public_result_rule.
Qed.

Lemma reconcile_tracking_rule n next x r c used looked :
  next_ok n next -> (n <= used + 1)%nat -> (used <= maximum_post_attempts policy)%nat ->
  derived_facts request x ->
  triple (pass_state used false)
    (reconcile_tracking env policy request recovery epoch next x r c used looked)
    final_result final_failure.
Proof.
  intros Hn Hle Hmax Hx. unfold reconcile_tracking.
  destruct looked as [|[|tx|tx]|failure].
  - by apply public_result_rule.
  - eapply triple_bind; [by apply finish_tracking_rule|]. intros r'. by eapply recover_rule.
  - by apply confirm_rule.
  - eapply triple_bind; [by apply reconcile_rule|]. intros r'. by apply public_result_rule.
  - eapply triple_bind; [by apply tracking_expired_rule|]. intros [|].
    + eapply triple_bind; [by apply finish_tracking_rule|]. intros r'. by eapply recover_rule.
    + eapply triple_bind; [by apply reconcile_rule|]. intros r'. apply triple_raise.
      intros. eapply stated_failure; [done| |done]. by destruct failure.
Qed.

Lemma reconcile_candidate_rule n next x r c used looked :
  next_ok n next -> (n <= used + 1)%nat -> (used <= maximum_post_attempts policy)%nat ->
  derived_facts request x ->
  triple (pass_state used false)
    (reconcile_candidate env policy request recovery epoch next x r c used looked)
    final_result final_failure.
Proof.
  intros Hn Hle Hmax Hx. unfold reconcile_candidate.
  destruct looked as [|[|tx|tx]|failure].
  - by apply public_result_rule.
  - eapply triple_bind; [by apply reconcile_rule|]. intros r'. by eapply recover_rule.
  - by apply confirm_rule.
  - destruct (committed_failure_is_terminal request x).
    + eapply triple_bind; [by apply reconcile_rule|]. intros r'. by apply public_result_rule.
    + eapply triple_bind; [by apply reconcile_rule|]. intros r'. by eapply recover_rule.
  - eapply triple_bind; [by apply reconcile_rule|]. intros r'. by eapply recover_rule.
Qed.

Lemma reconcile_existing_rule n next x r used q :
  next_ok n next -> (n <= used + 1)%nat -> (used <= maximum_post_attempts policy)%nat ->
  derived_facts request x ->
  triple (pass_state used q)
    (reconcile_existing env policy request recovery epoch next x r used)
    final_result final_failure.
Proof.
  intros Hn Hle Hmax Hx.
  eapply (triple_weaken _ (pass_state used false));
    [|intros w; by apply pass_state_weaken|done|done].
  unfold reconcile_existing.
  destruct (st_state r) as [|c|[c|] d|d|v|d]; try (by apply public_result_rule).
  - eapply triple_bind; [apply ask_plain|]. intros [i|]; [by apply public_result_rule|].
    eapply triple_bind; [apply ask_plain|]. intros looked. by eapply reconcile_tracking_rule.
  - eapply triple_bind; [apply ask_plain|]. intros [i|]; [by apply public_result_rule|].
    eapply triple_bind; [apply ask_plain|]. intros looked. by eapply reconcile_candidate_rule.
  - by eapply recover_rule.
Qed.

(** What one attempt leaves. *)
Definition after_attempt (index : nat) (s : AttemptStep) (w : World D) : Prop :=
  match s with
  | StepReturn r => final_result r w
  | StepContinue _ ambiguity => pass_state (index + 1) (negb ambiguity) w
  end.

Lemma step_return_rule P index m :
  triple P m final_result final_failure ->
  triple P (step_return m) (after_attempt index) final_failure.
Proof. intros Hm. eapply triple_bind; [exact Hm|]. intros r. by apply triple_ret. Qed.

Lemma leave_rule k x r (amb : bool) reason :
  (k <= maximum_post_attempts policy)%nat ->
  triple (pass_state k (negb amb)) (leave_undispatched env x r amb reason)
    final_result final_failure.
Proof.
  intros Hk. unfold leave_undispatched. destruct amb; [by apply public_result_rule|].
  eapply triple_bind; [by apply remove_fresh_rule|]. intros _u. apply triple_lift.
  - intros a w Ha Hw. split; [by eapply pass_state_weaken; [..|exact Hw]|].
    intros _. by apply Hw.
  - intros e w He Hw. by eapply quiet_failure.
Qed.

Lemma attempt_outcome_rule n next x r (amb : bool) index o :
  next_ok n next -> (n <= index + 2)%nat -> (index < maximum_post_attempts policy)%nat ->
  derived_facts request x ->
  triple (pass_state (index + 1) (negb amb && negb (may_have_dispatched o)))
    (attempt_outcome env policy request recovery epoch next x r amb index o)
    (after_attempt index) final_failure.
Proof.
  intros Hn Hle Hlt Hx. unfold attempt_outcome.
  destruct o as [c|code kind d oc|d|m| |d]; cbn [may_have_dispatched negb];
    rewrite ?andb_false_r, ?andb_true_r.
  - eapply triple_bind; [apply classify_rule; lia|]. intros r'.
    destruct (returned_candidate_is_unusable r'); [by apply triple_ret|].
    apply step_return_rule. eapply reconcile_existing_rule; eauto; lia.
  - destruct (amb && _); [apply step_return_rule, settle_rule; lia|].
    eapply triple_bind; [apply classify_rule; lia|]. intros r'. destruct amb.
    + apply triple_raise. intros. eapply stated_failure; [|done|done]. lia.
    + apply step_return_rule, public_result_rule. lia.
  - destruct amb.
    + apply triple_raise. intros. eapply stated_failure; [|done|done]. lia.
    + eapply triple_bind; [apply remove_fresh_rule; lia|]. intros _u. apply triple_raise.
      intros. eapply quiet_failure; [|done]. lia.
  - destruct amb.
    + eapply triple_bind; [apply reconcile_rule; lia|]. intros r'. case_bool_decide.
      * apply triple_raise. intros. eapply stated_failure; [|done|done]. lia.
      * by apply triple_ret.
    + eapply triple_bind; [apply remove_fresh_rule; lia|]. intros _u. case_bool_decide.
      * apply triple_raise. intros. eapply quiet_failure; [|done]. lia.
      * by apply triple_ret.
  - destruct amb.
    + eapply triple_bind; [apply reconcile_rule; lia|]. intros r'. case_bool_decide.
      * apply triple_raise. intros. eapply stated_failure; [|done|done]. lia.
      * by apply triple_ret.
    + eapply triple_bind; [apply remove_fresh_rule; lia|]. intros _u. case_bool_decide.
      * apply triple_raise. intros. eapply quiet_failure; [|done]. lia.
      * by apply triple_ret.
  - eapply triple_bind; [apply classify_rule; lia|]. intros r'.
    eapply triple_bind; [apply ask_plain|]. intros [i|]; [|by apply triple_ret].
    apply step_return_rule, public_result_rule. lia.
Qed.

(** A refused registration is the environment's. *)
Lemma register_rule k q g E :
  triple (fun w => pass_state k q w /\ reserved_now g w) (register_in_flight env)
    (fun a w => (registers -> a = None) /\ pass_state k q w /\ reserved_now g w) E.
Proof. intros w [Hw Hr]. simpl. by split_and!. Qed.

Lemma attempt_rule n next x r (amb : bool) index :
  next_ok n next -> (n <= index + 2)%nat -> (index < maximum_post_attempts policy)%nat ->
  derived_facts request x ->
  triple (fun w => pass_state index (negb amb) w /\ reserved_now (derived_generation x) w)
    (attempt env policy request recovery epoch next x r amb index)
    (after_attempt index) final_failure.
Proof.
  intros Hn Hle Hlt Hx. unfold attempt.
  eapply triple_bind; [apply ask_reserved|]. intros [i|].
  { eapply (triple_weaken _ (pass_state index (negb amb))); [|by intros w [? _]|done|done].
    apply step_return_rule, leave_rule. lia. }
  eapply triple_bind; [apply register_rule|]. intros [e|].
  - apply triple_pure. intros Hreg.
    eapply (triple_weaken _ (pass_state index (negb amb))); [|by intros w [? _]|done|done].
    destruct amb.
    + eapply (triple_bind _ _ _ (fun _ => pass_state index false)); [by apply triple_ret|].
      intros _u. apply triple_raise. intros w Hw.
      split; [eapply pass_state_weaken; [..|exact Hw]; [lia|done]|].
      intros Hall. by specialize (Hreg Hall).
    + eapply triple_bind; [apply remove_fresh_rule; lia|]. intros _u. apply triple_raise.
      intros. eapply quiet_failure; [|done]. lia.
  - apply triple_pure. intros _.
    eapply triple_bind; [apply submit_rule; [apply Hx|done]|]. intros [reason [|]|o].
    + eapply triple_weaken; [by eapply (attempt_outcome_rule n next x r amb index)| |done|done].
      intros w. apply pass_state_weaken; [done|]. by destruct reason, amb.
    + apply step_return_rule. apply (leave_rule (index + 1)). lia.
    + by eapply attempt_outcome_rule.
Qed.

Lemma readmit_rule loop x index :
  (index + 1 <= maximum_post_attempts policy)%nat ->
  (forall x' r, derived_facts request x' ->
     triple (fun w => pass_state (index + 1) true w /\ reserved_now (derived_generation x') w)
       (loop x' r) final_result final_failure) ->
  triple (pass_state (index + 1) true) (readmit env request loop x index)
    final_result final_failure.
Proof.
  intros Hle Hloop. unfold readmit.
  eapply triple_bind; [apply ask_plain|]. intros [reason|].
  { apply triple_lift.
    - intros a w Ha Hw. split; [by eapply pass_state_weaken; [..|exact Hw]|].
      intros _. by apply Hw.
    - intros e w He Hw. by eapply quiet_failure. }
  eapply triple_bind; [apply now_rule; intros; by eapply quiet_failure|]. intros now.
  eapply triple_bind; [apply admit_rule; intros; by eapply quiet_failure|].
  assert (forall a r, triple (fun w => pass_state (index + 1) true w /\ admitted request a (w_db w))
    (co_public_result r) final_result final_failure) as Hpub.
  { intros a r. eapply (triple_weaken _ (pass_state (index + 1) true));
      [by apply public_result_rule|by intros w [? _]|done|done]. }
  intros [|r|r|retry r fresh]; [..|]; try apply Hpub.
  - apply triple_raise. intros w [Hw _]. by eapply quiet_failure.
  - destruct fresh; cbn [andb]; [|apply Hpub]. case_bool_decide; [|apply Hpub].
    intros w (Hw & Hx & Hf). apply Hloop; [done|]. split; [done|]. by apply Hf.
Qed.

(** The loop, while fuel covers the attempts that are left. *)
Lemma attempt_loop_rule fuel : forall x r amb index,
  (index < maximum_post_attempts policy)%nat ->
  (maximum_post_attempts policy - index <= fuel)%nat ->
  derived_facts request x ->
  triple (fun w => pass_state index (negb amb) w /\ reserved_now (derived_generation x) w)
    (attempt_loop env policy request recovery epoch fuel x r amb index)
    final_result final_failure.
Proof.
  induction fuel as [|fuel IH]; intros x r amb index Hi Hf Hx; [lia|].
  cbn [attempt_loop]. rewrite bool_decide_eq_false_2 by lia.
  eapply triple_bind.
  { apply (attempt_rule (index + 1)); [|lia|done|done].
    intros x' r' i Hle Hx'. apply IH; [lia|lia|done]. }
  intros [result|reserved amb']; cbn [after_attempt].
  { by apply triple_ret. }
  case_bool_decide; [apply public_result_rule; lia|].
  eapply (triple_bind _ _ _ (fun _ => pass_state (index + 1) (negb amb')));
    [by apply triple_index; [apply backoff_index; lia|]|].
  intros _b. destruct amb'; simpl.
  - eapply triple_bind; [apply reserve_after_backoff_rule; lia|].
    intros [r'|r'].
    + intros w (Hw & _ & Hres). apply IH; [lia|lia|done|]. by split.
    + eapply (triple_weaken _ (pass_state (index + 1) false)); [|by intros w [? _]|done|done].
      apply public_result_rule. lia.
  - apply readmit_rule; [lia|]. intros x' r' Hx'.
    apply (IH x' r' false (index + 1)%nat); [lia|lia|done].
Qed.

Lemma submit_reserved_ok : next_ok 0 (submit_reserved_attempts env policy request recovery epoch).
Proof.
  intros x r i Hi Hx. apply attempt_loop_rule; [lia|lia|done].
Qed.

(** ** The whole pass *)
Lemma pass_ready_rule x r fresh :
  triple (fun w => pass_state 0 true w /\ admitted request (Ready x r fresh) (w_db w))
    (pass_ready env policy request recovery epoch x r fresh) final_result final_failure.
Proof.
  destruct Hpolicy as [Hmax _].
  assert (derived_facts request x -> triple (pass_state 0 true)
    (reconcile_existing env policy request recovery epoch
      (submit_reserved_attempts env policy request recovery epoch) x r 0)
    final_result final_failure) as Hrec.
  { intros Hx. eapply (reconcile_existing_rule 0); [apply submit_reserved_ok|lia|lia|done]. }
  unfold pass_ready. destruct fresh.
  { intros w (Hw & Hx & Hf). destruct (Hf eq_refl) as (_ & _ & Hr).
    apply submit_reserved_ok; [lia|done|]. split; [|done].
    by eapply pass_state_weaken; [..|exact Hw]. }
  eapply (triple_weaken _ (fun w => derived_facts request x /\ pass_state 0 true w));
    [|by intros w (Hw & Hx & _)|done|done].
  apply triple_pure. intros Hx. destruct (_ && _); [|by apply Hrec].
  eapply triple_bind; [apply ask_plain|]. intros [i|]; [by apply Hrec|].
  eapply triple_bind; [apply clock_rule; intros; eapply quiet_failure; [|done]; lia|]. intros now.
  eapply triple_bind; [apply triple_map_err, reserve_ambiguous_rule; intros;
    eapply quiet_failure; [|done]; lia|].
  intros r' w (Hw & _ & Hr). apply submit_reserved_ok; [lia|done|]. split; [|done].
  by eapply pass_state_weaken; [..|exact Hw].
Qed.

Lemma readmission_rule (a : StoreAdmission) now :
  triple (fun w => pass_state 0 true w /\ admitted request a (w_db w))
    (readmit_abandoned env request recovery epoch a now)
    (fun a w => pass_state 0 true w /\ admitted request a (w_db w)) final_failure.
Proof.
  unfold readmit_abandoned. destruct a as [|r|r|x r fresh]; try by apply triple_ret.
  case_bool_decide; [|by apply triple_ret].
  eapply (triple_weaken _ (pass_state 0 true) _ _
    (fun a w => pass_state 0 true w /\ admitted request a (w_db w))); [|by intros w [? _]|done|done].
  eapply triple_bind; [apply ask_plain|]. intros [i|]; [by apply triple_ret|].
  apply triple_map_err, admit_rule. intros. eapply quiet_failure; [|done]. lia.
Qed.

Lemma advance_rule :
  triple (pass_state 0 true) (advance_in_epoch env policy request recovery epoch)
    final_result final_failure.
Proof.
  assert (forall e w, pass_state 0 true w -> final_failure e w) as Hfail.
  { intros. eapply quiet_failure; [|done]. lia. }
  assert (forall a r, triple (fun w => pass_state 0 true w /\ admitted request a (w_db w))
    (co_public_result r) final_result final_failure) as Hpub.
  { intros a r. eapply (triple_weaken _ (pass_state 0 true));
      [apply public_result_rule; lia|by intros w [? _]|done|done]. }
  unfold advance_in_epoch. eapply triple_bind; [apply ask_plain|].
  intros [e|]; [apply triple_raise; auto|].
  eapply triple_bind; [apply ask_plain|]. intros i.
  eapply triple_bind; [apply now_rule, Hfail|]. intros now.
  eapply triple_bind; [apply admit_rule, Hfail|]. intros a.
  eapply triple_bind; [apply readmission_rule|].
  clear a. intros [|r|r|x r fresh]; try apply Hpub; [|apply pass_ready_rule].
  eapply (triple_weaken _ (pass_state 0 true)); [|by intros w [? _]|done|done].
  eapply triple_bind; [apply ask_plain|]. intros [[]|]; [|apply triple_raise; auto..].
  apply triple_ret. intros w Hw. split; [by eapply pass_state_weaken; [..|exact Hw]; [lia|]|].
  intros _. by apply Hw.
Qed.
End pass.

(** ** Programs that send nothing *)
Section silent.
Context `{Externals} `{SqliteText} {D : Type} `{SubmissionDomain D}.
Context (env : Environment) (policy : CoordinatorPolicy).
Context (request : StoreAdvancementRequest) (recovery : ChainRecoveryMode) (epoch : Z).

Definition silent {A : Type} (m : Co D A) : Prop := forall w, w_posts (m w).2 = w_posts w.

Lemma silent_ret {A : Type} (a : A) : silent (co_ret a).
Proof. done. Qed.

Lemma silent_raise {A : Type} e : silent (A:=A) (co_raise e).
Proof. done. Qed.

Lemma silent_lift {A : Type} (r : result A ChainSubmissionFailure) : silent (co_lift r).
Proof. done. Qed.

Lemma silent_ask {A : Type} (f : nat -> A) : silent (co_ask f).
Proof. done. Qed.

Lemma silent_bind {A B : Type} (m : Co D A) (k : A -> Co D B) :
  silent m -> (forall a, silent (k a)) -> silent (co_bind m k).
Proof.
  intros Hm Hk w. specialize (Hm w). unfold co_bind.
  destruct (m w) as [[a|e| |] w']; simpl in *; try done. by rewrite Hk.
Qed.

Lemma silent_map_err {A : Type} f (m : Co D A) : silent m -> silent (co_map_err f m).
Proof.
  intros Hm w. specialize (Hm w). unfold co_map_err. by destruct (m w) as [[a|e| |] w'].
Qed.

Lemma silent_store {A : Type} op
    (f : (nat -> option SqlError) -> Db D -> result A ChainSubmissionFailure * Db D) :
  silent (co_store env op f).
Proof. intros w. unfold co_store. by destruct (f _ _). Qed.

(** Walks a program whose leaves send nothing. *)
Ltac silence :=
  repeat first
    [ progress intros
    | apply silent_ret | apply silent_raise | apply silent_lift | apply silent_ask
    | apply silent_store
    | apply silent_map_err
    | apply silent_bind
    | progress unfold co_public_result, commit_result, now_seconds, interruption,
        register_in_flight, reconcile_with_durable_state, tracking_expired, tracking_expired_at,
        finish_inconclusive_tracking, co_confirm_tree, confirm, scan_tree, readmit_abandoned
    | case_match ].

Hypothesis Himported : is_imported_delegation request = true.

Lemma imported_recovery_silent next x r used :
  silent (recover_if_enabled env policy request recovery epoch next x r used).
Proof.
  unfold recover_if_enabled. rewrite Himported, orb_true_r.
  destruct (st_state r); apply silent_lift.
Qed.

Lemma imported_reconcile_silent next x r used :
  silent (reconcile_existing env policy request recovery epoch next x r used).
Proof.
  pose proof imported_recovery_silent as Hrec.
  unfold reconcile_existing, reconcile_tracking, reconcile_candidate.
  silence; apply Hrec.
Qed.

(** A program's value, where it has one. *)
Definition yields {A : Type} (m : Co D A) (phi : A -> Prop) : Prop :=
  forall w a w', m w = (Done a, w') -> phi a.

Lemma silent_bind_yields {A B : Type} (m : Co D A) (k : A -> Co D B) phi :
  yields m phi -> silent m -> (forall a, phi a -> silent (k a)) -> silent (co_bind m k).
Proof.
  intros Hy Hm Hk w. specialize (Hm w). unfold co_bind.
  destruct (m w) as [[a|e| |] w'] eqn:Hw; simpl in *; try done.
  rewrite Hk; [done|]. by eapply Hy.
Qed.

Definition not_fresh (a : StoreAdmission) : Prop :=
  match a with Ready _ _ fresh => fresh = false | _ => True end.

Lemma imported_admission_not_fresh work n now :
  yields (s_admit env request work n now) not_fresh.
Proof.
  intros w a w'. unfold s_admit, co_store.
  pose proof (store_admit_result (env_fault env (w_tick w)) request work n now (w_db w)) as Hr.
  destruct (store_admit _ _ _ _ _ _) as [[b|e] db']; [|done]. intros [= -> <-].
  specialize (Hr a eq_refl). destruct a as [| | |x r [|]]; try done.
  destruct Hr as [_ Hf]. destruct (Hf eq_refl) as [Hno _]. by rewrite Himported in Hno.
Qed.

Lemma imported_readmission_not_fresh a now :
  not_fresh a ->
  yields (readmit_abandoned env request recovery epoch a now) not_fresh.
Proof.
  intros Ha w b w'. unfold readmit_abandoned. destruct a; try (by intros [= <- <-]).
  case_bool_decide; [|by intros [= <- <-]]. unfold co_bind, interruption, co_ask.
  destruct (interruption_at _ _ _); [by intros [= <- <-]|].
  unfold co_map_err. destruct (s_admit _ _ _ _ _ _) as [[c|e| |] w1] eqn:Hs; try done.
  intros [= <- <-]. by eapply imported_admission_not_fresh.
Qed.

Lemma imported_pass_silent : silent (advance_in_epoch env policy request recovery epoch).
Proof.
  unfold advance_in_epoch. apply silent_bind; [apply silent_ask|]. intros [e|]; [done|].
  apply silent_bind; [apply silent_ask|]. intros i.
  apply silent_bind; [silence|]. intros now.
  eapply silent_bind_yields; [apply imported_admission_not_fresh|silence|]. intros a Ha.
  eapply silent_bind_yields; [by apply imported_readmission_not_fresh|silence|].
  clear a Ha. intros [|r|r|x r fresh] Ha; try silence.
  simpl in Ha. subst fresh. unfold pass_ready. rewrite Himported, andb_false_r.
  apply imported_reconcile_silent.
Qed.
End silent.

(** ** What one pass guarantees *)
Definition start_world {D} (db : Db D) : World D := mk_world 0 db [] [].

(** A pass from a database on which nothing is logged yet. *)
Definition run_pass `{Externals} `{SqliteText} {D : Type} `{SubmissionDomain D}
    (env : Environment) (policy : CoordinatorPolicy) (request : StoreAdvancementRequest)
    (recovery : ChainRecoveryMode) (db : Db D) : outcome ChainSubmissionResult * World D :=
  advance_with_recovery env policy request recovery (start_world db).

(** What [CoordinatorPolicy::new] documents in its error message; durations in
    nanoseconds. *)
Definition policy_accepts (tracking_window : Z) (attempts : nat) (backoffs : list Z) : Prop :=
  ((1000000000 | tracking_window) /\ tracking_window <> 0) /\ (1 <= attempts <= 8)%nat /\
  (length backoffs + 1 = attempts)%nat /\
  Forall (fun delay => delay <> 0 /\ delay <= 600 * 1000000000) backoffs.

Lemma policy_new_ok tw n bs p :
  policy_new tw n bs = Ok p -> policy_ok p /\ maximum_post_attempts p = n.
Proof.
  unfold policy_new. destruct (_ || _) eqn:Hc; [done|]. intros [= <-]. simpl.
  rewrite !orb_false_iff, negb_false_iff, !bool_decide_eq_false in Hc.
  rewrite negb_false_iff, bool_decide_eq_true in Hc. unfold policy_ok. simpl. lia.
Qed.

Section guarantees.
Context `{Externals} `{SqliteText} {D : Type} `{SubmissionDomain D}.
Context (env : Environment) (request : StoreAdvancementRequest) (recovery : ChainRecoveryMode).
Context (tw : Z) (n : nat) (bs : list Z) (policy : CoordinatorPolicy) (db : Db D).

Notation pass := (run_pass env policy request recovery db).

Lemma pass_outcome :
  policy_new tw n bs = Ok policy -> (0 < env_endpoint_count env)%nat ->
  match pass with
  | (Done r, w) => final_result policy db r w
  | (Raised e, w) => final_failure env policy db e w
  | _ => False
  end.
Proof.
  intros [Hp _]%policy_new_ok Hc. unfold run_pass, advance_with_recovery, co_bind, co_ask. simpl.
  eapply advance_rule; [done|done|]. split_and!; simpl; [constructor|lia|done|constructor].
Qed.

(** C8 (bounded pass): under a policy that [CoordinatorPolicy::new] accepts and
    with at least one endpoint, a pass ends with a result or a failure in every
    environment (it neither panics nor runs out of steps) and sends at most the
    policy's attempts, never more than eight. *)
Theorem pass_returns_within_budget :
  policy_new tw n bs = Ok policy -> (0 < env_endpoint_count env)%nat ->
  ((exists r, pass.1 = Done r) \/ (exists e, pass.1 = Raised e)) /\
  (length (w_posts pass.2) <= n <= 8)%nat.
Proof.
  intros Hnew Hc. pose proof (pass_outcome Hnew Hc) as Hp.
  apply policy_new_ok in Hnew as [[Hle _] <-]. unfold MAX_POST_ATTEMPTS_PER_PASS in Hle.
  destruct pass as [[r|e| |] w]; try done; destruct Hp as [(_ & Hl & _) _]; simpl;
    (split; [eauto|lia]).
Qed.

(** C9 (reserve before sending): whenever a pass calls the submission endpoint,
    the database holds, for exactly the generation it sends, a row in a state
    that permits dispatch: a fresh reservation or a hashless recovery. *)
Theorem posts_are_reserved :
  policy_new tw n bs = Ok policy -> (0 < env_endpoint_count env)%nat ->
  Forall post_reserved (w_posts pass.2).
Proof.
  intros Hnew Hc. pose proof (pass_outcome Hnew Hc) as Hp.
  destruct pass as [[r|e| |] w]; try done; apply Hp.
Qed.

(** C25 (cancellation is truthful): a pass that reports a cancellation has sent
    nothing that the chain may have received. *)
Theorem cancelled_means_undispatched :
  policy_new tw n bs = Ok policy -> (0 < env_endpoint_count env)%nat ->
  pass.1 = Done RCancelled -> undispatched pass.2.
Proof.
  intros Hnew Hc Hr. pose proof (pass_outcome Hnew Hc) as Hp.
  destruct pass as [[r|e| |] w]; try done. simpl in *. injection Hr as ->. by apply Hp.
Qed.

(** Failures carry the strongest state: as long as the in-flight registry
    accepts registrations, a failure without a lifecycle state means that
    nothing the pass sent can have reached the chain. *)
Theorem stateless_failure_means_undispatched e :
  policy_new tw n bs = Ok policy -> (0 < env_endpoint_count env)%nat ->
  registers env -> pass.1 = Raised e -> fail_strongest_state e = None -> undispatched pass.2.
Proof.
  intros Hnew Hc Hreg He Hs. pose proof (pass_outcome Hnew Hc) as Hp.
  destruct pass as [[r|e'| |] w]; try done. simpl in *. injection He as ->. by apply Hp.
Qed.

(** The store is the only writer: the database a pass leaves is the one it
    found after the store operations it called, so the table invariant
    survives every pass. *)
Theorem pass_runs_store_operations :
  policy_new tw n bs = Ok policy -> (0 < env_endpoint_count env)%nat ->
  w_db pass.2 = run_history (w_history pass.2) db /\
  (table_invariant (db_table db) -> table_invariant (db_table (w_db pass.2))).
Proof.
  intros Hnew Hc. pose proof (pass_outcome Hnew Hc) as Hp.
  assert (w_db pass.2 = run_history (w_history pass.2) db) as Hdb.
  { destruct pass as [[r|e| |] w]; try done; apply Hp. }
  split; [done|]. rewrite Hdb. apply run_history_invariant.
Qed.

(** Imported delegations are never sent: a pass for a delegation imported
    from a capability calls no submission endpoint, whatever the policy and
    the recovery mode. *)
Theorem imported_delegation_never_posts :
  is_imported_delegation request = true -> w_posts pass.2 = [].
Proof.
  intros Himp. unfold run_pass, advance_with_recovery, co_bind, co_ask. simpl.
  by rewrite imported_pass_silent.
Qed.
End guarantees.

(** Policy validation: [CoordinatorPolicy::new] accepts exactly a nonzero
    whole-second window, one to eight attempts and one nonzero backoff of at
    most ten minutes between attempts. *)
Theorem policy_new_spec tw n bs :
  is_ok (policy_new tw n bs) = true <-> policy_accepts tw n bs.
Proof.
  assert (existsb (fun delay => (delay =? 0) || (MAX_RETRY_BACKOFF <? delay)) bs = false <->
    Forall (fun delay => delay <> 0 /\ delay <= 600 * 1000000000) bs) as Hbs.
  { rewrite <- not_true_iff_false, existsb_exists, Forall_forall. split.
    - intros Hno x Hx. destruct (Z.eq_dec x 0) as [->|Hz];
        [exfalso; apply Hno; exists 0; split; [exact Hx|reflexivity]|]. split; [done|].
      apply Z.nlt_ge. intros Hlt. apply Hno. exists x. split; [done|].
      apply orb_true_iff. right. by apply Z.ltb_lt.
    - intros Hall (x & Hx & [Hb%Z.eqb_eq|Hb%Z.ltb_lt]%orb_true_iff); specialize (Hall x Hx);
        unfold MAX_RETRY_BACKOFF in Hb; lia. }
  unfold policy_new, policy_accepts. rewrite <- Hbs.
  transitivity (negb ((tw / 1000000000 =? 0) || negb (tw =? tw / 1000000000 * 1000000000)
    || bool_decide (n = 0)%nat || bool_decide (MAX_POST_ATTEMPTS_PER_PASS < n)%nat
    || negb (bool_decide (length bs + 1 = n)%nat)
    || existsb (fun delay => (delay =? 0) || (MAX_RETRY_BACKOFF <? delay)) bs) = true).
  { by destruct (_ || _). }
  rewrite negb_true_iff, !orb_false_iff, !negb_false_iff, !bool_decide_eq_false,
    bool_decide_eq_true, Z.eqb_eq, Z.eqb_neq.
  unfold MAX_POST_ATTEMPTS_PER_PASS. rewrite <- Z.mod_divide by lia.
  split; intros; destruct_and!; split_and!; try done; try lia;
    Z.to_euclidean_division_equations; lia.
Qed.

(** ** Concrete passes *)

(** A chain that accepts the submission, then reports it committed. *)
Definition example_env : Environment :=
  mk_environment (fun _ => None) (fun t => Ok (100 + Z.of_nat t)) (fun _ => false) (fun _ => 0)
    (fun _ => None) (fun _ => RaceFinished (Accepted example_hash))
    (fun _ => LookupObserved (CommittedSuccess (mk_committed 9 0 [example_event]))) (fun _ => Ok ScanNoMatch)
    (fun _ => None) (fun _ _ => None) 2.

Definition example_policy : CoordinatorPolicy := mk_policy 60 2 [1000000000].

Definition example_pass (env : Environment)
    : outcome ChainSubmissionResult * World unit :=
  @run_pass example_externals example_text unit example_domain env example_policy
    (request_vote example_identity) StatusOnly (mk_db ∅ tt).

(** A chain that answers every POST with [race], with a registry that is
    poisoned from a tick on and a host that answers every backoff with [wait]. *)
Definition with_post (race : PostRace) (poisoned_from : nat) (wait : option Interruption)
    : Environment :=
  mk_environment (env_acquire example_env) (env_clock example_env) (env_cancelled example_env)
    (env_epoch example_env)
    (fun t => if bool_decide (poisoned_from <= t)%nat
              then Some (without_state FInvariantViolation
                (lit "chain submission in-flight registry is poisoned"))
              else None)
    (fun _ => race) (env_lookup example_env) (env_scan example_env) (fun _ => wait)
    (env_fault example_env) 2.

Definition is_done (f : ChainSubmissionResult -> bool) (o : outcome ChainSubmissionResult)
    : bool := match o with Done r => f r | _ => false end.

Definition raised (o : outcome ChainSubmissionResult) : option ChainSubmissionFailure :=
  match o with Raised e => Some e | _ => None end.

(** The accepted and committed submission is confirmed after a single POST. *)
Example example_pass_confirms :
  is_done (fun r => match r with RConfirmed _ => true | _ => false end)
    (example_pass example_env).1 = true /\
  length (w_posts (example_pass example_env).2) = 1%nat.
Proof. vm_compute. auto. Qed.

(** Poisoned registry: a pass whose first POST was possibly dispatched and
    whose second registration is refused fails without a lifecycle state,
    although its row records the possible dispatch. *)
Theorem poisoned_registry_loses_state :
  let '(o, w) := example_pass
    (with_post (RaceFinished (PossiblyDispatched example_ambiguity)) 10 None) in
  (exists e, raised o = Some e /\ fail_strongest_state e = None) /\ ~ undispatched w /\
  (c_state <$> db_table (w_db w) !! submission_identity_key example_identity)
    = Some "recovering"%string.
Proof.
  destruct (example_pass _) as [o w] eqn:Hp.
  assert (raised (example_pass (with_post (RaceFinished (PossiblyDispatched example_ambiguity))
      10 None)).1 = Some (without_state FInvariantViolation
        (lit "chain submission in-flight registry is poisoned")) /\
    map post_dispatched (w_posts (example_pass (with_post
      (RaceFinished (PossiblyDispatched example_ambiguity)) 10 None)).2) = [true] /\
    (c_state <$> db_table (w_db (example_pass (with_post
      (RaceFinished (PossiblyDispatched example_ambiguity)) 10 None)).2)
      !! submission_identity_key example_identity) = Some "recovering"%string) as (Ho & Hd & Hs)
    by (vm_compute; auto).
  rewrite Hp in Ho, Hd, Hs. simpl in Ho, Hd, Hs. split_and!; [eauto| |done].
  unfold undispatched. destruct (w_posts w) as [|q l]; [done|]. injection Hd as Hd _.
  intros Hf%Forall_inv. congruence.
Qed.

#[local] Existing Instances example_externals example_text example_domain.

Lemma pass_returns_within_budget_witness :
  policy_new 60000000000 2 [1000000000] = Ok example_policy /\
  (length (w_posts (example_pass example_env).2) <= 2 <= 8)%nat.
Proof.
  split; [reflexivity|].
  refine (proj2 (pass_returns_within_budget example_env (request_vote example_identity) StatusOnly 60000000000 2
    [1000000000] example_policy (mk_db (D:=unit) ∅ tt) _ _)); [reflexivity|simpl; lia].
Defined.

Lemma posts_are_reserved_witness :
  length (w_posts (example_pass example_env).2) = 1%nat /\
  Forall post_reserved (w_posts (example_pass example_env).2).
Proof.
  split; [vm_compute; reflexivity|].
  refine (posts_are_reserved example_env (request_vote example_identity) StatusOnly 60000000000 2
    [1000000000] example_policy (mk_db (D:=unit) ∅ tt) _ _); [reflexivity|simpl; lia].
Defined.

Lemma cancelled_means_undispatched_witness :
  (example_pass (with_post (RaceFinished NotDispatchedByServer) 100 (Some Cancelled))).1
    = Done RCancelled /\
  undispatched
    (example_pass (with_post (RaceFinished NotDispatchedByServer) 100 (Some Cancelled))).2.
Proof.
  split; [vm_compute; reflexivity|].
  refine (cancelled_means_undispatched
    (with_post (RaceFinished NotDispatchedByServer) 100 (Some Cancelled))
    (request_vote example_identity) StatusOnly 60000000000 2
    [1000000000] example_policy (mk_db (D:=unit) ∅ tt) _ _ _);
    [reflexivity|simpl; lia|vm_compute; reflexivity].
Defined.

Definition local_failure_env : Environment :=
  mk_environment (env_acquire example_env) (env_clock example_env) (env_cancelled example_env)
    (env_epoch example_env) (fun _ => None)
    (fun _ => RaceFinished (LocalFailure example_ambiguity)) (env_lookup example_env)
    (env_scan example_env) (fun _ => None) (env_fault example_env) 2.

Lemma stateless_failure_means_undispatched_witness :
  length (w_posts (example_pass local_failure_env).2) = 1%nat /\
  undispatched (example_pass local_failure_env).2.
Proof.
  split; [vm_compute; reflexivity|].
  refine (stateless_failure_means_undispatched local_failure_env (request_vote example_identity) StatusOnly 60000000000 2
    [1000000000] example_policy (mk_db (D:=unit) ∅ tt)
    (without_state FProtocol (diag_message example_ambiguity)) _ _ _ _ _);
    [reflexivity|simpl; lia|intros t; reflexivity|vm_compute; reflexivity|reflexivity].
Defined.

Lemma pass_runs_store_operations_witness :
  length (w_history (example_pass example_env).2) = 3%nat /\
  table_invariant (db_table (w_db (example_pass example_env).2)).
Proof.
  split; [vm_compute; reflexivity|].
  refine (proj2 (pass_runs_store_operations example_env (request_vote example_identity) StatusOnly 60000000000 2
    [1000000000] example_policy (mk_db (D:=unit) ∅ tt) _ _) _);
    [reflexivity|simpl; lia|apply empty_table_invariant].
Defined.

Lemma imported_delegation_never_posts_witness :
  w_posts (run_pass example_env example_policy (request_imported_delegation example_identity)
    ExactTree (mk_db (D:=unit) ∅ tt)).2 = [].
Proof.
  refine (@imported_delegation_never_posts example_externals example_text unit example_domain
    example_env (request_imported_delegation example_identity) ExactTree
    example_policy (mk_db ∅ tt) _). reflexivity.
Defined.
