(* ===== verification/Recovery.v ===== *)
(** * The commitment-tree recovery scan

    Models [chain_submission/recovery.rs]: one locked pass that downloads a
    fixed snapshot of the vote commitment tree from a replica, page by page,
    and searches it for a generation's exact output layout. A pass is a program
    over a budget (requests, bytes, a deadline) that asks an environment for
    the clock, the host's interruption and the answers of the transport. The
    sliding-window search, the block and root checks, the pagination bound and
    the fail-over between endpoints are those of the source; what is searched
    is compared, in [RecoveryProofs.v], with the plain list of occurrences. *)

From stdpp Require Import base gmap strings list numbers pretty.
From S2P Require Import Prelude Identity Outcome Lifecycle Record Coordinator.
Local Open Scope Z_scope.
Local Open Scope voting_scope.

(** ** Third-party functions

    [serde_json] decoding of the two responses and the root of an
    [incrementalmerkletree] frontier over the leaves appended to it. The only
    assumption is that a decoded [u64] is not negative. A [MerkleHashVote] is
    its canonical 32-byte encoding. *)
Notation MerkleHashVote := (list Z) (only parsing).

(** *** Responses *)
Record TreeState := mk_tree_state {
  ts_next_index : Z;
  ts_root : option text;
  ts_height : Z
}.

Record LatestResponse := mk_latest { latest_tree : option TreeState }.

Record LeafBlock := mk_block {
  block_height : Z;
  block_start_index : Z;
  block_leaves : list text;
  block_root : option text
}.

Record LeavesResponse := mk_leaves {
  page_blocks : list LeafBlock;
  page_next_from_height : Z
}.

Class TreeExternals := {
  json_latest : list Z -> option LatestResponse;
  json_leaves : list Z -> option LeavesResponse;
  frontier_root : list MerkleHashVote -> MerkleHashVote;
  json_latest_u64 : forall body tree,
    json_latest body = Some (mk_latest (Some tree)) -> 0 <= ts_next_index tree
}.

(** ** Limits *)
Definition VOTE_SDK_PAGE_LEAF_TARGET : Z := 5000.
Definition MAX_RECOVERY_RESPONSE_BYTES : Z := 8 * 1024 * 1024.
Definition MAX_RECOVERY_TOTAL_BYTES : Z := 1000000000.
Definition RECOVERY_PASS_TIMEOUT : Z := 15 * 60 * 1000000000.

Definition maximum_whole_block_page_count (leaves target : Z) : Z :=
  let paired_leaf_count := target + 1 in
  let complete_page_pairs := leaves / paired_leaf_count in
  let trailing_page := if leaves mod paired_leaf_count =? 0 then 0 else 1 in
  complete_page_pairs * 2 + trailing_page.

Definition MAX_RECOVERY_LEAF_REQUESTS : nat :=
  Z.to_nat (maximum_whole_block_page_count TREE_CAPACITY VOTE_SDK_PAGE_LEAF_TARGET).

(** ** Programs of a pass *)

(** A response of the transport, and the ways a request ends. *)
Record HttpResponse := mk_response {
  http_status : Z;
  http_content_type : option text;
  http_body : list Z
}.

Inductive GetAnswer :=
| GetTimedOut
| GetFailed (error_message : text)
| GetResponse (r : HttpResponse).

Record ScanEnvironment := mk_scan_environment {
  sc_interrupted : nat -> bool;
  sc_now : nat -> Z;
  sc_get : nat -> text -> GetAnswer
}.

Record RecoveryPassBudget := mk_budget {
  budget_deadline : Z;
  budget_leaf_requests : nat;
  budget_response_bytes : Z
}.

Record ScanState := mk_scan_state {
  sc_tick : nat;
  sc_budget : RecoveryPassBudget
}.

Inductive scan_outcome (A : Type) :=
| ScDone (a : A)
| ScFailed (e : RecoveryScanFailure)
| ScFuel.
Arguments ScDone {A} _.
Arguments ScFailed {A} _.
Arguments ScFuel {A}.

Definition Sc (A : Type) : Type := ScanState -> scan_outcome A * ScanState.

Definition sc_ret {A} (a : A) : Sc A := fun s => (ScDone a, s).
Definition sc_fail {A} (e : RecoveryScanFailure) : Sc A := fun s => (ScFailed e, s).
Definition sc_bind {A B} (m : Sc A) (k : A -> Sc B) : Sc B := fun s =>
  match m s with
  | (ScDone a, s') => k a s'
  | (ScFailed e, s') => (ScFailed e, s')
  | (ScFuel, s') => (ScFuel, s')
  end.
Definition sc_lift {A} (r : result A RecoveryScanFailure) : Sc A :=
  match r with Ok a => sc_ret a | Err e => sc_fail e end.
Definition sc_ask {A} (answer : nat -> A) : Sc A := fun s =>
  (ScDone (answer (sc_tick s)), mk_scan_state (S (sc_tick s)) (sc_budget s)).
Definition sc_get_budget : Sc RecoveryPassBudget := fun s => (ScDone (sc_budget s), s).
Definition sc_set_budget (b : RecoveryPassBudget) : Sc unit := fun s =>
  (ScDone tt, mk_scan_state (sc_tick s) b).

Declare Scope scan_scope.
Delimit Scope scan_scope with scan.
Notation "'ask!' x ':=' m 'in' k" := (sc_bind m (fun x => k))
  (at level 10, x pattern, m at level 100, k at level 200) : scan_scope.
Local Open Scope scan_scope.

Definition invalid (message : text) : ChainSubmissionDiagnostic :=
  from_redacted_message InvalidProtocolResponse message.

Definition scan_invalid (message : string) : RecoveryScanFailure :=
  ScanInvalid (invalid (lit message)).

Definition bounded_pass_exhausted : RecoveryScanFailure :=
  scan_invalid "tree recovery exhausted its bounded pass".

(** *** Response metadata *)

Definition to_ascii_lowercase (c : Z) : Z := if (65 <=? c) && (c <=? 90) then c + 32 else c.
Definition eq_ignore_ascii_case (a b : text) : bool :=
  bool_decide (map to_ascii_lowercase a = map to_ascii_lowercase b).

(** [split(';').next()]: the part before the first semicolon. *)
Fixpoint before_semicolon (t : text) : text :=
  match t with
  | c :: t' => if c =? 59 then [] else c :: before_semicolon t'
  | [] => []
  end.

Definition has_json_content_type (content_type : option text) : bool :=
  match content_type with
  | Some t => eq_ignore_ascii_case (trim (before_semicolon t)) (lit "application/json")
  | None => false
  end.

Section scan.
Context `{Externals} `{TreeExternals}.
Variable env : ScanEnvironment.

(** ** The budget *)
Definition budget_new : Sc unit :=
  ask! now := sc_ask (sc_now env) in
  sc_set_budget (mk_budget (now + RECOVERY_PASS_TIMEOUT) 0 0).

Definition begin_leaf_request : Sc unit :=
  ask! b := sc_get_budget in
  if bool_decide (MAX_RECOVERY_LEAF_REQUESTS <= budget_leaf_requests b)%nat
  then sc_fail bounded_pass_exhausted
  else
    ask! now := sc_ask (sc_now env) in
    if budget_deadline b <=? now then sc_fail bounded_pass_exhausted
    else sc_set_budget (mk_budget (budget_deadline b) (S (budget_leaf_requests b))
           (budget_response_bytes b)).

Definition charge_response (response_bytes : Z) : Sc unit :=
  ask! b := sc_get_budget in
  let total := saturating_add_u64 (budget_response_bytes b) response_bytes in
  ask! _ := sc_set_budget (mk_budget (budget_deadline b) (budget_leaf_requests b) total) in
  if MAX_RECOVERY_TOTAL_BYTES <? total
  then sc_fail (scan_invalid "tree recovery responses exceed the total byte limit")
  else sc_ret tt.

Definition ensure_time_remaining : Sc unit :=
  ask! b := sc_get_budget in
  ask! now := sc_ask (sc_now env) in
  if budget_deadline b <=? now then sc_fail bounded_pass_exhausted else sc_ret tt.

Definition cannot_fail_over : Sc bool :=
  ask! b := sc_get_budget in
  if bool_decide (MAX_RECOVERY_LEAF_REQUESTS <= budget_leaf_requests b)%nat
     || (MAX_RECOVERY_TOTAL_BYTES <? budget_response_bytes b)
  then sc_ret true
  else ask! now := sc_ask (sc_now env) in sc_ret (budget_deadline b <=? now).

(** ** Requests *)

(** [get_json]. Whether a request runs into its own deadline, the smaller of
    one minute and the pass's rest, is the environment's answer. *)
Definition get_json {R} (decode : list Z -> option R) (url : text) : Sc R :=
  ask! interrupted := sc_ask (sc_interrupted env) in
  if interrupted : bool then sc_fail ScanInterrupted
  else
    ask! answer := sc_ask (fun t => sc_get env t url) in
    match answer with
    | GetTimedOut =>
        ask! b := sc_get_budget in
        ask! now := sc_ask (sc_now env) in
        if budget_deadline b <=? now then sc_fail bounded_pass_exhausted
        else sc_fail (ScanTransport (lit "tree recovery request timed out"))
    | GetFailed m => sc_fail (ScanTransport m)
    | GetResponse r =>
        ask! _ := charge_response (Z.of_nat (length (http_body r))) in
        if negb (http_status r =? 200)
           || (MAX_RECOVERY_RESPONSE_BYTES <? Z.of_nat (length (http_body r)))
           || negb (has_json_content_type (http_content_type r))
        then sc_fail (scan_invalid "tree recovery response has invalid HTTP metadata")
        else sc_lift (ok_or (decode (http_body r))
               (scan_invalid "tree recovery response is malformed"))
    end.

Definition latest_url (endpoint round : text) : text :=
  endpoint ++ lit "/shielded-vote/v1/commitment-tree/" ++ round ++ lit "/latest".

Definition leaves_url (endpoint round : text) (from_height to_height : Z) : text :=
  endpoint ++ lit "/shielded-vote/v1/commitment-tree/" ++ round ++ lit "/leaves?from_height="
    ++ decimal from_height ++ lit "&to_height=" ++ decimal to_height.

(** ** Leaves *)
Definition decode_leaf (encoded : text) (label : string)
    : result MerkleHashVote RecoveryScanFailure :=
  let? bytes := ok_or (base64_decode encoded)
    (ScanInvalid (invalid (lit label ++ lit " is invalid base64"))) in
  if negb (bool_decide (length bytes = 32%nat))
  then Err (ScanInvalid (invalid (lit label ++ lit " has invalid length")))
  else if pallas_canonical bytes then Ok bytes
  else Err (ScanInvalid (invalid (lit label ++ lit " is noncanonical"))).

(** The frontier as the leaves appended to it, the sliding window of the
    latest leaves, the number of leaves and the layout found so far. *)
Record SearchState := mk_search {
  search_frontier : list MerkleHashVote;
  search_window : list (list Z);
  search_next_index : Z;
  search_match_start : option Z
}.

(** [Frontier::append]: refused when the tree is full. *)
Definition frontier_append (f : list MerkleHashVote) (leaf : MerkleHashVote)
    : option (list MerkleHashVote) :=
  if Z.of_nat (length f) <? TREE_CAPACITY then Some (f ++ [leaf]) else None.

(** One leaf of a block. *)
Definition push_leaf (expected : list (list Z)) (snapshot : TreeState) (s : SearchState)
    (encoded : text) : result SearchState RecoveryScanFailure :=
  let overflow := scan_invalid "tree recovery leaf sequence exceeds the fixed snapshot" in
  if ts_next_index snapshot <=? search_next_index s then Err overflow
  else
    let? leaf := decode_leaf encoded "tree leaf" in
    let? frontier := ok_or (frontier_append (search_frontier s) leaf) overflow in
    let? bytes := ok_or (base64_decode encoded)
      (scan_invalid "tree recovery leaf is invalid base64") in
    if negb (bool_decide (length bytes = 32%nat))
    then Err (scan_invalid "tree recovery leaf has invalid length")
    else
      let pushed := search_window s ++ [bytes] in
      let window := if bool_decide (length expected < length pushed)%nat
                    then drop 1 pushed else pushed in
      let next_index := search_next_index s + 1 in
      if bool_decide (window = expected) then
        match search_match_start s with
        | Some _ => Err (ScanAmbiguousLayout
            (invalid (lit "tree recovery found multiple exact generation layouts")))
        | None => Ok (mk_search frontier window next_index
                        (Some (next_index - Z.of_nat (length expected))))
        end
      else Ok (mk_search frontier window next_index (search_match_start s)).

Fixpoint push_leaves (expected : list (list Z)) (snapshot : TreeState) (s : SearchState)
    (leaves : list text) : result SearchState RecoveryScanFailure :=
  match leaves with
  | [] => Ok s
  | encoded :: rest =>
      let? s := push_leaf expected snapshot s encoded in
      push_leaves expected snapshot s rest
  end.

(** ** Blocks and pages *)
Definition scan_block (expected : list (list Z)) (snapshot : TreeState)
    (previous_height : option Z) (s : SearchState) (block : LeafBlock)
    : result SearchState RecoveryScanFailure :=
  if (ts_height snapshot <? block_height block)
     || match previous_height with Some h => block_height block <=? h | None => false end
     || (negb (bool_decide (block_leaves block = []))
         && negb (block_start_index block =? search_next_index s))
  then Err (scan_invalid "tree recovery block sequence is discontinuous")
  else
    let? s := push_leaves expected snapshot s (block_leaves block) in
    let? root := ok_or (block_root block)
      (scan_invalid "tree recovery block omitted its root") in
    let? root := decode_leaf root "block root" in
    if bool_decide (frontier_root (search_frontier s) = root) then Ok s
    else Err (scan_invalid "tree recovery block root contradicts its leaves").

Fixpoint scan_blocks (expected : list (list Z)) (snapshot : TreeState)
    (previous_height : option Z) (s : SearchState) (blocks : list LeafBlock)
    : result (option Z * SearchState) RecoveryScanFailure :=
  match blocks with
  | [] => Ok (previous_height, s)
  | block :: rest =>
      let? s := scan_block expected snapshot previous_height s block in
      scan_blocks expected snapshot (Some (block_height block)) s rest
  end.

Definition page_leaf_count (page : LeavesResponse) : Z :=
  Z.of_nat (sum_list_with (fun block => length (block_leaves block)) (page_blocks page)).

(** The cursor of the page loop. *)
Record PageState := mk_page_state {
  ps_search : SearchState;
  ps_from_height : Z;
  ps_previous_height : option Z;
  ps_unpaired : option Z
}.

(** What follows a page's blocks: progress, pairing and cursor. *)
Definition advance_cursor (snapshot : TreeState) (p : PageState) (page : LeavesResponse)
    (previous_height : option Z) (s : SearchState) : result PageState RecoveryScanFailure :=
  if search_next_index s <? ts_next_index snapshot then
    if page_leaf_count page =? 0
    then Err (scan_invalid "tree recovery page made no leaf progress")
    else
      let? unpaired :=
        match ps_unpaired p with
        | Some previous =>
            if previous + page_leaf_count page <? VOTE_SDK_PAGE_LEAF_TARGET + 1
            then Err (scan_invalid "tree recovery pages violate the pagination progress bound")
            else Ok None
        | None => Ok (Some (page_leaf_count page))
        end in
      if (page_next_from_height page <=? ps_from_height p)
         || (ts_height snapshot <? page_next_from_height page)
      then Err (scan_invalid "tree recovery pagination cursor is invalid")
      else Ok (mk_page_state s (page_next_from_height page) previous_height unpaired)
  else if negb (page_next_from_height page =? 0)
  then Err (scan_invalid "tree recovery pagination continued beyond the fixed snapshot")
  else Ok (mk_page_state s (ps_from_height p) previous_height (ps_unpaired p)).

Definition scan_page (expected : list (list Z)) (snapshot : TreeState) (p : PageState)
    (page : LeavesResponse) : result PageState RecoveryScanFailure :=
  if saturating_sub_u64 (ts_next_index snapshot) (search_next_index (ps_search p))
       <? page_leaf_count page
  then Err (scan_invalid "tree recovery page exceeds the fixed snapshot")
  else
    let? scanned := scan_blocks expected snapshot (ps_previous_height p) (ps_search p)
                      (page_blocks page) in
    advance_cursor snapshot p page scanned.1 scanned.2.

(** The page loop. Every turn consumes one request of the budget, so the
    request limit bounds it. *)
Fixpoint scan_pages (fuel : nat) (endpoint round : text) (expected : list (list Z))
    (snapshot : TreeState) (p : PageState) : Sc PageState :=
  if ts_next_index snapshot <=? search_next_index (ps_search p) then sc_ret p
  else
    ask! interrupted := sc_ask (sc_interrupted env) in
    if interrupted : bool then sc_fail ScanInterrupted
    else
      ask! _ := begin_leaf_request in
      match fuel with
      | O => fun s => (ScFuel, s)
      | S fuel =>
          ask! page := get_json json_leaves
            (leaves_url endpoint round (ps_from_height p) (ts_height snapshot)) in
          ask! p := sc_lift (scan_page expected snapshot p page) in
          scan_pages fuel endpoint round expected snapshot p
      end.

(** ** One replica, and fail-over between replicas *)
Inductive ReplicaScanOutcome :=
| ReplicaMatch (final_van_position : Z) (vote_commitment_positions : list Z)
| ReplicaNoMatch.

Definition snapshot_root_of (snapshot : TreeState)
    : result (option MerkleHashVote) RecoveryScanFailure :=
  let omitted := scan_invalid "nonempty tree recovery snapshot omitted its root" in
  match ts_root snapshot with
  | Some (c :: value) =>
      let? root := decode_leaf (c :: value) "snapshot root" in Ok (Some root)
  | Some [] | None => if ts_next_index snapshot =? 0 then Ok None else Err omitted
  end.

Definition replica_outcome (expected : list (list Z)) (s : SearchState) : ReplicaScanOutcome :=
  match search_match_start s with
  | Some start => ReplicaMatch start
      (map (fun offset => start + Z.of_nat offset) (seq 1 (length expected - 1)))
  | None => ReplicaNoMatch
  end.

Definition page_start : PageState := mk_page_state (mk_search [] [] 0 None) 0 None None.

Definition scan_replica (endpoint round : text) (expected : list (list Z))
    : Sc ReplicaScanOutcome :=
  ask! latest := get_json json_latest (latest_url endpoint round) in
  ask! snapshot := sc_lift (ok_or (latest_tree latest)
    (scan_invalid "tree recovery latest response omitted tree state")) in
  if (TREE_CAPACITY <? ts_next_index snapshot) || (u32_max <? ts_height snapshot)
  then sc_fail (scan_invalid "tree recovery snapshot exceeds protocol bounds")
  else
    ask! snapshot_root := sc_lift (snapshot_root_of snapshot) in
    ask! p := scan_pages MAX_RECOVERY_LEAF_REQUESTS endpoint round expected snapshot page_start in
    ask! _ := ensure_time_remaining in
    match snapshot_root with
    | Some root =>
        if bool_decide (frontier_root (search_frontier (ps_search p)) = root)
        then sc_ret (replica_outcome expected (ps_search p))
        else sc_fail (scan_invalid "tree recovery final root contradicts the fixed snapshot")
    | None => sc_ret (replica_outcome expected (ps_search p))
    end.

Fixpoint scan_endpoints (endpoints : list text) (last_failure : option RecoveryScanFailure)
    (round : text) (expected : list (list Z)) : Sc ReplicaScanOutcome :=
  match endpoints with
  | [] => sc_fail (default (scan_invalid "tree recovery has no configured endpoint") last_failure)
  | endpoint :: rest =>
      ask! interrupted := sc_ask (sc_interrupted env) in
      if interrupted : bool then sc_fail ScanInterrupted
      else fun s =>
        match scan_replica endpoint round expected s with
        | (ScFailed ScanInterrupted, s') => (ScFailed ScanInterrupted, s')
        | (ScFailed (ScanAmbiguousLayout d), s') => (ScFailed (ScanAmbiguousLayout d), s')
        | (ScFailed failure, s') =>
            (ask! stop := cannot_fail_over in
             if stop : bool then sc_fail failure
             else scan_endpoints rest (Some failure) round expected) s'
        | verdict => verdict
        end
  end.

(** [scan_exact_layout]. The authorization of a no-match carries the locked
    operation's identity, the generation's digest and the candidate; the
    coordinator builds it from this verdict. *)
Definition scan_exact_layout (endpoints : list text) (derived : DerivedChainSubmission)
    : Sc ReplicaScanOutcome :=
  ask! _ := budget_new in
  scan_endpoints endpoints None
    (lit (hex_encode (vote_round_id (gen_identity (derived_generation derived)))))
    (layout_leaves (bound_expected_layout (derived_bound derived))).
End scan.
