(* ===== verification/RecoveryProofs.v ===== *)
(** * The recovery scan finds exactly what a full search would

    The search of [Recovery.v] keeps only a sliding window; here its verdict is
    compared with the list of all positions at which the expected layout occurs
    in the snapshot's leaves. The pass also ends within its request and byte
    limits, and the request limit is the number of pages greedy whole-block
    pagination can produce. *)

From stdpp Require Import base gmap strings list numbers.
From S2P Require Import Prelude Identity Outcome Lifecycle Record Coordinator Recovery.
Local Open Scope Z_scope.
Local Open Scope voting_scope.
Local Open Scope scan_scope.
#[local] Opaque MAX_RECOVERY_LEAF_REQUESTS.

(** ** Reference search *)
Definition occurs_at {A} (p l : list A) (i : nat) : Prop := take (length p) (drop i l) = p.

#[global] Instance occurs_at_dec {A} `{EqDecision A} (p l : list A) i : Decision (occurs_at p l i).
Proof. unfold occurs_at. apply _. Defined.

(** Every position at which [p] occurs in [l], in order. *)
Definition occurrences {A} `{EqDecision A} (p l : list A) : list nat :=
  filter (occurs_at p l) (seq 0 (length l)).

(** The last [n] elements. *)
Definition latest {A} (n : nat) (l : list A) : list A := drop (length l - n) l.

Section occurrences.
Context {A : Type} `{EqDecision A}.
Implicit Types p l : list A.

Lemma occurs_at_bound p l i : p <> [] -> occurs_at p l i -> (i + length p <= length l)%nat.
Proof.
  unfold occurs_at. intros Hp Ho. apply (f_equal length) in Ho.
  rewrite length_take, length_drop in Ho.
  assert (0 < length p)%nat by (destruct p; [done|simpl; lia]). lia.
Qed.

Lemma occurs_at_snoc p l x i :
  (i + length p <= length l)%nat -> occurs_at p (l ++ [x]) i <-> occurs_at p l i.
Proof.
  intros Hi. unfold occurs_at. rewrite drop_app_le by lia.
  rewrite take_app_le by (rewrite length_drop; lia). done.
Qed.

Lemma occurs_at_last p l i :
  (i + length p = length l)%nat -> occurs_at p l i <-> latest (length p) l = p.
Proof.
  intros Hi. unfold occurs_at, latest. replace (length l - length p)%nat with i by lia.
  by rewrite take_ge by (rewrite length_drop; lia).
Qed.

Lemma latest_snoc n l x :
  (0 < n)%nat ->
  latest n (l ++ [x]) =
    if bool_decide (n < length (latest n l ++ [x]))%nat
    then drop 1 (latest n l ++ [x]) else latest n l ++ [x].
Proof.
  intros Hn. unfold latest. rewrite !length_app. simpl. rewrite length_drop.
  case_bool_decide as Hb.
  - rewrite <- drop_app_le by lia. rewrite drop_drop. f_equal. lia.
  - rewrite drop_app_le by lia. f_equal. f_equal. lia.
Qed.

Lemma filter_agree (P Q : nat -> Prop) `{!forall i, Decision (P i), !forall i, Decision (Q i)}
    (ks : list nat) :
  (forall i, i ∈ ks -> P i <-> Q i) -> filter P ks = filter Q ks.
Proof.
  induction ks as [|i ks IH]; intros Hiff; [done|].
  rewrite !filter_cons, IH by (intros j Hj; apply Hiff; by right).
  specialize (Hiff i ltac:(left)). by do 2 case_decide; try tauto.
Qed.

Lemma occurrences_bounded p l :
  p <> [] -> occurrences p l = filter (occurs_at p l) (seq 0 (length l + 1 - length p)).
Proof.
  intros Hp. unfold occurrences.
  assert (0 < length p)%nat by (destruct p; [done|simpl; lia]).
  replace (length l) with ((length l + 1 - length p) + (length l - (length l + 1 - length p)))%nat
    at 1 by lia.
  rewrite seq_app, list.filter_app, (filter_none _ (seq (0 + _) _)); [by rewrite app_nil_r|].
  apply list.Forall_forall. intros i Hi Ho. apply elem_of_seq in Hi. apply occurs_at_bound in Ho; [|done]. lia.
Qed.

(** A new last element adds at most the occurrence that ends with it. *)
Lemma occurrences_snoc p l x :
  p <> [] ->
  occurrences p (l ++ [x]) = occurrences p l ++
    (if decide (latest (length p) (l ++ [x]) = p)
     then [length l + 1 - length p]%nat else []).
Proof.
  intros Hp. rewrite !occurrences_bounded by done. rewrite length_app. cbn [length].
  destruct (decide (length p <= length l + 1)%nat) as [Hle|Hgt].
  - replace (length l + 1 + 1 - length p)%nat with (S (length l + 1 - length p)) by lia.
    rewrite seq_S, list.filter_app. f_equal.
    + apply filter_agree. intros i Hi%elem_of_seq.
      apply occurs_at_snoc. lia.
    + cbn [Nat.add]. assert (occurs_at p (l ++ [x]) (length l + 1 - length p) <->
        latest (length p) (l ++ [x]) = p) as Hiff.
      { apply occurs_at_last. rewrite length_app. simpl. lia. }
      case_decide; [by rewrite filter_cons_True by by apply Hiff|].
      by rewrite filter_cons_False by by rewrite Hiff.
  - replace (length l + 1 + 1 - length p)%nat with 0%nat by lia.
    replace (length l + 1 - length p)%nat with 0%nat by lia.
    rewrite decide_False; [done|]. intros Hl. apply (f_equal length) in Hl.
    unfold latest in Hl. rewrite length_drop, length_app in Hl. simpl in Hl. lia.
Qed.

Lemma length_latest n l : (length (latest n l) <= n)%nat.
Proof. unfold latest. rewrite length_drop. lia. Qed.
End occurrences.

(** ** Triples *)
Definition sc_triple {A} (P : ScanState -> Prop) (m : Sc A) (Q : A -> ScanState -> Prop)
    (E : RecoveryScanFailure -> ScanState -> Prop) : Prop :=
  forall s, P s ->
    match m s with
    | (ScDone a, s') => Q a s'
    | (ScFailed e, s') => E e s'
    | (ScFuel, _) => False
    end.

Section scan_rules.
Implicit Types P : ScanState -> Prop.
Implicit Types E : RecoveryScanFailure -> ScanState -> Prop.

Lemma sc_triple_ret {A : Type} P (a : A) Q E :
  (forall s, P s -> Q a s) -> sc_triple P (sc_ret a) Q E.
Proof. intros HQ s HP. by apply HQ. Qed.

Lemma sc_triple_fail {A : Type} P e (Q : A -> ScanState -> Prop) E :
  (forall s, P s -> E e s) -> sc_triple P (sc_fail e) Q E.
Proof. intros HE s HP. by apply HE. Qed.

Lemma sc_triple_bind {A B : Type} P (m : Sc A) (k : A -> Sc B) R Q E :
  sc_triple P m R E -> (forall a, sc_triple (R a) (k a) Q E) -> sc_triple P (sc_bind m k) Q E.
Proof.
  intros Hm Hk s HP. specialize (Hm s HP). unfold sc_bind.
  destruct (m s) as [[a|e|] s']; try done. by apply Hk.
Qed.

Lemma sc_triple_lift {A : Type} P (r : result A RecoveryScanFailure) Q E :
  (forall a s, r = Ok a -> P s -> Q a s) -> (forall e s, r = Err e -> P s -> E e s) ->
  sc_triple P (sc_lift r) Q E.
Proof. intros HQ HE s HP. unfold sc_lift. destruct r; simpl; auto. Qed.

Lemma sc_triple_weaken {A : Type} P P' (m : Sc A) (Q Q' : A -> ScanState -> Prop) E E' :
  sc_triple P' m Q' E' -> (forall s, P s -> P' s) -> (forall a s, Q' a s -> Q a s) ->
  (forall e s, E' e s -> E e s) -> sc_triple P m Q E.
Proof.
  intros Hm HP HQ HE s Hs. specialize (Hm s (HP s Hs)).
  destruct (m s) as [[a|e|] s']; auto.
Qed.

Lemma sc_triple_pure {A : Type} P (m : Sc A) (phi : Prop) Q E :
  (phi -> sc_triple P m Q E) -> sc_triple (fun s => phi /\ P s) m Q E.
Proof. intros Hm s [Hphi HP]. by apply Hm. Qed.
End scan_rules.

(** ** Searching *)
Section search.
Context `{Externals} `{TreeExternals}.
Context (expected : list (list Z)) (Hexpected : expected <> []).

Definition decodes (encoded : text) (leaf : MerkleHashVote) : Prop :=
  decode_leaf encoded "tree leaf" = Ok leaf.

(** The search state after the leaves [ls]. *)
Definition searched (ls : list MerkleHashVote) (s : SearchState) : Prop :=
  search_frontier s = ls /\ search_window s = latest (length expected) ls /\
  search_next_index s = Z.of_nat (length ls) /\
  map Z.of_nat (occurrences expected ls) = option_list (search_match_start s).

(** A failure that claims two layouts has seen two. *)
Definition ambiguity_seen (ls : list MerkleHashVote) (e : RecoveryScanFailure) : Prop :=
  forall d, e = ScanAmbiguousLayout d -> (2 <= length (occurrences expected ls))%nat.

Lemma searched_start : searched [] (mk_search [] [] 0 None).
Proof. by split_and!. Qed.

Lemma decode_leaf_bytes encoded label leaf :
  decode_leaf encoded label = Ok leaf -> base64_decode encoded = Some leaf /\ length leaf = 32%nat.
Proof.
  unfold decode_leaf, ok_or. destruct (base64_decode encoded) as [bytes|]; [|done].
  case_bool_decide as Hl; simpl; [|done]. destruct (pallas_canonical bytes); [|done].
  by intros [= ->].
Qed.

Lemma decode_leaf_not_ambiguous encoded label d :
  decode_leaf encoded label <> Err (ScanAmbiguousLayout d).
Proof.
  unfold decode_leaf, ok_or. destruct (base64_decode encoded); [|done].
  by repeat case_match.
Qed.

Lemma push_leaf_spec snapshot ls s encoded :
  searched ls s ->
  match push_leaf expected snapshot s encoded with
  | Ok s' => exists leaf, decodes encoded leaf /\ searched (ls ++ [leaf]) s' /\
      Z.of_nat (length ls) < ts_next_index snapshot
  | Err e => forall d, e = ScanAmbiguousLayout d -> exists leaf, decodes encoded leaf /\
      (2 <= length (occurrences expected (ls ++ [leaf])))%nat
  end.
Proof.
  intros (Hf & Hw & Hn & Ho). unfold push_leaf.
  destruct (ts_next_index snapshot <=? search_next_index s) eqn:Hle; [done|].
  destruct (decode_leaf encoded "tree leaf") as [leaf|e] eqn:Hd;
    [|intros d ->; by apply decode_leaf_not_ambiguous in Hd].
  unfold frontier_append, ok_or. destruct (Z.of_nat _ <? TREE_CAPACITY); [|done].
  destruct (decode_leaf_bytes _ _ _ Hd) as [-> Hlen].
  rewrite bool_decide_eq_true_2 by done. simpl negb. cbv beta iota zeta.
  rewrite Hw, <- (latest_snoc (length expected) ls leaf)
    by (destruct expected; [done|simpl; lia]).
  pose proof (occurrences_snoc expected ls leaf Hexpected) as Hocc.
  assert (Z.of_nat (length ls) < ts_next_index snapshot) as Hlt
    by (apply Z.leb_gt in Hle; lia).
  case_bool_decide as Heq.
  - rewrite decide_True in Hocc by done.
    assert (length expected <= length ls + 1)%nat as Hlen'.
    { rewrite <- Heq at 1. unfold latest. rewrite length_drop, length_app. simpl. lia. }
    destruct (search_match_start s) as [i|]; simpl in Ho.
    + intros d _. exists leaf. split; [done|]. rewrite Hocc, length_app. simpl.
      apply (f_equal length) in Ho. rewrite length_map in Ho. simpl in Ho. lia.
    + exists leaf. unfold searched. split_and!; try done; simpl.
      * by rewrite Hf.
      * rewrite length_app. simpl. lia.
      * rewrite Hocc, map_app, Ho. simpl. f_equal. lia.
  - rewrite decide_False in Hocc by done. exists leaf. unfold searched. split_and!; try done; simpl.
    + by rewrite Hf.
    + rewrite length_app. simpl. lia.
    + by rewrite Hocc, app_nil_r.
Qed.

(** What reading the encoded leaves [es] after [ls] may give. *)
Definition reads (snapshot : TreeState) (es : list text) (ls : list MerkleHashVote)
    (r : result SearchState RecoveryScanFailure) : Prop :=
  match r with
  | Ok s => exists leaves, Forall2 decodes es leaves /\ searched (ls ++ leaves) s /\
      Z.of_nat (length (ls ++ leaves)) <= Z.max (Z.of_nat (length ls)) (ts_next_index snapshot)
  | Err e => forall d, e = ScanAmbiguousLayout d -> exists es' leaves, es' `prefix_of` es /\
      Forall2 decodes es' leaves /\ (2 <= length (occurrences expected (ls ++ leaves)))%nat
  end.

Lemma reads_nil snapshot ls s : searched ls s -> reads snapshot [] ls (Ok s).
Proof. intros Hs. exists []. rewrite app_nil_r. split_and!; [constructor|done|lia]. Qed.

Lemma reads_err_l snapshot e1 e2 ls e :
  reads snapshot e1 ls (Err e) -> reads snapshot (e1 ++ e2) ls (Err e).
Proof.
  intros He d Hd. destruct (He d Hd) as (es & leaves & Hp & Hrest).
  exists es, leaves. split; [|done]. by apply prefix_app_r.
Qed.

Lemma reads_app snapshot e1 e2 ls s r :
  reads snapshot e1 ls (Ok s) ->
  (forall ls', searched ls' s -> reads snapshot e2 ls' r) -> reads snapshot (e1 ++ e2) ls r.
Proof.
  intros (l1 & Hd1 & Hs1 & Hn1) Hr. specialize (Hr _ Hs1). destruct r as [s'|e].
  - destruct Hr as (l2 & Hd2 & Hs2 & Hn2). exists (l1 ++ l2). rewrite app_assoc.
    split_and!; [by apply Forall2_app|done|lia].
  - intros d Hd. destruct (Hr d Hd) as (es & l2 & Hp & Hd2 & Ho).
    exists (e1 ++ es), (l1 ++ l2). rewrite app_assoc.
    split_and!; [by apply prefix_app|by apply Forall2_app|done].
Qed.

Lemma push_leaves_reads snapshot es : forall ls s,
  searched ls s -> reads snapshot es ls (push_leaves expected snapshot s es).
Proof.
  induction es as [|encoded es IH]; intros ls s Hs; [by apply reads_nil|].
  cbn [push_leaves]. pose proof (push_leaf_spec snapshot ls s encoded Hs) as Hp.
  change (encoded :: es) with ([encoded] ++ es).
  destruct (push_leaf expected snapshot s encoded) as [s'|e].
  - destruct Hp as (leaf & Hd & Hs' & Hn). eapply (reads_app _ _ _ _ s'); [|auto].
    exists [leaf]. split_and!; [by repeat constructor|done|]. rewrite length_app. simpl. lia.
  - apply reads_err_l. intros d Hd. destruct (Hp d Hd) as (leaf & Hdec & Ho).
    exists [encoded], [leaf]. split_and!; [done|by repeat constructor|done].
Qed.

Lemma scan_block_reads snapshot previous ls s block :
  searched ls s ->
  reads snapshot (block_leaves block) ls (scan_block expected snapshot previous s block).
Proof.
  intros Hs. unfold scan_block. destruct (_ || _); [done|].
  pose proof (push_leaves_reads snapshot (block_leaves block) ls s Hs) as Hr.
  destruct (push_leaves _ _ _ _) as [s'|e]; [|exact Hr].
  unfold ok_or. destruct (block_root block) as [root|]; [|done].
  destruct (decode_leaf root "block root") as [root'|e] eqn:Hd;
    [|intros d ->; by apply decode_leaf_not_ambiguous in Hd].
  by case_bool_decide.
Qed.

Definition blocks_leaves (blocks : list LeafBlock) : list text := mjoin (map block_leaves blocks).

Lemma scan_blocks_reads snapshot blocks : forall previous ls s,
  searched ls s ->
  reads snapshot (blocks_leaves blocks) ls
    (let? scanned := scan_blocks expected snapshot previous s blocks in Ok scanned.2).
Proof.
  induction blocks as [|block blocks IH]; intros previous ls s Hs; [by apply reads_nil|].
  cbn [scan_blocks]. pose proof (scan_block_reads snapshot previous ls s block Hs) as Hb.
  unfold blocks_leaves. simpl. fold (blocks_leaves blocks).
  destruct (scan_block _ _ _ _ _) as [s'|e]; [|by apply reads_err_l].
  eapply reads_app; [exact Hb|]. auto.
Qed.

Lemma advance_cursor_search snapshot p page previous s p' :
  advance_cursor snapshot p page previous s = Ok p' -> ps_search p' = s.
Proof. unfold advance_cursor. repeat case_match; intros [= <-]; done. Qed.

Lemma advance_cursor_not_ambiguous snapshot p page previous s d :
  advance_cursor snapshot p page previous s <> Err (ScanAmbiguousLayout d).
Proof. unfold advance_cursor. repeat case_match; simplify_eq; done. Qed.

Lemma scan_page_reads snapshot p page ls :
  searched ls (ps_search p) ->
  reads snapshot (blocks_leaves (page_blocks page)) ls
    (let? p' := scan_page expected snapshot p page in Ok (ps_search p')).
Proof.
  intros Hs. unfold scan_page. destruct (_ <? page_leaf_count page); [done|].
  pose proof (scan_blocks_reads snapshot (page_blocks page) (ps_previous_height p) ls _ Hs) as Hb.
  destruct (scan_blocks _ _ _ _ _) as [[previous s]|e]; [|exact Hb]. simpl in *.
  destruct (advance_cursor _ _ _ _ _) as [p'|e] eqn:Hc.
  - by apply advance_cursor_search in Hc as ->.
  - intros d ->. by apply advance_cursor_not_ambiguous in Hc.
Qed.
End search.

(** ** One replica *)
Section replica.
Context `{Externals} `{TreeExternals} (env : ScanEnvironment).
Context (round : text) (expected : list (list Z)) (Hexpected : expected <> []).

(** [n] leaf requests made, and the byte limit kept. *)
Definition spent (n : nat) (s : ScanState) : Prop :=
  budget_leaf_requests (sc_budget s) = n /\
  budget_response_bytes (sc_budget s) <= MAX_RECOVERY_TOTAL_BYTES.

Definition within_requests (s : ScanState) : Prop :=
  (budget_leaf_requests (sc_budget s) <= MAX_RECOVERY_LEAF_REQUESTS)%nat.

(** A failure of a step that reads no leaf. *)
Definition plain_failure (n : nat) (e : RecoveryScanFailure) (s : ScanState) : Prop :=
  budget_leaf_requests (sc_budget s) = n /\ forall d, e <> ScanAmbiguousLayout d.

(** The endpoint answered [url] with a body that decodes to [r]. *)
Definition answered {R} (decode : list Z -> option R) (url : text) (r : R) : Prop :=
  exists t resp, sc_get env t url = GetResponse resp /\ decode (http_body resp) = Some r.

Lemma get_json_rule {R : Type} (decode : list Z -> option R) url n :
  sc_triple (spent n) (get_json env decode url)
    (fun r s => answered decode url r /\ spent n s) (plain_failure n).
Proof.
  intros s [Hn Hb]. unfold get_json, sc_bind, sc_ask, sc_fail.
  destruct (sc_interrupted env _); [done|].
  destruct (sc_get env _ url) as [|m|r] eqn:Hget; [|done|].
  - simpl. by destruct (_ <=? _).
  - unfold charge_response, sc_bind, sc_get_budget, sc_set_budget, sc_fail. simpl.
    destruct (MAX_RECOVERY_TOTAL_BYTES <? _) eqn:Htotal; [done|]. apply Z.ltb_ge in Htotal.
    destruct (_ || _); [done|]. unfold sc_lift, ok_or.
    destruct (decode (http_body r)) eqn:Hdec; [|done]. split; [|done]. by exists (S (sc_tick s)), r.
Qed.

Lemma begin_rule n :
  sc_triple (spent n) (begin_leaf_request env)
    (fun _ s => (n < MAX_RECOVERY_LEAF_REQUESTS)%nat /\ spent (S n) s) (plain_failure n).
Proof.
  intros s [Hn Hb]. unfold begin_leaf_request, sc_bind, sc_get_budget, sc_fail.
  case_bool_decide as Hle; [done|]. unfold sc_ask. simpl. destruct (_ <=? _); [done|].
  split; [lia|]. split; [simpl; lia|done].
Qed.

Lemma interrupted_rule n :
  sc_triple (spent n) (sc_ask (sc_interrupted env)) (fun _ => spent n) (plain_failure n).
Proof. by intros s Hs. Qed.

Lemma time_rule n :
  sc_triple (spent n) (ensure_time_remaining env) (fun _ => spent n) (plain_failure n).
Proof.
  intros s [Hn Hb]. unfold ensure_time_remaining, sc_bind, sc_get_budget, sc_ask. simpl.
  by destruct (_ <=? _).
Qed.

Context (endpoint : text).

Definition page_answered (snapshot : TreeState) (page : LeavesResponse) : Prop :=
  exists from, answered json_leaves (leaves_url endpoint round from (ts_height snapshot)) page.

Definition pages_leaves (pages : list LeavesResponse) : list text :=
  mjoin (map (fun page => blocks_leaves (page_blocks page)) pages).

(** The leaves [ls] are those of the snapshot, read from the endpoint's pages. *)
Definition downloaded (snapshot : TreeState) (ls : list MerkleHashVote) : Prop :=
  exists pages, Forall (page_answered snapshot) pages /\ Forall2 decodes (pages_leaves pages) ls.

(** Leaves the endpoint served that hold the layout twice. *)
Definition served_twice (snapshot : TreeState) (ls : list MerkleHashVote) : Prop :=
  exists pages es leaves, Forall (page_answered snapshot) pages /\
    es `prefix_of` pages_leaves pages /\ Forall2 decodes es leaves /\
    (2 <= length (occurrences expected (ls ++ leaves)))%nat.

(** How the page loop may end: with all leaves after [ls], or with a failure
    that claims two layouts only if two were served. *)
Definition pages_done (snapshot : TreeState) (ls : list MerkleHashVote) (p : PageState)
    (s : ScanState) : Prop :=
  (exists n, (n <= MAX_RECOVERY_LEAF_REQUESTS)%nat /\ spent n s) /\
  exists pages leaves, Forall (page_answered snapshot) pages /\
    Forall2 decodes (pages_leaves pages) leaves /\
    searched expected (ls ++ leaves) (ps_search p) /\
    Z.of_nat (length (ls ++ leaves)) = ts_next_index snapshot.

Definition pages_failed (snapshot : TreeState) (ls : list MerkleHashVote)
    (e : RecoveryScanFailure) (s : ScanState) : Prop :=
  within_requests s /\ forall d, e = ScanAmbiguousLayout d -> served_twice snapshot ls.

Lemma plain_pages_failed snapshot ls n e s :
  (n <= MAX_RECOVERY_LEAF_REQUESTS)%nat -> plain_failure n e s -> pages_failed snapshot ls e s.
Proof.
  intros Hn [He Hno]. split; [unfold within_requests; lia|]. intros d Hd. by destruct (Hno d).
Qed.

(** One turn of the loop up to its request. *)
Lemma page_request_rule {A : Type} snapshot ls n (k : Sc A) Q :
  (n <= MAX_RECOVERY_LEAF_REQUESTS)%nat ->
  ((n < MAX_RECOVERY_LEAF_REQUESTS)%nat ->
     sc_triple (spent (S n)) k Q (pages_failed snapshot ls)) ->
  sc_triple (spent n)
    (ask! interrupted := sc_ask (sc_interrupted env) in
     if interrupted : bool then sc_fail ScanInterrupted
     else ask! _ := begin_leaf_request env in k) Q (pages_failed snapshot ls).
Proof.
  intros Hn Hk. eapply sc_triple_bind; [eapply sc_triple_weaken; [apply interrupted_rule|done|done|];
    intros e s He; by eapply plain_pages_failed|].
  intros [|]; [apply sc_triple_fail; intros s [Hr _]; split; [unfold within_requests; lia|done]|].
  eapply sc_triple_bind; [eapply sc_triple_weaken; [apply begin_rule|done|done|];
    intros e s He; by eapply plain_pages_failed|].
  intros []. by apply sc_triple_pure.
Qed.

Lemma pages_done_cons snapshot ls page leaves p s :
  page_answered snapshot page -> Forall2 decodes (blocks_leaves (page_blocks page)) leaves ->
  pages_done snapshot (ls ++ leaves) p s -> pages_done snapshot ls p s.
Proof.
  intros Hpage Hd [Hb (pages & leaves' & Ha & Hd' & Hs & Hlen)]. split; [done|].
  exists (page :: pages), (leaves ++ leaves'). rewrite app_assoc.
  split_and!; [by constructor|by apply Forall2_app|done|done].
Qed.

Lemma pages_failed_cons snapshot ls page leaves e s :
  page_answered snapshot page -> Forall2 decodes (blocks_leaves (page_blocks page)) leaves ->
  pages_failed snapshot (ls ++ leaves) e s -> pages_failed snapshot ls e s.
Proof.
  intros Hpage Hd [Hw He]. split; [done|]. intros d Hd'.
  destruct (He d Hd') as (pages & es & leaves' & Ha & Hpre & Hdec & Ho).
  exists (page :: pages), (blocks_leaves (page_blocks page) ++ es), (leaves ++ leaves').
  rewrite app_assoc.
  split_and!; [by constructor|by apply prefix_app|by apply Forall2_app|done].
Qed.

Lemma scan_pages_rule snapshot fuel : forall n p ls,
  (MAX_RECOVERY_LEAF_REQUESTS - n <= fuel)%nat -> (n <= MAX_RECOVERY_LEAF_REQUESTS)%nat ->
  searched expected ls (ps_search p) -> Z.of_nat (length ls) <= ts_next_index snapshot ->
  sc_triple (spent n) (scan_pages env fuel endpoint round expected snapshot p)
    (pages_done snapshot ls) (pages_failed snapshot ls).
Proof.
  induction fuel as [|fuel IH]; intros n p ls Hfuel Hn Hs Hls; simpl;
    (destruct (ts_next_index snapshot <=? search_next_index (ps_search p)) eqn:Hle;
      [apply sc_triple_ret; intros s Hsp; split; [by exists n|]; exists [], [];
       destruct Hs as (? & ? & Hidx & ?); apply Z.leb_le in Hle;
       rewrite app_nil_r; split_and!; [constructor..|done|lia]|]);
    (apply page_request_rule; [done|]); intros Hlt; [lia|].
  eapply sc_triple_bind; [eapply sc_triple_weaken; [apply get_json_rule|done|done|];
    intros e s He; eapply plain_pages_failed; [|exact He]; lia|].
  intros page. apply sc_triple_pure. intros Hpage.
  assert (page_answered snapshot page) as Ha by by eexists.
  pose proof (scan_page_reads expected Hexpected snapshot p page ls Hs) as Hr.
  destruct (scan_page expected snapshot p page) as [p'|e]; simpl in Hr.
  - destruct Hr as (leaves & Hd & Hs' & Hlen).
    eapply (sc_triple_bind _ _ _ (fun x s => x = p' /\ spent (S n) s));
      [by apply sc_triple_ret|]. intros x. apply sc_triple_pure. intros ->.
    eapply sc_triple_weaken; [apply (IH (S n) p' (ls ++ leaves)); [lia|lia|done|lia]|done| |].
    + intros p'' s. by eapply pages_done_cons.
    + intros e s. by eapply pages_failed_cons.
  - eapply (sc_triple_bind _ _ _ (fun _ _ => False)); [|by intros a s []].
    apply sc_triple_fail. intros s [Hreq _]. split; [unfold within_requests; lia|].
    intros d Hd. destruct (Hr d Hd) as (es & leaves & Hpre & Hdec & Ho).
    exists [page], es, leaves. split_and!; [by constructor| |done|done].
    unfold pages_leaves. simpl. by rewrite app_nil_r.
Qed.

(** A snapshot of the endpoint whose leaves are [ls], checked against the root
    the endpoint reported. *)
Definition verified_snapshot (snapshot : TreeState) (ls : list MerkleHashVote) : Prop :=
  answered json_latest (latest_url endpoint round) (mk_latest (Some snapshot)) /\
  downloaded snapshot ls /\ Z.of_nat (length ls) = ts_next_index snapshot /\
  match ts_root snapshot with
  | Some (c :: value) => decode_leaf (c :: value) "snapshot root" = Ok (frontier_root ls)
  | _ => ls = []
  end.

(** The verdict a search of all of [ls] gives. *)
Definition exact_verdict (ls : list MerkleHashVote) (v : ReplicaScanOutcome) : Prop :=
  match v with
  | ReplicaMatch van ps => map Z.of_nat (occurrences expected ls) = [van] /\
      ps = map (fun k => van + Z.of_nat k) (seq 1 (length expected - 1))
  | ReplicaNoMatch => occurrences expected ls = []
  end.

Lemma replica_outcome_exact ls s :
  searched expected ls s -> exact_verdict ls (replica_outcome expected s).
Proof.
  intros (_ & _ & _ & Ho). unfold replica_outcome, exact_verdict.
  destruct (search_match_start s); [done|]. by destruct (occurrences expected ls).
Qed.

Definition replica_done (v : ReplicaScanOutcome) (s : ScanState) : Prop :=
  (exists n, (n <= MAX_RECOVERY_LEAF_REQUESTS)%nat /\ spent n s) /\
  exists snapshot ls, verified_snapshot snapshot ls /\ exact_verdict ls v.

Definition replica_failed (e : RecoveryScanFailure) (s : ScanState) : Prop :=
  within_requests s /\
  forall d, e = ScanAmbiguousLayout d -> exists snapshot, served_twice snapshot [].

Lemma plain_replica_failed n e s :
  (n <= MAX_RECOVERY_LEAF_REQUESTS)%nat -> plain_failure n e s -> replica_failed e s.
Proof.
  intros Hn [He Hno]. split; [unfold within_requests; lia|]. intros d Hd. by destruct (Hno d).
Qed.

Lemma snapshot_root_ok snapshot root :
  snapshot_root_of snapshot = Ok root ->
  match ts_root snapshot with
  | Some (c :: value) => exists r, root = Some r /\ decode_leaf (c :: value) "snapshot root" = Ok r
  | _ => root = None /\ ts_next_index snapshot = 0
  end.
Proof.
  unfold snapshot_root_of. destruct (ts_root snapshot) as [[|c value]|].
  2: { destruct (decode_leaf _ _) as [r|]; [|done]. intros [= <-]. by exists r. }
  all: destruct (ts_next_index snapshot =? 0) eqn:Hz; [|done]; intros [= <-];
    apply Z.eqb_eq in Hz; done.
Qed.

Lemma snapshot_root_not_ambiguous snapshot d :
  snapshot_root_of snapshot <> Err (ScanAmbiguousLayout d).
Proof.
  unfold snapshot_root_of. destruct (ts_root snapshot) as [[|c value]|].
  2: { destruct (decode_leaf _ _) as [r|e] eqn:Hd; [done|]. intros [= ->].
       by apply decode_leaf_not_ambiguous in Hd. }
  all: by destruct (_ =? 0).
Qed.

(** Checking the final root after all pages. *)
Lemma final_check_rule snapshot root p :
  answered json_latest (latest_url endpoint round) (mk_latest (Some snapshot)) ->
  snapshot_root_of snapshot = Ok root ->
  sc_triple (pages_done snapshot [] p)
    (ask! _ := ensure_time_remaining env in
     match root with
     | Some root =>
         if bool_decide (frontier_root (search_frontier (ps_search p)) = root)
         then sc_ret (replica_outcome expected (ps_search p))
         else sc_fail (scan_invalid "tree recovery final root contradicts the fixed snapshot")
     | None => sc_ret (replica_outcome expected (ps_search p))
     end) replica_done replica_failed.
Proof.
  intros Hlatest Hroot%snapshot_root_ok s [(n & Hn & Hsp) (pages & ls & Ha & Hd & Hs & Hlen)].
  simpl in Hs, Hlen. pose proof Hs as (Hf & _).
  eapply (sc_triple_bind (spent n)); [eapply sc_triple_weaken; [apply time_rule|done|done|];
    intros e s' He; by eapply plain_replica_failed| |exact Hsp].
  intros []. assert (forall ls', ls' = ls ->
    match ts_root snapshot with
    | Some (c :: value) => decode_leaf (c :: value) "snapshot root" = Ok (frontier_root ls')
    | _ => ls' = [] end -> sc_triple (spent n) (sc_ret (replica_outcome expected (ps_search p)))
      replica_done replica_failed) as Hret.
  { intros ls' -> Hr. apply sc_triple_ret. intros s' Hs'. split; [by exists n|].
    exists snapshot, ls. split; [|by apply replica_outcome_exact].
    split_and!; [done|by exists pages|done|done]. }
  destruct (ts_root snapshot) as [[|c value]|].
  2: { destruct Hroot as (r & -> & Hdec). case_bool_decide as Heq.
       - apply (Hret ls eq_refl). by rewrite <- Hf, Heq.
       - apply sc_triple_fail. intros s' [Hs' _]. split; [unfold within_requests; lia|done]. }
  all: destruct Hroot as [-> Hz]; apply (Hret ls eq_refl), length_zero_iff_nil; lia.
Qed.

Lemma scan_replica_rule n :
  (n <= MAX_RECOVERY_LEAF_REQUESTS)%nat ->
  sc_triple (spent n) (scan_replica env endpoint round expected) replica_done replica_failed.
Proof.
  intros Hn. unfold scan_replica.
  assert (forall (A : Type) m Q, sc_triple (A:=A) (spent n) (sc_fail (scan_invalid m)) Q replica_failed)
    as Hinvalid.
  { intros A m Q. apply sc_triple_fail. intros s [Hs _]. split; [unfold within_requests; lia|done]. }
  eapply sc_triple_bind; [eapply sc_triple_weaken; [apply get_json_rule|done|done|];
    intros e s He; by eapply plain_replica_failed|].
  intros [[snapshot|]]; apply sc_triple_pure; intros Hlatest; simpl;
    [|eapply (sc_triple_bind _ _ _ (fun _ _ => False)); [apply Hinvalid|by intros a s []]].
  eapply (sc_triple_bind _ _ _ (fun x s => x = snapshot /\ spent n s)); [by apply sc_triple_ret|].
  intros x. apply sc_triple_pure. intros ->.
  destruct (_ || _); [apply Hinvalid|].
  destruct (snapshot_root_of snapshot) as [root|e] eqn:Hroot.
  - eapply (sc_triple_bind _ _ _ (fun x s => x = root /\ spent n s)); [by apply sc_triple_ret|].
    intros x. apply sc_triple_pure. intros ->.
    destruct Hlatest as (t & resp & Hget & Hjson).
    pose proof (json_latest_u64 _ _ Hjson) as Hnonneg.
    eapply sc_triple_bind; [eapply sc_triple_weaken;
      [apply (scan_pages_rule snapshot _ n page_start [])|done|done|]|].
    + lia.
    + done.
    + apply searched_start.
    + done.
    + intros e s [Hw He]. split; [done|]. intros d Hd. exists snapshot. by apply (He d).
    + intros p. apply final_check_rule; [by exists t, resp|done].
  - eapply (sc_triple_bind _ _ _ (fun _ _ => False)); [|by intros a s []].
    apply sc_triple_fail. intros s [Hs _]. split; [unfold within_requests; lia|].
    intros d ->. by apply snapshot_root_not_ambiguous in Hroot.
Qed.
End replica.

(** ** All endpoints *)
Section endpoints.
Context `{Externals} `{TreeExternals} (env : ScanEnvironment).

Section search_all.
Context (round : text) (expected : list (list Z)) (Hexpected : expected <> []).
Context (all : list text).

Definition endpoints_done (v : ReplicaScanOutcome) (s : ScanState) : Prop :=
  exists endpoint, endpoint ∈ all /\ replica_done env round expected endpoint v s.

Definition endpoints_failed (e : RecoveryScanFailure) (s : ScanState) : Prop :=
  within_requests s /\ forall d, e = ScanAmbiguousLayout d ->
    exists endpoint snapshot, endpoint ∈ all /\
      served_twice env round expected endpoint snapshot [].

Definition ready (s : ScanState) : Prop :=
  exists n, (n <= MAX_RECOVERY_LEAF_REQUESTS)%nat /\ spent n s.

(** After a failure that is neither an interruption nor an ambiguity. *)
Lemma fail_over_rule e k :
  (forall d, e <> ScanAmbiguousLayout d) ->
  sc_triple ready k endpoints_done endpoints_failed ->
  sc_triple within_requests
    (ask! stop := cannot_fail_over env in if stop : bool then sc_fail e else k)
    endpoints_done endpoints_failed.
Proof.
  intros He Hk. eapply (sc_triple_bind _ _ _ (fun stop s =>
    within_requests s /\ (stop = false -> ready s))).
  - intros s Hs. unfold cannot_fail_over, sc_bind, sc_get_budget, sc_ask, sc_ret.
    case_bool_decide; simpl; [done|].
    destruct (MAX_RECOVERY_TOTAL_BYTES <? _) eqn:Hb; [done|]. apply Z.ltb_ge in Hb.
    split; [done|]. intros _. by exists (budget_leaf_requests (sc_budget s)).
  - intros [|]; [apply sc_triple_fail; intros s [Hs _]; split; [done|]; intros d Hd;
      by destruct (He d)|].
    eapply sc_triple_weaken; [exact Hk| |done|done]. intros s [_ Hr]. by apply Hr.
Qed.

Lemma scan_endpoints_rule endpoints : forall last,
  endpoints ⊆ all ->
  (forall e d, last = Some e -> e <> ScanAmbiguousLayout d) ->
  sc_triple ready (scan_endpoints env endpoints last round expected)
    endpoints_done endpoints_failed.
Proof.
  induction endpoints as [|endpoint rest IH]; intros last Hsub Hlast; cbn [scan_endpoints].
  - apply sc_triple_fail. intros s (n & Hn & [Hr _]). split; [unfold within_requests; lia|].
    intros d Hd. destruct last as [e|]; [by destruct (Hlast e d)|done].
  - assert (endpoint ∈ all) as Hin by (apply Hsub; left).
    assert (rest ⊆ all) as Hsub' by (intros x Hx; apply Hsub; by right).
    eapply (sc_triple_bind _ _ _ (fun _ => ready)); [by intros s Hs|]. intros [|].
    { apply sc_triple_fail. intros s (n & Hn & [Hr _]). split; [unfold within_requests; lia|done]. }
    intros s (n & Hn & Hsp).
    pose proof (scan_replica_rule env round expected Hexpected endpoint n Hn s Hsp) as Hr.
    destruct (scan_replica env endpoint round expected s) as [[v|e|] s']; [by exists endpoint| |done].
    destruct Hr as [Hw Ha]. destruct e as [m|d|d|].
    + apply fail_over_rule; [done|apply IH; [done|by intros e d [= <-]]|done].
    + apply fail_over_rule; [done|apply IH; [done|by intros e d' [= <-]]|done].
    + split; [done|]. intros d' Hd. destruct (Ha d' Hd) as [snapshot Ht].
      by exists endpoint, snapshot.
    + by split.
Qed.
End search_all.

Context (endpoints : list text) (derived : DerivedChainSubmission).

Definition derived_round : text :=
  lit (hex_encode (vote_round_id (gen_identity (derived_generation derived)))).
Definition derived_leaves : list (list Z) :=
  layout_leaves (bound_expected_layout (derived_bound derived)).

Lemma derived_leaves_nonempty : derived_leaves <> [].
Proof. unfold derived_leaves. by destruct (bound_expected_layout _). Qed.

Lemma scan_exact_layout_rule :
  sc_triple (fun _ => True) (scan_exact_layout env endpoints derived)
    (endpoints_done derived_round derived_leaves endpoints)
    (endpoints_failed derived_round derived_leaves endpoints).
Proof.
  eapply (sc_triple_bind _ _ _ (fun _ => ready)).
  - intros s _. simpl. exists 0%nat. split; [lia|]. split; [done|simpl; unfold MAX_RECOVERY_TOTAL_BYTES; lia].
  - intros []. apply scan_endpoints_rule; [apply derived_leaves_nonempty|done|done].
Qed.

(** C31 (exact search): when the scan gives a verdict, one of the endpoints
    served a complete snapshot that agrees with the root it reported, and the
    verdict is that of searching all its leaves: a match if the layout occurs
    there exactly once, with the positions of its leaves, and no match if it
    occurs nowhere. *)
Theorem scan_verdict_is_exact s v s' :
  scan_exact_layout env endpoints derived s = (ScDone v, s') ->
  exists endpoint snapshot ls, endpoint ∈ endpoints /\
    verified_snapshot env derived_round endpoint snapshot ls /\
    exact_verdict derived_leaves ls v.
Proof.
  intros Hs. pose proof (scan_exact_layout_rule s I) as Hr. rewrite Hs in Hr.
  destruct Hr as (endpoint & Hin & _ & snapshot & ls & Hv & He). by exists endpoint, snapshot, ls.
Qed.

(** Real ambiguity: when the scan reports several layouts, one of the
    endpoints did serve leaves in which the layout occurs at least twice. *)
Theorem scan_ambiguity_is_real s d s' :
  scan_exact_layout env endpoints derived s = (ScFailed (ScanAmbiguousLayout d), s') ->
  exists endpoint snapshot, endpoint ∈ endpoints /\
    served_twice env derived_round derived_leaves endpoint snapshot [].
Proof.
  intros Hs. pose proof (scan_exact_layout_rule s I) as Hr. rewrite Hs in Hr.
  destruct Hr as [_ Ha]. by apply (Ha d).
Qed.

(** Bounded scan: a scan always ends, after at most the allowed number of
    leaf requests, and a scan that gives a verdict received at most the allowed
    number of bytes. *)
Theorem scan_is_bounded s :
  (scan_exact_layout env endpoints derived s).1 <> ScFuel /\
  within_requests (scan_exact_layout env endpoints derived s).2 /\
  (forall v, (scan_exact_layout env endpoints derived s).1 = ScDone v ->
     budget_response_bytes (sc_budget (scan_exact_layout env endpoints derived s).2)
       <= MAX_RECOVERY_TOTAL_BYTES).
Proof.
  pose proof (scan_exact_layout_rule s I) as Hr.
  destruct (scan_exact_layout env endpoints derived s) as [[v|e|] s']; simpl; [| |done].
  - destruct Hr as (endpoint & _ & (n & Hn & Hreq & Hb) & _).
    split_and!; [done|unfold within_requests; lia|done].
  - destruct Hr as [Hw _]. by split_and!.
Qed.
End endpoints.

(** ** Pages of whole blocks *)

(** Neighbouring pages hold more leaves than the target: otherwise the second
    page's first block would have fit on the first page. *)
Fixpoint linked (target : Z) (pages : list Z) : Prop :=
  match pages with
  | a :: ((b :: _) as rest) => target + 1 <= a + b /\ linked target rest
  | _ => True
  end.

(** Greedy whole-block pagination: the sizes of the pages of a list of block
    sizes, the first page already holding [current] leaves. *)
Fixpoint greedy_pages (target current : Z) (blocks : list Z) : list Z :=
  match blocks with
  | [] => [current]
  | b :: rest =>
      if current + b <=? target then greedy_pages target (current + b) rest
      else current :: greedy_pages target b rest
  end.

Definition sum_sizes (sizes : list Z) : Z := foldr Z.add 0 sizes.

Lemma greedy_pages_head target blocks : forall current,
  Forall (fun b => 0 < b) blocks ->
  exists first rest, greedy_pages target current blocks = first :: rest /\ current <= first.
Proof.
  induction blocks as [|b blocks IH]; intros current Hb; simpl; [by exists current, []|].
  apply Forall_cons_iff in Hb as [Hb Hbs]. destruct (_ <=? target).
  - destruct (IH (current + b) Hbs) as (first & rest & Heq & Hle). exists first, rest. split; [done|lia].
  - by eexists _, _.
Qed.

Lemma greedy_pages_spec target blocks : forall current,
  0 < current -> Forall (fun b => 0 < b) blocks ->
  linked target (greedy_pages target current blocks) /\
  Forall (fun p => 0 < p) (greedy_pages target current blocks) /\
  sum_sizes (greedy_pages target current blocks) = current + sum_sizes blocks.
Proof.
  induction blocks as [|b blocks IH]; intros current Hc Hb; simpl.
  - split_and!; [done|by repeat constructor|lia].
  - apply Forall_cons_iff in Hb as [Hb Hbs]. destruct (current + b <=? target) eqn:Hfit.
    + destruct (IH (current + b)) as (Hl & Hp & Hs); [lia|done|]. split_and!; [done|done|lia].
    + apply Z.leb_gt in Hfit. destruct (IH b Hb Hbs) as (Hl & Hp & Hs).
      destruct (greedy_pages_head target blocks b Hbs) as (first & rest & Heq & Hle).
      rewrite Heq in *. split_and!; [split; [lia|done]|by constructor|]. simpl in *. lia.
Qed.

(** Two pages at a time. *)
Lemma linked_count target pages :
  0 <= target -> linked target pages -> Forall (fun p => 0 < p) pages ->
  (target + 1) * (Z.of_nat (length pages) / 2) + Z.of_nat (length pages) mod 2 <= sum_sizes pages.
Proof.
  intros Ht. remember (length pages) as k eqn:Hk. revert pages Hk.
  induction (lt_wf k) as [k _ IH]. intros pages -> Hl Hp.
  destruct pages as [|a [|b rest]]; cbn [length sum_sizes foldr].
  - change (Z.of_nat 0 / 2) with 0. change (Z.of_nat 0 mod 2) with 0. lia.
  - apply Forall_cons_iff in Hp as [Ha _].
    change (Z.of_nat 1 / 2) with 0. change (Z.of_nat 1 mod 2) with 1. lia.
  - simpl in Hl. destruct Hl as [Hab Hrest].
    apply Forall_cons_iff in Hp as [Ha Hp]. apply Forall_cons_iff in Hp as [Hb Hp].
    assert (linked target rest) as Hl' by (destruct rest; [done|apply Hrest]).
    specialize (IH (length rest) ltac:(simpl; lia) rest eq_refl Hl' Hp).
    replace (Z.of_nat (S (S (length rest)))) with (Z.of_nat (length rest) + 1 * 2) by lia.
    rewrite Z.div_add, Z.mod_add by lia. fold (sum_sizes rest). lia.
Qed.

Lemma linked_page_count target pages :
  0 <= target -> linked target pages -> Forall (fun p => 0 < p) pages ->
  Z.of_nat (length pages) <= maximum_whole_block_page_count (sum_sizes pages) target.
Proof.
  intros Ht Hl Hp. pose proof (linked_count target pages Ht Hl Hp) as Hc.
  unfold maximum_whole_block_page_count.
  pose proof (Z.div_mod (sum_sizes pages) (target + 1) ltac:(lia)) as Hd.
  pose proof (Z.mod_pos_bound (sum_sizes pages) (target + 1) ltac:(lia)) as Hm.
  pose proof (Z.div_mod (Z.of_nat (length pages)) 2 ltac:(lia)) as Hd2.
  pose proof (Z.mod_pos_bound (Z.of_nat (length pages)) 2 ltac:(lia)) as Hm2.
  set (q := sum_sizes pages / (target + 1)) in *. set (r := sum_sizes pages mod (target + 1)) in *.
  set (q2 := Z.of_nat (length pages) / 2) in *. set (r2 := Z.of_nat (length pages) mod 2) in *.
  assert (q2 <= q) as Hq by nia.
  destruct (r =? 0) eqn:Hz; [apply Z.eqb_eq in Hz|apply Z.eqb_neq in Hz; lia].
  assert (r2 = 0 \/ q2 < q) as [|] by (destruct (decide (r2 = 0)); [by left|right; nia]); lia.
Qed.

(** Page bound: greedy whole-block pagination of nonempty blocks never
    makes more pages than [maximum_whole_block_page_count] of all their
    leaves. *)
Theorem greedy_pagination_bound target b blocks :
  0 <= target -> Forall (fun b => 0 < b) (b :: blocks) ->
  Z.of_nat (length (greedy_pages target b blocks))
    <= maximum_whole_block_page_count (sum_sizes (b :: blocks)) target.
Proof.
  intros Ht Hb. apply Forall_cons_iff in Hb as [Hb Hbs].
  destruct (greedy_pages_spec target blocks b Hb Hbs) as (Hl & Hp & Hs). simpl. rewrite <- Hs.
  by apply linked_page_count.
Qed.

(** ** Concrete scans *)

(** Text that is its own decoding, one root for every frontier, and three
    bodies: a snapshot of three leaves, its page, and a page that holds the
    layout twice. *)
Definition example_leaf (z : Z) : list Z := replicate 32 z.

Definition example_snapshot (n : Z) : TreeState := mk_tree_state n (Some (example_leaf 1)) 7.

Definition example_page (leaves : list (list Z)) : LeavesResponse :=
  mk_leaves [mk_block 7 0 leaves (Some (example_leaf 1))] 0.

Definition example_tree : TreeExternals.
Proof.
  refine {|
    json_latest := fun body => match body with
      | [n] => if 0 <=? n then Some (mk_latest (Some (example_snapshot n))) else None
      | _ => None end;
    json_leaves := fun body => Some (example_page (map example_leaf body));
    frontier_root := fun _ => example_leaf 1
  |}.
  intros [|n [|]] tree; try done. destruct (0 <=? n) eqn:Hn; [|done].
  intros [= <-]. by apply Z.leb_le in Hn.
Defined.

#[local] Existing Instances example_externals example_tree.

Definition example_derived_vote : DerivedChainSubmission :=
  mk_derived (mk_bound (mk_generation example_identity (replicate 32 7))
    (LVote (example_leaf 8) (example_leaf 9)) [3])
    (QVote (mk_vote_wire [] [] [] 3 [] [] 0 [] [])).

(** An endpoint whose tree holds the given leaves in one block. *)
Definition example_scan_env (leaves : list Z) : ScanEnvironment :=
  mk_scan_environment (fun _ => false) (fun _ => 0)
    (fun _ url => GetResponse (mk_response 200 (Some (lit "application/json; charset=utf-8"))
      (if bool_decide (url = latest_url (lit "https://a") (derived_round example_derived_vote))
       then [Z.of_nat (length leaves)] else leaves))).

Definition example_scan (leaves : list Z) : scan_outcome ReplicaScanOutcome * ScanState :=
  scan_exact_layout (example_scan_env leaves) [lit "https://a"] example_derived_vote
    (mk_scan_state 0 (mk_budget 0 0 0)).

Lemma scan_verdict_is_exact_witness :
  example_scan [5; 8; 9] = (ScDone (ReplicaMatch 1 [2]), (example_scan [5; 8; 9]).2) /\
  exists endpoint snapshot ls, endpoint ∈ [lit "https://a"] /\
    verified_snapshot (example_scan_env [5; 8; 9]) (derived_round example_derived_vote)
      endpoint snapshot ls /\
    exact_verdict (derived_leaves example_derived_vote) ls (ReplicaMatch 1 [2]).
Proof.
  assert (example_scan [5; 8; 9] = (ScDone (ReplicaMatch 1 [2]), (example_scan [5; 8; 9]).2)) as Hs
    by (vm_compute; reflexivity).
  split; [exact Hs|]. exact (scan_verdict_is_exact _ _ _ _ _ _ Hs).
Defined.

Definition ambiguous_diagnostic : ChainSubmissionDiagnostic :=
  invalid (lit "tree recovery found multiple exact generation layouts").

Lemma scan_ambiguity_is_real_witness :
  example_scan [8; 9; 8; 9] =
    (ScFailed (ScanAmbiguousLayout ambiguous_diagnostic), (example_scan [8; 9; 8; 9]).2) /\
  exists endpoint snapshot, endpoint ∈ [lit "https://a"] /\
    served_twice (example_scan_env [8; 9; 8; 9]) (derived_round example_derived_vote)
      (derived_leaves example_derived_vote) endpoint snapshot [].
Proof.
  assert (example_scan [8; 9; 8; 9] =
    (ScFailed (ScanAmbiguousLayout ambiguous_diagnostic), (example_scan [8; 9; 8; 9]).2)) as Hs
    by (vm_compute; reflexivity).
  split; [exact Hs|]. exact (scan_ambiguity_is_real _ _ _ _ _ _ Hs).
Defined.

Lemma greedy_pagination_bound_witness :
  greedy_pages 2 1 [1; 1] = [2; 1] /\
  Z.of_nat (length (greedy_pages 2 1 [1; 1]))
    <= maximum_whole_block_page_count (sum_sizes [1; 1; 1]) 2.
Proof.
  split; [reflexivity|]. apply (greedy_pagination_bound 2 1 [1; 1]); [lia|].
  repeat constructor.
Defined.
