(* ===== verification/RecoveryComplete.v ===== *)
(** * An honest replica is scanned to the end

    The converse of [RecoveryProofs.v]: when an endpoint serves a well-formed
    snapshot in greedily paginated pages and the host lets the pass run, the
    scan does give a verdict. In particular the request limit never stops the
    scan of an honest tree. *)

From stdpp Require Import base gmap strings list numbers.
From S2P Require Import Prelude Identity Outcome Lifecycle Record Coordinator Recovery.
From S2P Require Import RecoveryProofs.
Local Open Scope Z_scope.
Local Open Scope voting_scope.
Local Open Scope scan_scope.

(** The request limit covers every tree within capacity. *)
Lemma page_count_mono a b target :
  0 <= target -> 0 <= a <= b ->
  maximum_whole_block_page_count a target <= maximum_whole_block_page_count b target.
Proof.
  intros Ht Hab. unfold maximum_whole_block_page_count.
  pose proof (Z.div_mod a (target + 1) ltac:(lia)). pose proof (Z.div_mod b (target + 1) ltac:(lia)).
  pose proof (Z.mod_pos_bound a (target + 1) ltac:(lia)).
  pose proof (Z.mod_pos_bound b (target + 1) ltac:(lia)).
  pose proof (Z.div_le_mono a b (target + 1) ltac:(lia) ltac:(lia)).
  destruct (a mod (target + 1) =? 0) eqn:Ha, (b mod (target + 1) =? 0) eqn:Hb; try lia.
  apply Z.eqb_neq in Ha. apply Z.eqb_eq in Hb. nia.
Qed.

Lemma enough_requests sizes :
  linked VOTE_SDK_PAGE_LEAF_TARGET sizes -> Forall (fun p => 0 < p) sizes ->
  0 <= sum_sizes sizes <= TREE_CAPACITY -> (length sizes <= MAX_RECOVERY_LEAF_REQUESTS)%nat.
Proof.
  intros Hl Hp Hs. pose proof (linked_page_count VOTE_SDK_PAGE_LEAF_TARGET sizes
    ltac:(unfold VOTE_SDK_PAGE_LEAF_TARGET; lia) Hl Hp).
  pose proof (page_count_mono _ _ VOTE_SDK_PAGE_LEAF_TARGET
    ltac:(unfold VOTE_SDK_PAGE_LEAF_TARGET; lia) Hs).
  unfold MAX_RECOVERY_LEAF_REQUESTS. lia.
Qed.

#[local] Opaque MAX_RECOVERY_LEAF_REQUESTS.

(** ** Honest answers *)
Section honest.
Context `{Externals} `{TreeExternals}.
Context (snapshot : TreeState).

(** Blocks that continue the leaves [start] after a block of height [prev]:
    rising heights up to the snapshot's, contiguous leaves and right roots. *)
Inductive honest_blocks : list MerkleHashVote -> option Z -> list LeafBlock ->
    list MerkleHashVote -> option Z -> Prop :=
| honest_blocks_nil start prev : honest_blocks start prev [] [] prev
| honest_blocks_cons start prev block rest leaves leaves' root last :
    block_height block <= ts_height snapshot ->
    (forall h, prev = Some h -> h < block_height block) ->
    (block_leaves block <> [] -> block_start_index block = Z.of_nat (length start)) ->
    Forall2 decodes (block_leaves block) leaves ->
    block_root block = Some root ->
    decode_leaf root "block root" = Ok (frontier_root (start ++ leaves)) ->
    honest_blocks (start ++ leaves) (Some (block_height block)) rest leaves' last ->
    honest_blocks start prev (block :: rest) (leaves ++ leaves') last.

Definition good_response (r : HttpResponse) : Prop :=
  http_status r = 200 /\ Z.of_nat (length (http_body r)) <= MAX_RECOVERY_RESPONSE_BYTES /\
  has_json_content_type (http_content_type r) = true.

Context (env : ScanEnvironment) (endpoint round : text).

(** The endpoint answers [url] at any time with a good response. *)
Definition serves {R} (decode : list Z -> option R) (url : text) (r : R) (bytes : Z) : Prop :=
  exists resp, (forall t, sc_get env t url = GetResponse resp) /\ good_response resp /\
    decode (http_body resp) = Some r /\ bytes = Z.of_nat (length (http_body resp)).

(** The pages from cursor [from] on, with their sizes in leaves and bytes. *)
Inductive honest_pages : list MerkleHashVote -> option Z -> Z -> list Z -> Z ->
    list MerkleHashVote -> Prop :=
| honest_pages_last start prev from page bytes leaves last :
    serves json_leaves (leaves_url endpoint round from (ts_height snapshot)) page bytes ->
    honest_blocks start prev (page_blocks page) leaves last ->
    leaves <> [] -> page_next_from_height page = 0 ->
    honest_pages start prev from [Z.of_nat (length leaves)] bytes leaves
| honest_pages_more start prev from page bytes leaves last sizes bytes' leaves' :
    serves json_leaves (leaves_url endpoint round from (ts_height snapshot)) page bytes ->
    honest_blocks start prev (page_blocks page) leaves last ->
    leaves <> [] ->
    from < page_next_from_height page <= ts_height snapshot ->
    honest_pages (start ++ leaves) last (page_next_from_height page) sizes bytes' leaves' ->
    honest_pages start prev from (Z.of_nat (length leaves) :: sizes) (bytes + bytes')
      (leaves ++ leaves').

(** The snapshot and all its leaves. *)
Definition honest_snapshot (sizes : list Z) (bytes : Z) (ls : list MerkleHashVote) : Prop :=
  ts_next_index snapshot = Z.of_nat (length ls) /\
  ts_next_index snapshot <= TREE_CAPACITY /\ ts_height snapshot <= u32_max /\
  match ts_root snapshot with
  | Some (c :: value) => decode_leaf (c :: value) "snapshot root" = Ok (frontier_root ls)
  | _ => ls = []
  end /\
  (if decide (ls = []) then sizes = [] /\ bytes = 0
   else honest_pages [] None 0 sizes bytes ls /\ linked VOTE_SDK_PAGE_LEAF_TARGET sizes).

(** ** Searching *)
Context (expected : list (list Z)) (Hexpected : expected <> []).

Lemma occurrences_app_le (l1 l2 : list (list Z)) :
  (length (occurrences expected l1) <= length (occurrences expected (l1 ++ l2)))%nat.
Proof.
  induction l2 as [|x l2 IH] using rev_ind; [by rewrite app_nil_r|].
  rewrite app_assoc, occurrences_snoc, length_app by done. lia.
Qed.

Lemma push_leaf_complete ls s encoded leaf :
  searched expected ls s -> decodes encoded leaf ->
  Z.of_nat (length ls) < ts_next_index snapshot -> ts_next_index snapshot <= TREE_CAPACITY ->
  (length (occurrences expected (ls ++ [leaf])) <= 1)%nat ->
  exists s', push_leaf expected snapshot s encoded = Ok s' /\ searched expected (ls ++ [leaf]) s'.
Proof.
  intros Hs Hd Hlt Hcap Hocc.
  pose proof (push_leaf_spec expected Hexpected snapshot ls s encoded Hs) as Hp.
  destruct (push_leaf expected snapshot s encoded) as [s'|e] eqn:Hpush.
  - exists s'. split; [done|]. destruct Hp as (leaf' & Hd' & Hs' & _).
    unfold decodes in *. rewrite Hd in Hd'. by injection Hd' as <-.
  - exfalso. destruct Hs as (Hf & Hw & Hn & Ho). unfold push_leaf in Hpush.
    rewrite (proj2 (Z.leb_gt _ _)) in Hpush by lia. rewrite Hd in Hpush.
    unfold frontier_append, ok_or in Hpush. rewrite Hf in Hpush.
    rewrite (proj2 (Z.ltb_lt _ _)) in Hpush by lia.
    destruct (decode_leaf_bytes _ _ _ Hd) as [Hb Hlen]. rewrite Hb in Hpush.
    rewrite bool_decide_eq_true_2 in Hpush by done. cbn [negb] in Hpush.
    destruct (bool_decide _); [|done]. destruct (search_match_start s); [|done].
    injection Hpush as <-. destruct (Hp _ eq_refl) as (leaf' & Hd' & Ho').
    unfold decodes in *. rewrite Hd in Hd'. injection Hd' as <-. lia.
Qed.

Lemma push_leaves_complete es : forall ls leaves s,
  searched expected ls s -> Forall2 decodes es leaves ->
  Z.of_nat (length (ls ++ leaves)) <= ts_next_index snapshot ->
  ts_next_index snapshot <= TREE_CAPACITY ->
  (length (occurrences expected (ls ++ leaves)) <= 1)%nat ->
  exists s', push_leaves expected snapshot s es = Ok s' /\ searched expected (ls ++ leaves) s'.
Proof.
  induction es as [|encoded es IH]; intros ls leaves s Hs Hd Hle Hcap Hocc.
  - inversion Hd; subst. exists s. by rewrite app_nil_r.
  - inversion Hd as [|? leaf ? leaves' Hd1 Hd2]; subst.
    rewrite (cons_middle leaf ls leaves'), app_assoc in *.
    destruct (push_leaf_complete ls s encoded leaf) as (s1 & Hpush & Hs1); try done.
    + rewrite !length_app in Hle. simpl in Hle. lia.
    + pose proof (occurrences_app_le (ls ++ [leaf]) leaves'). lia.
    + destruct (IH (ls ++ [leaf]) leaves' s1) as (s' & Hpush' & Hs'); try done.
      exists s'. split; [|done]. cbn [push_leaves]. by rewrite Hpush.
Qed.

Lemma scan_blocks_complete ls prev blocks leaves last : honest_blocks ls prev blocks leaves last ->
  forall s, searched expected ls s ->
  Z.of_nat (length (ls ++ leaves)) <= ts_next_index snapshot ->
  ts_next_index snapshot <= TREE_CAPACITY ->
  (length (occurrences expected (ls ++ leaves)) <= 1)%nat ->
  exists s', scan_blocks expected snapshot prev s blocks = Ok (last, s') /\
    searched expected (ls ++ leaves) s'.
Proof.
  induction 1 as [start prev|start prev block rest leaves leaves' root last Hh Hp Hi Hd Hr Hroot Hrest IH];
    intros s Hs Hle Hcap Hocc; [exists s; by rewrite app_nil_r|].
  rewrite app_assoc in *. pose proof (occurrences_app_le (start ++ leaves) leaves').
  destruct (push_leaves_complete (block_leaves block) start leaves s) as (s1 & Hpush & Hs1); try done.
  { rewrite length_app in Hle. lia. }
  { lia. }
  destruct (IH s1 Hs1 Hle Hcap Hocc) as (s' & Hscan & Hs'). exists s'. split; [|done].
  cbn [scan_blocks]. unfold scan_block.
  rewrite (proj2 (Z.ltb_ge _ _) Hh). rewrite orb_false_l.
  replace (match prev with Some h => block_height block <=? h | None => false end) with false
    by (destruct prev as [h|]; [symmetry; apply Z.leb_gt; auto|done]).
  rewrite orb_false_l. destruct Hs as (_ & _ & Hn & _).
  replace (negb (bool_decide (block_leaves block = [])) &&
    negb (block_start_index block =? search_next_index s)) with false
    by (case_bool_decide; [done|rewrite Hn, Hi, Z.eqb_refl by done; done]).
  rewrite Hpush. unfold ok_or. rewrite Hr, Hroot. destruct Hs1 as (-> & _).
  by rewrite bool_decide_eq_true_2.
Qed.

(** ** Pages *)
Lemma honest_blocks_count start prev blocks leaves last :
  honest_blocks start prev blocks leaves last ->
  sum_list_with (fun block => length (block_leaves block)) blocks = length leaves.
Proof.
  induction 1 as [|start prev block rest leaves leaves' root last Hh Hp Hi Hd Hr Hroot Hrest IH];
    [done|]. simpl. rewrite length_app, IH. apply Forall2_length in Hd. lia.
Qed.

(** The cursor before the pages of the given sizes. *)
Definition cursor_at (ls : list MerkleHashVote) (prev : option Z) (from : Z) (sizes : list Z)
    (p : PageState) : Prop :=
  searched expected ls (ps_search p) /\ ps_previous_height p = prev /\ ps_from_height p = from /\
  linked VOTE_SDK_PAGE_LEAF_TARGET (option_list (ps_unpaired p) ++ sizes).

Lemma linked_tail target a sizes : linked target (a :: sizes) -> linked target sizes.
Proof. destruct sizes; [done|]. by intros [_ Hl]. Qed.

Lemma scan_page_complete ls prev from size sizes page leaves last p :
  cursor_at ls prev from (size :: sizes) p ->
  honest_blocks ls prev (page_blocks page) leaves last -> leaves <> [] ->
  size = Z.of_nat (length leaves) ->
  Z.of_nat (length (ls ++ leaves)) <= ts_next_index snapshot ->
  ts_next_index snapshot <= TREE_CAPACITY ->
  (length (occurrences expected (ls ++ leaves)) <= 1)%nat ->
  (if decide (Z.of_nat (length (ls ++ leaves)) = ts_next_index snapshot)
   then page_next_from_height page = 0
   else from < page_next_from_height page <= ts_height snapshot) ->
  exists p', scan_page expected snapshot p page = Ok p' /\
    searched expected (ls ++ leaves) (ps_search p') /\
    (Z.of_nat (length (ls ++ leaves)) <> ts_next_index snapshot ->
       cursor_at (ls ++ leaves) last (page_next_from_height page) sizes p').
Proof.
  intros (Hs & Hprev & Hfrom & Hlink) Hblocks Hne Hsize Hle Hcap Hocc Hnext.
  destruct (scan_blocks_complete _ _ _ _ _ Hblocks (ps_search p) Hs Hle Hcap Hocc)
    as (s' & Hscan & Hs').
  assert (0 < size) as Hpos by (subst size; destruct leaves; [done|simpl; lia]).
  assert (page_leaf_count page = size) as Hcount
    by (unfold page_leaf_count; rewrite (honest_blocks_count _ _ _ _ _ Hblocks); done).
  destruct Hs as (_ & _ & Hn & _). unfold scan_page. rewrite Hcount, Hn.
  unfold saturating_sub_u64. rewrite length_app in Hle.
  rewrite (proj2 (Z.ltb_ge _ _)) by lia. rewrite Hprev, Hscan. cbn [fst snd].
  unfold advance_cursor. destruct Hs' as (Hf' & Hw' & Hn' & Ho').
  rewrite Hn', Hcount, Hfrom. case_decide as Hend.
  - rewrite (proj2 (Z.ltb_ge _ _)) by lia. rewrite Hnext. cbn [Z.eqb negb].
    eexists. split_and!; [done|by split_and!|done].
  - rewrite (proj2 (Z.ltb_lt _ _)) by (rewrite length_app in *; lia).
    rewrite (proj2 (Z.eqb_neq _ _)) by lia.
    replace ((page_next_from_height page <=? from)
      || (ts_height snapshot <? page_next_from_height page)) with false
      by (symmetry; apply orb_false_iff; split; [apply Z.leb_gt|apply Z.ltb_ge]; lia).
    destruct (ps_unpaired p) as [previous|]; simpl in Hlink.
    + rewrite (proj2 (Z.ltb_ge _ _)) by (destruct Hlink; lia).
      eexists. split_and!; [done|by split_and!|]. intros _.
      split_and!; [by split_and!|done|done|]. simpl. by eapply linked_tail, Hlink.
    + eexists. split_and!; [done|by split_and!|]. intros _.
      split_and!; [by split_and!|done|done|]. done.
Qed.

(** ** A calm pass *)
Definition calm (deadline : Z) : Prop :=
  forall t, sc_interrupted env t = false /\ sc_now env t < deadline.

Lemma get_json_complete {R : Type} (decode : list Z -> option R) url r bytes deadline s :
  calm deadline -> serves decode url r bytes ->
  0 <= budget_response_bytes (sc_budget s) ->
  budget_response_bytes (sc_budget s) + bytes <= MAX_RECOVERY_TOTAL_BYTES ->
  exists t, get_json env decode url s = (ScDone r, mk_scan_state t
    (mk_budget (budget_deadline (sc_budget s)) (budget_leaf_requests (sc_budget s))
       (budget_response_bytes (sc_budget s) + bytes))).
Proof.
  intros Hcalm (resp & Hget & (Hst & Hlen & Hct) & Hdec & ->) Hnn Hb.
  unfold get_json, sc_bind, sc_ask. rewrite (proj1 (Hcalm _)), Hget.
  unfold charge_response, sc_bind, sc_get_budget, sc_set_budget, saturating_add_u64. simpl.
  unfold MAX_RECOVERY_TOTAL_BYTES, u64_max in *.
  rewrite Z.min_l by lia. rewrite (proj2 (Z.ltb_ge _ _)) by lia. unfold sc_ret.
  rewrite Hst, (proj2 (Z.ltb_ge _ _)), Hct by lia. cbn [Z.eqb Pos.eqb negb orb].
  unfold sc_lift, ok_or. rewrite Hdec. by eexists.
Qed.

Lemma begin_complete deadline s :
  calm deadline -> budget_deadline (sc_budget s) = deadline ->
  (budget_leaf_requests (sc_budget s) < MAX_RECOVERY_LEAF_REQUESTS)%nat ->
  exists t, begin_leaf_request env s = (ScDone tt, mk_scan_state t
    (mk_budget deadline (S (budget_leaf_requests (sc_budget s)))
       (budget_response_bytes (sc_budget s)))).
Proof.
  intros Hcalm Hd Hlt. unfold begin_leaf_request, sc_bind, sc_get_budget, sc_ask.
  rewrite bool_decide_eq_false_2 by lia. rewrite Hd.
  rewrite (proj2 (Z.leb_gt _ _)) by apply Hcalm. by eexists.
Qed.

(** One turn of the loop on a served page. *)
Lemma page_turn fuel deadline p p' page bytes s :
  calm deadline -> budget_deadline (sc_budget s) = deadline ->
  (budget_leaf_requests (sc_budget s) < MAX_RECOVERY_LEAF_REQUESTS)%nat ->
  0 <= budget_response_bytes (sc_budget s) ->
  budget_response_bytes (sc_budget s) + bytes <= MAX_RECOVERY_TOTAL_BYTES ->
  search_next_index (ps_search p) < ts_next_index snapshot ->
  serves json_leaves (leaves_url endpoint round (ps_from_height p) (ts_height snapshot)) page bytes ->
  scan_page expected snapshot p page = Ok p' ->
  exists t, scan_pages env (S fuel) endpoint round expected snapshot p s =
    scan_pages env fuel endpoint round expected snapshot p' (mk_scan_state t
      (mk_budget deadline (S (budget_leaf_requests (sc_budget s)))
         (budget_response_bytes (sc_budget s) + bytes))).
Proof.
  intros Hcalm Hd Hreq Hnn Hb Hidx Hserve Hpage. cbn [scan_pages].
  rewrite (proj2 (Z.leb_gt _ _)) by done. unfold sc_bind at 1. unfold sc_ask at 1.
  rewrite (proj1 (Hcalm _)). unfold sc_bind at 1.
  destruct (begin_complete deadline (mk_scan_state (S (sc_tick s)) (sc_budget s)))
    as (t1 & ->); [done..|].
  cbn [sc_budget]. unfold sc_bind at 1.
  destruct (get_json_complete json_leaves _ page bytes deadline (mk_scan_state t1
    (mk_budget deadline (S (budget_leaf_requests (sc_budget s)))
       (budget_response_bytes (sc_budget s)))) Hcalm Hserve Hnn Hb) as (t2 & ->).
  rewrite Hpage. exists t2. done.
Qed.

Lemma honest_pages_bytes start prev from sizes bytes ls :
  honest_pages start prev from sizes bytes ls -> 0 <= bytes.
Proof.
  induction 1 as [? ? ? ? ? ? ? (? & _ & _ & _ & ->)|? ? ? ? ? ? ? ? ? ? (? & _ & _ & _ & ->)]; lia.
Qed.

Lemma honest_pages_nonempty start prev from sizes bytes ls :
  honest_pages start prev from sizes bytes ls -> ls <> [].
Proof. destruct 1 as [|? ? ? ? ? leaves]; [done|]. by destruct leaves. Qed.

Lemma scan_pages_complete deadline start prev from sizes bytes ls :
  honest_pages start prev from sizes bytes ls ->
  calm deadline ->
  ts_next_index snapshot = Z.of_nat (length (start ++ ls)) ->
  ts_next_index snapshot <= TREE_CAPACITY ->
  (length (occurrences expected (start ++ ls)) <= 1)%nat ->
  forall fuel p s, cursor_at start prev from sizes p -> (length sizes <= fuel)%nat ->
  budget_deadline (sc_budget s) = deadline ->
  (budget_leaf_requests (sc_budget s) + length sizes <= MAX_RECOVERY_LEAF_REQUESTS)%nat ->
  0 <= budget_response_bytes (sc_budget s) ->
  budget_response_bytes (sc_budget s) + bytes <= MAX_RECOVERY_TOTAL_BYTES ->
  exists p' s', scan_pages env fuel endpoint round expected snapshot p s = (ScDone p', s') /\
    searched expected (start ++ ls) (ps_search p') /\ budget_deadline (sc_budget s') = deadline.
Proof.
  intros Hpages Hcalm.
  induction Hpages as [start prev from page bytes leaves last Hserve Hblocks Hne Hnext
    |start prev from page bytes leaves last sizes bytes' leaves' Hserve Hblocks Hne Hnext Hrest IH];
    intros Hidx Hcap Hocc [|fuel] p s Hcur Hfuel Hd Hreq Hnn Hb; simpl in Hfuel, Hreq; try lia;
    pose proof Hcur as ((_ & _ & Hn & _) & _ & Hfrom & _).
  - destruct (scan_page_complete start prev from _ [] page leaves last p Hcur)
      as (p' & Hpage & Hs' & _); try done; [lia|by rewrite decide_True|].
    edestruct (page_turn fuel deadline p p' page bytes s) as (t & ->); try done; try lia.
    { rewrite Hn, Hidx, length_app. destruct leaves; [done|simpl; lia]. }
    { by rewrite Hfrom. }
    assert (ts_next_index snapshot <= search_next_index (ps_search p')) as Hend%Z.leb_le
      by (destruct Hs' as (_ & _ & -> & _); lia).
    eexists p', _. split; [destruct fuel; simpl; rewrite Hend; reflexivity|done].
  - rewrite app_assoc in Hidx, Hocc.
    assert (leaves' <> []) as Hne' by (by eapply honest_pages_nonempty).
    assert (0 < length leaves')%nat as Hlen' by (destruct leaves'; [done|simpl; lia]).
    pose proof (occurrences_app_le (start ++ leaves) leaves') as Hle.
    destruct (scan_page_complete start prev from _ sizes page leaves last p Hcur)
      as (p' & Hpage & Hs' & Hcur'); try done.
    { rewrite Hidx, !length_app. lia. }
    { lia. }
    { rewrite decide_False; [done|]. rewrite Hidx, !length_app. lia. }
    edestruct (page_turn fuel deadline p p' page bytes s) as (t & ->); try done; try lia.
    { apply honest_pages_bytes in Hrest. lia. }
    { rewrite Hn, Hidx, !length_app. lia. }
    { by rewrite Hfrom. }
    edestruct (IH Hidx Hcap Hocc fuel p') as (p'' & s'' & -> & Hs'' & Hd'');
      [apply Hcur'; rewrite Hidx, !length_app; lia|lia|..|].
    all: cycle -1.
    { exists p'', s''. by rewrite app_assoc. }
    all: cbn [sc_budget budget_deadline budget_leaf_requests budget_response_bytes]; try lia.
    destruct Hserve as (? & _ & _ & _ & ->). lia.
Qed.

Lemma honest_pages_sizes start prev from sizes bytes ls :
  honest_pages start prev from sizes bytes ls ->
  Forall (fun p => 0 < p) sizes /\ sum_sizes sizes = Z.of_nat (length ls).
Proof.
  induction 1 as [? ? ? ? ? leaves ? _ _ Hne _|? ? ? ? ? leaves ? ? ? leaves' _ _ Hne _ _ [IHp IHs]].
  - split; [|simpl; lia]. repeat constructor. destruct leaves; [done|simpl; lia].
  - split; [constructor; [|done]; destruct leaves; [done|simpl; lia]|].
    simpl. fold (sum_sizes sizes). rewrite IHs, length_app. lia.
Qed.

(** ** The replica *)
Lemma honest_download deadline sizes bytes ls s :
  honest_snapshot sizes bytes ls -> calm deadline ->
  (length (occurrences expected ls) <= 1)%nat ->
  budget_deadline (sc_budget s) = deadline -> budget_leaf_requests (sc_budget s) = 0%nat ->
  0 <= budget_response_bytes (sc_budget s) ->
  budget_response_bytes (sc_budget s) + bytes <= MAX_RECOVERY_TOTAL_BYTES ->
  exists p s', scan_pages env MAX_RECOVERY_LEAF_REQUESTS endpoint round expected snapshot
      page_start s = (ScDone p, s') /\
    searched expected ls (ps_search p) /\ budget_deadline (sc_budget s') = deadline.
Proof.
  intros (Hidx & Hcap & _ & _ & Hpages) Hcalm Hocc Hd Hreq Hnn Hb. case_decide as Hls.
  - subst ls. simpl in Hidx. exists page_start, s. split_and!; [|apply searched_start|done].
    destruct MAX_RECOVERY_LEAF_REQUESTS; simpl; by rewrite Hidx.
  - destruct Hpages as [Hpages Hlink]. destruct (honest_pages_sizes _ _ _ _ _ _ Hpages) as [Hpos Hsum].
    assert (length sizes <= MAX_RECOVERY_LEAF_REQUESTS)%nat as Hmax
      by (apply enough_requests; [done|done|lia]).
    apply (scan_pages_complete deadline [] None 0 sizes bytes ls); try done; lia.
Qed.

Lemma time_complete deadline s :
  calm deadline -> budget_deadline (sc_budget s) = deadline ->
  exists s', ensure_time_remaining env s = (ScDone tt, s').
Proof.
  intros Hcalm Hd. unfold ensure_time_remaining, sc_bind, sc_get_budget, sc_ask. rewrite Hd.
  rewrite (proj2 (Z.leb_gt _ _)) by apply Hcalm. by eexists.
Qed.

Lemma honest_root sizes bytes ls :
  honest_snapshot sizes bytes ls ->
  exists root, snapshot_root_of snapshot = Ok root /\
    (forall r, root = Some r -> r = frontier_root ls).
Proof.
  intros (Hidx & _ & _ & Hroot & _). unfold snapshot_root_of.
  destruct (ts_root snapshot) as [[|c value]|].
  2: { rewrite Hroot. exists (Some (frontier_root ls)). split; [done|]. by intros r [= <-]. }
  all: subst ls; rewrite Hidx; by exists None.
Qed.

Lemma scan_replica_complete deadline sizes latest_bytes bytes ls s :
  serves json_latest (latest_url endpoint round) (mk_latest (Some snapshot)) latest_bytes ->
  honest_snapshot sizes bytes ls -> calm deadline ->
  (length (occurrences expected ls) <= 1)%nat ->
  sc_budget s = mk_budget deadline 0 0 -> 0 <= bytes ->
  latest_bytes + bytes <= MAX_RECOVERY_TOTAL_BYTES ->
  exists v s', scan_replica env endpoint round expected s = (ScDone v, s') /\
    exact_verdict expected ls v.
Proof.
  intros Hserve Hhonest Hcalm Hocc Hbud Hbn Hb.
  assert (0 <= latest_bytes) as Hl by (destruct Hserve as (? & _ & _ & _ & ->); lia).
  unfold scan_replica, sc_bind.
  destruct (get_json_complete json_latest _ _ latest_bytes deadline s Hcalm Hserve) as (t & ->);
    [rewrite Hbud; simpl; lia..|].
  rewrite Hbud. cbn [budget_deadline budget_leaf_requests budget_response_bytes].
  rewrite Z.add_0_l. unfold sc_lift, ok_or, sc_ret. cbn [latest_tree].
  pose proof Hhonest as (_ & Hcap & Hh & _ & _).
  rewrite (proj2 (Z.ltb_ge _ _)) by done. rewrite (proj2 (Z.ltb_ge _ _)) by done. cbn [orb].
  destruct (honest_root _ _ _ Hhonest) as (root & -> & Hroot).
  destruct (honest_download deadline sizes bytes ls (mk_scan_state t (mk_budget deadline 0 latest_bytes)))
    as (p & s1 & -> & Hs & Hd); try done.
  destruct (time_complete deadline s1 Hcalm Hd) as (s2 & ->).
  pose proof (replica_outcome_exact expected ls _ Hs) as Hv.
  destruct root as [r|]; [|by eexists _, _].
  destruct Hs as (Hf & _). rewrite bool_decide_eq_true_2 by (rewrite Hf; symmetry; by apply Hroot).
  by eexists _, _.
Qed.
End honest.

(** C32 (honest replicas): when the first endpoint serves a well-formed snapshot
    within the protocol's bounds, in pages as greedy whole-block pagination
    makes them, the host does not interrupt, and the layout occurs at most
    once, the scan ends with the verdict of searching that snapshot; the
    request limit never gets in the way. *)
Theorem honest_replica_gets_verdict `{Externals} `{TreeExternals} env endpoint rest derived
    snapshot sizes latest_bytes bytes ls s :
  serves env json_latest (latest_url endpoint (derived_round derived))
    (mk_latest (Some snapshot)) latest_bytes ->
  honest_snapshot snapshot env endpoint (derived_round derived) sizes bytes ls ->
  latest_bytes + bytes <= MAX_RECOVERY_TOTAL_BYTES ->
  calm env (sc_now env (sc_tick s) + RECOVERY_PASS_TIMEOUT) ->
  (length (occurrences (derived_leaves derived) ls) <= 1)%nat ->
  exists v s', scan_exact_layout env (endpoint :: rest) derived s = (ScDone v, s') /\
    exact_verdict (derived_leaves derived) ls v.
Proof.
  intros Hserve Hhonest Hb Hcalm Hocc.
  assert (0 <= bytes) as Hbn.
  { destruct Hhonest as (_ & _ & _ & _ & Hpages). case_decide; [lia|].
    by eapply honest_pages_bytes, Hpages. }
  unfold scan_exact_layout, budget_new, sc_bind at 1, sc_bind at 1, sc_ask, sc_set_budget.
  cbn [sc_tick scan_endpoints]. unfold sc_bind at 1, sc_ask.
  rewrite (proj1 (Hcalm _)). fold (derived_round derived) (derived_leaves derived).
  edestruct (scan_replica_complete snapshot env endpoint (derived_round derived)
    (derived_leaves derived) (derived_leaves_nonempty derived)) as (v & s' & -> & Hv); try done.
  by eexists _, _.
Qed.

#[local] Existing Instances example_externals example_tree.

Lemma honest_replica_gets_verdict_witness :
  exists v s', scan_exact_layout (example_scan_env [5; 8; 9]) [lit "https://a"]
      example_derived_vote (mk_scan_state 0 (mk_budget 0 0 0)) = (ScDone v, s') /\
    exact_verdict (derived_leaves example_derived_vote)
      [example_leaf 5; example_leaf 8; example_leaf 9] v.
Proof.
  apply (honest_replica_gets_verdict (example_scan_env [5; 8; 9]) (lit "https://a") []
    example_derived_vote (example_snapshot 3) [3] 1 3
    [example_leaf 5; example_leaf 8; example_leaf 9]).
  - exists (mk_response 200 (Some (lit "application/json; charset=utf-8")) [3]).
    split_and!; [reflexivity|repeat split; vm_compute; congruence|reflexivity|reflexivity].
  - split_and!; [reflexivity|vm_compute; congruence|vm_compute; congruence|reflexivity|].
    rewrite decide_False by done. split; [|exact I].
    apply (honest_pages_last _ _ _ _ [] None 0 (example_page (map example_leaf [5; 8; 9])) 3
      [example_leaf 5; example_leaf 8; example_leaf 9] (Some 7)).
    + exists (mk_response 200 (Some (lit "application/json; charset=utf-8")) [5; 8; 9]).
      split_and!; [reflexivity|repeat split; vm_compute; congruence|reflexivity|reflexivity].
    + apply (honest_blocks_cons _ [] None _ [] [example_leaf 5; example_leaf 8; example_leaf 9] []
        (example_leaf 1)); try reflexivity; try done; repeat constructor.
    + done.
    + reflexivity.
  - vm_compute. congruence.
  - intros t. split; [reflexivity|vm_compute; reflexivity].
  - vm_compute. lia.
Defined.
