(* ===== verification/Protocol.v ===== *)
(** * The vote-chain protocol

    Models [chain_submission/protocol.rs], the data of [transport.rs] and the
    ingress receipt of [ingress_timeout.rs]: endpoint sets, the request of a
    POST or a lookup, and the interpretation of what the transport returns.
    The transport is a parameter that answers a request; so are the JSON and
    URL crates. [ProtocolProofs.v] shows when an answer is evidence. *)

From stdpp Require Import base gmap strings list numbers.
From S2P Require Import Prelude Identity Outcome Lifecycle Record Confirmation Rows Store.
From S2P Require Import Coordinator Recovery.
Local Open Scope Z_scope.
Local Open Scope voting_scope.

(** ** Requests and answers *)
Definition MAX_CHAIN_HTTP_RESPONSE_BYTES : Z := 256 * 1024.

Inductive ChainTransportFailureKind := TransportDefinitelyUnsent | TransportPossiblyDispatched.
#[global] Instance ChainTransportFailureKind_eq_dec : EqDecision ChainTransportFailureKind.
Proof. solve_decision. Defined.

Record ChainTransportError := mk_transport_error {
  transport_kind : ChainTransportFailureKind;
  transport_message : text
}.

Definition transport_error (kind : ChainTransportFailureKind) (message : text)
    : ChainTransportError := mk_transport_error kind (bounded_redacted_text message).

Record ChainHttpRequest := mk_chain_request {
  request_url : text;
  request_headers : list (text * text);
  request_timeout : Z;
  request_max_response_bytes : Z
}.

Definition add_header (r : ChainHttpRequest) (name value : text) : ChainHttpRequest :=
  mk_chain_request (request_url r) (request_headers r ++ [(name, value)]) (request_timeout r)
    (request_max_response_bytes r).

(** How a request ended: the deadline, the transport's error, or a response. *)
Inductive TransportAnswer :=
| AnswerTimedOut
| AnswerError (error : ChainTransportError)
| AnswerResponse (response : HttpResponse).

(** ** Decoded bodies *)
Record TransactionResultJson := mk_result_json {
  rj_tx_hash : option text;
  rj_code : Z;
  rj_log : text;
  rj_batch_digest : option text
}.

Record TransactionStatusJson := mk_status_json {
  sj_height : text;
  sj_code : Z;
  sj_events : list TxEvent
}.

Record TimeoutReceipt := mk_receipt {
  receipt_version : Z;
  receipt_code : text;
  receipt_dispatch : text;
  receipt_attempt : text
}.

(** The parts of a [url::Url] the code reads. *)
Record Url := mk_url {
  url_scheme : text;
  url_username : text;
  url_password : option text;
  url_domain : option text;
  url_port : option Z;
  url_path : text;
  url_query : option text;
  url_fragment : option text
}.

(** [serde_json] and [url]. *)
Class ProtocolExternals := {
  json_transaction_result : list Z -> option TransactionResultJson;
  json_transaction_status : list Z -> option TransactionStatusJson;
  json_gateway_error : list Z -> option text;
  json_ingress_failure : list Z -> option TimeoutReceipt;
  request_to_json : ChainSubmissionRequest -> result (list Z) text;
  url_parse : text -> option Url;
  url_set_host : Url -> text -> option Url;
  url_set_port_none : Url -> option Url;
  url_set_path : Url -> text -> Url;
  url_as_str : Url -> text
}.

(** ** Limits *)
Definition API_PREFIX : list text := [lit "shielded-vote"; lit "v1"].
Definition DELEGATION_ENDPOINT : text := lit "delegate-vote".
Definition VOTE_ENDPOINT : text := lit "cast-vote".
Definition VOTE_BATCH_ENDPOINT : text := lit "cast-vote-batch".
Definition MIN_CHAIN_POST_TIMEOUT : Z := 120 * 1000000000.
Definition DEFAULT_CHAIN_POST_TIMEOUT : Z := 150 * 1000000000.
Definition DEFAULT_CHAIN_LOOKUP_TIMEOUT : Z := 10 * 1000000000.
Definition MAX_CHAIN_REQUEST_TIMEOUT : Z := 10 * 60 * 1000000000.
Definition MAX_CHAIN_HTTP_REQUEST_BYTES : Z := 1024 * 1024.
Definition MAX_CHAIN_ENDPOINTS : nat := 100.
Definition NULLIFIER_ALREADY_SPENT_CODE : Z := 2.
Definition REQUEST_HEADER : text := lit "x-vote-ingress-attempt-v1".

Definition invalid_protocol (message : text) : ChainSubmissionDiagnostic :=
  from_redacted_message InvalidProtocolResponse message.

Record ChainProtocolTiming := mk_timing { post_timeout : Z; lookup_timeout : Z }.

Definition timing_new (post lookup : Z) : result ChainProtocolTiming ChainSubmissionDiagnostic :=
  if negb ((MIN_CHAIN_POST_TIMEOUT <=? post) && (post <=? MAX_CHAIN_REQUEST_TIMEOUT)) then
    Err (invalid_protocol (lit "vote-chain POST timeout must be between 120 and 600 seconds"))
  else if (lookup =? 0) || (MAX_CHAIN_REQUEST_TIMEOUT <? lookup) then
    Err (invalid_protocol
      (lit "vote-chain lookup timeout must be between 1 nanosecond and 600 seconds"))
  else Ok (mk_timing post lookup).

Definition timing_default : ChainProtocolTiming :=
  mk_timing DEFAULT_CHAIN_POST_TIMEOUT DEFAULT_CHAIN_LOOKUP_TIMEOUT.

(** ** Percent escapes

    Paths of parsed URLs are ASCII, so a path is its bytes. *)
Definition hex_value (c : Z) : option Z :=
  if (48 <=? c) && (c <=? 57) then Some (c - 48)
  else if (97 <=? c) && (c <=? 102) then Some (c - 97 + 10)
  else if (65 <=? c) && (c <=? 70) then Some (c - 65 + 10)
  else None.

Definition upper_hex (d : Z) : Z := if d <? 10 then 48 + d else 55 + d.

Definition is_unreserved (c : Z) : bool :=
  ((48 <=? c) && (c <=? 57)) || ((65 <=? c) && (c <=? 90)) || ((97 <=? c) && (c <=? 122))
  || (c =? 45) || (c =? 46) || (c =? 95) || (c =? 126).

Definition percent : Z := 37.

(** [None] is the [Err(())] of a malformed escape. *)
Fixpoint normalize_percent_escapes (path : text) : option text :=
  match path with
  | [] => Some []
  | c :: rest =>
      if c =? percent then
        match rest with
        | high :: low :: rest =>
            match hex_value high, hex_value low with
            | Some high, Some low =>
                let value := Z.lor (Z.shiftl high 4) low in
                (if is_unreserved value then fun t => value :: t
                 else fun t => percent :: upper_hex high :: upper_hex low :: t)
                <$> normalize_percent_escapes rest
            | _, _ => None
            end
        | _ => None
        end
      else (fun t => c :: t) <$> normalize_percent_escapes rest
  end.

(** ** [String::from_utf8_lossy]

    A maximal ill-formed prefix becomes one replacement character. The state
    holds the continuation bytes still missing, the range of the next one and
    the code point read so far. *)
Inductive Utf8State :=
| Utf8Start
| Utf8Continue (missing : nat) (low high code : Z).

Definition replacement_character : Z := 65533.

Definition utf8_first (b : Z) : Utf8State * text :=
  if b <? 128 then (Utf8Start, [b])
  else if (194 <=? b) && (b <=? 223) then (Utf8Continue 1 128 191 (b - 192), [])
  else if b =? 224 then (Utf8Continue 2 160 191 0, [])
  else if b =? 237 then (Utf8Continue 2 128 159 13, [])
  else if (225 <=? b) && (b <=? 239) then (Utf8Continue 2 128 191 (b - 224), [])
  else if b =? 240 then (Utf8Continue 3 144 191 0, [])
  else if (241 <=? b) && (b <=? 243) then (Utf8Continue 3 128 191 (b - 240), [])
  else if b =? 244 then (Utf8Continue 3 128 143 4, [])
  else (Utf8Start, [replacement_character]).

Definition utf8_step (s : Utf8State) (b : Z) : Utf8State * text :=
  match s with
  | Utf8Start => utf8_first b
  | Utf8Continue missing low high code =>
      if (low <=? b) && (b <=? high) then
        let code := code * 64 + (b - 128) in
        match missing with
        | S (S m) => (Utf8Continue (S m) 128 191 code, [])
        | _ => (Utf8Start, [code])
        end
      else let '(s, t) := utf8_first b in (s, replacement_character :: t)
  end.

Fixpoint lossy_from (s : Utf8State) (bytes : list Z) : text :=
  match bytes with
  | [] => match s with Utf8Start => [] | _ => [replacement_character] end
  | b :: bytes => let '(s, t) := utf8_step s b in t ++ lossy_from s bytes
  end.

Definition from_utf8_lossy (bytes : list Z) : text := lossy_from Utf8Start bytes.

(** ** URLs *)
Definition strip_suffix_dot (t : text) : option text :=
  match rev t with
  | c :: rest => if c =? 46 then Some (rev rest) else None
  | [] => None
  end.

Fixpoint drop_slashes (t : text) : text :=
  match t with
  | c :: rest => if c =? 47 then drop_slashes rest else t
  | [] => []
  end.
Definition trim_end_slashes (t : text) : text := rev (drop_slashes (rev t)).

Fixpoint join_segments (segments : list text) : text :=
  match segments with
  | [] => []
  | segment :: segments => [47] ++ segment ++ join_segments segments
  end.

Definition join_chain_url (base_url : text) (segments : list text) : text :=
  base_url ++ join_segments (API_PREFIX ++ segments).

Section protocol.
Context `{Externals} `{ProtocolExternals}.

Definition canonicalize_chain_base_url (value : text) (network : Network)
    : result text ChainSubmissionDiagnostic :=
  let? url := ok_or (url_parse (trim value))
    (invalid_protocol (lit "vote-chain endpoint is not a valid URL")) in
  if negb (bool_decide (url_scheme url = lit "http") || bool_decide (url_scheme url = lit "https"))
  then Err (invalid_protocol (lit "vote-chain endpoint must use HTTP or HTTPS"))
  else if bool_decide (network = Mainnet) && negb (bool_decide (url_scheme url = lit "https"))
  then Err (invalid_protocol (lit "production vote-chain endpoint must use HTTPS"))
  else if negb (bool_decide (url_username url = [])) || bool_decide (is_Some (url_password url))
  then Err (invalid_protocol (lit "vote-chain endpoint must not contain credentials"))
  else if bool_decide (is_Some (url_query url)) || bool_decide (is_Some (url_fragment url))
  then Err (invalid_protocol (lit "vote-chain endpoint must not contain a query or fragment"))
  else
    let? url :=
      match url_domain url with
      | Some domain =>
          match strip_suffix_dot domain with
          | Some domain => ok_or (url_set_host url domain)
              (invalid_protocol (lit "vote-chain endpoint host is invalid"))
          | None => Ok url
          end
      | None => Ok url
      end in
    let default_port :=
      if bool_decide (url_scheme url = lit "http") then Some 80
      else if bool_decide (url_scheme url = lit "https") then Some 443 else None in
    let? url :=
      if bool_decide (url_port url = default_port)
      then ok_or (url_set_port_none url)
             (invalid_protocol (lit "vote-chain endpoint port is invalid"))
      else Ok url in
    let? path := ok_or (normalize_percent_escapes (url_path url))
      (invalid_protocol (lit "vote-chain endpoint path has an invalid percent escape")) in
    Ok (trim_end_slashes (url_as_str (url_set_path url path))).

Record ChainProtocolClient := mk_client {
  client_endpoints : list text;
  client_timing : ChainProtocolTiming
}.

Fixpoint canonical_endpoints (network : Network) (canonical endpoints : list text)
    : result (list text) ChainSubmissionDiagnostic :=
  match endpoints with
  | [] => Ok canonical
  | endpoint :: endpoints =>
      let? endpoint := canonicalize_chain_base_url endpoint network in
      if bool_decide (endpoint ∈ canonical) then
        Err (invalid_protocol
          (lit "vote-chain endpoint set contains a duplicate canonical endpoint"))
      else canonical_endpoints network (canonical ++ [endpoint]) endpoints
  end.

Definition client_with_timing (network : Network) (endpoints : list text)
    (timing : ChainProtocolTiming) : result ChainProtocolClient ChainSubmissionDiagnostic :=
  let? _ := timing_new (post_timeout timing) (lookup_timeout timing) in
  if bool_decide (endpoints = []) then
    Err (invalid_protocol (lit "vote-chain endpoint set must not be empty"))
  else if bool_decide (MAX_CHAIN_ENDPOINTS < length endpoints)%nat then
    Err (invalid_protocol (lit "vote-chain endpoint set exceeds "
      ++ decimal (Z.of_nat MAX_CHAIN_ENDPOINTS) ++ lit " endpoint limit"))
  else
    let? canonical := canonical_endpoints network [] endpoints in
    Ok (mk_client canonical timing).

Definition client_new (network : Network) (endpoints : list text)
    : result ChainProtocolClient ChainSubmissionDiagnostic :=
  client_with_timing network endpoints timing_default.

(** ** Responses *)
Definition has_media_type (response : HttpResponse) (media_type : text) : bool :=
  match http_content_type response with
  | Some content_type => eq_ignore_ascii_case (trim (before_semicolon content_type)) media_type
  | None => false
  end.

Definition is_json_content_type (response : HttpResponse) : bool :=
  has_media_type response (lit "application/json").

Definition body_too_large (response : HttpResponse) : bool :=
  MAX_CHAIN_HTTP_RESPONSE_BYTES <? Z.of_nat (length (http_body response)).

Definition observed_content_type (response : HttpResponse) : text :=
  default (lit "(absent)") (http_content_type response).

Definition validate_json_response (response : HttpResponse)
    : result unit ChainSubmissionDiagnostic :=
  if body_too_large response then
    Err (invalid_protocol (lit "vote-chain response exceeds "
      ++ decimal MAX_CHAIN_HTTP_RESPONSE_BYTES ++ lit " byte limit"))
  else if negb (is_json_content_type response) then
    let observed := observed_content_type response in
    let excerpt := trim (from_utf8_lossy (http_body response)) in
    let prefix := lit "vote-chain response Content-Type must be application/json, got "
                    ++ observed in
    Err (invalid_protocol
      (if bool_decide (excerpt = []) then prefix ++ lit " with an empty body"
       else prefix ++ lit ": " ++ excerpt))
  else Ok tt.

(** [CandidateTransactionHash::from_str]. *)
Definition candidate_from_str (value : text) : option CandidateTransactionHash :=
  if negb (bool_decide (length (utf8 value) = 64%nat)) || negb (forallb is_lower_hex (utf8 value))
  then None
  else match hex_decode value with
       | Some bytes => if bool_decide (length bytes = 32%nat) then Some bytes else None
       | None => None
       end.

Definition is_ascii_hexdigit (byte : Z) : bool :=
  ((48 <=? byte) && (byte <=? 57)) || ((97 <=? byte) && (byte <=? 102))
  || ((65 <=? byte) && (byte <=? 70)).

Definition normalize_candidate_hash (value : text) : option CandidateTransactionHash :=
  if negb (bool_decide (length (utf8 value) = 64%nat))
     || negb (forallb is_ascii_hexdigit (utf8 value))
  then None else candidate_from_str (map to_ascii_lowercase value).

Definition route_text (endpoint : text) : text :=
  lit "vote-chain endpoint may not serve /" ++ lit "shielded-vote/v1" ++ lit "/" ++ endpoint.

Definition gateway_shaped_route_answer (response : HttpResponse) (endpoint : text)
    : option ChainSubmissionDiagnostic :=
  if body_too_large response then None
  else if negb ((http_status response =? 404) || (http_status response =? 405))
          || negb (is_json_content_type response) then None
  else match json_gateway_error (http_body response) with
       | Some _ => Some (from_redacted_message EndpointUnsupported
           (route_text endpoint ++ lit " (HTTP " ++ decimal (http_status response)
            ++ lit ", gateway-shaped error envelope); the POST may have reached the chain; check the gateway route and vote-sdk release"))
       | None => None
       end.

Definition replaced_route_answer (response : HttpResponse) (endpoint : text)
    : option ChainSubmissionDiagnostic :=
  if body_too_large response then None
  else
    let status := http_status response in
    let possible_route_mismatch :=
      if (status =? 404) || (status =? 405) then true
      else if status =? 200 then has_media_type response (lit "text/html") else false in
    if negb possible_route_mismatch then None
    else Some (from_redacted_message RouteAnswerReplaced
      (route_text endpoint ++ lit " (HTTP " ++ decimal status ++ lit ", Content-Type "
       ++ observed_content_type response
       ++ lit "); the POST may have reached the chain; check the gateway route and vote-sdk release")).

(** The batch digest of a response against the expected one. *)
Definition check_batch_digest (expected : option (list Z)) (observed : option text)
    : result unit ChainSubmissionDiagnostic :=
  match expected, observed with
  | Some expected, Some observed =>
      if bool_decide (observed = lit (hex_encode expected)) then Ok tt
      else Err (invalid_protocol (lit "vote-batch response contained an invalid batch digest"))
  | Some _, None =>
      Err (invalid_protocol (lit "vote-batch response omitted its batch digest"))
  | None, Some _ =>
      Err (invalid_protocol (lit "non-batch vote-chain response contained a batch digest"))
  | None, None => Ok tt
  end.

Definition rejection_text (code : Z) (log : text) : text :=
  let prefix := lit "vote chain rejected transaction with code " ++ decimal code in
  if bool_decide (trim log = []) then prefix else prefix ++ lit ": " ++ trim log.

Definition rejected_outcome (code : Z) (parsed : TransactionResultJson) : PostAttemptOutcome :=
  let outcome := PostRejected code
    (if code =? NULLIFIER_ALREADY_SPENT_CODE then RejNullifierAlreadySpent else RejOther)
    (from_redacted_message ChainRejected (rejection_text code (rj_log parsed))) in
  match rj_tx_hash parsed with
  | None | Some [] => outcome None
  | Some hash =>
      match normalize_candidate_hash hash with
      | Some hash => outcome (Some hash)
      | None => PossiblyDispatched (invalid_protocol
          (lit "rejected vote-chain response contained an invalid transaction hash"))
      end
  end.

Definition parsed_outcome (status : Z) (parsed : TransactionResultJson) : PostAttemptOutcome :=
  let code := rj_code parsed in
  if (status =? 200) && (code =? 0) then
    match rj_tx_hash parsed with
    | Some hash =>
        match normalize_candidate_hash hash with
        | Some candidate => Accepted candidate
        | None => PossiblyDispatched (invalid_protocol
            (lit "accepted vote-chain response omitted a canonical transaction hash"))
        end
    | None => PossiblyDispatched (invalid_protocol
        (lit "accepted vote-chain response omitted a canonical transaction hash"))
    end
  else if (status =? 422) && negb (code =? 0) then rejected_outcome code parsed
  else if (300 <=? status) && (status <=? 399) then
    PossiblyDispatched (invalid_protocol (lit "vote-chain mutation redirect was rejected"))
  else PossiblyDispatched (invalid_protocol
    (lit "unsupported vote-chain mutation response status=" ++ decimal status ++ lit " code="
     ++ decimal code)).

Definition parse_post_response (response : HttpResponse) (endpoint : text)
    (expected_batch_digest : option (list Z)) : PostAttemptOutcome :=
  match gateway_shaped_route_answer response endpoint with
  | Some diagnostic => PossiblyDispatched diagnostic
  | None =>
  match replaced_route_answer response endpoint with
  | Some diagnostic => PossiblyDispatched diagnostic
  | None =>
  match validate_json_response response with
  | Err diagnostic => PossiblyDispatched diagnostic
  | Ok _ =>
  match json_transaction_result (http_body response) with
  | None => PossiblyDispatched (invalid_protocol
      (lit "vote-chain transaction response is malformed JSON"))
  | Some parsed =>
  match check_batch_digest expected_batch_digest (rj_batch_digest parsed) with
  | Err diagnostic => PossiblyDispatched diagnostic
  | Ok _ => parsed_outcome (http_status response) parsed
  end end end end end.

(** [ingress_timeout::is_not_dispatched]. *)
Definition is_not_dispatched (status : Z) (payload : list Z) (attempt : option text) : bool :=
  match attempt with
  | None => false
  | Some attempt =>
      if negb (status =? 408) then false
      else match json_ingress_failure payload with
           | None => false
           | Some receipt =>
               (receipt_version receipt =? 1)
               && bool_decide (receipt_code receipt = lit "request_body_timeout")
               && bool_decide (receipt_dispatch receipt = lit "not_started")
               && bool_decide (receipt_attempt receipt = attempt)
           end
  end.

(** ** One POST *)
Definition chain_request (url : text) (has_json_body : bool) (timeout : Z) : ChainHttpRequest :=
  mk_chain_request url
    ((lit "accept", lit "application/json")
     :: (if has_json_body then [(lit "content-type", lit "application/json")] else []))
    timeout MAX_CHAIN_HTTP_RESPONSE_BYTES.

Definition post_request (client : ChainProtocolClient) (base_url endpoint : text)
    (attempt_token : option text) : ChainHttpRequest :=
  let request := chain_request (join_chain_url base_url [endpoint]) true
    (post_timeout (client_timing client)) in
  match attempt_token with
  | Some token => add_header request REQUEST_HEADER token
  | None => request
  end.

(** The transport's answer and the dispatch marker, read once the request's
    future is finished or dropped. *)
Definition Transport : Type := ChainHttpRequest -> list Z -> TransportAnswer * bool.

Definition post_outcome (endpoint : text) (expected_batch_digest : option (list Z))
    (attempt_token : option text) (answer : TransportAnswer) (marked : bool)
    : PostAttemptOutcome :=
  match answer with
  | AnswerTimedOut =>
      if negb marked then
        DefinitelyUnsent (transport_message (transport_error TransportDefinitelyUnsent (lit
          "vote-chain submission timed out before the transport released the request")))
      else PossiblyDispatched
        (from_redacted_message AmbiguousDispatch (lit "vote-chain submission timed out"))
  | AnswerResponse response =>
      if is_ok (validate_json_response response)
         && is_not_dispatched (http_status response) (http_body response) attempt_token
      then NotDispatchedByServer
      else parse_post_response response endpoint expected_batch_digest
  | AnswerError error =>
      if bool_decide (transport_kind error = TransportDefinitelyUnsent)
      then DefinitelyUnsent (transport_message error)
      else PossiblyDispatched (from_redacted_message AmbiguousDispatch (transport_message error))
  end.

(** The request a POST hands to the transport, or the local failure before. *)
Definition post_plan (client : ChainProtocolClient) (endpoint_index : nat) (endpoint : text)
    (body : list Z) (attempt_token : option text)
    : result ChainHttpRequest ChainSubmissionDiagnostic :=
  if MAX_CHAIN_HTTP_REQUEST_BYTES <? Z.of_nat (length body) then
    Err (invalid_protocol (lit "vote-chain request exceeds "
      ++ decimal MAX_CHAIN_HTTP_REQUEST_BYTES ++ lit " byte limit"))
  else
    let? base_url := ok_or (client_endpoints client !! endpoint_index)
      (invalid_protocol (lit "vote-chain endpoint index is out of range")) in
    Ok (post_request client base_url endpoint attempt_token).

Definition post (client : ChainProtocolClient) (transport : Transport) (endpoint_index : nat)
    (endpoint : text) (body : list Z) (expected_batch_digest : option (list Z))
    (attempt_token : option text) : PostAttemptOutcome :=
  match post_plan client endpoint_index endpoint body attempt_token with
  | Err diagnostic => LocalFailure diagnostic
  | Ok request =>
      let '(answer, marked) := transport request body in
      post_outcome endpoint expected_batch_digest attempt_token answer marked
  end.

(** The four submissions: serialize, then post to the kind's route. *)
Definition submit_with_dispatch (client : ChainProtocolClient) (transport : Transport)
    (endpoint_index : nat) (request : ChainSubmissionRequest) (what endpoint : text)
    (expected_batch_digest : option (list Z)) (attempt_token : option text)
    : PostAttemptOutcome :=
  match request_to_json request with
  | Ok body => post client transport endpoint_index endpoint body expected_batch_digest
                 attempt_token
  | Err error => LocalFailure (invalid_protocol
      (lit "serialize " ++ what ++ lit " request failed: " ++ error))
  end.

Definition submit_delegation_with_dispatch (client : ChainProtocolClient)
    (transport : Transport) (endpoint_index : nat) (submission : DelegationSubmissionWire)
    (attempt_token : option text) : PostAttemptOutcome :=
  submit_with_dispatch client transport endpoint_index (QDelegation submission)
    (lit "delegation") DELEGATION_ENDPOINT None attempt_token.

Definition submit_vote_with_dispatch (client : ChainProtocolClient) (transport : Transport)
    (endpoint_index : nat) (submission : VoteCommitmentWire) (attempt_token : option text)
    : PostAttemptOutcome :=
  submit_with_dispatch client transport endpoint_index (QVote submission)
    (lit "vote") VOTE_ENDPOINT None attempt_token.

Definition submit_vote_batch_with_dispatch (client : ChainProtocolClient)
    (transport : Transport) (endpoint_index : nat) (submission : VoteCommitmentBatchWire)
    (expected_batch_digest : list Z) (attempt_token : option text) : PostAttemptOutcome :=
  submit_with_dispatch client transport endpoint_index (QVoteBatch submission)
    (lit "vote-batch") VOTE_BATCH_ENDPOINT (Some expected_batch_digest) attempt_token.

Definition submit_delegate_and_vote_batch_with_dispatch (client : ChainProtocolClient)
    (transport : Transport) (endpoint_index : nat) (submission : DelegateAndVoteBatchWire)
    (expected_batch_digest : list Z) (attempt_token : option text) : PostAttemptOutcome :=
  submit_with_dispatch client transport endpoint_index (QDelegateAndVoteBatch submission)
    (lit "combined") (lit "delegate-and-cast-vote-batch") (Some expected_batch_digest)
    attempt_token.

(** ** Status lookups *)
Definition parse_status_response (response : HttpResponse)
    : result TransactionStatusObservation ChainSubmissionDiagnostic :=
  let? _ := validate_json_response response in
  let status := http_status response in
  if status =? 404 then
    let? error := ok_or (json_gateway_error (http_body response))
      (invalid_protocol (lit "vote-chain pending response is malformed JSON")) in
    if bool_decide (error = lit "tx not found") then Ok StatusPending
    else Err (invalid_protocol (lit "vote-chain pending response has an unsupported error"))
  else if (300 <=? status) && (status <=? 399) then
    Err (invalid_protocol (lit "vote-chain transaction lookup redirect was rejected"))
  else if negb ((status =? 200) || (status =? 422)) then
    Err (invalid_protocol (lit "unsupported vote-chain lookup HTTP status " ++ decimal status))
  else
    let? parsed := ok_or (json_transaction_status (http_body response))
      (invalid_protocol (lit "vote-chain transaction status is malformed JSON")) in
    let? height := ok_or (parse_u64 (sj_height parsed))
      (invalid_protocol (lit "vote-chain transaction height is not a u64 decimal string")) in
    let committed := mk_committed height (sj_code parsed) (sj_events parsed) in
    if (status =? 200) && (sj_code parsed =? 0) then Ok (CommittedSuccess committed)
    else if (status =? 422) && negb (sj_code parsed =? 0) then Ok (CommittedFailure committed)
    else Err (invalid_protocol
      (lit "contradictory vote-chain lookup response status=" ++ decimal status ++ lit " code="
       ++ decimal (sj_code parsed))).

Definition observed_status (answer : TransportAnswer)
    : result TransactionStatusObservation LookupFailure :=
  match answer with
  | AnswerResponse response => map_err LookupProtocol (parse_status_response response)
  | AnswerError error => Err (LookupTransport (transport_message error))
  | AnswerTimedOut => Err (LookupTransport (transport_message
      (transport_error TransportPossiblyDispatched
         (lit "vote-chain transaction lookup timed out"))))
  end.

(** The endpoint loop: the first committed answer ends it. *)
Fixpoint lookup_endpoints (get : ChainHttpRequest -> TransportAnswer) (timeout : Z) (hash : text)
    (saw_pending : bool) (last_failure : option LookupFailure) (endpoints : list text)
    : result TransactionStatusObservation LookupFailure :=
  match endpoints with
  | [] =>
      if saw_pending then Ok StatusPending
      else Err (default (LookupProtocol
        (invalid_protocol (lit "vote-chain lookup produced no endpoint result"))) last_failure)
  | base_url :: endpoints =>
      let request := chain_request (join_chain_url base_url [lit "tx"; hash]) false timeout in
      match observed_status (get request) with
      | Ok StatusPending => lookup_endpoints get timeout hash true last_failure endpoints
      | Ok committed => Ok committed
      | Err error => lookup_endpoints get timeout hash saw_pending (Some error) endpoints
      end
  end.

Definition transaction_status (client : ChainProtocolClient)
    (get : ChainHttpRequest -> TransportAnswer) (transaction_hash : CandidateTransactionHash)
    : result TransactionStatusObservation LookupFailure :=
  lookup_endpoints get (lookup_timeout (client_timing client)) (lit (hex_encode transaction_hash))
    false None (client_endpoints client).
End protocol.
