(* ===== verification/ProtocolProofs.v ===== *)
(** * What an answer of the vote chain is evidence for

    A POST reported as not dispatched did not reach the chain, provided the
    transport marks and reports as its contract demands. Acceptance and
    rejection are read only from the exact responses that mean them. A lookup
    over several endpoints is the first committed answer, else pending, else
    the last failure. Canonical endpoints are distinct, and normalizing a path
    changes its spelling only. *)

From Stdlib Require Import ZifyBool.
From stdpp Require Import base gmap strings list numbers.
From S2P Require Import Prelude Identity Outcome Lifecycle Record Confirmation Rows Store.
From S2P Require Import Coordinator Recovery Protocol.
Local Open Scope Z_scope.
Local Open Scope voting_scope.

(** ** Dispatch *)
Section dispatch.
Context `{Externals} `{ProtocolExternals}.

(** What [ChainTransport] and the trusted ingress promise about the requests
    they are handed: the marker is set before a request is released, an unsent
    error is true, and a receipt for the request's own token means that it was
    not broadcast. *)
Record transport_contract (transport : Transport)
    (broadcast : ChainHttpRequest -> list Z -> Prop) : Prop := {
  tc_marker : forall request body, broadcast request body -> (transport request body).2 = true;
  tc_unsent : forall request body error,
    (transport request body).1 = AnswerError error ->
    transport_kind error = TransportDefinitelyUnsent -> ~ broadcast request body;
  tc_receipt : forall request body response token,
    (transport request body).1 = AnswerResponse response ->
    (REQUEST_HEADER, token) ∈ request_headers request ->
    is_not_dispatched (http_status response) (http_body response) (Some token) = true ->
    ~ broadcast request body
}.

(** The request and body a submission hands to the transport, if any. *)
Definition handed_over (client : ChainProtocolClient) (endpoint_index : nat)
    (request : ChainSubmissionRequest) (endpoint : text) (attempt_token : option text)
    : option (ChainHttpRequest * list Z) :=
  match request_to_json request with
  | Ok body =>
      match post_plan client endpoint_index endpoint body attempt_token with
      | Ok http => Some (http, body)
      | Err _ => None
      end
  | Err _ => None
  end.

Lemma parsed_outcome_dispatched status parsed :
  may_have_dispatched (parsed_outcome status parsed) = true.
Proof. unfold parsed_outcome, rejected_outcome. by repeat case_match. Qed.

Lemma parse_post_response_dispatched response endpoint expected :
  may_have_dispatched (parse_post_response response endpoint expected) = true.
Proof.
  unfold parse_post_response. repeat case_match; try done. apply parsed_outcome_dispatched.
Qed.

(** C26 (not dispatched): when a submission is reported as failed locally,
    unsent or refused before broadcast, whatever it handed to a transport that
    keeps its contract did not reach the chain. *)
Theorem undispatched_was_not_broadcast client transport broadcast index request what endpoint
    digest token http body :
  transport_contract transport broadcast ->
  may_have_dispatched
    (submit_with_dispatch client transport index request what endpoint digest token) = false ->
  handed_over client index request endpoint token = Some (http, body) ->
  ~ broadcast http body.
Proof.
  intros [Hmark Hunsent Hreceipt]. unfold submit_with_dispatch, handed_over, post.
  destruct (request_to_json request) as [b|]; [|done].
  destruct (post_plan client index endpoint b token) as [r|] eqn:Hplan; [|done].
  intros Hout [= -> ->]. specialize (Hmark http body). specialize (Hunsent http body).
  specialize (Hreceipt http body). destruct (transport http body) as [answer marked].
  simpl in *. unfold post_outcome in Hout. destruct answer as [|error|response].
  - destruct marked; [done|]. intros Hb. by apply Hmark in Hb.
  - case_bool_decide; [|done]. by eapply Hunsent.
  - destruct (is_ok _ && is_not_dispatched _ _ token) eqn:Hr.
    + apply andb_true_iff in Hr as [_ Hr]. destruct token as [token|]; [|done].
      apply (Hreceipt response token); [done| |done].
      unfold post_plan in Hplan. destruct (_ <? _); [done|].
      destruct (client_endpoints client !! index); [|done]. injection Hplan as <-.
      simpl. set_solver.
    + by rewrite parse_post_response_dispatched in Hout.
Qed.
End dispatch.

(** ** Responses as evidence *)
Section evidence.
Context `{Externals} `{ProtocolExternals}.

(** A well-formed transaction result with this status and the expected batch
    digest. *)
Definition answers_with (response : HttpResponse) (expected : option (list Z)) (status : Z)
    (parsed : TransactionResultJson) : Prop :=
  http_status response = status /\ body_too_large response = false /\
  is_json_content_type response = true /\
  json_transaction_result (http_body response) = Some parsed /\
  rj_batch_digest parsed = (fun d => lit (hex_encode d)) <$> expected.

Lemma json_is_not_html response :
  is_json_content_type response = true -> has_media_type response (lit "text/html") = false.
Proof.
  unfold is_json_content_type, has_media_type, eq_ignore_ascii_case.
  destruct (http_content_type response); [|done]. rewrite bool_decide_eq_true. intros ->.
  by apply bool_decide_eq_false.
Qed.

Lemma check_batch_digest_ok expected observed :
  check_batch_digest expected observed = Ok tt <->
  observed = (fun d => lit (hex_encode d)) <$> expected.
Proof.
  unfold check_batch_digest. destruct expected, observed; simpl; try done.
  case_bool_decide; naive_solver.
Qed.

Lemma validate_json_ok response :
  validate_json_response response = Ok tt <->
  body_too_large response = false /\ is_json_content_type response = true.
Proof.
  unfold validate_json_response. destruct (body_too_large response); [naive_solver|].
  destruct (is_json_content_type response); naive_solver.
Qed.

(** On the two statuses that carry evidence the response is parsed exactly. *)
Lemma parse_post_parsed response endpoint expected status parsed :
  status = 200 \/ status = 422 -> answers_with response expected status parsed ->
  parse_post_response response endpoint expected = parsed_outcome status parsed.
Proof.
  intros Hs (Hst & Hb & Hj & Hp & Hd). unfold parse_post_response.
  assert (gateway_shaped_route_answer response endpoint = None) as ->.
  { unfold gateway_shaped_route_answer. rewrite Hb, Hst. by destruct Hs as [-> | ->]. }
  assert (replaced_route_answer response endpoint = None) as ->.
  { unfold replaced_route_answer. rewrite Hb, Hst, json_is_not_html by done.
    by destruct Hs as [-> | ->]. }
  rewrite (proj2 (validate_json_ok response)) by done. rewrite Hp.
  by rewrite (proj2 (check_batch_digest_ok expected _)), Hst.
Qed.

Lemma parse_post_reads response endpoint expected :
  (forall d, parse_post_response response endpoint expected <> PossiblyDispatched d) ->
  exists parsed, answers_with response expected (http_status response) parsed /\
    parse_post_response response endpoint expected = parsed_outcome (http_status response) parsed.
Proof.
  unfold parse_post_response. intros Hne.
  destruct (gateway_shaped_route_answer _ _); [by destruct (Hne c)|].
  destruct (replaced_route_answer _ _); [by destruct (Hne c)|].
  destruct (validate_json_response response) as [[]|d] eqn:Hv; [|by destruct (Hne d)].
  apply validate_json_ok in Hv as [Hb Hj].
  destruct (json_transaction_result _) as [parsed|] eqn:Hp; [|by edestruct Hne].
  destruct (check_batch_digest _ _) as [[]|d] eqn:Hd; [|by destruct (Hne d)].
  apply check_batch_digest_ok in Hd. exists parsed. split; [|done]. by split_and!.
Qed.

(** Acceptance and rejection: a response is read as an acceptance exactly
    when it is a JSON transaction result with status 200, code 0, the expected
    batch digest and a canonical hash, and as a rejection exactly when it is
    one with status 422 and a nonzero code whose hash, if any, is canonical.
    Everything else leaves the dispatch open. *)
Theorem post_evidence_exact response endpoint expected :
  (forall hash, parse_post_response response endpoint expected = Accepted hash <->
     exists parsed text, answers_with response expected 200 parsed /\ rj_code parsed = 0 /\
       rj_tx_hash parsed = Some text /\ normalize_candidate_hash text = Some hash) /\
  (forall code kind diagnostic candidate,
     parse_post_response response endpoint expected = PostRejected code kind diagnostic candidate <->
     exists parsed, answers_with response expected 422 parsed /\
       rj_code parsed = code /\ code <> 0 /\
       kind = (if code =? NULLIFIER_ALREADY_SPENT_CODE then RejNullifierAlreadySpent
               else RejOther) /\
       diagnostic = from_redacted_message ChainRejected (rejection_text code (rj_log parsed)) /\
       match candidate with
       | None => rj_tx_hash parsed = None \/ rj_tx_hash parsed = Some []
       | Some hash => exists text, rj_tx_hash parsed = Some text /\ text <> [] /\
           normalize_candidate_hash text = Some hash
       end).
Proof.
  split.
  - intros hash. split.
    + intros Ha. destruct (parse_post_reads response endpoint expected) as (parsed & Hr & He);
        [congruence|]. rewrite Ha in He. unfold parsed_outcome, rejected_outcome in He.
      destruct (_ && _) eqn:Hc in He.
      * apply andb_true_iff in Hc as [Hs Hc]. rewrite Z.eqb_eq in Hs, Hc. rewrite Hs in Hr.
        destruct (rj_tx_hash parsed) as [t|] eqn:Ht; [|done].
        destruct (normalize_candidate_hash t) eqn:Hn; [|done]. injection He as <-. eauto 8.
      * by repeat case_match.
    + intros (parsed & t & Ha & Hc & Ht & Hn).
      rewrite (parse_post_parsed response endpoint expected 200 parsed) by auto.
      unfold parsed_outcome. by rewrite Hc, Ht, Hn.
  - intros code kind diagnostic candidate. split.
    + intros Ha. destruct (parse_post_reads response endpoint expected) as (parsed & Hr & He);
        [congruence|]. rewrite Ha in He. unfold parsed_outcome in He.
      destruct (_ && _) eqn:Hc in He; [by repeat case_match|].
      destruct (_ && _) eqn:Hc' in He; [|by repeat case_match].
      apply andb_true_iff in Hc' as [Hs Hn]. rewrite Z.eqb_eq in Hs. rewrite Hs in Hr.
      apply negb_true_iff, Z.eqb_neq in Hn. exists parsed. unfold rejected_outcome in He.
      destruct (rj_tx_hash parsed) as [[|c t]|] eqn:Ht;
        [injection He as -> -> -> -> | |injection He as -> -> -> ->]; [by split_and!; auto| |by split_and!; auto].
      destruct (normalize_candidate_hash _) eqn:Hh; [|done].
      injection He as -> -> -> ->. split_and!; try done. by exists (c :: t).
    + intros (parsed & Ha & Hcode & Hne & -> & -> & Hcand).
      rewrite (parse_post_parsed response endpoint expected 422 parsed) by auto.
      unfold parsed_outcome, rejected_outcome. rewrite Hcode. simpl.
      rewrite (proj2 (Z.eqb_neq code 0) Hne). simpl. destruct candidate as [hash|].
      * destruct Hcand as (t & -> & Hnil & Hn). destruct t; [done|]. by rewrite Hn.
      * by destruct Hcand as [-> | ->].
Qed.

(** ** Lookups *)
Definition is_committed (r : result TransactionStatusObservation LookupFailure) : bool :=
  match r with Ok (CommittedSuccess _ | CommittedFailure _) => true | _ => false end.
Definition is_pending (r : result TransactionStatusObservation LookupFailure) : bool :=
  match r with Ok StatusPending => true | _ => false end.

(** The answers of all endpoints, combined. *)
Definition combined_status (answers : list (result TransactionStatusObservation LookupFailure))
    : result TransactionStatusObservation LookupFailure :=
  match List.find is_committed answers with
  | Some committed => committed
  | None =>
      if existsb is_pending answers then Ok StatusPending
      else List.last answers (Err (LookupProtocol (invalid_protocol
             (lit "vote-chain lookup produced no endpoint result"))))
  end.

Definition endpoint_answers (client : ChainProtocolClient)
    (get : ChainHttpRequest -> TransportAnswer) (hash : CandidateTransactionHash)
    : list (result TransactionStatusObservation LookupFailure) :=
  map (fun base_url => observed_status (get (chain_request
         (join_chain_url base_url [lit "tx"; lit (hex_encode hash)]) false
         (lookup_timeout (client_timing client))))) (client_endpoints client).

Lemma last_nonempty {A : Type} (a : A) l d d' : List.last (a :: l) d = List.last (a :: l) d'.
Proof. revert a. induction l as [|b l IH]; intros a; [done|]. apply (IH b). Qed.

Lemma lookup_endpoints_combined get timeout hash endpoints : forall seen failure,
  lookup_endpoints get timeout hash seen failure endpoints
  = let answers := map (fun base_url => observed_status (get (chain_request
        (join_chain_url base_url [lit "tx"; hash]) false timeout))) endpoints in
    match List.find is_committed answers with
    | Some committed => committed
    | None =>
        if seen || existsb is_pending answers then Ok StatusPending
        else List.last answers (Err (default (LookupProtocol (invalid_protocol
               (lit "vote-chain lookup produced no endpoint result"))) failure))
    end.
Proof.
  induction endpoints as [|e endpoints IH]; intros seen failure; simpl.
  - by destruct seen.
  - destruct (observed_status _) as [[| |]|f] eqn:Ho; simpl; [|done|done|].
    + rewrite IH. simpl. destruct (List.find _ _); [done|]. by destruct seen.
    + rewrite IH. simpl. destruct (List.find _ _); [done|]. destruct (seen || _); [done|].
      destruct (map _ endpoints) as [|a answers]; [done|].
      change (List.last (a :: answers) (Err f) = List.last (a :: answers)
        (Err (default (LookupProtocol (invalid_protocol
           (lit "vote-chain lookup produced no endpoint result"))) failure))).
      by apply last_nonempty.
Qed.

(** Status lookup: polling the endpoints in order gives the first committed
    answer if there is one, otherwise pending if some endpoint says so, and
    otherwise the last endpoint's failure. *)
Theorem transaction_status_combines client get hash :
  transaction_status client get hash = combined_status (endpoint_answers client get hash).
Proof.
  unfold transaction_status, combined_status, endpoint_answers.
  rewrite lookup_endpoints_combined. simpl. destruct (List.find _ _); [done|].
  by destruct (existsb _ _).
Qed.
End evidence.

(** ** Percent escapes *)

(** The bytes a path spells; [None] for a malformed escape. *)
Fixpoint percent_decode (path : text) : option (list Z) :=
  match path with
  | [] => Some []
  | c :: rest =>
      if c =? percent then
        match rest with
        | high :: low :: rest =>
            match hex_value high, hex_value low with
            | Some high, Some low => (fun t => 16 * high + low :: t) <$> percent_decode rest
            | _, _ => None
            end
        | _ => None
        end
      else (fun t => c :: t) <$> percent_decode rest
  end.

Lemma hex_value_bound c d : hex_value c = Some d -> 0 <= d < 16.
Proof. unfold hex_value. repeat case_match; intros [= <-]; lia. Qed.

Lemma hex_value_upper d : 0 <= d < 16 -> hex_value (upper_hex d) = Some d.
Proof.
  intros Hd. unfold hex_value, upper_hex. repeat case_match; try (f_equal; lia); lia.
Qed.

Lemma nibbles_value high low :
  0 <= high < 16 -> 0 <= low < 16 -> Z.lor (Z.shiftl high 4) low = 16 * high + low.
Proof.
  intros Hh Hl.
  assert (forallb (fun h => forallb (fun l => Z.lor (Z.shiftl h 4) l =? 16 * h + l) (seqZ 0 16))
            (seqZ 0 16) = true) as Hall by (vm_compute; reflexivity).
  rewrite forallb_forall in Hall. specialize (Hall high).
  rewrite forallb_forall in Hall. apply Z.eqb_eq, Hall; apply list_elem_of_In, elem_of_seqZ; lia.
Qed.

(** [percent] itself is reserved, so an unreserved byte is read back alone. *)
Lemma unreserved_not_percent c : is_unreserved c = true -> (c =? percent) = false.
Proof. unfold is_unreserved, percent. lia. Qed.

Lemma normalize_escape high low h l rest :
  hex_value high = Some h -> hex_value low = Some l ->
  normalize_percent_escapes (percent :: high :: low :: rest)
  = (if is_unreserved (16 * h + l) then fun t => 16 * h + l :: t
     else fun t => percent :: upper_hex h :: upper_hex l :: t)
    <$> normalize_percent_escapes rest.
Proof.
  intros Hh Hl. cbn [normalize_percent_escapes]. rewrite Hh, Hl.
  rewrite nibbles_value by (by eapply hex_value_bound). by destruct (is_unreserved _).
Qed.

(** Path spelling: normalizing the escapes of a path fails exactly on a
    malformed escape, keeps the bytes the path spells, and changes nothing
    when done again. *)
Theorem percent_normalization path :
  (normalize_percent_escapes path = None <-> percent_decode path = None) /\
  (forall normal, normalize_percent_escapes path = Some normal ->
     percent_decode normal = percent_decode path /\
     normalize_percent_escapes normal = Some normal).
Proof.
  induction path as [path IH] using (induction_ltof1 _ (@length Z)).
  destruct path as [|c rest]; [by split; [|intros ? [= <-]]|].
  destruct (c =? percent) eqn:Hc.
  - apply Z.eqb_eq in Hc as ->. destruct rest as [|high [|low rest]]; [by split..|].
    destruct (hex_value high) as [h|] eqn:Hh; [|by split; cbn [normalize_percent_escapes percent_decode]; rewrite Hh].
    destruct (hex_value low) as [l|] eqn:Hl;
      [|by split; cbn [normalize_percent_escapes percent_decode]; rewrite Hh, Hl].
    rewrite (normalize_escape _ _ h l) by done.
    destruct (IH rest) as [IHn IHs]; [unfold ltof; simpl; lia|].
    cbn [percent_decode]. rewrite Hh, Hl. simpl.
    destruct (normalize_percent_escapes rest) as [t|] eqn:Ht; simpl.
    + destruct (IHs t eq_refl) as [Hd Hn]. split.
      { split; [done|]. destruct (percent_decode rest); [done|]. pose proof (proj2 IHn eq_refl); done. }
      intros normal [= <-]. destruct (is_unreserved (16 * h + l)) eqn:Hu.
      * cbn [percent_decode normalize_percent_escapes]. rewrite unreserved_not_percent by done.
        by rewrite Hd, Hn.
      * pose proof (hex_value_bound _ _ Hh). pose proof (hex_value_bound _ _ Hl).
        rewrite (normalize_escape _ _ h l) by (by apply hex_value_upper).
        cbn [percent_decode]. rewrite !hex_value_upper, Hd, Hn, Hu by done. done.
    + split; [|done]. by rewrite (proj1 IHn eq_refl).
  - destruct (IH rest) as [IHn IHs]; [unfold ltof; simpl; lia|].
    cbn [percent_decode normalize_percent_escapes]. rewrite Hc.
    destruct (normalize_percent_escapes rest) as [t|] eqn:Ht; simpl.
    + destruct (IHs t eq_refl) as [Hd Hn]. split.
      { split; [done|]. destruct (percent_decode rest); [done|]. pose proof (proj2 IHn eq_refl); done. }
      intros normal [= <-]. cbn [percent_decode normalize_percent_escapes]. by rewrite Hc, Hd, Hn.
    + split; [|done]. by rewrite (proj1 IHn eq_refl).
Qed.

(** ** Endpoint sets *)
Section endpoints.
Context `{Externals} `{ProtocolExternals}.

Lemma canonical_endpoints_spec network endpoints : forall canonical result,
  canonical_endpoints network canonical endpoints = Ok result -> NoDup canonical ->
  NoDup result /\ exists added, result = canonical ++ added /\
    Forall2 (fun given e => canonicalize_chain_base_url given network = Ok e) endpoints added.
Proof.
  induction endpoints as [|e endpoints IH]; intros canonical result Hr Hn; simpl in Hr.
  - injection Hr as <-. split; [done|]. exists []. by rewrite app_nil_r.
  - destruct (canonicalize_chain_base_url e network) as [c|] eqn:Hc; [|done].
    case_bool_decide as Hin; [done|]. apply IH in Hr as [Hnr (added & -> & Hf)].
    + split; [done|]. exists (c :: added). split; [by rewrite <- app_assoc|].
      by apply Forall2_cons_2.
    + apply list.NoDup_app. split_and!; [done|set_solver|apply NoDup_singleton].
Qed.

(** A client polls every configured endpoint once, under its canonical name. *)
Lemma client_endpoints_canonical network endpoints timing client :
  client_with_timing network endpoints timing = Ok client ->
  NoDup (client_endpoints client) /\
  Forall2 (fun given e => canonicalize_chain_base_url given network = Ok e) endpoints
    (client_endpoints client) /\
  (1 <= length (client_endpoints client) <= MAX_CHAIN_ENDPOINTS)%nat.
Proof.
  unfold client_with_timing. destruct (timing_new _ _); [|done].
  case_bool_decide as He; [done|]. case_bool_decide as Hm; [done|].
  destruct (canonical_endpoints network [] endpoints) as [canonical|] eqn:Hc; [|done].
  intros [= <-]. apply canonical_endpoints_spec in Hc as [Hn (added & -> & Hf)];
    [|constructor]. simpl in *. apply Forall2_length in Hf as Hl.
  split_and!; [done|done| |lia]. destruct endpoints; [done|]. simpl in Hl. lia.
Qed.
End endpoints.

(** ** A transport that gives up before releasing the request *)
Definition example_protocol : ProtocolExternals := {|
  json_transaction_result := fun _ => None;
  json_transaction_status := fun _ => None;
  json_gateway_error := fun _ => None;
  json_ingress_failure := fun _ => None;
  request_to_json := fun _ => Ok [123; 125];
  url_parse := fun t => Some (mk_url (lit "https") [] None None None t None None);
  url_set_host := fun u _ => Some u;
  url_set_port_none := fun u => Some u;
  url_set_path := fun u p => mk_url (url_scheme u) [] None None None p None None;
  url_as_str := url_path
|}.

Definition example_client : ChainProtocolClient := mk_client [lit "https://chain"] timing_default.

(** Only requests to another host are released and marked. *)
Definition example_transport : Transport := fun request _ =>
  (AnswerTimedOut, negb (bool_decide
     (request_url request = join_chain_url (lit "https://chain") [VOTE_ENDPOINT]))).

Definition example_broadcast (request : ChainHttpRequest) (body : list Z) : Prop :=
  (example_transport request body).2 = true.

Lemma undispatched_was_not_broadcast_witness :
  exists http, @handed_over example_protocol example_client 0 (QVote (mk_vote_wire
      [] [] [] 3 [] [] 0 [] [])) VOTE_ENDPOINT None = Some (http, [123; 125]) /\
    ~ example_broadcast http [123; 125].
Proof.
  eexists. split; [reflexivity|].
  apply (@undispatched_was_not_broadcast example_externals example_protocol example_client
    example_transport example_broadcast 0 (QVote (mk_vote_wire [] [] [] 3 [] [] 0 [] []))
    (lit "vote") VOTE_ENDPOINT None None).
  - split; [done|intros ? ? ? [=]|intros ? ? ? ? [=]].
  - vm_compute. reflexivity.
  - reflexivity.
Defined.
