(* ===== verification/SampleCodec.v ===== *)
(** * A sample codec

    A self-describing code for structured values as strings. It stands in for
    [serde_json] where the components are instantiated and evaluated: every
    value decodes to itself. *)

From stdpp Require Import base countable strings list numbers.
From Stdlib Require Import Ascii.
From S2P Require Import Prelude.
Local Open Scope Z_scope.

(** ** Values as tokens *)
Class Token (A : Type) := {
  enc : A -> list Z;
  dec : list Z -> option (A * list Z);
  dec_enc : forall a rest, dec (enc a ++ rest) = Some (a, rest)
}.

#[global] Instance token_Z : Token Z.
Proof.
  refine {| enc := fun z : Z => [z];
            dec := fun l => match l with z :: l => Some (z, l) | [] => None end |}.
  done.
Defined.

#[global] Instance token_bool : Token bool.
Proof.
  refine {| enc := fun b : bool => [if b then 1 else 0];
            dec := fun l => match l with z :: l => Some (z =? 1, l) | [] => None end |}.
  by intros [].
Defined.

#[global] Instance token_pair {A B} `{Token A} `{Token B} : Token (A * B).
Proof.
  refine {| enc := fun p : A * B => enc p.1 ++ enc p.2;
            dec := fun l => '(a, l) ← dec l; '(b, l) ← dec l; Some ((a, b), l) |}.
  intros [a b] rest. rewrite <- app_assoc, dec_enc. cbn. by rewrite dec_enc.
Defined.

Fixpoint dec_many {A} `{Token A} (n : nat) (l : list Z) : option (list A * list Z) :=
  match n with
  | O => Some ([], l)
  | S n => '(a, l) ← dec l; '(r, l) ← dec_many n l; Some (a :: r, l)
  end.

Lemma dec_many_enc {A} `{Token A} (x : list A) rest :
  dec_many (length x) (flat_map enc x ++ rest) = Some (x, rest).
Proof.
  induction x as [|a x IH]; [done|]. cbn [length flat_map dec_many].
  rewrite <- app_assoc, dec_enc. cbn. by rewrite IH.
Qed.

#[global] Instance token_list {A} `{Token A} : Token (list A).
Proof.
  refine {| enc := fun x : list A => Z.of_nat (length x) :: flat_map enc x;
            dec := fun l => match l with n :: l => dec_many (Z.to_nat n) l | [] => None end |}.
  intros x rest. cbn [app]. rewrite Nat2Z.id. apply dec_many_enc.
Defined.

(** A value seen through an invertible map. *)
Definition token_iso {A B} `{Token B} (f : A -> B) (g : B -> A) (gf : forall a, g (f a) = a)
    : Token A.
Proof.
  refine {| enc := fun a : A => enc (f a);
            dec := fun l => '(b, l) ← dec l; Some (g b, l) |}.
  intros a rest. rewrite dec_enc. cbn. by rewrite gf.
Defined.

#[global] Instance token_option {A} `{Token A} : Token (option A).
Proof.
  refine (token_iso (fun o : option A => match o with Some a => [a] | None => [] end)
            (fun l => match l with a :: _ => Some a | [] => None end) _).
  by intros [].
Defined.

#[global] Instance token_string : Token string.
Proof.
  refine (token_iso (fun s => map (fun c => Z.of_N (Ascii.N_of_ascii c)) (String.list_ascii_of_string s))
            (fun l => String.string_of_list_ascii (map (fun z => Ascii.ascii_of_N (Z.to_N z)) l)) _).
  intros s. rewrite List.map_map.
  rewrite (List.map_ext _ id), List.map_id; [apply String.string_of_list_ascii_of_string|].
  intros c. rewrite N2Z.id. apply Ascii.ascii_N_embedding.
Defined.

(** ** Tokens as text *)
Fixpoint bits (p : positive) (rest : string) : string :=
  match p with
  | xH => String ","%char rest
  | xO p => String "0"%char (bits p rest)
  | xI p => String "1"%char (bits p rest)
  end.

Fixpoint unbits (s : string) : option (list positive) :=
  match s with
  | EmptyString => Some []
  | String c s =>
      match unbits s with
      | None => None
      | Some l =>
          if decide (c = ","%char) then Some (xH :: l)
          else match l with
               | p :: l => if decide (c = "0"%char) then Some (xO p :: l) else Some (xI p :: l)
               | [] => None
               end
      end
  end.

Definition tokens_text (l : list Z) : string := foldr (fun z s => bits (encode z) s) EmptyString l.
Definition text_tokens (s : string) : option (list Z) :=
  match unbits s with
  | Some l => mapM decode l
  | None => None
  end.

Lemma unbits_bits p s l : unbits s = Some l -> unbits (bits p s) = Some (p :: l).
Proof. intros Hs. induction p as [p IH|p IH|]; cbn; [by rewrite IH..|by rewrite Hs]. Qed.

Lemma unbits_tokens l : unbits (tokens_text l) = Some (map encode l).
Proof. induction l as [|z l IH]; [done|]. cbn. by apply unbits_bits. Qed.

Lemma text_tokens_text l : text_tokens (tokens_text l) = Some l.
Proof.
  unfold text_tokens. rewrite unbits_tokens.
  apply mapM_Some. rewrite Forall2_fmap_l. apply Forall_Forall2_diag, Forall_forall.
  intros z _. apply decode_encode.
Qed.

Definition sample_string {A} `{Token A} (a : A) : string := tokens_text (enc a).
Definition sample_parse {A} `{Token A} (s : string) : option A :=
  l ← text_tokens s; '(a, _) ← dec l; Some a.

Lemma sample_parse_string {A} `{Token A} (a : A) : sample_parse (sample_string a) = Some a.
Proof.
  unfold sample_parse, sample_string. rewrite text_tokens_text. cbn.
  pose proof (dec_enc a []) as E. rewrite app_nil_r in E. by rewrite E.
Qed.
