(* ===== verification/VoteRecovery.v ===== *)
(** * Vote recovery material

    Models the durable recovery record of a signed vote ([vote.rs]): its JSON
    form and the checks of [parse_recovery], the batch digests of
    [vote_commitment.rs] and [delegate_and_vote_batch/authorization.rs], the
    assembly of a complete atomic batch, and the wire requests rebuilt from it
    ([wire_codec.rs]). The theorems show that the JSON form is lossless for
    every record the library writes and that a batch digest fixes the actions
    of the batch that is assembled for it. *)

From stdpp Require Import base gmap strings list numbers sorting.
From Stdlib Require Import ZifyBool.
From S2P Require Import Prelude SampleCodec Identity Outcome Lifecycle Record Confirmation.
Local Open Scope Z_scope.
Local Open Scope voting_scope.

(** ** Errors and limits *)
Definition VStorage (message : text) : VotingError := VOther (lit "Storage error: " ++ message).

Definition MIN_VOTE_OPTIONS : Z := 2.
Definition MAX_VOTE_OPTIONS : Z := 8.

(** The largest string or blob SQLite stores. *)
Definition SQLITE_MAX_LENGTH : Z := 2147483647.
Definition storable {A} (l : list A) : Prop := Z.of_nat (length l) <= SQLITE_MAX_LENGTH.

Definition VOTE_RECOVERY_FORMAT : string := "zcash_voting_vote_recovery_v1".
Definition DELEGATE_AND_VOTE_BATCH_RECOVERY_FORMAT : string :=
  "zcash_voting_delegate_cast_recovery_v1".
Definition VOTE_BATCH_RECOVERY_FORMAT : string := "zcash_voting_vote_batch_recovery_v1".

(** ** Data *)
Record EncryptedShare := mk_share {
  es_c1 : list Z;
  es_c2 : list Z;
  es_share_index : Z;
  es_plaintext_value : Z;
  es_randomness : list Z
}.

Record VoteBatchRecovery := mk_batch_recovery {
  vb_delegation_van : option (list Z);
  vb_digest : list Z;
  vb_index : Z;
  vb_size : Z
}.

Record VoteRecoveryBundle := mk_recovery {
  vr_vote_round_id : string;
  vr_bundle_index : Z;
  vr_proposal_id : Z;
  vr_vote_decision : Z;
  vr_anchor_height : Z;
  vr_vc_tree_position : Z;
  vr_single_share : bool;
  vr_num_options : Z;
  vr_van_nullifier : list Z;
  vr_vote_authority_note_new : list Z;
  vr_vote_commitment : list Z;
  vr_proof : list Z;
  vr_shares_hash : list Z;
  vr_r_vpk : list Z;
  vr_alpha_v : list Z;
  vr_vote_auth_sig : list Z;
  vr_encrypted_shares : list EncryptedShare;
  vr_share_blinds : list (list Z);
  vr_share_comms : list (list Z);
  vr_batch : option VoteBatchRecovery
}.

(** The JSON object; an [EncryptedShareJson] has the fields of a share. *)
Record VoteRecoveryJson := mk_recovery_json {
  vj_format : string;
  vj_vote_round_id : string;
  vj_bundle_index : Z;
  vj_proposal_id : Z;
  vj_vote_decision : Z;
  vj_anchor_height : Z;
  vj_vc_tree_position : Z;
  vj_single_share : bool;
  vj_num_options : Z;
  vj_van_nullifier : list Z;
  vj_vote_authority_note_new : list Z;
  vj_vote_commitment : list Z;
  vj_proof : list Z;
  vj_shares_hash : list Z;
  vj_r_vpk : list Z;
  vj_alpha_v : list Z;
  vj_vote_auth_sig : list Z;
  vj_encrypted_shares : list EncryptedShare;
  vj_share_blinds : list (list Z);
  vj_share_comms : list (list Z);
  vj_batch_digest : option (list Z);
  vj_delegation_van : option (list Z);
  vj_batch_index : option Z;
  vj_batch_size : option Z
}.

#[global] Instance EncryptedShare_eq_dec : EqDecision EncryptedShare.
Proof. solve_decision. Defined.
#[global] Instance VoteBatchRecovery_eq_dec : EqDecision VoteBatchRecovery.
Proof. solve_decision. Defined.
#[global] Instance VoteRecoveryBundle_eq_dec : EqDecision VoteRecoveryBundle.
Proof. solve_decision. Defined.

(** *** What the Rust types guarantee *)
Definition wf_share (s : EncryptedShare) : Prop :=
  storable (es_c1 s) /\ storable (es_c2 s) /\ is_u32 (es_share_index s)
  /\ is_u64 (es_plaintext_value s) /\ storable (es_randomness s).

Definition wf_batch_recovery (b : VoteBatchRecovery) : Prop :=
  wf_bytes32 (vb_digest b) /\ is_u32 (vb_index b) /\ is_u32 (vb_size b)
  /\ (forall van, vb_delegation_van b = Some van -> wf_bytes32 van).

Record wf_recovery (b : VoteRecoveryBundle) : Prop := {
  wr_round : Z.of_nat (String.length (vr_vote_round_id b)) <= SQLITE_MAX_LENGTH;
  wr_ints : is_u32 (vr_bundle_index b) /\ is_u32 (vr_proposal_id b)
    /\ is_u32 (vr_vote_decision b) /\ is_u32 (vr_anchor_height b)
    /\ is_u32 (vr_num_options b) /\ is_u64 (vr_vc_tree_position b);
  wr_arrays : wf_bytes32 (vr_van_nullifier b) /\ wf_bytes32 (vr_vote_authority_note_new b)
    /\ wf_bytes32 (vr_vote_commitment b) /\ wf_bytes32 (vr_shares_hash b)
    /\ wf_bytes32 (vr_r_vpk b) /\ wf_bytes32 (vr_alpha_v b)
    /\ length (vr_vote_auth_sig b) = 64%nat;
  wr_proof : storable (vr_proof b);
  wr_shares : storable (vr_encrypted_shares b) /\ Forall wf_share (vr_encrypted_shares b);
  wr_blinds : storable (vr_share_blinds b) /\ Forall wf_bytes32 (vr_share_blinds b);
  wr_comms : storable (vr_share_comms b) /\ Forall wf_bytes32 (vr_share_comms b);
  wr_batch : forall batch, vr_batch b = Some batch -> wf_batch_recovery batch
}.

(** What typed decoding of a stored JSON text guarantees. *)
Record wf_recovery_json (j : VoteRecoveryJson) : Prop := {
  wj_round : Z.of_nat (String.length (vj_vote_round_id j)) <= SQLITE_MAX_LENGTH;
  wj_ints : is_u32 (vj_bundle_index j) /\ is_u32 (vj_proposal_id j)
    /\ is_u32 (vj_vote_decision j) /\ is_u32 (vj_anchor_height j)
    /\ is_u32 (vj_num_options j) /\ is_u64 (vj_vc_tree_position j);
  wj_proof : storable (vj_proof j);
  wj_shares : storable (vj_encrypted_shares j) /\ Forall wf_share (vj_encrypted_shares j);
  wj_lists : storable (vj_share_blinds j) /\ storable (vj_share_comms j);
  wj_batch : (forall i, vj_batch_index j = Some i -> is_u32 i)
    /\ (forall n, vj_batch_size j = Some n -> is_u32 n)
    /\ (forall van, vj_delegation_van j = Some van -> wf_bytes32 van)
}.

(** ** Code outside the repository

    [serde_json] on the recovery record, the [hex] crate's error text,
    BLAKE2b and the reddsa signature check. A stored text decodes to values
    of the declared types, and what is encoded decodes to itself. *)
Class RecoveryExternals := {
  json_vote_recovery : string -> result VoteRecoveryJson text;
  vote_recovery_json_string : VoteRecoveryJson -> string;
  (** The text as a JSON value, and whether one of the three batch markers is
      present and not null. *)
  json_has_batch_marker : string -> result bool text;
  (** [serde_json::to_vec] of an object with string values. *)
  json_string_object : list (string * string) -> list Z;
  hex_error : text -> text;
  blake2b_256 : list Z -> list Z;
  json_vote_recovery_typed : forall s j,
    Z.of_nat (String.length s) <= SQLITE_MAX_LENGTH ->
    json_vote_recovery s = Ok j -> wf_recovery_json j;
  json_vote_recovery_string : forall j,
    wf_recovery_json j -> json_vote_recovery (vote_recovery_json_string j) = Ok j
}.

(** ** Validation ([types.rs]) *)
Definition validate_proposal_id (proposal_id : Z) : result unit VotingError :=
  if (MIN_PROPOSAL_ID <=? proposal_id) && (proposal_id <=? MAX_PROPOSAL_ID) then Ok tt
  else Err (VInvalidInput (lit "proposal_id must be " ++ decimal MIN_PROPOSAL_ID ++ lit "..="
    ++ decimal MAX_PROPOSAL_ID ++ lit ", got " ++ decimal proposal_id)).

Definition validate_vote_options (num_options : Z) : result unit VotingError :=
  if (MIN_VOTE_OPTIONS <=? num_options) && (num_options <=? MAX_VOTE_OPTIONS) then Ok tt
  else Err (VInvalidInput (lit "num_options must be " ++ decimal MIN_VOTE_OPTIONS ++ lit "..="
    ++ decimal MAX_VOTE_OPTIONS ++ lit ", got " ++ decimal num_options)).

Definition validate_vote_decision (decision num_options : Z) : result unit VotingError :=
  let? _ := validate_vote_options num_options in
  if num_options <=? decision then
    Err (VInvalidInput (lit "vote_decision must be in [0, " ++ decimal num_options
      ++ lit "), got " ++ decimal decision))
  else Ok tt.

Section recovery.
Context `{Externals} `{RecoveryExternals}.

Definition check_vote_round_id_bytes (id : list Z) : result unit VotingError :=
  if bool_decide (length id = 32%nat) then
    if pallas_canonical id then Ok tt
    else Err (VInvalidInput (lit "vote_round_id is not a canonical Pallas field element"))
  else Err (VInvalidInput
    (lit "vote_round_id must be 32 bytes, got " ++ decimal (Z.of_nat (length id)))).

Definition validate_vote_round_id_hex (id : string) : result unit VotingError :=
  if negb (bool_decide (String.length id = 64%nat)) then
    Err (VInvalidInput (lit "vote_round_id must be 64 lowercase hex characters, got "
      ++ decimal (Z.of_nat (String.length id))))
  else if negb (forallb is_lower_hex (lit id)) then
    Err (VInvalidInput (lit "vote_round_id must be lowercase hex"))
  else
    let? bytes := ok_or (hex_decode (lit id))
      (VInvalidInput (lit "vote_round_id is not valid hex: " ++ hex_error (lit id))) in
    check_vote_round_id_bytes bytes.

Definition array_of (n : nat) (label : text) (value : list Z) : result (list Z) VotingError :=
  if bool_decide (length value = n) then Ok value
  else Err (VInternal (label ++ lit " must be " ++ decimal (Z.of_nat n) ++ lit " bytes, got "
    ++ decimal (Z.of_nat (length value)))).

Definition array32 (label : text) (value : list Z) : result (list Z) VotingError :=
  array_of 32 label value.
Definition array64 (label : text) (value : list Z) : result (list Z) VotingError :=
  array_of 64 label value.

Fixpoint array32_from (label : text) (index : nat) (values : list (list Z))
    : result (list (list Z)) VotingError :=
  match values with
  | [] => Ok []
  | value :: values =>
      let? value := array32 (label ++ lit "[" ++ decimal (Z.of_nat index) ++ lit "]") value in
      let? values := array32_from label (S index) values in
      Ok (value :: values)
  end.
Definition array32_vec (label : text) (values : list (list Z))
    : result (list (list Z)) VotingError := array32_from label 0 values.

(** ** JSON form *)
Definition validate_recovery_bundle_vote_fields (b : VoteRecoveryBundle)
    : result unit VotingError :=
  let? _ := validate_vote_round_id_hex (vr_vote_round_id b) in
  let? _ := validate_proposal_id (vr_proposal_id b) in
  validate_vote_decision (vr_vote_decision b) (vr_num_options b).

Definition recovery_format (b : VoteRecoveryBundle) : string :=
  match vr_batch b with
  | Some batch =>
      match vb_delegation_van batch with
      | Some _ => DELEGATE_AND_VOTE_BATCH_RECOVERY_FORMAT
      | None => VOTE_BATCH_RECOVERY_FORMAT
      end
  | None => VOTE_RECOVERY_FORMAT
  end.

Definition recovery_to_json (b : VoteRecoveryBundle) : VoteRecoveryJson :=
  mk_recovery_json (recovery_format b) (vr_vote_round_id b) (vr_bundle_index b)
    (vr_proposal_id b) (vr_vote_decision b) (vr_anchor_height b) (vr_vc_tree_position b)
    (vr_single_share b) (vr_num_options b) (vr_van_nullifier b) (vr_vote_authority_note_new b)
    (vr_vote_commitment b) (vr_proof b) (vr_shares_hash b) (vr_r_vpk b) (vr_alpha_v b)
    (vr_vote_auth_sig b) (vr_encrypted_shares b) (vr_share_blinds b) (vr_share_comms b)
    (vb_digest <$> vr_batch b) (vr_batch b ≫= vb_delegation_van)
    (vb_index <$> vr_batch b) (vb_size <$> vr_batch b).

Definition serialize_recovery (b : VoteRecoveryBundle) : result string VotingError :=
  let? _ := validate_recovery_bundle_vote_fields b in
  Ok (vote_recovery_json_string (recovery_to_json b)).

Definition batch_of_json (j : VoteRecoveryJson) : result (option VoteBatchRecovery) VotingError :=
  match vj_batch_digest j, vj_batch_index j, vj_batch_size j with
  | None, None, None => Ok None
  | Some digest, Some index, Some size =>
      if (size =? 0) || (Z.of_nat MAX_VOTE_BATCH_ACTIONS <? size) || (size <=? index) then
        Err (VInvalidInput (lit "invalid vote batch recovery position index=" ++ decimal index
          ++ lit ", size=" ++ decimal size))
      else
        let? digest := array32 (lit "batch_digest") digest in
        Ok (Some (mk_batch_recovery (vj_delegation_van j) digest index size))
  | _, _, _ => Err (VInvalidInput
      (lit "vote batch recovery metadata must include digest, index, and size together"))
  end.

Definition recovery_of_json (j : VoteRecoveryJson) : result VoteRecoveryBundle VotingError :=
  let? _ := validate_vote_round_id_hex (vj_vote_round_id j) in
  let? _ := validate_proposal_id (vj_proposal_id j) in
  let? _ := validate_vote_decision (vj_vote_decision j) (vj_num_options j) in
  let? batch := batch_of_json j in
  let? van_nullifier := array32 (lit "van_nullifier") (vj_van_nullifier j) in
  let? vote_authority_note_new :=
    array32 (lit "vote_authority_note_new") (vj_vote_authority_note_new j) in
  let? vote_commitment := array32 (lit "vote_commitment") (vj_vote_commitment j) in
  let? shares_hash := array32 (lit "shares_hash") (vj_shares_hash j) in
  let? r_vpk := array32 (lit "r_vpk") (vj_r_vpk j) in
  let? alpha_v := array32 (lit "alpha_v") (vj_alpha_v j) in
  let? vote_auth_sig := array64 (lit "vote_auth_sig") (vj_vote_auth_sig j) in
  let? share_blinds := array32_vec (lit "share_blinds") (vj_share_blinds j) in
  let? share_comms := array32_vec (lit "share_comms") (vj_share_comms j) in
  Ok (mk_recovery (vj_vote_round_id j) (vj_bundle_index j) (vj_proposal_id j)
        (vj_vote_decision j) (vj_anchor_height j) (vj_vc_tree_position j) (vj_single_share j)
        (vj_num_options j) van_nullifier vote_authority_note_new vote_commitment (vj_proof j)
        shares_hash r_vpk alpha_v vote_auth_sig (vj_encrypted_shares j) share_blinds share_comms
        batch).

Definition has_batch_metadata (j : VoteRecoveryJson) : bool :=
  bool_decide (is_Some (vj_batch_digest j)) || bool_decide (is_Some (vj_batch_index j))
  || bool_decide (is_Some (vj_batch_size j)).

(** The format guard of [parse_recovery]. *)
Definition check_format (j : VoteRecoveryJson) : result unit VotingError :=
  let combined := bool_decide (is_Some (vj_delegation_van j)) in
  if bool_decide (vj_format j = VOTE_RECOVERY_FORMAT)
     && negb (has_batch_metadata j) && negb combined then Ok tt
  else if bool_decide (vj_format j = VOTE_BATCH_RECOVERY_FORMAT)
          && has_batch_metadata j && negb combined then Ok tt
  else if bool_decide (vj_format j = DELEGATE_AND_VOTE_BATCH_RECOVERY_FORMAT)
          && has_batch_metadata j && combined && (vj_anchor_height j =? 0) then Ok tt
  else if bool_decide (vj_format j = VOTE_RECOVERY_FORMAT)
          || bool_decide (vj_format j = VOTE_BATCH_RECOVERY_FORMAT) then
    Err (VInvalidInput (lit "vote recovery format " ++ lit (vj_format j)
      ++ lit " does not match its record contents"))
  else Err (VInvalidInput (lit "unsupported vote recovery format: " ++ lit (vj_format j))).

Definition parse_recovery (json : string) : result VoteRecoveryBundle VotingError :=
  let? parsed := map_err (fun e => VInvalidInput (lit "invalid vote recovery JSON: " ++ e))
    (json_vote_recovery json) in
  let? _ := check_format parsed in
  recovery_of_json parsed.

(** [stored_vote_commitment_bytes]. *)
Definition stored_vote_commitment_bytes (b : VoteRecoveryBundle) : list Z :=
  json_string_object
    [("van_nullifier"%string, hex_encode (vr_van_nullifier b));
     ("vote_authority_note_new"%string, hex_encode (vr_vote_authority_note_new b));
     ("vote_commitment"%string, hex_encode (vr_vote_commitment b));
     ("proof"%string, hex_encode (vr_proof b))].

Definition ensure_singleton_vote_recovery (b : VoteRecoveryBundle) : result unit VotingError :=
  match vr_batch b with
  | Some _ => Err (VInvalidInput (lit
      "vote belongs to an atomic batch; use the complete batch lifecycle instead of a per-vote API"))
  | None => Ok tt
  end.

(** ** Batch digests *)
Record CastVoteBatchSighashAction := mk_action {
  act_r_vpk : list Z;
  act_van_nullifier : list Z;
  act_vote_authority_note_new : list Z;
  act_vote_commitment : list Z;
  act_proposal_id : Z
}.

(** [to_le_bytes] of an [n]-byte integer, padded to 32 bytes. *)
Definition padded32 (b : list Z) : list Z :=
  take 32 b ++ replicate (32 - length b) 0.
Definition u32_padded32 (z : Z) : list Z := padded32 (rev (be_bytes 4 z)).
Definition u64_padded32 (z : Z) : list Z := padded32 (rev (be_bytes 8 z)).

Definition batch_sighash_domain : list Z := string_bytes "SVOTE_CAST_VOTE_BATCH_SIGHASH_V1".
Definition combined_sighash_domain : list Z :=
  string_bytes "SVOTE_DELEGATE_AND_CAST_VOTE_BATCH_SIGHASH_V1".

Fixpoint encode_actions (index : nat) (actions : list CastVoteBatchSighashAction) : list Z :=
  match actions with
  | [] => []
  | a :: actions =>
      u32_padded32 (Z.of_nat index) ++ padded32 (act_r_vpk a) ++ padded32 (act_van_nullifier a)
        ++ padded32 (act_vote_authority_note_new a) ++ padded32 (act_vote_commitment a)
        ++ u32_padded32 (act_proposal_id a) ++ encode_actions (S index) actions
  end.

Definition batch_sighash_preimage (round : list Z) (anchor_height : Z)
    (actions : list CastVoteBatchSighashAction) : list Z :=
  batch_sighash_domain ++ padded32 round ++ u64_padded32 anchor_height
    ++ u32_padded32 (Z.of_nat (length actions)) ++ encode_actions 0 actions.

Definition cast_vote_batch_sighash (vote_round_id_hex : string) (anchor_height : Z)
    (actions : list CastVoteBatchSighashAction) : result (list Z) VotingError :=
  let? round := ok_or (hex_decode (lit vote_round_id_hex))
    (VInternal (lit "invalid vote_round_id hex: " ++ hex_error (lit vote_round_id_hex))) in
  Ok (blake2b_256 (batch_sighash_preimage round anchor_height actions)).

(** The loop of [delegate_and_vote_batch_sighash], with the proposals seen. *)
Fixpoint check_combined_actions (seen : list Z) (actions : list CastVoteBatchSighashAction)
    : result unit VotingError :=
  match actions with
  | [] => Ok tt
  | a :: actions =>
      let? _ := validate_proposal_id (act_proposal_id a) in
      if bool_decide (act_proposal_id a ∈ seen) then
        Err (VInvalidInput (lit "combined batch contains duplicate proposals"))
      else if bool_decide (Forall (fun f => length f = 32%nat)
                [act_r_vpk a; act_van_nullifier a; act_vote_authority_note_new a;
                 act_vote_commitment a])
      then check_combined_actions (act_proposal_id a :: seen) actions
      else Err (VInvalidInput (lit "combined cast effect must contain exactly 32 bytes"))
  end.

Definition combined_sighash_preimage (round van : list Z)
    (actions : list CastVoteBatchSighashAction) : list Z :=
  combined_sighash_domain ++ round ++ van
    ++ u32_padded32 (Z.of_nat (length actions)) ++ encode_actions 0 actions.

Definition delegate_and_vote_batch_sighash (round van : list Z)
    (actions : list CastVoteBatchSighashAction) : result (list Z) VotingError :=
  if bool_decide (actions = []) || bool_decide (MAX_VOTE_BATCH_ACTIONS < length actions)%nat then
    Err (VInvalidInput (lit "combined batch action count is outside the protocol bounds"))
  else
    let? _ := check_combined_actions [] actions in
    Ok (blake2b_256 (combined_sighash_preimage round van actions)).

(** ** Assembly of a batch *)
Definition recovery_action (b : VoteRecoveryBundle) : CastVoteBatchSighashAction :=
  mk_action (vr_r_vpk b) (vr_van_nullifier b) (vr_vote_authority_note_new b)
    (vr_vote_commitment b) (vr_proposal_id b).

Definition has_digest (digest : list Z) (b : VoteRecoveryBundle) : bool :=
  match vr_batch b with
  | Some batch => bool_decide (vb_digest batch = digest)
  | None => false
  end.

(** The sort key [batch.as_ref().map(|batch| batch.index)]. *)
Definition index_le (a b : VoteRecoveryBundle) : Prop :=
  match vb_index <$> vr_batch a, vb_index <$> vr_batch b with
  | None, _ => True
  | Some _, None => False
  | Some i, Some j => i <= j
  end.

#[global] Instance index_le_dec a b : Decision (index_le a b).
Proof. unfold index_le. repeat case_match; apply _. Defined.

(** Every member at its index, with the digest and the size of the first. *)
Fixpoint members_in_order (digest : list Z) (size : Z) (index : nat)
    (members : list VoteRecoveryBundle) : bool :=
  match members with
  | [] => true
  | b :: members =>
      match vr_batch b with
      | Some batch =>
          bool_decide (vb_digest batch = digest) && (vb_index batch =? Z.of_nat index)
          && (vb_size batch =? size) && members_in_order digest size (S index) members
      | None => false
      end
  end.

Definition delegation_van_of (b : VoteRecoveryBundle) : option (list Z) :=
  vr_batch b ≫= vb_delegation_van.

Definition assembled_digest (round_id : string) (first : VoteRecoveryBundle)
    (members : list VoteRecoveryBundle) : result (list Z) VotingError :=
  match delegation_van_of first with
  | Some van =>
      let? round := ok_or (hex_decode (lit round_id)) (VInvalidInput (hex_error (lit round_id))) in
      let? round := array32 (lit "round_id") round in
      delegate_and_vote_batch_sighash round van (map recovery_action members)
  | None => cast_vote_batch_sighash round_id (vr_anchor_height first) (map recovery_action members)
  end.

(** The checks on the sorted members. *)
Definition check_batch_members (round_id : string) (bundle_index : Z) (batch_digest : list Z)
    (members : list VoteRecoveryBundle) : result (list VoteRecoveryBundle) VotingError :=
  match members with
  | [] => Err (VInvalidInput (lit "vote batch recovery not found for round=" ++ lit round_id
      ++ lit ", bundle=" ++ decimal bundle_index ++ lit ", digest="
      ++ lit (hex_encode batch_digest)))
  | first :: _ =>
      let size := default 0 (vb_size <$> vr_batch first) in
      if negb (Z.of_nat (length members) =? size)
         || negb (members_in_order batch_digest size 0 members)
      then Err (VInvalidInput
        (lit "persisted atomic vote batch is incomplete or out of order"))
      else if existsb (fun b => negb (bool_decide (delegation_van_of b = delegation_van_of first))
                || (bool_decide (is_Some (delegation_van_of first))
                    && negb (vr_anchor_height b =? 0))) members
      then Err (VInvalidInput (lit "inconsistent combined batch authorization"))
      else
        let? recomputed := assembled_digest round_id first members in
        if bool_decide (recomputed = batch_digest) then Ok members
        else Err (VInvalidInput
          (lit "persisted atomic vote batch digest does not match its actions"))
  end.

Definition assemble_vote_batch_recoveries (round_id : string) (bundle_index : Z)
    (batch_digest : list Z) (candidates : list VoteRecoveryBundle)
    : result (list VoteRecoveryBundle) VotingError :=
  check_batch_members round_id bundle_index batch_digest
    (merge_sort index_le (filter (fun b => has_digest batch_digest b = true) candidates)).

(** ** Wire requests *)
Definition strip_0x (value : text) : text :=
  match value with
  | 48 :: 120 :: rest => rest
  | _ => value
  end.

Definition b64_hex (hex_value : string) (field : text) : result text VotingError :=
  let? bytes := ok_or (hex_decode (strip_0x (lit hex_value)))
    (VInvalidInput (field ++ lit " is not valid hex: " ++ hex_error (strip_0x (lit hex_value)))) in
  Ok (base64_encode bytes).

Definition wire_submission_from_recovery (b : VoteRecoveryBundle)
    : result VoteCommitmentWire VotingError :=
  let? round := b64_hex (vr_vote_round_id b) (lit "vote_round_id") in
  Ok (mk_vote_wire (base64_encode (vr_van_nullifier b))
        (base64_encode (vr_vote_authority_note_new b)) (base64_encode (vr_vote_commitment b))
        (vr_proposal_id b) (base64_encode (vr_proof b)) round (vr_anchor_height b)
        (base64_encode (vr_r_vpk b)) (base64_encode (vr_vote_auth_sig b))).
End recovery.

(** ** The JSON form is lossless *)
Definition valid_batch (b : VoteRecoveryBundle) : Prop :=
  match vr_batch b with
  | None => True
  | Some batch =>
      0 < vb_size batch <= Z.of_nat MAX_VOTE_BATCH_ACTIONS /\ vb_index batch < vb_size batch
      /\ (is_Some (vb_delegation_van batch) -> vr_anchor_height b = 0)
  end.

(** A record the library writes: typed, validated, and a member at a possible
    place of its batch. *)
Definition valid_recovery `{Externals} `{RecoveryExternals} (b : VoteRecoveryBundle) : Prop :=
  wf_recovery b /\ validate_recovery_bundle_vote_fields b = Ok tt /\ valid_batch b.

(** The record with its confirmed tree position. *)
Definition with_position (b : VoteRecoveryBundle) (position : Z) : VoteRecoveryBundle :=
  mk_recovery (vr_vote_round_id b) (vr_bundle_index b) (vr_proposal_id b) (vr_vote_decision b)
    (vr_anchor_height b) position (vr_single_share b) (vr_num_options b) (vr_van_nullifier b)
    (vr_vote_authority_note_new b) (vr_vote_commitment b) (vr_proof b) (vr_shares_hash b)
    (vr_r_vpk b) (vr_alpha_v b) (vr_vote_auth_sig b) (vr_encrypted_shares b)
    (vr_share_blinds b) (vr_share_comms b) (vr_batch b).

Section roundtrip.
Context `{Externals} `{RecoveryExternals}.

Lemma array_of_ok n label v v' : array_of n label v = Ok v' -> v' = v /\ length v = n.
Proof. unfold array_of. case_bool_decide; naive_solver. Qed.

Lemma array_of_intro n label v : length v = n -> array_of n label v = Ok v.
Proof. intros Hv. unfold array_of. by rewrite bool_decide_eq_true_2. Qed.

Lemma array32_from_ok label i vs vs' :
  array32_from label i vs = Ok vs' -> vs' = vs /\ Forall wf_bytes32 vs.
Proof.
  revert i vs'. induction vs as [|v vs IH]; intros i vs' Hv; cbn in Hv; [by simplify_eq|].
  destruct (array32 _ v) as [v'|] eqn:E1; [|done].
  destruct (array32_from label (S i) vs) as [ws|] eqn:E2; [|done]. simplify_eq.
  apply array_of_ok in E1 as [-> ?]. apply IH in E2 as [-> ?]. by split; [|constructor].
Qed.

Lemma array32_from_intro label i vs :
  Forall wf_bytes32 vs -> array32_from label i vs = Ok vs.
Proof.
  intros Hvs. revert i. induction Hvs as [|v vs Hv _ IH]; intros i; cbn; [done|].
  unfold array32. rewrite array_of_intro by done. by rewrite IH.
Qed.

Lemma recovery_json_wf b : wf_recovery b -> wf_recovery_json (recovery_to_json b).
Proof.
  intros [? ? ? ? ? ? ? Hb]. constructor; cbn; try done; [naive_solver|].
  destruct (vr_batch b) as [batch|]; cbn; [|naive_solver].
  destruct (Hb batch eq_refl) as (?&?&?&?). naive_solver.
Qed.

Lemma check_format_to_json b : valid_batch b -> check_format (recovery_to_json b) = Ok tt.
Proof.
  unfold valid_batch, check_format, recovery_to_json, recovery_format, has_batch_metadata.
  destruct (vr_batch b) as [[[van|] dg i n]|]; cbn; [|done|done].
  intros (_&_&Ha). by rewrite Ha.
Qed.

Lemma recovery_of_to_json b :
  valid_recovery b -> recovery_of_json (recovery_to_json b) = Ok b.
Proof.
  intros ([_ _ Harr _ _ [_ Hbl] [_ Hco] Hwb]&Hval&Hbatch).
  destruct Harr as (?&?&?&?&?&?&?).
  unfold validate_recovery_bundle_vote_fields in Hval. unfold recovery_of_json. cbn.
  destruct (validate_vote_round_id_hex (vr_vote_round_id b)); [|done].
  destruct (validate_proposal_id (vr_proposal_id b)); [|done].
  destruct (validate_vote_decision (vr_vote_decision b) (vr_num_options b)); [|done].
  assert (batch_of_json (recovery_to_json b) = Ok (vr_batch b)) as ->.
  { unfold batch_of_json, valid_batch in *. cbn.
    destruct (vr_batch b) as [[van dg i n]|]; cbn in *; [|done].
    destruct (Hwb _ eq_refl) as (?&?&?&?); cbn in *.
    replace ((n =? 0) || (_ <? n) || (n <=? i)) with false by lia.
    unfold array32. by rewrite array_of_intro. }
  unfold array32, array64, array32_vec.
  rewrite !array_of_intro, !array32_from_intro by done. by destruct b.
Qed.

Lemma parse_serialized b :
  valid_recovery b ->
  serialize_recovery b = Ok (vote_recovery_json_string (recovery_to_json b))
  /\ parse_recovery (vote_recovery_json_string (recovery_to_json b)) = Ok b.
Proof.
  intros Hb. destruct Hb as (Hwf&Hval&Hbatch). split.
  - unfold serialize_recovery. by rewrite Hval.
  - unfold parse_recovery.
    rewrite json_vote_recovery_string by (by apply recovery_json_wf). cbn.
    rewrite check_format_to_json by done. by apply recovery_of_to_json.
Qed.

Lemma batch_of_json_ok j batch :
  wf_recovery_json j -> batch_of_json j = Ok batch ->
  (batch = None /\ vj_batch_digest j = None /\ vj_batch_index j = None /\ vj_batch_size j = None)
  \/ exists b, batch = Some b /\ wf_batch_recovery b /\ vb_delegation_van b = vj_delegation_van j
       /\ 0 < vb_size b <= Z.of_nat MAX_VOTE_BATCH_ACTIONS /\ vb_index b < vb_size b.
Proof.
  intros [_ _ _ _ _ (Hi&Hn&Hvan)] Hb. unfold batch_of_json in Hb.
  destruct (vj_batch_digest j) as [dg|], (vj_batch_index j) as [i|], (vj_batch_size j) as [n|];
    try done; [|left; naive_solver].
  destruct ((n =? 0) || _ || _) eqn:E; [done|].
  destruct (array32 _ dg) as [dg'|] eqn:E'; [|done]. apply array_of_ok in E' as [-> Hdg].
  simplify_eq. right. eexists. split; [done|]. specialize (Hi _ eq_refl). specialize (Hn _ eq_refl).
  unfold wf_batch_recovery, is_u32 in *. cbn. split_and!; try done; lia.
Qed.

Lemma parsed_is_valid s b :
  Z.of_nat (String.length s) <= SQLITE_MAX_LENGTH ->
  parse_recovery s = Ok b -> valid_recovery b.
Proof.
  intros Hs Hp. unfold parse_recovery in Hp.
  destruct (json_vote_recovery s) as [j|] eqn:Ej; cbn in Hp; [|done].
  pose proof (json_vote_recovery_typed s j Hs Ej) as Hj.
  destruct (check_format j) eqn:Ef; [|done].
  unfold recovery_of_json in Hp.
  destruct (validate_vote_round_id_hex (vj_vote_round_id j)) as [[]|] eqn:V1; [|done].
  destruct (validate_proposal_id (vj_proposal_id j)) as [[]|] eqn:V2; [|done].
  destruct (validate_vote_decision (vj_vote_decision j) (vj_num_options j)) as [[]|] eqn:V3; [|done].
  destruct (batch_of_json j) as [batch|] eqn:Eb; [|done].
  destruct (batch_of_json_ok j batch Hj Eb) as [(->&Hd&Hi&Hn)|(b'&->&Hwb&Hvan&Hpos)].
  all: unfold array32, array64, array32_vec in Hp.
  all: repeat match type of Hp with
       | match ?m with Ok _ => _ | Err _ => _ end = _ => destruct m eqn:?; [|done]
       end.
  all: repeat match goal with
       | E : array_of _ _ _ = Ok _ |- _ => apply array_of_ok in E as [-> ?]
       | E : array32_from _ _ _ = Ok _ |- _ => apply array32_from_ok in E as [-> ?]
       end.
  all: injection Hp as <-; destruct Hj as [? ? ? ? [? ?] ?].
  all: split; [constructor; cbn; try done; naive_solver|].
  all: split; [unfold validate_recovery_bundle_vote_fields; cbn; by rewrite V1, V2|].
  all: unfold valid_batch; cbn; try done.
  split; [by apply Hpos|]. split; [by apply Hpos|]. rewrite Hvan. intros Hc.
  unfold check_format in Ef. rewrite (bool_decide_eq_true_2 (is_Some (vj_delegation_van j))) in Ef by done.
  cbn in Ef. rewrite !andb_false_r in Ef. destruct (vj_anchor_height j =? 0) eqn:E0; [lia|].
  rewrite andb_false_r in Ef. by destruct (_ || _) in Ef.
Qed.

Lemma with_position_valid b p : valid_recovery b -> is_u64 p -> valid_recovery (with_position b p).
Proof.
  intros ([? Hi ? ? ? ? ? ?]&Hval&Hbatch) Hp. split; [|done].
  constructor; cbn; try done. destruct Hi as (?&?&?&?&?&?). by split_and!.
Qed.

(** C35 (JSON form): what [parse_recovery] accepts from a stored text is a typed
    and validated record, and such a record is always serialized and read back
    unchanged. *)
Theorem recovery_json_lossless s b :
  Z.of_nat (String.length s) <= SQLITE_MAX_LENGTH ->
  parse_recovery s = Ok b ->
  valid_recovery b /\ exists json, serialize_recovery b = Ok json /\ parse_recovery json = Ok b.
Proof.
  intros Hs Hp. pose proof (parsed_is_valid s b Hs Hp) as Hb. split; [done|].
  destruct (parse_serialized b Hb) as [? ?]. by eexists.
Qed.
End roundtrip.

(** ** Batch digests bind their actions *)
Definition wf_action (a : CastVoteBatchSighashAction) : Prop :=
  wf_bytes32 (act_r_vpk a) /\ wf_bytes32 (act_van_nullifier a)
  /\ wf_bytes32 (act_vote_authority_note_new a) /\ wf_bytes32 (act_vote_commitment a)
  /\ is_u32 (act_proposal_id a).

Lemma length_padded32 b : length (padded32 b) = 32%nat.
Proof. unfold padded32. rewrite length_app, length_take, length_replicate. lia. Qed.

Lemma padded32_id b : wf_bytes32 b -> padded32 b = b.
Proof.
  intros Hb. unfold padded32, wf_bytes32, DIGEST_BYTES in *.
  rewrite take_ge by lia. rewrite Hb. by rewrite app_nil_r.
Qed.

Lemma padded_int_inj n a b :
  (n <= 32)%nat -> 0 <= a < 256 ^ Z.of_nat n -> 0 <= b < 256 ^ Z.of_nat n ->
  padded32 (rev (be_bytes n a)) = padded32 (rev (be_bytes n b)) -> a = b.
Proof.
  intros Hn Ha Hb Heq. unfold padded32 in Heq.
  rewrite !length_rev, !length_be_bytes in Heq.
  apply app_inv_tail in Heq.
  rewrite !take_ge in Heq by (rewrite length_rev, length_be_bytes; lia).
  apply (f_equal (@rev Z)) in Heq. rewrite !rev_involutive in Heq. by eapply be_bytes_inj.
Qed.

Lemma u32_padded32_inj a b : is_u32 a -> is_u32 b -> u32_padded32 a = u32_padded32 b -> a = b.
Proof.
  unfold is_u32, u32_max. intros Ha Hb. apply (padded_int_inj 4); [lia| |];
    change (256 ^ Z.of_nat 4) with 4294967296; lia.
Qed.

Lemma u64_padded32_inj a b : is_u64 a -> is_u64 b -> u64_padded32 a = u64_padded32 b -> a = b.
Proof.
  unfold is_u64, u64_max. intros Ha Hb. apply (padded_int_inj 8); [lia| |];
    change (256 ^ Z.of_nat 8) with 18446744073709551616; lia.
Qed.

(** Fields of equal length at the front of two equal strings agree. *)
Lemma split32 (a b r s : list Z) :
  length a = 32%nat -> length b = 32%nat -> a ++ r = b ++ s -> a = b /\ r = s.
Proof. intros Ha Hb. apply app_inj_1. congruence. Qed.

Ltac peel32 H E :=
  apply split32 in H as [E H];
  [| first [apply length_padded32 | assumption] | first [apply length_padded32 | assumption]].

Lemma encode_actions_inj i xs ys :
  length xs = length ys -> Forall wf_action xs -> Forall wf_action ys ->
  encode_actions i xs = encode_actions i ys -> xs = ys.
Proof.
  revert i ys. induction xs as [|x xs IH]; intros i [|y ys] Hl Hxs Hys Heq; try done.
  apply Forall_cons_iff in Hxs as [(?&?&?&?&?) Hxs'], Hys as [(?&?&?&?&?) Hys'].
  cbn [encode_actions] in Heq. unfold u32_padded32 in Heq.
  peel32 Heq E0. peel32 Heq E1. peel32 Heq E2. peel32 Heq E3. peel32 Heq E4. peel32 Heq E5.
  rewrite !padded32_id in E1, E2, E3, E4 by done.
  apply u32_padded32_inj in E5; [|done|done].
  f_equal; [destruct x, y; naive_solver|]. apply (IH (S i)); try done. by injection Hl.
Qed.

Lemma counted_actions_inj xs ys :
  Z.of_nat (length xs) <= u32_max -> Z.of_nat (length ys) <= u32_max ->
  Forall wf_action xs -> Forall wf_action ys ->
  u32_padded32 (Z.of_nat (length xs)) ++ encode_actions 0 xs
  = u32_padded32 (Z.of_nat (length ys)) ++ encode_actions 0 ys -> xs = ys.
Proof.
  intros Hx Hy Hxs Hys Heq. unfold u32_padded32 in Heq. peel32 Heq E.
  apply u32_padded32_inj in E; [|unfold is_u32; lia|unfold is_u32; lia].
  by apply encode_actions_inj in Heq; [|lia| |].
Qed.

Lemma batch_preimage_inj r r' h h' xs ys :
  is_u64 h -> is_u64 h' ->
  Z.of_nat (length xs) <= u32_max -> Z.of_nat (length ys) <= u32_max ->
  Forall wf_action xs -> Forall wf_action ys ->
  batch_sighash_preimage r h xs = batch_sighash_preimage r' h' ys ->
  padded32 r = padded32 r' /\ h = h' /\ xs = ys.
Proof.
  intros Hh Hh' Hx Hy Hxs Hys Heq. unfold batch_sighash_preimage in Heq.
  apply app_inv_head in Heq. unfold u64_padded32 in Heq. peel32 Heq E1. peel32 Heq E2.
  apply u64_padded32_inj in E2; [|done|done]. by apply counted_actions_inj in Heq.
Qed.

Lemma combined_preimage_inj r r' v v' xs ys :
  wf_bytes32 r -> wf_bytes32 r' -> wf_bytes32 v -> wf_bytes32 v' ->
  Z.of_nat (length xs) <= u32_max -> Z.of_nat (length ys) <= u32_max ->
  Forall wf_action xs -> Forall wf_action ys ->
  combined_sighash_preimage r v xs = combined_sighash_preimage r' v' ys ->
  r = r' /\ v = v' /\ xs = ys.
Proof.
  intros Hr Hr' Hv Hv' Hx Hy Hxs Hys Heq. unfold combined_sighash_preimage in Heq.
  apply app_inv_head in Heq. peel32 Heq E1. peel32 Heq E2. by apply counted_actions_inj in Heq.
Qed.

Lemma sighash_domains_apart a b :
  batch_sighash_domain ++ a <> combined_sighash_domain ++ b.
Proof. intros Heq. by vm_compute in Heq. Qed.

(** Two different inputs with one hash. *)
Definition collision (hash : list Z -> list Z) : Prop :=
  exists a b, a <> b /\ hash a = hash b.

Lemma same_or_collision (hash : list Z -> list Z) a b :
  hash a = hash b -> a = b \/ collision hash.
Proof. intros Hab. destruct (decide (a = b)); [by left|]. right. by exists a, b. Qed.

Section assembly.
Context `{Externals} `{RecoveryExternals}.

Lemma recovery_action_wf b : wf_recovery b -> wf_action (recovery_action b).
Proof. intros [_ (?&?&?&?&?&?) (?&?&?&?&?&?&?) _ _ _ _ _]. by unfold wf_action; split_and!. Qed.

Lemma delegation_van_wf b van :
  wf_recovery b -> delegation_van_of b = Some van -> wf_bytes32 van.
Proof.
  intros [_ _ _ _ _ _ _ Hb]. unfold delegation_van_of.
  destruct (vr_batch b) as [batch|]; [|done]. cbn. destruct (Hb batch eq_refl) as (_&_&_&Hw).
  by apply Hw.
Qed.

Lemma anchor_u64 b : wf_recovery b -> is_u64 (vr_anchor_height b).
Proof.
  intros [_ (_&_&_&Ha&_&_) _ _ _ _ _ _]. unfold is_u32, is_u64, u32_max, u64_max in *. lia.
Qed.

Lemma members_in_order_spec digest size i ms :
  members_in_order digest size i ms = true ->
  forall k b, ms !! k = Some b ->
  exists batch, vr_batch b = Some batch /\ vb_digest batch = digest
    /\ vb_index batch = Z.of_nat (i + k) /\ vb_size batch = size.
Proof.
  revert i. induction ms as [|m ms IH]; intros i Hm k b Hk; [done|]. cbn in Hm.
  destruct (vr_batch m) as [batch|] eqn:Eb; [|done].
  rewrite !andb_true_iff, bool_decide_eq_true in Hm. destruct Hm as [[[? ?] ?] Hm].
  destruct k as [|k]; simplify_eq/=.
  - exists batch. split_and!; try done; lia.
  - destruct (IH (S i) Hm k b Hk) as (batch'&?&?&?&?). exists batch'. split_and!; try done. lia.
Qed.

(** What a successful assembly returns: members of the candidates, in signed
    order, complete, with one authorization and the recomputed digest. *)
Record assembled (round_id : string) (digest : list Z) (candidates members : list VoteRecoveryBundle)
    : Prop := {
  as_members : forall b, b ∈ members <-> b ∈ candidates /\ has_digest digest b = true;
  as_nonempty : members <> [];
  as_order : forall k b, members !! k = Some b ->
    exists batch, vr_batch b = Some batch /\ vb_digest batch = digest
      /\ vb_index batch = Z.of_nat k /\ vb_size batch = Z.of_nat (length members);
  as_van : forall b first, b ∈ members -> head members = Some first ->
    delegation_van_of b = delegation_van_of first
    /\ (is_Some (delegation_van_of first) -> vr_anchor_height b = 0);
  as_digest : forall first, head members = Some first ->
    assembled_digest round_id first members = Ok digest
}.

Lemma assemble_ok round_id bundle digest cands ms :
  assemble_vote_batch_recoveries round_id bundle digest cands = Ok ms ->
  assembled round_id digest cands ms.
Proof.
  unfold assemble_vote_batch_recoveries, check_batch_members.
  pose proof (merge_sort_Permutation index_le (filter (fun b => has_digest digest b = true) cands))
    as Hperm.
  destruct (merge_sort _ _) as [|first rest] eqn:Em; [done|]. intros Hok.
  destruct (negb _ || negb _) eqn:E1; [done|].
  apply orb_false_iff in E1 as [Hlen Hord]. rewrite negb_false_iff in Hlen, Hord.
  destruct (existsb _ _) eqn:E2; [done|].
  destruct (assembled_digest _ _ _) as [dg|] eqn:E3; [|done].
  case_bool_decide; [|done]. simplify_eq. apply Z.eqb_eq in Hlen.
  constructor.
  - intros b. rewrite Hperm, list_elem_of_filter. naive_solver.
  - done.
  - rewrite Hlen. apply (members_in_order_spec _ _ 0). done.
  - intros b f Hb [= <-].
    rewrite <- not_true_iff_false, existsb_exists in E2.
    destruct (decide (delegation_van_of b = delegation_van_of first)) as [Hd|Hd].
    + split; [done|]. intros Hs. destruct (decide (vr_anchor_height b = 0)); [done|].
      destruct E2. exists b. split; [by apply list_elem_of_In|].
      rewrite !bool_decide_eq_true_2 by done. cbn. lia.
    + destruct E2. exists b. split; [by apply list_elem_of_In|].
      by rewrite bool_decide_eq_false_2.
  - intros f [= <-]. done.
Qed.

(** The bytes of the round as the digest sees them. *)
Definition digest_round (round_id : string) : option (list Z) :=
  padded32 <$> hex_decode (lit round_id).

Lemma members_count r dg cs ms b :
  assembled r dg cs ms -> Forall valid_recovery cs -> head ms = Some b ->
  Z.of_nat (length ms) <= u32_max /\ Forall wf_action (map recovery_action ms) /\ valid_recovery b
  /\ Z.of_nat (length (map recovery_action ms)) <= u32_max.
Proof.
  intros Ha Hc Hb. rewrite List.length_map.
  assert (Forall valid_recovery ms) as Hms.
  { apply Forall_forall. intros x Hx. apply (as_members _ _ _ _ Ha) in Hx as [Hx _].
    rewrite Forall_forall in Hc. by apply Hc. }
  assert (Z.of_nat (length ms) <= u32_max).
  { destruct ms as [|m ms']; [done|]. destruct (as_order _ _ _ _ Ha 0%nat m eq_refl)
      as (batch&Hbatch&_&_&<-).
    apply Forall_cons_iff in Hms as [([_ _ _ _ _ _ _ Hw]&_&_) _].
    destruct (Hw batch Hbatch) as (_&_&?&_). unfold is_u32 in *. lia. }
  split_and!; [done| | |done].
  - apply Forall_map. eapply Forall_impl; [exact Hms|]. intros x (Hx&_). by apply recovery_action_wf.
  - destruct ms; [done|]. inversion Hms; by simplify_eq/=.
Qed.

(** C34 (batch digests): two batches that are assembled for one digest, from
    whatever records and on whatever bundle, contain the same actions in the
    same order on the same round, anchor and delegation note, or exhibit a
    collision of BLAKE2b. *)
Theorem batch_digest_binds_actions r r' i i' dg cs cs' ms ms' :
  Forall valid_recovery cs -> Forall valid_recovery cs' ->
  assemble_vote_batch_recoveries r i dg cs = Ok ms ->
  assemble_vote_batch_recoveries r' i' dg cs' = Ok ms' ->
  collision blake2b_256
  \/ (digest_round r = digest_round r'
      /\ map recovery_action ms = map recovery_action ms'
      /\ (head ms ≫= delegation_van_of) = (head ms' ≫= delegation_van_of)
      /\ vr_anchor_height <$> head ms = vr_anchor_height <$> head ms').
Proof.
  intros Hc Hc' Hm Hm'. apply assemble_ok in Hm, Hm'.
  destruct ms as [|f ms]; [by destruct (as_nonempty _ _ _ _ Hm)|].
  destruct ms' as [|f' ms']; [by destruct (as_nonempty _ _ _ _ Hm')|].
  destruct (members_count _ _ _ _ f Hm Hc eq_refl) as (_&Hw&(Hv&_&_)&Hn).
  destruct (members_count _ _ _ _ f' Hm' Hc' eq_refl) as (_&Hw'&(Hv'&_&_)&Hn').
  pose proof (as_digest _ _ _ _ Hm f eq_refl) as Hd.
  pose proof (as_digest _ _ _ _ Hm' f' eq_refl) as Hd'.
  destruct (as_van _ _ _ _ Hm f f ltac:(by left) eq_refl) as [_ Hz].
  destruct (as_van _ _ _ _ Hm' f' f' ltac:(by left) eq_refl) as [_ Hz'].
  unfold assembled_digest, cast_vote_batch_sighash, delegate_and_vote_batch_sighash in Hd, Hd'.
  unfold digest_round. cbn [head fmap option_fmap option_map mbind option_bind].
  destruct (delegation_van_of f) as [van|] eqn:Ev, (delegation_van_of f') as [van'|] eqn:Ev'.
  all: destruct (hex_decode (lit r)) as [rb|] eqn:Er; [|done].
  all: destruct (hex_decode (lit r')) as [rb'|] eqn:Er'; [|done].
  all: cbn [ok_or] in Hd, Hd'.
  all: repeat match goal with
       | E : context [array32 ?l ?v] |- _ =>
           let A := fresh in let x := fresh in destruct (array32 l v) as [x|] eqn:A; [|done];
           apply array_of_ok in A as [-> ?]
       end.
  all: repeat match goal with
       | E : (if ?c then _ else _) = Ok _ |- _ => destruct c; [done|]
       | E : context [check_combined_actions ?a ?b] |- _ => destruct (check_combined_actions a b); [|done]
       end.
  all: injection Hd as Hd; rewrite <- Hd in Hd'; injection Hd' as Hd'.
  all: apply same_or_collision in Hd' as [Hd'|?]; [|by left]; right; symmetry in Hd'.
  - eapply combined_preimage_inj in Hd' as (->&->&Heq); try done;
      [|exact (delegation_van_wf f van Hv Ev)|exact (delegation_van_wf f' van' Hv' Ev')].
    split_and!; try done. rewrite Hz, Hz'; by eauto.
  - by apply eq_sym, sighash_domains_apart in Hd'.
  - by apply sighash_domains_apart in Hd'.
  - eapply batch_preimage_inj in Hd' as (Hr&Hh&Heq); try done; [|by apply anchor_u64|by apply anchor_u64].
    split_and!; try done; [by cbn; rewrite Hr|by f_equal].
Qed.
End assembly.

(** ** A concrete instance

    The sample codec as JSON, and the first 32 bytes as a hash. *)
#[global] Instance storable_dec {A} (l : list A) : Decision (storable l).
Proof. unfold storable. apply _. Defined.
#[global] Instance is_u32_dec z : Decision (is_u32 z).
Proof. unfold is_u32. apply _. Defined.
#[global] Instance is_u64_dec z : Decision (is_u64 z).
Proof. unfold is_u64. apply _. Defined.
#[global] Instance wf_bytes32_dec b : Decision (wf_bytes32 b).
Proof. unfold wf_bytes32. apply _. Defined.
#[global] Instance wf_share_dec s : Decision (wf_share s).
Proof. unfold wf_share. apply _. Defined.

Definition decide_option {A} (P : A -> Prop) `{forall a, Decision (P a)} (o : option A)
    : Decision (forall a, o = Some a -> P a).
Proof.
  destruct o as [a|]; [|left; done].
  destruct (decide (P a)) as [Hp|Hp]; [left; naive_solver|right; naive_solver].
Defined.

#[global] Instance wf_recovery_json_dec j : Decision (wf_recovery_json j).
Proof.
  pose proof (decide_option is_u32 (vj_batch_index j)).
  pose proof (decide_option is_u32 (vj_batch_size j)).
  pose proof (decide_option wf_bytes32 (vj_delegation_van j)).
  refine (match decide
      (Z.of_nat (String.length (vj_vote_round_id j)) <= SQLITE_MAX_LENGTH
       /\ (is_u32 (vj_bundle_index j) /\ is_u32 (vj_proposal_id j) /\ is_u32 (vj_vote_decision j)
           /\ is_u32 (vj_anchor_height j) /\ is_u32 (vj_num_options j)
           /\ is_u64 (vj_vc_tree_position j))
       /\ storable (vj_proof j)
       /\ (storable (vj_encrypted_shares j) /\ Forall wf_share (vj_encrypted_shares j))
       /\ (storable (vj_share_blinds j) /\ storable (vj_share_comms j))
       /\ ((forall i, vj_batch_index j = Some i -> is_u32 i)
           /\ (forall n, vj_batch_size j = Some n -> is_u32 n)
           /\ (forall van, vj_delegation_van j = Some van -> wf_bytes32 van)))
    with left Hp => left _ | right Hp => right _ end).
  - destruct Hp as (?&?&?&?&?&?). by constructor.
  - intros [? ? ? ? ? ?]. by destruct Hp.
Defined.

#[global] Instance token_share : Token EncryptedShare.
Proof.
  refine (token_iso (fun s => (es_c1 s, es_c2 s, es_share_index s, es_plaintext_value s,
                               es_randomness s))
            (fun '(a, b, c, d, e) => mk_share a b c d e) _).
  by intros [].
Defined.

#[global] Instance token_recovery_json : Token VoteRecoveryJson.
Proof.
  refine (token_iso (fun j => (vj_format j, vj_vote_round_id j, vj_bundle_index j,
      vj_proposal_id j, vj_vote_decision j, vj_anchor_height j, vj_vc_tree_position j,
      vj_single_share j, vj_num_options j, vj_van_nullifier j, vj_vote_authority_note_new j,
      vj_vote_commitment j, vj_proof j, vj_shares_hash j, vj_r_vpk j, vj_alpha_v j,
      vj_vote_auth_sig j, vj_encrypted_shares j, vj_share_blinds j, vj_share_comms j,
      vj_batch_digest j, vj_delegation_van j, vj_batch_index j, vj_batch_size j))
    (fun '(a, b, c, d, e, f, g, h, i, k, l, m, n, o, p, q, r, s, t, u, v, w, x, y) =>
       mk_recovery_json a b c d e f g h i k l m n o p q r s t u v w x y) _).
  by intros [].
Defined.

Definition sample_json_recovery (s : string) : result VoteRecoveryJson text :=
  match sample_parse s with
  | Some j => if decide (wf_recovery_json j) then Ok j else Err (lit "out of range")
  | None => Err (lit "malformed")
  end.

Definition example_recovery_externals : RecoveryExternals.
Proof.
  refine {|
    json_vote_recovery := sample_json_recovery;
    vote_recovery_json_string := sample_string;
    json_has_batch_marker := fun s =>
      map_err id (let? j := sample_json_recovery s in
                  Ok (bool_decide (is_Some (vj_batch_digest j) \/ is_Some (vj_batch_index j)
                                   \/ is_Some (vj_batch_size j))));
    json_string_object := fun l => flat_map (fun p => string_bytes p.1 ++ string_bytes p.2) l;
    hex_error := fun _ => lit "invalid hex";
    blake2b_256 := fun b => padded32 (rev b)
  |}.
  - intros s j _. unfold sample_json_recovery. repeat case_match; naive_solver.
  - intros j Hj. unfold sample_json_recovery. rewrite sample_parse_string.
    by rewrite decide_True.
Defined.

(** One confirmed-vote record and a batch of two on the example round. *)
Definition example_recovery (proposal position : Z) (batch : option VoteBatchRecovery)
    : VoteRecoveryBundle :=
  mk_recovery (hex_string (vote_round_id example_identity)) (bundle_index example_identity)
    proposal 1 0 position true 2 (replicate 32 11) (replicate 32 12) (replicate 32 13) [14; 15]
    (replicate 32 16) (replicate 32 17) (replicate 32 18) (replicate 64 19)
    [mk_share [1] [2] 0 5 [3]] [replicate 32 20] [replicate 32 21] batch.

Lemma recovery_json_lossless_witness :
  exists s, @parse_recovery example_externals example_recovery_externals s
              = Ok (example_recovery 3 0 None)
    /\ @valid_recovery example_externals example_recovery_externals (example_recovery 3 0 None).
Proof.
  exists (sample_string (recovery_to_json (example_recovery 3 0 None))).
  assert (@parse_recovery example_externals example_recovery_externals
            (sample_string (recovery_to_json (example_recovery 3 0 None)))
          = Ok (example_recovery 3 0 None)) as Hp by (vm_compute; reflexivity).
  split; [exact Hp|].
  refine (proj1 (@recovery_json_lossless example_externals example_recovery_externals _ _ _ Hp)).
  apply Z.leb_le. vm_compute. reflexivity.
Defined.

(** The digest of the two example actions, and the batch they form. *)
Definition example_actions : list CastVoteBatchSighashAction :=
  [recovery_action (example_recovery 3 0 None); recovery_action (example_recovery 4 0 None)].
Definition example_batch_digest : list Z :=
  @blake2b_256 example_recovery_externals
    (batch_sighash_preimage (vote_round_id example_identity) 0 example_actions).
Definition example_member (proposal index : Z) : VoteRecoveryBundle :=
  example_recovery proposal 0 (Some (mk_batch_recovery None example_batch_digest index 2)).

Lemma example_recovery_valid b :
  @parse_recovery example_externals example_recovery_externals
    (sample_string (recovery_to_json b)) = Ok b ->
  Z.of_nat (String.length (sample_string (recovery_to_json b))) <=? SQLITE_MAX_LENGTH = true ->
  @valid_recovery example_externals example_recovery_externals b.
Proof. intros Hp Hs. eapply parsed_is_valid; [|exact Hp]. by apply Z.leb_le. Qed.

Lemma batch_digest_binds_actions_witness :
  let round := hex_string (vote_round_id example_identity) in
  let members := [example_member 3 0; example_member 4 1] in
  @assemble_vote_batch_recoveries example_externals example_recovery_externals round 0
    example_batch_digest (rev members) = Ok members
  /\ (collision (@blake2b_256 example_recovery_externals)
      \/ map recovery_action members = map recovery_action members).
Proof.
  intros round members.
  assert (@assemble_vote_batch_recoveries example_externals example_recovery_externals round 0
            example_batch_digest (rev members) = Ok members) as Ha by (vm_compute; reflexivity).
  split; [exact Ha|].
  assert (Forall (@valid_recovery example_externals example_recovery_externals) (rev members)) as Hv.
  { constructor; [|constructor; [|constructor]]; apply example_recovery_valid; vm_compute; reflexivity. }
  destruct (@batch_digest_binds_actions example_externals example_recovery_externals
    round round 0 0 example_batch_digest (rev members) (rev members) members members Hv Hv Ha Ha)
    as [Hc|(_&Heq&_)]; [left; exact Hc|right; exact Heq].
Defined.
