(* ===== verification/Transcript.v ===== *)
(** * Generation transcripts

    Models the transcript of [chain_submission/generation.rs] that fixes which
    semantic inputs a generation digest covers: tagged, length-prefixed fields
    under a domain, the identity, the delegation inputs and the vote recovery
    records. The theorem shows that the transcript is injective, so two
    submissions share a digest only if they agree in their identity and in all
    their inputs, or SHA-256 collides. *)

From stdpp Require Import base gmap strings list numbers.
From Stdlib Require Import ZifyBool.
From S2P Require Import Prelude SampleCodec Identity Outcome Lifecycle Record Confirmation.
From S2P Require Import VoteRecovery.
Local Open Scope Z_scope.

Definition GENERATION_DOMAIN_V1 : list Z :=
  string_bytes "zcash_voting.chain_submission.generation.v1" ++ [0].
Definition IMPORTED_DELEGATION_DOMAIN_V1 : list Z :=
  string_bytes "zcash_voting.chain_submission.imported_delegation.v1" ++ [0].

(** ** The bytes a transcript operation feeds to the hash *)
Definition t_field (tag : text) (value : list Z) : list Z :=
  be_bytes 2 (Z.of_nat (length tag)) ++ tag ++ be_bytes 8 (Z.of_nat (length value)) ++ value.
Definition t_u32 (tag : text) (value : Z) : list Z := t_field tag (be_bytes 4 value).
Definition t_u64 (tag : text) (value : Z) : list Z := t_field tag (be_bytes 8 value).
Definition t_bool (tag : text) (value : bool) : list Z := t_field tag [if value then 1 else 0].
Definition t_bytes32 (tag : text) (value : list Z) : list Z := t_field tag value.

Fixpoint t_items {A} (encode : nat -> A -> list Z) (index : nat) (values : list A) : list Z :=
  match values with
  | [] => []
  | v :: values => encode index v ++ t_items encode (S index) values
  end.

Definition t_sequence {A} (tag : text) (encode : nat -> A -> list Z) (values : list A) : list Z :=
  t_u32 (tag ++ lit ".count") (Z.of_nat (length values)) ++ t_items encode 0 values.

(** [format!("{prefix}.{index}")]. *)
Definition indexed (prefix : text) (index : nat) : text :=
  prefix ++ lit "." ++ decimal (Z.of_nat index).

(** A list of 32-byte arrays under tags numbered by position. *)
Definition t_arrays (tag : text) (values : list (list Z)) : list Z :=
  t_sequence tag (fun index => t_bytes32 (indexed tag index)) values.

(** ** Identity *)
Definition hash_target (t : ChainSubmissionTarget) : list Z :=
  match t with
  | Delegation => t_field (lit "identity.kind") (string_bytes "delegation")
  | Vote proposal_id =>
      t_field (lit "identity.kind") (string_bytes "vote")
        ++ t_u32 (lit "identity.proposal_id") proposal_id
  | VoteBatch digest | DelegateAndVoteBatch digest =>
      t_field (lit "identity.kind")
        (if is_combined t then string_bytes "delegate_and_cast_vote_batch"
         else string_bytes "vote_batch")
        ++ t_bytes32 (lit "identity.ordered_batch_digest") digest
  end.

Definition hash_identity (i : ChainSubmissionIdentity) : list Z :=
  t_field (lit "identity.wallet_id") (string_bytes (wallet_id i))
    ++ t_field (lit "identity.network") (string_bytes (network_name (network i)))
    ++ t_bytes32 (lit "identity.vote_round_id") (vote_round_id i)
    ++ t_u32 (lit "identity.bundle_index") (bundle_index i)
    ++ hash_target (target i).

(** ** Delegation inputs *)
Record DelegationGenerationInputs := mk_inputs {
  in_note_positions : list Z;
  in_note_identity_hashes : list (list Z);
  in_van_comm_rand : list Z;
  in_dummy_nullifiers : list (list Z);
  in_rho_signed : list Z;
  in_padded_note_data : list (list Z);
  in_nf_signed : list Z;
  in_cmx_new : list Z;
  in_alpha : list Z;
  in_rseed_signed : list Z;
  in_rseed_output : list Z;
  in_gov_comm : list Z;
  in_total_note_value : Z;
  in_address_index : Z;
  in_rk : list Z;
  in_gov_nullifiers : list (list Z);
  in_padded_note_secrets : list (list Z * list Z);
  in_pczt_sighash : list Z;
  in_tx1_effects : list Z;
  in_proof : list Z
}.

Definition hash_secret (tag : text) (index : nat) (secret : list Z * list Z) : list Z :=
  t_bytes32 (indexed tag index ++ lit ".rho") secret.1
    ++ t_bytes32 (indexed tag index ++ lit ".rseed") secret.2.

Definition hash_delegation_inputs (x : DelegationGenerationInputs) : list Z :=
  t_sequence (lit "delegation.note_positions")
    (fun index => t_u64 (indexed (lit "delegation.note_positions") index)) (in_note_positions x)
    ++ t_arrays (lit "delegation.note_identity_hashes") (in_note_identity_hashes x)
    ++ t_bytes32 (lit "delegation.van_comm_rand") (in_van_comm_rand x)
    ++ t_arrays (lit "delegation.dummy_nullifiers") (in_dummy_nullifiers x)
    ++ t_bytes32 (lit "delegation.rho_signed") (in_rho_signed x)
    ++ t_arrays (lit "delegation.padded_note_data") (in_padded_note_data x)
    ++ t_bytes32 (lit "delegation.nf_signed") (in_nf_signed x)
    ++ t_bytes32 (lit "delegation.cmx_new") (in_cmx_new x)
    ++ t_bytes32 (lit "delegation.alpha") (in_alpha x)
    ++ t_bytes32 (lit "delegation.rseed_signed") (in_rseed_signed x)
    ++ t_bytes32 (lit "delegation.rseed_output") (in_rseed_output x)
    ++ t_bytes32 (lit "delegation.gov_comm") (in_gov_comm x)
    ++ t_u64 (lit "delegation.total_note_value") (in_total_note_value x)
    ++ t_u32 (lit "delegation.address_index") (in_address_index x)
    ++ t_bytes32 (lit "delegation.rk") (in_rk x)
    ++ t_arrays (lit "delegation.gov_nullifiers") (in_gov_nullifiers x)
    ++ t_sequence (lit "delegation.padded_note_secrets")
         (hash_secret (lit "delegation.padded_note_secrets")) (in_padded_note_secrets x)
    ++ t_bytes32 (lit "delegation.pczt_sighash") (in_pczt_sighash x)
    ++ t_field (lit "delegation.tx1_effects") (in_tx1_effects x)
    ++ t_field (lit "delegation.proof") (in_proof x).

(** ** Vote recovery records *)
Definition hash_encrypted_share (prefix : text) (share : EncryptedShare) : list Z :=
  t_field (prefix ++ lit ".c1") (es_c1 share)
    ++ t_field (prefix ++ lit ".c2") (es_c2 share)
    ++ t_u32 (prefix ++ lit ".share_index") (es_share_index share)
    ++ t_u64 (prefix ++ lit ".plaintext_value") (es_plaintext_value share)
    ++ t_field (prefix ++ lit ".randomness") (es_randomness share).

Definition hash_batch (prefix : text) (batch : option VoteBatchRecovery) : list Z :=
  match batch with
  | None => t_field (prefix ++ lit ".batch") (string_bytes "singleton")
  | Some batch =>
      t_field (prefix ++ lit ".batch") (string_bytes "member")
        ++ t_bytes32 (prefix ++ lit ".batch.digest") (vb_digest batch)
        ++ t_u32 (prefix ++ lit ".batch.index") (vb_index batch)
        ++ t_u32 (prefix ++ lit ".batch.size") (vb_size batch)
  end.

Definition hash_vote_recovery (prefix : text) (r : VoteRecoveryBundle) : list Z :=
  t_field (prefix ++ lit ".vote_round_id") (string_bytes (vr_vote_round_id r))
    ++ t_u32 (prefix ++ lit ".bundle_index") (vr_bundle_index r)
    ++ t_u32 (prefix ++ lit ".proposal_id") (vr_proposal_id r)
    ++ t_u32 (prefix ++ lit ".vote_decision") (vr_vote_decision r)
    ++ t_u32 (prefix ++ lit ".anchor_height") (vr_anchor_height r)
    ++ t_bool (prefix ++ lit ".single_share") (vr_single_share r)
    ++ t_u32 (prefix ++ lit ".num_options") (vr_num_options r)
    ++ t_bytes32 (prefix ++ lit ".van_nullifier") (vr_van_nullifier r)
    ++ t_bytes32 (prefix ++ lit ".vote_authority_note_new") (vr_vote_authority_note_new r)
    ++ t_bytes32 (prefix ++ lit ".vote_commitment") (vr_vote_commitment r)
    ++ t_field (prefix ++ lit ".proof") (vr_proof r)
    ++ t_bytes32 (prefix ++ lit ".shares_hash") (vr_shares_hash r)
    ++ t_bytes32 (prefix ++ lit ".r_vpk") (vr_r_vpk r)
    ++ t_bytes32 (prefix ++ lit ".alpha_v") (vr_alpha_v r)
    ++ t_field (prefix ++ lit ".vote_auth_sig") (vr_vote_auth_sig r)
    ++ t_sequence (prefix ++ lit ".encrypted_shares")
         (fun index => hash_encrypted_share (indexed (prefix ++ lit ".encrypted_shares") index))
         (vr_encrypted_shares r)
    ++ t_arrays (prefix ++ lit ".share_blinds") (vr_share_blinds r)
    ++ t_arrays (prefix ++ lit ".share_comms") (vr_share_comms r)
    ++ hash_batch prefix (vr_batch r).

Definition hash_votes (recoveries : list VoteRecoveryBundle) : list Z :=
  t_sequence (lit "votes") (fun index => hash_vote_recovery (indexed (lit "votes") index))
    recoveries.

(** ** Generations *)
Section generations.
Context (sha256 : list Z -> list Z).

Definition finish (i : ChainSubmissionIdentity) (transcript : list Z)
    : ChainSubmissionGeneration := mk_generation i (sha256 transcript).

Definition delegation_transcript (i : ChainSubmissionIdentity) (x : DelegationGenerationInputs)
    : list Z := GENERATION_DOMAIN_V1 ++ hash_identity i ++ hash_delegation_inputs x.
Definition vote_transcript (i : ChainSubmissionIdentity) (l : list VoteRecoveryBundle) : list Z :=
  GENERATION_DOMAIN_V1 ++ hash_identity i ++ hash_votes l.
Definition combined_transcript (i : ChainSubmissionIdentity) (x : DelegationGenerationInputs)
    (l : list VoteRecoveryBundle) : list Z :=
  GENERATION_DOMAIN_V1 ++ hash_identity i ++ hash_delegation_inputs x ++ hash_votes l.
Definition imported_transcript (i : ChainSubmissionIdentity) (gov_comm hash : list Z) : list Z :=
  IMPORTED_DELEGATION_DOMAIN_V1 ++ hash_identity i
    ++ t_bytes32 (lit "imported_delegation.gov_comm") gov_comm
    ++ t_bytes32 (lit "imported_delegation.transaction_hash") hash.

Definition delegation_generation (i : ChainSubmissionIdentity) (x : DelegationGenerationInputs)
    : ChainSubmissionGeneration := finish i (delegation_transcript i x).
Definition vote_generation (i : ChainSubmissionIdentity) (l : list VoteRecoveryBundle)
    : ChainSubmissionGeneration := finish i (vote_transcript i l).
Definition combined_generation (i : ChainSubmissionIdentity) (x : DelegationGenerationInputs)
    (l : list VoteRecoveryBundle) : ChainSubmissionGeneration :=
  finish i (combined_transcript i x l).
Definition imported_generation (i : ChainSubmissionIdentity) (gov_comm hash : list Z)
    : ChainSubmissionGeneration := finish i (imported_transcript i gov_comm hash).
End generations.

(** ** Prefix codes

    An encoder whose output can be told apart from whatever follows it: on
    values that satisfy [P], equal strings start with related values. *)
Class PrefixCode {A} (P : A -> Prop) (R : A -> A -> Prop) (e : A -> list Z) :=
  prefix_code : forall a b r s, P a -> P b -> e a ++ r = e b ++ s -> R a b /\ r = s.

#[global] Typeclasses Opaque t_field t_bytes32 t_u32 t_u64 t_bool t_sequence t_arrays.

Definition fits64 (l : list Z) : Prop := Z.of_nat (length l) <= u64_max.

Lemma bytes32_fits64 b : wf_bytes32 b -> fits64 b.
Proof. unfold wf_bytes32, fits64, DIGEST_BYTES, u64_max. lia. Qed.
Lemma storable_fits64 b : storable b -> fits64 b.
Proof. unfold storable, fits64, SQLITE_MAX_LENGTH, u64_max. lia. Qed.
Lemma be_bytes_fits64 n z : Z.of_nat n <= u64_max -> fits64 (be_bytes n z).
Proof. unfold fits64. by rewrite length_be_bytes. Qed.

#[global] Instance field_code tag : PrefixCode fits64 eq (t_field tag).
Proof.
  intros a b r s Ha Hb Heq. unfold t_field in Heq. rewrite <- !app_assoc in Heq.
  do 2 apply app_inv_head in Heq. apply (framed_app_inj a b r s Ha Hb).
  unfold framed. by rewrite <- !app_assoc.
Qed.

#[global] Instance bytes32_code tag : PrefixCode wf_bytes32 eq (t_bytes32 tag).
Proof.
  intros a b r s Ha Hb. apply (field_code tag); by apply bytes32_fits64.
Qed.

#[global] Instance u32_code tag : PrefixCode is_u32 eq (t_u32 tag).
Proof.
  intros a b r s Ha Hb Heq. unfold t_u32 in Heq.
  apply field_code in Heq as [E ->]; [|by apply be_bytes_fits64..]. split; [|done].
  unfold is_u32, u32_max in *. eapply (be_bytes_inj 4); [..|exact E];
    change (256 ^ Z.of_nat 4) with 4294967296; lia.
Qed.

#[global] Instance u64_code tag : PrefixCode is_u64 eq (t_u64 tag).
Proof.
  intros a b r s Ha Hb Heq. unfold t_u64 in Heq.
  apply field_code in Heq as [E ->]; [|by apply be_bytes_fits64..]. split; [|done].
  unfold is_u64, u64_max in *. eapply (be_bytes_inj 8); [..|exact E];
    change (256 ^ Z.of_nat 8) with 18446744073709551616; lia.
Qed.

#[global] Instance bool_code tag : PrefixCode (fun _ => True) eq (t_bool tag).
Proof.
  intros a b r s _ _ Heq. unfold t_bool in Heq.
  apply field_code in Heq as [E ->]; [|done..]. by destruct a, b.
Qed.

Lemma items_code {A} (P : A -> Prop) R (encode : nat -> A -> list Z) index a b r s :
  (forall i, PrefixCode P R (encode i)) -> length a = length b -> Forall P a -> Forall P b ->
  t_items encode index a ++ r = t_items encode index b ++ s -> Forall2 R a b /\ r = s.
Proof.
  intros He. revert index b. induction a as [|x a IH]; intros index [|y b] Hl Ha Hb Heq; try done.
  apply Forall_cons_iff in Ha as [Hx Ha], Hb as [Hy Hb]. cbn [t_items] in Heq.
  rewrite <- !app_assoc in Heq. apply He in Heq as [Hxy Heq]; [|done|done].
  injection Hl as Hl. destruct (IH _ _ Hl Ha Hb Heq) as [? ->]. split; [by constructor|done].
Qed.

#[global] Instance sequence_code {A} (P : A -> Prop) R tag (encode : nat -> A -> list Z) :
  (forall i, PrefixCode P R (encode i)) ->
  PrefixCode (fun l => Z.of_nat (length l) <= u32_max /\ Forall P l) (Forall2 R)
    (t_sequence tag encode).
Proof.
  intros He a b r s [Hna Ha] [Hnb Hb] Heq. unfold t_sequence in Heq.
  rewrite <- !app_assoc in Heq. apply u32_code in Heq as [Hl Heq]; [|unfold is_u32; lia..].
  by apply (items_code P R) in Heq; [|done|lia|..].
Qed.

#[global] Instance arrays_code tag :
  PrefixCode (fun l => Z.of_nat (length l) <= u32_max /\ Forall wf_bytes32 l) eq (t_arrays tag).
Proof.
  intros a b r s Ha Hb Heq. unfold t_arrays in Heq.
  apply (sequence_code wf_bytes32 eq) in Heq as [E ->]; [|apply _|done|done].
  split; [by apply list_eq_Forall2|done].
Qed.

(** [peel H]: takes the leading field off both sides of [H]; what the
    encoder's precondition asks of the values is left to [tac]. *)
Ltac peel H tac :=
  let E := fresh "E" in
  match type of H with
  | ?e ?a ++ _ = ?e ?b ++ _ =>
      let code := constr:(ltac:(apply _) : PrefixCode _ _ e) in
      apply code in H as [E H]; [| tac | tac]
  end.

(** *** Identities *)
#[global] Instance target_code : PrefixCode wf_target eq hash_target.
Proof.
  intros a b r s Ha Hb Heq.
  destruct a as [|p|d|d], b as [|q|e|e]; cbn [hash_target is_combined wf_target] in *;
    rewrite <- ?app_assoc in Heq; peel Heq ltac:(by vm_compute); try done.
  all: peel Heq ltac:(done); by subst.
Qed.

#[global] Instance identity_code : PrefixCode wf_identity eq hash_identity.
Proof.
  intros i j r s [Hwi Hri Hbi Hti] [Hwj Hrj Hbj Htj] Heq. unfold hash_identity in Heq.
  rewrite <- !app_assoc in Heq.
  peel Heq ltac:(by unfold fits64; rewrite length_string_bytes).
  peel Heq ltac:(by match goal with |- fits64 (string_bytes (network_name (network ?k))) =>
                      destruct (network k) end).
  peel Heq ltac:(done). peel Heq ltac:(done). peel Heq ltac:(done).
  apply string_bytes_inj in E, E0. apply network_name_inj in E0.
  destruct i, j; cbn in *; by subst.
Qed.

(** *** Delegation inputs *)
Record wf_inputs (x : DelegationGenerationInputs) : Prop := {
  wi_arrays : Forall wf_bytes32 [in_van_comm_rand x; in_rho_signed x; in_nf_signed x;
    in_cmx_new x; in_alpha x; in_rseed_signed x; in_rseed_output x; in_gov_comm x; in_rk x;
    in_pczt_sighash x];
  wi_positions : Z.of_nat (length (in_note_positions x)) <= u32_max
    /\ Forall is_u64 (in_note_positions x);
  wi_hashes : Z.of_nat (length (in_note_identity_hashes x)) <= u32_max
    /\ Forall wf_bytes32 (in_note_identity_hashes x);
  wi_dummies : Z.of_nat (length (in_dummy_nullifiers x)) <= u32_max
    /\ Forall wf_bytes32 (in_dummy_nullifiers x);
  wi_padded : Z.of_nat (length (in_padded_note_data x)) <= u32_max
    /\ Forall wf_bytes32 (in_padded_note_data x);
  wi_nullifiers : Z.of_nat (length (in_gov_nullifiers x)) <= u32_max
    /\ Forall wf_bytes32 (in_gov_nullifiers x);
  wi_secrets : Z.of_nat (length (in_padded_note_secrets x)) <= u32_max
    /\ Forall (fun p => wf_bytes32 p.1 /\ wf_bytes32 p.2) (in_padded_note_secrets x);
  wi_value : is_u64 (in_total_note_value x);
  wi_address : is_u32 (in_address_index x);
  wi_effects : fits64 (in_tx1_effects x);
  wi_proof : fits64 (in_proof x)
}.

#[global] Instance secret_code tag index :
  PrefixCode (fun p => wf_bytes32 p.1 /\ wf_bytes32 p.2) eq (hash_secret tag index).
Proof.
  intros [a b] [c d] r s [Ha Hb] [Hc Hd] Heq. unfold hash_secret in Heq.
  rewrite <- !app_assoc in Heq. cbn [fst snd] in *.
  peel Heq ltac:(done). peel Heq ltac:(done). by subst.
Qed.

#[global] Instance inputs_code : PrefixCode wf_inputs eq hash_delegation_inputs.
Proof.
  intros x y r s [Ha ? ? ? ? ? ? ? ? ? ?] [Hb ? ? ? ? ? ? ? ? ? ?] Heq.
  unfold hash_delegation_inputs in Heq.
  rewrite <- !app_assoc in Heq.
  repeat match goal with
  | E : Forall wf_bytes32 (_ :: _) |- _ => apply Forall_cons_iff in E as [? E]
  end.
  do 20 peel Heq ltac:(done).
  repeat match goal with
  | E : Forall2 eq _ _ |- _ => apply list_eq_Forall2 in E
  end.
  destruct x, y; cbn in *; by subst.
Qed.

(** *** Votes

    The digest leaves out the confirmed position and, for a member of a
    combined batch, the delegation note it names. *)
Definition hashed_batch (b : VoteBatchRecovery) : VoteBatchRecovery :=
  mk_batch_recovery None (vb_digest b) (vb_index b) (vb_size b).

Definition hashed_part (r : VoteRecoveryBundle) : VoteRecoveryBundle :=
  mk_recovery (vr_vote_round_id r) (vr_bundle_index r) (vr_proposal_id r) (vr_vote_decision r)
    (vr_anchor_height r) 0 (vr_single_share r) (vr_num_options r) (vr_van_nullifier r)
    (vr_vote_authority_note_new r) (vr_vote_commitment r) (vr_proof r) (vr_shares_hash r)
    (vr_r_vpk r) (vr_alpha_v r) (vr_vote_auth_sig r) (vr_encrypted_shares r)
    (vr_share_blinds r) (vr_share_comms r) (hashed_batch <$> vr_batch r).

Definition same_vote (a b : VoteRecoveryBundle) : Prop := hashed_part a = hashed_part b.

Lemma storable_u32 {A} (l : list A) : storable l -> Z.of_nat (length l) <= u32_max.
Proof. unfold storable, SQLITE_MAX_LENGTH, u32_max. lia. Qed.

Lemma share_fits s :
  wf_share s -> fits64 (es_c1 s) /\ fits64 (es_c2 s) /\ is_u32 (es_share_index s)
    /\ is_u64 (es_plaintext_value s) /\ fits64 (es_randomness s).
Proof. intros (?&?&?&?&?). split_and!; try done; by apply storable_fits64. Qed.

#[global] Instance share_code prefix : PrefixCode wf_share eq (hash_encrypted_share prefix).
Proof.
  intros a b r s (?&?&?&?&?)%share_fits (?&?&?&?&?)%share_fits Heq.
  unfold hash_encrypted_share in Heq. rewrite <- !app_assoc in Heq.
  do 5 peel Heq ltac:(done). destruct a, b; cbn in *; by subst.
Qed.

#[global] Instance batch_code prefix :
  PrefixCode (fun o => forall b, o = Some b -> wf_batch_recovery b)
    (fun a b => hashed_batch <$> a = hashed_batch <$> b) (hash_batch prefix).
Proof.
  intros [a|] [b|] r s Ha Hb Heq; cbn [hash_batch] in Heq; rewrite <- ?app_assoc in Heq;
    peel Heq ltac:(by vm_compute); try done.
  destruct (Ha a eq_refl) as (?&?&?&_), (Hb b eq_refl) as (?&?&?&_).
  do 3 peel Heq ltac:(done). destruct a, b; cbn in *; by subst.
Qed.

#[global] Instance vote_code prefix :
  PrefixCode wf_recovery same_vote (hash_vote_recovery prefix).
Proof.
  intros x y r s [? (?&?&?&?&?&?) (?&?&?&?&?&?&?) ? [? ?] [? ?] [? ?] ?]
    [? (?&?&?&?&?&?) (?&?&?&?&?&?&?) ? [? ?] [? ?] [? ?] ?] Heq.
  unfold hash_vote_recovery in Heq. rewrite <- !app_assoc in Heq.
  do 19 peel Heq ltac:(first
    [ done
    | split; [by apply storable_u32|done]
    | by apply storable_fits64
    | by unfold fits64; rewrite length_string_bytes;
      unfold SQLITE_MAX_LENGTH, u64_max in *; lia
    | by unfold fits64, u64_max; lia ]).
  repeat match goal with
  | E : Forall2 eq _ _ |- _ => apply list_eq_Forall2 in E
  | E : string_bytes _ = string_bytes _ |- _ => apply string_bytes_inj in E
  end.
  split; [|done]. unfold same_vote, hashed_part. destruct x, y; cbn in *. by subst; f_equal.
Qed.

#[global] Instance votes_code :
  PrefixCode (fun l => Z.of_nat (length l) <= u32_max /\ Forall wf_recovery l)
    (Forall2 same_vote) hash_votes.
Proof. apply (sequence_code wf_recovery same_vote). apply _. Qed.

(** ** What a generation is made of *)
Inductive GenerationContent :=
| CDelegation (inputs : DelegationGenerationInputs)
| CImported (gov_comm transaction_hash : list Z)
| CVotes (recoveries : list VoteRecoveryBundle)
| CCombined (inputs : DelegationGenerationInputs) (recoveries : list VoteRecoveryBundle).

Definition content_transcript (i : ChainSubmissionIdentity) (c : GenerationContent) : list Z :=
  match c with
  | CDelegation x => delegation_transcript i x
  | CImported gov_comm hash => imported_transcript i gov_comm hash
  | CVotes l => vote_transcript i l
  | CCombined x l => combined_transcript i x l
  end.

(** Which content the derivation gives an identity. *)
Definition content_fits (i : ChainSubmissionIdentity) (c : GenerationContent) : Prop :=
  match target i, c with
  | Delegation, (CDelegation _ | CImported _ _) => True
  | Vote _, CVotes [_] => True
  | VoteBatch _, CVotes _ => True
  | DelegateAndVoteBatch _, CCombined _ _ => True
  | _, _ => False
  end.

Definition wf_content (c : GenerationContent) : Prop :=
  match c with
  | CDelegation x => wf_inputs x
  | CImported gov_comm hash => wf_bytes32 gov_comm /\ wf_bytes32 hash
  | CVotes l => Z.of_nat (length l) <= u32_max /\ Forall wf_recovery l
  | CCombined x l => wf_inputs x /\ Z.of_nat (length l) <= u32_max /\ Forall wf_recovery l
  end.

Definition same_content (a b : GenerationContent) : Prop :=
  match a, b with
  | CDelegation x, CDelegation y => x = y
  | CImported g h, CImported g' h' => g = g' /\ h = h'
  | CVotes l, CVotes m => Forall2 same_vote l m
  | CCombined x l, CCombined y m => x = y /\ Forall2 same_vote l m
  | _, _ => False
  end.

Lemma domains_apart a b : GENERATION_DOMAIN_V1 ++ a <> IMPORTED_DELEGATION_DOMAIN_V1 ++ b.
Proof. intros Heq. by vm_compute in Heq. Qed.

(** The transcript determines the identity and the content. *)
Lemma transcript_injective i j c d :
  wf_identity i -> wf_identity j -> wf_content c -> wf_content d ->
  content_fits i c -> content_fits j d ->
  content_transcript i c = content_transcript j d -> i = j /\ same_content c d.
Proof.
  intros Hi Hj Hc Hd Hfi Hfj Heq. apply (f_equal (fun t => t ++ [])) in Heq.
  unfold content_transcript, delegation_transcript, imported_transcript, vote_transcript,
    combined_transcript in Heq.
  destruct c as [x|g h|l|x l], d as [y|g' h'|m|y m]; rewrite <- !app_assoc in Heq;
    lazymatch type of Heq with
    | GENERATION_DOMAIN_V1 ++ _ = IMPORTED_DELEGATION_DOMAIN_V1 ++ _ =>
        destruct (domains_apart _ _ Heq)
    | IMPORTED_DELEGATION_DOMAIN_V1 ++ _ = GENERATION_DOMAIN_V1 ++ _ =>
        destruct (domains_apart _ _ (eq_sym Heq))
    | _ => apply app_inv_head in Heq; peel Heq ltac:(done)
    end;
    try (exfalso; subst; unfold content_fits in *; by destruct (target j)).
  - peel Heq ltac:(done). done.
  - destruct Hc, Hd. peel Heq ltac:(done). peel Heq ltac:(done). done.
  - peel Heq ltac:(done). done.
  - destruct Hc, Hd. peel Heq ltac:(done). peel Heq ltac:(done). done.
Qed.
