(* ===== verification/Generation.v ===== *)
(** * Generation derivation

    Models the tables of the voting database that the submission lifecycle
    reads ([storage/migrations/001_init.sql]), the queries on them, and the
    derivation of a generation and its wire request from stored state
    ([chain_submission/generation.rs], with the parts of [delegate.rs],
    [delegate_and_vote_batch], [storage/queries] and [vote.rs] it calls). A
    column holds a value of its declared type or NULL. *)

From stdpp Require Import base gmap strings list numbers.
From Stdlib Require Import ZifyBool.
From S2P Require Import Prelude Identity Outcome Lifecycle Record Confirmation Rows Store.
From S2P Require Import Coordinator Recovery Protocol SampleCodec VoteRecovery Transcript.
Local Open Scope Z_scope.
Local Open Scope voting_scope.

(** ** Tables *)
Record RoundRow := mk_round_row { rd_network : string }.

Record BundleRow := mk_bundle_row {
  bd_note_positions_blob : option (list Z);
  bd_note_identity_hashes_blob : option (list Z);
  bd_van_comm_rand : option (list Z);
  bd_dummy_nullifiers : option (list Z);
  bd_rho_signed : option (list Z);
  bd_padded_note_data : option (list Z);
  bd_nf_signed : option (list Z);
  bd_cmx_new : option (list Z);
  bd_alpha : option (list Z);
  bd_rseed_signed : option (list Z);
  bd_rseed_output : option (list Z);
  bd_gov_comm : option (list Z);
  bd_total_note_value : option Z;
  bd_address_index : option Z;
  bd_van_leaf_position : option Z;
  bd_rk : option (list Z);
  bd_gov_nullifiers_blob : option (list Z);
  bd_padded_note_secrets : option (list Z);
  bd_pczt_sighash : option (list Z);
  bd_tx1_effects : option (list Z);
  bd_delegation_tx_hash : option string
}.

Record ProofRow := mk_proof_row { pf_proof : option (list Z); pf_success : Z }.

Record VoteRow := mk_vote_row {
  vt_choice : Z;
  vt_commitment : option (list Z);
  vt_tx_hash : option string;
  vt_vc_tree_position : option Z;
  vt_commitment_bundle_json : option string
}.

Record IntentRow := mk_intent_row { it_skipped : Z; it_choice : option Z }.

Record AuthorizationRow := mk_authorization_row {
  au_delegation_generation_digest : list Z;
  au_spend_auth_signature : list Z
}.

Record RejectionRow := mk_rejection_row {
  rj_delegation_generation_digest : list Z;
  rj_consecutive_rejections : Z;
  rj_last_batch_digest : list Z;
  rj_last_diagnostic_kind : string;
  rj_last_diagnostic : text;
  rj_first_rejected_at : Z;
  rj_last_rejected_at : Z
}.

Record DesignationRow := mk_designation_row {
  ds_bundle_index : Z;
  ds_proposal_id : Z
}.

Notation RoundId := (string * string)%type.
Notation BundleId := (string * string * Z)%type.
Notation VoteId := (string * string * Z * Z)%type.

(** Keys are (round_id, wallet_id, ...). Of a helper plan only the recovery
    text it is bound to matters here, and of a share only its key. *)
Record VotingTables := mk_tables {
  tb_rounds : gmap RoundId RoundRow;
  tb_bundles : gmap BundleId BundleRow;
  tb_proofs : gmap BundleId ProofRow;
  tb_votes : gmap VoteId VoteRow;
  tb_helper_share_plans : gmap VoteId string;
  tb_share_delegations : gset (VoteId * Z);
  tb_ballot_intent : gmap BundleId IntentRow;
  tb_round_immediate_share : gmap RoundId DesignationRow;
  tb_delegate_cast_recovery : gmap (BundleId * list Z) AuthorizationRow;
  tb_combined_cast_rejections : gmap BundleId RejectionRow
}.

(** ** Code outside the repository

    SHA-256, the SpendAuth signature check of [reddsa], the text of a column
    type error of [rusqlite], and SQLite's JSON functions. *)
Class DomainExternals := {
  sha256 : list Z -> list Z;
  spend_auth_key : list Z -> bool;
  spend_auth_verify : list Z -> list Z -> list Z -> bool;
  column_error : Z -> string -> text;
  (** [json_set(json, '$.vc_tree_position', position)]. *)
  json_set_position : string -> Z -> string;
  (** [json_extract(json, '$.delegation_van') IS NOT NULL]. *)
  json_has_delegation_van : string -> bool;
  sha256_length : forall b, length (sha256 b) = 32%nat
}.

(** The record's text with another position. *)
Definition json_with_position (j : VoteRecoveryJson) (position : Z) : VoteRecoveryJson :=
  mk_recovery_json (vj_format j) (vj_vote_round_id j) (vj_bundle_index j) (vj_proposal_id j)
    (vj_vote_decision j) (vj_anchor_height j) position (vj_single_share j) (vj_num_options j)
    (vj_van_nullifier j) (vj_vote_authority_note_new j) (vj_vote_commitment j) (vj_proof j)
    (vj_shares_hash j) (vj_r_vpk j) (vj_alpha_v j) (vj_vote_auth_sig j) (vj_encrypted_shares j)
    (vj_share_blinds j) (vj_share_comms j) (vj_batch_digest j) (vj_delegation_van j)
    (vj_batch_index j) (vj_batch_size j).

(** SQLite and [serde_json] agree on the recovery text: setting the position
    in the text is encoding the record with that position, and extracting the
    delegation note is looking at that field. The untyped reading of the text
    sees the batch fields that the typed one does. *)
Class JsonAgreement `{RecoveryExternals} `{DomainExternals} := {
  json_set_position_string : forall j position,
    json_set_position (vote_recovery_json_string j) position
    = vote_recovery_json_string (json_with_position j position);
  json_has_van_parsed : forall s j,
    json_vote_recovery s = Ok j ->
    json_has_delegation_van s = bool_decide (is_Some (vj_delegation_van j));
  json_marker_parsed : forall s j,
    json_vote_recovery s = Ok j -> json_has_batch_marker s = Ok (has_batch_metadata j)
}.

Section derivation.
Context `{Externals} `{SqliteText} `{RecoveryExternals} `{DomainExternals}.
Implicit Types d : VotingTables.

(** [row.get(index)?] of a column that must not be NULL. *)
Definition get {A} (index : Z) (name : string) (column : option A) : result A text :=
  ok_or column (column_error index name).

(** ** Rounds *)
Definition network_from_storage (value : string) : result Network VotingError :=
  if bool_decide (value = "mainnet"%string) then Ok Mainnet
  else if bool_decide (value = "testnet"%string) then Ok Testnet
  else if bool_decide (value = "regtest"%string) then Ok Regtest
  else Err (VInternal (lit "stored round network is invalid: " ++ lit value)).

Definition load_round_network d (round_id wallet_id : string) : result Network VotingError :=
  match tb_rounds d !! (round_id, wallet_id) with
  | None => Err (VInvalidInput (lit "round not found: " ++ lit round_id))
  | Some row => network_from_storage (rd_network row)
  end.

Definition validate_identity_context d (i : ChainSubmissionIdentity) : result string VotingError :=
  let round_id := hex_encode (vote_round_id i) in
  let? stored := load_round_network d round_id (wallet_id i) in
  if bool_decide (stored = network i) then Ok round_id
  else Err (VInvalidInput
    (lit "chain submission identity network does not match the stored round")).

(** ** Stored blobs *)
Definition checked_blob32 (value : list Z) (field : string) : result (list Z) VotingError :=
  if bool_decide (length value = 32%nat) then Ok value
  else Err (VInternal (lit "stored " ++ lit field ++ lit " must be 32 bytes, got "
    ++ decimal (Z.of_nat (length value)))).

(** [chunks_exact(n)]. *)
Fixpoint chunks_exact (fuel n : nat) (value : list Z) : list (list Z) :=
  match fuel with
  | O => []
  | S fuel =>
      if bool_decide (length value < n)%nat then []
      else take n value :: chunks_exact fuel n (drop n value)
  end.
Definition chunks (n : nat) (value : list Z) : list (list Z) :=
  chunks_exact (length value) n value.

Definition is_multiple (n : nat) (value : list Z) : bool :=
  Z.of_nat (length value) mod Z.of_nat n =? 0.

Definition checked_blob32_sequence (value : list Z) (field : string)
    : result (list (list Z)) VotingError :=
  if negb (is_multiple 32 value) then
    Err (VInternal (lit "stored " ++ lit field ++ lit " length must be a multiple of 32, got "
      ++ decimal (Z.of_nat (length value))))
  else Ok (chunks 32 value).

(** [u64::from_le_bytes]. *)
Definition checked_note_positions (value : list Z) : result (list Z) VotingError :=
  if negb (is_multiple 8 value) then
    Err (VInternal (lit "stored note_positions length must be a multiple of 8, got "
      ++ decimal (Z.of_nat (length value))))
  else Ok (map (fun chunk => be_decode (rev chunk)) (chunks 8 value)).

Definition checked_padded_note_secrets (value : list Z)
    : result (list (list Z * list Z)) VotingError :=
  if negb (is_multiple 64 value) then
    Err (VInternal (lit "stored padded_note_secrets length must be a multiple of 64, got "
      ++ decimal (Z.of_nat (length value))))
  else Ok (map (fun chunk => (take 32 chunk, drop 32 chunk)) (chunks 64 value)).

(** ** [tx1.rs] *)
Definition TX1_EFFECTS_VERSION : Z := 1.
Definition TX1_EFFECTS_LEN : nat := 1 + 1 * (5 * 32 + 580 + 80).

Definition validate_tx1_effects (effects : list Z) : result unit VotingError :=
  if negb (bool_decide (length effects = TX1_EFFECTS_LEN)) then
    Err (VInvalidInput (lit "tx1_effects must be " ++ decimal (Z.of_nat TX1_EFFECTS_LEN)
      ++ lit " bytes, got " ++ decimal (Z.of_nat (length effects))))
  else if negb (bool_decide (head effects = Some TX1_EFFECTS_VERSION)) then
    Err (VInvalidInput (lit "unsupported tx1_effects version: expected "
      ++ decimal TX1_EFFECTS_VERSION ++ lit ", got " ++ decimal (default 0 (head effects))))
  else Ok tt.

(** ** Delegation inputs *)
Definition BUNDLE_SLOTS : nat := 5.

(** [bundles] joined with a successful row of [proofs]. *)
Definition proved_bundle d (key : BundleId) : option (BundleRow * ProofRow) :=
  b ← tb_bundles d !! key;
  p ← tb_proofs d !! key;
  if pf_success p =? 1 then Some (b, p) else None.

(** The twenty columns of the query, in its order. *)
Definition read_stored_inputs (b : BundleRow) (p : ProofRow)
    : result (list Z * list Z * list Z * list Z * list Z * list Z * list Z * list Z * list Z
              * list Z * list Z * list Z * Z * Z * list Z * list Z * list Z * list Z * list Z
              * list Z) text :=
  let? c0 := get 0 "note_positions_blob" (bd_note_positions_blob b) in
  let? c1 := get 1 "note_identity_hashes_blob" (bd_note_identity_hashes_blob b) in
  let? c2 := get 2 "van_comm_rand" (bd_van_comm_rand b) in
  let? c3 := get 3 "dummy_nullifiers" (bd_dummy_nullifiers b) in
  let? c4 := get 4 "rho_signed" (bd_rho_signed b) in
  let? c5 := get 5 "padded_note_data" (bd_padded_note_data b) in
  let? c6 := get 6 "nf_signed" (bd_nf_signed b) in
  let? c7 := get 7 "cmx_new" (bd_cmx_new b) in
  let? c8 := get 8 "alpha" (bd_alpha b) in
  let? c9 := get 9 "rseed_signed" (bd_rseed_signed b) in
  let? c10 := get 10 "rseed_output" (bd_rseed_output b) in
  let? c11 := get 11 "gov_comm" (bd_gov_comm b) in
  let? c12 := get 12 "total_note_value" (bd_total_note_value b) in
  let? c13 := get 13 "address_index" (bd_address_index b) in
  let? c14 := get 14 "rk" (bd_rk b) in
  let? c15 := get 15 "gov_nullifiers_blob" (bd_gov_nullifiers_blob b) in
  let? c16 := get 16 "padded_note_secrets" (bd_padded_note_secrets b) in
  let? c17 := get 17 "pczt_sighash" (bd_pczt_sighash b) in
  let? c18 := get 18 "tx1_effects" (bd_tx1_effects b) in
  let? c19 := get 19 "proof" (pf_proof p) in
  Ok (c0, c1, c2, c3, c4, c5, c6, c7, c8, c9, c10, c11, c12, c13, c14, c15, c16, c17, c18, c19).

(** One of the three counts that must match the padding. *)
Definition check_padded_count (field : string) (count expected : nat) : result unit VotingError :=
  if bool_decide (count = expected) then Ok tt
  else Err (VInternal (lit "stored " ++ lit field ++ lit " count " ++ decimal (Z.of_nat count)
    ++ lit " does not match expected padded note count " ++ decimal (Z.of_nat expected))).

Definition u64_of_i64 (z : Z) (e : VotingError) : result Z VotingError :=
  if 0 <=? z then Ok z else Err e.
Definition u32_of_i64 (z : Z) (e : VotingError) : result Z VotingError :=
  if (0 <=? z) && (z <=? u32_max) then Ok z else Err e.

Definition check_stored_inputs (b : BundleRow) (p : ProofRow)
    : result DelegationGenerationInputs VotingError :=
  let? (positions, hashes, van_comm_rand, dummies, rho_signed, padded, nf_signed, cmx_new, alpha,
         rseed_signed, rseed_output, gov_comm, total, address, rk, nullifiers, secrets, sighash,
         effects, proof) :=
    map_err (fun e => VInternal (lit "malformed stored delegation generation inputs: " ++ e))
      (read_stored_inputs b p) in
  let? positions := checked_note_positions positions in
  let? hashes := checked_blob32_sequence hashes "note_identity_hashes" in
  if negb (bool_decide (length hashes = length positions)) then
    Err (VInternal (lit "stored note identity count " ++ decimal (Z.of_nat (length hashes))
      ++ lit " does not match note position count " ++ decimal (Z.of_nat (length positions))))
  else if bool_decide (BUNDLE_SLOTS < length positions)%nat then
    Err (VInternal (lit "stored note position count " ++ decimal (Z.of_nat (length positions))
      ++ lit " exceeds bundle capacity " ++ decimal (Z.of_nat BUNDLE_SLOTS)))
  else
    let expected := (BUNDLE_SLOTS - length positions)%nat in
    let? dummies := checked_blob32_sequence dummies "dummy_nullifiers" in
    let? padded := checked_blob32_sequence padded "padded_note_data" in
    let? secrets := checked_padded_note_secrets secrets in
    let? _ := check_padded_count "dummy_nullifiers" (length dummies) expected in
    let? _ := check_padded_count "padded_note_data" (length padded) expected in
    let? _ := check_padded_count "padded_note_secrets" (length secrets) expected in
    let? nullifiers := checked_blob32_sequence nullifiers "gov_nullifiers" in
    if negb (bool_decide (length nullifiers = BUNDLE_SLOTS)) then
      Err (VInternal (lit "stored gov_nullifier count " ++ decimal (Z.of_nat (length nullifiers))
        ++ lit " does not match bundle capacity " ++ decimal (Z.of_nat BUNDLE_SLOTS)))
    else
      let? _ := validate_tx1_effects effects in
      let? van_comm_rand := checked_blob32 van_comm_rand "van_comm_rand" in
      let? rho_signed := checked_blob32 rho_signed "rho_signed" in
      let? nf_signed := checked_blob32 nf_signed "nf_signed" in
      let? cmx_new := checked_blob32 cmx_new "cmx_new" in
      let? alpha := checked_blob32 alpha "alpha" in
      let? rseed_signed := checked_blob32 rseed_signed "rseed_signed" in
      let? rseed_output := checked_blob32 rseed_output "rseed_output" in
      let? gov_comm := checked_blob32 gov_comm "gov_comm" in
      let? total := u64_of_i64 total (VInternal
        (lit "stored total_note_value must be non-negative, got " ++ decimal total)) in
      let? address := u32_of_i64 address (VInternal
        (lit "stored address_index must fit u32, got " ++ decimal address)) in
      let? rk := checked_blob32 rk "rk" in
      let? sighash := checked_blob32 sighash "pczt_sighash" in
      Ok (mk_inputs positions hashes van_comm_rand dummies rho_signed padded nf_signed cmx_new
            alpha rseed_signed rseed_output gov_comm total address rk nullifiers secrets sighash
            effects proof).

Definition load_delegation_inputs d (i : ChainSubmissionIdentity) (round_id : string)
    : result (option DelegationGenerationInputs) VotingError :=
  match proved_bundle d (round_id, wallet_id i, bundle_index i) with
  | None => Ok None
  | Some (b, p) =>
      let? inputs := check_stored_inputs b p in
      Ok (Some inputs)
  end.

Definition generation_bound (g : ChainSubmissionGeneration) (van : list Z) : BoundGeneration :=
  mk_bound g (LDelegation van) [].

Definition complete_generation_for_delegation d (i : ChainSubmissionIdentity)
    : result (option BoundGeneration) VotingError :=
  if negb (bool_decide (target i = Delegation)) then
    Err (VInvalidInput (lit "delegation generation requires a delegation identity"))
  else
    let? round_id := validate_identity_context d i in
    let? inputs := load_delegation_inputs d i round_id in
    match inputs with
    | None => Ok None
    | Some x => Ok (Some (generation_bound (delegation_generation sha256 i x) (in_gov_comm x)))
    end.

Definition generation_for_delegation d (i : ChainSubmissionIdentity)
    : result BoundGeneration VotingError :=
  let? bound := complete_generation_for_delegation d i in
  ok_or bound (VInvalidInput (lit "complete delegation generation not found for round="
    ++ lit (hex_encode (vote_round_id i)) ++ lit ", bundle=" ++ decimal (bundle_index i))).

(** ** Imported delegations *)
Definition null {A} (column : option A) : bool :=
  match column with Some _ => false | None => true end.

(** The COALESCE expression of the query: NULL counts as false. *)
Definition is_imported_bundle d (key : BundleId) (b : BundleRow) : bool :=
  null (bd_note_positions_blob b) && null (bd_note_identity_hashes_blob b)
  && null (bd_dummy_nullifiers b) && null (bd_rho_signed b) && null (bd_padded_note_data b)
  && null (bd_nf_signed b) && null (bd_cmx_new b) && null (bd_alpha b)
  && null (bd_rseed_signed b) && null (bd_rseed_output b) && null (bd_rk b)
  && null (bd_gov_nullifiers_blob b) && null (bd_padded_note_secrets b)
  && null (bd_pczt_sighash b) && null (bd_tx1_effects b)
  && negb (null (bd_van_comm_rand b)) && negb (null (bd_total_note_value b))
  && bool_decide (bd_address_index b = Some 0) && null (tb_proofs d !! key).

Definition bundle_text (round_id : string) (i : ChainSubmissionIdentity) : text :=
  lit "round=" ++ lit round_id ++ lit ", bundle=" ++ decimal (bundle_index i).

Definition generation_for_imported_delegation d (i : ChainSubmissionIdentity)
    : result (BoundGeneration * CandidateTransactionHash) VotingError :=
  if negb (bool_decide (target i = Delegation)) then
    Err (VInvalidInput (lit "imported delegation generation requires a delegation identity"))
  else
    let? round_id := validate_identity_context d i in
    let key := (round_id, wallet_id i, bundle_index i) in
    match tb_bundles d !! key with
    | None => Err (VInvalidInput (lit "imported delegation capability bundle not found for "
        ++ bundle_text round_id i))
    | Some b =>
        match is_imported_bundle d key b, bd_gov_comm b, bd_delegation_tx_hash b with
        | true, Some gov_comm, Some transaction_hash =>
            let? gov_comm := checked_blob32 gov_comm "imported gov_comm" in
            let? candidate := ok_or (candidate_from_str (lit transaction_hash))
              (VInvalidInput (lit "stored imported delegation transaction hash is invalid: transaction hash must be exactly 64 lowercase hexadecimal characters")) in
            Ok (generation_bound (imported_generation sha256 i gov_comm candidate) gov_comm,
                candidate)
        | _, _, _ => Err (VInvalidInput (bundle_text round_id i
            ++ lit " is not an imported delegation capability bundle"))
        end
    end.

Definition derive_imported_delegation d (i : ChainSubmissionIdentity)
    : result DerivedChainSubmission VotingError :=
  let? (bound, candidate) := generation_for_imported_delegation d i in
  Ok (mk_derived bound (QImportedDelegation candidate)).

(** ** Delegation requests ([delegate.rs], [storage/queries], [operations.rs]) *)
Record DelegationSubmission := mk_submission {
  sb_proof : list Z;
  sb_rk : list Z;
  sb_nf_signed : list Z;
  sb_cmx_new : list Z;
  sb_gov_comm : list Z;
  sb_gov_nullifiers : list (list Z);
  sb_alpha : list Z;
  sb_vote_round_id : string;
  sb_spend_auth_sig : list Z;
  sb_sighash : list Z;
  sb_tx1_effects : list Z
}.

(** [DelegationDbFields]. *)
Record SubmissionData := mk_submission_data {
  sd_proof : list Z;
  sd_rk : list Z;
  sd_nf_signed : list Z;
  sd_cmx_new : list Z;
  sd_gov_comm : list Z;
  sd_gov_nullifiers : list (list Z);
  sd_alpha : list Z;
  sd_vote_round_id : string;
  sd_tx1_effects : list Z
}.

Definition read_submission_columns (round_id : string) (row : option (BundleRow * ProofRow))
    : result (list Z * list Z * list Z * list Z * list Z * list Z * list Z * list Z) text :=
  let? (b, p) := ok_or row (sql_error_to_string QueryReturnedNoRows) in
  let? proof := get 0 "proof" (pf_proof p) in
  let? rk := get 1 "rk" (bd_rk b) in
  let? nf_signed := get 2 "nf_signed" (bd_nf_signed b) in
  let? cmx_new := get 3 "cmx_new" (bd_cmx_new b) in
  let? gov_comm := get 4 "gov_comm" (bd_gov_comm b) in
  let? nullifiers := get 5 "gov_nullifiers_blob" (bd_gov_nullifiers_blob b) in
  let? alpha := get 6 "alpha" (bd_alpha b) in
  let? effects := get 8 "tx1_effects" (bd_tx1_effects b) in
  Ok (proof, rk, nf_signed, cmx_new, gov_comm, nullifiers, alpha, effects).

Definition load_delegation_submission_data d (round_id wallet : string) (bundle : Z)
    : result SubmissionData VotingError :=
  let? (proof, rk, nf_signed, cmx_new, gov_comm, nullifiers, alpha, effects) :=
    map_err (fun e => VInvalidInput (lit "failed to load delegation submission data for round="
      ++ lit round_id ++ lit ", bundle=" ++ decimal bundle ++ lit " (" ++ e ++ lit ")"))
      (read_submission_columns round_id (proved_bundle d (round_id, wallet, bundle))) in
  if negb (is_multiple 32 nullifiers) then
    Err (VInternal (lit "corrupt gov_nullifiers_blob: length "
      ++ decimal (Z.of_nat (length nullifiers)) ++ lit " is not a multiple of 32"))
  else
    let? _ := validate_tx1_effects effects in
    Ok (mk_submission_data proof rk nf_signed cmx_new gov_comm (chunks 32 nullifiers) alpha
          round_id effects).

Definition load_pczt_sighash d (round_id wallet : string) (bundle : Z)
    : result (list Z) VotingError :=
  map_err (fun e => VInvalidInput (lit "no pczt_sighash for round=" ++ lit round_id
      ++ lit ", bundle=" ++ decimal bundle ++ lit " (" ++ e ++ lit ")"))
    (match tb_bundles d !! (round_id, wallet, bundle) with
     | None => Err (sql_error_to_string QueryReturnedNoRows)
     | Some b => get 0 "pczt_sighash" (bd_pczt_sighash b)
     end).

Definition verify_delegation_spend_auth_signature (rk sighash signature : list Z)
    : result unit VotingError :=
  let? rk := array32 (lit "rk") rk in
  let? sighash := array32 (lit "pczt_sighash") sighash in
  if negb (bool_decide (length signature = 64%nat)) then
    Err (VInvalidInput (lit "signature must be 64 bytes, got "
      ++ decimal (Z.of_nat (length signature))))
  else if negb (spend_auth_key rk) then
    Err (VInternal (lit "rk is not a valid SpendAuth verification key"))
  else if spend_auth_verify rk sighash signature then Ok tt
  else Err (VInvalidInput
    (lit "signature does not verify against stored delegation rk and sighash")).

Definition array32x_bundle_note_slots (label : text) (values : list (list Z))
    : result (list (list Z)) VotingError :=
  if negb (bool_decide (length values = BUNDLE_SLOTS)) then
    Err (VInternal (label ++ lit " must contain " ++ decimal (Z.of_nat BUNDLE_SLOTS)
      ++ lit " entries, got " ++ decimal (Z.of_nat (length values))))
  else array32_vec label values.

(** [submission_with_sighash_constraint] without an expected sighash. *)
Definition submission_with_conn d (wallet round_id : string) (bundle : Z)
    (spend_auth_signature : list Z) : result DelegationSubmission VotingError :=
  let? data := load_delegation_submission_data d round_id wallet bundle in
  let? sighash := load_pczt_sighash d round_id wallet bundle in
  if negb (bool_decide (length sighash = 32%nat)) then
    Err (VInternal (lit "pczt_sighash must be 32 bytes, got "
      ++ decimal (Z.of_nat (length sighash))))
  else
    let? _ := verify_delegation_spend_auth_signature (sd_rk data) sighash spend_auth_signature in
    let? rk := array32 (lit "rk") (sd_rk data) in
    let? nf_signed := array32 (lit "nf_signed") (sd_nf_signed data) in
    let? cmx_new := array32 (lit "cmx_new") (sd_cmx_new data) in
    let? gov_comm := array32 (lit "gov_comm") (sd_gov_comm data) in
    let? nullifiers := array32x_bundle_note_slots (lit "gov_nullifiers") (sd_gov_nullifiers data) in
    let? alpha := array32 (lit "alpha") (sd_alpha data) in
    Ok (mk_submission (sd_proof data) rk nf_signed cmx_new gov_comm nullifiers alpha
          (sd_vote_round_id data) spend_auth_signature sighash (sd_tx1_effects data)).

(** [DelegationSubmissionWire::try_from]. *)
Definition delegation_wire (s : DelegationSubmission) : result DelegationSubmissionWire VotingError :=
  let? round := b64_hex (sb_vote_round_id s) (lit "vote_round_id") in
  Ok (mk_delegation_wire (base64_encode (sb_rk s)) (base64_encode (sb_spend_auth_sig s))
        (base64_encode (sb_tx1_effects s)) (base64_encode (sb_nf_signed s))
        (base64_encode (sb_cmx_new s)) (base64_encode (sb_gov_comm s))
        (map base64_encode (sb_gov_nullifiers s)) (base64_encode (sb_proof s)) round).

Definition derive_delegation d (i : ChainSubmissionIdentity) (spend_auth_signature : list Z)
    : result DerivedChainSubmission VotingError :=
  let? bound := generation_for_delegation d i in
  let? submission := submission_with_conn d (wallet_id i) (hex_encode (vote_round_id i))
    (bundle_index i) spend_auth_signature in
  let? request := delegation_wire submission in
  Ok (mk_derived bound (QDelegation request)).

(** ** Stored votes ([vote.rs]) *)
Definition recovery_json_with_conn d (wallet round_id : string) (bundle proposal : Z)
    : option string :=
  tb_votes d !! (round_id, wallet, bundle, proposal) ≫= vt_commitment_bundle_json.

Definition recovery_bundle_with_conn d (wallet round_id : string) (bundle proposal : Z)
    : result (option VoteRecoveryBundle) VotingError :=
  match recovery_json_with_conn d wallet round_id bundle proposal with
  | None => Ok None
  | Some json => let? r := parse_recovery json in Ok (Some r)
  end.

(** The recovery texts stored on a bundle, in the table's order. *)
Definition bundle_recovery_texts d (wallet round_id : string) (bundle : Z) : list string :=
  omap (fun '(key, v) =>
    let '(r, w, b, _) := key in
    if bool_decide ((r, w, b) = (round_id, wallet, bundle)) then vt_commitment_bundle_json v
    else None) (map_to_list (tb_votes d)).

Definition load_vote_batch_recoveries_with_conn d (wallet round_id : string) (bundle : Z)
    (digest : list Z) : result (list VoteRecoveryBundle) VotingError :=
  let? candidates := try_map parse_recovery (bundle_recovery_texts d wallet round_id bundle) in
  assemble_vote_batch_recoveries round_id bundle digest candidates.

Definition vote_text (round_id : string) (bundle proposal : Z) : text :=
  lit "round=" ++ lit round_id ++ lit ", bundle=" ++ decimal bundle ++ lit ", proposal="
    ++ decimal proposal.

Definition vote_not_found_error (round_id : string) (bundle proposal : Z) : VotingError :=
  VInvalidInput (lit "vote not found for " ++ vote_text round_id bundle proposal).

Definition vote_recovery_identity_mismatch_error (round_id : string) (bundle proposal : Z)
    (field : string) : VotingError :=
  VInvalidInput (lit "vote recovery bundle " ++ lit field ++ lit " mismatch for "
    ++ vote_text round_id bundle proposal).

Definition invalid_stored_choice_error (choice : Z) : VotingError :=
  VInternal (lit "stored vote choice must be non-negative, got " ++ decimal choice).

Definition validate_recovery_matches_stored_vote (r : VoteRecoveryBundle) (round_id : string)
    (bundle proposal stored_choice : Z) (stored_commitment : option (list Z))
    : result unit VotingError :=
  let mismatch field := Err (vote_recovery_identity_mismatch_error round_id bundle proposal field) in
  if negb (bool_decide (vr_vote_round_id r = round_id)) then mismatch "round_id"%string
  else if negb (vr_bundle_index r =? bundle) then mismatch "bundle_index"%string
  else if negb (vr_proposal_id r =? proposal) then mismatch "proposal_id"%string
  else
    let? choice := u32_of_i64 stored_choice (invalid_stored_choice_error stored_choice) in
    if negb (vr_vote_decision r =? choice) then mismatch "vote_decision"%string
    else match stored_commitment with
         | Some commitment =>
             if bool_decide (commitment = stored_vote_commitment_bytes r) then Ok tt
             else mismatch "commitment"%string
         | None => Ok tt
         end.

Definition load_validated_vote d (i : ChainSubmissionIdentity) (round_id : string) (proposal : Z)
    : result VoteRecoveryBundle VotingError :=
  let? recovery := recovery_bundle_with_conn d (wallet_id i) round_id (bundle_index i) proposal in
  let? recovery := ok_or recovery (VInvalidInput (lit "vote recovery bundle not found for "
    ++ vote_text round_id (bundle_index i) proposal)) in
  let? state := ok_or (tb_votes d !! (round_id, wallet_id i, bundle_index i, proposal))
    (vote_not_found_error round_id (bundle_index i) proposal) in
  let? _ := validate_recovery_matches_stored_vote recovery round_id (bundle_index i) proposal
    (vt_choice state) (vt_commitment state) in
  Ok recovery.

(** ** Single votes *)
Definition validated_singleton_vote d (i : ChainSubmissionIdentity)
    : result (BoundGeneration * VoteRecoveryBundle) VotingError :=
  match target i with
  | Vote proposal =>
      let? round_id := validate_identity_context d i in
      let? recovery := load_validated_vote d i round_id proposal in
      let? _ := ensure_singleton_vote_recovery recovery in
      Ok (mk_bound (vote_generation sha256 i [recovery])
            (LVote (vr_vote_authority_note_new recovery) (vr_vote_commitment recovery)) [proposal],
          recovery)
  | _ => Err (VInvalidInput (lit "singleton vote generation requires a vote identity"))
  end.

Definition derive_vote d (i : ChainSubmissionIdentity) : result DerivedChainSubmission VotingError :=
  let? (bound, recovery) := validated_singleton_vote d i in
  let? request := wire_submission_from_recovery recovery in
  Ok (mk_derived bound (QVote request)).

(** ** Vote batches *)
(** The member loop: one anchor, each vote re-read and still a member. *)
Fixpoint validate_members d (i : ChainSubmissionIdentity) (round_id : string) (anchor : Z)
    (digest : list Z) (members : list VoteRecoveryBundle) : result (list Z) VotingError :=
  match members with
  | [] => Ok []
  | r :: members =>
      if negb (vr_anchor_height r =? anchor) then
        Err (VInvalidInput (lit "persisted atomic vote batch has inconsistent anchor heights"))
      else
        let? validated := load_validated_vote d i round_id (vr_proposal_id r) in
        if bool_decide (vb_digest <$> vr_batch validated = Some digest) then
          let? proposals := validate_members d i round_id anchor digest members in
          Ok (vr_proposal_id r :: proposals)
        else Err (VInvalidInput
          (lit "persisted atomic vote batch membership changed during derivation"))
  end.

Definition batch_generation d (i : ChainSubmissionIdentity) (round_id : string)
    (combined_van : option (list Z)) (anchor : Z) (members : list VoteRecoveryBundle)
    : result ChainSubmissionGeneration VotingError :=
  match combined_van with
  | Some initial_van =>
      let? inputs := load_delegation_inputs d i round_id in
      let? inputs := ok_or inputs (VInvalidInput (lit "combined delegation setup is missing")) in
      if negb (bool_decide (initial_van = in_gov_comm inputs)) || negb (anchor =? 0) then
        Err (VInvalidInput (lit "combined casts do not bind the persisted delegation VAN"))
      else Ok (combined_generation sha256 i inputs members)
  | None => Ok (vote_generation sha256 i members)
  end.

Definition validated_vote_batch d (i : ChainSubmissionIdentity)
    : result (BoundGeneration * list VoteRecoveryBundle) VotingError :=
  match batch_digest (target i) with
  | None => Err (VInvalidInput (lit "vote batch generation requires a vote_batch identity"))
  | Some digest =>
      let? round_id := validate_identity_context d i in
      let? members := load_vote_batch_recoveries_with_conn d (wallet_id i) round_id
        (bundle_index i) digest in
      let combined_van := head members ≫= delegation_van_of in
      if negb (bool_decide (bool_decide (is_Some combined_van) = is_combined (target i))) then
        Err (VInvalidInput (lit "batch authorization does not match submission kind"))
      else
        let anchor := default 0 (vr_anchor_height <$> head members) in
        let? proposals := validate_members d i round_id anchor digest members in
        if negb (bool_decide (NoDup proposals)) then
          Err (VInvalidInput (lit "persisted atomic vote batch contains duplicate proposals"))
        else
          let? generation := batch_generation d i round_id combined_van anchor members in
          Ok (mk_bound generation
                (LVoteBatch (default [] (vr_vote_authority_note_new <$> list.last members))
                   (map vr_vote_commitment members)) proposals,
              members)
  end.

(** ** Combined authorization ([delegate_and_vote_batch]) *)
Definition recover_submission d (wallet round_id : string) (bundle : Z) (digest : list Z)
    : result DelegationSubmissionWire VotingError :=
  let? row := ok_or (tb_delegate_cast_recovery d !! (round_id, wallet, bundle, digest))
    (VStorage (lit "recover combined authorization: "
      ++ sql_error_to_string QueryReturnedNoRows)) in
  let? stored := load_round_network d round_id wallet in
  let? round_bytes :=
    match hex_decode (lit round_id) with
    | Some bytes =>
        if bool_decide (length bytes = 32%nat) then Ok bytes
        else Err (VInvalidInput (lit "invalid combined round"))
    | None => Err (VInvalidInput (lit "invalid combined round"))
    end in
  let? i := map_err (fun e => VInvalidInput (identity_error_to_string e))
    (identity_new wallet stored round_bytes bundle Delegation) in
  let? bound := generation_for_delegation d i in
  if negb (bool_decide (gen_digest (bound_generation bound) = au_delegation_generation_digest row))
  then Err (VInvalidInput (lit "stored combined delegation changed"))
  else if negb (bool_decide (length (au_spend_auth_signature row) = 64%nat))
  then Err (VInvalidInput (lit "stored combined signature must contain 64 bytes"))
  else
    let? submission := submission_with_conn d wallet round_id bundle (au_spend_auth_signature row) in
    delegation_wire submission.

Definition combined_invalid (message : string) : VotingError := VInvalidInput (lit message).

Definition decode32 (encoded : text) : result (list Z) VotingError :=
  let? bytes := ok_or (base64_decode encoded)
    (combined_invalid "combined request contains invalid base64") in
  if negb (bool_decide (base64_encode bytes = encoded)) then
    Err (combined_invalid "combined request requires canonical base64")
  else if bool_decide (length bytes = 32%nat) then Ok bytes
  else Err (combined_invalid "combined request effect must contain 32 bytes").

Definition decode_action (round : list Z) (v : VoteCommitmentWire)
    : result CastVoteBatchSighashAction VotingError :=
  let mismatch := Err (combined_invalid
    "combined casts must share the delegation round and use anchor zero") in
  if negb (vw_anchor_height v =? 0) then mismatch
  else
    let? vote_round := decode32 (vw_vote_round_id v) in
    if negb (bool_decide (vote_round = round)) then mismatch
    else
      let? r_vpk := decode32 (vw_r_vpk v) in
      let? nullifier := decode32 (vw_van_nullifier v) in
      let? van := decode32 (vw_vote_authority_note_new v) in
      let? commitment := decode32 (vw_vote_commitment v) in
      Ok (mk_action r_vpk nullifier van commitment (vw_proposal_id v)).

Definition authorization_digest (w : DelegateAndVoteBatchWire) : result (list Z) VotingError :=
  let? round := decode32 (dw_vote_round_id (cw_delegation w)) in
  let? _ := check_vote_round_id_bytes round in
  let? initial_van := decode32 (dw_gov_comm (cw_delegation w)) in
  let? _ := check_vote_round_id_bytes initial_van in
  let? actions := try_map (decode_action round) (bw_votes (cw_batch w)) in
  delegate_and_vote_batch_sighash round initial_van actions.

Definition derive_vote_batch d (i : ChainSubmissionIdentity)
    : result DerivedChainSubmission VotingError :=
  let? (bound, members) := validated_vote_batch d i in
  let? requests := try_map wire_submission_from_recovery members in
  let batch := mk_batch_wire requests in
  if is_combined (target i) then
    let digest := default [] (batch_digest (target i)) in
    let? delegation := recover_submission d (wallet_id i) (hex_encode (vote_round_id i))
      (bundle_index i) digest in
    let composite := mk_combined_wire delegation batch in
    let? observed := authorization_digest composite in
    if bool_decide (Some observed = batch_digest (target i)) then
      Ok (mk_derived bound (QDelegateAndVoteBatch composite))
    else Err (VInvalidInput (lit "combined authorization digest mismatch"))
  else Ok (mk_derived bound (QVoteBatch batch)).

(** ** The derivation the store asks for ([store/sqlite.rs]) *)
Definition derive_submission d (q : SubmissionDerivationRequest)
    : result DerivedChainSubmission VotingError :=
  match q with
  | DDelegation i signature => derive_delegation d i signature
  | DImportedDelegation i => derive_imported_delegation d i
  | DVote i => derive_vote d i
  | DVoteBatch i => derive_vote_batch d i
  end.
End derivation.
