(* ===== verification/SampleTables.v ===== *)
(** * Example tables

    Concrete instances of the parameters of [Generation] and small voting
    tables, at which the theorems of the following files are applied. *)

From stdpp Require Import base gmap strings list numbers.
From S2P Require Import Prelude Identity Outcome Lifecycle Record Confirmation Rows Store.
From S2P Require Import Coordinator Recovery Protocol SampleCodec VoteRecovery Transcript.
From S2P Require Import Generation.
Local Open Scope Z_scope.
Local Open Scope voting_scope.

(** A hash that keeps the last 32 bytes and a JSON of the sample codec. *)
Definition sample_set_position (s : string) (position : Z) : string :=
  match sample_parse s with
  | Some j => sample_string (json_with_position j position)
  | None => s
  end.

Definition sample_has_van (s : string) : bool :=
  match sample_parse s with
  | Some j => bool_decide (is_Some (vj_delegation_van j))
  | None => false
  end.

Definition example_domain_externals : DomainExternals.
Proof.
  refine {|
    sha256 := fun b => take 32 (rev b ++ replicate 32 0);
    spend_auth_key := fun _ => true;
    spend_auth_verify := fun _ _ _ => true;
    column_error := fun _ _ => lit "unexpected NULL";
    json_set_position := sample_set_position;
    json_has_delegation_van := sample_has_van
  |}.
  intros b. rewrite length_take, length_app, length_rev, length_replicate. lia.
Defined.

#[local] Existing Instance example_externals.
#[local] Existing Instance example_text.
#[local] Existing Instance example_recovery_externals.
#[local] Existing Instance example_domain_externals.

Lemma sample_json_parsed s j : sample_json_recovery s = Ok j -> sample_parse s = Some j.
Proof.
  unfold sample_json_recovery. destruct (sample_parse s) as [k|]; [|done].
  case_decide; [|done]. by intros [= <-].
Qed.

Definition example_json_agreement : JsonAgreement.
Proof.
  split.
  - intros j position.
    change (sample_set_position (sample_string j) position = sample_string (json_with_position j position)).
    unfold sample_set_position. by rewrite sample_parse_string.
  - intros s j Hj. cbn. unfold sample_has_van. by rewrite (sample_json_parsed s j Hj).
  - intros s j Hj. cbn in *. rewrite Hj. cbn. f_equal. unfold has_batch_metadata.
    repeat case_bool_decide; naive_solver.
Defined.

(** ** One round, one bundle, a singleton vote *)
Definition example_round : string := hex_encode (vote_round_id example_identity).
Definition example_vote_id (proposal : Z) : VoteId :=
  (example_round, wallet_id example_identity, bundle_index example_identity, proposal).
Definition example_bundle_id : BundleId :=
  (example_round, wallet_id example_identity, bundle_index example_identity).

Definition empty_bundle : BundleRow :=
  mk_bundle_row None None None None None None None None None None None None None None None None
    None None None None None.

Definition example_vote_row (r : VoteRecoveryBundle) : VoteRow :=
  mk_vote_row (vr_vote_decision r) None None None (Some (sample_string (recovery_to_json r))).

Definition example_tables (votes : list VoteRecoveryBundle) : VotingTables :=
  mk_tables {[ (example_round, wallet_id example_identity) :=
                 mk_round_row (network_name (network example_identity)) ]}
    {[ example_bundle_id := empty_bundle ]} ∅
    (list_to_map (map (fun r => (example_vote_id (vr_proposal_id r), example_vote_row r)) votes))
    (list_to_map (map (fun r => (example_vote_id (vr_proposal_id r),
       sample_string (recovery_to_json r))) votes))
    ∅ ∅ {[ (example_round, wallet_id example_identity) := mk_designation_row 0 3 ]} ∅ ∅.

(** A combined batch of two votes with its authorization. *)
Definition example_van : list Z := replicate 32 30.
Definition example_combined_digest : list Z :=
  blake2b_256 (combined_sighash_preimage (vote_round_id example_identity) example_van example_actions).
Definition example_combined_member (proposal index : Z) : VoteRecoveryBundle :=
  example_recovery proposal 0
    (Some (mk_batch_recovery (Some example_van) example_combined_digest index 2)).

Definition example_combined_identity : ChainSubmissionIdentity :=
  mk_identity (wallet_id example_identity) (network example_identity)
    (vote_round_id example_identity) (bundle_index example_identity)
    (DelegateAndVoteBatch example_combined_digest).

Definition example_combined_tables : VotingTables :=
  let d := example_tables [example_combined_member 3 0; example_combined_member 4 1] in
  mk_tables (tb_rounds d) (tb_bundles d) (tb_proofs d) (tb_votes d) (tb_helper_share_plans d)
    {[ (example_vote_id 3, 0); (example_vote_id 5, 0) ]} (tb_ballot_intent d)
    (tb_round_immediate_share d)
    {[ (example_bundle_id, example_combined_digest) :=
         mk_authorization_row (replicate 32 9) (replicate 64 9) ]}
    (tb_combined_cast_rejections d).
