(* ===== verification/GenerationProofs.v ===== *)
(** * Correctness of generation derivation

    Theorems about [Generation]: a derivation answers for the identity it was
    asked for, its request has the kind of its target, and its digest binds
    the stored inputs, hence the expected leaves, the signed roster and the
    wire request. *)

From stdpp Require Import base gmap strings list numbers.
From Stdlib Require Import ZifyBool.
From S2P Require Import Prelude Identity Outcome Lifecycle Record Confirmation Rows Store.
From S2P Require Import Coordinator Recovery Protocol SampleCodec VoteRecovery Transcript.
From S2P Require Import Generation SampleTables.
Local Open Scope Z_scope.
Local Open Scope voting_scope.

(** [ok_inv H]: follows a successful run through its checks. *)
Ltac ok_inv H :=
  repeat match type of H with
  | match ?m with Ok _ => _ | Err _ => _ end = Ok _ =>
      let E := fresh "E" in destruct m eqn:E; [|discriminate H]
  | (if ?c then _ else _) = Ok _ =>
      let E := fresh "E" in destruct c eqn:E; try discriminate H
  | match ?p with pair _ _ => _ end = Ok _ => destruct p
  | match ?o with Some _ => _ | None => _ end = Ok _ =>
      let E := fresh "E" in destruct o eqn:E; try discriminate H
  | Ok _ = Ok _ => injection H as H
  end.

(** What SQLite guarantees of the stored values: bytes, 64-bit integers and
    bounded lengths. *)
Record stored_types (d : VotingTables) : Prop := {
  ty_positions : forall k b p, tb_bundles d !! k = Some b ->
    bd_note_positions_blob b = Some p -> Forall is_u8 p;
  ty_total : forall k b v, tb_bundles d !! k = Some b ->
    bd_total_note_value b = Some v -> v <= i64_max;
  ty_proofs : forall k p x, tb_proofs d !! k = Some p -> pf_proof p = Some x -> storable x;
  ty_json : forall k v s, tb_votes d !! k = Some v ->
    vt_commitment_bundle_json v = Some s -> Z.of_nat (String.length s) <= SQLITE_MAX_LENGTH
}.

Section proofs.
Context `{Externals} `{SqliteText} `{RecoveryExternals} `{DomainExternals}.
Implicit Types d : VotingTables.

Lemma map_err_ok {A E F} (f : E -> F) (r : result A E) a : map_err f r = Ok a -> r = Ok a.
Proof. by destruct r; cbn; intros; simplify_eq. Qed.

Lemma ok_or_ok {A E} (o : option A) (e : E) a : ok_or o e = Ok a -> o = Some a.
Proof. by destruct o; cbn; intros; simplify_eq. Qed.

Lemma get_ok {A} index name (column : option A) a : get index name column = Ok a -> column = Some a.
Proof. apply ok_or_ok. Qed.

Lemma checked_blob32_ok v field b : checked_blob32 v field = Ok b -> b = v /\ wf_bytes32 v.
Proof. unfold checked_blob32. case_bool_decide; intros; by simplify_eq. Qed.

Lemma chunks_length fuel n l : (n <> 0)%nat -> Forall (fun c => length c = n) (chunks_exact fuel n l).
Proof.
  intros Hn. revert l. induction fuel as [|fuel IH]; intros l; cbn; [constructor|].
  case_bool_decide; constructor; [|apply IH]. rewrite length_take. lia.
Qed.

Lemma chunks_u8 fuel n l : Forall is_u8 l -> Forall (Forall is_u8) (chunks_exact fuel n l).
Proof.
  revert l. induction fuel as [|fuel IH]; intros l Hl; cbn; [constructor|].
  case_bool_decide; constructor; [by apply Forall_take|]. by apply IH, Forall_drop.
Qed.

Lemma chunks_count fuel n l :
  (n <> 0)%nat -> (n * length (chunks_exact fuel n l) <= length l)%nat.
Proof.
  intros Hn. revert l. induction fuel as [|fuel IH]; intros l; cbn; [lia|].
  case_bool_decide as E; [cbn; lia|]. cbn. specialize (IH (drop n l)).
  rewrite length_drop in IH. lia.
Qed.

Lemma be_decode_u8 l : Forall is_u8 l -> 0 <= be_decode l < 256 ^ Z.of_nat (length l).
Proof.
  induction 1 as [|x l Hx _ IH]; [by vm_compute|]. rewrite be_decode_cons. cbn [length].
  rewrite Nat2Z.inj_succ, Z.pow_succ_r by lia. unfold is_u8, u8_max in Hx. nia.
Qed.

Lemma blob32_sequence_ok v field l :
  checked_blob32_sequence v field = Ok l -> l = chunks 32 v /\ Forall wf_bytes32 l.
Proof.
  unfold checked_blob32_sequence. destruct (negb _); [done|]. intros; simplify_eq.
  split; [done|]. by apply chunks_length.
Qed.

Lemma note_positions_ok v l :
  Forall is_u8 v -> checked_note_positions v = Ok l -> Forall is_u64 l.
Proof.
  intros Hv. unfold checked_note_positions. destruct (negb _); [done|]. intros; simplify_eq.
  apply Forall_map, Forall_forall. intros c Hc.
  pose proof (chunks_length (length v) 8 v ltac:(lia)) as Hl.
  pose proof (chunks_u8 (length v) 8 v Hv) as Hu.
  rewrite Forall_forall in Hl, Hu. specialize (Hl c Hc). specialize (Hu c Hc).
  pose proof (be_decode_u8 (rev c) ltac:(by apply Forall_rev)) as Hb.
  rewrite length_rev, Hl in Hb. unfold is_u64, u64_max. lia.
Qed.

Lemma secrets_ok v l :
  checked_padded_note_secrets v = Ok l ->
  Forall (fun p => wf_bytes32 p.1 /\ wf_bytes32 p.2) l.
Proof.
  unfold checked_padded_note_secrets. destruct (negb _); [done|]. intros; simplify_eq.
  apply Forall_map, Forall_forall. intros c Hc.
  pose proof (chunks_length (length v) 64 v ltac:(lia)) as Hl.
  rewrite Forall_forall in Hl. specialize (Hl c Hc). cbn. unfold wf_bytes32, DIGEST_BYTES.
  rewrite length_take, length_drop. lia.
Qed.

Lemma padded_count_ok field count expected u :
  check_padded_count field count expected = Ok u -> count = expected.
Proof. unfold check_padded_count. by case_bool_decide. Qed.

Lemma tx1_effects_ok effects u : validate_tx1_effects effects = Ok u -> length effects = TX1_EFFECTS_LEN.
Proof. unfold validate_tx1_effects. case_bool_decide; [done|]. done. Qed.

Lemma column_u64_ok z e y : u64_of_i64 z e = Ok y -> y = z /\ 0 <= z.
Proof. unfold u64_of_i64. intros Hy. ok_inv Hy. lia. Qed.

Lemma column_u32_ok z e y : u32_of_i64 z e = Ok y -> y = z /\ is_u32 z.
Proof. unfold u32_of_i64, is_u32. intros Hy. ok_inv Hy. lia. Qed.

(** *** Delegation inputs *)
Ltac read_columns :=
  repeat match goal with
  | E : get _ _ _ = Ok _ |- _ => apply get_ok in E
  | E : checked_blob32 _ _ = Ok _ |- _ => apply checked_blob32_ok in E as [-> ?]
  | E : checked_blob32_sequence _ _ = Ok _ |- _ => apply blob32_sequence_ok in E as [? ?]
  | E : check_padded_count _ _ _ = Ok _ |- _ => apply padded_count_ok in E
  | E : validate_tx1_effects _ = Ok _ |- _ => apply tx1_effects_ok in E
  | E : u64_of_i64 _ _ = Ok _ |- _ => apply column_u64_ok in E as [-> ?]
  | E : u32_of_i64 _ _ = Ok _ |- _ => apply column_u32_ok in E as [-> ?]
  | E : array32 _ _ = Ok _ |- _ => apply array_of_ok in E as [-> ?]
  | E : negb _ = false |- _ => apply negb_false_iff in E
  | E : bool_decide _ = true |- _ => apply bool_decide_eq_true in E
  | E : bool_decide _ = false |- _ => apply bool_decide_eq_false in E
  end.

Lemma inputs_wf b p x :
  check_stored_inputs b p = Ok x ->
  (forall l, bd_note_positions_blob b = Some l -> Forall is_u8 l) ->
  (forall v, bd_total_note_value b = Some v -> v <= i64_max) ->
  (forall l, pf_proof p = Some l -> storable l) ->
  wf_inputs x.
Proof.
  intros Hx Hpos Htot Hproof. unfold check_stored_inputs in Hx.
  destruct (map_err _ _) as [cols|] eqn:Er; [|done]. apply map_err_ok in Er.
  unfold read_stored_inputs in Er. ok_inv Er. subst cols. ok_inv Hx. read_columns.
  repeat match goal with
  | E : checked_padded_note_secrets _ = Ok _ |- _ => apply secrets_ok in E
  | E : checked_note_positions _ = Ok _ |- _ => apply note_positions_ok in E; [|by eauto]
  end.
  subst x. unfold BUNDLE_SLOTS, u32_max, TX1_EFFECTS_LEN in *.
  constructor; cbn [in_note_positions in_note_identity_hashes in_dummy_nullifiers
    in_padded_note_data in_gov_nullifiers in_padded_note_secrets in_total_note_value
    in_address_index in_tx1_effects in_proof in_van_comm_rand in_rho_signed in_nf_signed
    in_cmx_new in_alpha in_rseed_signed in_rseed_output in_gov_comm in_rk in_pczt_sighash].
  - by repeat constructor.
  - split; [unfold u32_max; lia|done].
  - split; [unfold u32_max; lia|done].
  - split; [unfold u32_max; lia|done].
  - split; [unfold u32_max; lia|done].
  - split; [unfold u32_max; lia|done].
  - split; [unfold u32_max; lia|done].
  - split; [done|]. etrans; [by eapply Htot|]. by vm_compute.
  - done.
  - unfold fits64. match goal with E : length _ = (1 + _)%nat |- _ => rewrite E end. by vm_compute.
  - apply storable_fits64. by eapply Hproof.
Qed.

(** The columns the wire request repeats. *)
Lemma inputs_columns b p x :
  check_stored_inputs b p = Ok x ->
  pf_proof p = Some (in_proof x) /\ bd_rk b = Some (in_rk x)
  /\ bd_nf_signed b = Some (in_nf_signed x) /\ bd_cmx_new b = Some (in_cmx_new x)
  /\ bd_gov_comm b = Some (in_gov_comm x)
  /\ (exists l, bd_gov_nullifiers_blob b = Some l /\ in_gov_nullifiers x = chunks 32 l)
  /\ bd_alpha b = Some (in_alpha x) /\ bd_pczt_sighash b = Some (in_pczt_sighash x)
  /\ bd_tx1_effects b = Some (in_tx1_effects x).
Proof.
  intros Hx. unfold check_stored_inputs in Hx.
  destruct (map_err _ _) as [cols|] eqn:Er; [|done]. apply map_err_ok in Er.
  unfold read_stored_inputs in Er. ok_inv Er. subst cols. ok_inv Hx. read_columns.
  subst x. cbn. split_and!; try done. by eexists.
Qed.

Lemma array32_vec_ok label l l' : array32_vec label l = Ok l' -> l' = l.
Proof. intros Hl. by apply array32_from_ok in Hl as [? _]. Qed.

(** The submission of a proved bundle repeats the hashed inputs. *)
Lemma submission_of_inputs d wallet round bundle b p x sig s :
  proved_bundle d (round, wallet, bundle) = Some (b, p) ->
  check_stored_inputs b p = Ok x ->
  submission_with_conn d wallet round bundle sig = Ok s ->
  s = mk_submission (in_proof x) (in_rk x) (in_nf_signed x) (in_cmx_new x) (in_gov_comm x)
        (in_gov_nullifiers x) (in_alpha x) round sig (in_pczt_sighash x) (in_tx1_effects x).
Proof.
  intros Hb Hx Hs. apply inputs_columns in Hx as (Ep&Er&En&Ec&Eg&(l&El&Hl)&Ea&Es&Et).
  assert (tb_bundles d !! (round, wallet, bundle) = Some b) as Hrow.
  { unfold proved_bundle in Hb. destruct (tb_bundles d !! _) as [b'|]; [|done].
    cbn in Hb. destruct (tb_proofs d !! _) as [p'|]; [|done]. cbn in Hb. case_match; by simplify_eq. }
  unfold submission_with_conn, load_delegation_submission_data, load_pczt_sighash in Hs.
  rewrite Hb, Hrow in Hs. unfold read_submission_columns in Hs. cbn [ok_or] in Hs.
  rewrite Ep, Er, En, Ec, Eg, El, Ea, Es, Et in Hs. cbn [get ok_or map_err] in Hs.
  unfold get in Hs. cbn [ok_or map_err] in Hs. ok_inv Hs. unfold array32x_bundle_note_slots in *.
  ok_inv E. subst a. cbn [sd_proof sd_rk sd_nf_signed sd_cmx_new sd_gov_comm sd_gov_nullifiers
    sd_alpha sd_vote_round_id sd_tx1_effects] in *.
  ok_inv E6. apply array32_vec_ok in E6. read_columns. subst. by rewrite Hl.
Qed.

(** ** What a derivation is made of *)
Definition submission_of (i : ChainSubmissionIdentity) (x : DelegationGenerationInputs)
    (sig : list Z) : DelegationSubmission :=
  mk_submission (in_proof x) (in_rk x) (in_nf_signed x) (in_cmx_new x) (in_gov_comm x)
    (in_gov_nullifiers x) (in_alpha x) (hex_encode (vote_round_id i)) sig (in_pczt_sighash x)
    (in_tx1_effects x).

Definition batch_layout (l : list VoteRecoveryBundle) : ExpectedTreeLayout :=
  LVoteBatch (default [] (vr_vote_authority_note_new <$> list.last l)) (map vr_vote_commitment l).

Definition content_bound (i : ChainSubmissionIdentity) (c : GenerationContent) : BoundGeneration :=
  let g := finish sha256 i (content_transcript i c) in
  match c with
  | CDelegation x => generation_bound g (in_gov_comm x)
  | CImported gov_comm _ => generation_bound g gov_comm
  | CVotes l =>
      match target i, l with
      | Vote p, r :: _ => mk_bound g (LVote (vr_vote_authority_note_new r) (vr_vote_commitment r)) [p]
      | _, _ => mk_bound g (batch_layout l) (map vr_proposal_id l)
      end
  | CCombined _ l => mk_bound g (batch_layout l) (map vr_proposal_id l)
  end.

Definition content_request (i : ChainSubmissionIdentity) (c : GenerationContent) (sig : list Z)
    : result ChainSubmissionRequest VotingError :=
  match c with
  | CDelegation x => let? w := delegation_wire (submission_of i x sig) in Ok (QDelegation w)
  | CImported _ hash => Ok (QImportedDelegation hash)
  | CVotes l =>
      let? ws := try_map wire_submission_from_recovery l in
      match target i, ws with
      | Vote _, w :: _ => Ok (QVote w)
      | _, _ => Ok (QVoteBatch (mk_batch_wire ws))
      end
  | CCombined x l =>
      let? w := delegation_wire (submission_of i x sig) in
      let? ws := try_map wire_submission_from_recovery l in
      Ok (QDelegateAndVoteBatch (mk_combined_wire w (mk_batch_wire ws)))
  end.

(** A derivation for [i] that was made of [c]. *)
Definition made_of (i : ChainSubmissionIdentity) (c : GenerationContent)
    (x : DerivedChainSubmission) : Prop :=
  content_fits i c /\ derived_bound x = content_bound i c
  /\ exists sig, content_request i c sig = Ok (derived_request x).

Lemma identity_context_ok d i r : validate_identity_context d i = Ok r -> r = hex_encode (vote_round_id i).
Proof. unfold validate_identity_context. intros Hr. by ok_inv Hr. Qed.

Lemma delegation_inputs_ok d i round x :
  load_delegation_inputs d i round = Ok (Some x) ->
  exists b p, proved_bundle d (round, wallet_id i, bundle_index i) = Some (b, p)
    /\ check_stored_inputs b p = Ok x.
Proof.
  unfold load_delegation_inputs. destruct (proved_bundle _ _) as [[b p]|]; [|done].
  destruct (check_stored_inputs b p) eqn:E; [|done]. intros; simplify_eq. by exists b, p.
Qed.

Lemma generation_for_delegation_ok d i bound :
  generation_for_delegation d i = Ok bound ->
  target i = Delegation /\ exists x,
    load_delegation_inputs d i (hex_encode (vote_round_id i)) = Ok (Some x)
    /\ bound = content_bound i (CDelegation x).
Proof.
  unfold generation_for_delegation, complete_generation_for_delegation. intros Hb.
  destruct (negb _) eqn:Et; [done|]. apply negb_false_iff, bool_decide_eq_true in Et.
  destruct (validate_identity_context d i) as [r|] eqn:Er; [|done].
  apply identity_context_ok in Er as ->.
  destruct (load_delegation_inputs d i _) as [[x|]|] eqn:Ex; cbn in Hb; [|done|done].
  simplify_eq. split; [done|]. by exists x.
Qed.

Lemma derive_delegation_ok d i sig x :
  derive_delegation d i sig = Ok x -> exists inputs,
    load_delegation_inputs d i (hex_encode (vote_round_id i)) = Ok (Some inputs)
    /\ made_of i (CDelegation inputs) x.
Proof.
  unfold derive_delegation. intros Hx. ok_inv Hx.
  apply generation_for_delegation_ok in E as (Ht&inputs&Hi&->).
  exists inputs. split; [done|]. split; [by unfold content_fits; rewrite Ht|].
  subst x. split; [done|]. exists sig. cbn.
  destruct (delegation_inputs_ok _ _ _ _ Hi) as (b&p&Hb&Hc).
  pose proof (submission_of_inputs _ _ _ _ _ _ _ _ _ Hb Hc E0) as ->.
  unfold submission_of. by rewrite E1.
Qed.

Lemma derive_imported_ok d i x :
  derive_imported_delegation d i = Ok x -> exists gov_comm hash,
    wf_bytes32 gov_comm /\ wf_bytes32 hash /\ made_of i (CImported gov_comm hash) x.
Proof.
  unfold derive_imported_delegation, generation_for_imported_delegation. intros Hx.
  destruct (negb _) eqn:Et; [done|]. apply negb_false_iff, bool_decide_eq_true in Et.
  ok_inv Hx. subst x. ok_inv E. simplify_eq.
  match goal with E : checked_blob32 _ _ = Ok _ |- _ => apply checked_blob32_ok in E as [-> ?] end.
  match goal with E : ok_or (candidate_from_str _) _ = Ok _ |- _ => apply ok_or_ok in E as Hc end.
  unfold candidate_from_str in Hc. repeat case_match; simplify_eq.
  eexists _, _. split; [done|]. split; [|split; [by unfold content_fits; rewrite Et|]].
  - match goal with E : bool_decide (length _ = 32%nat) = true |- _ =>
      by apply bool_decide_eq_true in E end.
  - split; [done|]. by exists [].
Qed.

(** *** Votes *)
Lemma recovery_bundle_ok d wallet round bundle proposal r :
  recovery_bundle_with_conn d wallet round bundle proposal = Ok (Some r) ->
  exists v json, tb_votes d !! (round, wallet, bundle, proposal) = Some v
    /\ vt_commitment_bundle_json v = Some json /\ parse_recovery json = Ok r.
Proof.
  unfold recovery_bundle_with_conn, recovery_json_with_conn.
  destruct (tb_votes d !! _) as [v|]; cbn; [|done].
  destruct (vt_commitment_bundle_json v) as [json|] eqn:Ej; [|done].
  destruct (parse_recovery json) eqn:Ep; [|done]. intros; simplify_eq. by exists v, json.
Qed.

Lemma validated_vote_ok d i round proposal r :
  load_validated_vote d i round proposal = Ok r ->
  exists v json, tb_votes d !! (round, wallet_id i, bundle_index i, proposal) = Some v
    /\ vt_commitment_bundle_json v = Some json /\ parse_recovery json = Ok r
    /\ validate_recovery_matches_stored_vote r round (bundle_index i) proposal
         (vt_choice v) (vt_commitment v) = Ok tt.
Proof.
  unfold load_validated_vote. intros Hr.
  destruct (recovery_bundle_with_conn _ _ _ _ _) as [[r'|]|] eqn:Eb; cbn in Hr; [|done|done].
  destruct (tb_votes d !! _) as [v|] eqn:Ev; cbn in Hr; [|done].
  destruct (validate_recovery_matches_stored_vote _ _ _ _ _ _) as [[]|] eqn:Em; [|done].
  simplify_eq. apply recovery_bundle_ok in Eb as (v'&json&Hv&Hj&Hp).
  rewrite Ev in Hv. simplify_eq. by exists v', json.
Qed.

Lemma validated_vote_valid d i round proposal r :
  stored_types d -> load_validated_vote d i round proposal = Ok r -> valid_recovery r.
Proof.
  intros Hd (v&json&Hv&Hj&Hp&_)%validated_vote_ok.
  eapply parsed_is_valid; [|exact Hp]. by eapply (ty_json d Hd).
Qed.

Lemma derive_vote_ok d i x :
  derive_vote d i = Ok x ->
  exists r, (stored_types d -> valid_recovery r) /\ made_of i (CVotes [r]) x.
Proof.
  unfold derive_vote, validated_singleton_vote. intros Hx.
  destruct (target i) as [|p|?|?] eqn:Et; [done| |done|done]. ok_inv Hx. ok_inv E. simplify_eq.
  match goal with E : load_validated_vote _ _ _ _ = Ok ?r |- _ =>
    exists r; split; [intros; by eapply validated_vote_valid|] end.
  split; [by unfold content_fits; rewrite Et|]. unfold content_bound, content_request. cbn.
  rewrite Et. split; [done|]. exists []. cbn.
  match goal with E : wire_submission_from_recovery _ = _ |- _ => by rewrite E end.
Qed.

(** *** Batches *)
Lemma try_map_Forall {A B E} (f : A -> result B E) (P : B -> Prop) l bs :
  (forall a b, a ∈ l -> f a = Ok b -> P b) -> try_map f l = Ok bs -> Forall P bs.
Proof.
  revert bs. induction l as [|a l IH]; intros bs Hf Hbs; cbn in Hbs; [by simplify_eq|].
  destruct (f a) as [b|] eqn:Ea; [|done]. destruct (try_map f l) as [cs|] eqn:El; [|done].
  simplify_eq. constructor; [eapply Hf; [by left|done]|]. apply IH; [|done].
  intros a' b' Ha'. apply Hf. by right.
Qed.

Lemma bundle_texts_sized d wallet round bundle :
  stored_types d ->
  Forall (fun s => Z.of_nat (String.length s) <= SQLITE_MAX_LENGTH)
    (bundle_recovery_texts d wallet round bundle).
Proof.
  intros Hd. apply Forall_forall. intros s Hs. unfold bundle_recovery_texts in Hs.
  apply list_elem_of_In, list_elem_of_omap in Hs as ([[[[r w] b] p] v]&Hin&Hs).
  apply elem_of_map_to_list in Hin. case_bool_decide; [|done]. by eapply (ty_json d Hd).
Qed.

Lemma batch_members_ok d wallet round bundle digest ms :
  load_vote_batch_recoveries_with_conn d wallet round bundle digest = Ok ms ->
  exists cs, try_map parse_recovery (bundle_recovery_texts d wallet round bundle) = Ok cs
    /\ (stored_types d -> Forall valid_recovery cs) /\ assembled round digest cs ms.
Proof.
  unfold load_vote_batch_recoveries_with_conn. intros Hms. ok_inv Hms.
  exists a. split; [done|]. split; [intros Hd|by eapply assemble_ok].
  eapply try_map_Forall; [|exact E]. intros s r Hs Hr. eapply parsed_is_valid; [|exact Hr].
  pose proof (bundle_texts_sized d wallet round bundle Hd) as Hf.
  rewrite Forall_forall in Hf. by apply Hf, list_elem_of_In.
Qed.

Lemma members_valid r dg cs ms :
  assembled r dg cs ms -> Forall valid_recovery cs -> Forall valid_recovery ms.
Proof.
  intros Ha Hc. apply Forall_forall. intros x Hx.
  apply list_elem_of_In, (as_members _ _ _ _ Ha) in Hx as [Hx _].
  rewrite Forall_forall in Hc. by apply Hc, list_elem_of_In.
Qed.

Lemma validate_members_proposals d i round anchor dg ms ps :
  validate_members d i round anchor dg ms = Ok ps -> ps = map vr_proposal_id ms.
Proof.
  revert ps. induction ms as [|m ms IH]; intros ps Hps; cbn in Hps; [by simplify_eq|].
  ok_inv Hps. subst ps. cbn. f_equal. by apply IH.
Qed.

(** The content of a batch: votes alone, or the delegation with its votes. *)
Lemma validated_batch_ok d i bound ms :
  validated_vote_batch d i = Ok (bound, ms) ->
  exists c, content_fits i c /\ bound = content_bound i c
    /\ (stored_types d -> Forall valid_recovery ms /\ Z.of_nat (length ms) <= u32_max)
    /\ ((c = CVotes ms /\ is_combined (target i) = false)
        \/ exists x, c = CCombined x ms /\ is_combined (target i) = true
             /\ load_delegation_inputs d i (hex_encode (vote_round_id i)) = Ok (Some x)).
Proof.
  intros Hb. unfold validated_vote_batch in Hb.
  destruct (batch_digest (target i)) as [dg|] eqn:Et; [|done].
  destruct (validate_identity_context d i) as [r|] eqn:Er; [|done].
  apply identity_context_ok in Er as ->. ok_inv Hb. simplify_eq.
  match goal with E : load_vote_batch_recoveries_with_conn _ _ _ _ _ = _ |- _ =>
    apply batch_members_ok in E as (cs&_&Hcs&Ha) end.
  match goal with E : validate_members _ _ _ _ _ _ = _ |- _ =>
    apply validate_members_proposals in E as -> end.
  destruct ms as [|m ms]; [by destruct (as_nonempty _ _ _ _ Ha)|].
  assert (stored_types d -> Forall valid_recovery (m :: ms)
          /\ Z.of_nat (length (m :: ms)) <= u32_max) as Hms.
  { intros Hd. split; [by eapply members_valid, Hcs|].
    apply (members_count _ _ _ _ m Ha (Hcs Hd) eq_refl). }
  clear Hcs.
  match goal with E : negb (bool_decide (bool_decide _ = _)) = false |- _ =>
    apply negb_false_iff, bool_decide_eq_true in E; rename E into Hk end.
  match goal with E : batch_generation _ _ _ _ _ _ = Ok _ |- _ => rename E into Hg end.
  unfold batch_generation in Hg. cbn [head mbind option_bind] in Hg, Hk.
  destruct (delegation_van_of m) as [van|].
  - rewrite bool_decide_eq_true_2 in Hk by done. ok_inv Hg. subst.
    match goal with E : ok_or _ _ = Ok _ |- _ => apply ok_or_ok in E; subst end.
    eexists. split; [|split; [|split; [done|]]]; last first.
    { right. eexists. split; [done|]. by split; [done|]. }
    + done.
    + unfold content_fits. destruct (target i); by cbn in *.
  - rewrite bool_decide_eq_false_2 in Hk by (by intros [? ?]). simplify_eq.
    exists (CVotes (m :: ms)).
    assert (exists dg', target i = VoteBatch dg') as [dg' Ht].
    { destruct (target i); cbn in *; try done. by eexists. }
    split; [by unfold content_fits; rewrite Ht|]. split; [by unfold content_bound; rewrite Ht|].
    split; [done|]. by left.
Qed.

Lemma recover_submission_ok d i digest w x :
  load_delegation_inputs d i (hex_encode (vote_round_id i)) = Ok (Some x) ->
  recover_submission d (wallet_id i) (hex_encode (vote_round_id i)) (bundle_index i) digest = Ok w ->
  exists sig, delegation_wire (submission_of i x sig) = Ok w.
Proof.
  intros (b&p&Hb&Hc)%delegation_inputs_ok Hw. unfold recover_submission in Hw. ok_inv Hw.
  match goal with E : submission_with_conn _ _ _ _ ?sig = Ok _ |- _ =>
    exists sig; pose proof (submission_of_inputs _ _ _ _ _ _ _ _ _ Hb Hc E) as ->
  end.
  done.
Qed.

Lemma derive_vote_batch_ok d i x :
  derive_vote_batch d i = Ok x ->
  exists c ms, made_of i c x
    /\ (stored_types d -> Forall valid_recovery ms /\ Z.of_nat (length ms) <= u32_max)
    /\ (c = CVotes ms
        \/ exists inputs, c = CCombined inputs ms
             /\ load_delegation_inputs d i (hex_encode (vote_round_id i)) = Ok (Some inputs)).
Proof.
  intros Hx. unfold derive_vote_batch in Hx.
  destruct (validated_vote_batch d i) as [[bound ms]|] eqn:Eb; [|done].
  destruct (try_map wire_submission_from_recovery ms) as [ws|] eqn:Ew; [|done].
  destruct (validated_batch_ok d i bound ms Eb)
    as (c&Hf&->&Hms&[[-> Hk]|(inputs&->&Hk&Hi)]); rewrite Hk in Hx.
  - simplify_eq. exists (CVotes ms), ms. split; [|split; [done|by left]].
    split; [done|]. split; [done|]. exists []. cbn. rewrite Ew.
    unfold content_fits in Hf. destruct (target i) as [|p|dg|dg] eqn:Et; try done.
    unfold validated_vote_batch in Eb. by rewrite Et in Eb.
  - destruct (recover_submission _ _ _ _ _) as [w|] eqn:Er; [|done]. ok_inv Hx. subst x.
    destruct (recover_submission_ok _ _ _ _ _ Hi Er) as [sig Hsig].
    exists (CCombined inputs ms), ms. split; [|split; [done|right; by exists inputs]].
    split; [done|]. split; [done|]. exists sig. cbn. by rewrite Hsig, Ew.
Qed.

Lemma loaded_inputs_wf d i round x :
  stored_types d -> load_delegation_inputs d i round = Ok (Some x) -> wf_inputs x.
Proof.
  intros Hd (b&p&Hb&Hc)%delegation_inputs_ok. unfold proved_bundle in Hb.
  destruct (tb_bundles d !! _) as [b'|] eqn:E1; [|done]. cbn in Hb.
  destruct (tb_proofs d !! _) as [p'|] eqn:E2; [|done]. cbn in Hb. case_match; [|done].
  simplify_eq. eapply inputs_wf; [exact Hc| | |]; intros; [by eapply ty_positions|
    by eapply ty_total|by eapply ty_proofs].
Qed.

(** Every derivation is made of content of its identity's kind, typed when
    the stored values are. *)
Lemma derivation_made d q x :
  derive_submission d q = Ok x ->
  exists c, made_of (derivation_identity q) c x /\ (stored_types d -> wf_content c)
    /\ match c with
       | CImported _ hash => wf_bytes32 hash /\ exists i, q = DImportedDelegation i
       | _ => True
       end.
Proof.
  intros Hx. destruct q as [i sig|i|i|i]; cbn in Hx |- *.
  - apply derive_delegation_ok in Hx as (inputs&Hi&Hx). exists (CDelegation inputs).
    split_and!; [done|intros; by eapply loaded_inputs_wf|done].
  - apply derive_imported_ok in Hx as (g&h&Hg&Hh&Hx). exists (CImported g h).
    split_and!; [done|done|done|by exists i].
  - apply derive_vote_ok in Hx as (r&Hr&Hx). exists (CVotes [r]). split_and!; [done| |done].
    intros Hd. split; [by vm_compute|]. constructor; [by apply Hr|constructor].
  - apply derive_vote_batch_ok in Hx as (c&ms&Hx&Hms&[->|(inputs&->&Hi)]);
      (eexists; split_and!; [exact Hx| |done]); intros Hd; destruct (Hms Hd) as [Hv Hn].
    + split; [done|]. eapply Forall_impl; [|exact Hv]. by intros r (?&_).
    + split; [by eapply loaded_inputs_wf|]. split; [done|].
      eapply Forall_impl; [|exact Hv]. by intros r (?&_).
Qed.

Lemma derivation_content d q x :
  stored_types d -> derive_submission d q = Ok x ->
  exists c, wf_content c /\ made_of (derivation_identity q) c x.
Proof. intros Hd (c&Hx&Hc&_)%derivation_made. eauto. Qed.

(** ** The digest binds the submission *)
Definition unsigned_delegation (w : DelegationSubmissionWire) : DelegationSubmissionWire :=
  mk_delegation_wire (dw_rk w) [] (dw_tx1_effects w) (dw_nf_signed w) (dw_cmx_new w)
    (dw_gov_comm w) (dw_gov_nullifiers w) (dw_proof w) (dw_vote_round_id w).

(** A request up to the delegation's signature, which a wallet may renew. *)
Definition unsigned_request (q : ChainSubmissionRequest) : ChainSubmissionRequest :=
  match q with
  | QDelegation w => QDelegation (unsigned_delegation w)
  | QDelegateAndVoteBatch w =>
      QDelegateAndVoteBatch (mk_combined_wire (unsigned_delegation (cw_delegation w)) (cw_batch w))
  | _ => q
  end.

Lemma same_vote_wire a b :
  same_vote a b -> wire_submission_from_recovery a = wire_submission_from_recovery b.
Proof.
  unfold same_vote, hashed_part, wire_submission_from_recovery. intros E.
  by injection E as -> _ -> _ -> _ _ -> -> -> -> _ -> _ -> _ _ _ _.
Qed.

Lemma same_votes_wires l m :
  Forall2 same_vote l m ->
  try_map wire_submission_from_recovery l = try_map wire_submission_from_recovery m.
Proof.
  induction 1 as [|a b l m Hab _ IH]; [done|]. cbn. by rewrite (same_vote_wire a b Hab), IH.
Qed.

Lemma same_votes_layout l m :
  Forall2 same_vote l m ->
  batch_layout l = batch_layout m /\ map vr_proposal_id l = map vr_proposal_id m.
Proof.
  intros Hlm. split.
  - unfold batch_layout. f_equal.
    + f_equal. rewrite <- !fmap_last. f_equal.
      induction Hlm as [|a b l m Hab _ IH]; [done|]. cbn. f_equal; [|done].
      by apply (f_equal vr_vote_authority_note_new) in Hab.
    + induction Hlm as [|a b l m Hab _ IH]; [done|]. cbn. f_equal; [|done].
      by apply (f_equal vr_vote_commitment) in Hab.
  - induction Hlm as [|a b l m Hab _ IH]; [done|]. cbn. f_equal; [|done].
    by apply (f_equal vr_proposal_id) in Hab.
Qed.

Lemma delegation_wire_unsigned i x s s' w w' :
  delegation_wire (submission_of i x s) = Ok w -> delegation_wire (submission_of i x s') = Ok w' ->
  unsigned_delegation w = unsigned_delegation w'.
Proof.
  unfold delegation_wire, submission_of. cbn. destruct (b64_hex _ _); [|done].
  intros; by simplify_eq.
Qed.

Lemma same_content_derivation i c c' x x' :
  same_content c c' -> content_transcript i c = content_transcript i c' ->
  made_of i c x -> made_of i c' x' ->
  derived_bound x = derived_bound x'
  /\ unsigned_request (derived_request x) = unsigned_request (derived_request x').
Proof.
  intros Hcc Ht (Hf&->&s&Hs) (Hf'&->&s'&Hs').
  destruct c as [y|g h|l|y l], c' as [y'|g' h'|m|y' m]; try done; cbn [same_content] in Hcc.
  - subst y'. split; [done|]. cbn in Hs, Hs'. ok_inv Hs. ok_inv Hs'.
    rewrite <- Hs, <- Hs'. cbn. f_equal. by eapply delegation_wire_unsigned.
  - destruct Hcc as [<- <-]. split; [done|]. cbn in Hs, Hs'.
    by injection Hs as <-; injection Hs' as <-.
  - destruct (same_votes_layout l m Hcc) as [Hl Hp]. cbn in Hs, Hs'.
    rewrite (same_votes_wires l m Hcc) in Hs. split.
    + unfold content_bound. rewrite Ht, Hl, Hp. destruct (target i); try done.
      destruct Hcc as [|a b l m Hab _]; [done|].
      by apply (f_equal (fun r => (vr_vote_authority_note_new r, vr_vote_commitment r))) in Hab
        as [= -> ->].
    + rewrite Hs in Hs'. by injection Hs' as ->.
  - destruct Hcc as [<- Hlm]. destruct (same_votes_layout l m Hlm) as [Hl Hp]. split.
    + unfold content_bound. by rewrite Ht, Hl, Hp.
    + cbn in Hs, Hs'. rewrite (same_votes_wires l m Hlm) in Hs. ok_inv Hs. ok_inv Hs'.
      rewrite <- Hs, <- Hs'. cbn. simplify_eq. do 2 f_equal. by eapply delegation_wire_unsigned.
Qed.

(** C4 (generation digest): two submissions derived at any time, from any
    stored state, with the same digest have the same identity, the same
    expected leaves and roster, and the same wire request up to the
    delegation's signature, or exhibit a collision of SHA-256. *)
Theorem generation_digest_binds d d' q q' x x' :
  stored_types d -> stored_types d' ->
  wf_identity (derivation_identity q) -> wf_identity (derivation_identity q') ->
  derive_submission d q = Ok x -> derive_submission d' q' = Ok x' ->
  gen_digest (derived_generation x) = gen_digest (derived_generation x') ->
  collision sha256
  \/ (derived_bound x = derived_bound x'
      /\ unsigned_request (derived_request x) = unsigned_request (derived_request x')).
Proof.
  intros Hd Hd' Hi Hi' (c&Hc&Hm)%derivation_content (c'&Hc'&Hm')%derivation_content Hg; [|done..].
  assert (forall i c x, made_of i c x ->
            gen_digest (derived_generation x) = sha256 (content_transcript i c)) as Hdig.
  { intros i e y (_&He&_). unfold derived_generation. rewrite He. unfold content_bound.
    destruct e as [| |l|]; try done. by destruct (target i), l. }
  rewrite (Hdig _ _ _ Hm), (Hdig _ _ _ Hm') in Hg.
  apply same_or_collision in Hg as [Hg|Hg]; [right|by left].
  destruct (transcript_injective _ _ _ _ Hi Hi' Hc Hc' (proj1 Hm) (proj1 Hm') Hg) as [Hii Hcc].
  rewrite <- Hii in Hm', Hg. by eapply same_content_derivation.
Qed.
End proofs.

(** ** At concrete tables *)
Definition all_rows {K A} `{Countable K} (p : A -> bool) (m : gmap K A) : bool :=
  forallb (fun kv => p kv.2) (map_to_list m).

Lemma all_rows_lookup {K A} `{Countable K} (p : A -> bool) (m : gmap K A) k a :
  all_rows p m = true -> m !! k = Some a -> p a = true.
Proof.
  intros Hp Hk. unfold all_rows in Hp. rewrite forallb_forall in Hp.
  apply (Hp (k, a)), list_elem_of_In, elem_of_map_to_list, Hk.
Qed.

Definition option_check {A} (p : A -> bool) (o : option A) : bool :=
  match o with Some a => p a | None => true end.

Definition stored_types_check (d : VotingTables) : bool :=
  all_rows (fun b => option_check (forallb (fun x => (0 <=? x) && (x <=? 255)))
      (bd_note_positions_blob b)
    && option_check (fun v => v <=? i64_max) (bd_total_note_value b)) (tb_bundles d)
  && all_rows (fun p => option_check (fun x => Z.of_nat (length x) <=? SQLITE_MAX_LENGTH) (pf_proof p))
       (tb_proofs d)
  && all_rows (fun v => option_check (fun s => Z.of_nat (String.length s) <=? SQLITE_MAX_LENGTH)
       (vt_commitment_bundle_json v)) (tb_votes d).

Lemma stored_types_checked d : stored_types_check d = true -> stored_types d.
Proof.
  unfold stored_types_check. rewrite !andb_true_iff. intros [[Hb Hp] Hv]. split.
  - intros k b l Hk Hl. pose proof (all_rows_lookup _ _ _ _ Hb Hk) as Hc. cbn in Hc.
    apply andb_true_iff in Hc as [Hc _]. rewrite Hl in Hc. cbn in Hc. rewrite forallb_forall in Hc.
    apply Forall_forall. intros x Hx.
    assert ((0 <=? x) && (x <=? 255) = true); [|unfold is_u8, u8_max; lia].
    apply Hc. first [exact Hx|by apply list_elem_of_In].
  - intros k b v Hk Hl. pose proof (all_rows_lookup _ _ _ _ Hb Hk) as Hc. cbn in Hc.
    apply andb_true_iff in Hc as [_ Hc]. rewrite Hl in Hc. cbn in Hc. lia.
  - intros k p x Hk Hl. pose proof (all_rows_lookup _ _ _ _ Hp Hk) as Hc. cbn in Hc.
    rewrite Hl in Hc. cbn in Hc. unfold storable. lia.
  - intros k v s Hk Hl. pose proof (all_rows_lookup _ _ _ _ Hv Hk) as Hc. cbn in Hc.
    rewrite Hl in Hc. cbn in Hc. lia.
Qed.

(** The example vote, derived twice. *)
Lemma generation_digest_binds_witness :
  let d := example_tables [example_recovery 3 0 None] in
  let derived := @derive_submission example_externals example_text example_recovery_externals
    example_domain_externals d (DVote example_identity) in
  exists x, derived = Ok x
    /\ (collision (@sha256 example_domain_externals) \/ derived_bound x = derived_bound x).
Proof.
  intros d derived.
  assert (match derived with Ok _ => true | Err _ => false end = true) as Hok
    by (vm_compute; reflexivity).
  destruct derived as [x|] eqn:Hx; [|discriminate Hok]. exists x. split; [reflexivity|].
  assert (stored_types d) as Hd by (apply stored_types_checked; vm_compute; reflexivity).
  destruct (@generation_digest_binds example_externals example_text example_recovery_externals
    example_domain_externals d d (DVote example_identity) (DVote example_identity) x x Hd Hd
    example_identity_wf example_identity_wf Hx Hx eq_refl) as [Hc|[Hb _]]; [left|right]; assumption.
Defined.
