(* ===== verification/Projection.v ===== *)
(** * Projection of confirmations and rejections

    Models what a confirmed or terminally rejected submission does to the
    voting tables inside the lifecycle's transaction: [confirmation.rs] of the
    crate, [apply_confirmed_generation] and
    [retire_rejected_combined_generation] of
    [chain_submission/confirmation.rs], and the writes of [vote.rs] and
    [storage/queries] they make, with the schema's triggers. The tables are an
    instance of the store's [SubmissionDomain]. *)

From stdpp Require Import base gmap strings list numbers.
From Stdlib Require Import ZifyBool.
From S2P Require Import Prelude Identity Outcome Lifecycle Record Confirmation Rows Store.
From S2P Require Import Coordinator Recovery Protocol SampleCodec VoteRecovery Transcript.
From S2P Require Import Generation SampleTables GenerationProofs.
Local Open Scope Z_scope.
Local Open Scope voting_scope.

(** ** Writing to the tables *)
Definition with_bundles (d : VotingTables) (m : gmap BundleId BundleRow) : VotingTables :=
  mk_tables (tb_rounds d) m (tb_proofs d) (tb_votes d) (tb_helper_share_plans d)
    (tb_share_delegations d) (tb_ballot_intent d) (tb_round_immediate_share d)
    (tb_delegate_cast_recovery d) (tb_combined_cast_rejections d).
Definition with_votes (d : VotingTables) (m : gmap VoteId VoteRow) : VotingTables :=
  mk_tables (tb_rounds d) (tb_bundles d) (tb_proofs d) m (tb_helper_share_plans d)
    (tb_share_delegations d) (tb_ballot_intent d) (tb_round_immediate_share d)
    (tb_delegate_cast_recovery d) (tb_combined_cast_rejections d).
Definition with_plans (d : VotingTables) (m : gmap VoteId string) : VotingTables :=
  mk_tables (tb_rounds d) (tb_bundles d) (tb_proofs d) (tb_votes d) m
    (tb_share_delegations d) (tb_ballot_intent d) (tb_round_immediate_share d)
    (tb_delegate_cast_recovery d) (tb_combined_cast_rejections d).
Definition with_shares (d : VotingTables) (s : gset (VoteId * Z)) : VotingTables :=
  mk_tables (tb_rounds d) (tb_bundles d) (tb_proofs d) (tb_votes d) (tb_helper_share_plans d)
    s (tb_ballot_intent d) (tb_round_immediate_share d)
    (tb_delegate_cast_recovery d) (tb_combined_cast_rejections d).
Definition with_designations (d : VotingTables) (m : gmap RoundId DesignationRow) : VotingTables :=
  mk_tables (tb_rounds d) (tb_bundles d) (tb_proofs d) (tb_votes d) (tb_helper_share_plans d)
    (tb_share_delegations d) (tb_ballot_intent d) m
    (tb_delegate_cast_recovery d) (tb_combined_cast_rejections d).
Definition with_authorizations (d : VotingTables) (m : gmap (BundleId * list Z) AuthorizationRow)
    : VotingTables :=
  mk_tables (tb_rounds d) (tb_bundles d) (tb_proofs d) (tb_votes d) (tb_helper_share_plans d)
    (tb_share_delegations d) (tb_ballot_intent d) (tb_round_immediate_share d)
    m (tb_combined_cast_rejections d).
Definition with_rejections (d : VotingTables) (m : gmap BundleId RejectionRow) : VotingTables :=
  mk_tables (tb_rounds d) (tb_bundles d) (tb_proofs d) (tb_votes d) (tb_helper_share_plans d)
    (tb_share_delegations d) (tb_ballot_intent d) (tb_round_immediate_share d)
    (tb_delegate_cast_recovery d) m.

Definition row_with_van (b : BundleRow) (position : Z) : BundleRow :=
  mk_bundle_row (bd_note_positions_blob b) (bd_note_identity_hashes_blob b) (bd_van_comm_rand b)
    (bd_dummy_nullifiers b) (bd_rho_signed b) (bd_padded_note_data b) (bd_nf_signed b)
    (bd_cmx_new b) (bd_alpha b) (bd_rseed_signed b) (bd_rseed_output b) (bd_gov_comm b)
    (bd_total_note_value b) (bd_address_index b) (Some position) (bd_rk b)
    (bd_gov_nullifiers_blob b) (bd_padded_note_secrets b) (bd_pczt_sighash b) (bd_tx1_effects b)
    (bd_delegation_tx_hash b).
Definition row_with_hash (b : BundleRow) (hash : string) : BundleRow :=
  mk_bundle_row (bd_note_positions_blob b) (bd_note_identity_hashes_blob b) (bd_van_comm_rand b)
    (bd_dummy_nullifiers b) (bd_rho_signed b) (bd_padded_note_data b) (bd_nf_signed b)
    (bd_cmx_new b) (bd_alpha b) (bd_rseed_signed b) (bd_rseed_output b) (bd_gov_comm b)
    (bd_total_note_value b) (bd_address_index b) (bd_van_leaf_position b) (bd_rk b)
    (bd_gov_nullifiers_blob b) (bd_padded_note_secrets b) (bd_pczt_sighash b) (bd_tx1_effects b)
    (Some hash).

Section projection.
Context `{Externals} `{SqliteText} `{RecoveryExternals} `{DomainExternals}.
Implicit Types d : VotingTables.

(** *** The triggers on an update of a vote's recovery text

    Whether the update only fills in the confirmed position, as SQL decides
    it: NULL when one of the texts is. *)
Definition fills_position (old new : VoteRow) : option bool :=
  match vt_vc_tree_position old, vt_vc_tree_position new with
  | None, Some position =>
      match vt_commitment_bundle_json old, vt_commitment_bundle_json new with
      | Some before, Some after => Some (bool_decide (json_set_position before position = after))
      | _, _ => None
      end
  | _, _ => Some false
  end.

(** [clear_helper_share_plan_on_vote_generation_change]. *)
Definition update_plan (old new : VoteRow) (plan : string) : option string :=
  let plan :=
    if bool_decide (Some plan = vt_commitment_bundle_json old)
       && bool_decide (fills_position old new = Some true)
    then default plan (vt_commitment_bundle_json new) else plan in
  if bool_decide (Some plan = vt_commitment_bundle_json new) then Some plan else None.

(** [clear_round_immediate_share_on_vote_generation_change]. *)
Definition update_designation (key : VoteId) (old new : VoteRow) (row : DesignationRow)
    : option DesignationRow :=
  let '(_, _, bundle, proposal) := key in
  if bool_decide (fills_position old new = Some false)
     && (ds_bundle_index row =? bundle) && (ds_proposal_id row =? proposal)
  then None else Some row.

Definition run_vote_triggers d (key : VoteId) (old new : VoteRow) : VotingTables :=
  if bool_decide (vt_commitment_bundle_json old = vt_commitment_bundle_json new) then d
  else
    let '(round_id, wallet, _, _) := key in
    let d := with_plans d (partial_alter (fun p => p ≫= update_plan old new) key
                             (tb_helper_share_plans d)) in
    with_designations d (partial_alter (fun p => p ≫= update_designation key old new)
                           (round_id, wallet) (tb_round_immediate_share d)).

(** An UPDATE of one vote that names the recovery column. *)
Definition update_vote_text d (key : VoteId) (old new : VoteRow) : VotingTables :=
  run_vote_triggers (with_votes d (<[key := new]> (tb_votes d))) key old new.

(** ** Bundles *)
Definition bundle_not_found (round_id : string) (bundle : Z) : VotingError :=
  VInvalidInput (lit "bundle not found for round=" ++ lit round_id ++ lit ", bundle="
    ++ decimal bundle).

Definition load_bundle_confirmation_fields d (round_id wallet : string) (bundle : Z)
    : result (option string * option Z) VotingError :=
  match tb_bundles d !! (round_id, wallet, bundle) with
  | Some b => Ok (bd_delegation_tx_hash b, bd_van_leaf_position b)
  | None => Err (bundle_not_found round_id bundle)
  end.

Definition does_not_fit (position : Z) : VotingError :=
  VInvalidInput (lit "VAN leaf position " ++ decimal position
    ++ lit " does not fit in SQLite i64").

Definition store_van_position_u64 d (round_id wallet : string) (bundle position : Z)
    : result VotingTables VotingError :=
  if i64_max <? position then Err (does_not_fit position)
  else match tb_bundles d !! (round_id, wallet, bundle) with
       | None => Err (VInvalidInput (lit "bundle not found: round=" ++ lit round_id
           ++ lit ", bundle=" ++ decimal bundle))
       | Some b => Ok (with_bundles d (<[(round_id, wallet, bundle) := row_with_van b position]>
           (tb_bundles d)))
       end.

Definition wallet_bundle_text (round_id wallet : string) (bundle : Z) : text :=
  lit "round=" ++ lit round_id ++ lit ", wallet=" ++ lit wallet ++ lit ", bundle="
    ++ decimal bundle.

Definition store_delegation_tx_hash d (round_id wallet : string) (bundle : Z) (hash : string)
    : result VotingTables VotingError :=
  match tb_bundles d !! (round_id, wallet, bundle) with
  | None => Err (VInvalidInput (lit "no bundle found for "
      ++ wallet_bundle_text round_id wallet bundle))
  | Some b =>
      match bd_delegation_tx_hash b with
      | Some existing =>
          if bool_decide (existing = hash) then
            Ok (with_bundles d (<[(round_id, wallet, bundle) := row_with_hash b hash]> (tb_bundles d)))
          else Err (VInvalidInput (lit "delegation tx hash already recorded for "
                 ++ wallet_bundle_text round_id wallet bundle))
      | None =>
          Ok (with_bundles d (<[(round_id, wallet, bundle) := row_with_hash b hash]> (tb_bundles d)))
      end
  end.

(** ** Votes: the transaction hash ([storage/queries]) *)
Definition wallet_vote_text (round_id wallet : string) (bundle proposal : Z) : text :=
  wallet_bundle_text round_id wallet bundle ++ lit ", proposal=" ++ decimal proposal.

Definition ensure_vote_submission_matches_ballot_intent d (round_id wallet : string)
    (bundle proposal : Z) : result unit VotingError :=
  match tb_ballot_intent d !! (round_id, wallet, proposal) with
  | None => Ok tt
  | Some intent =>
      match tb_votes d !! (round_id, wallet, bundle, proposal) with
      | None => Ok tt
      | Some v =>
          if negb (it_skipped intent =? 0) then
            Err (VInvalidInput (lit "cannot record vote submission for skipped proposal "
              ++ wallet_vote_text round_id wallet bundle proposal))
          else match it_choice intent with
               | None => Err (VInvalidInput (lit "ballot intent choice missing for round="
                   ++ lit round_id ++ lit ", wallet=" ++ lit wallet ++ lit ", proposal="
                   ++ decimal proposal))
               | Some choice =>
                   if vt_choice v =? choice then Ok tt
                   else Err (VInvalidInput (lit "vote submission conflicts with ballot intent for "
                          ++ wallet_vote_text round_id wallet bundle proposal))
               end
      end
  end.

Definition intent_allows d (round_id wallet : string) (proposal choice : Z) : bool :=
  match tb_ballot_intent d !! (round_id, wallet, proposal) with
  | None => true
  | Some intent => (it_skipped intent =? 0) && bool_decide (it_choice intent = Some choice)
  end.

Definition row_with_tx_hash (v : VoteRow) (hash : string) : VoteRow :=
  mk_vote_row (vt_choice v) (vt_commitment v) (Some hash) (vt_vc_tree_position v)
    (vt_commitment_bundle_json v).

Definition record_vote_submission d (round_id wallet : string) (bundle proposal : Z) (hash : string)
    : result VotingTables VotingError :=
  let key := (round_id, wallet, bundle, proposal) in
  let? _ := ensure_vote_submission_matches_ballot_intent d round_id wallet bundle proposal in
  let missing := Err (VInvalidInput (lit "no vote found for "
    ++ wallet_vote_text round_id wallet bundle proposal)) in
  match tb_votes d !! key with
  | None => missing
  | Some v =>
      if (null (vt_tx_hash v) || bool_decide (vt_tx_hash v = Some hash))
         && intent_allows d round_id wallet proposal (vt_choice v)
      then Ok (with_votes d (<[key := row_with_tx_hash v hash]> (tb_votes d)))
      else match vt_tx_hash v with
           | Some existing =>
               if bool_decide (existing = hash) then Ok d
               else Err (VInvalidInput (lit "vote tx hash already recorded for "
                      ++ wallet_vote_text round_id wallet bundle proposal))
           | None => missing
           end
  end.

(** ** Votes: the tree position ([vote.rs]) *)
Definition vc_position_already_recorded_error (round_id : string) (bundle proposal : Z)
    : VotingError :=
  VInvalidInput (lit "vote commitment tree position already recorded for "
    ++ vote_text round_id bundle proposal).

Definition invalid_stored_vc_position_error (position : Z) : VotingError :=
  VInternal (lit "stored vc_tree_position must be non-negative, got " ++ decimal position).

Definition vote_identity_changed_error (round_id : string) (bundle proposal : Z)
    (action : string) : VotingError :=
  VInvalidInput (lit "vote changed while " ++ lit action ++ lit " for "
    ++ vote_text round_id bundle proposal ++ lit "; retry with the current ballot intent").

Definition handle_vote_identity_update_miss d (round_id wallet : string) (bundle proposal : Z)
    (choice : Z) (commitment : option (list Z)) (action : string) : result unit VotingError :=
  match tb_votes d !! (round_id, wallet, bundle, proposal) with
  | None => Err (vote_not_found_error round_id bundle proposal)
  | Some v =>
      if (vt_choice v =? choice) && bool_decide (vt_commitment v = commitment) then Ok tt
      else Err (vote_identity_changed_error round_id bundle proposal action)
  end.

Definition handle_vc_position_update_miss d (round_id wallet : string) (bundle proposal : Z)
    (position : Z) : result unit VotingError :=
  match tb_votes d !! (round_id, wallet, bundle, proposal) with
  | None => Err (vote_not_found_error round_id bundle proposal)
  | Some v =>
      match vt_vc_tree_position v with
      | Some existing =>
          if existing <? 0 then Err (invalid_stored_vc_position_error existing)
          else if negb (existing =? position) then
            Err (vc_position_already_recorded_error round_id bundle proposal)
          else Ok tt
      | None => Ok tt
      end
  end.

Definition recording : string := "recording vote commitment tree position".

(** The shared WHERE clause of the two position updates. *)
Definition position_update_matches (v : VoteRow) (choice : Z) (commitment : option (list Z))
    (position : Z) : bool :=
  (vt_choice v =? choice) && bool_decide (vt_commitment v = commitment)
  && (null (vt_vc_tree_position v) || bool_decide (vt_vc_tree_position v = Some position)).

Definition store_recovery_json_with_vc_position_if_unchanged d (wallet round_id : string)
    (bundle proposal choice : Z) (commitment : option (list Z)) (expected updated : string)
    (position : Z) : result VotingTables VotingError :=
  let key := (round_id, wallet, bundle, proposal) in
  let changed := vote_identity_changed_error round_id bundle proposal recording in
  let missed :=
    let? _ := handle_vote_identity_update_miss d round_id wallet bundle proposal choice commitment
      recording in
    match tb_votes d !! key with
    | None => Err (vote_not_found_error round_id bundle proposal)
    | Some v =>
        match vt_commitment_bundle_json v, vt_vc_tree_position v with
        | Some json, Some current =>
            if bool_decide (json = updated) && (current =? position) then Ok d
            else if negb (current =? position) then
              let? _ := handle_vc_position_update_miss d round_id wallet bundle proposal position in
              Ok d
            else Err changed
        | None, Some current =>
            if negb (current =? position) then
              let? _ := handle_vc_position_update_miss d round_id wallet bundle proposal position in
              Ok d
            else Err changed
        | _, None => Err changed
        end
    end in
  match tb_votes d !! key with
  | Some v =>
      if position_update_matches v choice commitment position
         && bool_decide (vt_commitment_bundle_json v = Some expected)
      then Ok (update_vote_text d key v
                 (mk_vote_row (vt_choice v) (vt_commitment v) (vt_tx_hash v) (Some position)
                    (Some updated)))
      else missed
  | None => missed
  end.

Definition store_vc_position_if_unset_or_same d (wallet round_id : string)
    (bundle proposal choice : Z) (commitment : option (list Z)) (position : Z)
    : result VotingTables VotingError :=
  let key := (round_id, wallet, bundle, proposal) in
  let missed :=
    let? _ := handle_vote_identity_update_miss d round_id wallet bundle proposal choice commitment
      recording in
    let? _ := handle_vc_position_update_miss d round_id wallet bundle proposal position in
    Ok d in
  match tb_votes d !! key with
  | Some v =>
      if position_update_matches v choice commitment position
      then Ok (with_votes d (<[key := mk_vote_row (vt_choice v) (vt_commitment v) (vt_tx_hash v)
                                  (Some position) (vt_commitment_bundle_json v)]> (tb_votes d)))
      else missed
  | None => missed
  end.

Definition check_stored_position (v : VoteRow) (round_id : string) (bundle proposal position : Z)
    : result unit VotingError :=
  match vt_vc_tree_position v with
  | Some stored =>
      if stored <? 0 then Err (invalid_stored_vc_position_error stored)
      else if negb (stored =? position) then
        Err (vc_position_already_recorded_error round_id bundle proposal)
      else Ok tt
  | None => Ok tt
  end.

Definition record_vc_position_with_conn d (wallet round_id : string) (bundle proposal position : Z)
    : result VotingTables VotingError :=
  if i64_max <? position then
    Err (VInvalidInput (lit "vc_tree_position " ++ decimal position
      ++ lit " does not fit in SQLite i64"))
  else match tb_votes d !! (round_id, wallet, bundle, proposal) with
  | None => Err (vote_not_found_error round_id bundle proposal)
  | Some v =>
      let? _ := check_stored_position v round_id bundle proposal position in
      match vt_commitment_bundle_json v with
      | Some json =>
          let? recovery := parse_recovery json in
          let? _ := validate_recovery_matches_stored_vote recovery round_id bundle proposal
            (vt_choice v) (vt_commitment v) in
          let? updated := serialize_recovery (with_position recovery position) in
          store_recovery_json_with_vc_position_if_unchanged d wallet round_id bundle proposal
            (vt_choice v) (vt_commitment v) json updated position
      | None =>
          store_vc_position_if_unset_or_same d wallet round_id bundle proposal (vt_choice v)
            (vt_commitment v) position
      end
  end.

Definition ensure_singleton_vote_update_with_conn d (wallet round_id : string)
    (bundle proposal : Z) : result unit VotingError :=
  match recovery_json_with_conn d wallet round_id bundle proposal with
  | None => Ok tt
  | Some json =>
      let? marked := map_err (fun e => VInvalidInput (lit "invalid vote recovery JSON: " ++ e))
        (json_has_batch_marker json) in
      if marked then Err (VInvalidInput (lit
        "vote belongs to an atomic batch; use the complete batch lifecycle instead of a per-vote API"))
      else Ok tt
  end.

(** ** Confirmations ([confirmation.rs] of the crate) *)
Definition require_tree_position (position : Z) (field : string) : result unit VotingError :=
  if TREE_CAPACITY <=? position then
    Err (VInvalidInput (lit field ++ lit " " ++ decimal position
      ++ lit " exceeds the commitment-tree capacity"))
  else Ok tt.

Definition require_tx_hash (hash : string) : result unit VotingError :=
  if bool_decide (trim (lit hash) = []) then
    Err (VInvalidInput (lit "tx_hash must not be empty"))
  else Ok tt.

Definition check_text_conflict (existing : option string) (requested field : string)
    : result unit VotingError :=
  match existing with
  | Some stored =>
      if bool_decide (stored = requested) then Ok tt
      else Err (VInvalidInput (lit field ++ lit " conflict: stored " ++ lit stored
             ++ lit ", requested " ++ lit requested))
  | None => Ok tt
  end.

Definition invalid_stored_van (position : Z) : VotingError :=
  VInvalidInput (lit "invalid stored van_leaf_position: " ++ decimal position).

Definition delegation_van_position_should_update (stored : option Z) (position : Z)
    : result bool VotingError :=
  if i64_max <? position then Err (does_not_fit position)
  else match stored with
       | None => Ok true
       | Some existing =>
           if existing <? 0 then Err (invalid_stored_van existing)
           else if existing <? position then
             Err (VInvalidInput (lit "delegation van_leaf_position conflict: stored "
               ++ decimal existing ++ lit ", requested " ++ decimal position))
           else Ok false
       end.

Definition advance_van_position_in_tx d (round_id wallet : string) (bundle position : Z)
    : result VotingTables VotingError :=
  let? (_, stored) := load_bundle_confirmation_fields d round_id wallet bundle in
  let store := store_van_position_u64 d round_id wallet bundle position in
  match stored with
  | Some stored =>
      if stored <? 0 then Err (invalid_stored_van stored)
      else if i64_max <? position then Err (does_not_fit position)
      else if position <? stored then Ok d
      else store
  | None => store
  end.

(** An optional step on the tables. *)
Definition when_some {A} (o : option A) d (f : A -> result VotingTables VotingError)
    : result VotingTables VotingError :=
  match o with
  | Some a => f a
  | None => Ok d
  end.

Definition apply_delegation_confirmation_with_conn d (wallet round_id : string) (bundle : Z)
    (hash : option string) (position : Z) : result VotingTables VotingError :=
  let? _ := require_tree_position position "VAN leaf position" in
  let? (stored_hash, stored_position) := load_bundle_confirmation_fields d round_id wallet bundle in
  let? _ := match hash with
            | Some hash =>
                let? _ := require_tx_hash hash in
                check_text_conflict stored_hash hash "delegation tx_hash"
            | None => Ok tt
            end in
  let? update := delegation_van_position_should_update stored_position position in
  let? t := when_some hash d (store_delegation_tx_hash d round_id wallet bundle) in
  if update then store_van_position_u64 t round_id wallet bundle position else Ok t.

Definition require_vote_recovery_json d (round_id wallet : string) (bundle proposal : Z)
    : result unit VotingError :=
  match tb_votes d !! (round_id, wallet, bundle, proposal) with
  | Some v =>
      match vt_commitment_bundle_json v with
      | Some _ => Ok tt
      | None => Err (VInvalidInput (lit "vote recovery bundle not found for "
          ++ vote_text round_id bundle proposal))
      end
  | None => Err (vote_not_found_error round_id bundle proposal)
  end.

Definition apply_vote_confirmation_with_conn d (wallet round_id : string) (bundle proposal : Z)
    (hash : option string) (van_position vc_position : Z) : result VotingTables VotingError :=
  let? _ := require_tree_position van_position "VAN leaf position" in
  let? _ := require_tree_position vc_position "vote commitment tree position" in
  let? _ := ensure_singleton_vote_update_with_conn d wallet round_id bundle proposal in
  let? t := when_some hash d (fun hash =>
    let? _ := require_tx_hash hash in
    record_vote_submission d round_id wallet bundle proposal hash) in
  let? _ := require_vote_recovery_json t round_id wallet bundle proposal in
  let? t := advance_van_position_in_tx t round_id wallet bundle van_position in
  record_vc_position_with_conn t wallet round_id bundle proposal vc_position.

(** The loop over the members and their positions. *)
Fixpoint confirm_members d (wallet round_id : string) (bundle : Z) (hash : option string)
    (members : list (VoteRecoveryBundle * Z)) : result VotingTables VotingError :=
  match members with
  | [] => Ok d
  | (r, position) :: members =>
      let? t := when_some hash d
        (record_vote_submission d round_id wallet bundle (vr_proposal_id r)) in
      let? _ := require_vote_recovery_json t round_id wallet bundle (vr_proposal_id r) in
      let? t := record_vc_position_with_conn t wallet round_id bundle (vr_proposal_id r) position in
      confirm_members t wallet round_id bundle hash members
  end.

Definition apply_vote_batch_confirmation_with_conn d (wallet round_id : string) (bundle : Z)
    (digest : list Z) (hash : option string) (van_position : Z) (vc_positions : list Z)
    (observed_proposal_ids : option (list Z)) (observed_nullifiers : option (list string))
    : result VotingTables VotingError :=
  let? _ := require_tree_position van_position "VAN leaf position" in
  let? _ := try_map (fun p => require_tree_position p "vote commitment tree position")
    vc_positions in
  let? _ := match hash with Some hash => require_tx_hash hash | None => Ok tt end in
  let? members := load_vote_batch_recoveries_with_conn d wallet round_id bundle digest in
  let differs {A} `{EqDecision A} (observed : option A) (expected : A) :=
    match observed with Some o => negb (bool_decide (o = expected)) | None => false end in
  if differs observed_proposal_ids (map vr_proposal_id members)
     || differs observed_nullifiers (map (fun r => hex_encode (vr_van_nullifier r)) members)
  then Err (VInvalidInput
    (lit "cast_vote_batch event actions do not match persisted recovery data"))
  else if negb (bool_decide (length vc_positions = length members)) then
    Err (VInvalidInput (lit "cast_vote_batch event has the wrong number of VC positions"))
  else
    let? t := confirm_members d wallet round_id bundle hash (zip members vc_positions) in
    advance_van_position_in_tx t round_id wallet bundle van_position.

Definition clear_combined_rejection_ledger d (wallet round_id : string) (bundle : Z)
    : VotingTables :=
  with_rejections d (delete (round_id, wallet, bundle) (tb_combined_cast_rejections d)).

Definition project_confirmed_generation d (bound : BoundGeneration)
    (v : ValidatedChainSubmissionConfirmation) : result VotingTables VotingError :=
  let i := gen_identity (bound_generation bound) in
  let round_id := hex_encode (vote_round_id i) in
  let c := confirmation v in
  let hash := hex_encode <$> conf_transaction_hash c in
  let positions := conf_vote_commitment_positions c in
  let mismatch := Err (VInvalidInput
    (lit "confirmed positions do not match the semantic generation layout")) in
  match target i, bound_expected_layout bound, positions with
  | Delegation, LDelegation _, [] =>
      apply_delegation_confirmation_with_conn d (wallet_id i) round_id (bundle_index i) hash
        (conf_final_van_position c)
  | Vote proposal, LVote _ _, [position] =>
      apply_vote_confirmation_with_conn d (wallet_id i) round_id (bundle_index i) proposal hash
        (conf_final_van_position c) position
  | (VoteBatch digest | DelegateAndVoteBatch digest), LVoteBatch _ commitments, _ =>
      if bool_decide (length positions = length commitments)
         && bool_decide (length (bound_ordered_proposal_ids bound) = length positions)
      then
        let? t := apply_vote_batch_confirmation_with_conn d (wallet_id i) round_id
          (bundle_index i) digest hash (conf_final_van_position c) positions
          (Some (bound_ordered_proposal_ids bound)) None in
        if is_combined (target i) then
          let? t := when_some hash t
            (store_delegation_tx_hash t round_id (wallet_id i) (bundle_index i)) in
          Ok (clear_combined_rejection_ledger t (wallet_id i) round_id (bundle_index i))
        else Ok t
      else mismatch
  | _, _, _ => mismatch
  end.

(** ** Retirement of a rejected combined generation *)
Definition persisted_generation_digest d (wallet round_id : string) (bundle : Z) (digest : list Z)
    : result (option (list Z)) VotingError :=
  match tb_delegate_cast_recovery d !! (round_id, wallet, bundle, digest) with
  | None => Ok None
  | Some row =>
      if bool_decide (length (au_delegation_generation_digest row) = 32%nat)
      then Ok (Some (au_delegation_generation_digest row))
      else Err (VInvalidInput
        (lit "stored combined delegation generation must contain 32 bytes"))
  end.

Definition shares_without (key : VoteId) (s : gset (VoteId * Z)) : gset (VoteId * Z) :=
  filter (fun share => share.1 <> key) s.

Definition clear_unsubmitted_vote_recovery_with_conn d (wallet round_id : string)
    (bundle proposal : Z) : result VotingTables VotingError :=
  let key := (round_id, wallet, bundle, proposal) in
  let changed := Err (VInvalidInput (lit "vote recovery changed before it could be retired for "
    ++ vote_text round_id bundle proposal)) in
  match tb_votes d !! key with
  | None => changed
  | Some v =>
      if null (vt_tx_hash v) && null (vt_vc_tree_position v) then
        let t := update_vote_text d key v
          (mk_vote_row (vt_choice v) (vt_commitment v) None None None) in
        Ok (with_shares t (shares_without key (tb_share_delegations t)))
      else changed
  end.

(** Whether a vote of the bundle still holds a combined recovery. *)
Definition signed_combined_member (round_id wallet : string) (bundle : Z)
    (kv : VoteId * VoteRow) : bool :=
  let '((r, w, b, _), v) := kv in
  bool_decide (r = round_id) && bool_decide (w = wallet) && (b =? bundle)
  && match vt_commitment_bundle_json v with
     | Some json => json_has_delegation_van json
     | None => false
     end.

Definition retire_combined_authorization_with_conn d (wallet round_id : string) (bundle : Z)
    : VotingTables :=
  if existsb (signed_combined_member round_id wallet bundle) (map_to_list (tb_votes d)) then d
  else with_authorizations d
    (filter (fun row => row.1.1 <> (round_id, wallet, bundle)) (tb_delegate_cast_recovery d)).

Fixpoint clear_members d (wallet round_id : string) (bundle : Z)
    (members : list VoteRecoveryBundle) : result VotingTables VotingError :=
  match members with
  | [] => Ok d
  | r :: members =>
      let? t := clear_unsubmitted_vote_recovery_with_conn d wallet round_id bundle
        (vr_proposal_id r) in
      clear_members t wallet round_id bundle members
  end.

Definition clear_vote_batch_recovery_with_conn d (wallet round_id : string) (bundle : Z)
    (digest : list Z) : result (list Z * VotingTables) VotingError :=
  let? members := load_vote_batch_recoveries_with_conn d wallet round_id bundle digest in
  let? t := clear_members d wallet round_id bundle members in
  let cleared := map vr_proposal_id members in
  Ok (cleared, if bool_decide (cleared = []) then t
               else retire_combined_authorization_with_conn t wallet round_id bundle).

(** [now as i64] keeps the low 64 bits. *)
Definition as_i64 (z : Z) : Z := if i64_max <? z then z - 18446744073709551616 else z.

(** The CHECKs of [combined_cast_rejections]. *)
Definition rejection_row_ok (r : RejectionRow) : bool :=
  bool_decide (length (rj_delegation_generation_digest r) = 32%nat)
  && (0 <? rj_consecutive_rejections r)
  && bool_decide (length (rj_last_batch_digest r) = 32%nat)
  && (0 <=? rj_first_rejected_at r)
  && (rj_first_rejected_at r <=? rj_last_rejected_at r).

(** The two triggers: a streak grows within one generation and restarts with
    another. *)
Definition rejection_trigger_aborts (old new : RejectionRow) : bool :=
  if bool_decide (rj_delegation_generation_digest new = rj_delegation_generation_digest old)
  then rj_consecutive_rejections new <=? rj_consecutive_rejections old
  else negb (rj_consecutive_rejections new =? 1).

(** The row the upsert writes over [old]. *)
Definition next_rejection (old : option RejectionRow) (generation batch : list Z)
    (diagnostic : ChainSubmissionDiagnostic) (now : Z) : RejectionRow :=
  let fresh := mk_rejection_row generation 1 batch (kind_as_str (diag_kind diagnostic))
    (diag_message diagnostic) now now in
  match old with
  | Some old =>
      if bool_decide (rj_delegation_generation_digest old = generation) then
        mk_rejection_row generation (rj_consecutive_rejections old + 1) batch
          (kind_as_str (diag_kind diagnostic)) (diag_message diagnostic)
          (rj_first_rejected_at old) (Z.max (rj_last_rejected_at old) now)
      else fresh
  | None => fresh
  end.

Definition record_combined_rejection d (i : ChainSubmissionIdentity) (round_id : string)
    (generation batch : list Z) (diagnostic : ChainSubmissionDiagnostic) (now : Z)
    : result VotingTables VotingError :=
  let key := (round_id, wallet_id i, bundle_index i) in
  let old := tb_combined_cast_rejections d !! key in
  let new := next_rejection old generation batch diagnostic (as_i64 now) in
  let aborts := match old with Some old => rejection_trigger_aborts old new | None => false end in
  if aborts || negb (rejection_row_ok new)
     || negb (bool_decide (is_Some (tb_rounds d !! (round_id, wallet_id i))))
  then Err (VStorage (lit "record combined cast rejection: "
         ++ sql_error_to_string ConstraintViolation))
  else Ok (with_rejections d (<[key := new]> (tb_combined_cast_rejections d))).

Definition retire_rejected_generation d (i : ChainSubmissionIdentity)
    (diagnostic : ChainSubmissionDiagnostic) (now : Z) : result VotingTables VotingError :=
  match target i with
  | DelegateAndVoteBatch digest =>
      let round_id := hex_encode (vote_round_id i) in
      let? stored := persisted_generation_digest d (wallet_id i) round_id (bundle_index i) digest in
      let? generation := ok_or stored
        (VInternal (lit "rejected combined generation has no persisted authorization")) in
      let? (cleared, t) := clear_vote_batch_recovery_with_conn d (wallet_id i) round_id
        (bundle_index i) digest in
      if bool_decide (cleared = []) then
        Err (VInternal (lit "rejected combined generation has no persisted members"))
      else record_combined_rejection t i round_id generation digest diagnostic now
  | _ => Err (VInternal (lit "only a combined generation retires on rejection"))
  end.

(** ** The tables as the store's domain *)
Definition bundle_has_delegated d (round_id wallet : string) (bundle : Z) : option bool :=
  (fun b => negb (null (bd_delegation_tx_hash b)) || negb (null (bd_van_leaf_position b)))
    <$> tb_bundles d !! (round_id, wallet, bundle).

Definition has_combined_recovery d (round_id wallet : string) (bundle : Z) : bool :=
  existsb (fun row => bool_decide (row.1.1 = (round_id, wallet, bundle)))
    (map_to_list (tb_delegate_cast_recovery d)).

Lemma content_digest i c : wf_hash (gen_digest (bound_generation (content_bound i c))).
Proof.
  assert (forall t, wf_hash (gen_digest (finish sha256 i t))) as Hf.
  { intros t. unfold wf_hash. apply sha256_length. }
  unfold content_bound. by repeat case_match; apply Hf.
Qed.

Lemma content_identity i c : gen_identity (bound_generation (content_bound i c)) = i.
Proof. unfold content_bound. by repeat case_match. Qed.

Lemma content_request_kind i c sig q :
  content_fits i c -> content_request i c sig = Ok q ->
  match q with
  | QVoteBatch _ => exists digest, target i = VoteBatch digest
  | QDelegateAndVoteBatch _ => exists digest, target i = DelegateAndVoteBatch digest
  | QImportedDelegation h => exists g, c = CImported g h
  | _ => True
  end
  /\ match bound_expected_layout (content_bound i c) with
     | LVoteBatch _ _ => batch_votes q <> None
     | _ => True
     end.
Proof.
  unfold content_fits, content_bound, content_request. intros Hf Hq.
  destruct (target i) as [|p|dg|dg] eqn:Et; destruct c as [x|g h|[|r [|r' l]]|x l]; try done;
    cbn in Hq; repeat (case_match; try done); simplify_eq; split; cbn; try done; by eexists.
Qed.

#[export] Instance voting_domain : SubmissionDomain VotingTables.
Proof.
  refine {| derive_generation := fun _ d q => derive_submission d q;
    round_row_exists := fun d round_id wallet =>
      bool_decide (is_Some (tb_rounds d !! (round_id, wallet)));
    bundle_delegated := bundle_has_delegated;
    combined_recovery_exists := has_combined_recovery;
    apply_confirmed_generation := fun _ => project_confirmed_generation;
    retire_rejected_combined_generation := fun _ => retire_rejected_generation |};
    intros t d q x; [| | |intros c|]; intros (content&(Hf&Hb&sig&Hr)&_&Hi)%derivation_made.
  - unfold derived_generation. rewrite Hb. apply content_identity.
  - unfold derived_generation. rewrite Hb. apply content_digest.
  - apply content_request_kind in Hr as [Hr _]; [|done].
    destruct (derived_request x); try done. destruct Hr as [g ->]. by destruct Hi.
  - apply content_request_kind in Hr as [Hr _]; [|done]. unfold imported_candidate.
    destruct (derived_request x); try done. destruct Hr as [g ->]. intros. simplify_eq.
    by destruct Hi.
  - apply content_request_kind in Hr as [_ Hr]; [|done]. by rewrite Hb.
Defined.
End projection.
