(* ===== verification/Agreement.v ===== *)
(** * Derivations ignore what a confirmation writes

    Two states of the voting tables agree when they differ only in the
    delegation hash and VAN position of a bundle, the transaction hash and tree
    position of a vote, and the position inside a vote's recovery text. A
    derivation that succeeds in one succeeds in the other with the same
    generation and request, whichever order the tables list the votes in. *)

From stdpp Require Import base gmap strings list numbers sorting.
From Stdlib Require Import ZifyBool.
From S2P Require Import Prelude Identity Outcome Lifecycle Record Confirmation Rows Store.
From S2P Require Import Coordinator Recovery Protocol SampleCodec VoteRecovery Transcript.
From S2P Require Import Generation SampleTables GenerationProofs Projection.
Local Open Scope Z_scope.
Local Open Scope voting_scope.

(** ** Tables that differ only in what a confirmation writes *)
Definition bundle_with (b : BundleRow) (van : option Z) (hash : option string) : BundleRow :=
  mk_bundle_row (bd_note_positions_blob b) (bd_note_identity_hashes_blob b) (bd_van_comm_rand b)
    (bd_dummy_nullifiers b) (bd_rho_signed b) (bd_padded_note_data b) (bd_nf_signed b)
    (bd_cmx_new b) (bd_alpha b) (bd_rseed_signed b) (bd_rseed_output b) (bd_gov_comm b)
    (bd_total_note_value b) (bd_address_index b) van (bd_rk b)
    (bd_gov_nullifiers_blob b) (bd_padded_note_secrets b) (bd_pczt_sighash b) (bd_tx1_effects b)
    hash.

Definition bundles_agree (b b' : BundleRow) : Prop :=
  exists van hash, b' = bundle_with b van hash
    /\ (bd_delegation_tx_hash b = None \/ hash = bd_delegation_tx_hash b).

Definition same_but_position (a b : VoteRecoveryBundle) : Prop :=
  with_position a 0 = with_position b 0.

Section agreement.
Context `{Externals} `{SqliteText} `{RecoveryExternals} `{DomainExternals}.
Implicit Types d : VotingTables.

Definition texts_agree (s s' : string) : Prop :=
  s = s' \/ exists a b, parse_recovery s = Ok a /\ parse_recovery s' = Ok b /\ same_but_position a b.

Record rows_agree (v v' : VoteRow) : Prop := {
  ra_choice : vt_choice v = vt_choice v';
  ra_commitment : vt_commitment v = vt_commitment v';
  ra_text : option_Forall2 texts_agree (vt_commitment_bundle_json v) (vt_commitment_bundle_json v')
}.

Record tables_agree d d' : Prop := {
  ag_rounds : tb_rounds d = tb_rounds d';
  ag_proofs : tb_proofs d = tb_proofs d';
  ag_authorizations : tb_delegate_cast_recovery d = tb_delegate_cast_recovery d';
  ag_bundles : forall k, option_Forall2 bundles_agree (tb_bundles d !! k) (tb_bundles d' !! k);
  ag_votes : forall k, option_Forall2 rows_agree (tb_votes d !! k) (tb_votes d' !! k)
}.

#[global] Instance same_but_position_equiv : Equivalence same_but_position.
Proof. unfold same_but_position. split; intros ?; congruence. Qed.

#[global] Instance bundles_agree_preorder : PreOrder bundles_agree.
Proof.
  split.
  - intros b. exists (bd_van_leaf_position b), (bd_delegation_tx_hash b). split; [by destruct b|].
    by right.
  - intros b1 b2 b3 (v&h&->&Hh) (v'&h'&->&Hh'). exists v', h'. split; [done|]. cbn in *.
    destruct Hh as [?| ->]; [by left|]. done.
Qed.

#[global] Instance texts_agree_preorder : PreOrder texts_agree.
Proof.
  split; [by left|]. intros s1 s2 s3 [->|(a&b&Ha&Hb&Hab)] [->|(a'&b'&Ha'&Hb'&Hab')].
  - by left.
  - right. by exists a', b'.
  - right. by exists a, b.
  - right. exists a, b'. split_and!; [done..|]. rewrite Hb in Ha'. simplify_eq. by etrans.
Qed.

#[global] Instance rows_agree_preorder : PreOrder rows_agree.
Proof.
  split; [split; [done..|reflexivity]|]. intros v1 v2 v3 [? ? H12] [? ? H23].
  split; [congruence..|]. by etrans.
Qed.

#[global] Instance tables_agree_preorder : PreOrder tables_agree.
Proof.
  split; [split; [done..|intros k; reflexivity|intros k; reflexivity]|].
  intros d1 d2 d3 [? ? ? Hb1 Hv1] [? ? ? Hb2 Hv2].
  split; [congruence..| |]; intros k; [by eapply transitivity; [apply Hb1|apply Hb2]|by eapply transitivity; [apply Hv1|apply Hv2]].
Qed.

(** *** Derivations of delegations *)
Lemma agree_proved d d' k b p :
  tables_agree d d' -> proved_bundle d k = Some (b, p) ->
  exists b', proved_bundle d' k = Some (b', p) /\ bundles_agree b b'.
Proof.
  intros Ha Hp. unfold proved_bundle in *. rewrite <-(ag_proofs _ _ Ha).
  pose proof (ag_bundles _ _ Ha k) as Hb.
  destruct Hb as [b1 b' Hb|]; [|done]. cbn in *. destruct (tb_proofs d !! k) as [p'|]; [|done].
  cbn in *. case_match; [|done]. simplify_eq. by exists b'.
Qed.

Lemma agree_unproved d d' k :
  tables_agree d d' -> proved_bundle d k = None -> proved_bundle d' k = None.
Proof.
  intros Ha Hp. unfold proved_bundle in *. rewrite <-(ag_proofs _ _ Ha).
  pose proof (ag_bundles _ _ Ha k) as Hb. destruct Hb as [b1 b' Hb|]; [|done]. cbn in *.
  destruct (tb_proofs d !! k) as [p'|]; [|done]. cbn in *. by case_match.
Qed.

Lemma agree_inputs d d' i round :
  tables_agree d d' -> load_delegation_inputs d' i round = load_delegation_inputs d i round.
Proof.
  intros Ha. unfold load_delegation_inputs.
  destruct (proved_bundle d _) as [[b p]|] eqn:E.
  - destruct (agree_proved _ _ _ _ _ Ha E) as (b'&->&(v&h&->&_)). done.
  - by rewrite (agree_unproved _ _ _ Ha E).
Qed.

Lemma agree_context d d' i :
  tables_agree d d' -> validate_identity_context d' i = validate_identity_context d i.
Proof.
  intros Ha. unfold validate_identity_context, load_round_network. by rewrite <-(ag_rounds _ _ Ha).
Qed.

Lemma agree_generation d d' i :
  tables_agree d d' -> generation_for_delegation d' i = generation_for_delegation d i.
Proof.
  intros Ha. unfold generation_for_delegation, complete_generation_for_delegation.
  rewrite (agree_context _ _ _ Ha). destruct (validate_identity_context d i); [|done].
  cbn. by rewrite (agree_inputs _ _ _ _ Ha).
Qed.

Lemma agree_submission d d' wallet round bundle sig :
  tables_agree d d' ->
  submission_with_conn d' wallet round bundle sig = submission_with_conn d wallet round bundle sig.
Proof.
  intros Ha. unfold submission_with_conn, load_delegation_submission_data, load_pczt_sighash.
  pose proof (ag_bundles _ _ Ha (round, wallet, bundle)) as Hb.
  destruct (proved_bundle d (round, wallet, bundle)) as [[b p]|] eqn:E.
  - destruct (agree_proved _ _ _ _ _ Ha E) as (b'&->&(v&h&->&_)).
    destruct Hb as [b1 b1' (v1&h1&->&_)|]; [|done]. done.
  - rewrite (agree_unproved _ _ _ Ha E). done.
Qed.

Lemma agree_imported d d' i x :
  tables_agree d d' -> generation_for_imported_delegation d i = Ok x ->
  generation_for_imported_delegation d' i = Ok x.
Proof.
  intros Ha. unfold generation_for_imported_delegation. case_match; [done|].
  rewrite (agree_context _ _ _ Ha). destruct (validate_identity_context d i) as [r|]; [|done].
  pose proof (ag_bundles _ _ Ha (r, wallet_id i, bundle_index i)) as Hb.
  destruct Hb as [b b' (v&h&->&Hh)|]; [|done]. unfold is_imported_bundle. cbn.
  rewrite (ag_proofs _ _ Ha). case_match; [|done]. case_match; [|done].
  destruct (bd_delegation_tx_hash b) as [hash|]; [|done]. destruct Hh as [?| ->]; done.
Qed.

(** *** Derivations of votes *)
Lemma agree_parsed s s' a :
  texts_agree s s' -> parse_recovery s = Ok a ->
  exists b, parse_recovery s' = Ok b /\ same_but_position a b.
Proof.
  intros [->|(a'&b&Ha&Hb&Hab)] Hs; [by exists a|]. rewrite Hs in Ha. simplify_eq. by exists b.
Qed.

Lemma position_matches a b round bundle proposal choice commitment :
  same_but_position a b ->
  validate_recovery_matches_stored_vote a round bundle proposal choice commitment
  = validate_recovery_matches_stored_vote b round bundle proposal choice commitment.
Proof.
  intros Hab.
  change (validate_recovery_matches_stored_vote (with_position a 0) round bundle proposal choice
    commitment = validate_recovery_matches_stored_vote b round bundle proposal choice commitment).
  by rewrite Hab.
Qed.

Lemma agree_vote d d' i round proposal r :
  tables_agree d d' -> load_validated_vote d i round proposal = Ok r ->
  exists r', load_validated_vote d' i round proposal = Ok r' /\ same_but_position r r'.
Proof.
  intros Ha (v&json&Hv&Hj&Hp&Hm)%validated_vote_ok.
  pose proof (ag_votes _ _ Ha (round, wallet_id i, bundle_index i, proposal)) as Hr.
  rewrite Hv in Hr. inversion Hr as [? v' [Hc Hk Ht] E1 E2|]. subst.
  rewrite Hj in Ht. inversion Ht as [? json' Hjj E3 E4|]. subst.
  destruct (agree_parsed _ _ _ Hjj Hp) as (r'&Hp'&Hrr). exists r'. split; [|done].
  unfold load_validated_vote, recovery_bundle_with_conn, recovery_json_with_conn.
  rewrite <-E2. cbn. rewrite <-E4, Hp'. cbn.
  rewrite <-Hc, <-Hk, <-(position_matches r r') by done. by rewrite Hm.
Qed.

(** The same votes, whichever order the tables list them in. *)
Lemma agree_texts d d' wallet round bundle :
  tables_agree d d' -> exists l l',
    bundle_recovery_texts d wallet round bundle ≡ₚ l
    /\ bundle_recovery_texts d' wallet round bundle ≡ₚ l' /\ Forall2 texts_agree l l'.
Proof.
  intros Ha. set (m := map_zip_with pair (tb_votes d) (tb_votes d')).
  assert (forall k, (is_Some (tb_votes d !! k) <-> is_Some (tb_votes d' !! k))) as Hdom.
  { intros k. by destruct (ag_votes _ _ Ha k); split; intros [? ?]. }
  assert (tb_votes d = fst <$> m) as E1.
  { symmetry. unfold m. apply fst_map_zip, Hdom. }
  assert (tb_votes d' = snd <$> m) as E2.
  { symmetry. unfold m. apply snd_map_zip, Hdom. }
  unfold bundle_recovery_texts. rewrite E1, E2, !map_to_list_fmap.
  eexists _, _. split; [reflexivity|]. split; [reflexivity|].
  assert (Forall (fun kv : VoteId * (VoteRow * VoteRow) => rows_agree kv.2.1 kv.2.2)
            (map_to_list m)) as Hall.
  { apply Forall_forall. intros [k [v v']] Hin. apply elem_of_map_to_list in Hin.
    apply map_lookup_zip_with_Some in Hin as (a&b&[= <- <-]&Hv&Hv').
    pose proof (ag_votes _ _ Ha k) as Hk. rewrite Hv, Hv' in Hk. by inversion Hk. }
  clear E1 E2. induction Hall as [|[[[[r w] b] p] [v v']] l Hv _ IH]; [constructor|]. cbn in *.
  case_bool_decide; [|done]. destruct (ra_text _ _ Hv); [by constructor|done].
Qed.

Lemma try_map_Permutation {A B E} (f : A -> result B E) l l' bs :
  l ≡ₚ l' -> try_map f l = Ok bs -> exists bs', try_map f l' = Ok bs' /\ bs ≡ₚ bs'.
Proof.
  intros Hp. revert bs. induction Hp as [|a l l' _ IH|a b l|l1 l2 l3 _ IH1 _ IH2]; intros bs Hbs.
  - by exists bs.
  - cbn in *. destruct (f a) as [c|]; [|done]. destruct (try_map f l) as [cs|]; [|done].
    destruct (IH cs eq_refl) as (cs'&->&Hc). simplify_eq. exists (c :: cs'). by split; [|constructor].
  - cbn in *. destruct (f b) as [c|]; [|done]. destruct (f a) as [c'|]; [|done].
    destruct (try_map f l) as [cs|]; [|done]. simplify_eq. eexists. split; [done|]. constructor.
  - destruct (IH1 _ Hbs) as (b2&Hb2&Hp2). destruct (IH2 _ Hb2) as (b3&Hb3&Hp3).
    exists b3. split; [done|]. by etrans.
Qed.

Lemma agree_candidates d d' wallet round bundle cs :
  tables_agree d d' ->
  try_map parse_recovery (bundle_recovery_texts d wallet round bundle) = Ok cs ->
  exists cs0 cs1 cs', try_map parse_recovery (bundle_recovery_texts d' wallet round bundle) = Ok cs'
    /\ cs ≡ₚ cs0 /\ Forall2 same_but_position cs0 cs1 /\ cs1 ≡ₚ cs'.
Proof.
  intros Ha Hcs. destruct (agree_texts d d' wallet round bundle Ha) as (l&l'&Hl&Hl'&Hll).
  destruct (try_map_Permutation _ _ _ _ Hl Hcs) as (cs0&Hc0&Hp0).
  assert (exists cs1, try_map parse_recovery l' = Ok cs1 /\ Forall2 same_but_position cs0 cs1)
    as (cs1&Hc1&Hf).
  { clear -Hll Hc0. revert cs0 Hc0. induction Hll as [|s s' l l' Hs _ IH]; intros cs0 Hc0; cbn in *.
    - simplify_eq. by exists [].
    - destruct (parse_recovery s) as [a|] eqn:Es; [|done].
      destruct (try_map parse_recovery l) as [as_|] eqn:El; [|done]. simplify_eq.
      destruct (agree_parsed _ _ _ Hs Es) as (b&->&Hab).
      destruct (IH _ eq_refl) as (bs&->&Hbs). exists (b :: bs). by split; [|constructor]. }
  destruct (try_map_Permutation _ _ _ _ (symmetry Hl') Hc1) as (cs'&Hc2&Hp2).
  by exists cs0, cs1, cs'.
Qed.

Lemma same_field {B} (f : VoteRecoveryBundle -> B) a b :
  (forall r, f (with_position r 0) = f r) -> same_but_position a b -> f a = f b.
Proof. intros Hf Hab. rewrite <-(Hf a), <-(Hf b). by rewrite Hab. Qed.

Lemma same_map {B} (f : VoteRecoveryBundle -> B) l m :
  (forall r, f (with_position r 0) = f r) -> Forall2 same_but_position l m -> map f l = map f m.
Proof.
  intros Hf. induction 1 as [|a b l m Hab _ IH]; [done|]. cbn. by rewrite IH, (same_field f a b).
Qed.

Lemma same_index_le a b a' b' :
  same_but_position a a' -> same_but_position b b' -> index_le a b -> index_le a' b'.
Proof.
  intros Ha Hb. unfold index_le.
  by rewrite (same_field vr_batch a a'), (same_field vr_batch b b').
Qed.

#[local] Instance index_le_trans : Transitive index_le.
Proof. intros a b c. unfold index_le. repeat case_match; try done; simplify_eq; lia. Qed.

#[local] Instance index_le_total : Total index_le.
Proof.
  intros a b. unfold index_le. repeat case_match; simplify_eq; try (by left); try (by right).
  destruct (Z.le_ge_cases z z0); [by left|by right].
Qed.

Lemma same_sorted l m :
  Forall2 same_but_position l m -> StronglySorted index_le l -> StronglySorted index_le m.
Proof.
  induction 1 as [|a b l m Hab Hlm IH]; [done|]. intros [Hs Ha]%StronglySorted_inv.
  constructor; [by apply IH|]. clear -Hab Hlm Ha.
  induction Hlm as [|x y l m Hxy _ IH]; [done|]. apply Forall_cons_iff in Ha as [Hx Ha].
  constructor; [by eapply same_index_le|by apply IH].
Qed.

Lemma same_filter (dg : list Z) l m :
  Forall2 same_but_position l m ->
  Forall2 same_but_position (filter (fun b => has_digest dg b = true) l)
    (filter (fun b => has_digest dg b = true) m).
Proof.
  induction 1 as [|a b l m Hab _ IH]; [constructor|]. rewrite !filter_cons.
  rewrite (same_field (has_digest dg) a b) by done. case_decide; [by constructor|done].
Qed.

Lemma members_in_order_same dg size k l m :
  Forall2 same_but_position l m -> members_in_order dg size k l = members_in_order dg size k m.
Proof.
  intros Hlm. revert k. induction Hlm as [|a b l m Hab _ IH]; intros k; [done|]. cbn.
  rewrite (same_field vr_batch a b) by done. by repeat f_equal; case_match; [rewrite IH|].
Qed.

Lemma existsb_same (f g : VoteRecoveryBundle -> bool) l m :
  (forall a b, same_but_position a b -> f a = g b) -> Forall2 same_but_position l m ->
  existsb f l = existsb g m.
Proof. intros Hfg. induction 1 as [|a b l m Hab _ IH]; [done|]. cbn. by rewrite (Hfg a b), IH. Qed.

Lemma check_members_same round bundle dg l m x :
  Forall2 same_but_position l m -> check_batch_members round bundle dg l = Ok x ->
  x = l /\ check_batch_members round bundle dg m = Ok m.
Proof.
  intros Hlm Hx. pose proof (same_map recovery_action _ _ ltac:(done) Hlm) as Hacts.
  pose proof (Forall2_length _ _ _ Hlm) as Hlen.
  pose proof (fun s => members_in_order_same dg s 0 _ _ Hlm) as Hord.
  destruct Hlm as [|a b l m Hab Hlm]; [done|]. unfold check_batch_members in *.
  rewrite <-Hlen, <-Hord, <-(same_field vr_batch a b) by done. case_match; [done|].
  rewrite <-(existsb_same (fun c => negb (bool_decide (delegation_van_of c = delegation_van_of a))
    || (bool_decide (is_Some (delegation_van_of a)) && negb (vr_anchor_height c =? 0)))
    _ (a :: l) (b :: m)); [|intros c c' Hc|by constructor].
  2: { by rewrite (same_field delegation_van_of a b), (same_field delegation_van_of c c'),
         (same_field vr_anchor_height c c'). }
  case_match; [done|].
  assert (assembled_digest round b (b :: m) = assembled_digest round a (a :: l)) as ->.
  { unfold assembled_digest. by rewrite Hacts, (same_field delegation_van_of a b),
      (same_field vr_anchor_height a b). }
  destruct (assembled_digest _ _ _); [|done]. case_bool_decide; [|done]. by simplify_eq.
Qed.

(** Assembling the repositioned candidates, in any order, finds the same
    members. *)
Lemma assemble_agrees round bundle dg cs cs0 cs1 cs' ms :
  assemble_vote_batch_recoveries round bundle dg cs = Ok ms ->
  cs ≡ₚ cs0 -> Forall2 same_but_position cs0 cs1 -> cs1 ≡ₚ cs' ->
  exists ms', assemble_vote_batch_recoveries round bundle dg cs' = Ok ms'
    /\ Forall2 same_but_position ms ms'.
Proof.
  intros Hms Hp0 Hs Hp1. pose proof (assemble_ok _ _ _ _ _ Hms) as Ha.
  unfold assemble_vote_batch_recoveries in *. set (P := fun b => has_digest dg b = true) in *.
  assert (merge_sort index_le (filter P cs) = ms) as Hsort.
  { destruct (check_members_same round bundle dg (merge_sort index_le (filter P cs))
      (merge_sort index_le (filter P cs)) ms) as [-> _]; [|done|done].
    reflexivity. }
  rewrite Hsort in Hms.
  assert (ms ≡ₚ filter P cs0) as Hm0.
  { rewrite <-Hsort, merge_sort_Permutation. by rewrite Hp0. }
  destruct (Permutation_Forall2 (symmetry Hm0) (same_filter dg _ _ Hs)) as (ms1&Hm1&Hsame).
  change (filter P cs1 ≡ₚ ms1) in Hm1. exists ms1. split; [|done].
  assert (merge_sort index_le (filter P cs') = ms1) as ->.
  2: { by eapply check_members_same. }
  apply (StronglySorted_unique_strong index_le).
  - intros x y Hx Hy. rewrite merge_sort_Permutation, <-Hp1, Hm1 in Hx.
    apply list_elem_of_lookup in Hx as [k Hx], Hy as [l Hy].
    destruct (Forall2_lookup_r _ _ _ _ _ Hsame Hx) as (x0&Hx0&Hxx).
    destruct (Forall2_lookup_r _ _ _ _ _ Hsame Hy) as (y0&Hy0&Hyy).
    destruct (as_order _ _ _ _ Ha _ _ Hx0) as (bx&Ebx&_&Ix&_).
    destruct (as_order _ _ _ _ Ha _ _ Hy0) as (by_&Eby&_&Iy&_).
    unfold index_le. rewrite <-(same_field vr_batch x0 x), <-(same_field vr_batch y0 y) by done.
    rewrite Ebx, Eby. cbn. intros. assert (k = l) as -> by lia. congruence.
  - apply (StronglySorted_merge_sort index_le).
  - eapply same_sorted; [exact Hsame|]. rewrite <-Hsort. apply (StronglySorted_merge_sort index_le).
  - rewrite merge_sort_Permutation, <-Hp1. done.
Qed.

Lemma agree_members d d' wallet round bundle dg ms :
  tables_agree d d' -> load_vote_batch_recoveries_with_conn d wallet round bundle dg = Ok ms ->
  exists ms', load_vote_batch_recoveries_with_conn d' wallet round bundle dg = Ok ms'
    /\ Forall2 same_but_position ms ms'.
Proof.
  intros Ha. unfold load_vote_batch_recoveries_with_conn. intros Hms. ok_inv Hms.
  destruct (agree_candidates _ _ _ _ _ _ Ha E) as (cs0&cs1&cs'&->&Hp0&Hs&Hp1).
  by eapply assemble_agrees.
Qed.

Lemma agree_validate_members d d' i round anchor dg ms ms' ps :
  tables_agree d d' -> Forall2 same_but_position ms ms' ->
  validate_members d i round anchor dg ms = Ok ps ->
  validate_members d' i round anchor dg ms' = Ok ps.
Proof.
  intros Ha Hs. revert ps. induction Hs as [|a b ms ms' Hab _ IH]; intros ps Hps; [done|].
  cbn [validate_members] in *. rewrite <-(same_field vr_anchor_height a b), <-(same_field vr_proposal_id a b) by done.
  case_match; [done|].
  destruct (load_validated_vote d i round (vr_proposal_id a)) as [r|] eqn:El; [|done].
  destruct (agree_vote _ _ _ _ _ _ Ha El) as (r'&->&Hrr).
  rewrite <-(same_field vr_batch r r') by done. case_bool_decide; [|done].
  destruct (validate_members d i round anchor dg ms) as [qs|] eqn:Em; [|done].
  by rewrite (IH _ eq_refl).
Qed.

Lemma same_hash_votes ms ms' :
  Forall2 same_but_position ms ms' -> hash_votes ms = hash_votes ms'.
Proof.
  intros Hs. unfold hash_votes, t_sequence. rewrite (Forall2_length _ _ _ Hs). f_equal.
  generalize 0%nat. induction Hs as [|a b ms ms' Hab _ IH]; intros k; [done|].
  cbn [t_items]. rewrite IH. f_equal. by apply (same_field (hash_vote_recovery _)).
Qed.

Lemma same_wires ms ms' :
  Forall2 same_but_position ms ms' ->
  try_map wire_submission_from_recovery ms = try_map wire_submission_from_recovery ms'.
Proof.
  induction 1 as [|a b ms ms' Hab _ IH]; [done|]. cbn [try_map].
  by rewrite IH, (same_field wire_submission_from_recovery a b).
Qed.

Lemma same_last ms ms' :
  Forall2 same_but_position ms ms' ->
  vr_vote_authority_note_new <$> list.last ms = vr_vote_authority_note_new <$> list.last ms'.
Proof.
  intros Hs. rewrite <-!fmap_last. f_equal. by apply same_map.
Qed.

Lemma agree_batch d d' i bound ms :
  tables_agree d d' -> validated_vote_batch d i = Ok (bound, ms) ->
  exists ms', validated_vote_batch d' i = Ok (bound, ms') /\ Forall2 same_but_position ms ms'.
Proof.
  intros Ha. unfold validated_vote_batch. destruct (batch_digest (target i)) as [dg|]; [|done].
  rewrite (agree_context _ _ _ Ha). destruct (validate_identity_context d i) as [r|]; [|done].
  destruct (load_vote_batch_recoveries_with_conn d _ _ _ _) as [ms0|] eqn:El; [|done].
  destruct (agree_members _ _ _ _ _ _ _ Ha El) as (ms'&->&Hs).
  assert (head ms' ≫= delegation_van_of = head ms0 ≫= delegation_van_of) as ->.
  { destruct Hs as [|a b ? ? Hab _]; [done|]. cbn. by rewrite (same_field delegation_van_of a b). }
  assert (vr_anchor_height <$> head ms' = vr_anchor_height <$> head ms0) as ->.
  { destruct Hs as [|a b ? ? Hab _]; [done|]. cbn. by rewrite (same_field vr_anchor_height a b). }
  case_match; [done|].
  destruct (validate_members d _ _ _ _ _) as [ps|] eqn:Ev; [|done].
  rewrite (agree_validate_members _ _ _ _ _ _ _ _ _ Ha Hs Ev). case_match; [done|].
  assert (forall van anchor, batch_generation d' i r van anchor ms'
    = batch_generation d i r van anchor ms0) as ->.
  { intros van anchor. unfold batch_generation, combined_generation, vote_generation,
      combined_transcript, vote_transcript. by rewrite (agree_inputs _ _ _ _ Ha), (same_hash_votes _ _ Hs). }
  destruct (batch_generation d _ _ _ _ _); [|done]. intros [= <- <-]. exists ms'. split; [|done].
  by rewrite (same_last _ _ Hs), (same_map vr_vote_commitment _ _ ltac:(done) Hs).
Qed.

Lemma agree_recover d d' wallet round bundle dg :
  tables_agree d d' ->
  recover_submission d' wallet round bundle dg = recover_submission d wallet round bundle dg.
Proof.
  intros Ha. unfold recover_submission, load_round_network.
  rewrite <-(ag_authorizations _ _ Ha), <-(ag_rounds _ _ Ha).
  repeat match goal with
  | |- match ?m with Ok _ => _ | Err _ => _ end = match ?m with Ok _ => _ | Err _ => _ end =>
      destruct m; [|done]
  end.
  rewrite (agree_generation _ _ _ Ha). destruct (generation_for_delegation _ _); [|done].
  case_match; [done|]. case_match; [done|]. by rewrite (agree_submission _ _ _ _ _ _ Ha).
Qed.

(** A derivation reads nothing that a confirmation writes. *)
Lemma agree_derivation d d' q x :
  tables_agree d d' -> derive_submission d q = Ok x -> derive_submission d' q = Ok x.
Proof.
  intros Ha Hx. destruct q as [i sig|i|i|i]; cbn in *.
  - unfold derive_delegation in *. by rewrite (agree_generation _ _ _ Ha), (agree_submission _ _ _ _ _ _ Ha).
  - unfold derive_imported_delegation in *. destruct (generation_for_imported_delegation d i) as [y|] eqn:E; [|done].
    by rewrite (agree_imported _ _ _ _ Ha E).
  - unfold derive_vote, validated_singleton_vote in *. destruct (target i); try done.
    rewrite (agree_context _ _ _ Ha). destruct (validate_identity_context d i); [|done].
    destruct (load_validated_vote d i _ _) as [r|] eqn:El; [|done].
    destruct (agree_vote _ _ _ _ _ _ Ha El) as (r'&->&Hr).
    assert (vote_generation sha256 i [r'] = vote_generation sha256 i [r]) as ->.
    { unfold vote_generation, vote_transcript. by rewrite (same_hash_votes [r] [r']); [|repeat constructor]. }
    rewrite <-(same_field ensure_singleton_vote_recovery r r') by done.
    destruct (ensure_singleton_vote_recovery r); [|done].
    by rewrite <-(same_field wire_submission_from_recovery r r'),
      <-(same_field vr_vote_authority_note_new r r'), <-(same_field vr_vote_commitment r r').
  - unfold derive_vote_batch in *. destruct (validated_vote_batch d i) as [[bound ms]|] eqn:Eb; [|done].
    destruct (agree_batch _ _ _ _ _ Ha Eb) as (ms'&->&Hs).
    by rewrite <-(same_wires _ _ Hs), (agree_recover _ _ _ _ _ _ Ha).
Qed.
End agreement.
