(* ===== verification/ProjectionProofs.v ===== *)
(** * Correctness of the projection of confirmations

    Theorems about [Projection]: a confirmation writes exactly the positions
    and the hash it carries, applying it again changes nothing, and the
    submission still derives the same generation and request afterwards; a
    helper plan follows its vote's text through the confirmation. *)

From stdpp Require Import base gmap strings list numbers.
From Stdlib Require Import ZifyBool.
From S2P Require Import Prelude Identity Outcome Lifecycle Record Confirmation Rows Store.
From S2P Require Import Coordinator Recovery Protocol SampleCodec VoteRecovery Transcript.
From S2P Require Import Generation SampleTables GenerationProofs Projection Agreement.
Local Open Scope Z_scope.
Local Open Scope voting_scope.

Section steps.
Context `{Externals} `{SqliteText} `{RecoveryExternals} `{DomainExternals}.
Implicit Types d : VotingTables.

(** ** What a confirmation leaves behind *)
Definition canonical (r : VoteRecoveryBundle) : string :=
  vote_recovery_json_string (recovery_to_json r).

Definition parsed_valid d : Prop :=
  forall k v s r, tb_votes d !! k = Some v -> vt_commitment_bundle_json v = Some s ->
    parse_recovery s = Ok r -> valid_recovery r.

Definition vote_has_hash d (k : VoteId) (hash : string) : Prop :=
  exists v, tb_votes d !! k = Some v /\ vt_tx_hash v = Some hash.

Definition bundle_has_hash d (k : BundleId) (hash : string) : Prop :=
  exists b, tb_bundles d !! k = Some b /\ bd_delegation_tx_hash b = Some hash.

(** The bundle's note is recorded at [position] or, after a later
    submission, beyond it. *)
Definition van_reaches d (k : BundleId) (position : Z) : Prop :=
  exists b stored, tb_bundles d !! k = Some b /\ bd_van_leaf_position b = Some stored
    /\ position <= stored.

(** The vote row and its recovery text both carry [position]. *)
Definition vote_at d (k : VoteId) (position : Z) : Prop :=
  exists v, tb_votes d !! k = Some v /\ vt_vc_tree_position v = Some position
    /\ forall s, vt_commitment_bundle_json v = Some s ->
       exists r, valid_recovery r /\ s = canonical r /\ vr_vc_tree_position r = position
         /\ let '(round_id, _, bundle, proposal) := k in
            validate_recovery_matches_stored_vote r round_id bundle proposal (vt_choice v)
              (vt_commitment v) = Ok tt.

(** What every step of a confirmation preserves. *)
Record progress d d' : Prop := {
  pg_agree : tables_agree d d';
  pg_intent : tb_ballot_intent d' = tb_ballot_intent d;
  pg_valid : parsed_valid d -> parsed_valid d';
  pg_vote_hash : forall k hash, vote_has_hash d k hash -> vote_has_hash d' k hash;
  pg_bundle_hash : forall k hash, bundle_has_hash d k hash -> bundle_has_hash d' k hash;
  pg_van : forall k p, van_reaches d k p -> van_reaches d' k p;
  pg_vote_at : forall k p, vote_at d k p -> vote_at d' k p
}.

#[global] Instance progress_preorder : PreOrder progress.
Proof.
  split; [by split|]. intros d1 d2 d3 [] []. split; try (by eauto); [by etrans|congruence].
Qed.

Lemma progress_elsewhere d d' :
  tb_rounds d' = tb_rounds d -> tb_proofs d' = tb_proofs d -> tb_votes d' = tb_votes d ->
  tb_bundles d' = tb_bundles d -> tb_ballot_intent d' = tb_ballot_intent d ->
  tb_delegate_cast_recovery d' = tb_delegate_cast_recovery d -> progress d d'.
Proof.
  intros Er Ep Ev Eb Ei Ea. split.
  - split; [done..| |]; intros k; [rewrite Eb|rewrite Ev]; apply reflexivity.
  - done.
  - unfold parsed_valid. by rewrite Ev.
  - unfold vote_has_hash. by rewrite Ev.
  - unfold bundle_has_hash. by rewrite Eb.
  - unfold van_reaches. by rewrite Eb.
  - unfold vote_at. by rewrite Ev.
Qed.

Lemma progress_bundle d k b b' :
  tb_bundles d !! k = Some b -> bundles_agree b b' ->
  (forall q, bd_van_leaf_position b = Some q ->
    exists q', bd_van_leaf_position b' = Some q' /\ q <= q') ->
  progress d (with_bundles d (<[k := b']> (tb_bundles d))).
Proof.
  intros Hb Hag Hvan. split; cbn; try done.
  - split; cbn; [done..| |intros k'; apply reflexivity]. intros k'.
    destruct (decide (k' = k)) as [->|Hne].
    + rewrite Hb, lookup_insert_eq. by constructor.
    + rewrite lookup_insert_ne by done. apply reflexivity.
  - intros k' hash (c&Hc&Hh). unfold bundle_has_hash. cbn.
    destruct (decide (k' = k)) as [->|Hne]; [|by rewrite lookup_insert_ne by done; exists c].
    rewrite lookup_insert_eq. rewrite Hb in Hc. simplify_eq. exists b'. split; [done|].
    destruct Hag as (?&?&->&[?| ->]); cbn; congruence.
  - intros k' p (c&q&Hc&Hq&Hp). unfold van_reaches. cbn.
    destruct (decide (k' = k)) as [->|Hne]; [|by rewrite lookup_insert_ne by done; exists c, q].
    rewrite lookup_insert_eq. rewrite Hb in Hc. simplify_eq.
    destruct (Hvan q Hq) as (q'&Hq'&?). exists b', q'. split_and!; [done|done|lia].
Qed.

Lemma progress_vote d k v v' :
  tb_votes d !! k = Some v -> rows_agree v v' ->
  (forall hash, vt_tx_hash v = Some hash -> vt_tx_hash v' = Some hash) ->
  (parsed_valid d -> forall s r, vt_commitment_bundle_json v' = Some s ->
    parse_recovery s = Ok r -> valid_recovery r) ->
  (forall p, vote_at d k p -> vote_at (with_votes d (<[k := v']> (tb_votes d))) k p) ->
  progress d (with_votes d (<[k := v']> (tb_votes d))).
Proof.
  intros Hv Hag Hhash Hvalid Hat. split; cbn; try done.
  - split; cbn; [done..|intros k'; apply reflexivity|]. intros k'.
    destruct (decide (k' = k)) as [->|Hne].
    + rewrite Hv, lookup_insert_eq. by constructor.
    + rewrite lookup_insert_ne by done. apply reflexivity.
  - intros Hd k' w s r Hw. cbn in Hw. destruct (decide (k' = k)) as [->|Hne].
    + rewrite lookup_insert_eq in Hw. simplify_eq. by apply Hvalid.
    + rewrite lookup_insert_ne in Hw by done. by apply (Hd k').
  - intros k' hash (w&Hw&Hh). unfold vote_has_hash. cbn.
    destruct (decide (k' = k)) as [->|Hne]; [|by rewrite lookup_insert_ne by done; exists w].
    rewrite lookup_insert_eq. rewrite Hv in Hw. simplify_eq. eauto.
  - intros k' p Hp. destruct (decide (k' = k)) as [->|Hne]; [by apply Hat|].
    destruct Hp as (w&Hw&Hrest). exists w. cbn. by rewrite lookup_insert_ne.
Qed.

Lemma with_bundles_same d k b : tb_bundles d !! k = Some b ->
  with_bundles d (<[k := b]> (tb_bundles d)) = d.
Proof. intros Hb. rewrite insert_id by done. by destruct d. Qed.

Lemma with_votes_same d k v : tb_votes d !! k = Some v ->
  with_votes d (<[k := v]> (tb_votes d)) = d.
Proof. intros Hv. rewrite insert_id by done. by destruct d. Qed.

(** ** The bundle's hash and position *)
Lemma store_hash_step d round wallet bundle hash d' :
  store_delegation_tx_hash d round wallet bundle hash = Ok d' ->
  progress d d' /\ bundle_has_hash d' (round, wallet, bundle) hash.
Proof.
  unfold store_delegation_tx_hash. destruct (tb_bundles d !! _) as [b|] eqn:Eb; [|done].
  intros Hd. assert (d' = with_bundles d (<[(round, wallet, bundle) := row_with_hash b hash]>
    (tb_bundles d)) /\ (bd_delegation_tx_hash b = None \/ Some hash = bd_delegation_tx_hash b))
    as [-> Hh].
  { destruct (bd_delegation_tx_hash b) as [old|]; [case_bool_decide; [|done]|];
      simplify_eq; by eauto. }
  split.
  - eapply progress_bundle; [done| |].
    + exists (bd_van_leaf_position b), (Some hash). by split.
    + intros q Hq. by exists q.
  - exists (row_with_hash b hash). cbn. by rewrite lookup_insert_eq.
Qed.

Lemma store_hash_fixed d round wallet bundle hash :
  bundle_has_hash d (round, wallet, bundle) hash ->
  store_delegation_tx_hash d round wallet bundle hash = Ok d.
Proof.
  intros (b&Hb&Hh). unfold store_delegation_tx_hash. rewrite Hb, Hh, bool_decide_eq_true_2 by done.
  f_equal. apply with_bundles_same. rewrite Hb. f_equal. destruct b; cbn in *. by subst.
Qed.

Lemma store_van_step d round wallet bundle position d' :
  store_van_position_u64 d round wallet bundle position = Ok d' ->
  (forall b q, tb_bundles d !! (round, wallet, bundle) = Some b ->
    bd_van_leaf_position b = Some q -> q <= position) ->
  progress d d' /\ van_reaches d' (round, wallet, bundle) position.
Proof.
  unfold store_van_position_u64. case_match; [done|].
  destruct (tb_bundles d !! _) as [b|] eqn:Eb; [|done]. intros [= <-] Hle. split.
  - eapply progress_bundle; [done| |].
    + exists (Some position), (bd_delegation_tx_hash b). split; [done|by right].
    + intros q Hq. exists position. split; [done|by eapply Hle].
  - exists (row_with_van b position), position. cbn. by rewrite lookup_insert_eq.
Qed.

Lemma advance_step d round wallet bundle position d' :
  advance_van_position_in_tx d round wallet bundle position = Ok d' ->
  progress d d' /\ van_reaches d' (round, wallet, bundle) position.
Proof.
  unfold advance_van_position_in_tx, load_bundle_confirmation_fields.
  destruct (tb_bundles d !! _) as [b|] eqn:Eb; [|done].
  destruct (bd_van_leaf_position b) as [stored|] eqn:Ev.
  - destruct (stored <? 0); [done|]. destruct (i64_max <? position); [done|].
    destruct (position <? stored) eqn:El.
    + intros [= <-]. split; [reflexivity|]. exists b, stored. split_and!; [done|done|lia].
    + intros Hs. eapply store_van_step; [done|]. intros b' q Hb Hq. simplify_eq. lia.
  - intros Hs. eapply store_van_step; [done|]. intros b' q Hb Hq. simplify_eq.
Qed.

Lemma store_van_fixed d round wallet bundle position b :
  position <= i64_max -> tb_bundles d !! (round, wallet, bundle) = Some b ->
  bd_van_leaf_position b = Some position ->
  store_van_position_u64 d round wallet bundle position = Ok d.
Proof.
  intros Hp Hb Hv. unfold store_van_position_u64. replace (i64_max <? position) with false by lia.
  rewrite Hb. f_equal. apply with_bundles_same. rewrite Hb. f_equal. destruct b; cbn in *. by subst.
Qed.

Lemma advance_fixed d round wallet bundle position :
  0 <= position <= i64_max -> van_reaches d (round, wallet, bundle) position ->
  advance_van_position_in_tx d round wallet bundle position = Ok d.
Proof.
  intros Hp (b&stored&Hb&Hs&Hle). unfold advance_van_position_in_tx, load_bundle_confirmation_fields.
  rewrite Hb, Hs. replace (stored <? 0) with false by lia.
  replace (i64_max <? position) with false by lia. destruct (position <? stored) eqn:E; [done|].
  eapply store_van_fixed; [lia|done|]. rewrite Hs. f_equal. lia.
Qed.

(** ** The vote's hash *)
Lemma ensure_intent_progress d d' round wallet bundle proposal :
  progress d d' ->
  ensure_vote_submission_matches_ballot_intent d' round wallet bundle proposal
  = ensure_vote_submission_matches_ballot_intent d round wallet bundle proposal.
Proof.
  intros Hp. unfold ensure_vote_submission_matches_ballot_intent. rewrite (pg_intent _ _ Hp).
  case_match; [|done]. pose proof (ag_votes _ _ (pg_agree _ _ Hp) (round, wallet, bundle, proposal)) as Hv.
  destruct Hv as [v v' [-> _ _]|]; done.
Qed.

Lemma record_submission_step d round wallet bundle proposal hash d' :
  record_vote_submission d round wallet bundle proposal hash = Ok d' ->
  progress d d' /\ vote_has_hash d' (round, wallet, bundle, proposal) hash
  /\ ensure_vote_submission_matches_ballot_intent d round wallet bundle proposal = Ok tt.
Proof.
  unfold record_vote_submission.
  destruct (ensure_vote_submission_matches_ballot_intent _ _ _ _ _) as [[]|]; [|done].
  destruct (tb_votes d !! _) as [v|] eqn:Ev; [|done].
  destruct (_ && intent_allows _ _ _ _ _) eqn:E.
  - intros [= <-]. apply andb_true_iff in E as [E _]. split; [|split; [|done]].
    + eapply progress_vote; [done|split; [done..|reflexivity]| | |].
      * intros hash' Hh. cbn. rewrite Hh in E. cbn in E. by apply bool_decide_eq_true in E as [= ->].
      * intros Hd s r. cbn. by apply (Hd _ _ s r Ev).
      * intros p (w&Hw&Hat). rewrite Ev in Hw. simplify_eq. exists (row_with_tx_hash w hash).
        cbn. by rewrite lookup_insert_eq.
    + exists (row_with_tx_hash v hash). cbn. by rewrite lookup_insert_eq.
  - destruct (vt_tx_hash v) as [old|] eqn:Eh; [|done].
    destruct (bool_decide (old = hash)) eqn:Eo; [|done]. apply bool_decide_eq_true in Eo as ->.
    intros [= <-]. split; [reflexivity|]. split; [by exists v|done].
Qed.

Lemma record_submission_fixed d round wallet bundle proposal hash :
  ensure_vote_submission_matches_ballot_intent d round wallet bundle proposal = Ok tt ->
  vote_has_hash d (round, wallet, bundle, proposal) hash ->
  record_vote_submission d round wallet bundle proposal hash = Ok d.
Proof.
  intros He (v&Hv&Hh). unfold record_vote_submission. rewrite He, Hv, Hh.
  rewrite bool_decide_eq_true_2 by done. case_match; [|by rewrite bool_decide_eq_true_2].
  f_equal. apply with_votes_same. rewrite Hv. f_equal. destruct v; cbn in *. by subst.
Qed.

(** ** The vote's position *)
Lemma triggers_progress d k old new : progress d (run_vote_triggers d k old new).
Proof.
  unfold run_vote_triggers. case_bool_decide; [reflexivity|]. destruct k as [[[r w] b] p].
  by apply progress_elsewhere.
Qed.

Lemma triggers_keep_votes d k old new : tb_votes (run_vote_triggers d k old new) = tb_votes d.
Proof.
  unfold run_vote_triggers. case_bool_decide; [done|]. by destruct k as [[[r w] b] p].
Qed.

Lemma stored_position_ok v round bundle proposal position :
  check_stored_position v round bundle proposal position = Ok tt ->
  vt_vc_tree_position v = None \/ vt_vc_tree_position v = Some position.
Proof.
  unfold check_stored_position. destruct (vt_vc_tree_position v) as [q|]; [|by left].
  destruct (q <? 0); [done|]. destruct (negb (q =? position)) eqn:E; [done|].
  intros _. right. f_equal. lia.
Qed.

Lemma update_matches v position :
  vt_vc_tree_position v = None \/ vt_vc_tree_position v = Some position ->
  position_update_matches v (vt_choice v) (vt_commitment v) position = true.
Proof.
  intros Hv. unfold position_update_matches. rewrite Z.eqb_refl, bool_decide_eq_true_2 by done.
  destruct Hv as [-> | ->]; [done|]. cbn. by apply bool_decide_eq_true_2.
Qed.

(** A recorded position replaces the text by the record's own encoding: the
    branches for a row that changed under the update are not reached. *)
Lemma record_position_run d wallet round bundle proposal position v :
  tb_votes d !! (round, wallet, bundle, proposal) = Some v -> position <= i64_max ->
  check_stored_position v round bundle proposal position = Ok tt ->
  record_vc_position_with_conn d wallet round bundle proposal position
  = match vt_commitment_bundle_json v with
    | Some json =>
        let? r := parse_recovery json in
        let? _ := validate_recovery_matches_stored_vote r round bundle proposal (vt_choice v)
          (vt_commitment v) in
        let? updated := serialize_recovery (with_position r position) in
        Ok (update_vote_text d (round, wallet, bundle, proposal) v
              (mk_vote_row (vt_choice v) (vt_commitment v) (vt_tx_hash v) (Some position)
                 (Some updated)))
    | None =>
        Ok (with_votes d (<[(round, wallet, bundle, proposal) :=
              mk_vote_row (vt_choice v) (vt_commitment v) (vt_tx_hash v) (Some position) None]>
              (tb_votes d)))
    end.
Proof.
  intros Hv Hp Hc. unfold record_vc_position_with_conn. replace (i64_max <? position) with false by lia.
  rewrite Hv, Hc. apply stored_position_ok, update_matches in Hc.
  destruct (vt_commitment_bundle_json v) as [json|] eqn:Ej.
  - destruct (parse_recovery json); [|done].
    destruct (validate_recovery_matches_stored_vote _ _ _ _ _ _); [|done].
    destruct (serialize_recovery _); [|done].
    unfold store_recovery_json_with_vc_position_if_unchanged.
    by rewrite Hv, Hc, Ej, bool_decide_eq_true_2.
  - unfold store_vc_position_if_unset_or_same. by rewrite Hv, Hc, Ej.
Qed.

Lemma record_position_inv d wallet round bundle proposal position d' :
  record_vc_position_with_conn d wallet round bundle proposal position = Ok d' ->
  position <= i64_max /\ exists v, tb_votes d !! (round, wallet, bundle, proposal) = Some v
    /\ check_stored_position v round bundle proposal position = Ok tt.
Proof.
  unfold record_vc_position_with_conn. destruct (i64_max <? position) eqn:E; [done|].
  destruct (tb_votes d !! _) as [v|]; [|done].
  destruct (check_stored_position _ _ _ _ _) as [[]|] eqn:Ec; [|done]. intros _.
  split; [lia|]. by exists v.
Qed.

Lemma position_u64 position : 0 <= position <= i64_max -> is_u64 position.
Proof. unfold is_u64, i64_max, u64_max. lia. Qed.

Lemma canonical_parses r : valid_recovery r -> parse_recovery (canonical r) = Ok r.
Proof. intros Hr. by apply parse_serialized. Qed.

Lemma record_position_step d wallet round bundle proposal position d' :
  parsed_valid d -> 0 <= position ->
  record_vc_position_with_conn d wallet round bundle proposal position = Ok d' ->
  progress d d' /\ vote_at d' (round, wallet, bundle, proposal) position.
Proof.
  intros Hd Hp Hr. pose proof (record_position_inv _ _ _ _ _ _ _ Hr) as (Hmax&v&Hv&Hc).
  rewrite (record_position_run _ _ _ _ _ _ _ Hv Hmax Hc) in Hr.
  pose proof (stored_position_ok _ _ _ _ _ Hc) as Hpos.
  set (k := (round, wallet, bundle, proposal)) in *.
  assert (forall v' p, vt_vc_tree_position v' = Some position -> vote_at d k p ->
    vote_at (with_votes d (<[k := v']> (tb_votes d))) k position ->
    vote_at (with_votes d (<[k := v']> (tb_votes d))) k p) as Hsame.
  { intros v' p _ (w&Hw&Hwp&_). rewrite Hv in Hw. simplify_eq. destruct Hpos; congruence. }
  destruct (vt_commitment_bundle_json v) as [json|] eqn:Ej.
  - destruct (parse_recovery json) as [r|] eqn:Ep; [|done].
    destruct (validate_recovery_matches_stored_vote _ _ _ _ _ _) as [[]|] eqn:Em; [|done].
    assert (valid_recovery (with_position r position)) as Hval.
    { apply with_position_valid; [by eapply Hd|by apply position_u64]. }
    rewrite (proj1 (parse_serialized _ Hval)) in Hr. injection Hr as <-.
    fold (canonical (with_position r position)). unfold update_vote_text.
    set (v' := mk_vote_row _ _ _ _ _).
    assert (vote_at (with_votes d (<[k := v']> (tb_votes d))) k position) as Hat.
    { exists v'. cbn. rewrite lookup_insert_eq. split_and!; [done..|]. intros s [= <-].
      by exists (with_position r position). }
    split; [|by apply (pg_vote_at _ _ (triggers_progress _ k v v'))].
    etrans; [|apply triggers_progress]. eapply progress_vote; [done| |done| |by eauto].
    + split; [done..|]. rewrite Ej. constructor. right. exists r, (with_position r position).
      split_and!; [done|by apply canonical_parses|done].
    + intros _ s q [= <-]. rewrite canonical_parses by done. by intros [= <-].
  - injection Hr as <-. set (v' := mk_vote_row _ _ _ _ _).
    assert (vote_at (with_votes d (<[k := v']> (tb_votes d))) k position) as Hat.
    { exists v'. cbn. by rewrite lookup_insert_eq. }
    split; [|done]. eapply progress_vote; [done| |done|done|by eauto].
    split; [done..|]. rewrite Ej. constructor.
Qed.

Lemma record_position_fixed d wallet round bundle proposal position :
  0 <= position <= i64_max -> vote_at d (round, wallet, bundle, proposal) position ->
  record_vc_position_with_conn d wallet round bundle proposal position = Ok d.
Proof.
  intros Hp (v&Hv&Hvp&Hs). rewrite (record_position_run _ _ _ _ _ _ _ Hv); [|lia|].
  2: { unfold check_stored_position. rewrite Hvp. replace (position <? 0) with false by lia.
       by rewrite Z.eqb_refl. }
  destruct (vt_commitment_bundle_json v) as [json|] eqn:Ej.
  - destruct (Hs json eq_refl) as (r&Hr&->&Hrp&Hm). rewrite canonical_parses by done.
    cbn in Hm. rewrite Hm. replace (with_position r position) with r by (destruct r; cbn in *; by subst).
    rewrite (proj1 (parse_serialized _ Hr)). fold (canonical r). f_equal. unfold update_vote_text.
    replace (mk_vote_row _ _ _ _ _) with v by (destruct v; cbn in *; by subst).
    rewrite with_votes_same by done. unfold run_vote_triggers. by rewrite bool_decide_eq_true_2.
  - f_equal. apply with_votes_same. rewrite Hv. f_equal. destruct v; cbn in *. by subst.
Qed.
End steps.

(** ** Whole confirmations *)
Section confirmations.
Context `{Externals} `{SqliteText} `{RecoveryExternals} `{DomainExternals}.
Implicit Types d : VotingTables.

Definition carried {A} (o : option A) (P : A -> Prop) : Prop := forall a, o = Some a -> P a.

Lemma when_some_step {A} (o : option A) d f d' (P : A -> VotingTables -> Prop) :
  when_some o d f = Ok d' ->
  (forall a, f a = Ok d' -> progress d d' /\ P a d') ->
  progress d d' /\ carried o (fun a => P a d').
Proof.
  destruct o as [a|]; cbn; intros Hd Hf.
  - destruct (Hf a Hd) as [Hp Ha]. split; [done|]. by intros ? [= <-].
  - simplify_eq. split; [reflexivity|done].
Qed.

Lemma when_some_fixed {A} (o : option A) d f :
  carried o (fun a => f a = Ok d) -> when_some o d f = Ok d.
Proof. destruct o; cbn; intros Hc; [by apply Hc|done]. Qed.

Lemma tree_position_ok position field :
  require_tree_position position field = Ok tt -> position <= i64_max.
Proof.
  unfold require_tree_position. destruct (TREE_CAPACITY <=? position) eqn:E; [done|].
  intros _. assert (TREE_CAPACITY <= i64_max) by by vm_compute. lia.
Qed.

Lemma delegation_step d wallet round bundle hash position d' :
  0 <= position ->
  apply_delegation_confirmation_with_conn d wallet round bundle hash position = Ok d' ->
  progress d d' /\ carried hash (bundle_has_hash d' (round, wallet, bundle))
  /\ van_reaches d' (round, wallet, bundle) position.
Proof.
  intros Hp. unfold apply_delegation_confirmation_with_conn, load_bundle_confirmation_fields.
  destruct (require_tree_position _ _) as [[]|]; [|done].
  destruct (tb_bundles d !! _) as [b|] eqn:Eb; [|done]. cbv beta iota.
  match goal with |- match ?m with Ok _ => _ | Err _ => _ end = _ -> _ => destruct m; [|done] end.
  unfold delegation_van_position_should_update. destruct (i64_max <? position); [done|].
  destruct (bd_van_leaf_position b) as [q|] eqn:Ev.
  - destruct (q <? 0) eqn:E0; [done|]. destruct (q <? position) eqn:E1; [done|]. intros Hs. ok_inv Hs.
    match goal with E : when_some _ _ _ = Ok _ |- _ =>
      apply (when_some_step _ _ _ _ (fun h d' => bundle_has_hash d' (round, wallet, bundle) h)) in E
        as [Hpr Hh]; [|intros h Hsh; by apply store_hash_step] end.
    subst. split_and!; [done|done|]. apply (pg_van _ _ Hpr). exists b, q. split_and!; [done|done|lia].
  - intros Hs. ok_inv Hs.
    match goal with E : when_some _ _ _ = Ok ?t |- _ =>
      pose proof E as Ew;
      apply (when_some_step _ _ _ _ (fun h d' => bundle_has_hash d' (round, wallet, bundle) h)) in E
        as [Hpr Hh]; [|intros h Hsh; by apply store_hash_step] end.
    apply store_van_step in Hs as [Hpr' Hv].
    + split_and!; [by etrans| |done]. intros h Hh'. by apply (pg_bundle_hash _ _ Hpr'), Hh.
    + intros b' q Hb Hq. exfalso. clear -Ew Eb Ev Hb Hq. destruct hash as [h|]; cbn in Ew; simplify_eq.
      unfold store_delegation_tx_hash in Ew. rewrite Eb in Ew.
      repeat case_match; simplify_eq; cbn in Hb; rewrite lookup_insert_eq in Hb; simplify_eq; cbn in Hq; congruence.
Qed.

Lemma delegation_fixed d wallet round bundle hash position d0 :
  0 <= position ->
  apply_delegation_confirmation_with_conn d0 wallet round bundle hash position = Ok d ->
  apply_delegation_confirmation_with_conn d wallet round bundle hash position = Ok d.
Proof.
  intros Hp Hd. pose proof (delegation_step _ _ _ _ _ _ _ Hp Hd) as (_&Hh&b&q&Hb&Hq&Hle).
  unfold apply_delegation_confirmation_with_conn, load_bundle_confirmation_fields in *.
  destruct (require_tree_position _ _) as [[]|] eqn:Et; [|done]. apply tree_position_ok in Et.
  rewrite Hb.
  assert (match hash with
    | Some hash => let? _ := require_tx_hash hash in
        check_text_conflict (bd_delegation_tx_hash b) hash "delegation tx_hash"
    | None => Ok tt end = Ok tt) as ->.
  { destruct hash as [h|]; [|done]. destruct (tb_bundles d0 !! _) as [b0|]; [|done].
    destruct (require_tx_hash h) as [[]|]; [|done].
    destruct (Hh h eq_refl) as (b'&Hb'&Hh'). rewrite Hb in Hb'. simplify_eq. rewrite Hh'. cbn.
    by rewrite bool_decide_eq_true_2. }
  unfold delegation_van_position_should_update. replace (i64_max <? position) with false by lia.
  rewrite Hq. replace (q <? 0) with false by lia. replace (q <? position) with false by lia.
  rewrite when_some_fixed; [done|]. intros h ->. apply store_hash_fixed. by apply Hh.
Qed.

Lemma vote_step d wallet round bundle proposal hash van vc d' :
  parsed_valid d -> 0 <= vc ->
  apply_vote_confirmation_with_conn d wallet round bundle proposal hash van vc = Ok d' ->
  progress d d' /\ carried hash (vote_has_hash d' (round, wallet, bundle, proposal))
  /\ carried hash (fun _ =>
       ensure_vote_submission_matches_ballot_intent d round wallet bundle proposal = Ok tt)
  /\ van_reaches d' (round, wallet, bundle) van /\ vote_at d' (round, wallet, bundle, proposal) vc.
Proof.
  intros Hd Hvc. unfold apply_vote_confirmation_with_conn. intros Hs. ok_inv Hs.
  match goal with E : when_some _ _ _ = Ok ?t |- _ =>
    apply (when_some_step _ _ _ _ (fun h d' =>
      vote_has_hash d' (round, wallet, bundle, proposal) h
      /\ ensure_vote_submission_matches_ballot_intent d round wallet bundle proposal = Ok tt)) in E
      as [Hp1 Hh] end.
  2: { intros h Hr. destruct (require_tx_hash h); [|done].
       apply record_submission_step in Hr as (?&?&?). by split. }
  match goal with E : advance_van_position_in_tx _ _ _ _ _ = Ok _ |- _ =>
    apply advance_step in E as [Hp2 Hv] end.
  apply record_position_step in Hs as [Hp3 Hat]; [|by apply (pg_valid _ _ Hp2), (pg_valid _ _ Hp1)|done].
  split_and!; [by etrans; [|etrans]| | |by apply (pg_van _ _ Hp3)|done].
  - intros h Hh'. apply (pg_vote_hash _ _ Hp3), (pg_vote_hash _ _ Hp2). by apply Hh.
  - intros h Hh'. by apply (Hh h).
Qed.

Context `{!JsonAgreement}.

Lemma marker_parsed s r :
  parse_recovery s = Ok r -> json_has_batch_marker s = Ok (bool_decide (is_Some (vr_batch r))).
Proof.
  unfold parse_recovery. destruct (json_vote_recovery s) as [j|] eqn:Ej; cbn; [|done].
  rewrite (json_marker_parsed s j Ej). destruct (check_format j); [|done]. intros Hr.
  unfold recovery_of_json in Hr. ok_inv Hr.
  match goal with E : batch_of_json j = Ok ?b |- _ => rename E into Eb end. subst r. cbn. f_equal.
  unfold batch_of_json, has_batch_metadata in *.
  destruct (vj_batch_digest j), (vj_batch_index j), (vj_batch_size j); try done.
  - ok_inv Eb. subst. by rewrite !bool_decide_eq_true_2 by done.
  - injection Eb as <-. by rewrite !bool_decide_eq_false_2 by (by intros [? ?]).
Qed.

Lemma ensure_singleton_agree d d' wallet round bundle proposal :
  tables_agree d d' ->
  ensure_singleton_vote_update_with_conn d' wallet round bundle proposal
  = ensure_singleton_vote_update_with_conn d wallet round bundle proposal.
Proof.
  intros Ha. unfold ensure_singleton_vote_update_with_conn, recovery_json_with_conn.
  pose proof (ag_votes _ _ Ha (round, wallet, bundle, proposal)) as Hv.
  destruct Hv as [v v' [_ _ Ht]|]; [|done]. cbn [mbind option_bind].
  destruct Ht as [s s' [->|(a&b&Hs&Hs'&Hab)]|]; [done| |done].
  rewrite (marker_parsed _ _ Hs), (marker_parsed _ _ Hs'). by rewrite (same_field vr_batch a b).
Qed.

Lemma require_json_agree d d' wallet round bundle proposal :
  tables_agree d d' ->
  require_vote_recovery_json d' round wallet bundle proposal
  = require_vote_recovery_json d round wallet bundle proposal.
Proof.
  intros Ha. unfold require_vote_recovery_json.
  pose proof (ag_votes _ _ Ha (round, wallet, bundle, proposal)) as Hv.
  destruct Hv as [v v' [_ _ Ht]|]; [|done]. by destruct Ht.
Qed.

Lemma vote_fixed d0 wallet round bundle proposal hash van vc d :
  parsed_valid d0 -> 0 <= van -> 0 <= vc ->
  apply_vote_confirmation_with_conn d0 wallet round bundle proposal hash van vc = Ok d ->
  apply_vote_confirmation_with_conn d wallet round bundle proposal hash van vc = Ok d.
Proof.
  intros Hd Hvan Hvc Hs. pose proof (vote_step _ _ _ _ _ _ _ _ _ Hd Hvc Hs) as (Hp&Hh&He&Hv&Hat).
  unfold apply_vote_confirmation_with_conn in *.
  destruct (require_tree_position van _) as [[]|] eqn:E1; [|done].
  destruct (require_tree_position vc _) as [[]|] eqn:E2; [|done].
  rewrite (ensure_singleton_agree _ _ _ _ _ _ (pg_agree _ _ Hp)).
  destruct (ensure_singleton_vote_update_with_conn d0 _ _ _ _) as [[]|]; [|done].
  apply tree_position_ok in E1, E2.
  destruct (when_some hash d0 _) as [t|] eqn:Ew; [|done].
  rewrite when_some_fixed.
  2: { intros h ->. cbn in Ew. destruct (require_tx_hash h); [|done].
       apply record_submission_fixed; [|by apply Hh].
       rewrite (ensure_intent_progress _ _ _ _ _ _ Hp). by apply (He h). }
  assert (require_vote_recovery_json d round wallet bundle proposal = Ok tt) as ->.
  { destruct (require_vote_recovery_json t _ _ _ _) as [[]|] eqn:Er; [|done].
    assert (progress d0 t) as Hpt.
    { apply (when_some_step _ _ _ _ (fun _ _ => True)) in Ew as [? _]; [done|]. intros h Hr.
      destruct (require_tx_hash h); [|done]. by apply record_submission_step in Hr as (?&_). }
    rewrite (require_json_agree d0 t) in Er by apply Hpt.
    by rewrite (require_json_agree d0 d) by apply Hp. }
  rewrite advance_fixed by done. by apply record_position_fixed.
Qed.

(** One member of a batch after its confirmation. *)
Record member_confirmed d (wallet round : string) (bundle : Z) (hash : option string)
    (m : Z * Z) : Prop := {
  mc_hash : carried hash (fun h => vote_has_hash d (round, wallet, bundle, m.1) h
    /\ ensure_vote_submission_matches_ballot_intent d round wallet bundle m.1 = Ok tt);
  mc_text : require_vote_recovery_json d round wallet bundle m.1 = Ok tt;
  mc_position : vote_at d (round, wallet, bundle, m.1) m.2;
  mc_max : m.2 <= i64_max
}.

Lemma member_progress d d' wallet round bundle hash m :
  progress d d' -> member_confirmed d wallet round bundle hash m ->
  member_confirmed d' wallet round bundle hash m.
Proof.
  intros Hp [Hh Ht Hv Hm]. split; [|by rewrite (require_json_agree d d') by apply Hp|
    by apply (pg_vote_at _ _ Hp)|done].
  intros h Hh'. destruct (Hh h Hh') as [? ?]. split; [by apply (pg_vote_hash _ _ Hp)|].
  by rewrite (ensure_intent_progress _ _ _ _ _ _ Hp).
Qed.

Definition member_key (m : VoteRecoveryBundle * Z) : Z * Z := (vr_proposal_id m.1, m.2).

Lemma members_step d wallet round bundle hash members d' :
  parsed_valid d -> Forall (fun m : VoteRecoveryBundle * Z => 0 <= m.2) members ->
  confirm_members d wallet round bundle hash members = Ok d' ->
  progress d d' /\ Forall (member_confirmed d' wallet round bundle hash) (map member_key members).
Proof.
  intros Hd Hm. revert d Hd. induction Hm as [|[r q] members Hq _ IH]; intros d Hd Hs.
  - cbn in Hs. simplify_eq. split; [reflexivity|constructor].
  - cbn [confirm_members] in Hs.
    destruct (when_some hash d _) as [t1|] eqn:E1; [|done].
    destruct (require_vote_recovery_json t1 _ _ _ _) as [[]|] eqn:E2; [|done].
    destruct (record_vc_position_with_conn t1 _ _ _ _ _) as [t2|] eqn:E3; [|done].
    pose proof (record_position_inv _ _ _ _ _ _ _ E3) as [Hmax _].
    apply (when_some_step _ _ _ _ (fun h d' =>
      vote_has_hash d' (round, wallet, bundle, vr_proposal_id r) h
      /\ ensure_vote_submission_matches_ballot_intent d round wallet bundle (vr_proposal_id r)
         = Ok tt)) in E1 as [Hp1 Hh];
      [|intros h Hr; apply record_submission_step in Hr as (?&?&?); by split].
    apply record_position_step in E3 as [Hp2 Hat]; [|by apply (pg_valid _ _ Hp1)|done].
    apply IH in Hs as [Hp3 Hall]; [|by apply (pg_valid _ _ Hp2), (pg_valid _ _ Hp1)].
    split; [by etrans; [|etrans]|]. cbn [map]. constructor; [|done].
    apply (member_progress t2 d'); [done|]. split; cbn.
    + intros h Hh'. destruct (Hh h Hh') as [? He]. split; [by apply (pg_vote_hash _ _ Hp2)|].
      by rewrite (ensure_intent_progress _ _ _ _ _ _ Hp2), (ensure_intent_progress _ _ _ _ _ _ Hp1).
    + by rewrite (require_json_agree t1 t2) by apply Hp2.
    + done.
    + done.
Qed.

Lemma members_fixed d wallet round bundle hash members :
  Forall (fun m : VoteRecoveryBundle * Z => 0 <= m.2) members ->
  Forall (member_confirmed d wallet round bundle hash) (map member_key members) ->
  confirm_members d wallet round bundle hash members = Ok d.
Proof.
  intros Hm. induction Hm as [|[r q] members Hq _ IH]; intros Hall; [done|].
  cbn [map] in Hall. apply Forall_cons_iff in Hall as [[Hh Ht Hv Hmax] Hall]. cbn in *.
  rewrite when_some_fixed.
  2: { intros h Hh'. destruct (Hh h Hh') as [? ?]. by apply record_submission_fixed. }
  rewrite Ht, record_position_fixed by done. by apply IH.
Qed.

Lemma zip_keys (ms ms' : list VoteRecoveryBundle) (ps : list Z) :
  Forall2 same_but_position ms ms' ->
  map member_key (zip ms ps) = map member_key (zip ms' ps).
Proof.
  intros Hs. revert ps. induction Hs as [|a b ms ms' Hab _ IH]; intros [|p ps]; try done.
  cbn [zip_with map]. unfold member_key at 1 3. cbn. by rewrite IH, (same_field vr_proposal_id a b).
Qed.

Lemma zip_positive (ms : list VoteRecoveryBundle) ps :
  Forall (fun p => 0 <= p) ps -> Forall (fun m : VoteRecoveryBundle * Z => 0 <= m.2) (zip ms ps).
Proof.
  intros Hps. revert ms. induction Hps as [|p ps Hp _ IH]; intros [|m ms]; constructor;
    [done|apply IH].
Qed.

Lemma batch_step d wallet round bundle dg hash van positions ids nfs d' :
  parsed_valid d -> Forall (fun p => 0 <= p) positions ->
  apply_vote_batch_confirmation_with_conn d wallet round bundle dg hash van positions ids nfs = Ok d' ->
  progress d d' /\ van_reaches d' (round, wallet, bundle) van
  /\ exists ms, load_vote_batch_recoveries_with_conn d wallet round bundle dg = Ok ms
     /\ length positions = length ms /\ carried ids (fun l => l = map vr_proposal_id ms)
     /\ Forall (member_confirmed d' wallet round bundle hash) (map member_key (zip ms positions)).
Proof.
  intros Hd Hps. unfold apply_vote_batch_confirmation_with_conn. intros Hs.
  destruct (require_tree_position van _); [|done]. destruct (try_map _ positions); [|done].
  match type of Hs with match ?m with Ok _ => _ | Err _ => _ end = _ => destruct m; [|done] end.
  destruct (load_vote_batch_recoveries_with_conn d _ _ _ _) as [ms|] eqn:El; [|done].
  cbv beta iota zeta in Hs. destruct (_ || _) eqn:Ed; [done|].
  apply orb_false_iff in Ed as [Ed _].
  destruct (negb _) eqn:En; [done|]. apply negb_false_iff, bool_decide_eq_true in En.
  destruct (confirm_members _ _ _ _ _ _) as [t|] eqn:Ec; [|done].
  apply members_step in Ec as [Hp1 Hall]; [|done|by apply zip_positive].
  apply advance_step in Hs as [Hp2 Hv]. split_and!; [by etrans|done|].
  exists ms. split_and!; [done|done| |].
  - intros l ->. by apply negb_false_iff, bool_decide_eq_true in Ed.
  - eapply Forall_impl; [|exact Hall]. intros m Hm. by apply (member_progress t d').
Qed.

Lemma batch_again d0 wallet round bundle dg hash van positions ids nfs d1 d :
  parsed_valid d0 -> 0 <= van -> Forall (fun p => 0 <= p) positions ->
  apply_vote_batch_confirmation_with_conn d0 wallet round bundle dg hash van positions ids nfs = Ok d1 ->
  progress d1 d ->
  apply_vote_batch_confirmation_with_conn d wallet round bundle dg hash van positions ids nfs = Ok d.
Proof.
  intros Hd Hvan Hps Hs Hpd.
  pose proof (batch_step _ _ _ _ _ _ _ _ _ _ _ Hd Hps Hs) as (Hp&Hv&ms&El&Hlen&_&Hall).
  apply (pg_van _ _ Hpd) in Hv. assert (progress d0 d) as Hp' by by etrans.
  unfold apply_vote_batch_confirmation_with_conn in *.
  destruct (require_tree_position van _) as [[]|] eqn:Et; [|done]. apply tree_position_ok in Et.
  destruct (try_map _ positions); [|done].
  match type of Hs with match ?m with Ok _ => _ | Err _ => _ end = _ => destruct m; [|done] end.
  destruct (agree_members _ _ _ _ _ _ _ (pg_agree _ _ Hp') El) as (ms'&->&Hms).
  rewrite El in Hs. cbv beta iota zeta in Hs |- *.
  rewrite <-(same_map vr_proposal_id _ _ ltac:(done) Hms).
  rewrite <-(same_map (fun r => hex_encode (vr_van_nullifier r)) _ _ ltac:(done) Hms).
  pose proof (Forall2_length Hms) as <-. destruct (_ || _); [done|]. destruct (negb _); [done|].
  rewrite members_fixed; [by apply advance_fixed|by apply zip_positive|].
  rewrite <-(zip_keys _ _ _ Hms). eapply Forall_impl; [|exact Hall]. intros m Hm.
  by apply (member_progress d1 d).
Qed.

(** ** The lifecycle's projection *)
Definition positions_u64 (v : ValidatedChainSubmissionConfirmation) : Prop :=
  is_u64 (conf_final_van_position (confirmation v))
  /\ Forall is_u64 (conf_vote_commitment_positions (confirmation v)).

(** What a confirmation promises of the tables: the note position, and for
    every vote, in the generation's order, its position in the row and in the
    recovery text; the transaction hash when the evidence has one; and for a
    combined batch the delegation's hash and the end of its rejection streak. *)
Definition confirmation_recorded d (bound : BoundGeneration)
    (v : ValidatedChainSubmissionConfirmation) : Prop :=
  let i := gen_identity (bound_generation bound) in
  let round := hex_encode (vote_round_id i) in
  let key := (round, wallet_id i, bundle_index i) in
  let hash := hex_encode <$> conf_transaction_hash (confirmation v) in
  let positions := conf_vote_commitment_positions (confirmation v) in
  let voted proposal position :=
    vote_at d (round, wallet_id i, bundle_index i, proposal) position
    /\ carried hash (vote_has_hash d (round, wallet_id i, bundle_index i, proposal)) in
  van_reaches d key (conf_final_van_position (confirmation v))
  /\ match target i with
     | Delegation => carried hash (bundle_has_hash d key)
     | Vote proposal => exists position, positions = [position] /\ voted proposal position
     | VoteBatch _ => Forall2 voted (bound_ordered_proposal_ids bound) positions
     | DelegateAndVoteBatch _ =>
         Forall2 voted (bound_ordered_proposal_ids bound) positions
         /\ carried hash (bundle_has_hash d key) /\ tb_combined_cast_rejections d !! key = None
     end.

Lemma stored_parsed_valid d : stored_types d -> parsed_valid d.
Proof.
  intros Hd k v s r Hv Hs Hp. eapply parsed_is_valid; [|exact Hp]. by eapply (ty_json d Hd).
Qed.

Lemma u64_nonneg v :
  positions_u64 v -> 0 <= conf_final_van_position (confirmation v)
    /\ Forall (fun p => 0 <= p) (conf_vote_commitment_positions (confirmation v)).
Proof.
  intros [[? _] Hps]. split; [done|]. eapply Forall_impl; [|exact Hps]. by intros p [? _].
Qed.

Lemma voted_members d wallet round bundle hash ms positions :
  length positions = length ms ->
  Forall (member_confirmed d wallet round bundle hash) (map member_key (zip ms positions)) ->
  Forall2 (fun proposal position => vote_at d (round, wallet, bundle, proposal) position
    /\ carried hash (vote_has_hash d (round, wallet, bundle, proposal)))
    (map vr_proposal_id ms) positions.
Proof.
  revert positions. induction ms as [|m ms IH]; intros [|p positions] Hlen Hall; try done.
  cbn [zip_with map] in *. apply Forall_cons_iff in Hall as [[Hh _ Hv _] Hall]. cbn in *.
  constructor; [split; [done|]|apply IH; [lia|done]]. intros h Hh'. by apply (Hh h).
Qed.

Lemma clear_ledger_progress d wallet round bundle :
  progress d (clear_combined_rejection_ledger d wallet round bundle).
Proof. by apply progress_elsewhere. Qed.

Lemma project_step d bound v d' :
  parsed_valid d -> positions_u64 v -> project_confirmed_generation d bound v = Ok d' ->
  progress d d' /\ confirmation_recorded d' bound v.
Proof.
  intros Hd (Hvan&Hps)%u64_nonneg. unfold project_confirmed_generation, confirmation_recorded.
  cbv zeta. set (i := gen_identity (bound_generation bound)). set (c := confirmation v) in *.
  set (hash := hex_encode <$> conf_transaction_hash c).
  destruct (target i) as [|proposal|dg|dg] eqn:Et; destruct (bound_expected_layout bound) as [|? ?|? coms];
    try done.
  - destruct (conf_vote_commitment_positions c); [|done].
    intros (Hp&Hh&Hv)%delegation_step; [|done]. by split.
  - destruct (conf_vote_commitment_positions c) as [|q [|? ?]]; try done.
    apply Forall_cons_iff in Hps as [Hq _].
    intros (Hp&Hh&_&Hv&Hat)%vote_step; [|done|done]. split; [done|]. split; [done|]. by exists q.
  - destruct (_ && _); [|done]. destruct (apply_vote_batch_confirmation_with_conn _ _ _ _ _ _ _ _ _ _)
      as [t|] eqn:Ea; [|done]. intros [= <-].
    apply batch_step in Ea as (Hp&Hv&ms&_&Hlen&Hids&Hall); [|done|done].
    split; [done|]. split; [done|]. rewrite (Hids _ eq_refl). by apply voted_members.
  - destruct (_ && _); [|done]. destruct (apply_vote_batch_confirmation_with_conn _ _ _ _ _ _ _ _ _ _)
      as [t|] eqn:Ea; [|done]. cbn [is_combined].
    apply batch_step in Ea as (Hp&Hv&ms&_&Hlen&Hids&Hall); [|done|done].
    destruct (when_some hash t _) as [u|] eqn:Ew; [|done]. intros [= <-].
    apply (when_some_step _ _ _ _ (fun h d' =>
      bundle_has_hash d' (hex_encode (vote_round_id i), wallet_id i, bundle_index i) h)) in Ew
      as [Hp2 Hh]; [|intros h Hr; by apply store_hash_step].
    set (d' := clear_combined_rejection_ledger _ _ _ _).
    assert (progress t d') as Hp3 by (etrans; [exact Hp2|apply clear_ledger_progress]).
    split; [by etrans|]. split; [by apply (pg_van _ _ Hp3)|]. split_and!.
    + rewrite (Hids _ eq_refl). apply voted_members; [done|].
      eapply Forall_impl; [|exact Hall]. intros m Hm. by apply (member_progress t d').
    + intros h Hh'. by apply (pg_bundle_hash _ _ (clear_ledger_progress u _ _ _)), Hh.
    + cbn. by apply lookup_delete_eq.
Qed.

(** The batch's steps followed by the delegation hash and the ledger. *)
Lemma combined_fixed d0 wallet round bundle dg hash van positions ids d :
  parsed_valid d0 -> 0 <= van -> Forall (fun p => 0 <= p) positions ->
  let run d :=
    let? t := apply_vote_batch_confirmation_with_conn d wallet round bundle dg hash van positions
      ids None in
    let? t := when_some hash t (store_delegation_tx_hash t round wallet bundle) in
    Ok (clear_combined_rejection_ledger t wallet round bundle) in
  run d0 = Ok d -> run d = Ok d.
Proof.
  intros Hd Hvan Hps run. unfold run.
  destruct (apply_vote_batch_confirmation_with_conn d0 _ _ _ _ _ _ _ _ _) as [t|] eqn:Ea; [|done].
  destruct (when_some hash t _) as [u|] eqn:Ew; [|done]. intros [= <-].
  pose proof (batch_step _ _ _ _ _ _ _ _ _ _ _ Hd Hps Ea) as (Hp&_).
  apply (when_some_step _ _ _ _ (fun h d' => bundle_has_hash d' (round, wallet, bundle) h)) in Ew
    as [Hp2 Hh]; [|intros h Hr; by apply store_hash_step].
  set (d := clear_combined_rejection_ledger u wallet round bundle).
  assert (progress t d) as Hp3 by (etrans; [exact Hp2|apply clear_ledger_progress]).
  rewrite (batch_again _ _ _ _ _ _ _ _ _ _ _ _ Hd Hvan Hps Ea Hp3).
  rewrite when_some_fixed.
  2: { intros h Hh'. apply store_hash_fixed, (pg_bundle_hash _ _ (clear_ledger_progress u _ _ _)).
       by apply Hh. }
  f_equal. unfold d, clear_combined_rejection_ledger, with_rejections. cbn. by rewrite delete_delete_eq.
Qed.


(** C22 (derivations survive): whatever generation is confirmed, every
    submission that could be derived before the projection derives the same
    generation and the same wire request after it, so a restarted wallet
    recognises its own rows. *)
Theorem confirmation_keeps_derivations d bound v d' q x :
  stored_types d -> positions_u64 v -> project_confirmed_generation d bound v = Ok d' ->
  derive_submission d q = Ok x -> derive_submission d' q = Ok x.
Proof.
  intros Hd Hv Hp Hx. apply project_step in Hp as [Hp _]; [|by apply stored_parsed_valid|done].
  by eapply agree_derivation; [apply Hp|].
Qed.

(** Replay: projecting the same confirmation again succeeds and changes
    nothing. *)
Theorem confirmation_idempotent d bound v d' :
  stored_types d -> positions_u64 v -> project_confirmed_generation d bound v = Ok d' ->
  project_confirmed_generation d' bound v = Ok d'.
Proof.
  intros Hd%stored_parsed_valid (Hvan&Hps)%u64_nonneg. unfold project_confirmed_generation.
  cbv zeta. set (i := gen_identity (bound_generation bound)). set (c := confirmation v) in *.
  set (hash := hex_encode <$> conf_transaction_hash c).
  destruct (target i) as [|proposal|dg|dg] eqn:Et; destruct (bound_expected_layout bound) as [|? ?|? coms];
    try done.
  - destruct (conf_vote_commitment_positions c); [|done]. by apply delegation_fixed.
  - destruct (conf_vote_commitment_positions c) as [|q [|? ?]]; try done.
    apply Forall_cons_iff in Hps as [Hq _]. by apply vote_fixed.
  - destruct (_ && _); [|done]. destruct (apply_vote_batch_confirmation_with_conn _ _ _ _ _ _ _ _ _ _)
      as [t|] eqn:Ea; [|done]. intros [= <-]. by rewrite (batch_again _ _ _ _ _ _ _ _ _ _ _ _ Hd Hvan Hps Ea (reflexivity _)).
  - destruct (_ && _); [|done]. by apply combined_fixed.
Qed.
End confirmations.

(** ** At concrete tables *)
Section example.
#[local] Existing Instance example_externals.
#[local] Existing Instance example_text.
#[local] Existing Instance example_recovery_externals.
#[local] Existing Instance example_domain_externals.
#[local] Existing Instance example_json_agreement.

Definition example_before : VotingTables := example_tables [example_recovery 3 0 None].
Definition example_confirmation : ValidatedChainSubmissionConfirmation :=
  VHash (mk_confirmation HashSource (Some example_hash) 7 [9]).
Definition example_bound : BoundGeneration :=
  match derive_submission example_before (DVote example_identity) with
  | Ok x => derived_bound x
  | Err _ => mk_bound (mk_generation example_identity []) (LDelegation []) []
  end.

Lemma example_stored_types : stored_types example_before.
Proof. apply stored_types_checked. vm_compute. reflexivity. Qed.

Lemma example_positions_u64 : positions_u64 example_confirmation.
Proof. split; [|constructor; [|constructor]]; unfold is_u64, u64_max; cbn; lia. Qed.

Lemma example_projects :
  exists d', project_confirmed_generation example_before example_bound example_confirmation = Ok d'.
Proof.
  assert (match project_confirmed_generation example_before example_bound example_confirmation with
    | Ok _ => true | Err _ => false end = true) as Hok by (vm_compute; reflexivity).
  destruct (project_confirmed_generation _ _ _) as [d'|]; [by exists d'|discriminate Hok].
Qed.


Lemma confirmation_keeps_derivations_witness :
  exists d' x, project_confirmed_generation example_before example_bound example_confirmation = Ok d'
    /\ derive_submission d' (DVote example_identity) = Ok x.
Proof.
  destruct example_projects as [d' Hd'].
  assert (match derive_submission example_before (DVote example_identity) with
    | Ok _ => true | Err _ => false end = true) as Hok by (vm_compute; reflexivity).
  destruct (derive_submission example_before (DVote example_identity)) as [x|] eqn:Hx;
    [|discriminate Hok].
  exists d', x. split; [exact Hd'|].
  exact (confirmation_keeps_derivations _ _ _ _ _ _ example_stored_types example_positions_u64 Hd' Hx).
Defined.

Lemma confirmation_idempotent_witness :
  exists d', project_confirmed_generation example_before example_bound example_confirmation = Ok d'
    /\ project_confirmed_generation d' example_bound example_confirmation = Ok d'.
Proof.
  destruct example_projects as [d' Hd']. exists d'. split; [exact Hd'|].
  exact (confirmation_idempotent _ _ _ _ example_stored_types example_positions_u64 Hd').
Defined.
End example.
