(* ===== verification/HelperPlans.v ===== *)
(** * Helper plans and immediate shares across a confirmation

    The schema deletes a vote's helper plan and the round's immediate-share
    designation when the vote's recovery text changes, except for the change
    that a confirmation makes. This file shows that the exception holds: no
    projection of a confirmation loses a plan or a designation. *)

From stdpp Require Import base gmap strings list numbers.
From Stdlib Require Import ZifyBool.
From S2P Require Import Prelude Identity Outcome Lifecycle Record Confirmation Rows Store.
From S2P Require Import Coordinator Recovery Protocol SampleCodec VoteRecovery Transcript.
From S2P Require Import Generation SampleTables GenerationProofs Projection Agreement ProjectionProofs.
Local Open Scope Z_scope.
Local Open Scope voting_scope.

Section closure.
Context `{Externals} `{SqliteText} `{RecoveryExternals} `{DomainExternals}.
Context (R : VotingTables -> VotingTables -> Prop) `{!PreOrder R}.
Implicit Types d : VotingTables.

Hypothesis R_hash : forall d round wallet bundle hash d',
  store_delegation_tx_hash d round wallet bundle hash = Ok d' -> R d d'.
Hypothesis R_van : forall d round wallet bundle position d',
  store_van_position_u64 d round wallet bundle position = Ok d' -> R d d'.
Hypothesis R_submission : forall d round wallet bundle proposal hash d',
  record_vote_submission d round wallet bundle proposal hash = Ok d' -> R d d'.
Hypothesis R_position : forall d wallet round bundle proposal position d',
  0 <= position ->
  record_vc_position_with_conn d wallet round bundle proposal position = Ok d' -> R d d'.
Hypothesis R_ledger : forall d wallet round bundle,
  R d (clear_combined_rejection_ledger d wallet round bundle).

Lemma advance_closed d round wallet bundle position d' :
  advance_van_position_in_tx d round wallet bundle position = Ok d' -> R d d'.
Proof.
  unfold advance_van_position_in_tx. intros Hd. ok_inv Hd; try (by eapply R_van).
  by subst.
Qed.

Lemma when_some_closed {A} (o : option A) d f d' :
  when_some o d f = Ok d' -> (forall a, f a = Ok d' -> R d d') -> R d d'.
Proof. destruct o; cbn; intros Hd Hf; [by eapply Hf|]. by simplify_eq. Qed.

Lemma delegation_closed d wallet round bundle hash position d' :
  apply_delegation_confirmation_with_conn d wallet round bundle hash position = Ok d' -> R d d'.
Proof.
  unfold apply_delegation_confirmation_with_conn. intros Hd. ok_inv Hd;
    match goal with E : when_some _ _ _ = Ok _ |- _ =>
      apply when_some_closed in E; [|intros; by eapply R_hash] end.
  - etrans; [done|]. by eapply R_van.
  - by subst.
Qed.

Lemma vote_closed d wallet round bundle proposal hash van vc d' :
  0 <= vc ->
  apply_vote_confirmation_with_conn d wallet round bundle proposal hash van vc = Ok d' -> R d d'.
Proof.
  intros Hvc. unfold apply_vote_confirmation_with_conn. intros Hd. ok_inv Hd.
  match goal with E : when_some _ _ _ = Ok _ |- _ => apply when_some_closed in E end.
  2: { intros h Hr. destruct (require_tx_hash h); [|done]. by eapply R_submission. }
  etrans; [done|]. etrans; [by eapply advance_closed|]. by eapply R_position.
Qed.

Lemma members_closed d wallet round bundle hash members d' :
  Forall (fun m : VoteRecoveryBundle * Z => 0 <= m.2) members ->
  confirm_members d wallet round bundle hash members = Ok d' -> R d d'.
Proof.
  intros Hm. revert d. induction Hm as [|[r q] members Hq _ IH]; intros d Hs; cbn [confirm_members] in Hs.
  - by simplify_eq.
  - ok_inv Hs. etrans; [eapply when_some_closed; [done|]; intros; by eapply R_submission|].
    etrans; [by eapply R_position|]. by apply IH.
Qed.

Lemma batch_closed d wallet round bundle dg hash van positions ids nfs d' :
  Forall (fun p => 0 <= p) positions ->
  apply_vote_batch_confirmation_with_conn d wallet round bundle dg hash van positions ids nfs = Ok d' ->
  R d d'.
Proof.
  intros Hps. unfold apply_vote_batch_confirmation_with_conn. intros Hs. ok_inv Hs.
  etrans; [eapply members_closed; [by apply zip_positive|done]|]. by eapply advance_closed.
Qed.

(** A relation that holds along each write holds along the projection. *)
Lemma projection_closed d bound v d' :
  positions_u64 v -> project_confirmed_generation d bound v = Ok d' -> R d d'.
Proof.
  intros (_&Hps)%u64_nonneg. unfold project_confirmed_generation. cbv zeta.
  set (i := gen_identity (bound_generation bound)). set (c := confirmation v) in *.
  destruct (target i) as [|proposal|dg|dg]; destruct (bound_expected_layout bound); try done.
  - destruct (conf_vote_commitment_positions c); [|done]. apply delegation_closed.
  - destruct (conf_vote_commitment_positions c) as [|q [|? ?]]; try done.
    apply Forall_cons_iff in Hps as [Hq _]. by apply vote_closed.
  - destruct (_ && _); [|done]. cbn [is_combined]. intros Hd. ok_inv Hd. subst. by eapply batch_closed.
  - destruct (_ && _); [|done]. cbn [is_combined]. intros Hd. ok_inv Hd. subst.
    etrans; [by eapply batch_closed|]. etrans; [|apply R_ledger].
    eapply when_some_closed; [done|]. intros; by eapply R_hash.
Qed.
End closure.

Section plans.
Context `{Externals} `{SqliteText} `{RecoveryExternals} `{DomainExternals} `{!JsonAgreement}.
Implicit Types d : VotingTables.

(** Stored texts are the library's own encodings, in step with their rows. *)
Definition texts_in_step d : Prop :=
  forall k v s, tb_votes d !! k = Some v -> vt_commitment_bundle_json v = Some s ->
    exists r, valid_recovery r /\ s = canonical r
      /\ forall p, vt_vc_tree_position v = Some p -> vr_vc_tree_position r = p.

(** A helper plan bound to its vote's current text. *)
Definition plan_bound d (k : VoteId) : Prop :=
  exists v s, tb_votes d !! k = Some v /\ vt_commitment_bundle_json v = Some s
    /\ tb_helper_share_plans d !! k = Some s.

Definition keeps_plans d d' : Prop :=
  texts_in_step d ->
  texts_in_step d' /\ tb_round_immediate_share d' = tb_round_immediate_share d
  /\ forall k, plan_bound d k -> plan_bound d' k.

#[local] Instance keeps_plans_preorder : PreOrder keeps_plans.
Proof.
  split; [by intros d Hd|]. intros d1 d2 d3 H12 H23 Hd.
  destruct (H12 Hd) as (Hd2&E2&P2). destruct (H23 Hd2) as (Hd3&E3&P3).
  split_and!; [done|congruence|by eauto].
Qed.

Lemma keeps_plans_bundles d m : keeps_plans d (with_bundles d m).
Proof. by intros Hd. Qed.

Lemma keeps_plans_row d k v v' :
  tb_votes d !! k = Some v -> vt_commitment_bundle_json v' = vt_commitment_bundle_json v ->
  (forall p, vt_vc_tree_position v' = Some p -> vt_vc_tree_position v = Some p
    \/ vt_commitment_bundle_json v = None) ->
  keeps_plans d (with_votes d (<[k := v']> (tb_votes d))).
Proof.
  intros Hv Hj Hp Hd. split_and!; [|done|].
  - intros k' w s Hw Hs. cbn in Hw. destruct (decide (k' = k)) as [->|Hne].
    + rewrite lookup_insert_eq in Hw. simplify_eq. rewrite Hj in Hs.
      destruct (Hd k v s Hv Hs) as (r&Hr&->&Hrp). exists r. split_and!; [done..|].
      intros p Hwp. destruct (Hp p Hwp); [by apply Hrp|congruence].
    + rewrite lookup_insert_ne in Hw by done. by apply (Hd k').
  - intros k' (w&s&Hw&Hs&Hpl). unfold plan_bound. cbn. destruct (decide (k' = k)) as [->|Hne].
    + rewrite lookup_insert_eq. rewrite Hv in Hw. simplify_eq. exists v', s. by rewrite Hj.
    + rewrite lookup_insert_ne by done. by exists w, s.
Qed.

(** The text a confirmation writes is what SQL's own update of the position
    would produce, so the triggers take it for a confirmation. *)
Lemma fills_position_canonical v r position tx :
  vt_commitment_bundle_json v = Some (canonical r) -> vt_vc_tree_position v = None ->
  fills_position v (mk_vote_row (vt_choice v) (vt_commitment v) tx (Some position)
    (Some (canonical (with_position r position)))) = Some true.
Proof.
  intros Hj Hp. unfold fills_position. rewrite Hj, Hp. cbn. f_equal. apply bool_decide_eq_true_2.
  unfold canonical. by rewrite json_set_position_string.
Qed.

Lemma partial_alter_unchanged {K A} `{Countable K} (f : option A -> option A) (k : K) (m : gmap K A) :
  f (m !! k) = m !! k -> partial_alter f k m = m.
Proof.
  intros Hf. apply map_eq. intros j. destruct (decide (j = k)) as [->|Hne].
  - by rewrite lookup_partial_alter_eq.
  - by rewrite lookup_partial_alter_ne.
Qed.

(** Filling in the position: the plan moves to the new text. *)
Lemma keeps_plans_fill d k v r position :
  tb_votes d !! k = Some v -> vt_commitment_bundle_json v = Some (canonical r) ->
  vt_vc_tree_position v = None -> valid_recovery (with_position r position) ->
  keeps_plans d (update_vote_text d k v (mk_vote_row (vt_choice v) (vt_commitment v) (vt_tx_hash v)
    (Some position) (Some (canonical (with_position r position))))).
Proof.
  intros Hv Hj Hn Hval. set (v' := mk_vote_row _ _ _ _ _).
  pose proof (fills_position_canonical v r position (vt_tx_hash v) Hj Hn) as Hf. fold v' in Hf.
  intros Hd. split_and!.
  - intros k' w s Hw Hs. unfold update_vote_text in Hw. rewrite triggers_keep_votes in Hw. cbn in Hw.
    destruct (decide (k' = k)) as [->|Hne].
    + rewrite lookup_insert_eq in Hw. simplify_eq. cbn in Hs. simplify_eq.
      exists (with_position r position). split_and!; [done..|]. by intros p [= <-].
    + rewrite lookup_insert_ne in Hw by done. by apply (Hd k').
  - unfold update_vote_text, run_vote_triggers. case_bool_decide; [done|].
    destruct k as [[[round wallet] bundle] proposal]. cbn. apply partial_alter_unchanged.
    destruct (tb_round_immediate_share d !! _) as [row|]; [|done]. cbn. by rewrite Hf.
  - intros k' (w&s&Hw&Hs&Hpl). unfold plan_bound, update_vote_text. rewrite triggers_keep_votes. cbn.
    destruct (decide (k' = k)) as [->|Hne].
    + rewrite lookup_insert_eq. rewrite Hv in Hw. simplify_eq. exists v', (canonical (with_position r position)).
      split_and!; [done..|]. unfold run_vote_triggers. case_bool_decide as Heq.
      { cbn in Heq |- *. congruence. }
      destruct k as [[[round wallet] bundle] proposal]. cbn. rewrite lookup_partial_alter_eq, Hpl. cbn.
      unfold update_plan. rewrite Hj, Hf, (bool_decide_eq_true_2 (Some (canonical r) = _)) by done. cbn.
      by rewrite bool_decide_eq_true_2.
    + rewrite lookup_insert_ne by done. exists w, s. split_and!; [done..|].
      unfold run_vote_triggers. case_bool_decide; [done|].
      destruct k as [[[round wallet] bundle] proposal]. cbn. by rewrite lookup_partial_alter_ne.
Qed.

Lemma keeps_plans_position d wallet round bundle proposal position d' :
  0 <= position ->
  record_vc_position_with_conn d wallet round bundle proposal position = Ok d' -> keeps_plans d d'.
Proof.
  intros Hp Hr. pose proof (record_position_inv _ _ _ _ _ _ _ Hr) as (Hmax&v&Hv&Hc).
  rewrite (record_position_run _ _ _ _ _ _ _ Hv Hmax Hc) in Hr. apply stored_position_ok in Hc.
  set (k := (round, wallet, bundle, proposal)) in *.
  destruct (vt_commitment_bundle_json v) as [json|] eqn:Ej.
  2: { injection Hr as <-. apply keeps_plans_row with v; [done|done|]. intros p. by right. }
  intros Hd. destruct (Hd k v json Hv Ej) as (r&Hval&->&Hrp).
  rewrite canonical_parses in Hr by done.
  destruct (validate_recovery_matches_stored_vote _ _ _ _ _ _); [|done].
  assert (valid_recovery (with_position r position)) as Hval'.
  { apply with_position_valid; [done|by apply position_u64]. }
  rewrite (proj1 (parse_serialized _ Hval')) in Hr. injection Hr as <-.
  fold (canonical (with_position r position)). revert Hd.
  destruct Hc as [Hnone|Hsome]; [by apply keeps_plans_fill|].
  assert (with_position r position = r) as ->
    by (pose proof (Hrp _ Hsome); destruct r; cbn in *; by subst).
  unfold update_vote_text, run_vote_triggers. rewrite bool_decide_eq_true_2 by done.
  apply keeps_plans_row with v; [done|done|]. intros p [= <-]. by left.
Qed.

(** Helper plans: while stored texts are in step with their rows, the
    projection of a confirmation keeps every helper plan bound to its vote's
    current text and every immediate-share designation, and the texts stay in
    step: the triggers that drop them on a changed generation do not take a
    confirmed position for one. *)
Theorem confirmation_keeps_helper_plans d bound v d' :
  texts_in_step d -> positions_u64 v -> project_confirmed_generation d bound v = Ok d' ->
  texts_in_step d' /\ tb_round_immediate_share d' = tb_round_immediate_share d
  /\ forall k, plan_bound d k -> plan_bound d' k.
Proof.
  intros Hd Hv Hp. revert Hd. change (keeps_plans d d').
  eapply (projection_closed keeps_plans); [| | | | |exact Hv|exact Hp].
  - intros ? ? ? ? ? ?. unfold store_delegation_tx_hash. intros E. ok_inv E; subst;
      apply keeps_plans_bundles.
  - intros ? ? ? ? ? ?. unfold store_van_position_u64. intros E. ok_inv E; subst;
      apply keeps_plans_bundles.
  - intros t round wallet bundle proposal hash t'. unfold record_vote_submission. intros E.
    ok_inv E; subst; [|by intros ?]. eapply keeps_plans_row; [done|done|]. intros p Hr. by left.
  - intros. by eapply keeps_plans_position.
  - by intros ? ? ? ? ?.
Qed.
End plans.

(** ** At concrete tables *)
Section example.
#[local] Existing Instance example_externals.
#[local] Existing Instance example_text.
#[local] Existing Instance example_recovery_externals.
#[local] Existing Instance example_domain_externals.
#[local] Existing Instance example_json_agreement.

Lemma example_in_step : texts_in_step example_before.
Proof.
  intros k v s Hv Hs. cbn in Hv. rewrite lookup_insert in Hv. case_decide.
  - simplify_eq. cbn in Hs. injection Hs as <-. exists (example_recovery 3 0 None).
    split; [|split; [reflexivity|done]]. apply example_recovery_valid; vm_compute; reflexivity.
  - by rewrite lookup_empty in Hv.
Qed.

Lemma confirmation_keeps_helper_plans_witness :
  exists d', project_confirmed_generation example_before example_bound example_confirmation = Ok d'
    /\ plan_bound d' (example_vote_id 3).
Proof.
  destruct example_projects as [d' Hd']. exists d'. split; [exact Hd'|].
  destruct (confirmation_keeps_helper_plans _ _ _ _ example_in_step example_positions_u64 Hd')
    as (_&_&Hp).
  apply Hp. exists (example_vote_row (example_recovery 3 0 None)).
  exists (sample_string (recovery_to_json (example_recovery 3 0 None))).
  split; [reflexivity|]. split; reflexivity.
Defined.
End example.
