(* ===== verification/RetirementProofs.v ===== *)
(** * Correctness of the retirement of a rejected combined generation

    A terminal rejection of a combined delegate-and-vote batch clears every
    member vote, its helper plan and its shares, drops the authorization,
    leaves the delegation setup alone and counts the rejection against the
    delegation generation. *)

From stdpp Require Import base gmap strings list numbers.
From Stdlib Require Import ZifyBool.
From S2P Require Import Prelude Identity Outcome Lifecycle Record Confirmation Rows Store.
From S2P Require Import Coordinator Recovery Protocol SampleCodec VoteRecovery Transcript.
From S2P Require Import Generation SampleTables GenerationProofs Projection Agreement ProjectionProofs.
Local Open Scope Z_scope.
Local Open Scope voting_scope.

Section retirement.
Context `{Externals} `{SqliteText} `{RecoveryExternals} `{DomainExternals}.
Implicit Types d : VotingTables.

Definition cleared_row (v : VoteRow) : VoteRow :=
  mk_vote_row (vt_choice v) (vt_commitment v) None None None.

(** The tables a retirement never touches. *)
Record same_setup d d' : Prop := {
  ss_rounds : tb_rounds d' = tb_rounds d;
  ss_bundles : tb_bundles d' = tb_bundles d;
  ss_proofs : tb_proofs d' = tb_proofs d;
  ss_intent : tb_ballot_intent d' = tb_ballot_intent d
}.

#[local] Instance same_setup_preorder : PreOrder same_setup.
Proof. split; [by split|]. intros d1 d2 d3 [] []. split; congruence. Qed.

(** One vote: its row without text, its plan and its shares gone. *)
Record vote_cleared d d' (k : VoteId) : Prop := {
  vc_row : exists v, tb_votes d !! k = Some v /\ vt_tx_hash v = None
    /\ vt_vc_tree_position v = None /\ tb_votes d' !! k = Some (cleared_row v);
  vc_plan : tb_helper_share_plans d !! k = None
      \/ (exists v, tb_votes d !! k = Some v /\ is_Some (vt_commitment_bundle_json v)) ->
    tb_helper_share_plans d' !! k = None;
  vc_shares : forall n, (k, n) ∉ tb_share_delegations d'
}.

Record vote_kept d d' (k : VoteId) : Prop := {
  vk_row : tb_votes d' !! k = tb_votes d !! k;
  vk_plan : tb_helper_share_plans d' !! k = tb_helper_share_plans d !! k;
  vk_shares : forall n, (k, n) ∈ tb_share_delegations d' <-> (k, n) ∈ tb_share_delegations d
}.

Lemma cleared_plan v plan : update_plan v (cleared_row v) plan = None.
Proof. unfold update_plan. cbn. by rewrite (bool_decide_eq_false_2 (Some _ = None)). Qed.

Lemma clear_text_plans d k v k' :
  tb_helper_share_plans (update_vote_text d k v (cleared_row v)) !! k'
  = if bool_decide (k' = k) && bool_decide (is_Some (vt_commitment_bundle_json v)) then None
    else tb_helper_share_plans d !! k'.
Proof.
  unfold update_vote_text, run_vote_triggers. destruct (vt_commitment_bundle_json v) as [s|] eqn:Ej.
  - rewrite bool_decide_eq_false_2 by done. rewrite (bool_decide_eq_true_2 (is_Some _)) by done.
    rewrite andb_true_r. destruct k as [[[round wallet] bundle] proposal]. cbn. case_bool_decide as Hk.
    + subst. rewrite lookup_partial_alter_eq. destruct (tb_helper_share_plans d !! _); [|done].
      apply cleared_plan.
    + by rewrite lookup_partial_alter_ne.
  - rewrite bool_decide_eq_true_2 by done. rewrite (bool_decide_eq_false_2 (is_Some None)).
    + by rewrite andb_false_r.
    + by intros [? ?].
Qed.

Lemma clear_text_rest d k v :
  let t := update_vote_text d k v (cleared_row v) in
  tb_votes t = <[k := cleared_row v]> (tb_votes d)
  /\ tb_share_delegations t = tb_share_delegations d /\ same_setup d t
  /\ tb_delegate_cast_recovery t = tb_delegate_cast_recovery d
  /\ tb_combined_cast_rejections t = tb_combined_cast_rejections d.
Proof.
  cbv zeta. split; [unfold update_vote_text; by rewrite triggers_keep_votes|].
  unfold update_vote_text, run_vote_triggers. destruct k as [[[round wallet] bundle] proposal].
  by case_bool_decide.
Qed.

Lemma clear_one_ok d wallet round bundle proposal d' :
  clear_unsubmitted_vote_recovery_with_conn d wallet round bundle proposal = Ok d' ->
  same_setup d d' /\ tb_delegate_cast_recovery d' = tb_delegate_cast_recovery d
  /\ tb_combined_cast_rejections d' = tb_combined_cast_rejections d
  /\ vote_cleared d d' (round, wallet, bundle, proposal)
  /\ forall k, k <> (round, wallet, bundle, proposal) -> vote_kept d d' k.
Proof.
  unfold clear_unsubmitted_vote_recovery_with_conn. set (key := (round, wallet, bundle, proposal)).
  destruct (tb_votes d !! key) as [v|] eqn:Ev; [|done].
  destruct (null (vt_tx_hash v) && _) eqn:E; [|done]. intros [= <-].
  apply andb_true_iff in E as [Eh Ep]. fold (cleared_row v).
  pose proof (clear_text_rest d key v) as (Hv&Hs&[]&Ha&Hr).
  pose proof (clear_text_plans d key v) as Hp. set (t := update_vote_text d key v _) in *.
  split; [by split|]. split; [done|]. split; [done|]. split_and!.
  - split; cbn.
    + exists v. rewrite Hv, lookup_insert_eq. split_and!; [done| | |done].
      * by destruct (vt_tx_hash v).
      * by destruct (vt_vc_tree_position v).
    + intros [Hn|(w&Hw&Hj)]; [rewrite Hp, Hn; by case_match|].
      simplify_eq. by rewrite Hp, !bool_decide_eq_true_2.
    + intros n. unfold shares_without. rewrite elem_of_filter. cbn. naive_solver.
  - intros k Hk. split; cbn.
    + by rewrite Hv, lookup_insert_ne.
    + by rewrite Hp, bool_decide_eq_false_2.
    + intros n. rewrite Hs. unfold shares_without. rewrite elem_of_filter. cbn. naive_solver.
Qed.

Lemma cleared_cleared d t d' k : vote_cleared d t k -> vote_cleared t d' k -> vote_cleared d d' k.
Proof.
  intros [(v&Hv&Hh&Hp&Hr) Hplan _] [(v'&Hv'&_&_&Hr') Hplan' Hs]. rewrite Hr in Hv'. simplify_eq.
  split; [by exists v| |done]. intros Hd. apply Hplan'. left. by apply Hplan.
Qed.

Lemma cleared_kept d t d' k : vote_cleared d t k -> vote_kept t d' k -> vote_cleared d d' k.
Proof.
  intros [(v&Hv&Hh&Hp&Hr) Hplan Hs] [Er Ep Es]. split.
  - exists v. by rewrite Er.
  - rewrite Ep. done.
  - intros n. by rewrite Es.
Qed.

Lemma kept_cleared d t d' k : vote_kept d t k -> vote_cleared t d' k -> vote_cleared d d' k.
Proof. intros [Er Ep Es] [Hrow Hplan Hs]. rewrite Er in *. rewrite Ep in *. by split. Qed.

Lemma kept_kept d t d' k : vote_kept d t k -> vote_kept t d' k -> vote_kept d d' k.
Proof. intros [Er Ep Es] [Er' Ep' Es']. split; [congruence..|]. intros n. by rewrite Es'. Qed.

Definition member_vote (round wallet : string) (bundle : Z) (m : VoteRecoveryBundle) : VoteId :=
  (round, wallet, bundle, vr_proposal_id m).

Lemma clear_members_ok d wallet round bundle ms d' :
  clear_members d wallet round bundle ms = Ok d' ->
  same_setup d d' /\ tb_delegate_cast_recovery d' = tb_delegate_cast_recovery d
  /\ tb_combined_cast_rejections d' = tb_combined_cast_rejections d
  /\ forall k, if decide (k ∈ map (member_vote round wallet bundle) ms)
       then vote_cleared d d' k else vote_kept d d' k.
Proof.
  revert d. induction ms as [|m ms IH]; intros d Hd; cbn [clear_members] in Hd.
  - simplify_eq. split_and!; [done|done|done|]. intros k.
    rewrite decide_False by (by apply not_elem_of_nil). by split.
  - destruct (clear_unsubmitted_vote_recovery_with_conn _ _ _ _ _) as [t|] eqn:E; [|done].
    apply clear_one_ok in E as (Hs1&Ha1&Hr1&Hc1&Hk1).
    apply IH in Hd as (Hs2&Ha2&Hr2&Hk2). split_and!; [by etrans|congruence|congruence|].
    intros k. specialize (Hk2 k). cbn [map].
    destruct (decide (k = member_vote round wallet bundle m)) as [->|Hne].
    + rewrite decide_True by by left.
      case_decide; [by eapply cleared_cleared|by eapply cleared_kept].
    + destruct (decide (k ∈ map _ ms)) as [Hin|Hout].
      * rewrite decide_True by by right. eapply kept_cleared; [by apply Hk1|done].
      * rewrite decide_False by (rewrite elem_of_cons; naive_solver).
        eapply kept_kept; [by apply Hk1|done].
Qed.

(** ** Members *)
Definition texts_in_place d : Prop :=
  forall round wallet bundle proposal v s r,
    tb_votes d !! (round, wallet, bundle, proposal) = Some v ->
    vt_commitment_bundle_json v = Some s -> parse_recovery s = Ok r -> vr_proposal_id r = proposal.

(** A vote row whose text is a member of the batch. *)
Definition batch_member d (round wallet : string) (bundle : Z) (dg : list Z) (k : VoteId) : Prop :=
  exists proposal v s r, k = (round, wallet, bundle, proposal) /\ tb_votes d !! k = Some v
    /\ vt_commitment_bundle_json v = Some s /\ parse_recovery s = Ok r /\ has_digest dg r = true.

Lemma texts_elem d wallet round bundle s :
  s ∈ bundle_recovery_texts d wallet round bundle <->
  exists proposal v, tb_votes d !! (round, wallet, bundle, proposal) = Some v
    /\ vt_commitment_bundle_json v = Some s.
Proof.
  unfold bundle_recovery_texts. rewrite list_elem_of_omap. split.
  - intros ([[[[r w] b] p] v]&Hin&Hs). apply elem_of_map_to_list in Hin.
    case_bool_decide; simplify_eq. by exists p, v.
  - intros (p&v&Hv&Hs). exists (round, wallet, bundle, p, v). split; [by apply elem_of_map_to_list|].
    by rewrite bool_decide_eq_true_2.
Qed.

Lemma loaded_member d wallet round bundle dg ms m :
  load_vote_batch_recoveries_with_conn d wallet round bundle dg = Ok ms ->
  m ∈ ms <-> has_digest dg m = true /\ exists proposal v s,
    tb_votes d !! (round, wallet, bundle, proposal) = Some v
    /\ vt_commitment_bundle_json v = Some s /\ parse_recovery s = Ok m.
Proof.
  intros (cs&Hcs&_&Ha)%batch_members_ok. rewrite (as_members _ _ _ _ Ha), (try_map_elem _ _ _ _ Hcs).
  setoid_rewrite texts_elem. naive_solver.
Qed.

Lemma member_votes d wallet round bundle dg ms k :
  texts_in_place d -> load_vote_batch_recoveries_with_conn d wallet round bundle dg = Ok ms ->
  k ∈ map (member_vote round wallet bundle) ms <-> batch_member d round wallet bundle dg k.
Proof.
  intros Hd Hms. rewrite list_elem_of_In, in_map_iff. setoid_rewrite <-list_elem_of_In.
  setoid_rewrite (loaded_member _ _ _ _ _ _ _ Hms). split.
  - intros (m&<-&Hdg&p&v&s&Hv&Hs&Hp). pose proof (Hd _ _ _ _ _ _ _ Hv Hs Hp) as <-.
    by exists (vr_proposal_id m), v, s, m.
  - intros (p&v&s&r&->&Hv&Hs&Hp&Hdg). exists r. pose proof (Hd _ _ _ _ _ _ _ Hv Hs Hp) as <-.
    split; [done|]. split; [done|]. by exists (vr_proposal_id r), v, s.
Qed.

(** ** Retirement *)
Definition no_combined_member d (round wallet : string) (bundle : Z) : Prop :=
  forall proposal v s, tb_votes d !! (round, wallet, bundle, proposal) = Some v ->
    vt_commitment_bundle_json v = Some s -> json_has_delegation_van s = false.

Lemma retire_authorization_ok d wallet round bundle :
  let d' := retire_combined_authorization_with_conn d wallet round bundle in
  same_setup d d' /\ tb_combined_cast_rejections d' = tb_combined_cast_rejections d
  /\ (forall k, vote_kept d d' k)
  /\ (no_combined_member d round wallet bundle ->
      forall dg, tb_delegate_cast_recovery d' !! (round, wallet, bundle, dg) = None)
  /\ forall k, k.1 <> (round, wallet, bundle) ->
      tb_delegate_cast_recovery d' !! k = tb_delegate_cast_recovery d !! k.
Proof.
  cbv zeta. unfold retire_combined_authorization_with_conn. destruct (existsb _ _) eqn:E.
  - split_and!; [done|done|by split| |done]. intros Hno. exfalso.
    apply existsb_exists in E as ([[[[r w] b] p] v]&Hin%list_elem_of_In&Hm).
    apply elem_of_map_to_list in Hin. unfold signed_combined_member in Hm.
    apply andb_true_iff in Hm as [Hk Hj]. apply andb_true_iff in Hk as [Hk Hb].
    apply andb_true_iff in Hk as [Hr%bool_decide_eq_true Hw%bool_decide_eq_true].
    apply Z.eqb_eq in Hb. subst. destruct (vt_commitment_bundle_json v) as [s|] eqn:Es; [|done].
    by rewrite (Hno p v s Hin Es) in Hj.
  - split_and!; [done|done|by split| |]; cbn.
    + intros _ dg. apply map_lookup_filter_None_2. right. naive_solver.
    + intros k Hk. destruct (tb_delegate_cast_recovery d !! k) as [row|] eqn:Er.
      * by apply map_lookup_filter_Some_2.
      * apply map_lookup_filter_None_2. by left.
Qed.

(** What the retirement of the batch [dg] leaves behind. *)
Record retired d d' (i : ChainSubmissionIdentity) (dg : list Z)
    (diagnostic : ChainSubmissionDiagnostic) (now : Z) : Prop := {
  rt_setup : same_setup d d';
  rt_members : forall k,
    batch_member d (hex_encode (vote_round_id i)) (wallet_id i) (bundle_index i) dg k ->
    vote_cleared d d' k;
  rt_others : forall k,
    ~ batch_member d (hex_encode (vote_round_id i)) (wallet_id i) (bundle_index i) dg k ->
    vote_kept d d' k;
  rt_authorization :
    no_combined_member d' (hex_encode (vote_round_id i)) (wallet_id i) (bundle_index i) ->
    forall any, tb_delegate_cast_recovery d' !!
      (hex_encode (vote_round_id i), wallet_id i, bundle_index i, any) = None;
  (** The streak is counted against the generation the batch was signed for. *)
  rt_ledger : exists row,
    let key := (hex_encode (vote_round_id i), wallet_id i, bundle_index i) in
    tb_delegate_cast_recovery d !! (key, dg) = Some row
    /\ tb_combined_cast_rejections d' = <[key :=
         next_rejection (tb_combined_cast_rejections d !! key)
           (au_delegation_generation_digest row) dg diagnostic (as_i64 now)]>
         (tb_combined_cast_rejections d)
}.

Lemma record_rejection_ok d i round g dg diagnostic now d' :
  record_combined_rejection d i round g dg diagnostic now = Ok d' ->
  d' = with_rejections d (<[(round, wallet_id i, bundle_index i) :=
         next_rejection (tb_combined_cast_rejections d !! (round, wallet_id i, bundle_index i))
           g dg diagnostic (as_i64 now)]> (tb_combined_cast_rejections d)).
Proof. unfold record_combined_rejection. cbv zeta. intros E. ok_inv E. done. Qed.

Lemma kept_through d t d' k :
  tb_votes d' = tb_votes t -> tb_helper_share_plans d' = tb_helper_share_plans t ->
  tb_share_delegations d' = tb_share_delegations t -> vote_kept t d' k.
Proof. intros Ev Ep Es. split; [by rewrite Ev|by rewrite Ep|by rewrite Es]. Qed.

Lemma retire_ok d i diagnostic now d' :
  texts_in_place d -> retire_rejected_generation d i diagnostic now = Ok d' ->
  exists dg, target i = DelegateAndVoteBatch dg /\ retired d d' i dg diagnostic now.
Proof.
  intros Hd. unfold retire_rejected_generation, persisted_generation_digest,
    clear_vote_batch_recovery_with_conn.
  destruct (target i) as [| | |dg] eqn:Et; try done. cbv zeta.
  set (round := hex_encode (vote_round_id i)).
  destruct (tb_delegate_cast_recovery d !! _) as [row|] eqn:Er; [|done].
  case_bool_decide; [|done]. cbn [ok_or].
  destruct (load_vote_batch_recoveries_with_conn d _ _ _ _) as [ms|] eqn:El; [|done].
  destruct (clear_members _ _ _ _ _) as [t|] eqn:Ec; [|done].
  case_bool_decide as Hne; [done|]. intros ->%record_rejection_ok.
  apply clear_members_ok in Ec as (Hs1&Ha1&Hr1&Hk1).
  pose proof (retire_authorization_ok t (wallet_id i) round (bundle_index i)) as (Hs2&Hr2&Hk2&Hno&_).
  set (u := retire_combined_authorization_with_conn _ _ _ _) in *.
  set (d' := with_rejections u _). exists dg. split; [done|].
  assert (forall k, vote_kept t d' k) as Hk.
  { intros k. eapply kept_kept; [apply Hk2|by apply kept_through]. }
  split.
  - destruct Hs1, Hs2. split; cbn; congruence.
  - intros k Hm. apply (member_votes _ _ _ _ _ _ _ Hd El) in Hm. specialize (Hk1 k).
    rewrite decide_True in Hk1 by done. by eapply cleared_kept.
  - intros k Hm. fold round in Hm. rewrite <-(member_votes _ _ _ _ _ _ _ Hd El) in Hm. specialize (Hk1 k).
    rewrite decide_False in Hk1 by done. by eapply kept_kept.
  - intros Hn any. apply Hno. intros p v s Hv. rewrite <-(vk_row _ _ _ (Hk _)) in Hv. by eapply Hn.
  - exists row. split; [done|]. cbn. by rewrite Hr2, Hr1.
Qed.

(** C24 (retirement): a terminal rejection of a combined batch clears the text,
    the helper plan and the shares of exactly the batch's members, none of
    which had reached the chain; leaves the delegation setup, the ballot and
    every other vote as they were; drops the authorization once no combined
    member remains; counts the rejection; and the retired generation can no
    longer be derived. *)
Theorem rejected_combined_is_retired d i diagnostic now d' :
  texts_in_place d -> retire_rejected_generation d i diagnostic now = Ok d' ->
  (exists dg, target i = DelegateAndVoteBatch dg /\ retired d d' i dg diagnostic now)
  /\ forall x, derive_submission d' (DVoteBatch i) <> Ok x.
Proof.
  intros Hd Hr. destruct (retire_ok _ _ _ _ _ Hd Hr) as (dg&Et&Hret). split; [by exists dg|].
  intros x Hx. cbn in Hx. unfold derive_vote_batch, validated_vote_batch in Hx. rewrite Et in Hx.
  cbn [batch_digest] in Hx. destruct (validate_identity_context d' i) as [round|] eqn:Ec; [|done].
  apply identity_context_ok in Ec as ->.
  destruct (load_vote_batch_recoveries_with_conn d' _ _ _ _) as [ms|] eqn:El; [|done].
  assert (exists m, m ∈ ms) as [m Hm].
  { pose proof El as (cs&_&_&Ha)%batch_members_ok.
    destruct ms as [|m ms]; [by destruct (as_nonempty _ _ _ _ Ha)|]. exists m. by left. }
  apply (loaded_member _ _ _ _ _ _ _ El) in Hm as (Hdg&p&v&s&Hv&Hs&Hp).
  assert (~ batch_member d (hex_encode (vote_round_id i)) (wallet_id i) (bundle_index i) dg
            (hex_encode (vote_round_id i), wallet_id i, bundle_index i, p)) as Hno.
  { intros Hm. destruct (rt_members _ _ _ _ _ _ Hret _ Hm) as [(w&_&_&_&Hw) _ _].
    rewrite Hw in Hv. by simplify_eq. }
  apply Hno. destruct (rt_others _ _ _ _ _ _ Hret _ Hno) as [Hrow _ _]. rewrite Hrow in Hv.
  by exists p, v, s, m.
Qed.

(** ** The rejection ledger *)
Lemma next_rejection_ok old g dg diagnostic now :
  length g = 32%nat -> length dg = 32%nat -> 0 <= now ->
  (forall row, old = Some row -> rejection_row_ok row = true) ->
  rejection_row_ok (next_rejection old g dg diagnostic now) = true
  /\ forall row, old = Some row ->
       rejection_trigger_aborts row (next_rejection old g dg diagnostic now) = false.
Proof.
  intros Hg Hdg Hn Hold. unfold next_rejection. destruct old as [row|].
  - specialize (Hold row eq_refl). unfold rejection_row_ok in *.
    destruct (decide (rj_delegation_generation_digest row = g)) as [Hsame|Hsame].
    + rewrite (bool_decide_eq_true_2 (_ = g)) by done. cbn.
      rewrite (bool_decide_eq_true_2 (length g = _)), (bool_decide_eq_true_2 (length dg = _)) by done.
      split; [lia|]. intros row' [= <-]. unfold rejection_trigger_aborts. cbn.
      rewrite bool_decide_eq_true_2 by done. lia.
    + rewrite (bool_decide_eq_false_2 (_ = g)) by done. cbn.
      rewrite (bool_decide_eq_true_2 (length g = _)), (bool_decide_eq_true_2 (length dg = _)) by done.
      split; [lia|]. intros row' [= <-]. unfold rejection_trigger_aborts. cbn.
      by rewrite bool_decide_eq_false_2.
  - unfold rejection_row_ok. cbn. rewrite !bool_decide_eq_true_2 by done. split; [lia|done].
Qed.

(** Streak: the ledger's constraints and triggers never refuse a
    rejection of an existing round at a time SQLite can hold: the upsert keeps a
    well-formed row, adds one within a delegation generation and never moves
    its timestamps backwards, and restarts at one with another generation. *)
Theorem rejection_streak_counts d i round g dg diagnostic now :
  let key := (round, wallet_id i, bundle_index i) in
  let old := tb_combined_cast_rejections d !! key in
  length g = 32%nat -> length dg = 32%nat -> 0 <= now <= i64_max ->
  is_Some (tb_rounds d !! (round, wallet_id i)) ->
  (forall row, old = Some row -> rejection_row_ok row = true) ->
  exists d' row, record_combined_rejection d i round g dg diagnostic now = Ok d'
    /\ tb_combined_cast_rejections d' !! key = Some row /\ rejection_row_ok row = true
    /\ rj_delegation_generation_digest row = g
    /\ rj_consecutive_rejections row
       = match old with
         | Some r => if bool_decide (rj_delegation_generation_digest r = g)
                     then rj_consecutive_rejections r + 1 else 1
         | None => 1
         end
    /\ forall r, old = Some r -> rj_delegation_generation_digest r = g ->
         rj_first_rejected_at row = rj_first_rejected_at r
         /\ rj_last_rejected_at r <= rj_last_rejected_at row.
Proof.
  cbv zeta. intros Hg Hdg Hnow Hround Hold. set (key := (round, wallet_id i, bundle_index i)).
  destruct (next_rejection_ok _ g dg diagnostic now Hg Hdg ltac:(lia) Hold) as [Hok Htr].
  assert (as_i64 now = now) as Hi.
  { unfold as_i64. by replace (i64_max <? now) with false by lia. }
  unfold record_combined_rejection. cbv zeta. rewrite Hi. fold key in Hok, Htr |- *.
  rewrite Hok, (bool_decide_eq_true_2 (is_Some _)) by done.
  assert (match tb_combined_cast_rejections d !! key with
    | Some old => rejection_trigger_aborts old
        (next_rejection (tb_combined_cast_rejections d !! key) g dg diagnostic now)
    | None => false end = false) as ->.
  { destruct (tb_combined_cast_rejections d !! key); [by apply Htr|done]. }
  cbn [orb negb]. eexists _, _. split; [done|]. cbn. rewrite lookup_insert_eq.
  split_and!; [done|done| | |]; unfold next_rejection;
    destruct (tb_combined_cast_rejections d !! key) as [r|]; try done; try (case_bool_decide; done).
  intros r' [= <-] Hsame. rewrite bool_decide_eq_true_2 by done. cbn. lia.
Qed.
End retirement.

(** ** At concrete tables *)
Section example.
#[local] Existing Instance example_externals.
#[local] Existing Instance example_text.
#[local] Existing Instance example_recovery_externals.
#[local] Existing Instance example_domain_externals.

Definition in_place_check (d : VotingTables) : bool :=
  forallb (fun kv : VoteId * VoteRow =>
    match vt_commitment_bundle_json kv.2 with
    | Some s => match parse_recovery s with
                | Ok r => vr_proposal_id r =? kv.1.2
                | Err _ => true
                end
    | None => true
    end) (map_to_list (tb_votes d)).

Lemma in_place_checked d : in_place_check d = true -> texts_in_place d.
Proof.
  unfold in_place_check. rewrite forallb_forall. intros Hc round wallet bundle proposal v s r Hv Hs Hp.
  specialize (Hc (round, wallet, bundle, proposal, v)). cbn in Hc. rewrite Hs, Hp in Hc.
  apply Z.eqb_eq, Hc, list_elem_of_In, elem_of_map_to_list, Hv.
Qed.

Definition example_rejection : ChainSubmissionDiagnostic :=
  mk_diagnostic ChainRejected (lit "refused").

Lemma rejected_combined_is_retired_witness :
  exists d', retire_rejected_generation example_combined_tables example_combined_identity
      example_rejection 100 = Ok d'
    /\ retired example_combined_tables d' example_combined_identity example_combined_digest
         example_rejection 100.
Proof.
  assert (match retire_rejected_generation example_combined_tables example_combined_identity
      example_rejection 100 with Ok _ => true | Err _ => false end = true) as Hok
    by (vm_compute; reflexivity).
  destruct (retire_rejected_generation _ _ _ _) as [d'|] eqn:Hd'; [|discriminate Hok].
  exists d'. split; [reflexivity|].
  assert (texts_in_place example_combined_tables) as Hp
    by (apply in_place_checked; vm_compute; reflexivity).
  destruct (rejected_combined_is_retired _ _ _ _ _ Hp Hd') as [(dg&Ht&Hr) _].
  injection Ht as <-. exact Hr.
Defined.

Lemma rejection_streak_counts_witness :
  exists d' row, record_combined_rejection example_combined_tables example_combined_identity
      example_round (replicate 32 9) example_combined_digest example_rejection 100 = Ok d'
    /\ tb_combined_cast_rejections d' !! example_bundle_id = Some row
    /\ rj_consecutive_rejections row = 1.
Proof.
  destruct (rejection_streak_counts example_combined_tables example_combined_identity example_round
    (replicate 32 9) example_combined_digest example_rejection 100) as (d'&row&Hd&Hrow&_&_&Hn&_).
  - reflexivity.
  - vm_compute. reflexivity.
  - unfold i64_max. lia.
  - by eexists.
  - intros row Hrow. discriminate Hrow.
  - exists d', row. split; [exact Hd|]. split; [exact Hrow|exact Hn].
Defined.
End example.
