(* ===== verification/Composition.v ===== *)
(** * The store over the voting tables

    Puts the pieces together: the submission store of [Store] run on the
    voting tables of [Generation] with the projections of [Projection]. A
    submission confirmed in one process is recognised in the next: the row
    loads, the generation derives to the same digest from the projected
    tables, and admission returns the confirmed record without touching the
    database. *)

From stdpp Require Import base gmap strings list numbers.
From Stdlib Require Import ZifyBool.
From S2P Require Import Prelude Identity Outcome Lifecycle Record Confirmation Rows Store StoreProofs.
From S2P Require Import Coordinator Recovery Protocol SampleCodec VoteRecovery Transcript.
From S2P Require Import Generation SampleTables GenerationProofs Projection Agreement ProjectionProofs.
Local Open Scope Z_scope.
Local Open Scope voting_scope.

Section composition.
Context `{Externals} `{SqliteText} `{RecoveryExternals} `{DomainExternals}.
Implicit Types db : Db VotingTables.

Lemma confirmed_state s v s' :
  apply_submission_observation (Some s) (OConfirmed v) = Ok (Some s') -> s' = Confirmed v.
Proof.
  unfold apply_submission_observation. destruct s; cbn; repeat case_match; naive_solver.
Qed.

(** What a committed tree confirmation did. *)
Record tree_confirmed db (request : StoreAdvancementRequest) (g : ChainSubmissionGeneration)
    (van : Z) (positions : list Z) (now : Z) (record : StoredChainSubmission)
    db' : Prop := {
  tc_previous : exists previous v, 
    load_submission (db_table db) (gen_identity g) = Ok (Some previous)
    /\ ensure_generation previous g = Ok tt
    /\ from_tree van positions = Ok v /\ record = with_updated previous (Confirmed v) None now
    /\ persist_mutable (db_table db) record = Ok (db_table db');
  tc_projection : exists x v,
    derive_submission (db_rest db) (req_derivation request) = Ok x /\ derived_generation x = g
    /\ verify_batch_roster request (derived_ordered_proposal_ids x) = Ok tt
    /\ from_tree van positions = Ok v
    /\ project_confirmed_generation (db_rest db) (derived_bound x) v = Ok (db_rest db')
}.

(** A statement that only reads, followed by the rest of the body. *)
Lemma bind_read {A B} db (m : Tx VotingTables A) (k : A -> Tx VotingTables B) F Q :
  tx_spec (eq db) m (fun a db1 => db1 = db /\ F a) ->
  (forall a, F a -> tx_spec (eq db) (k a) Q) -> tx_spec (eq db) (tx_bind m k) Q.
Proof.
  intros Hm Hk. eapply tx_spec_bind; [exact Hm|]. intros a s b s' [Hdb Ha] Hb.
  by eapply Hk; [exact Ha| |exact Hb].
Qed.

Lemma commit_ok fault db request x previous v now van positions :
  load_submission (db_table db) (gen_identity (derived_generation x)) = Ok (Some previous) ->
  ensure_generation previous (derived_generation x) = Ok tt ->
  derive_submission (db_rest db) (req_derivation request) = Ok x ->
  verify_batch_roster request (derived_ordered_proposal_ids x) = Ok tt ->
  from_tree van positions = Ok v ->
  tx_spec (eq db) (commit_confirmation fault previous x v now) (fun a db' =>
    forall record, a = CommitConfirmed record ->
      tree_confirmed db request (derived_generation x) van positions now record db').
Proof.
  intros Hl He Hx Hr Hv. unfold commit_confirmation.
  destruct (apply_submission_observation _ _) as [[s|]|] eqn:Es; try apply tx_spec_fail.
  apply confirmed_state in Es as ->.
  eapply (tx_spec_bind _ _ _ (fun _ db1 => db_table db1 = db_table db
    /\ project_confirmed_generation (db_rest db) (derived_bound x) v = Ok (db_rest db1))).
  { intros s [] s' Hdb. unfold tx_domain. rewrite <-Hdb. destruct (fault _); [done|]. cbn.
    destruct (project_confirmed_generation _ _ _) eqn:Ep; [|done]. intros [= <-]. by split. }
  intros []. eapply (tx_spec_bind _ _ _ (fun _ db1 =>
    persist_mutable (db_table db) (with_updated previous (Confirmed v) None now) = Ok (db_table db1)
    /\ project_confirmed_generation (db_rest db) (derived_bound x) v = Ok (db_rest db1))).
  { apply tx_spec_write. intros t db1 Hp [Ht Hpr]. by rewrite Ht in Hp. }
  intros []. apply tx_spec_ret. intros db' [Hp Hpr] record [= <-].
  split; [by exists previous, v|by exists x, v].
Qed.

Lemma confirm_tree_ok fault db request g van positions now record db' :
  confirm_tree fault request g van positions true now db = (Ok (CommitConfirmed record), db') ->
  tree_confirmed db request g van positions now record db'.
Proof.
  unfold confirm_tree, transact_. intros Hc.
  assert (tx_spec (eq db) (confirm_tree_body fault request g van positions true now)
    (fun a db' => forall record, a = CommitConfirmed record ->
       tree_confirmed db request g van positions now record db')) as Hs.
  2: { pose proof (transact_spec fault _ db _ Hs) as Ht.
       destruct (transact _ _ db) as [[r fl] db1]. injection Hc as -> ->. by apply Ht. }
  clear Hc record db'. unfold confirm_tree_body.
  apply bind_read with (fun r => load_submission (db_table db) (gen_identity g) = Ok (Some r)).
  { apply bind_read with (fun r => load_submission (db_table db) (gen_identity g) = Ok r).
    - apply tx_spec_query. by intros a db1 Hl <-.
    - intros [r|] Hl; [|apply tx_spec_fail]. by apply tx_spec_ret. }
  intros previous Hl. apply bind_read with (fun _ => ensure_generation previous g = Ok tt).
  { apply tx_spec_lift. by intros [] db1 He <-. }
  intros [] He. apply bind_read with
    (fun x => derive_submission (db_rest db) (req_derivation request) = Ok x).
  { apply tx_spec_map_err, tx_spec_derive. by intros x db1 Hx <-. }
  intros x Hx. apply bind_read with
    (fun _ => verify_batch_roster request (derived_ordered_proposal_ids x) = Ok tt).
  { apply tx_spec_map_err, tx_spec_lift. by intros [] db1 Hr <-. }
  intros [] Hr. destruct (negb (bool_decide _)) eqn:Eg; [apply tx_spec_fail|].
  apply negb_false_iff, bool_decide_eq_true in Eg. cbn [negb]. subst g.
  destruct (from_tree van positions) as [v|] eqn:Ev; [|apply tx_spec_fail]. by apply commit_ok.
Qed.

(** ** The confirmed row loads *)
Lemma from_tree_ok van positions v :
  from_tree van positions = Ok v -> is_u64 van -> Forall is_u64 positions ->
  Z.of_nat (length positions) <= u32_max -> wf_confirmation v /\ positions_u64 v.
Proof.
  unfold from_tree. intros Hv Hvan Hps Hlen.
  destruct (validate_tree_positions van positions) as [[]|] eqn:E; [|done]. injection Hv as <-.
  unfold validate_tree_positions in E. destruct (_ || _) eqn:Eo; [done|].
  apply orb_false_iff in Eo as [E1 E2]. split; [|by split].
  split; [cbn; unfold is_u64 in Hvan; lia|]. split; [cbn|by split].
  apply Forall_forall. intros p Hp. rewrite Forall_forall in Hps.
  destruct (Hps p Hp) as [Hp0 _]. split; [done|].
  destruct (TREE_CAPACITY <=? p) eqn:E3; [|lia].
  assert (existsb (fun p => TREE_CAPACITY <=? p) positions = true); [|congruence].
  apply existsb_exists. by exists p.
Qed.

Lemma u64_column z z' : Rows.u64_of_i64 z = Some z' -> z' = z /\ 0 <= z.
Proof. unfold Rows.u64_of_i64. destruct (0 <=? z) eqn:E; [|done]. intros [= <-]. lia. Qed.

Lemma opt_u64_column o o' :
  opt_try Rows.u64_of_i64 o = Some o' -> o' = o /\ forall z, o = Some z -> 0 <= z.
Proof.
  destruct o as [z|]; cbn; [|by intros [= <-]].
  destruct (Rows.u64_of_i64 z) as [z'|] eqn:E; [|done]. intros [= <-].
  apply u64_column in E as [-> ?]. split; [done|]. by intros ? [= <-].
Qed.

Lemma bytes32_column l l' : bytes32 l = Some l' -> l' = l /\ wf_hash l.
Proof. unfold bytes32. case_bool_decide; [|done]. by intros [= <-]. Qed.

(** A loaded record's columns, as far as the update keeps them. *)
Lemma loaded_columns i old previous :
  load_row i old = Some previous ->
  st_identity previous = i /\ wf_hash (st_generation_digest previous)
  /\ c_generation_digest old = st_generation_digest previous
  /\ 0 <= st_committed_post_reservations previous
  /\ (forall z, st_tracking_started_at previous = Some z -> 0 <= z)
  /\ c_created_at old = st_created_at previous /\ 0 <= st_created_at previous.
Proof.
  unfold load_row. intros Hl.
  repeat match type of Hl with
  | (?o ≫= _) = Some _ => let E := fresh "E" in destruct o eqn:E; [cbn in Hl|done]
  end.
  repeat match goal with
  | E : bytes32 _ = Some _ |- _ => apply bytes32_column in E as [-> ?]
  | E : Rows.u64_of_i64 _ = Some _ |- _ => apply u64_column in E as [-> ?]
  | E : opt_try Rows.u64_of_i64 _ = Some _ |- _ => apply opt_u64_column in E as [-> ?]
  end.
  by simplify_eq.
Qed.

Lemma row_ok_times key r : row_ok key r = true -> c_created_at r <= c_updated_at r.
Proof.
  unfold row_ok. intros Hr. rewrite forallb_forall in Hr.
  assert (passes (Some (c_created_at r <=? c_updated_at r)) = true) as Hc.
  { apply Hr. unfold row_checks. do 8 right. by left. }
  destruct (c_created_at r <=? c_updated_at r) eqn:E; [lia|done].
Qed.

Lemma bind_u64_bound z z' : bind_u64 z = Some z' -> z <= i64_max.
Proof. unfold bind_u64. destruct (z <=? i64_max) eqn:E; [lia|done]. Qed.

Lemma persisted_loads t previous i v now t' :
  load_submission t i = Ok (Some previous) -> wf_confirmation v ->
  persist_mutable t (with_updated previous (Confirmed v) None now) = Ok t' ->
  load_submission t' i = Ok (Some (with_updated previous (Confirmed v) None now)).
Proof.
  intros Hl Hwf Hp. apply load_submission_some in Hl as (old&Hrow&Hl).
  apply loaded_columns in Hl as (Hi&Hdg&Hcd&Hn&Htr&Hcr&Hc0).
  set (r := with_updated previous (Confirmed v) None now) in *.
  unfold persist_mutable in Hp.
  destruct (bind_u64 (st_committed_post_reservations r)) as [n|] eqn:E1; [|done].
  destruct (bind_opt_u64 (st_tracking_started_at r)) as [tr|] eqn:E2; [|done].
  destruct (bind_opt_u64 (conf_final_van_position <$> _)) as [van|] eqn:E3; [|done].
  destruct (bind_u64 (st_updated_at r)) as [u|] eqn:E4; [|done].
  pose proof (bind_u64_some _ _ E1) as ->. pose proof (bind_u64_some _ _ E4) as ->.
  pose proof (bind_opt_u64_some _ _ E2) as ->. pose proof (bind_opt_u64_some _ _ E3) as ->.
  change (st_identity r) with (st_identity previous) in Hp. rewrite Hi in Hp.
  unfold update_row in Hp. rewrite Hrow in Hp. fold (written_row r old) in Hp.
  destruct (_ || _ || _) eqn:Eg; [done|]. injection Hp as <-.
  apply orb_false_iff in Eg as [Eg _]. apply orb_false_iff in Eg as [_ Eg%negb_false_iff%row_ok_times].
  destruct (written_row_columns r old) as (_&_&_&Ec&Eu). rewrite Ec, Eu, Hcr in Eg.
  apply bind_u64_bound in E1, E4.
  assert (wf_record r) as Hr.
  { split; cbn in *; try done; try lia. intros z Hz. split; [by apply Htr|].
    rewrite Hz in E2. cbn in E2. destruct (bind_u64 z) eqn:Ez; [|done]. by apply bind_u64_bound in Ez. }
  pose proof (load_row_written r old Hr Hcd Hcr) as Hload. cbn [st_identity r with_updated] in Hload.
  unfold load_submission. rewrite lookup_insert_eq.
  change (st_identity r) with (st_identity previous) in Hload. rewrite Hi in Hload. by rewrite Hload.
Qed.

(** Admission of a request whose row is already confirmed. *)
Lemma admitted_again db request record x step flag :
  derive_submission (db_rest db) (req_derivation request) = Ok x ->
  verify_batch_roster request (derived_ordered_proposal_ids x) = Ok tt ->
  ensure_generation record (derived_generation x) = Ok tt -> is_terminal (st_state record) = true ->
  exists n, (tx_bind (admit_batch no_faults request (Some record))
      (fun batch => admit_existing no_faults request record batch)) (mk_tx step db flag)
    = (Ok (Authoritative record), mk_tx n db flag).
Proof.
  intros Hx Hr He Ht.
  assert (forall n, derive no_faults (req_derivation request) (mk_tx n db flag)
    = (Ok x, mk_tx (S n) db flag)) as Hd.
  { intros n. unfold derive. cbn. by rewrite Hx. }
  unfold admit_batch, admit_existing, tx_bind, tx_map_err, tx_lift, tx_ret.
  destruct (is_batch request); rewrite Hd; cbn [map_err]; rewrite Hr; cbn [map_err];
    try (rewrite Hr; cbn [map_err]); rewrite He, Ht; by eexists.
Qed.

(** C3 (restart): a submission whose tree confirmation committed is recognised
    by a later process. Admitting the same request loads the confirmed record,
    derives the same generation from the projected tables, and returns the
    record as authoritative without changing the database. *)
Theorem confirmed_submission_survives_restart fault db request g van positions now record db'
    ordinal later :
  stored_types (db_rest db) -> is_u64 van -> Forall is_u64 positions ->
  Z.of_nat (length positions) <= u32_max -> validate_target request = Ok tt ->
  confirm_tree fault request g van positions true now db = (Ok (CommitConfirmed record), db') ->
  store_admit no_faults request true ordinal later db' = (Ok (Authoritative record), db').
Proof.
  intros Hd Hvan Hps Hlen Ht [(previous&v&Hl&He&Hv&->&Hp) (x&v'&Hx&<-&Hr&Hv'&Hpr)]%confirm_tree_ok.
  rewrite Hv in Hv'. injection Hv' as <-.
  destruct (from_tree_ok _ _ _ Hv Hvan Hps Hlen) as [Hwf Hu64].
  pose proof (persisted_loads _ _ _ _ _ _ Hl Hwf Hp) as Hl'.
  apply project_step in Hpr as [Hpr _]; [|by apply stored_parsed_valid|done].
  pose proof (agree_derivation _ _ _ _ (pg_agree _ _ Hpr) Hx) as Hx'.
  pose proof (derive_identity (db_table db) (db_rest db) (req_derivation request) x Hx) as Hi.
  rewrite Hi in Hl'. fold (req_identity request) in Hl'.
  destruct (admitted_again db' request (with_updated previous (Confirmed v) None now) x 2 false)
    as [n Hn]; [done|done| |done|].
  { unfold ensure_generation in *. cbn. by destruct (_ && _). }
  unfold store_admit. rewrite Ht. unfold transact. cbn [no_faults]. unfold admit_body.
  unfold tx_bind at 1. unfold tx_load, tx_query, tx_stmt. cbn [no_faults tx_step tx_db tx_flag].
  rewrite Hl'. cbn [st_state with_updated is_submitting]. rewrite Hn. done.
Qed.
End composition.

(** ** At concrete tables *)
Section example.
#[local] Existing Instance example_externals.
#[local] Existing Instance example_text.
#[local] Existing Instance example_recovery_externals.
#[local] Existing Instance example_domain_externals.

Definition example_request : StoreAdvancementRequest := request_vote example_identity.
Definition example_vote_generation : ChainSubmissionGeneration := bound_generation example_bound.

(** A reserved submission whose POST may have been dispatched. *)
Definition example_recovering : Db VotingTables :=
  let db := (store_admit no_faults example_request true 1 100 (mk_db ∅ example_before)).2 in
  (classify_post no_faults example_vote_generation
     (OPossiblyDispatched (mk_diagnostic AmbiguousDispatch (lit "timeout"))) 110 db).2.

Lemma confirmed_submission_survives_restart_witness :
  exists record db',
    confirm_tree no_faults example_request example_vote_generation 7 [9] true 120 example_recovering
      = (Ok (CommitConfirmed record), db')
    /\ store_admit no_faults example_request true 1 200 db' = (Ok (Authoritative record), db').
Proof.
  assert (match confirm_tree no_faults example_request example_vote_generation 7 [9] true 120
      example_recovering with (Ok (CommitConfirmed _), _) => true | _ => false end = true) as Hok
    by (vm_compute; reflexivity).
  destruct (confirm_tree _ _ _ _ _ _ _ _) as [[[record|record]|] db'] eqn:Hc; try discriminate Hok.
  exists record, db'. split; [reflexivity|].
  refine (confirmed_submission_survives_restart _ _ _ _ _ _ _ _ _ 1 200 _ _ _ _ _ Hc).
  - apply stored_types_checked. vm_compute. reflexivity.
  - unfold is_u64, u64_max. lia.
  - constructor; [unfold is_u64, u64_max; lia|constructor].
  - vm_compute. discriminate.
  - vm_compute. reflexivity.
Defined.
End example.
