(* ===== verification/SharePolicy.v ===== *)
(** * Helper-share policy

    Models [share_policy/]: when an encrypted share is handed to helpers, to
    which helpers, and how a share is tracked afterwards. The planner is pure:
    the caller supplies the clock and the entropy. The functions that take a
    floating-point sample in place of entropy are not modelled. *)

From stdpp Require Import base gmap strings list numbers sorting pretty.
From S2P Require Import Prelude Identity Outcome Lifecycle Record.
Local Open Scope Z_scope.
Local Open Scope voting_scope.

(** ** Machine integers of the policy *)
Definition saturating_mul_usize (a b : Z) : Z := Z.min (a * b) u64_max.
Definition checked_mul_usize (a b : Z) : option Z :=
  if a * b <=? u64_max then Some (a * b) else None.

(** [u64::from_le_bytes]. *)
Definition u64_from_le_bytes (bytes : list Z) : Z := be_decode (rev bytes).

Definition len {A} (l : list A) : Z := Z.of_nat (length l).

(** ** Timing ([timing.rs]) *)
Definition SHARE_STATUS_CHECK_GRACE_SECONDS : Z := 10.
Definition SHARE_MIN_OVERDUE_THRESHOLD_SECONDS : Z := 30.
Definition SHARE_MAX_OVERDUE_THRESHOLD_SECONDS : Z := 60 * 60.
Definition SHARE_RESUBMIT_CUTOFF_SECONDS : Z := 10.
Definition SHARE_READY_POLL_INTERVAL_SECONDS : Z := 15.
Definition SHARE_FUTURE_CHECK_MAX_DELAY_SECONDS : Z := 30.
Definition SHARE_MIN_TRACKING_DELAY_SECONDS : Z := 3.
Definition LAST_MOMENT_BUFFER_FRACTION_NUMERATOR : Z := 2.
Definition LAST_MOMENT_BUFFER_FRACTION_DENOMINATOR : Z := 5.
Definition LAST_MOMENT_BUFFER_MAX_SECONDS : Z := 6 * 60 * 60.

Record ShareTimingPolicy := mk_timing_policy {
  status_check_grace_seconds : Z;
  min_overdue_threshold_seconds : Z;
  max_overdue_threshold_seconds : Z;
  resubmit_cutoff_seconds : Z;
  ready_poll_interval_seconds : Z;
  future_check_max_delay_seconds : Z;
  min_tracking_delay_seconds : Z
}.

Definition default_timing_policy : ShareTimingPolicy :=
  mk_timing_policy SHARE_STATUS_CHECK_GRACE_SECONDS SHARE_MIN_OVERDUE_THRESHOLD_SECONDS
    SHARE_MAX_OVERDUE_THRESHOLD_SECONDS SHARE_RESUBMIT_CUTOFF_SECONDS
    SHARE_READY_POLL_INTERVAL_SECONDS SHARE_FUTURE_CHECK_MAX_DELAY_SECONDS
    SHARE_MIN_TRACKING_DELAY_SECONDS.

Record ShareDelegationRecord := mk_share_record {
  sr_round_id : string;
  sr_bundle_index : Z;
  sr_proposal_id : Z;
  sr_share_index : Z;
  sr_sent_to_urls : list string;
  sr_ambiguous_urls : list string;
  sr_attempting_urls : list string;
  sr_target_count : Z;
  sr_nullifier : list Z;
  sr_confirmed : bool;
  sr_submit_at : Z;
  sr_created_at : Z
}.

(** The numerators fit a [u128], so only the checked subtraction can fail. *)
Definition last_moment_buffer_seconds (ceremony_start vote_end : Z) : option Z :=
  if vote_end <? ceremony_start then None
  else
    let duration := vote_end - ceremony_start in
    if duration =? 0 then None
    else
      let numerator := duration * LAST_MOMENT_BUFFER_FRACTION_NUMERATOR in
      let denominator := LAST_MOMENT_BUFFER_FRACTION_DENOMINATOR in
      let buffer := (numerator + denominator - 1) / denominator in
      Some (Z.min buffer LAST_MOMENT_BUFFER_MAX_SECONDS).

Definition last_moment_deadline_seconds (ceremony_start vote_end : Z) : option Z :=
  buffer ← last_moment_buffer_seconds ceremony_start vote_end;
  Some (saturating_sub_u64 vote_end buffer).

Definition is_last_moment (now ceremony_start vote_end : Z) : bool :=
  match last_moment_deadline_seconds ceremony_start vote_end with
  | Some deadline => (deadline <=? now) && (now <? vote_end)
  | None => false
  end.

Definition share_recovery_base_time (share : ShareDelegationRecord) : Z :=
  if 0 <? sr_submit_at share then sr_submit_at share else sr_created_at share.

Definition is_share_ready_for_status_check (share : ShareDelegationRecord) (now : Z)
    (policy : ShareTimingPolicy) : bool :=
  if sr_confirmed share then false
  else saturating_add_u64 (share_recovery_base_time share) (status_check_grace_seconds policy)
         <=? now.

Definition overdue_threshold_seconds (share : ShareDelegationRecord) (vote_end : Z)
    (policy : ShareTimingPolicy) : Z :=
  let remaining_window := saturating_sub_u64 vote_end (share_recovery_base_time share) in
  let threshold := remaining_window / 4 in
  let max_threshold :=
    Z.max (max_overdue_threshold_seconds policy) (min_overdue_threshold_seconds policy) in
  Z.min (Z.max threshold (min_overdue_threshold_seconds policy)) max_threshold.

Definition is_share_resubmission_window_open (now vote_end : Z) (policy : ShareTimingPolicy)
    : bool :=
  saturating_add_u64 now (resubmit_cutoff_seconds policy) <? vote_end.

Definition should_resubmit_share (share : ShareDelegationRecord) (now vote_end : Z)
    (policy : ShareTimingPolicy) : bool :=
  if sr_confirmed share then false
  else
    let retry_at := saturating_add_u64 (share_recovery_base_time share)
      (overdue_threshold_seconds share vote_end policy) in
    (retry_at <=? now) && is_share_resubmission_window_open now vote_end policy.

Definition min_second (current : option Z) (candidate : Z) : option Z :=
  match current with
  | Some current => if current <=? candidate then Some current else Some candidate
  | None => Some candidate
  end.

(** The loop's [next_second], [has_unconfirmed] and [has_ready]. *)
Definition tracking_scan (now : Z) (policy : ShareTimingPolicy)
    (state : option Z * bool * bool) (share : ShareDelegationRecord) : option Z * bool * bool :=
  let '(next_second, has_unconfirmed, has_ready) := state in
  if sr_confirmed share then state
  else
    let check_at := saturating_add_u64 (share_recovery_base_time share)
      (status_check_grace_seconds policy) in
    if now <? check_at then (min_second next_second check_at, true, has_ready)
    else (next_second, true, true).

Definition next_tracking_delay_seconds (shares : list ShareDelegationRecord) (now : Z)
    (policy : ShareTimingPolicy) : option Z :=
  let '(next_second, has_unconfirmed, has_ready) :=
    foldl (tracking_scan now policy) (None, false, false) shares in
  if negb has_unconfirmed then None
  else
    let future_delay := (fun next =>
      Z.min (saturating_sub_u64 next now) (future_check_max_delay_seconds policy)) <$> next_second in
    let ready_delay := if has_ready then Some (ready_poll_interval_seconds policy) else None in
    let delay :=
      match ready_delay, future_delay with
      | Some ready, Some future => Z.min ready future
      | Some ready, None => ready
      | None, Some future => future
      | None, None => ready_poll_interval_seconds policy
      end in
    Some (Z.max delay (min_tracking_delay_seconds policy)).

Record ShareTrackingSummary := mk_summary {
  sum_total : Z;
  sum_confirmed : Z;
  sum_waiting : Z;
  sum_ready : Z;
  sum_overdue : Z
}.

Definition summarize_share (now : Z) (vote_end : option Z) (policy : ShareTimingPolicy)
    (s : ShareTrackingSummary) (share : ShareDelegationRecord) : ShareTrackingSummary :=
  if sr_confirmed share then
    mk_summary (sum_total s) (sum_confirmed s + 1) (sum_waiting s) (sum_ready s) (sum_overdue s)
  else if match vote_end with
          | Some vote_end => should_resubmit_share share now vote_end policy
          | None => false
          end then
    mk_summary (sum_total s) (sum_confirmed s) (sum_waiting s) (sum_ready s) (sum_overdue s + 1)
  else if is_share_ready_for_status_check share now policy then
    mk_summary (sum_total s) (sum_confirmed s) (sum_waiting s) (sum_ready s + 1) (sum_overdue s)
  else
    mk_summary (sum_total s) (sum_confirmed s) (sum_waiting s + 1) (sum_ready s) (sum_overdue s).

Definition summarize_share_tracking (shares : list ShareDelegationRecord) (now : Z)
    (vote_end : option Z) (policy : ShareTimingPolicy) : ShareTrackingSummary :=
  foldl (summarize_share now vote_end policy) (mk_summary (len shares) 0 0 0 0) shares.

(** ** Submission times ([submission_schedule.rs]) *)
Definition SHARE_SUBMIT_AT_RANDOM_BYTES : nat := 8.
Definition SHARE_SUBMIT_AT_MAX_DELAY_SECONDS : Z := 100 * 60 * 60.

Definition delayed_share_window_seconds (now vote_end : Z) (buffer : option Z)
    (single_share : bool) : option Z :=
  if single_share then None
  else
    buffer ← buffer;
    if buffer =? 0 then None
    else
      let deadline := saturating_sub_u64 vote_end buffer in
      if deadline <=? now then None
      else Some (Z.min (deadline - now) SHARE_SUBMIT_AT_MAX_DELAY_SECONDS).

Definition share_submit_at_random_bytes_required (now vote_end : Z) (buffer : option Z)
    (single_share : bool) : nat :=
  match delayed_share_window_seconds now vote_end buffer single_share with
  | Some _ => SHARE_SUBMIT_AT_RANDOM_BYTES
  | None => 0
  end.

(** The product of two [u64] fits a [u128], and its high half fits a [u64]. *)
Definition scheduled_share_submit_at_from_entropy (now vote_end : Z) (buffer : option Z)
    (single_share : bool) (bytes : list Z) : result Z VotingError :=
  match delayed_share_window_seconds now vote_end buffer single_share with
  | None => Ok 0
  | Some window =>
      if bool_decide (length bytes < SHARE_SUBMIT_AT_RANDOM_BYTES)%nat then
        Err (VInvalidInput (lit "submit_at_random_bytes must contain at least "
          ++ decimal (Z.of_nat SHARE_SUBMIT_AT_RANDOM_BYTES) ++ lit " bytes"))
      else
        let sample := u64_from_le_bytes (take 8 bytes) in
        let delay := Z.shiftr (sample * window) 64 in
        Ok (saturating_add_u64 now delay)
  end.

(** ** Helper order ([server_order.rs]) *)
Definition VOTE_COMMITMENT_SHARE_COUNT : nat := 16.
Definition SHARE_HELPER_INITIAL_MAX_FRACTION_NUMERATOR : nat := 3.
Definition SHARE_HELPER_INITIAL_MAX_FRACTION_DENOMINATOR : nat := 4.
Definition SHARE_HELPER_MAX_INITIAL_SHARES_PER_SERVER : nat :=
  VOTE_COMMITMENT_SHARE_COUNT * SHARE_HELPER_INITIAL_MAX_FRACTION_NUMERATOR
    / SHARE_HELPER_INITIAL_MAX_FRACTION_DENOMINATOR.
Definition SHARE_HELPER_TARGET_COUNT_CAP : nat := 10.
Definition SHARE_HELPER_PREFLIGHT_SOFT_TIMEOUT_MILLISECONDS : Z := 2000.
Definition SHARE_HELPER_PREFLIGHT_HARD_TIMEOUT_MILLISECONDS : Z := 30000.
Definition SHARE_HELPER_POST_TIMEOUT_MILLISECONDS : Z := 30000.
Definition SHARE_INITIAL_DELIVERY_TIMEOUT_MILLISECONDS : Z := 60000.
Definition SHARE_HELPER_MAX_CONCURRENT_POSTS : nat := 128.

Definition share_submission_target_count (server_count : nat) : nat :=
  Nat.min (server_count / 2 + server_count mod 2) SHARE_HELPER_TARGET_COUNT_CAP.

Definition effective_share_submission_target_count (stored_target_count : Z) (server_count : nat)
    : nat :=
  let target_count :=
    if stored_target_count =? 0 then share_submission_target_count server_count
    else Z.to_nat stored_target_count in
  Nat.min (Nat.min target_count SHARE_HELPER_TARGET_COUNT_CAP) server_count.

Definition div_ceil (a b : nat) : nat := ((a + (b - 1)) / b)%nat.

(** The product fits a [usize]: the target count is capped. *)
Definition minimum_complete_batch_planning_server_count (target_count : nat) : nat :=
  if bool_decide (target_count = 0)%nat then 0
  else div_ceil (VOTE_COMMITMENT_SHARE_COUNT * target_count)
         SHARE_HELPER_MAX_INITIAL_SHARES_PER_SERVER.

Record ShareServerSelectionPolicy := mk_selection_policy {
  sp_target_count : nat;
  sp_max_shares_per_server : nat;
  sp_min_server_count : nat;
  sp_preflight_soft_timeout_milliseconds : Z;
  sp_preflight_hard_timeout_milliseconds : Z;
  sp_post_timeout_milliseconds : Z;
  sp_initial_delivery_timeout_milliseconds : Z;
  sp_max_concurrent_posts : nat
}.

(** The counts are at most [VOTE_COMMITMENT_SHARE_COUNT], so [as u32] is exact. *)
Definition share_server_selection_policy (server_count : nat) : ShareServerSelectionPolicy :=
  let target_count := share_submission_target_count server_count in
  let '(max_shares, min_servers) :=
    if bool_decide (server_count = 0)%nat then (0, 0)%nat
    else if bool_decide (server_count = 1)%nat then (VOTE_COMMITMENT_SHARE_COUNT, 1%nat)
    else (SHARE_HELPER_MAX_INITIAL_SHARES_PER_SERVER,
          minimum_complete_batch_planning_server_count target_count) in
  mk_selection_policy target_count max_shares min_servers
    SHARE_HELPER_PREFLIGHT_SOFT_TIMEOUT_MILLISECONDS
    SHARE_HELPER_PREFLIGHT_HARD_TIMEOUT_MILLISECONDS SHARE_HELPER_POST_TIMEOUT_MILLISECONDS
    SHARE_INITIAL_DELIVERY_TIMEOUT_MILLISECONDS SHARE_HELPER_MAX_CONCURRENT_POSTS.

Definition share_server_order_random_bytes_required (server_count : nat) : Z :=
  saturating_mul_usize (saturating_sub_u64 (Z.of_nat server_count) 1) 8.

Definition require_unique_share_servers (servers : list string) : result unit VotingError :=
  if decide (NoDup servers) then Ok tt
  else Err (VInvalidInput (lit "server_urls must not contain duplicates")).

(** [ordered.swap(i, j)]; the indexes of the shuffle are always in range. *)
Definition swap {A} (i j : nat) (l : list A) : list A :=
  match l !! i, l !! j with
  | Some a, Some b => <[i := b]> (<[j := a]> l)
  | _, _ => l
  end.

(** The Fisher-Yates loop from [index] down to 1, eight bytes per step. *)
Fixpoint shuffle_from {A} (index : nat) (bytes : list Z) (ordered : list A) : list A :=
  match index with
  | O => ordered
  | S next =>
      let sample := u64_from_le_bytes (take 8 bytes) in
      let swap_index := Z.to_nat (sample mod (Z.of_nat index + 1)) in
      shuffle_from next (drop 8 bytes) (swap index swap_index ordered)
  end.

Definition shuffled_share_server_order (servers : list string) (bytes : list Z)
    : result (list string) VotingError :=
  let? _ := require_unique_share_servers servers in
  let needed := share_server_order_random_bytes_required (length servers) in
  if len bytes <? needed then
    Err (VInvalidInput (lit "server_random_bytes must contain at least " ++ decimal needed
      ++ lit " bytes for " ++ decimal (len servers) ++ lit " servers"))
  else Ok (shuffle_from (length servers - 1) bytes servers).

Definition select_share_submission_targets_from_order (servers : list string)
    (target_count : nat) : list string :=
  take (Nat.min target_count (length servers)) servers.

Definition select_share_submission_targets (servers : list string) (target_count : nat)
    (bytes : list Z) : result (list string) VotingError :=
  let target_count := Nat.min target_count (length servers) in
  if bool_decide (target_count = 0)%nat then Ok []
  else
    let? order := shuffled_share_server_order servers bytes in
    Ok (select_share_submission_targets_from_order order target_count).

Definition untried (configured sent : list string) : list string :=
  filter (fun server => server ∉ sent) configured.
Definition already_sent (configured sent : list string) : list string :=
  filter (fun server => server ∈ sent) configured.

Definition resubmission_server_order_random_bytes_required (configured sent : list string) : Z :=
  saturating_add_u64
    (share_server_order_random_bytes_required (length (untried configured sent)))
    (share_server_order_random_bytes_required (length (already_sent configured sent))).

Definition resubmission_server_order_from_groups (untried already_sent : list string)
    : list string := untried ++ already_sent.

Definition resubmission_server_order (configured sent : list string) (bytes : list Z)
    : result (list string) VotingError :=
  let? _ := require_unique_share_servers configured in
  let fresh := untried configured sent in
  let used := already_sent configured sent in
  let fresh_bytes := Z.to_nat (share_server_order_random_bytes_required (length fresh)) in
  let used_bytes := Z.to_nat (share_server_order_random_bytes_required (length used)) in
  let needed := resubmission_server_order_random_bytes_required configured sent in
  if len bytes <? needed then
    Err (VInvalidInput (lit "server_random_bytes must contain at least " ++ decimal needed
      ++ lit " bytes for resubmission order"))
  else
    let? randomized_untried := shuffled_share_server_order fresh (take fresh_bytes bytes) in
    let? randomized_already_sent :=
      shuffled_share_server_order used (take used_bytes (drop fresh_bytes bytes)) in
    Ok (resubmission_server_order_from_groups randomized_untried randomized_already_sent).

Definition resubmission_server_order_from_configured_order (configured sent : list string)
    : list string :=
  resubmission_server_order_from_groups (untried configured sent) (already_sent configured sent).

(** ** Initial placement ([initial_placement.rs]) *)
Definition IMMEDIATE_SHARE_INDEX : Z := 0.

Record ImmediateShareKey := mk_immediate_key {
  ik_bundle_index : Z;
  ik_proposal_id : Z;
  ik_share_index : Z
}.

Definition min_list (l : list Z) : option Z :=
  match l with [] => None | a :: l => Some (foldl Z.min a l) end.

Definition round_immediate_share_key (highest_bundle_index : option Z) (voted : list Z)
    : option ImmediateShareKey :=
  bundle ← highest_bundle_index;
  proposal ← min_list voted;
  Some (mk_immediate_key bundle proposal IMMEDIATE_SHARE_INDEX).

Record ShareSubmissionPlan := mk_share_plan {
  pl_immediate : bool;
  pl_submit_at : Z;
  pl_target_count : Z;
  pl_target_servers : list string
}.

Record ShareSubmissionRandomBytesRequired := mk_bytes_required {
  br_submit_at_random_bytes : Z;
  br_server_random_bytes : Z
}.

Definition share_submission_random_bytes_required (share_count server_count : nat)
    (now vote_end : Z) (buffer : option Z) (single_share : bool)
    : ShareSubmissionRandomBytesRequired :=
  let submit_at_per_share :=
    Z.of_nat (share_submit_at_random_bytes_required now vote_end buffer single_share) in
  let server_per_share := share_server_order_random_bytes_required server_count in
  mk_bytes_required (saturating_mul_usize submit_at_per_share (Z.of_nat share_count))
    (saturating_mul_usize server_per_share (Z.of_nat share_count)).

Definition require_share_servers (servers : list string) : result unit VotingError :=
  if bool_decide (servers = []) then Err (VInvalidInput (lit "server_urls must not be empty"))
  else require_unique_share_servers servers.

Definition build_share_submission_plan (immediate : bool) (target_count : nat)
    (target_servers : list string) (submit_at : Z) : result ShareSubmissionPlan VotingError :=
  if u32_max <? Z.of_nat target_count then
    Err (VInvalidInput (lit "target_count " ++ decimal (Z.of_nat target_count)
      ++ lit " does not fit u32"))
  else Ok (mk_share_plan immediate submit_at (Z.of_nat target_count) target_servers).

Definition plan_share_submission (servers : list string) (now vote_end : Z) (buffer : option Z)
    (single_share : bool) (submit_at_bytes server_bytes : list Z)
    : result ShareSubmissionPlan VotingError :=
  let? _ := require_share_servers servers in
  let target_count := share_submission_target_count (length servers) in
  let? target_servers := select_share_submission_targets servers target_count server_bytes in
  let? submit_at :=
    scheduled_share_submit_at_from_entropy now vote_end buffer single_share submit_at_bytes in
  build_share_submission_plan false target_count target_servers submit_at.

Definition checked_random_bytes_required (per_share : Z) (share_count : nat) (name : string)
    : result Z VotingError :=
  ok_or (checked_mul_usize per_share (Z.of_nat share_count))
    (VInvalidInput (lit name ++ lit " requirement overflows usize")).

Notation ServerUsage := (gmap string nat).

Definition usage_of (usage : ServerUsage) (server : string) : nat := default 0%nat (usage !! server).

(** [sort_by_key] on the pair of usage and rank. *)
Notation Ranked := (nat * string)%type.

Definition ranked_le (usage : ServerUsage) (a b : Ranked) : Prop :=
  (usage_of usage a.2 < usage_of usage b.2
   \/ usage_of usage a.2 = usage_of usage b.2 /\ a.1 <= b.1)%nat.

#[global] Instance ranked_le_dec usage a b : Decision (ranked_le usage a b).
Proof. unfold ranked_le. apply _. Defined.

Definition below_quota (max_shares : option nat) (usage : ServerUsage) (server : string) : bool :=
  match max_shares with
  | Some maximum => bool_decide (usage_of usage server < maximum)%nat
  | None => true
  end.

Definition use_server (usage : ServerUsage) (server : string) : ServerUsage :=
  <[server := S (usage_of usage server)]> usage.

Definition select_batch_share_submission_targets (servers : list string) (target_count : nat)
    (max_shares : option nat) (usage : ServerUsage) (bytes : list Z)
    : result (list string * ServerUsage) VotingError :=
  let? order := shuffled_share_server_order servers bytes in
  let ranked := merge_sort (ranked_le usage) (imap pair order) in
  let selected :=
    map snd (take target_count
      (filter (fun r => below_quota max_shares usage r.2 = true) ranked)) in
  if bool_decide (length selected <> target_count) then
    Err (VInvalidInput (lit "cannot select " ++ decimal (Z.of_nat target_count)
      ++ lit " distinct helpers without exceeding the initial per-helper share quota"))
  else Ok (selected, foldl use_server usage selected).

(** What the planning loop reads. *)
Record PlanningInputs := mk_planning {
  pi_servers : list string;
  pi_target_count : nat;
  pi_max_shares : option nat;
  pi_now : Z;
  pi_vote_end : Z;
  pi_buffer : option Z;
  pi_single_share : bool;
  pi_immediate : option Z;
  pi_submit_at_bytes_per_share : nat;
  pi_server_bytes_per_share : nat;
  pi_submit_at_bytes : list Z;
  pi_server_bytes : list Z
}.

(** One round of the loop: [share_index as u32] wraps at 32 bits. *)
Definition plan_one_share (p : PlanningInputs) (share_index : nat) (usage : ServerUsage)
    : result (ShareSubmissionPlan * ServerUsage) VotingError :=
  let server_bytes := take (pi_server_bytes_per_share p)
    (drop (share_index * pi_server_bytes_per_share p) (pi_server_bytes p)) in
  let submit_at_bytes := take (pi_submit_at_bytes_per_share p)
    (drop (share_index * pi_submit_at_bytes_per_share p) (pi_submit_at_bytes p)) in
  let? (target_servers, usage) := select_batch_share_submission_targets (pi_servers p)
    (pi_target_count p) (pi_max_shares p) usage server_bytes in
  let immediate :=
    bool_decide (pi_immediate p = Some (Z.of_nat share_index mod (u32_max + 1))) in
  let? submit_at :=
    if immediate then Ok 0
    else scheduled_share_submit_at_from_entropy (pi_now p) (pi_vote_end p) (pi_buffer p)
           (pi_single_share p) submit_at_bytes in
  let? plan :=
    build_share_submission_plan immediate (pi_target_count p) target_servers submit_at in
  Ok (plan, usage).

(** The remaining rounds of [for share_index in 0..share_count]. *)
Fixpoint plan_shares (p : PlanningInputs) (rounds share_index : nat) (usage : ServerUsage)
    : result (list ShareSubmissionPlan) VotingError :=
  match rounds with
  | O => Ok []
  | S rounds =>
      let? (plan, usage) := plan_one_share p share_index usage in
      let? plans := plan_shares p rounds (S share_index) usage in
      Ok (plan :: plans)
  end.

Definition index_out_of_range (immediate : option Z) (share_count : nat) : bool :=
  match immediate with Some index => Z.of_nat share_count <=? index | None => false end.

Definition plan_share_submissions_with_preferred_servers (share_count : nat)
    (ranked_servers : list string) (preferred : nat) (now vote_end : Z) (buffer : option Z)
    (single_share : bool) (immediate : option Z) (submit_at_bytes server_bytes : list Z)
    : result (list ShareSubmissionPlan) VotingError :=
  if single_share && negb (bool_decide (share_count = 1%nat)) then
    Err (VInvalidInput (lit "single_share planning requires exactly one share payload, got "
      ++ decimal (Z.of_nat share_count)))
  else if index_out_of_range immediate share_count then
    Err (VInvalidInput (lit "immediate_share_index must be less than share_count "
      ++ decimal (Z.of_nat share_count)))
  else if bool_decide (share_count = 0%nat) then Ok []
  else
    let? _ := require_share_servers ranked_servers in
    if bool_decide (length ranked_servers < preferred)%nat then
      Err (VInvalidInput
        (lit "preferred_server_count must not exceed ranked_server_urls length"))
    else
    let submit_at_per_share :=
      share_submit_at_random_bytes_required now vote_end buffer single_share in
    let server_per_share := share_server_order_random_bytes_required (length ranked_servers) in
    let? submit_at_needed := checked_random_bytes_required (Z.of_nat submit_at_per_share)
      share_count "submit_at_random_bytes" in
    let? server_needed :=
      checked_random_bytes_required server_per_share share_count "server_random_bytes" in
    if len submit_at_bytes <? submit_at_needed then
      Err (VInvalidInput (lit "submit_at_random_bytes must contain at least "
        ++ decimal submit_at_needed ++ lit " bytes"))
    else if len server_bytes <? server_needed then
      Err (VInvalidInput (lit "server_random_bytes must contain at least "
        ++ decimal server_needed ++ lit " bytes"))
    else
    let target_count := share_submission_target_count (length ranked_servers) in
    let complete_normal_batch :=
      bool_decide (share_count = VOTE_COMMITMENT_SHARE_COUNT) && negb single_share in
    let selection_policy := share_server_selection_policy (length ranked_servers) in
    let minimum :=
      if complete_normal_batch then sp_min_server_count selection_policy else target_count in
    if bool_decide (length ranked_servers < minimum)%nat then
      Err (VInvalidInput (lit "complete share batch requires at least "
        ++ decimal (Z.of_nat minimum) ++ lit " helpers to keep each helper at or below "
        ++ decimal (Z.of_nat SHARE_HELPER_MAX_INITIAL_SHARES_PER_SERVER)
        ++ lit " initial shares"))
    else
      let planning_count := Nat.min (Nat.max preferred minimum) (length ranked_servers) in
      let max_shares :=
        if complete_normal_batch && bool_decide (1 < planning_count)%nat
        then Some SHARE_HELPER_MAX_INITIAL_SHARES_PER_SERVER else None in
      plan_shares
        (mk_planning (take planning_count ranked_servers) target_count max_shares now vote_end
           buffer single_share immediate submit_at_per_share (Z.to_nat server_per_share)
           submit_at_bytes server_bytes)
        share_count 0 ∅.

Definition plan_share_submissions (share_count : nat) (servers : list string)
    (now vote_end : Z) (buffer : option Z) (single_share : bool) (immediate : option Z)
    (submit_at_bytes server_bytes : list Z) : result (list ShareSubmissionPlan) VotingError :=
  plan_share_submissions_with_preferred_servers share_count servers (length servers) now vote_end
    buffer single_share immediate submit_at_bytes server_bytes.
