(* ===== verification/SharePolicyProofs.v ===== *)
(** * Correctness of the helper-share policy

    Theorems about [SharePolicy]: the shuffle gives every order from exactly
    one choice of swaps; a delayed share is never scheduled into the last
    moments of a round; a complete commitment is always planned, evenly and
    within the per-helper quota; tracking never sleeps past a due check. *)

From stdpp Require Import base gmap strings list numbers sorting pretty.
From Stdlib Require Import ZifyBool.
From S2P Require Import Prelude Identity Outcome Lifecycle Record SharePolicy.
Local Open Scope Z_scope.
Local Open Scope voting_scope.

(** ** The shuffle *)
Definition transpose (i j k : nat) : nat :=
  if decide (k = i) then j else if decide (k = j) then i else k.

#[global] Instance transpose_inj i j : Inj (=) (=) (transpose i j).
Proof. intros a b. unfold transpose. repeat case_decide; congruence. Qed.

Lemma length_swap {A} i j (l : list A) : length (swap i j l) = length l.
Proof. unfold swap. repeat case_match; by rewrite ?length_insert. Qed.

Lemma lookup_swap {A} i j (l : list A) k :
  (i < length l)%nat -> (j < length l)%nat -> swap i j l !! k = l !! transpose i j k.
Proof.
  intros [a Ha]%lookup_lt_is_Some [b Hb]%lookup_lt_is_Some. unfold swap, transpose.
  rewrite Ha, Hb. pose proof (lookup_lt_Some _ _ _ Ha). pose proof (lookup_lt_Some _ _ _ Hb).
  case_decide as Hi; [subst k|].
  { by rewrite list_lookup_insert_eq by (rewrite length_insert; done). }
  rewrite list_lookup_insert_ne by done.
  case_decide as Hj; [subst k; by rewrite list_lookup_insert_eq|].
  by rewrite list_lookup_insert_ne.
Qed.

Lemma swap_perm {A} i j (l : list A) : swap i j l ≡ₚ l.
Proof.
  destruct (l !! i) as [a|] eqn:Ha; [|by unfold swap; rewrite Ha].
  destruct (l !! j) as [b|] eqn:Hb; [|by unfold swap; rewrite Ha, Hb].
  apply Permutation_inj. split; [apply length_swap|].
  exists (transpose i j). split; [apply _|]. intros k.
  apply lookup_swap; by eapply lookup_lt_Some.
Qed.

(** The index each step of the shuffle swaps with. *)
Fixpoint choices (index : nat) (bytes : list Z) : list nat :=
  match index with
  | O => []
  | S next =>
      Z.to_nat (u64_from_le_bytes (take 8 bytes) mod (Z.of_nat index + 1))
        :: choices next (drop 8 bytes)
  end.

Fixpoint apply_choices {A} (index : nat) (ks : list nat) (l : list A) : list A :=
  match index, ks with
  | S next, k :: ks => apply_choices next ks (swap index k l)
  | _, _ => l
  end.

(** [ks] has a choice of at most [index] for [index], [index - 1], ..., 1. *)
Fixpoint valid_choices (index : nat) (ks : list nat) : Prop :=
  match index, ks with
  | O, [] => True
  | S next, k :: ks => (k <= index)%nat /\ valid_choices next ks
  | _, _ => False
  end.

Lemma shuffle_choices {A} index bytes (l : list A) :
  shuffle_from index bytes l = apply_choices index (choices index bytes) l.
Proof. revert bytes l. induction index as [|n IH]; intros; [done|]. apply IH. Qed.

Lemma choices_valid index bytes : valid_choices index (choices index bytes).
Proof.
  revert bytes. induction index as [|n IH]; intros bytes; [done|]. split; [|apply IH].
  pose proof (Z.mod_pos_bound (u64_from_le_bytes (take 8 bytes)) (Z.of_nat (S n) + 1)
    ltac:(lia)). lia.
Qed.

Lemma apply_choices_perm {A} index ks (l : list A) : apply_choices index ks l ≡ₚ l.
Proof.
  revert ks l. induction index as [|n IH]; intros [|k ks] l; try done. cbn [apply_choices].
  rewrite IH. apply swap_perm.
Qed.

(** Later steps leave the positions above them alone. *)
Lemma apply_choices_above {A} index ks (l : list A) k :
  valid_choices index ks -> (index < length l)%nat -> (index < k)%nat ->
  apply_choices index ks l !! k = l !! k.
Proof.
  revert ks l. induction index as [|n IH]; intros [|c ks] l Hv Hl Hk; try done.
  destruct Hv as [Hc Hv]. cbn [apply_choices].
  rewrite IH by (rewrite ?length_swap; done || lia). rewrite lookup_swap by lia.
  unfold transpose. by rewrite !decide_False by lia.
Qed.

Lemma NoDup_lookup_eq {A} (l : list A) i j x : NoDup l -> l !! i = Some x -> l !! j = Some x -> i = j.
Proof. intros Hl. by eapply NoDup_lookup. Qed.

Lemma apply_choices_step {A} n c ks (l : list A) :
  valid_choices (S n) (c :: ks) -> (S n < length l)%nat ->
  apply_choices (S n) (c :: ks) l !! S n = l !! c.
Proof.
  intros [Hc Hv] Hl. cbn [apply_choices].
  rewrite apply_choices_above by (rewrite ?length_swap; done || lia).
  rewrite lookup_swap by lia. unfold transpose. by rewrite decide_True.
Qed.

Lemma apply_choices_inj {A} index ks ks' (l : list A) :
  NoDup l -> (index < length l)%nat -> valid_choices index ks -> valid_choices index ks' ->
  apply_choices index ks l = apply_choices index ks' l -> ks = ks'.
Proof.
  revert ks ks' l. induction index as [|n IH]; intros [|c ks] [|c' ks'] l Hnd Hl Hv Hv' Heq;
    try done.
  assert (c = c') as <-.
  { destruct (lookup_lt_is_Some_2 l c) as [x Hx]; [destruct Hv; lia|].
    pose proof (apply_choices_step n c ks l Hv Hl) as H1.
    pose proof (apply_choices_step n c' ks' l Hv' Hl) as H2.
    eapply (NoDup_lookup_eq l); [done|exact Hx|congruence]. }
  f_equal. destruct Hv as [_ Hv], Hv' as [_ Hv']. cbn [apply_choices] in Heq.
  apply (IH ks ks' (swap (S n) c l)); [by rewrite swap_perm|rewrite length_swap; lia|done..].
Qed.

(** Any order that agrees above [index] is reached. *)
Lemma apply_choices_surj {A} index (l p : list A) :
  NoDup l -> (index < length l)%nat -> p ≡ₚ l ->
  (forall k, (index < k)%nat -> p !! k = l !! k) ->
  exists ks, valid_choices index ks /\ apply_choices index ks l = p.
Proof.
  revert l. induction index as [|n IH]; intros l Hnd Hl Hp Habove.
  - exists []. split; [done|]. cbn. symmetry. apply list_eq. intros [|k]; [|by apply Habove; lia].
    destruct l as [|a l]; [cbn in Hl; lia|].
    destruct p as [|b p]; [by apply Permutation_length in Hp|]. cbn. f_equal.
    assert (p = l) as -> by (apply list_eq; intros k; apply (Habove (S k)); lia).
    assert (b ∈ a :: l) as Hb by (rewrite <- Hp; by constructor).
    apply NoDup_cons in Hnd as [Ha Hnd]. assert (b ∉ l) as Hb'.
    { assert (NoDup (b :: l)) as [? _]%NoDup_cons; [|done]. by rewrite Hp, NoDup_cons. }
    apply elem_of_cons in Hb as [->|?]; done.
  - assert (length p = length l) as Hlen by (by rewrite Hp).
    destruct (lookup_lt_is_Some_2 p (S n)) as [x Hx]; [lia|].
    assert (x ∈ l) as [c Hc]%list_elem_of_lookup by (rewrite <- Hp; by eapply list_elem_of_lookup_2).
    assert (c <= S n)%nat as Hcn.
    { destruct (decide (c <= S n)%nat) as [|Hgt]; [done|]. exfalso.
      assert (NoDup p) as Hndp by (by rewrite Hp). rewrite <- (Habove c) in Hc by lia.
      pose proof (NoDup_lookup_eq _ _ _ _ Hndp Hc Hx). lia. }
    destruct (IH (swap (S n) c l)) as (ks&Hv&Hks).
    + by rewrite swap_perm.
    + rewrite length_swap. lia.
    + by rewrite swap_perm.
    + intros k Hk. pose proof (lookup_lt_Some _ _ _ Hc). rewrite lookup_swap by lia. unfold transpose.
      destruct (decide (k = S n)) as [->|Hne]; [congruence|].
      rewrite decide_False by lia. apply Habove. lia.
    + by exists (c :: ks).
Qed.

Lemma choices_reachable index ks :
  Z.of_nat index <= u64_max -> valid_choices index ks ->
  exists bytes, length bytes = (8 * index)%nat /\ Forall is_u8 bytes /\ choices index bytes = ks.
Proof.
  revert ks. induction index as [|n IH]; intros [|k ks] Hn Hv; try done.
  { exists []. by split_and!. }
  destruct Hv as [Hk Hv]. destruct (IH ks) as (bytes&Hl&Hb&Hc); [lia|done|].
  exists (rev (be_bytes 8 (Z.of_nat k)) ++ bytes). split_and!.
  - rewrite length_app, length_rev, length_be_bytes. lia.
  - apply Forall_app. split; [|done]. apply Forall_rev, be_bytes_u8.
  - cbn [choices]. rewrite take_app_length', drop_app_length'
      by (by rewrite length_rev, length_be_bytes).
    rewrite Hc. f_equal. unfold u64_from_le_bytes. rewrite rev_involutive.
    rewrite be_decode_be_bytes_small by (unfold u64_max in *; lia).
    rewrite Z.mod_small by lia. lia.
Qed.

(** Shuffle: with enough entropy the shuffle returns an order of the
    servers, and every order comes from exactly one choice of swaps, which some
    entropy makes; so the order is uniform when the choices are. *)
Theorem shuffle_is_exact servers order :
  NoDup servers -> Z.of_nat (length servers) <= u64_max -> order ≡ₚ servers ->
  exists ks, valid_choices (length servers - 1) ks
    /\ (exists bytes, share_server_order_random_bytes_required (length servers) <= len bytes
          /\ choices (length servers - 1) bytes = ks)
    /\ forall bytes, share_server_order_random_bytes_required (length servers) <= len bytes ->
         shuffled_share_server_order servers bytes = Ok order
         <-> choices (length servers - 1) bytes = ks.
Proof.
  intros Hnd Hlen Hp.
  assert (exists ks, valid_choices (length servers - 1) ks
    /\ apply_choices (length servers - 1) ks servers = order) as (ks&Hv&Hks).
  { destruct servers as [|a l]; [apply Permutation_nil_r in Hp as ->; by exists []|].
    apply apply_choices_surj; [done|cbn; lia|done|]. intros k Hk.
    apply Permutation_length in Hp. rewrite !lookup_ge_None_2; [done|..]; cbn in *; lia. }
  exists ks. split_and!; [done| |].
  { destruct (choices_reachable (length servers - 1) ks) as (bytes&Hl&_&Hc); [lia|done|].
    exists bytes. split; [|done]. unfold share_server_order_random_bytes_required, len.
    unfold saturating_mul_usize, saturating_sub_u64. rewrite Hl. lia. }
  intros bytes Hb. unfold shuffled_share_server_order, require_unique_share_servers.
  rewrite decide_True by done. rewrite (proj2 (Z.ltb_ge _ _)) by done. rewrite shuffle_choices.
  split; [|by intros ->; rewrite Hks]. intros [= Heq]. rewrite <- Hks in Heq.
  destruct servers as [|a l]; [by destruct ks|].
  apply (apply_choices_inj (length (a :: l) - 1) _ _ (a :: l)); [done|cbn; lia| |done|done].
  apply choices_valid.
Qed.

Lemma shuffle_order servers bytes :
  NoDup servers -> share_server_order_random_bytes_required (length servers) <= len bytes ->
  exists order, shuffled_share_server_order servers bytes = Ok order /\ order ≡ₚ servers.
Proof.
  intros Hnd Hb. unfold shuffled_share_server_order, require_unique_share_servers.
  rewrite decide_True by done. rewrite (proj2 (Z.ltb_ge _ _)) by done.
  eexists. split; [done|]. rewrite shuffle_choices. apply apply_choices_perm.
Qed.

(** ** Submission times *)
Lemma be_decode_bound bytes :
  Forall is_u8 bytes -> 0 <= be_decode bytes < 256 ^ Z.of_nat (length bytes).
Proof.
  induction bytes as [|b bytes IH] using rev_ind; intros Hb; [done|].
  apply Forall_app in Hb as [Hb Hlast]. apply Forall_singleton in Hlast as [? ?].
  specialize (IH Hb). unfold be_decode in *. rewrite foldl_app. cbn [foldl].
  rewrite length_app. cbn [length]. rewrite Nat2Z.inj_add, Z.pow_add_r by lia.
  unfold u8_max in *. change (256 ^ Z.of_nat 1) with 256. lia.
Qed.

Lemma sample_bound bytes :
  Forall is_u8 bytes -> (8 <= length bytes)%nat -> 0 <= u64_from_le_bytes (take 8 bytes) < 2 ^ 64.
Proof.
  intros Hb Hl. unfold u64_from_le_bytes.
  pose proof (be_decode_bound (rev (take 8 bytes))) as Hd.
  rewrite length_rev, length_take, Nat.min_l in Hd by done. apply Hd, Forall_rev, Forall_take, Hb.
Qed.

(** The high half of the product of a 64-bit sample with a window. *)
Lemma scaled_bound sample window :
  0 <= sample < 2 ^ 64 -> 0 < window -> 0 <= Z.shiftr (sample * window) 64 < window.
Proof.
  intros Hs Hw. rewrite Z.shiftr_div_pow2 by lia. split.
  - apply Z.div_pos; nia.
  - apply Z.div_lt_upper_bound; nia.
Qed.

(** Every delay of the window has a sample. *)
Lemma scaled_surjective window delay :
  0 <= delay < window -> window < 2 ^ 64 ->
  exists sample, 0 <= sample < 2 ^ 64 /\ Z.shiftr (sample * window) 64 = delay.
Proof.
  intros Hd Hw. set (up := (delay * 2 ^ 64 + window - 1) / window).
  assert (window * up <= delay * 2 ^ 64 + window - 1) as Hle by (apply Z.mul_div_le; lia).
  assert (delay * 2 ^ 64 + window - 1 < window * Z.succ up) as Hlt
    by (apply Z.mul_succ_div_gt; lia).
  exists up. assert (0 <= up) by (apply Z.div_pos; nia). split.
  - split; [done|]. destruct (Z_lt_le_dec up (2 ^ 64)); [done|]. nia.
  - rewrite Z.shiftr_div_pow2 by lia. symmetry. apply (Z.div_unique _ _ _ (up * window - delay * 2 ^ 64));
      [left; nia|lia].
Qed.

Lemma buffer_positive start vote_end buffer :
  last_moment_buffer_seconds start vote_end = Some buffer -> 0 < buffer <= vote_end - start.
Proof.
  unfold last_moment_buffer_seconds. destruct (vote_end <? start) eqn:?; [done|].
  destruct (_ =? 0) eqn:?; [done|]. intros [= <-].
  unfold LAST_MOMENT_BUFFER_FRACTION_NUMERATOR, LAST_MOMENT_BUFFER_FRACTION_DENOMINATOR.
  unfold LAST_MOMENT_BUFFER_MAX_SECONDS.
  pose proof (Z.div_mod ((vote_end - start) * 2 + 5 - 1) 5 ltac:(lia)).
  pose proof (Z.mod_pos_bound ((vote_end - start) * 2 + 5 - 1) 5 ltac:(lia)). lia.
Qed.

Lemma delayed_window_spec now start vote_end single :
  delayed_share_window_seconds now vote_end (last_moment_buffer_seconds start vote_end) single
  = match last_moment_deadline_seconds start vote_end with
    | Some deadline =>
        if negb single && (now <? deadline)
        then Some (Z.min (deadline - now) SHARE_SUBMIT_AT_MAX_DELAY_SECONDS) else None
    | None => None
    end.
Proof.
  unfold delayed_share_window_seconds, last_moment_deadline_seconds.
  destruct (last_moment_buffer_seconds start vote_end) as [buffer|] eqn:Hb; cbn [mbind option_bind];
    [|by destruct single].
  apply buffer_positive in Hb. destruct single; [done|]. cbn [negb andb].
  destruct (buffer =? 0) eqn:?; [lia|].
  destruct (_ <=? now) eqn:?, (now <? _) eqn:?; try done; lia.
Qed.

(** C40 (submission times): in a round's last moments, for a single share and
    for timing without a buffer a share is handed over at once. Otherwise its
    time lies between now and the earlier of the last moments' start and one
    hundred hours from now, and entropy exists for every second of that span. *)
Theorem submit_at_before_last_moment now start vote_end single :
  is_u64 now -> is_u64 vote_end -> 0 <= start ->
  let schedule := scheduled_share_submit_at_from_entropy now vote_end
    (last_moment_buffer_seconds start vote_end) single in
  match last_moment_deadline_seconds start vote_end with
  | Some deadline =>
      if negb single && (now <? deadline) then
        let last := Z.min deadline (now + SHARE_SUBMIT_AT_MAX_DELAY_SECONDS) in
        deadline < vote_end
        /\ (forall bytes, Forall is_u8 bytes -> (8 <= length bytes)%nat ->
              exists submit_at, schedule bytes = Ok submit_at /\ now <= submit_at < last)
        /\ (forall submit_at, now <= submit_at < last ->
              exists bytes, length bytes = 8%nat /\ schedule bytes = Ok submit_at)
      else forall bytes, schedule bytes = Ok 0
  | None => forall bytes, schedule bytes = Ok 0
  end.
Proof.
  intros Hnow Hend Hstart schedule. subst schedule. unfold scheduled_share_submit_at_from_entropy.
  rewrite delayed_window_spec.
  destruct (last_moment_deadline_seconds start vote_end) as [deadline|] eqn:Hdl; [|done].
  destruct (negb single && (now <? deadline)) eqn:Hw; [|done].
  apply andb_prop in Hw as [_ Hw]. apply Z.ltb_lt in Hw.
  assert (deadline < vote_end) as Hbefore.
  { unfold last_moment_deadline_seconds in Hdl.
    destruct (last_moment_buffer_seconds start vote_end) as [buffer|] eqn:Hb; [|done].
    apply buffer_positive in Hb. injection Hdl as <-. unfold saturating_sub_u64, is_u64 in *. lia. }
  set (window := Z.min (deadline - now) SHARE_SUBMIT_AT_MAX_DELAY_SECONDS).
  assert (0 < window < 2 ^ 64) as Hwin by (unfold window, SHARE_SUBMIT_AT_MAX_DELAY_SECONDS; lia).
  assert (Z.min deadline (now + SHARE_SUBMIT_AT_MAX_DELAY_SECONDS) = now + window) as ->
    by (unfold window; lia).
  assert (now + window <= u64_max) as Hfit by (unfold window, is_u64 in *; lia).
  split_and!; [done|..].
  - intros bytes Hb Hl. rewrite bool_decide_eq_false_2 by (unfold SHARE_SUBMIT_AT_RANDOM_BYTES; lia).
    eexists. split; [done|]. pose proof (scaled_bound _ window (sample_bound _ Hb Hl)).
    unfold saturating_add_u64. lia.
  - intros submit_at Hs. destruct (scaled_surjective window (submit_at - now)) as (x&Hx&Hd); [lia..|].
    exists (rev (be_bytes 8 x)). rewrite length_rev, length_be_bytes. split; [done|].
    rewrite take_ge by (by rewrite length_rev, length_be_bytes).
    unfold u64_from_le_bytes. rewrite rev_involutive, be_decode_be_bytes_small by done.
    rewrite Hd. cbn -[saturating_add_u64]. f_equal. unfold saturating_add_u64. lia.
Qed.

(** ** Tracking *)

(** When one unconfirmed share next wants attention. *)
Definition wake_delay (now : Z) (policy : ShareTimingPolicy) (share : ShareDelegationRecord) : Z :=
  if is_share_ready_for_status_check share now policy then ready_poll_interval_seconds policy
  else Z.min (saturating_sub_u64 (saturating_add_u64 (share_recovery_base_time share)
                (status_check_grace_seconds policy)) now)
         (future_check_max_delay_seconds policy).

Definition unconfirmed (shares : list ShareDelegationRecord) : list ShareDelegationRecord :=
  filter (fun share => sr_confirmed share = false) shares.

(** The least of a list and a start value. *)
Definition min_from (start : option Z) (l : list Z) : option Z := foldl min_second start l.

Lemma min_second_min a b : min_second (Some a) b = Some (Z.min a b).
Proof. cbn. destruct (a <=? b) eqn:?; f_equal; lia. Qed.

Lemma min_from_list l : min_from None l = min_list l.
Proof.
  destruct l as [|a l]; [done|]. unfold min_from. cbn [foldl min_list].
  change (min_second None a) with (Some a). generalize a. clear a.
  induction l as [|b l IH]; intros a; [done|]. cbn [foldl]. by rewrite min_second_min, IH.
Qed.

(** What the scan has found after some shares. *)
Definition delay_so_far (now : Z) (policy : ShareTimingPolicy) (next : option Z) (ready : bool)
    : option Z :=
  let future := (fun next =>
    Z.min (saturating_sub_u64 next now) (future_check_max_delay_seconds policy)) <$> next in
  if ready then Some match future with
                     | Some future => Z.min (ready_poll_interval_seconds policy) future
                     | None => ready_poll_interval_seconds policy
                     end
  else future.

Lemma scan_share_delay now policy next seen ready share :
  sr_confirmed share = false ->
  (forall n, next = Some n -> now < n) ->
  let '(next', seen', ready') := tracking_scan now policy (next, seen, ready) share in
  seen' = true /\ (forall n, next' = Some n -> now < n)
  /\ delay_so_far now policy next' ready'
     = min_second (delay_so_far now policy next ready) (wake_delay now policy share).
Proof.
  intros Hc Hn. unfold tracking_scan, wake_delay, is_share_ready_for_status_check. rewrite Hc.
  set (check := saturating_add_u64 _ _).
  destruct (now <? check) eqn:Hlt.
  - destruct (check <=? now) eqn:?; [lia|]. split_and!; [done|..].
    + destruct next as [n|]; cbn; [specialize (Hn n eq_refl)|]; intros x;
        [destruct (n <=? check)|]; intros [= <-]; lia.
    + destruct next as [n|]; [specialize (Hn n eq_refl); rewrite min_second_min|];
        destruct ready; unfold delay_so_far; cbn [fmap option_fmap option_map];
        rewrite ?min_second_min; try done; unfold saturating_sub_u64; f_equal; lia.
  - destruct (check <=? now) eqn:?; [|lia]. split_and!; [done|done|].
    destruct next as [n|], ready; unfold delay_so_far; cbn [fmap option_fmap option_map];
      rewrite ?min_second_min; try done; f_equal; lia.
Qed.

Lemma scan_delay now policy shares next seen ready :
  (forall n, next = Some n -> now < n) ->
  (seen = false -> next = None /\ ready = false) ->
  let '(next', seen', ready') := foldl (tracking_scan now policy) (next, seen, ready) shares in
  seen' = seen || negb (bool_decide (unconfirmed shares = []))
  /\ delay_so_far now policy next' ready'
     = min_from (delay_so_far now policy next ready) (map (wake_delay now policy) (unconfirmed shares)).
Proof.
  revert next seen ready. induction shares as [|share shares IH]; intros next seen ready Hn Hs.
  { cbn. by rewrite orb_false_r. }
  cbn [foldl]. unfold unconfirmed. rewrite filter_cons.
  destruct (sr_confirmed share) eqn:Hc.
  - rewrite decide_False by done. unfold tracking_scan at 2. rewrite Hc. by apply IH.
  - rewrite decide_True by done.
    pose proof (scan_share_delay now policy next seen ready share Hc Hn) as Hstep.
    destruct (tracking_scan now policy (next, seen, ready) share) as [[n' s'] r'].
    destruct Hstep as (->&Hn'&Hd).
    pose proof (IH n' true r' Hn' ltac:(done)) as Hrest.
    destruct (foldl _ _ _) as [[n'' s''] r'']. destruct Hrest as [-> Hr]. split.
    + rewrite (bool_decide_eq_false_2 (share :: _ = [])) by done. by rewrite orb_true_r.
    + rewrite Hr, Hd. done.
Qed.

(** Tracking cadence: tracking stops exactly when every share is confirmed;
    otherwise the next pass comes at the earliest time an unconfirmed share
    wants attention, but not before the policy's minimum. *)
Theorem next_tracking_delay_is_earliest shares now policy :
  next_tracking_delay_seconds shares now policy
  = (fun delay => Z.max delay (min_tracking_delay_seconds policy))
      <$> min_list (map (wake_delay now policy) (unconfirmed shares)).
Proof.
  unfold next_tracking_delay_seconds.
  pose proof (scan_delay now policy shares None false false ltac:(done) ltac:(done)) as Hscan.
  destruct (foldl _ _ _) as [[next seen] ready]. destruct Hscan as [-> Hd].
  change (delay_so_far now policy None false) with (@None Z) in Hd.
  rewrite min_from_list in Hd. cbn [orb].
  destruct (unconfirmed shares) as [|share rest]; [done|].
  rewrite bool_decide_eq_false_2 by done. cbn [negb]. rewrite <- Hd.
  cbn [map min_list] in Hd. unfold delay_so_far in *.
  destruct ready, next as [n|]; cbn [fmap option_fmap option_map] in *; try done; f_equal; lia.
Qed.

(** The class a share is counted in. *)
Inductive ShareClass := ClassConfirmed | ClassOverdue | ClassReady | ClassWaiting.

#[global] Instance ShareClass_eq_dec : EqDecision ShareClass.
Proof. solve_decision. Defined.

Definition share_class (now : Z) (vote_end : option Z) (policy : ShareTimingPolicy)
    (share : ShareDelegationRecord) : ShareClass :=
  if sr_confirmed share then ClassConfirmed
  else if match vote_end with
          | Some vote_end => should_resubmit_share share now vote_end policy
          | None => false
          end then ClassOverdue
  else if is_share_ready_for_status_check share now policy then ClassReady
  else ClassWaiting.

Definition class_count (now : Z) (vote_end : option Z) (policy : ShareTimingPolicy)
    (class : ShareClass) (shares : list ShareDelegationRecord) : Z :=
  len (filter (fun share => share_class now vote_end policy share = class) shares).

Lemma class_count_cons now vote_end policy class share shares :
  class_count now vote_end policy class (share :: shares)
  = (if decide (share_class now vote_end policy share = class) then 1 else 0)
    + class_count now vote_end policy class shares.
Proof. unfold class_count, len. rewrite filter_cons. case_decide; cbn [length]; lia. Qed.

Lemma summary_counts now vote_end policy shares :
  let count class := class_count now vote_end policy class shares in
  summarize_share_tracking shares now vote_end policy
  = mk_summary (len shares) (count ClassConfirmed) (count ClassWaiting) (count ClassReady)
      (count ClassOverdue)
  /\ len shares = count ClassConfirmed + count ClassWaiting + count ClassReady + count ClassOverdue.
Proof.
  cbv zeta. unfold summarize_share_tracking.
  assert (forall s, foldl (summarize_share now vote_end policy) s shares
    = mk_summary (sum_total s) (sum_confirmed s + class_count now vote_end policy ClassConfirmed shares)
        (sum_waiting s + class_count now vote_end policy ClassWaiting shares)
        (sum_ready s + class_count now vote_end policy ClassReady shares)
        (sum_overdue s + class_count now vote_end policy ClassOverdue shares)) as Hfold.
  { induction shares as [|share shares IH]; intros s; cbn [foldl].
    { destruct s. unfold class_count, len. cbn. by rewrite !Z.add_0_r. }
    rewrite IH, !class_count_cons. unfold summarize_share, share_class.
    destruct (sr_confirmed share);
      [|destruct (match vote_end with Some v => _ | None => _ end);
        [|destruct (is_share_ready_for_status_check _ _ _)]];
      cbn; f_equal; repeat case_decide; try congruence; lia. }
  split; [by rewrite Hfold; cbn|]. clear Hfold.
  induction shares as [|share shares IH]; [done|]. rewrite !class_count_cons.
  unfold len in *. cbn [length]. destruct (share_class _ _ _ share);
    repeat case_decide; try congruence; lia.
Qed.

(** ** Placement *)
#[global] Instance ranked_le_total usage : Total (ranked_le usage).
Proof. intros a b. unfold ranked_le. lia. Qed.

#[global] Instance ranked_le_trans usage : Transitive (ranked_le usage).
Proof. intros a b c. unfold ranked_le. lia. Qed.

Lemma StronglySorted_filter {A} (R : A -> A -> Prop) (P : A -> Prop)
    `{forall x, Decision (P x)} (l : list A) :
  StronglySorted R l -> StronglySorted R (filter P l).
Proof.
  induction 1 as [|a l _ IH Ha]; [constructor|]. rewrite filter_cons. case_decide; [|done].
  constructor; [done|]. apply list.Forall_forall. intros x [_ Hx]%list_elem_of_filter.
  rewrite list.Forall_forall in Ha. by apply Ha.
Qed.

Lemma map_snd_imap_pair {A} (l : list A) : snd <$> imap pair l = l.
Proof.
  apply list_eq. intros i. rewrite list_lookup_fmap, list_lookup_imap. by destruct (l !! i).
Qed.

Lemma filter_snd (p : string -> bool) (l : list Ranked) :
  snd <$> filter (fun r => p r.2 = true) l = filter (fun s => p s = true) (snd <$> l).
Proof.
  induction l as [|a l IH]; [done|]. rewrite fmap_cons, !filter_cons.
  case_decide; [rewrite fmap_cons|]; by rewrite IH.
Qed.

Lemma usage_of_use u a s :
  usage_of (use_server u a) s = (usage_of u s + if decide (s = a) then 1 else 0)%nat.
Proof.
  unfold use_server, usage_of. case_decide as Ha; [rewrite Ha, lookup_insert_eq; cbn; lia|].
  rewrite lookup_insert_ne by done. lia.
Qed.

Lemma usage_of_selected selected u s :
  NoDup selected ->
  usage_of (foldl use_server u selected) s
  = (usage_of u s + if decide (s ∈ selected) then 1 else 0)%nat.
Proof.
  revert u. induction selected as [|a l IH]; intros u Hl; cbn [foldl].
  - rewrite decide_False by apply not_elem_of_nil. lia.
  - apply NoDup_cons in Hl as [Ha Hl]. rewrite IH, usage_of_use by done.
    destruct (decide (s = a)) as [->|Hne].
    + rewrite decide_False, decide_True by (done || by constructor). lia.
    + destruct (decide (s ∈ l)); [rewrite decide_True by (by constructor)|
        rewrite decide_False by (by intros [?|?]%elem_of_cons)]; lia.
Qed.

(** Ranking lists the servers from the least used to the most used. *)
Lemma ranked_servers usage order :
  exists ranked, snd <$> merge_sort (ranked_le usage) (imap pair order) = ranked
    /\ ranked ≡ₚ order
    /\ StronglySorted (fun a b => usage_of usage a <= usage_of usage b)%nat ranked.
Proof.
  eexists. split; [done|]. split.
  - rewrite merge_sort_Permutation. by rewrite map_snd_imap_pair.
  - pose proof (StronglySorted_merge_sort (ranked_le usage) (imap pair order)) as Hs.
    induction Hs as [|a l _ IH Ha]; cbn; constructor; [done|].
    apply Forall_fmap. eapply Forall_impl; [exact Ha|].
    intros b. unfold ranked_le. cbn. lia.
Qed.

(** What one selection gives, when enough servers are below the quota. *)
Record selection (servers : list string) (t : nat) (max_shares : option nat) (usage : ServerUsage)
    (selected : list string) : Prop := {
  sel_nodup : NoDup selected;
  sel_length : length selected = t;
  sel_servers : selected ⊆ servers;
  sel_quota : forall s, s ∈ selected -> below_quota max_shares usage s = true;
  sel_least : forall s s', s ∈ selected -> s' ∈ servers -> s' ∉ selected ->
    (usage_of usage s <= usage_of usage s')%nat
}.

Lemma select_targets servers t max_shares usage bytes :
  NoDup servers -> share_server_order_random_bytes_required (length servers) <= len bytes ->
  (t <= length (filter (fun s => below_quota max_shares usage s = true) servers))%nat ->
  exists selected,
    select_batch_share_submission_targets servers t max_shares usage bytes
    = Ok (selected, foldl use_server usage selected)
    /\ selection servers t max_shares usage selected.
Proof.
  intros Hnd Hb Ht. destruct (shuffle_order _ _ Hnd Hb) as (order&Ho&Hperm).
  unfold select_batch_share_submission_targets. rewrite Ho. cbv beta iota zeta.
  destruct (ranked_servers usage order) as (ranked&Hr&Hrp&Hs).
  change (map snd (take t ?l)) with (snd <$> take t l). rewrite fmap_take.
  assert (snd <$> filter (fun r => below_quota max_shares usage r.2 = true)
      (merge_sort (ranked_le usage) (imap pair order))
    = filter (fun s => below_quota max_shares usage s = true) ranked) as ->
    by (rewrite <- Hr; apply (filter_snd (below_quota max_shares usage))). rewrite Hperm in Hrp. clear Hr Ho Hperm Hb.
  set (eligible := filter _ ranked).
  assert (eligible ≡ₚ filter (fun s => below_quota max_shares usage s = true) servers) as Hel
    by (unfold eligible; by rewrite Hrp).
  assert (length (take t eligible) = t) as Hlen by (rewrite length_take, Hel; lia).
  rewrite bool_decide_eq_false_2 by (intros Hne; by apply Hne).
  eexists. split; [done|].
  assert (NoDup eligible) as Hnde by (rewrite Hel; by apply NoDup_filter).
  assert (StronglySorted (fun a b => usage_of usage a <= usage_of usage b)%nat eligible) as Hse
    by (by apply StronglySorted_filter).
  assert (forall s, s ∈ eligible <-> below_quota max_shares usage s = true /\ s ∈ servers) as Hin
    by (intros s; by rewrite Hel, list_elem_of_filter).
  rewrite <- (take_drop t eligible) in Hnde, Hse, Hin.
  apply NoDup_app in Hnde as (Hnd1&_&_).
  constructor; [done|done|..].
  - intros s Hs'. apply Hin, elem_of_app. by left.
  - intros s Hs'. apply Hin, elem_of_app. by left.
  - intros s s' Hs1 Hs2 Hs3. assert (below_quota max_shares usage s = true) as Hq
      by (apply Hin, elem_of_app; by left).
    destruct (below_quota max_shares usage s') eqn:Hq'.
    + eapply (StronglySorted_app_1_elem_of _ _ _ s s') in Hse; [exact Hse|done|].
      assert (s' ∈ take t eligible ++ drop t eligible) as [?|?]%elem_of_app by (by apply Hin); done.
    + unfold below_quota in *. destruct max_shares as [q|]; [|done].
      apply bool_decide_eq_true in Hq. apply bool_decide_eq_false in Hq'. lia.
Qed.

Lemma filter_everything {A} (P : A -> Prop) `{forall x, Decision (P x)} (l : list A) :
  (forall x, x ∈ l -> P x) -> filter P l = l.
Proof.
  induction l as [|a l IH]; intros Hp; [done|].
  rewrite filter_cons, decide_True by (apply Hp; constructor).
  f_equal. apply IH. intros. apply Hp. by constructor.
Qed.

Definition balanced (servers : list string) (usage : ServerUsage) : Prop :=
  forall s s', s ∈ servers -> s' ∈ servers -> (usage_of usage s <= S (usage_of usage s'))%nat.

Definition total_usage (servers : list string) (usage : ServerUsage) : nat :=
  sum_list_with (usage_of usage) servers.

Lemma selection_balanced servers t max_shares usage selected :
  selection servers t max_shares usage selected -> balanced servers usage ->
  balanced servers (foldl use_server usage selected).
Proof.
  intros [Hnd _ _ _ Hleast] Hb s s' Hs Hs'. rewrite !usage_of_selected by done.
  pose proof (Hb s s' Hs Hs'). destruct (decide (s ∈ selected)), (decide (s' ∈ selected)); [lia| |lia..].
  pose proof (Hleast s s' ltac:(done) Hs' ltac:(done)). lia.
Qed.

Lemma selection_total servers t max_shares usage selected :
  NoDup servers -> selection servers t max_shares usage selected ->
  total_usage servers (foldl use_server usage selected) = (total_usage servers usage + t)%nat.
Proof.
  intros Hnd [Hnds Hlen Hsub _ _].
  assert (total_usage servers (foldl use_server usage selected)
    = (total_usage servers usage + length (filter (fun s => s ∈ selected) servers))%nat) as ->.
  { unfold total_usage. clear Hnd Hsub. induction servers as [|s servers IH]; [done|].
    cbn [sum_list_with]. rewrite IH, usage_of_selected, filter_cons by done.
    destruct (decide (s ∈ selected)); cbn [length]; lia. }
  f_equal. rewrite <- Hlen. apply Permutation_length, NoDup_Permutation; [by apply NoDup_filter|done|].
  intros s. rewrite list_elem_of_filter. split; [by intros [? _]|]. intros Hs. split; [done|by apply Hsub].
Qed.

Lemma total_usage_deficit servers usage q :
  (forall s, s ∈ servers -> (q <= S (usage_of usage s))%nat) ->
  (q * length servers <= total_usage servers usage
     + length (filter (fun s => below_quota (Some q) usage s = true) servers))%nat.
Proof.
  unfold total_usage. induction servers as [|s servers IH]; intros Hq; [cbn; lia|].
  cbn [sum_list_with length]. rewrite filter_cons.
  specialize (IH ltac:(intros; apply Hq; by constructor)).
  specialize (Hq s ltac:(by constructor)).
  case_decide as Hb; cbn [length]; [lia|]. cbn in Hb. rewrite bool_decide_eq_true in Hb. lia.
Qed.

(** A balanced fleet with capacity for all rounds has room for the next one. *)
Lemma room_for_round servers usage q t rounds i :
  balanced servers usage -> total_usage servers usage = (i * t)%nat -> (i < rounds)%nat ->
  (rounds * t <= q * length servers)%nat -> (t <= length servers)%nat ->
  (t <= length (filter (fun s => below_quota (Some q) usage s = true) servers))%nat.
Proof.
  intros Hb Htot Hi Hcap Ht.
  destruct (decide (Exists (fun s => q <= usage_of usage s)%nat servers)) as [Hex|Hnone].
  - apply list.Exists_exists in Hex as (s&Hs&Hq).
    pose proof (total_usage_deficit servers usage q) as Hd.
    assert (forall s', s' ∈ servers -> (q <= S (usage_of usage s'))%nat) as Hall.
    { intros s' Hs'. pose proof (Hb s s' Hs Hs'). lia. }
    specialize (Hd Hall). nia.
  - rewrite list.Exists_exists in Hnone.
    assert (filter (fun s => below_quota (Some q) usage s = true) servers = servers) as ->; [|done].
    apply filter_everything. intros s Hs. cbn. apply bool_decide_eq_true.
    destruct (decide (usage_of usage s < q)%nat); [done|]. destruct Hnone. exists s. split; [done|lia].
Qed.

(** How many of the plans a server takes part in. *)
Definition uses (plans : list ShareSubmissionPlan) (server : string) : nat :=
  length (filter (fun plan => server ∈ pl_target_servers plan) plans).

Definition plan_ok (servers : list string) (t : nat) (plan : ShareSubmissionPlan) : Prop :=
  pl_target_count plan = Z.of_nat t /\ length (pl_target_servers plan) = t
  /\ NoDup (pl_target_servers plan) /\ pl_target_servers plan ⊆ servers.

(** What the loop needs of its inputs for [rounds] rounds. *)
Record planning_ok (p : PlanningInputs) (rounds : nat) : Prop := {
  po_nodup : NoDup (pi_servers p);
  po_target : (pi_target_count p <= length (pi_servers p))%nat;
  po_fits : Z.of_nat (pi_target_count p) <= u32_max;
  po_capacity : forall q, pi_max_shares p = Some q ->
    (rounds * pi_target_count p <= q * length (pi_servers p))%nat;
  po_server_bytes : share_server_order_random_bytes_required (length (pi_servers p))
      <= Z.of_nat (pi_server_bytes_per_share p)
    /\ (rounds * pi_server_bytes_per_share p <= length (pi_server_bytes p))%nat;
  po_submit_bytes : pi_submit_at_bytes_per_share p
      = share_submit_at_random_bytes_required (pi_now p) (pi_vote_end p) (pi_buffer p)
          (pi_single_share p)
    /\ (rounds * pi_submit_at_bytes_per_share p <= length (pi_submit_at_bytes p))%nat
}.

Lemma length_slice {A} (l : list A) i n : (S i * n <= length l)%nat -> length (take n (drop (i * n) l)) = n.
Proof. intros Hl. rewrite length_take, length_drop. lia. Qed.

Lemma scheduled_ok now vote_end buffer single bytes :
  (share_submit_at_random_bytes_required now vote_end buffer single <= length bytes)%nat ->
  exists submit_at,
    scheduled_share_submit_at_from_entropy now vote_end buffer single bytes = Ok submit_at.
Proof.
  unfold share_submit_at_random_bytes_required, scheduled_share_submit_at_from_entropy.
  destruct (delayed_share_window_seconds _ _ _ _); [|by eexists]. intros Hb.
  rewrite bool_decide_eq_false_2 by lia. by eexists.
Qed.

Lemma plan_one_share_ok p rounds i usage :
  planning_ok p rounds -> (i < rounds)%nat -> balanced (pi_servers p) usage ->
  total_usage (pi_servers p) usage = (i * pi_target_count p)%nat ->
  exists plan, plan_one_share p i usage
      = Ok (plan, foldl use_server usage (pl_target_servers plan))
    /\ selection (pi_servers p) (pi_target_count p) (pi_max_shares p) usage (pl_target_servers plan)
    /\ plan_ok (pi_servers p) (pi_target_count p) plan
    /\ pl_immediate plan = bool_decide (pi_immediate p = Some (Z.of_nat i mod (u32_max + 1)))
    /\ if pl_immediate plan then pl_submit_at plan = 0
       else scheduled_share_submit_at_from_entropy (pi_now p) (pi_vote_end p) (pi_buffer p)
              (pi_single_share p) (take (pi_submit_at_bytes_per_share p)
                (drop (i * pi_submit_at_bytes_per_share p) (pi_submit_at_bytes p)))
            = Ok (pl_submit_at plan).
Proof.
  intros [] Hi Hbal Htot. unfold plan_one_share. cbv zeta.
  destruct po_server_bytes0 as [Hsb Hsl], po_submit_bytes0 as [Hub Hul].
  destruct (select_targets (pi_servers p) (pi_target_count p) (pi_max_shares p) usage
    (take (pi_server_bytes_per_share p) (drop (i * pi_server_bytes_per_share p) (pi_server_bytes p))))
    as (selected&->&Hsel); [done| | |].
  { unfold len. rewrite length_slice by nia. done. }
  { destruct (pi_max_shares p) as [q|]; [by eapply room_for_round; eauto|].
    rewrite filter_everything; done. }
  set (immediate := bool_decide (pi_immediate p = _)).
  destruct (scheduled_ok (pi_now p) (pi_vote_end p) (pi_buffer p) (pi_single_share p)
    (take (pi_submit_at_bytes_per_share p) (drop (i * pi_submit_at_bytes_per_share p)
      (pi_submit_at_bytes p)))) as (submit_at&Hs); [rewrite length_slice by nia; lia|].
  unfold build_share_submission_plan. rewrite (proj2 (Z.ltb_ge _ _)) by done. rewrite Hs.
  exists (mk_share_plan immediate (if immediate then 0 else submit_at)
    (Z.of_nat (pi_target_count p)) selected).
  destruct immediate; cbn [pl_immediate pl_submit_at pl_target_servers pl_target_count];
    (split; [done|]); (split; [done|]); destruct Hsel; split_and!; try done.
Qed.

Lemma uses_cons plan plans s :
  uses (plan :: plans) s
  = ((if decide (s ∈ pl_target_servers plan) then 1 else 0) + uses plans s)%nat.
Proof. unfold uses. rewrite filter_cons. case_decide; cbn [length]; lia. Qed.

(** The time of the [i]-th share. *)
Definition timed (p : PlanningInputs) (i : nat) (plan : ShareSubmissionPlan) : Prop :=
  pl_immediate plan = bool_decide (pi_immediate p = Some (Z.of_nat i mod (u32_max + 1)))
  /\ if pl_immediate plan then pl_submit_at plan = 0
     else scheduled_share_submit_at_from_entropy (pi_now p) (pi_vote_end p) (pi_buffer p)
            (pi_single_share p) (take (pi_submit_at_bytes_per_share p)
              (drop (i * pi_submit_at_bytes_per_share p) (pi_submit_at_bytes p)))
          = Ok (pl_submit_at plan).

(** What the loop produces from round [i] on. *)
Record planned (p : PlanningInputs) (i : nat) (usage : ServerUsage)
    (plans : list ShareSubmissionPlan) : Prop := {
  pd_plans : Forall (plan_ok (pi_servers p) (pi_target_count p)) plans;
  pd_timed : forall j plan, plans !! j = Some plan -> timed p (i + j) plan;
  pd_even : forall s s', s ∈ pi_servers p -> s' ∈ pi_servers p ->
    (usage_of usage s + uses plans s <= S (usage_of usage s' + uses plans s'))%nat;
  pd_quota : forall q s, pi_max_shares p = Some q ->
    (usage_of usage s <= q)%nat -> (usage_of usage s + uses plans s <= q)%nat
}.

Lemma plan_shares_ok p total rounds i usage :
  planning_ok p total -> (i + rounds = total)%nat -> balanced (pi_servers p) usage ->
  total_usage (pi_servers p) usage = (i * pi_target_count p)%nat ->
  exists plans, plan_shares p rounds i usage = Ok plans /\ length plans = rounds
    /\ planned p i usage plans.
Proof.
  intros Hp. revert i usage. induction rounds as [|rounds IH]; intros i usage Hi Hbal Htot.
  { exists []. split_and!; [done|done|]. constructor; [done|done|..]; unfold uses; cbn.
    - intros s s' Hs Hs'. pose proof (Hbal s s' Hs Hs'). lia.
    - intros. lia. }
  destruct (plan_one_share_ok p total i usage) as (plan&Hone&Hsel&Hok&Him&Htime); [done|lia|done|done|].
  destruct (IH (S i) (foldl use_server usage (pl_target_servers plan)))
    as (plans&Hplans&Hlen&[Hall Htimes Heven Hquota]); [lia|by eapply selection_balanced| |].
  { erewrite selection_total; [|by apply Hp|done]. lia. }
  exists (plan :: plans). cbn [plan_shares]. rewrite Hone, Hplans.
  split; [done|split; [cbn; lia|]].
  assert (forall s, (usage_of (foldl use_server usage (pl_target_servers plan)) s + uses plans s
    = usage_of usage s + uses (plan :: plans) s)%nat) as Hsum.
  { intros s. rewrite usage_of_selected, uses_cons by apply Hsel. repeat case_decide; try done; lia. }
  constructor.
  - by constructor.
  - intros [|j] plan' Hj; cbn in Hj.
    + injection Hj as <-. rewrite Nat.add_0_r. by split.
    + rewrite Nat.add_succ_r. by apply (Htimes j).
  - intros s s' Hs Hs'. rewrite <- !Hsum. by apply Heven.
  - intros q s Hq Hu. rewrite <- Hsum. apply Hquota; [done|].
    rewrite usage_of_selected by apply Hsel. destruct (decide (s ∈ pl_target_servers plan)) as [Hin|_]; [|lia].
    apply (sel_quota _ _ _ _ _ Hsel) in Hin. rewrite Hq in Hin. cbn in Hin.
    apply bool_decide_eq_true in Hin. lia.
Qed.

Lemma target_count_bounds n :
  (1 <= n)%nat -> (1 <= share_submission_target_count n <= n)%nat
    /\ (share_submission_target_count n <= SHARE_HELPER_TARGET_COUNT_CAP)%nat.
Proof.
  unfold share_submission_target_count, SHARE_HELPER_TARGET_COUNT_CAP. intros Hn.
  pose proof (Nat.div_mod n 2 ltac:(lia)). pose proof (Nat.mod_upper_bound n 2 ltac:(lia)). lia.
Qed.

(** The minimum pool of a fleet exists in it and holds a complete batch. *)
Lemma minimum_pool n :
  (1 <= n)%nat ->
  let t := share_submission_target_count n in
  let minimum := sp_min_server_count (share_server_selection_policy n) in
  (t <= minimum <= n)%nat
  /\ ((1 < minimum)%nat <-> (1 < n)%nat)
  /\ ((1 < n)%nat -> (VOTE_COMMITMENT_SHARE_COUNT * t
        <= SHARE_HELPER_MAX_INITIAL_SHARES_PER_SERVER * minimum)%nat).
Proof.
  intros Hn. cbv zeta. destruct (target_count_bounds n Hn) as [Ht _].
  assert ((share_submission_target_count n <= n / 2 + n mod 2)%nat) as Hhalf
    by (unfold share_submission_target_count; lia).
  pose proof (Nat.div_mod n 2 ltac:(lia)). pose proof (Nat.mod_upper_bound n 2 ltac:(lia)).
  unfold share_server_selection_policy.
  rewrite (bool_decide_eq_false_2 (n = 0)%nat) by lia.
  destruct (decide (n = 1)%nat) as [->|Hne];
    [change (share_submission_target_count 1) with 1%nat;
     rewrite bool_decide_eq_true_2 by done; cbn [sp_min_server_count]; lia|].
  rewrite bool_decide_eq_false_2 by done. cbn [sp_min_server_count].
  unfold minimum_complete_batch_planning_server_count. rewrite bool_decide_eq_false_2 by lia.
  unfold div_ceil. change SHARE_HELPER_MAX_INITIAL_SHARES_PER_SERVER with 12%nat.
  unfold VOTE_COMMITMENT_SHARE_COUNT.
  set (t := share_submission_target_count n) in *.
  pose proof (Nat.div_mod (16 * t + (12 - 1)) 12 ltac:(lia)).
  pose proof (Nat.mod_upper_bound (16 * t + (12 - 1)) 12 ltac:(lia)). lia.
Qed.

(** The pool of a complete batch: the preferred helpers, widened to the
    minimum that holds sixteen shares. *)
Definition complete_pool (ranked : list string) (preferred : nat) : list string :=
  take (Nat.max preferred (sp_min_server_count (share_server_selection_policy (length ranked))))
    ranked.

(** The loop's inputs for a complete batch. *)
Definition complete_inputs (ranked : list string) (preferred : nat) (now vote_end : Z)
    (buffer immediate : option Z) (submit_at_bytes server_bytes : list Z) : PlanningInputs :=
  mk_planning (complete_pool ranked preferred) (share_submission_target_count (length ranked))
    (if bool_decide (1 < length ranked)%nat
     then Some SHARE_HELPER_MAX_INITIAL_SHARES_PER_SERVER else None)
    now vote_end buffer false immediate
    (share_submit_at_random_bytes_required now vote_end buffer false)
    (Z.to_nat (share_server_order_random_bytes_required (length ranked)))
    submit_at_bytes server_bytes.

Section complete_batch.
Context (ranked : list string) (preferred : nat) (now vote_end : Z) (buffer immediate : option Z).
Context (submit_at_bytes server_bytes : list Z).
Let n := length ranked.
Let required :=
  share_submission_random_bytes_required VOTE_COMMITMENT_SHARE_COUNT n now vote_end buffer false.
Let inputs :=
  complete_inputs ranked preferred now vote_end buffer immediate submit_at_bytes server_bytes.
Context (Hne : ranked <> []) (Hnd : NoDup ranked) (Hpref : (preferred <= n)%nat).
Context (Hfit : 128 * Z.of_nat n <= u64_max).
Context (Hsub : br_submit_at_random_bytes required <= len submit_at_bytes).
Context (Hsrv : br_server_random_bytes required <= len server_bytes).

Lemma complete_servers : (1 <= n)%nat.
Proof. subst n. destruct ranked; [done|cbn; lia]. Qed.

Lemma complete_pool_length :
  length (complete_pool ranked preferred)
  = Nat.max preferred (sp_min_server_count (share_server_selection_policy n)).
Proof.
  destruct (minimum_pool n complete_servers) as (Hmin&_&_). unfold complete_pool.
  rewrite length_take. fold n. lia.
Qed.

Lemma server_bytes_exact :
  share_server_order_random_bytes_required n = 8 * (Z.of_nat n - 1).
Proof.
  pose proof complete_servers.
  unfold share_server_order_random_bytes_required, saturating_mul_usize, saturating_sub_u64. lia.
Qed.

Lemma submit_bytes_small :
  (share_submit_at_random_bytes_required now vote_end buffer false <= 8)%nat.
Proof.
  unfold share_submit_at_random_bytes_required, SHARE_SUBMIT_AT_RANDOM_BYTES. case_match; lia.
Qed.

(** The requirement never saturates for a fleet that fits in memory. *)
Lemma required_exact :
  br_submit_at_random_bytes required
  = Z.of_nat (share_submit_at_random_bytes_required now vote_end buffer false) * 16
  /\ br_server_random_bytes required = 8 * (Z.of_nat n - 1) * 16.
Proof.
  pose proof submit_bytes_small. unfold required, share_submission_random_bytes_required.
  cbn [br_submit_at_random_bytes br_server_random_bytes]. rewrite server_bytes_exact.
  unfold saturating_mul_usize. change (Z.of_nat VOTE_COMMITMENT_SHARE_COUNT) with 16.
  unfold u64_max in *. lia.
Qed.

Lemma complete_planning_ok : planning_ok inputs VOTE_COMMITMENT_SHARE_COUNT.
Proof.
  destruct (minimum_pool n complete_servers) as (Hmin&_&Hcap).
  destruct (target_count_bounds n complete_servers) as [Ht Htc].
  pose proof complete_pool_length as Hpool. destruct required_exact as [Hr1 Hr2].
  pose proof server_bytes_exact as Hsb. unfold len in *.
  change VOTE_COMMITMENT_SHARE_COUNT with 16%nat in *.
  constructor; cbn [inputs complete_inputs pi_servers pi_target_count pi_max_shares
    pi_server_bytes_per_share pi_server_bytes pi_submit_at_bytes_per_share pi_submit_at_bytes
    pi_now pi_vote_end pi_buffer pi_single_share]; fold n.
  - by apply sublist_NoDup with ranked; [|apply sublist_take].
  - lia.
  - unfold SHARE_HELPER_TARGET_COUNT_CAP, u32_max in *. lia.
  - intros q. case_bool_decide as Hn; [|done]. intros [= <-]. specialize (Hcap Hn). nia.
  - pose proof (complete_servers). split; [|lia].
    unfold share_server_order_random_bytes_required, saturating_mul_usize, saturating_sub_u64 in *. lia.
  - split; [done|lia].
Qed.

Lemma complete_batch_runs :
  index_out_of_range immediate VOTE_COMMITMENT_SHARE_COUNT = false ->
  plan_share_submissions_with_preferred_servers VOTE_COMMITMENT_SHARE_COUNT ranked preferred now
    vote_end buffer false immediate submit_at_bytes server_bytes
  = plan_shares inputs VOTE_COMMITMENT_SHARE_COUNT 0 ∅.
Proof.
  intros Him. destruct (minimum_pool n complete_servers) as (Hmin&Hone&_).
  destruct required_exact as [Hr1 Hr2]. pose proof submit_bytes_small as Hper.
  unfold plan_share_submissions_with_preferred_servers. cbn [andb]. rewrite Him.
  rewrite (bool_decide_eq_false_2 (VOTE_COMMITMENT_SHARE_COUNT = 0)%nat) by done.
  unfold require_share_servers, require_unique_share_servers.
  rewrite (bool_decide_eq_false_2 (ranked = [])) by done. rewrite decide_True by done.
  rewrite (bool_decide_eq_false_2 (length ranked < preferred)%nat) by (fold n; lia).
  fold n. unfold checked_random_bytes_required, checked_mul_usize.
  change (Z.of_nat VOTE_COMMITMENT_SHARE_COUNT) with 16. rewrite server_bytes_exact.
  rewrite !(proj2 (Z.leb_le _ u64_max)) by (unfold u64_max in *; lia). cbn [ok_or].
  rewrite !(proj2 (Z.ltb_ge (len _) _)) by lia.
  rewrite (bool_decide_eq_true_2 (VOTE_COMMITMENT_SHARE_COUNT = VOTE_COMMITMENT_SHARE_COUNT)) by done.
  cbn [andb negb]. rewrite (bool_decide_eq_false_2 (n < _)%nat) by lia.
  unfold inputs, complete_inputs. fold n. rewrite server_bytes_exact.
  rewrite Nat.min_l by lia. do 2 f_equal.
  rewrite (bool_decide_ext (1 < Nat.max preferred _)%nat (1 < n)%nat); [done|].
  split; [lia|]. intros Hn. apply Hone in Hn. lia.
Qed.
End complete_batch.

(** Complete batch: for any nonempty list of distinct helpers and enough
    entropy the sixteen shares of a commitment are always planned: every share
    goes to the target number of distinct helpers of the pool, each share draws
    its own entropy, only the designated share is immediate, no two helpers'
    loads differ by more than one, and with two or more helpers none of them
    sees more than twelve shares. *)
Theorem complete_batch_is_planned ranked preferred now vote_end buffer immediate
    submit_at_bytes server_bytes :
  let n := length ranked in
  let required := share_submission_random_bytes_required VOTE_COMMITMENT_SHARE_COUNT n now
    vote_end buffer false in
  let pool := complete_pool ranked preferred in
  let per_share := share_submit_at_random_bytes_required now vote_end buffer false in
  ranked <> [] -> NoDup ranked -> (preferred <= n)%nat -> 128 * Z.of_nat n <= u64_max ->
  index_out_of_range immediate VOTE_COMMITMENT_SHARE_COUNT = false ->
  br_submit_at_random_bytes required <= len submit_at_bytes ->
  br_server_random_bytes required <= len server_bytes ->
  exists plans,
    plan_share_submissions_with_preferred_servers VOTE_COMMITMENT_SHARE_COUNT ranked preferred now
      vote_end buffer false immediate submit_at_bytes server_bytes = Ok plans
    /\ length plans = VOTE_COMMITMENT_SHARE_COUNT
    /\ Forall (plan_ok pool (share_submission_target_count n)) plans
    /\ (forall i plan, plans !! i = Some plan ->
          pl_immediate plan = bool_decide (immediate = Some (Z.of_nat i))
          /\ if pl_immediate plan then pl_submit_at plan = 0
             else scheduled_share_submit_at_from_entropy now vote_end buffer false
                    (take per_share (drop (i * per_share) submit_at_bytes))
                  = Ok (pl_submit_at plan))
    /\ (forall s s', s ∈ pool -> s' ∈ pool -> (uses plans s <= S (uses plans s'))%nat)
    /\ ((1 < n)%nat -> forall s,
          (uses plans s <= SHARE_HELPER_MAX_INITIAL_SHARES_PER_SERVER)%nat).
Proof.
  intros n required pool per_share Hne Hnd Hpref Hfit Him Hsub Hsrv.
  rewrite complete_batch_runs by done.
  pose proof (complete_planning_ok ranked preferred now vote_end buffer immediate submit_at_bytes
    server_bytes Hne Hnd Hpref Hfit Hsub Hsrv) as Hok.
  destruct (plan_shares_ok _ _ VOTE_COMMITMENT_SHARE_COUNT 0 ∅ Hok) as (plans&->&Hlen&Hp);
    [done|by intros s s' _ _; unfold usage_of; rewrite !lookup_empty; cbn; lia| |].
  { unfold total_usage. clear. induction (pi_servers _) as [|s l IH]; [done|]. cbn. by rewrite IH. }
  destruct Hp as [Hall Htimes Heven Hquota]. exists plans. split_and!; [done|done|done|..].
  - intros i plan Hi. pose proof (lookup_lt_Some _ _ _ Hi) as Hlt. rewrite Hlen in Hlt.
    destruct (Htimes i plan Hi) as [Himm Htime]. cbn [Nat.add] in Himm, Htime.
    rewrite Z.mod_small in Himm
      by (unfold u32_max, VOTE_COMMITMENT_SHARE_COUNT in *; lia). by split.
  - intros s s' Hs Hs'. pose proof (Heven s s' Hs Hs') as He.
    unfold usage_of in He. rewrite !lookup_empty in He. cbn in He. lia.
  - intros Hn s. specialize (Hquota SHARE_HELPER_MAX_INITIAL_SHARES_PER_SERVER s).
    unfold usage_of in Hquota. rewrite lookup_empty in Hquota. cbn [default Nat.add] in Hquota.
    apply Hquota; [|lia]. cbn [complete_inputs pi_max_shares].
    by rewrite bool_decide_eq_true_2.
Qed.

(** ** Resubmission *)
Lemma groups_perm configured sent :
  untried configured sent ++ already_sent configured sent ≡ₚ configured.
Proof.
  unfold untried, already_sent. induction configured as [|s l IH]; [done|].
  rewrite !filter_cons. destruct (decide (s ∈ sent)) as [Hin|Hout].
  - rewrite decide_False by (intros Hn; by apply Hn).
    rewrite <- Permutation_middle. by constructor.
  - rewrite decide_True by done. cbn. by constructor.
Qed.

(** Resubmission tries every configured helper once, those without the share
    first, each group in an order of its own. *)
Lemma resubmission_untried_first configured sent bytes :
  NoDup configured -> 8 * len configured <= u64_max ->
  resubmission_server_order_random_bytes_required configured sent <= len bytes ->
  exists fresh used, resubmission_server_order configured sent bytes = Ok (fresh ++ used)
    /\ fresh ≡ₚ untried configured sent /\ used ≡ₚ already_sent configured sent
    /\ fresh ++ used ≡ₚ configured.
Proof.
  intros Hnd Hfit Hb. pose proof (groups_perm configured sent) as Hp.
  assert (length (untried configured sent) + length (already_sent configured sent)
    = length configured)%nat as Hl by (by rewrite <- length_app, Hp).
  unfold resubmission_server_order, require_unique_share_servers. rewrite decide_True by done.
  rewrite (proj2 (Z.ltb_ge _ _)) by done.
  unfold resubmission_server_order_random_bytes_required in Hb.
  set (fresh_bytes := share_server_order_random_bytes_required (length (untried _ _))) in *.
  set (used_bytes := share_server_order_random_bytes_required (length (already_sent _ _))) in *.
  assert (0 <= fresh_bytes /\ 0 <= used_bytes /\ fresh_bytes + used_bytes <= len bytes) as Hbytes.
  { unfold fresh_bytes, used_bytes, saturating_add_u64, share_server_order_random_bytes_required in *.
    unfold saturating_mul_usize, saturating_sub_u64, len in *. lia. }
  destruct (shuffle_order (untried configured sent) (take (Z.to_nat fresh_bytes) bytes))
    as (fresh&->&Hf).
  { by apply NoDup_filter. }
  { unfold len in *. rewrite length_take. lia. }
  destruct (shuffle_order (already_sent configured sent)
    (take (Z.to_nat used_bytes) (drop (Z.to_nat fresh_bytes) bytes))) as (used&->&Hu).
  { by apply NoDup_filter. }
  { unfold len in *. rewrite length_take, length_drop. lia. }
  exists fresh, used. split_and!; [done|done|done|]. by rewrite Hf, Hu.
Qed.

(** ** Witnesses *)
Definition example_servers : list string := ["a"; "b"; "c"]%string.

Lemma shuffle_is_exact_witness :
  exists ks, valid_choices 2 ks
    /\ forall bytes, share_server_order_random_bytes_required 3 <= len bytes ->
         shuffled_share_server_order example_servers bytes = Ok ["c"; "a"; "b"]%string
         <-> choices 2 bytes = ks.
Proof.
  destruct (shuffle_is_exact example_servers ["c"; "a"; "b"]%string) as (ks&Hv&_&Hb).
  - by apply (bool_decide_unpack _); vm_compute.
  - vm_compute. discriminate.
  - apply (Permutation_app_comm ["c"]%string ["a"; "b"]%string).
  - exists ks. by split.
Defined.

Lemma submit_at_before_last_moment_witness :
  exists bytes, scheduled_share_submit_at_from_entropy 1000 100000
    (last_moment_buffer_seconds 0 100000) false bytes = Ok 2000.
Proof.
  destruct (submit_at_before_last_moment 1000 0 100000 false) as (_&_&Hs).
  - vm_compute. split; discriminate.
  - vm_compute. split; discriminate.
  - done.
  - destruct (Hs 2000) as (bytes&_&Hb); [vm_compute; split; done|]. by exists bytes.
Defined.

Lemma complete_batch_is_planned_witness :
  exists plans,
    plan_share_submissions_with_preferred_servers 16 example_servers 1 1000 100000
      (last_moment_buffer_seconds 0 100000) false (Some 0) (replicate 128 7) (replicate 256 9)
    = Ok plans
    /\ forall s, (uses plans s <= 12)%nat.
Proof.
  destruct (complete_batch_is_planned example_servers 1 1000 100000
    (last_moment_buffer_seconds 0 100000) (Some 0) (replicate 128 7) (replicate 256 9))
    as (plans&Hp&_&_&_&_&Hq).
  - done.
  - by apply (bool_decide_unpack _); vm_compute.
  - cbn. lia.
  - vm_compute. discriminate.
  - done.
  - vm_compute. discriminate.
  - vm_compute. discriminate.
  - exists plans. split; [exact Hp|]. apply Hq. cbn. lia.
Defined.
