(* ===== verification/RoundPlanning.v ===== *)
(** * Round planning

    Models [round_planning/] and the ballot types of [session.rs]: one snapshot
    of a round's durable state, the grouping of its votes into units, the
    classification of the round's obligations and their projection into the
    plan a host executes. Reading the snapshot from the database is not part of
    this file. A Rust [BTreeMap] is the list of its entries in key order. An
    [expect], an [unreachable!] or an index out of range is the failure
    [PlanPanic]. *)

From stdpp Require Import base gmap strings list numbers sorting.
From S2P Require Import Prelude Ordered Identity Outcome Lifecycle Record Confirmation Rows Store Planning VoteRecovery SharePolicy.
Local Open Scope Z_scope.
Local Open Scope voting_scope.

Inductive PlanFailure :=
| PlanError (error : VotingError)
| PlanPanic.

Definition plan_invalid {A} (message : text) : result A PlanFailure :=
  Err (PlanError (VInvalidInput message)).

(** ** Phases ([phases.rs]) and ballot decisions ([session.rs]) *)
Inductive DelegationPhase :=
| DPrepared
| DPcztBuilt
| DProved
| DSubmitted
| DSubmissionManaged
| DSubmittedWithoutHash
| DSubmissionRejected
| DConfirmed.

Inductive VotePhase :=
| VPrepared
| VCommitted
| VSubmitted
| VSubmissionManaged
| VSubmittedWithoutHash
| VSubmissionRejected
| VConfirmed.

Inductive SharePhase := SSubmitted | SConfirmed.

Inductive Decision :=
| Choice (choice : Z)
| Skipped.

#[global] Instance DelegationPhase_eq_dec : EqDecision DelegationPhase.
Proof. solve_decision. Defined.
#[global] Instance VotePhase_eq_dec : EqDecision VotePhase.
Proof. solve_decision. Defined.
#[global] Instance SharePhase_eq_dec : EqDecision SharePhase.
Proof. solve_decision. Defined.
#[global] Instance Decision_eq_dec : EqDecision Decision.
Proof. solve_decision. Defined.

Definition vote_phase_as_str (p : VotePhase) : string :=
  match p with
  | VPrepared => "prepared"
  | VCommitted => "committed"
  | VSubmitted => "submitted"
  | VSubmissionManaged => "submission_managed"
  | VSubmittedWithoutHash => "submitted_without_hash"
  | VSubmissionRejected => "submission_rejected"
  | VConfirmed => "confirmed"
  end.

(** ** The snapshot ([snapshot.rs]) *)
Record DelegationSubmissionStatus := mk_delegation_status {
  ds_bundle_index : Z;
  ds_phase : DelegationPhase;
  ds_diagnostic : option ChainSubmissionDiagnostic
}.

Record BundleSnapshot := mk_bundle_snapshot {
  bs_capability_imported : bool;
  bs_delegation_tx_hash : option string
}.

Record VoteSnapshot := mk_vote_snapshot {
  vs_choice : Z;
  vs_phase : VotePhase;
  vs_tx_hash : option string;
  vs_vc_tree_position : option Z;
  vs_recovery : option VoteRecoveryBundle
}.

Definition VoteKey : Type := Z * Z.

Record RoundSnapshot := mk_snapshot {
  sn_round_id : string;
  sn_delegations : list DelegationSubmissionStatus;
  sn_bundles : list (Z * BundleSnapshot);
  sn_votes : list (Z * Z * VoteSnapshot);
  sn_shares : list ShareDelegationRecord;
  sn_share_phases : list (Z * Z * Z * SharePhase);
  sn_intents : list (Z * Decision);
  sn_lifecycle_hashes : gmap LifecycleHashKey (gset (list Z));
  sn_persisted_immediate_share : option ImmediateShareKey;
  sn_rejection_blocked_bundles : list (Z * ChainSubmissionDiagnostic)
}.

Section snapshot.
Context `{Externals}.

Definition delegation_tx_hash (s : RoundSnapshot) (bundle : Z) : option string :=
  match snapshot_hash (sn_lifecycle_hashes s) bundle PDelegation with
  | Some hash => Some hash
  | None => b ← bt_get bundle (sn_bundles s); bs_delegation_tx_hash b
  end.

Definition vote_tx_hash (s : RoundSnapshot) (bundle proposal : Z) : option string :=
  match snapshot_hash (sn_lifecycle_hashes s) bundle (PVote proposal) with
  | Some hash => Some hash
  | None => v ← bt_get (bundle, proposal) (sn_votes s); vs_tx_hash v
  end.

Definition vote_batch_tx_hash (s : RoundSnapshot) (bundle : Z) (digest : list Z)
    (anchor : Z) : option string :=
  match snapshot_hash (sn_lifecycle_hashes s) bundle (PVoteBatch digest) with
  | Some hash => Some hash
  | None => vote_tx_hash s bundle anchor
  end.

Definition key_text (s : RoundSnapshot) (bundle proposal : Z) : text :=
  lit "round=" ++ lit (sn_round_id s) ++ lit ", bundle=" ++ decimal bundle ++ lit ", proposal="
    ++ decimal proposal.

Definition confirmed_tree_position (s : RoundSnapshot) (bundle proposal : Z)
    : result (option Z) PlanFailure :=
  match bt_get (bundle, proposal) (sn_votes s) with
  | None => Err (PlanError (VInternal (lit "failed to get commitment bundle: vote not found for "
      ++ key_text s bundle proposal)))
  | Some vote =>
      match vs_recovery vote, vs_vc_tree_position vote with
      | Some _, Some position =>
          if position <? 0 then
            Err (PlanError (VInternal (lit "stored vc_tree_position must be non-negative, got "
              ++ decimal position)))
          else Ok (Some position)
      | Some _, None => Err (PlanError (VInternal (lit
          "commitment bundle is stored without vc_tree_position; refusing to assume position 0")))
      | None, _ => Ok None
      end
  end.

(** [votes.range((bundle, 0)..=(bundle, u32::MAX))] with its recoveries. *)
Definition bundle_recoveries (s : RoundSnapshot) (bundle : Z) : list VoteRecoveryBundle :=
  omap (fun '(b, _, vote) => if b =? bundle then vs_recovery vote else None) (sn_votes s).
End snapshot.

(** ** Relations ([lifecycle.rs]) *)
Inductive LifecyclePosition := Uncast | Undispatched | OnWire | Terminal | PosConfirmed.

#[global] Instance LifecyclePosition_eq_dec : EqDecision LifecyclePosition.
Proof. solve_decision. Defined.

Definition position_of (phase : option VotePhase) : LifecyclePosition :=
  match phase with
  | None | Some VPrepared => Uncast
  | Some VCommitted => Undispatched
  | Some (VSubmitted | VSubmissionManaged) => OnWire
  | Some (VSubmittedWithoutHash | VSubmissionRejected) => Terminal
  | Some VConfirmed => PosConfirmed
  end.

Definition is_lifecycle_owned (p : LifecyclePosition) : bool :=
  match p with
  | Uncast | Undispatched => false
  | OnWire | Terminal | PosConfirmed => true
  end.

Definition vote_phase_is_lifecycle_owned (phase : VotePhase) : bool :=
  is_lifecycle_owned (position_of (Some phase)).

Definition vote_phase_holds_bundle (phase : VotePhase) : bool :=
  match phase with
  | VCommitted | VSubmitted | VSubmissionManaged | VSubmittedWithoutHash => true
  | VPrepared | VSubmissionRejected | VConfirmed => false
  end.

Definition delegation_phase_holds_bundle (phase : DelegationPhase) : bool :=
  match phase with
  | DSubmissionManaged | DSubmittedWithoutHash | DSubmissionRejected => true
  | DPrepared | DPcztBuilt | DProved | DSubmitted | DConfirmed => false
  end.

Definition is_terminal_delegation_phase (phase : DelegationPhase) : bool :=
  match phase with
  | DSubmittedWithoutHash | DSubmissionRejected => true
  | _ => false
  end.

Inductive RosterRelation := Rostered | LeftRoster.
Inductive BallotRelation := Agrees | Unrecorded | Conflicts.

#[global] Instance RosterRelation_eq_dec : EqDecision RosterRelation.
Proof. solve_decision. Defined.
#[global] Instance BallotRelation_eq_dec : EqDecision BallotRelation.
Proof. solve_decision. Defined.

Definition roster_relation (proposals roster : list Z) : RosterRelation :=
  if forallb (fun p => bool_decide (p ∈ roster)) proposals then Rostered else LeftRoster.

Definition ballot_relation (intents : list (Z * Decision)) (proposal stored_choice : Z)
    : BallotRelation :=
  match bt_get proposal intents with
  | None => Unrecorded
  | Some (Choice choice) => if choice =? stored_choice then Agrees else Conflicts
  | Some Skipped => Conflicts
  end.

(** ** Ballot classification ([session.rs]) *)
Record BallotIntentClassification := mk_ballot {
  bc_roster : list Z;
  bc_choice_proposals : list Z;
  bc_open_proposals : list Z;
  bc_unrostered_intents : list Z
}.

Definition roster_insert (roster : list Z) (proposal : Z) : result (list Z) PlanFailure :=
  let? _ := map_err PlanError (validate_proposal_id proposal) in
  if bool_decide (proposal ∈ roster) then
    plan_invalid (lit "proposal roster contains duplicate id " ++ decimal proposal)
  else Ok (zset_insert proposal roster).

Definition has_choice (intents : list (Z * Decision)) (proposal : Z) : bool :=
  match bt_get proposal intents with
  | Some (Choice _) => true
  | _ => false
  end.

Definition classify_ballot_intents (proposal_ids : list Z) (intents : list (Z * Decision))
    : result BallotIntentClassification PlanFailure :=
  let? roster := try_fold roster_insert [] proposal_ids in
  Ok (mk_ballot roster
    (filter (fun p => has_choice intents p = true) roster)
    (filter (fun p => bt_get p intents = None) roster)
    (filter (fun p => p ∉ roster) (map fst intents))).

(** ** Vote units ([vote_units.rs]) *)
Inductive VoteUnitId :=
| USingleton (bundle_index proposal_id : Z)
| UBatch (bundle_index : Z) (ordered_batch_digest : list Z).

#[global] Instance VoteUnitId_eq_dec : EqDecision VoteUnitId.
Proof. solve_decision. Defined.

Record VoteMember := mk_member {
  vm_proposal_id : Z;
  vm_recovery : option VoteRecoveryBundle
}.

Record VoteUnit := mk_unit {
  vu_id : VoteUnitId;
  vu_bundle_index : Z;
  vu_members : list VoteMember;
  vu_phase : VotePhase
}.

(** [self.members[0].proposal_id]: a unit without members panics. *)
Definition anchor_proposal_id (u : VoteUnit) : result Z PlanFailure :=
  match vu_members u with
  | member :: _ => Ok (vm_proposal_id member)
  | [] => Err PlanPanic
  end.

Definition unit_proposal_ids (u : VoteUnit) : list Z := map vm_proposal_id (vu_members u).

Definition unit_batch_digest (u : VoteUnit) : option (list Z) :=
  match vu_id u with
  | USingleton _ _ => None
  | UBatch _ digest => Some digest
  end.

Definition unit_contains (u : VoteUnit) (proposal : Z) : bool :=
  existsb (fun member => vm_proposal_id member =? proposal) (vu_members u).

Definition singleton_unit (bundle proposal : Z) (vote : VoteSnapshot) : VoteUnit :=
  mk_unit (USingleton bundle proposal) bundle [mk_member proposal (vs_recovery vote)]
    (vs_phase vote).

(** The batch a vote row is grouped by. *)
Definition grouping_batch (vote : VoteSnapshot) : option VoteBatchRecovery :=
  match vs_phase vote with
  | VCommitted | VSubmitted | VSubmissionManaged => vs_recovery vote ≫= vr_batch
  | VPrepared | VSubmittedWithoutHash | VSubmissionRejected | VConfirmed => None
  end.

Section units.
Context `{Externals} `{RecoveryExternals}.

Definition round_bundle_text (s : RoundSnapshot) (bundle : Z) : text :=
  lit "round=" ++ lit (sn_round_id s) ++ lit ", bundle=" ++ decimal bundle.

(** One round of the loop over the recoveries of a batch: the hash its
    submitted members share, and the members so far. *)
Definition batch_member (s : RoundSnapshot) (intents : list (Z * Decision)) (bundle : Z)
    (phase : VotePhase) (acc : option string * list VoteMember) (recovery : VoteRecoveryBundle)
    : result (option string * list VoteMember) PlanFailure :=
  let '(shared, members) := acc in
  let proposal := vr_proposal_id recovery in
  let? member := ok_or (bt_get (bundle, proposal) (sn_votes s))
    (PlanError (VInvalidInput (lit "persisted atomic vote batch is missing proposal "
      ++ decimal proposal ++ lit " for " ++ round_bundle_text s bundle))) in
  if negb (bool_decide (vs_phase member = phase)) then
    plan_invalid (lit "persisted atomic vote batch has mixed phases for "
      ++ round_bundle_text s bundle ++ lit ": proposal " ++ decimal proposal ++ lit " is "
      ++ lit (vote_phase_as_str (vs_phase member)) ++ lit ", expected "
      ++ lit (vote_phase_as_str phase))
  else if negb (vs_choice member =? vr_vote_decision recovery)
    || match bt_get proposal intents with
       | Some intent => negb (bool_decide (intent = Choice (vr_vote_decision recovery)))
       | None => false
       end then
    plan_invalid (lit "persisted atomic vote batch conflicts with ballot intent for "
      ++ round_bundle_text s bundle ++ lit ", proposal=" ++ decimal proposal)
  else
    let? shared :=
      match (if bool_decide (phase = VSubmitted) then vote_tx_hash s bundle proposal else None) with
      | Some hash =>
          match shared with
          | Some expected =>
              if bool_decide (expected = hash) then Ok (Some hash)
              else plan_invalid (lit
                "submitted atomic vote batch has conflicting transaction hashes for "
                ++ round_bundle_text s bundle)
          | None => Ok (Some hash)
          end
      | None => Ok shared
      end in
    Ok (shared, members ++ [mk_member proposal (vs_recovery member)]).

(** [grouped.insert] of one member; only the keys of the map are read. *)
Definition group_member (s : RoundSnapshot) (bundle : Z) (grouped : gset (Z * Z))
    (member : VoteMember) : result (gset (Z * Z)) PlanFailure :=
  let key := (bundle, vm_proposal_id member) in
  if bool_decide (key ∈ grouped) then
    plan_invalid (lit "vote belongs to more than one atomic batch for "
      ++ round_bundle_text s bundle ++ lit ", proposal=" ++ decimal (vm_proposal_id member))
  else Ok ({[key]} ∪ grouped).

(** One round of the loop over the votes: the units and the grouped keys. *)
Definition group_vote (s : RoundSnapshot) (intents : list (Z * Decision))
    (acc : list VoteUnit * gset (Z * Z)) (entry : Z * Z * VoteSnapshot)
    : result (list VoteUnit * gset (Z * Z)) PlanFailure :=
  let '(units, grouped) := acc in
  let '(bundle, proposal, vote) := entry in
  if bool_decide ((bundle, proposal) ∈ grouped) then Ok acc
  else match grouping_batch vote with
  | None => Ok (units ++ [singleton_unit bundle proposal vote], grouped)
  | Some batch =>
      let? recoveries := map_err PlanError (assemble_vote_batch_recoveries (sn_round_id s) bundle
        (vb_digest batch) (bundle_recoveries s bundle)) in
      if bool_decide (recoveries = []) then
        plan_invalid (lit "persisted atomic vote batch is empty for "
          ++ round_bundle_text s bundle)
      else
        let? (_, members) :=
          try_fold (batch_member s intents bundle (vs_phase vote)) (None, []) recoveries in
        let? grouped := try_fold (group_member s bundle) grouped members in
        Ok (units ++ [mk_unit (UBatch bundle (vb_digest batch)) bundle members (vs_phase vote)],
            grouped)
  end.

Definition group_vote_units (s : RoundSnapshot) (intents : list (Z * Decision))
    : result (list VoteUnit) PlanFailure :=
  let? (units, _) := try_fold (group_vote s intents) ([], ∅) (sn_votes s) in
  Ok units.
End units.

(** ** Helper shares of a recovery ([share.rs]) *)
Record WireEncryptedShare := mk_wire_share {
  ws_c1 : list Z;
  ws_c2 : list Z;
  ws_share_index : Z
}.

Record SharePayload := mk_payload {
  sp_vote_round_id : string;
  sp_shares_hash : list Z;
  sp_proposal_id : Z;
  sp_vote_decision : Z;
  sp_enc_share : WireEncryptedShare;
  sp_tree_position : Z;
  sp_all_enc_shares : list WireEncryptedShare;
  sp_share_comms : list (list Z);
  sp_primary_blind : list Z
}.

Definition wire_share (e : EncryptedShare) : WireEncryptedShare :=
  mk_wire_share (es_c1 e) (es_c2 e) (es_share_index e).

Section payloads.
Context `{Externals} `{RecoveryExternals}.

Definition share_payload (b : VoteRecoveryBundle) (all : list WireEncryptedShare)
    (indexed : nat * WireEncryptedShare) : result SharePayload VotingError :=
  let? blind := ok_or (vr_share_blinds b !! indexed.1)
    (VInvalidInput (lit "missing primary blind for encrypted share index "
      ++ decimal (Z.of_nat indexed.1))) in
  Ok (mk_payload (vr_vote_round_id b) (vr_shares_hash b) (vr_proposal_id b) (vr_vote_decision b)
        indexed.2 (vr_vc_tree_position b) all (vr_share_comms b) blind).

Definition recover_payloads (b : VoteRecoveryBundle) : result (list SharePayload) VotingError :=
  let? _ := validate_recovery_bundle_vote_fields b in
  let all := map wire_share (vr_encrypted_shares b) in
  let iter_shares := if vr_single_share b then take 1 all else all in
  try_map (share_payload b all) (imap pair iter_shares).
End payloads.

(** ** Obligations ([classify.rs]) *)
Record CastDraft := mk_draft {
  cd_proposal_id : Z;
  cd_choice : Z
}.

#[global] Instance CastDraft_eq_dec : EqDecision CastDraft.
Proof. solve_decision. Defined.

Inductive BlockedReason :=
| OpenBallot (proposals : list Z)
| UnrosteredIntents (proposals : list Z).

Inductive Obligation :=
| ODelegate (bundle_index : Z)
| OAdvanceDelegation (bundle_index : Z) (imported : bool) (phase : DelegationPhase)
    (tx_hash : option string)
| ORetire (unit : VoteUnitId) (members : list Z)
| OCast (bundle_index : Z) (drafts : list CastDraft) (prerequisite : option Z)
    (signs_delegation : bool)
| OBlocked (bundle_index : Z) (reason : BlockedReason)
| OReconcileChain (unit : VoteUnitId) (bundle_index : Z) (ordered_proposal_ids : list Z)
    (undispatched : bool) (tx_hash : option string) (prerequisite : option Z)
| ODeliver (bundle_index proposal_id vc_tree_position : Z) (share_indexes : list Z)
    (prerequisite : option Z)
| OConfirm (bundle_index proposal_id share_index : Z) (accepted outcome_unknown : bool)
    (prerequisite : option Z).

Definition unit_id_bundle (id : VoteUnitId) : Z :=
  match id with
  | USingleton bundle _ | UBatch bundle _ => bundle
  end.

Definition obligation_bundle_index (o : Obligation) : Z :=
  match o with
  | ODelegate b | OAdvanceDelegation b _ _ _ | OCast b _ _ _ | OBlocked b _
  | OReconcileChain _ b _ _ _ _ | ODeliver b _ _ _ _ | OConfirm b _ _ _ _ _ => b
  | ORetire unit _ => unit_id_bundle unit
  end.

(** [*prerequisite = blocked_by]. *)
Definition with_prerequisite (blocked_by : option Z) (o : Obligation) : Obligation :=
  match o with
  | OCast b drafts _ signs => OCast b drafts blocked_by signs
  | OReconcileChain unit b ids undispatched hash _ =>
      OReconcileChain unit b ids undispatched hash blocked_by
  | ODeliver b p position shares _ => ODeliver b p position shares blocked_by
  | OConfirm b p share accepted unknown _ => OConfirm b p share accepted unknown blocked_by
  | ODelegate _ | OAdvanceDelegation _ _ _ _ | ORetire _ _ | OBlocked _ _ => o
  end.

Record RoundObligations := mk_obligations {
  ro_obligations : list Obligation;
  ro_choice_proposals : list Z;
  ro_open_proposals : list Z;
  ro_unrostered_intents : list Z;
  ro_stale_vote_keys : gset (Z * Z);
  ro_needs_bundle_setup : bool;
  ro_withheld_casts : gset Z;
  ro_lifecycle_owned_choices : gset Z
}.

(** What the classifier computes before it plans, and the state of its loops. *)
Definition delegation_map (s : RoundSnapshot) : list (Z * DelegationPhase) :=
  foldl (fun m status => zmap_insert (ds_bundle_index status) (ds_phase status) m) []
    (sn_delegations s).

Definition intent_lifecycle_owned (s : RoundSnapshot) (proposal : Z) : bool :=
  existsb (fun '(_, p, vote) => (p =? proposal) && vote_phase_is_lifecycle_owned (vs_phase vote))
    (sn_votes s).

Definition clearable_intents (s : RoundSnapshot) (unrostered : list Z) : list Z :=
  filter (fun p => intent_lifecycle_owned s p = false) unrostered.

Definition owned_choices (s : RoundSnapshot) (unrostered : list Z) : gset Z :=
  list_to_set (filter (fun p => intent_lifecycle_owned s p && has_choice (sn_intents s) p = true)
    unrostered).

Definition imported_round_waits_for_delegations (s : RoundSnapshot) : bool :=
  existsb (fun '(_, bundle) => bs_capability_imported bundle) (sn_bundles s)
  && existsb (fun '(_, phase) => negb (bool_decide (phase = DConfirmed))) (delegation_map s).

Definition is_stale (s : RoundSnapshot) (entry : Z * Z * VoteSnapshot) : bool :=
  let '(_, p, vote) := entry in
  bool_decide (ballot_relation (sn_intents s) p (vs_choice vote) = Conflicts).

Definition stale_vote_keys (s : RoundSnapshot) : gset (Z * Z) :=
  list_to_set (map fst (filter (fun entry => is_stale s entry = true) (sn_votes s))).

(** The units of the retirement loop. *)
Definition retired_unit (roster : list Z) (u : VoteUnit) : bool :=
  bool_decide (position_of (Some (vu_phase u)) = Undispatched)
  && bool_decide (roster_relation (unit_proposal_ids u) roster = LeftRoster).

Definition unit_keys (u : VoteUnit) : list (Z * Z) :=
  map (pair (vu_bundle_index u)) (unit_proposal_ids u).

Definition retirable_vote_keys (units : list VoteUnit) (roster : list Z) : gset (Z * Z) :=
  list_to_set (concat (map unit_keys (filter (fun u => retired_unit roster u = true) units))).

Definition retirements (units : list VoteUnit) (roster : list Z) : list Obligation :=
  map (fun u => ORetire (vu_id u) (unit_proposal_ids u))
    (filter (fun u => retired_unit roster u = true) units).

Definition held_bundles (s : RoundSnapshot) (stale retirable : gset (Z * Z)) : gset Z :=
  list_to_set
    (map (fun entry => entry.1.1)
       (filter (fun '(key, vote) =>
          negb (bool_decide (key ∈ stale)) && negb (bool_decide (key ∈ retirable))
          && vote_phase_holds_bundle (vs_phase vote) = true) (sn_votes s))
     ++ map fst (filter (fun entry => delegation_phase_holds_bundle entry.2 = true)
          (delegation_map s))
     ++ map fst (sn_rejection_blocked_bundles s)).

(** The first stale vote, in key order, that the chain may have seen. *)
Definition conflicting_vote (s : RoundSnapshot) : option (Z * Z) :=
  fst <$> find (fun entry => is_stale s entry && vote_phase_is_lifecycle_owned (vs_phase entry.2))
    (sn_votes s).

Record Pass := mk_pass {
  cp_obligations : list Obligation;
  cp_reconciled_units : list VoteUnitId;
  cp_delivered_votes : gset (Z * Z);
  cp_bundles_needing_delegation : gset Z;
  cp_drafts : list (Z * list CastDraft);
  cp_blocked : list Z;
  cp_withheld_casts : gset Z
}.

Definition push_obligation (c : Pass) (o : Obligation) : Pass :=
  mk_pass (cp_obligations c ++ [o]) (cp_reconciled_units c) (cp_delivered_votes c)
    (cp_bundles_needing_delegation c) (cp_drafts c) (cp_blocked c) (cp_withheld_casts c).

Definition mark_reconciled (c : Pass) (id : VoteUnitId) : Pass :=
  mk_pass (cp_obligations c) (id :: cp_reconciled_units c) (cp_delivered_votes c)
    (cp_bundles_needing_delegation c) (cp_drafts c) (cp_blocked c) (cp_withheld_casts c).

Definition mark_delivered (c : Pass) (key : Z * Z) : Pass :=
  mk_pass (cp_obligations c) (cp_reconciled_units c) ({[key]} ∪ cp_delivered_votes c)
    (cp_bundles_needing_delegation c) (cp_drafts c) (cp_blocked c) (cp_withheld_casts c).

Definition need_delegation (c : Pass) (bundle : Z) : Pass :=
  mk_pass (cp_obligations c) (cp_reconciled_units c) (cp_delivered_votes c)
    ({[bundle]} ∪ cp_bundles_needing_delegation c) (cp_drafts c) (cp_blocked c)
    (cp_withheld_casts c).

Definition add_draft (c : Pass) (bundle : Z) (draft : CastDraft) : Pass :=
  mk_pass (cp_obligations c) (cp_reconciled_units c) (cp_delivered_votes c)
    (cp_bundles_needing_delegation c)
    (zmap_insert bundle (default [] (bt_get bundle (cp_drafts c)) ++ [draft]) (cp_drafts c))
    (cp_blocked c) (cp_withheld_casts c).

Definition block_bundle (c : Pass) (bundle : Z) : Pass :=
  mk_pass (cp_obligations c) (cp_reconciled_units c) (cp_delivered_votes c)
    (cp_bundles_needing_delegation c) (cp_drafts c) (zset_insert bundle (cp_blocked c))
    (cp_withheld_casts c).

Definition withhold (c : Pass) (proposal : Z) : Pass :=
  mk_pass (cp_obligations c) (cp_reconciled_units c) (cp_delivered_votes c)
    (cp_bundles_needing_delegation c) (cp_drafts c) (cp_blocked c)
    ({[proposal]} ∪ cp_withheld_casts c).

Section classify.
Context `{Externals} `{RecoveryExternals}.

Definition missing_share_indexes (s : RoundSnapshot) (bundle proposal : Z)
    : result (list Z) PlanFailure :=
  let name := lit "confirmed vote for round " ++ lit (sn_round_id s) ++ lit " bundle "
    ++ decimal bundle ++ lit " proposal " ++ decimal proposal in
  match bt_get (bundle, proposal) (sn_votes s) ≫= vs_recovery with
  | None => plan_invalid
      (name ++ lit " is missing recovery material for helper-share submission")
  | Some recovery =>
      let? payloads := map_err PlanError (recover_payloads recovery) in
      let expected := foldl (fun set payload => zset_insert (ws_share_index (sp_enc_share payload)) set)
        [] payloads in
      if bool_decide (expected = []) then
        plan_invalid (name ++ lit " has no recoverable helper shares")
      else
        let recorded := omap (fun '(b, p, share, _) =>
          if (b =? bundle) && (p =? proposal) then Some share else None) (sn_share_phases s) in
        Ok (filter (fun share => share ∉ recorded) expected)
  end.

(** The closure [unit_of], with its [expect]. *)
Definition unit_of (units : list VoteUnit) (bundle proposal : Z) : result VoteUnit PlanFailure :=
  ok_or (find (fun u => (vu_bundle_index u =? bundle) && unit_contains u proposal) units)
    PlanPanic.

(** The closure [reconcile]. *)
Definition reconcile (s : RoundSnapshot) (c : Pass) (u : VoteUnit) : result Pass PlanFailure :=
  match (if bool_decide (vu_phase u = VSubmitted)
         then find (fun member => bool_decide (vm_recovery member = None)) (vu_members u)
         else None) with
  | Some member => plan_invalid (lit "round " ++ lit (sn_round_id s) ++ lit " bundle "
      ++ decimal (vu_bundle_index u) ++ lit " proposal " ++ decimal (vm_proposal_id member)
      ++ lit " has a submitted vote without recovery material")
  | None =>
      if bool_decide (vu_id u ∈ cp_reconciled_units c) then Ok c
      else
        let? anchor := anchor_proposal_id u in
        let tx_hash :=
          match unit_batch_digest u with
          | Some digest => vote_batch_tx_hash s (vu_bundle_index u) digest anchor
          | None => vote_tx_hash s (vu_bundle_index u) anchor
          end in
        Ok (push_obligation (mark_reconciled c (vu_id u))
              (OReconcileChain (vu_id u) (vu_bundle_index u) (unit_proposal_ids u)
                 (bool_decide (position_of (Some (vu_phase u)) = Undispatched)) tx_hash None))
  end.

(** The closure [deliver]. *)
Definition deliver (s : RoundSnapshot) (c : Pass) (bundle proposal : Z) : result Pass PlanFailure :=
  if bool_decide ((bundle, proposal) ∈ cp_delivered_votes c) then Ok c
  else
    let c := mark_delivered c (bundle, proposal) in
    let? share_indexes := missing_share_indexes s bundle proposal in
    if bool_decide (share_indexes = []) then Ok c
    else
      let? position := confirmed_tree_position s bundle proposal in
      let? position := ok_or position (PlanError (VInternal
        (lit "submit shares step missing vc_tree_position for " ++ key_text s bundle proposal))) in
      Ok (push_obligation c (ODeliver bundle proposal position share_indexes None)).

(** What the loops read: the snapshot, the units and the facts about them. *)
Record Facts := mk_facts {
  f_snapshot : RoundSnapshot;
  f_units : list VoteUnit;
  f_roster : list Z;
  f_stale : gset (Z * Z);
  f_retirable : gset (Z * Z);
  f_held : gset Z;
  f_waits : bool;
  f_roster_is_terminal : bool
}.

Definition cast_due (f : Facts) (bundle proposal choice : Z) : bool :=
  match bt_get (bundle, proposal) (sn_votes (f_snapshot f)) with
  | None => true
  | Some vote =>
      bool_decide ((bundle, proposal) ∈ f_stale f)
      || negb (vs_choice vote =? choice)
      || bool_decide ((bundle, proposal) ∈ f_retirable f)
      || bool_decide (position_of (Some (vs_phase vote)) = Uncast)
  end.

Definition plan_cast (f : Facts) (c : Pass) (bundle proposal choice : Z) : Pass :=
  if bool_decide (bundle ∈ f_held f) then withhold c proposal
  else
    let c := need_delegation c bundle in
    if f_waits f then withhold c proposal
    else if f_roster_is_terminal f then add_draft c bundle (mk_draft proposal choice)
    else withhold (block_bundle c bundle) proposal.

Definition every_member_agrees (f : Facts) (bundle : Z) (u : VoteUnit) : bool :=
  forallb (fun member =>
    bool_decide (vm_proposal_id member ∈ f_roster f)
    && match bt_get (bundle, vm_proposal_id member) (sn_votes (f_snapshot f)) with
       | Some vote => bool_decide (ballot_relation (sn_intents (f_snapshot f))
           (vm_proposal_id member) (vs_choice vote) = Agrees)
       | None => false
       end) (vu_members u).

(** The work of one choice on one bundle. *)
Definition choice_on_bundle (f : Facts) (proposal choice : Z) (c : Pass) (bundle : Z)
    : result Pass PlanFailure :=
  if cast_due f bundle proposal choice then Ok (plan_cast f c bundle proposal choice)
  else match bt_get (bundle, proposal) (sn_votes (f_snapshot f)) with
  | None => Err PlanPanic
  | Some vote =>
      match position_of (Some (vs_phase vote)) with
      | PosConfirmed => deliver (f_snapshot f) c bundle proposal
      | Undispatched =>
          let? u := unit_of (f_units f) bundle proposal in
          if every_member_agrees f bundle u then reconcile (f_snapshot f) c u
          else Ok (withhold c proposal)
      | OnWire =>
          let? u := unit_of (f_units f) bundle proposal in
          reconcile (f_snapshot f) c u
      | Terminal | Uncast => Ok c
      end
  end.

Definition choice_pass (f : Facts) (bundles : list Z) (c : Pass) (proposal : Z)
    : result Pass PlanFailure :=
  match bt_get proposal (sn_intents (f_snapshot f)) with
  | Some (Choice choice) => try_fold (choice_on_bundle f proposal choice) c bundles
  | _ => Ok c
  end.

(** The pass over votes the ballot loop did not visit. *)
Definition wire_pass (f : Facts) (c : Pass) (entry : Z * Z * VoteSnapshot)
    : result Pass PlanFailure :=
  let '(bundle, proposal, vote) := entry in
  if bool_decide (is_Some (bt_get proposal (sn_intents (f_snapshot f))))
     && bool_decide (proposal ∈ f_roster f) then Ok c
  else match position_of (Some (vs_phase vote)) with
  | OnWire =>
      let? u := unit_of (f_units f) bundle proposal in
      reconcile (f_snapshot f) c u
  | PosConfirmed => deliver (f_snapshot f) c bundle proposal
  | Uncast | Undispatched | Terminal => Ok c
  end.

Definition cast_signs_delegation (s : RoundSnapshot) (bundle : Z) : bool :=
  let imported :=
    match bt_get bundle (sn_bundles s) with
    | Some b => bs_capability_imported b
    | None => false
    end in
  negb imported
  && match bt_get bundle (delegation_map s) with
     | Some phase => negb (bool_decide (phase = DConfirmed))
     | None => false
     end.

(** [ATOMIC_VOTE_BATCHES_ENABLED] is true: the drafts of a bundle are one cast. *)
Definition casts (s : RoundSnapshot) (drafts : list (Z * list CastDraft)) : list Obligation :=
  map (fun '(bundle, ds) => OCast bundle ds None (cast_signs_delegation s bundle)) drafts.

Definition blocked_casts (open unrostered : list Z) (blocked : list Z) : list Obligation :=
  let reason :=
    if bool_decide (open <> []) then OpenBallot open else UnrosteredIntents unrostered in
  map (fun bundle => OBlocked bundle reason) blocked.

Definition combined_bundle (s : RoundSnapshot) (bundle : Z) : bool :=
  existsb (fun '(b, _, vote) =>
    (b =? bundle) && bool_decide (is_Some (vs_recovery vote ≫= delegation_van_of))) (sn_votes s).

(** One delegation: the bundles with a delegation step and the obligations. *)
Definition delegation_pass (s : RoundSnapshot) (needing : gset Z)
    (acc : gset Z * list Obligation) (entry : Z * DelegationPhase)
    : result (gset Z * list Obligation) PlanFailure :=
  let '(bundle, phase) := entry in
  if combined_bundle s bundle then Ok acc
  else match phase with
  | DConfirmed | DProved | DSubmittedWithoutHash | DSubmissionRejected => Ok acc
  | DSubmitted | DSubmissionManaged =>
      let? b := ok_or (bt_get bundle (sn_bundles s)) (PlanError (VInvalidInput
        (lit "bundle not found for round " ++ lit (sn_round_id s) ++ lit " index "
          ++ decimal bundle))) in
      Ok ({[bundle]} ∪ acc.1, acc.2 ++ [OAdvanceDelegation bundle (bs_capability_imported b) phase
            (delegation_tx_hash s bundle)])
  | DPrepared | DPcztBuilt =>
      if bool_decide (bundle ∈ needing)
      then Ok ({[bundle]} ∪ acc.1, acc.2 ++ [ODelegate bundle])
      else Ok acc
  end.

Definition share_row (s : RoundSnapshot) (bundle proposal share : Z)
    : option ShareDelegationRecord :=
  find (fun row => (sr_bundle_index row =? bundle) && (sr_proposal_id row =? proposal)
    && (sr_share_index row =? share)) (sn_shares s).

Definition confirmation (s : RoundSnapshot) (stale : gset (Z * Z))
    (entry : Z * Z * Z * SharePhase) : option Obligation :=
  let '(bundle, proposal, share, phase) := entry in
  if bool_decide ((bundle, proposal) ∈ stale) then None
  else match phase with
  | SSubmitted =>
      let row := share_row s bundle proposal share in
      let accepted :=
        match row with
        | None => true
        | Some row => sr_confirmed row || negb (bool_decide (sr_sent_to_urls row = []))
        end in
      let outcome_unknown :=
        match row with
        | Some row => negb (bool_decide (sr_ambiguous_urls row = []))
                      || negb (bool_decide (sr_attempting_urls row = []))
        | None => false
        end in
      Some (OConfirm bundle proposal share accepted outcome_unknown None)
  | SConfirmed => None
  end.

Definition blocked_by (delegations : gset Z) (o : Obligation) : option Z :=
  if bool_decide (obligation_bundle_index o ∈ delegations) then Some (obligation_bundle_index o)
  else None.

Definition classify (s : RoundSnapshot) (units : list VoteUnit) (ballot : BallotIntentClassification)
    : result RoundObligations PlanFailure :=
  let delegation := delegation_map s in
  let bundles := map fst delegation in
  let roster := bc_roster ballot in
  let open := bc_open_proposals ballot in
  let unrostered := clearable_intents s (bc_unrostered_intents ballot) in
  let stale := stale_vote_keys s in
  let retirable := retirable_vote_keys units roster in
  let f := mk_facts s units roster stale retirable (held_bundles s stale retirable)
    (imported_round_waits_for_delegations s)
    (bool_decide (open = []) && bool_decide (unrostered = [])) in
  match conflicting_vote s with
  | Some (bundle, proposal) => plan_invalid (lit "round " ++ lit (sn_round_id s) ++ lit " bundle "
      ++ decimal bundle ++ lit " proposal " ++ decimal proposal
      ++ lit " has a submitted vote that conflicts with ballot intent")
  | None =>
      let? c := try_fold (choice_pass f bundles)
        (mk_pass (retirements units roster) [] ∅ ∅ [] [] ∅) (bc_choice_proposals ballot) in
      let? c := try_fold (wire_pass f) c (sn_votes s) in
      let? (delegation_bundles, advances) :=
        try_fold (delegation_pass s (cp_bundles_needing_delegation c)) (∅, []) delegation in
      let obligations := cp_obligations c ++ casts s (cp_drafts c)
        ++ blocked_casts open unrostered (cp_blocked c) ++ advances
        ++ omap (confirmation s stale) (sn_share_phases s) in
      Ok (mk_obligations
        (map (fun o => with_prerequisite (blocked_by delegation_bundles o) o) obligations)
        (bc_choice_proposals ballot) open unrostered stale false (cp_withheld_casts c)
        (owned_choices s (bc_unrostered_intents ballot)))
  end.

Definition classify_round (s : RoundSnapshot) (proposal_ids : list Z)
    : result RoundObligations PlanFailure :=
  let? ballot := classify_ballot_intents proposal_ids (sn_intents s) in
  if bool_decide (bc_choice_proposals ballot <> []) && bool_decide (sn_delegations s = []) then
    Ok (mk_obligations [] (bc_choice_proposals ballot) (bc_open_proposals ballot)
      (bc_unrostered_intents ballot) ∅ true (list_to_set (bc_choice_proposals ballot)) ∅)
  else
    let? units := group_vote_units s (sn_intents s) in
    classify s units ballot.
End classify.

(** ** The plan ([projection.rs] and the types of [session.rs]) *)
Inductive NextStep :=
| NDelegate (bundle_index : Z)
| NAdvanceDelegation (bundle_index : Z)
| NAdvanceImportedDelegation (bundle_index : Z)
| NCastVote (bundle_index proposal_id choice : Z)
| NAdvanceVote (bundle_index proposal_id : Z)
| NAdvanceVoteBatch (bundle_index proposal_id : Z)
| NSubmitShares (bundle_index proposal_id share_index : Z)
| NConfirmShare (bundle_index proposal_id share_index : Z).

#[global] Instance NextStep_eq_dec : EqDecision NextStep.
Proof. solve_decision. Defined.

Inductive RoundPlanAction := AIdle | ADelegate | AVote | ASubmitShares | ADone.

#[global] Instance RoundPlanAction_eq_dec : EqDecision RoundPlanAction.
Proof. solve_decision. Defined.

Record DelegationStatus := mk_plan_delegation {
  pd_bundle_index : Z;
  pd_phase : DelegationPhase;
  pd_tx_hash : option string;
  pd_submission_diagnostic : option ChainSubmissionDiagnostic;
  pd_terminal : bool
}.

Inductive DelegationRecoveryWorkKind :=
| WDelegate
| WAdvanceDelegation
| WAdvanceImportedDelegation.

Record DelegationRecoveryWork := mk_delegation_work {
  dw_kind : DelegationRecoveryWorkKind;
  dw_bundle_index : Z;
  dw_phase : DelegationPhase;
  dw_tx_hash : option string
}.

Inductive VoteRecoveryWorkKind := WAdvanceVote | WAdvanceVoteBatch | WSubmitShares.

#[global] Instance VoteRecoveryWorkKind_eq_dec : EqDecision VoteRecoveryWorkKind.
Proof. solve_decision. Defined.

Record VoteRecoveryWork := mk_vote_work {
  vw_kind : VoteRecoveryWorkKind;
  vw_bundle_index : Z;
  vw_proposal_id : Z;
  vw_tx_hash : option string;
  vw_vc_tree_position : option Z;
  vw_share_indexes : list Z
}.

Record CompletedVoteDisplay := mk_display {
  cv_choices : list (Z * option Z);
  cv_voted_at : option Z
}.

Record PlanWorkSummary := mk_work_summary {
  wk_needs_delegation_signing : bool;
  wk_has_in_flight_delegation : bool;
  wk_delegation_bundles_needing_work : list Z;
  wk_delegation_bundles_needing_signing : list Z;
  wk_needs_vote_polling : bool;
  wk_has_remaining_vote_or_share_work : bool;
  wk_has_recoverable_vote_or_share_work : bool
}.

Record RoundPlan := mk_plan {
  rp_round_id : string;
  rp_pending_recovery : bool;
  rp_next_steps : list NextStep;
  rp_open_proposals : list Z;
  rp_unrostered_intents : list Z;
  rp_immediate_share_key : option ImmediateShareKey;
  rp_immediate_share_confirmed : bool;
  rp_all_decided : bool;
  rp_delegation_statuses : list DelegationStatus;
  rp_blocking_recovery : bool;
  rp_blocking_share_work : bool;
  rp_has_unconfirmed_shares : bool;
  rp_hotkey_bound : bool;
  rp_completed_vote_artifact : bool;
  rp_completed_for_display : bool;
  rp_completed_vote_display : option CompletedVoteDisplay;
  rp_needs_draft_setup : bool;
  rp_needs_bundle_setup : bool;
  rp_primary_action : RoundPlanAction;
  rp_work : PlanWorkSummary;
  rp_recovered_delegation_work : list DelegationRecoveryWork;
  rp_recovered_vote_work : list VoteRecoveryWork
}.

(** The steps of one obligation; an empty batch panics. *)
Definition steps_of (o : Obligation) : result (list NextStep) PlanFailure :=
  match o with
  | ODelegate b => Ok [NDelegate b]
  | OAdvanceDelegation b true _ _ => Ok [NAdvanceImportedDelegation b]
  | OAdvanceDelegation b false _ _ => Ok [NAdvanceDelegation b]
  | OCast b drafts _ _ => Ok (map (fun d => NCastVote b (cd_proposal_id d) (cd_choice d)) drafts)
  | OReconcileChain (USingleton _ p) b _ _ _ _ => Ok [NAdvanceVote b p]
  | OReconcileChain (UBatch _ _) b ids _ _ _ =>
      match ids with
      | first :: _ => Ok [NAdvanceVoteBatch b first]
      | [] => Err PlanPanic
      end
  | ODeliver b p _ shares _ => Ok (map (NSubmitShares b p) shares)
  | OConfirm b p share _ _ _ => Ok [NConfirmShare b p share]
  | ORetire _ _ | OBlocked _ _ => Ok []
  end.

Definition steps_from_obligations (obligations : list Obligation)
    : result (list NextStep) PlanFailure :=
  let? steps := try_map steps_of obligations in
  Ok (concat steps).

(** Whether an obligation is the one a step executes; reading the first
    proposal of an empty unit panics, which [None] stands for. *)
Definition executes (o : Obligation) (step : NextStep) : option bool :=
  match o, step with
  | ODelegate b, NDelegate b' => Some (b =? b')
  | OAdvanceDelegation b false _ _, NAdvanceDelegation b'
  | OAdvanceDelegation b true _ _, NAdvanceImportedDelegation b' => Some (b =? b')
  | OCast b drafts _ _, NCastVote b' p choice =>
      Some ((b =? b') && existsb (fun d => (cd_proposal_id d =? p) && (cd_choice d =? choice)) drafts)
  | OReconcileChain (USingleton _ _) b ids _ _ _, NAdvanceVote b' p
  | OReconcileChain (UBatch _ _) b ids _ _ _, NAdvanceVoteBatch b' p =>
      if b =? b' then (fun first => first =? p) <$> head ids else Some false
  | ODeliver b p _ shares _, NSubmitShares b' p' share =>
      Some ((b =? b') && (p =? p') && bool_decide (share ∈ shares))
  | OConfirm b p share _ _ _, NConfirmShare b' p' share' =>
      Some ((b =? b') && (p =? p') && (share =? share'))
  | _, _ => Some false
  end.

Fixpoint resolve_step (obligations : list Obligation) (step : NextStep)
    : result (option Obligation) PlanFailure :=
  match obligations with
  | [] => Ok None
  | o :: obligations =>
      match executes o step with
      | None => Err PlanPanic
      | Some true => Ok (Some o)
      | Some false => resolve_step obligations step
      end
  end.

Definition step_rank (step : NextStep) : Z * Z * Z * Z :=
  match step with
  | NDelegate b | NAdvanceDelegation b | NAdvanceImportedDelegation b => (0, 0, b, 0)
  | NCastVote b p _ | NAdvanceVote b p | NAdvanceVoteBatch b p => (1, p, b, 0)
  | NSubmitShares b p share => (1, p, b, share)
  | NConfirmShare b p share => (2, p, b, share)
  end.

(** The lexicographic order of tuples. *)
Definition rank_leb (x y : Z * Z * Z * Z) : bool :=
  let '(a, b, c, d) := x in
  let '(a', b', c', d') := y in
  (a <? a') || ((a =? a') && ((b <? b') || ((b =? b') && ((c <? c') || ((c =? c') && (d <=? d')))))).

Definition step_leb (x y : NextStep) : bool := rank_leb (step_rank x) (step_rank y).

Definition is_delegation_step (step : NextStep) : bool :=
  match step with
  | NDelegate _ | NAdvanceDelegation _ | NAdvanceImportedDelegation _ => true
  | _ => false
  end.

Definition is_vote_step (step : NextStep) : bool :=
  match step with
  | NCastVote _ _ _ | NAdvanceVote _ _ | NAdvanceVoteBatch _ _ | NSubmitShares _ _ _ => true
  | _ => false
  end.

Definition step_bundle (step : NextStep) : Z :=
  match step with
  | NDelegate b | NAdvanceDelegation b | NAdvanceImportedDelegation b | NCastVote b _ _
  | NAdvanceVote b _ | NAdvanceVoteBatch b _ | NSubmitShares b _ _ | NConfirmShare b _ _ => b
  end.

Definition blocking_prerequisite (steps : list NextStep) (step : NextStep) : option NextStep :=
  if is_delegation_step step then None
  else find (fun candidate => is_delegation_step candidate && (step_bundle candidate =? step_bundle step))
         steps.

Definition select_primary_action (steps : list NextStep)
    (blocking_recovery blocking_share_work completed_for_display : bool) : RoundPlanAction :=
  if completed_for_display then ADone
  else if negb blocking_recovery then AIdle
  else if existsb is_delegation_step steps then ADelegate
  else if existsb is_vote_step steps then AVote
  else if blocking_share_work then ASubmitShares
  else AIdle.

Definition completed_vote_display (proposal_ids : list Z) (intents : list (Z * Decision))
    (vote_choices : list (Z * Z * Z)) (stale : gset (Z * Z)) (voted_at : option Z)
    : CompletedVoteDisplay :=
  mk_display (map (fun proposal =>
    let choices := foldl (fun set choice => zset_insert choice set) []
      (omap (fun '(b, p, choice) =>
         if (p =? proposal) && negb (bool_decide ((b, p) ∈ stale)) then Some choice else None)
       vote_choices) in
    (proposal,
     match bt_get proposal intents with
     | Some (Choice _) => if bool_decide (length choices = 1%nat) then head choices else None
     | _ => None
     end)) proposal_ids) voted_at.

Definition missing_recovery_field {A} (message : text) : result A PlanFailure :=
  Err (PlanError (VInternal message)).

(** The phase and hash of an advance obligation. *)
Definition advance_of (o : option Obligation) : option (DelegationPhase * option string) :=
  match o with
  | Some (OAdvanceDelegation _ _ phase tx_hash) => Some (phase, tx_hash)
  | _ => None
  end.

Definition delegation_work (s : RoundSnapshot) (obligations : list Obligation)
    (work : list DelegationRecoveryWork) (step : NextStep)
    : result (list DelegationRecoveryWork) PlanFailure :=
  let name := fun b => lit "round=" ++ lit (sn_round_id s) ++ lit ", bundle=" ++ decimal b in
  match step with
  | NDelegate b =>
      match bt_get b (delegation_map s) with
      | Some phase => Ok (work ++ [mk_delegation_work WDelegate b phase None])
      | None => missing_recovery_field (lit "delegate step missing phase for " ++ name b)
      end
  | NAdvanceDelegation b =>
      let? o := resolve_step obligations step in
      match advance_of o with
      | Some (phase, hash) => Ok (work ++ [mk_delegation_work WAdvanceDelegation b phase hash])
      | None => missing_recovery_field (lit "poll delegation step missing phase for " ++ name b)
      end
  | NAdvanceImportedDelegation b =>
      let? o := resolve_step obligations step in
      match advance_of o with
      | Some (phase, hash) =>
          Ok (work ++ [mk_delegation_work WAdvanceImportedDelegation b phase hash])
      | None =>
          missing_recovery_field (lit "imported delegation step missing phase for " ++ name b)
      end
  | NCastVote _ _ _ | NAdvanceVote _ _ | NAdvanceVoteBatch _ _ | NSubmitShares _ _ _
  | NConfirmShare _ _ _ => Ok work
  end.

Definition recovered_delegation_work_from_steps (s : RoundSnapshot)
    (obligations : list Obligation) (steps : list NextStep)
    : result (list DelegationRecoveryWork) PlanFailure :=
  try_fold (delegation_work s obligations) [] steps.

(** [item.share_indexes.push(share); sort_unstable(); dedup()]; the shares of
    an item are a sorted list without duplicates. *)
Fixpoint push_submit_share_work (work : list VoteRecoveryWork) (bundle proposal share position : Z)
    : list VoteRecoveryWork :=
  match work with
  | [] => [mk_vote_work WSubmitShares bundle proposal None (Some position) [share]]
  | item :: rest =>
      if bool_decide (vw_kind item = WSubmitShares) && (vw_bundle_index item =? bundle)
         && (vw_proposal_id item =? proposal)
      then mk_vote_work (vw_kind item) (vw_bundle_index item) (vw_proposal_id item)
             (vw_tx_hash item) (vw_vc_tree_position item)
             (zset_insert share (vw_share_indexes item)) :: rest
      else item :: push_submit_share_work rest bundle proposal share position
  end.

Definition pending_vote_confirmation_keys (obligations : list Obligation) : gset (Z * Z) :=
  list_to_set (concat (map (fun o =>
    match o with
    | OReconcileChain _ b ids _ _ _ => map (pair b) ids
    | _ => []
    end) obligations)).

Definition blocking_confirm_share_keys (obligations : list Obligation) : gset (Z * Z * Z) :=
  list_to_set (omap (fun o =>
    match o with
    | OConfirm b p share false false _ => Some (b, p, share)
    | _ => None
    end) obligations).

Section projection.
Context `{Externals} `{RecoveryExternals}.

Definition advance_vote_work (s : RoundSnapshot) (obligations : list Obligation)
    (work : list VoteRecoveryWork) (step : NextStep) (b p : Z)
    : result (list VoteRecoveryWork) PlanFailure :=
  let? o := resolve_step obligations step in
  match o with
  | None => missing_recovery_field
      (lit "advance vote batch step missing active batch for " ++ key_text s b p)
  | Some (OReconcileChain unit _ _ _ tx_hash _) =>
      let kind := match unit with
                  | USingleton _ _ => WAdvanceVote
                  | UBatch _ _ => WAdvanceVoteBatch
                  end in
      Ok (work ++ [mk_vote_work kind b p tx_hash None []])
  | Some _ => Err PlanPanic
  end.

Definition vote_work (s : RoundSnapshot) (blocking : gset (Z * Z * Z))
    (obligations : list Obligation) (work : list VoteRecoveryWork) (step : NextStep)
    : result (list VoteRecoveryWork) PlanFailure :=
  match step with
  | NAdvanceVote b p | NAdvanceVoteBatch b p => advance_vote_work s obligations work step b p
  | NSubmitShares b p share =>
      let? o := resolve_step obligations step in
      match o with
      | Some (ODeliver _ _ position _ _) => Ok (push_submit_share_work work b p share position)
      | _ => Err PlanPanic
      end
  | NConfirmShare b p share =>
      if bool_decide ((b, p, share) ∈ blocking)
         && negb (bool_decide ((b, p) ∈ pending_vote_confirmation_keys obligations))
      then
        let? position := confirmed_tree_position s b p in
        let? position := ok_or position (PlanError (VInternal
          (lit "submit shares step missing vc_tree_position for " ++ key_text s b p))) in
        Ok (push_submit_share_work work b p share position)
      else Ok work
  | NDelegate _ | NAdvanceDelegation _ | NAdvanceImportedDelegation _ | NCastVote _ _ _ => Ok work
  end.

Definition recovered_vote_work_from_steps (s : RoundSnapshot) (blocking : gset (Z * Z * Z))
    (obligations : list Obligation) (steps : list NextStep)
    : result (list VoteRecoveryWork) PlanFailure :=
  try_fold (vote_work s blocking obligations) [] steps.
End projection.

(** One step of the summary. *)
Definition summarize_step (blocking_share_work : bool) (w : PlanWorkSummary) (step : NextStep)
    : PlanWorkSummary :=
  let 'mk_work_summary signing in_flight needing_work needing_signing polling remaining recoverable
    := w in
  match step with
  | NDelegate b => mk_work_summary signing in_flight (zset_insert b needing_work) needing_signing
      polling remaining recoverable
  | NAdvanceDelegation b => mk_work_summary true true (zset_insert b needing_work)
      (zset_insert b needing_signing) polling remaining recoverable
  | NAdvanceImportedDelegation b => mk_work_summary signing true (zset_insert b needing_work)
      needing_signing polling remaining recoverable
  | NCastVote _ _ _ | NAdvanceVote _ _ | NAdvanceVoteBatch _ _ | NSubmitShares _ _ _ =>
      mk_work_summary signing in_flight needing_work needing_signing true true true
  | NConfirmShare _ _ _ => mk_work_summary signing in_flight needing_work needing_signing polling
      (remaining || blocking_share_work) true
  end.

Definition summarize_plan_work (steps : list NextStep) (blocking_share_work : bool)
    : PlanWorkSummary :=
  foldl (summarize_step blocking_share_work) (mk_work_summary false false [] [] false false false)
    steps.

Definition signing_casts (obligations : list Obligation) : gset Z :=
  list_to_set (omap (fun o =>
    match o with
    | OCast b _ _ true => Some b
    | _ => None
    end) obligations).

(** The bundles of casts that sign their delegation join both lists. *)
Definition add_signing_cast (signing : gset Z) (w : PlanWorkSummary) (step : NextStep)
    : PlanWorkSummary :=
  match step with
  | NCastVote b _ _ =>
      if bool_decide (b ∈ signing) then
        mk_work_summary (wk_needs_delegation_signing w) (wk_has_in_flight_delegation w)
          (zset_insert b (wk_delegation_bundles_needing_work w))
          (zset_insert b (wk_delegation_bundles_needing_signing w)) (wk_needs_vote_polling w)
          (wk_has_remaining_vote_or_share_work w) (wk_has_recoverable_vote_or_share_work w)
      else w
  | _ => w
  end.

Definition plan_work_summary (obligations : list Obligation) (steps : list NextStep)
    (blocking_share_work : bool) : PlanWorkSummary :=
  let w := foldl (add_signing_cast (signing_casts obligations))
    (summarize_plan_work steps blocking_share_work) steps in
  mk_work_summary (negb (bool_decide (wk_delegation_bundles_needing_signing w = [])))
    (wk_has_in_flight_delegation w) (wk_delegation_bundles_needing_work w)
    (wk_delegation_bundles_needing_signing w) (wk_needs_vote_polling w)
    (wk_has_remaining_vote_or_share_work w) (wk_has_recoverable_vote_or_share_work w).

Definition max_list (l : list Z) : option Z :=
  foldl (fun best z => match best with None => Some z | Some b => Some (Z.max b z) end) None l.

Section plan.
Context `{Externals} `{RecoveryExternals}.

Definition any_phase (s : RoundSnapshot) (delegation : DelegationPhase) (vote : VotePhase) : bool :=
  existsb (fun entry => bool_decide (entry.2 = delegation)) (delegation_map s)
  || existsb (fun entry => bool_decide (vs_phase entry.2 = vote)) (sn_votes s).

(** Whether a step keeps the foreground open. *)
Definition blocking_step (blocking : gset (Z * Z * Z)) (step : NextStep) : bool :=
  match step with
  | NConfirmShare b p share => bool_decide ((b, p, share) ∈ blocking)
  | _ => true
  end.

Definition plan_blocking_recovery (s : RoundSnapshot) (blocking : gset (Z * Z * Z))
    (steps : list NextStep) : bool :=
  any_phase s DSubmissionManaged VSubmissionManaged
  || any_phase s DSubmittedWithoutHash VSubmittedWithoutHash
  || any_phase s DSubmissionRejected VSubmissionRejected
  || negb (bool_decide (sn_rejection_blocked_bundles s = []))
  || existsb (blocking_step blocking) steps.

Definition delegation_status (s : RoundSnapshot) (status : DelegationSubmissionStatus)
    : DelegationStatus :=
  mk_plan_delegation (ds_bundle_index status) (ds_phase status)
    (delegation_tx_hash s (ds_bundle_index status))
    (match ds_diagnostic status with
     | Some diagnostic => Some diagnostic
     | None => bt_get (ds_bundle_index status) (sn_rejection_blocked_bundles s)
     end)
    (is_terminal_delegation_phase (ds_phase status)).

Definition plan_hotkey_bound (s : RoundSnapshot) : bool :=
  existsb (fun entry => negb (bool_decide (entry.2 = DPrepared))) (delegation_map s)
  || negb (bool_decide (map fst (sn_votes s) = []))
  || negb (bool_decide (sn_share_phases s = [])).

Definition vote_confirmed (s : RoundSnapshot) (bundle proposal choice : Z) : bool :=
  match bt_get (bundle, proposal) (sn_votes s) with
  | Some vote => (vs_choice vote =? choice) && bool_decide (vs_phase vote = VConfirmed)
  | None => false
  end.

Definition plan_all_decided (s : RoundSnapshot) (proposal_ids : list Z) : bool :=
  let bundles := map fst (delegation_map s) in
  forallb (fun proposal =>
    match bt_get proposal (sn_intents s) with
    | Some Skipped => true
    | Some (Choice choice) =>
        negb (bool_decide (bundles = []))
        && forallb (fun b => vote_confirmed s b proposal choice) bundles
    | None => false
    end) proposal_ids.

Definition plan_completed_vote_artifact (s : RoundSnapshot) (stale : gset (Z * Z)) : bool :=
  existsb (fun '(b, p, vote) =>
    negb (bool_decide ((b, p) ∈ stale))
    && bool_decide (bt_get p (sn_intents s) = Some (Choice (vs_choice vote)))) (sn_votes s)
  || existsb (fun '(b, p, _, _) =>
       negb (bool_decide ((b, p) ∈ stale)) && has_choice (sn_intents s) p) (sn_share_phases s).

Definition plan_voted_at (s : RoundSnapshot) : option Z :=
  max_list (filter (fun created_at => 0 < created_at) (map sr_created_at (sn_shares s))).

Definition immediate_key (s : RoundSnapshot) (choices : list Z) : option ImmediateShareKey :=
  match sn_persisted_immediate_share s with
  | Some key => Some key
  | None => round_immediate_share_key (max_list (map fst (delegation_map s))) choices
  end.

Definition immediate_confirmed (s : RoundSnapshot) (key : option ImmediateShareKey) : bool :=
  match key with
  | Some key => existsb (fun row =>
      (sr_bundle_index row =? ik_bundle_index key) && (sr_proposal_id row =? ik_proposal_id key)
      && (sr_share_index row =? ik_share_index key) && sr_confirmed row) (sn_shares s)
  | None => false
  end.

Definition project (s : RoundSnapshot) (proposal_ids : list Z) (o : RoundObligations)
    : result RoundPlan PlanFailure :=
  let obligations := ro_obligations o in
  let stale := ro_stale_vote_keys o in
  let? steps := steps_from_obligations obligations in
  let steps := stable_sort step_leb steps in
  let blocking := blocking_confirm_share_keys obligations in
  let blocking_share_work := negb (bool_decide (blocking = ∅)) in
  let blocking_recovery := plan_blocking_recovery s blocking steps in
  let all_decided := plan_all_decided s proposal_ids in
  let artifact := plan_completed_vote_artifact s stale in
  let completed := artifact && negb blocking_recovery in
  let display :=
    if completed then
      Some (completed_vote_display proposal_ids (sn_intents s)
              (map (fun '(key, vote) => (key, vs_choice vote)) (sn_votes s)) stale
              (plan_voted_at s))
    else None in
  let action :=
    if ro_needs_bundle_setup o then ADelegate
    else select_primary_action steps blocking_recovery blocking_share_work completed in
  let? delegation_work := recovered_delegation_work_from_steps s obligations steps in
  let? vote_work := recovered_vote_work_from_steps s blocking obligations steps in
  let key := immediate_key s (ro_choice_proposals o) in
  Ok (mk_plan (sn_round_id s)
    (any_phase s DSubmissionManaged VSubmissionManaged || negb (bool_decide (steps = [])))
    steps (ro_open_proposals o) (ro_unrostered_intents o) key (immediate_confirmed s key)
    all_decided (map (delegation_status s) (sn_delegations s)) blocking_recovery
    blocking_share_work (existsb (fun row => negb (sr_confirmed row)) (sn_shares s))
    (plan_hotkey_bound s) artifact completed display
    (negb blocking_recovery && negb all_decided
       && negb (bool_decide (ro_open_proposals o = [])))
    (ro_needs_bundle_setup o) action
    (plan_work_summary obligations steps blocking_share_work) delegation_work vote_work).

Definition plan_round_classified (s : RoundSnapshot) (proposal_ids : list Z)
    : result (RoundObligations * RoundPlan) PlanFailure :=
  let? obligations := classify_round s proposal_ids in
  let? plan := project s proposal_ids obligations in
  Ok (obligations, plan).
End plan.
