(* ===== verification/RoundPlanningProofs.v ===== *)
(** * Correctness of round planning

    Grouping partitions the votes into units, and the loops of the classifier
    keep their invariants: chain work is planned once and only where it is due,
    and the ballot loop drafts, blocks and withholds exactly what it should. *)

From Stdlib Require Import ZifyBool.
From stdpp Require Import base gmap strings list numbers sorting.
From S2P Require Import Prelude Ordered Identity Outcome Lifecycle Record Confirmation Rows Store Planning VoteRecovery SharePolicy RoundPlanning.
Local Open Scope Z_scope.
Local Open Scope voting_scope.

(** ** Well-formed snapshots

    Keys are unique, every vote belongs to a bundle of the round, and a vote's
    recovery text names its own proposal: the primary keys and foreign keys of
    the voting tables and the check every write of a recovery text makes. *)
Record wf_snapshot (s : RoundSnapshot) : Prop := {
  wf_votes : NoDup (map fst (sn_votes s));
  wf_intents : NoDup (map fst (sn_intents s));
  wf_bundle b p vote : (b, p, vote) ∈ sn_votes s -> b ∈ map ds_bundle_index (sn_delegations s);
  wf_proposal b p vote r :
    (b, p, vote) ∈ sn_votes s -> vs_recovery vote = Some r -> vr_proposal_id r = p
}.

Definition row (s : RoundSnapshot) (b p : Z) (vote : VoteSnapshot) : Prop :=
  bt_get (b, p) (sn_votes s) = Some vote.

Lemma row_elem s b p vote : wf_snapshot s -> row s b p vote <-> (b, p, vote) ∈ sn_votes s.
Proof.
  intros Hs. split; [apply bt_get_elem|]. apply bt_get_intro, Hs.
Qed.

(** ** Units *)

(** Whether a vote row belongs to the batch with a digest. *)
Definition in_batch (s : RoundSnapshot) (b : Z) (digest : list Z) (p : Z) : Prop :=
  exists vote r, row s b p vote /\ vs_recovery vote = Some r /\ has_digest digest r = true.

(** A unit is one row, or all rows of its batch; its members are rows of its
    phase. *)
Record unit_ok (s : RoundSnapshot) (u : VoteUnit) : Prop := {
  uo_bundle : unit_id_bundle (vu_id u) = vu_bundle_index u;
  uo_nonempty : vu_members u <> [];
  uo_members m : m ∈ vu_members u -> exists vote,
    row s (vu_bundle_index u) (vm_proposal_id m) vote /\ vs_phase vote = vu_phase u
    /\ vs_recovery vote = vm_recovery m;
  uo_id : match vu_id u with
          | USingleton _ p => unit_proposal_ids u = [p]
          | UBatch b digest => forall p, p ∈ unit_proposal_ids u <-> in_batch s b digest p
          end
}.

Section grouping_units.
Context `{Externals} `{RecoveryExternals}.
Implicit Types (s : RoundSnapshot) (u : VoteUnit) (intents : list (Z * Decision)).

Lemma assembled round b digest candidates rs :
  assemble_vote_batch_recoveries round b digest candidates = Ok rs ->
  rs <> [] /\ rs ≡ₚ filter (fun r => has_digest digest r = true) candidates.
Proof.
  unfold assemble_vote_batch_recoveries, check_batch_members.
  pose proof (merge_sort_Permutation index_le
    (filter (fun r => has_digest digest r = true) candidates)) as Hp.
  destruct (merge_sort _ _) as [|first rest]; [done|].
  destruct (_ || _); [done|]. destruct (existsb _ _); [done|].
  destruct (assembled_digest _ _ _); [|done]. destruct (bool_decide _); [|done].
  intros [= <-]. by split.
Qed.

Lemma bundle_recoveries_elem s b r :
  r ∈ bundle_recoveries s b <-> exists p vote, (b, p, vote) ∈ sn_votes s /\ vs_recovery vote = Some r.
Proof.
  unfold bundle_recoveries. rewrite list_elem_of_omap. split.
  - intros ([[b' p] vote]&Hin&Hr). destruct (b' =? b) eqn:?; [|done].
    assert (b' = b) as -> by lia. eauto.
  - intros (p&vote&Hin&Hr). exists (b, p, vote). by rewrite Z.eqb_refl.
Qed.

Lemma assembled_member s b digest rs p :
  wf_snapshot s ->
  assemble_vote_batch_recoveries (sn_round_id s) b digest (bundle_recoveries s b) = Ok rs ->
  p ∈ map vr_proposal_id rs <-> in_batch s b digest p.
Proof.
  intros Hs [_ Hp]%assembled. rewrite list_elem_of_fmap. setoid_rewrite Hp.
  setoid_rewrite list_elem_of_filter. setoid_rewrite bundle_recoveries_elem. split.
  - intros (r&->&Hd&q&vote&Hin&Hr). rewrite (wf_proposal s Hs _ _ _ _ Hin Hr).
    exists vote, r. by rewrite row_elem.
  - intros (vote&r&Hrow&Hr&Hd). apply row_elem in Hrow; [|done].
    exists r. rewrite (wf_proposal s Hs _ _ _ _ Hrow Hr). split_and!; eauto.
Qed.

(** The member a recovery adds. *)
Definition member_of s (b : Z) (phase : VotePhase) (r : VoteRecoveryBundle) (m : VoteMember) : Prop :=
  vm_proposal_id m = vr_proposal_id r
  /\ exists vote, row s b (vr_proposal_id r) vote /\ vs_phase vote = phase
       /\ vs_recovery vote = vm_recovery m.

Lemma batch_member_step s intents b phase acc r :
  match batch_member s intents b phase acc r with
  | Ok acc' => exists m, acc'.2 = acc.2 ++ [m] /\ member_of s b phase r m
  | Err e => e <> PlanPanic
  end.
Proof.
  destruct acc as [shared members]. unfold batch_member.
  destruct (bt_get _ (sn_votes s)) as [vote|] eqn:Hrow; [|done]. cbn [ok_or].
  destruct (bool_decide (vs_phase vote = phase)) eqn:Hph; [|done].
  apply bool_decide_eq_true in Hph. cbn [negb]. destruct (_ || _); [done|].
  assert (member_of s b phase r (mk_member (vr_proposal_id r) (vs_recovery vote))) as Hm.
  { split; [done|]. by exists vote. }
  destruct (if bool_decide _ then _ else _) as [hash|]; [|by eexists].
  destruct shared as [expected|]; [|by eexists].
  destruct (bool_decide (expected = hash)); [by eexists|done].
Qed.

Lemma batch_members_spec s intents b phase rs :
  match try_fold (batch_member s intents b phase) (None, []) rs with
  | Ok (_, members) => Forall2 (member_of s b phase) rs members
  | Err e => e <> PlanPanic
  end.
Proof.
  pose proof (try_fold_spec (fun past acc => Forall2 (member_of s b phase) past acc.2)
    (fun e => e = PlanPanic) (batch_member s intents b phase) rs (None, [])
    ltac:(constructor)) as Hspec.
  destruct (try_fold _ _ _) as [[? members]|e]; (apply Hspec; intros past r rest acc _ Hi;
    pose proof (batch_member_step s intents b phase acc r) as Hstep;
    destruct (batch_member _ _ _ _ _ _); [|done];
    destruct Hstep as (m&->&Hm); by apply Forall2_app; [|constructor]).
Qed.

Lemma group_members_spec s b grouped members :
  match try_fold (group_member s b) grouped members with
  | Ok grouped' =>
      let keys := map (pair b) (map vm_proposal_id members) in
      NoDup keys /\ (forall k, k ∈ keys -> k ∉ grouped)
      /\ grouped' = list_to_set keys ∪ grouped
  | Err e => e <> PlanPanic
  end.
Proof.
  pose proof (try_fold_spec (fun past grouped' =>
      let keys := map (pair b) (map vm_proposal_id past) in
      NoDup keys /\ (forall k, k ∈ keys -> k ∉ grouped)
      /\ grouped' = list_to_set keys ∪ grouped)
    (fun e => e = PlanPanic) (group_member s b) members grouped) as Hspec.
  destruct (try_fold _ _ _) as [grouped'|e]; apply Hspec; clear Hspec;
    try (cbn; split_and!; [constructor|set_solver|set_solver]);
    intros past m rest g _ (Hnd&Hnew&->); unfold group_member;
    (case_bool_decide as Hin; [done|]); rewrite !map_app; cbn [map];
    (split_and!; [apply NoDup_app; split_and!; [done| |apply NoDup_singleton]| |]); set_solver.
Qed.

(** What the grouping loop has established of the votes it visited. *)
Record grouping s (past : list (Z * Z * VoteSnapshot)) (acc : list VoteUnit * gset (Z * Z)) : Prop := {
  gr_units : Forall (unit_ok s) acc.1;
  gr_nodup : NoDup (concat (map unit_keys acc.1));
  gr_keys k : k ∈ concat (map unit_keys acc.1) <->
    (exists vote, (k, vote) ∈ past /\ grouping_batch vote = None) \/ k ∈ acc.2;
  gr_grouped k : k ∈ acc.2 -> exists vote, bt_get k (sn_votes s) = Some vote /\ is_Some (grouping_batch vote);
  gr_batched k vote : (k, vote) ∈ past -> is_Some (grouping_batch vote) -> k ∈ acc.2
}.

Lemma unit_keys_concat (units : list VoteUnit) u :
  concat (map unit_keys (units ++ [u])) = concat (map unit_keys units) ++ unit_keys u.
Proof. rewrite map_app, concat_app. cbn. by rewrite app_nil_r. Qed.

Lemma singleton_ok s b p vote : row s b p vote -> unit_ok s (singleton_unit b p vote).
Proof.
  intros Hrow. split; cbn; try done.
  intros m ->%list_elem_of_singleton. by exists vote.
Qed.

Lemma grouping_batch_Some vote batch :
  grouping_batch vote = Some batch ->
  exists r, vs_recovery vote = Some r /\ vr_batch r = Some batch.
Proof.
  unfold grouping_batch. destruct (vs_phase vote); try done;
    destruct (vs_recovery vote) as [r|]; try done; by exists r.
Qed.

(** A row of the batch in a grouping phase is itself grouped. *)
Lemma in_batch_grouped s b digest p vote batch vote' :
  grouping_batch vote = Some batch -> row s b p vote' -> vs_phase vote' = vs_phase vote ->
  in_batch s b digest p -> is_Some (grouping_batch vote').
Proof.
  intros Hg Hrow Hph (v&r&Hv&Hr&Hd). assert (v = vote') as -> by (unfold row in *; congruence).
  unfold has_digest in Hd. unfold grouping_batch in *. rewrite Hph, Hr.
  destruct (vr_batch r) as [batch'|] eqn:Hb; [|done].
  destruct (vs_phase vote); try done; cbn; rewrite Hb; by eexists.
Qed.

Lemma batch_unit_ok s b digest vote rs members :
  wf_snapshot s ->
  assemble_vote_batch_recoveries (sn_round_id s) b digest (bundle_recoveries s b) = Ok rs ->
  Forall2 (member_of s b (vs_phase vote)) rs members ->
  unit_ok s (mk_unit (UBatch b digest) b members (vs_phase vote)).
Proof.
  intros Hs Hrs Hm. split; cbn; [done| | |].
  - intros ->. apply Forall2_nil_inv_r in Hm as ->. by apply assembled in Hrs as [? _].
  - intros m Hin. apply list_elem_of_lookup in Hin as [i Hi].
    destruct (Forall2_lookup_r _ _ _ _ _ Hm Hi) as (r&_&Hp&v&Hrow&Hph&Hrec).
    exists v. by rewrite Hp.
  - intros p. rewrite <- (assembled_member s b digest rs p Hs Hrs).
    enough (map vm_proposal_id members = map vr_proposal_id rs) as -> by done.
    clear Hrs. induction Hm as [|r m rs members [Hp _] _ IH]; [done|]. cbn. by rewrite Hp, IH.
Qed.

Lemma grouped_entry_again s past acc k vote :
  bt_get k (sn_votes s) = Some vote -> grouping s past acc -> k ∈ acc.2 ->
  grouping s (past ++ [(k, vote)]) acc.
Proof.
  intros Hrow [Hu Hnd Hk Hg Hb] Hin.
  assert (is_Some (grouping_batch vote)) as Hsome.
  { destruct (Hg k Hin) as (v&Hv&Hs). by simplify_eq. }
  split; try done.
  - intros k'. rewrite Hk. split; [|].
    + intros [(v&Hv&Hn)|]; [left; exists v; split; [by apply elem_of_app; left|done]|by right].
    + intros [(v&[Hv|Hv]%elem_of_app&Hn)|]; [left; by exists v| |by right].
      apply list_elem_of_singleton in Hv as [= -> ->]. by right.
  - intros k' v' [Hv|[= -> ->]%list_elem_of_singleton]%elem_of_app Hs; [by eapply Hb|done].
Qed.

Lemma grouping_singleton s past acc b p vote :
  row s b p vote -> grouping s past acc -> (b, p) ∉ map fst past -> (b, p) ∉ acc.2 ->
  grouping_batch vote = None ->
  grouping s (past ++ [(b, p, vote)]) (acc.1 ++ [singleton_unit b p vote], acc.2).
Proof.
  intros Hrow [Hu Hnd Hk Hg Hb] Hpast Hin Hn.
  assert (forall k, k ∈ unit_keys (singleton_unit b p vote) <-> k = (b, p)) as Hkeys.
  { intros k. cbn. by rewrite list_elem_of_singleton. }
  split; cbn [fst snd].
  - apply Forall_app. split; [done|]. constructor; [by apply singleton_ok|constructor].
  - rewrite unit_keys_concat. apply NoDup_app. split_and!; [done| |apply NoDup_singleton].
    intros k Hk' ->%Hkeys. apply Hk in Hk' as [(v&Hv&_)|?]; [|done].
    apply Hpast. by apply (list_elem_of_fmap_2 fst past (b, p, v)).
  - intros k. rewrite unit_keys_concat, elem_of_app, Hkeys, Hk. setoid_rewrite elem_of_app.
    setoid_rewrite list_elem_of_singleton. naive_solver.
  - done.
  - intros k v [Hv|[= -> ->]%list_elem_of_singleton]%elem_of_app Hs; [by eapply Hb|].
    rewrite Hn in Hs. by destruct Hs.
Qed.

Lemma unit_keys_elem u k : k ∈ unit_keys u <-> k.1 = vu_bundle_index u /\ k.2 ∈ unit_proposal_ids u.
Proof.
  unfold unit_keys. rewrite list_elem_of_fmap. destruct k as [b p]. cbn. naive_solver.
Qed.

Lemma grouping_batched s past acc b p vote batch members :
  wf_snapshot s -> row s b p vote -> grouping s past acc -> grouping_batch vote = Some batch ->
  let u := mk_unit (UBatch b (vb_digest batch)) b members (vs_phase vote) in
  unit_ok s u -> NoDup (unit_keys u) -> (forall k, k ∈ unit_keys u -> k ∉ acc.2) ->
  Forall (fun entry => entry ∈ sn_votes s) past ->
  grouping s (past ++ [(b, p, vote)]) (acc.1 ++ [u], list_to_set (unit_keys u) ∪ acc.2).
Proof.
  intros Hs Hrow [Hu Hnd Hk Hg Hb] Hbatch u Hok Hndu Hnew Hpast.
  assert (forall k, k ∈ unit_keys u -> exists v, bt_get k (sn_votes s) = Some v
    /\ is_Some (grouping_batch v)) as Hrows.
  { intros [b' q] [Hb' Hq]%unit_keys_elem. cbn in Hb', Hq. subst b'.
    pose proof (proj1 (uo_id s u Hok q) Hq) as Hib.
    apply list_elem_of_fmap in Hq as (m&->&Hm).
    destruct (uo_members s u Hok m Hm) as (v&Hv&Hph&_). exists v. split; [done|].
    by eapply (in_batch_grouped s b _ _ vote). }
  assert ((b, p) ∈ unit_keys u) as Hself.
  { apply unit_keys_elem. split; [done|]. apply (proj2 (uo_id s u Hok p)).
    destruct (grouping_batch_Some _ _ Hbatch) as (r&Hr&Hb'). exists vote, r. split_and!; try done.
    unfold has_digest. by rewrite Hb', bool_decide_eq_true. }
  split; cbn [fst snd].
  - apply Forall_app. split; [done|]. by constructor.
  - rewrite unit_keys_concat. apply NoDup_app. split_and!; [done| |done].
    intros k Hin Hku. apply Hk in Hin as [(v&Hv&Hn)|?]; [|by eapply Hnew].
    destruct (Hrows k Hku) as (v'&Hv'&[? Hsome]). rewrite list.Forall_forall in Hpast.
    apply Hpast in Hv. apply (bt_get_intro k v) in Hv; [|apply Hs]. by simplify_eq.
  - intros k. rewrite unit_keys_concat, elem_of_app, Hk, elem_of_union, elem_of_list_to_set.
    setoid_rewrite elem_of_app. setoid_rewrite list_elem_of_singleton. split; [naive_solver|].
    intros [(v&[Hv|[= -> ->]]&Hn)|Hin]; [left; left; by exists v|by simplify_eq|naive_solver].
  - intros k [Hku|Hin]%elem_of_union; [|by apply Hg].
    apply elem_of_list_to_set in Hku. by apply Hrows.
  - intros k v [Hv|[= -> ->]%list_elem_of_singleton]%elem_of_app Hsome; apply elem_of_union.
    + right. by eapply Hb.
    + left. by apply elem_of_list_to_set.
Qed.

Lemma group_vote_step s intents past entry rest acc :
  wf_snapshot s -> sn_votes s = past ++ entry :: rest -> grouping s past acc ->
  match group_vote s intents acc entry with
  | Ok acc' => grouping s (past ++ [entry]) acc'
  | Err e => e <> PlanPanic
  end.
Proof.
  intros Hs Hsplit Hg. destruct acc as [units grouped], entry as [[b p] vote].
  assert ((b, p, vote) ∈ sn_votes s) as Hin by (rewrite Hsplit; set_solver).
  assert ((b, p) ∉ map fst past) as Hpast.
  { pose proof (wf_votes s Hs) as Hnd. rewrite Hsplit, map_app in Hnd.
    apply NoDup_app in Hnd as (_&Hd&_). intros Hp. apply (Hd _ Hp). by constructor. }
  pose proof (proj2 (row_elem s b p vote Hs) Hin) as Hrow. unfold group_vote.
  case_bool_decide as Hgr; [by apply grouped_entry_again|].
  destruct (grouping_batch vote) as [batch|] eqn:Hbatch; [|by apply (grouping_singleton s past (units, grouped))].
  destruct (assemble_vote_batch_recoveries _ _ _ _) as [rs|] eqn:Hrs; cbn [map_err]; [|done].
  destruct (bool_decide (rs = [])); [done|].
  pose proof (batch_members_spec s intents b (vs_phase vote) rs) as Hms.
  destruct (try_fold (batch_member _ _ _ _) _ _) as [[shared members]|]; [|done].
  pose proof (group_members_spec s b grouped members) as Hgm.
  destruct (try_fold (group_member _ _) _ _) as [grouped'|]; [|done].
  destruct Hgm as (Hnd&Hnew&->).
  apply (grouping_batched s past (units, grouped)); try done.
  - by eapply batch_unit_ok.
  - apply list.Forall_forall. intros e He. rewrite Hsplit. set_solver.
Qed.

Lemma group_vote_units_spec s intents :
  wf_snapshot s ->
  match group_vote_units s intents with
  | Ok units => Forall (unit_ok s) units /\ concat (map unit_keys units) ≡ₚ map fst (sn_votes s)
  | Err e => e <> PlanPanic
  end.
Proof.
  intros Hs. unfold group_vote_units.
  pose proof (try_fold_spec (grouping s) (fun e => e = PlanPanic) (group_vote s intents)
    (sn_votes s) ([], ∅)) as Hspec.
  destruct (try_fold _ _ _) as [[units grouped]|e].
  - assert (grouping s (sn_votes s) (units, grouped)) as [Hu Hnd Hk Hg Hb].
    { apply Hspec; [split; cbn; [constructor|constructor|set_solver..]|].
      intros past entry rest acc Hsplit Hg. by eapply group_vote_step. }
    split; [done|]. apply NoDup_Permutation; [done|apply Hs|]. intros k. rewrite Hk. split.
    + intros [(v&Hv&_)|Hin]; [by apply (list_elem_of_fmap_2 fst _ (k, v))|].
      destruct (Hg k Hin) as (v&Hv&_). apply bt_get_elem in Hv.
      by apply (list_elem_of_fmap_2 fst _ (k, v)).
    + intros ([k' v]&->&Hv)%list_elem_of_fmap. cbn.
      destruct (grouping_batch v) eqn:Hgb; [right; by eapply Hb|left; by exists v].
  - apply Hspec; [split; cbn; [constructor|constructor|set_solver..]|].
    intros past entry rest acc Hsplit Hg. by eapply group_vote_step.
Qed.

(** Units: grouping partitions the votes: the units' rows, taken together,
    are exactly the vote rows, each once, every unit is one row or all rows of
    one batch, and the members of a unit are in its phase. *)
Theorem units_partition_votes s intents units :
  wf_snapshot s -> group_vote_units s intents = Ok units ->
  concat (map unit_keys units) ≡ₚ map fst (sn_votes s) /\ Forall (unit_ok s) units.
Proof.
  intros Hs Hu. pose proof (group_vote_units_spec s intents Hs) as Hspec. rewrite Hu in Hspec.
  naive_solver.
Qed.

(** The units of a snapshot, as the classifier receives them. *)
Record units_ok s (units : list VoteUnit) : Prop := {
  us_ok : Forall (unit_ok s) units;
  us_keys : concat (map unit_keys units) ≡ₚ map fst (sn_votes s)
}.

Lemma unit_at s units u : units_ok s units -> u ∈ units -> unit_ok s u.
Proof. intros [Hu _] Hin. by rewrite list.Forall_forall in Hu; apply Hu. Qed.

Lemma unit_same_key s units u u' k :
  wf_snapshot s -> units_ok s units -> u ∈ units -> u' ∈ units ->
  k ∈ unit_keys u -> k ∈ unit_keys u' -> u = u'.
Proof.
  intros Hs [_ Hk]. apply NoDup_concat_unique. rewrite Hk. apply Hs.
Qed.

Lemma unit_first_key s u :
  unit_ok s u -> exists p ps, unit_proposal_ids u = p :: ps /\ (vu_bundle_index u, p) ∈ unit_keys u.
Proof.
  intros [_ Hne _ _]. unfold unit_proposal_ids.
  destruct (vu_members u) as [|m ms] eqn:Hm; [done|]. exists (vm_proposal_id m), (map vm_proposal_id ms).
  split; [done|]. apply unit_keys_elem. unfold unit_proposal_ids. rewrite Hm. by split; [|constructor].
Qed.

Lemma unit_same_id s units u u' :
  wf_snapshot s -> units_ok s units -> u ∈ units -> u' ∈ units -> vu_id u = vu_id u' -> u = u'.
Proof.
  intros Hs Hok Hu Hu' Hid. pose proof (unit_at s units u Hok Hu) as Hou.
  pose proof (unit_at s units u' Hok Hu') as Hou'.
  destruct (unit_first_key s u Hou) as (p&ps&Hp&Hkey).
  apply (unit_same_key s units u u' _ Hs Hok Hu Hu' Hkey). apply unit_keys_elem. cbn.
  split; [rewrite <- (uo_bundle s u Hou), Hid; apply Hou'|].
  pose proof (uo_id s u Hou) as H1. pose proof (uo_id s u' Hou') as H2. rewrite Hid in H1.
  destruct (vu_id u') as [b q|b digest].
  - rewrite H2. rewrite Hp in H1. simplify_eq. by constructor.
  - apply H2, H1. rewrite Hp. by constructor.
Qed.

Lemma unit_key_row s u b p :
  unit_ok s u -> (b, p) ∈ unit_keys u ->
  b = vu_bundle_index u /\ exists vote, row s b p vote /\ vs_phase vote = vu_phase u.
Proof.
  intros Hu [Hb Hp]%unit_keys_elem. cbn in Hb, Hp. subst b. split; [done|].
  apply list_elem_of_fmap in Hp as (m&->&Hm).
  destruct (uo_members s u Hu m Hm) as (vote&?&?&_). by exists vote.
Qed.

Lemma unit_contains_spec u p : unit_contains u p = true <-> p ∈ unit_proposal_ids u.
Proof.
  unfold unit_contains, unit_proposal_ids. rewrite existsb_exists, list_elem_of_fmap.
  setoid_rewrite list_elem_of_In. split; intros (m&?&?); exists m; split; try done; lia.
Qed.

(** Every row is found in its unit. *)
Lemma unit_of_row s units b p vote :
  wf_snapshot s -> units_ok s units -> row s b p vote ->
  exists u, unit_of units b p = Ok u /\ u ∈ units /\ (b, p) ∈ unit_keys u /\ vu_phase u = vs_phase vote.
Proof.
  intros Hs Hok Hrow. assert ((b, p) ∈ concat (map unit_keys units)) as Hin.
  { rewrite (us_keys s units Hok). apply bt_get_is_Some. by exists vote. }
  apply elem_of_concat_map in Hin as (u&Hu&Hk). unfold unit_of.
  destruct (find _ units) as [u'|] eqn:Hfind; cbn [ok_or].
  - apply find_some in Hfind as [Hu' [Hb Hc]%andb_prop]. apply list_elem_of_In in Hu'.
    assert ((b, p) ∈ unit_keys u') as Hk'.
    { apply unit_keys_elem. cbn. split; [lia|]. by apply unit_contains_spec. }
    exists u'. split_and!; try done.
    destruct (unit_key_row s u' b p (unit_at s units u' Hok Hu') Hk') as (_&v&Hv&Hph).
    unfold row in *. by simplify_eq.
  - exfalso. apply list_elem_of_In in Hu. pose proof (find_none _ _ Hfind u Hu) as Hn.
    apply unit_keys_elem in Hk as [Hb Hp]. apply unit_contains_spec in Hp. cbn in Hb, Hp.
    cbn beta in Hn. rewrite Hp in Hn. lia.
Qed.
End grouping_units.

(** ** Chain work: reconciling units and delivering shares *)
Definition reconcile_id (o : Obligation) : option VoteUnitId :=
  match o with
  | OReconcileChain id _ _ _ _ _ => Some id
  | _ => None
  end.

Definition deliver_key (o : Obligation) : option (Z * Z) :=
  match o with
  | ODeliver b p _ _ _ => Some (b, p)
  | _ => None
  end.

Definition ballot_of (c : Pass) :=
  (cp_bundles_needing_delegation c, cp_drafts c, cp_blocked c, cp_withheld_casts c).

Section passes.
Context `{Externals} `{RecoveryExternals}.
Context (f : Facts).
Notation s := (f_snapshot f).
Notation units := (f_units f).
Context (Hs : wf_snapshot s) (Hu : units_ok s units).

Definition unit_hash (u : VoteUnit) : option string :=
  let anchor := default 0 (head (unit_proposal_ids u)) in
  match unit_batch_digest u with
  | Some digest => vote_batch_tx_hash s (vu_bundle_index u) digest anchor
  | None => vote_tx_hash s (vu_bundle_index u) anchor
  end.

(** The obligation that drives a unit through the chain lifecycle. *)
Definition reconciliation (u : VoteUnit) : Obligation :=
  OReconcileChain (vu_id u) (vu_bundle_index u) (unit_proposal_ids u)
    (bool_decide (position_of (Some (vu_phase u)) = Undispatched)) (unit_hash u) None.

(** A unit is driven when it may be on the chain, or when it is signed and the
    ballot agrees with every member. *)
Definition driven (u : VoteUnit) : Prop :=
  position_of (Some (vu_phase u)) = OnWire
  \/ position_of (Some (vu_phase u)) = Undispatched
     /\ every_member_agrees f (vu_bundle_index u) u = true.

(** The missing shares of a confirmed vote. *)
Definition delivery (b p : Z) (o : Obligation) : Prop :=
  exists vote position shares,
    row s b p vote /\ vs_phase vote = VConfirmed /\ missing_share_indexes s b p = Ok shares
    /\ shares <> [] /\ confirmed_tree_position s b p = Ok (Some position)
    /\ o = ODeliver b p position shares None.

Definition chain_work (o : Obligation) : Prop :=
  (exists u, u ∈ units /\ driven u /\ o = reconciliation u) \/ exists b p, delivery b p o.

Record chain_ok (base : list Obligation) (c : Pass) : Prop := {
  co_work o : o ∈ cp_obligations c -> o ∈ base \/ chain_work o;
  co_base o : o ∈ base -> o ∈ cp_obligations c;
  co_ids : omap reconcile_id (cp_obligations c) = rev (cp_reconciled_units c);
  co_ids_nodup : NoDup (cp_reconciled_units c);
  co_reconciled u : u ∈ units -> vu_id u ∈ cp_reconciled_units c -> reconciliation u ∈ cp_obligations c;
  co_keys : NoDup (omap deliver_key (cp_obligations c));
  co_keys_in k : k ∈ omap deliver_key (cp_obligations c) -> k ∈ cp_delivered_votes c;
  co_delivered b p : (b, p) ∈ cp_delivered_votes c ->
    missing_share_indexes s b p = Ok [] \/ exists o, o ∈ cp_obligations c /\ delivery b p o
}.

(** What later rounds never take back. *)
Definition grows (c c' : Pass) : Prop :=
  (forall id, id ∈ cp_reconciled_units c -> id ∈ cp_reconciled_units c')
  /\ cp_delivered_votes c ⊆ cp_delivered_votes c'.

Lemma grows_refl c : grows c c.
Proof. by split. Qed.

Lemma grows_trans c1 c2 c3 : grows c1 c2 -> grows c2 c3 -> grows c1 c3.
Proof. intros [? ?] [? ?]. split; [naive_solver|set_solver]. Qed.

Lemma anchor_of_unit u :
  u ∈ units -> anchor_proposal_id u = Ok (default 0 (head (unit_proposal_ids u))).
Proof.
  intros Hin. pose proof (uo_nonempty s u (unit_at s units u Hu Hin)) as Hne.
  unfold anchor_proposal_id, unit_proposal_ids. by destruct (vu_members u).
Qed.

Lemma reconcile_spec base c u :
  u ∈ units -> driven u -> chain_ok base c ->
  match reconcile s c u with
  | Ok c' => chain_ok base c' /\ vu_id u ∈ cp_reconciled_units c' /\ grows c c'
             /\ ballot_of c' = ballot_of c
  | Err e => e <> PlanPanic
  end.
Proof.
  intros Hin Hd Hc. unfold reconcile. destruct (if bool_decide _ then _ else _); [done|].
  case_bool_decide as Hid; [split_and!; [done|done|apply grows_refl|done]|].
  rewrite anchor_of_unit by done. fold (unit_hash u). fold (reconciliation u).
  destruct Hc as [Hw Hb Hids Hnd Hr Hk Hki Hdl].
  split_and!; [|cbn; by constructor|split; cbn; [by constructor|done]|done].
  split; cbn [cp_obligations push_obligation mark_reconciled cp_reconciled_units cp_delivered_votes].
  - intros o [Ho| ->%list_elem_of_singleton]%elem_of_app; [by apply Hw|]. right. left. by exists u.
  - intros o Ho. apply elem_of_app. left. by apply Hb.
  - rewrite omap_app, Hids. done.
  - by constructor.
  - intros u' Hu' [Heq|Hin']%elem_of_cons; apply elem_of_app; [right|left; by apply Hr].
    rewrite (unit_same_id s units u' u) by done. by constructor.
  - rewrite omap_app. cbn. by rewrite app_nil_r.
  - intros k. rewrite omap_app. cbn. rewrite app_nil_r. apply Hki.
  - intros b p Hdp. destruct (Hdl b p Hdp) as [|(o&Ho&Hdo)]; [by left|]. right. exists o.
    split; [|done]. apply elem_of_app. by left.
Qed.

Lemma tree_position_no_panic b p vote :
  row s b p vote -> confirmed_tree_position s b p <> Err PlanPanic.
Proof.
  intros Hrow. unfold confirmed_tree_position. rewrite Hrow.
  destruct (vs_recovery vote), (vs_vc_tree_position vote); try done. by destruct (_ <? _).
Qed.

Lemma missing_shares_no_panic b p : missing_share_indexes s b p <> Err PlanPanic.
Proof.
  unfold missing_share_indexes. destruct (bt_get _ _ ≫= vs_recovery); [|done].
  destruct (recover_payloads _); [|done]. cbn [map_err]. by destruct (bool_decide _).
Qed.

Lemma deliver_spec base c b p vote :
  row s b p vote -> vs_phase vote = VConfirmed -> chain_ok base c ->
  omap deliver_key base = [] ->
  match deliver s c b p with
  | Ok c' => chain_ok base c' /\ (b, p) ∈ cp_delivered_votes c' /\ grows c c'
             /\ ballot_of c' = ballot_of c
  | Err e => e <> PlanPanic
  end.
Proof.
  intros Hrow Hph Hc Hbase. unfold deliver.
  case_bool_decide as Hin; [split_and!; [done|done|apply grows_refl|done]|].
  pose proof (missing_shares_no_panic b p) as Hnp.
  destruct (missing_share_indexes s b p) as [shares|e] eqn:Hshares; [|congruence].
  destruct Hc as [Hw Hb Hids Hnd Hr Hk Hki Hdl].
  case_bool_decide as Hempty.
  { subst shares. split_and!; [|cbn; set_solver|split; cbn; [done|set_solver]|done].
    split; cbn; try done.
    - intros k Hk'. apply elem_of_union. right. by apply Hki.
    - intros b' p' [[= -> ->]%elem_of_singleton|Hd]%elem_of_union; [by left|by apply Hdl]. }
  pose proof (tree_position_no_panic b p vote Hrow) as Hnt.
  destruct (confirmed_tree_position s b p) as [[position|]|e] eqn:Hpos; cbn [ok_or];
    [|done|congruence].
  assert (delivery b p (ODeliver b p position shares None)) as Hdel
    by (by exists vote, position, shares).
  split_and!; [|cbn; set_solver|split; cbn; [done|set_solver]|done].
  split; cbn [cp_obligations push_obligation mark_delivered cp_reconciled_units cp_delivered_votes];
    try done.
  - intros o [Ho| ->%list_elem_of_singleton]%elem_of_app; [by apply Hw|]. right. right. by exists b, p.
  - intros o Ho. apply elem_of_app. left. by apply Hb.
  - rewrite omap_app. cbn. by rewrite app_nil_r.
  - intros u' Hu' Hid. apply elem_of_app. left. by apply Hr.
  - rewrite omap_app. cbn. apply NoDup_app. split_and!; [done| |apply NoDup_singleton].
    intros k Hk1 ->%list_elem_of_singleton. by apply Hin, Hki.
  - intros k. rewrite omap_app. cbn.
    intros [Hk1| ->%list_elem_of_singleton]%elem_of_app; apply elem_of_union; [right; by apply Hki|left].
    by apply elem_of_singleton.
  - intros b' p' [[= -> ->]%elem_of_singleton|Hd]%elem_of_union.
    + right. exists (ODeliver b p position shares None). split; [|done]. apply elem_of_app. right. by constructor.
    + destruct (Hdl b' p' Hd) as [|(o&Ho&Hdo)]; [by left|]. right. exists o.
      split; [|done]. apply elem_of_app. by left.
Qed.

(** ** The ballot: drafts, blocked bundles and withheld casts

    One round of the ballot loop visits a choice on a bundle. *)
Definition visit : Type := Z * Z * Z.

Definition needs_delegation (v : visit) : bool :=
  let '(p, choice, b) := v in cast_due f b p choice && negb (bool_decide (b ∈ f_held f)).

Definition is_drafted (v : visit) : bool :=
  needs_delegation v && negb (f_waits f) && f_roster_is_terminal f.

Definition is_blocked (v : visit) : bool :=
  needs_delegation v && negb (f_waits f) && negb (f_roster_is_terminal f).

(** A signed vote whose batch waits for a member the ballot has not decided. *)
Definition waits_for_member (b p : Z) : bool :=
  match bt_get (b, p) (sn_votes s) with
  | Some vote =>
      bool_decide (position_of (Some (vs_phase vote)) = Undispatched)
      && match unit_of units b p with
         | Ok u => negb (every_member_agrees f b u)
         | Err _ => false
         end
  | None => false
  end.

Definition is_withheld (v : visit) : bool :=
  let '(p, choice, b) := v in
  if cast_due f b p choice then negb (is_drafted v) else waits_for_member b p.

Definition draft_on (b : Z) (v : visit) : option CastDraft :=
  let '(p, choice, b') := v in
  if is_drafted v && (b' =? b) then Some (mk_draft p choice) else None.

Record ballot_ok (past : list visit) (c : Pass) : Prop := {
  bo_needing b : b ∈ cp_bundles_needing_delegation c <->
    exists p choice, (p, choice, b) ∈ past /\ needs_delegation (p, choice, b) = true;
  bo_drafts b : default [] (bt_get b (cp_drafts c)) = omap (draft_on b) past;
  bo_drafts_nonempty : Forall (fun entry => entry.2 <> []) (cp_drafts c);
  bo_drafts_sorted : StronglySorted Z.lt (map fst (cp_drafts c));
  bo_blocked b : b ∈ cp_blocked c <->
    exists p choice, (p, choice, b) ∈ past /\ is_blocked (p, choice, b) = true;
  bo_withheld p : p ∈ cp_withheld_casts c <->
    exists choice b, (p, choice, b) ∈ past /\ is_withheld (p, choice, b) = true
}.

(** The fields of one visit's result, against the ones before. *)
Record visited (v : visit) (c c' : Pass) : Prop := {
  vi_needing b : b ∈ cp_bundles_needing_delegation c' <->
    b ∈ cp_bundles_needing_delegation c \/ v.2 = b /\ needs_delegation v = true;
  vi_drafts : cp_drafts c' = if is_drafted v
    then zmap_insert v.2 (default [] (bt_get v.2 (cp_drafts c)) ++ [mk_draft v.1.1 v.1.2]) (cp_drafts c)
    else cp_drafts c;
  vi_blocked b : b ∈ cp_blocked c' <-> b ∈ cp_blocked c \/ v.2 = b /\ is_blocked v = true;
  vi_withheld p : p ∈ cp_withheld_casts c' <->
    p ∈ cp_withheld_casts c \/ v.1.1 = p /\ is_withheld v = true
}.

Lemma ballot_ok_visit past v c c' :
  ballot_ok past c -> visited v c c' -> ballot_ok (past ++ [v]) c'.
Proof.
  intros [Hn Hd Hne Hso Hb Hw] [Vn Vd Vb Vw]. destruct v as [[p choice] b]. cbn [fst snd] in *.
  split.
  - intros b'. rewrite Vn, Hn. setoid_rewrite elem_of_app. setoid_rewrite list_elem_of_singleton.
    naive_solver.
  - intros b'. rewrite omap_app, <- Hd, Vd. cbn [omap list_omap draft_on].
    destruct (is_drafted (p, choice, b)); cbn [andb]; [|by rewrite app_nil_r].
    rewrite zmap_insert_get. destruct (decide (b' = b)) as [->|Hne'].
    + by rewrite Z.eqb_refl.
    + rewrite (proj2 (Z.eqb_neq b b')) by done. by rewrite app_nil_r.
  - rewrite Vd. destruct (is_drafted _); [|done]. apply list.Forall_forall.
    intros e [->|He]%zmap_insert_elem; cbn.
    + by destruct (default _ _).
    + rewrite list.Forall_forall in Hne. by apply Hne.
  - rewrite Vd. destruct (is_drafted _); [by apply zmap_insert_sorted|done].
  - intros b'. rewrite Vb, Hb. setoid_rewrite elem_of_app. setoid_rewrite list_elem_of_singleton.
    naive_solver.
  - intros p'. rewrite Vw, Hw. setoid_rewrite elem_of_app. setoid_rewrite list_elem_of_singleton.
    naive_solver.
Qed.

Lemma plan_cast_visited p choice b c :
  cast_due f b p choice = true -> visited (p, choice, b) c (plan_cast f c b p choice).
Proof.
  intros Hdue. unfold plan_cast, need_delegation, withhold, add_draft, block_bundle.
  assert (needs_delegation (p, choice, b) = negb (bool_decide (b ∈ f_held f))) as Hn
    by (unfold needs_delegation; by rewrite Hdue).
  split; unfold is_drafted, is_blocked, is_withheld; cbn [fst snd]; rewrite ?Hdue; unfold is_drafted;
    rewrite Hn; destruct (bool_decide (b ∈ f_held f)), (f_waits f), (f_roster_is_terminal f);
    cbn [negb andb cp_bundles_needing_delegation cp_drafts cp_blocked cp_withheld_casts fst snd];
    try done; intros; rewrite ?zset_insert_elem, ?elem_of_union, ?elem_of_singleton; naive_solver.
Qed.

Lemma not_due_visited p choice b c c' :
  cast_due f b p choice = false -> ballot_of c' = ballot_of c -> waits_for_member b p = false ->
  visited (p, choice, b) c c'.
Proof.
  intros Hdue [= Hn Hd Hb Hw] Hm.
  assert (needs_delegation (p, choice, b) = false) as Hnd by (unfold needs_delegation; by rewrite Hdue).
  split; unfold is_drafted, is_blocked, is_withheld; cbn [fst snd]; rewrite ?Hdue, ?Hnd, ?Hm;
    cbn [andb]; rewrite ?Hn, ?Hd, ?Hb, ?Hw; try done; intros; naive_solver.
Qed.

Lemma waiting_visited p choice b c :
  cast_due f b p choice = false -> waits_for_member b p = true ->
  visited (p, choice, b) c (withhold c p).
Proof.
  intros Hdue Hm.
  assert (needs_delegation (p, choice, b) = false) as Hnd by (unfold needs_delegation; by rewrite Hdue).
  split; unfold is_drafted, is_blocked, is_withheld; cbn [fst snd withhold cp_bundles_needing_delegation
    cp_drafts cp_blocked cp_withheld_casts]; rewrite ?Hdue, ?Hnd, ?Hm; cbn [andb]; try done; intros;
    rewrite ?elem_of_union, ?elem_of_singleton; naive_solver.
Qed.

(** ** The loops *)

(** The chain work of a row has been planned. *)
Definition attended (c : Pass) (b p : Z) : Prop :=
  forall vote, row s b p vote ->
  match position_of (Some (vs_phase vote)) with
  | PosConfirmed => (b, p) ∈ cp_delivered_votes c
  | OnWire => forall u, u ∈ units -> (b, p) ∈ unit_keys u -> vu_id u ∈ cp_reconciled_units c
  | Undispatched => forall u, u ∈ units -> (b, p) ∈ unit_keys u ->
      every_member_agrees f b u = true -> vu_id u ∈ cp_reconciled_units c
  | Terminal | Uncast => True
  end.

Lemma attended_grows c c' b p : grows c c' -> attended c b p -> attended c' b p.
Proof.
  intros [Hr Hd] Ha vote Hrow. specialize (Ha vote Hrow).
  destruct (position_of _); naive_solver.
Qed.

Lemma confirmed_phase vote : position_of (Some (vs_phase vote)) = PosConfirmed -> vs_phase vote = VConfirmed.
Proof. by destruct (vs_phase vote). Qed.

Lemma driven_on_wire u : position_of (Some (vu_phase u)) = OnWire -> driven u.
Proof. by left. Qed.

(** Reconciling the unit of a row attends to it. *)
Lemma reconcile_row base c b p vote :
  row s b p vote -> chain_ok base c ->
  (position_of (Some (vs_phase vote)) = OnWire
   \/ position_of (Some (vs_phase vote)) = Undispatched
      /\ forall u, unit_of units b p = Ok u -> every_member_agrees f b u = true) ->
  exists u, unit_of units b p = Ok u /\
  match reconcile s c u with
  | Ok c' => chain_ok base c' /\ attended c' b p /\ grows c c' /\ ballot_of c' = ballot_of c
  | Err e => e <> PlanPanic
  end.
Proof.
  intros Hrow Hc Hpos.
  destruct (unit_of_row s units b p vote Hs Hu Hrow) as (u&Hof&Hin&Hk&Hph).
  exists u. split; [done|].
  assert (driven u) as Hd.
  { unfold driven. rewrite Hph. destruct Hpos as [|[Hun Hag]]; [by left|right]. split; [done|].
    destruct (unit_key_row s u b p (unit_at s units u Hu Hin) Hk) as [<- _]. by apply Hag. }
  pose proof (reconcile_spec base c u Hin Hd Hc) as Hspec.
  destruct (reconcile s c u) as [c'|]; [|done]. destruct Hspec as (Hc'&Hid&Hg&Hbal).
  split_and!; try done. intros vote' Hrow'. unfold row in *. simplify_eq.
  destruct Hpos as [-> |[-> _]]; intros; by rewrite (unit_same_key s units u0 u (b, p)).
Qed.

Lemma choice_step base c p choice b :
  omap deliver_key base = [] -> chain_ok base c ->
  match choice_on_bundle f p choice c b with
  | Ok c' => chain_ok base c' /\ visited (p, choice, b) c c' /\ grows c c'
             /\ (cast_due f b p choice = false -> attended c' b p)
  | Err e => e <> PlanPanic
  end.
Proof.
  intros Hbase Hc. unfold choice_on_bundle. destruct (cast_due f b p choice) eqn:Hdue.
  { split_and!; [|by apply plan_cast_visited| |done];
      unfold plan_cast; repeat case_match; destruct Hc; by split. }
  destruct (bt_get (b, p) (sn_votes s)) as [vote|] eqn:Hrow;
    [|unfold cast_due in Hdue; by rewrite Hrow in Hdue].
  assert (position_of (Some (vs_phase vote)) <> Undispatched -> waits_for_member b p = false) as Hnw.
  { intros Hne. unfold waits_for_member. rewrite Hrow. by rewrite bool_decide_eq_false_2. }
  assert (position_of (Some (vs_phase vote)) = Terminal \/ position_of (Some (vs_phase vote)) = Uncast ->
    attended c b p) as Htriv.
  { intros Hor vote' Hrow'. unfold row in Hrow'. simplify_eq. by destruct Hor as [-> | ->]. }
  destruct (position_of (Some (vs_phase vote))) eqn:Hpos.
  - split_and!; [done|by apply not_due_visited; [| |apply Hnw]|apply grows_refl|].
    intros _. by apply Htriv; right.
  - destruct (unit_of_row s units b p vote Hs Hu Hrow) as (u&Hof&Hin&Hk&Hph). rewrite Hof.
    destruct (every_member_agrees f b u) eqn:Hag.
    + destruct (reconcile_row base c b p vote Hrow Hc) as (u'&Hof'&Hrec).
      { right. split; [done|]. intros u' Hu'. congruence. }
      assert (u' = u) as -> by congruence. destruct (reconcile s c u) as [c'|]; [|done].
      destruct Hrec as (?&?&?&Hbal). split_and!; try done. apply not_due_visited; try done.
      unfold waits_for_member. rewrite Hrow, Hof, Hag. by rewrite andb_false_r.
    + split_and!.
      * destruct Hc; by split.
      * apply waiting_visited; [done|]. unfold waits_for_member. rewrite Hrow, Hof, Hag, Hpos.
        by rewrite bool_decide_eq_true_2.
      * by split.
      * intros _ vote' Hrow'. unfold row in Hrow'. simplify_eq. rewrite Hpos.
        intros u' Hu' Hk' Hag'. rewrite (unit_same_key s units u' u (b, p)) in Hag' by done. congruence.
  - destruct (reconcile_row base c b p vote Hrow Hc) as (u&Hof&Hrec); [by left|]. rewrite Hof.
    destruct (reconcile s c u) as [c'|]; [|done].
    destruct Hrec as (?&?&?&Hbal). split_and!; try done.
    by apply not_due_visited; [| |apply Hnw].
  - split_and!; [done|by apply not_due_visited; [| |apply Hnw]|apply grows_refl|].
    intros _. by apply Htriv; left.
  - pose proof (deliver_spec base c b p vote Hrow (confirmed_phase _ Hpos) Hc Hbase) as Hdel.
    destruct (deliver s c b p) as [c'|]; [|done]. destruct Hdel as (?&Hin&?&Hbal).
    split_and!; try done; [by apply not_due_visited; [| |apply Hnw]|].
    intros _ vote' Hrow'. unfold row in Hrow'. simplify_eq. by rewrite Hpos.
Qed.

(** The visits of the ballot loop, in order. *)
Definition visits_of (bundles : list Z) (p : Z) : list visit :=
  match bt_get p (sn_intents s) with
  | Some (Choice choice) => map (fun b => (p, choice, b)) bundles
  | _ => []
  end.

Definition visits (bundles choices : list Z) : list visit := concat (map (visits_of bundles) choices).

Lemma visits_elem bundles choices p choice b :
  (p, choice, b) ∈ visits bundles choices <->
  p ∈ choices /\ b ∈ bundles /\ bt_get p (sn_intents s) = Some (Choice choice).
Proof.
  unfold visits. rewrite elem_of_concat_map. unfold visits_of. split.
  - intros (q&Hq&Hin). destruct (bt_get q _) as [[ch|]|] eqn:Hi; try by apply elem_of_nil in Hin.
    apply list_elem_of_fmap in Hin as (b'&[= -> -> ->]&?). done.
  - intros (Hp&Hb&Hi). exists p. rewrite Hi. split; [done|]. apply list_elem_of_fmap. by exists b.
Qed.

Lemma choice_pass_flat bundles c choices :
  try_fold (choice_pass f bundles) c choices
  = try_fold (fun c '(p, choice, b) => choice_on_bundle f p choice c b) c (visits bundles choices).
Proof.
  unfold visits. rewrite <- try_fold_concat. apply try_fold_ext. intros c' p _.
  unfold choice_pass, visits_of. destruct (bt_get p _) as [[choice|]|]; [|done|done].
  clear. revert c'. induction bundles as [|b bundles IH]; intros c'; cbn; [done|].
  destruct (choice_on_bundle f p choice c' b); [apply IH|done].
Qed.

Definition after_ballot (base : list Obligation) (past : list visit) (c : Pass) : Prop :=
  chain_ok base c /\ ballot_ok past c
  /\ forall p choice b, (p, choice, b) ∈ past -> cast_due f b p choice = false -> attended c b p.

Lemma choice_pass_spec base bundles choices :
  omap deliver_key base = [] -> omap reconcile_id base = [] ->
  match try_fold (choice_pass f bundles) (mk_pass base [] ∅ ∅ [] [] ∅) choices with
  | Ok c => after_ballot base (visits bundles choices) c
  | Err e => e <> PlanPanic
  end.
Proof.
  intros Hbd Hbr. rewrite choice_pass_flat.
  apply (try_fold_spec (after_ballot base) (fun e => e = PlanPanic)).
  { split_and!; [split; cbn; try done| |by intros ? ? ? ?%elem_of_nil].
    - intros o Ho. by left.
    - constructor.
    - by intros u _ ?%elem_of_nil.
    - rewrite Hbd. constructor.
    - intros k. rewrite Hbd. by intros ?%elem_of_nil.
    - split; cbn; [set_solver|done|constructor|apply SSorted_nil|set_solver|set_solver]. }
  intros past [[p choice] b] rest c _ (Hc&Hb&Ha).
  pose proof (choice_step base c p choice b Hbd Hc) as Hstep.
  destruct (choice_on_bundle f p choice c b) as [c'|]; [|done].
  destruct Hstep as (Hc'&Hv&Hg&Ha'). split_and!; [done|by eapply ballot_ok_visit|].
  intros p' ch' b' [Hin|[= -> -> ->]%list_elem_of_singleton]%elem_of_app Hdue; [|by apply Ha'].
  eapply attended_grows; [done|]. by eapply Ha.
Qed.

(** The second loop attends to every row outside the ballot. *)
Lemma wire_step base c b p vote :
  row s b p vote -> omap deliver_key base = [] -> chain_ok base c ->
  match wire_pass f c (b, p, vote) with
  | Ok c' => chain_ok base c' /\ grows c c' /\ ballot_of c' = ballot_of c
      /\ (is_Some (bt_get p (sn_intents s)) /\ p ∈ f_roster f \/ attended c' b p
          \/ position_of (Some (vs_phase vote)) = Undispatched)
  | Err e => e <> PlanPanic
  end.
Proof.
  intros Hrow Hbase Hc. unfold wire_pass.
  destruct (bool_decide _ && bool_decide _) eqn:Hskip.
  { apply andb_prop in Hskip as [H1%bool_decide_eq_true H2%bool_decide_eq_true].
    split_and!; [done|apply grows_refl|done|by left]. }
  assert (position_of (Some (vs_phase vote)) = Terminal \/ position_of (Some (vs_phase vote)) = Uncast ->
    attended c b p) as Htriv.
  { intros Hor vote' Hrow'. unfold row in *. simplify_eq. by destruct Hor as [-> | ->]. }
  destruct (position_of (Some (vs_phase vote))) eqn:Hpos.
  - split_and!; [done|apply grows_refl|done|right; left]. by apply Htriv; right.
  - split_and!; [done|apply grows_refl|done|by right; right].
  - destruct (reconcile_row base c b p vote Hrow Hc) as (u&Hof&Hrec); [by left|]. rewrite Hof.
    destruct (reconcile s c u) as [c'|]; [|done]. destruct Hrec as (?&?&?&?).
    split_and!; try done. right. by left.
  - split_and!; [done|apply grows_refl|done|right; left]. by apply Htriv; left.
  - pose proof (deliver_spec base c b p vote Hrow (confirmed_phase _ Hpos) Hc Hbase) as Hdel.
    destruct (deliver s c b p) as [c'|]; [|done]. destruct Hdel as (?&Hin&?&?).
    split_and!; try done. right. left. intros vote' Hrow'. unfold row in *. simplify_eq. by rewrite Hpos.
Qed.

Lemma ballot_ok_same past c c' : ballot_of c' = ballot_of c -> ballot_ok past c -> ballot_ok past c'.
Proof.
  intros [= Hn Hd Hb Hw] [? ? ? ? ? ?]. split; rewrite ?Hn, ?Hd, ?Hb, ?Hw; done.
Qed.

Definition after_wire (base : list Obligation) (vs : list visit)
    (past : list (Z * Z * VoteSnapshot)) (c : Pass) : Prop :=
  after_ballot base vs c
  /\ forall b p vote, (b, p, vote) ∈ past ->
       is_Some (bt_get p (sn_intents s)) /\ p ∈ f_roster f \/ attended c b p
       \/ position_of (Some (vs_phase vote)) = Undispatched.

Lemma wire_pass_spec base vs c :
  omap deliver_key base = [] -> after_ballot base vs c ->
  match try_fold (wire_pass f) c (sn_votes s) with
  | Ok c' => after_wire base vs (sn_votes s) c'
  | Err e => e <> PlanPanic
  end.
Proof.
  intros Hbase Hab. apply (try_fold_spec (after_wire base vs) (fun e => e = PlanPanic)).
  { split; [done|]. by intros ? ? ? ?%elem_of_nil. }
  intros past [[b p] vote] rest c0 Hsplit [(Hc&Hb&Ha) Hw].
  assert (row s b p vote) as Hrow by (apply row_elem; [done|]; rewrite Hsplit; set_solver).
  pose proof (wire_step base c0 b p vote Hrow Hbase Hc) as Hstep.
  destruct (wire_pass f c0 (b, p, vote)) as [c'|]; [|done].
  destruct Hstep as (Hc'&Hg&Hbal&Hat). split; [split_and!; [done|by eapply ballot_ok_same|]|].
  - intros p' ch' b' Hin Hdue. eapply attended_grows; [done|]. by eapply Ha.
  - intros b' p' vote' [Hin|[= -> -> ->]%list_elem_of_singleton]%elem_of_app; [|done].
    destruct (Hw b' p' vote' Hin) as [?|[?|?]]; [by left| |by right; right].
    right. left. by eapply attended_grows.
Qed.
End passes.
