(* ===== verification/RoundRules.v ===== *)
(** * The rules of round planning

    The classifier of [RoundPlanning] against the rule table of its
    documentation, [docs/round_orchestration_invariants.md]: which obligations
    a round owes, which casts are withheld, and that the loops of the code find
    exactly these, each once. From the table follow the guarantees a voter
    relies on: no cast competes with a vote the chain may have seen, work on
    the chain survives every roster and ballot, no choice is lost, and a unit
    that left the roster is retired whole. *)

From Stdlib Require Import ZifyBool.
From stdpp Require Import base gmap strings list numbers sorting.
From S2P Require Import Prelude Ordered Identity Outcome Lifecycle Record Confirmation Rows Store Planning VoteRecovery SharePolicy RoundPlanning RoundPlanningProofs.
Local Open Scope Z_scope.
Local Open Scope voting_scope.

(** ** The rule table *)
Section rules.
Context `{Externals} `{RecoveryExternals}.
Implicit Types (s : RoundSnapshot) (units : list VoteUnit).

(** The facts the classifier computes before its loops. *)
Definition facts_of s units (ballot : BallotIntentClassification) : Facts :=
  let stale := stale_vote_keys s in
  let retirable := retirable_vote_keys units (bc_roster ballot) in
  mk_facts s units (bc_roster ballot) stale retirable (held_bundles s stale retirable)
    (imported_round_waits_for_delegations s)
    (bool_decide (bc_open_proposals ballot = [])
     && bool_decide (clearable_intents s (bc_unrostered_intents ballot) = [])).

Record ballot_exact s (ids : list Z) (ballot : BallotIntentClassification) : Prop := {
  be_roster p : p ∈ bc_roster ballot <-> p ∈ ids;
  be_choices p : p ∈ bc_choice_proposals ballot <-> p ∈ ids /\ has_choice (sn_intents s) p = true;
  be_open p : p ∈ bc_open_proposals ballot <-> p ∈ ids /\ bt_get p (sn_intents s) = None;
  be_unrostered p : p ∈ bc_unrostered_intents ballot <-> is_Some (bt_get p (sn_intents s)) /\ p ∉ ids;
  be_sorted : StronglySorted Z.lt (bc_choice_proposals ballot)
}.

Lemma sorted_filter (P : Z -> Prop) `{!forall z, base.Decision (P z)} l :
  StronglySorted Z.lt l -> StronglySorted Z.lt (filter P l).
Proof.
  induction 1 as [|z l Hl IH Hz]; [apply SSorted_nil|]. rewrite filter_cons. case_decide; [|done].
  constructor; [done|]. rewrite list.Forall_forall in Hz. apply list.Forall_forall.
  intros x [_ Hx]%list_elem_of_filter. by apply Hz.
Qed.

Lemma classify_ballot_spec s ids :
  match classify_ballot_intents ids (sn_intents s) with
  | Ok ballot => ballot_exact s ids ballot
  | Err e => e <> PlanPanic
  end.
Proof.
  unfold classify_ballot_intents.
  pose proof (try_fold_spec (fun past roster => StronglySorted Z.lt roster
      /\ forall p, p ∈ roster <-> p ∈ past) (fun e => e = PlanPanic) roster_insert ids []) as Hspec.
  assert (match try_fold roster_insert [] ids with
          | Ok roster => StronglySorted Z.lt roster /\ forall p, p ∈ roster <-> p ∈ ids
          | Err e => e <> PlanPanic
          end) as Hr.
  { apply Hspec; clear Hspec; [split; [apply SSorted_nil|done]|].
    intros past p rest roster _ [Hso Hin]. unfold roster_insert.
    destruct (validate_proposal_id p); [|done]. cbn [map_err]. case_bool_decide; [done|].
    split; [by apply zset_insert_sorted|]. intros q.
    rewrite zset_insert_elem, elem_of_app, list_elem_of_singleton, Hin. tauto. }
  destruct (try_fold roster_insert [] ids) as [roster|]; [|done]. destruct Hr as [Hso Hin].
  split; cbn [bc_roster bc_choice_proposals bc_open_proposals bc_unrostered_intents].
  - done.
  - intros p. rewrite list_elem_of_filter, Hin. tauto.
  - intros p. rewrite list_elem_of_filter, Hin. tauto.
  - intros p. rewrite list_elem_of_filter, bt_get_is_Some, Hin. tauto.
  - by apply sorted_filter.
Qed.

(** The delegations by bundle. *)
Lemma delegation_map_keys s b :
  b ∈ map fst (delegation_map s) <-> b ∈ map ds_bundle_index (sn_delegations s).
Proof.
  unfold delegation_map.
  enough (forall m, b ∈ map fst (foldl (fun m st => zmap_insert (ds_bundle_index st) (ds_phase st) m) m
    (sn_delegations s)) <-> b ∈ map fst m \/ b ∈ map ds_bundle_index (sn_delegations s)) as Hm.
  { rewrite Hm. cbn. set_solver. }
  induction (sn_delegations s) as [|st l IH]; intros m; cbn; [set_solver|].
  rewrite IH, elem_of_cons, <- !bt_get_is_Some, zmap_insert_get. case_decide; naive_solver.
Qed.

Lemma delegation_map_sorted s : StronglySorted Z.lt (map fst (delegation_map s)).
Proof.
  unfold delegation_map.
  enough (forall m, StronglySorted Z.lt (map fst m) -> StronglySorted Z.lt (map fst
    (foldl (fun m st => zmap_insert (ds_bundle_index st) (ds_phase st) m) m (sn_delegations s)))) as Hm
    by apply (Hm []), SSorted_nil.
  induction (sn_delegations s) as [|st l IH]; intros m Hso; cbn; [done|].
  by apply IH, zmap_insert_sorted.
Qed.

Lemma sorted_lt_NoDup l : StronglySorted Z.lt l -> NoDup l.
Proof.
  induction 1 as [|z l _ IH Hz]; constructor; [|done].
  intros Hin. rewrite list.Forall_forall in Hz. specialize (Hz z Hin). lia.
Qed.

(** A delegation is advanced while it is in flight, and asked for when a cast
    on its bundle needs it; a combined cast carries its own. *)
Definition delegation_work_due s (needing : Z -> Prop) (b : Z) (phase : DelegationPhase)
    (o : Obligation) : Prop :=
  combined_bundle s b = false
  /\ ((phase = DSubmitted \/ phase = DSubmissionManaged)
      /\ (exists bundle, bt_get b (sn_bundles s) = Some bundle
          /\ o = OAdvanceDelegation b (bs_capability_imported bundle) phase (delegation_tx_hash s b))
      \/ (phase = DPrepared \/ phase = DPcztBuilt) /\ needing b /\ o = ODelegate b).

Definition delegations_done s (needing : gset Z) (past : list (Z * DelegationPhase))
    (acc : gset Z * list Obligation) : Prop :=
  (forall o, o ∈ acc.2 <-> exists b phase, (b, phase) ∈ past
     /\ delegation_work_due s (fun b => b ∈ needing) b phase o)
  /\ forall b, b ∈ acc.1 <-> exists o, o ∈ acc.2 /\ obligation_bundle_index o = b.

Lemma elem_of_snoc {A} (x y : A) l : x ∈ l ++ [y] <-> x ∈ l \/ x = y.
Proof. by rewrite elem_of_app, list_elem_of_singleton. Qed.

Lemma delegations_skip s needing past b phase acc :
  delegations_done s needing past acc ->
  (forall o, ~ delegation_work_due s (fun b => b ∈ needing) b phase o) ->
  delegations_done s needing (past ++ [(b, phase)]) acc.
Proof.
  intros [Ho Hb] Hno. split; [|done]. intros o. rewrite Ho. split.
  - intros (b'&ph&Hin&Hd). exists b', ph. rewrite elem_of_snoc. by split; [left|].
  - intros (b'&ph&[Hin|[= -> ->]]%elem_of_snoc&Hd); [by exists b', ph|by apply Hno in Hd].
Qed.

Lemma delegations_add s needing past b phase acc new :
  delegations_done s needing past acc ->
  (forall o, delegation_work_due s (fun b => b ∈ needing) b phase o <-> o = new) ->
  obligation_bundle_index new = b ->
  delegations_done s needing (past ++ [(b, phase)]) ({[b]} ∪ acc.1, acc.2 ++ [new]).
Proof.
  intros [Ho Hb] Hnew Hnb. split; cbn [fst snd].
  - intros o. rewrite elem_of_snoc, Ho. split.
    + intros [(b'&ph&Hin&Hd)| ->].
      * exists b', ph. rewrite elem_of_snoc. by split; [left|].
      * exists b, phase. rewrite elem_of_snoc. split; [by right|by apply Hnew].
    + intros (b'&ph&[Hin|[= -> ->]]%elem_of_snoc&Hd); [left; by exists b', ph|right; by apply Hnew].
  - intros b'. rewrite elem_of_union, elem_of_singleton, Hb. split.
    + intros [-> |(o&Hin&Hob)]; [exists new|exists o]; rewrite elem_of_snoc; tauto.
    + intros (o&[Hin| ->]%elem_of_snoc&Hob); [right; by exists o|left; by subst].
Qed.

Lemma delegation_pass_spec s needing :
  match try_fold (delegation_pass s needing) (∅, []) (delegation_map s) with
  | Ok acc => delegations_done s needing (delegation_map s) acc
  | Err e => e <> PlanPanic
  end.
Proof.
  apply (try_fold_spec (delegations_done s needing) (fun e => e = PlanPanic));
    [split; cbn; set_solver|].
  intros past [b phase] rest acc _ Hacc. unfold delegation_pass.
  destruct (combined_bundle s b) eqn:Hcomb;
    [apply delegations_skip; [done|]; intros o [? _]; congruence|].
  assert (phase <> DSubmitted -> phase <> DSubmissionManaged -> phase <> DPrepared ->
    phase <> DPcztBuilt -> delegations_done s needing (past ++ [(b, phase)]) acc) as Hskip.
  { intros. apply delegations_skip; [done|]. intros o (_&[[[?|?] _]|[[?|?] _]]); congruence. }
  assert ((phase = DSubmitted \/ phase = DSubmissionManaged) ->
    match bt_get b (sn_bundles s) with
    | Some bundle => delegations_done s needing (past ++ [(b, phase)]) ({[b]} ∪ acc.1,
        acc.2 ++ [OAdvanceDelegation b (bs_capability_imported bundle) phase (delegation_tx_hash s b)])
    | None => True
    end) as Hadvance.
  { intros Hph. destruct (bt_get b (sn_bundles s)) as [bundle|] eqn:Hbd; [|done].
    apply delegations_add; [done| |done]. intros o. split.
    - intros (_&[[_ (bd&Hbd'&->)]|[[-> | ->] _]]); [by simplify_eq|by destruct Hph..].
    - intros ->. split; [done|]. left. split; [done|]. by exists bundle. }
  assert ((phase = DPrepared \/ phase = DPcztBuilt) ->
    if bool_decide (b ∈ needing)
    then delegations_done s needing (past ++ [(b, phase)]) ({[b]} ∪ acc.1, acc.2 ++ [ODelegate b])
    else delegations_done s needing (past ++ [(b, phase)]) acc) as Hask.
  { intros Hph. case_bool_decide as Hin.
    - apply delegations_add; [done| |done]. intros o. split.
      + intros (_&[[[-> | ->] _]|(_&_&->)]); [by destruct Hph..|done].
      + intros ->. split; [done|]. by right.
    - apply delegations_skip; [done|].
      intros o (_&[[[-> | ->] _]|(_&?&_)]); [by destruct Hph..|done]. }
  destruct phase; try (by apply Hskip).
  - specialize (Hask ltac:(by left)). by case_bool_decide.
  - specialize (Hask ltac:(by right)). by case_bool_decide.
  - specialize (Hadvance ltac:(by left)). by destruct (bt_get b (sn_bundles s)).
  - specialize (Hadvance ltac:(by right)). by destruct (bt_get b (sn_bundles s)).
Qed.

(** The obligations of a round, before their prerequisites are filled in. *)
Inductive owed s units (ballot : BallotIntentClassification) : Obligation -> Prop :=
| owed_retire u :
    u ∈ units -> retired_unit (bc_roster ballot) u = true ->
    owed s units ballot (ORetire (vu_id u) (unit_proposal_ids u))
| owed_reconcile u :
    u ∈ units -> driven (facts_of s units ballot) u ->
    owed s units ballot (reconciliation (facts_of s units ballot) u)
| owed_deliver b p o :
    delivery (facts_of s units ballot) b p o -> owed s units ballot o
| owed_cast b drafts :
    drafts = omap (draft_on (facts_of s units ballot) b)
      (visits (facts_of s units ballot) (map fst (delegation_map s)) (bc_choice_proposals ballot)) ->
    drafts <> [] ->
    owed s units ballot (OCast b drafts None (cast_signs_delegation s b))
| owed_blocked b p choice :
    p ∈ bc_choice_proposals ballot -> b ∈ map fst (delegation_map s) ->
    bt_get p (sn_intents s) = Some (Choice choice) ->
    is_blocked (facts_of s units ballot) (p, choice, b) = true ->
    owed s units ballot (OBlocked b
      (if bool_decide (bc_open_proposals ballot <> []) then OpenBallot (bc_open_proposals ballot)
       else UnrosteredIntents (clearable_intents s (bc_unrostered_intents ballot))))
| owed_delegation b phase o :
    (b, phase) ∈ delegation_map s ->
    delegation_work_due s (fun b => exists p choice, p ∈ bc_choice_proposals ballot
        /\ b ∈ map fst (delegation_map s) /\ bt_get p (sn_intents s) = Some (Choice choice)
        /\ needs_delegation (facts_of s units ballot) (p, choice, b) = true) b phase o ->
    owed s units ballot o
| owed_confirm entry o :
    entry ∈ sn_share_phases s -> confirmation s (stale_vote_keys s) entry = Some o ->
    owed s units ballot o.

Definition is_delegation_work (o : Obligation) : bool :=
  match o with
  | ODelegate _ | OAdvanceDelegation _ _ _ _ => true
  | _ => false
  end.

(** The bundle has delegation work. *)
Definition delegating s units ballot (b : Z) : Prop :=
  exists o, owed s units ballot o /\ is_delegation_work o = true /\ obligation_bundle_index o = b.

(** An obligation waits for the delegation work of its own bundle. *)
Definition waits_for s units ballot (o : Obligation) (blocked : option Z) : Prop :=
  blocked = Some (obligation_bundle_index o) /\ delegating s units ballot (obligation_bundle_index o)
  \/ blocked = None /\ ~ delegating s units ballot (obligation_bundle_index o).

Lemma stale_elem s b p vote :
  wf_snapshot s -> row s b p vote ->
  (b, p) ∈ stale_vote_keys s <-> ballot_relation (sn_intents s) p (vs_choice vote) = Conflicts.
Proof.
  intros Hs Hrow. unfold stale_vote_keys. rewrite elem_of_list_to_set, list_elem_of_fmap. split.
  - intros ([[b' p'] v]&[= -> ->]&[Hst Hin]%list_elem_of_filter). apply row_elem in Hin; [|done].
    unfold row in *. simplify_eq. unfold is_stale in Hst. by apply bool_decide_eq_true in Hst.
  - intros Hc. exists (b, p, vote). split; [done|]. apply list_elem_of_filter. split.
    + unfold is_stale. by apply bool_decide_eq_true.
    + by apply row_elem.
Qed.

Lemma no_conflict s b p vote :
  wf_snapshot s -> conflicting_vote s = None -> row s b p vote ->
  vote_phase_is_lifecycle_owned (vs_phase vote) = true -> (b, p) ∉ stale_vote_keys s.
Proof.
  intros Hs Hc Hrow Hown Hst%(stale_elem s b p vote Hs Hrow).
  unfold conflicting_vote in Hc. apply fmap_None in Hc.
  apply row_elem in Hrow as Hin; [|done]. apply list_elem_of_In in Hin.
  pose proof (find_none _ _ Hc _ Hin) as Hn. cbn [fst snd is_stale] in Hn.
  rewrite Hst, Hown in Hn. by rewrite bool_decide_eq_true_2 in Hn.
Qed.

Lemma retirable_elem units roster k :
  k ∈ retirable_vote_keys units roster <->
  exists u, u ∈ units /\ retired_unit roster u = true /\ k ∈ unit_keys u.
Proof.
  unfold retirable_vote_keys. rewrite elem_of_list_to_set, elem_of_concat_map.
  setoid_rewrite list_elem_of_filter. naive_solver.
Qed.

Lemma retired_undispatched roster u :
  retired_unit roster u = true -> position_of (Some (vu_phase u)) = Undispatched.
Proof. unfold retired_unit. intros [? _]%andb_prop. by eapply bool_decide_eq_true. Qed.

(** A row the ballot agrees with, and that is neither uncast nor retired, is
    not cast again. *)
Lemma agreed_not_due s units ballot b p vote choice :
  wf_snapshot s -> row s b p vote ->
  (b, p) ∉ stale_vote_keys s -> bt_get p (sn_intents s) = Some (Choice choice) ->
  (b, p) ∉ retirable_vote_keys units (bc_roster ballot) ->
  position_of (Some (vs_phase vote)) <> Uncast ->
  cast_due (facts_of s units ballot) b p choice = false.
Proof.
  intros Hs Hrow Hst Hi Hret Hpos. unfold cast_due. cbn [f_snapshot facts_of f_stale f_retirable].
  rewrite Hrow. rewrite !(bool_decide_eq_false_2 _) by done. cbn [orb]. rewrite !orb_false_r.
  rewrite (stale_elem s b p vote Hs Hrow) in Hst. unfold ballot_relation in Hst. rewrite Hi in Hst.
  destruct (choice =? vs_choice vote) eqn:?; [|done]. lia.
Qed.

(** A row outside the roster or the recorded ballot is left to the second loop. *)
Lemma attended_row s units ballot ids base c b p vote :
  wf_snapshot s -> units_ok s units -> ballot_exact s ids ballot -> conflicting_vote s = None ->
  let f := facts_of s units ballot in
  after_wire f base (visits f (map fst (delegation_map s)) (bc_choice_proposals ballot)) (sn_votes s) c ->
  row s b p vote ->
  vote_phase_is_lifecycle_owned (vs_phase vote) = true
  \/ (p ∈ ids /\ ballot_relation (sn_intents s) p (vs_choice vote) = Agrees
      /\ position_of (Some (vs_phase vote)) = Undispatched
      /\ (b, p) ∉ retirable_vote_keys units (bc_roster ballot)) ->
  attended f c b p.
Proof.
  intros Hs Hu Hbe Hnc f [(_&_&Hat) Hwire] Hrow Hcase.
  assert (forall choice, p ∈ ids -> bt_get p (sn_intents s) = Some (Choice choice) ->
    (b, p) ∉ stale_vote_keys s -> (b, p) ∉ retirable_vote_keys units (bc_roster ballot) ->
    position_of (Some (vs_phase vote)) <> Uncast -> attended f c b p) as Hvisit.
  { intros choice Hp Hi Hst Hret Hpos. eapply (Hat p choice b).
    - apply visits_elem. split_and!; [|apply delegation_map_keys|done].
      + apply (be_choices s ids ballot Hbe). unfold has_choice. by rewrite Hi.
      + apply row_elem in Hrow; [|done]. by eapply wf_bundle.
    - by eapply (agreed_not_due s units ballot b p vote). }
  destruct Hcase as [Hown|(Hp&Hag&Hpos&Hret)].
  - pose proof (no_conflict s b p vote Hs Hnc Hrow Hown) as Hst.
    assert ((b, p) ∉ retirable_vote_keys units (bc_roster ballot)) as Hret.
    { intros (u&Hin&Hr%retired_undispatched&Hk)%retirable_elem.
      destruct (unit_key_row s u b p (unit_at s units u Hu Hin) Hk) as (_&v&Hv&Hph).
      unfold row in *. simplify_eq. unfold vote_phase_is_lifecycle_owned in Hown.
      by rewrite Hph, Hr in Hown. }
    apply row_elem in Hrow as Hin; [|done].
    destruct (Hwire b p vote Hin) as [[[d Hi] Hp]|[?|Hun]]; [|done|].
    + apply (be_roster s ids ballot Hbe) in Hp. destruct d as [choice|].
      * eapply Hvisit; try done. intros Hpos. unfold vote_phase_is_lifecycle_owned in Hown.
        by rewrite Hpos in Hown.
      * exfalso. apply Hst, (stale_elem s b p vote Hs Hrow). unfold ballot_relation.
        cbn in Hi. by rewrite Hi.
    + unfold vote_phase_is_lifecycle_owned in Hown. by rewrite Hun in Hown.
  - unfold ballot_relation in Hag. destruct (bt_get p (sn_intents s)) as [[choice|]|] eqn:Hi; try done.
    eapply Hvisit; try done; [|congruence].
    intros Hst%(stale_elem s b p vote Hs Hrow). unfold ballot_relation in Hst. rewrite Hi in Hst.
    by destruct (choice =? vs_choice vote).
Qed.

Definition cast_bundle (o : Obligation) : option Z :=
  match o with
  | OCast b _ _ _ => Some b
  | _ => None
  end.

(** The classifier's result against the rule table. *)
Record follows_rules s units ballot (o : RoundObligations) : Prop := {
  ex_no_conflict : conflicting_vote s = None;
  ex_obligations : exists blocked,
    (forall y, waits_for s units ballot y (blocked y))
    /\ forall x, x ∈ ro_obligations o <->
         exists y, owed s units ballot y /\ x = with_prerequisite (blocked y) y;
  ex_reconcile_once : NoDup (omap reconcile_id (ro_obligations o));
  ex_deliver_once : NoDup (omap deliver_key (ro_obligations o));
  ex_cast_once : NoDup (omap cast_bundle (ro_obligations o));
  ex_withheld p : p ∈ ro_withheld_casts o <->
    p ∈ bc_choice_proposals ballot /\ exists choice b, b ∈ map fst (delegation_map s)
      /\ bt_get p (sn_intents s) = Some (Choice choice)
      /\ is_withheld (facts_of s units ballot) (p, choice, b) = true;
  ex_confirmed b p vote : row s b p vote -> vs_phase vote = VConfirmed ->
    missing_share_indexes s b p = Ok []
    \/ exists y, owed s units ballot y /\ delivery (facts_of s units ballot) b p y;
  ex_stale : ro_stale_vote_keys o = stale_vote_keys s;
  ex_setup : ro_needs_bundle_setup o = false
}.

Lemma with_prerequisite_same {B} (g : Obligation -> option B) (blocked : Obligation -> option Z) l :
  (forall bl o, g (with_prerequisite bl o) = g o) ->
  omap g (map (fun o => with_prerequisite (blocked o) o) l) = omap g l.
Proof.
  intros Hg. induction l as [|o l IH]; [done|]. cbn. rewrite Hg. destruct (g o); cbn; by rewrite ?IH.
Qed.

Lemma omap_none {A B} (g : A -> option B) l : (forall a, a ∈ l -> g a = None) -> omap g l = [].
Proof.
  induction l as [|a l IH]; intros Hg; [done|]. cbn. rewrite Hg by constructor.
  apply IH. intros. apply Hg. by constructor.
Qed.

Lemma retirements_elem units roster o :
  o ∈ retirements units roster <->
  exists u, u ∈ units /\ retired_unit roster u = true /\ o = ORetire (vu_id u) (unit_proposal_ids u).
Proof.
  unfold retirements. rewrite list_elem_of_fmap. setoid_rewrite list_elem_of_filter. naive_solver.
Qed.

Lemma every_member_agrees_elem f b u p :
  every_member_agrees f b u = true -> p ∈ unit_proposal_ids u ->
  p ∈ f_roster f /\ exists vote, row (f_snapshot f) b p vote
    /\ ballot_relation (sn_intents (f_snapshot f)) p (vs_choice vote) = Agrees.
Proof.
  unfold every_member_agrees. rewrite forallb_forall.
  intros Hag (m&->&Hm)%list_elem_of_fmap. apply list_elem_of_In in Hm.
  specialize (Hag m Hm). apply andb_prop in Hag as [Hro%bool_decide_eq_true Hrel].
  split; [done|]. destruct (bt_get _ _) as [vote|] eqn:Hrow; [|done]. exists vote. split; [done|].
  by apply bool_decide_eq_true in Hrel.
Qed.

Lemma agreeing_not_retired f b u :
  every_member_agrees f b u = true -> retired_unit (f_roster f) u = false.
Proof.
  intros Hag. unfold retired_unit, roster_relation.
  rewrite (proj2 (forallb_forall _ _)); [by rewrite andb_false_r|].
  intros p Hp. apply bool_decide_eq_true. apply list_elem_of_In in Hp.
  by eapply every_member_agrees_elem.
Qed.

(** The first part of the result: retirements and chain work. *)
Lemma chain_part s units ballot ids c o :
  wf_snapshot s -> units_ok s units -> ballot_exact s ids ballot -> conflicting_vote s = None ->
  let f := facts_of s units ballot in
  after_wire f (retirements units (bc_roster ballot))
    (visits f (map fst (delegation_map s)) (bc_choice_proposals ballot)) (sn_votes s) c ->
  o ∈ cp_obligations c <->
  o ∈ retirements units (bc_roster ballot) \/ chain_work f o.
Proof.
  intros Hs Hu Hbe Hnc f Haw. pose proof Haw as [([Hw Hb _ _ Hr _ _ Hd]&_&_) _].
  split; [by apply Hw|]. intros [Ho|[(u&Hin&Hdr&->)|(b&p&Hdel)]]; [by apply Hb| |].
  - apply Hr; [done|]. pose proof (unit_at s units u Hu Hin) as Hok.
    destruct (unit_first_key s u Hok) as (p&ps&Hp&Hk).
    destruct (unit_key_row s u _ p Hok Hk) as (_&vote&Hrow&Hph).
    assert (attended f c (vu_bundle_index u) p) as Hat.
    { eapply (attended_row s units ballot ids); try done.
      destruct Hdr as [Hwire|[Hun Hag]]; [left|right].
      - unfold vote_phase_is_lifecycle_owned. by rewrite Hph, Hwire.
      - assert (p ∈ unit_proposal_ids u) as Hpu by (rewrite Hp; constructor).
        destruct (every_member_agrees_elem f _ u p Hag Hpu) as (Hro&v&Hv&Hrel).
        change (f_snapshot f) with s in Hv, Hrel. unfold row in *. simplify_eq.
        split_and!; [by apply (be_roster s ids ballot Hbe)|done|congruence|].
        intros (u'&Hin'&Hret&Hk')%retirable_elem.
        rewrite (unit_same_key s units u' u _ Hs Hu Hin' Hin Hk' Hk) in Hret.
        pose proof (agreeing_not_retired f _ u Hag) as Hnr. change (f_roster f) with (bc_roster ballot) in Hnr.
        congruence. }
    specialize (Hat vote Hrow). rewrite Hph in Hat.
    destruct Hdr as [Hwire|[Hun Hag]]; [rewrite Hwire in Hat|rewrite Hun in Hat]; by apply Hat.
  - pose proof Hdel as (vote&position&shares&Hrow&Hph&Hms&Hne&Hpos&->).
    assert (attended f c b p) as Hat.
    { eapply (attended_row s units ballot ids); try done. left.
      unfold vote_phase_is_lifecycle_owned. by rewrite Hph. }
    specialize (Hat vote Hrow). rewrite Hph in Hat.
    destruct (Hd b p Hat) as [Hnil|(o&Ho&vote'&pos'&sh'&_&_&Hms'&_&Hpos'&->)]; [congruence|].
    cbn [f_snapshot facts_of] in *. congruence.
Qed.

(** The casts are the drafts of each bundle that has some. *)
Lemma casts_elem s f vs c o :
  ballot_ok f vs c ->
  o ∈ casts s (cp_drafts c) <->
  exists b, omap (draft_on f b) vs <> []
    /\ o = OCast b (omap (draft_on f b) vs) None (cast_signs_delegation s b).
Proof.
  intros [_ Hd Hne Hso _ _]. unfold casts. rewrite list_elem_of_fmap. split.
  - intros ([b ds]&->&Hin). rewrite list.Forall_forall in Hne. pose proof (Hne _ Hin) as Hne'.
    apply bt_get_intro in Hin; [|by apply sorted_lt_NoDup]. exists b.
    specialize (Hd b). rewrite Hin in Hd. cbn in Hd, Hne'. by rewrite <- Hd.
  - intros (b&Hds&->). specialize (Hd b). destruct (bt_get b (cp_drafts c)) as [ds|] eqn:Hb; [|by subst].
    cbn in Hd. subst. exists (b, omap (draft_on f b) vs). split; [done|]. by apply bt_get_elem.
Qed.

Lemma casts_once s drafts :
  StronglySorted Z.lt (map fst drafts) -> NoDup (omap cast_bundle (casts s drafts)).
Proof.
  intros Hso%sorted_lt_NoDup. enough (omap cast_bundle (casts s drafts) = map fst drafts) as -> by done.
  clear. induction drafts as [|[b ds] l IH]; [done|]. cbn. f_equal. apply IH.
Qed.

Lemma blocked_casts_elem ballot unrostered f vs c o :
  ballot_ok f vs c ->
  o ∈ blocked_casts (bc_open_proposals ballot) unrostered (cp_blocked c) <->
  exists b p choice, (p, choice, b) ∈ vs /\ is_blocked f (p, choice, b) = true
    /\ o = OBlocked b (if bool_decide (bc_open_proposals ballot <> [])
                       then OpenBallot (bc_open_proposals ballot) else UnrosteredIntents unrostered).
Proof.
  intros [_ _ _ _ Hb _]. unfold blocked_casts. rewrite list_elem_of_fmap. setoid_rewrite Hb.
  naive_solver.
Qed.

Lemma confirmations_elem s o :
  o ∈ omap (confirmation s (stale_vote_keys s)) (sn_share_phases s) <->
  exists entry, entry ∈ sn_share_phases s /\ confirmation s (stale_vote_keys s) entry = Some o.
Proof. apply list_elem_of_omap. Qed.

Lemma advance_is_delegation s needing b phase o :
  delegation_work_due s needing b phase o ->
  is_delegation_work o = true /\ obligation_bundle_index o = b.
Proof. intros (_&[(_&bd&_&->)|(_&_&->)]); done. Qed.

Lemma delegation_due_iff s (P Q : Z -> Prop) b phase o :
  (forall b, P b <-> Q b) -> delegation_work_due s P b phase o <-> delegation_work_due s Q b phase o.
Proof. intros HPQ. unfold delegation_work_due. by rewrite HPQ. Qed.

Lemma confirmation_shape s stale entry o :
  confirmation s stale entry = Some o -> exists b p share a u, o = OConfirm b p share a u None.
Proof.
  destruct entry as [[[b p] share] phase]. unfold confirmation.
  destruct (bool_decide _); [done|]. destruct phase; [|done]. intros [= <-]. by repeat eexists.
Qed.

(** All obligations, before their prerequisites. *)
Lemma obligations_exact s units ballot ids c bundles advances o :
  wf_snapshot s -> units_ok s units -> ballot_exact s ids ballot -> conflicting_vote s = None ->
  let f := facts_of s units ballot in
  after_wire f (retirements units (bc_roster ballot))
    (visits f (map fst (delegation_map s)) (bc_choice_proposals ballot)) (sn_votes s) c ->
  delegations_done s (cp_bundles_needing_delegation c) (delegation_map s) (bundles, advances) ->
  o ∈ cp_obligations c ++ casts s (cp_drafts c)
      ++ blocked_casts (bc_open_proposals ballot)
           (clearable_intents s (bc_unrostered_intents ballot)) (cp_blocked c)
      ++ advances ++ omap (confirmation s (stale_vote_keys s)) (sn_share_phases s)
  <-> owed s units ballot o.
Proof.
  intros Hs Hu Hbe Hnc f Haw [Hadv _]. cbn [fst snd] in Hadv.
  pose proof (chain_part s units ballot ids c o Hs Hu Hbe Hnc Haw) as Hchain.
  pose proof Haw as [(_&Hbal&_) _]. fold f in Hchain.
  rewrite !elem_of_app, Hchain, (casts_elem s f _ c o Hbal), (blocked_casts_elem ballot _ f _ c o Hbal),
    Hadv, confirmations_elem, retirements_elem. unfold chain_work.
  assert (forall b, b ∈ cp_bundles_needing_delegation c <-> exists p choice,
    p ∈ bc_choice_proposals ballot /\ b ∈ map fst (delegation_map s)
    /\ bt_get p (sn_intents s) = Some (Choice choice)
    /\ needs_delegation f (p, choice, b) = true) as Hneed.
  { intros b. rewrite (bo_needing f _ c Hbal b). setoid_rewrite visits_elem.
    change (f_snapshot f) with s. naive_solver. }
  setoid_rewrite (delegation_due_iff s _ _ _ _ _ Hneed). setoid_rewrite visits_elem.
  change (f_snapshot f) with s. split.
  - intros [[(u&?&?&->)|[(u&?&?&->)|(b&p&?)]]|[(b&?&->)|[(b&p&choice&(?&?&?)&?&->)|[(b&ph&?&?)|(e&?&?)]]]].
    + by apply owed_retire.
    + by apply owed_reconcile.
    + by eapply owed_deliver.
    + by eapply owed_cast.
    + by eapply owed_blocked.
    + by eapply owed_delegation.
    + by eapply owed_confirm.
  - destruct 1 as [u ? ?|u ? ?|b p o' ?|b drafts -> ?|b p choice ? ? ? ?|b ph o' ? ?|e o' ? ?].
    + left. left. by exists u.
    + left. right. left. by exists u.
    + left. right. right. by exists b, p.
    + right. left. by exists b.
    + right. right. left. by exists b, p, choice.
    + right. right. right. left. by exists b, ph.
    + right. right. right. right. by exists e.
Qed.

Lemma delegating_iff s units ballot c (advances : list Obligation) :
  let f := facts_of s units ballot in
  ballot_ok f (visits f (map fst (delegation_map s)) (bc_choice_proposals ballot)) c ->
  (forall o, o ∈ advances <-> exists b phase, (b, phase) ∈ delegation_map s
     /\ delegation_work_due s (fun b => b ∈ cp_bundles_needing_delegation c) b phase o) ->
  forall b, delegating s units ballot b <-> exists o, o ∈ advances /\ obligation_bundle_index o = b.
Proof.
  intros f Hbal Hadv b.
  assert (forall b, b ∈ cp_bundles_needing_delegation c <-> exists p choice,
    p ∈ bc_choice_proposals ballot /\ b ∈ map fst (delegation_map s)
    /\ bt_get p (sn_intents s) = Some (Choice choice)
    /\ needs_delegation f (p, choice, b) = true) as Hneed.
  { intros b'. rewrite (bo_needing f _ c Hbal b'). setoid_rewrite visits_elem.
    change (f_snapshot f) with s. naive_solver. }
  setoid_rewrite Hadv. setoid_rewrite (delegation_due_iff s _ _ _ _ _ Hneed). split.
  - intros (o&Ho&Hd&Hb). exists o. split; [|done].
    destruct Ho as [u ? ?|u ? ?|b' p o' Hdel|b' drafts ? ?|b' p choice ? ? ? ?|b' ph o' ? ?|e o' ? Hc];
      try done; [by destruct Hdel as (?&?&?&?&?&?&?&?&->)|by exists b', ph|].
    by apply confirmation_shape in Hc as (?&?&?&?&?&->).
  - intros (o&(b'&ph&Hin&Hdue)&Hb). exists o. split; [by eapply owed_delegation|].
    split; [|done]. by eapply advance_is_delegation.
Qed.

(** Only the chain loops make reconciliations and deliveries, and only the
    drafts make casts. *)
Lemma kinds_of_parts s units ballot c (advances : list Obligation) open unrostered :
  let f := facts_of s units ballot in
  after_wire f (retirements units (bc_roster ballot))
    (visits f (map fst (delegation_map s)) (bc_choice_proposals ballot)) (sn_votes s) c ->
  (forall o, o ∈ advances -> is_delegation_work o = true) ->
  let all := cp_obligations c ++ casts s (cp_drafts c) ++ blocked_casts open unrostered (cp_blocked c)
    ++ advances ++ omap (confirmation s (stale_vote_keys s)) (sn_share_phases s) in
  omap reconcile_id all = omap reconcile_id (cp_obligations c)
  /\ omap deliver_key all = omap deliver_key (cp_obligations c)
  /\ omap cast_bundle all = omap cast_bundle (casts s (cp_drafts c)).
Proof.
  intros f [([Hw _ _ _ _ _ _ _]&_&_) _] Hadv all. subst all. rewrite !omap_app.
  assert (forall o, o ∈ casts s (cp_drafts c) -> exists b ds x, o = OCast b ds None x) as Hcasts.
  { intros o ([b ds]&->&_)%list_elem_of_fmap. by eexists _, _, _. }
  assert (forall o, o ∈ blocked_casts open unrostered (cp_blocked c) -> exists b r, o = OBlocked b r) as Hbl.
  { intros o (b&->&_)%list_elem_of_fmap. by eexists _, _. }
  assert (forall o, o ∈ omap (confirmation s (stale_vote_keys s)) (sn_share_phases s) ->
    exists b p sh a u, o = OConfirm b p sh a u None) as Hco.
  { intros o (e&_&He)%confirmations_elem. by eapply confirmation_shape. }
  assert (forall o, o ∈ cp_obligations c -> cast_bundle o = None) as Hch.
  { intros o [(u&_&_&->)%retirements_elem|[(u&_&_&->)|(b&p&Hdel)]]%Hw; [done|done|].
    by destruct Hdel as (?&?&?&?&?&?&?&?&->). }
  rewrite (omap_none reconcile_id (casts _ _)), (omap_none deliver_key (casts _ _)),
    (omap_none reconcile_id (blocked_casts _ _ _)), (omap_none deliver_key (blocked_casts _ _ _)),
    (omap_none cast_bundle (blocked_casts _ _ _)), (omap_none cast_bundle (cp_obligations c)),
    (omap_none reconcile_id (omap _ _)), (omap_none deliver_key (omap _ _)),
    (omap_none cast_bundle (omap _ _)), (omap_none reconcile_id advances),
    (omap_none deliver_key advances), (omap_none cast_bundle advances); rewrite ?app_nil_r; try done.
  all: intros o Ho; first [by apply Hco in Ho as (?&?&?&?&?&->)|by apply Hbl in Ho as (?&?&->)
    |by apply Hcasts in Ho as (?&?&?&->)|apply Hadv in Ho; by destruct o].
Qed.

Lemma classify_spec s units ballot ids :
  wf_snapshot s -> units_ok s units -> ballot_exact s ids ballot ->
  match classify s units ballot with
  | Ok o => follows_rules s units ballot o
  | Err e => e <> PlanPanic
  end.
Proof.
  intros Hs Hu Hbe. unfold classify. fold (facts_of s units ballot). set (f := facts_of s units ballot).
  destruct (conflicting_vote s) as [[]|] eqn:Hnc; [done|].
  set (base := retirements units (bc_roster ballot)).
  assert (omap deliver_key base = [] /\ omap reconcile_id base = []) as [Hbd Hbr].
  { split; apply omap_none; by intros o (u&_&_&->)%retirements_elem. }
  pose proof (choice_pass_spec f Hs Hu base (map fst (delegation_map s)) (bc_choice_proposals ballot)
    Hbd Hbr) as Hchoice.
  destruct (try_fold (choice_pass _ _) _ _) as [c0|]; [|done].
  pose proof (wire_pass_spec f Hs Hu base _ c0 Hbd Hchoice) as Haw. change (f_snapshot f) with s in Haw.
  destruct (try_fold (wire_pass f) c0 (sn_votes s)) as [c|]; [|done].
  pose proof (delegation_pass_spec s (cp_bundles_needing_delegation c)) as Hdp.
  destruct (try_fold (delegation_pass _ _) _ _) as [[bundles advances]|]; [|done].
  pose proof Hdp as [Hadv Hbund]. cbn [fst snd] in Hadv, Hbund.
  pose proof Haw as [(Hch&Hbal&_) _].
  pose proof (delegating_iff s units ballot c advances Hbal Hadv) as Hdel.
  assert (forall o, o ∈ advances -> is_delegation_work o = true) as Hadk.
  { intros o (b&ph&_&Hdue)%Hadv. by eapply advance_is_delegation. }
  pose proof (kinds_of_parts s units ballot c advances (bc_open_proposals ballot)
    (clearable_intents s (bc_unrostered_intents ballot)) Haw Hadk) as (Hk1&Hk2&Hk3).
  split; cbn [ro_obligations ro_withheld_casts ro_stale_vote_keys ro_needs_bundle_setup]; try done.
  - exists (blocked_by bundles). split.
    + intros y. unfold waits_for, blocked_by. rewrite Hdel, <- Hbund. case_bool_decide; tauto.
    + intros x. rewrite list_elem_of_fmap.
      setoid_rewrite (fun o => obligations_exact s units ballot ids c bundles advances o Hs Hu Hbe Hnc Haw Hdp).
      naive_solver.
  - rewrite with_prerequisite_same by (by intros ? []). rewrite Hk1, (co_ids f base c Hch).
    apply NoDup_ListNoDup, NoDup_rev, NoDup_ListNoDup, (co_ids_nodup f base c Hch).
  - rewrite with_prerequisite_same by (by intros ? []). rewrite Hk2. apply (co_keys f base c Hch).
  - rewrite with_prerequisite_same by (by intros ? []). rewrite Hk3.
    apply casts_once, (bo_drafts_sorted f _ c Hbal).
  - intros p. rewrite (bo_withheld f _ c Hbal p). setoid_rewrite visits_elem.
    change (f_snapshot f) with s. naive_solver.
  - intros b p vote Hrow Hph.
    assert (attended f c b p) as Hat.
    { eapply (attended_row s units ballot ids); try done. left.
      unfold vote_phase_is_lifecycle_owned. by rewrite Hph. }
    specialize (Hat vote Hrow). rewrite Hph in Hat.
    destruct (co_delivered f base c Hch b p Hat) as [|(y&_&Hy)]; [by left|right].
    exists y. split; [by eapply owed_deliver|done].
Qed.

(** ** Classifying a round *)
Lemma classify_round_spec s ids :
  wf_snapshot s ->
  match classify_round s ids with
  | Ok o =>
      exists ballot, classify_ballot_intents ids (sn_intents s) = Ok ballot /\ ballot_exact s ids ballot /\
      (sn_delegations s = []
         /\ o = mk_obligations [] (bc_choice_proposals ballot) (bc_open_proposals ballot)
                  (bc_unrostered_intents ballot) ∅ true (list_to_set (bc_choice_proposals ballot)) ∅
       \/ exists units, group_vote_units s (sn_intents s) = Ok units /\ units_ok s units
            /\ follows_rules s units ballot o)
  | Err e => e <> PlanPanic
  end.
Proof.
  intros Hs. unfold classify_round. pose proof (classify_ballot_spec s ids) as Hb.
  destruct (classify_ballot_intents _ _) as [ballot|]; [|done].
  destruct (bool_decide (bc_choice_proposals ballot <> [])
    && bool_decide (sn_delegations s = [])) eqn:Hset.
  { apply andb_prop in Hset as [_ Hd%bool_decide_eq_true]. exists ballot. by split_and!; [..|left]. }
  pose proof (group_vote_units_spec s (sn_intents s) Hs) as Hg.
  destruct (group_vote_units _ _) as [units|]; [|done]. destruct Hg as [Hok Hk].
  assert (units_ok s units) as Hu by done.
  pose proof (classify_spec s units ballot ids Hs Hu Hb) as Hc.
  destruct (classify s units ballot) as [o|]; [|done]. exists ballot. split_and!; [done..|]. right.
  by exists units.
Qed.


(** The rules behind a classified round. *)
Lemma classified s ids o :
  wf_snapshot s -> classify_round s ids = Ok o ->
  (exists x, x ∈ ro_obligations o) \/ sn_delegations s <> [] ->
  exists ballot units, ballot_exact s ids ballot /\ group_vote_units s (sn_intents s) = Ok units
    /\ units_ok s units /\ follows_rules s units ballot o.
Proof.
  intros Hs Ho Hx. pose proof (classify_round_spec s ids Hs) as Hspec. rewrite Ho in Hspec.
  destruct Hspec as (ballot&?&?&[[? ->]|(units&?&?&?)]); [|by exists ballot, units].
  destruct Hx as [[x Hx]|?]; [by apply elem_of_nil in Hx|done].
Qed.

Lemma row_needs_bundles s b p vote : wf_snapshot s -> row s b p vote -> sn_delegations s <> [].
Proof.
  intros Hs Hrow Hnil. apply row_elem in Hrow; [|done]. apply (wf_bundle s Hs) in Hrow.
  rewrite Hnil in Hrow. by apply elem_of_nil in Hrow.
Qed.

Lemma owed_planned s units ballot o y :
  follows_rules s units ballot o -> owed s units ballot y ->
  exists blocked, with_prerequisite blocked y ∈ ro_obligations o.
Proof.
  intros Hr Hy. destruct (ex_obligations s units ballot o Hr) as (blocked&_&Hx).
  exists (blocked y). apply Hx. by exists y.
Qed.

Lemma planned_owed s units ballot o x :
  follows_rules s units ballot o -> x ∈ ro_obligations o ->
  exists y blocked, owed s units ballot y /\ x = with_prerequisite blocked y.
Proof.
  intros Hr Hx. destruct (ex_obligations s units ballot o Hr) as (blocked&_&Hb).
  destruct (proj1 (Hb x) Hx) as (y&Hy&Hxy). by exists y, (blocked y).
Qed.

(** The drafts of a cast: one for each due choice, in proposal order. *)
Lemma drafts_of_choice f b p choice bundles :
  NoDup bundles ->
  omap (draft_on f b) (map (fun b' => (p, choice, b')) bundles)
  = if bool_decide (b ∈ bundles) && is_drafted f (p, choice, b) then [mk_draft p choice] else [].
Proof.
  induction 1 as [|b' bundles Hb' _ IH]; [done|]. cbn [map omap list_omap draft_on].
  change (list_omap _ _ (draft_on f b) (map (fun b' => (p, choice, b')) bundles))
    with (omap (draft_on f b) (map (fun b' => (p, choice, b')) bundles)). rewrite IH.
  destruct (decide (b' = b)) as [->|Hne].
  - rewrite Z.eqb_refl, andb_true_r. rewrite (bool_decide_eq_false_2 (b ∈ bundles)) by done.
    rewrite (bool_decide_eq_true_2 (b ∈ b :: bundles)) by constructor. cbn [andb].
    by destruct (is_drafted f (p, choice, b)).
  - rewrite (proj2 (Z.eqb_neq b' b)) by done. rewrite andb_false_r.
    rewrite (bool_decide_ext (b ∈ b' :: bundles) (b ∈ bundles)); [done|]. rewrite elem_of_cons.
    naive_solver.
Qed.

Lemma drafts_of_visits f b bundles choices :
  NoDup bundles ->
  sublist (map cd_proposal_id (omap (draft_on f b) (visits f bundles choices))) choices.
Proof.
  intros Hnd. unfold visits. induction choices as [|p choices IH]; cbn [map concat]; [done|].
  rewrite omap_app, map_app. change (p :: choices) with ([p] ++ choices). apply sublist_app; [|done].
  unfold visits_of. destruct (bt_get p _) as [[choice|]|]; [|apply sublist_nil_l..].
  rewrite drafts_of_choice by done. by destruct (_ && _); [|apply sublist_nil_l].
Qed.

Lemma draft_elem f b bundles choices d :
  d ∈ omap (draft_on f b) (visits f bundles choices) <->
  cd_proposal_id d ∈ choices /\ b ∈ bundles
  /\ bt_get (cd_proposal_id d) (sn_intents (f_snapshot f)) = Some (Choice (cd_choice d))
  /\ is_drafted f (cd_proposal_id d, cd_choice d, b) = true.
Proof.
  rewrite list_elem_of_omap. split.
  - intros ([[p choice] b']&(?&?&?)%visits_elem&Hd). cbn [draft_on] in Hd.
    destruct (is_drafted f (p, choice, b')) eqn:Hdr; [|done]. cbn [andb] in Hd.
    destruct (b' =? b) eqn:Hb; [|done]. injection Hd as <-. assert (b' = b) as -> by lia. done.
  - intros (?&?&?&Hd). exists (cd_proposal_id d, cd_choice d, b). split; [by apply visits_elem|].
    cbn [draft_on]. rewrite Hd, Z.eqb_refl. by destruct d.
Qed.

Lemma held_elem s stale retirable b :
  b ∈ held_bundles s stale retirable <->
  (exists p vote, (b, p, vote) ∈ sn_votes s /\ (b, p) ∉ stale /\ (b, p) ∉ retirable
     /\ vote_phase_holds_bundle (vs_phase vote) = true)
  \/ (exists phase, (b, phase) ∈ delegation_map s /\ delegation_phase_holds_bundle phase = true)
  \/ b ∈ map fst (sn_rejection_blocked_bundles s).
Proof.
  unfold held_bundles. rewrite elem_of_list_to_set, !elem_of_app, !list_elem_of_fmap.
  setoid_rewrite list_elem_of_filter. split.
  - intros [([[b' p] vote]&->&Hh&Hin)|[([b' phase]&->&Hh&Hin)|Hx]]; [left|right; left|right; right].
    + cbn. apply andb_prop in Hh as [[H1 H2]%andb_prop H3]. exists p, vote.
      apply negb_true_iff, bool_decide_eq_false in H1, H2. done.
    + by exists phase.
    + done.
  - intros [(p&vote&Hin&H1&H2&H3)|[(phase&Hin&Hh)|Hx]]; [left|right; left|right; right].
    + exists (b, p, vote). split_and!; [done| |done]. cbn. rewrite H3.
      by rewrite !bool_decide_eq_false_2.
    + by exists (b, phase).
    + done.
Qed.

(** Phases the chain may still act on or may have acted on without a trace. *)
Definition may_be_on_chain (phase : VotePhase) : bool :=
  match phase with
  | VSubmitted | VSubmissionManaged | VSubmittedWithoutHash => true
  | _ => false
  end.

Lemma unheld_bundle s units ballot b p vote :
  wf_snapshot s -> units_ok s units -> conflicting_vote s = None ->
  b ∉ f_held (facts_of s units ballot) -> row s b p vote -> may_be_on_chain (vs_phase vote) = false.
Proof.
  intros Hs Hu Hnc Hheld Hrow. destruct (may_be_on_chain (vs_phase vote)) eqn:Hm; [|done].
  exfalso. apply Hheld. apply held_elem. left. exists p, vote.
  assert (vote_phase_is_lifecycle_owned (vs_phase vote) = true) as Hown by (by destruct (vs_phase vote)).
  split_and!; [by apply row_elem|by eapply no_conflict| |by destruct (vs_phase vote)].
  intros (u&Hin&Hr%retired_undispatched&Hk)%retirable_elem.
  destruct (unit_key_row s u b p (unit_at s units u Hu Hin) Hk) as (_&v&Hv&Hph).
  unfold row in *. simplify_eq. rewrite <- Hph in Hr. by destruct (vs_phase vote).
Qed.

Lemma due_not_owned s units ballot b p vote choice :
  wf_snapshot s -> units_ok s units -> conflicting_vote s = None ->
  bt_get p (sn_intents s) = Some (Choice choice) -> row s b p vote ->
  cast_due (facts_of s units ballot) b p choice = true ->
  vote_phase_is_lifecycle_owned (vs_phase vote) = false.
Proof.
  intros Hs Hu Hnc Hi Hrow Hdue.
  destruct (vote_phase_is_lifecycle_owned (vs_phase vote)) eqn:Hown; [|done]. exfalso.
  rewrite (agreed_not_due s units ballot b p vote choice) in Hdue; [done|done|done| |done| |].
  - by eapply no_conflict.
  - intros (u&Hin&Hr%retired_undispatched&Hk)%retirable_elem.
    destruct (unit_key_row s u b p (unit_at s units u Hu Hin) Hk) as (_&v&Hv&Hph).
    unfold row in *. simplify_eq. rewrite <- Hph in Hr. by destruct (vs_phase vote).
  - by destruct (vs_phase vote).
Qed.

Lemma cast_owed s units ballot o b drafts blocked signs :
  follows_rules s units ballot o -> OCast b drafts blocked signs ∈ ro_obligations o ->
  let f := facts_of s units ballot in
  drafts = omap (draft_on f b) (visits f (map fst (delegation_map s)) (bc_choice_proposals ballot))
  /\ drafts <> [].
Proof.
  intros Hr Hx. destruct (planned_owed s units ballot o _ Hr Hx) as (y&bl&Hy&Heq).
  destruct Hy as [u ? ?|u ? ?|b' p o' Hdel|b' ds Hds ?|b' p choice ? ? ? ?|b' ph o' ? Hd|e o' ? Hc];
    try done.
  - by destruct Hdel as (?&?&?&?&?&?&?&?&->).
  - injection Heq as -> -> _ _. done.
  - apply advance_is_delegation in Hd as [Hd _]. by destruct o'.
  - by apply confirmation_shape in Hc as (?&?&?&?&?&->).
Qed.

Lemma is_drafted_true f p choice b :
  is_drafted f (p, choice, b) = true <->
  cast_due f b p choice = true /\ b ∉ f_held f /\ f_waits f = false /\ f_roster_is_terminal f = true.
Proof.
  unfold is_drafted, needs_delegation.
  rewrite !andb_true_iff, !negb_true_iff, bool_decide_eq_false. tauto.
Qed.

Lemma import_confirmed s :
  imported_round_waits_for_delegations s = false ->
  existsb (fun entry => bs_capability_imported entry.2) (sn_bundles s) = true ->
  forall b phase, (b, phase) ∈ delegation_map s -> phase = DConfirmed.
Proof.
  unfold imported_round_waits_for_delegations. intros Hw Himp b phase Hin.
  replace (existsb (fun '(_, bundle) => bs_capability_imported bundle) (sn_bundles s)) with true in Hw.
  - cbn [andb] in Hw. destruct (decide (phase = DConfirmed)) as [|Hph]; [done|]. exfalso.
    rewrite <- not_true_iff_false, existsb_exists in Hw. apply Hw. exists (b, phase).
    split; [by apply list_elem_of_In|]. by rewrite bool_decide_eq_false_2.
  - rewrite <- Himp. clear. induction (sn_bundles s) as [|[b bd] l IH]; cbn; [done|]. by rewrite IH.
Qed.

Lemma terminal_roster s units ballot ids :
  ballot_exact s ids ballot -> f_roster_is_terminal (facts_of s units ballot) = true ->
  forall p, p ∈ ids -> is_Some (bt_get p (sn_intents s)).
Proof.
  intros Hbe Ht p Hp. cbn in Ht. apply andb_prop in Ht as [Ht%bool_decide_eq_true _].
  destruct (bt_get p (sn_intents s)) eqn:Hi; [by eexists|].
  assert (p ∈ bc_open_proposals ballot) as Hopen by (by apply (be_open s ids ballot Hbe)).
  rewrite Ht in Hopen. by apply elem_of_nil in Hopen.
Qed.


(** ** Chain work *)
Lemma reconcile_owed s units ballot o id b ids' un hash blocked :
  follows_rules s units ballot o -> OReconcileChain id b ids' un hash blocked ∈ ro_obligations o ->
  exists u, u ∈ units /\ driven (facts_of s units ballot) u
    /\ OReconcileChain id b ids' un hash None = reconciliation (facts_of s units ballot) u.
Proof.
  intros Hr Hx. destruct (planned_owed s units ballot o _ Hr Hx) as (y&bl&Hy&Heq).
  destruct Hy as [u ? ?|u ? ?|b' p o' Hdel|b' ds Hds ?|b' p choice ? ? ? ?|b' ph o' ? Hd|e o' ? Hc];
    try done.
  - injection Heq as -> -> -> -> -> _. by exists u.
  - by destruct Hdel as (?&?&?&?&?&?&?&?&->).
  - apply advance_is_delegation in Hd as [Hd _]. by destruct o'.
  - by apply confirmation_shape in Hc as (?&?&?&?&?&->).
Qed.

Lemma on_wire_planned s ids o b p vote :
  wf_snapshot s -> classify_round s ids = Ok o -> row s b p vote ->
  position_of (Some (vs_phase vote)) = OnWire ->
  exists units u hash blocked, group_vote_units s (sn_intents s) = Ok units /\ u ∈ units
    /\ (b, p) ∈ unit_keys u
    /\ OReconcileChain (vu_id u) b (unit_proposal_ids u) false hash blocked ∈ ro_obligations o
    /\ NoDup (omap reconcile_id (ro_obligations o)).
Proof.
  intros Hs Ho Hrow Hpos.
  destruct (classified s ids o Hs Ho) as (ballot&units&Hbe&Hg&Hu&Hr);
    [right; by eapply row_needs_bundles|].
  destruct (unit_of_row s units b p vote Hs Hu Hrow) as (u&_&Hin&Hk&Hph).
  destruct (unit_key_row s u b p (unit_at s units u Hu Hin) Hk) as [-> _].
  destruct (owed_planned s units ballot o (reconciliation (facts_of s units ballot) u) Hr) as [bl Hx].
  { apply owed_reconcile; [done|]. left. by rewrite Hph. }
  exists units, u, (unit_hash (facts_of s units ballot) u), bl. split_and!; try done.
  - unfold reconciliation in Hx. cbn [with_prerequisite] in Hx. by rewrite Hph, Hpos in Hx.
  - apply (ex_reconcile_once s units ballot o Hr).
Qed.

Lemma confirmed_planned s ids o b p vote :
  wf_snapshot s -> classify_round s ids = Ok o -> row s b p vote ->
  position_of (Some (vs_phase vote)) = PosConfirmed ->
  exists shares, missing_share_indexes s b p = Ok shares
    /\ (shares = [] \/ exists position blocked,
          confirmed_tree_position s b p = Ok (Some position)
          /\ ODeliver b p position shares blocked ∈ ro_obligations o).
Proof.
  intros Hs Ho Hrow Hpos.
  destruct (classified s ids o Hs Ho) as (ballot&units&Hbe&Hg&Hu&Hr);
    [right; by eapply row_needs_bundles|].
  destruct (ex_confirmed s units ballot o Hr b p vote Hrow (confirmed_phase _ Hpos))
    as [Hnil|(y&Hy&vote'&position&shares&_&_&Hms&_&Htp&->)]; [exists []; auto|].
  exists shares. split; [done|]. right. destruct (owed_planned s units ballot o _ Hr Hy) as [bl Hx].
  by exists position, bl.
Qed.


(** ** The ballot *)
Lemma draft_planned s units ballot ids o b p choice :
  ballot_exact s ids ballot -> follows_rules s units ballot o ->
  p ∈ ids -> bt_get p (sn_intents s) = Some (Choice choice) -> b ∈ map fst (delegation_map s) ->
  cast_due (facts_of s units ballot) b p choice = true ->
  (exists drafts blocked signs, OCast b drafts blocked signs ∈ ro_obligations o
     /\ mk_draft p choice ∈ drafts)
  \/ p ∈ ro_withheld_casts o.
Proof.
  intros Hbe Hr Hp Hi Hb Hdue. set (f := facts_of s units ballot).
  assert (p ∈ bc_choice_proposals ballot) as Hc.
  { apply (be_choices s ids ballot Hbe). unfold has_choice. by rewrite Hi. }
  destruct (is_drafted f (p, choice, b)) eqn:Hdr; [left|right].
  - set (drafts := omap (draft_on f b) (visits f (map fst (delegation_map s)) (bc_choice_proposals ballot))).
    assert (mk_draft p choice ∈ drafts) as Hin by (by apply draft_elem).
    destruct (owed_planned s units ballot o (OCast b drafts None (cast_signs_delegation s b)) Hr) as [bl Hx].
    { apply owed_cast; [done|]. intros Hnil. rewrite Hnil in Hin. by apply elem_of_nil in Hin. }
    by exists drafts, bl, (cast_signs_delegation s b).
  - apply (ex_withheld s units ballot o Hr). split; [done|]. exists choice, b. split_and!; [done..|].
    unfold is_withheld. fold f in Hdue |- *. by rewrite Hdue, Hdr.
Qed.

(** Choices: a recorded choice for a proposal of the roster is accounted for
    on every bundle: it is cast, reported as withheld, or its vote with that
    choice is driven on, confirmed, or ended without a confirmation. *)
Theorem no_choice_is_lost s ids o b p choice :
  wf_snapshot s -> classify_round s ids = Ok o -> p ∈ ids ->
  bt_get p (sn_intents s) = Some (Choice choice) -> b ∈ map ds_bundle_index (sn_delegations s) ->
  (exists drafts blocked signs, OCast b drafts blocked signs ∈ ro_obligations o
     /\ mk_draft p choice ∈ drafts)
  \/ p ∈ ro_withheld_casts o
  \/ exists vote, row s b p vote /\ vs_choice vote = choice
       /\ ((exists id members undispatched hash blocked,
              OReconcileChain id b members undispatched hash blocked ∈ ro_obligations o /\ p ∈ members)
           \/ position_of (Some (vs_phase vote)) = PosConfirmed
           \/ position_of (Some (vs_phase vote)) = Terminal).
Proof.
  intros Hs Ho Hp Hi Hb.
  destruct (classified s ids o Hs Ho) as (ballot&units&Hbe&_&Hu&Hr);
    [right; intros Hnil; rewrite Hnil in Hb; by apply elem_of_nil in Hb|].
  apply delegation_map_keys in Hb. set (f := facts_of s units ballot).
  destruct (cast_due f b p choice) eqn:Hdue.
  { destruct (draft_planned s units ballot ids o b p choice) as [|]; auto. }
  pose proof Hdue as Hdue'. unfold cast_due in Hdue. change (f_snapshot f) with s in Hdue.
  destruct (bt_get (b, p) (sn_votes s)) as [vote|] eqn:Hrow; [|done].
  rewrite !orb_false_iff in Hdue. destruct Hdue as [[[_ Hch] _] Hun%bool_decide_eq_false].
  assert (vs_choice vote = choice) as Hvc by (apply negb_false_iff, Z.eqb_eq in Hch; done).
  destruct (unit_of_row s units b p vote Hs Hu Hrow) as (u&Hof&Hin&Hk&Hph).
  destruct (unit_key_row s u b p (unit_at s units u Hu Hin) Hk) as [Hbu _].
  assert (driven f u -> exists id members un hash blocked,
    OReconcileChain id b members un hash blocked ∈ ro_obligations o /\ p ∈ members) as Hdrive.
  { intros Hd. destruct (owed_planned s units ballot o (reconciliation f u) Hr) as [bl Hx];
      [by apply owed_reconcile|].
    unfold reconciliation in Hx. cbn [with_prerequisite] in Hx. rewrite <- Hbu in Hx.
    apply unit_keys_elem in Hk as [_ Hk]. by repeat eexists. }
  right. destruct (position_of (Some (vs_phase vote))) eqn:Hpos; [done|..].
  - destruct (every_member_agrees f b u) eqn:Hag.
    + right. exists vote. split_and!; [done..|]. left. apply Hdrive. right. rewrite Hph, Hpos, <- Hbu. done.
    + left. apply (ex_withheld s units ballot o Hr). split.
      * apply (be_choices s ids ballot Hbe). unfold has_choice. by rewrite Hi.
      * exists choice, b. split_and!; [done..|]. unfold is_withheld. fold f. rewrite Hdue'.
        unfold waits_for_member. change (f_snapshot f) with s. change (f_units f) with units.
        rewrite Hrow, Hpos, Hof, Hag. by rewrite bool_decide_eq_true_2.
  - right. exists vote. split_and!; [done..|]. left. apply Hdrive. left. by rewrite Hph.
  - right. exists vote. split_and!; [done..|]. auto.
  - right. exists vote. split_and!; [done..|]. auto.
Qed.

(** Departed units: a signed unit that was never dispatched and lost a
    member from the roster is retired whole, is not sent, and each choice of its
    remaining members is cast again or reported as withheld. *)
Theorem departed_unit_is_retired s ids units o u :
  wf_snapshot s -> classify_round s ids = Ok o ->
  group_vote_units s (sn_intents s) = Ok units -> u ∈ units -> vu_phase u = VCommitted ->
  (exists p, p ∈ unit_proposal_ids u /\ p ∉ ids) ->
  ORetire (vu_id u) (unit_proposal_ids u) ∈ ro_obligations o
  /\ (forall b members un hash blocked,
        OReconcileChain (vu_id u) b members un hash blocked ∉ ro_obligations o)
  /\ (forall p choice, p ∈ unit_proposal_ids u -> p ∈ ids ->
        bt_get p (sn_intents s) = Some (Choice choice) ->
        (exists drafts blocked signs,
           OCast (vu_bundle_index u) drafts blocked signs ∈ ro_obligations o
           /\ mk_draft p choice ∈ drafts)
        \/ p ∈ ro_withheld_casts o).
Proof.
  intros Hs Ho Hg Hin Hph (q&Hq&Hgone).
  pose proof (group_vote_units_spec s (sn_intents s) Hs) as Hspec. rewrite Hg in Hspec.
  assert (units_ok s units) as Hu by (by destruct Hspec). pose proof (unit_at s units u Hu Hin) as Hok.
  destruct (unit_first_key s u Hok) as (q0&?&_&Hk0).
  destruct (unit_key_row s u _ q0 Hok Hk0) as (_&vote0&Hrow0&_).
  destruct (classified s ids o Hs Ho) as (ballot&units'&Hbe&Hg'&_&Hr);
    [right; by eapply row_needs_bundles|].
  assert (units' = units) as -> by congruence.
  assert (retired_unit (bc_roster ballot) u = true) as Hret.
  { unfold retired_unit, roster_relation. rewrite Hph. rewrite bool_decide_eq_true_2 by done. cbn [andb].
    destruct (forallb _ _) eqn:Hall; [|done]. rewrite forallb_forall in Hall.
    apply list_elem_of_In in Hq. specialize (Hall q Hq). apply bool_decide_eq_true in Hall.
    by apply (be_roster s ids ballot Hbe) in Hall. }
  split_and!.
  - by destruct (owed_planned s units ballot o _ Hr (owed_retire s units ballot u Hin Hret)).
  - intros b members un hash bl Hx.
    destruct (reconcile_owed s units ballot o _ _ _ _ _ _ Hr Hx) as (u'&Hin'&Hd&Heq).
    injection Heq as Hid _ _ _ _. rewrite (unit_same_id s units u' u Hs Hu Hin' Hin) in Hd by done.
    destruct Hd as [Hd|[_ Hag]]; [by rewrite Hph in Hd|]. apply agreeing_not_retired in Hag.
    change (f_roster (facts_of s units ballot)) with (bc_roster ballot) in Hag. congruence.
  - intros p choice Hp Hpi Hi.
    assert ((vu_bundle_index u, p) ∈ unit_keys u) as Hk by (by apply unit_keys_elem).
    destruct (unit_key_row s u _ p Hok Hk) as (_&vote&Hrow&_).
    eapply draft_planned; try done.
    + apply delegation_map_keys. apply row_elem in Hrow; [|done]. by eapply wf_bundle.
    + unfold cast_due. change (f_snapshot (facts_of s units ballot)) with s. rewrite Hrow.
      change (f_retirable (facts_of s units ballot)) with (retirable_vote_keys units (bc_roster ballot)).
      rewrite (bool_decide_eq_true_2 (_ ∈ retirable_vote_keys _ _)); [by rewrite orb_true_r|].
      apply retirable_elem. by exists u.
Qed.
End rules.
