(* ===== verification/RoundProjection.v ===== *)
(** * Correctness of the round plan

    The projection of [RoundPlanning]: every step of the plan resolves to the
    obligation it came from, in rank order and with the prerequisite the
    obligation carries; planning never panics; and a round reported as done owes
    nothing but background work. *)

From Stdlib Require Import ZifyBool.
From stdpp Require Import base gmap strings list numbers sorting.
From S2P Require Import Prelude Ordered Identity Outcome Lifecycle Record Confirmation Rows Store Planning VoteRecovery SharePolicy RoundPlanning RoundPlanningProofs RoundRules.
Local Open Scope Z_scope.
Local Open Scope voting_scope.

(** ** Steps and obligations *)

(** A unit's obligation lists its members: the one of a singleton, at least one
    of a batch. *)
Definition sound (o : Obligation) : Prop :=
  match o with
  | OReconcileChain (USingleton _ p) _ ids _ _ _ => ids = [p]
  | OReconcileChain (UBatch _ _) _ ids _ _ _ => ids <> []
  | _ => True
  end.

Definition obligation_steps (o : Obligation) : list NextStep :=
  match steps_of o with
  | Ok steps => steps
  | Err _ => []
  end.

Lemma steps_of_sound o : sound o -> steps_of o = Ok (obligation_steps o).
Proof.
  unfold obligation_steps.
  destruct o as [| ? [] | | | |[] ? [] | |]; cbn; try done.
Qed.

Lemma bool_decide_eqb (P : Prop) `{!base.Decision P} (x : bool) : (P <-> x = true) -> x = bool_decide P.
Proof. intros HP. destruct x; symmetry; [apply bool_decide_eq_true_2|apply bool_decide_eq_false_2]; naive_solver. Qed.

Lemma executes_sound o step :
  sound o -> executes o step = Some (bool_decide (step ∈ obligation_steps o)).
Proof.
  intros Ho. assert (executes o step
    = Some (match executes o step with Some x => x | None => false end)) as ->.
  { destruct o as [|b []| | | |[] b [|first ids]| |], step as [b'|b'|b'|b' ? ?|b' ?|b' ?|b' ? ?|b' ? ?];
      try done; cbn; by destruct (b =? b'). }
  f_equal. apply bool_decide_eqb. unfold obligation_steps.
  destruct o as [b|b [] ph h|u ms|b ds pre sg|b r|[ub up|ub dg] b [|first ids] un h pre|b p pos sh pre
    |b p sh a k pre]; try done;
    destruct step as [b'|b'|b'|b' p' c'|b' p'|b' p'|b' p' s'|b' p' s'];
    cbn [executes steps_of sound head fmap option_fmap option_map] in *;
    rewrite ?list_elem_of_singleton, ?list_elem_of_fmap, ?elem_of_nil;
    try (split; [by intros []|done]); try (split; [intros [=]; lia|intros; f_equal; lia]);
    try (by split); try (split; [by intros (?&?&?)|done]).
  - rewrite andb_true_iff, existsb_exists. setoid_rewrite <- list_elem_of_In. split.
    + intros (d&[= -> -> ->]&Hd). split; [lia|]. exists d. split; [done|lia].
    + intros (Hb&d&Hd&Heq). exists d. split; [f_equal; lia|done].
  - injection Ho as -> ->. destruct (b =? b') eqn:?; split; [intros [=]; lia|intros; f_equal; lia|
      intros [=]; lia|done].
  - destruct (b =? b') eqn:?; split; [intros [=]; lia|intros; f_equal; lia|intros [=]; lia|done].
  - rewrite !andb_true_iff, bool_decide_eq_true. split.
    + intros (x&[= -> -> ->]&Hx). split; [lia|done].
    + intros [[Hb Hp] Hs]. exists s'. split; [f_equal; lia|done].
Qed.

(** The first obligation that executes a step. *)
Lemma resolve_step_spec obligations step :
  Forall sound obligations ->
  match resolve_step obligations step with
  | Ok (Some o) => o ∈ obligations /\ step ∈ obligation_steps o
  | Ok None => forall o, o ∈ obligations -> step ∉ obligation_steps o
  | Err _ => False
  end.
Proof.
  induction 1 as [|o l Ho _ IH]; cbn [resolve_step]; [by intros ? ?%elem_of_nil|].
  rewrite executes_sound by done. case_bool_decide as Hin; [by split; [constructor|]|].
  destruct (resolve_step l step) as [[x|]|]; [|intros x [->|Hx]%elem_of_cons; [done|by apply IH]|done].
  destruct IH. split; [by constructor|done].
Qed.

Lemma steps_from_sound obligations :
  Forall sound obligations ->
  steps_from_obligations obligations = Ok (concat (map obligation_steps obligations)).
Proof.
  intros Hs. unfold steps_from_obligations.
  enough (try_map steps_of obligations = Ok (map obligation_steps obligations)) as -> by done.
  induction Hs as [|o l Ho _ IH]; [done|]. cbn [try_map map].
  by rewrite steps_of_sound, IH.
Qed.

Lemma step_of_obligation_bundle o step :
  step ∈ obligation_steps o ->
  step_bundle step = obligation_bundle_index o /\ is_delegation_step step = is_delegation_work o.
Proof.
  unfold obligation_steps.
  destruct o as [b|b [] ph h|u ms|b ds pre sg|b r|[ub up|ub dg] b [|first ids] un h pre|b p pos sh pre
    |b p sh a k pre]; cbn [steps_of];
    first [intros ->%list_elem_of_singleton|intros (?&->&_)%list_elem_of_fmap|intros ?%elem_of_nil]; done.
Qed.

(** ** The order of steps *)
Lemma step_leb_total x y : step_leb x y = true \/ step_leb y x = true.
Proof.
  unfold step_leb, rank_leb. destruct (step_rank x) as [[[a b] c] d], (step_rank y) as [[[a' b'] c'] d'].
  lia.
Qed.

Lemma step_leb_trans x y z : step_leb x y = true -> step_leb y z = true -> step_leb x z = true.
Proof.
  unfold step_leb, rank_leb. destruct (step_rank x) as [[[a b] c] d], (step_rank y) as [[[a' b'] c'] d'],
    (step_rank z) as [[[a'' b''] c''] d'']. lia.
Qed.

Section plan_proofs.
Context `{Externals} `{RecoveryExternals}.
Implicit Types s : RoundSnapshot.

Lemma sound_with_prerequisite blocked o : sound (with_prerequisite blocked o) <-> sound o.
Proof. by destruct o as [| | | | |[]| |]. Qed.

Lemma owed_sound s units ballot o : units_ok s units -> owed s units ballot o -> sound o.
Proof.
  intros Hu Ho.
  destruct Ho as [u ? ?|u Hin ?|b' p o' Hdel|b' ds Hds ?|b' p choice ? ? ? ?|b' ph o' ? Hd|e o' ? Hc];
    try done.
  - pose proof (unit_at s units u Hu Hin) as Hok. unfold reconciliation. cbn [sound].
    pose proof (uo_id s u Hok) as Hid. destruct (vu_id u); [done|].
    destruct (unit_first_key s u Hok) as (p&ps&->&_). done.
  - by destruct Hdel as (?&?&?&?&?&?&?&?&->).
  - apply advance_is_delegation in Hd as [Hd _]. by destruct o' as [| | | | |[]| |].
  - by apply confirmation_shape in Hc as (?&?&?&?&?&->).
Qed.

Lemma classified_sound s ids o :
  wf_snapshot s -> classify_round s ids = Ok o -> Forall sound (ro_obligations o).
Proof.
  intros Hs Ho. apply list.Forall_forall. intros x Hx.
  destruct (classified s ids o Hs Ho) as (ballot&units&_&_&Hu&Hr); [left; eauto|].
  destruct (planned_owed s units ballot o x Hr Hx) as (y&bl&Hy&->).
  apply sound_with_prerequisite. by eapply owed_sound.
Qed.

(** The obligation a step resolves to is of the step's kind. *)
Definition step_kind_ok (o : Obligation) (step : NextStep) : Prop :=
  match step with
  | NAdvanceVote _ _ | NAdvanceVoteBatch _ _ => exists u b ids un h pre, o = OReconcileChain u b ids un h pre
  | NSubmitShares b p share => exists pos shares pre, o = ODeliver b p pos shares pre
  | _ => True
  end.

Lemma step_kind o step : step ∈ obligation_steps o -> step_kind_ok o step.
Proof.
  unfold obligation_steps.
  destruct o as [b|b [] ph h|u ms|b ds pre sg|b r|[ub up|ub dg] b [|first ids] un h pre|b p pos sh pre
    |b p sh a k pre]; cbn [steps_of];
    first [intros ->%list_elem_of_singleton|intros (?&->&_)%list_elem_of_fmap|intros ?%elem_of_nil];
    cbn; try done; by repeat eexists.
Qed.

Lemma delegation_work_no_panic s obligations work step :
  Forall sound obligations -> delegation_work s obligations work step <> Err PlanPanic.
Proof.
  intros Hs. pose proof (resolve_step_spec obligations step Hs) as Hr.
  destruct step as [b|b|b| | | | |]; cbn [delegation_work]; try done.
  - by destruct (bt_get b (delegation_map s)).
  - destruct (resolve_step _ _) as [o|]; [|done]. by destruct (advance_of o) as [[]|].
  - destruct (resolve_step _ _) as [o|]; [|done]. by destruct (advance_of o) as [[]|].
Qed.

(** The step is one of an obligation. *)
Definition from_obligation (obligations : list Obligation) (step : NextStep) : Prop :=
  exists o, o ∈ obligations /\ step ∈ obligation_steps o.

Lemma resolves obligations step :
  Forall sound obligations -> from_obligation obligations step ->
  exists o, resolve_step obligations step = Ok (Some o) /\ o ∈ obligations /\ step ∈ obligation_steps o.
Proof.
  intros Hs (x&Hx&Hstep). pose proof (resolve_step_spec obligations step Hs) as Hr.
  destruct (resolve_step obligations step) as [[o|]|]; [by exists o| |done]. by apply Hr in Hx.
Qed.

Lemma tree_position_is_error s b p : confirmed_tree_position s b p <> Err PlanPanic.
Proof.
  unfold confirmed_tree_position. destruct (bt_get _ _) as [vote|]; [|done].
  destruct (vs_recovery vote), (vs_vc_tree_position vote); try done. by destruct (_ <? _).
Qed.

Lemma vote_work_no_panic s blocking obligations work step :
  Forall sound obligations -> from_obligation obligations step ->
  vote_work s blocking obligations work step <> Err PlanPanic.
Proof.
  intros Hs Hf. destruct (resolves obligations step Hs Hf) as (o&Hr&_&Hk%step_kind).
  destruct step as [| | | |b p|b p|b p share|b p share]; cbn [vote_work]; try done.
  - unfold advance_vote_work. rewrite Hr. by destruct Hk as (?&?&?&?&?&?&->).
  - unfold advance_vote_work. rewrite Hr. by destruct Hk as (?&?&?&?&?&?&->).
  - rewrite Hr. by destruct Hk as (?&?&?&->).
  - destruct (_ && _); [|done]. pose proof (tree_position_is_error s b p).
    destruct (confirmed_tree_position s b p) as [[]|]; cbn [ok_or]; congruence.
Qed.

Lemma try_fold_no_panic {S A} (f : S -> A -> result S PlanFailure) x l :
  (forall x a, a ∈ l -> f x a <> Err PlanPanic) -> try_fold f x l <> Err PlanPanic.
Proof.
  intros Hf. pose proof (try_fold_spec (fun _ _ => True) (fun e => e = PlanPanic) f l x I) as Hspec.
  destruct (try_fold f x l) as [|e]; [done|]. intros [= ->]. apply Hspec; [|done].
  intros past a rest y -> _. specialize (Hf y a ltac:(set_solver)).
  by destruct (f y a) as [|[]].
Qed.

Lemma project_no_panic s ids o :
  Forall sound (ro_obligations o) -> project s ids o <> Err PlanPanic.
Proof.
  intros Hs. unfold project. rewrite steps_from_sound by done.
  set (steps := stable_sort step_leb _).
  pose proof (try_fold_no_panic (delegation_work s (ro_obligations o)) [] steps) as Hd.
  unfold recovered_delegation_work_from_steps.
  destruct (try_fold (delegation_work _ _) [] steps) as [dw|e];
    [|intros [= ->]; apply Hd; [|done]; intros; by apply delegation_work_no_panic].
  unfold recovered_vote_work_from_steps. set (blocking := blocking_confirm_share_keys _).
  pose proof (try_fold_no_panic (vote_work s blocking (ro_obligations o)) [] steps) as Hv.
  destruct (try_fold (vote_work _ _ _) [] steps) as [vw|e]; [done|]. intros [= ->]. apply Hv; [|done].
  intros x step Hin. apply vote_work_no_panic; [done|]. subst steps.
  rewrite stable_sort_perm in Hin. by apply elem_of_concat_map in Hin.
Qed.

(** No panic: planning a well-formed snapshot returns a plan or an error; no
    lookup of a unit, of its first member or of a step's obligation fails. *)
Theorem planning_never_panics s ids :
  wf_snapshot s -> plan_round_classified s ids <> Err PlanPanic.
Proof.
  intros Hs. unfold plan_round_classified. pose proof (classify_round_spec s ids Hs) as Hc.
  destruct (classify_round s ids) as [o|e] eqn:Ho; [|congruence].
  pose proof (project_no_panic s ids o (classified_sound s ids o Hs Ho)) as Hp.
  destruct (project s ids o); congruence.
Qed.

(** ** The plan's steps *)
Definition prerequisite_of (o : Obligation) : option Z :=
  match o with
  | OCast _ _ pre _ | OReconcileChain _ _ _ _ _ pre | ODeliver _ _ _ _ pre | OConfirm _ _ _ _ _ pre => pre
  | ODelegate _ | OAdvanceDelegation _ _ _ _ | ORetire _ _ | OBlocked _ _ => None
  end.

Lemma planned s ids o plan :
  plan_round_classified s ids = Ok (o, plan) ->
  classify_round s ids = Ok o /\ project s ids o = Ok plan.
Proof.
  unfold plan_round_classified. destruct (classify_round s ids) as [o'|] eqn:Hc; [|done].
  destruct (project s ids o') as [plan'|] eqn:Hp; [|done]. intros [= <- <-]. done.
Qed.

Lemma project_steps s ids o plan :
  Forall sound (ro_obligations o) -> project s ids o = Ok plan ->
  rp_next_steps plan = stable_sort step_leb (concat (map obligation_steps (ro_obligations o)))
  /\ forall step, step ∈ rp_next_steps plan <-> from_obligation (ro_obligations o) step.
Proof.
  intros Hs. unfold project. rewrite steps_from_sound by done.
  destruct (recovered_delegation_work_from_steps _ _ _); [|done].
  destruct (recovered_vote_work_from_steps _ _ _ _); [|done]. intros [= <-]. cbn [rp_next_steps].
  split; [done|]. intros step. rewrite stable_sort_perm. apply elem_of_concat_map.
Qed.

(** A bundle has a delegation step exactly when it has delegation work. *)
Lemma delegation_steps s units ballot o b :
  units_ok s units -> follows_rules s units ballot o ->
  delegating s units ballot b <->
  exists step, from_obligation (ro_obligations o) step /\ is_delegation_step step = true
    /\ step_bundle step = b.
Proof.
  intros Hu Hr. split.
  - intros (y&Hy&Hd&Hb). destruct (owed_planned s units ballot o y Hr Hy) as [bl Hx].
    destruct y as [b'|b' [] ph h| | | | | |]; try done; cbn in Hb; subst.
    + exists (NDelegate b). split; [|done]. exists (ODelegate b). by split; [|constructor].
    + exists (NAdvanceImportedDelegation b). split; [|done]. eexists. split; [done|]. by constructor.
    + exists (NAdvanceDelegation b). split; [|done]. eexists. split; [done|]. by constructor.
  - intros (step&(x&Hx&Hstep)&Hd&Hb). destruct (step_of_obligation_bundle x step Hstep) as [Hxb Hxd].
    destruct (planned_owed s units ballot o x Hr Hx) as (y&bl&Hy&->). exists y. split; [done|].
    rewrite Hd in Hxd. rewrite Hxb in Hb. by destruct y.
Qed.

Lemma blocking_spec steps step :
  is_delegation_step step = false ->
  match blocking_prerequisite steps step with
  | Some cand => cand ∈ steps /\ is_delegation_step cand = true /\ step_bundle cand = step_bundle step
  | None => forall cand, cand ∈ steps -> is_delegation_step cand = true ->
      step_bundle cand <> step_bundle step
  end.
Proof.
  intros Hd. unfold blocking_prerequisite. rewrite Hd.
  destruct (find _ steps) as [cand|] eqn:Hf.
  - apply find_some in Hf as [Hin [Hc Hb]%andb_prop]. apply list_elem_of_In in Hin.
    split_and!; [done..|lia].
  - intros cand Hin%list_elem_of_In Hc Hb. pose proof (find_none _ _ Hf cand Hin) as Hn.
    cbn beta in Hn. rewrite Hc in Hn. lia.
Qed.

Lemma with_prerequisite_of y blocked step :
  step ∈ obligation_steps (with_prerequisite blocked y) ->
  prerequisite_of (with_prerequisite blocked y)
  = if is_delegation_step step then None else blocked.
Proof.
  intros Hstep. destruct (step_of_obligation_bundle _ _ Hstep) as [_ ->].
  destruct y; cbn in *; try done; by apply elem_of_nil in Hstep.
Qed.

Lemma prerequisite_agrees s units ballot o x steps step :
  units_ok s units -> follows_rules s units ballot o ->
  (forall step, step ∈ steps <-> from_obligation (ro_obligations o) step) ->
  x ∈ ro_obligations o -> step ∈ obligation_steps x ->
  prerequisite_of x = step_bundle <$> blocking_prerequisite steps step.
Proof.
  intros Hu Hr Hin Hx Hxs. destruct (ex_obligations s units ballot o Hr) as (blocked&Hbl&Hobs).
  destruct (proj1 (Hobs x) Hx) as (y&Hy&->). rewrite (with_prerequisite_of y _ step Hxs).
  destruct (step_of_obligation_bundle _ _ Hxs) as [Hsb _].
  assert (obligation_bundle_index (with_prerequisite (blocked y) y) = obligation_bundle_index y) as Hob
    by (by destruct y). rewrite Hob in Hsb.
  destruct (is_delegation_step step) eqn:Hd; [by unfold blocking_prerequisite; rewrite Hd|].
  pose proof (blocking_spec steps step Hd) as Hbs.
  pose proof (delegation_steps s units ballot o (obligation_bundle_index y) Hu Hr) as Hdel.
  setoid_rewrite <- Hin in Hdel.
  destruct (blocking_prerequisite steps step) as [cand|]; cbn [fmap option_fmap option_map].
  - destruct Hbs as (Hc&Hcd&Hcb), (Hbl y) as [[-> _]|[_ Hno]]; [by rewrite Hcb, Hsb|].
    exfalso. apply Hno, Hdel. exists cand. split_and!; [done..|congruence].
  - destruct (Hbl y) as [[_ (cand&Hc&Hcd&Hcb)%Hdel]|[-> _]]; [|done]. exfalso.
    apply (Hbs cand); [done..|congruence].
Qed.

(** Executable plan: the steps of the plan are exactly those of the
    obligations, in rank order; each resolves to an obligation it came from; and
    the step it must wait for, if any, is the delegation step of the bundle that
    obligation names as its prerequisite. *)
Theorem plan_steps_resolve s ids o plan :
  wf_snapshot s -> plan_round_classified s ids = Ok (o, plan) ->
  StronglySorted (fun x y => step_leb x y = true) (rp_next_steps plan)
  /\ (forall step, step ∈ rp_next_steps plan <->
        exists x steps, x ∈ ro_obligations o /\ steps_of x = Ok steps /\ step ∈ steps)
  /\ forall step, step ∈ rp_next_steps plan ->
       exists x steps, resolve_step (ro_obligations o) step = Ok (Some x) /\ x ∈ ro_obligations o
         /\ steps_of x = Ok steps /\ step ∈ steps
         /\ prerequisite_of x = step_bundle <$> blocking_prerequisite (rp_next_steps plan) step.
Proof.
  intros Hs [Ho Hp]%planned. pose proof (classified_sound s ids o Hs Ho) as Hso.
  destruct (project_steps s ids o plan Hso Hp) as [Heq Hin]. split_and!.
  - rewrite Heq. apply stable_sort_sorted; [apply step_leb_total|apply step_leb_trans].
  - intros step. rewrite Hin. rewrite list.Forall_forall in Hso. split.
    + intros (x&Hx&Hst). exists x, (obligation_steps x). split_and!; [done| |done].
      by apply steps_of_sound, Hso.
    + intros (x&steps&Hx&Hst&Hstep). exists x. split; [done|]. rewrite steps_of_sound in Hst by auto. by simplify_eq.
  - intros step Hstep. apply Hin in Hstep as Hf.
    destruct (resolves _ step Hso Hf) as (x&Hr&Hx&Hxs). exists x, (obligation_steps x).
    split_and!; [done|done| |done|].
    + rewrite list.Forall_forall in Hso. by apply steps_of_sound, Hso.
    + destruct (classified s ids o Hs Ho) as (ballot&units&_&_&Hu&Hrules); [left; eauto|].
      by eapply prerequisite_agrees.
Qed.

(** ** Done *)
Lemma done_not_blocking s ids o plan :
  Forall sound (ro_obligations o) -> project s ids o = Ok plan -> rp_primary_action plan = ADone ->
  plan_completed_vote_artifact s (ro_stale_vote_keys o) = true
  /\ plan_blocking_recovery s (blocking_confirm_share_keys (ro_obligations o)) (rp_next_steps plan) = false.
Proof.
  intros Hs. unfold project. rewrite steps_from_sound by done.
  destruct (recovered_delegation_work_from_steps _ _ _); [|done].
  destruct (recovered_vote_work_from_steps _ _ _ _); [|done]. intros [= <-].
  cbn [rp_primary_action rp_next_steps]. destruct (ro_needs_bundle_setup o); [done|].
  unfold select_primary_action. destruct (_ && negb _) eqn:Hc; [|by repeat case_match].
  apply andb_prop in Hc as [? ?%negb_true_iff]. done.
Qed.

Lemma any_phase_false s d v :
  any_phase s d v = false ->
  (forall b phase, (b, phase) ∈ delegation_map s -> phase <> d)
  /\ (forall k vote, (k, vote) ∈ sn_votes s -> vs_phase vote <> v).
Proof.
  unfold any_phase. rewrite orb_false_iff, <- !not_true_iff_false, !existsb_exists. intros [Hd Hv]. split.
  - intros b phase Hin ->. apply Hd. exists (b, d). split; [by apply list_elem_of_In|].
    by apply bool_decide_eq_true.
  - intros k vote Hin <-. apply Hv. exists (k, vote). split; [by apply list_elem_of_In|].
    by apply bool_decide_eq_true.
Qed.

(** An obligation with only background steps. *)
Definition is_background (o : Obligation) : Prop :=
  match o with
  | ORetire _ _ | OBlocked _ _ => True
  | OConfirm _ _ _ accepted unknown _ => accepted || unknown = true
  | OCast _ drafts _ _ => drafts = []
  | ODeliver _ _ _ shares _ => shares = []
  | ODelegate _ | OAdvanceDelegation _ _ _ _ | OReconcileChain _ _ _ _ _ _ => False
  end.

Lemma blocking_key_elem obligations b p share :
  (b, p, share) ∈ blocking_confirm_share_keys obligations <->
  exists pre, OConfirm b p share false false pre ∈ obligations.
Proof.
  unfold blocking_confirm_share_keys. rewrite elem_of_list_to_set, list_elem_of_omap. split.
  - intros (o&Ho&Heq). destruct o as [| | | | | | |? ? ? [] [] pre]; try done.
    injection Heq as -> -> ->. by exists pre.
  - intros (pre&Ho). by exists (OConfirm b p share false false pre).
Qed.

Lemma background_obligation obligations o :
  sound o -> o ∈ obligations ->
  (forall step, step ∈ obligation_steps o ->
     blocking_step (blocking_confirm_share_keys obligations) step = false) ->
  is_background o.
Proof.
  intros Hso Ho Hsteps. unfold obligation_steps in Hsteps.
  destruct o as [b|b [] ph h|u ms|b [|d ds] pre sg|b r|[ub up|ub dg] b [|first l] un h pre|b p pos [|sh shs] pre
    |b p sh a k pre]; cbn [is_background]; try done; cbn [steps_of map] in Hsteps;
    try (match type of Hsteps with
         | forall step, step ∈ ?x :: _ -> _ => specialize (Hsteps x ltac:(constructor))
         end; done).
  destruct a, k; try done. specialize (Hsteps (NConfirmShare b p sh) ltac:(constructor)).
  cbn in Hsteps. rewrite bool_decide_eq_false in Hsteps. exfalso. apply Hsteps.
  apply blocking_key_elem. by exists pre.
Qed.

(** Done: a round reported as done has no vote that may be on the chain or
    was refused, no delegation in a submission or ended without confirmation, all
    helper shares of its confirmed votes recorded, and owes nothing but
    confirmations of shares that helpers hold or may hold, besides retirements
    and casts that wait for the voter. *)
Theorem done_owes_only_background s ids o plan :
  wf_snapshot s -> plan_round_classified s ids = Ok (o, plan) -> rp_primary_action plan = ADone ->
  (forall b p vote, row s b p vote ->
     vs_phase vote = VPrepared \/ vs_phase vote = VCommitted
     \/ vs_phase vote = VConfirmed /\ missing_share_indexes s b p = Ok [])
  /\ (forall b phase, (b, phase) ∈ delegation_map s -> delegation_phase_holds_bundle phase = false)
  /\ sn_rejection_blocked_bundles s = []
  /\ Forall is_background (ro_obligations o).
Proof.
  intros Hs [Ho Hp]%planned Hdone. pose proof (classified_sound s ids o Hs Ho) as Hso.
  destruct (done_not_blocking s ids o plan Hso Hp Hdone) as [_ Hb].
  destruct (project_steps s ids o plan Hso Hp) as [_ Hin].
  unfold plan_blocking_recovery in Hb. rewrite !orb_false_iff in Hb.
  destruct Hb as [[[[H1 H2] H3] H4] H5].
  apply any_phase_false in H1 as [Hd1 Hv1], H2 as [Hd2 Hv2], H3 as [Hd3 Hv3].
  assert (Forall is_background (ro_obligations o)) as Hbg.
  { rewrite list.Forall_forall in Hso. apply list.Forall_forall. intros x Hx.
    apply (background_obligation (ro_obligations o)); [by apply Hso|done|]. intros step Hstep.
    rewrite <- not_true_iff_false, existsb_exists in H5. apply not_true_is_false. intros Ht.
    apply H5. exists step. split; [|done]. apply list_elem_of_In, Hin. by exists x. }
  split_and!; [| | |done].
  - intros b p vote Hrow. pose proof (on_wire_planned s ids o b p vote Hs Ho Hrow) as Hwire.
    pose proof (confirmed_planned s ids o b p vote Hs Ho Hrow) as Hconf.
    rewrite list.Forall_forall in Hbg. apply row_elem in Hrow as Hel; [|done].
    specialize (Hv1 _ _ Hel). specialize (Hv2 _ _ Hel). specialize (Hv3 _ _ Hel).
    destruct (vs_phase vote) eqn:Hph; try done; [by left|by right; left| |right; right].
    + destruct (Hwire eq_refl) as (units&u&hash&bl&_&_&_&Hx&_). by apply Hbg in Hx.
    + split; [done|]. destruct (Hconf eq_refl) as (shares&Hms&[->|(pos&bl&_&Hx)]); [done|].
      apply Hbg in Hx. cbn in Hx. by subst.
  - intros b phase Hel. specialize (Hd1 _ _ Hel). specialize (Hd2 _ _ Hel). specialize (Hd3 _ _ Hel).
    by destruct phase.
  - apply negb_false_iff, bool_decide_eq_true in H4. done.
Qed.
End plan_proofs.

(** ** A sample round

    Bundle 0 holds a signed batch of two votes whose second proposal left the
    roster, bundle 1 a vote on the wire and bundle 2 a confirmed vote whose
    helper share was not delivered. *)
#[local] Existing Instances example_externals example_recovery_externals.

Definition example_vote (phase : VotePhase) (position : option Z) (r : VoteRecoveryBundle) : VoteSnapshot :=
  mk_vote_snapshot 1 phase None position (Some r).

Definition example_round_snapshot : RoundSnapshot :=
  mk_snapshot (hex_string (vote_round_id example_identity))
    (map (fun b => mk_delegation_status b DConfirmed None) [0; 1; 2])
    (map (fun b => (b, mk_bundle_snapshot false None)) [0; 1; 2])
    [(0, 3, example_vote VCommitted None (example_member 3 0));
     (0, 4, example_vote VCommitted None (example_member 4 1));
     (1, 3, example_vote VSubmitted None (example_recovery 3 0 None));
     (2, 3, example_vote VConfirmed (Some 7) (example_recovery 3 7 None))]
    [] [] [(3, Choice 1)] ∅ None [].

(** The same round once its only vote is confirmed and its share is recorded. *)
Definition example_done_snapshot : RoundSnapshot :=
  mk_snapshot (hex_string (vote_round_id example_identity))
    [mk_delegation_status 2 DConfirmed None] [(2, mk_bundle_snapshot false None)]
    [(2, 3, example_vote VConfirmed (Some 7) (example_recovery 3 7 None))]
    [] [(2, 3, 0, SConfirmed)] [(3, Choice 1)] ∅ None [].

Ltac sample_row Hin tac :=
  repeat (apply elem_of_cons in Hin as [[= -> -> ->]|Hin]; [tac|]); by apply elem_of_nil in Hin.

Lemma example_snapshot_wf : wf_snapshot example_round_snapshot.
Proof. 
  split.
  - by apply (bool_decide_eq_true_1 _); vm_compute.
  - by apply (bool_decide_eq_true_1 _); vm_compute.
  - intros b p vote Hin. sample_row Hin ltac:(by apply (bool_decide_eq_true_1 _); vm_compute).
  - intros b p vote r Hin Hr. sample_row Hin ltac:(by injection Hr as <-).
Qed.

Lemma example_done_wf : wf_snapshot example_done_snapshot.
Proof. 
  split.
  - by apply (bool_decide_eq_true_1 _); vm_compute.
  - by apply (bool_decide_eq_true_1 _); vm_compute.
  - intros b p vote Hin. sample_row Hin ltac:(by apply (bool_decide_eq_true_1 _); vm_compute).
  - intros b p vote r Hin Hr. sample_row Hin ltac:(by injection Hr as <-).
Qed.

Definition example_round_obligations : list Obligation :=
  [ORetire (UBatch 0 example_batch_digest) [3; 4];
   OReconcileChain (USingleton 1 3) 1 [3] false None None;
   ODeliver 2 3 7 [0] None;
   OCast 0 [mk_draft 3 1] None false].

Definition planned_obligations (r : result (RoundObligations * RoundPlan) PlanFailure)
    : list Obligation * RoundPlanAction :=
  match r with
  | Ok (o, plan) => (ro_obligations o, rp_primary_action plan)
  | Err _ => ([], AIdle)
  end.

Lemma example_round_planned : exists o plan,
  plan_round_classified example_round_snapshot [3] = Ok (o, plan)
  /\ classify_round example_round_snapshot [3] = Ok o
  /\ ro_obligations o = example_round_obligations.
Proof.
  assert (planned_obligations (plan_round_classified example_round_snapshot [3])
    = (example_round_obligations, AVote)) as Hr by (vm_compute; reflexivity).
  destruct (plan_round_classified example_round_snapshot [3]) as [[o plan]|] eqn:Hp; [|done].
  exists o, plan. cbn in Hr. split_and!; [done|by eapply planned|congruence].
Qed.

Lemma example_done_planned : exists o plan,
  plan_round_classified example_done_snapshot [3] = Ok (o, plan) /\ rp_primary_action plan = ADone.
Proof.
  assert (planned_obligations (plan_round_classified example_done_snapshot [3]) = ([], ADone)) as Hr
    by (vm_compute; reflexivity).
  destruct (plan_round_classified example_done_snapshot [3]) as [[o plan]|] eqn:Hp; [|done].
  exists o, plan. cbn in Hr. split; [done|congruence].
Qed.

Definition example_units : list VoteUnit :=
  [mk_unit (UBatch 0 example_batch_digest) 0
     [mk_member 3 (Some (example_member 3 0)); mk_member 4 (Some (example_member 4 1))] VCommitted;
   singleton_unit 1 3 (example_vote VSubmitted None (example_recovery 3 0 None));
   singleton_unit 2 3 (example_vote VConfirmed (Some 7) (example_recovery 3 7 None))].

Lemma units_partition_votes_witness :
  group_vote_units example_round_snapshot [(3, Choice 1)] = Ok example_units
  /\ concat (map unit_keys example_units) ≡ₚ map fst (sn_votes example_round_snapshot).
Proof.
  assert (group_vote_units example_round_snapshot [(3, Choice 1)] = Ok example_units) as Hg
    by (vm_compute; reflexivity).
  split; [exact Hg|].
  exact (proj1 (units_partition_votes _ _ _ example_snapshot_wf Hg)).
Defined.




Lemma no_choice_is_lost_witness : exists o,
  classify_round example_round_snapshot [3] = Ok o
  /\ ((exists drafts blocked signs, OCast 0 drafts blocked signs ∈ ro_obligations o
          /\ mk_draft 3 1 ∈ drafts)
      \/ 3 ∈ ro_withheld_casts o
      \/ exists vote, row example_round_snapshot 0 3 vote).
Proof.
  destruct example_round_planned as (o&plan&_&Ho&_). exists o. split; [exact Ho|].
  destruct (no_choice_is_lost example_round_snapshot [3] o 0 3 1 example_snapshot_wf Ho
    ltac:(left) ltac:(reflexivity) ltac:(left)) as [Hc|[Hc|(vote&Hc&_)]];
    [left; exact Hc|right; left; exact Hc|right; right; exists vote; exact Hc].
Defined.

Lemma departed_unit_is_retired_witness : exists o,
  ORetire (UBatch 0 example_batch_digest) [3; 4] ∈ ro_obligations o.
Proof.
  destruct example_round_planned as (o&plan&_&Ho&_). exists o.
  apply (departed_unit_is_retired example_round_snapshot [3] example_units o
    (mk_unit (UBatch 0 example_batch_digest) 0
       [mk_member 3 (Some (example_member 3 0)); mk_member 4 (Some (example_member 4 1))] VCommitted)
    example_snapshot_wf Ho ltac:(vm_compute; reflexivity) ltac:(left) ltac:(reflexivity)).
  exists 4. split; [right; left|]. intros Hin. apply list_elem_of_singleton in Hin. discriminate.
Defined.

Lemma planning_never_panics_witness :
  wf_snapshot example_round_snapshot
  /\ plan_round_classified example_round_snapshot [3] <> Err PlanPanic.
Proof.
  split; [exact example_snapshot_wf|]. exact (planning_never_panics _ [3] example_snapshot_wf).
Defined.

Lemma plan_steps_resolve_witness : exists o plan,
  plan_round_classified example_round_snapshot [3] = Ok (o, plan)
  /\ StronglySorted (fun x y => step_leb x y = true) (rp_next_steps plan).
Proof.
  destruct example_round_planned as (o&plan&Hp&_&_). exists o, plan. split; [exact Hp|].
  exact (proj1 (plan_steps_resolve _ _ o plan example_snapshot_wf Hp)).
Defined.

Lemma done_owes_only_background_witness : exists o plan,
  plan_round_classified example_done_snapshot [3] = Ok (o, plan)
  /\ Forall is_background (ro_obligations o).
Proof.
  destruct example_done_planned as (o&plan&Hp&Hd). exists o, plan. split; [exact Hp|].
  apply (done_owes_only_background _ _ o plan example_done_wf Hp Hd).
Defined.
