(* ===== verification/Bundling.v ===== *)
(** * Note bundle planning

    Models [note_bundling.rs]: the policy of a plan and the version 1 planner,
    which sorts the selected notes by value, packs them into bundles, drops
    bundles worth less than one ballot, orders the rest and trims a cheap tail
    within a privacy budget. Sums the source keeps in a [u64] wrap here as they
    do there; counts of notes and bundles are bounded by memory and are plain
    numbers. *)

From stdpp Require Import base gmap strings list numbers.
From S2P Require Import Prelude Ordered Identity Outcome Lifecycle Record.
Local Open Scope Z_scope.
Local Open Scope voting_scope.

(** ** Constants *)
Definition BALLOT_DIVISOR : Z := 12500000.
Definition BUNDLE_NOTE_SLOTS : nat := 5.
Definition MINIMUM_VOTING_NOTE_COUNT : nat := BUNDLE_NOTE_SLOTS.
Definition MINIMUM_VOTING_WEIGHT_ZATOSHI : Z := BALLOT_DIVISOR.
Definition RECOVERABLE_V1_MAX_REAL_NOTES_PER_BUNDLE : nat := 5.
Definition RECOVERABLE_V1_BUNDLE_ADDITION_THRESHOLD_ZATOSHI : Z := 25000 * 100000000.
Definition RECOVERABLE_V1_MAX_PRIVACY_BUNDLES : nat := 2.
Definition RECOVERABLE_V1_PRIVACY_DROP_BPS : Z := 100.
Definition RECOVERABLE_V1_MAX_PRIVACY_DROP_ZATOSHI : Z := 100000000000.
Definition MAX_PRIVACY_DROP_BPS : Z := 500.
Definition BPS_DENOMINATOR : Z := 10000.

(** ** Notes *)
Record NoteInfo := mk_note {
  note_commitment : list Z;
  note_nullifier : list Z;
  note_value : Z;
  note_position : Z;
  note_diversifier : list Z;
  note_rho : list Z;
  note_rseed : list Z;
  note_scope : Z;
  note_ufvk_str : string
}.

#[global] Instance NoteInfo_eq_dec : EqDecision NoteInfo.
Proof. solve_decision. Defined.

(** ** Policies *)
Inductive BundlePlannerVersion := PlannerV1.

Record PrivacyTrimPolicy := mk_trim_policy {
  trim_max_bundles : nat;
  trim_drop_bps : Z;
  trim_max_drop_zatoshi : option Z
}.

Record BundlePolicy := mk_bundle_policy {
  planner_version : BundlePlannerVersion;
  max_real_notes_per_bundle : nat;
  bundle_addition_threshold : option Z;
  privacy_trim_policy : option PrivacyTrimPolicy
}.

Definition trim_policy_default : PrivacyTrimPolicy :=
  mk_trim_policy RECOVERABLE_V1_MAX_PRIVACY_BUNDLES RECOVERABLE_V1_PRIVACY_DROP_BPS
    (Some RECOVERABLE_V1_MAX_PRIVACY_DROP_ZATOSHI).

Definition bundle_policy_new (max_real_notes : nat) : result BundlePolicy VotingError :=
  if bool_decide (1 <= max_real_notes <= BUNDLE_NOTE_SLOTS)%nat
  then Ok (mk_bundle_policy PlannerV1 max_real_notes None (Some trim_policy_default))
  else Err (VInvalidInput (lit "max_real_notes_per_bundle must be in 1..="
         ++ decimal (Z.of_nat BUNDLE_NOTE_SLOTS) ++ lit ", got "
         ++ decimal (Z.of_nat max_real_notes))).

Definition with_bundle_addition_threshold (p : BundlePolicy) (threshold : Z) : BundlePolicy :=
  mk_bundle_policy (planner_version p) (max_real_notes_per_bundle p) (Some threshold)
    (privacy_trim_policy p).

Definition with_max_privacy_bundles (p : BundlePolicy) (max_bundles : option nat)
    : BundlePolicy :=
  mk_bundle_policy (planner_version p) (max_real_notes_per_bundle p)
    (bundle_addition_threshold p)
    (match max_bundles with
     | Some m =>
         let t := default trim_policy_default (privacy_trim_policy p) in
         Some (mk_trim_policy m (trim_drop_bps t) (trim_max_drop_zatoshi t))
     | None => None
     end).

Definition with_privacy_drop_bps (p : BundlePolicy) (bps : Z)
    : result BundlePolicy VotingError :=
  if MAX_PRIVACY_DROP_BPS <? bps
  then Err (VInvalidInput (lit "privacy_drop_bps must be <= " ++ decimal MAX_PRIVACY_DROP_BPS
         ++ lit ", got " ++ decimal bps))
  else Ok (mk_bundle_policy (planner_version p) (max_real_notes_per_bundle p)
         (bundle_addition_threshold p)
         (match privacy_trim_policy p with
          | Some t => Some (mk_trim_policy (trim_max_bundles t) bps (trim_max_drop_zatoshi t))
          | None => None
          end)).

Definition with_max_privacy_drop_zatoshi (p : BundlePolicy) (clamp : option Z) : BundlePolicy :=
  mk_bundle_policy (planner_version p) (max_real_notes_per_bundle p)
    (bundle_addition_threshold p)
    (match privacy_trim_policy p with
     | Some t => Some (mk_trim_policy (trim_max_bundles t) (trim_drop_bps t) clamp)
     | None => None
     end).

(** Deserialization goes through the builders. *)
Record UncheckedBundlePolicy := mk_unchecked {
  unchecked_max_real_notes : nat;
  unchecked_threshold : option Z;
  unchecked_trim : option PrivacyTrimPolicy
}.

Definition bundle_policy_try_from (v : UncheckedBundlePolicy)
    : result BundlePolicy VotingError :=
  let? policy := bundle_policy_new (unchecked_max_real_notes v) in
  let policy := match unchecked_threshold v with
                | Some threshold => with_bundle_addition_threshold policy threshold
                | None => policy
                end in
  match unchecked_trim v with
  | None => Ok (with_max_privacy_bundles policy None)
  | Some t =>
      let? policy := with_privacy_drop_bps
        (with_max_privacy_bundles policy (Some (trim_max_bundles t))) (trim_drop_bps t) in
      Ok (with_max_privacy_drop_zatoshi policy (trim_max_drop_zatoshi t))
  end.

Definition bundle_policy_default : BundlePolicy :=
  mk_bundle_policy PlannerV1 RECOVERABLE_V1_MAX_REAL_NOTES_PER_BUNDLE None
    (Some trim_policy_default).

Definition recoverable_bundle_policy_v1 : BundlePolicy :=
  mk_bundle_policy PlannerV1 RECOVERABLE_V1_MAX_REAL_NOTES_PER_BUNDLE
    (Some RECOVERABLE_V1_BUNDLE_ADDITION_THRESHOLD_ZATOSHI)
    (Some (mk_trim_policy RECOVERABLE_V1_MAX_PRIVACY_BUNDLES RECOVERABLE_V1_PRIVACY_DROP_BPS
       (Some RECOVERABLE_V1_MAX_PRIVACY_DROP_ZATOSHI))).

Definition privacy_drop_budget_v1 (p : BundlePolicy) (total_value : Z) : Z :=
  match privacy_trim_policy p with
  | None => 0
  | Some t =>
      let budget := total_value * trim_drop_bps t / BPS_DENOMINATOR in
      match trim_max_drop_zatoshi t with
      | Some clamp => Z.min budget clamp
      | None => budget
      end
  end.

(** Value descending, then position ascending. *)
Definition note_leb (a b : NoteInfo) : bool :=
  (note_value b <? note_value a)
  || ((note_value b =? note_value a) && (note_position a <=? note_position b)).

Definition position_leb (a b : NoteInfo) : bool := note_position a <=? note_position b.

(** A bundle with its total, as [(u64, Vec<NoteInfo>)]. *)
Notation Bundle := (Z * list NoteInfo)%type.

Definition first_position (b : Bundle) : Z :=
  match b.2 with n :: _ => note_position n | [] => u64_max end.

Definition bundle_leb (a b : Bundle) : bool :=
  (b.1 <? a.1) || ((b.1 =? a.1) && (first_position a <=? first_position b)).

(** ** The version 1 planner *)
Definition wrap_u64 (z : Z) : Z := z mod (u64_max + 1).

Definition bundle_addition_would_exceed_threshold_v1 (current_total note_value : Z)
    (threshold : option Z) : bool :=
  match threshold with
  | Some threshold =>
      match checked_add_u64 current_total note_value with
      | Some total => threshold <? total
      | None => true
      end
  | None => false
  end.

Definition needs_new_bundle (p : BundlePolicy) (bundles : list Bundle) (note : NoteInfo) : bool :=
  match list.last bundles with
  | Some (total, notes) =>
      if bool_decide (max_real_notes_per_bundle p <= length notes)%nat then true
      else if bool_decide (notes = []) then false
      else bundle_addition_would_exceed_threshold_v1 total (note_value note)
             (bundle_addition_threshold p)
  | None => true
  end.

Definition pack_note (p : BundlePolicy) (bundles : list Bundle) (note : NoteInfo) : list Bundle :=
  let bundles := if needs_new_bundle p bundles note then bundles ++ [(0, [])] else bundles in
  alter (fun b => (wrap_u64 (b.1 + note_value note), b.2 ++ [note])) (length bundles - 1)%nat
    bundles.

Definition pack_notes (p : BundlePolicy) (sorted : list NoteInfo) : list Bundle :=
  foldl (pack_note p) [] sorted.

Definition quantized (total : Z) : Z := total / BALLOT_DIVISOR * BALLOT_DIVISOR.

(** Step 4: bundles below one ballot go. *)
Definition surviving_bundles (bundles : list Bundle) : list Bundle :=
  filter (fun b => BALLOT_DIVISOR <= b.1) bundles.

Definition note_count (bundles : list Bundle) : nat := sum_list_with (fun b => length b.2) bundles.

Definition total_weight (bundles : list Bundle) : Z :=
  foldl (fun weight b => wrap_u64 (weight + quantized b.1)) 0 bundles.

Record PrivacyTrim := mk_trim {
  dropped_bundles : nat;
  dropped_notes : nat;
  dropped_value : Z
}.

(** Step 7: pops the last bundle, here the head of the reversed list, while
    there are more than [target] and the budget allows it. *)
Fixpoint trim_tail (target : nat) (budget : Z) (reversed : list Bundle) (value weight : Z)
    (bundles notes : nat) : list Bundle * Z * Z * nat * nat :=
  match reversed with
  | (total, dropped) :: rest =>
      if bool_decide (length reversed <= target)%nat then (reversed, value, weight, bundles, notes)
      else if budget <? value + total then (reversed, value, weight, bundles, notes)
      else trim_tail target budget rest (value + total) (wrap_u64 (weight - quantized total))
             (S bundles) (notes + length dropped)%nat
  | [] => ([], value, weight, bundles, notes)
  end.

Record ChunkResult := mk_chunk {
  chunk_bundles : list (list NoteInfo);
  chunk_eligible_weight : Z;
  chunk_dropped_count : nat;
  chunk_privacy_trim : PrivacyTrim
}.

Definition sum_values (notes : list NoteInfo) : Z := foldr (fun n s => note_value n + s) 0 notes.

(** The ordered surviving bundles before the trim. *)
Definition ordered_bundles (p : BundlePolicy) (notes : list NoteInfo) : list Bundle :=
  stable_sort bundle_leb
    (map (fun b => (b.1, stable_sort position_leb b.2))
       (surviving_bundles (pack_notes p (stable_sort note_leb notes)))).

Definition chunk_notes_v1_with_policy (notes : list NoteInfo) (p : BundlePolicy) : ChunkResult :=
  match notes with
  | [] => mk_chunk [] 0 0 (mk_trim 0 0 0)
  | _ =>
      let packed := pack_notes p (stable_sort note_leb notes) in
      let surviving := ordered_bundles p notes in
      let weight := total_weight (surviving_bundles packed) in
      let dropped_count := (note_count packed - note_count (surviving_bundles packed))%nat in
      match privacy_trim_policy p with
      | Some t =>
          let budget := privacy_drop_budget_v1 p (sum_values notes) in
          let '(kept, value, weight, bundles, dropped) :=
            trim_tail (Nat.max (trim_max_bundles t) 1) budget (rev surviving) 0 weight 0 0 in
          mk_chunk (map snd (rev kept)) weight dropped_count
            (mk_trim bundles dropped (if value <=? u64_max then value else u64_max))
      | None => mk_chunk (map snd surviving) weight dropped_count (mk_trim 0 0 0)
      end
  end.

Definition chunk_notes_with_policy (notes : list NoteInfo) (p : BundlePolicy) : ChunkResult :=
  match planner_version p with PlannerV1 => chunk_notes_v1_with_policy notes p end.

(** ** Canonical plans and eligibility *)
Definition validate_32_bytes (v : list Z) (name : text) : result unit VotingError :=
  if bool_decide (length v = 32%nat) then Ok tt
  else Err (VInvalidInput (name ++ lit " must be 32 bytes, got " ++ decimal (Z.of_nat (length v)))).

Definition validate_note (i : nat) (note : NoteInfo) : result unit VotingError :=
  let? _ := validate_32_bytes (note_commitment note)
    (lit "notes[" ++ decimal (Z.of_nat i) ++ lit "].commitment") in
  validate_32_bytes (note_nullifier note)
    (lit "notes[" ++ decimal (Z.of_nat i) ++ lit "].nullifier").

Fixpoint validate_notes_from (i : nat) (notes : list NoteInfo) : result unit VotingError :=
  match notes with
  | [] => Ok tt
  | note :: rest => let? _ := validate_note i note in validate_notes_from (S i) rest
  end.

Definition validate_notes_for_round (notes : list NoteInfo) : result unit VotingError :=
  if bool_decide (notes = []) then Err (VInvalidInput (lit "notes must not be empty"))
  else validate_notes_from 0 notes.

(** Keeps the first note of every nullifier. *)
Fixpoint distinct_from (seen : list (list Z)) (notes : list NoteInfo) : list NoteInfo :=
  match notes with
  | [] => []
  | note :: rest =>
      if bool_decide (note_nullifier note ∈ seen) then distinct_from seen rest
      else note :: distinct_from (note_nullifier note :: seen) rest
  end.

Definition distinct_notes_by_nullifier_v1 (notes : list NoteInfo) : list NoteInfo :=
  distinct_from [] notes.

Definition canonical_note_bundle_plan_for_notes (notes : list NoteInfo) (p : BundlePolicy)
    : result ChunkResult VotingError :=
  let? _ := validate_notes_for_round notes in
  Ok (chunk_notes_v1_with_policy (distinct_notes_by_nullifier_v1 notes) p).

Record MinimumVotingEligibility := mk_eligibility {
  distinct_note_count : nat;
  eligible_weight : Z
}.

Definition is_eligible (e : MinimumVotingEligibility) : bool :=
  MINIMUM_VOTING_WEIGHT_ZATOSHI <=? eligible_weight e.

Definition minimum_voting_eligibility_and_plan_for_notes (notes : list NoteInfo)
    (p : BundlePolicy) : result (MinimumVotingEligibility * ChunkResult) VotingError :=
  if bool_decide (notes = [])
  then Ok (mk_eligibility 0 0, chunk_notes_with_policy notes p)
  else
    let? plan := canonical_note_bundle_plan_for_notes notes p in
    Ok (mk_eligibility (sum_list_with length (chunk_bundles plan)) (chunk_eligible_weight plan),
        plan).

Definition minimum_voting_eligibility_error (e : MinimumVotingEligibility) : VotingError :=
  VOther (lit "minimum voting eligibility requires at least one eligible voting bundle with "
    ++ decimal MINIMUM_VOTING_WEIGHT_ZATOSHI ++ lit " zatoshi voting weight; selected "
    ++ decimal (Z.min (Z.of_nat (distinct_note_count e)) u32_max)
    ++ lit " distinct notes across eligible bundles with "
    ++ decimal (eligible_weight e) ++ lit " zatoshi eligible bundle weight").

Definition validate_minimum_voting_eligibility_for_notes (notes : list NoteInfo)
    (p : BundlePolicy) : result MinimumVotingEligibility VotingError :=
  let? r := minimum_voting_eligibility_and_plan_for_notes notes p in
  if is_eligible r.1 then Ok r.1 else Err (minimum_voting_eligibility_error r.1).

Definition notes_for_pir_proof_cache (notes : list NoteInfo) (p : BundlePolicy)
    : result (list NoteInfo) VotingError :=
  if bool_decide (notes = []) then Ok []
  else let? plan := canonical_note_bundle_plan_for_notes notes p in
       Ok (mjoin (chunk_bundles plan)).
