(* ===== verification/BundlingProofs.v ===== *)
(** * Correctness of the bundle planner

    No note is lost or used twice; every bundle is within capacity and worth at
    least one ballot; the reported weight and losses are exact; the order is
    canonical; and the privacy trim stays in its budget while reaching the
    smallest number of bundles the budget allows. *)

From Stdlib Require Import ZifyBool.
From stdpp Require Import base gmap strings list numbers sorting.
From S2P Require Import Prelude Ordered Identity Outcome Lifecycle Record Bundling.
Local Open Scope Z_scope.
Local Open Scope voting_scope.

Lemma note_leb_total a b : note_leb a b = true \/ note_leb b a = true.
Proof. unfold note_leb. lia. Qed.

Lemma note_leb_trans a b c : note_leb a b = true -> note_leb b c = true -> note_leb a c = true.
Proof. unfold note_leb. lia. Qed.

Lemma position_leb_total a b : position_leb a b = true \/ position_leb b a = true.
Proof. unfold position_leb. lia. Qed.

Lemma position_leb_trans a b c :
  position_leb a b = true -> position_leb b c = true -> position_leb a c = true.
Proof. unfold position_leb. lia. Qed.

Lemma bundle_leb_total a b : bundle_leb a b = true \/ bundle_leb b a = true.
Proof. unfold bundle_leb. lia. Qed.

Lemma bundle_leb_trans a b c :
  bundle_leb a b = true -> bundle_leb b c = true -> bundle_leb a c = true.
Proof. unfold bundle_leb. lia. Qed.

Lemma NoDup_map_inv_in {A B : Type} (f : A -> B) (l : list A) a b :
  NoDup (map f l) -> a ∈ l -> b ∈ l -> f a = f b -> a = b.
Proof.
  intros Hn [i Ha]%list_elem_of_lookup [j Hb]%list_elem_of_lookup Hf.
  assert (i = j) as ->; [|congruence].
  eapply (NoDup_lookup (f <$> l)); [done|by rewrite list_lookup_fmap, Ha|].
  rewrite list_lookup_fmap, Hb. simpl. by rewrite Hf.
Qed.

(** ** Sums *)
Lemma sum_values_app l k : sum_values (l ++ k) = sum_values l + sum_values k.
Proof. induction l as [|n l IH]; simpl; [done|]. rewrite IH. lia. Qed.

#[global] Instance sum_values_proper : Proper ((≡ₚ) ==> eq) sum_values.
Proof. intros l k Hp. induction Hp; simpl; lia. Qed.

Lemma sum_values_nonneg l : Forall (fun n => 0 <= note_value n) l -> 0 <= sum_values l.
Proof. induction 1; simpl; lia. Qed.

Definition sum_totals (bundles : list Bundle) : Z := foldr (fun b s => b.1 + s) 0 bundles.

Definition sum_quantized (bundles : list Bundle) : Z :=
  foldr (fun b s => quantized b.1 + s) 0 bundles.

Lemma sum_totals_app l k : sum_totals (l ++ k) = sum_totals l + sum_totals k.
Proof. induction l as [|b l IH]; simpl; [done|]. rewrite IH. lia. Qed.

Lemma sum_quantized_app l k : sum_quantized (l ++ k) = sum_quantized l + sum_quantized k.
Proof. induction l as [|b l IH]; simpl; [done|]. rewrite IH. lia. Qed.

#[global] Instance sum_totals_proper : Proper ((≡ₚ) ==> eq) sum_totals.
Proof. intros l k Hp. induction Hp; simpl; lia. Qed.

#[global] Instance sum_quantized_proper : Proper ((≡ₚ) ==> eq) sum_quantized.
Proof. intros l k Hp. induction Hp; simpl; lia. Qed.

Lemma wrap_small z : 0 <= z <= u64_max -> wrap_u64 z = z.
Proof. intros Hz. apply Z.mod_small. lia. Qed.

(** ** Packing *)

(** Notes whose values the planner can add up in a [u64]. *)
Definition notes_fit (notes : list NoteInfo) : Prop :=
  Forall (fun n => 0 <= note_value n) notes /\ sum_values notes <= u64_max.

Definition within_threshold (p : BundlePolicy) (b : Bundle) : Prop :=
  forall threshold, bundle_addition_threshold p = Some threshold ->
    length b.2 = 1%nat \/ b.1 <= threshold.

Definition packed_bundle (p : BundlePolicy) (b : Bundle) : Prop :=
  (0 < length b.2 <= max_real_notes_per_bundle p)%nat /\
  b.1 = sum_values b.2 /\ within_threshold p b.

Definition bundled_notes (bundles : list Bundle) : list NoteInfo := mjoin (map snd bundles).

Lemma bundled_notes_app l k : bundled_notes (l ++ k) = bundled_notes l ++ bundled_notes k.
Proof. unfold bundled_notes. by rewrite map_app, join_app. Qed.

Lemma alter_last (f : Bundle -> Bundle) l b :
  alter f (length (l ++ [b]) - 1)%nat (l ++ [b]) = l ++ [f b].
Proof.
  rewrite length_app. simpl. replace (length l + 1 - 1)%nat with (length l + 0)%nat by lia.
  by rewrite alter_app_r.
Qed.

Lemma pack_note_spec p bundles note :
  (0 < max_real_notes_per_bundle p)%nat ->
  Forall (packed_bundle p) bundles ->
  Forall (fun n => 0 <= note_value n) (bundled_notes bundles ++ [note]) ->
  sum_values (bundled_notes bundles ++ [note]) <= u64_max ->
  Forall (packed_bundle p) (pack_note p bundles note) /\
  bundled_notes (pack_note p bundles note) = bundled_notes bundles ++ [note].
Proof.
  intros Hmax Hb Hpos Hfit. unfold pack_note, needs_new_bundle.
  rewrite Forall_app, Forall_singleton in Hpos. destruct Hpos as [Hpos Hn].
  rewrite sum_values_app in Hfit. simpl in Hfit. rewrite Z.add_0_r in Hfit.
  assert (Forall (packed_bundle p) (bundles ++ [(wrap_u64 (0 + note_value note), [note])]) /\
    bundled_notes (bundles ++ [(wrap_u64 (0 + note_value note), [note])])
      = bundled_notes bundles ++ [note]) as Hnew.
  { pose proof (sum_values_nonneg _ Hpos). rewrite wrap_small by lia.
    split; [|by rewrite bundled_notes_app]. apply Forall_app. split; [done|].
    apply Forall_singleton. split_and!; simpl; [lia..|]. intros t Ht. by left. }
  destruct bundles as [|b0 bundles0 _] using rev_ind; [exact Hnew|].
  rewrite last_snoc. destruct b0 as [total notes].
  case_bool_decide as Hfull; [by rewrite alter_last|].
  rewrite Forall_app, Forall_singleton in Hb. destruct Hb as [Hb (Hlen & Htot & Hthr)].
  simpl in *.
  rewrite bool_decide_eq_false_2 by (intros ->; simpl in Hlen; lia).
  destruct (bundle_addition_would_exceed_threshold_v1 _ _ _) eqn:Hexceed; [by rewrite alter_last|].
  rewrite alter_last. simpl. rewrite bundled_notes_app in *. unfold bundled_notes at 2 in Hpos.
  unfold bundled_notes at 2 in Hfit. simpl in Hpos, Hfit. rewrite app_nil_r in Hpos, Hfit.
  apply Forall_app in Hpos as [Hpos1 Hpos2]. rewrite sum_values_app in Hfit.
  pose proof (sum_values_nonneg _ Hpos1). pose proof (sum_values_nonneg _ Hpos2).
  rewrite wrap_small by lia. split.
  - apply Forall_app. split; [done|]. apply Forall_singleton. split_and!; simpl.
    + rewrite length_app. simpl. lia.
    + rewrite length_app. simpl. lia.
    + rewrite sum_values_app. simpl. lia.
    + intros t Ht. right. simpl. unfold bundle_addition_would_exceed_threshold_v1 in Hexceed.
      rewrite Ht in Hexceed. unfold checked_add_u64 in Hexceed.
      destruct (_ <=? u64_max); [lia|done].
  - rewrite bundled_notes_app. unfold bundled_notes. simpl. by rewrite !app_nil_r, <- !app_assoc.
Qed.

Lemma notes_fit_app l k : notes_fit (l ++ k) -> notes_fit l.
Proof.
  intros [Hpos Hsum]. apply Forall_app in Hpos as [Hl Hk].
  rewrite sum_values_app in Hsum. pose proof (sum_values_nonneg _ Hk). split; [done|lia].
Qed.

Lemma pack_notes_spec p sorted :
  (0 < max_real_notes_per_bundle p)%nat -> notes_fit sorted ->
  Forall (packed_bundle p) (pack_notes p sorted) /\ bundled_notes (pack_notes p sorted) = sorted.
Proof.
  intros Hmax. induction sorted as [|note sorted IH] using rev_ind; intros Hfit.
  { split; [constructor|done]. }
  destruct (IH (notes_fit_app _ _ Hfit)) as [Hb Heq]. destruct Hfit as [Hpos Hsum].
  unfold pack_notes. rewrite foldl_app. simpl. fold (pack_notes p sorted).
  rewrite <- Heq at 3. apply pack_note_spec; [done|done|by rewrite Heq..].
Qed.

#[global] Instance notes_fit_proper : Proper ((≡ₚ) ==> iff) notes_fit.
Proof. intros l k Hp. unfold notes_fit. by rewrite Hp. Qed.

(** ** Ordered bundles *)
Lemma note_count_bundled bundles : note_count bundles = length (bundled_notes bundles).
Proof.
  unfold note_count, bundled_notes. induction bundles as [|b bundles IH]; [done|].
  simpl. by rewrite length_app, IH.
Qed.

#[global] Instance bundled_notes_proper : Proper ((≡ₚ) ==> (≡ₚ)) bundled_notes.
Proof. intros l k Hp. unfold bundled_notes. by rewrite Hp. Qed.

Definition sort_bundle (b : Bundle) : Bundle := (b.1, stable_sort position_leb b.2).

Lemma bundled_notes_sorted bundles : bundled_notes (map sort_bundle bundles) ≡ₚ bundled_notes bundles.
Proof.
  unfold bundled_notes. induction bundles as [|b bundles IH]; simpl; [done|].
  by rewrite stable_sort_perm, IH.
Qed.

(** A bundle of the plan: packed, worth a ballot, in tree order. *)
Definition planned_bundle (p : BundlePolicy) (b : Bundle) : Prop :=
  packed_bundle p b /\ BALLOT_DIVISOR <= b.1 /\
  StronglySorted (fun a c => note_position a <= note_position c) b.2.

Lemma planned_packed p b : planned_bundle p b -> packed_bundle p b.
Proof. by intros (Hb & _). Qed.

Lemma StronglySorted_iff {A : Type} (R S : A -> A -> Prop) l :
  (forall a b, R a b -> S a b) -> StronglySorted R l -> StronglySorted S l.
Proof.
  intros Himp. induction 1 as [|a l Hl IH Ha]; constructor; [done|].
  apply Forall_impl with (1 := Ha). auto.
Qed.

Lemma sort_bundle_planned p b :
  packed_bundle p b -> BALLOT_DIVISOR <= b.1 -> planned_bundle p (sort_bundle b).
Proof.
  intros (Hlen & Htot & Hthr) Hb. unfold planned_bundle, packed_bundle, within_threshold in *. simpl.
  assert (stable_sort position_leb b.2 ≡ₚ b.2) as Hp by apply stable_sort_perm.
  rewrite (Permutation_length Hp). split_and!; try done; [lia|lia|by rewrite Hp|].
  eapply StronglySorted_iff, stable_sort_sorted; [|apply position_leb_total|apply position_leb_trans].
  intros a c. unfold position_leb. lia.
Qed.

Definition dropped_bundles_of (p : BundlePolicy) (notes : list NoteInfo) : list Bundle :=
  filter (fun b => ~ BALLOT_DIVISOR <= b.1) (pack_notes p (stable_sort note_leb notes)).

Lemma ordered_bundles_spec p notes :
  (0 < max_real_notes_per_bundle p)%nat -> notes_fit notes ->
  Forall (planned_bundle p) (ordered_bundles p notes) /\
  StronglySorted (fun a b => bundle_leb a b = true) (ordered_bundles p notes) /\
  notes ≡ₚ bundled_notes (ordered_bundles p notes) ++ bundled_notes (dropped_bundles_of p notes).
Proof.
  intros Hmax Hfit.
  assert (stable_sort note_leb notes ≡ₚ notes) as Hsort by apply stable_sort_perm.
  destruct (pack_notes_spec p (stable_sort note_leb notes) Hmax) as [Hb Heq]; [by rewrite Hsort|].
  unfold ordered_bundles, surviving_bundles. fold sort_bundle. split_and!.
  - rewrite stable_sort_perm. apply Forall_fmap, Forall_forall. intros b Hin.
    apply list_elem_of_filter in Hin as [Hval Hin].
    apply sort_bundle_planned; [|done]. by eapply Forall_forall in Hb.
  - apply stable_sort_sorted; [apply bundle_leb_total|apply bundle_leb_trans].
  - rewrite stable_sort_perm, bundled_notes_sorted, <- bundled_notes_app.
    unfold dropped_bundles_of. rewrite filter_app_complement, Heq. by rewrite Hsort.
Qed.

(** ** Weight *)
Lemma quantized_bounds t : 0 <= t -> 0 <= quantized t <= t.
Proof.
  intros Ht. unfold quantized, BALLOT_DIVISOR.
  Z.to_euclidean_division_equations. lia.
Qed.

Lemma sum_quantized_bounds bundles :
  Forall (fun b => 0 <= b.1) bundles -> 0 <= sum_quantized bundles <= sum_totals bundles.
Proof.
  induction 1 as [|b bundles Hb _ IH]; simpl; [lia|]. pose proof (quantized_bounds b.1 Hb). lia.
Qed.

Lemma total_weight_exact bundles :
  Forall (fun b => 0 <= b.1) bundles -> sum_totals bundles <= u64_max ->
  total_weight bundles = sum_quantized bundles.
Proof.
  intros Hpos Hsum. unfold total_weight.
  assert (forall acc, 0 <= acc -> acc + sum_totals bundles <= u64_max ->
    foldl (fun weight b => wrap_u64 (weight + quantized b.1)) acc bundles
      = acc + sum_quantized bundles) as Hgen.
  { clear Hsum. induction Hpos as [|b bundles Hb Hbs IH]; intros acc Ha Hacc; simpl in *; [lia|].
    pose proof (quantized_bounds b.1 Hb). pose proof (sum_quantized_bounds _ Hbs).
    rewrite wrap_small by lia. rewrite IH by lia. lia. }
  rewrite Hgen; lia.
Qed.

Lemma sum_totals_values p bundles :
  Forall (packed_bundle p) bundles -> sum_totals bundles = sum_values (bundled_notes bundles).
Proof.
  unfold bundled_notes. induction 1 as [|b bundles (_ & Hb & _) _ IH]; simpl; [done|].
  rewrite sum_values_app. lia.
Qed.

Lemma packed_nonneg p bundles :
  Forall (packed_bundle p) bundles ->
  Forall (fun n => 0 <= note_value n) (bundled_notes bundles) -> Forall (fun b => 0 <= b.1) bundles.
Proof.
  unfold bundled_notes. induction 1 as [|b bundles (_ & Hb & _) _ IH]; simpl; [done|].
  intros Hpos. apply Forall_app in Hpos as [Hb' Hpos]. constructor; [|by apply IH].
  pose proof (sum_values_nonneg _ Hb'). lia.
Qed.

(** ** The privacy trim *)
Lemma trim_tail_spec target budget reversed : forall value weight bundles notes kept value' weight' bundles' notes',
  trim_tail target budget reversed value weight bundles notes
    = (kept, value', weight', bundles', notes') ->
  Forall (fun b => 0 <= b.1) reversed -> sum_quantized reversed <= weight <= u64_max ->
  exists dropped, reversed = dropped ++ kept /\
    value' = value + sum_totals dropped /\ weight' = weight - sum_quantized dropped /\
    (bundles' = bundles + length dropped)%nat /\ (notes' = notes + note_count dropped)%nat /\
    (dropped <> [] -> value' <= budget /\ (target <= length kept)%nat) /\
    ((length kept <= target)%nat \/ exists b rest, kept = b :: rest /\ budget < value' + b.1).
Proof.
  induction reversed as [|[total notes0] rest IH];
    intros value weight bundles notes kept value' weight' bundles' notes' Htrim Hpos Hw; simpl in Htrim.
  - injection Htrim as <- <- <- <- <-. exists []. simpl. split_and!; try done; try lia.
  - case_bool_decide as Hlen;
      [injection Htrim as <- <- <- <- <-; exists []; simpl; split_and!; try done; try lia; by left|].
    destruct (budget <? value + total) eqn:Hb;
      [injection Htrim as <- <- <- <- <-; exists []; simpl; split_and!; try done; try lia;
       right; eexists _, rest; split; [done|simpl; lia]|].
    apply Forall_cons in Hpos as [Ht Hpos]. simpl in Hw, Ht.
    pose proof (quantized_bounds total Ht). pose proof (sum_quantized_bounds _ Hpos).
    rewrite wrap_small in Htrim by lia.
    destruct (IH _ _ _ _ _ _ _ _ _ Htrim Hpos) as (dropped & -> & Hv & Hw' & Hbs & Hns & Hbud & Hmax);
      [lia|].
    exists ((total, notes0) :: dropped). simpl in *. split_and!; try done; try lia.
    intros _. split.
    + destruct dropped as [|d dropped]; [simpl in *; lia|]. by apply Hbud.
    + rewrite length_app in Hlen. destruct dropped as [|d dropped]; [simpl in *; lia|]. by apply Hbud.
Qed.

(** The [k] smallest totals cost least. *)
Lemma sum_take_cons_le k (b : Bundle) l :
  (k <= length l)%nat -> Forall (fun c => b.1 <= c.1) l ->
  sum_totals (take k (b :: l)) <= sum_totals (take k l).
Proof.
  intros Hk Hb. destruct k as [|k]; [done|]. simpl.
  revert l Hk Hb. induction k as [|k IH]; intros [|c l] Hk Hb; simpl in *; try lia.
  - apply Forall_cons in Hb as [Hb _]. destruct l; simpl; lia.
  - apply Forall_cons in Hb as [Hc Hb]. specialize (IH l). simpl in IH.
    destruct l as [|d l]; simpl in *; [lia|]. specialize (IH ltac:(lia) Hb). lia.
Qed.

Lemma cheapest_bundles l removed :
  StronglySorted (fun a b : Bundle => a.1 <= b.1) l -> removed ⊆+ l ->
  sum_totals (take (length removed) l) <= sum_totals removed.
Proof.
  intros Hsorted Hsub. apply submseteq_sublist_r in Hsub as (s & Hperm & Hsub).
  rewrite (Permutation_length Hperm), Hperm. clear removed Hperm.
  induction Hsub as [|b s l Hsub IH|b s l Hsub IH]; simpl; [done| |].
  - apply StronglySorted_inv in Hsorted as [Hl _]. specialize (IH Hl). lia.
  - apply StronglySorted_inv in Hsorted as [Hl Hb]. specialize (IH Hl).
    apply sublist_length in Hsub as Hlen.
    pose proof (sum_take_cons_le (length s) b l Hlen Hb). lia.
Qed.

Lemma sum_sort_bundles bundles :
  sum_quantized (map sort_bundle bundles) = sum_quantized bundles /\
  sum_totals (map sort_bundle bundles) = sum_totals bundles.
Proof. induction bundles as [|b bundles IH]; simpl; [done|]. lia. Qed.

(** ** The plan *)
Section plan.
Context (p : BundlePolicy) (notes : list NoteInfo).
Context (Hmax : (0 < max_real_notes_per_bundle p)%nat) (Hfit : notes_fit notes).

Notation plan := (chunk_notes_v1_with_policy notes p).
Notation ordered := (ordered_bundles p notes).
Notation budget := (privacy_drop_budget_v1 p (sum_values notes)).

Lemma ordered_nonneg : Forall (fun b => 0 <= b.1) ordered.
Proof.
  destruct (ordered_bundles_spec p notes Hmax Hfit) as (Hb & _).
  apply Forall_impl with (1 := Hb). intros b (_ & Hd & _). unfold BALLOT_DIVISOR in Hd. lia.
Qed.

Lemma ordered_sum : sum_totals ordered <= sum_values notes.
Proof.
  destruct (ordered_bundles_spec p notes Hmax Hfit) as (Hb & _ & Hperm).
  rewrite (sum_totals_values p) by by eapply Forall_impl, planned_packed.
  destruct Hfit as [Hpos _]. rewrite Hperm in Hpos. apply Forall_app in Hpos as [_ Hpos].
  rewrite Hperm at 2. rewrite sum_values_app. pose proof (sum_values_nonneg _ Hpos). lia.
Qed.

Lemma surviving_weight :
  total_weight (surviving_bundles (pack_notes p (stable_sort note_leb notes)))
    = sum_quantized ordered.
Proof.
  assert (sum_quantized ordered
    = sum_quantized (surviving_bundles (pack_notes p (stable_sort note_leb notes)))) as Hq.
  { unfold ordered_bundles. rewrite stable_sort_perm. apply sum_sort_bundles. }
  assert (sum_totals ordered
    = sum_totals (surviving_bundles (pack_notes p (stable_sort note_leb notes)))) as Ht.
  { unfold ordered_bundles. rewrite stable_sort_perm. apply sum_sort_bundles. }
  rewrite Hq. apply total_weight_exact.
  - apply Forall_forall. intros b Hin. apply list_elem_of_filter in Hin as [Hb _].
    unfold BALLOT_DIVISOR in Hb. lia.
  - rewrite <- Ht. pose proof ordered_sum. destruct Hfit. lia.
Qed.

Lemma surviving_dropped_count :
  (note_count (pack_notes p (stable_sort note_leb notes))
   - note_count (surviving_bundles (pack_notes p (stable_sort note_leb notes))))%nat
    = length (bundled_notes (dropped_bundles_of p notes)).
Proof.
  rewrite !note_count_bundled. unfold dropped_bundles_of, surviving_bundles.
  set (packed := pack_notes p (stable_sort note_leb notes)).
  pose proof (filter_app_complement (fun b : Bundle => BALLOT_DIVISOR <= b.1) packed) as Hp.
  assert (bundled_notes packed ≡ₚ bundled_notes (filter (fun b => BALLOT_DIVISOR <= b.1) packed)
    ++ bundled_notes (filter (fun b => ~ BALLOT_DIVISOR <= b.1) packed)) as Hb
    by by rewrite <- bundled_notes_app, Hp.
  rewrite (Permutation_length Hb), length_app. lia.
Qed.

(** The plan keeps a prefix of the ordered bundles and drops the rest. *)
Lemma plan_split :
  exists kept trimmed, ordered = kept ++ trimmed /\
    chunk_bundles plan = map snd kept /\
    chunk_eligible_weight plan = sum_quantized kept /\
    chunk_dropped_count plan = length (bundled_notes (dropped_bundles_of p notes)) /\
    chunk_privacy_trim plan = mk_trim (length trimmed) (length (bundled_notes trimmed))
      (sum_totals trimmed) /\
    match privacy_trim_policy p with
    | None => trimmed = []
    | Some t =>
        (trimmed <> [] -> sum_totals trimmed <= budget /\
           (Nat.max (trim_max_bundles t) 1 <= length kept)%nat) /\
        ((length kept <= Nat.max (trim_max_bundles t) 1)%nat \/
         exists init b, kept = init ++ [b] /\ budget < sum_totals trimmed + b.1)
    end.
Proof.
  destruct (decide (notes = [])) as [Hnil|Hne].
  { exists [], []. rewrite Hnil. split_and!; try done. destruct (privacy_trim_policy p); [|done].
    split; [done|]. left. simpl. lia. }
  assert (plan = match privacy_trim_policy p with
    | Some t =>
        let '(kept, value, weight, bundles, dropped) :=
          trim_tail (Nat.max (trim_max_bundles t) 1) budget (rev ordered) 0
            (sum_quantized ordered) 0 0 in
        mk_chunk (map snd (rev kept)) weight (length (bundled_notes (dropped_bundles_of p notes)))
          (mk_trim bundles dropped (if value <=? u64_max then value else u64_max))
    | None => mk_chunk (map snd ordered) (sum_quantized ordered)
        (length (bundled_notes (dropped_bundles_of p notes))) (mk_trim 0 0 0)
    end) as ->.
  { unfold chunk_notes_v1_with_policy. rewrite surviving_weight, surviving_dropped_count.
    by destruct notes. }
  destruct (privacy_trim_policy p) as [t|];
    [|exists ordered, []; rewrite app_nil_r; by split_and!].
  destruct (trim_tail _ _ _ _ _ _ _) as [[[[kept value] weight] bundles] dropped] eqn:Htrim.
  pose proof ordered_nonneg as Hpos. pose proof ordered_sum as Hsum.
  pose proof (sum_quantized_bounds _ Hpos) as Hq. destruct Hfit as [_ Hu64].
  apply trim_tail_spec in Htrim as (d & Hrev & -> & -> & -> & -> & Hbud & Hstop);
    [|by rewrite <- Permutation_rev|rewrite <- Permutation_rev; lia].
  apply (f_equal (@rev Bundle)) in Hrev. rewrite rev_involutive, rev_app_distr in Hrev.
  assert (sum_totals d <= sum_totals ordered) as Hd.
  { rewrite Hrev in Hpos |- *. apply Forall_app in Hpos as [Hk _].
    rewrite sum_totals_app, <- !Permutation_rev. rewrite <- Permutation_rev in Hk.
    pose proof (sum_quantized_bounds _ Hk). lia. }
  exists (rev kept), (rev d). split_and!; try done; simpl.
  - rewrite Hrev, sum_quantized_app, <- !Permutation_rev. lia.
  - rewrite note_count_bundled, <- !Permutation_rev, ?length_rev.
    rewrite (proj2 (Z.leb_le _ _)) by lia. done.
  - intros Hne'. rewrite length_rev.
    assert (sum_totals (rev d) = sum_totals d) as -> by by rewrite <- Permutation_rev.
    apply Hbud. intros ->. by apply Hne'.
  - rewrite length_rev.
    assert (sum_totals (rev d) = sum_totals d) as -> by by rewrite <- Permutation_rev.
    destruct Hstop as [Hstop|(b & rest & -> & Hb)]; [by left|right].
    exists (rev rest), b. split; [done|lia].
Qed.

Lemma plan_bundle_sums kept :
  Forall (planned_bundle p) kept -> map sum_values (map snd kept) = map fst kept.
Proof. induction 1 as [|b kept ((_ & Hb & _) & _) _ IH]; simpl; [done|]. by rewrite IH, Hb. Qed.
End plan.

(** What the plan promises of each of its bundles. *)
Definition valid_bundle (p : BundlePolicy) (bundle : list NoteInfo) : Prop :=
  (0 < length bundle <= max_real_notes_per_bundle p)%nat /\
  BALLOT_DIVISOR <= sum_values bundle /\
  StronglySorted (fun a b => note_position a <= note_position b) bundle /\
  (forall threshold, bundle_addition_threshold p = Some threshold ->
     length bundle = 1%nat \/ sum_values bundle <= threshold).

Definition quantized_weight (bundles : list (list NoteInfo)) : Z :=
  foldr (fun b s => quantized (sum_values b) + s) 0 bundles.

Lemma planned_valid p kept :
  Forall (planned_bundle p) kept ->
  Forall (valid_bundle p) (map snd kept) /\ quantized_weight (map snd kept) = sum_quantized kept.
Proof.
  induction 1 as [|b kept ((Hlen & Htot & Hthr) & Hval & Hpos) _ [IHv IHq]]; [by split|].
  simpl. split; [constructor; [|done]|by rewrite IHq, Htot].
  split_and!; [lia|lia|by rewrite <- Htot|done|]. intros t Ht. rewrite <- Htot. by apply Hthr.
Qed.

(** No note lost or doubled: the notes of the plan's bundles, the notes it
    reports as below one ballot and the notes it reports as trimmed are exactly
    the selected notes. *)
Theorem plan_accounts_for_every_note p notes :
  (0 < max_real_notes_per_bundle p)%nat -> notes_fit notes ->
  exists dropped trimmed,
    notes ≡ₚ mjoin (chunk_bundles (chunk_notes_v1_with_policy notes p)) ++ trimmed ++ dropped /\
    length dropped = chunk_dropped_count (chunk_notes_v1_with_policy notes p) /\
    length trimmed = dropped_notes (chunk_privacy_trim (chunk_notes_v1_with_policy notes p)) /\
    sum_values trimmed = dropped_value (chunk_privacy_trim (chunk_notes_v1_with_policy notes p)).
Proof.
  intros Hmax Hfit.
  destruct (plan_split p notes Hmax Hfit) as (kept & trimmed & Hord & Hb & _ & Hd & Ht & _).
  destruct (ordered_bundles_spec p notes Hmax Hfit) as (Hplan & _ & Hperm).
  exists (bundled_notes (dropped_bundles_of p notes)), (bundled_notes trimmed).
  rewrite Hb, Hd, Ht. split_and!; try done.
  - rewrite app_assoc. fold (bundled_notes kept). by rewrite <- bundled_notes_app, <- Hord.
  - simpl. symmetry. apply (sum_totals_values p).
    rewrite Hord in Hplan. apply Forall_app in Hplan as [_ Hplan].
    by eapply Forall_impl, planned_packed.
Qed.

(** Valid bundles and exact weight: every bundle holds at least one note
    and at most the policy's, is worth a ballot, respects the value threshold
    unless it is a single note, and is in tree order; the reported weight is
    the sum of the bundles' whole ballots and at most the selected value. *)
Theorem plan_bundles_are_valid p notes :
  (0 < max_real_notes_per_bundle p)%nat -> notes_fit notes ->
  Forall (valid_bundle p) (chunk_bundles (chunk_notes_v1_with_policy notes p)) /\
  chunk_eligible_weight (chunk_notes_v1_with_policy notes p)
    = quantized_weight (chunk_bundles (chunk_notes_v1_with_policy notes p)) /\
  chunk_eligible_weight (chunk_notes_v1_with_policy notes p) <= sum_values notes.
Proof.
  intros Hmax Hfit.
  destruct (plan_split p notes Hmax Hfit) as (kept & trimmed & Hord & Hb & Hw & _).
  destruct (ordered_bundles_spec p notes Hmax Hfit) as (Hplan & _).
  pose proof (ordered_nonneg p notes Hmax Hfit) as Hpos.
  pose proof (ordered_sum p notes Hmax Hfit) as Hsum.
  rewrite Hord in *. apply Forall_app in Hplan as [Hplan _]. apply Forall_app in Hpos as [Hk Ht].
  rewrite sum_totals_app in Hsum.
  destruct (planned_valid p kept Hplan) as [Hv Hq]. rewrite Hb, Hw, Hq.
  pose proof (sum_quantized_bounds _ Hk). pose proof (sum_quantized_bounds _ Ht).
  split_and!; [done|done|lia].
Qed.

(** The bundles are in order of falling value. *)
Lemma plan_is_ordered p notes :
  (0 < max_real_notes_per_bundle p)%nat -> notes_fit notes ->
  StronglySorted (fun a b => b <= a)
    (map sum_values (chunk_bundles (chunk_notes_v1_with_policy notes p))).
Proof.
  intros Hmax Hfit.
  destruct (plan_split p notes Hmax Hfit) as (kept & trimmed & Hord & -> & _).
  destruct (ordered_bundles_spec p notes Hmax Hfit) as (Hplan & Hsorted & _).
  rewrite Hord in *. apply Forall_app in Hplan as [Hplan _].
  rewrite (plan_bundle_sums p) by done.
  apply StronglySorted_app_1_l in Hsorted.
  clear -Hsorted. induction Hsorted as [|b kept Hs IH Hb]; simpl; constructor; [done|].
  apply Forall_fmap. apply Forall_impl with (1 := Hb). intros c. unfold bundle_leb. simpl. lia.
Qed.

(** Privacy budget: trimming discards at most the policy's share of the
    selected value, at most its absolute ceiling, and only while more bundles
    than the target remain. *)
Theorem trim_stays_in_budget p notes t :
  (0 < max_real_notes_per_bundle p)%nat -> notes_fit notes ->
  privacy_trim_policy p = Some t ->
  dropped_bundles (chunk_privacy_trim (chunk_notes_v1_with_policy notes p)) <> 0%nat ->
  BPS_DENOMINATOR * dropped_value (chunk_privacy_trim (chunk_notes_v1_with_policy notes p))
    <= trim_drop_bps t * sum_values notes /\
  (forall clamp, trim_max_drop_zatoshi t = Some clamp ->
     dropped_value (chunk_privacy_trim (chunk_notes_v1_with_policy notes p)) <= clamp) /\
  (Nat.max (trim_max_bundles t) 1
     <= length (chunk_bundles (chunk_notes_v1_with_policy notes p)))%nat.
Proof.
  intros Hmax Hfit Htrim.
  destruct (plan_split p notes Hmax Hfit) as (kept & trimmed & Hord & -> & _ & _ & -> & Hrest).
  rewrite Htrim in Hrest. destruct Hrest as [Hbud _]. simpl. intros Hne. rewrite length_map.
  destruct Hbud as [Hle Hlen]; [by intros ->|].
  unfold privacy_drop_budget_v1 in Hle. rewrite Htrim in Hle. unfold BPS_DENOMINATOR in *.
  assert (10000 * (sum_values notes * trim_drop_bps t / 10000) <= sum_values notes * trim_drop_bps t)
    by (Z.to_euclidean_division_equations; lia).
  split_and!; [destruct (trim_max_drop_zatoshi t); lia| |done].
  intros clamp Hc. rewrite Hc in Hle. lia.
Qed.

(** Smallest plan: no choice of ordered bundles to leave out, within the
    budget and keeping the target, leaves fewer bundles than the plan. *)
Theorem trim_is_minimal p notes t removed :
  (0 < max_real_notes_per_bundle p)%nat -> notes_fit notes ->
  privacy_trim_policy p = Some t ->
  removed ⊆+ ordered_bundles p notes ->
  sum_totals removed <= privacy_drop_budget_v1 p (sum_values notes) ->
  (Nat.max (trim_max_bundles t) 1 + length removed <= length (ordered_bundles p notes))%nat ->
  (length (chunk_bundles (chunk_notes_v1_with_policy notes p)) + length removed
     <= length (ordered_bundles p notes))%nat.
Proof.
  intros Hmax Hfit Htrim Hsub Hbudget Htarget.
  destruct (plan_split p notes Hmax Hfit) as (kept & trimmed & Hord & -> & _ & _ & _ & Hrest).
  rewrite Htrim in Hrest. destruct Hrest as [_ Hstop]. rewrite length_map.
  assert (length (ordered_bundles p notes) = length kept + length trimmed)%nat as Hlen
    by (by rewrite Hord, length_app).
  destruct Hstop as [Hstop|(init & b & -> & Hb)]; [lia|].
  destruct (decide (length removed <= length trimmed)%nat) as [Hle|Hgt]; [lia|exfalso].
  destruct (ordered_bundles_spec p notes Hmax Hfit) as (_ & Hsorted & _).
  pose proof (ordered_nonneg p notes Hmax Hfit) as Hpos.
  assert (StronglySorted (fun a b : Bundle => a.1 <= b.1) (rev (ordered_bundles p notes))) as Hrev.
  { clear -Hsorted. induction Hsorted as [|c l Hs IH Hc]; simpl; [constructor|].
    apply StronglySorted_app_2; [|done|by repeat constructor].
    intros x y Hx Hy. apply list_elem_of_singleton in Hy as ->.
    rewrite <- Permutation_rev in Hx. eapply Forall_forall in Hc; [|done].
    unfold bundle_leb in Hc. lia. }
  pose proof (cheapest_bundles _ removed Hrev ltac:(by rewrite <- Permutation_rev)) as Hcheap.
  rewrite Hord in Hcheap, Hpos. rewrite rev_app_distr, rev_unit in Hcheap.
  change (b :: rev init) with ([b] ++ rev init) in Hcheap. rewrite app_assoc in Hcheap.
  rewrite take_app_ge in Hcheap by (rewrite length_app, length_rev; simpl; lia).
  rewrite !sum_totals_app in Hcheap.
  assert (sum_totals (rev trimmed) = sum_totals trimmed) as Hr by by rewrite <- Permutation_rev.
  rewrite Forall_app, Forall_app in Hpos. destruct Hpos as [[Hi _] _].
  rewrite Permutation_rev in Hi. apply (Forall_take _ (length removed - length (rev trimmed ++ [b]))) in Hi.
  pose proof (sum_quantized_bounds _ Hi). simpl in Hcheap. lia.
Qed.

(** Two selections of the same notes, at distinct tree positions. *)
Definition same_selection (notes notes' : list NoteInfo) : Prop :=
  notes ≡ₚ notes' /\ NoDup (map note_position notes).

(** Canonical plan: when the selected notes have distinct tree positions,
    the plan does not depend on the order in which they are selected. *)
Theorem plan_is_canonical p notes notes' :
  same_selection notes notes' ->
  chunk_notes_v1_with_policy notes p = chunk_notes_v1_with_policy notes' p.
Proof.
  intros [Hperm Hnodup].
  assert (stable_sort note_leb notes = stable_sort note_leb notes') as Hsort.
  { apply stable_sort_canonical; [apply note_leb_total|apply note_leb_trans|done|].
    intros a b Ha Hb Hab Hba. eapply (NoDup_map_inv_in note_position); [done..|].
    unfold note_leb in *. lia. }
  assert (sum_values notes = sum_values notes') as Hsum by by rewrite Hperm.
  destruct notes as [|n notes], notes' as [|n' notes'];
    [done|by apply Permutation_nil_cons in Hperm
    |by symmetry in Hperm; apply Permutation_nil_cons in Hperm|].
  unfold chunk_notes_v1_with_policy, ordered_bundles. by rewrite Hsort, Hsum.
Qed.

(** ** Duplicates, eligibility and policies *)
Lemma distinct_from_sublist seen notes : distinct_from seen notes `sublist_of` notes.
Proof.
  revert seen. induction notes as [|n notes IH]; intros seen; simpl; [done|].
  case_bool_decide; [by apply sublist_cons|by apply sublist_skip].
Qed.

Lemma distinct_from_NoDup notes : forall seen,
  NoDup (map note_nullifier (distinct_from seen notes)) /\
  forall x, x ∈ map note_nullifier (distinct_from seen notes) -> x ∉ seen.
Proof.
  induction notes as [|n notes IH]; intros seen; simpl; [by split; [constructor|inversion 1]|].
  case_bool_decide as Hin; [apply IH|]. destruct (IH (note_nullifier n :: seen)) as [Hn Hs].
  simpl. split.
  - constructor; [|done]. intros Hx. apply (Hs _ Hx). left.
  - intros x Hx. apply elem_of_cons in Hx as [->|Hx]; [done|].
    intros Hseen. apply (Hs _ Hx). by right.
Qed.

Lemma sublist_fit l k : l `sublist_of` k -> notes_fit k -> notes_fit l.
Proof.
  intros Hsub [Hpos Hsum].
  assert (Forall (fun n => 0 <= note_value n) l /\ sum_values l <= sum_values k) as [Hl Hle];
    [|split; [done|lia]].
  clear Hsum. induction Hsub as [|n l k Hsub IH|n l k Hsub IH]; simpl; [done| |];
    apply Forall_cons in Hpos as [Hn Hpos]; destruct (IH Hpos) as [Hl Hle].
  - split; [by constructor|lia].
  - split; [done|lia].
Qed.

(** Each note once: a canonical plan never puts two notes with the same
    nullifier into its bundles. *)
Theorem canonical_plan_spends_once p notes plan :
  (0 < max_real_notes_per_bundle p)%nat -> notes_fit notes ->
  canonical_note_bundle_plan_for_notes notes p = Ok plan ->
  NoDup (map note_nullifier (mjoin (chunk_bundles plan))).
Proof.
  intros Hmax Hfit. unfold canonical_note_bundle_plan_for_notes.
  destruct (validate_notes_for_round notes); [|done]. intros [= <-].
  set (d := distinct_notes_by_nullifier_v1 notes).
  assert (notes_fit d) as Hd by (by eapply sublist_fit; [apply distinct_from_sublist|]).
  destruct (plan_split p d Hmax Hd) as (kept & trimmed & Hord & -> & _).
  destruct (ordered_bundles_spec p d Hmax Hd) as (_ & _ & Hperm).
  destruct (distinct_from_NoDup notes []) as [Hn _]. fold (distinct_notes_by_nullifier_v1 notes) in Hn.
  fold d in Hn. rewrite Hperm, Hord, bundled_notes_app, !map_app, <- app_assoc in Hn.
  by apply NoDup_app in Hn as [Hn _].
Qed.

Lemma quantized_weight_positive p bundles :
  Forall (valid_bundle p) bundles ->
  0 <= quantized_weight bundles /\
  (bundles <> [] -> BALLOT_DIVISOR <= quantized_weight bundles).
Proof.
  induction 1 as [|b bundles (_ & Hb & _) _ [IH _]]; [done|]. simpl.
  assert (BALLOT_DIVISOR <= quantized (sum_values b)) as Hq
    by (unfold quantized, BALLOT_DIVISOR in *; Z.to_euclidean_division_equations; lia).
  assert (0 <= BALLOT_DIVISOR) by (unfold BALLOT_DIVISOR; lia). split; intros; lia.
Qed.

(** Eligibility: a note set is eligible to vote exactly when its plan has a
    bundle. *)
Theorem eligible_iff_some_bundle p notes e plan :
  (0 < max_real_notes_per_bundle p)%nat -> notes_fit notes ->
  minimum_voting_eligibility_and_plan_for_notes notes p = Ok (e, plan) ->
  is_eligible e = true <-> chunk_bundles plan <> [].
Proof.
  intros Hmax Hfit. unfold minimum_voting_eligibility_and_plan_for_notes.
  case_bool_decide as Hnil.
  { intros [= <- <-]. subst notes. unfold chunk_notes_with_policy. by destruct (planner_version p). }
  unfold canonical_note_bundle_plan_for_notes. destruct (validate_notes_for_round notes); [|done].
  intros [= <- <-]. unfold is_eligible, MINIMUM_VOTING_WEIGHT_ZATOSHI. simpl.
  set (d := distinct_notes_by_nullifier_v1 notes).
  assert (notes_fit d) as Hd by (by eapply sublist_fit; [apply distinct_from_sublist|]).
  destruct (plan_split p d Hmax Hd) as (kept & trimmed & Hord & -> & -> & _).
  destruct (ordered_bundles_spec p d Hmax Hd) as (Hplan & _). rewrite Hord in Hplan.
  apply Forall_app in Hplan as [Hplan _]. destruct (planned_valid p kept Hplan) as [Hv <-].
  destruct (quantized_weight_positive p _ Hv) as [_ Hw]. rewrite Z.leb_le. split; [|by apply Hw].
  intros Hle Heq. rewrite Heq in Hle. unfold BALLOT_DIVISOR in Hle. simpl in Hle. lia.
Qed.

(** The settings the builders of [BundlePolicy] accept. *)
Definition settings_accepted (v : UncheckedBundlePolicy) : Prop :=
  (1 <= unchecked_max_real_notes v <= BUNDLE_NOTE_SLOTS)%nat /\
  forall t, unchecked_trim v = Some t -> trim_drop_bps t <= MAX_PRIVACY_DROP_BPS.

(** Validated policies: deserialization accepts exactly the settings the
    builders accept and keeps every one of them. *)
Theorem policy_try_from_validates v p :
  bundle_policy_try_from v = Ok p <->
  settings_accepted v /\
  p = mk_bundle_policy PlannerV1 (unchecked_max_real_notes v) (unchecked_threshold v)
        (unchecked_trim v).
Proof.
  unfold bundle_policy_try_from, bundle_policy_new, settings_accepted.
  case_bool_decide as Hmax; [|split; [done|intros [[? _] _]; tauto]].
  destruct v as [n threshold [[m bps clamp]|]]; simpl in *.
  - unfold with_privacy_drop_bps. destruct (MAX_PRIVACY_DROP_BPS <? bps) eqn:Hb.
    + split; [done|]. intros [[_ Ht] _]. specialize (Ht _ eq_refl). simpl in Ht. lia.
    + destruct threshold; (split; [intros [= <-]|intros [_ ->]; done]);
        (split; [split; [lia|intros t [= <-]; simpl; lia]|done]).
  - destruct threshold; (split; [intros [= <-]; by split|intros [_ ->]; done]).
Qed.

(** ** A concrete plan *)
Definition example_note (value position : Z) : NoteInfo :=
  mk_note (replicate 32 1) (replicate 32 position) value position [] [] [] 0 "uview".

Definition example_notes : list NoteInfo :=
  [example_note 13000000 5; example_note 1000000000 10; example_note 5000000 7].

Definition example_trim : PrivacyTrimPolicy := mk_trim_policy 1 500 (Some 100000000).

Definition example_bundle_policy : BundlePolicy :=
  mk_bundle_policy PlannerV1 1 (Some 2000000000) (Some example_trim).

Definition example_plan : ChunkResult :=
  chunk_notes_v1_with_policy example_notes example_bundle_policy.

(** One bundle is kept, one is trimmed and one is below a ballot. *)
Example example_plan_value :
  example_plan = mk_chunk [[example_note 1000000000 10]] 1000000000 1 (mk_trim 1 1 13000000).
Proof. vm_compute. reflexivity. Qed.

Lemma example_notes_fit : notes_fit example_notes.
Proof. split; [repeat constructor|]; vm_compute; congruence. Qed.

Lemma plan_accounts_for_every_note_witness :
  exists dropped trimmed,
    example_notes ≡ₚ mjoin (chunk_bundles example_plan) ++ trimmed ++ dropped /\
    length dropped = chunk_dropped_count example_plan /\
    length trimmed = dropped_notes (chunk_privacy_trim example_plan) /\
    sum_values trimmed = dropped_value (chunk_privacy_trim example_plan).
Proof.
  apply (plan_accounts_for_every_note example_bundle_policy example_notes);
    [simpl; lia|exact example_notes_fit].
Defined.

Lemma plan_bundles_are_valid_witness :
  Forall (valid_bundle example_bundle_policy) (chunk_bundles example_plan) /\
  chunk_eligible_weight example_plan = quantized_weight (chunk_bundles example_plan) /\
  chunk_eligible_weight example_plan <= sum_values example_notes.
Proof.
  apply (plan_bundles_are_valid example_bundle_policy example_notes);
    [simpl; lia|exact example_notes_fit].
Defined.

Lemma trim_stays_in_budget_witness :
  dropped_bundles (chunk_privacy_trim example_plan) = 1%nat /\
  BPS_DENOMINATOR * dropped_value (chunk_privacy_trim example_plan)
    <= trim_drop_bps example_trim * sum_values example_notes.
Proof.
  split; [vm_compute; reflexivity|].
  apply (trim_stays_in_budget example_bundle_policy example_notes example_trim);
    [simpl; lia|exact example_notes_fit|reflexivity|vm_compute; congruence].
Defined.

Definition example_removed : list Bundle := [(13000000, [example_note 13000000 5])].

Lemma trim_is_minimal_witness :
  (length (chunk_bundles example_plan) + length example_removed
     <= length (ordered_bundles example_bundle_policy example_notes))%nat.
Proof.
  apply (trim_is_minimal example_bundle_policy example_notes example_trim example_removed);
    [simpl; lia|exact example_notes_fit|reflexivity| |vm_compute; congruence|vm_compute; lia].
  assert (ordered_bundles example_bundle_policy example_notes =
    [(1000000000, [example_note 1000000000 10]); (13000000, [example_note 13000000 5])]) as ->
    by (vm_compute; reflexivity).
  apply submseteq_cons, submseteq_skip, submseteq_nil_l.
Defined.

Lemma plan_is_canonical_witness :
  chunk_notes_v1_with_policy (rev example_notes) example_bundle_policy = example_plan.
Proof.
  symmetry. apply (plan_is_canonical example_bundle_policy example_notes (rev example_notes)). split.
  - apply Permutation_rev.
  - change (NoDup [5; 10; 7]). apply (bool_decide_unpack _). vm_compute. exact I.
Defined.

Lemma canonical_plan_spends_once_witness :
  canonical_note_bundle_plan_for_notes (example_notes ++ example_notes) example_bundle_policy
    = Ok example_plan /\
  NoDup (map note_nullifier (mjoin (chunk_bundles example_plan))).
Proof.
  split; [vm_compute; reflexivity|].
  apply (canonical_plan_spends_once example_bundle_policy (example_notes ++ example_notes));
    [simpl; lia|split; [repeat constructor|]; vm_compute; congruence|vm_compute; reflexivity].
Defined.

Lemma eligible_iff_some_bundle_witness :
  is_eligible (mk_eligibility 1 1000000000) = true <-> chunk_bundles example_plan <> [].
Proof.
  apply (eligible_iff_some_bundle example_bundle_policy example_notes);
    [simpl; lia|exact example_notes_fit|vm_compute; reflexivity].
Defined.
