(* ===== verification/Helpers.v ===== *)
(** * Helper servers: identity and health

    Models [helper/url.rs], the canonical spelling of a helper's base URL by
    which a helper is identified in every delivery record, and
    [helper/health.rs], the process-local scores that order helpers. The URL
    crate is a parameter; the standard library's [trim] is modelled on the
    bytes of the string. *)

From stdpp Require Import base gmap strings list numbers pretty.
From Stdlib Require Import ZifyBool Ascii.
From S2P Require Import Prelude Identity Outcome Lifecycle Record.
Local Open Scope Z_scope.
Local Open Scope voting_scope.

(** ** Percent escapes *)
Definition code (c : ascii) : Z := Z.of_N (N_of_ascii c).
Definition chr (z : Z) : ascii := ascii_of_N (Z.to_N z).

Definition hex_value (value : Z) : option Z :=
  if (48 <=? value) && (value <=? 57) then Some (value - 48)
  else if (97 <=? value) && (value <=? 102) then Some (value - 97 + 10)
  else if (65 <=? value) && (value <=? 70) then Some (value - 65 + 10)
  else None.

(** A digit of the table of uppercase hexadecimal digits. *)
Definition hex_digit (d : Z) : Z := if d <? 10 then 48 + d else 55 + d.

(** [is_ascii_alphanumeric] or one of [-], [.], [_] and [~]. *)
Definition unreserved (v : Z) : bool :=
  ((48 <=? v) && (v <=? 57)) || ((65 <=? v) && (v <=? 90)) || ((97 <=? v) && (v <=? 122))
  || (v =? 45) || (v =? 46) || (v =? 95) || (v =? 126).

Fixpoint normalize_percent_escapes (path : string) : option string :=
  match path with
  | EmptyString => Some EmptyString
  | String c rest =>
      if code c =? 37 then
        match rest with
        | String h (String l rest) =>
            high ← hex_value (code h);
            low ← hex_value (code l);
            normalized ← normalize_percent_escapes rest;
            let value := Z.lor (Z.shiftl high 4) low in
            Some (if unreserved value then String (chr value) normalized
                  else String "%"%char (String (chr (hex_digit high))
                         (String (chr (hex_digit low)) normalized)))
        | _ => None
        end
      else String c <$> normalize_percent_escapes rest
  end.

(** ** Trimming

    [char::is_whitespace] on UTF-8: the byte sequences of the characters with
    the Unicode property. *)
Definition whitespace_1 (a : Z) : bool := ((9 <=? a) && (a <=? 13)) || (a =? 32).
Definition whitespace_2 (a b : Z) : bool := (a =? 194) && ((b =? 133) || (b =? 160)).
Definition whitespace_3 (a b c : Z) : bool :=
  ((a =? 225) && (b =? 154) && (c =? 128))
  || ((a =? 226) && (b =? 128)
      && (((128 <=? c) && (c <=? 138)) || (c =? 168) || (c =? 169) || (c =? 175)))
  || ((a =? 226) && (b =? 129) && (c =? 159))
  || ((a =? 227) && (b =? 128) && (c =? 128)).

Fixpoint str_trim_start (s : string) : string :=
  match s with
  | String a s1 =>
      if whitespace_1 (code a) then str_trim_start s1
      else match s1 with
           | String b s2 =>
               if whitespace_2 (code a) (code b) then str_trim_start s2
               else match s2 with
                    | String c s3 =>
                        if whitespace_3 (code a) (code b) (code c) then str_trim_start s3 else s
                    | EmptyString => s
                    end
           | EmptyString => s
           end
  | EmptyString => s
  end.

(** Whether the remaining characters are all whitespace, so that they go. *)
Fixpoint str_trim_end (s : string) : string :=
  if bool_decide (str_trim_start s = EmptyString) then EmptyString
  else match s with
       | String c s' => String c (str_trim_end s')
       | EmptyString => EmptyString
       end.

Definition str_trim (s : string) : string := str_trim_end (str_trim_start s).

(** [trim_end_matches('/')]. *)
Fixpoint trim_slashes (s : string) : string :=
  match s with
  | EmptyString => EmptyString
  | String c s' =>
      match trim_slashes s' with
      | EmptyString => if code c =? 47 then EmptyString else String c EmptyString
      | t => String c t
      end
  end.

(** [strip_suffix('.')]. *)
Fixpoint strip_dot (s : string) : option string :=
  match s with
  | EmptyString => None
  | String c EmptyString => if code c =? 46 then Some EmptyString else None
  | String c s' => String c <$> strip_dot s'
  end.

(** ** The URL crate *)
Class UrlCrate := {
  Url : Type;
  url_parse : string -> result Url text;
  url_scheme : Url -> string;
  url_username : Url -> string;
  url_password : Url -> option string;
  url_query : Url -> option string;
  url_fragment : Url -> option string;
  (** The text of a [Host::Domain]. *)
  url_domain : Url -> option string;
  url_set_host : Url -> string -> result Url text;
  url_port : Url -> option Z;
  (** [set_port(None)]. *)
  url_clear_port : Url -> option Url;
  url_path : Url -> string;
  url_set_path : Url -> string -> Url;
  url_as_str : Url -> string;
  (** The [Debug] form of a string. *)
  debug_str : string -> text
}.

Section identity.
Context `{UrlCrate}.

Definition without_root_dot (trimmed : string) (url : Url) : result Url VotingError :=
  match url_domain url with
  | Some domain =>
      match strip_dot domain with
      | Some domain =>
          map_err (fun e => VInvalidInput (lit "invalid helper server host in " ++ lit trimmed
                     ++ lit ": " ++ e)) (url_set_host url domain)
      | None => Ok url
      end
  | None => Ok url
  end.

Definition default_port (scheme : string) : option Z :=
  if bool_decide (scheme = "http"%string) then Some 80
  else if bool_decide (scheme = "https"%string) then Some 443
  else None.

Definition without_default_port (trimmed : string) (url : Url) : result Url VotingError :=
  if bool_decide (url_port url = default_port (url_scheme url)) then
    ok_or (url_clear_port url)
      (VInvalidInput (lit "invalid helper server port in " ++ lit trimmed))
  else Ok url.

Definition canonicalize_helper_base_url (value : string) : result string VotingError :=
  let trimmed := str_trim value in
  let? url := map_err (fun e => VInvalidInput (lit "invalid helper server url "
                ++ debug_str trimmed ++ lit ": " ++ e)) (url_parse trimmed) in
  if negb (bool_decide (url_scheme url = "http"%string)
           || bool_decide (url_scheme url = "https"%string)) then
    Err (VInvalidInput (lit "helper server url must be http or https, got " ++ lit trimmed))
  else if negb (bool_decide (url_username url = EmptyString))
          || bool_decide (is_Some (url_password url)) then
    Err (VInvalidInput (lit "helper server url must not contain credentials"))
  else if bool_decide (is_Some (url_query url)) || bool_decide (is_Some (url_fragment url)) then
    Err (VInvalidInput (lit "helper server url must not contain a query or fragment"))
  else
    let? url := without_root_dot trimmed url in
    let? url := without_default_port trimmed url in
    let? path := ok_or (normalize_percent_escapes (url_path url))
      (VInvalidInput (lit "invalid percent escape in helper server path " ++ debug_str trimmed)) in
    Ok (trim_slashes (url_as_str (url_set_path url path))).
End identity.

(** ** Helper identity

    What the delivery records rely on: a canonical spelling for each URL. *)
Class HelperIdentity := canonicalize : string -> result string VotingError.

#[global] Instance url_identity `{UrlCrate} : HelperIdentity := canonicalize_helper_base_url.

Section lists.
Context `{HelperIdentity}.

Definition push_new (acc : list string) (url : string) : list string :=
  if bool_decide (url ∈ acc) then acc else acc ++ [url].

Fixpoint canonical_into (acc : list string) (urls : list string)
    : result (list string) VotingError :=
  match urls with
  | [] => Ok acc
  | url :: urls =>
      let? url := canonicalize url in
      canonical_into (push_new acc url) urls
  end.

Definition canonical_helper_url_list (urls : list string) : result (list string) VotingError :=
  canonical_into [] urls.
End lists.

(** ** Health *)
Definition HELPER_FAILURE_THRESHOLD : Z := 3.
Definition HELPER_COOLDOWN_SECONDS : Z := 30.

Record HelperState := mk_helper_state {
  hs_consecutive_failures : Z;
  hs_opened_at : option Z
}.

(** The shared table of scores; every operation holds its lock throughout. *)
Record HelperHealth := mk_health {
  hh_failure_threshold : Z;
  hh_cooldown_seconds : Z;
  hh_states : gmap string HelperState
}.

Definition health_new (failure_threshold cooldown_seconds : Z) : HelperHealth :=
  mk_health (Z.max failure_threshold 1) cooldown_seconds ∅.

Definition default_health : HelperHealth :=
  health_new HELPER_FAILURE_THRESHOLD HELPER_COOLDOWN_SECONDS.

Definition with_states (h : HelperHealth) (states : gmap string HelperState) : HelperHealth :=
  mk_health (hh_failure_threshold h) (hh_cooldown_seconds h) states.

Definition expire_cooldown_if_elapsed (h : HelperHealth) (state : HelperState) (now : Z)
    : HelperState :=
  match hs_opened_at state with
  | None => state
  | Some opened_at =>
      if saturating_sub_u64 now opened_at <? hh_cooldown_seconds h then state
      else mk_helper_state (saturating_sub_u64 (hh_failure_threshold h) 1) None
  end.

Definition saturating_add_u32 (a b : Z) : Z := Z.min (a + b) u32_max.

Section health.
Context `{HelperIdentity}.

Definition helper_identity_key (server_url : string) : string :=
  match canonicalize server_url with
  | Ok url => url
  | Err _ => server_url
  end.

Definition is_available (h : HelperHealth) (server_url : string) (now : Z) : bool * HelperHealth :=
  let key := helper_identity_key server_url in
  match hh_states h !! key with
  | None => (true, h)
  | Some state =>
      let state := expire_cooldown_if_elapsed h state now in
      (bool_decide (hs_opened_at state = None), with_states h (<[key := state]> (hh_states h)))
  end.

Fixpoint sort_by_health (h : HelperHealth) (now : Z) (urls available degraded : list string)
    : (list string * list string) * HelperHealth :=
  match urls with
  | [] => ((available, degraded), h)
  | url :: urls =>
      match is_available h url now with
      | (true, h) => sort_by_health h now urls (available ++ [url]) degraded
      | (false, h) => sort_by_health h now urls available (degraded ++ [url])
      end
  end.

Definition candidate_servers (h : HelperHealth) (server_urls : list string) (now : Z)
    : list string * HelperHealth :=
  match server_urls with
  | [] => ([], h)
  | _ =>
      let '((available, degraded), h) := sort_by_health h now server_urls [] [] in
      match available with
      | [] => (server_urls, h)
      | _ => (available ++ degraded, h)
      end
  end.

Definition record_success (h : HelperHealth) (server_url : string) : HelperHealth :=
  with_states h (delete (helper_identity_key server_url) (hh_states h)).

Definition record_failure (h : HelperHealth) (server_url : string) (now : Z) : HelperHealth :=
  let key := helper_identity_key server_url in
  let state := default (mk_helper_state 0 None) (hh_states h !! key) in
  let state := expire_cooldown_if_elapsed h state now in
  let failures := saturating_add_u32 (hs_consecutive_failures state) 1 in
  let opened :=
    if (hh_failure_threshold h <=? failures) && bool_decide (hs_opened_at state = None)
    then Some now else hs_opened_at state in
  with_states h (<[key := mk_helper_state failures opened]> (hh_states h)).

Definition failure_count (h : HelperHealth) (server_url : string) : Z :=
  from_option hs_consecutive_failures 0 (hh_states h !! helper_identity_key server_url).
End health.

(** ** Normal paths

    The paths that normalization produces: no escape of an unreserved
    character, and uppercase digits in the others. *)
Inductive normal_path : string -> Prop :=
| normal_nil : normal_path EmptyString
| normal_char c s : code c <> 37 -> normal_path s -> normal_path (String c s)
| normal_escape high low s :
    0 <= high < 16 -> 0 <= low < 16 -> unreserved (Z.lor (Z.shiftl high 4) low) = false ->
    normal_path s ->
    normal_path (String "%"%char (String (chr (hex_digit high)) (String (chr (hex_digit low)) s))).

Lemma code_chr z : 0 <= z < 256 -> code (chr z) = z.
Proof. intros Hz. unfold code, chr. rewrite N_ascii_embedding; lia. Qed.

Lemma code_percent : code "%"%char = 37.
Proof. done. Qed.

Lemma hex_value_range v d : hex_value v = Some d -> 0 <= d < 16.
Proof. unfold hex_value. repeat case_match; naive_solver lia. Qed.

Lemma hex_digit_range d : 0 <= d < 16 -> 0 <= hex_digit d < 256.
Proof. unfold hex_digit. case_match; lia. Qed.

Lemma hex_value_digit d : 0 <= d < 16 -> hex_value (hex_digit d) = Some d.
Proof.
  intros Hd. unfold hex_value, hex_digit. destruct (d <? 10) eqn:E.
  - rewrite (proj2 (andb_true_iff _ _)) by lia. f_equal. lia.
  - rewrite (proj2 (andb_false_iff _ _)) by lia. rewrite (proj2 (andb_false_iff _ _)) by lia.
    rewrite (proj2 (andb_true_iff _ _)) by lia. f_equal. lia.
Qed.

Lemma hex_byte_range high low :
  0 <= high < 16 -> 0 <= low < 16 -> 0 <= Z.lor (Z.shiftl high 4) low < 256.
Proof.
  intros Hh Hl.
  assert (Hall : forallb (fun h => forallb (fun l =>
      (0 <=? Z.lor (Z.shiftl h 4) l) && (Z.lor (Z.shiftl h 4) l <? 256))
      (seqZ 0 16)) (seqZ 0 16) = true) by (vm_compute; done).
  rewrite forallb_forall in Hall. specialize (Hall high). rewrite <- list_elem_of_In, elem_of_seqZ in Hall.
  specialize (Hall ltac:(lia)). rewrite forallb_forall in Hall. specialize (Hall low).
  rewrite <- list_elem_of_In, elem_of_seqZ in Hall. specialize (Hall ltac:(lia)). lia.
Qed.

Lemma unreserved_byte_not_percent v : unreserved v = true -> v <> 37.
Proof. unfold unreserved. lia. Qed.

Lemma string_ind3 (P : string -> Prop) :
  P EmptyString ->
  (forall c s, P s -> (forall a b r, s = String a (String b r) -> P r) -> P (String c s)) ->
  forall s, P s.
Proof.
  intros Hn Hc. assert (forall n s, (String.length s <= n)%nat -> P s) as Hall.
  { induction n as [|n IH]; intros [|c s] Hl; [done|cbn in Hl; lia|done|].
    apply Hc; [apply IH; cbn in Hl; lia|]. intros a b r ->. apply IH. cbn in Hl. lia. }
  intros s. by eapply Hall.
Qed.

Lemma normalize_normal s t : normalize_percent_escapes s = Some t -> normal_path t.
Proof.
  revert t. induction s as [|c s IH IH2] using string_ind3; intros t Ht.
  - cbn in Ht. simplify_eq. constructor.
  - cbn [normalize_percent_escapes] in Ht. destruct (code c =? 37) eqn:Ec.
    + destruct s as [|h [|l r]]; [done..|].
      apply bind_Some in Ht as (high & Hh & Ht). apply bind_Some in Ht as (low & Hl & Ht).
      apply bind_Some in Ht as (n & Hn & Ht).
      specialize (IH2 h l r eq_refl n Hn). apply hex_value_range in Hh, Hl.
      pose proof (hex_byte_range _ _ Hh Hl) as Hr.
      destruct (unreserved _) eqn:Eu; simplify_eq.
      * constructor; [|done]. rewrite code_chr by done. by apply unreserved_byte_not_percent.
      * by constructor.
    + apply fmap_Some in Ht as (n & Hn & ->). constructor; [lia|eauto].
Qed.

Lemma normal_normalize t : normal_path t -> normalize_percent_escapes t = Some t.
Proof.
  induction 1 as [|c s Hc Hs IH|high low s Hh Hl Hu Hs IH]; [done| |].
  - cbn [normalize_percent_escapes]. rewrite (proj2 (Z.eqb_neq _ _)) by done. by rewrite IH.
  - cbn [normalize_percent_escapes]. rewrite code_percent.
    rewrite !code_chr by (by apply hex_digit_range). rewrite !hex_value_digit by done.
    cbn [mbind option_bind Z.eqb Pos.eqb]. rewrite IH. cbn. by rewrite Hu.
Qed.

Lemma normalize_idempotent s t :
  normalize_percent_escapes s = Some t -> normalize_percent_escapes t = Some t.
Proof. intros Hs. by eapply normal_normalize, normalize_normal. Qed.

(** ** Trailing slashes *)
Lemma trim_slashes_idem s : trim_slashes (trim_slashes s) = trim_slashes s.
Proof.
  induction s as [|c s IH]; [done|]. cbn [trim_slashes].
  destruct (trim_slashes s) as [|d t] eqn:E.
  - destruct (code c =? 47) eqn:Ec; [done|]. cbn. by rewrite Ec.
  - cbn [trim_slashes] in *. by rewrite IH.
Qed.

Lemma trim_slashes_char c s :
  code c <> 47 -> trim_slashes (String c s) = String c (trim_slashes s).
Proof.
  intros Hc. cbn [trim_slashes]. destruct (trim_slashes s); [|done].
  by rewrite (proj2 (Z.eqb_neq _ _)).
Qed.

Lemma normal_trim t : normal_path t -> normal_path (trim_slashes t).
Proof.
  induction 1 as [|c s Hc Hs IH|high low s Hh Hl Hu Hs IH]; [constructor| |].
  - cbn [trim_slashes]. destruct (trim_slashes s); [|by constructor].
    destruct (code c =? 47); repeat constructor. done.
  - rewrite !trim_slashes_char.
    + by constructor.
    + rewrite code_chr by (by apply hex_digit_range). unfold hex_digit. case_match; lia.
    + rewrite code_chr by (by apply hex_digit_range). unfold hex_digit. case_match; lia.
    + done.
Qed.

(** ** The crate's laws

    Documented behaviour of the URL crate on an [http] or [https] URL without
    credentials, query and fragment. *)
Definition web `{UrlCrate} (u : Url) : Prop :=
  (url_scheme u = "http"%string \/ url_scheme u = "https"%string) /\ url_username u = EmptyString
  /\ url_password u = None /\ url_query u = None /\ url_fragment u = None.

Definition same_but_host `{UrlCrate} (u u' : Url) : Prop :=
  url_scheme u' = url_scheme u /\ url_username u' = url_username u
  /\ url_password u' = url_password u /\ url_query u' = url_query u
  /\ url_fragment u' = url_fragment u.

(** An empty path is the root. *)
Definition rooted (path : string) : string :=
  match path with EmptyString => "/"%string | _ => path end.

Class UrlLaws `{UrlCrate} := {
  (** A serialization has no whitespace at its ends. *)
  as_str_trimmed : forall u, web u ->
    str_trim (trim_slashes (url_as_str u)) = trim_slashes (url_as_str u);
  (** A serialization parses to the URL it came from; trailing slashes belong
      to the path. *)
  reparse : forall u, web u -> exists u',
    url_parse (trim_slashes (url_as_str u)) = Ok u' /\ same_but_host u u'
    /\ url_domain u' = url_domain u /\ url_port u' = url_port u
    /\ url_path u' = rooted (trim_slashes (url_path u))
    /\ trim_slashes (url_as_str u') = trim_slashes (url_as_str u);
  set_host_spec : forall u dom d u',
    url_domain u = Some dom -> strip_dot dom = Some d -> url_set_host u d = Ok u' ->
    url_domain u' = Some d /\ same_but_host u u' /\ url_port u' = url_port u
    /\ url_path u' = url_path u;
  clear_port_spec : forall u u', url_clear_port u = Some u' ->
    url_port u' = None /\ same_but_host u u' /\ url_domain u' = url_domain u
    /\ url_path u' = url_path u;
  (** Setting a path leaves its escapes and unreserved characters as they are. *)
  set_path_spec : forall u p, normalize_percent_escapes (url_path u) = Some p ->
    url_path (url_set_path u p) = p /\ same_but_host u (url_set_path u p)
    /\ url_domain (url_set_path u p) = url_domain u /\ url_port (url_set_path u p) = url_port u;
  set_path_same : forall u, url_set_path u (url_path u) = u
}.

(** The host has at most one root dot. *)
Definition single_root_dot `{UrlCrate} (value : string) : Prop :=
  forall u dom d, url_parse (str_trim value) = Ok u -> url_domain u = Some dom ->
    strip_dot dom = Some d -> strip_dot d = None.

Section stability.
Context `{UrlLaws}.
Implicit Types u : Url.

Lemma same_but_host_web u u' : web u -> same_but_host u u' -> web u'.
Proof. unfold web, same_but_host. intros (?&?&?&?&?) (->&->&->&->&->). done. Qed.

Lemma same_but_host_trans u u' u'' : same_but_host u u' -> same_but_host u' u'' -> same_but_host u u''.
Proof. unfold same_but_host. intros (?&?&?&?&?) (?&?&?&?&?). repeat split; congruence. Qed.

Lemma same_but_host_refl u : same_but_host u u.
Proof. done. Qed.

Lemma web_checks u :
  web u <->
  (bool_decide (url_scheme u = "http"%string) || bool_decide (url_scheme u = "https"%string) = true
   /\ negb (bool_decide (url_username u = EmptyString)) || bool_decide (is_Some (url_password u)) = false
   /\ bool_decide (is_Some (url_query u)) || bool_decide (is_Some (url_fragment u)) = false).
Proof.
  unfold web. rewrite orb_true_iff, !orb_false_iff, negb_false_iff, !bool_decide_eq_true,
    !bool_decide_eq_false, <- !eq_None_not_Some. tauto.
Qed.

Lemma default_port_some u : web u -> is_Some (default_port (url_scheme u)).
Proof. unfold default_port. intros [[->| ->] _]; [rewrite bool_decide_true by done; eauto|]. vm_compute. eauto. Qed.

(** What a successful canonicalization did. *)
Lemma canonicalize_inv value v :
  canonicalize_helper_base_url value = Ok v ->
  exists u u1 u2 p, url_parse (str_trim value) = Ok u /\ web u
    /\ without_root_dot (str_trim value) u = Ok u1
    /\ without_default_port (str_trim value) u1 = Ok u2
    /\ normalize_percent_escapes (url_path u2) = Some p
    /\ v = trim_slashes (url_as_str (url_set_path u2 p)).
Proof.
  unfold canonicalize_helper_base_url. intros Hv.
  destruct (url_parse _) as [u|] eqn:Hu; [|done]. cbn [map_err] in Hv.
  destruct (negb (_ || _)) eqn:E1; [done|]. destruct (negb _ || _) eqn:E2; [done|].
  destruct (_ || _) eqn:E3 in Hv; [done|].
  destruct (without_root_dot _ u) as [u1|] eqn:H1; [|done].
  destruct (without_default_port _ u1) as [u2|] eqn:H2; [|done].
  destruct (normalize_percent_escapes _) as [p|] eqn:Hp; [|done]. cbn in Hv. simplify_eq.
  exists u, u1, u2, p. apply negb_false_iff in E1. split_and!; try done.
  by apply web_checks.
Qed.

Lemma without_root_dot_spec t u u1 :
  without_root_dot t u = Ok u1 ->
  same_but_host u u1 /\ url_port u1 = url_port u /\ url_path u1 = url_path u
  /\ (url_domain u1 = url_domain u /\ (forall dom, url_domain u = Some dom -> strip_dot dom = None)
      \/ exists dom d, url_domain u = Some dom /\ strip_dot dom = Some d /\ url_domain u1 = Some d).
Proof.
  unfold without_root_dot. destruct (url_domain u) as [dom|] eqn:Hd.
  - destruct (strip_dot dom) as [d|] eqn:Hs.
    + destruct (url_set_host u d) as [u'|] eqn:Hh; [|done]. cbn. intros [= <-].
      destruct (set_host_spec _ _ _ _ Hd Hs Hh) as (?&?&?&?).
      split_and!; try done. right. eauto 6.
    + intros [= <-]. split_and!; try done. left. split; [done|]. intros ? [= <-]. done.
  - intros [= <-]. split_and!; try done. left. split; [done|]. intros ? [=].
Qed.

Lemma without_default_port_spec t u u2 :
  web u -> without_default_port t u = Ok u2 ->
  same_but_host u u2 /\ url_domain u2 = url_domain u /\ url_path u2 = url_path u
  /\ url_port u2 <> default_port (url_scheme u2).
Proof.
  intros Hw. unfold without_default_port. case_bool_decide as Hp.
  - destruct (url_clear_port u) as [u'|] eqn:Hc; [|done]. cbn. intros [= <-].
    destruct (clear_port_spec _ _ Hc) as (Hn & Hs & ? & ?). split_and!; try done.
    rewrite Hn. destruct (default_port_some u') as [? ->]; [|done]. by eapply same_but_host_web.
  - intros [= <-]. done.
Qed.
End stability.

Section canonical.
Context `{UrlLaws}.
Implicit Types u : Url.

(** The canonical spelling parses to a URL of the same origin, with a normal
    path. *)
Lemma canonical_url_parses value v :
  canonicalize_helper_base_url value = Ok v ->
  exists u u1 u', url_parse (str_trim value) = Ok u /\ without_root_dot (str_trim value) u = Ok u1
    /\ str_trim v = v /\ url_parse v = Ok u' /\ web u' /\ url_domain u' = url_domain u1
    /\ url_port u' <> default_port (url_scheme u')
    /\ normalize_percent_escapes (url_path u') = Some (url_path u')
    /\ trim_slashes (url_as_str u') = v.
Proof.
  intros Hv. destruct (canonicalize_inv _ _ Hv) as (u & u1 & u2 & p & Hu & Hw & H1 & H2 & Hp & ->).
  destruct (without_root_dot_spec _ _ _ H1) as (Hs1 & Hp1 & Ha1 & _).
  pose proof (same_but_host_web _ _ Hw Hs1) as Hw1.
  destruct (without_default_port_spec _ _ _ Hw1 H2) as (Hs2 & Hd2 & Ha2 & Hn2).
  pose proof (same_but_host_web _ _ Hw1 Hs2) as Hw2.
  destruct (set_path_spec _ _ Hp) as (Hpath & Hs3 & Hd3 & Hport3).
  pose proof (same_but_host_web _ _ Hw2 Hs3) as Hw3.
  destruct (reparse _ Hw3) as (u' & Hparse & Hs4 & Hd4 & Hport4 & Hpath4 & Has).
  exists u, u1, u'. split_and!; try done.
  - by apply as_str_trimmed.
  - by eapply same_but_host_web.
  - congruence.
  - rewrite Hport4, Hport3. destruct Hs4 as [-> _], Hs3 as [-> _]. done.
  - rewrite Hpath4, Hpath. apply normal_normalize. apply normalize_normal, normal_trim in Hp.
    destruct (trim_slashes p); [|done]. constructor; [done|constructor].
Qed.

Lemma canonical_again value v :
  single_root_dot value ->
  canonicalize_helper_base_url value = Ok v -> canonicalize_helper_base_url v = Ok v.
Proof.
  intros Hdot Hv.
  destruct (canonical_url_parses _ _ Hv) as (u & u1 & u' & Hu & H1 & Ht & Hparse & Hw & Hd & Hport & Hn & Has).
  unfold canonicalize_helper_base_url. rewrite Ht, Hparse. cbn [map_err].
  destruct (proj1 (web_checks u') Hw) as (-> & -> & ->). cbn [negb].
  assert (without_root_dot v u' = Ok u') as ->.
  { unfold without_root_dot. rewrite Hd.
    destruct (without_root_dot_spec _ _ _ H1) as (_ & _ & _ & [[-> Hno]|(dom & d & Hdom & Hs & ->)]).
    - destruct (url_domain u) as [dom|] eqn:Hdom; [|done]. by rewrite (Hno dom eq_refl).
    - by rewrite (Hdot _ _ _ Hu Hdom Hs). }
  unfold without_default_port. rewrite bool_decide_false by done.
  rewrite Hn. cbn. by rewrite set_path_same, Has.
Qed.

Lemma strip_dot_shorter s t : strip_dot s = Some t -> (String.length t < String.length s)%nat.
Proof.
  revert t. induction s as [|c s IH]; intros t Ht; [done|]. cbn [strip_dot] in Ht.
  destruct s as [|c' s]; [case_match; by simplify_eq/=; try lia|].
  apply fmap_Some in Ht as (t' & Ht' & ->). specialize (IH _ Ht'). cbn in *. lia.
Qed.

(** A host with two root dots loses one of them at each pass. *)
Lemma double_root_dot value v u dom d d' :
  url_parse (str_trim value) = Ok u -> url_domain u = Some dom ->
  strip_dot dom = Some d -> strip_dot d = Some d' ->
  canonicalize_helper_base_url value = Ok v -> canonicalize_helper_base_url v <> Ok v.
Proof.
  intros Hu Hdom Hd Hd' Hv Hv2.
  destruct (canonical_url_parses _ _ Hv) as (u0 & u1 & u' & Hu0 & H1 & Ht & Hparse & _ & Hd1 & _).
  rewrite Hu in Hu0. simplify_eq.
  destruct (canonical_url_parses _ _ Hv2) as (u2 & u3 & u4 & Hu2 & H3 & _ & Hparse4 & _ & Hd4 & _).
  rewrite Ht in Hu2, H3. assert (u2 = u') as -> by congruence. assert (u4 = u') as -> by congruence.
  destruct (without_root_dot_spec _ _ _ H1) as (_ & _ & _ & [[_ Hno]|(? & ? & ? & ? & E1)]).
  { by rewrite (Hno dom Hdom) in Hd. }
  simplify_eq. rewrite E1 in Hd1.
  destruct (without_root_dot_spec _ _ _ H3) as (_ & _ & _ & [[_ Hno]|(? & ? & ? & ? & E3)]).
  { by rewrite (Hno d Hd1) in Hd'. }
  simplify_eq. apply strip_dot_shorter in Hd'. assert (Some d = Some d') as [= ->] by congruence. lia.
Qed.

(** Helper identity: The canonical spelling of a helper is its own canonical
    spelling, so that a stored identity is read back as itself and no other
    spelling of it can pass for a new helper, exactly if the host has at most
    one root dot: of two, each pass removes one. *)
Theorem canonical_is_stable value v :
  canonicalize_helper_base_url value = Ok v ->
  (canonicalize_helper_base_url v = Ok v <-> single_root_dot value).
Proof.
  intros Hv. split; [|intros Hdot; by eapply canonical_again].
  intros Hv2 u dom d Hu Hdom Hd. destruct (strip_dot d) as [d'|] eqn:Hd'; [|done].
  by destruct (double_root_dot value v u dom d d').
Qed.
End canonical.

(** ** Lists of helpers *)
Lemma elem_of_push_new x acc u : x ∈ push_new acc u <-> x ∈ acc \/ x = u.
Proof. unfold push_new. case_bool_decide; set_solver. Qed.

Lemma NoDup_push_new acc u : NoDup acc -> NoDup (push_new acc u).
Proof.
  intros Hn. unfold push_new. case_bool_decide; [done|]. apply NoDup_app.
  split_and!; [done|set_solver|apply NoDup_singleton].
Qed.

Lemma elem_of_pushed x acc l : x ∈ foldl push_new acc l <-> x ∈ acc \/ x ∈ l.
Proof.
  revert acc. induction l as [|u l IH]; intros acc; cbn [foldl]; [set_solver|].
  rewrite IH, elem_of_push_new. set_solver.
Qed.

Lemma NoDup_pushed acc l : NoDup acc -> NoDup (foldl push_new acc l).
Proof.
  revert acc. induction l as [|u l IH]; intros acc Ha; [done|]. cbn [foldl].
  by apply IH, NoDup_push_new.
Qed.

Lemma pushed_distinct acc l : NoDup (acc ++ l) -> foldl push_new acc l = acc ++ l.
Proof.
  revert acc. induction l as [|u l IH]; intros acc Hn; [by rewrite app_nil_r|]. cbn [foldl].
  unfold push_new at 2. rewrite bool_decide_false.
  - rewrite IH, <- app_assoc; [done|]. by rewrite <- app_assoc.
  - apply NoDup_app in Hn as (_ & Hd & _). intros Hu. apply (Hd u Hu). set_solver.
Qed.

Section list_lemmas.
Context `{HelperIdentity}.

(** A spelling that is its own canonical form, and one whose canonical form
    is such a spelling. *)
Definition canonical_url (u : string) : Prop := canonicalize u = Ok u.
Definition sound_url (u : string) : Prop := forall v, canonicalize u = Ok v -> canonical_url v.

#[global] Instance canonical_url_dec u : base.Decision (canonical_url u).
Proof.
  unfold canonical_url. destruct (canonicalize u) as [v|e] eqn:E.
  - destruct (decide (v = u)) as [->|]; [by left|right; congruence].
  - right. congruence.
Defined.

Lemma canonical_sound u : canonical_url u -> sound_url u.
Proof. unfold sound_url, canonical_url. intros Hu v Hv. rewrite Hu in Hv. by simplify_eq. Qed.

Lemma canonical_into_map acc urls :
  canonical_into acc urls = let? vs := try_map canonicalize urls in Ok (foldl push_new acc vs).
Proof.
  revert acc. induction urls as [|u urls IH]; intros acc; [done|]. cbn [canonical_into try_map].
  destruct (canonicalize u); [|done]. rewrite IH. by destruct (try_map _ _).
Qed.

Lemma canonical_list_map urls :
  canonical_helper_url_list urls = let? vs := try_map canonicalize urls in Ok (foldl push_new [] vs).
Proof. apply canonical_into_map. Qed.

Lemma try_map_canonical urls :
  Forall canonical_url urls -> try_map canonicalize urls = Ok urls.
Proof. induction 1 as [|u urls Hu Hs IH]; [done|]. cbn [try_map]. by rewrite Hu, IH. Qed.

Lemma canonical_list_canonical urls :
  Forall canonical_url urls -> canonical_helper_url_list urls = Ok (foldl push_new [] urls).
Proof. intros Hu. rewrite canonical_list_map. by rewrite try_map_canonical. Qed.

Lemma canonical_list_distinct urls :
  Forall canonical_url urls -> NoDup urls -> canonical_helper_url_list urls = Ok urls.
Proof. intros Hu Hn. rewrite canonical_list_canonical by done. f_equal. by apply (pushed_distinct []). Qed.

Lemma canonical_list_NoDup urls l : canonical_helper_url_list urls = Ok l -> NoDup l.
Proof.
  rewrite canonical_list_map. destruct (try_map _ _); [|done]. intros [= <-].
  apply NoDup_pushed, NoDup_nil_2.
Qed.

Lemma canonical_list_sound urls l :
  Forall sound_url urls -> canonical_helper_url_list urls = Ok l -> Forall canonical_url l.
Proof.
  rewrite canonical_list_map. intros Hs Hl. destruct (try_map _ urls) as [vs|] eqn:E; [|done].
  simplify_eq. assert (Forall canonical_url vs) as Hv.
  { revert vs E. induction Hs as [|u urls Hu Hs IH]; intros vs E; cbn [try_map] in E; [by simplify_eq|].
    destruct (canonicalize u) eqn:Eu; [|done]. destruct (try_map _ _); [|done]. simplify_eq.
    constructor; [by apply Hu|by apply IH]. }
  apply list.Forall_forall. intros x Hx. apply elem_of_pushed in Hx as [Hx|Hx]; [set_solver|].
  rewrite list.Forall_forall in Hv. by apply Hv.
Qed.

Lemma canonical_list_elem urls l x :
  canonical_helper_url_list urls = Ok l -> x ∈ l <-> exists u, u ∈ urls /\ canonicalize u = Ok x.
Proof.
  rewrite canonical_list_map. intros Hl. destruct (try_map _ urls) as [vs|] eqn:E; [|done]. simplify_eq.
  rewrite elem_of_pushed. transitivity (x ∈ vs); [set_solver|].
  revert vs E. induction urls as [|u urls IH]; intros vs E; cbn [try_map] in E.
  - simplify_eq. set_solver.
  - destruct (canonicalize u) as [v|] eqn:Eu; [|done]. destruct (try_map _ _) as [vs'|]; [|done].
    simplify_eq. rewrite elem_of_cons, (IH vs' eq_refl). split.
    + intros [->|(w & Hw & Ew)]; [exists u|exists w]; split; try done; set_solver.
    + intros (w & Hw & Ew). apply elem_of_cons in Hw as [->|Hw]; [left; congruence|right; eauto].
Qed.
End list_lemmas.

(** ** Health orders helpers and never drops one *)
Section health_lemmas.
Context `{HelperIdentity}.
Implicit Types h : HelperHealth.

Definition available (h : HelperHealth) (now : Z) (url : string) : bool := (is_available h url now).1.

Lemma expire_opened h s now :
  hs_opened_at (expire_cooldown_if_elapsed h (expire_cooldown_if_elapsed h s now) now)
  = hs_opened_at (expire_cooldown_if_elapsed h s now).
Proof.
  unfold expire_cooldown_if_elapsed. destruct (hs_opened_at s) as [t|] eqn:Ho; [|by rewrite Ho].
  destruct (_ <? _) eqn:E; [|done]. by rewrite Ho, E.
Qed.

Lemma available_after h u v now : available (is_available h u now).2 now v = available h now v.
Proof.
  unfold available, is_available. destruct (hh_states h !! helper_identity_key u) as [s|] eqn:Hu; [|done].
  cbn [snd hh_states with_states]. set (h' := with_states h _).
  change (expire_cooldown_if_elapsed h') with (expire_cooldown_if_elapsed h).
  change (hh_states h') with (<[helper_identity_key u := expire_cooldown_if_elapsed h s now]> (hh_states h)).
  clearbody h'.
  destruct (decide (helper_identity_key u = helper_identity_key v)) as [E|Hne].
  - rewrite E, lookup_insert_eq, <- E, Hu. cbn [fst]. by rewrite expire_opened.
  - rewrite lookup_insert_ne by done. by destruct (hh_states h !! helper_identity_key v).
Qed.

Lemma sort_by_health_spec h now urls a d :
  (sort_by_health h now urls a d).1
  = (a ++ filter (fun u => available h now u = true) urls,
     d ++ filter (fun u => available h now u = false) urls).
Proof.
  revert h a d. induction urls as [|u urls IH]; intros h a d; [by rewrite !app_nil_r|].
  cbn [sort_by_health]. pose proof (available_after h u) as Hafter.
  destruct (is_available h u now) as [b h'] eqn:E. cbn [snd] in Hafter.
  assert (available h now u = b) as Hb by (unfold available; by rewrite E).
  rewrite !filter_cons, Hb.
  assert (forall b, filter (fun v => available h' now v = b) urls
                    = filter (fun v => available h now v = b) urls) as Hf.
  { intros b'. apply list_filter_iff. intros v.
    specialize (Hafter v now). rewrite E in Hafter. cbn [snd] in Hafter. by rewrite Hafter. }
  destruct b; rewrite IH, !Hf.
  - rewrite decide_True, decide_False by done. cbn. by rewrite <- app_assoc.
  - rewrite decide_False, decide_True by done. cbn. by rewrite <- app_assoc.
Qed.

(** The order: healthy helpers first, both groups in the caller's order, and
    the caller's list unchanged when none is healthy. *)
Definition health_order (h : HelperHealth) (urls : list string) (now : Z) : list string :=
  (candidate_servers h urls now).1.

Lemma health_order_spec h urls now :
  health_order h urls now
  = match filter (fun u => available h now u = true) urls with
    | [] => urls
    | healthy => healthy ++ filter (fun u => available h now u = false) urls
    end.
Proof.
  unfold health_order, candidate_servers. destruct urls as [|u urls]; [done|].
  pose proof (sort_by_health_spec h now (u :: urls) [] []) as Hs.
  destruct (sort_by_health _ _ _ _ _) as [[a d] h']. cbn [fst] in Hs. rewrite !app_nil_l in Hs.
  destruct (filter (fun x => available h now x = true) (u :: urls)) as [|x l]; simplify_eq; done.
Qed.

Lemma health_order_perm h urls now : health_order h urls now ≡ₚ urls.
Proof.
  rewrite health_order_spec.
  destruct (filter (fun u => available h now u = true) urls) as [|x l] eqn:E; [done|]. rewrite <- E.
  clear E x l. induction urls as [|u urls IH]; [done|]. rewrite !filter_cons.
  destruct (available h now u); [rewrite decide_True, decide_False by done|rewrite decide_False, decide_True by done].
  - cbn. by rewrite IH.
  - rewrite <- Permutation_middle. by rewrite IH.
Qed.

(** ** Cooldown *)
Definition wf_health (h : HelperHealth) : Prop :=
  1 <= hh_failure_threshold h <= u32_max
  /\ forall u s, hh_states h !! u = Some s ->
       0 <= hs_consecutive_failures s
       /\ (is_Some (hs_opened_at s) <-> hh_failure_threshold h <= hs_consecutive_failures s).

Lemma expire_wf h s now :
  1 <= hh_failure_threshold h ->
  0 <= hs_consecutive_failures s
  /\ (is_Some (hs_opened_at s) <-> hh_failure_threshold h <= hs_consecutive_failures s) ->
  0 <= hs_consecutive_failures (expire_cooldown_if_elapsed h s now)
  /\ (is_Some (hs_opened_at (expire_cooldown_if_elapsed h s now))
      <-> hh_failure_threshold h <= hs_consecutive_failures (expire_cooldown_if_elapsed h s now)).
Proof.
  intros Ht Hs. unfold expire_cooldown_if_elapsed. destruct (hs_opened_at s) eqn:Ho; [|by rewrite Ho].
  destruct (_ <? _); [by rewrite Ho|]. cbn. unfold saturating_sub_u64.
  split; [lia|]. split; [by intros [? [=]]|lia].
Qed.

Lemma with_states_wf h k s :
  wf_health h -> 0 <= hs_consecutive_failures s
  /\ (is_Some (hs_opened_at s) <-> hh_failure_threshold h <= hs_consecutive_failures s) ->
  wf_health (with_states h (<[k := s]> (hh_states h))).
Proof.
  intros [Ht Hh] Hs. split; [done|]. cbn. intros u s' Hu.
  apply lookup_insert_Some in Hu as [[_ <-]|[_ Hu]]; [done|by apply (Hh u)].
Qed.

(** Every operation keeps a helper demoted exactly while its failures reach
    the threshold. *)
Lemma health_operations_wf h url now :
  wf_health h ->
  wf_health (is_available h url now).2 /\ wf_health (record_failure h url now)
  /\ wf_health (record_success h url).
Proof.
  intros Hh. pose proof Hh as [Ht Hs]. split_and!.
  - unfold is_available. destruct (hh_states h !! _) as [s|] eqn:E; [|done].
    apply with_states_wf; [done|]. apply expire_wf; [lia|]. by eapply Hs.
  - unfold record_failure. apply with_states_wf; [done|]. cbn.
    set (s := default _ _).
    assert (0 <= hs_consecutive_failures s
            /\ (is_Some (hs_opened_at s) <-> hh_failure_threshold h <= hs_consecutive_failures s)) as Hd.
    { subst s. destruct (hh_states h !! _) as [s|] eqn:E; cbn; [by eapply Hs|].
      split; [lia|]. split; [by intros [? [=]]|lia]. }
    apply (expire_wf h _ now) in Hd as [Hf Hi]; [|lia]. set (e := expire_cooldown_if_elapsed h s now) in *.
    unfold saturating_add_u32. split; [unfold u32_max in *; lia|].
    destruct (hs_opened_at e) as [t|] eqn:Eo.
    + rewrite bool_decide_false, andb_false_r by done. split; [|eauto].
      intros _. assert (hh_failure_threshold h <= hs_consecutive_failures e) by (apply Hi; eauto). lia.
    + rewrite bool_decide_true, andb_true_r by done. destruct (_ <=? _) eqn:El; [|split; [by intros [? [=]]|lia]].
      split; [lia|eauto].
  - split; [done|]. cbn. intros u s Hu. apply lookup_delete_Some in Hu as [_ Hu]. by eapply Hs.
Qed.

(** A failure during a cooldown does not extend it, and one after it demotes
    the helper again at once. *)
Lemma cooldown_spec h url s t now :
  wf_health h -> hh_states h !! helper_identity_key url = Some s -> hs_opened_at s = Some t -> t <= now ->
  available h now url = negb (now - t <? hh_cooldown_seconds h)
  /\ from_option hs_opened_at None (hh_states (record_failure h url now) !! helper_identity_key url)
     = Some (if now - t <? hh_cooldown_seconds h then t else now).
Proof.
  intros [Ht Hs] Hu Ho Hle. unfold available, is_available, record_failure. rewrite Hu. cbn [default from_option id].
  destruct (Hs _ _ Hu) as [Hf Hi]. rewrite Ho in Hi.
  assert (saturating_sub_u64 now t = now - t) as Esub by (unfold saturating_sub_u64; lia).
  cbn [hh_states with_states fst]. rewrite lookup_insert_eq. cbn [from_option hs_opened_at].
  unfold expire_cooldown_if_elapsed. rewrite Ho, Esub.
  destruct (now - t <? hh_cooldown_seconds h); cbn [hs_opened_at hs_consecutive_failures negb].
  - rewrite Ho. rewrite bool_decide_false by done. by rewrite andb_false_r.
  - rewrite bool_decide_true by done. split; [done|]. rewrite andb_true_r.
    rewrite (proj2 (Z.leb_le _ _)); [done|]. unfold saturating_add_u32, saturating_sub_u64, u32_max in *. lia.
Qed.
End health_lemmas.

(** ** A small crate of URLs

    Two hosts, with and without the root dot. *)
Definition sample_url_parse (s : string) : result bool text :=
  if bool_decide (s ∈ ["https://h"; "https://h/"]%string) then Ok false
  else if bool_decide (s ∈ ["https://h."; "https://h./"]%string) then Ok true
  else Err (lit "relative URL without a base").

Definition sample_url_crate : UrlCrate := {|
  Url := bool;
  url_parse := sample_url_parse;
  url_scheme := fun _ => "https"%string;
  url_username := fun _ => EmptyString;
  url_password := fun _ => None;
  url_query := fun _ => None;
  url_fragment := fun _ => None;
  url_domain := fun dot => Some (if dot then "h." else "h")%string;
  url_set_host := fun _ host => if bool_decide (host = "h"%string) then Ok false else Err (lit "invalid");
  url_port := fun _ => None;
  url_clear_port := Some;
  url_path := fun _ => "/"%string;
  url_set_path := fun u _ => u;
  url_as_str := fun dot => if dot then "https://h./"%string else "https://h/"%string;
  debug_str := lit
|}.

Definition sample_url_laws : @UrlLaws sample_url_crate.
Proof.
  refine (@Build_UrlLaws sample_url_crate _ _ _ _ _ _).
  - intros [] _; vm_compute; reflexivity.
  - intros u _. exists u. destruct u; vm_compute; repeat split; reflexivity.
  - intros [] dom d u' [= <-]; vm_compute; [intros [= <-] [= <-]; repeat split|done].
  - intros u u' [= <-]. by split_and!.
  - intros u p Hp. vm_compute in Hp. simplify_eq. by split_and!.
  - done.
Defined.

Lemma canonical_is_stable_witness :
  @canonicalize_helper_base_url sample_url_crate "https://h"%string = Ok "https://h"%string.
Proof.
  refine (proj2 (@canonical_is_stable sample_url_crate sample_url_laws " https://h./ "%string "https://h"%string _) _).
  - vm_compute. reflexivity.
  - intros u dom d Hu Hdom Hd. vm_compute in Hu. injection Hu as <-. vm_compute in Hdom. injection Hdom as <-.
    vm_compute in Hd. injection Hd as <-. vm_compute. reflexivity.
Defined.
