(* ===== verification/ShareLedger.v ===== *)
(** * The ledger of helper deliveries

    Models the delivery state of [share.rs] and the statements of
    [storage/queries/share_delegations.rs]: which helpers hold a share, may
    hold it, or are being asked to, kept durably so that every request to a
    helper is recorded before it is sent. The statements run outside a
    transaction too, where another connection can change the row between the
    read and the write; they then compare what they read and start over. *)

From stdpp Require Import base gmap strings list numbers pretty.
From Stdlib Require Import ZifyBool.
From S2P Require Import Prelude Ordered Identity Outcome Lifecycle Record Confirmation Rows Store VoteRecovery.
From S2P Require Import Generation Projection SharePolicy Helpers.
Local Open Scope Z_scope.
Local Open Scope voting_scope.

(** ** Tables *)
Notation ShareId := (VoteId * Z)%type.

Record ShareRow := mk_share_row {
  sh_sent_to_urls : string;
  sh_ambiguous_urls : string;
  sh_attempting_urls : string;
  sh_target_count : Z;
  sh_nullifier : list Z;
  sh_confirmed : bool;
  sh_submit_at : Z;
  sh_created_at : Z
}.

#[global] Instance ShareRow_eq_dec : EqDecision ShareRow.
Proof. solve_decision. Defined.

Record ShareDb := mk_share_db {
  sd_tables : VotingTables;
  sd_shares : gmap ShareId ShareRow
}.

Definition put_share (db : ShareDb) (id : ShareId) (row : ShareRow) : ShareDb :=
  mk_share_db (sd_tables db) (<[id := row]> (sd_shares db)).

Definition share_text (id : ShareId) : text :=
  let '((round_id, _, bundle, proposal), share) := id in
  lit "round=" ++ lit round_id ++ lit ", bundle=" ++ decimal bundle ++ lit ", proposal="
  ++ decimal proposal ++ lit ", share=" ++ decimal share.

Definition missing_share_error (id : ShareId) : VotingError :=
  VInternal (lit "no share delegation found: " ++ share_text id).

(** [serde_json] on a list of strings. *)
Class UrlListJson := {
  urls_of_json : string -> result (list string) text;
  json_of_urls : list string -> string;
  urls_of_json_of_urls : forall l, urls_of_json (json_of_urls l) = Ok l
}.

(** ** Delivery state of one share ([share.rs]) *)
Inductive ShareAttemptCapacityPolicy :=
| EnforcePlacementTarget
| AllowRecoveryBeyondPlacementTarget.

Inductive ShareDeliveryAttemptOutcome :=
| AttemptAccepted
| AttemptAmbiguous
| AttemptDefiniteFailure.

Record ShareDeliveryState := mk_delivery {
  dv_accepted_urls : list string;
  dv_outcome_unknown_urls : list string;
  dv_in_flight_urls : list string
}.

Definition no_delivery : ShareDeliveryState := mk_delivery [] [] [].

(** [retain(|candidate| candidate != &url)]. *)
Definition retain_other (url : string) (l : list string) : list string :=
  filter (fun candidate => candidate <> url) l.

Definition delivery_contains (s : ShareDeliveryState) (url : string) : bool :=
  bool_decide (url ∈ dv_accepted_urls s) || bool_decide (url ∈ dv_outcome_unknown_urls s)
  || bool_decide (url ∈ dv_in_flight_urls s).

Definition mark_accepted_canonical (s : ShareDeliveryState) (url : string) : ShareDeliveryState :=
  mk_delivery (push_new (dv_accepted_urls s) url) (retain_other url (dv_outcome_unknown_urls s))
    (retain_other url (dv_in_flight_urls s)).

Definition mark_outcome_unknown_canonical (s : ShareDeliveryState) (url : string)
    : ShareDeliveryState :=
  mk_delivery (dv_accepted_urls s)
    (if bool_decide (url ∈ dv_accepted_urls s) then dv_outcome_unknown_urls s
     else push_new (dv_outcome_unknown_urls s) url)
    (retain_other url (dv_in_flight_urls s)).

Definition push_in_flight (s : ShareDeliveryState) (url : string) : ShareDeliveryState :=
  mk_delivery (dv_accepted_urls s) (dv_outcome_unknown_urls s) (dv_in_flight_urls s ++ [url]).

Definition add_in_flight (s : ShareDeliveryState) (url : string) : ShareDeliveryState :=
  if delivery_contains s url then s else push_in_flight s url.

Section delivery_state.
Context `{HelperIdentity}.

Definition merge_persisted_report (s : ShareDeliveryState) (accepted unknown : list string)
    : result ShareDeliveryState VotingError :=
  let? accepted := canonical_helper_url_list accepted in
  let s := foldl mark_accepted_canonical s accepted in
  let? unknown := canonical_helper_url_list unknown in
  Ok (foldl mark_outcome_unknown_canonical s unknown).

Definition from_url_lists (accepted unknown in_flight : list string)
    : result ShareDeliveryState VotingError :=
  let? s := merge_persisted_report no_delivery accepted unknown in
  let? in_flight := canonical_helper_url_list in_flight in
  Ok (foldl add_in_flight s in_flight).

Definition delivery_begin (s : ShareDeliveryState) (url : string)
    : result (bool * ShareDeliveryState) VotingError :=
  let? url := canonicalize url in
  if delivery_contains s url then Ok (false, s) else Ok (true, push_in_flight s url).

Definition mark_accepted (s : ShareDeliveryState) (url : string)
    : result ShareDeliveryState VotingError :=
  let? url := canonicalize url in Ok (mark_accepted_canonical s url).

Definition mark_outcome_unknown (s : ShareDeliveryState) (url : string)
    : result ShareDeliveryState VotingError :=
  let? url := canonicalize url in Ok (mark_outcome_unknown_canonical s url).

Definition mark_definite_failure (s : ShareDeliveryState) (url : string)
    : result ShareDeliveryState VotingError :=
  let? url := canonicalize url in
  Ok (mk_delivery (dv_accepted_urls s) (dv_outcome_unknown_urls s)
        (retain_other url (dv_in_flight_urls s))).
End delivery_state.

(** ** Reading a row *)
Inductive ShareAttemptReservation :=
| Started
| AlreadyRecorded
| PlacementCapacityReached
| StaleGeneration.

#[global] Instance Reservation_eq_dec : EqDecision ShareAttemptReservation.
Proof. solve_decision. Defined.

(** How newly reported helpers are folded into the stored state. *)
Inductive HelperUrlMerge := DefiniteAcceptance | OutcomeUnknown.

(** One pass of a read-modify-write loop: an answer from what was read, or a
    write that only applies to a row that still has the columns it read. *)
Inductive Attempt (A : Type) :=
| Settled (a : A)
| CompareAndSet (observed : ShareRow -> bool) (write : ShareRow -> ShareRow)
    (answer : ShareRow -> A)
| InsertNew (row : ShareRow) (answer : A).
Arguments Settled {A} a.
Arguments CompareAndSet {A} observed write answer.
Arguments InsertNew {A} row answer.

Section queries.
Context `{Externals} `{SqliteText} `{DomainExternals} `{HelperIdentity} `{UrlListJson}.

(** Canonical entries, and entries of older schemas that no longer
    canonicalize. *)
Definition partition_step (acc : list string * list string) (url : string)
    : list string * list string :=
  match canonicalize url with
  | Ok canonical_url => (push_new acc.1 canonical_url, acc.2)
  | Err _ => (acc.1, push_new acc.2 url)
  end.

Definition partition_stored_helper_urls (urls : list string) : list string * list string :=
  foldl partition_step ([], []) urls.

Definition parse_url_list (json name : string) : result (list string) VotingError :=
  map_err (fun e => VInternal (lit "failed to deserialize " ++ lit name ++ lit ": " ++ e))
    (urls_of_json json).

Definition stored_urls (json name : string) : result (list string * list string) VotingError :=
  let? urls := parse_url_list json name in Ok (partition_stored_helper_urls urls).

Definition serialize_url_list (canonical_urls legacy_urls : list string) : string :=
  json_of_urls (canonical_urls ++ legacy_urls).

(** The three lists of a row with the legacy entries of each. *)
Record StoredDelivery := mk_stored_delivery {
  sv_state : ShareDeliveryState;
  sv_legacy_sent : list string;
  sv_legacy_ambiguous : list string;
  sv_legacy_attempting : list string
}.

Definition load_delivery (row : ShareRow) : result StoredDelivery VotingError :=
  let? (sent, legacy_sent) := stored_urls (sh_sent_to_urls row) "sent_to_urls" in
  let? (ambiguous, legacy_ambiguous) := stored_urls (sh_ambiguous_urls row) "ambiguous_urls" in
  let? (attempting, legacy_attempting) := stored_urls (sh_attempting_urls row) "attempting_urls" in
  let? state := from_url_lists sent ambiguous attempting in
  Ok (mk_stored_delivery state legacy_sent legacy_ambiguous legacy_attempting).

Definition ensure_share_matches_ballot_intent (t : VotingTables) (vote : VoteId)
    : result unit VotingError :=
  let '(round_id, wallet, bundle, proposal) := vote in
  match tb_ballot_intent t !! (round_id, wallet, proposal) with
  | None => Ok tt
  | Some intent =>
      if negb (it_skipped intent =? 0) then
        Err (VInvalidInput (lit "cannot record share delegation for skipped proposal "
          ++ wallet_vote_text round_id wallet bundle proposal))
      else match it_choice intent with
           | None => Err (VInvalidInput (lit "ballot intent choice missing for round="
               ++ lit round_id ++ lit ", wallet=" ++ lit wallet ++ lit ", proposal="
               ++ decimal proposal))
           | Some choice =>
               if bool_decide (vt_choice <$> tb_votes t !! vote = Some choice) then Ok tt
               else Err (VInvalidInput (lit "share delegation conflicts with ballot intent for "
                      ++ wallet_vote_text round_id wallet bundle proposal))
           end
  end.

(** [expected_nullifier.is_some_and(|expected| expected != nullifier)]. *)
Definition other_generation (expected : option (list Z)) (row : ShareRow) : bool :=
  match expected with
  | Some n => bool_decide (n <> sh_nullifier row)
  | None => false
  end.

(** The columns that every write compares with what it read. *)
Definition same_delivery (seen row : ShareRow) : bool :=
  bool_decide (sh_nullifier row = sh_nullifier seen)
  && bool_decide (sh_sent_to_urls row = sh_sent_to_urls seen)
  && bool_decide (sh_ambiguous_urls row = sh_ambiguous_urls seen)
  && bool_decide (sh_attempting_urls row = sh_attempting_urls seen).

Definition with_attempting (json : string) (row : ShareRow) : ShareRow :=
  mk_share_row (sh_sent_to_urls row) (sh_ambiguous_urls row) json (sh_target_count row)
    (sh_nullifier row) (sh_confirmed row) (sh_submit_at row) (sh_created_at row).

Definition with_delivery (sent ambiguous attempting : string) (target submit_at : Z) (row : ShareRow)
    : ShareRow :=
  mk_share_row sent ambiguous attempting target (sh_nullifier row) (sh_confirmed row) submit_at
    (sh_created_at row).

Definition with_confirmed (row : ShareRow) : ShareRow :=
  mk_share_row (sh_sent_to_urls row) (sh_ambiguous_urls row) (sh_attempting_urls row)
    (sh_target_count row) (sh_nullifier row) true (sh_submit_at row) (sh_created_at row).

(** ** Read-modify-write loops *)
Definition bundle_present (t : VotingTables) (id : ShareId) : bool :=
  let '((round_id, wallet, bundle, _), _) := id in
  bool_decide (is_Some (tb_bundles t !! (round_id, wallet, bundle))).

Definition record_failed (e : SqlError) : VotingError :=
  VInternal (lit "failed to record share delegation: " ++ sql_error_to_string e).

(** The write of one pass; [Ok None] when it changed no row. *)
Definition apply_attempt {A} (id : ShareId) (attempt : Attempt A) (db : ShareDb)
    : result (option (A * ShareDb)) VotingError :=
  match attempt with
  | Settled a => Ok (Some (a, db))
  | CompareAndSet observed write answer =>
      match sd_shares db !! id with
      | Some row =>
          if observed row then Ok (Some (answer row, put_share db id (write row))) else Ok None
      | None => Ok None
      end
  | InsertNew row a =>
      match bind_u64 (sh_submit_at row), bind_u64 (sh_created_at row) with
      | Some _, Some _ =>
          match sd_shares db !! id with
          | Some _ => Ok None
          | None =>
              if bundle_present (sd_tables db) id then Ok (Some (a, put_share db id row))
              else Err (record_failed ConstraintViolation)
          end
      | _, _ => Err (record_failed ToSqlConversionFailure)
      end
  end.

(** The loop. [others] are the changes that other connections make between
    the read and the write of successive passes; none are left when the loop
    has the database to itself. [None] is a loop that has not returned. *)
Fixpoint retry_until_applied {A} (id : ShareId)
    (step : ShareDb -> result (Attempt A) VotingError)
    (others : list (ShareDb -> ShareDb)) (db : ShareDb)
    : option (result A VotingError * ShareDb) :=
  match step db with
  | Err e => Some (Err e, db)
  | Ok (Settled a) => Some (Ok a, db)
  | Ok attempt =>
      let db := match others with [] => db | other :: _ => other db end in
      match apply_attempt id attempt db with
      | Err e => Some (Err e, db)
      | Ok (Some (a, db)) => Some (Ok a, db)
      | Ok None =>
          match others with
          | [] => None
          | _ :: others => retry_until_applied id step others db
          end
      end
  end.
End queries.

(** ** Statements *)
Section operations.
Context `{Externals} `{SqliteText} `{DomainExternals} `{HelperIdentity} `{UrlListJson}.

Definition reserved_placements (state : ShareDeliveryState) (placement : list string) : nat :=
  length (filter (fun url => url ∈ placement) (dv_accepted_urls state ++ dv_in_flight_urls state)).

Definition placement_capacity_reached (policy : ShareAttemptCapacityPolicy) (target_count : nat)
    (state : ShareDeliveryState) (placement : list string) : bool :=
  match policy with
  | EnforcePlacementTarget => (target_count <=? reserved_placements state placement)%nat
  | AllowRecoveryBeyondPlacementTarget => false
  end.

(** One pass of the reservation loop. *)
Definition attempting_step (id : ShareId) (server_url : string) (placement : list string)
    (target_count : nat) (policy : ShareAttemptCapacityPolicy) (expected : option (list Z))
    (db : ShareDb) : result (Attempt ShareAttemptReservation) VotingError :=
  match sd_shares db !! id with
  | None => Ok (Settled StaleGeneration)
  | Some row =>
      if other_generation expected row then Ok (Settled StaleGeneration)
      else
        let? _ := ensure_share_matches_ballot_intent (sd_tables db) id.1 in
        let? stored := load_delivery row in
        let state := sv_state stored in
        if sh_confirmed row || delivery_contains state server_url then Ok (Settled AlreadyRecorded)
        else if placement_capacity_reached policy target_count state placement then
          Ok (Settled PlacementCapacityReached)
        else
          let? (_, state) := delivery_begin state server_url in
          let json := serialize_url_list (dv_in_flight_urls state) (sv_legacy_attempting stored) in
          Ok (CompareAndSet (fun now => negb (sh_confirmed now) && same_delivery row now)
                (with_attempting json) (fun _ => Started))
  end.

Definition add_attempting_server_for_generation (id : ShareId) (server_url : string)
    (placement_server_urls : list string) (target_count : nat) (policy : ShareAttemptCapacityPolicy)
    (expected : option (list Z)) (others : list (ShareDb -> ShareDb)) (db : ShareDb)
    : option (result ShareAttemptReservation VotingError * ShareDb) :=
  match canonical_helper_url_list placement_server_urls with
  | Err e => Some (Err e, db)
  | Ok placement =>
      match canonicalize server_url with
      | Err e => Some (Err e, db)
      | Ok server_url =>
          if bool_decide (server_url ∈ placement) then
            retry_until_applied id
              (attempting_step id server_url placement target_count policy expected) others db
          else Some (Err (VInvalidInput
                 (lit "attempted helper must belong to the placement fleet")), db)
      end
  end.

Definition removal_step (id : ShareId) (server_url : string) (expected : option (list Z))
    (db : ShareDb) : result (Attempt bool) VotingError :=
  match sd_shares db !! id with
  | None => Ok (Settled false)
  | Some row =>
      if other_generation expected row then Ok (Settled false)
      else
        let? _ := ensure_share_matches_ballot_intent (sd_tables db) id.1 in
        let? (in_flight, legacy) := stored_urls (sh_attempting_urls row) "attempting_urls" in
        let? state := from_url_lists [] [] in_flight in
        let? state := mark_definite_failure state server_url in
        let json := serialize_url_list (dv_in_flight_urls state) legacy in
        Ok (CompareAndSet (same_delivery row) (with_attempting json) (fun _ => true))
  end.

Definition remove_attempting_server_for_generation (id : ShareId) (server_url : string)
    (expected : option (list Z)) : list (ShareDb -> ShareDb) -> ShareDb ->
    option (result bool VotingError * ShareDb) :=
  retry_until_applied id (removal_step id server_url expected).

Definition merge_url (merge : HelperUrlMerge) (state : ShareDeliveryState) (url : string)
    : result ShareDeliveryState VotingError :=
  match merge with
  | DefiniteAcceptance => mark_accepted state url
  | OutcomeUnknown => mark_outcome_unknown state url
  end.

Definition merge_step (id : ShareId) (new_urls : list string) (merge : HelperUrlMerge)
    (reset_submit_at : bool) (expected : option (list Z)) (db : ShareDb)
    : result (Attempt bool) VotingError :=
  match sd_shares db !! id with
  | None => Ok (Settled false)
  | Some row =>
      if other_generation expected row then Ok (Settled false)
      else
        let? _ := ensure_share_matches_ballot_intent (sd_tables db) id.1 in
        let? stored := load_delivery row in
        let? state := try_fold (merge_url merge) (sv_state stored) new_urls in
        let sent := serialize_url_list (dv_accepted_urls state) (sv_legacy_sent stored) in
        let ambiguous :=
          serialize_url_list (dv_outcome_unknown_urls state) (sv_legacy_ambiguous stored) in
        let attempting :=
          serialize_url_list (dv_in_flight_urls state) (sv_legacy_attempting stored) in
        Ok (CompareAndSet (same_delivery row)
              (fun now => with_delivery sent ambiguous attempting (sh_target_count now)
                            (if reset_submit_at then 0 else sh_submit_at now) now)
              (fun _ => true))
  end.

Definition merge_share_delegation_urls (id : ShareId) (new_urls : list string)
    (merge : HelperUrlMerge) (reset_submit_at : bool) (expected : option (list Z))
    : list (ShareDb -> ShareDb) -> ShareDb -> option (result bool VotingError * ShareDb) :=
  retry_until_applied id (merge_step id new_urls merge reset_submit_at expected).

(** [ON CONFLICT DO NOTHING] reports no row, and the loop reads again. *)
Definition record_step (id : ShareId) (sent_to_urls ambiguous_urls : list string) (target_count : Z)
    (nullifier : list Z) (submit_at created_at : Z) (db : ShareDb)
    : result (Attempt Z) VotingError :=
  match sd_shares db !! id with
  | None =>
      let? state := from_url_lists sent_to_urls ambiguous_urls [] in
      Ok (InsertNew (mk_share_row (serialize_url_list (dv_accepted_urls state) [])
            (serialize_url_list (dv_outcome_unknown_urls state) []) (serialize_url_list [] [])
            target_count nullifier false submit_at created_at) submit_at)
  | Some row =>
      if bool_decide (sh_nullifier row <> nullifier) then
        let '((round_id, wallet, bundle, proposal), share) := id in
        Err (VInvalidInput (lit "share nullifier conflict for "
          ++ wallet_vote_text round_id wallet bundle proposal ++ lit ", share=" ++ decimal share))
      else
        let? stored := load_delivery row in
        let? state := merge_persisted_report (sv_state stored) sent_to_urls ambiguous_urls in
        let legacy_ambiguous :=
          filter (fun url => url ∉ sv_legacy_sent stored) (sv_legacy_ambiguous stored) in
        let legacy_attempting :=
          filter (fun url => url ∉ sv_legacy_sent stored /\ url ∉ legacy_ambiguous)
            (sv_legacy_attempting stored) in
        let sent := serialize_url_list (dv_accepted_urls state) (sv_legacy_sent stored) in
        let ambiguous := serialize_url_list (dv_outcome_unknown_urls state) legacy_ambiguous in
        let attempting := serialize_url_list (dv_in_flight_urls state) legacy_attempting in
        Ok (CompareAndSet
              (fun now => same_delivery row now && (sh_target_count now =? sh_target_count row))
              (fun now => with_delivery sent ambiguous attempting
                            (Z.max (sh_target_count row) target_count) (sh_submit_at now) now)
              sh_submit_at)
  end.

Definition record_share_delegation_inner (id : ShareId) (sent_to_urls ambiguous_urls : list string)
    (target_count : Z) (nullifier : list Z) (submit_at created_at : Z)
    (others : list (ShareDb -> ShareDb)) (db : ShareDb) : option (result Z VotingError * ShareDb) :=
  match ensure_share_matches_ballot_intent (sd_tables db) id.1 with
  | Err e => Some (Err e, db)
  | Ok _ =>
      retry_until_applied id
        (record_step id sent_to_urls ambiguous_urls target_count nullifier submit_at created_at)
        others db
  end.

(** The immediate transaction holds the write lock from before the check. *)
Definition record_share_delegation_for_vote_generation (id : ShareId)
    (sent_to_urls ambiguous_urls : list string) (target_count : Z) (nullifier : list Z)
    (submit_at created_at : Z) (expected_commitment_bundle_json : string) (db : ShareDb)
    : option (result Z VotingError * ShareDb) :=
  let '(round_id, wallet, bundle, proposal) := id.1 in
  let current :=
    match tb_votes (sd_tables db) !! id.1 with
    | None => Ok None
    | Some vote =>
        match vt_commitment_bundle_json vote with
        | Some json => Ok (Some json)
        | None => Err (VInternal (lit "failed to read committed vote for helper delivery: "
                         ++ column_error 0 "commitment_bundle_json"))
        end
    end in
  match current with
  | Err e => Some (Err e, db)
  | Ok current =>
      if bool_decide (current = Some expected_commitment_bundle_json) then
        match record_share_delegation_inner id sent_to_urls ambiguous_urls target_count nullifier
                submit_at created_at [] db with
        | Some (Err e, _) => Some (Err e, db)
        | r => r
        end
      else Some (Err (VInvalidInput (lit "committed vote changed before helper share delivery for "
             ++ wallet_vote_text round_id wallet bundle proposal)), db)
  end.
End operations.

(** ** Confirmation and loading *)
Section records.
Context `{Externals} `{SqliteText} `{DomainExternals} `{HelperIdentity} `{UrlListJson}.

Definition share_is_confirmed_for_generation (id : ShareId) (expected : option (list Z))
    (db : ShareDb) : result (option bool) VotingError :=
  match sd_shares db !! id with
  | None => Ok None
  | Some row =>
      if other_generation expected row then Ok None
      else
        let? _ := ensure_share_matches_ballot_intent (sd_tables db) id.1 in
        Ok (Some (sh_confirmed row))
  end.

Definition share_is_confirmed (id : ShareId) (db : ShareDb) : result bool VotingError :=
  let? confirmed := share_is_confirmed_for_generation id None db in
  ok_or confirmed (missing_share_error id).

Definition mark_share_confirmed (id : ShareId) (expected : option (list Z)) (db : ShareDb)
    : result bool VotingError * ShareDb :=
  match sd_shares db !! id with
  | None => (Ok false, db)
  | Some row =>
      if other_generation expected row then (Ok false, db)
      else match ensure_share_matches_ballot_intent (sd_tables db) id.1 with
           | Err e => (Err e, db)
           | Ok _ => (Ok true, put_share db id (with_confirmed row))
           end
  end.

(** A row as the caller sees it. *)
Definition share_record (id : ShareId) (row : ShareRow) : result ShareDelegationRecord VotingError :=
  let '((round_id, _, bundle, proposal), share) := id in
  let? stored := load_delivery row in
  let state := sv_state stored in
  Ok (mk_share_record round_id bundle proposal share (dv_accepted_urls state)
        (dv_outcome_unknown_urls state) (dv_in_flight_urls state) (sh_target_count row)
        (sh_nullifier row) (sh_confirmed row) (sh_submit_at row) (sh_created_at row)).

(** [ORDER BY proposal_id, share_index]. *)
Definition share_leb (a b : ShareId * ShareRow) : bool :=
  let '(((_, _, _, p), s), _) := a in
  let '(((_, _, _, p'), s'), _) := b in
  (p <? p') || ((p =? p') && (s <=? s')).

Definition in_round (round_id wallet : string) (id : ShareId) : bool :=
  let '((r, w, _, _), _) := id in bool_decide (r = round_id) && bool_decide (w = wallet).

Definition select_shares (round_id wallet : string) (keep : ShareRow -> bool) (db : ShareDb)
    : list (ShareId * ShareRow) :=
  stable_sort share_leb
    (filter (fun kv => in_round round_id wallet kv.1 && keep kv.2 = true)
       (map_to_list (sd_shares db))).

Definition load_share_delegations (rows : list (ShareId * ShareRow))
    : result (list ShareDelegationRecord) VotingError :=
  try_map (fun kv => share_record kv.1 kv.2) rows.

Definition get_share_delegations (round_id wallet : string) (db : ShareDb)
    : result (list ShareDelegationRecord) VotingError :=
  load_share_delegations (select_shares round_id wallet (fun _ => true) db).

Definition get_unconfirmed_delegations (round_id wallet : string) (db : ShareDb)
    : result (list ShareDelegationRecord) VotingError :=
  load_share_delegations (select_shares round_id wallet (fun row => negb (sh_confirmed row)) db).

Definition get_share_delegation (id : ShareId) (db : ShareDb)
    : result (option ShareDelegationRecord) VotingError :=
  match sd_shares db !! id with
  | None => Ok None
  | Some row => let? record := share_record id row in Ok (Some record)
  end.

Definition delete_for_replaced_vote (vote : VoteId) (db : ShareDb) : ShareDb :=
  mk_share_db (sd_tables db) (filter (fun kv => kv.1.1 <> vote) (sd_shares db)).

(** ** Transactions ([storage/operations.rs], [share.rs])

    Each call runs alone in an immediate transaction; an error rolls it
    back. *)
Definition alone {A} (f : list (ShareDb -> ShareDb) -> ShareDb ->
    option (result A VotingError * ShareDb)) (db : ShareDb)
    : option (result A VotingError * ShareDb) :=
  match f [] db with
  | Some (Err e, _) => Some (Err e, db)
  | r => r
  end.

Definition begin_existing_delivery_attempt_for_generation (id : ShareId) (server_url : string)
    (target_count : nat) (nullifier : list Z) (placement_server_urls : list string)
    (policy : ShareAttemptCapacityPolicy)
    : ShareDb -> option (result ShareAttemptReservation VotingError * ShareDb) :=
  alone (add_attempting_server_for_generation id server_url placement_server_urls target_count policy
           (Some nullifier)).

Definition begin_delivery_attempt_for_generation (id : ShareId) (server_url : string)
    (target_count : nat) (nullifier : list Z) (placement_server_urls : list string)
    : ShareDb -> option (result ShareAttemptReservation VotingError * ShareDb) :=
  begin_existing_delivery_attempt_for_generation id server_url target_count nullifier
    placement_server_urls EnforcePlacementTarget.

Definition resolve_delivery_attempt_for_generation (id : ShareId) (server_url : string)
    (nullifier : list Z) (outcome : ShareDeliveryAttemptOutcome) (reset_submit_at : bool)
    : ShareDb -> option (result bool VotingError * ShareDb) :=
  alone match outcome with
        | AttemptAccepted =>
            merge_share_delegation_urls id [server_url] DefiniteAcceptance reset_submit_at
              (Some nullifier)
        | AttemptAmbiguous =>
            merge_share_delegation_urls id [server_url] OutcomeUnknown reset_submit_at
              (Some nullifier)
        | AttemptDefiniteFailure =>
            remove_attempting_server_for_generation id server_url (Some nullifier)
        end.

Definition confirm_for_generation (id : ShareId) (nullifier : list Z) (db : ShareDb)
    : result bool VotingError * ShareDb :=
  mark_share_confirmed id (Some nullifier) db.

Definition is_current_generation (id : ShareId) (nullifier : list Z) (db : ShareDb)
    : result bool VotingError :=
  let? confirmed := share_is_confirmed_for_generation id (Some nullifier) db in
  Ok (bool_decide (is_Some confirmed)).

Definition persisted_delivery_target_count (target_count : nat) : result Z VotingError :=
  if Z.of_nat target_count <=? u32_max then Ok (Z.of_nat target_count)
  else Err (VInvalidInput (lit "target_count " ++ decimal (Z.of_nat target_count)
              ++ lit " does not fit u32")).
End records.
