(* ===== verification/HelperClient.v ===== *)
(** * The helper client

    Models [helper/client.rs], [helper/transport.rs] and
    [ingress_timeout.rs]: what an answer of a helper means, which failures
    leave it unknown whether the helper has the share, and when a request is
    repeated. The transport, the clock and the cancellation are the
    environment's; JSON is a parameter. *)

From stdpp Require Import base gmap strings list numbers pretty.
From Stdlib Require Import ZifyBool Ascii.
From S2P Require Import Prelude Identity Outcome Lifecycle Record VoteRecovery SharePolicy Helpers.
Local Open Scope Z_scope.
Local Open Scope voting_scope.

(** ** Errors and answers *)
Inductive HelperTransportError :=
| TeTimeout
| TeAmbiguous (message : text)
| TeResponse (message : text)
| TeTransport (message : text).

Inductive HelperError :=
| NotEnqueuedByServer
| InvalidRequest (message : text)
| HeTransport (e : HelperTransportError)
| HeStatus (status : Z)
| HeDecode (message : text)
| AmbiguousSubmissionResponse (message : text)
| DeadlineExceeded
| HeCancelled.

Inductive ShareStatus := SsPending | SsConfirmed.
Inductive ShareSubmissionStatus := SubQueued | SubDuplicate.

Definition is_transient (e : HelperError) : bool :=
  match e with
  | HeTransport _ | NotEnqueuedByServer => true
  | HeStatus status =>
      (status =? 429) || (status =? 500) || (status =? 502) || (status =? 503) || (status =? 504)
  | InvalidRequest _ | HeDecode _ | AmbiguousSubmissionResponse _ | DeadlineExceeded | HeCancelled =>
      false
  end.

Definition is_ambiguous (e : HelperError) : bool :=
  match e with
  | HeTransport (TeTimeout | TeAmbiguous _ | TeResponse _) | AmbiguousSubmissionResponse _ => true
  | HeStatus status => (500 <=? status) && (status <=? 599)
  | _ => false
  end.

Definition transport_error_to_string (e : HelperTransportError) : text :=
  match e with
  | TeTimeout => lit "helper request timed out"
  | TeAmbiguous m => lit "helper request outcome is unknown: " ++ m
  | TeResponse m => lit "helper response failed after headers arrived: " ++ m
  | TeTransport m => lit "helper request failed: " ++ m
  end.

Definition helper_error_to_string (e : HelperError) : text :=
  match e with
  | NotEnqueuedByServer => lit "helper request body timed out before enqueue"
  | InvalidRequest m => lit "invalid helper request: " ++ m
  | HeTransport e => transport_error_to_string e
  | HeStatus status => lit "helper returned HTTP " ++ decimal status
  | HeDecode m => lit "helper response was not usable: " ++ m
  | AmbiguousSubmissionResponse m => lit "helper submission outcome is unknown: " ++ m
  | DeadlineExceeded => lit "helper delivery deadline elapsed before request dispatch"
  | HeCancelled => lit "helper request cancelled"
  end.

Record HelperResponse := mk_response {
  hr_status : Z;
  hr_body : list Z;
  hr_content_type : option string
}.

Definition MAX_HELPER_RESPONSE_BYTES : Z := 256 * 1024.

Definition is_success (r : HelperResponse) : bool := (200 <=? hr_status r) && (hr_status r <? 300).

(** ** JSON of the helper protocol *)
Record TimeoutReceipt := mk_receipt {
  rc_version : Z;
  rc_code : string;
  rc_dispatch : string;
  rc_attempt : string
}.

Class HelperJson := {
  (** The string at a field of the body's object. *)
  body_string_field : list Z -> string -> option string;
  (** The receipt of a body that has exactly its fields. *)
  body_receipt : list Z -> option TimeoutReceipt
}.

Definition to_ascii_lowercase (c : ascii) : ascii :=
  if (65 <=? code c) && (code c <=? 90) then chr (code c + 32) else c.

Definition eq_ignore_ascii_case (a b : string) : bool :=
  bool_decide (map to_ascii_lowercase (String.list_ascii_of_string a)
               = map to_ascii_lowercase (String.list_ascii_of_string b)).

(** [split(';').next()]. *)
Fixpoint before_semicolon (s : string) : string :=
  match s with
  | EmptyString => EmptyString
  | String c s => if code c =? 59 then EmptyString else String c (before_semicolon s)
  end.

Section responses.
Context `{HelperJson}.

Definition is_not_dispatched (status : Z) (payload : list Z) (attempt : option string) : bool :=
  match attempt with
  | None => false
  | Some attempt =>
      if negb (status =? 408) then false
      else match body_receipt payload with
           | None => false
           | Some receipt =>
               (rc_version receipt =? 1)
               && bool_decide (rc_code receipt = "request_body_timeout"%string)
               && bool_decide (rc_dispatch receipt = "not_started"%string)
               && bool_decide (rc_attempt receipt = attempt)
           end
  end.

Definition require_success (r : HelperResponse) : result HelperResponse HelperError :=
  if is_success r then Ok r else Err (HeStatus (hr_status r)).

Definition validate_json_response (r : HelperResponse) : result unit HelperError :=
  if MAX_HELPER_RESPONSE_BYTES <? len (hr_body r) then
    Err (HeDecode (lit "helper response exceeds " ++ decimal MAX_HELPER_RESPONSE_BYTES
           ++ lit " byte limit"))
  else if match hr_content_type r with
          | Some content_type =>
              eq_ignore_ascii_case (str_trim (before_semicolon content_type)) "application/json"
          | None => false
          end
  then Ok tt
  else Err (HeDecode (lit "helper response Content-Type must be application/json")).

Definition json_field (r : HelperResponse) (field : string) : option string :=
  if MAX_HELPER_RESPONSE_BYTES <? len (hr_body r) then None
  else body_string_field (hr_body r) field.

Definition parse_share_status (r : HelperResponse) : result ShareStatus HelperError :=
  match json_field r "status" with
  | Some status =>
      if bool_decide (status = "confirmed"%string) then Ok SsConfirmed
      else if bool_decide (status = "pending"%string) then Ok SsPending
      else Err (HeDecode (lit "unexpected helper share status"))
  | None => Err (HeDecode (lit "helper share status response has no status field"))
  end.

Definition parse_submission_response (r : HelperResponse)
    : result ShareSubmissionStatus HelperError :=
  let? r := require_success r in
  let? _ := map_err (fun e => AmbiguousSubmissionResponse (helper_error_to_string e))
    (validate_json_response r) in
  match json_field r "status" with
  | Some status =>
      if bool_decide (status = "queued"%string) then Ok SubQueued
      else if bool_decide (status = "duplicate"%string) then Ok SubDuplicate
      else Err (AmbiguousSubmissionResponse (lit "unexpected helper share submit status"))
  | None =>
      Err (AmbiguousSubmissionResponse (lit "helper share submit response has no status field"))
  end.

(** [post_json] with the transport's answer, which the deadline may cut off.
    [attempt] is the token sent with the request. *)
Definition post_json (attempt : option string) (timeout : Z) (deadline_ok : bool)
    (answer : result HelperResponse HelperTransportError) : result HelperResponse HelperError :=
  if timeout =? 0 then
    Err (InvalidRequest (lit "share submission attempt timeout must be nonzero"))
  else if negb deadline_ok then Err (HeTransport TeTimeout)
  else
    let? r := map_err HeTransport answer in
    if is_ok (validate_json_response r) && is_not_dispatched (hr_status r) (hr_body r) attempt then
      Err NotEnqueuedByServer
    else Ok r.
End responses.

(** ** Repeating a request

    What the environment does around the attempts of one request: whether the
    caller has cancelled before an attempt, after a failed one and after the
    wait, and the clock before an attempt and after it. *)
Record RetryEnv := mk_retry_env {
  re_cancelled_before : nat -> bool;
  re_cancelled_after : nat -> bool;
  re_cancelled_waiting : nat -> bool;
  re_clock_before : nat -> Z;
  re_clock_after : nat -> Z;
  re_clock_max : Z
}.

Section retry.
Context {T : Type} (env : RetryEnv) (retry_ambiguous : bool) (deadline : option Z).
(** The answer of each attempt, given the time that remains. *)
Context (operation : nat -> option Z -> result T HelperError).

Definition time_remaining (attempt : nat) : option Z :=
  (fun d => Z.max (d - re_clock_before env attempt) 0) <$> deadline.

Definition retryable (e : HelperError) : bool :=
  is_transient e && (retry_ambiguous || negb (is_ambiguous e)).

(** Whether the wait ends before the deadline; the clock cannot pass its own
    maximum. *)
Definition wait_fits (attempt : nat) (delay : Z) : bool :=
  let wake_at := re_clock_after env attempt + delay in
  (wake_at <=? re_clock_max env)
  && match deadline with Some d => wake_at <? d | None => true end.

(** The attempts from number [attempt] on, with the delays that are left. The
    second component lists the answers of the attempts that were made. *)
Fixpoint retry_from (delays : list Z) (attempt : nat) (held_error : option HelperError)
    : result T HelperError * list (result T HelperError) :=
  if re_cancelled_before env attempt then (Err HeCancelled, [])
  else if bool_decide (time_remaining attempt = Some 0) then
    (Err (default DeadlineExceeded held_error), [])
  else
    let answer := operation attempt (time_remaining attempt) in
    match answer with
    | Ok value => (Ok value, [answer])
    | Err error =>
        match delays with
        | [] => (Err error, [answer])
        | delay :: delays =>
            if negb (retryable error) then (Err error, [answer])
            else if re_cancelled_after env attempt then (Err HeCancelled, [answer])
            else if negb (wait_fits attempt delay) then (Err error, [answer])
            else if re_cancelled_waiting env attempt then (Err HeCancelled, [answer])
            else
              let '(r, answers) := retry_from delays (S attempt) (Some error) in
              (r, answer :: answers)
        end
    end.

Definition with_retry (retry_delays : list Z) : result T HelperError * list (result T HelperError) :=
  retry_from retry_delays 0 None.
End retry.

Definition HELPER_RETRY_DELAYS_MS : list Z := [200; 600].

(** ** Share requests *)
Section requests.
Context `{HelperIdentity} `{HelperJson}.

Definition HELPER_API_PREFIX : list string := ["shielded-vote"; "v1"]%string.

Definition push_segment (url segment : string) : string := String.append url (String "/"%char segment).

Definition join_helper_url (base_url : string) (segments : list string) : result string VotingError :=
  let? url := canonicalize base_url in
  Ok (foldl push_segment url (HELPER_API_PREFIX ++ segments)).

Definition invalid_request (e : VotingError) : HelperError := InvalidRequest (voting_error_to_string e).

(** [post_share] of the first delivery: repeated, but never after an
    ambiguous answer. [body] has passed the wire schema. *)
Definition post_share_with_retry (env : RetryEnv) (delays : list Z) (deadline : option Z)
    (post_timeout : Z) (token : nat -> option string) (clock_ok : nat -> bool)
    (transport : nat -> string -> result HelperResponse HelperTransportError) (server_url : string)
    : result ShareSubmissionStatus HelperError * list (result ShareSubmissionStatus HelperError) :=
  match join_helper_url server_url ["shares"%string] with
  | Err e => (Err (invalid_request e), [])
  | Ok url =>
      with_retry env false deadline
        (fun attempt remaining =>
           let timeout := from_option (Z.min post_timeout) post_timeout remaining in
           let? response :=
             post_json (token attempt) timeout (clock_ok attempt) (transport attempt url) in
           parse_submission_response response) delays
  end.

(** [post_share] of a recovery: one attempt. *)
Definition post_share_once (cancelled : bool) (post_timeout : Z) (token : option string)
    (clock_ok : bool) (transport : string -> result HelperResponse HelperTransportError)
    (server_url : string) : result ShareSubmissionStatus HelperError :=
  let? url := map_err invalid_request (join_helper_url server_url ["shares"%string]) in
  if cancelled then Err HeCancelled
  else
    let? response := post_json token post_timeout clock_ok (transport url) in
    parse_submission_response response.

(** The health score of a request's outcome. *)
Definition score {T} (h : HelperHealth) (server_url : string) (r : result T HelperError)
    (now elapsed : Z) : HelperHealth :=
  match r with
  | Ok _ => record_success h server_url
  | Err (InvalidRequest _ | HeCancelled | DeadlineExceeded) => h
  | Err _ => record_failure h server_url (saturating_add_u64 now elapsed)
  end.

(** ** Readiness *)
Record HelperFleetPreflight := mk_preflight {
  pf_configured_server_urls : list string;
  pf_ranked_server_urls : list string;
  pf_ready_server_count : nat
}.

Definition from_readiness (configured_server_urls ready_server_urls : list string)
    : result HelperFleetPreflight VotingError :=
  if bool_decide (configured_server_urls = []) then
    Err (VInvalidInput (lit "configured helper fleet must not be empty"))
  else
    let? configured := canonical_helper_url_list configured_server_urls in
    if negb (bool_decide (length configured = length configured_server_urls)) then
      Err (VInvalidInput (lit "configured helper fleet contains duplicate canonical identities"))
    else
      let? ready := canonical_helper_url_list ready_server_urls in
      if negb (bool_decide (length ready = length ready_server_urls)) then
        Err (VInvalidInput (lit "ready helper fleet contains duplicate canonical identities"))
      else match filter (fun url => url ∉ configured) ready with
           | url :: _ =>
               Err (VInvalidInput (lit "ready helper is not in configured fleet: " ++ lit url))
           | [] =>
               Ok (mk_preflight configured (ready ++ filter (fun url => url ∉ ready) configured)
                     (length ready))
           end.
End requests.

(** ** A definite failure is definite *)

(** Whether the helper may have the share after an attempt. *)
Definition may_have_accepted {T} (answer : result T HelperError) : bool :=
  match answer with
  | Ok _ => true
  | Err e => is_ambiguous e
  end.

Lemma retry_from_spec {T} env deadline (op : nat -> option Z -> result T HelperError) delays attempt held :
  (forall e, held = Some e -> is_ambiguous e = false) ->
  let '(r, answers) := retry_from env false deadline op delays attempt held in
  (length answers <= S (length delays))%nat
  /\ (forall i answer, answers !! i = Some answer -> (S i < length answers)%nat ->
        may_have_accepted answer = false)
  /\ (if may_have_accepted r then last answers = Some r
      else Forall (fun answer => may_have_accepted answer = false) answers).
Proof.
  revert attempt held. induction delays as [|delay delays IH]; intros attempt held Hheld; cbn [retry_from].
  all: destruct (re_cancelled_before env attempt); [split_and!; cbn; (done || lia || constructor)|].
  all: case_bool_decide; [split_and!; cbn; try (done || lia)|].
  1,3: destruct held as [e|]; cbn; [rewrite (Hheld e eq_refl)|]; constructor.
  all: destruct (op attempt _) as [v|e] eqn:Eop; [split_and!; cbn; try (done || lia)|].
  - split_and!; cbn; [lia|lia|].
    destruct (is_ambiguous e) eqn:Ea; [done|]. by repeat constructor.
  - assert (forall r', may_have_accepted r' = is_ambiguous e -> (is_ambiguous e = true -> r' = Err e) ->
      (length [@Err T _ e] <= S (length (delay :: delays)))%nat
      /\ (forall i answer, [@Err T _ e] !! i = Some answer -> (S i < length [@Err T _ e])%nat ->
            may_have_accepted answer = false)
      /\ (if may_have_accepted r' then last [@Err T _ e] = Some r'
          else Forall (fun answer => may_have_accepted answer = false) [@Err T _ e])) as Hone.
    { intros r' Hr' He. split_and!; cbn; [lia|lia|].
      rewrite Hr'. destruct (is_ambiguous e) eqn:Ea; [by rewrite He|]. by repeat constructor. }
    destruct (retryable false e) eqn:Er; cbn [negb]; [|by apply Hone].
    assert (is_ambiguous e = false) as Ea.
    { unfold retryable in Er. apply andb_true_iff in Er as [_ Er]. by apply negb_true_iff in Er. }
    destruct (re_cancelled_after env attempt); [apply Hone; rewrite Ea; done|].
    destruct (negb (wait_fits env deadline attempt delay)); [by apply Hone|].
    destruct (re_cancelled_waiting env attempt); [apply Hone; rewrite Ea; done|].
    specialize (IH (S attempt) (Some e) ltac:(by intros ? [= <-])).
    destruct (retry_from env false deadline op delays (S attempt) (Some e)) as [r answers].
    destruct IH as (Hlen & Hmid & Hlast). split_and!.
    + cbn. lia.
    + intros [|i] answer Hi Hl; cbn in Hi, Hl; [by simplify_eq|]. eapply Hmid; [done|lia].
    + destruct (may_have_accepted r); [|by constructor].
      destruct answers; [done|]. by rewrite last_cons_cons.
Qed.


(** The planning order is the configured fleet with the ready helpers first. *)
Lemma ranked_fleet_spec `{HelperIdentity} configured ready p :
  from_readiness configured ready = Ok p ->
  pf_ranked_server_urls p ≡ₚ pf_configured_server_urls p
  /\ (pf_ready_server_count p <= length (pf_configured_server_urls p))%nat.
Proof.
  unfold from_readiness. case_bool_decide; [done|].
  destruct (canonical_helper_url_list configured) as [c|] eqn:Ec; [|done].
  destruct (negb _); [done|]. destruct (canonical_helper_url_list ready) as [r|] eqn:Er; [|done].
  destruct (negb _); [done|]. destruct (filter _ r) as [|x l] eqn:Ef; [|done]. intros [= <-].
  cbn. apply canonical_list_NoDup in Ec, Er.
  assert (r ++ filter (fun url => url ∉ r) c ≡ₚ c) as Hp.
  { apply NoDup_Permutation; [|done|].
    - apply NoDup_app. split_and!; [done| |by apply NoDup_filter].
      intros u Hu. rewrite list_elem_of_filter. tauto.
    - intros u. rewrite elem_of_app, list_elem_of_filter. split.
      + intros [Hu|[_ Hu]]; [|done]. destruct (decide (u ∈ c)) as [|Hn]; [done|].
        assert (u ∈ filter (fun url => url ∉ c) r) as Hx by (by apply list_elem_of_filter).
        rewrite Ef in Hx. by apply elem_of_nil in Hx.
      + intros Hu. destruct (decide (u ∈ r)); [by left|by right]. }
  split; [done|]. rewrite <- Hp, length_app. lia.
Qed.
