(* ===== verification/ShareWire.v ===== *)
(** * The wire form of a helper share

    Models [VoteShareWire] of [wire.rs] and [wire_codec.rs] and the payload
    recovery of [share.rs]: how the share that is posted to a helper is built
    from the vote's recovery record, and which requests the helper protocol
    admits. *)

From stdpp Require Import base gmap strings list numbers pretty.
From Stdlib Require Import ZifyBool.
From S2P Require Import Prelude Ordered Identity Outcome Lifecycle Record Confirmation Rows Store Planning VoteRecovery.
From S2P Require Import SharePolicy RoundPlanning.
Local Open Scope Z_scope.
Local Open Scope voting_scope.

Definition MAX_SAFE_JSON_INTEGER : Z := 9007199254740991.
Definition MAX_HELPER_TREE_POSITION : Z := u32_max.
Definition MAX_VOTE_SHARE_JSON_BYTES : Z := 4096.

Record VoteShareWire := mk_share_wire {
  vw_vote_round_id : string;
  vw_shares_hash : text;
  vw_proposal_id : Z;
  vw_vote_decision : Z;
  vw_encrypted_share : WireEncryptedShare;
  vw_share_index : Z;
  vw_vc_tree_position : Z;
  vw_share_comms : list text;
  vw_primary_blind : text;
  vw_submit_at : Z
}.

(** The curve, the share nullifier's hash, and [serde_json] on the wire
    record. *)
Class ShareExternals := {
  (** A compressed point of the curve, and whether it is the identity. *)
  pallas_point : list Z -> option bool;
  share_nullifier_hash : list Z -> Z -> list Z -> list Z;
  vote_share_json : VoteShareWire -> string;
  vote_share_of_json : string -> result VoteShareWire text;
  vote_share_json_parses : forall w, vote_share_of_json (vote_share_json w) = Ok w;
  (** The hash is a field element in its 32-byte form. *)
  share_nullifier_length : forall vc i blind, length (share_nullifier_hash vc i blind) = 32%nat
}.

Definition json_safe_u64 (value : Z) (field : string) : result Z VotingError :=
  if MAX_SAFE_JSON_INTEGER <? value then
    Err (VInvalidInput (lit "field " ++ lit field ++ lit " is too large to encode as JSON integer"))
  else Ok value.

Definition helper_tree_position (value : Z) : result Z VotingError :=
  if MAX_HELPER_TREE_POSITION <? value then
    Err (VInvalidInput (lit "field tree_position exceeds helper protocol maximum "
      ++ decimal MAX_HELPER_TREE_POSITION))
  else Ok value.

Definition validate_32_bytes (bytes : list Z) (field : text) : result unit VotingError :=
  if bool_decide (length bytes = 32%nat) then Ok tt
  else Err (VInvalidInput (field ++ lit " must be 32 bytes, got "
         ++ decimal (Z.of_nat (length bytes)))).

Definition validate_share_index (index : Z) : result unit VotingError :=
  if 15 <? index then Err (VInvalidInput (lit "share_index must be 0..15, got " ++ decimal index))
  else Ok tt.

Fixpoint try_iter {A E} (f : A -> result unit E) (l : list A) : result unit E :=
  match l with
  | [] => Ok tt
  | a :: l => let? _ := f a in try_iter f l
  end.

Section wire.
Context `{Externals} `{RecoveryExternals} `{ShareExternals}.

Definition decode_canonical_b64_32 (value : text) (field : text) : result (list Z) VotingError :=
  let bad := VInvalidInput (field ++ lit " must be canonical padded standard Base64") in
  let? decoded := ok_or (base64_decode value) bad in
  if bool_decide (base64_encode decoded = value) then
    let? _ := validate_32_bytes decoded field in Ok decoded
  else Err bad.

Definition validate_canonical_field_b64_32 (value : text) (field : text) : result unit VotingError :=
  let? decoded := decode_canonical_b64_32 value field in
  if pallas_canonical decoded then Ok tt
  else Err (VInvalidInput (field ++ lit " is not a canonical Pallas field element")).

Definition validate_encrypted_share_point (bytes : list Z) (field : text) : result unit VotingError :=
  let? _ := validate_32_bytes bytes field in
  match pallas_point bytes with
  | None => Err (VInvalidInput (field ++ lit " is not a valid compressed Pallas point"))
  | Some true => Err (VInvalidInput (field ++ lit " must not be the identity point"))
  | Some false => Ok tt
  end.

Definition indexed (name : string) (i : nat) : text :=
  lit name ++ lit "[" ++ decimal (Z.of_nat i) ++ lit "]".

Definition validate_encrypted_shares (shares : list WireEncryptedShare) : result unit VotingError :=
  try_iter (fun '(i, share) =>
    let? _ := validate_encrypted_share_point (ws_c1 share) (indexed "enc_shares" i ++ lit ".c1") in
    let? _ := validate_encrypted_share_point (ws_c2 share) (indexed "enc_shares" i ++ lit ".c2") in
    validate_share_index (ws_share_index share)) (imap pair shares).

Definition wire_validate (w : VoteShareWire) : result unit VotingError :=
  let? _ := validate_vote_round_id_hex (vw_vote_round_id w) in
  let? _ := validate_canonical_field_b64_32 (vw_shares_hash w) (lit "shares_hash") in
  let? _ := validate_proposal_id (vw_proposal_id w) in
  let? _ := (if MAX_VOTE_OPTIONS <=? vw_vote_decision w then
    Err (VInvalidInput (lit "vote_decision must be in [0, " ++ decimal MAX_VOTE_OPTIONS
           ++ lit "), got " ++ decimal (vw_vote_decision w)))
  else Ok tt) in
  let? _ := validate_encrypted_shares [vw_encrypted_share w] in
  let? _ := validate_share_index (vw_share_index w) in
  let? _ := (if negb (vw_share_index w =? ws_share_index (vw_encrypted_share w)) then
    Err (VInvalidInput (lit "share_index must match enc_share.share_index"))
  else Ok tt) in
  let? _ := helper_tree_position (vw_vc_tree_position w) in
  let? _ := (if negb (bool_decide (length (vw_share_comms w) = VOTE_COMMITMENT_SHARE_COUNT)) then
    Err (VInvalidInput (lit "share_comms must have exactly "
           ++ decimal (Z.of_nat VOTE_COMMITMENT_SHARE_COUNT) ++ lit " entries, got "
           ++ decimal (Z.of_nat (length (vw_share_comms w)))))
  else Ok tt) in
  let? _ := try_iter (fun '(i, comm) =>
    validate_canonical_field_b64_32 comm (indexed "share_comms" i)) (imap pair (vw_share_comms w)) in
  let? _ := validate_canonical_field_b64_32 (vw_primary_blind w) (lit "primary_blind") in
  let? _ := json_safe_u64 (vw_submit_at w) "submit_at" in
  Ok tt.

Definition from_payload (payload : SharePayload) (vc_tree_position : option Z) (submit_at : Z)
    : result VoteShareWire VotingError :=
  let? _ := validate_vote_round_id_hex (sp_vote_round_id payload) in
  let? position := helper_tree_position (default (sp_tree_position payload) vc_tree_position) in
  let? submit_at := json_safe_u64 submit_at "submit_at" in
  let wire := mk_share_wire (sp_vote_round_id payload) (base64_encode (sp_shares_hash payload))
    (sp_proposal_id payload) (sp_vote_decision payload) (sp_enc_share payload)
    (ws_share_index (sp_enc_share payload)) position (map base64_encode (sp_share_comms payload))
    (base64_encode (sp_primary_blind payload)) submit_at in
  let? _ := wire_validate wire in
  Ok wire.

Definition to_json (w : VoteShareWire) : result string VotingError :=
  let? _ := wire_validate w in Ok (vote_share_json w).

Definition from_json (json : string) : result VoteShareWire VotingError :=
  if MAX_VOTE_SHARE_JSON_BYTES <? Z.of_nat (String.length json) then
    Err (VInvalidInput (lit "vote share JSON exceeds " ++ decimal MAX_VOTE_SHARE_JSON_BYTES
           ++ lit " bytes"))
  else
    let? wire := map_err (fun e => VInvalidInput (lit "invalid vote share JSON: " ++ e))
      (vote_share_of_json json) in
    let? _ := wire_validate wire in
    Ok wire.

Definition to_wire_json (payload : SharePayload) (vc_tree_position : option Z) (submit_at : Z)
    : result string VotingError :=
  let? wire := from_payload payload vc_tree_position submit_at in to_json wire.

(** ** A share from its recovery ([share.rs]) *)
Definition ensure_recovery_proposal (b : VoteRecoveryBundle) (proposal_id : Z)
    : result unit VotingError :=
  if vr_proposal_id b =? proposal_id then Ok tt
  else Err (VInvalidInput (lit "recovery proposal_id " ++ decimal (vr_proposal_id b)
         ++ lit " does not match requested " ++ decimal proposal_id)).

Definition recover_payload (b : VoteRecoveryBundle) (share_index : Z)
    : result SharePayload VotingError :=
  let? payloads := recover_payloads b in
  ok_or (snd <$> list_find (fun p => ws_share_index (sp_enc_share p) = share_index) payloads)
    (VInvalidInput (lit "share_index " ++ decimal share_index
       ++ lit " not found in vote recovery bundle")).

Definition compute_nullifier (vote_commitment : list Z) (share_index : Z) (primary_blind : list Z)
    : result (list Z) VotingError :=
  if 15 <? share_index then
    Err (VInvalidInput (lit "share_index must be 0..15, got " ++ decimal share_index))
  else if negb (pallas_canonical vote_commitment) then
    Err (VInternal (lit "invalid vote_commitment field element"))
  else if negb (pallas_canonical primary_blind) then
    Err (VInternal (lit "invalid primary_blind field element"))
  else Ok (share_nullifier_hash vote_commitment share_index primary_blind).

Definition nullifier_from_recovery_json (json : string) (proposal_id share_index : Z)
    : result (list Z) VotingError :=
  let? bundle := parse_recovery json in
  let? _ := ensure_recovery_proposal bundle proposal_id in
  let? payload := recover_payload bundle share_index in
  let? primary_blind := array32 (lit "primary_blind") (sp_primary_blind payload) in
  compute_nullifier (vr_vote_commitment bundle) share_index primary_blind.

Definition recover_wire_json (json : string) (proposal_id share_index vc_tree_position submit_at : Z)
    : result string VotingError :=
  let? bundle := parse_recovery json in
  let? _ := ensure_recovery_proposal bundle proposal_id in
  let? payload := recover_payload bundle share_index in
  to_wire_json payload (Some vc_tree_position) submit_at.
End wire.

(** ** The request says what the recovery says *)
Section wire_facts.
Context `{Externals} `{RecoveryExternals} `{ShareExternals}.

Lemma json_safe_Ok v f w : json_safe_u64 v f = Ok w -> w = v /\ v <= MAX_SAFE_JSON_INTEGER.
Proof. unfold json_safe_u64. destruct (_ <? _) eqn:E; [done|]. intros [= <-]. lia. Qed.

Lemma tree_position_Ok v w : helper_tree_position v = Ok w -> w = v /\ v <= MAX_HELPER_TREE_POSITION.
Proof. unfold helper_tree_position. destruct (_ <? _) eqn:E; [done|]. intros [= <-]. lia. Qed.

Lemma from_payload_spec payload position submit_at w :
  from_payload payload (Some position) submit_at = Ok w ->
  vw_vote_round_id w = sp_vote_round_id payload /\ vw_proposal_id w = sp_proposal_id payload
  /\ vw_vote_decision w = sp_vote_decision payload /\ vw_encrypted_share w = sp_enc_share payload
  /\ vw_share_index w = ws_share_index (sp_enc_share payload) /\ vw_vc_tree_position w = position
  /\ vw_submit_at w = submit_at /\ wire_validate w = Ok tt.
Proof.
  unfold from_payload. destruct (validate_vote_round_id_hex _); [|done]. cbn [default from_option].
  destruct (helper_tree_position _) as [p|] eqn:Ep; [|done].
  destruct (json_safe_u64 _ _) as [t|] eqn:Et; [|done]. destruct (wire_validate _) as [[]|] eqn:Ev; [|done].
  intros [= <-]. apply tree_position_Ok in Ep as [-> _]. apply json_safe_Ok in Et as [-> _]. done.
Qed.

(** What the client parses and sends again is the record that was built. *)
Lemma wire_json_roundtrip payload position submit_at json :
  to_wire_json payload (Some position) submit_at = Ok json ->
  Z.of_nat (String.length json) <= MAX_VOTE_SHARE_JSON_BYTES ->
  exists w, from_payload payload (Some position) submit_at = Ok w /\ from_json json = Ok w
    /\ to_json w = Ok json.
Proof.
  unfold to_wire_json. destruct (from_payload _ _ _) as [w|] eqn:Ew; [|done]. intros Hj Hlen.
  exists w. destruct (from_payload_spec _ _ _ _ Ew) as (_ & _ & _ & _ & _ & _ & _ & Hv).
  unfold to_json in *. rewrite Hv in *. simplify_eq. split_and!; try done.
  unfold from_json. rewrite (proj2 (Z.ltb_ge _ _)) by done. rewrite vote_share_json_parses. cbn.
  by rewrite Hv.
Qed.

Lemma recover_payload_spec b share_index payload :
  recover_payload b share_index = Ok payload ->
  ws_share_index (sp_enc_share payload) = share_index /\ sp_proposal_id payload = vr_proposal_id b
  /\ sp_vote_round_id payload = vr_vote_round_id b /\ sp_vote_decision payload = vr_vote_decision b.
Proof.
  unfold recover_payload, recover_payloads. destruct (validate_recovery_bundle_vote_fields b); [|done].
  destruct (try_map _ _) as [payloads|] eqn:Em; [|done].
  destruct (list_find _ payloads) as [[i p]|] eqn:Ef; [|done]. cbn. intros [= <-].
  apply list_find_Some in Ef as (Hp & Hi & _). split; [done|].
  revert payloads Em i Hp. generalize (imap pair (if vr_single_share b
    then take 1 (map wire_share (vr_encrypted_shares b)) else map wire_share (vr_encrypted_shares b))).
  intros l. induction l as [|x l IH]; intros payloads Em i Hp; cbn [try_map] in Em; [by simplify_eq|].
  destruct (share_payload _ _ x) as [q|] eqn:Eq; [|done].
  destruct (try_map _ l) as [qs|] eqn:El; [|done]. simplify_eq.
  destruct i as [|i]; cbn in Hp; [|by eapply IH]. simplify_eq. unfold share_payload in Eq.
  destruct (vr_share_blinds b !! x.1); [|done]. cbn in Eq. by simplify_eq.
Qed.

(** The recovered request is the requested share of the requested proposal,
    at the position and the time it was asked for. *)
Lemma recovered_request json proposal share position submit_at body :
  recover_wire_json json proposal share position submit_at = Ok body ->
  exists w, body = vote_share_json w /\ vw_proposal_id w = proposal /\ vw_share_index w = share
    /\ vw_vc_tree_position w = position /\ vw_submit_at w = submit_at /\ wire_validate w = Ok tt.
Proof.
  unfold recover_wire_json. destruct (parse_recovery json) as [b|]; [|done].
  unfold ensure_recovery_proposal. destruct (_ =? _) eqn:Ep; [|done]. apply Z.eqb_eq in Ep.
  destruct (recover_payload b share) as [p|] eqn:Er; [|done].
  destruct (recover_payload_spec _ _ _ Er) as (Hs & Hp & _).
  unfold to_wire_json. destruct (from_payload _ _ _) as [w|] eqn:Ew; [|done].
  destruct (from_payload_spec _ _ _ _ Ew) as (_ & E1 & _ & _ & E2 & E3 & E4 & Hv).
  unfold to_json. rewrite Hv. intros [= <-]. exists w. split_and!; congruence.
Qed.
End wire_facts.
