(* ===== verification/SharePolling.v ===== *)
(** * Asking helpers whether a share is confirmed

    Models [share_tracking/confirmation.rs] and
    [share_tracking/configured_fleet.rs]: the fleet a wallet trusts, and the
    search for a quorum of its members that report a share confirmed on
    chain. A turn of the search is what the runtime delivers between two
    looks at the requests: which of them completed, whether the caller
    cancelled, and the clock. *)

From stdpp Require Import base gmap strings list numbers pretty.
From Stdlib Require Import ZifyBool.
From S2P Require Import Prelude Identity Outcome Lifecycle Record VoteRecovery SharePolicy Helpers HelperClient.
Local Open Scope Z_scope.
Local Open Scope voting_scope.

(** ** The configured fleet *)
Section fleet.
Context `{HelperIdentity}.

Definition configured_fleet (configured_urls : list string) : result (list string) VotingError :=
  if bool_decide (configured_urls = []) then
    Err (VInvalidInput (lit "configured_server_urls must not be empty"))
  else
    let? urls := canonical_helper_url_list configured_urls in
    if bool_decide (length urls = length configured_urls) then Ok urls
    else Err (VInvalidInput
           (lit "configured_server_urls must contain distinct canonical helpers")).
End fleet.

(** ** The search *)
Definition SHARE_STATUS_MAX_CONCURRENT_POLLS : nat := 4.
Definition SHARE_STATUS_POLL_BUDGET_MILLISECONDS : Z := 10000.
Definition REQUIRED_CONFIRMATIONS : nat := 2.

Inductive ShareStatusOutcome :=
| ConfiguredHelperQuorumObserved
| ConfiguredHelperQuorumNotObserved
| PollCancelled.

(** A joined task: the answer it got, or none when it was aborted or failed. *)
Notation PollAnswer := (option (result ShareStatus HelperError)).

(** [pt_completed] are tasks that had already completed, by their place among
    the outstanding ones, [pt_joined] the one that completes during the wait,
    and [pt_drained] what each outstanding task answers when the budget is
    spent and the tasks are aborted. *)
Record PollTurn := mk_poll_turn {
  pt_completed : list (nat * PollAnswer);
  pt_cancelled : bool;
  pt_now : Z;
  pt_joined : option (nat * PollAnswer);
  pt_drained : list PollAnswer
}.

Record PollState := mk_poll_state {
  ps_remaining : list string;
  ps_outstanding : list string;
  ps_in_flight : list string;
  ps_confirmations : nat;
  ps_answers : list (string * result ShareStatus HelperError)
}.

Definition is_confirmed_answer (r : result ShareStatus HelperError) : bool :=
  match r with Ok SsConfirmed => true | _ => false end.

(** The task of [url] has been joined. *)
Definition record_completed_poll (required : nat) (url : string) (answer : PollAnswer) (s : PollState)
    : bool * PollState :=
  match answer with
  | None => (false, s)
  | Some outcome =>
      let confirmations :=
        if is_confirmed_answer outcome then S (ps_confirmations s) else ps_confirmations s in
      (bool_decide (confirmations = required),
       mk_poll_state (ps_remaining s) (ps_outstanding s)
         (filter (fun u => u <> url) (ps_in_flight s)) confirmations
         (ps_answers s ++ [(url, outcome)]))
  end.

Definition without_task (i : nat) (s : PollState) : PollState :=
  mk_poll_state (ps_remaining s) (delete i (ps_outstanding s)) (ps_in_flight s) (ps_confirmations s)
    (ps_answers s).

Definition join_task (required : nat) (event : nat * PollAnswer) (s : PollState) : bool * PollState :=
  match ps_outstanding s !! event.1 with
  | None => (false, s)
  | Some url => record_completed_poll required url event.2 (without_task event.1 s)
  end.

(** [while let Some(joined) = polls.try_join_next()]. *)
Fixpoint join_ready (required : nat) (events : list (nat * PollAnswer)) (s : PollState)
    : bool * PollState :=
  match events with
  | [] => (false, s)
  | event :: events =>
      match join_task required event s with
      | (true, s) => (true, s)
      | (false, s) => join_ready required events s
      end
  end.

(** Aborts and drains the outstanding tasks; some had completed. *)
Fixpoint drain_tasks (required : nat) (urls : list string) (answers : list PollAnswer) (s : PollState)
    : bool * PollState :=
  match urls with
  | [] => (false, s)
  | url :: urls =>
      let '(observed, s) := record_completed_poll required url (default None (head answers)) s in
      let '(later, s) := drain_tasks required urls (tail answers) s in
      (observed || later, s)
  end.

Definition finish_expired_polls (required : nat) (answers : list PollAnswer) (s : PollState)
    : bool * PollState :=
  drain_tasks required (ps_outstanding s) answers
    (mk_poll_state (ps_remaining s) [] (ps_in_flight s) (ps_confirmations s) (ps_answers s)).

(** [while polls.len() < SHARE_STATUS_MAX_CONCURRENT_POLLS]. *)
Definition spawn_tasks (s : PollState) : PollState :=
  let room := (SHARE_STATUS_MAX_CONCURRENT_POLLS - length (ps_outstanding s))%nat in
  mk_poll_state (drop room (ps_remaining s)) (ps_outstanding s ++ take room (ps_remaining s))
    (foldl push_new (ps_in_flight s) (take room (ps_remaining s))) (ps_confirmations s)
    (ps_answers s).

(** The outcome, the final state, and the helpers that are scored as failing
    because their requests outlasted the budget. [None] is a search that has
    not returned. *)
Fixpoint poll_loop (required : nat) (deadline : Z) (turns : list PollTurn) (s : PollState)
    : option (ShareStatusOutcome * PollState * list string) :=
  match turns with
  | [] => None
  | turn :: turns =>
      match join_ready required (pt_completed turn) s with
      | (true, s) => Some (ConfiguredHelperQuorumObserved, s, [])
      | (false, s) =>
          if bool_decide (ps_outstanding s = []) && bool_decide (ps_remaining s = []) then
            Some (ConfiguredHelperQuorumNotObserved, s, [])
          else if pt_cancelled turn then Some (PollCancelled, s, [])
          else if deadline <=? pt_now turn then
            match finish_expired_polls required (pt_drained turn) s with
            | (true, s) => Some (ConfiguredHelperQuorumObserved, s, [])
            | (false, s) => Some (ConfiguredHelperQuorumNotObserved, s, ps_in_flight s)
            end
          else
            let s := spawn_tasks s in
            if bool_decide (ps_outstanding s = []) then
              Some (ConfiguredHelperQuorumNotObserved, s, [])
            else
              match pt_joined turn with
              | None => poll_loop required deadline turns s
              | Some event =>
                  match join_task required event s with
                  | (true, s) => Some (ConfiguredHelperQuorumObserved, s, [])
                  | (false, s) => poll_loop required deadline turns s
                  end
              end
      end
  end.

Section poll.
Context `{HelperIdentity}.

Definition poll_share_helpers_with_budget (health : HelperHealth) (server_urls : list string)
    (now_seconds started budget_milliseconds : Z) (turns : list PollTurn)
    : option (ShareStatusOutcome * PollState * list string) :=
  let required := Nat.min REQUIRED_CONFIRMATIONS (length server_urls) in
  let start := mk_poll_state (candidate_servers health server_urls now_seconds).1 [] [] 0 [] in
  if bool_decide (required = 0%nat) then Some (ConfiguredHelperQuorumNotObserved, start, [])
  else poll_loop required (started + budget_milliseconds) turns start.

Definition poll_share_helpers (health : HelperHealth) (server_urls : list string)
    (now_seconds started : Z) (turns : list PollTurn)
    : option (ShareStatusOutcome * PollState * list string) :=
  poll_share_helpers_with_budget health server_urls now_seconds started
    SHARE_STATUS_POLL_BUDGET_MILLISECONDS turns.
End poll.

(** ** The quorum is real *)
Definition confirmed_answers (s : PollState) : list (string * result ShareStatus HelperError) :=
  filter (fun a => is_confirmed_answer a.2 = true) (ps_answers s).

(** Every helper is in one place: still to be asked, being asked, or
    answered; at most four are being asked. *)
Record polling (all : list string) (s : PollState) : Prop := {
  po_places : ps_remaining s ++ ps_outstanding s ++ map fst (ps_answers s) ⊆+ all;
  po_room : (length (ps_outstanding s) <= SHARE_STATUS_MAX_CONCURRENT_POLLS)%nat;
  po_count : ps_confirmations s = length (confirmed_answers s)
}.

(** What a joined task's answer adds; [rest] are the tasks not yet joined. *)
Lemma record_completed_spec all required url rest answer s b s' :
  ps_remaining s ++ (url :: rest) ++ map fst (ps_answers s) ⊆+ all ->
  ps_confirmations s = length (confirmed_answers s) ->
  record_completed_poll required url answer s = (b, s') ->
  ps_outstanding s' = ps_outstanding s
  /\ ps_remaining s' ++ rest ++ map fst (ps_answers s') ⊆+ all
  /\ ps_confirmations s' = length (confirmed_answers s')
  /\ (length (confirmed_answers s) <= length (confirmed_answers s'))%nat
  /\ (b = true -> length (confirmed_answers s') = required).
Proof.
  intros Hp Hc. unfold record_completed_poll. destruct answer as [o|].
  - intros [= <- <-]. unfold confirmed_answers in *. cbn [ps_outstanding ps_remaining ps_answers ps_confirmations].
    assert (length (filter (fun a => is_confirmed_answer a.2 = true) (ps_answers s ++ [(url, o)]))
            = if is_confirmed_answer o then S (ps_confirmations s) else ps_confirmations s) as Hlen.
    { rewrite filter_app, length_app, filter_cons, Hc. cbn [snd].
      destruct (is_confirmed_answer o); [rewrite decide_True by done|rewrite decide_False by done]; cbn; lia. }
    rewrite Hlen. split_and!; try done.
    + etrans; [|exact Hp]. apply Permutation_submseteq. f_equiv. rewrite map_app. cbn [map fst].
      rewrite (Permutation_app_comm (map fst (ps_answers s)) [url]). cbn. by rewrite <- Permutation_middle.
    + rewrite <- Hc. destruct (is_confirmed_answer o); lia.
    + by intros Hb%bool_decide_eq_true.
  - intros [= <- <-]. split_and!; try done.
    etrans; [|exact Hp]. apply submseteq_skips_l. cbn. by apply submseteq_cons.
Qed.

Lemma join_task_spec all required event s b s' :
  polling all s -> join_task required event s = (b, s') ->
  polling all s' /\ (b = true -> length (confirmed_answers s') = required).
Proof.
  intros [Hp Hr Hc]. unfold join_task. destruct (ps_outstanding s !! event.1) as [url|] eqn:Ho.
  - intros Hrec. apply delete_Permutation in Ho as Hperm.
    destruct (record_completed_spec all required url (delete event.1 (ps_outstanding s)) event.2
                (without_task event.1 s) b s') as (Eo & Hp' & Hc' & _ & Hb); try done; cbn.
    + etrans; [|exact Hp]. apply Permutation_submseteq, Permutation_app_head.
      rewrite app_comm_cons. apply Permutation_app_tail. by symmetry.
    + split; [|done]. split; [by rewrite Eo|rewrite Eo; cbn|done].
      rewrite length_delete by (by eexists). lia.
  - intros [= <- <-]. split; [by split|done].
Qed.

Lemma join_ready_spec all required events s b s' :
  polling all s -> join_ready required events s = (b, s') ->
  polling all s' /\ (b = true -> length (confirmed_answers s') = required).
Proof.
  revert s. induction events as [|event events IH]; intros s Hs; cbn [join_ready].
  { intros [= <- <-]. done. }
  destruct (join_task required event s) as [[] s1] eqn:Et.
  - intros [= <- <-]. by eapply join_task_spec.
  - apply IH. by eapply join_task_spec.
Qed.

Lemma drain_spec all required urls answers s b s' :
  ps_remaining s ++ (urls ++ ps_outstanding s) ++ map fst (ps_answers s) ⊆+ all ->
  ps_outstanding s = [] -> ps_confirmations s = length (confirmed_answers s) ->
  drain_tasks required urls answers s = (b, s') ->
  polling all s' /\ (length (confirmed_answers s) <= length (confirmed_answers s'))%nat
  /\ (b = true -> (required <= length (confirmed_answers s'))%nat).
Proof.
  revert answers s b. induction urls as [|url urls IH]; intros answers s b Hp Ho Hc; cbn [drain_tasks].
  { intros [= <- <-]. split; [split; [done|rewrite Ho; cbn; lia|done]|done]. }
  destruct (record_completed_poll required url (default None (head answers)) s) as [b1 s1] eqn:E1.
  destruct (drain_tasks required urls (tail answers) s1) as [b2 s2] eqn:E2. intros [= <- <-].
  rewrite Ho, app_nil_r in Hp.
  destruct (record_completed_spec all required url urls _ _ _ _ Hp Hc E1) as (H2 & H1 & H3 & H4 & H5).
  rewrite <- H2 in Ho. rewrite <- (app_nil_r urls), <- Ho in H1.
  destruct (IH _ _ _ H1 Ho H3 E2) as (Hs2 & Hle & Hb2). split_and!; [done|lia|].
  intros [Hb|Hb]%orb_true_iff; [rewrite <- (H5 Hb)|by apply Hb2]. lia.
Qed.

Lemma spawn_spec all s : polling all s -> polling all (spawn_tasks s).
Proof.
  intros [Hp Hr Hc]. unfold spawn_tasks.
  set (room := (SHARE_STATUS_MAX_CONCURRENT_POLLS - length (ps_outstanding s))%nat).
  split; cbn [ps_remaining ps_outstanding ps_answers ps_confirmations]; [|rewrite length_app, length_take; lia|done].
  etrans; [|exact Hp]. apply Permutation_submseteq. rewrite <- (take_drop room (ps_remaining s)) at 3.
  rewrite (Permutation_app_comm (take room _) (drop room _)), <- !app_assoc. apply Permutation_app_head.
  rewrite !app_assoc. apply Permutation_app_tail, Permutation_app_comm.
Qed.

Lemma poll_loop_spec all required deadline turns s outcome s' degraded :
  polling all s -> poll_loop required deadline turns s = Some (outcome, s', degraded) ->
  polling all s'
  /\ (outcome = ConfiguredHelperQuorumObserved -> (required <= length (confirmed_answers s'))%nat).
Proof.
  revert s. induction turns as [|turn turns IH]; intros s Hs; cbn [poll_loop]; [done|].
  destruct (join_ready required (pt_completed turn) s) as [b s1] eqn:E1.
  destruct (join_ready_spec _ _ _ _ _ _ Hs E1) as [Hs1 Hb1]. destruct b.
  { intros [= <- <- <-]. split; [done|]. intros _. by rewrite Hb1. }
  destruct (_ && _); [by intros [= <- <- <-]|]. destruct (pt_cancelled turn); [by intros [= <- <- <-]|].
  destruct (deadline <=? pt_now turn).
  - destruct (finish_expired_polls required (pt_drained turn) s1) as [b s2] eqn:E2.
    unfold finish_expired_polls in E2. destruct Hs1 as [Hp Hr Hc].
    apply (drain_spec all) in E2 as (Hs2 & _ & Hb2); cbn; [|by rewrite app_nil_r|done|done].
    destruct b; intros [= <- <- <-]; split; try done. intros _. by apply Hb2.
  - apply spawn_spec in Hs1. case_bool_decide; [by intros [= <- <- <-]|].
    destruct (pt_joined turn) as [event|]; [|by apply IH].
    destruct (join_task required event (spawn_tasks s1)) as [b s2] eqn:E2.
    destruct (join_task_spec _ _ _ _ _ _ Hs1 E2) as [Hs2 Hb2]. destruct b; [|by apply IH].
    intros [= <- <- <-]. split; [done|]. intros _. by rewrite Hb2.
Qed.

Lemma contained_NoDup {A} (l k : list A) : l ⊆+ k -> NoDup k -> NoDup l.
Proof. intros [r ->]%submseteq_Permutation [? _]%NoDup_app. done. Qed.

(** Distinct helpers that reported the share confirmed. *)
Lemma distinct_confirmations all s :
  NoDup all -> polling all s ->
  NoDup (map fst (confirmed_answers s))
  /\ forall u, u ∈ map fst (confirmed_answers s) -> u ∈ all /\ (u, Ok SsConfirmed) ∈ ps_answers s.
Proof.
  intros Hn [Hp _ _].
  assert (map fst (ps_answers s) ⊆+ all) as Hsub.
  { etrans; [|exact Hp]. rewrite app_assoc. apply submseteq_inserts_l. done. }
  assert (NoDup (map fst (ps_answers s))) as Hna by (by eapply contained_NoDup).
  split.
  - clear -Hna. unfold confirmed_answers. induction (ps_answers s) as [|a l IH]; [constructor|].
    cbn in Hna. apply NoDup_cons in Hna as [Hx Hl]. rewrite filter_cons. case_decide; [|by apply IH].
    cbn. apply NoDup_cons. split; [|by apply IH]. intros Hin. apply Hx.
    apply list_elem_of_fmap in Hin as (y & -> & Hy). apply list_elem_of_filter in Hy as [_ Hy].
    apply list_elem_of_fmap. eauto.
  - intros u Hu. apply list_elem_of_fmap in Hu as ([u' o] & -> & Hy).
    apply list_elem_of_filter in Hy as [Hc Hy]. split.
    + eapply elem_of_submseteq; [|exact Hsub]. apply list_elem_of_fmap. by exists (u', o).
    + cbn in *. by destruct o as [[]|].
Qed.

(** The search returns at the first turn that finds the budget spent. *)
Lemma poll_loop_returns required deadline turns s turn :
  turn ∈ turns -> deadline <= pt_now turn ->
  exists result, poll_loop required deadline turns s = Some result.
Proof.
  intros Hin Hnow. revert s. induction turns as [|t turns IH]; intros s; [by apply elem_of_nil in Hin|].
  cbn [poll_loop]. destruct (join_ready required (pt_completed t) s) as [[] s1]; [by eauto|].
  destruct (_ && _); [by eauto|]. destruct (pt_cancelled t); [by eauto|].
  destruct (deadline <=? pt_now t) eqn:Ed.
  - destruct (finish_expired_polls _ _ _) as [[] ?]; by eauto.
  - apply elem_of_cons in Hin as [->|Hin]; [lia|]. specialize (IH Hin).
    case_bool_decide; [by eauto|]. destruct (pt_joined t) as [event|]; [|apply IH].
    destruct (join_task _ _ _) as [[] ?]; [by eauto|apply IH].
Qed.

(** What a search that observed the quorum saw. *)
Record quorum (fleet : list string) (answers : list (string * result ShareStatus HelperError))
    (voters : list string) : Prop := {
  qu_distinct : NoDup voters;
  qu_enough : length voters = Nat.min REQUIRED_CONFIRMATIONS (length fleet);
  qu_some : voters <> [];
  qu_confirmed : forall u, u ∈ voters -> u ∈ fleet /\ (u, Ok SsConfirmed) ∈ answers
}.

Section quorum_facts.
Context `{HelperIdentity}.

Lemma poll_quorum health urls now started budget turns s degraded :
  NoDup urls ->
  poll_share_helpers_with_budget health urls now started budget turns
  = Some (ConfiguredHelperQuorumObserved, s, degraded) ->
  exists voters, quorum urls (ps_answers s) voters.
Proof.
  intros Hn. unfold poll_share_helpers_with_budget. case_bool_decide as Hz; [done|]. intros Hl.
  pose proof (health_order_perm health urls now) as Hperm. unfold health_order in Hperm.
  revert Hl Hperm. generalize (candidate_servers health urls now).1. intros order Hl Hperm.
  assert (NoDup order) as Hno by (by rewrite Hperm).
  assert (polling order (mk_poll_state order [] [] 0 [])) as Hstart
    by (split; cbn; [by rewrite !app_nil_r|lia|done]).
  destruct (poll_loop_spec _ _ _ _ _ _ _ _ Hstart Hl) as [Hs Hq].
  destruct (distinct_confirmations order s Hno Hs) as [Hd Hin]. specialize (Hq eq_refl).
  exists (take (Nat.min REQUIRED_CONFIRMATIONS (length urls)) (map fst (confirmed_answers s))). split.
  - eapply contained_NoDup; [|exact Hd]. apply sublist_submseteq, sublist_take.
  - rewrite length_take, length_map. lia.
  - intros E. apply (f_equal length) in E. rewrite length_take, length_map in E. cbn [length] in E. lia.
  - intros u Hu. apply elem_of_take in Hu as (i & Hi & _). apply list_elem_of_lookup_2 in Hi.
    destruct (Hin u Hi) as [Ho ?]. split; [|done]. by rewrite <- Hperm.
Qed.

(** C27 (confirmation quorum): The search for confirmations reports success only
    if as many distinct configured helpers as the quorum asks for, two, or the
    only one of a fleet of one, have each answered that the share is
    confirmed, whatever order the answers arrive in and whenever the search is
    cut off; and it returns by the first time it finds its budget spent. *)
Theorem quorum_is_real health urls now started budget turns :
  NoDup urls ->
  (forall s degraded,
     poll_share_helpers_with_budget health urls now started budget turns
     = Some (ConfiguredHelperQuorumObserved, s, degraded) ->
     exists voters, quorum urls (ps_answers s) voters)
  /\ (forall turn, turn ∈ turns -> started + budget <= pt_now turn ->
        exists result, poll_share_helpers_with_budget health urls now started budget turns = Some result).
Proof.
  intros Hn. split; [intros s degraded; by apply poll_quorum|].
  intros turn Hin Hnow. unfold poll_share_helpers_with_budget. case_bool_decide; [by eauto|].
  by eapply poll_loop_returns.
Qed.
End quorum_facts.

(** Three helpers, two of which confirm on the first turn. *)
Definition sample_turn : PollTurn :=
  mk_poll_turn [] false 0 (Some (0%nat, Some (Ok SsConfirmed))) [].
Definition sample_turns : list PollTurn :=
  [sample_turn; mk_poll_turn [(1%nat, Some (Ok SsConfirmed))] false 60 None [];
   mk_poll_turn [] false 10000 None []].

Lemma quorum_is_real_witness :
  exists s degraded voters,
    @poll_share_helpers_with_budget (fun s => Ok s) default_health ["a"; "b"; "c"]%string 0 0
      SHARE_STATUS_POLL_BUDGET_MILLISECONDS sample_turns
    = Some (ConfiguredHelperQuorumObserved, s, degraded)
    /\ quorum ["a"; "b"; "c"]%string (ps_answers s) voters.
Proof.
  assert (exists s degraded,
    @poll_share_helpers_with_budget (fun s => Ok s) default_health ["a"; "b"; "c"]%string 0 0
      SHARE_STATUS_POLL_BUDGET_MILLISECONDS sample_turns
    = Some (ConfiguredHelperQuorumObserved, s, degraded)) as (s & degraded & E)
    by (vm_compute; eexists _, _; reflexivity).
  exists s, degraded.
  destruct (proj1 (@quorum_is_real (fun s => Ok s) default_health ["a"; "b"; "c"]%string 0 0
    SHARE_STATUS_POLL_BUDGET_MILLISECONDS sample_turns ltac:(apply NoDup_ListNoDup; repeat constructor; set_solver))
    s degraded E) as [voters Hq].
  exists voters. split; [exact E|exact Hq].
Defined.
