(* ===== verification/ShareTracking.v ===== *)
(** * Tracking pending shares

    Models [share_tracking/mod.rs], [share_tracking/recovery.rs] and
    [helper_recovery_material_for_wallet] of [recovery.rs]: one pass over the
    unconfirmed shares of a round, which asks the configured helpers whether a
    share is confirmed and, when it is late or held by too few of them, hands
    it to further helpers.

    A pass runs beside other tasks and processes. Every look at the outside
    and every storage call is a step of a clock, and the environment says what
    happens at that step: what the caller's [cancel] answers, what the helper
    answers, how a storage call fails, and what others have changed in the
    database since the step before. The health scores belong to the whole
    process and change at any time, so each look at them sees any scores. *)

From stdpp Require Import base gmap strings list numbers pretty.
From Stdlib Require Import ZifyBool.
From S2P Require Import Prelude Ordered Identity Outcome Lifecycle Record Confirmation Rows Store VoteRecovery.
From S2P Require Import Generation Projection SharePolicy Helpers ShareLedger HelperClient ShareWire SharePolling.
Local Open Scope Z_scope.
Local Open Scope voting_scope.

(** ** Steps of a pass *)
Record TrackingEnv := mk_tracking_env {
  te_cancel : nat -> bool;
  te_elapsed : nat -> Z;
  te_random_byte : nat -> nat -> Z;
  te_health : nat -> HelperHealth;
  (** The share's lock: taken, given up because the caller cancelled, or lost
      with a poisoned registry. *)
  te_lock : nat -> result bool VotingError;
  te_fault : nat -> option VotingError;
  te_others : nat -> ShareDb -> ShareDb;
  te_poll_started : nat -> Z;
  te_poll_turns : nat -> list PollTurn;
  te_attempt_token : nat -> option string;
  te_deadline_fits : nat -> bool;
  te_transport : nat -> string -> string -> result HelperResponse HelperTransportError
}.

Record ShareKey := mk_share_key {
  sk_bundle_index : Z;
  sk_proposal_id : Z;
  sk_share_index : Z
}.

Definition share_key_of (share : ShareDelegationRecord) : ShareKey :=
  mk_share_key (sr_bundle_index share) (sr_proposal_id share) (sr_share_index share).

Record ResubmittedShare := mk_resubmitted {
  rb_share : ShareKey;
  rb_server_url : string
}.

Record ShareTrackingReport := mk_tracking_report {
  tr_unconfirmed_at_entry : option Z;
  tr_confirmed : list ShareKey;
  tr_resubmitted : list ResubmittedShare;
  tr_ambiguous : list ResubmittedShare;
  tr_unrecoverable : list ShareKey;
  tr_cancelled : bool;
  tr_next_delay_seconds : option Z
}.

Definition default_tracking_report : ShareTrackingReport :=
  mk_tracking_report None [] [] [] [] false None.

(** A request handed to the client: the share as it was read, what came back,
    none when a deadline cut the request off, with the answers of the attempts
    that were made, and the database when the request leaves. *)
Record Post := mk_post {
  po_share : ShareId;
  po_record : ShareDelegationRecord;
  po_url : string;
  po_json : string;
  po_time : Z;
  po_answer : option (result ShareSubmissionStatus HelperError);
  po_attempts : list (result ShareSubmissionStatus HelperError);
  po_db : ShareDb
}.

(** A search for confirmations that has returned. *)
Record Poll := mk_poll {
  pl_share : ShareId;
  pl_nullifier : list Z;
  pl_outcome : ShareStatusOutcome;
  pl_answers : list (string * result ShareStatus HelperError)
}.

(** The report is written as the pass goes, and stays when it fails. *)
Record TrackingWorld := mk_world {
  tw_step : nat;
  tw_db : ShareDb;
  tw_posts : list Post;
  tw_polls : list Poll;
  tw_report : ShareTrackingReport
}.

Inductive Ran (A : Type) :=
| Done (a : A)
| Raised (e : VotingError)
| Starved.
Arguments Done {A}.
Arguments Raised {A}.
Arguments Starved {A}.

Definition Tr (A : Type) : Type := TrackingWorld -> Ran A * TrackingWorld.

Definition tr_ret {A} (a : A) : Tr A := fun w => (Done a, w).
Definition tr_raise {A} (e : VotingError) : Tr A := fun w => (Raised e, w).
Definition tr_starve {A} : Tr A := fun w => (Starved, w).
Definition tr_bind {A B} (m : Tr A) (k : A -> Tr B) : Tr B :=
  fun w => match m w with
           | (Done a, w) => k a w
           | (Raised e, w) => (Raised e, w)
           | (Starved, w) => (Starved, w)
           end.
Definition tr_lift {A} (r : result A VotingError) : Tr A :=
  match r with Ok a => tr_ret a | Err e => tr_raise e end.

Notation "'go!' x ':=' m 'in' k" := (tr_bind m (fun x => k))
  (at level 200, x name, m at level 100, k at level 200, right associativity) : voting_scope.

Definition with_step (n : nat) (w : TrackingWorld) : TrackingWorld :=
  mk_world n (tw_db w) (tw_posts w) (tw_polls w) (tw_report w).
Definition with_db (db : ShareDb) (w : TrackingWorld) : TrackingWorld :=
  mk_world (tw_step w) db (tw_posts w) (tw_polls w) (tw_report w).
Definition with_post (p : Post) (w : TrackingWorld) : TrackingWorld :=
  mk_world (tw_step w) (tw_db w) (tw_posts w ++ [p]) (tw_polls w) (tw_report w).
Definition with_poll (p : Poll) (w : TrackingWorld) : TrackingWorld :=
  mk_world (tw_step w) (tw_db w) (tw_posts w) (tw_polls w ++ [p]) (tw_report w).
Definition with_report (r : ShareTrackingReport) (w : TrackingWorld) : TrackingWorld :=
  mk_world (tw_step w) (tw_db w) (tw_posts w) (tw_polls w) r.

Definition add_confirmed (k : ShareKey) (r : ShareTrackingReport) : ShareTrackingReport :=
  mk_tracking_report (tr_unconfirmed_at_entry r) (tr_confirmed r ++ [k]) (tr_resubmitted r)
    (tr_ambiguous r) (tr_unrecoverable r) (tr_cancelled r) (tr_next_delay_seconds r).
Definition add_resubmitted (s : ResubmittedShare) (r : ShareTrackingReport) : ShareTrackingReport :=
  mk_tracking_report (tr_unconfirmed_at_entry r) (tr_confirmed r) (tr_resubmitted r ++ [s])
    (tr_ambiguous r) (tr_unrecoverable r) (tr_cancelled r) (tr_next_delay_seconds r).
Definition add_ambiguous (s : ResubmittedShare) (r : ShareTrackingReport) : ShareTrackingReport :=
  mk_tracking_report (tr_unconfirmed_at_entry r) (tr_confirmed r) (tr_resubmitted r)
    (tr_ambiguous r ++ [s]) (tr_unrecoverable r) (tr_cancelled r) (tr_next_delay_seconds r).
Definition add_unrecoverable (k : ShareKey) (r : ShareTrackingReport) : ShareTrackingReport :=
  mk_tracking_report (tr_unconfirmed_at_entry r) (tr_confirmed r) (tr_resubmitted r)
    (tr_ambiguous r) (tr_unrecoverable r ++ [k]) (tr_cancelled r) (tr_next_delay_seconds r).
Definition set_cancelled (r : ShareTrackingReport) : ShareTrackingReport :=
  mk_tracking_report (tr_unconfirmed_at_entry r) (tr_confirmed r) (tr_resubmitted r)
    (tr_ambiguous r) (tr_unrecoverable r) true (tr_next_delay_seconds r).
Definition set_at_entry (n : Z) (r : ShareTrackingReport) : ShareTrackingReport :=
  mk_tracking_report (Some n) (tr_confirmed r) (tr_resubmitted r)
    (tr_ambiguous r) (tr_unrecoverable r) (tr_cancelled r) (tr_next_delay_seconds r).
Definition set_next_delay (d : option Z) (r : ShareTrackingReport) : ShareTrackingReport :=
  mk_tracking_report (tr_unconfirmed_at_entry r) (tr_confirmed r) (tr_resubmitted r)
    (tr_ambiguous r) (tr_unrecoverable r) (tr_cancelled r) d.

Definition on_report (f : ShareTrackingReport -> ShareTrackingReport) : Tr unit :=
  fun w => (Done tt, with_report (f (tw_report w)) w).

(** A look at the outside takes one step. *)
Definition look {A} (f : nat -> A) : Tr A :=
  fun w => (Done (f (tw_step w)), with_step (S (tw_step w)) w).

(** A storage call: others have been there first; it can fail and then
    changes nothing. *)
Definition storage {A} (env : TrackingEnv)
    (op : ShareDb -> option (result A VotingError * ShareDb)) : Tr (result A VotingError) :=
  fun w =>
    let n := tw_step w in
    let db := te_others env n (tw_db w) in
    match te_fault env n with
    | Some e => (Done (Err e), with_step (S n) (with_db db w))
    | None =>
        match op db with
        | None => (Starved, with_step (S n) (with_db db w))
        | Some (r, db') => (Done r, with_step (S n) (with_db db' w))
        end
    end.

Definition query {A} (env : TrackingEnv) (f : ShareDb -> result A VotingError)
    : Tr (result A VotingError) :=
  storage env (fun db => Some (f db, db)).

(** [?] in a function whose errors are [VotingError]. *)
Definition try_storage {A} (m : Tr (result A VotingError)) : Tr A :=
  go! r := m in tr_lift r.

(** ** Inputs *)
Record ShareTrackingParams := mk_tracking_params {
  tp_round_id : string;
  tp_configured_server_urls : list string;
  tp_now_seconds : Z;
  tp_vote_end_time_seconds : option Z;
  tp_policy : ShareTimingPolicy
}.

Record ShareTrackingFlags := mk_flags {
  fl_ready_for_status_check : bool;
  fl_overdue_for_retry : bool
}.

Definition is_idle (f : ShareTrackingFlags) : bool :=
  negb (fl_ready_for_status_check f) && negb (fl_overdue_for_retry f).

Definition share_tracking_flags (share : ShareDelegationRecord) (now_seconds : Z)
    (vote_end_time_seconds : option Z) (policy : ShareTimingPolicy) : ShareTrackingFlags :=
  mk_flags (is_share_ready_for_status_check share now_seconds policy)
    (match vote_end_time_seconds with
     | Some vote_end => should_resubmit_share share now_seconds vote_end policy
     | None => false
     end).

Definition current_time (env : TrackingEnv) (params : ShareTrackingParams) : Tr Z :=
  look (fun n => saturating_add_u64 (tp_now_seconds params) (te_elapsed env n)).

Definition cancel (env : TrackingEnv) : Tr bool := look (te_cancel env).

Definition os_random_bytes (env : TrackingEnv) (len : Z) : Tr (list Z) :=
  look (fun n => map (te_random_byte env n) (seq 0 (Z.to_nat len))).

Definition share_id_of (round_id wallet : string) (share : ShareDelegationRecord) : ShareId :=
  ((round_id, wallet, sr_bundle_index share, sr_proposal_id share), sr_share_index share).

Definition dedupe_preserving_order (urls : list string) : list string := foldl push_new [] urls.

(** ** One more helper ([recovery.rs]) *)
Record RecoverableCommitmentBundle := mk_recoverable {
  rc_bundle_index : Z;
  rc_proposal_id : Z;
  rc_commitment_bundle_json : string;
  rc_vc_tree_position : Z
}.

Inductive HelperRecoveryMaterial :=
| MaterialReady (bundle : RecoverableCommitmentBundle)
| MaterialAwaitingVcPosition
| MaterialMissing.

Definition helper_recovery_material_for_wallet (wallet_id round_id : string)
    (bundle_index proposal_id : Z) (db : ShareDb) : result HelperRecoveryMaterial VotingError :=
  match tb_votes (sd_tables db) !! (round_id, wallet_id, bundle_index, proposal_id) with
  | Some vote =>
      match vt_commitment_bundle_json vote, vt_vc_tree_position vote with
      | Some json, Some position =>
          if position <? 0 then
            Err (VInternal (lit "stored vc_tree_position must be non-negative, got "
                   ++ decimal position))
          else Ok (MaterialReady (mk_recoverable bundle_index proposal_id json position))
      | Some _, None => Ok MaterialAwaitingVcPosition
      | None, _ => Ok MaterialMissing
      end
  | None => Ok MaterialMissing
  end.

Inductive ResubmitOutcome :=
| DefinitelyAcceptedByHelper (server_url : string)
| NoDefiniteAcceptanceObserved
| Unrecoverable
| AwaitingVcPosition
| ResubmitStaleGeneration
| CutoffReached
| ResubmitCancelled.

Record ResubmitReport := mk_resubmit_report {
  rp_outcome : ResubmitOutcome;
  rp_outcome_unknown_urls : list string
}.

Record FailedResubmission := mk_failed_resubmission {
  fr_error : VotingError;
  fr_outcome_unknown_urls : list string
}.

Inductive ResubmissionCandidates := FullRecoveryOrder | InterruptedOnly.
Inductive ResubmissionSchedule :=
| PreserveScheduledSubmitAt (scheduled_submit_at : Z)
| Immediate.

Definition schedule_submit_at (s : ResubmissionSchedule) : Z :=
  match s with PreserveScheduledSubmitAt t => t | Immediate => 0 end.
Definition reset_submit_at (s : ResubmissionSchedule) : bool :=
  match s with Immediate => true | PreserveScheduledSubmitAt _ => false end.

Record ResubmitRequest := mk_request {
  rq_share : ShareDelegationRecord;
  rq_configured_urls : list string;
  rq_definite_acceptance_urls : list string;
  rq_ambiguous_urls : list string;
  rq_interrupted_attempt_urls : list string;
  rq_target_count : nat;
  rq_schedule : ResubmissionSchedule;
  rq_candidates : ResubmissionCandidates
}.

Definition full_recovery_order (r : ResubmitRequest) : bool :=
  match rq_candidates r with FullRecoveryOrder => true | InterruptedOnly => false end.

(** Helpers with no request of unknown outcome that this pass has not asked. *)
Definition eligible_servers (r : ResubmitRequest) (attempted : list string) : list string :=
  if full_recovery_order r then
    dedupe_preserving_order
      (filter (fun url => (reset_submit_at (rq_schedule r) = true)
                          \/ url ∉ rq_definite_acceptance_urls r)
         (filter (fun url => url ∉ attempted)
            (filter (fun url => url ∉ rq_interrupted_attempt_urls r)
               (filter (fun url => url ∉ rq_ambiguous_urls r) (rq_configured_urls r)))))
  else [].

(** Helpers of one of the lists that this pass may ask again. *)
Definition retry_urls (r : ResubmitRequest) (attempted urls : list string) : list string :=
  filter (fun url => url ∉ rq_definite_acceptance_urls r) (filter (fun url => url ∉ attempted) urls).

Fixpoint take_while {A} (f : A -> bool) (l : list A) : list A :=
  match l with
  | [] => []
  | a :: l => if f a then a :: take_while f l else []
  end.

Definition rank (env : TrackingEnv) `{HelperIdentity} (urls : list string) (now : Z) : Tr (list string) :=
  look (fun n => (candidate_servers (te_health env n) urls now).1).

Section resubmission.
Context `{Externals} `{SqliteText} `{RecoveryExternals} `{DomainExternals} `{ShareExternals}.
Context `{HelperIdentity} `{UrlListJson} `{HelperJson}.
Context (env : TrackingEnv).

(** ** The request *)
Definition validate_share_body (share_wire_json : string) : result string HelperError :=
  let mismatch := InvalidRequest (lit "share body does not match the vote-share wire schema") in
  match from_json share_wire_json with
  | Err _ => Err mismatch
  | Ok share => match to_json share with Ok body => Ok body | Err _ => Err mismatch end
  end.

Definition execute_resubmit_share (n : nat) (server_url share_wire_json : string)
    : result ShareSubmissionStatus HelperError :=
  let? url := map_err invalid_request (canonicalize server_url) in
  let? body := validate_share_body share_wire_json in
  post_share_once (te_cancel env n) SHARE_HELPER_POST_TIMEOUT_MILLISECONDS (te_attempt_token env n)
    (te_deadline_fits env n) (fun target => te_transport env n target body) url.

(** The request leaves while others may still be changing the database. *)
Definition resubmit_share (id : ShareId) (share : ShareDelegationRecord)
    (server_url share_wire_json : string) (now : Z) : Tr (result ShareSubmissionStatus HelperError) :=
  fun w =>
    let n := tw_step w in
    let w := with_db (te_others env n (tw_db w)) w in
    let answer := execute_resubmit_share n server_url share_wire_json in
    (Done answer,
     with_step (S n)
       (with_post (mk_post id share server_url share_wire_json now (Some answer) [answer] (tw_db w)) w)).

(** ** Classes of helpers *)
Section request.
Context (params : ShareTrackingParams) (scope : string) (r : ResubmitRequest).

Notation share := (rq_share r).
Notation id := (share_id_of (tp_round_id params) scope share).
Notation nullifier := (sr_nullifier share).
Notation reset := (reset_submit_at (rq_schedule r)).

Definition retries_ambiguous_helper (url : string) : bool :=
  bool_decide (url ∈ rq_ambiguous_urls r).
Definition retries_interrupted_helper (url : string) : bool :=
  bool_decide (url ∈ rq_interrupted_attempt_urls r).
Definition retries_outcome_unknown_helper (url : string) : bool :=
  retries_ambiguous_helper url || retries_interrupted_helper url.
Definition retries_definitely_accepted_helper (url : string) : bool :=
  bool_decide (url ∈ rq_definite_acceptance_urls r).
Definition journals_fresh_attempt (url : string) : bool :=
  negb (retries_outcome_unknown_helper url) && negb (retries_definitely_accepted_helper url).

Definition capacity_policy : ShareAttemptCapacityPolicy :=
  if reset || negb (bool_decide (rq_interrupted_attempt_urls r = [])) then
    AllowRecoveryBeyondPlacementTarget
  else EnforcePlacementTarget.

(** ** May the request leave *)
Inductive Dispatch := DispatchNow | DispatchSkip | DispatchNoCapacity | DispatchStale.

Definition may_dispatch (url : string) (fresh_placement_capacity_reached : bool)
    : Tr (result Dispatch VotingError) :=
  if journals_fresh_attempt url then
    if fresh_placement_capacity_reached then tr_ret (Ok DispatchSkip)
    else
      go! reservation :=
        storage env (begin_existing_delivery_attempt_for_generation id url (rq_target_count r)
                       nullifier (rq_configured_urls r) capacity_policy) in
      tr_ret (let? reservation := reservation in
              Ok match reservation with
                 | Started => DispatchNow
                 | AlreadyRecorded => DispatchSkip
                 | PlacementCapacityReached => DispatchNoCapacity
                 | StaleGeneration => DispatchStale
                 end)
  else
    go! confirmed := query env (share_is_confirmed_for_generation id (Some nullifier)) in
    tr_ret (let? confirmed := confirmed in
            Ok match confirmed with
               | Some confirmed => if confirmed then DispatchSkip else DispatchNow
               | None => DispatchStale
               end).

(** ** What an answer settles *)
Definition settlement (url : string) (answer : result ShareSubmissionStatus HelperError)
    : option ShareDeliveryAttemptOutcome :=
  match answer with
  | Ok _ => Some AttemptAccepted
  | Err HeCancelled => if journals_fresh_attempt url then Some AttemptDefiniteFailure else None
  | Err error =>
      if is_ambiguous error && retries_definitely_accepted_helper url then None
      else if is_ambiguous error then Some AttemptAmbiguous
      else if retries_interrupted_helper url then Some AttemptAmbiguous
      else if retries_outcome_unknown_helper url then None
      else Some AttemptDefiniteFailure
  end.

(** [newly_outcome_unknown_urls.push(server_url)]. *)
Definition newly_unknown (url : string) (answer : result ShareSubmissionStatus HelperError) : bool :=
  match answer with
  | Ok _ | Err HeCancelled => false
  | Err error =>
      if is_ambiguous error && retries_definitely_accepted_helper url then false
      else if is_ambiguous error then negb (retries_ambiguous_helper url)
      else retries_interrupted_helper url
  end.

(** The outcome with which an answer ends the walk. *)
Definition answer_ends (url : string) (answer : result ShareSubmissionStatus HelperError)
    : option ResubmitOutcome :=
  match answer with
  | Ok _ => Some (DefinitelyAcceptedByHelper url)
  | Err HeCancelled => Some ResubmitCancelled
  | Err _ => None
  end.

Definition settle (url : string) (answer : result ShareSubmissionStatus HelperError)
    : Tr (result bool VotingError) :=
  match settlement url answer with
  | Some outcome =>
      storage env (resolve_delivery_attempt_for_generation id url nullifier outcome reset)
  | None => tr_ret (Ok true)
  end.

(** ** The walk over the order *)
Notation Walked := (result ResubmitReport FailedResubmission * list string)%type.

Definition walk_ends (outcome : ResubmitOutcome) (unknown attempted : list string) : Tr Walked :=
  tr_ret (Ok (mk_resubmit_report outcome unknown), attempted).
Definition walk_fails (e : VotingError) (unknown attempted : list string) : Tr Walked :=
  tr_ret (Err (mk_failed_resubmission e unknown), attempted).

Definition past_cutoff (now : Z) : bool :=
  match tp_vote_end_time_seconds params with
  | Some vote_end => negb (is_share_resubmission_window_open now vote_end (tp_policy params))
  | None => false
  end.

Fixpoint try_helpers (json : string) (order attempted unknown : list string) (capacity_reached : bool)
    : Tr Walked :=
  match order with
  | [] => walk_ends NoDefiniteAcceptanceObserved unknown attempted
  | url :: order =>
      go! cancelled := cancel env in
      if (cancelled : bool) then walk_ends ResubmitCancelled unknown attempted
      else
      go! now := current_time env params in
      if past_cutoff now then walk_ends CutoffReached unknown attempted
      else
      let attempted := attempted ++ [url] in
      go! dispatch := may_dispatch url capacity_reached in
      match dispatch with
      | Err e => walk_fails e unknown attempted
      | Ok DispatchStale => walk_ends ResubmitStaleGeneration unknown attempted
      | Ok DispatchSkip => try_helpers json order attempted unknown capacity_reached
      | Ok DispatchNoCapacity => try_helpers json order attempted unknown true
      | Ok DispatchNow =>
          go! answer := resubmit_share id share url json now in
          go! settled := settle url answer in
          match settled with
          | Err e => walk_fails e unknown attempted
          | Ok false => walk_ends ResubmitStaleGeneration unknown attempted
          | Ok true =>
              match answer_ends url answer with
              | Some outcome => walk_ends outcome unknown attempted
              | None =>
                  let unknown := if newly_unknown url answer then unknown ++ [url] else unknown in
                  try_helpers json order attempted unknown capacity_reached
              end
          end
      end
  end.

(** ** The order *)
Definition recovery_order (attempted : list string) : Tr (result (list string) VotingError) :=
  let eligible := eligible_servers r attempted in
  let needed :=
    resubmission_server_order_random_bytes_required eligible (rq_definite_acceptance_urls r) in
  go! random_bytes := os_random_bytes env needed in
  match resubmission_server_order eligible (rq_definite_acceptance_urls r) random_bytes with
  | Err e => tr_ret (Err e)
  | Ok randomized =>
      let untried := take_while (fun url => bool_decide (url ∉ rq_definite_acceptance_urls r)) randomized in
      let previously_attempted := drop (length untried) randomized in
      go! ordering_time := current_time env params in
      go! fresh := rank env untried ordering_time in
      go! interrupted :=
        rank env (retry_urls r attempted (rq_interrupted_attempt_urls r)) ordering_time in
      if reset && full_recovery_order r then
        go! ambiguous := rank env (retry_urls r attempted (rq_ambiguous_urls r)) ordering_time in
        go! previous := rank env previously_attempted ordering_time in
        tr_ret (Ok (fresh ++ interrupted ++ ambiguous ++ previous))
      else tr_ret (Ok (fresh ++ interrupted))
  end.

(** ** [resubmit_to_next_helper] *)
Definition without_effects (outcome : ResubmitOutcome) (attempted : list string) : Tr Walked :=
  walk_ends outcome [] attempted.

Definition resubmit_recovered (json : string) (nullifier_of_recovery : list Z)
    (attempted : list string) : Tr Walked :=
  if bool_decide (nullifier_of_recovery = nullifier) then
    go! order := recovery_order attempted in
    match order with
    | Err e => walk_fails e [] attempted
    | Ok order => try_helpers json order attempted [] false
    end
  else
    go! current := query env (is_current_generation id nullifier) in
    match current with
    | Err e => walk_fails e [] attempted
    | Ok current =>
        without_effects (if (current : bool) then Unrecoverable else ResubmitStaleGeneration) attempted
    end.

Definition resubmit_to_next_helper (attempted : list string) : Tr Walked :=
  go! material := query env (helper_recovery_material_for_wallet scope (tp_round_id params)
                               (sr_bundle_index share) (sr_proposal_id share)) in
  match material with
  | Err e => walk_fails e [] attempted
  | Ok MaterialAwaitingVcPosition => without_effects AwaitingVcPosition attempted
  | Ok MaterialMissing => without_effects Unrecoverable attempted
  | Ok (MaterialReady bundle) =>
      match recover_wire_json (rc_commitment_bundle_json bundle) (sr_proposal_id share)
              (sr_share_index share) (rc_vc_tree_position bundle) (schedule_submit_at (rq_schedule r)) with
      | Err _ => without_effects Unrecoverable attempted
      | Ok json =>
          match nullifier_from_recovery_json (rc_commitment_bundle_json bundle) (sr_proposal_id share)
                  (sr_share_index share) with
          | Err _ => without_effects Unrecoverable attempted
          | Ok recovered => resubmit_recovered json recovered attempted
          end
      end
  end.
End request.

(** ** Confirmation *)
Record ShareConfirmationReport := mk_confirmation_report {
  cr_confirmed : bool;
  cr_cancelled : bool
}.

Definition poll_share (id : ShareId) (nullifier : list Z) (configured_urls : list string) (now : Z)
    : Tr ShareStatusOutcome :=
  fun w =>
    let n := tw_step w in
    match poll_share_helpers (te_health env n) configured_urls now (te_poll_started env n)
            (te_poll_turns env n) with
    | None => (Starved, with_step (S n) w)
    | Some (outcome, polls, _) =>
        (Done outcome,
         with_step (S n) (with_poll (mk_poll id nullifier outcome (ps_answers polls)) w))
    end.

Definition poll_and_confirm_share (scope round_id : string) (share : ShareDelegationRecord)
    (configured_urls : list string) (now_seconds : Z) : Tr ShareConfirmationReport :=
  let id := share_id_of round_id scope share in
  if sr_confirmed share then tr_ret (mk_confirmation_report true false)
  else
    go! polled := poll_share id (sr_nullifier share) configured_urls now_seconds in
    match polled with
    | PollCancelled => tr_ret (mk_confirmation_report false true)
    | ConfiguredHelperQuorumNotObserved => tr_ret (mk_confirmation_report false false)
    | ConfiguredHelperQuorumObserved =>
        go! confirmed :=
          try_storage (storage env (fun db => Some (confirm_for_generation id (sr_nullifier share) db))) in
        tr_ret (mk_confirmation_report confirmed false)
    end.

Definition lock_share_operation_or_cancel : Tr bool :=
  go! lock := look (te_lock env) in tr_lift lock.

Definition helper_share_not_found (round_id : string) (key : ShareKey) : VotingError :=
  VInvalidInput (lit "helper share not found: round=" ++ lit round_id
    ++ lit ", bundle=" ++ decimal (sk_bundle_index key)
    ++ lit ", proposal=" ++ decimal (sk_proposal_id key)
    ++ lit ", share=" ++ decimal (sk_share_index key)).

Definition confirm_pending_share (scope round_id : string) (key : ShareKey)
    (configured_server_urls : list string) (now_seconds : Z) : Tr ShareConfirmationReport :=
  let id := ((round_id, scope, sk_bundle_index key, sk_proposal_id key), sk_share_index key) in
  go! fleet := tr_lift (configured_fleet configured_server_urls) in
  go! loaded := try_storage (query env (get_share_delegation id)) in
  go! loaded := tr_lift (ok_or loaded (helper_share_not_found round_id key)) in
  go! locked := lock_share_operation_or_cancel in
  if negb (locked : bool) then tr_ret (mk_confirmation_report false true)
  else
    go! share := try_storage (query env (get_share_delegation id)) in
    match share with
    | Some share =>
        if bool_decide (sr_nullifier share = sr_nullifier loaded) then
          poll_and_confirm_share scope round_id share fleet now_seconds
        else tr_ret (mk_confirmation_report false false)
    | None => tr_ret (mk_confirmation_report false false)
    end.

(** ** The pass *)
Fixpoint record_ambiguous_recovery_effects (share : ShareDelegationRecord) (urls : list string)
    (delivery : ShareDeliveryState) : Tr ShareDeliveryState :=
  match urls with
  | [] => tr_ret delivery
  | url :: urls =>
      let newly_outcome_unknown := bool_decide (url ∉ dv_outcome_unknown_urls delivery) in
      go! delivery := tr_lift (mark_outcome_unknown delivery url) in
      go! _ := if newly_outcome_unknown
               then on_report (add_ambiguous (mk_resubmitted (share_key_of share) url))
               else tr_ret tt in
      record_ambiguous_recovery_effects share urls delivery
  end.

(** The lists of the request that stay the same during the loop. *)
Record ShareRecovery := mk_share_recovery {
  rw_share : ShareDelegationRecord;
  rw_configured_urls : list string;
  rw_unknown_urls : list string;
  rw_interrupted_urls : list string;
  rw_target_count : nat;
  rw_schedule : ResubmissionSchedule;
  rw_reconcile_interrupted_only : bool
}.

Definition request_of (c : ShareRecovery) (delivery : ShareDeliveryState) : ResubmitRequest :=
  mk_request (rw_share c) (rw_configured_urls c) (dv_accepted_urls delivery) (rw_unknown_urls c)
    (rw_interrupted_urls c) (rw_target_count c) (rw_schedule c)
    (if rw_reconcile_interrupted_only c then InterruptedOnly else FullRecoveryOrder).

Fixpoint recover_share (fuel : nat) (params : ShareTrackingParams) (scope : string) (c : ShareRecovery)
    (delivery : ShareDeliveryState) (attempted : list string) : Tr unit :=
  match fuel with
  | O => tr_starve
  | S fuel =>
      go! walked := resubmit_to_next_helper params scope (request_of c delivery) attempted in
      match walked.1 with
      | Err failure =>
          go! _ := record_ambiguous_recovery_effects (rw_share c) (fr_outcome_unknown_urls failure)
                     delivery in
          tr_raise (fr_error failure)
      | Ok resubmission =>
          match rp_outcome resubmission with
          | ResubmitStaleGeneration => tr_ret tt
          | outcome =>
              go! delivery := record_ambiguous_recovery_effects (rw_share c)
                                (rp_outcome_unknown_urls resubmission) delivery in
              match outcome with
              | DefinitelyAcceptedByHelper url =>
                  let newly_definite_placement := bool_decide (url ∉ dv_accepted_urls delivery) in
                  go! delivery := tr_lift (mark_accepted delivery url) in
                  go! _ := on_report (add_resubmitted (mk_resubmitted (share_key_of (rw_share c)) url)) in
                  if negb (rw_reconcile_interrupted_only c)
                     && (bool_decide (rw_target_count c <= length (dv_accepted_urls delivery))%nat
                         || negb newly_definite_placement)
                  then tr_ret tt
                  else recover_share fuel params scope c delivery walked.2
              | Unrecoverable => on_report (add_unrecoverable (share_key_of (rw_share c)))
              | ResubmitCancelled => on_report set_cancelled
              | _ => tr_ret tt
              end
          end
      end
  end.

Inductive Flow := NextShare | StopWalk.

(** The recovery of one share, once polling has not confirmed it. *)
Definition recover_if_needed (params : ShareTrackingParams) (scope : string)
    (share : ShareDelegationRecord) (configured_urls unknown interrupted : list string)
    (delivery : ShareDeliveryState) (target_count : nat) : Tr Flow :=
  go! now := current_time env params in
  let flags := share_tracking_flags share now (tp_vote_end_time_seconds params) (tp_policy params) in
  let overdue := fl_overdue_for_retry flags in
  let under_placed := bool_decide (length (dv_accepted_urls delivery) < target_count)%nat in
  let interrupted_left := negb (bool_decide (interrupted = [])) in
  let reconcile_interrupted_only := negb overdue && negb under_placed && interrupted_left in
  if negb (past_cutoff params now) && (overdue || under_placed || interrupted_left) then
    let schedule := if overdue then Immediate else PreserveScheduledSubmitAt (sr_submit_at share) in
    go! _ := recover_share (S (length configured_urls)) params scope
               (mk_share_recovery share configured_urls unknown interrupted target_count schedule
                  reconcile_interrupted_only) delivery [] in
    fun w => (Done (if tr_cancelled (tw_report w) then StopWalk else NextShare), w)
  else tr_ret NextShare.

(** The status check of a share that is due for one. *)
Definition check_status (ready : bool) (scope round_id : string) (share : ShareDelegationRecord)
    (configured_urls : list string) (now : Z) : Tr ShareConfirmationReport :=
  if ready then poll_and_confirm_share scope round_id share configured_urls now
  else tr_ret (mk_confirmation_report false false).

(** The share under its lock, read again. *)
Definition track_share (params : ShareTrackingParams) (scope : string) (configured_urls : list string)
    (share : ShareDelegationRecord) : Tr Flow :=
  let configured := filter (fun url => url ∈ configured_urls) in
  let definite := configured (sr_sent_to_urls share) in
  let unknown := configured (sr_ambiguous_urls share) in
  let interrupted := configured (sr_attempting_urls share) in
  go! delivery := tr_lift (from_url_lists definite unknown interrupted) in
  let target_count :=
    effective_share_submission_target_count (sr_target_count share) (length configured_urls) in
  go! now := current_time env params in
  let flags := share_tracking_flags share now (tp_vote_end_time_seconds params) (tp_policy params) in
  if is_idle flags && bool_decide (target_count <= length (dv_accepted_urls delivery))%nat
     && bool_decide (interrupted = []) then tr_ret NextShare
  else
    go! confirmation :=
      check_status (fl_ready_for_status_check flags) scope (tp_round_id params) share configured_urls now in
    if cr_cancelled confirmation then
      go! _ := on_report set_cancelled in tr_ret StopWalk
    else if cr_confirmed confirmation then
      go! _ := on_report (add_confirmed (share_key_of share)) in tr_ret NextShare
    else recover_if_needed params scope share configured_urls unknown interrupted delivery target_count.

Definition track_loaded (params : ShareTrackingParams) (scope : string) (configured_urls : list string)
    (loaded : ShareDelegationRecord) : Tr Flow :=
  go! cancelled := cancel env in
  if (cancelled : bool) then go! _ := on_report set_cancelled in tr_ret StopWalk
  else
    go! locked := lock_share_operation_or_cancel in
    if negb (locked : bool) then go! _ := on_report set_cancelled in tr_ret StopWalk
    else
      go! share := try_storage (query env
                     (get_share_delegation (share_id_of (tp_round_id params) scope loaded))) in
      match share with
      | Some share =>
          if negb (sr_confirmed share) && bool_decide (sr_nullifier share = sr_nullifier loaded)
          then track_share params scope configured_urls share
          else tr_ret NextShare
      | None => tr_ret NextShare
      end.

Fixpoint walk_shares (params : ShareTrackingParams) (scope : string) (configured_urls : list string)
    (shares : list ShareDelegationRecord) : Tr unit :=
  match shares with
  | [] => tr_ret tt
  | loaded :: shares =>
      go! flow := track_loaded params scope configured_urls loaded in
      match flow with
      | StopWalk => tr_ret tt
      | NextShare => walk_shares params scope configured_urls shares
      end
  end.

Definition walk_pending_shares (params : ShareTrackingParams) (scope : string) : Tr unit :=
  go! configured_urls := tr_lift (configured_fleet (tp_configured_server_urls params)) in
  go! pending_shares :=
    try_storage (query env (get_unconfirmed_delegations (tp_round_id params) scope)) in
  go! _ := on_report (set_at_entry (Z.min (Z.of_nat (length pending_shares)) u32_max)) in
  go! _ := walk_shares params scope configured_urls pending_shares in
  go! now := current_time env params in
  go! left := try_storage (query env (get_unconfirmed_delegations (tp_round_id params) scope)) in
  on_report (set_next_delay (next_tracking_delay_seconds left now (tp_policy params))).

Record FailedTrackingPass := mk_failed_pass {
  fp_error : VotingError;
  fp_partial : ShareTrackingReport
}.

(** The pass from a database; [None] is a pass that has not returned. *)
Definition start_world (db : ShareDb) : TrackingWorld :=
  mk_world 0 db [] [] default_tracking_report.

Definition track_pending_shares_with_elapsed (params : ShareTrackingParams) (scope : string)
    (db : ShareDb) : option (result ShareTrackingReport FailedTrackingPass) * TrackingWorld :=
  match walk_pending_shares params scope (start_world db) with
  | (Done _, w) => (Some (Ok (tw_report w)), w)
  | (Raised e, w) => (Some (Err (mk_failed_pass e (tw_report w))), w)
  | (Starved, w) => (None, w)
  end.

Definition track_pending_shares (params : ShareTrackingParams) (scope : string) (db : ShareDb)
    : option (result ShareTrackingReport VotingError) * TrackingWorld :=
  let '(pass, w) := track_pending_shares_with_elapsed params scope db in
  (map_err fp_error <$> pass, w).
End resubmission.

(** ** Reports of a first delivery *)
Inductive SharePlacementGuarantee := Strict | LegacyBestEffort.

Record ShareSubmissionReport := mk_submission_report {
  su_accepted_urls : list string;
  su_ambiguous_urls : list string;
  su_target_count : nat
}.

Record ShareDeliveryOutcome := mk_delivery_outcome {
  do_share_index : Z;
  do_submission : ShareSubmissionReport
}.

Record ShareBatchDeliveryReport := mk_batch_report {
  br_deliveries : list ShareDeliveryOutcome;
  br_pending_share_indices : list Z;
  br_cancelled : bool;
  br_placement_guarantee : SharePlacementGuarantee
}.

Record ShareDeliveryFailure := mk_delivery_failure {
  df_error : VotingError;
  df_partial : option ShareBatchDeliveryReport
}.

Definition completed_of (results : list (result (option ShareDeliveryOutcome) VotingError))
    : list ShareDeliveryOutcome :=
  omap (fun r => match r with Ok outcome => outcome | Err _ => None end) results.

Definition first_error (results : list (result (option ShareDeliveryOutcome) VotingError))
    : option VotingError :=
  head (omap (fun r => match r with Ok _ => None | Err e => Some e end) results).

Definition outcome_leb (a b : ShareDeliveryOutcome) : bool := do_share_index a <=? do_share_index b.

Definition batch_delivery_report (results : list (result (option ShareDeliveryOutcome) VotingError))
    (share_indices : list Z) (cancelled : bool) (guarantee : SharePlacementGuarantee)
    : result ShareBatchDeliveryReport ShareDeliveryFailure :=
  let completed := stable_sort outcome_leb (completed_of results) in
  let report :=
    mk_batch_report completed
      (filter (fun i => i ∉ map do_share_index completed) share_indices) cancelled guarantee in
  match first_error results with
  | None => Ok report
  | Some e => Err (mk_delivery_failure e (Some report))
  end.

Inductive DeliveryProgress := DeliveryComplete | AwaitingAmbiguousHelpers | DeliveryIncomplete.

Definition delivery_progress (report : ShareBatchDeliveryReport) : DeliveryProgress :=
  if negb (bool_decide (br_pending_share_indices report = []))
     || existsb (fun d => bool_decide (su_accepted_urls (do_submission d) = [])
                          && bool_decide (su_ambiguous_urls (do_submission d) = []))
          (br_deliveries report)
  then DeliveryIncomplete
  else if existsb (fun d => bool_decide (su_accepted_urls (do_submission d) = []))
            (br_deliveries report)
  then AwaitingAmbiguousHelpers
  else DeliveryComplete.
