(* ===== verification/InitialDelivery.v ===== *)
(** * The first delivery of a share

    Models [share_tracking/initial_delivery.rs] and
    [share_tracking/post_capacity.rs]: handing one share of a committed vote
    to the helpers its plan names, and to further ones when those do not take
    it. Helpers are reserved on disk in waves, the requests of a wave run side
    by side, and their outcomes are written in the order of the wave.

    The steps are those of a tracking pass. In addition the environment says
    in which order the requests of a wave get their turn, what happens while
    they wait for a slot, and which of them the deadline cuts off. *)

From stdpp Require Import base gmap strings list numbers pretty.
From Stdlib Require Import ZifyBool.
From S2P Require Import Prelude Ordered Identity Outcome Lifecycle Record Confirmation Rows Store VoteRecovery.
From S2P Require Import Generation Projection SharePolicy Helpers ShareLedger HelperClient ShareWire SharePolling.
From S2P Require Import RoundPlanning ShareTracking.
Local Open Scope Z_scope.
Local Open Scope voting_scope.

(** ** Slots for requests ([post_capacity.rs])

    One look of a waiting request: whether the caller has cancelled, the
    clock, and whether the semaphore granted a permit, was closed, or let the
    wait time out. *)
Inductive Permit := PermitGranted | PermitClosed | PermitPending.

Record AdmissionTurn := mk_admission_turn {
  at_cancelled : bool;
  at_now : Z;
  at_permit : Permit
}.

Definition SHARE_DELIVERY_MIN_ATTEMPT_BUDGET_MILLISECONDS : Z := 1000.

(** [deadline.saturating_duration_since(now)]. *)
Definition time_left (deadline now : Z) : Z := Z.max (deadline - now) 0.

Fixpoint acquire (deadline : Z) (turns : list AdmissionTurn) : option (result unit HelperError) :=
  match turns with
  | [] => None
  | turn :: turns =>
      if at_cancelled turn then Some (Err HeCancelled)
      else if time_left deadline (at_now turn) <=? SHARE_DELIVERY_MIN_ATTEMPT_BUDGET_MILLISECONDS then
        Some (Err DeadlineExceeded)
      else match at_permit turn with
           | PermitGranted => Some (Ok tt)
           | PermitClosed => Some (Err (InvalidRequest (lit "helper POST capacity semaphore closed")))
           | PermitPending => acquire deadline turns
           end
  end.

(** ** The environment *)
Record DeliveryEnv := mk_delivery_env {
  de_pass : TrackingEnv;
  de_clock : nat -> Z;
  de_wall_clock : nat -> Z;
  (** Who is next among the requests of a wave. *)
  de_turns : nat -> list nat;
  de_admission : nat -> list AdmissionTurn;
  de_retry : nat -> RetryEnv;
  de_token : nat -> nat -> option string;
  de_deadline_fits : nat -> nat -> bool;
  de_transport : nat -> nat -> string -> string -> result HelperResponse HelperTransportError;
  (** How many attempts were answered when the deadline cut a request off. *)
  de_elapses : nat -> option nat
}.

(** The parts of [HelperClientConfig] that a first delivery uses. *)
Record HelperClientConfig := mk_client_config {
  hc_post_timeout : Z;
  hc_retry_delays : list Z
}.

Definition default_client_config : HelperClientConfig :=
  mk_client_config SHARE_HELPER_POST_TIMEOUT_MILLISECONDS HELPER_RETRY_DELAYS_MS.

(** The elements of a list in the order in which they are picked. *)
Fixpoint arrange {A} (picks : list nat) (l : list A) : list A :=
  match picks with
  | [] => l
  | k :: picks =>
      match l !! k with
      | Some a => a :: arrange picks (delete k l)
      | None => arrange picks l
      end
  end.

(** ** Inputs *)
Record InitialShareSubmissionParams := mk_initial_params {
  ip_round_id : string;
  ip_bundle_index : Z;
  ip_proposal_id : Z;
  ip_share_index : Z;
  ip_share_wire_json : string;
  ip_target_count : nat;
  ip_submit_at : Z;
  ip_now_seconds : Z
}.

Record CommittedShareSubmissionRequest := mk_committed_request {
  cq_share_index : Z;
  cq_plan : ShareSubmissionPlan;
  cq_planning_server_urls : list string;
  cq_configured_server_urls : list string;
  cq_now_seconds : Z
}.

Definition delivery_report (state : ShareDeliveryState) (target_count : nat) : ShareSubmissionReport :=
  mk_submission_report (dv_accepted_urls state)
    (dv_outcome_unknown_urls state ++ dv_in_flight_urls state) target_count.

(** What became of one request of a wave: a failed check of the journal, cut
    off by the deadline, or an answer. *)
Notation HelperPostOutcome := (result (option (result ShareSubmissionStatus HelperError)) VotingError).

Section delivery.
Context `{Externals} `{SqliteText} `{RecoveryExternals} `{DomainExternals} `{ShareExternals}.
Context `{HelperIdentity} `{UrlListJson} `{HelperJson}.
Context (env : DeliveryEnv) (config : HelperClientConfig).

(** ** The request ([helper/client.rs]) *)
Definition submit_share_with_timeout (n : nat) (server_url share_wire_json : string)
    (timeout deadline : Z)
    : result ShareSubmissionStatus HelperError * list (result ShareSubmissionStatus HelperError) :=
  if timeout =? 0 then
    (Err (InvalidRequest (lit "share submission timeout must be nonzero")), [])
  else match canonicalize server_url with
       | Err e => (Err (invalid_request e), [])
       | Ok server_url =>
           match validate_share_body share_wire_json with
           | Err e => (Err e, [])
           | Ok body =>
               post_share_with_retry (de_retry env n) (hc_retry_delays config) (Some deadline)
                 (Z.min timeout (hc_post_timeout config)) (de_token env n) (de_deadline_fits env n)
                 (fun attempt target => de_transport env n attempt target body) server_url
           end
       end.

Section share.
Context (params : InitialShareSubmissionParams) (scope : string).

Notation id := ((ip_round_id params, scope, ip_bundle_index params, ip_proposal_id params),
  ip_share_index params).

Definition stale_delivery_error : VotingError :=
  VInvalidInput (lit "committed share changed while helper delivery was in flight for "
    ++ share_text id).

(** ** The journal as this delivery sees it *)
Definition load_current_delivery_state (expected_nullifier : list Z) (candidates : list string)
    (db : ShareDb) : result ShareDeliveryState VotingError :=
  let? found := get_share_delegation id db in
  let? current :=
    ok_or (found ≫= fun share =>
             if bool_decide (sr_nullifier share = expected_nullifier) then Some share else None)
      stale_delivery_error in
  from_url_lists (filter (fun url => url ∈ candidates) (sr_sent_to_urls current))
    (filter (fun url => url ∈ candidates) (sr_ambiguous_urls current))
    (filter (fun url => url ∈ candidates) (sr_attempting_urls current)).

Section fan_out.
Context (record : ShareDelegationRecord) (planned candidates : list string).
Context (target : nat) (deadline : Z).

Notation nullifier := (sr_nullifier record).

Definition load_state : Tr (result ShareDeliveryState VotingError) :=
  query (de_pass env) (load_current_delivery_state nullifier candidates).

(** ** Reserving a wave *)
Definition active_group (remaining : list string) : list string :=
  match filter (fun url => url ∈ planned) remaining with
  | [] => remaining
  | group => group
  end.

(** The wave, the helpers that remain, and whether to stop after it. *)
Fixpoint reserve_wave (fuel need : nat) (wave remaining : list string)
    : Tr (list string * list string * bool) :=
  if (need <=? length wave)%nat || bool_decide (remaining = []) then tr_ret (wave, remaining, false)
  else
    match fuel with
    | 0%nat => tr_starve
    | S fuel =>
        go! cancelled := cancel (de_pass env) in
        if (cancelled : bool) then tr_ret (wave, remaining, true)
        else
        go! ordered := rank (de_pass env) (active_group remaining) (ip_now_seconds params) in
        match ordered with
        | [] => tr_ret (wave, remaining, false)
        | server_url :: _ =>
            go! now := look (de_clock env) in
            if time_left deadline now <? SHARE_DELIVERY_MIN_ATTEMPT_BUDGET_MILLISECONDS then
              tr_ret (wave, remaining, true)
            else
            go! reservation :=
              try_storage (storage (de_pass env)
                (begin_delivery_attempt_for_generation id server_url target nullifier candidates)) in
            match reservation with
            | Started => reserve_wave fuel need (wave ++ [server_url]) (retain_other server_url remaining)
            | AlreadyRecorded => reserve_wave fuel need wave (retain_other server_url remaining)
            | PlacementCapacityReached => tr_ret (wave, remaining, false)
            | StaleGeneration => tr_raise stale_delivery_error
            end
        end
    end.

(** ** The requests of a wave *)
Definition post_share (server_url : string) (remaining_time : Z)
    : Tr (option (result ShareSubmissionStatus HelperError)) :=
  fun w =>
    let n := tw_step w in
    let w := with_db (te_others (de_pass env) n (tw_db w)) w in
    let '(answer, attempts) :=
      submit_share_with_timeout n server_url (ip_share_wire_json params) remaining_time deadline in
    let '(outcome, attempts) :=
      match de_elapses env n with
      | Some answered => (None, take answered attempts)
      | None => (Some answer, attempts)
      end in
    (Done outcome,
     with_step (S n)
       (with_post (mk_post id record server_url (ip_share_wire_json params) (ip_now_seconds params)
                     outcome attempts (tw_db w)) w)).

Definition admission : Tr (result unit HelperError) :=
  go! admitted := look (fun n => acquire deadline (de_admission env n)) in
  match admitted with
  | Some admitted => tr_ret admitted
  | None => tr_starve
  end.

Definition post_when_admitted (server_url : string) : Tr HelperPostOutcome :=
  go! admitted := admission in
  match admitted with
  | Err e => tr_ret (Ok (Some (Err e)))
  | Ok _ =>
      go! current := load_state in
      match current with
      | Err e => tr_ret (Err e)
      | Ok current =>
          if bool_decide (server_url ∈ dv_in_flight_urls current) then
            go! now := look (de_clock env) in
            go! outcome := post_share server_url (time_left deadline now) in
            tr_ret (Ok outcome)
          else tr_ret (Err stale_delivery_error)
      end
  end.

Fixpoint run_posts (turns : list string) : Tr (list (string * HelperPostOutcome)) :=
  match turns with
  | [] => tr_ret []
  | server_url :: turns =>
      go! outcome := post_when_admitted server_url in
      go! outcomes := run_posts turns in
      tr_ret ((server_url, outcome) :: outcomes)
  end.

Definition post_wave (wave : list string) : Tr (list (string * HelperPostOutcome)) :=
  go! picks := look (de_turns env) in run_posts (arrange picks wave).

Definition outcome_of (outcomes : list (string * HelperPostOutcome)) (url : string)
    : option HelperPostOutcome :=
  snd <$> (snd <$> list_find (fun o => o.1 = url) outcomes).

(** ** Writing the outcomes *)
Definition resolve (server_url : string) (outcome : ShareDeliveryAttemptOutcome) : Tr unit :=
  go! current :=
    try_storage (storage (de_pass env)
      (resolve_delivery_attempt_for_generation id server_url nullifier outcome false)) in
  if (current : bool) then tr_ret tt else tr_raise stale_delivery_error.

Definition attempt_outcome (answer : option (result ShareSubmissionStatus HelperError))
    : ShareDeliveryAttemptOutcome :=
  match answer with
  | None => AttemptAmbiguous
  | Some (Ok _) => AttemptAccepted
  | Some (Err error) => if is_ambiguous error then AttemptAmbiguous else AttemptDefiniteFailure
  end.

Definition mark_outcome (state : ShareDeliveryState) (server_url : string)
    (outcome : ShareDeliveryAttemptOutcome) : result ShareDeliveryState VotingError :=
  match outcome with
  | AttemptAccepted => mark_accepted state server_url
  | AttemptAmbiguous => mark_outcome_unknown state server_url
  | AttemptDefiniteFailure => Ok state
  end.

Fixpoint settle_wave (wave : list string) (outcomes : list (string * HelperPostOutcome))
    (state : ShareDeliveryState) (deadline_elapsed : bool) : Tr (ShareDeliveryState * bool) :=
  match wave with
  | [] => tr_ret (state, deadline_elapsed)
  | server_url :: wave =>
      match outcome_of outcomes server_url with
      | None => tr_ret (state, deadline_elapsed)
      | Some (Err e) => tr_raise e
      | Some (Ok answer) =>
          go! _ := resolve server_url (attempt_outcome answer) in
          go! state := tr_lift (mark_outcome state server_url (attempt_outcome answer)) in
          settle_wave wave outcomes state
            (deadline_elapsed || bool_decide (answer = None))
      end
  end.

(** ** The waves *)
Fixpoint deliver_waves (fuel : nat) (remaining : list string) (state : ShareDeliveryState) : Tr unit :=
  if bool_decide (remaining = []) || (target <=? length (dv_accepted_urls state))%nat then tr_ret tt
  else
    match fuel with
    | 0%nat => tr_starve
    | S fuel =>
        go! cancelled := cancel (de_pass env) in
        if (cancelled : bool) then tr_ret tt
        else
        let need := (target - length (dv_accepted_urls state))%nat in
        go! reserved := reserve_wave (length remaining) need [] remaining in
        let '(wave, remaining, stop_after_wave) := reserved in
        if bool_decide (wave = []) then tr_ret tt
        else
        go! outcomes := post_wave wave in
        go! settled := settle_wave wave outcomes state false in
        let '(state, deadline_elapsed) := settled in
        if deadline_elapsed || stop_after_wave then tr_ret tt
        else deliver_waves fuel remaining state
    end.
End fan_out.

Definition untouched (state : ShareDeliveryState) (url : string) : bool :=
  negb (bool_decide (url ∈ dv_accepted_urls state))
  && negb (bool_decide (url ∈ dv_outcome_unknown_urls state))
  && negb (bool_decide (url ∈ dv_in_flight_urls state)).

Definition dispatch_share_to_canonical_helpers (planned fallback : list string)
    (persisted_delivery : ShareDelegationRecord) : Tr ShareSubmissionReport :=
  let candidates := planned ++ fallback in
  let load := try_storage (load_state persisted_delivery candidates) in
  go! locked := lock_share_operation_or_cancel (de_pass env) in
  if (locked : bool) then
    go! state := load in
    let remaining := filter (fun url => untouched state url = true) candidates in
    let target :=
      Nat.min (ip_target_count params) (length (dv_accepted_urls state) + length remaining) in
    go! started := look (de_clock env) in
    let deadline := started + SHARE_INITIAL_DELIVERY_TIMEOUT_MILLISECONDS in
    go! _ := deliver_waves persisted_delivery planned candidates target deadline (length remaining)
               remaining state in
    go! state := load in
    tr_ret (delivery_report state (ip_target_count params))
  else
    go! state := load in
    tr_ret (delivery_report state (ip_target_count params)).

(** ** The durable row ([share.rs]) *)
Definition record_delivery_for_committed_vote (expected_commitment_bundle_json : string)
    (expected_nullifier : list Z) : Tr Z :=
  go! target_count := tr_lift (persisted_delivery_target_count (ip_target_count params)) in
  go! created_at := look (de_wall_clock env) in
  try_storage (storage (de_pass env)
    (record_share_delegation_for_vote_generation id [] [] target_count expected_nullifier
       (ip_submit_at params) created_at expected_commitment_bundle_json)).

Definition prepare_committed_share_delivery (expected_commitment_bundle_json : string)
    (expected_nullifier : list Z) : Tr (Z * ShareDelegationRecord) :=
  go! durable_submit_at :=
    record_delivery_for_committed_vote expected_commitment_bundle_json expected_nullifier in
  go! found := try_storage (query (de_pass env) (get_share_delegation id)) in
  go! persisted_delivery :=
    tr_lift (ok_or (found ≫= fun share =>
                      if bool_decide (sr_nullifier share = expected_nullifier) then Some share else None)
               (VInternal (lit "newly journaled helper share was not found"))) in
  tr_ret (durable_submit_at, persisted_delivery).
End share.

(** ** One payload of a committed vote *)
Definition not_in_fleet (fleet : list string) (urls : list string) : option string :=
  head (filter (fun url => url ∉ fleet) urls).

(** The canonical planned helpers and the target, once the plan has been
    checked against the fleet it was made for. *)
Definition validate_planned_targets (plan : ShareSubmissionPlan) (planning_fleet : list string)
    : result (list string * nat) VotingError :=
  let? planned := canonical_helper_url_list (pl_target_servers plan) in
  if negb (bool_decide (length planned = length (pl_target_servers plan))) then
    Err (VInvalidInput (lit "plan target_servers must contain distinct canonical helpers"))
  else
    let expected_target := share_submission_target_count (length planning_fleet) in
    let planned_target := Z.to_nat (pl_target_count plan) in
    if negb (bool_decide (planned_target = expected_target))
       || negb (bool_decide (length planned = planned_target)) then
      Err (VInvalidInput (lit "plan target_count and target_servers must match the persisted planning fleet target "
             ++ decimal (Z.of_nat expected_target)))
    else match not_in_fleet planning_fleet planned with
         | Some server_url =>
             Err (VInvalidInput (lit "planned helper is not in the persisted planning fleet: "
                    ++ lit server_url))
         | None => Ok (planned, planned_target)
         end.

Definition find_payload (payloads : list SharePayload) (round_id : string) (proposal_id share_index : Z)
    : result SharePayload VotingError :=
  let? payload :=
    ok_or (snd <$> list_find (fun p => ws_share_index (sp_enc_share p) = share_index) payloads)
      (VInvalidInput (lit "share_index " ++ decimal share_index
         ++ lit " is not present in the committed vote")) in
  if bool_decide (sp_vote_round_id payload = round_id) && (sp_proposal_id payload =? proposal_id) then
    Ok payload
  else Err (VInternal (lit "committed share payload identity does not match its vote handle")).

Definition changed_vote_error (round_id : string) (bundle_index proposal_id : Z) : VotingError :=
  VInvalidInput (lit "committed vote changed before helper share submission for round=" ++ lit round_id
    ++ lit ", bundle=" ++ decimal bundle_index ++ lit ", proposal=" ++ decimal proposal_id
    ++ lit "; recover the current committed vote").

(** The position and the nullifier of the confirmed vote this handle is of. *)
Definition confirmed_material (round_id : string) (bundle_index proposal_id share_index : Z)
    (expected_vote_commitment : list Z) (expected_commitment_bundle_json : string)
    (material : HelperRecoveryMaterial) : result (Z * list Z) VotingError :=
  match material with
  | MaterialReady bundle =>
      if negb (bool_decide (rc_commitment_bundle_json bundle = expected_commitment_bundle_json)) then
        Err (changed_vote_error round_id bundle_index proposal_id)
      else
        let? recovery := parse_recovery (rc_commitment_bundle_json bundle) in
        if negb (bool_decide (vr_vote_commitment recovery = expected_vote_commitment)) then
          Err (changed_vote_error round_id bundle_index proposal_id)
        else
          let? nullifier :=
            nullifier_from_recovery_json (rc_commitment_bundle_json bundle) proposal_id share_index in
          Ok (rc_vc_tree_position bundle, nullifier)
  | MaterialAwaitingVcPosition =>
      Err (VInvalidInput (lit "committed vote must be confirmed before submitting helper shares"))
  | MaterialMissing =>
      Err (VInternal (lit "committed vote is missing durable helper recovery material"))
  end.

Definition submit_committed_share_to_helpers (round_id : string) (bundle_index proposal_id : Z)
    (expected_vote_commitment : list Z) (payloads : list SharePayload)
    (request : CommittedShareSubmissionRequest) (expected_commitment_bundle_json scope : string)
    : Tr ShareSubmissionReport :=
  let plan := cq_plan request in
  go! configured := tr_lift (configured_fleet (cq_configured_server_urls request)) in
  go! planning_fleet := tr_lift (configured_fleet (cq_planning_server_urls request)) in
  go! checked := tr_lift (validate_planned_targets plan planning_fleet) in
  go! payload := tr_lift (find_payload payloads round_id proposal_id (cq_share_index request)) in
  go! material :=
    try_storage (query (de_pass env)
      (helper_recovery_material_for_wallet scope round_id bundle_index proposal_id)) in
  go! confirmed :=
    tr_lift (confirmed_material round_id bundle_index proposal_id (cq_share_index request)
               expected_vote_commitment expected_commitment_bundle_json material) in
  let '(planned, planned_target) := checked in
  let '(vc_tree_position, expected_nullifier) := confirmed in
  go! requested_json := tr_lift (to_wire_json payload (Some vc_tree_position) (pl_submit_at plan)) in
  let eligible := filter (fun url => url ∈ configured) planned in
  let fallback := filter (fun url => url ∉ eligible) configured in
  let with_json json submit_at :=
    mk_initial_params round_id bundle_index proposal_id (cq_share_index request) json planned_target
      submit_at (cq_now_seconds request) in
  go! prepared :=
    prepare_committed_share_delivery (with_json requested_json (pl_submit_at plan)) scope
      expected_commitment_bundle_json expected_nullifier in
  let '(durable_submit_at, persisted_delivery) := prepared in
  go! json := tr_lift (to_wire_json payload (Some vc_tree_position) durable_submit_at) in
  dispatch_share_to_canonical_helpers (with_json json durable_submit_at) scope eligible fallback
    persisted_delivery.
End delivery.
