(* ===== verification/SampleShares.v ===== *)
(** * A sample of shares

    Concrete stand-ins for the code that the share components call, and one
    round with a share that no helper holds yet. *)

From stdpp Require Import base gmap strings list numbers pretty.
From S2P Require Import Prelude Ordered Identity Outcome Lifecycle Record Confirmation Rows Store SampleCodec VoteRecovery.
From S2P Require Import Generation SampleTables Projection RoundPlanning SharePolicy Helpers ShareLedger HelperClient ShareWire.
From S2P Require Import SharePolling ShareTracking.
Local Open Scope Z_scope.
Local Open Scope voting_scope.

#[local] Existing Instance example_externals.
#[local] Existing Instance example_text.
#[local] Existing Instance example_recovery_externals.
#[local] Existing Instance example_domain_externals.

(** ** Code outside the repository *)

(** A helper is named by what follows an optional trailing slash. *)
Definition sample_identity : HelperIdentity :=
  fun url => if bool_decide (trim_slashes url = EmptyString)
             then Err (VInvalidInput (lit "invalid helper server url")) else Ok (trim_slashes url).

Definition sample_url_json : UrlListJson.
Proof.
  refine {|
    urls_of_json := fun s => match sample_parse s with Some l => Ok l | None => Err (lit "malformed") end;
    json_of_urls := sample_string
  |}.
  intros l. by rewrite sample_parse_string.
Defined.

(** A body of one byte: queued, duplicate, confirmed or pending. *)
Definition sample_helper_json : HelperJson := {|
  body_string_field := fun body field =>
    match body with
    | [n] => nth_error ["queued"; "duplicate"; "confirmed"; "pending"]%string (Z.to_nat n)
    | _ => None
    end;
  body_receipt := fun _ => None
|}.

#[local] Instance token_wire_share : Token WireEncryptedShare.
Proof.
  refine (token_iso (fun s => (ws_c1 s, ws_c2 s, ws_share_index s))
            (fun '(a, b, c) => mk_wire_share a b c) _).
  by intros [].
Defined.

#[local] Instance token_vote_share : Token VoteShareWire.
Proof.
  refine (token_iso (fun w => (vw_vote_round_id w, vw_shares_hash w, vw_proposal_id w, vw_vote_decision w,
      vw_encrypted_share w, vw_share_index w, vw_vc_tree_position w, vw_share_comms w,
      vw_primary_blind w, vw_submit_at w))
    (fun '(a, b, c, d, e, f, g, h, i, k) => mk_share_wire a b c d e f g h i k) _).
  by intros [].
Defined.

Definition sample_share_externals : ShareExternals.
Proof.
  refine {|
    pallas_point := fun _ => Some false;
    share_nullifier_hash := fun commitment index blind =>
      take 32 ((index + hd 0 blind) :: commitment ++ replicate 32 0);
    vote_share_json := sample_string;
    vote_share_of_json := fun s =>
      match sample_parse s with Some w => Ok w | None => Err (lit "malformed") end
  |}.
  - intros w. by rewrite sample_parse_string.
  - intros commitment index blind. rewrite length_take. cbn [length]. rewrite length_app, length_replicate. lia.
Defined.

(** ** One share *)
Definition sample_recovery : VoteRecoveryBundle :=
  mk_recovery (hex_string (vote_round_id example_identity)) (bundle_index example_identity)
    3 1 0 5 true 2 (replicate 32 0) (replicate 32 0) (replicate 32 1) [0]
    (replicate 32 0) (replicate 32 0) (replicate 32 0) (replicate 64 0)
    [mk_share (replicate 32 1) (replicate 32 2) 0 5 (replicate 32 0)] [replicate 32 2]
    (replicate 16 (replicate 32 0)) None.

Definition sample_nullifier : list Z := 2 :: replicate 31 1.

Definition sample_share_id : ShareId := (example_vote_id 3, 0).

Definition sample_share_row : ShareRow :=
  mk_share_row (@json_of_urls sample_url_json []) (@json_of_urls sample_url_json [])
    (@json_of_urls sample_url_json []) 2 sample_nullifier false 100 50.

Definition sample_tables : VotingTables :=
  let d := example_tables [sample_recovery] in
  mk_tables (tb_rounds d) (tb_bundles d) (tb_proofs d)
    {[ example_vote_id 3 :=
         mk_vote_row 1 None None (Some 5) (Some (sample_string (recovery_to_json sample_recovery))) ]}
    (tb_helper_share_plans d) (tb_share_delegations d) (tb_ballot_intent d)
    (tb_round_immediate_share d) (tb_delegate_cast_recovery d) (tb_combined_cast_rejections d).

Definition sample_share_db : ShareDb :=
  mk_share_db sample_tables {[ sample_share_id := sample_share_row ]}.

(** ** A quiet environment

    Nobody cancels, nothing fails and no other task runs. One helper's answers
    are lost, the others queue what they are sent. *)
Definition sample_env : TrackingEnv := {|
  te_cancel := fun _ => false;
  te_elapsed := fun n => Z.of_nat n;
  te_random_byte := fun _ _ => 0;
  te_health := fun _ => default_health;
  te_lock := fun _ => Ok true;
  te_fault := fun _ => None;
  te_others := fun _ db => db;
  te_poll_started := fun _ => 0;
  te_poll_turns := fun _ => [mk_poll_turn [] false SHARE_STATUS_POLL_BUDGET_MILLISECONDS None []];
  te_attempt_token := fun _ => None;
  te_deadline_fits := fun _ => true;
  te_transport := fun _ url _ =>
    if bool_decide (String.prefix "https://b" url = true) then Err TeTimeout
    else Ok (mk_response 200 [0] (Some "application/json"%string))
|}.

Definition sample_params : ShareTrackingParams :=
  mk_tracking_params example_round ["https://a/"; "https://b"; "https://c"]%string 200 (Some 100000)
    default_timing_policy.
