(* ===== verification/ShareLedgerProofs.v ===== *)
(** * The ledger of helper deliveries: proofs

    Each helper has one kind of evidence per share, and the ledger only
    strengthens it. A row that an operation writes is read back as the state
    that was written. The read-modify-write loops return, and what they write
    is right for the row they write it to, whatever other connections did
    between their passes. *)

From stdpp Require Import base gmap strings list numbers pretty.
From Stdlib Require Import ZifyBool.
From S2P Require Import Prelude Ordered Identity Outcome Lifecycle Record Confirmation Rows Store VoteRecovery.
From S2P Require Import Generation Projection SharePolicy Helpers ShareLedger SampleCodec SampleTables SampleShares.
Local Open Scope Z_scope.
Local Open Scope voting_scope.

(** ** Evidence *)
Inductive Evidence := EvNone | EvInFlight | EvUnknown | EvAccepted.

#[global] Instance Evidence_eq_dec : EqDecision Evidence.
Proof. solve_decision. Defined.

Definition strength (e : Evidence) : nat :=
  match e with EvNone => 0 | EvInFlight => 1 | EvUnknown => 2 | EvAccepted => 3 end.

Definition evidence (s : ShareDeliveryState) (url : string) : Evidence :=
  if bool_decide (url ∈ dv_accepted_urls s) then EvAccepted
  else if bool_decide (url ∈ dv_outcome_unknown_urls s) then EvUnknown
  else if bool_decide (url ∈ dv_in_flight_urls s) then EvInFlight
  else EvNone.

Lemma elem_of_retain_other u x l : u ∈ retain_other x l <-> u <> x /\ u ∈ l.
Proof. unfold retain_other. by rewrite list_elem_of_filter. Qed.

Lemma delivery_contains_evidence s u : delivery_contains s u = false <-> evidence s u = EvNone.
Proof.
  unfold delivery_contains, evidence. repeat case_bool_decide; cbn; naive_solver.
Qed.

Ltac evidence_cases :=
  unfold evidence; cbn [dv_accepted_urls dv_outcome_unknown_urls dv_in_flight_urls];
  repeat case_bool_decide; repeat case_decide; subst;
  rewrite ?elem_of_push_new, ?elem_of_retain_other, ?elem_of_app, ?list_elem_of_singleton in *;
  naive_solver.

Lemma evidence_accepted s x u :
  evidence (mark_accepted_canonical s x) u = if decide (u = x) then EvAccepted else evidence s u.
Proof. unfold mark_accepted_canonical. evidence_cases. Qed.

Lemma evidence_unknown s x u :
  evidence (mark_outcome_unknown_canonical s x) u
  = if decide (u = x) then (if decide (evidence s u = EvAccepted) then EvAccepted else EvUnknown)
    else evidence s u.
Proof. unfold mark_outcome_unknown_canonical. evidence_cases. Qed.

Lemma evidence_push s x u :
  evidence (push_in_flight s x) u
  = if decide (u = x /\ evidence s u = EvNone) then EvInFlight else evidence s u.
Proof. unfold push_in_flight. evidence_cases. Qed.

Lemma evidence_fail s x u :
  evidence (mk_delivery (dv_accepted_urls s) (dv_outcome_unknown_urls s)
              (retain_other x (dv_in_flight_urls s))) u
  = if decide (u = x /\ evidence s u = EvInFlight) then EvNone else evidence s u.
Proof. evidence_cases. Qed.

Lemma evidence_add_in_flight s x u :
  evidence (add_in_flight s x) u
  = if decide (u = x /\ evidence s u = EvNone) then EvInFlight else evidence s u.
Proof.
  unfold add_in_flight. destruct (delivery_contains s x) eqn:E; [|apply evidence_push].
  case_decide as Hd; [|done]. destruct Hd as [-> Hn]. apply delivery_contains_evidence in Hn. congruence.
Qed.

(** ** One state per helper *)
Section wf.
Context `{HelperIdentity}.

Record wf_delivery (s : ShareDeliveryState) : Prop := {
  wd_accepted : NoDup (dv_accepted_urls s);
  wd_unknown : NoDup (dv_outcome_unknown_urls s);
  wd_in_flight : NoDup (dv_in_flight_urls s);
  wd_unknown_accepted : forall u, u ∈ dv_outcome_unknown_urls s -> u ∉ dv_accepted_urls s;
  wd_in_flight_other : forall u, u ∈ dv_in_flight_urls s ->
    u ∉ dv_accepted_urls s /\ u ∉ dv_outcome_unknown_urls s;
  wd_canonical : forall u, evidence s u <> EvNone -> canonical_url u
}.

Lemma NoDup_retain x l : NoDup l -> NoDup (retain_other x l).
Proof. apply NoDup_filter. Qed.

Ltac wf_cases :=
  intros;
  rewrite ?elem_of_push_new, ?elem_of_retain_other, ?elem_of_app, ?list_elem_of_singleton in *;
  repeat case_bool_decide;
  rewrite ?elem_of_push_new, ?elem_of_retain_other, ?elem_of_app, ?list_elem_of_singleton in *;
  naive_solver.

Lemma wf_no_delivery : wf_delivery no_delivery.
Proof. by split; cbn; try apply NoDup_nil_2; try set_solver. Qed.

Lemma wf_mark_accepted s x :
  canonical_url x -> wf_delivery s -> wf_delivery (mark_accepted_canonical s x).
Proof.
  intros Hx [Ha Hu Hf Hua Hfo Hc]. split; cbn.
  - by apply NoDup_push_new.
  - by apply NoDup_retain.
  - by apply NoDup_retain.
  - wf_cases.
  - wf_cases.
  - intros u. rewrite evidence_accepted. case_decide; [by subst|apply Hc].
Qed.

Lemma wf_mark_unknown s x :
  canonical_url x -> wf_delivery s -> wf_delivery (mark_outcome_unknown_canonical s x).
Proof.
  intros Hx [Ha Hu Hf Hua Hfo Hc]. split; cbn.
  - done.
  - case_bool_decide; [done|by apply NoDup_push_new].
  - by apply NoDup_retain.
  - wf_cases.
  - wf_cases.
  - intros u. rewrite evidence_unknown. case_decide; [by subst|apply Hc].
Qed.

Lemma wf_push_in_flight s x :
  canonical_url x -> evidence s x = EvNone -> wf_delivery s -> wf_delivery (push_in_flight s x).
Proof.
  intros Hx Hn [Ha Hu Hf Hua Hfo Hc]. apply delivery_contains_evidence in Hn.
  unfold delivery_contains in Hn. rewrite !orb_false_iff, !bool_decide_eq_false in Hn.
  destruct Hn as [[Hna Hnu] Hnf]. split; cbn; try done.
  - apply NoDup_app. split_and!; [done|set_solver|apply NoDup_singleton].
  - wf_cases.
  - intros u. rewrite evidence_push. case_decide as Hd; [by destruct Hd as [-> _]|apply Hc].
Qed.

Lemma wf_fail s x :
  wf_delivery s ->
  wf_delivery (mk_delivery (dv_accepted_urls s) (dv_outcome_unknown_urls s)
                 (retain_other x (dv_in_flight_urls s))).
Proof.
  intros [Ha Hu Hf Hua Hfo Hc]. split; cbn; try done.
  - by apply NoDup_retain.
  - wf_cases.
  - intros u. rewrite evidence_fail. case_decide; [done|apply Hc].
Qed.

Lemma wf_add_in_flight s x :
  canonical_url x -> wf_delivery s -> wf_delivery (add_in_flight s x).
Proof.
  intros Hx Hs. unfold add_in_flight. destruct (delivery_contains s x) eqn:E; [done|].
  apply delivery_contains_evidence in E. by apply wf_push_in_flight.
Qed.

Lemma wf_lists s :
  wf_delivery s -> Forall canonical_url (dv_accepted_urls s)
    /\ Forall canonical_url (dv_outcome_unknown_urls s) /\ Forall canonical_url (dv_in_flight_urls s).
Proof.
  intros [_ _ _ _ _ Hc]. split_and!; apply list.Forall_forall; intros x Hx; apply Hc; unfold evidence;
    repeat case_bool_decide; done.
Qed.

Lemma wf_fold (f : ShareDeliveryState -> string -> ShareDeliveryState) l s :
  (forall s x, canonical_url x -> wf_delivery s -> wf_delivery (f s x)) ->
  Forall canonical_url l -> wf_delivery s -> wf_delivery (foldl f s l).
Proof.
  intros Hf Hl. revert s. induction Hl as [|x l Hx Hl IH]; intros s Hs; [done|]. cbn. by apply IH, Hf.
Qed.
End wf.

Lemma fold_accepted_evidence l s u :
  evidence (foldl mark_accepted_canonical s l) u
  = if bool_decide (u ∈ l) then EvAccepted else evidence s u.
Proof.
  revert s. induction l as [|x l IH]; intros s; cbn [foldl]; [done|]. rewrite IH, evidence_accepted.
  repeat case_bool_decide; repeat case_decide; set_solver.
Qed.

Lemma fold_unknown_evidence l s u :
  evidence (foldl mark_outcome_unknown_canonical s l) u
  = if bool_decide (u ∈ l) then (if decide (evidence s u = EvAccepted) then EvAccepted else EvUnknown)
    else evidence s u.
Proof.
  revert s. induction l as [|x l IH]; intros s; cbn [foldl]; [done|]. rewrite IH, !evidence_unknown.
  repeat case_bool_decide; repeat case_decide; set_solver.
Qed.

Lemma fold_in_flight_evidence l s u :
  evidence (foldl add_in_flight s l) u
  = if decide (u ∈ l /\ evidence s u = EvNone) then EvInFlight else evidence s u.
Proof.
  revert s. induction l as [|x l IH]; intros s; cbn [foldl]; [by rewrite decide_False by set_solver|].
  rewrite IH, !evidence_add_in_flight. repeat case_decide; set_solver.
Qed.

Lemma fold_accepted_lists l s :
  NoDup (dv_accepted_urls s ++ l) -> dv_outcome_unknown_urls s = [] -> dv_in_flight_urls s = [] ->
  foldl mark_accepted_canonical s l = mk_delivery (dv_accepted_urls s ++ l) [] [].
Proof.
  revert s. induction l as [|x l IH]; intros [a b c] Hn Hu Hf; cbn in *; subst.
  - by rewrite app_nil_r.
  - assert (push_new a x = a ++ [x]) as Hp.
    { unfold push_new. rewrite bool_decide_false; [done|]. apply NoDup_app in Hn as (_ & Hd & _).
      intros Hx. apply (Hd x Hx). set_solver. }
    unfold mark_accepted_canonical at 2. cbn. rewrite Hp, IH; cbn; try done.
    + by rewrite <- app_assoc.
    + by rewrite <- app_assoc.
Qed.

Lemma fold_unknown_lists l s :
  NoDup (dv_outcome_unknown_urls s ++ l) -> (forall u, u ∈ l -> u ∉ dv_accepted_urls s) ->
  dv_in_flight_urls s = [] ->
  foldl mark_outcome_unknown_canonical s l
  = mk_delivery (dv_accepted_urls s) (dv_outcome_unknown_urls s ++ l) [].
Proof.
  revert s. induction l as [|x l IH]; intros [a b c] Hn Ha Hf; cbn in *; subst.
  - by rewrite app_nil_r.
  - assert (push_new b x = b ++ [x]) as Hp.
    { unfold push_new. rewrite bool_decide_false; [done|]. apply NoDup_app in Hn as (_ & Hd & _).
      intros Hx. apply (Hd x Hx). set_solver. }
    unfold mark_outcome_unknown_canonical at 2. cbn. rewrite bool_decide_false by (apply Ha; set_solver).
    rewrite Hp, IH; cbn; try done.
    + by rewrite <- app_assoc.
    + by rewrite <- app_assoc.
    + set_solver.
Qed.

Lemma fold_in_flight_lists l s :
  NoDup (dv_in_flight_urls s ++ l) ->
  (forall u, u ∈ l -> u ∉ dv_accepted_urls s /\ u ∉ dv_outcome_unknown_urls s) ->
  foldl add_in_flight s l
  = mk_delivery (dv_accepted_urls s) (dv_outcome_unknown_urls s) (dv_in_flight_urls s ++ l).
Proof.
  revert s. induction l as [|x l IH]; intros [a b c] Hn Ha; cbn in *.
  - by rewrite app_nil_r.
  - unfold add_in_flight at 2. rewrite (proj2 (delivery_contains_evidence _ _)).
    + unfold push_in_flight. cbn. rewrite IH; cbn; [by rewrite <- app_assoc|by rewrite <- app_assoc|set_solver].
    + destruct (Ha x) as [Hxa Hxb]; [set_solver|]. unfold evidence. cbn.
      rewrite !bool_decide_false; try done. apply NoDup_app in Hn as (_ & Hd & _).
      intros Hx. apply (Hd x Hx). set_solver.
Qed.

Section lists.
Context `{HelperIdentity}.

Lemma merge_report_spec s a u s' :
  Forall sound_url a -> Forall sound_url u -> wf_delivery s ->
  merge_persisted_report s a u = Ok s' ->
  wf_delivery s' /\ exists a' u', canonical_helper_url_list a = Ok a'
    /\ canonical_helper_url_list u = Ok u'
    /\ s' = foldl mark_outcome_unknown_canonical (foldl mark_accepted_canonical s a') u'.
Proof.
  unfold merge_persisted_report. intros Ha Hu Hs Hm.
  destruct (canonical_helper_url_list a) as [a'|] eqn:Ea; [|done].
  destruct (canonical_helper_url_list u) as [u'|] eqn:Eu; [|done]. simplify_eq.
  apply canonical_list_sound in Ea as Hca; [|done]. apply canonical_list_sound in Eu as Hcu; [|done].
  split; [|eauto].
  apply (wf_fold mark_outcome_unknown_canonical); [intros; by apply wf_mark_unknown|done|].
  apply (wf_fold mark_accepted_canonical); [intros; by apply wf_mark_accepted|done|done].
Qed.

Lemma from_url_lists_spec a u f s :
  Forall sound_url a -> Forall sound_url u -> Forall sound_url f ->
  from_url_lists a u f = Ok s ->
  wf_delivery s /\ exists a' u' f', canonical_helper_url_list a = Ok a'
    /\ canonical_helper_url_list u = Ok u' /\ canonical_helper_url_list f = Ok f'
    /\ forall x, evidence s x
       = if bool_decide (x ∈ a') then EvAccepted else if bool_decide (x ∈ u') then EvUnknown
         else if bool_decide (x ∈ f') then EvInFlight else EvNone.
Proof.
  unfold from_url_lists. intros Ha Hu Hf Hm.
  destruct (merge_persisted_report _ a u) as [s0|] eqn:E0; [|done].
  destruct (merge_report_spec _ _ _ _ Ha Hu wf_no_delivery E0) as (Hw & a' & u' & Ea & Eu & ->).
  destruct (canonical_helper_url_list f) as [f'|] eqn:Ef; [|done]. simplify_eq.
  apply canonical_list_sound in Ef as Hcf; [|done]. split.
  - apply (wf_fold add_in_flight); [intros; by apply wf_add_in_flight|done|done].
  - exists a', u', f'. split_and!; try done. intros x.
    rewrite fold_in_flight_evidence, !fold_unknown_evidence, !fold_accepted_evidence.
    change (evidence no_delivery x) with EvNone.
    repeat case_bool_decide; repeat case_decide; naive_solver.
Qed.

Lemma from_canonical_lists a u f :
  Forall canonical_url a -> Forall canonical_url u -> Forall canonical_url f ->
  exists s, from_url_lists a u f = Ok s.
Proof.
  intros Ha Hu Hf. unfold from_url_lists, merge_persisted_report.
  rewrite !canonical_list_canonical by done. eauto.
Qed.

(** A well-formed state is rebuilt from its own lists. *)
Lemma from_own_lists s :
  wf_delivery s ->
  from_url_lists (dv_accepted_urls s) (dv_outcome_unknown_urls s) (dv_in_flight_urls s) = Ok s.
Proof.
  intros Hw. destruct (wf_lists _ Hw) as (Ca & Cu & Cf). destruct Hw as [Ha Hu Hf Hua Hfo Hc].
  unfold from_url_lists, merge_persisted_report. rewrite !canonical_list_distinct by done.
  rewrite (fold_accepted_lists _ no_delivery) by done.
  rewrite fold_unknown_lists by done. rewrite fold_in_flight_lists by done. by destruct s.
Qed.
End lists.

(** ** Rows *)
Section rows.
Context `{HelperIdentity} `{UrlListJson}.

Definition rejected (u : string) : Prop := exists e, canonicalize u = Err e.

Lemma rejected_sound u : rejected u -> sound_url u.
Proof. intros [e He] v Hv. congruence. Qed.

Lemma partition_spec_gen urls c l :
  Forall canonical_url c -> Forall sound_url urls -> NoDup c -> NoDup l -> Forall rejected l ->
  let p := foldl partition_step (c, l) urls in
  Forall canonical_url p.1 /\ NoDup p.1 /\ NoDup p.2 /\ Forall rejected p.2
  /\ (forall x, x ∈ p.1 <-> x ∈ c \/ exists u, u ∈ urls /\ canonicalize u = Ok x)
  /\ (forall x, x ∈ p.2 <-> x ∈ l \/ x ∈ urls /\ rejected x).
Proof.
  revert c l. induction urls as [|u urls IH]; intros c l Hc Hs Hnc Hnl Hl; cbn [foldl].
  { split_and!; try done; intros x; (split; [by left|]).
    - intros [?|(? & Hw & _)]; [done|by apply elem_of_nil in Hw].
    - intros [?|[Hw _]]; [done|by apply elem_of_nil in Hw]. }
  apply Forall_cons in Hs as [Hu Hs]. unfold partition_step at 2 4 6 8 10 12. cbn [fst snd].
  destruct (canonicalize u) as [v|e] eqn:E.
  - specialize (Hu v E). destruct (IH (push_new c v) l) as (H1 & H2 & H3 & H4 & H5 & H6); try done.
    { apply list.Forall_forall. intros x. rewrite elem_of_push_new. rewrite list.Forall_forall in Hc.
      intros [Hx| ->]; [by apply Hc|done]. }
    { by apply NoDup_push_new. }
    split_and!; try done.
    + intros x. rewrite H5, elem_of_push_new. split.
      * intros [[?| ->]|(w & Hw & Ew)]; [by left|right; exists u|right; exists w]; split; try done; by constructor.
      * intros [?|(w & Hw & Ew)]; [by left; left|]. apply elem_of_cons in Hw as [->|Hw].
        -- left. right. congruence.
        -- right. eauto.
    + intros x. rewrite H6. split.
      * intros [?|[? ?]]; [by left|right; split; [by constructor|done]].
      * intros [?|[Hx Hr]]; [by left|]. apply elem_of_cons in Hx as [->|Hx]; [|by right].
        destruct Hr as [? ?]. congruence.
  - destruct (IH c (push_new l u)) as (H1 & H2 & H3 & H4 & H5 & H6); try done.
    { by apply NoDup_push_new. }
    { apply list.Forall_forall. intros x. rewrite elem_of_push_new. rewrite list.Forall_forall in Hl.
      intros [Hx| ->]; [by apply Hl|by exists e]. }
    split_and!; try done.
    + intros x. rewrite H5. split.
      { intros [?|(w & Hw & Ew)]; [by left|right; exists w; split; [by constructor|done]]. }
      intros [?|(w & Hw & Ew)]; [by left|].
      apply elem_of_cons in Hw as [->|Hw]; [congruence|eauto].
    + intros x. rewrite H6, elem_of_push_new. split.
      * intros [[?| ->]|[? ?]]; [by left| |right; split; [by constructor|done]].
        right. split; [by constructor|by exists e].
      * intros [?|[Hx Hr]]; [by left; left|]. apply elem_of_cons in Hx as [->|Hx]; [by left; right|by right].
Qed.

Lemma partition_spec urls :
  Forall sound_url urls ->
  let p := partition_stored_helper_urls urls in
  Forall canonical_url p.1 /\ NoDup p.1 /\ NoDup p.2 /\ Forall rejected p.2
  /\ (forall x, x ∈ p.1 <-> exists u, u ∈ urls /\ canonicalize u = Ok x).
Proof.
  intros Hs. destruct (partition_spec_gen urls [] []) as (H1 & H2 & H3 & H4 & H5 & _);
    try done; try apply NoDup_nil_2.
  split_and!; try done. intros x. rewrite (H5 x). split; [intros [Hx|?]; [by apply elem_of_nil in Hx|done]|by right].
Qed.

Lemma partition_legacy l c l' :
  NoDup (l' ++ l) -> Forall rejected l -> foldl partition_step (c, l') l = (c, l' ++ l).
Proof.
  revert l'. induction l as [|u l IH]; intros l' Hn Hl; cbn [foldl]; [by rewrite app_nil_r|].
  apply Forall_cons in Hl as [[e He] Hl]. unfold partition_step at 2. rewrite He. cbn [fst snd].
  assert (push_new l' u = l' ++ [u]) as ->.
  { unfold push_new. rewrite bool_decide_false; [done|]. apply NoDup_app in Hn as (_ & Hd & _).
    intros Hx. apply (Hd u Hx). set_solver. }
  rewrite IH; [by rewrite <- app_assoc|by rewrite <- app_assoc|done].
Qed.

(** What is written is what is read. *)
Lemma partition_written c l :
  Forall canonical_url c -> NoDup c -> NoDup l -> Forall rejected l ->
  partition_stored_helper_urls (c ++ l) = (c, l).
Proof.
  intros Hc Hnc Hnl Hl. unfold partition_stored_helper_urls. rewrite foldl_app.
  assert (forall c', NoDup (c' ++ c) -> foldl partition_step (c', []) c = (c' ++ c, [])) as Hg.
  { clear Hnc. induction Hc as [|u c Hu Hc IH]; intros c' Hn; cbn [foldl]; [by rewrite app_nil_r|].
    unfold partition_step at 2. unfold canonical_url in Hu. rewrite Hu. cbn [fst snd].
    assert (push_new c' u = c' ++ [u]) as ->.
    { unfold push_new. rewrite bool_decide_false; [done|]. apply NoDup_app in Hn as (_ & Hd & _).
      intros Hx. apply (Hd u Hx). set_solver. }
    rewrite IH; by rewrite <- app_assoc. }
  rewrite (Hg []) by done. by apply partition_legacy.
Qed.
End rows.

Section stored.
Context `{HelperIdentity} `{UrlListJson}.

(** A row whose lists parse, with identities that are read back as
    themselves. *)
Definition wf_column (json : string) : Prop :=
  exists urls, urls_of_json json = Ok urls /\ Forall sound_url urls.

Definition wf_row (row : ShareRow) : Prop :=
  wf_column (sh_sent_to_urls row) /\ wf_column (sh_ambiguous_urls row)
  /\ wf_column (sh_attempting_urls row).

Definition wf_legacy (l : list string) : Prop := NoDup l /\ Forall rejected l.

Record wf_stored (st : StoredDelivery) : Prop := {
  ws_state : wf_delivery (sv_state st);
  ws_sent : wf_legacy (sv_legacy_sent st);
  ws_ambiguous : wf_legacy (sv_legacy_ambiguous st);
  ws_attempting : wf_legacy (sv_legacy_attempting st)
}.

(** The canonical helpers of a column. *)
Definition column_urls (json : string) : list string :=
  match urls_of_json json with
  | Ok urls => (partition_stored_helper_urls urls).1
  | Err _ => []
  end.

Definition column_legacy (json : string) : list string :=
  match urls_of_json json with
  | Ok urls => (partition_stored_helper_urls urls).2
  | Err _ => []
  end.

Lemma stored_urls_wf json name :
  wf_column json -> stored_urls json name = Ok (column_urls json, column_legacy json).
Proof.
  intros (urls & E & _). unfold stored_urls, parse_url_list, column_urls, column_legacy. rewrite E. cbn.
  by destruct (partition_stored_helper_urls urls).
Qed.

Lemma column_wf json :
  wf_column json ->
  Forall canonical_url (column_urls json) /\ NoDup (column_urls json) /\ wf_legacy (column_legacy json).
Proof.
  intros (urls & E & Hs). unfold column_urls, column_legacy. rewrite E.
  destruct (partition_spec urls Hs) as (H1 & H2 & H3 & H4 & _). done.
Qed.

Lemma column_written c l :
  Forall canonical_url c -> NoDup c -> wf_legacy l ->
  wf_column (serialize_url_list c l) /\ column_urls (serialize_url_list c l) = c
  /\ column_legacy (serialize_url_list c l) = l.
Proof.
  intros Hc Hn [Hnl Hl]. unfold serialize_url_list, wf_column, column_urls, column_legacy.
  rewrite urls_of_json_of_urls, partition_written by done. split_and!; try done.
  exists (c ++ l). split; [done|]. apply Forall_app. split.
  - eapply Forall_impl; [done|]. apply canonical_sound.
  - eapply Forall_impl; [done|]. apply rejected_sound.
Qed.

Lemma load_wf row :
  wf_row row -> exists st, load_delivery row = Ok st /\ wf_stored st
    /\ sv_legacy_sent st = column_legacy (sh_sent_to_urls row)
    /\ sv_legacy_ambiguous st = column_legacy (sh_ambiguous_urls row)
    /\ sv_legacy_attempting st = column_legacy (sh_attempting_urls row)
    /\ forall x, evidence (sv_state st) x
       = if bool_decide (x ∈ column_urls (sh_sent_to_urls row)) then EvAccepted
         else if bool_decide (x ∈ column_urls (sh_ambiguous_urls row)) then EvUnknown
         else if bool_decide (x ∈ column_urls (sh_attempting_urls row)) then EvInFlight else EvNone.
Proof.
  intros (Hs & Ha & Ht). unfold load_delivery. rewrite !stored_urls_wf by done.
  destruct (column_wf _ Hs) as (Cs & Ns & Ls). destruct (column_wf _ Ha) as (Ca & Na & La).
  destruct (column_wf _ Ht) as (Ct & Nt & Lt).
  destruct (from_canonical_lists _ _ _ Cs Ca Ct) as [s E]. rewrite E.
  assert (forall l, Forall canonical_url l -> Forall sound_url l) as Hsound.
  { intros l Hl. eapply Forall_impl; [done|]. apply canonical_sound. }
  destruct (from_url_lists_spec _ _ _ _ (Hsound _ Cs) (Hsound _ Ca) (Hsound _ Ct) E)
    as (Hw & a' & u' & f' & E1 & E2 & E3 & Hev).
  rewrite canonical_list_distinct in E1, E2, E3 by done. simplify_eq.
  eexists. split; [done|]. by split_and!.
Qed.

(** A row written with a well-formed state is read back as that state. *)
Lemma load_written st row :
  wf_stored st ->
  sh_sent_to_urls row = serialize_url_list (dv_accepted_urls (sv_state st)) (sv_legacy_sent st) ->
  sh_ambiguous_urls row
  = serialize_url_list (dv_outcome_unknown_urls (sv_state st)) (sv_legacy_ambiguous st) ->
  sh_attempting_urls row
  = serialize_url_list (dv_in_flight_urls (sv_state st)) (sv_legacy_attempting st) ->
  wf_row row /\ load_delivery row = Ok st.
Proof.
  intros [Hw Hs Ha Ht] E1 E2 E3. pose proof Hw as [Wa Wu Wf _ _ Wc].
  destruct (wf_lists _ Hw) as (Ca & Cu & Cf).
  destruct (column_written _ _ Ca Wa Hs) as (C1 & C2 & C3).
  destruct (column_written _ _ Cu Wu Ha) as (D1 & D2 & D3).
  destruct (column_written _ _ Cf Wf Ht) as (F1 & F2 & F3).
  rewrite <- E1 in C1, C2, C3. rewrite <- E2 in D1, D2, D3. rewrite <- E3 in F1, F2, F3.
  split; [done|]. unfold load_delivery. rewrite !stored_urls_wf by done.
  rewrite C2, C3, D2, D3, F2, F3, from_own_lists by done. by destruct st.
Qed.

(** The evidence that a row holds for a helper. *)
Definition row_evidence (row : ShareRow) (url : string) : Evidence :=
  match load_delivery row with
  | Ok st => evidence (sv_state st) url
  | Err _ => EvNone
  end.

Lemma row_evidence_columns row x :
  wf_row row ->
  row_evidence row x
  = if bool_decide (x ∈ column_urls (sh_sent_to_urls row)) then EvAccepted
    else if bool_decide (x ∈ column_urls (sh_ambiguous_urls row)) then EvUnknown
    else if bool_decide (x ∈ column_urls (sh_attempting_urls row)) then EvInFlight else EvNone.
Proof.
  intros Hw. unfold row_evidence. destruct (load_wf _ Hw) as (st & -> & _ & _ & _ & _ & Hev). apply Hev.
Qed.

(** The same lists carry the same evidence. *)
Lemma same_delivery_spec seen row :
  same_delivery seen row = true <->
  sh_nullifier row = sh_nullifier seen /\ sh_sent_to_urls row = sh_sent_to_urls seen
  /\ sh_ambiguous_urls row = sh_ambiguous_urls seen /\ sh_attempting_urls row = sh_attempting_urls seen.
Proof. unfold same_delivery. rewrite !andb_true_iff, !bool_decide_eq_true. tauto. Qed.

Lemma load_same_lists seen row :
  sh_sent_to_urls row = sh_sent_to_urls seen -> sh_ambiguous_urls row = sh_ambiguous_urls seen ->
  sh_attempting_urls row = sh_attempting_urls seen ->
  load_delivery row = load_delivery seen /\ (wf_row seen -> wf_row row).
Proof. unfold load_delivery, wf_row. by intros -> -> ->. Qed.
End stored.

(** ** The loop *)
Section loops.
Context `{Externals} `{SqliteText} `{DomainExternals} `{HelperIdentity} `{UrlListJson}.

(** The database after the first [k] changes of the other connections. *)
Definition seen_after (others : list (ShareDb -> ShareDb)) (k : nat) (db : ShareDb) : ShareDb :=
  foldl (fun db other => other db) db (take k others).

Lemma seen_after_cons other others k db :
  seen_after (other :: others) (S k) db = seen_after others k (other db).
Proof. done. Qed.

(** A pass read the database at one point, and wrote to the database that the
    next change of the others left. *)
Lemma retry_spec {A} id (step : ShareDb -> result (Attempt A) VotingError) others db r db' :
  retry_until_applied id step others db = Some (r, db') ->
  exists k,
    (exists e, step (seen_after others k db) = Err e /\ r = Err e /\ db' = seen_after others k db)
    \/ (exists a, step (seen_after others k db) = Ok (Settled a) /\ r = Ok a
          /\ db' = seen_after others k db)
    \/ (exists attempt, step (seen_after others k db) = Ok attempt
          /\ ((exists a, apply_attempt id attempt (seen_after others (S k) db) = Ok (Some (a, db'))
                 /\ r = Ok a)
              \/ (exists e, apply_attempt id attempt (seen_after others (S k) db) = Err e
                 /\ r = Err e /\ db' = seen_after others (S k) db))).
Proof.
  revert db. induction others as [|other others IH]; intros db Hr; cbn [retry_until_applied] in Hr.
  - exists 0%nat. destruct (step db) as [attempt|e] eqn:E; [|left; by simplify_eq; eauto].
    destruct attempt as [a|obs w an|row an]; [right; left; simplify_eq; eauto|right; right..].
    all: eexists; split; [done|]; destruct (apply_attempt _ _ _) as [[[a d]|]|e] eqn:Ea; simplify_eq; eauto.
  - destruct (step db) as [attempt|e] eqn:E; [|exists 0%nat; left; by simplify_eq; eauto].
    destruct attempt as [a|obs w an|row an]; [exists 0%nat; right; left; simplify_eq; eauto|..].
    all: destruct (apply_attempt _ _ _) as [[[a d]|]|e] eqn:Ea; simplify_eq.
    1,4: exists 0%nat; right; right; eexists; split; [done|]; left; eauto.
    2,4: exists 0%nat; right; right; eexists; split; [done|]; right; eauto.
    all: destruct (IH _ Hr) as (k & Hk); by exists (S k).
Qed.

(** A loop whose writes apply to what it read returns, whatever the others
    do. *)
Lemma retry_returns {A} id (step : ShareDb -> result (Attempt A) VotingError) others db :
  (forall db attempt, step db = Ok attempt -> apply_attempt id attempt db <> Ok None) ->
  exists r db', retry_until_applied id step others db = Some (r, db').
Proof.
  intros Hs. revert db. induction others as [|other others IH]; intros db; cbn [retry_until_applied].
  all: destruct (step db) as [attempt|e] eqn:E; [|by eauto].
  all: destruct attempt as [a|obs w an|row an]; [by eauto|..].
  all: destruct (apply_attempt _ _ _) as [[[a d]|]|e] eqn:Ea; try (by eauto); try apply IH.
  all: by destruct (Hs _ _ E).
Qed.

(** ** What a write may do to a row

    [cleared] is the helper whose request definitely failed, if any. *)
Definition legacy_urls (row : ShareRow) : list string :=
  column_legacy (sh_sent_to_urls row) ++ column_legacy (sh_ambiguous_urls row)
  ++ column_legacy (sh_attempting_urls row).

Record strengthens (cleared : option string) (row row' : ShareRow) : Prop := {
  st_wf : wf_row row';
  st_nullifier : sh_nullifier row' = sh_nullifier row;
  st_created : sh_created_at row' = sh_created_at row;
  st_confirmed : sh_confirmed row = true -> sh_confirmed row' = true;
  st_target : sh_target_count row <= sh_target_count row';
  st_submit : sh_submit_at row' = sh_submit_at row \/ sh_submit_at row' = 0;
  st_evidence : forall u,
    (strength (row_evidence row u) <= strength (row_evidence row' u))%nat
    \/ cleared = Some u /\ row_evidence row u = EvInFlight /\ row_evidence row' u = EvNone;
  st_legacy : forall u, u ∈ legacy_urls row -> u ∈ legacy_urls row'
}.

Definition wf_db (db : ShareDb) : Prop :=
  forall id row, sd_shares db !! id = Some row -> wf_row row.

(** What one pass may ask for, given that the database it read is sound. *)
Definition sound_attempt {A} (cleared : option string) (attempt : Attempt A) : Prop :=
  match attempt with
  | Settled _ => True
  | CompareAndSet observed write _ =>
      forall row, wf_row row -> observed row = true -> strengthens cleared row (write row)
  | InsertNew row _ => wf_row row /\ sh_confirmed row = false
  end.

Lemma strengthens_refl cleared row : wf_row row -> strengthens cleared row row.
Proof. intros Hw. split; try done; [by left|by intros u; left]. Qed.

(** The whole of one operation: at some point after some of the others'
    changes it changed its own row as allowed, inserted a row where there was
    none, or changed nothing. *)
Definition ledger_change (cleared : option string) (id : ShareId) (others : list (ShareDb -> ShareDb))
    (db db' : ShareDb) : Prop :=
  exists k, let seen := seen_after others k db in
    db' = seen
    \/ (exists row row', sd_shares seen !! id = Some row /\ strengthens cleared row row'
          /\ db' = put_share seen id row')
    \/ (exists row, sd_shares seen !! id = None /\ wf_row row /\ sh_confirmed row = false
          /\ db' = put_share seen id row).

Lemma retry_change {A} cleared id (step : ShareDb -> result (Attempt A) VotingError) others db r db' :
  (forall k, wf_db (seen_after others k db)) ->
  (forall db attempt, wf_db db -> step db = Ok attempt -> sound_attempt cleared attempt) ->
  retry_until_applied id step others db = Some (r, db') ->
  ledger_change cleared id others db db'.
Proof.
  intros Hwf Hs Hr. destruct (retry_spec _ _ _ _ _ _ Hr) as (k & Hk).
  destruct Hk as [(e & _ & _ & ->)|[(a & _ & _ & ->)|(attempt & Ht & Hk)]].
  { exists k. by left. }
  { exists k. by left. }
  specialize (Hs _ _ (Hwf k) Ht). exists (S k). destruct Hk as [(a & Ha & _)|(e & _ & _ & ->)]; [|by left].
  unfold apply_attempt in Ha. destruct attempt as [b|obs w an|row an]; cbn in Hs.
  - simplify_eq. by left.
  - destruct (sd_shares _ !! id) as [row|] eqn:Er; [|done]. destruct (obs row) eqn:Eo; [|done].
    simplify_eq. right. left. exists row, (w row). split_and!; [done| |done]. apply Hs; [|done]. by eapply Hwf.
  - destruct (bind_u64 _); [|done]. destruct (bind_u64 _); [|done].
    destruct (sd_shares _ !! id) as [row'|] eqn:Er; [done|]. destruct (bundle_present _ _); [|done].
    simplify_eq. right. right. destruct Hs. by exists row.
Qed.
End loops.

(** ** Each statement *)
Section statements.
Context `{Externals} `{SqliteText} `{DomainExternals} `{HelperIdentity} `{UrlListJson}.

Lemma in_flight_evidence s x : wf_delivery s -> x ∈ dv_in_flight_urls s <-> evidence s x = EvInFlight.
Proof. intros [_ _ _ _ Hfo _]. unfold evidence. repeat case_bool_decide; naive_solver. Qed.

(** Only the attempts of a row are rewritten. *)
Lemma rewrite_attempts row json :
  wf_row row -> wf_column json ->
  let row' := with_attempting json row in
  wf_row row'
  /\ (forall u, row_evidence row' u
       = if bool_decide (u ∈ column_urls (sh_sent_to_urls row)) then EvAccepted
         else if bool_decide (u ∈ column_urls (sh_ambiguous_urls row)) then EvUnknown
         else if bool_decide (u ∈ column_urls json) then EvInFlight else EvNone).
Proof.
  intros (Hs & Ha & _) Hj. assert (wf_row (with_attempting json row)) as Hw by done.
  split; [done|]. intros u. by rewrite row_evidence_columns.
Qed.

Lemma attempting_sound id server placement target policy expected db attempt :
  canonical_url server -> wf_db db ->
  attempting_step id server placement target policy expected db = Ok attempt ->
  match attempt with
  | Settled a => a <> Started
  | CompareAndSet observed write answer =>
      forall row, wf_row row -> observed row = true ->
        answer row = Started /\ other_generation expected row = false /\ sh_confirmed row = false
        /\ row_evidence row server = EvNone
        /\ (exists st, load_delivery row = Ok st
              /\ (policy = EnforcePlacementTarget -> (reserved_placements (sv_state st) placement < target)%nat))
        /\ strengthens None row (write row)
        /\ forall u, row_evidence (write row) u
             = if decide (u = server) then EvInFlight else row_evidence row u
  | InsertNew _ _ => False
  end.
Proof.
  intros Hc Hdb. unfold attempting_step. destruct (sd_shares db !! id) as [seen|] eqn:Hrow; [|by intros [= <-]].
  pose proof (Hdb _ _ Hrow) as Hwf. destruct (other_generation expected seen) eqn:Hg; [by intros [= <-]|].
  destruct (ensure_share_matches_ballot_intent _ _); [|done].
  destruct (load_wf _ Hwf) as (st & Hl & Hst & _ & _ & Hleg & Hev). rewrite Hl.
  destruct (_ || _) eqn:Hnone; [by intros [= <-]|]. apply orb_false_iff in Hnone as [_ Hno].
  destruct (placement_capacity_reached _ _ _ _) eqn:Hcap; [by intros [= <-]|].
  unfold delivery_begin. unfold canonical_url in Hc. rewrite Hc, Hno. intros [= <-].
  cbn [dv_in_flight_urls push_in_flight].
  intros row Hw Hobs. apply andb_true_iff in Hobs as [Hunc Hsame]. apply negb_true_iff in Hunc.
  apply same_delivery_spec in Hsame as (En & Es & Ea & Et).
  destruct (load_same_lists seen row Es Ea Et) as [Hl' _].
  apply delivery_contains_evidence in Hno as Hev0.
  pose proof (wf_push_in_flight _ _ Hc Hev0 (ws_state _ Hst)) as Hwp.
  destruct (wf_lists _ Hwp) as (_ & _ & Cf).
  destruct (column_written _ _ Cf (wd_in_flight _ Hwp) (ws_attempting _ Hst)) as (J1 & J2 & J3).
  destruct (rewrite_attempts row _ Hw J1) as [Hw' Hev'].
  assert (forall u, row_evidence row u = evidence (sv_state st) u) as Hre.
  { intros u. unfold row_evidence. by rewrite Hl', Hl. }
  assert (forall u, row_evidence (with_attempting (serialize_url_list
      (dv_in_flight_urls (push_in_flight (sv_state st) server)) (sv_legacy_attempting st)) row) u
      = if decide (u = server) then EvInFlight else row_evidence row u) as Hfin.
  { intros u. rewrite Hev', Es, Ea, J2, Hre, Hev.
    pose proof (in_flight_evidence _ u (ws_state _ Hst)) as Hin. rewrite Hev in Hin. rewrite Hev in Hev0.
    cbn [push_in_flight dv_in_flight_urls].
    assert (u ∈ dv_in_flight_urls (sv_state st) ++ [server]
            <-> u ∈ dv_in_flight_urls (sv_state st) \/ u = server) as Happ
      by (by rewrite elem_of_app, list_elem_of_singleton).
    repeat case_bool_decide; repeat case_decide; subst; naive_solver. }
  assert (other_generation expected row = false) as Hgen.
  { revert Hg. unfold other_generation. destruct expected; [|done]. by rewrite En. }
  split_and!; try done.
  - by rewrite Hre.
  - exists st. split; [by rewrite Hl'|]. intros ->. by apply Nat.leb_gt in Hcap.
  - split; try done.
    + by left.
    + intros u. left. rewrite Hfin. case_decide; [subst; rewrite Hre, Hev0; cbn; lia|done].
    + intros u. unfold legacy_urls. cbn [with_attempting sh_sent_to_urls sh_ambiguous_urls sh_attempting_urls].
      cbn [push_in_flight dv_in_flight_urls] in J3. rewrite J3, Hleg, Et. done.
Qed.
End statements.

Section statements2.
Context `{Externals} `{SqliteText} `{DomainExternals} `{HelperIdentity} `{UrlListJson}.

Definition merged (merge : HelperUrlMerge) (e : Evidence) : Evidence :=
  match merge with
  | DefiniteAcceptance => EvAccepted
  | OutcomeUnknown => if decide (e = EvAccepted) then EvAccepted else EvUnknown
  end.

Lemma merge_url_spec merge s url s' :
  sound_url url -> wf_delivery s -> merge_url merge s url = Ok s' ->
  wf_delivery s' /\ exists v, canonicalize url = Ok v
    /\ forall u, evidence s' u = if decide (u = v) then merged merge (evidence s u) else evidence s u.
Proof.
  intros Hu Hs Hm. unfold merge_url, mark_accepted, mark_outcome_unknown in Hm.
  destruct (canonicalize url) as [v|] eqn:Ev; [|by destruct merge]. specialize (Hu v Ev).
  destruct merge; simplify_eq; split.
  - by apply wf_mark_accepted.
  - exists v. split; [done|]. apply evidence_accepted.
  - by apply wf_mark_unknown.
  - exists v. split; [done|]. apply evidence_unknown.
Qed.

Lemma merged_stronger merge e : (strength e <= strength (merged merge e))%nat.
Proof. destruct merge, e; vm_compute; lia. Qed.

Lemma merge_fold_spec merge urls s s' :
  Forall sound_url urls -> wf_delivery s -> try_fold (merge_url merge) s urls = Ok s' ->
  wf_delivery s' /\ forall u, (strength (evidence s u) <= strength (evidence s' u))%nat
    /\ ((forall url, url ∈ urls -> canonicalize url <> Ok u) -> evidence s' u = evidence s u).
Proof.
  intros Hurls. revert s. induction Hurls as [|url urls Hu Hurls IH]; intros s Hs Hf; cbn [try_fold] in Hf.
  { simplify_eq. split; [done|]. intros u. by split. }
  destruct (merge_url merge s url) as [s1|] eqn:E; [|done].
  destruct (merge_url_spec _ _ _ _ Hu Hs E) as (Hw & v & Ev & Hev).
  destruct (IH _ Hw Hf) as [Hw' Hall]. split; [done|]. intros u. destruct (Hall u) as [Hle Heq].
  rewrite Hev in Hle, Heq. pose proof (merged_stronger merge (evidence s u)). split.
  - case_decide; lia.
  - intros Hno. rewrite Heq.
    + rewrite decide_False; [done|]. intros ->. by apply (Hno url); [constructor|].
    + intros x Hx. apply Hno. by constructor.
Qed.

(** A row rewritten with a stronger state. *)
Lemma rewrite_delivery row st st' target submit cleared :
  wf_row row -> load_delivery row = Ok st -> wf_stored st' ->
  sh_target_count row <= target -> submit = sh_submit_at row \/ submit = 0 ->
  (forall u, (strength (evidence (sv_state st) u) <= strength (evidence (sv_state st') u))%nat) ->
  (forall u, u ∈ legacy_urls row ->
     u ∈ sv_legacy_sent st' ++ sv_legacy_ambiguous st' ++ sv_legacy_attempting st') ->
  let row' := with_delivery
    (serialize_url_list (dv_accepted_urls (sv_state st')) (sv_legacy_sent st'))
    (serialize_url_list (dv_outcome_unknown_urls (sv_state st')) (sv_legacy_ambiguous st'))
    (serialize_url_list (dv_in_flight_urls (sv_state st')) (sv_legacy_attempting st')) target submit row in
  strengthens cleared row row' /\ forall u, row_evidence row' u = evidence (sv_state st') u.
Proof.
  intros Hw Hl Hst' Ht Hsub Hev Hleg row'. destruct (load_written st' row' Hst') as [Hw' Hl']; try done.
  assert (forall u, row_evidence row' u = evidence (sv_state st') u) as Hr
    by (intros u; unfold row_evidence; by rewrite Hl').
  split; [|done]. split; try done.
  - intros u. left. rewrite Hr. unfold row_evidence. rewrite Hl. apply Hev.
  - intros u Hu. destruct (load_wf _ Hw') as (st2 & E & _ & L1 & L2 & L3 & _).
    rewrite Hl' in E. simplify_eq. unfold legacy_urls. rewrite <- L1, <- L2, <- L3. by apply Hleg.
Qed.

Lemma merge_sound id urls merge reset expected db attempt :
  Forall sound_url urls -> wf_db db ->
  merge_step id urls merge reset expected db = Ok attempt ->
  match attempt with
  | Settled a => a = false
  | CompareAndSet observed write answer =>
      forall row, wf_row row -> observed row = true ->
        answer row = true /\ other_generation expected row = false
        /\ strengthens None row (write row)
        /\ sh_submit_at (write row) = (if reset then 0 else sh_submit_at row)
        /\ exists st st', load_delivery row = Ok st /\ try_fold (merge_url merge) (sv_state st) urls = Ok st'
             /\ forall u, row_evidence (write row) u = evidence st' u
  | InsertNew _ _ => False
  end.
Proof.
  intros Hurls Hdb. unfold merge_step. destruct (sd_shares db !! id) as [seen|] eqn:Hrow; [|by intros [= <-]].
  pose proof (Hdb _ _ Hrow) as Hwf. destruct (other_generation expected seen) eqn:Hg; [by intros [= <-]|].
  destruct (ensure_share_matches_ballot_intent _ _); [|done].
  destruct (load_wf _ Hwf) as (st & Hl & Hst & L1 & L2 & L3 & Hev). rewrite Hl.
  destruct (try_fold _ _ _) as [s'|] eqn:Hf; [|done]. intros [= <-].
  destruct (merge_fold_spec _ _ _ _ Hurls (ws_state _ Hst) Hf) as [Hw' Hev'].
  intros row Hw Hobs. apply same_delivery_spec in Hobs as (En & Es & Ea & Et).
  destruct (load_same_lists seen row Es Ea Et) as [Hl' _].
  set (st' := mk_stored_delivery s' (sv_legacy_sent st) (sv_legacy_ambiguous st) (sv_legacy_attempting st)).
  assert (wf_stored st') as Hst' by (by destruct Hst).
  destruct (rewrite_delivery row st st' (sh_target_count row)
              (if reset then 0 else sh_submit_at row) None) as [Hstr Hr]; try done.
  - by rewrite Hl'.
  - destruct reset; auto.
  - intros u. apply Hev'.
  - intros u. unfold legacy_urls. rewrite Es, Ea, Et. cbn. by rewrite L1, L2, L3.
  - split_and!; try done.
    + revert Hg. unfold other_generation. destruct expected; [|done]. by rewrite En.
    + exists st, s'. split_and!; try done. by rewrite Hl'.
Qed.

Lemma removal_sound id server expected db attempt :
  sound_url server -> wf_db db -> removal_step id server expected db = Ok attempt ->
  match attempt with
  | Settled a => a = false
  | CompareAndSet observed write answer =>
      exists v, canonicalize server = Ok v /\
      forall row, wf_row row -> observed row = true ->
        answer row = true /\ other_generation expected row = false /\ strengthens (Some v) row (write row)
        /\ sh_submit_at (write row) = sh_submit_at row
        /\ forall u, row_evidence (write row) u
             = if decide (u = v /\ row_evidence row u = EvInFlight) then EvNone else row_evidence row u
  | InsertNew _ _ => False
  end.
Proof.
  intros Hs Hdb. unfold removal_step. destruct (sd_shares db !! id) as [seen|] eqn:Hrow; [|by intros [= <-]].
  pose proof (Hdb _ _ Hrow) as Hwf. destruct (other_generation expected seen) eqn:Hg; [by intros [= <-]|].
  destruct (ensure_share_matches_ballot_intent _ _); [|done]. pose proof Hwf as (_ & _ & Ht).
  rewrite stored_urls_wf by done. destruct (column_wf _ Ht) as (Ct & Nt & Lt).
  pose proof (from_own_lists (mk_delivery [] [] (column_urls (sh_attempting_urls seen)))) as Hown.
  cbn [dv_accepted_urls dv_outcome_unknown_urls dv_in_flight_urls] in Hown. rewrite Hown.
  2: { split; cbn; try apply NoDup_nil_2; try done; try set_solver.
       intros u Hne. rewrite list.Forall_forall in Ct. apply Ct. revert Hne. unfold evidence. cbn.
       repeat case_bool_decide; try done; set_solver. }
  unfold mark_definite_failure. destruct (canonicalize server) as [v|] eqn:Ev; [|done].
  cbn [dv_in_flight_urls]. intros [= <-]. exists v. split; [done|].
  intros row Hw Hobs. apply same_delivery_spec in Hobs as (En & Es & Ea & Et).
  assert (Forall canonical_url (retain_other v (column_urls (sh_attempting_urls seen)))) as Cr.
  { apply list.Forall_forall. intros u Hu. apply elem_of_retain_other in Hu as [_ Hu].
    rewrite list.Forall_forall in Ct. by apply Ct. }
  destruct (column_written _ _ Cr (NoDup_retain v _ Nt) Lt) as (J1 & J2 & J3).
  destruct (rewrite_attempts row _ Hw J1) as [Hw' Hev'].
  assert (forall u, row_evidence (with_attempting (serialize_url_list
      (retain_other v (column_urls (sh_attempting_urls seen))) (column_legacy (sh_attempting_urls seen))) row) u
      = if decide (u = v /\ row_evidence row u = EvInFlight) then EvNone else row_evidence row u) as Hfin.
  { intros u. rewrite Hev', J2, row_evidence_columns, Et by done.
    pose proof (elem_of_retain_other u v (column_urls (sh_attempting_urls seen))) as Hret.
    repeat case_bool_decide; repeat case_decide; naive_solver. }
  split_and!; try done.
  - revert Hg. unfold other_generation. destruct expected; [|done]. by rewrite En.
  - split; try done; [by left| |].
    + intros u. rewrite Hfin. case_decide as Hd; [|by left]. destruct Hd as [-> Hin]. by right.
    + intros u. unfold legacy_urls. cbn [with_attempting sh_sent_to_urls sh_ambiguous_urls sh_attempting_urls].
      by rewrite J3, Et.
Qed.
End statements2.

Section statements3.
Context `{Externals} `{SqliteText} `{DomainExternals} `{HelperIdentity} `{UrlListJson}.

Lemma merge_report_stronger s a u s' x :
  Forall sound_url a -> Forall sound_url u -> wf_delivery s ->
  merge_persisted_report s a u = Ok s' ->
  (strength (evidence s x) <= strength (evidence s' x))%nat.
Proof.
  intros Ha Hu Hs Hm. destruct (merge_report_spec _ _ _ _ Ha Hu Hs Hm) as (_ & a' & u' & _ & _ & ->).
  rewrite fold_unknown_evidence, !fold_accepted_evidence.
  repeat case_bool_decide; repeat case_decide; destruct (evidence s x); cbn; try lia; done.
Qed.

Lemma wf_legacy_filter (P : string -> Prop) `{forall x, base.Decision (P x)} l :
  wf_legacy l -> wf_legacy (filter P l).
Proof.
  intros [Hn Hr]. split; [by apply NoDup_filter|]. apply list.Forall_forall. intros x.
  rewrite list_elem_of_filter. rewrite list.Forall_forall in Hr. intros [_ Hx]. by apply Hr.
Qed.

Lemma fresh_row_wf sent amb s target nullifier submit created :
  Forall sound_url sent -> Forall sound_url amb -> from_url_lists sent amb [] = Ok s ->
  wf_row (mk_share_row (serialize_url_list (dv_accepted_urls s) [])
            (serialize_url_list (dv_outcome_unknown_urls s) []) (serialize_url_list [] [])
            target nullifier false submit created).
Proof.
  intros Hs Ha Hf. destruct (from_url_lists_spec _ _ [] _ Hs Ha ltac:(by constructor) Hf) as [Hw _].
  assert (dv_in_flight_urls s = []) as Hnil.
  { unfold from_url_lists in Hf. destruct (merge_persisted_report _ _ _) as [s0|] eqn:E; [|done].
    destruct (merge_report_spec _ _ _ _ Hs Ha wf_no_delivery E) as (_ & a' & u' & _ & _ & ->).
    cbn in Hf. simplify_eq. clear. revert u'. assert (forall u' s, dv_in_flight_urls s = [] ->
      dv_in_flight_urls (foldl mark_outcome_unknown_canonical s u') = []) as Hg.
    { induction u' as [|x u' IH]; intros s Hs; [done|]. cbn. apply IH. cbn. by rewrite Hs. }
    intros u'. apply Hg. assert (forall a' s, dv_in_flight_urls s = [] ->
      dv_in_flight_urls (foldl mark_accepted_canonical s a') = []) as Hg'.
    { induction a'0 as [|x a'0 IH]; intros s Hs; [done|]. cbn. apply IH. cbn. by rewrite Hs. }
    by apply Hg'. }
  assert (wf_legacy []) as Hnone by (split; [apply NoDup_nil_2|constructor]).
  eapply (load_written (mk_stored_delivery s [] [] [])); cbn; [by split|done|done|by rewrite Hnil].
Qed.

Lemma record_sound id sent amb target nullifier submit created db attempt :
  Forall sound_url sent -> Forall sound_url amb -> wf_db db ->
  record_step id sent amb target nullifier submit created db = Ok attempt ->
  sound_attempt None attempt.
Proof.
  intros Hs Ha Hdb. unfold record_step. destruct (sd_shares db !! id) as [seen|] eqn:Hrow.
  2: { destruct (from_url_lists sent amb []) as [s|] eqn:Hf; [|done]. intros [= <-].
       split; [|done]. by apply (fresh_row_wf sent amb). }
  pose proof (Hdb _ _ Hrow) as Hwf. case_bool_decide as Hn; [by destruct id as [[[[? ?] ?] ?] ?]|].
  destruct (load_wf _ Hwf) as (st & Hl & Hst & L1 & L2 & L3 & Hev). rewrite Hl.
  destruct (merge_persisted_report _ sent amb) as [s'|] eqn:Hm; [|done]. intros [= <-].
  intros row Hw Hobs. apply andb_true_iff in Hobs as [Hobs Htc]. apply Z.eqb_eq in Htc.
  apply same_delivery_spec in Hobs as (En & Es & Eamb & Et).
  destruct (load_same_lists seen row Es Eamb Et) as [Hl' _].
  set (la := filter (fun url => url ∉ sv_legacy_sent st) (sv_legacy_ambiguous st)).
  set (lt := filter (fun url => url ∉ sv_legacy_sent st /\ url ∉ la) (sv_legacy_attempting st)).
  set (st' := mk_stored_delivery s' (sv_legacy_sent st) la lt).
  assert (wf_stored st') as Hst'.
  { destruct Hst as [W1 W2 W3 W4]. split; cbn; try done.
    - by apply (merge_report_spec _ _ _ _ Hs Ha W1 Hm).
    - by apply wf_legacy_filter.
    - by apply wf_legacy_filter. }
  destruct (rewrite_delivery row st st' (Z.max (sh_target_count seen) target)
              (sh_submit_at row) None) as [Hstr _]; try done; auto.
  - by rewrite Hl'.
  - lia.
  - intros u. by apply (merge_report_stronger _ _ _ _ u Hs Ha (ws_state _ Hst) Hm).
  - intros u. unfold legacy_urls. rewrite Es, Eamb, Et, <- L1, <- L2, <- L3. cbn.
    subst lt la. rewrite !elem_of_app, !list_elem_of_filter.
    destruct (decide (u ∈ sv_legacy_sent st)); [by left|].
    destruct (decide (u ∈ sv_legacy_ambiguous st)); [by right; left|]. naive_solver.
Qed.

(** The writes of every statement apply to the row they read. *)
Lemma same_delivery_refl row : same_delivery row row = true.
Proof. by apply same_delivery_spec. Qed.

Lemma attempting_applies id server placement target policy expected db attempt :
  attempting_step id server placement target policy expected db = Ok attempt ->
  apply_attempt id attempt db <> Ok None.
Proof.
  unfold attempting_step. destruct (sd_shares db !! id) as [row|] eqn:Hrow; [|by intros [= <-]].
  destruct (other_generation expected row); [by intros [= <-]|].
  destruct (ensure_share_matches_ballot_intent _ _); [|done]. destruct (load_delivery row); [|done].
  destruct (_ || _) eqn:E; [by intros [= <-]|]. apply orb_false_iff in E as [Hc _].
  destruct (placement_capacity_reached _ _ _ _); [by intros [= <-]|].
  destruct (delivery_begin _ _) as [[? ?]|]; [|done]. intros [= <-].
  unfold apply_attempt. by rewrite Hrow, same_delivery_refl, Hc.
Qed.

Lemma removal_applies id server expected db attempt :
  removal_step id server expected db = Ok attempt -> apply_attempt id attempt db <> Ok None.
Proof.
  unfold removal_step. destruct (sd_shares db !! id) as [row|] eqn:Hrow; [|by intros [= <-]].
  destruct (other_generation expected row); [by intros [= <-]|].
  destruct (ensure_share_matches_ballot_intent _ _); [|done].
  destruct (stored_urls _ _) as [[? ?]|]; [|done]. destruct (from_url_lists _ _ _); [|done].
  destruct (mark_definite_failure _ _); [|done]. intros [= <-]. unfold apply_attempt. by rewrite Hrow, same_delivery_refl.
Qed.

Lemma merge_applies id urls merge reset expected db attempt :
  merge_step id urls merge reset expected db = Ok attempt -> apply_attempt id attempt db <> Ok None.
Proof.
  unfold merge_step. destruct (sd_shares db !! id) as [row|] eqn:Hrow; [|by intros [= <-]].
  destruct (other_generation expected row); [by intros [= <-]|].
  destruct (ensure_share_matches_ballot_intent _ _); [|done]. destruct (load_delivery row); [|done].
  destruct (try_fold _ _ _); [|done]. intros [= <-]. unfold apply_attempt. by rewrite Hrow, same_delivery_refl.
Qed.

Lemma record_applies id sent amb target nullifier submit created db attempt :
  record_step id sent amb target nullifier submit created db = Ok attempt ->
  apply_attempt id attempt db <> Ok None.
Proof.
  unfold record_step. destruct (sd_shares db !! id) as [row|] eqn:Hrow.
  - case_bool_decide; [by destruct id as [[[[? ?] ?] ?] ?]|]. destruct (load_delivery row); [|done].
    destruct (merge_persisted_report _ _ _); [|done]. intros [= <-].
    unfold apply_attempt. by rewrite Hrow, same_delivery_refl, Z.eqb_refl.
  - destruct (from_url_lists _ _ _); [|done]. intros [= <-]. unfold apply_attempt. rewrite Hrow.
    repeat case_match; done.
Qed.
End statements3.

(** ** The ledger *)
Inductive LedgerOperation :=
| OpBegin (server : string) (placement : list string) (target : nat)
    (policy : ShareAttemptCapacityPolicy) (expected : option (list Z))
| OpRemove (server : string) (expected : option (list Z))
| OpMerge (urls : list string) (merge : HelperUrlMerge) (reset_submit_at : bool)
    (expected : option (list Z))
| OpRecord (sent ambiguous : list string) (target : Z) (nullifier : list Z) (submit_at created_at : Z)
| OpConfirm (expected : option (list Z)).

Section ledger.
Context `{Externals} `{SqliteText} `{DomainExternals} `{HelperIdentity} `{UrlListJson}.

(** A confirmation reads and writes in one immediate transaction. *)
Definition run_ledger (op : LedgerOperation) (id : ShareId) (others : list (ShareDb -> ShareDb))
    (db : ShareDb) : option ShareDb :=
  match op with
  | OpBegin server placement target policy expected =>
      snd <$> add_attempting_server_for_generation id server placement target policy expected others db
  | OpRemove server expected =>
      snd <$> remove_attempting_server_for_generation id server expected others db
  | OpMerge urls merge reset expected =>
      snd <$> merge_share_delegation_urls id urls merge reset expected others db
  | OpRecord sent ambiguous target nullifier submit_at created_at =>
      snd <$> record_share_delegation_inner id sent ambiguous target nullifier submit_at created_at
                others db
  | OpConfirm expected => Some (mark_share_confirmed id expected db).2
  end.

(** The helpers named by an operation have stable identities. *)
Definition sound_operation (op : LedgerOperation) : Prop :=
  match op with
  | OpBegin server _ _ _ _ | OpRemove server _ => sound_url server
  | OpMerge urls _ _ _ => Forall sound_url urls
  | OpRecord sent ambiguous _ _ _ _ => Forall sound_url sent /\ Forall sound_url ambiguous
  | OpConfirm _ => True
  end.

Definition cleared_by (op : LedgerOperation) : option string :=
  match op with
  | OpRemove server _ => match canonicalize server with Ok v => Some v | Err _ => None end
  | _ => None
  end.

Lemma change_none cleared id others db : ledger_change cleared id others db db.
Proof. exists 0%nat. by left. Qed.

Lemma confirm_strengthens row : wf_row row -> strengthens None row (with_confirmed row).
Proof.
  intros Hw. split; try done; [by left|]. intros u. left. unfold row_evidence.
  by destruct (load_same_lists row (with_confirmed row) eq_refl eq_refl eq_refl) as [-> _].
Qed.

(** C21 (delivery evidence): Every operation of the delivery ledger returns,
    whatever other connections change between its read and its write, and its
    own change to the row it finds there only strengthens it: a helper that
    accepted the share stays recorded as such, one that may have it is never
    forgotten, only a definite failure removes the helper's own attempt, the
    share's identity stays, a confirmation stays, and no stored entry is
    lost. *)
Theorem ledger_only_strengthens op id others db :
  sound_operation op -> (forall k, wf_db (seen_after others k db)) ->
  exists db', run_ledger op id others db = Some db'
    /\ ledger_change (cleared_by op) id others db db'.
Proof.
  intros Hop Hwf. destruct op as [server placement target policy expected|server expected
    |urls merge reset expected|sent amb target nullifier submit created|expected]; cbn in *.
  - unfold add_attempting_server_for_generation.
    destruct (canonical_helper_url_list placement) as [fleet|]; [|eexists; split; [done|apply change_none]].
    destruct (canonicalize server) as [v|] eqn:Ev; [|eexists; split; [done|apply change_none]].
    case_bool_decide; [|eexists; split; [done|apply change_none]].
    destruct (retry_returns id (attempting_step id v fleet target policy expected) others db) as (r & db' & E).
    { intros. by eapply attempting_applies. }
    rewrite E. eexists. split; [done|]. eapply retry_change; [done| |done].
    intros d attempt Hd Ha. apply attempting_sound in Ha; [|by apply Hop|done].
    destruct attempt; [done| |done]. intros row Hr Ho. by apply Ha.
  - unfold remove_attempting_server_for_generation.
    destruct (retry_returns id (removal_step id server expected) others db) as (r & db' & E).
    { intros. by eapply removal_applies. }
    rewrite E. eexists. split; [done|]. eapply retry_change; [done| |done].
    intros d attempt Hd Ha. apply removal_sound in Ha; [|done..].
    destruct attempt; [done| |done]. destruct Ha as (v & -> & Ha). intros row Hr Ho. by apply Ha.
  - unfold merge_share_delegation_urls.
    destruct (retry_returns id (merge_step id urls merge reset expected) others db) as (r & db' & E).
    { intros. by eapply merge_applies. }
    rewrite E. eexists. split; [done|]. eapply retry_change; [done| |done].
    intros d attempt Hd Ha. apply merge_sound in Ha; [|done..].
    destruct attempt; [done| |done]. intros row Hr Ho. by apply Ha.
  - unfold record_share_delegation_inner. destruct Hop as [Hs Ha].
    destruct (ensure_share_matches_ballot_intent _ _); [|eexists; split; [done|apply change_none]].
    destruct (retry_returns id (record_step id sent amb target nullifier submit created) others db)
      as (r & db' & E). { intros. by eapply record_applies. }
    rewrite E. eexists. split; [done|]. eapply retry_change; [done| |done].
    intros d attempt Hd Hat. by apply (record_sound id sent amb target nullifier submit created d).
  - eexists. split; [done|]. unfold mark_share_confirmed.
    destruct (sd_shares db !! id) as [row|] eqn:Er; [|apply change_none].
    destruct (other_generation _ _); [apply change_none|].
    destruct (ensure_share_matches_ballot_intent _ _); [|apply change_none].
    exists 0%nat. right. left. exists row, (with_confirmed row).
    split_and!; [done| |done]. apply confirm_strengthens. by apply (Hwf 0%nat id).
Qed.

(** What a started reservation knows of the row it wrote. *)
Record reserved (expected : option (list Z)) (policy : ShareAttemptCapacityPolicy) (target : nat)
    (placement : list string) (v : string) (row row' : ShareRow) : Prop := {
  rv_generation : other_generation expected row = false;
  rv_unconfirmed : sh_confirmed row = false;
  rv_none : row_evidence row v = EvNone;
  rv_capacity : policy = EnforcePlacementTarget -> exists st, load_delivery row = Ok st
    /\ (reserved_placements (sv_state st) placement < target)%nat;
  rv_strengthens : strengthens None row row';
  rv_evidence : forall u, row_evidence row' u = if decide (u = v) then EvInFlight else row_evidence row u
}.

(** Reservations: A reservation is granted on the row it is written to and
    not only on the row that was read: with any changes of other connections
    in between, at the write the row is of the expected generation and
    unconfirmed, the helper has no record, and the target has room; after it
    exactly this helper is in flight. Any other answer leaves the database as
    the others left it. *)
Theorem reservation_is_granted_on_the_written_row id server placement target policy expected others db r db' :
  sound_url server -> (forall k, wf_db (seen_after others k db)) ->
  add_attempting_server_for_generation id server placement target policy expected others db = Some (r, db') ->
  exists k, let seen := seen_after others k db in
    (r <> Ok Started /\ db' = seen)
    \/ (r = Ok Started /\ exists v fleet row row', canonicalize server = Ok v
          /\ canonical_helper_url_list placement = Ok fleet /\ v ∈ fleet
          /\ sd_shares seen !! id = Some row /\ db' = put_share seen id row'
          /\ reserved expected policy target fleet v row row').
Proof.
  intros Hs Hwf. unfold add_attempting_server_for_generation.
  destruct (canonical_helper_url_list placement) as [fleet|]; [|intros [= <- <-]; exists 0%nat; by left].
  destruct (canonicalize server) as [v|] eqn:Ev; [|intros [= <- <-]; exists 0%nat; by left].
  case_bool_decide as Hv; [|intros [= <- <-]; exists 0%nat; by left]. intros Hr.
  destruct (retry_spec _ _ _ _ _ _ Hr) as (k & [(e & _ & -> & ->)|[(a & Ha & -> & ->)|(attempt & Ht & Hk)]]).
  { exists k. by left. }
  { exists k. left. split; [|done]. apply attempting_sound in Ha; [|by apply Hs|done]. congruence. }
  apply attempting_sound in Ht; [|by apply Hs|done].
  exists (S k). destruct Hk as [(a & Ha & ->)|(e & _ & -> & ->)]; [|by left].
  destruct attempt as [|obs w an|]; [| |done].
  - cbn in Ha. simplify_eq. left. split; [congruence|done].
  - unfold apply_attempt in Ha. destruct (sd_shares _ !! id) as [row|] eqn:Er; [|done].
    destruct (obs row) eqn:Eo; [|done]. simplify_eq.
    destruct (Ht row (Hwf (S k) _ _ Er) Eo) as (Han & ? & ? & ? & (st & ? & ?) & ? & ?).
    right. rewrite Han. split; [done|]. exists v, fleet, row, (w row). split_and!; try done. split; eauto.
Qed.
End ledger.

(** ** Operations alone in their transaction *)
Section alone_specs.
Context `{Externals} `{SqliteText} `{DomainExternals} `{HelperIdentity} `{UrlListJson}.

Lemma seen_after_nil k db : seen_after [] k db = db.
Proof. unfold seen_after. by destruct k. Qed.

Lemma wf_put db id row : wf_db db -> wf_row row -> wf_db (put_share db id row).
Proof.
  intros Hdb Hr id' row'. cbn. intros [[_ <-]|[_ Hl]]%lookup_insert_Some; [done|by eapply Hdb].
Qed.

(** A retry loop alone: its answer, and the row it wrote. *)
Lemma retry_alone {A} id (step : ShareDb -> result (Attempt A) VotingError) db r db' :
  retry_until_applied id step [] db = Some (r, db') ->
  match step db with
  | Err e => r = Err e /\ db' = db
  | Ok (Settled a) => r = Ok a /\ db' = db
  | Ok (CompareAndSet observed write answer) =>
      exists row, sd_shares db !! id = Some row /\ observed row = true /\ r = Ok (answer row)
        /\ db' = put_share db id (write row)
  | Ok (InsertNew row a) =>
      (exists e, r = Err e /\ db' = db)
      \/ (sd_shares db !! id = None /\ r = Ok a /\ db' = put_share db id row)
  end.
Proof.
  cbn [retry_until_applied]. destruct (step db) as [[a|obs w an|row a]|e]; try by intros [= <- <-].
  - unfold apply_attempt. destruct (sd_shares db !! id) as [row|]; [|done].
    destruct (obs row) eqn:Eo; [|done]. intros [= <- <-]. eauto.
  - unfold apply_attempt. destruct (bind_u64 (sh_submit_at row)), (bind_u64 (sh_created_at row)); try (intros [= <- <-]; by eauto).
    destruct (sd_shares db !! id) eqn:El; [done|].
    destruct (bundle_present _ _); intros [= <- <-]; [by right|by eauto].
Qed.

Lemma begin_spec id server target nullifier placement policy db :
  wf_db db -> sound_url server ->
  exists r db', begin_existing_delivery_attempt_for_generation id server target nullifier placement
                  policy db = Some (r, db')
    /\ match r with
       | Ok Started => exists v fleet row row', canonicalize server = Ok v
           /\ canonical_helper_url_list placement = Ok fleet /\ v ∈ fleet
           /\ sd_shares db !! id = Some row /\ db' = put_share db id row'
           /\ reserved (Some nullifier) policy target fleet v row row'
       | _ => db' = db
       end.
Proof.
  intros Hdb Hs. unfold begin_existing_delivery_attempt_for_generation, alone,
    add_attempting_server_for_generation.
  destruct (canonical_helper_url_list placement) as [fleet|]; [|by eexists _, _].
  destruct (canonicalize server) as [v|] eqn:Ev; [|by eexists _, _].
  case_bool_decide as Hv; [|by eexists _, _].
  destruct (retry_returns id (attempting_step id v fleet target policy (Some nullifier)) [] db)
    as (r & db' & E). { intros. by eapply attempting_applies. }
  rewrite E. apply retry_alone in E.
  destruct (attempting_step _ _ _ _ _ _ _) as [attempt|] eqn:Ha; [|destruct E as [-> ->]; by eexists _, _].
  apply attempting_sound in Ha; [|by apply Hs|done]. destruct attempt as [a|obs w an|row a]; [| |done].
  - destruct E as [-> ->]. eexists _, _. split; [done|]. by destruct a.
  - destruct E as (row & Hrow & Ho & -> & ->).
    destruct (Ha row (Hdb _ _ Hrow) Ho) as (Han & ? & ? & ? & (st & ? & ?) & ? & ?).
    rewrite Han. eexists _, _. split; [done|]. exists v, fleet, row, (w row). split_and!; try done. split; eauto.
Qed.

(** The evidence that an outcome leaves for the helper it is about. *)
Definition resolved_evidence (outcome : ShareDeliveryAttemptOutcome) (e : Evidence) : Evidence :=
  match outcome with
  | AttemptAccepted => merged DefiniteAcceptance e
  | AttemptAmbiguous => merged OutcomeUnknown e
  | AttemptDefiniteFailure => if decide (e = EvInFlight) then EvNone else e
  end.

Record resolved (outcome : ShareDeliveryAttemptOutcome) (reset : bool) (nullifier : list Z) (v : string)
    (row row' : ShareRow) : Prop := {
  rs_generation : sh_nullifier row = nullifier;
  rs_strengthens :
    strengthens (match outcome with AttemptDefiniteFailure => Some v | _ => None end) row row';
  rs_submit : sh_submit_at row'
    = match outcome with
      | AttemptDefiniteFailure => sh_submit_at row
      | _ => if reset then 0 else sh_submit_at row
      end;
  rs_evidence : forall u, row_evidence row' u
    = if decide (u = v) then resolved_evidence outcome (row_evidence row u) else row_evidence row u
}.

Lemma current_generation nullifier row :
  other_generation (Some nullifier) row = false -> sh_nullifier row = nullifier.
Proof. unfold other_generation. rewrite bool_decide_eq_false. intros Hn. by destruct (decide (nullifier = sh_nullifier row)). Qed.

Lemma merge_resolved id server merge reset nullifier db :
  wf_db db -> sound_url server ->
  exists r db', alone (merge_share_delegation_urls id [server] merge reset (Some nullifier)) db = Some (r, db')
    /\ match r with
       | Ok true => exists v row row', canonicalize server = Ok v /\ sd_shares db !! id = Some row
           /\ db' = put_share db id row'
           /\ resolved (match merge with DefiniteAcceptance => AttemptAccepted | _ => AttemptAmbiguous end)
                reset nullifier v row row'
       | _ => db' = db
       end.
Proof.
  intros Hdb Hs. unfold alone, merge_share_delegation_urls.
  destruct (retry_returns id (merge_step id [server] merge reset (Some nullifier)) [] db) as (r & db' & E).
  { intros. by eapply merge_applies. }
  rewrite E. apply retry_alone in E.
  destruct (merge_step _ _ _ _ _ _) as [attempt|] eqn:Ha; [|destruct E as [-> ->]; by eexists _, _].
  apply merge_sound in Ha; [|by repeat constructor|done]. destruct attempt as [a|obs w an|row a]; [| |done].
  - destruct E as [-> ->]. rewrite Ha. eexists _, _. by split.
  - destruct E as (row & Hrow & Ho & -> & ->). pose proof (Hdb _ _ Hrow) as Hw.
    destruct (Ha row Hw Ho) as (Han & Hg & Hstr & Hsub & st & st' & Hl & Hf & Hev).
    rewrite Han. eexists _, _. split; [done|]. cbn [try_fold] in Hf.
    destruct (merge_url merge (sv_state st) server) as [s1|] eqn:Em; [|done]. simplify_eq.
    destruct (load_wf _ Hw) as (st2 & Hl2 & Hst & _). rewrite Hl in Hl2. simplify_eq.
    destruct (merge_url_spec _ _ _ _ Hs (ws_state _ Hst) Em) as (_ & v & Ev & Hev').
    exists v, row, (w row). split_and!; try done. split.
    + by apply current_generation.
    + by destruct merge.
    + by destruct merge.
    + intros u. rewrite Hev, Hev'. unfold row_evidence. rewrite Hl. by destruct merge.
Qed.

Lemma resolve_spec id server nullifier outcome reset db :
  wf_db db -> sound_url server ->
  exists r db', resolve_delivery_attempt_for_generation id server nullifier outcome reset db = Some (r, db')
    /\ match r with
       | Ok true => exists v row row', canonicalize server = Ok v /\ sd_shares db !! id = Some row
           /\ db' = put_share db id row' /\ resolved outcome reset nullifier v row row'
       | _ => db' = db
       end.
Proof.
  intros Hdb Hs. unfold resolve_delivery_attempt_for_generation. destruct outcome.
  - apply (merge_resolved id server DefiniteAcceptance reset nullifier db Hdb Hs).
  - apply (merge_resolved id server OutcomeUnknown reset nullifier db Hdb Hs).
  - unfold alone, remove_attempting_server_for_generation.
    destruct (retry_returns id (removal_step id server (Some nullifier)) [] db) as (r & db' & E).
    { intros. by eapply removal_applies. }
    rewrite E. apply retry_alone in E.
    destruct (removal_step _ _ _ _) as [attempt|] eqn:Ha; [|destruct E as [-> ->]; by eexists _, _].
    apply removal_sound in Ha; [|done..]. destruct attempt as [a|obs w an|row a]; [| |done].
    + destruct E as [-> ->]. rewrite Ha. eexists _, _. by split.
    + destruct E as (row & Hrow & Ho & -> & ->). destruct Ha as (v & Ev & Ha).
      destruct (Ha row (Hdb _ _ Hrow) Ho) as (Han & Hg & Hstr & Hsub & Hev).
      rewrite Han. eexists _, _. split; [done|]. exists v, row, (w row). split_and!; try done.
      split; [by apply current_generation|done|done|]. intros u. rewrite Hev. cbn.
      repeat case_decide; naive_solver.
Qed.
End alone_specs.

(** ** Witnesses *)
#[local] Existing Instance example_externals.
#[local] Existing Instance example_text.
#[local] Existing Instance example_domain_externals.
#[local] Existing Instance sample_identity.
#[local] Existing Instance sample_url_json.

Lemma sample_sound u : sound_url u.
Proof.
  intros v. unfold canonical_url, canonicalize, sample_identity. case_bool_decide as He; [done|].
  intros [= <-]. rewrite trim_slashes_idem. by rewrite bool_decide_false.
Qed.

Lemma sample_db_wf : wf_db sample_share_db.
Proof.
  intros id row Hrow. unfold sample_share_db in Hrow. cbn [sd_shares] in Hrow.
  apply lookup_singleton_Some in Hrow as [_ <-].
  split_and!; exists []; (split; [apply urls_of_json_of_urls|constructor]).
Qed.

Lemma ledger_only_strengthens_witness :
  exists db', run_ledger (OpBegin "https://b/" ["https://b"; "https://c"]%string 2 EnforcePlacementTarget
                            (Some sample_nullifier)) sample_share_id [] sample_share_db = Some db'
    /\ ledger_change None sample_share_id [] sample_share_db db'.
Proof.
  apply (ledger_only_strengthens (OpBegin "https://b/" ["https://b"; "https://c"]%string 2
    EnforcePlacementTarget (Some sample_nullifier))).
  - apply sample_sound.
  - intros k. rewrite seen_after_nil. apply sample_db_wf.
Defined.

Lemma started_result (o : option (result ShareAttemptReservation VotingError * ShareDb)) :
  fst <$> o = Some (Ok Started) -> exists r db', o = Some (r, db') /\ r = Ok Started.
Proof. destruct o as [[r db]|]; [|done]. intros [= ->]. by eexists _, _. Qed.

Lemma reservation_is_granted_on_the_written_row_witness :
  exists r db', add_attempting_server_for_generation sample_share_id "https://b/"
      ["https://b"; "https://c"]%string 2 EnforcePlacementTarget (Some sample_nullifier) [] sample_share_db
    = Some (r, db') /\ r = Ok Started
    /\ exists v fleet row row', canonicalize "https://b/"%string = Ok v /\ v ∈ fleet
         /\ db' = put_share sample_share_db sample_share_id row'
         /\ reserved (Some sample_nullifier) EnforcePlacementTarget 2 fleet v row row'.
Proof.
  assert (exists r db', add_attempting_server_for_generation sample_share_id "https://b/"
      ["https://b"; "https://c"]%string 2 EnforcePlacementTarget (Some sample_nullifier) [] sample_share_db
    = Some (r, db') /\ r = Ok Started) as (r & db' & E & Hr).
  { apply started_result. vm_compute. reflexivity. }
  exists r, db'. split; [exact E|]. split; [exact Hr|].
  destruct (reservation_is_granted_on_the_written_row sample_share_id "https://b/"
    ["https://b"; "https://c"]%string 2 EnforcePlacementTarget (Some sample_nullifier) [] sample_share_db r db'
    (sample_sound _) ltac:(intros k; rewrite seen_after_nil; apply sample_db_wf) E) as [k Hk].
  rewrite seen_after_nil in Hk. destruct Hk as [[Hn _]|(_ & v & fleet & row & row' & Hv & _ & Hin & _ & Hdb & Hres)].
  - destruct (Hn Hr).
  - exists v, fleet, row, row'. split; [exact Hv|]. split; [exact Hin|]. split; [exact Hdb|exact Hres].
Defined.
