(* ===== verification/ShareTrackingProofs.v ===== *)
(** * Tracking pending shares: proofs

    What one pass does to the helpers and to the ledger: whom it asks and how
    often, that every request is on disk before it leaves, that the report
    tells what is on disk, and that the pass comes to an end. *)

From stdpp Require Import base gmap strings list numbers pretty.
From Stdlib Require Import ZifyBool.
From S2P Require Import Prelude Ordered Identity Outcome Lifecycle Record Confirmation Rows Store VoteRecovery.
From S2P Require Import Generation Projection SharePolicy SharePolicyProofs Helpers ShareLedger ShareLedgerProofs.
From S2P Require Import HelperClient ShareWire SharePolling ShareTracking SampleTables SampleShares.
Local Open Scope Z_scope.
Local Open Scope voting_scope.

(** ** The order in which helpers are asked *)
Lemma shuffled_perm servers bytes order :
  shuffled_share_server_order servers bytes = Ok order -> order ≡ₚ servers.
Proof.
  unfold shuffled_share_server_order. destruct (require_unique_share_servers servers); [|done].
  cbn. destruct (_ <? _); [done|]. intros [= <-]. rewrite shuffle_choices. apply apply_choices_perm.
Qed.

Lemma resubmission_groups configured sent bytes order :
  resubmission_server_order configured sent bytes = Ok order ->
  exists fresh used, order = fresh ++ used
    /\ fresh ≡ₚ untried configured sent /\ used ≡ₚ already_sent configured sent.
Proof.
  unfold resubmission_server_order. destruct (require_unique_share_servers configured); [|done].
  cbn. destruct (_ <? _); [done|].
  destruct (shuffled_share_server_order (untried _ _) _) as [fresh|] eqn:Ef; [|done].
  destruct (shuffled_share_server_order (already_sent _ _) _) as [used|] eqn:Eu; [|done].
  intros [= <-]. exists fresh, used. split_and!; [done|by eapply shuffled_perm|by eapply shuffled_perm].
Qed.

Lemma take_while_app {A} (f : A -> bool) l k :
  (forall x, x ∈ l -> f x = true) -> (forall x, x ∈ k -> f x = false) -> take_while f (l ++ k) = l.
Proof.
  intros Hl Hk. induction l as [|a l IH]; cbn.
  - destruct k as [|b k]; [done|]. cbn. rewrite Hk; [done|set_solver].
  - rewrite Hl by set_solver. f_equal. apply IH. set_solver.
Qed.

Section order.
Context (fleet : list string).

Record request_ok (r : ResubmitRequest) : Prop := {
  ro_fleet : rq_configured_urls r = fleet;
  ro_ambiguous : NoDup (rq_ambiguous_urls r);
  ro_interrupted : NoDup (rq_interrupted_attempt_urls r);
  ro_ambiguous_fleet : forall u, u ∈ rq_ambiguous_urls r -> u ∈ fleet;
  ro_interrupted_fleet : forall u, u ∈ rq_interrupted_attempt_urls r -> u ∈ fleet;
  ro_apart : forall u, u ∈ rq_interrupted_attempt_urls r -> u ∉ rq_ambiguous_urls r
}.

Lemma eligible_spec r attempted :
  request_ok r ->
  NoDup (eligible_servers r attempted)
  /\ forall u, u ∈ eligible_servers r attempted -> u ∈ fleet /\ u ∉ attempted
       /\ u ∉ rq_interrupted_attempt_urls r /\ u ∉ rq_ambiguous_urls r.
Proof.
  intros Hr. unfold eligible_servers. destruct (full_recovery_order r).
  - split; [apply NoDup_pushed, NoDup_nil_2|]. intros u Hu.
    apply elem_of_pushed in Hu as [Hu|Hu]; [by apply elem_of_nil in Hu|].
    rewrite !list_elem_of_filter, (ro_fleet _ Hr) in Hu. tauto.
  - split; [apply NoDup_nil_2|]. intros u Hu. by apply elem_of_nil in Hu.
Qed.

Lemma retry_urls_spec r attempted urls :
  NoDup urls ->
  NoDup (retry_urls r attempted urls)
  /\ forall u, u ∈ retry_urls r attempted urls ->
       u ∈ urls /\ u ∉ attempted /\ u ∉ rq_definite_acceptance_urls r.
Proof.
  intros Hn. unfold retry_urls. split; [by apply NoDup_filter, NoDup_filter|].
  intros u. rewrite !list_elem_of_filter. tauto.
Qed.

(** An order of distinct helpers of the fleet that were not asked. *)
Definition new_order (attempted order : list string) : Prop :=
  NoDup order /\ forall u, u ∈ order -> u ∈ fleet /\ u ∉ attempted.

Lemma new_order_parts r attempted fresh interrupted ambiguous used :
  request_ok r ->
  fresh ≡ₚ untried (eligible_servers r attempted) (rq_definite_acceptance_urls r) ->
  used ≡ₚ already_sent (eligible_servers r attempted) (rq_definite_acceptance_urls r) ->
  interrupted ≡ₚ retry_urls r attempted (rq_interrupted_attempt_urls r) ->
  ambiguous ≡ₚ retry_urls r attempted (rq_ambiguous_urls r) ->
  new_order attempted (fresh ++ interrupted ++ ambiguous ++ used)
  /\ new_order attempted (fresh ++ interrupted).
Proof.
  intros Hr Hf Hu Hi Ha. destruct (eligible_spec r attempted Hr) as [Hn He].
  destruct (retry_urls_spec r attempted _ (ro_interrupted _ Hr)) as [Ni Si].
  destruct (retry_urls_spec r attempted _ (ro_ambiguous _ Hr)) as [Na Sa].
  assert (forall u, u ∈ fresh -> u ∈ eligible_servers r attempted /\ u ∉ rq_definite_acceptance_urls r) as Ef.
  { intros u. rewrite Hf. unfold untried. rewrite list_elem_of_filter. tauto. }
  assert (forall u, u ∈ used -> u ∈ eligible_servers r attempted /\ u ∈ rq_definite_acceptance_urls r) as Eu.
  { intros u. rewrite Hu. unfold already_sent. rewrite list_elem_of_filter. tauto. }
  assert (NoDup fresh) by (rewrite Hf; by apply NoDup_filter).
  assert (NoDup used) by (rewrite Hu; by apply NoDup_filter).
  assert (NoDup interrupted) by (by rewrite Hi). assert (NoDup ambiguous) by (by rewrite Ha).
  assert (forall u, u ∈ interrupted -> u ∈ rq_interrupted_attempt_urls r /\ u ∉ attempted
    /\ u ∉ rq_definite_acceptance_urls r) as Ei by (intros u; rewrite Hi; apply Si).
  assert (forall u, u ∈ ambiguous -> u ∈ rq_ambiguous_urls r /\ u ∉ attempted
    /\ u ∉ rq_definite_acceptance_urls r) as Ea by (intros u; rewrite Ha; apply Sa).
  pose proof (ro_apart _ Hr) as Hap. pose proof (ro_interrupted_fleet _ Hr). pose proof (ro_ambiguous_fleet _ Hr).
  assert (forall u, u ∈ fresh -> u ∉ interrupted /\ u ∉ ambiguous /\ u ∉ used) as D1.
  { intros u Hx. destruct (Ef u Hx) as [Hx1 Hx2]. destruct (He u Hx1) as (_ & _ & Hx3 & Hx4).
    split_and!; intros Hy; [by destruct (Ei u Hy)|by destruct (Ea u Hy)|by destruct (Eu u Hy)]. }
  assert (forall u, u ∈ interrupted -> u ∉ ambiguous /\ u ∉ used) as D2.
  { intros u Hx. destruct (Ei u Hx) as (Hx1 & _ & Hx2). split; intros Hy.
    - destruct (Ea u Hy). by apply (Hap u Hx1).
    - by destruct (Eu u Hy). }
  assert (forall u, u ∈ ambiguous -> u ∉ used) as D3.
  { intros u Hx Hy. destruct (Ea u Hx) as (_ & _ & Hx2). by destruct (Eu u Hy). }
  assert (forall u, u ∈ fresh \/ u ∈ interrupted \/ u ∈ ambiguous \/ u ∈ used -> u ∈ fleet /\ u ∉ attempted) as Hall.
  { intros u [Hx|[Hx|[Hx|Hx]]].
    - destruct (Ef u Hx) as [Hx1 _]. by destruct (He u Hx1) as (? & ? & _).
    - destruct (Ei u Hx) as (? & ? & _). auto.
    - destruct (Ea u Hx) as (? & ? & _). auto.
    - destruct (Eu u Hx) as [Hx1 _]. by destruct (He u Hx1) as (? & ? & _). }
  split; split.
  - rewrite !NoDup_app. split_and!; try done; intros u Hx; rewrite ?not_elem_of_app; [by apply D1|by apply D2].
  - intros u. rewrite !elem_of_app. apply Hall.
  - rewrite NoDup_app. split_and!; try done. intros u Hx. by apply D1.
  - intros u. rewrite elem_of_app. intros Hx. apply Hall. tauto.
Qed.
End order.

Section recovery_order.
Context `{HelperIdentity} (env : TrackingEnv) (params : ShareTrackingParams) (fleet : list string).

Lemma recovery_order_ok r attempted w :
  request_ok fleet r ->
  exists order n, recovery_order env params r attempted w = (Done order, with_step n w)
    /\ match order with Ok order => new_order fleet attempted order | Err _ => True end.
Proof.
  intros Hr. unfold recovery_order, os_random_bytes, current_time, rank, look, tr_bind, tr_ret.
  cbn [tw_step with_step].
  destruct (resubmission_server_order _ _ _) as [randomized|e] eqn:Eo; [|by eexists _, _].
  destruct (resubmission_groups _ _ _ _ Eo) as (fresh & used & -> & Hf & Hu).
  rewrite take_while_app.
  2: { intros x. rewrite Hf. unfold untried. rewrite list_elem_of_filter. intros [? _]. by apply bool_decide_eq_true. }
  2: { intros x. rewrite Hu. unfold already_sent. rewrite list_elem_of_filter. intros [? _].
       apply bool_decide_eq_false. tauto. }
  rewrite drop_app_length.
  destruct (_ && _); eexists _, _; (split; [reflexivity|]); cbn [tw_step with_step].
  - eapply proj1, (new_order_parts fleet r); [done| | | |];
      try (etrans; [apply health_order_perm|done]); apply health_order_perm.
  - eapply proj2, (new_order_parts fleet r attempted _ _ (retry_urls r attempted (rq_ambiguous_urls r)) used);
      [done| |done| |done]; [etrans; [apply health_order_perm|done]|apply health_order_perm].
Qed.
End recovery_order.

(** ** Steps and the ledger *)
Section steps.
Context `{Externals} `{SqliteText} `{RecoveryExternals} `{DomainExternals} `{ShareExternals}.
Context `{HelperIdentity} `{UrlListJson} `{HelperJson}.
Context (env : TrackingEnv).

(** Nobody else works on this generation of the share, which is what its lock
    is for: others may confirm it, add evidence to it, or delete it. *)
Definition alone_on (id : ShareId) (nullifier : list Z) : Prop :=
  forall n db row', wf_db db -> sd_shares (te_others env n db) !! id = Some row' ->
    sh_nullifier row' = nullifier -> exists row, sd_shares db !! id = Some row /\ strengthens None row row'.

Definition others_wf : Prop := forall n db, wf_db db -> wf_db (te_others env n db).

(** What holds of the share's row, as long as it is there. *)
Definition keeps (id : ShareId) (nullifier : list Z) (P : ShareRow -> Prop) (db : ShareDb) : Prop :=
  forall row, sd_shares db !! id = Some row -> sh_nullifier row = nullifier -> P row.

Definition moves (cleared : option string) (id : ShareId) (nullifier : list Z) (db db' : ShareDb) : Prop :=
  forall row', sd_shares db' !! id = Some row' -> sh_nullifier row' = nullifier ->
    exists row, sd_shares db !! id = Some row /\ strengthens cleared row row'.

Lemma keeps_moves cleared id nullifier (P : ShareRow -> Prop) db db' :
  (forall row row', strengthens cleared row row' -> P row -> P row') ->
  moves cleared id nullifier db db' -> keeps id nullifier P db -> keeps id nullifier P db'.
Proof.
  intros HP Hm Hk row' Hr Hn. destruct (Hm row' Hr Hn) as (row & Hrow & Hs).
  eapply HP; [done|]. apply Hk; [done|]. by rewrite <- (st_nullifier _ _ _ Hs).
Qed.

Lemma strengthens_trans cleared a b c :
  strengthens None a b -> strengthens cleared b c -> strengthens cleared a c.
Proof.
  intros [A1 A2 A3 A4 A5 A6 A7 A8] [B1 B2 B3 B4 B5 B6 B7 B8]. split.
  - done.
  - by rewrite B2.
  - by rewrite B3.
  - auto.
  - lia.
  - destruct A6 as [<-|E], B6 as [B6|B6]; rewrite ?B6; auto.
  - intros u. destruct (A7 u) as [Ha|(? & _)]; [|done]. destruct (B7 u) as [Hb|(Hc & Hb & Hn)]; [left; lia|].
    rewrite Hb in Ha. destruct (row_evidence a u) eqn:E; cbn in Ha; try lia; [left; cbn; lia|by right].
  - auto.
Qed.

Record stepped (cleared : option string) (w w' : TrackingWorld) : Prop := {
  sp_posts : tw_posts w' = tw_posts w;
  sp_polls : tw_polls w' = tw_polls w;
  sp_report : tw_report w' = tw_report w;
  sp_wf : wf_db (tw_db w');
  sp_moves : forall id nullifier, alone_on id nullifier -> moves cleared id nullifier (tw_db w) (tw_db w')
}.

(** What an operation does to the row of one share, if to any. *)
Definition row_change (cleared : option string) (db db' : ShareDb) : Prop :=
  db' = db \/ exists id row row', sd_shares db !! id = Some row /\ db' = put_share db id row'
                /\ strengthens cleared row row'.

Lemma change_moves cleared n db db' id nullifier :
  wf_db db -> wf_db (te_others env n db) -> row_change cleared (te_others env n db) db' -> alone_on id nullifier ->
  wf_db db' /\ moves cleared id nullifier db db'.
Proof.
  intros Hdb Hwf Hc Ha. set (seen := te_others env n db) in *.
  assert (moves None id nullifier db seen) as Hm by (intros row'; by apply Ha).
  assert (forall row, sd_shares seen !! id = Some row -> sh_nullifier row = nullifier ->
    exists row0, sd_shares db !! id = Some row0 /\ strengthens cleared row0 row) as Hkeep.
  { intros row Hr Hn. destruct (Hm row Hr Hn) as (row0 & ? & Hs). exists row0. split; [done|].
    eapply strengthens_trans; [done|]. by apply strengthens_refl, (Hwf id). }
  destruct Hc as [->|(id' & row & row' & Hr & -> & Hs)]; [done|]. split; [by apply wf_put; [|apply Hs]|].
  intros r'. cbn. intros [[-> <-]|[_ Hl]]%lookup_insert_Some Hn; [|by apply Hkeep].
  rewrite (st_nullifier _ _ _ Hs) in Hn. destruct (Hm row Hr Hn) as (row0 & ? & Hs0).
  exists row0. split; [done|]. by eapply strengthens_trans.
Qed.

Lemma storage_step {A} cleared (op : ShareDb -> option (result A VotingError * ShareDb)) w :
  others_wf -> wf_db (tw_db w) ->
  (forall db, wf_db db -> exists r db', op db = Some (r, db') /\ row_change cleared db db') ->
  exists r w', storage env op w = (Done r, w') /\ stepped cleared w w'
    /\ ((exists e, r = Err e) \/ op (te_others env (tw_step w) (tw_db w)) = Some (r, tw_db w')).
Proof.
  intros Ho Hwf Hop. unfold storage. set (db := te_others env (tw_step w) (tw_db w)).
  assert (wf_db db) as Hdb by (by apply Ho).
  assert (forall db', row_change cleared db db' -> stepped cleared w (with_step (S (tw_step w)) (with_db db' w))) as Hst.
  { intros db' Hc. split; [done..| |].
    - destruct Hc as [->|(? & ? & ? & ? & -> & Hs)]; [done|]. by apply wf_put; [|apply Hs].
    - intros id nf Ha. by eapply change_moves. }
  destruct (te_fault env (tw_step w)) as [e|].
  { eexists _, _. split; [done|]. split; [apply Hst; by left|left; by eexists]. }
  destruct (Hop db Hdb) as (r & db' & E & Hc). rewrite E.
  eexists _, _. split; [done|]. split; [by apply Hst|by right].
Qed.

Lemma query_step {A} (f : ShareDb -> result A VotingError) w :
  others_wf -> wf_db (tw_db w) ->
  exists r w', query env f w = (Done r, w') /\ stepped None w w'
    /\ ((exists e, r = Err e) \/ r = f (tw_db w')).
Proof.
  intros Ho Hwf. destruct (storage_step None (fun db => Some (f db, db)) w Ho Hwf) as (r & w' & E & Hs & Hr).
  { intros db _. eexists _, _. split; [done|by left]. }
  exists r, w'. split; [done|]. split; [done|]. destruct Hr as [Hr|[= Hr Hdb]]; [by left|right].
  by rewrite <- Hr, <- Hdb.
Qed.

Lemma begin_step id url target nullifier placement policy w :
  others_wf -> wf_db (tw_db w) -> canonical_url url ->
  exists r w', storage env (begin_existing_delivery_attempt_for_generation id url target nullifier
                              placement policy) w = (Done r, w')
    /\ stepped None w w'
    /\ (r = Ok Started -> exists row, sd_shares (tw_db w') !! id = Some row
          /\ sh_nullifier row = nullifier /\ row_evidence row url = EvInFlight).
Proof.
  intros Ho Hwf Hu. apply canonical_sound in Hu as Hs.
  set (op := begin_existing_delivery_attempt_for_generation id url target nullifier placement policy).
  destruct (storage_step None op w Ho Hwf) as (r & w' & E & Hst & Hr).
  { intros db Hdb. destruct (begin_spec id url target nullifier placement policy db Hdb Hs) as (r & db' & E & Hr).
    exists r, db'. split; [done|]. destruct r as [[]|]; try by left.
    destruct Hr as (v & f & row & row' & _ & _ & _ & Hrow & -> & Hres). right. exists id, row, row'.
    split_and!; try done. apply Hres. }
  exists r, w'. split_and!; try done. intros ->. destruct Hr as [[e ?]|Hr]; [done|].
  destruct (begin_spec id url target nullifier placement policy _ (Ho (tw_step w) _ Hwf) Hs) as (r' & db' & E' & Hr').
  unfold op in Hr. rewrite Hr in E'. simplify_eq.
  destruct Hr' as (v & f & row & row' & Hv & _ & _ & Hrow & Hdb & [R1 R2 R3 R4 R5 R6]).
  rewrite Hu in Hv. simplify_eq. exists row'. rewrite Hdb. cbn. rewrite lookup_insert_eq.
  apply current_generation in R1. split_and!; [done|by rewrite (st_nullifier _ _ _ R5)|by rewrite R6, decide_True].
Qed.

Definition cleared_by_outcome (outcome : ShareDeliveryAttemptOutcome) (url : string) : option string :=
  match outcome with AttemptDefiniteFailure => Some url | _ => None end.

Lemma resolve_step id url nullifier outcome reset w :
  others_wf -> wf_db (tw_db w) -> canonical_url url ->
  exists r w', storage env (resolve_delivery_attempt_for_generation id url nullifier outcome reset) w
               = (Done r, w')
    /\ stepped (cleared_by_outcome outcome url) w w'
    /\ (r = Ok true -> exists row, sd_shares (tw_db w') !! id = Some row /\ sh_nullifier row = nullifier
          /\ (outcome = AttemptAccepted -> row_evidence row url = EvAccepted)
          /\ (outcome = AttemptAmbiguous -> (2 <= strength (row_evidence row url))%nat)).
Proof.
  intros Ho Hwf Hu. apply canonical_sound in Hu as Hs.
  set (op := resolve_delivery_attempt_for_generation id url nullifier outcome reset).
  destruct (storage_step (cleared_by_outcome outcome url) op w Ho Hwf) as (r & w' & E & Hst & Hr).
  { intros db Hdb. destruct (resolve_spec id url nullifier outcome reset db Hdb Hs) as (r & db' & E & Hr).
    exists r, db'. split; [done|]. destruct r as [[]|]; try by left.
    destruct Hr as (v & row & row' & Hv & Hrow & -> & Hres). right. exists id, row, row'.
    rewrite Hu in Hv. simplify_eq. split_and!; try done. apply Hres. }
  exists r, w'. split_and!; try done. intros ->. destruct Hr as [[e ?]|Hr]; [done|].
  destruct (resolve_spec id url nullifier outcome reset _ (Ho (tw_step w) _ Hwf) Hs) as (r' & db' & E' & Hr').
  unfold op in Hr. rewrite Hr in E'. simplify_eq.
  destruct Hr' as (v & row & row' & Hv & Hrow & Hdb & [R1 R2 R3 R4]).
  rewrite Hu in Hv. simplify_eq. exists row'. rewrite Hdb. cbn. rewrite lookup_insert_eq.
  specialize (R4 v). rewrite decide_True in R4 by done.
  split_and!; [done|by rewrite (st_nullifier _ _ _ R2)| |]; intros ->; rewrite R4; [done|].
  unfold resolved_evidence, merged. by destruct (row_evidence row v); vm_compute; lia.
Qed.

Lemma confirm_step id nullifier w :
  others_wf -> wf_db (tw_db w) ->
  exists r w', storage env (fun db => Some (confirm_for_generation id nullifier db)) w = (Done r, w')
    /\ stepped None w w'
    /\ (r = Ok true -> exists row, sd_shares (tw_db w') !! id = Some row /\ sh_nullifier row = nullifier
          /\ sh_confirmed row = true).
Proof.
  intros Ho Hwf. unfold confirm_for_generation.
  assert (forall db, wf_db db -> row_change None db (mark_share_confirmed id (Some nullifier) db).2
    /\ ((mark_share_confirmed id (Some nullifier) db).1 = Ok true ->
        exists row, sd_shares (mark_share_confirmed id (Some nullifier) db).2 !! id = Some row
          /\ sh_nullifier row = nullifier /\ sh_confirmed row = true)) as Hspec.
  { intros db Hdb. unfold mark_share_confirmed.
    destruct (sd_shares db !! id) as [row|] eqn:Er; [|split; [by left|done]].
    destruct (other_generation _ _) eqn:Eg; [split; [by left|done]|].
    destruct (ensure_share_matches_ballot_intent _ _); [|split; [by left|done]]. split.
    - right. exists id, row, (with_confirmed row). split_and!; try done. by apply confirm_strengthens, (Hdb id).
    - intros _. eexists. cbn. rewrite lookup_insert_eq. split; [done|]. split; [|done]. by apply current_generation. }
  destruct (storage_step None (fun db => Some (mark_share_confirmed id (Some nullifier) db)) w Ho Hwf)
    as (r & w' & E & Hst & Hr).
  { intros db Hdb. destruct (Hspec db Hdb) as [Hc _]. eexists _, _. split; [|done]. by rewrite <- surjective_pairing. }
  exists r, w'. split_and!; try done. intros ->. destruct Hr as [[e ?]|[= Hr]]; [done|].
  destruct (Hspec _ (Ho (tw_step w) _ Hwf)) as [_ Hc]. rewrite Hr in Hc. by apply Hc.
Qed.
End steps.

(** ** Requests on disk *)
Section walk.
Context `{Externals} `{SqliteText} `{RecoveryExternals} `{DomainExternals} `{ShareExternals}.
Context `{HelperIdentity} `{UrlListJson} `{HelperJson}.
Context (env : TrackingEnv) (params : ShareTrackingParams) (scope : string) (fleet : list string).

Notation id_of share := (share_id_of (tp_round_id params) scope share).

(** The request carries the share of its recovery, with the stored time of
    submission, or none when the share is overdue. *)
Definition request_content (share : ShareDelegationRecord) (json : string) : Prop :=
  exists text position submit_at,
    nullifier_from_recovery_json text (sr_proposal_id share) (sr_share_index share)
    = Ok (sr_nullifier share)
    /\ recover_wire_json text (sr_proposal_id share) (sr_share_index share) position submit_at = Ok json
    /\ (submit_at = sr_submit_at share
        \/ submit_at = 0 /\ exists now vote_end, tp_vote_end_time_seconds params = Some vote_end
             /\ should_resubmit_share share now vote_end (tp_policy params) = true).

Record post_ok (p : Post) : Prop := {
  pk_share : po_share p = id_of (po_record p);
  pk_fleet : po_url p ∈ fleet;
  pk_time : past_cutoff params (po_time p) = false;
  pk_content : request_content (po_record p) (po_json p);
  pk_journal : alone_on env (po_share p) (sr_nullifier (po_record p)) ->
    keeps (po_share p) (sr_nullifier (po_record p)) (fun row => row_evidence row (po_url p) <> EvNone) (po_db p)
}.

Definition post_key (p : Post) : ShareId * string := (po_share p, po_url p).

(** A request for the share went to the helper, and at least [level] of
    evidence for it is on disk. *)
Definition landed (level : nat) (w : TrackingWorld) (share : ShareDelegationRecord) (url : string) : Prop :=
  (exists p, p ∈ tw_posts w /\ po_record p = share /\ po_url p = url)
  /\ (alone_on env (id_of share) (sr_nullifier share) ->
      keeps (id_of share) (sr_nullifier share)
        (fun row => (level <= strength (row_evidence row url))%nat) (tw_db w)).

Definition backed (level : nat) (w : TrackingWorld) (s : ResubmittedShare) : Prop :=
  exists share, share_key_of share = rb_share s /\ landed level w share (rb_server_url s).

Definition confirmed_in (w : TrackingWorld) (key : ShareKey) : Prop :=
  exists share poll voters, share_key_of share = key
    /\ poll ∈ tw_polls w /\ pl_share poll = id_of share /\ pl_nullifier poll = sr_nullifier share
    /\ quorum fleet (pl_answers poll) voters
    /\ (alone_on env (id_of share) (sr_nullifier share) ->
        keeps (id_of share) (sr_nullifier share) (fun row => sh_confirmed row = true) (tw_db w)).

Record world_ok (w : TrackingWorld) : Prop := {
  wo_wf : wf_db (tw_db w);
  wo_posts : Forall post_ok (tw_posts w);
  wo_distinct : NoDup (map post_key (tw_posts w));
  wo_resubmitted : Forall (backed 3 w) (tr_resubmitted (tw_report w));
  wo_ambiguous : Forall (backed 2 w) (tr_ambiguous (tw_report w));
  wo_confirmed : Forall (confirmed_in w) (tr_confirmed (tw_report w))
}.

(** What later steps keep of an earlier world. *)
Definition still (row row' : ShareRow) : Prop :=
  sh_nullifier row' = sh_nullifier row
  /\ (sh_confirmed row = true -> sh_confirmed row' = true)
  /\ forall u, (2 <= strength (row_evidence row u))%nat ->
       (strength (row_evidence row u) <= strength (row_evidence row' u))%nat.

Record evolves (w w' : TrackingWorld) : Prop := {
  ev_posts : tw_posts w ⊆ tw_posts w';
  ev_polls : tw_polls w ⊆ tw_polls w';
  ev_rows : forall id nullifier, alone_on env id nullifier ->
    forall row', sd_shares (tw_db w') !! id = Some row' -> sh_nullifier row' = nullifier ->
      exists row, sd_shares (tw_db w) !! id = Some row /\ still row row'
}.

Lemma strengthens_still cleared row row' : strengthens cleared row row' -> still row row'.
Proof.
  intros [_ Hn _ Hc _ _ He _]. split_and!; try done. intros u Hu.
  destruct (He u) as [?|(_ & E & _)]; [done|]. rewrite E in Hu. cbn in Hu. lia.
Qed.

Lemma stepped_evolves cleared w w' : stepped env cleared w w' -> evolves w w'.
Proof.
  intros [Hp Hl _ _ Hm]. split; [by rewrite Hp|by rewrite Hl|]. intros id nf Ha row' Hr Hn.
  destruct (Hm id nf Ha row' Hr Hn) as (row & ? & Hs). exists row. split; [done|]. by eapply strengthens_still.
Qed.

#[local] Instance evolves_preorder : PreOrder evolves.
Proof.
  split.
  - intros w. split; [done|done|]. intros id nf _ row' Hr _. exists row'. split; [done|]. by split_and!.
  - intros a b c [A1 A2 A3] [B1 B2 B3]. split; [by etrans|by etrans|]. intros id nf Ha row' Hr Hn.
    destruct (B3 id nf Ha row' Hr Hn) as (row1 & Hr1 & S1 & S2 & S3).
    destruct (A3 id nf Ha row1 Hr1) as (row0 & Hr0 & T1 & T2 & T3); [by rewrite <- S1|].
    exists row0. split; [done|]. split_and!; [by rewrite S1|auto|]. intros u Hu. specialize (T3 u Hu).
    etrans; [exact T3|]. apply S3. lia.
Qed.

Lemma keeps_evolves id nullifier (P : ShareRow -> Prop) w w' :
  alone_on env id nullifier -> (forall row row', still row row' -> P row -> P row') ->
  evolves w w' -> keeps id nullifier P (tw_db w) -> keeps id nullifier P (tw_db w').
Proof.
  intros Ha HP [_ _ He] Hk row' Hr Hn. destruct (He _ _ Ha row' Hr Hn) as (row & Hrow & Hs).
  eapply HP; [done|]. apply Hk; [done|]. destruct Hs as [<- _]. done.
Qed.

Lemma landed_evolves level w w' share url :
  (2 <= level)%nat -> evolves w w' -> landed level w share url -> landed level w' share url.
Proof.
  intros Hl He [(p & Hp & ? & ?) Hk]. split.
  - exists p. split; [by apply (ev_posts _ _ He)|done].
  - intros Ha. eapply keeps_evolves; [done| |done|by apply Hk].
    intros row row' (_ & _ & Hs) Hlev. etrans; [exact Hlev|]. apply Hs. lia.
Qed.

Lemma reports_evolve w w' :
  evolves w w' -> tw_report w' = tw_report w -> world_ok w ->
  Forall (backed 3 w') (tr_resubmitted (tw_report w'))
  /\ Forall (backed 2 w') (tr_ambiguous (tw_report w'))
  /\ Forall (confirmed_in w') (tr_confirmed (tw_report w')).
Proof.
  intros He -> [_ _ _ Hr Ha Hc]. split_and!.
  - eapply Forall_impl; [exact Hr|]. intros s (share & ? & ?). exists share. split; [done|].
    eapply landed_evolves; [|done|done]. lia.
  - eapply Forall_impl; [exact Ha|]. intros s (share & ? & ?). exists share. split; [done|].
    eapply landed_evolves; [|done|done]. lia.
  - eapply Forall_impl; [exact Hc|]. intros k (share & poll & voters & ? & Hp & ? & ? & ? & Hk).
    exists share, poll, voters. split_and!; try done; [by apply (ev_polls _ _ He)|].
    intros Hal. eapply keeps_evolves; [done| |done|by apply Hk]. intros row row' (_ & Hs & _). apply Hs.
Qed.

Lemma stepped_ok cleared w w' : stepped env cleared w w' -> world_ok w -> world_ok w'.
Proof.
  intros Hs Hw. apply stepped_evolves in Hs as He.
  destruct (reports_evolve w w' He (sp_report _ _ _ _ Hs) Hw) as (? & ? & ?).
  destruct Hw, Hs as [Hp _ _ Hwf _]. split; rewrite ?Hp; done.
Qed.

(** *** One helper *)
Section one_share.
Context (r : ResubmitRequest).
Hypothesis (Hothers : others_wf env) (Hcanonical : Forall canonical_url fleet) (Hr : request_ok fleet r).

Notation share := (rq_share r).
Notation id := (id_of (rq_share r)).
Notation nullifier := (sr_nullifier (rq_share r)).

(** The evidence that the request was made from is on disk. *)
Definition held (row : ShareRow) : Prop :=
  (forall u, u ∈ rq_definite_acceptance_urls r -> (3 <= strength (row_evidence row u))%nat)
  /\ (forall u, u ∈ rq_ambiguous_urls r -> (2 <= strength (row_evidence row u))%nat)
  /\ (forall u, u ∈ rq_interrupted_attempt_urls r -> (1 <= strength (row_evidence row u))%nat).

Record walking (attempted : list string) (w : TrackingWorld) : Prop := {
  wk_world : world_ok w;
  wk_held : alone_on env id nullifier -> keeps id nullifier held (tw_db w);
  wk_asked : forall p, p ∈ tw_posts w -> po_share p = id -> po_url p ∈ attempted
}.

Definition harmless (cleared : option string) : Prop :=
  forall u, cleared = Some u -> u ∉ rq_interrupted_attempt_urls r.

Lemma held_strengthens cleared row row' :
  harmless cleared -> strengthens cleared row row' -> held row -> held row'.
Proof.
  intros Hh Hs (Ha & Hu & Hi). destruct (strengthens_still _ _ _ Hs) as (_ & _ & Hstill).
  split_and!; intros u Hin.
  - specialize (Ha u Hin). etrans; [exact Ha|]. apply Hstill. lia.
  - specialize (Hu u Hin). etrans; [exact Hu|]. apply Hstill. lia.
  - specialize (Hi u Hin). destruct (st_evidence _ _ _ Hs u) as [?|(-> & _)]; [lia|]. by apply Hh in Hin.
Qed.

Lemma walking_stepped cleared attempted w w' :
  harmless cleared -> stepped env cleared w w' -> walking attempted w -> walking attempted w'.
Proof.
  intros Hh Hs [Hw Hk Ha]. split; [by eapply stepped_ok| |by rewrite (sp_posts _ _ _ _ Hs)].
  intros Hal. eapply keeps_moves; [|by apply (sp_moves _ _ _ _ Hs)|by apply Hk].
  intros row row'. by apply held_strengthens.
Qed.

Lemma harmless_none : harmless None.
Proof. done. Qed.

Lemma walking_more attempted url w : walking attempted w -> walking (attempted ++ [url]) w.
Proof. intros [? ? Ha]. split; try done. intros p Hp Hi. apply elem_of_app. left. by apply Ha. Qed.

Lemma dispatch_ok url capacity attempted w :
  url ∈ fleet -> walking attempted w ->
  exists d w', may_dispatch env params scope r url capacity w = (Done d, w') /\ stepped env None w w'
    /\ (d = Ok DispatchNow -> alone_on env id nullifier ->
        keeps id nullifier (fun row => row_evidence row url <> EvNone) (tw_db w')).
Proof.
  intros Hu Hw. rewrite list.Forall_forall in Hcanonical. pose proof (wo_wf _ (wk_world _ _ Hw)) as Hwf.
  unfold may_dispatch. destruct (journals_fresh_attempt r url) eqn:Ej.
  - destruct capacity.
    { eexists _, _. split; [done|]. split; [|done]. split; try done. intros i n _ row' Hrow _.
      exists row'. split; [done|]. by apply strengthens_refl, (Hwf i). }
    destruct (begin_step env id url (rq_target_count r) nullifier (rq_configured_urls r) (capacity_policy r) w
                Hothers Hwf (Hcanonical _ Hu)) as (res & w' & E & Hs & Hst).
    unfold tr_bind. rewrite E. eexists _, w'. split; [done|]. split; [done|].
    intros Hd _ row Hrow _. destruct res as [[]|]; cbn in Hd; try done.
    destruct (Hst eq_refl) as (row' & Hrow' & _ & Hev). congruence.
  - destruct (query_step env (share_is_confirmed_for_generation id (Some nullifier)) w Hothers Hwf)
      as (res & w' & E & Hs & _).
    unfold tr_bind. rewrite E. eexists _, w'. split; [done|]. split; [done|]. intros _ Hal row Hrow Hn.
    pose proof (walking_stepped _ _ _ _ harmless_none Hs Hw) as [_ Hk _].
    destruct (Hk Hal row Hrow Hn) as (Ha & Hun & Hi). unfold journals_fresh_attempt in Ej.
    unfold retries_outcome_unknown_helper, retries_ambiguous_helper, retries_interrupted_helper,
      retries_definitely_accepted_helper in Ej.
    intros Hev. repeat case_bool_decide; try done;
    match goal with
      | Hin : url ∈ rq_ambiguous_urls r |- _ => specialize (Hun _ Hin); rewrite Hev in Hun; cbn in Hun; lia
      | Hin : url ∈ rq_interrupted_attempt_urls r |- _ => specialize (Hi _ Hin); rewrite Hev in Hi; cbn in Hi; lia
      | Hin : url ∈ rq_definite_acceptance_urls r |- _ => specialize (Ha _ Hin); rewrite Hev in Ha; cbn in Ha; lia
      end.
Qed.

(** A definite failure never settles an interrupted attempt. *)
Lemma settlement_harmless url answer outcome :
  settlement r url answer = Some outcome -> harmless (cleared_by_outcome outcome url).
Proof.
  intros Hs u Hc. destruct outcome; cbn in Hc; simplify_eq. unfold settlement in Hs.
  unfold journals_fresh_attempt, retries_outcome_unknown_helper, retries_interrupted_helper in Hs.
  intros Hin. rewrite (bool_decide_true (u ∈ rq_interrupted_attempt_urls r)), orb_true_r in Hs by done. cbn in Hs.
  destruct answer as [|[]]; try done; repeat destruct (_ && _) in Hs; repeat destruct (is_ambiguous _) in Hs; done.
Qed.

Lemma newly_unknown_settles url answer :
  newly_unknown r url answer = true -> settlement r url answer = Some AttemptAmbiguous.
Proof.
  unfold newly_unknown, settlement. destruct answer as [|e]; [done|].
  destruct (is_ambiguous e) eqn:Ea, (retries_definitely_accepted_helper r url) eqn:Ed; cbn;
    destruct e; try done; by intros ->.
Qed.

Lemma settle_ok url answer w :
  url ∈ fleet -> wf_db (tw_db w) ->
  exists s w' cleared, settle env params scope r url answer w = (Done s, w')
    /\ stepped env cleared w w' /\ harmless cleared
    /\ (s = Ok true ->
        (forall status, answer = Ok status ->
           keeps id nullifier (fun row => (3 <= strength (row_evidence row url))%nat) (tw_db w'))
        /\ (newly_unknown r url answer = true ->
           keeps id nullifier (fun row => (2 <= strength (row_evidence row url))%nat) (tw_db w'))).
Proof.
  intros Hu Hwf. rewrite list.Forall_forall in Hcanonical. unfold settle.
  destruct (settlement r url answer) as [outcome|] eqn:Es.
  - destruct (resolve_step env id url nullifier outcome (reset_submit_at (rq_schedule r)) w Hothers Hwf
                (Hcanonical _ Hu)) as (s & w' & E & Hs & Hok).
    exists s, w', (cleared_by_outcome outcome url). split_and!; [done|done|by eapply settlement_harmless|].
    intros Ht. destruct (Hok Ht) as (row & Hrow & _ & Hacc & Hamb). split.
    + intros status -> row' Hrow' _. cbn in Es. simplify_eq. rewrite Hacc by done. cbn. lia.
    + intros Hn%newly_unknown_settles row' Hrow' _. rewrite Hn in Es. simplify_eq. by apply Hamb.
  - exists (Ok true), w, None. split_and!; try done.
    + split; try done. intros i n _ row' Hrow _. exists row'. split; [done|]. by apply strengthens_refl, (Hwf i).
    + intros _. split; [by intros status ->|]. intros Hn%newly_unknown_settles. congruence.
Qed.

(** The request leaves. *)
Lemma post_ok_step url json now attempted w :
  url ∈ fleet -> url ∉ attempted -> past_cutoff params now = false -> request_content share json ->
  walking attempted w ->
  (alone_on env id nullifier -> keeps id nullifier (fun row => row_evidence row url <> EvNone) (tw_db w)) ->
  exists answer w', resubmit_share env id share url json now w = (Done answer, w')
    /\ walking (attempted ++ [url]) w' /\ evolves w w' /\ tw_report w' = tw_report w
    /\ tw_polls w' = tw_polls w
    /\ (exists p, tw_posts w' = tw_posts w ++ [p] /\ po_share p = id /\ po_record p = share /\ po_url p = url).
Proof.
  intros Hu Hn Hc Hj [Hw Hk Ha] Hjournal. unfold resubmit_share. cbn zeta.
  set (db := te_others env (tw_step w) (tw_db w)).
  assert (stepped env None w (with_db db w)) as Hst.
  { split; try done; [by apply Hothers, wo_wf|]. intros i n Hal row' Hrow Hnf. by apply (Hal (tw_step w) _ _ (wo_wf _ Hw)). }
  apply stepped_evolves in Hst as He. pose proof (stepped_ok _ _ _ Hst Hw) as Hw1.
  eexists _, _. split; [reflexivity|]. set (w' := with_step _ _).
  assert (evolves w w') as He'.
  { etrans; [exact He|]. split; [cbn; set_solver|done|]. intros i n _ row' Hrow _. exists row'. by split_and!. }
  split_and!; try done; [|by eexists].
  destruct (reports_evolve w w' He' eq_refl Hw) as (R1 & R2 & R3).
  split.
  - split; cbn; [apply (wo_wf _ Hw1)| | |done|done|done].
    + apply Forall_app. split; [apply Hw|]. apply Forall_singleton. split; cbn; try done.
      intros Hal. eapply keeps_moves; [|by apply (sp_moves _ _ _ _ Hst)|by apply Hjournal].
      intros row row' Hs He1. destruct (st_evidence _ _ _ Hs url) as [Hle|(? & _)]; [|done].
      intros E. rewrite E in Hle. by destruct (row_evidence row url); cbn in Hle; try lia.
    + rewrite map_app. apply NoDup_app. split_and!; [apply Hw| |apply NoDup_singleton].
      intros k Hin [= ->]%list_elem_of_singleton. apply list_elem_of_fmap in Hin as (p & Hp & Hin).
      destruct p as [ps pr pu pj pt pa pl pd]. unfold post_key in Hp. cbn in Hp. simplify_eq.
      apply Hn. by apply (Ha _ Hin).
  - intros Hal. cbn. eapply keeps_moves; [|by apply (sp_moves _ _ _ _ Hst)|by apply Hk].
    intros row row'. by apply held_strengthens, harmless_none.
  - cbn. intros p [Hp| ->%list_elem_of_singleton]%elem_of_app Hi; apply elem_of_app; [left; by apply Ha|right].
    cbn. apply list_elem_of_singleton. done.
Qed.

(** *** The walk *)
Definition grows (attempted attempted' : list string) : Prop :=
  exists used, attempted' = attempted ++ used /\ NoDup used
    /\ forall u, u ∈ used -> u ∈ fleet /\ u ∉ attempted.

Record after (attempted attempted' : list string) (w w' : TrackingWorld) : Prop := {
  af_walking : walking attempted' w';
  af_evolves : evolves w w';
  af_report : tw_report w' = tw_report w;
  af_polls : tw_polls w' = tw_polls w;
  af_posts : forall p, p ∈ tw_posts w' -> p ∈ tw_posts w \/ po_share p = id;
  af_grows : grows attempted attempted'
}.

Lemma report_grows_refl attempted : grows attempted attempted.
Proof. exists []. split; [by rewrite app_nil_r|]. split; [apply NoDup_nil_2|]. intros u Hu. by apply elem_of_nil in Hu. Qed.

Lemma grows_one attempted url : url ∈ fleet -> url ∉ attempted -> grows attempted (attempted ++ [url]).
Proof.
  intros Hu Hn. exists [url]. split; [done|]. split; [apply NoDup_singleton|].
  by intros u ->%list_elem_of_singleton.
Qed.

Lemma report_grows_trans a b c : grows a b -> grows b c -> grows a c.
Proof.
  intros (u1 & -> & N1 & S1) (u2 & -> & N2 & S2). exists (u1 ++ u2). split; [by rewrite app_assoc|].
  setoid_rewrite not_elem_of_app in S2. split.
  - apply NoDup_app. split_and!; try done. intros u Hu Hu2. destruct (S2 u Hu2) as (_ & _ & ?). done.
  - intros u [Hu|Hu]%elem_of_app; [by apply S1|]. by destruct (S2 u Hu) as (? & ? & _).
Qed.

Lemma after_trans a b c w1 w2 w3 : after a b w1 w2 -> after b c w2 w3 -> after a c w1 w3.
Proof.
  intros [A1 A2 A3 A4 A5 A6] [B1 B2 B3 B4 B5 B6]. split; [done|by etrans|congruence|congruence| |by eapply report_grows_trans].
  intros p Hp. destruct (B5 p Hp) as [Hp'|?]; [by apply A5|by right].
Qed.

Lemma after_stepped cleared attempted w w' :
  harmless cleared -> walking attempted w -> stepped env cleared w w' -> after attempted attempted w w'.
Proof.
  intros Hh Hw Hs. split; [by eapply walking_stepped|by eapply stepped_evolves|apply Hs|apply Hs| |apply report_grows_refl].
  intros p. rewrite (sp_posts _ _ _ _ Hs). by left.
Qed.

Lemma stepped_clock n w : wf_db (tw_db w) -> stepped env None w (with_step n w).
Proof.
  intros Hwf. split; try done. intros i nf _ row Hrow _. exists row. split; [done|]. by apply strengthens_refl, (Hwf i).
Qed.

(** What the walk tells its caller is on disk. *)
Definition told (attempted attempted' : list string) (w' : TrackingWorld)
    (res : result ResubmitReport FailedResubmission) : Prop :=
  match res with
  | Err failure => Forall (landed 2 w' share) (fr_outcome_unknown_urls failure)
  | Ok report =>
      Forall (landed 2 w' share) (rp_outcome_unknown_urls report)
      /\ match rp_outcome report with
         | DefinitelyAcceptedByHelper url =>
             landed 3 w' share url /\ url ∈ fleet /\ (length attempted < length attempted')%nat
         | _ => True
         end
  end.

Lemma landed_all w w' urls :
  evolves w w' -> Forall (landed 2 w share) urls -> Forall (landed 2 w' share) urls.
Proof. intros He Hl. eapply Forall_impl; [exact Hl|]. intros u. apply landed_evolves; [lia|done]. Qed.

Lemma told_shorter attempted url attempted' w' res :
  told (attempted ++ [url]) attempted' w' res -> told attempted attempted' w' res.
Proof.
  destruct res as [report|]; [|done]. cbn. intros [? Ho]. split; [done|].
  destruct (rp_outcome report); try done. rewrite length_app in Ho. cbn in Ho.
  destruct Ho as (? & ? & ?). split_and!; try done. lia.
Qed.

(** One request: asked, answered and settled. *)
Lemma request_settled url json now attempted w :
  url ∈ fleet -> url ∉ attempted -> past_cutoff params now = false -> request_content share json ->
  walking attempted w ->
  (alone_on env id nullifier -> keeps id nullifier (fun row => row_evidence row url <> EvNone) (tw_db w)) ->
  exists answer w1 settled w2, resubmit_share env id share url json now w = (Done answer, w1)
    /\ settle env params scope r url answer w1 = (Done settled, w2)
    /\ after attempted (attempted ++ [url]) w w2
    /\ (settled = Ok true ->
        (forall status, answer = Ok status -> landed 3 w2 share url)
        /\ (newly_unknown r url answer = true -> landed 2 w2 share url)).
Proof.
  intros Hu Hn Hc Hj Hw Hjournal.
  destruct (post_ok_step url json now attempted w Hu Hn Hc Hj Hw Hjournal)
    as (answer & w1 & Ep & Hw1 & He1 & Hr1 & Hl1 & p & Hp1 & Pi & Pr & Pu).
  destruct (settle_ok url answer w1 Hu (wo_wf _ (wk_world _ _ Hw1))) as (s & w2 & cl & Es & Hs & Hh & Hok).
  exists answer, w1, s, w2. split_and!; try done.
  - eapply after_trans; [|by eapply after_stepped]. split; try done; [|by apply grows_one].
    rewrite Hp1. intros q [Hq| ->%list_elem_of_singleton]%elem_of_app; [by left|by right].
  - intros Ht. destruct (Hok Ht) as [Hacc Hamb].
    assert (exists q, q ∈ tw_posts w2 /\ po_record q = share /\ po_url q = url) as Hq.
    { exists p. split; [|done]. rewrite (sp_posts _ _ _ _ Hs), Hp1. set_solver. }
    split; [intros status Ea; split; [done|]; intros _; by eapply Hacc|].
    intros Hnew. split; [done|]. intros _. by apply Hamb.
Qed.

Lemma after_one attempted url w w' :
  url ∈ fleet -> url ∉ attempted -> after attempted attempted w w' -> after attempted (attempted ++ [url]) w w'.
Proof. intros Hu Hn [A1 A2 A3 A4 A5 A6]. split; try done; [by apply walking_more|by apply grows_one]. Qed.

Lemma new_order_tail attempted url order :
  new_order fleet attempted (url :: order) ->
  url ∈ fleet /\ url ∉ attempted /\ new_order fleet (attempted ++ [url]) order.
Proof.
  intros [[Hno Hnd]%NoDup_cons Hin]. destruct (Hin url) as [Hu Hna]; [by left|]. split_and!; try done.
  split; [done|]. intros u Hx. destruct (Hin u) as [? Hn]; [by right|]. split; [done|].
  apply not_elem_of_app. split; [done|]. intros ->%list_elem_of_singleton. done.
Qed.

Lemma clock_after n attempted w : walking attempted w -> after attempted attempted w (with_step n w).
Proof. intros Hw. apply (after_stepped None); [done|done|]. apply stepped_clock, (wo_wf _ (wk_world _ _ Hw)). Qed.

Lemma try_helpers_ok json order : forall attempted unknown capacity w,
  request_content share json -> walking attempted w -> new_order fleet attempted order ->
  Forall (landed 2 w share) unknown ->
  exists res attempted' w', try_helpers env params scope r json order attempted unknown capacity w
                            = (Done (res, attempted'), w')
    /\ after attempted attempted' w w' /\ told attempted attempted' w' res.
Proof.
  induction order as [|url order IH]; intros attempted unknown capacity w Hj Hw Ho Hl.
  { eexists _, _, w. split; [done|]. split; [|done]. destruct w. by apply (clock_after _ _ _ Hw). }
  destruct (new_order_tail _ _ _ Ho) as (Hu & Hna & Htail).
  cbn [try_helpers]. unfold cancel, current_time, look, tr_bind. cbn [tw_step with_step].
  destruct (te_cancel env (tw_step w)).
  { eexists _, _, _. split; [done|]. pose proof (clock_after (S (tw_step w)) _ _ Hw) as Ha.
    split; [done|]. split; [|done]. by apply (landed_all w); [apply Ha|]. }
  pose proof (clock_after (S (S (tw_step w))) _ _ Hw) as Hclock.
  destruct (past_cutoff _ _) eqn:Ec.
  { eexists _, _, _. split; [done|]. split; [done|]. split; [|done]. by apply (landed_all w); [apply Hclock|]. }
  set (w0 := with_step (S (S (tw_step w))) w) in *.
  destruct (dispatch_ok url capacity attempted w0 Hu (af_walking _ _ _ _ Hclock)) as (d & w1 & Ed & Hs1 & Hd).
  match goal with |- context [may_dispatch _ _ _ _ _ _ ?x] => change x with w0 end. rewrite Ed. clear Ed.
  assert (after attempted attempted w w1) as Ha0.
  { eapply after_trans; [exact Hclock|]. apply (after_stepped None); [done|apply Hclock|done]. }
  assert (after attempted (attempted ++ [url]) w w1) as Ha1 by (by apply after_one).
  assert (forall unknown capacity w2, after attempted (attempted ++ [url]) w w2 ->
    Forall (landed 2 w2 share) unknown ->
    exists res attempted' w', try_helpers env params scope r json order (attempted ++ [url]) unknown capacity w2
                              = (Done (res, attempted'), w')
      /\ after attempted attempted' w w' /\ told attempted attempted' w' res) as Hgo.
  { intros unk cap w2 Ha2 Hl2. destruct (IH _ unk cap w2 Hj (af_walking _ _ _ _ Ha2) Htail Hl2)
      as (res & att & w' & E & Ha & Ht).
    exists res, att, w'. split; [done|]. split; [by eapply after_trans|by eapply told_shorter]. }
  assert (Forall (landed 2 w1 share) unknown) as Hl1 by (by apply (landed_all w); [apply Ha1|]).
  destruct d as [[| | |]|e]; [|by apply Hgo|by apply Hgo|eexists _, _, w1; by split_and!|eexists _, _, w1; by split_and!].
  destruct (request_settled url json _ attempted w1 Hu Hna Ec Hj (af_walking _ _ _ _ Ha0)
              (Hd eq_refl)) as (answer & w2 & settled & w3 & -> & -> & Ha3 & Hok).
  assert (after attempted (attempted ++ [url]) w w3) as Ha4 by (by apply (after_trans _ attempted _ _ w1)).
  assert (Forall (landed 2 w3 share) unknown) as Hl3 by (by apply (landed_all w1); [apply Ha3|]).
  destruct settled as [[|]|e]; [|eexists _, _, w3; by split_and!|eexists _, _, w3; by split_and!].
  destruct (Hok eq_refl) as [Hacc Hamb]. destruct (answer_ends url answer) as [outcome|] eqn:Ee.
  - eexists _, _, w3. split; [done|]. split; [done|]. split; [done|]. cbn.
    destruct answer as [status|[]]; cbn in Ee; simplify_eq; try done.
    split_and!; [by eapply Hacc|done|]. rewrite length_app. cbn. lia.
  - apply Hgo; [done|]. destruct (newly_unknown r url answer); [|done].
    apply Forall_app. split; [done|]. apply Forall_singleton. by apply Hamb.
Qed.

Definition schedule_ok : Prop :=
  match rq_schedule r with
  | PreserveScheduledSubmitAt t => t = sr_submit_at share
  | Immediate => exists now vote_end, tp_vote_end_time_seconds params = Some vote_end
      /\ should_resubmit_share share now vote_end (tp_policy params) = true
  end.

Lemma resubmit_ok attempted w :
  schedule_ok -> walking attempted w ->
  exists res attempted' w', resubmit_to_next_helper env params scope r attempted w
                            = (Done (res, attempted'), w')
    /\ after attempted attempted' w w' /\ told attempted attempted' w' res.
Proof.
  intros Hsch Hw. unfold resubmit_to_next_helper, tr_bind.
  destruct (query_step env (helper_recovery_material_for_wallet scope (tp_round_id params)
    (sr_bundle_index share) (sr_proposal_id share)) w Hothers (wo_wf _ (wk_world _ _ Hw))) as (m & w1 & -> & Hs1 & _).
  pose proof (after_stepped None attempted w w1 harmless_none Hw Hs1) as Ha1.
  assert (forall outcome, (forall url, outcome <> DefinitelyAcceptedByHelper url) ->
    told attempted attempted w1 (Ok (mk_resubmit_report outcome []))) as Hnone.
  { intros outcome Ho. split; [by apply Forall_nil|]. cbn. destruct outcome; try done. by destruct (Ho server_url). }
  destruct m as [[bundle| |]|e]; [|eexists _, _, w1; split_and!; [done|done|by apply Hnone]..
    |eexists _, _, w1; split_and!; [done|done|by apply Forall_nil]].
  destruct (recover_wire_json _ _ _ _ _) as [json|] eqn:Ej; [|eexists _, _, w1; split_and!; [done|done|by apply Hnone]].
  destruct (nullifier_from_recovery_json _ _ _) as [nf|] eqn:En; [|eexists _, _, w1; split_and!; [done|done|by apply Hnone]].
  unfold resubmit_recovered. case_bool_decide as Hnf.
  - subst nf. unfold tr_bind. destruct (recovery_order_ok env params fleet r attempted w1 Hr) as (order & n & -> & Ho).
    pose proof (clock_after n _ _ (af_walking _ _ _ _ Ha1)) as Hc.
    assert (after attempted attempted w (with_step n w1)) as Ha2 by (by apply (after_trans _ attempted _ _ w1)).
    destruct order as [order|e]; [|eexists _, _, _; split_and!; [done|done|by apply Forall_nil]].
    destruct (try_helpers_ok json order attempted [] false (with_step n w1)) as (res & att & w' & E & Ha & Ht).
    + exists (rc_commitment_bundle_json bundle), (rc_vc_tree_position bundle), (schedule_submit_at (rq_schedule r)).
      split_and!; [done|done|]. unfold schedule_ok in Hsch. destruct (rq_schedule r); [by left|by right].
    + apply Ha2.
    + done.
    + by apply Forall_nil.
    + exists res, att, w'. split_and!; [done| |done]. by apply (after_trans _ attempted _ _ (with_step n w1)).
  - unfold tr_bind.
    destruct (query_step env (is_current_generation id nullifier) w1 Hothers (wo_wf _ (wk_world _ _ (af_walking _ _ _ _ Ha1))))
      as (cur & w2 & -> & Hs2 & _).
    pose proof (after_stepped None attempted w1 w2 harmless_none (af_walking _ _ _ _ Ha1) Hs2) as Ha2.
    assert (after attempted attempted w w2) as Ha3 by (by apply (after_trans _ attempted _ _ w1)).
    destruct cur as [[]|]; eexists _, _, w2; (split_and!; [done|done|]); cbn; try split; done || by apply Forall_nil.
Qed.
End one_share.

(** *** Until enough helpers have the share *)
Hypothesis (Hothers : others_wf env) (Hcanonical : Forall canonical_url fleet).

(** A step of the pass that concerns one share. *)
Record passes (id : ShareId) (w w' : TrackingWorld) : Prop := {
  ps_ok : world_ok w';
  ps_evolves : evolves w w';
  ps_posts : forall p, p ∈ tw_posts w' -> p ∈ tw_posts w \/ po_share p = id
}.

Lemma passes_refl id w : world_ok w -> passes id w w.
Proof. intros Hw. split; [done|done|]. by left. Qed.

Lemma passes_trans id a b c : passes id a b -> passes id b c -> passes id a c.
Proof.
  intros [A1 A2 A3] [B1 B2 B3]. split; [done|by etrans|]. intros p Hp.
  destruct (B3 p Hp) as [Hp'|?]; [by apply A3|by right].
Qed.

Lemma accepted_evidence s u : u ∈ dv_accepted_urls s <-> evidence s u = EvAccepted.
Proof. unfold evidence. repeat case_bool_decide; naive_solver. Qed.

(** Only the report has changed. *)
Lemma report_evolves w report : evolves w (with_report report w).
Proof. split; [done|done|]. intros id nf _ row' Hrow _. exists row'. by split_and!. Qed.

Lemma report_world w report :
  world_ok w ->
  Forall (backed 3 w) (tr_resubmitted report) -> Forall (backed 2 w) (tr_ambiguous report) ->
  Forall (confirmed_in w) (tr_confirmed report) -> world_ok (with_report report w).
Proof. intros [] ? ? ?. by split. Qed.

Lemma report_passes id w report :
  world_ok (with_report report w) -> passes id w (with_report report w).
Proof. intros Hw. split; [done|apply report_evolves|]. by left. Qed.

Lemma ambiguous_effects share urls : forall delivery w,
  world_ok w -> Forall (landed 2 w share) urls ->
  exists out report, record_ambiguous_recovery_effects share urls delivery w
                     = (out, with_report report w)
    /\ world_ok (with_report report w) /\ out <> Starved
    /\ forall delivery', out = Done delivery' ->
         forall u, u ∈ dv_accepted_urls delivery' <-> u ∈ dv_accepted_urls delivery.
Proof.
  induction urls as [|url urls IH]; intros delivery w Hw Hl.
  { exists (Done delivery), (tw_report w). destruct w. split_and!; try done. by intros ? [= ->]. }
  apply Forall_cons in Hl as [Hu Hl]. cbn [record_ambiguous_recovery_effects].
  unfold tr_bind, mark_outcome_unknown. destruct (canonicalize url) as [v|e]; cbn [tr_lift].
  2: { exists (Raised e), (tw_report w). destruct w. by split_and!. }
  cbn [tr_ret]. set (d1 := mark_outcome_unknown_canonical delivery v).
  assert (forall u, u ∈ dv_accepted_urls d1 <-> u ∈ dv_accepted_urls delivery) as Hd1.
  { intros u. rewrite !accepted_evidence. unfold d1. rewrite evidence_unknown.
    repeat case_decide; naive_solver. }
  assert (forall w1, world_ok w1 -> (exists rep, w1 = with_report rep w) -> Forall (landed 2 w1 share) urls ->
    exists out report, record_ambiguous_recovery_effects share urls d1 w1 = (out, with_report report w)
      /\ world_ok (with_report report w) /\ out <> Starved
      /\ forall delivery', out = Done delivery' ->
           forall u, u ∈ dv_accepted_urls delivery' <-> u ∈ dv_accepted_urls delivery) as Hgo.
  { intros w1 Hw1 [rep ->] Hl1. destruct (IH d1 _ Hw1 Hl1) as (out & rep2 & -> & Hw2 & Hout & Hacc).
    exists out, rep2. split_and!; [done|done|done|]. intros d' Hd u. by rewrite (Hacc d' Hd). }
  case_bool_decide; cbn [on_report tr_ret].
  - apply Hgo; [|by eexists|].
    + apply report_world; try apply Hw. cbn. apply Forall_app. split; [apply Hw|]. apply Forall_singleton.
      by exists share.
    + eapply Forall_impl; [exact Hl|]. intros u. apply landed_evolves; [lia|]. apply report_evolves.
  - apply Hgo; [done|exists (tw_report w); by destruct w|done].
Qed.

Definition recovery_ok (c : ShareRecovery) : Prop :=
  forall delivery, request_ok fleet (request_of c delivery) /\ schedule_ok (request_of c delivery).

Lemma walking_next c delivery delivery' attempted w report :
  walking (request_of c delivery) attempted w -> world_ok (with_report report w) ->
  (forall u, u ∈ dv_accepted_urls delivery' ->
     u ∈ dv_accepted_urls delivery \/ landed 3 w (rw_share c) u) ->
  walking (request_of c delivery') attempted (with_report report w).
Proof.
  intros [_ Hk Ha] Hw Hacc. split; [done| |exact Ha]. intros Hal row Hrow Hn.
  destruct (Hk Hal row Hrow Hn) as (K1 & K2 & K3). split_and!; try done. intros u Hu. cbn in *.
  destruct (Hacc u Hu) as [?|[_ Hl]]; [by apply K1|]. by apply Hl.
Qed.

Lemma asked_within attempted : NoDup attempted -> (forall u, u ∈ attempted -> u ∈ fleet) ->
  (length attempted <= length fleet)%nat.
Proof. intros Hn Hs. by apply submseteq_length, NoDup_submseteq. Qed.

Lemma after_passes r attempted attempted' w w' :
  after r attempted attempted' w w' -> passes (id_of (rq_share r)) w w'.
Proof. intros [A1 A2 A3 A4 A5 A6]. split; [apply A1|done|done]. Qed.

Lemma add_resubmitted_ok w share url :
  world_ok w -> landed 3 w share url ->
  world_ok (with_report (add_resubmitted (mk_resubmitted (share_key_of share) url) (tw_report w)) w).
Proof.
  intros Hw Hl. apply report_world; try apply Hw. cbn. apply Forall_app. split; [apply Hw|].
  apply Forall_singleton. by exists share.
Qed.

Lemma recover_share_ok fuel c : forall delivery attempted w,
  recovery_ok c -> walking (request_of c delivery) attempted w ->
  NoDup attempted -> (forall u, u ∈ attempted -> u ∈ fleet) -> (length fleet < fuel + length attempted)%nat ->
  exists out w', recover_share env fuel params scope c delivery attempted w = (out, w')
    /\ out <> Starved /\ passes (id_of (rw_share c)) w w'.
Proof.
  induction fuel as [|fuel IH]; intros delivery attempted w Hc Hw Hnd Hin Hfuel.
  { pose proof (asked_within attempted Hnd Hin). lia. }
  destruct (Hc delivery) as [Hreq Hsch]. cbn [recover_share]. unfold tr_bind at 1.
  destruct (resubmit_ok (request_of c delivery) Hothers Hcanonical Hreq attempted w Hsch Hw)
    as (res & att & w1 & -> & Ha & Ht). cbn [fst snd].
  pose proof (after_passes _ _ _ _ _ Ha) as Hp1. cbn [rq_share request_of] in Hp1.
  pose proof (af_walking _ _ _ _ _ Ha) as Hw1. pose proof (wk_world _ _ _ Hw1) as Hok1.
  destruct res as [rep|failure]; cbn in Ht.
  2: { destruct (ambiguous_effects (rw_share c) _ delivery w1 Hok1 Ht) as (out & report & E & Hok2 & Hst & _).
       unfold tr_bind, tr_raise. rewrite E.
       assert (passes (id_of (rw_share c)) w (with_report report w1)) as Hp2
         by (eapply passes_trans; [done|by apply report_passes]).
       destruct out; [by eexists _, _|by eexists _, _|done]. }
  destruct Ht as [Hunk Hout].
  destruct (ambiguous_effects (rw_share c) _ delivery w1 Hok1 Hunk) as (out & report & E & Hok2 & Hst & Hacc).
  set (w2 := with_report report w1) in *.
  assert (forall rep', world_ok (with_report rep' w2) -> passes (id_of (rw_share c)) w (with_report rep' w2)) as Hp2.
  { intros rep' Hw'. eapply passes_trans; [exact Hp1|]. apply (report_passes _ w1 rep' Hw'). }
  assert (passes (id_of (rw_share c)) w w2) as Hp3 by (apply (Hp2 report Hok2)).
  destruct (rp_outcome rep) as [url| | | | | |]; try (by eexists _, _);
    unfold tr_bind at 1; rewrite E; (destruct out as [d1|e|]; [|by eexists _, _|done]); try (by eexists _, _).
  - destruct Hout as (Hl & Hu & Hlen). specialize (Hacc d1 eq_refl).
    unfold mark_accepted. rewrite list.Forall_forall in Hcanonical. rewrite (Hcanonical url Hu).
    unfold tr_bind, tr_lift, tr_ret, on_report.
    assert (landed 3 w2 (rw_share c) url) as Hl2 by (eapply landed_evolves; [|apply report_evolves|exact Hl]; lia).
    pose proof (add_resubmitted_ok w2 _ _ Hok2 Hl2) as Hok3. set (rep3 := add_resubmitted _ _) in *.
    destruct (_ && _); [eexists _, _; split_and!; [done|done|by apply Hp2]|].
    destruct (af_grows _ _ _ _ _ Ha) as (used & -> & Hnu & Hsu).
    destruct (IH (mark_accepted_canonical d1 url) (attempted ++ used) (with_report rep3 w2)) as (out & w3 & E3 & Ho3 & Hp4).
    + done.
    + apply (walking_next c delivery _ _ w1 rep3 Hw1 Hok3). intros u.
      rewrite accepted_evidence, evidence_accepted. case_decide as Hd; [subst; by right|].
      rewrite <- accepted_evidence, Hacc. by left.
    + apply NoDup_app. split_and!; try done. intros u Hx Hy. by destruct (Hsu u Hy).
    + intros u [Hx|Hx]%elem_of_app; [by apply Hin|]. by apply Hsu.
    + rewrite length_app in *. lia.
    + exists out, w3. split_and!; [exact E3|done|]. eapply passes_trans; [by apply Hp2|done].
  - eexists _, _. split; [reflexivity|]. split; [done|]. apply Hp2. apply report_world; apply Hok2.
  - eexists _, _. split; [reflexivity|]. split; [done|]. apply Hp2. apply report_world; apply Hok2.
Qed.

(** *** Asking whether it is confirmed *)
Hypothesis (Hdistinct : NoDup fleet).

(** A search looks at its clock again after the budget is spent. *)
Definition polls_return : Prop :=
  forall n, exists turn, turn ∈ te_poll_turns env n
    /\ te_poll_started env n + SHARE_STATUS_POLL_BUDGET_MILLISECONDS <= pt_now turn.

Lemma poll_world w n p : world_ok w -> world_ok (with_step n (with_poll p w)) /\ evolves w (with_step n (with_poll p w)).
Proof.
  intros Hw. assert (evolves w (with_step n (with_poll p w))) as He.
  { split; [done|cbn; set_solver|]. intros id nf _ row' Hrow _. exists row'. by split_and!. }
  split; [|done]. destruct (reports_evolve w _ He eq_refl Hw) as (? & ? & ?). destruct Hw. by split.
Qed.

Lemma clock_world n w : world_ok w -> world_ok (with_step n w) /\ evolves w (with_step n w).
Proof.
  intros Hw. pose proof (stepped_clock n w (wo_wf _ Hw)) as Hs.
  split; [by eapply stepped_ok|by eapply stepped_evolves].
Qed.

Lemma passes_quiet id w w' :
  world_ok w' -> evolves w w' -> tw_posts w' = tw_posts w -> passes id w w'.
Proof. intros Hw He Hp. split; [done|done|]. rewrite Hp. by left. Qed.

Lemma stepped_passes id cleared w w' : stepped env cleared w w' -> world_ok w -> passes id w w'.
Proof.
  intros Hs Hw. apply passes_quiet; [by eapply stepped_ok|by eapply stepped_evolves|apply Hs].
Qed.

(** The share is confirmed on disk, and the helpers that say so are known. *)
Definition confirmation (w : TrackingWorld) (share : ShareDelegationRecord) : Prop :=
  exists poll voters, poll ∈ tw_polls w /\ pl_share poll = id_of share
    /\ pl_nullifier poll = sr_nullifier share /\ quorum fleet (pl_answers poll) voters
    /\ keeps (id_of share) (sr_nullifier share) (fun row => sh_confirmed row = true) (tw_db w).

(** The evidence on disk has only been added to. *)
Definition calm (w w' : TrackingWorld) : Prop :=
  forall id nullifier, alone_on env id nullifier -> moves None id nullifier (tw_db w) (tw_db w').

Lemma calm_same w w' : wf_db (tw_db w) -> tw_db w' = tw_db w -> calm w w'.
Proof.
  intros Hwf E id nf _ row Hrow _. rewrite E in Hrow. exists row. split; [done|]. by apply strengthens_refl, (Hwf id).
Qed.

Lemma poll_and_confirm_ok share now w :
  world_ok w -> sr_confirmed share = false ->
  exists out w', poll_and_confirm_share env scope (tp_round_id params) share fleet now w = (out, w')
    /\ passes (id_of share) w w' /\ calm w w' /\ tw_posts w' = tw_posts w
    /\ (polls_return -> out <> Starved)
    /\ forall c, out = Done c -> cr_confirmed c = true -> confirmation w' share.
Proof.
  intros Hw Hun. unfold poll_and_confirm_share. rewrite Hun. unfold tr_bind at 1. unfold poll_share.
  set (n := tw_step w).
  destruct (poll_share_helpers (te_health env n) fleet now (te_poll_started env n) (te_poll_turns env n))
    as [[[outcome s] degraded]|] eqn:Ep.
  - set (p := mk_poll _ _ _ _). destruct (poll_world w (S n) p Hw) as [Hw1 He1].
    set (w1 := with_step (S n) (with_poll p w)) in *.
    assert (passes (id_of share) w w1) as Hp1 by (by apply passes_quiet).
    assert (calm w w1) as Hc1 by (apply calm_same; [apply wo_wf, Hw|done]).
    destruct outcome; [|eexists _, _; split_and!; [done|done|done|done|done|by intros c [= <-]]..].
    destruct (confirm_step env (id_of share) (sr_nullifier share) w1 Hothers (wo_wf _ Hw1)) as (res & w2 & E & Hs & Hc).
    unfold tr_bind, try_storage, tr_bind. rewrite E.
    assert (passes (id_of share) w w2) as Hp2.
    { eapply passes_trans; [done|]. by eapply stepped_passes. }
    assert (calm w w2) as Hc2 by (exact (sp_moves _ _ _ _ Hs)).
    destruct res as [confirmed|e]; [|eexists _, _; split_and!; [done|done|done|apply Hs|done|by intros c [=]]].
    eexists _, _. split_and!; [done|done|done|apply Hs|done|]. intros c [= <-]. cbn. intros ->.
    destruct (poll_quorum _ _ _ _ _ _ _ _ Hdistinct Ep) as [voters Hq].
    exists p, voters. split_and!; try done.
    + rewrite (sp_polls _ _ _ _ Hs). cbn. set_solver.
    + intros row Hrow _. destruct (Hc eq_refl) as (row' & Hrow' & _ & Hconf). congruence.
  - destruct (clock_world (S n) w Hw) as [Hw1 He1]. eexists _, _. split_and!; [done|by apply passes_quiet|apply calm_same; [apply wo_wf, Hw|done]|done| |done].
    intros Hret. destruct (Hret n) as (turn & Hin & Hnow).
    destruct (poll_loop_returns (Nat.min REQUIRED_CONFIRMATIONS (length fleet)) _ _
      (mk_poll_state (candidate_servers (te_health env n) fleet now).1 [] [] 0 []) turn Hin Hnow) as [res Hres].
    exfalso. revert Ep. unfold poll_share_helpers, poll_share_helpers_with_budget. case_bool_decide; [done|].
    by rewrite Hres.
Qed.

(** *** One share *)
Record prepared (share : ShareDelegationRecord) (unknown interrupted : list string)
    (delivery : ShareDeliveryState) (w : TrackingWorld) : Prop := {
  pr_ok : world_ok w;
  pr_unknown : NoDup unknown /\ forall u, u ∈ unknown -> u ∈ fleet;
  pr_interrupted : NoDup interrupted /\ forall u, u ∈ interrupted -> u ∈ fleet /\ u ∉ unknown;
  pr_held : alone_on env (id_of share) (sr_nullifier share) ->
    keeps (id_of share) (sr_nullifier share)
      (held (mk_request share fleet (dv_accepted_urls delivery) unknown interrupted 0 Immediate FullRecoveryOrder))
      (tw_db w);
  pr_none : forall p, p ∈ tw_posts w -> po_share p <> id_of share
}.

Lemma prepared_calm share unknown interrupted delivery w w' :
  prepared share unknown interrupted delivery w -> calm w w' -> world_ok w' -> tw_posts w' = tw_posts w ->
  prepared share unknown interrupted delivery w'.
Proof.
  intros [P1 P2 P3 P4 P5] Hc Hw Hp. split; try done; [|by rewrite Hp].
  intros Hal. eapply keeps_moves; [|by apply Hc|by apply P4]. intros row row'. apply held_strengthens. done.
Qed.

Lemma recover_if_needed_ok share unknown interrupted delivery target w :
  prepared share unknown interrupted delivery w ->
  exists out w', recover_if_needed env params scope share fleet unknown interrupted delivery target w
                 = (out, w')
    /\ out <> Starved /\ passes (id_of share) w w'.
Proof.
  intros Hpr. unfold recover_if_needed, current_time, look, tr_bind at 1.
  set (n := tw_step w). destruct (clock_world (S n) w (pr_ok _ _ _ _ _ Hpr)) as [Hw1 He1].
  assert (passes (id_of share) w (with_step (S n) w)) as Hp1 by (by apply passes_quiet).
  set (now := saturating_add_u64 _ _). set (flags := share_tracking_flags _ _ _ _).
  destruct (_ && _); [|by eexists _, _].
  set (c := mk_share_recovery _ _ _ _ _ _ _).
  destruct (recover_share_ok (S (length fleet)) c delivery [] (with_step (S n) w)) as (out & w' & E & Hout & Hp).
  - intros d. split.
    + destruct Hpr as [_ [? ?] [? Hi] _ _]. split; cbn; try done; intros u Hu; by apply Hi.
    + unfold schedule_ok, c. cbn [request_of rq_schedule rw_schedule]. destruct (fl_overdue_for_retry flags) eqn:Eo; [|done].
      unfold flags, share_tracking_flags in Eo. cbn in Eo. exists now.
      destruct (tp_vote_end_time_seconds params) as [ve|]; [|done]. by exists ve.
  - destruct Hpr as [_ _ _ Hh Hn]. split; [done|exact Hh|]. intros p Hp Hi. by destruct (Hn p Hp).
  - apply NoDup_nil_2.
  - intros u Hu. by apply elem_of_nil in Hu.
  - cbn. lia.
  - unfold tr_bind. rewrite E. pose proof (passes_trans _ _ _ _ Hp1 Hp) as Hp2.
    destruct out as [u|e|]; [by eexists _, _|by eexists _, _|done].
Qed.

Lemma fleet_filter_Forall (P : string -> Prop) l : Forall P l -> Forall P (filter (fun url => url ∈ fleet) l).
Proof.
  rewrite !list.Forall_forall. intros Hp u Hu. apply list_elem_of_filter in Hu as [_ Hu]. by apply Hp.
Qed.

Lemma record_facts id row share :
  wf_row row -> share_record id row = Ok share ->
  exists st, load_delivery row = Ok st /\ wf_delivery (sv_state st)
    /\ sr_sent_to_urls share = dv_accepted_urls (sv_state st)
    /\ sr_ambiguous_urls share = dv_outcome_unknown_urls (sv_state st)
    /\ sr_attempting_urls share = dv_in_flight_urls (sv_state st)
    /\ sr_nullifier share = sh_nullifier row /\ sr_confirmed share = sh_confirmed row
    /\ id = ((sr_round_id share, id.1.1.1.2, sr_bundle_index share, sr_proposal_id share), sr_share_index share).
Proof.
  intros Hw. unfold share_record. destruct id as [[[[round wallet] bundle] proposal] index].
  destruct (load_wf _ Hw) as (st & -> & Hst & _). intros [= <-]. exists st. split_and!; try done. apply Hst.
Qed.

(** The lists of the share as it was read, within the fleet. *)
Lemma share_prepared share row delivery w :
  let configured := filter (fun url => url ∈ fleet) in
  world_ok w -> sd_shares (tw_db w) !! id_of share = Some row -> share_record (id_of share) row = Ok share ->
  (forall p, p ∈ tw_posts w -> po_share p <> id_of share) ->
  from_url_lists (configured (sr_sent_to_urls share)) (configured (sr_ambiguous_urls share))
    (configured (sr_attempting_urls share)) = Ok delivery ->
  prepared share (configured (sr_ambiguous_urls share)) (configured (sr_attempting_urls share)) delivery w.
Proof.
  cbn zeta. intros Hw Hrow Hrec Hnone Hd.
  destruct (record_facts _ _ _ (wo_wf _ Hw _ _ Hrow) Hrec) as (st & Hl & Hst & Es & Ea & Et & _).
  destruct (wf_lists _ Hst) as (Ca & Cu & Cf). rewrite <- Es in Ca. rewrite <- Ea in Cu. rewrite <- Et in Cf.
  assert (forall l, Forall canonical_url l -> Forall sound_url (filter (fun url => url ∈ fleet) l)) as Hsound.
  { intros l Hc. apply fleet_filter_Forall. eapply Forall_impl; [exact Hc|]. apply canonical_sound. }
  destruct (from_url_lists_spec _ _ _ _ (Hsound _ Ca) (Hsound _ Cu) (Hsound _ Cf) Hd)
    as (_ & a' & u' & f' & Ha' & _ & _ & Hev).
  pose proof Hst as [Na Nu Nf _ Hfo _].
  rewrite canonical_list_distinct in Ha'; [|by apply fleet_filter_Forall|rewrite Es; by apply NoDup_filter].
  simplify_eq. split; [done| | | |done].
  - split; [rewrite Ea; by apply NoDup_filter|]. intros u. rewrite list_elem_of_filter. tauto.
  - split; [rewrite Et; by apply NoDup_filter|]. intros u. rewrite !list_elem_of_filter, Et, Ea.
    intros [? Hu]. destruct (Hfo u Hu). tauto.
  - intros _ row' Hrow' _. rewrite Hrow in Hrow'. simplify_eq. unfold held, row_evidence. rewrite Hl. cbn.
    split_and!; intros u Hu.
    + apply accepted_evidence in Hu. rewrite Hev in Hu. case_bool_decide as Hin; [|by repeat case_bool_decide].
      apply list_elem_of_filter in Hin as [_ Hin]. rewrite Es in Hin.
      apply accepted_evidence in Hin. rewrite Hin. done.
    + apply list_elem_of_filter in Hu as [_ Hu]. rewrite Ea in Hu. unfold evidence.
      repeat case_bool_decide; cbn; done || lia.
    + apply list_elem_of_filter in Hu as [_ Hu]. rewrite Et in Hu. unfold evidence.
      repeat case_bool_decide; cbn; done || lia.
Qed.

Lemma check_status_ok ready share now w :
  world_ok w -> sr_confirmed share = false ->
  exists out w', check_status env ready scope (tp_round_id params) share fleet now w = (out, w')
    /\ passes (id_of share) w w' /\ calm w w' /\ tw_posts w' = tw_posts w
    /\ (polls_return -> out <> Starved)
    /\ forall c, out = Done c -> cr_confirmed c = true -> confirmation w' share.
Proof.
  intros Hw Hun. unfold check_status. destruct ready; [by apply poll_and_confirm_ok|].
  eexists _, _. split_and!; [done|by apply passes_refl|apply calm_same; [apply Hw|done]|done|done|by intros c [= <-]].
Qed.

Lemma cancelled_passes id w : world_ok w -> passes id w (with_report (set_cancelled (tw_report w)) w).
Proof. intros Hw. apply report_passes, report_world; apply Hw. Qed.

Lemma confirmed_passes share w :
  world_ok w -> confirmation w share ->
  passes (id_of share) w (with_report (add_confirmed (share_key_of share) (tw_report w)) w).
Proof.
  intros Hw (poll & voters & ? & ? & ? & ? & Hk). apply report_passes, report_world; try apply Hw.
  cbn. apply Forall_app. split; [apply Hw|]. apply Forall_singleton. exists share, poll, voters. by split_and!.
Qed.

Lemma track_share_ok share row w :
  world_ok w -> sd_shares (tw_db w) !! id_of share = Some row -> share_record (id_of share) row = Ok share ->
  sr_confirmed share = false -> (forall p, p ∈ tw_posts w -> po_share p <> id_of share) ->
  exists out w', track_share env params scope fleet share w = (out, w')
    /\ passes (id_of share) w w' /\ (polls_return -> out <> Starved).
Proof.
  intros Hw Hrow Hrec Hun Hnone. unfold track_share. unfold tr_bind at 1.
  destruct (from_url_lists _ _ _) as [delivery|e] eqn:Ed; cbn [tr_lift];
    [|by eexists _, _; split_and!; [done|apply passes_refl|]].
  pose proof (share_prepared share row delivery w Hw Hrow Hrec Hnone Ed) as Hpr.
  unfold tr_ret, current_time, look, tr_bind at 1. set (n := tw_step w).
  destruct (clock_world (S n) w Hw) as [Hw1 He1]. set (w1 := with_step (S n) w) in *.
  assert (passes (id_of share) w w1) as Hp1 by (by apply passes_quiet).
  assert (calm w w1) as Hc1 by (apply calm_same; [apply Hw|done]).
  pose proof (prepared_calm _ _ _ _ _ _ Hpr Hc1 Hw1 eq_refl) as Hpr1.
  destruct (_ && _ && _); [by eexists _, _|].
  set (now := saturating_add_u64 _ _). set (flags := share_tracking_flags _ _ _ _). unfold tr_bind at 1.
  destruct (check_status_ok (fl_ready_for_status_check flags) share now w1 Hw1 Hun)
    as (out & w2 & -> & Hp2 & Hc2 & Hposts & Hret & Hconf).
  pose proof (passes_trans _ _ _ _ Hp1 Hp2) as Hp3.
  destruct out as [c|e|]; [|by eexists _, _|by eexists _, _; split_and!; [..|intros Hx; by specialize (Hret Hx)]].
  destruct (cr_cancelled c).
  { eexists _, _. split_and!; [done| |done]. eapply passes_trans; [exact Hp3|]. apply cancelled_passes, Hp2. }
  destruct (cr_confirmed c) eqn:Ec.
  { eexists _, _. split_and!; [done| |done]. eapply passes_trans; [exact Hp3|].
    apply confirmed_passes; [apply Hp2|]. by apply (Hconf c). }
  pose proof (prepared_calm _ _ _ _ _ _ Hpr1 Hc2 (ps_ok _ _ _ Hp2) Hposts) as Hpr2.
  match goal with |- context [recover_if_needed _ _ _ _ _ _ _ _ ?target w2] =>
    destruct (recover_if_needed_ok share _ _ delivery target w2 Hpr2) as (out & w3 & E & Hout & Hp4) end.
  rewrite E. exists out, w3. split_and!; [done| |done]. by eapply passes_trans.
Qed.

Lemma read_share loaded w share :
  wf_db (tw_db w) -> get_share_delegation (id_of loaded) (tw_db w) = Ok (Some share) ->
  id_of share = id_of loaded /\ exists row, sd_shares (tw_db w) !! id_of share = Some row
    /\ share_record (id_of share) row = Ok share.
Proof.
  intros Hwf Hg. unfold get_share_delegation in Hg.
  destruct (sd_shares (tw_db w) !! id_of loaded) as [row|] eqn:Er; [|done].
  destruct (share_record (id_of loaded) row) as [s|] eqn:Es; [|done]. cbn in Hg. simplify_eq.
  destruct (record_facts _ _ _ (Hwf _ _ Er) Es) as (st & _ & _ & _ & _ & _ & _ & _ & Hid).
  assert (id_of share = id_of loaded) as E.
  { unfold share_id_of in Hid |- *. cbn in Hid. injection Hid as _ E1 E2 E3. by rewrite E1, E2, E3. }
  split; [done|]. exists row. by rewrite E.
Qed.

Lemma track_loaded_ok loaded w :
  world_ok w -> (forall p, p ∈ tw_posts w -> po_share p <> id_of loaded) ->
  exists out w', track_loaded env params scope fleet loaded w = (out, w')
    /\ passes (id_of loaded) w w' /\ (polls_return -> out <> Starved).
Proof.
  intros Hw Hnone. unfold track_loaded, cancel, look. unfold tr_bind at 1.
  destruct (clock_world (S (tw_step w)) w Hw) as [Hw1 He1].
  destruct (te_cancel env (tw_step w)).
  { eexists _, _. split_and!; [done| |done]. eapply passes_trans; [by apply passes_quiet|by apply cancelled_passes]. }
  unfold lock_share_operation_or_cancel, look, tr_bind at 1 2. cbn [tw_step with_step].
  destruct (clock_world (S (S (tw_step w))) w Hw) as [Hw2 He2].
  assert (passes (id_of loaded) w (with_step (S (S (tw_step w))) w)) as Hp2 by (by apply passes_quiet).
  set (w2 := with_step (S (S (tw_step w))) w) in *.
  destruct (te_lock env (S (tw_step w))) as [[|]|e]; cbn [tr_lift tr_ret tr_raise negb];
    [|eexists _, _; split_and!; [done| |done]; eapply passes_trans; [exact Hp2|by apply cancelled_passes]
     |by eexists _, _].
  match goal with |- context [tr_bind _ _ ?x] => change x with w2 end.
  unfold tr_bind, try_storage, tr_bind.
  destruct (query_step env (get_share_delegation (id_of loaded)) w2 Hothers (wo_wf _ Hw2)) as (res & w3 & -> & Hs & Hres).
  pose proof (stepped_passes (id_of loaded) _ _ _ Hs Hw2) as Hp3.
  pose proof (passes_trans _ _ _ _ Hp2 Hp3) as Hp4.
  destruct res as [[share|]|e]; cbn [tr_lift]; try by eexists _, _.
  unfold tr_ret. destruct (negb (sr_confirmed share) && _) eqn:Ec; [|by eexists _, _].
  apply andb_true_iff in Ec as [Hun _]. apply negb_true_iff in Hun.
  destruct Hres as [[e ?]|Hres]; [done|].
  destruct (read_share loaded w3 share (sp_wf _ _ _ _ Hs) (eq_sym Hres)) as (Eid & row & Hrow & Hrec).
  destruct (track_share_ok share row w3 (ps_ok _ _ _ Hp3) Hrow Hrec Hun) as (out & w4 & E & Hp5 & Hout).
  { rewrite Eid, (sp_posts _ _ _ _ Hs). exact Hnone. }
  exists out, w4. split_and!; [done| |done]. rewrite Eid in Hp5. by eapply passes_trans.
Qed.

(** *** The pass *)
Record passed (ids : list ShareId) (w w' : TrackingWorld) : Prop := {
  pd_ok : world_ok w';
  pd_evolves : evolves w w';
  pd_posts : forall p, p ∈ tw_posts w' -> p ∈ tw_posts w \/ po_share p ∈ ids
}.

Lemma walk_shares_ok shares : forall w,
  world_ok w -> NoDup (map (fun share => id_of share) shares) ->
  (forall p, p ∈ tw_posts w -> po_share p ∉ map (fun share => id_of share) shares) ->
  exists out w', walk_shares env params scope fleet shares w = (out, w')
    /\ passed (map (fun share => id_of share) shares) w w' /\ (polls_return -> out <> Starved).
Proof.
  induction shares as [|loaded shares IH]; intros w Hw Hnd Hnone.
  { eexists _, _. split_and!; [done| |done]. split; [done|done|]. by left. }
  cbn [map] in *. apply NoDup_cons in Hnd as [Hno Hnd]. cbn [walk_shares]. unfold tr_bind.
  destruct (track_loaded_ok loaded w Hw) as (out & w1 & -> & [P1 P2 P3] & Hout).
  { intros p Hp E. apply (Hnone p Hp). rewrite E. by left. }
  assert (passed (id_of loaded :: map (fun share => id_of share) shares) w w1) as Hp1.
  { split; [done|done|]. intros p Hp. destruct (P3 p Hp) as [?| ->]; [by left|right; by left]. }
  destruct out as [[|]|e|]; [|by eexists _, _|by eexists _, _
    |eexists _, _; split_and!; [done|done|intros Hx; by specialize (Hout Hx)]].
  destruct (IH w1 P1 Hnd) as (out & w2 & E & [Q1 Q2 Q3] & Hout2).
  { intros p Hp. destruct (P3 p Hp) as [Hp0| ->]; [|done]. specialize (Hnone p Hp0).
    intros Hx. apply Hnone. by right. }
  exists out, w2. split_and!; [done| |done]. split; [done|by etrans|]. intros p Hp.
  destruct (Q3 p Hp) as [Hq|Hq]; [|right; by right]. by apply Hp1.
Qed.

Lemma record_ids rows shares :
  (forall kv, kv ∈ rows -> wf_row kv.2 /\ in_round (tp_round_id params) scope kv.1 = true) ->
  load_share_delegations rows = Ok shares -> map (fun share => id_of share) shares = map fst rows.
Proof.
  revert shares. induction rows as [|[id row] rows IH]; intros shares Hin Hl; unfold load_share_delegations in *.
  { cbn in Hl. by simplify_eq. }
  cbn [try_map fst snd] in Hl. destruct (share_record id row) as [share|] eqn:Es; [|done].
  destruct (try_map _ rows) as [rest|] eqn:Er; [|done]. simplify_eq. cbn [map fst]. f_equal.
  - destruct (Hin (id, row)) as [Hw Hround]; [by left|]. cbn in Hw, Hround.
    destruct (record_facts _ _ _ Hw Es) as (st & _ & _ & _ & _ & _ & _ & _ & Hid).
    destruct id as [[[[round wallet] bundle] proposal] index]. cbn in Hround, Hid.
    apply andb_true_iff in Hround as [E1%bool_decide_eq_true E2%bool_decide_eq_true].
    unfold share_id_of. by simplify_eq.
  - apply IH; [|done]. intros kv Hkv. apply Hin. by right.
Qed.

Lemma unconfirmed_ids db shares :
  wf_db db -> get_unconfirmed_delegations (tp_round_id params) scope db = Ok shares ->
  NoDup (map (fun share => id_of share) shares).
Proof.
  intros Hwf Hg. unfold get_unconfirmed_delegations in Hg. set (rows := select_shares _ _ _ _) in Hg.
  assert (forall kv, kv ∈ rows -> kv ∈ map_to_list (sd_shares db) /\ in_round (tp_round_id params) scope kv.1 = true) as Hin.
  { intros kv. unfold rows, select_shares. rewrite stable_sort_perm, list_elem_of_filter.
    intros [[? _]%andb_true_iff ?]. done. }
  rewrite (record_ids rows shares); [|intros [id row] Hkv; destruct (Hin _ Hkv) as [Hm ?]; split; [|done]|done].
  - unfold rows, select_shares. apply NoDup_fmap_fst.
    + intros id row row'. rewrite !stable_sort_perm, !list_elem_of_filter, !elem_of_map_to_list.
      intros [_ E1] [_ E2]. congruence.
    + rewrite stable_sort_perm. apply NoDup_filter, NoDup_map_to_list.
  - apply elem_of_map_to_list in Hm. by apply (Hwf id).
Qed.

Lemma start_world_ok db : wf_db db -> world_ok (start_world db).
Proof. intros Hwf. split; cbn; try apply Forall_nil_2; [done|apply NoDup_nil_2]. Qed.

Lemma pass_ok db :
  wf_db db -> configured_fleet (tp_configured_server_urls params) = Ok fleet ->
  exists out w', walk_pending_shares env params scope (start_world db) = (out, w')
    /\ world_ok w' /\ (polls_return -> out <> Starved).
Proof.
  intros Hwf Hf. pose proof (start_world_ok db Hwf) as Hw. unfold walk_pending_shares. rewrite Hf.
  unfold tr_bind at 1, tr_lift, tr_ret. unfold tr_bind at 1, try_storage, tr_bind at 1.
  destruct (query_step env (get_unconfirmed_delegations (tp_round_id params) scope) (start_world db) Hothers Hwf)
    as (res & w1 & -> & Hs1 & Hres).
  pose proof (stepped_ok _ _ _ Hs1 Hw) as Hw1. destruct res as [shares|e]; [|by eexists _, _].
  destruct Hres as [[e ?]|Hres]; [done|].
  cbn [tr_lift]. unfold tr_ret, tr_bind at 1, on_report at 1.
  set (rep := set_at_entry (Z.min (Z.of_nat (length shares)) u32_max) (tw_report w1)).
  assert (world_ok (with_report rep w1)) as Hw2 by (apply report_world; apply Hw1).
  unfold tr_bind at 1.
  destruct (walk_shares_ok shares (with_report rep w1) Hw2) as (out & w3 & -> & [Hw3 _ _] & Hout).
  { by eapply (unconfirmed_ids (tw_db w1)); [apply Hs1|]. }
  { cbn. rewrite (sp_posts _ _ _ _ Hs1). intros p Hp. by apply elem_of_nil in Hp. }
  destruct out as [u|e|]; [|by eexists _, _|by eexists _, _; split_and!; [..|intros Hx; by specialize (Hout Hx)]].
  unfold current_time, look. unfold tr_bind at 1.
  destruct (clock_world (S (tw_step w3)) w3 Hw3) as [Hw4 _].
  unfold tr_bind at 1, try_storage, tr_bind at 1.
  destruct (query_step env (get_unconfirmed_delegations (tp_round_id params) scope) (with_step (S (tw_step w3)) w3)
              Hothers (wo_wf _ Hw4)) as (left & w5 & -> & Hs5 & _).
  pose proof (stepped_ok _ _ _ Hs5 Hw4) as Hw5. destruct left as [left|e]; [|by eexists _, _].
  eexists _, _. split_and!; [done| |done]. apply report_world; apply Hw5.
Qed.
End walk.

(** ** What a pass guarantees *)
Section guarantees.
Context `{Externals} `{SqliteText} `{RecoveryExternals} `{DomainExternals} `{ShareExternals}.
Context `{HelperIdentity} `{UrlListJson} `{HelperJson}.

Lemma fleet_facts urls fleet :
  Forall sound_url urls -> configured_fleet urls = Ok fleet -> NoDup fleet /\ Forall canonical_url fleet.
Proof.
  intros Hs. unfold configured_fleet. case_bool_decide; [done|].
  destruct (canonical_helper_url_list urls) as [l|] eqn:E; [|done]. case_bool_decide; [|done]. intros [= <-].
  split; [by eapply canonical_list_NoDup|by eapply canonical_list_sound].
Qed.

Lemma pass_world env params scope fleet db :
  others_wf env -> wf_db db -> Forall sound_url (tp_configured_server_urls params) ->
  configured_fleet (tp_configured_server_urls params) = Ok fleet ->
  exists out w, walk_pending_shares env params scope (start_world db) = (out, w)
    /\ (track_pending_shares_with_elapsed env params scope db).2 = w
    /\ world_ok env params scope fleet w /\ (polls_return env -> out <> Starved).
Proof.
  intros Ho Hwf Hs Hf. destruct (fleet_facts _ _ Hs Hf) as [Hd Hc].
  destruct (pass_ok env params scope fleet Ho Hc Hd db Hwf Hf) as (out & w & E & Hw & Hout).
  exists out, w. split_and!; try done. unfold track_pending_shares_with_elapsed. rewrite E. by destruct out.
Qed.

(** C10 (requests on disk): Every request that a pass sends for a share is
    recorded in the share's row before it leaves: when it leaves, the row of
    this generation, if it is still there, names the helper, whatever the
    helpers answer, whichever storage calls fail, and wherever the caller
    stops the pass. So a crash never forgets a helper that may hold the
    share. *)
Theorem requests_are_journaled env params scope fleet db :
  others_wf env -> wf_db db -> Forall sound_url (tp_configured_server_urls params) ->
  configured_fleet (tp_configured_server_urls params) = Ok fleet ->
  forall p, p ∈ tw_posts (track_pending_shares_with_elapsed env params scope db).2 ->
    let nullifier := sr_nullifier (po_record p) in
    alone_on env (po_share p) nullifier ->
    forall row, sd_shares (po_db p) !! po_share p = Some row -> sh_nullifier row = nullifier ->
      row_evidence row (po_url p) <> EvNone.
Proof.
  intros Ho Hwf Hs Hf p Hp. destruct (pass_world env params scope fleet db Ho Hwf Hs Hf) as (out & w & _ & <- & Hw & _).
  pose proof (wo_posts _ _ _ _ _ Hw) as Hall. rewrite list.Forall_forall in Hall.
  cbn zeta. intros Ha. by apply (pk_journal _ _ _ _ _ (Hall p Hp)).
Qed.


(** C12 (report on disk): What a pass reports, be it complete or the partial
    report of a pass that failed, is on disk when it returns: a share reported
    as resubmitted or ambiguous was sent to that helper, and its row has the
    helper as having accepted it, or at least as possibly holding it; a share
    reported as confirmed is marked so, and a quorum of configured helpers
    said so to this pass. *)
Theorem report_is_on_disk env params scope fleet db report :
  others_wf env -> wf_db db -> Forall sound_url (tp_configured_server_urls params) ->
  configured_fleet (tp_configured_server_urls params) = Ok fleet ->
  let '(pass, w) := track_pending_shares_with_elapsed env params scope db in
  pass = Some (Ok report) \/ (exists e, pass = Some (Err (mk_failed_pass e report))) ->
  Forall (backed env params scope 3 w) (tr_resubmitted report)
  /\ Forall (backed env params scope 2 w) (tr_ambiguous report)
  /\ Forall (confirmed_in env params scope fleet w) (tr_confirmed report).
Proof.
  intros Ho Hwf Hs Hf. destruct (pass_world env params scope fleet db Ho Hwf Hs Hf) as (out & w & E & _ & Hw & _).
  unfold track_pending_shares_with_elapsed. rewrite E. pose proof Hw as [_ _ _ Hr Ha Hc].
  destruct out; intros [Eq|[x Eq]]; simplify_eq; by split_and!.
Qed.

(** The pass ends: A pass with an unusable fleet stops before it reads or
    sends anything. Any other pass returns, since each share is tried with each
    helper of the fleet at most once, given that a search for confirmations
    sees its budget spent at some time. *)
Theorem the_pass_returns env params scope db :
  others_wf env -> wf_db db -> Forall sound_url (tp_configured_server_urls params) -> polls_return env ->
  exists pass, (track_pending_shares_with_elapsed env params scope db).1 = Some pass
    /\ forall e, configured_fleet (tp_configured_server_urls params) = Err e ->
         track_pending_shares_with_elapsed env params scope db
         = (Some (Err (mk_failed_pass e default_tracking_report)), start_world db).
Proof.
  intros Ho Hwf Hs Hp. destruct (configured_fleet (tp_configured_server_urls params)) as [fleet|e] eqn:Hf.
  - destruct (pass_world env params scope fleet db Ho Hwf Hs Hf) as (out & w & E & _ & _ & Hout).
    unfold track_pending_shares_with_elapsed. rewrite E. specialize (Hout Hp).
    destruct out; [by eexists|by eexists|done].
  - unfold track_pending_shares_with_elapsed, walk_pending_shares. rewrite Hf. eexists. split; [done|].
    by intros ? [= <-].
Qed.
End guarantees.

(** ** Witnesses *)
#[local] Existing Instance example_externals.
#[local] Existing Instance example_text.
#[local] Existing Instance example_recovery_externals.
#[local] Existing Instance example_domain_externals.
#[local] Existing Instance sample_share_externals.
#[local] Existing Instance sample_identity.
#[local] Existing Instance sample_url_json.
#[local] Existing Instance sample_helper_json.

Definition sample_fleet : list string := ["https://a"; "https://b"; "https://c"]%string.
Definition sample_pass : option (result ShareTrackingReport FailedTrackingPass) * TrackingWorld :=
  track_pending_shares_with_elapsed sample_env sample_params (wallet_id example_identity) sample_share_db.

Lemma sample_others_wf : others_wf sample_env.
Proof. by intros n db. Qed.

Lemma sample_alone id nullifier : alone_on sample_env id nullifier.
Proof. intros n db row' Hwf Hrow _. exists row'. split; [done|]. by apply strengthens_refl, (Hwf id). Qed.

Lemma sample_urls_sound : Forall sound_url (tp_configured_server_urls sample_params).
Proof. apply list.Forall_forall. intros u _. apply sample_sound. Qed.

Lemma sample_fleet_ok : configured_fleet (tp_configured_server_urls sample_params) = Ok sample_fleet.
Proof. vm_compute. reflexivity. Qed.

Lemma sample_polls_return : polls_return sample_env.
Proof.
  intros n. eexists. split; [by left|]. vm_compute. discriminate.
Qed.

(** The answer of the first helper is lost; the next two take the share. *)
Lemma sample_posts :
  map po_url (tw_posts sample_pass.2) = ["https://b"; "https://c"; "https://a"]%string.
Proof. vm_compute. reflexivity. Qed.

Lemma requests_are_journaled_witness :
  exists p, p ∈ tw_posts sample_pass.2 /\ po_url p = "https://b"%string
    /\ forall row, sd_shares (po_db p) !! po_share p = Some row ->
         sh_nullifier row = sr_nullifier (po_record p) -> row_evidence row (po_url p) <> EvNone.
Proof.
  assert (exists p, p ∈ tw_posts sample_pass.2 /\ po_url p = "https://b"%string) as (p & Hp & Hu).
  { pose proof sample_posts as E. destruct (tw_posts sample_pass.2) as [|p l]; [discriminate E|].
    exists p. split; [by left|]. by injection E. }
  exists p. split; [exact Hp|]. split; [exact Hu|].
  exact (requests_are_journaled sample_env sample_params (wallet_id example_identity) sample_fleet
    sample_share_db sample_others_wf sample_db_wf sample_urls_sound sample_fleet_ok p Hp (sample_alone _ _)).
Defined.


Lemma sample_report :
  exists report, sample_pass.1 = Some (Ok report)
    /\ map rb_server_url (tr_resubmitted report) = ["https://c"; "https://a"]%string
    /\ map rb_server_url (tr_ambiguous report) = ["https://b"]%string.
Proof.
  assert (match sample_pass.1 with
          | Some (Ok report) => (map rb_server_url (tr_resubmitted report), map rb_server_url (tr_ambiguous report))
          | _ => ([], [])
          end = (["https://c"; "https://a"], ["https://b"])%string) as E by (vm_compute; reflexivity).
  destruct sample_pass.1 as [[report|]|]; [|discriminate E..]. injection E as E1 E2. by exists report.
Qed.

Lemma report_is_on_disk_witness :
  exists report, sample_pass.1 = Some (Ok report) /\ tr_resubmitted report <> []
    /\ Forall (backed sample_env sample_params (wallet_id example_identity) 3 sample_pass.2) (tr_resubmitted report).
Proof.
  destruct sample_report as (report & E & Hr & _). exists report. split; [exact E|].
  split; [intros En; rewrite En in Hr; discriminate Hr|].
  pose proof (report_is_on_disk sample_env sample_params (wallet_id example_identity) sample_fleet
    sample_share_db report sample_others_wf sample_db_wf sample_urls_sound sample_fleet_ok) as Hrep.
  unfold sample_pass in *. destruct (track_pending_shares_with_elapsed _ _ _ _) as [pass w].
  exact (proj1 (Hrep (or_introl E))).
Defined.

Lemma the_pass_returns_witness : exists pass, sample_pass.1 = Some pass.
Proof.
  destruct (the_pass_returns sample_env sample_params (wallet_id example_identity) sample_share_db
    sample_others_wf sample_db_wf sample_urls_sound sample_polls_return) as (pass & E & _).
  exists pass. exact E.
Defined.

(** ** Reports of a first delivery *)
Definition report_of (r : result ShareBatchDeliveryReport ShareDeliveryFailure)
    : option ShareBatchDeliveryReport :=
  match r with Ok report => Some report | Err failure => df_partial failure end.

(** A pass over a commitment always reports every share, delivered or pending,
    also when one of them failed. *)
Lemma batch_report_spec results indices cancelled guarantee :
  exists report, report_of (batch_delivery_report results indices cancelled guarantee) = Some report
    /\ br_deliveries report ≡ₚ completed_of results
    /\ (forall i, i ∈ br_pending_share_indices report
          <-> i ∈ indices /\ i ∉ map do_share_index (br_deliveries report))
    /\ (batch_delivery_report results indices cancelled guarantee = Ok report
        <-> forall e, Err e ∉ results).
Proof.
  unfold batch_delivery_report. set (report := mk_batch_report _ _ _ _). exists report.
  assert (first_error results = None <-> forall e, Err e ∉ results) as He.
  { unfold first_error. induction results as [|[o|e] l IH]; cbn.
    - split; [|done]. intros _ x Hx. by apply elem_of_nil in Hx.
    - rewrite IH. split; intros Hn e; specialize (Hn e); rewrite elem_of_cons in *; naive_solver.
    - split; [done|]. intros Hn. destruct (Hn e). by left. }
  split_and!.
  - by destruct (first_error results).
  - apply stable_sort_perm.
  - intros i. cbn. rewrite list_elem_of_filter. tauto.
  - rewrite <- He. by destruct (first_error results).
Qed.

Lemma existsb_none {A} (f : A -> bool) l : existsb f l = false <-> Forall (fun x => f x = false) l.
Proof.
  induction l as [|x l IH]; cbn; [by split; [constructor|]|]. rewrite orb_false_iff, IH, Forall_cons. done.
Qed.

Lemma delivery_complete_spec report :
  delivery_progress report = DeliveryComplete
  <-> br_pending_share_indices report = []
      /\ Forall (fun d => su_accepted_urls (do_submission d) <> []) (br_deliveries report).
Proof.
  unfold delivery_progress. set (none := fun d => bool_decide (su_accepted_urls (do_submission d) = [])).
  assert (existsb none (br_deliveries report) = false
          <-> Forall (fun d => su_accepted_urls (do_submission d) <> []) (br_deliveries report)) as Hn.
  { rewrite existsb_none, !list.Forall_forall. unfold none. by setoid_rewrite bool_decide_eq_false. }
  rewrite <- Hn. split.
  - destruct (_ || _) eqn:E1; [done|]. destruct (existsb none _); [done|]. intros _.
    apply orb_false_iff in E1 as [E1%negb_false_iff%bool_decide_eq_true _]. done.
  - intros [-> Hall]. rewrite bool_decide_true by done. cbn [negb orb]. rewrite Hall.
    rewrite (proj2 (existsb_none _ _)); [done|]. apply existsb_none in Hall.
    eapply Forall_impl; [exact Hall|]. unfold none. by intros d ->.
Qed.
