(* ===== verification/InitialDeliveryProofs.v ===== *)
(** * The first delivery of a share: proofs

    Whom a first delivery asks, that every request is on disk before it
    leaves, that no helper that may hold the share is forgotten whatever
    happens in between, that the report tells what happened, and that the
    delivery comes to an end. *)

From stdpp Require Import base gmap strings list numbers pretty.
From Stdlib Require Import ZifyBool.
From S2P Require Import Prelude Ordered Identity Outcome Lifecycle Record Confirmation Rows Store VoteRecovery.
From S2P Require Import Generation Projection SharePolicy Helpers ShareLedger ShareLedgerProofs RoundPlanning.
From S2P Require Import HelperClient ShareWire SharePolling ShareTracking InitialDelivery ShareTrackingProofs.
From S2P Require Import SampleCodec SampleTables SampleShares.
Local Open Scope Z_scope.
Local Open Scope voting_scope.

(** ** Turns *)
Lemma arrange_perm {A} picks (l : list A) : arrange picks l ≡ₚ l.
Proof.
  revert l. induction picks as [|k picks IH]; intros l; [done|]. cbn [arrange].
  destruct (l !! k) as [a|] eqn:E; [|apply IH]. rewrite IH. symmetry. by apply delete_Permutation.
Qed.

(** The wait for a slot ends by the first look with too little time left. *)
Lemma acquire_returns deadline turns turn :
  turn ∈ turns -> deadline - SHARE_DELIVERY_MIN_ATTEMPT_BUDGET_MILLISECONDS <= at_now turn ->
  exists r, acquire deadline turns = Some r.
Proof.
  intros Hin Hnow. induction turns as [|t turns IH]; [by apply elem_of_nil in Hin|]. cbn [acquire].
  destruct (at_cancelled t); [by eauto|]. destruct (_ <=? _) eqn:E; [by eauto|].
  destruct (at_permit t); [by eauto|by eauto|]. apply elem_of_cons in Hin as [<-|Hin]; [|by apply IH].
  exfalso. unfold time_left, SHARE_DELIVERY_MIN_ATTEMPT_BUDGET_MILLISECONDS in *. lia.
Qed.

(** Giving up the wait is a definite failure. *)
Lemma acquire_definite deadline turns e :
  acquire deadline turns = Some (Err e) -> is_ambiguous e = false.
Proof.
  induction turns as [|t turns IH]; [done|]. cbn [acquire]. destruct (at_cancelled t); [by intros [= <-]|].
  destruct (_ <=? _); [by intros [= <-]|]. destruct (at_permit t); [done|by intros [= <-]|done].
Qed.

(** ** What a request leaves behind *)
Definition answer_level (answer : option (result ShareSubmissionStatus HelperError)) : nat :=
  match attempt_outcome answer with
  | AttemptAccepted => 3
  | AttemptAmbiguous => 2
  | AttemptDefiniteFailure => 0
  end.

(** Whether the helper may hold the share: the deadline cut the request off,
    or one of its attempts may have been accepted. *)
Definition may_hold (p : Post) : bool :=
  match po_answer p with
  | None => true
  | Some _ => existsb may_have_accepted (po_attempts p)
  end.

Section fan.
Context `{Externals} `{SqliteText} `{RecoveryExternals} `{DomainExternals} `{ShareExternals}.
Context `{HelperIdentity} `{UrlListJson} `{HelperJson}.
Context (env : DeliveryEnv) (config : HelperClientConfig) (params : InitialShareSubmissionParams).
Context (scope : string) (record : ShareDelegationRecord) (planned candidates : list string).
Context (target : nat) (deadline : Z).
Hypothesis (Hothers : others_wf (de_pass env)) (Hcanonical : Forall canonical_url candidates).
Hypothesis (Hdistinct : NoDup candidates).

Notation id := ((ip_round_id params, scope, ip_bundle_index params, ip_proposal_id params),
  ip_share_index params).
Notation nullifier := (sr_nullifier record).
Notation alone := (alone_on (de_pass env) id nullifier).

(** The row holds at least [level] of evidence about the helper. *)
Definition on_disk (level : nat) (url : string) (db : ShareDb) : Prop :=
  keeps id nullifier (fun row => (level <= strength (row_evidence row url))%nat) db.

(** Nobody cancels, time and slots do not run out, and no request is cut
    off. *)
Record quiet : Prop := {
  qt_cancel : forall n, te_cancel (de_pass env) n = false;
  qt_time : forall n, SHARE_DELIVERY_MIN_ATTEMPT_BUDGET_MILLISECONDS <= time_left deadline (de_clock env n);
  qt_slot : forall n, acquire deadline (de_admission env n) = Some (Ok tt);
  qt_answer : forall n, de_elapses env n = None
}.

Record posted (p : Post) : Prop := {
  pd_share : po_share p = id;
  pd_record : po_record p = record;
  pd_url : po_url p ∈ candidates;
  pd_json : po_json p = ip_share_wire_json params;
  pd_hold : may_hold p = true -> (2 <= answer_level (po_answer p))%nat;
  pd_answered : quiet -> po_answer p <> None;
  pd_journal : alone -> on_disk 1 (po_url p) (po_db p)
}.

(** Steps that send [ps] and may clear the attempts at [cleared]. *)
Record advanced (cleared : list string) (ps : list Post) (w w' : TrackingWorld) : Prop := {
  ad_posts : tw_posts w' = tw_posts w ++ ps;
  ad_wf : wf_db (tw_db w');
  ad_rows : alone -> forall row', sd_shares (tw_db w') !! id = Some row' -> sh_nullifier row' = nullifier ->
    exists row, sd_shares (tw_db w) !! id = Some row /\ still row row'
      /\ forall u, u ∉ cleared -> (strength (row_evidence row u) <= strength (row_evidence row' u))%nat
}.

Lemma advanced_refl w : wf_db (tw_db w) -> advanced [] [] w w.
Proof.
  intros Hwf. split; [by rewrite app_nil_r|done|]. intros _ row Hr _. exists row. split; [done|].
  split; [by split_and!|done].
Qed.

Lemma advanced_trans c1 c2 ps1 ps2 w1 w2 w3 :
  advanced c1 ps1 w1 w2 -> advanced c2 ps2 w2 w3 -> advanced (c1 ++ c2) (ps1 ++ ps2) w1 w3.
Proof.
  intros [A1 A2 A3] [B1 B2 B3]. split; [by rewrite B1, A1, app_assoc|done|]. intros Hal row3 Hr3 Hn3.
  destruct (B3 Hal row3 Hr3 Hn3) as (row2 & Hr2 & (S1 & S2 & S3) & Hm).
  destruct (A3 Hal row2 Hr2) as (row1 & Hr1 & (T1 & T2 & T3) & Hm'); [congruence|].
  exists row1. split; [done|]. split.
  - split_and!; [congruence|auto|]. intros u Hu. specialize (T3 u Hu). etrans; [exact T3|]. apply S3. lia.
  - intros u [Hu1 Hu2]%not_elem_of_app. etrans; [by apply Hm'|by apply Hm].
Qed.

Lemma advanced_stepped cl w w' :
  stepped (de_pass env) cl w w' -> advanced (option_list cl) [] w w'.
Proof.
  intros [Hp _ _ Hwf Hm]. split; [by rewrite app_nil_r|done|]. intros Hal row' Hr Hn.
  destruct (Hm id nullifier Hal row' Hr Hn) as (row & Hrow & Hs). exists row. split; [done|].
  split; [by eapply strengthens_still|]. intros u Hu.
  destruct (st_evidence _ _ _ Hs u) as [?|(-> & _)]; [done|]. exfalso. apply Hu. by left.
Qed.

Lemma advanced_clock n w : wf_db (tw_db w) -> advanced [] [] w (with_step n w).
Proof. intros Hwf. apply (advanced_stepped None), stepped_clock. done. Qed.

Lemma on_disk_advanced level url cleared ps w w' :
  alone -> advanced cleared ps w w' -> url ∉ cleared -> on_disk level url (tw_db w) ->
  on_disk level url (tw_db w').
Proof.
  intros Hal [_ _ Hr] Hu Hk row' Hrow Hn. destruct (Hr Hal row' Hrow Hn) as (row & Hr' & (Hn' & _) & Hm).
  etrans; [|by apply Hm]. apply Hk; [done|]. congruence.
Qed.

Lemma on_disk_still level url cleared ps w w' :
  (2 <= level)%nat -> alone -> advanced cleared ps w w' -> on_disk level url (tw_db w) ->
  on_disk level url (tw_db w').
Proof.
  intros Hl Hal [_ _ Hr] Hk row' Hrow Hn. destruct (Hr Hal row' Hrow Hn) as (row & Hr' & (Hn' & _ & Hs) & _).
  assert (level <= strength (row_evidence row url))%nat as Hrow' by (apply Hk; [done|congruence]).
  etrans; [exact Hrow'|]. apply Hs. lia.
Qed.

Lemma candidate_canonical url : url ∈ candidates -> canonical_url url.
Proof. intros Hu. by apply (proj1 (list.Forall_forall _ _) Hcanonical). Qed.

(** ** Reserving a wave *)
Lemma retain_contained url l : url ∈ l -> url :: retain_other url l ⊆+ l.
Proof.
  intros [k Hk]%list_elem_of_lookup. apply delete_Permutation in Hk as Hp.
  assert (retain_other url l ≡ₚ retain_other url (delete k l)) as Hr.
  { unfold retain_other. transitivity (filter (fun c => c <> url) (url :: delete k l)).
    - by apply filter_Permutation.
    - by rewrite filter_cons_False by naive_solver. }
  rewrite Hr. rewrite Hp at 2. apply submseteq_skip, sublist_submseteq, sublist_filter.
Qed.

Lemma active_group_contained remaining u : u ∈ active_group planned remaining -> u ∈ remaining.
Proof.
  unfold active_group. destruct (filter _ remaining) as [|x l] eqn:E; [done|]. rewrite <- E.
  rewrite list_elem_of_filter. tauto.
Qed.

(** The helper has the share, may have it, or need not have it any more. *)
Definition recorded (url : string) (db : ShareDb) : Prop :=
  keeps id nullifier (fun row => sh_confirmed row = true \/ (1 <= strength (row_evidence row url))%nat) db.

(** The candidates with evidence in a row. *)
Definition involved (row : ShareRow) : list string :=
  filter (fun u => row_evidence row u <> EvNone) candidates.

Definition crowded (db : ShareDb) : Prop :=
  keeps id nullifier (fun row => (target <= length (involved row))%nat) db.

Lemma reserved_involved row st :
  wf_row row -> load_delivery row = Ok st ->
  (reserved_placements (sv_state st) candidates <= length (involved row))%nat.
Proof.
  intros Hwf Hl. destruct (load_wf row Hwf) as (st' & Hl' & [[Wa _ Wf _ Wfo _] _ _ _] & _).
  rewrite Hl in Hl'. simplify_eq.
  apply submseteq_length, NoDup_submseteq.
  - apply NoDup_filter, NoDup_app. split_and!; try done. intros u Hu Hf. by destruct (Wfo u Hf).
  - intros u [Hc Hu]%list_elem_of_filter. apply list_elem_of_filter. split; [|done].
    unfold row_evidence. rewrite Hl. unfold evidence. repeat case_bool_decide; try done. set_solver.
Qed.

Lemma begin_refused url w r w' :
  storage (de_pass env) (begin_delivery_attempt_for_generation id url target nullifier candidates) w
  = (Done (Ok r), w') ->
  wf_db (tw_db w) -> url ∈ candidates ->
  match r with
  | AlreadyRecorded => recorded url (tw_db w')
  | PlacementCapacityReached => crowded (tw_db w')
  | _ => True
  end.
Proof.
  intros E Hwf Hu. unfold storage in E. destruct (te_fault _ _); [done|].
  set (db := te_others (de_pass env) (tw_step w) (tw_db w)) in *.
  assert (wf_db db) as Hdb by (by apply Hothers).
  unfold begin_delivery_attempt_for_generation, begin_existing_delivery_attempt_for_generation, ShareLedger.alone,
    add_attempting_server_for_generation in E.
  rewrite canonical_list_distinct in E by done. rewrite (candidate_canonical url Hu) in E.
  rewrite bool_decide_true in E by done.
  destruct (retry_until_applied _ _ _ _) as [[[r'|] db']|] eqn:Er; [|done|done]. simplify_eq. cbn [tw_db with_step with_db].
  apply retry_alone in Er. unfold attempting_step in Er.
  destruct (sd_shares db !! id) as [row|] eqn:Hrow; [|destruct Er as [[= ->] ->]; done].
  destruct (other_generation _ _); [destruct Er as [[= ->] ->]; done|].
  destruct (ensure_share_matches_ballot_intent _ _); [|by destruct Er].
  destruct (load_delivery row) as [st|] eqn:El; [|by destruct Er].
  destruct (_ || _) eqn:Ec.
  { destruct Er as [[= ->] ->]. intros row' Hr' _. rewrite Hrow in Hr'. simplify_eq.
    apply orb_true_iff in Ec as [Ec|Ec]; [by left|right]. unfold row_evidence. rewrite El.
    destruct (evidence (sv_state st) url) eqn:Ev; cbn; try lia. apply delivery_contains_evidence in Ev. congruence. }
  destruct (placement_capacity_reached _ _ _ _) eqn:Ep.
  { destruct Er as [[= ->] ->]. intros row' Hr' _. rewrite Hrow in Hr'. simplify_eq.
    cbn in Ep. apply Nat.leb_le in Ep. etrans; [exact Ep|]. apply reserved_involved; [by apply (Hdb id)|done]. }
  destruct (delivery_begin _ _) as [[? ?]|]; [|by destruct Er].
  destruct Er as (? & _ & _ & [= ->] & _). done.
Qed.

Lemma recorded_advanced url cleared ps w w' :
  alone -> advanced cleared ps w w' -> url ∉ cleared -> recorded url (tw_db w) -> recorded url (tw_db w').
Proof.
  intros Hal [_ _ Hr] Hu Hk row' Hrow Hn. destruct (Hr Hal row' Hrow Hn) as (row & Hr' & (Hn' & Hc & _) & Hm).
  destruct (Hk row Hr') as [?|Hs]; [congruence|left; by apply Hc|right]. etrans; [exact Hs|by apply Hm].
Qed.

(** The wave is made of helpers that remained, each at most once. A helper
    that is passed over is recorded, and the wave is short only when nobody
    is left or enough helpers are involved. *)
Definition drawn (need : nat) (wave remaining : list string) (r : Ran (list string * list string * bool))
    (w' : TrackingWorld) : Prop :=
  match r with
  | Done (wave', remaining', stop) =>
      exists added, wave' = wave ++ added /\ added ++ remaining' ⊆+ remaining
        /\ (alone -> forall u, u ∈ remaining -> u ∈ added \/ u ∈ remaining' \/ recorded u (tw_db w'))
        /\ (quiet -> stop = false
              /\ ((need <= length wave')%nat \/ remaining' = [] \/ crowded (tw_db w')))
  | Raised _ => True
  | Starved => False
  end.

Lemma drawn_stop need wave remaining stop w' :
  (quiet -> stop = false /\ ((need <= length wave)%nat \/ remaining = [] \/ crowded (tw_db w'))) ->
  drawn need wave remaining (Done (wave, remaining, stop)) w'.
Proof. exists []. rewrite app_nil_r. split_and!; try done. intros _ u Hu. by right; left. Qed.

Lemma drawn_more need wave wave1 remaining url r w1 w' :
  url ∈ remaining -> advanced [] [] w1 w' ->
  wave1 = wave ++ [url] \/ wave1 = wave /\ recorded url (tw_db w1) ->
  drawn need wave1 (retain_other url remaining) r w' -> drawn need wave remaining r w'.
Proof.
  intros Hu Ha Hw Hd. pose proof (retain_contained _ _ Hu) as Hc.
  destruct r as [[[wave' rem'] stop]| |]; cbn in *; [|done|done].
  destruct Hd as (added & -> & Hd & Hrec & Hq). destruct Hw as [->|[-> Hw]].
  - exists (url :: added). rewrite <- app_assoc in *. split_and!; [done| | |done].
    + etrans; [|exact Hc]. cbn. by apply submseteq_skip.
    + intros Hal u Hin. destruct (decide (u = url)) as [->|Hne]; [left; by left|].
      destruct (Hrec Hal u) as [?|?]; [by apply elem_of_retain_other|left; by right|by right].
  - exists added. split_and!; [done| | |done].
    + etrans; [exact Hd|]. etrans; [|exact Hc]. by apply submseteq_cons.
    + intros Hal u Hin. destruct (decide (u = url)) as [->|Hne].
      * right; right. eapply recorded_advanced; [done|exact Ha|set_solver|done].
      * apply (Hrec Hal u). by apply elem_of_retain_other.
Qed.

Lemma reserve_wave_ok fuel : forall need wave remaining w,
  (length remaining <= fuel)%nat -> (forall u, u ∈ remaining -> u ∈ candidates) -> wf_db (tw_db w) ->
  exists r w', reserve_wave env params scope record planned candidates target deadline fuel need wave remaining w
               = (r, w') /\ advanced [] [] w w' /\ drawn need wave remaining r w'.
Proof.
  induction fuel as [|fuel IH]; intros need wave remaining w Hf Hin Hwf; cbn [reserve_wave].
  all: destruct (_ || _) eqn:Estop;
    [eexists _, w; split; [done|]; split; [by apply advanced_refl|]; apply drawn_stop; intros _; split; [done|];
     apply orb_true_iff in Estop as [Es%Nat.leb_le|Es%bool_decide_eq_true]; tauto|].
  { destruct remaining; cbn in Hf; [|lia]. rewrite bool_decide_true, orb_true_r in Estop by done. done. }
  unfold cancel, rank, look, tr_bind. cbn [tw_step with_step].
  destruct (te_cancel (de_pass env) (tw_step w)) eqn:Ecancel.
  { eexists _, _. split; [done|]. split; [by apply (advanced_clock _ w)|]. apply drawn_stop. intros Hq.
    pose proof (qt_cancel Hq (tw_step w)). congruence. }
  match goal with |- context [candidate_servers ?h ?g ?n] =>
    pose proof (health_order_perm h g n) as Hperm; unfold health_order in Hperm;
    destruct (candidate_servers h g n).1 as [|url ordered] end.
  { eexists _, _. split; [done|]. split; [by apply (advanced_clock _ w)|]. apply drawn_stop. intros _. split; [done|].
    right; left. apply Permutation_nil_l in Hperm. unfold active_group in Hperm. by destruct (filter _ remaining). }
  assert (url ∈ remaining) as Hu by (apply active_group_contained; rewrite <- Hperm; set_solver).
  destruct (_ <? _) eqn:Etime.
  { eexists _, _. split; [done|]. split; [by apply (advanced_clock _ w)|]. apply drawn_stop. intros Hq.
    match type of Etime with (time_left _ (de_clock _ ?n) <? _) = _ => pose proof (qt_time Hq n) end. lia. }
  set (w1 := with_step _ _). assert (advanced [] [] w w1) as Ha1 by (by apply (advanced_clock _ w)).
  destruct (begin_step (de_pass env) id url target nullifier candidates EnforcePlacementTarget w1 Hothers
              (ad_wf _ _ _ _ Ha1) (candidate_canonical _ (Hin _ Hu))) as (res & w2 & E & Hs & _).
  pose proof (fun r => begin_refused url w1 r w2) as Hrefused. unfold begin_delivery_attempt_for_generation in Hrefused.
  unfold try_storage, tr_bind, begin_delivery_attempt_for_generation. rewrite E in *.
  apply advanced_stepped in Hs. pose proof (advanced_trans [] [] [] [] _ _ _ Ha1 Hs) as Ha2.
  assert (length (retain_other url remaining) <= fuel)%nat as Hlen.
  { apply retain_contained, submseteq_length in Hu. cbn in Hu. lia. }
  assert (forall u, u ∈ retain_other url remaining -> u ∈ candidates) as Hin'.
  { intros u [_ Hr]%elem_of_retain_other. by apply Hin. }
  destruct res as [res|e]; cbn [tr_lift]; [|eexists _, _; by split_and!].
  specialize (Hrefused res eq_refl (ad_wf _ _ _ _ Ha1) (Hin _ Hu)). destruct res.
  - destruct (IH need (wave ++ [url]) _ w2 Hlen Hin' (ad_wf _ _ _ _ Ha2)) as (r & w3 & E3 & Ha3 & Hd).
    exists r, w3. split; [done|]. split; [by apply (advanced_trans [] [] [] [] _ w2)|].
    eapply drawn_more; [done|exact Ha3|by left|done].
  - destruct (IH need wave _ w2 Hlen Hin' (ad_wf _ _ _ _ Ha2)) as (r & w3 & E3 & Ha3 & Hd).
    exists r, w3. split; [done|]. split; [by apply (advanced_trans [] [] [] [] _ w2)|].
    eapply drawn_more; [done|exact Ha3|by right|done].
  - eexists _, _. split; [done|]. split; [done|]. apply drawn_stop. intros _. split; [done|by right; right].
  - eexists _, _. by split_and!.
Qed.

(** ** The requests of a wave *)
Lemma answer_level_held answer : (2 <= answer_level (Some answer))%nat <-> may_have_accepted answer = true.
Proof.
  unfold answer_level. destruct answer as [s|e]; cbn; [by split; [|lia]|].
  destruct (is_ambiguous e); cbn; split; intros Hx; try done; lia.
Qed.

Lemma submit_definite n url json timeout answer attempts :
  submit_share_with_timeout env config n url json timeout deadline = (answer, attempts) ->
  existsb may_have_accepted attempts = true -> may_have_accepted answer = true.
Proof.
  unfold submit_share_with_timeout. destruct (timeout =? 0); [by intros [= <- <-]|].
  destruct (canonicalize url) as [v|]; [|by intros [= <- <-]].
  destruct (validate_share_body json) as [body|]; [|by intros [= <- <-]].
  unfold post_share_with_retry. destruct (join_helper_url _ _); [|by intros [= <- <-]]. unfold with_retry.
  match goal with |- retry_from ?e _ ?d ?o ?l ?a ?h = _ -> _ =>
    pose proof (retry_from_spec e d o l a h) as Hs; destruct (retry_from e false d o l a h) as [r answers] end; specialize (Hs ltac:(by intros)) .
  intros [= -> ->]. destruct Hs as (_ & _ & Hs). destruct (may_have_accepted answer); [done|].
  intros (x & Hx & Ht)%existsb_exists. rewrite list.Forall_forall in Hs.
  apply list_elem_of_In, Hs in Hx. congruence.
Qed.

Lemma post_share_ok url remaining w :
  url ∈ candidates -> wf_db (tw_db w) -> (alone -> on_disk 1 url (tw_db w)) ->
  exists answer p w', post_share env config params scope record deadline url remaining w = (Done answer, w')
    /\ advanced [] [p] w w' /\ posted p /\ po_url p = url /\ po_answer p = answer
    /\ (alone -> on_disk 1 url (tw_db w')).
Proof.
  intros Hu Hwf Hj. unfold post_share. cbn zeta. set (n := tw_step w).
  destruct (submit_share_with_timeout _ _ _ _ _ _ _) as [answer attempts] eqn:Es.
  set (outcome := match de_elapses env n with Some _ => None | None => Some answer end).
  set (tried := match de_elapses env n with Some k => take k attempts | None => attempts end).
  assert (match de_elapses env n with Some k => (None, take k attempts) | None => (Some answer, attempts) end
    = (outcome, tried)) as -> by (unfold outcome, tried; by destruct (de_elapses env n)).
  set (w1 := with_db _ w). set (p := mk_post _ _ _ _ _ _ _ _).
  assert (advanced [] [] w w1) as Ha.
  { apply (advanced_stepped None). split; try done; [by apply Hothers|]. intros i nf Hal row2 Hr Hn. by apply (Hal n (tw_db w)). }
  assert (alone -> on_disk 1 url (tw_db w1)) as Hd.
  { intros Hal. eapply on_disk_advanced; [done|exact Ha|set_solver|by apply Hj]. }
  exists outcome, p, (with_step (S n) (with_post p w1)). split_and!; try done.
  - destruct Ha as [A1 A2 A3]. split; [done|done|exact A3].
  - split; try done; cbn; unfold outcome, tried.
    + unfold may_hold. cbn [po_answer po_attempts p]. unfold outcome, tried.
      destruct (de_elapses env n); [intros _; cbn; lia|]. intros Ht. apply answer_level_held.
      by eapply submit_definite.
    + intros Hq. by rewrite (qt_answer Hq n).
Qed.

(** The part of a state that is about the candidates. *)
Definition within (s : ShareDeliveryState) : ShareDeliveryState :=
  mk_delivery (filter (fun url => url ∈ candidates) (dv_accepted_urls s))
    (filter (fun url => url ∈ candidates) (dv_outcome_unknown_urls s))
    (filter (fun url => url ∈ candidates) (dv_in_flight_urls s)).

Lemma within_evidence s u :
  evidence (within s) u = if bool_decide (u ∈ candidates) then evidence s u else EvNone.
Proof.
  unfold evidence, within. cbn. repeat case_bool_decide; try done;
    repeat match goal with Hx : _ ∈ filter _ _ |- _ => apply list_elem_of_filter in Hx as [? ?] end; try done;
    exfalso; match goal with Hx : _ ∉ filter _ _ |- _ => by apply Hx, list_elem_of_filter end.
Qed.

Lemma within_wf s : wf_delivery s -> wf_delivery (within s).
Proof.
  intros [Wa Wu Wf Wua Wfo Wc]. split; cbn; try by apply NoDup_filter.
  - intros u [_ Hu]%list_elem_of_filter [_ Ha]%list_elem_of_filter. by apply (Wua u).
  - intros u [_ Hu]%list_elem_of_filter. destruct (Wfo u Hu). rewrite !list_elem_of_filter. tauto.
  - intros u. rewrite within_evidence. case_bool_decide; [apply Wc|done].
Qed.

Lemma load_state_ok w :
  wf_db (tw_db w) ->
  exists r w', load_state env params scope record candidates w = (Done r, w')
    /\ advanced [] [] w w'
    /\ (forall s, r = Ok s -> exists row st, sd_shares (tw_db w') !! id = Some row
          /\ sh_nullifier row = nullifier /\ load_delivery row = Ok st /\ wf_stored st
          /\ s = within (sv_state st)).
Proof.
  intros Hwf. unfold load_state.
  destruct (query_step (de_pass env) (load_current_delivery_state params scope nullifier candidates) w Hothers Hwf)
    as (r & w' & E & Hs & Hr).
  apply advanced_stepped in Hs as Ha. exists r, w'. split; [done|]. split; [exact Ha|].
  intros s ->. destruct Hr as [[e ?]|Hr]; [done|].
  unfold load_current_delivery_state, get_share_delegation, share_record in Hr.
  destruct (sd_shares (tw_db w') !! id) as [row|] eqn:Er; [|done].
  destruct (load_wf row) as (st & El & Hst & _); [by apply (ad_wf _ _ _ _ Ha id)|]. rewrite El in Hr. cbn in Hr.
  case_bool_decide as Hn; [|done]. cbn in Hr. exists row, st. split_and!; try done.
  pose proof (from_own_lists _ (within_wf _ (ws_state _ Hst))) as Ho. cbn in Ho. congruence.
Qed.

(** A request that was not sent, because the journal has changed or the wait
    for a slot was given up. *)
Definition unsent (outcome : HelperPostOutcome) : Prop :=
  (exists e, outcome = Err e)
  \/ ~ quiet /\ exists a, outcome = Ok a /\ a <> None /\ answer_level a = 0%nat.

(** What one request of a wave did: it was not sent, or it was sent once and
    its attempt is still on disk. *)
Definition sent (url : string) (outcome : HelperPostOutcome) (ps : list Post) (w' : TrackingWorld) : Prop :=
  ps = [] /\ unsent outcome \/ exists p, ps = [p] /\ posted p /\ po_url p = url /\ outcome = Ok (po_answer p)
               /\ (alone -> on_disk 1 url (tw_db w')).

Definition stuck : Prop := exists n, acquire deadline (de_admission env n) = None.

Lemma in_flight_on_disk url w row st :
  sd_shares (tw_db w) !! id = Some row -> load_delivery row = Ok st ->
  url ∈ dv_in_flight_urls (within (sv_state st)) -> on_disk 1 url (tw_db w).
Proof.
  intros Hr Hl [_ Hu]%list_elem_of_filter row' Hr' _. rewrite Hr in Hr'. simplify_eq.
  unfold row_evidence. rewrite Hl. unfold evidence. repeat case_bool_decide; cbn; done || lia.
Qed.

Lemma post_when_admitted_ok url w :
  url ∈ candidates -> wf_db (tw_db w) ->
  exists r ps w', post_when_admitted env config params scope record candidates deadline url w = (r, w')
    /\ advanced [] ps w w'
    /\ match r with
       | Done outcome => sent url outcome ps w'
       | Raised _ => False
       | Starved => ps = [] /\ stuck
       end.
Proof.
  intros Hu Hwf. unfold post_when_admitted, admission, look, tr_bind. cbn [tw_step with_step].
  pose proof (advanced_clock (S (tw_step w)) w Hwf) as Ha1. set (w1 := with_step _ w) in *.
  destruct (acquire deadline (de_admission env (tw_step w))) as [[[]|e]|] eqn:Eq; cbn [tr_ret tr_starve].
  - destruct (load_state_ok w1 (ad_wf _ _ _ _ Ha1)) as (r & w2 & -> & Ha12 & Hl).
    pose proof (advanced_trans [] [] [] [] _ _ _ Ha1 Ha12) as Ha2. clear Ha12.
    destruct r as [s|e]; [|eexists _, [], w2; split_and!; [done|done|left; split; [done|left; by eexists]]].
    case_bool_decide as Hin; [|eexists _, [], w2; split_and!; [done|done|left; split; [done|left; by eexists]]].
    destruct (Hl s eq_refl) as (row & st & Hr & _ & Hst & _ & ->).
    set (w3 := with_step _ w2). assert (advanced [] [] w w3) as Ha3.
    { apply (advanced_trans [] [] [] [] _ w2); [done|]. apply advanced_clock, (ad_wf _ _ _ _ Ha2). }
    destruct (post_share_ok url (time_left deadline (de_clock env (tw_step w2))) w3 Hu (ad_wf _ _ _ _ Ha3))
      as (answer & p & w4 & Ep & Ha4 & Hp & Hpu & <- & Hd).
    { intros _. by eapply in_flight_on_disk. }
    rewrite Ep. exists (Done (Ok (po_answer p))), [p], w4. split; [done|].
    split; [by apply (advanced_trans [] [] [] [p] _ w3)|]. right. by exists p.
  - eexists _, [], w1. split_and!; [done|done|]. left. split; [done|]. right. split.
    + intros Hq. rewrite (qt_slot Hq) in Eq. done.
    + eexists. split_and!; [done|done|]. unfold answer_level. cbn. by rewrite (acquire_definite _ _ _ Eq).
  - exists Starved, [], w1. split_and!; [done|done|done|by eexists].
Qed.

(** What the requests of a wave did. *)
Record ran (turns : list string) (outcomes : list (string * HelperPostOutcome)) (ps : list Post) : Prop := {
  rn_turns : map fst outcomes = turns;
  rn_answers : forall p, p ∈ ps -> (po_url p, Ok (po_answer p)) ∈ outcomes;
  rn_asked : forall u outcome, (u, outcome) ∈ outcomes ->
    unsent outcome \/ exists p, p ∈ ps /\ po_url p = u /\ outcome = Ok (po_answer p)
}.

Lemma run_posts_ok turns : forall w,
  (forall u, u ∈ turns -> u ∈ candidates) -> wf_db (tw_db w) ->
  exists r ps w', run_posts env config params scope record candidates deadline turns w = (r, w')
    /\ advanced [] ps w w' /\ Forall posted ps /\ map po_url ps ⊆+ turns
    /\ (alone -> forall p, p ∈ ps -> on_disk 1 (po_url p) (tw_db w'))
    /\ match r with
       | Done outcomes => ran turns outcomes ps
       | Raised _ => False
       | Starved => stuck
       end.
Proof.
  induction turns as [|url turns IH]; intros w Hin Hwf; cbn [run_posts].
  { exists (Done []), [], w. split_and!; [done|by apply advanced_refl|constructor|done|..].
    - intros _ p Hp. by apply elem_of_nil in Hp.
    - split; [done|..]; intros; by match goal with Hx : _ ∈ [] |- _ => apply elem_of_nil in Hx end. }
  destruct (post_when_admitted_ok url w) as (r & ps & w1 & E & Ha & Hr); [apply Hin; by left|done|].
  unfold tr_bind. rewrite E. destruct r as [outcome|e|]; [|done|].
  2: { destruct Hr as [-> Hs]. exists Starved, [], w1. split_and!; [done|done|constructor|by apply submseteq_nil_l| |done].
       intros _ p Hp. by apply elem_of_nil in Hp. }
  destruct (IH w1) as (r & qs & w2 & E2 & Ha2 & Hq & Hsub & Hd & Hr2); [intros; apply Hin; by right|apply Ha|].
  rewrite E2. pose proof (advanced_trans [] [] ps qs w w1 w2 Ha Ha2) as Ha'.
  assert (Forall posted ps /\ map po_url ps ⊆+ [url]
    /\ (forall p, p ∈ ps -> po_url p = url /\ outcome = Ok (po_answer p))
    /\ (unsent outcome \/ exists p, p ∈ ps /\ po_url p = url /\ outcome = Ok (po_answer p))
    /\ (alone -> forall p, p ∈ ps -> on_disk 1 (po_url p) (tw_db w2))) as (Hp & Hpu & Hpo & Hun & Hpd).
  { destruct Hr as [[-> Hun]|(p & -> & Hp & <- & Ho & Hpd)].
    - split_and!; [constructor|by apply submseteq_nil_l| |by left|]; intros;
        by match goal with Hx : _ ∈ [] |- _ => apply elem_of_nil in Hx end.
    - split_and!; [by constructor|done|by intros q ->%list_elem_of_singleton|right; exists p; set_solver|].
      intros Hal q ->%list_elem_of_singleton. eapply on_disk_advanced; [done|exact Ha2|set_solver|by apply Hpd]. }
  eexists (match r with Done outcomes => Done ((url, outcome) :: outcomes) | Raised e => Raised e | Starved => Starved end),
    (ps ++ qs), w2.
  split_and!; try done.
  - by destruct r.
  - by apply Forall_app.
  - rewrite map_app. by apply (submseteq_app _ [url]).
  - intros Hal p [Hx|Hx]%elem_of_app; [by apply Hpd|by apply Hd].
  - destruct r as [outcomes| |]; try done. destruct Hr2 as [Ht Hans Hask]. split; [cbn; by rewrite Ht| |].
    + intros p [Hx|Hx]%elem_of_app; [|right; by apply Hans]. destruct (Hpo p Hx) as [<- ->]. by left.
    + setoid_rewrite elem_of_app. intros u o [[= -> ->]|Hin']%elem_of_cons.
      * destruct Hun as [?|(p & ? & ? & ?)]; [by left|right; eauto].
      * destruct (Hask u o Hin') as [?|(p & ? & ? & ?)]; [by left|right; eauto].
Qed.

Lemma post_wave_ok wave w :
  (forall u, u ∈ wave -> u ∈ candidates) -> wf_db (tw_db w) ->
  exists r ps w', post_wave env config params scope record candidates deadline wave w = (r, w')
    /\ advanced [] ps w w' /\ Forall posted ps /\ map po_url ps ⊆+ wave
    /\ (alone -> forall p, p ∈ ps -> on_disk 1 (po_url p) (tw_db w'))
    /\ match r with
       | Done outcomes => exists turns, turns ≡ₚ wave /\ ran turns outcomes ps
       | Raised _ => False
       | Starved => stuck
       end.
Proof.
  intros Hin Hwf. unfold post_wave, look, tr_bind.
  pose proof (arrange_perm (de_turns env (tw_step w)) wave) as Hp. revert Hp. generalize (arrange (de_turns env (tw_step w)) wave).
  intros turns Hp. pose proof (advanced_clock (S (tw_step w)) w Hwf) as Ha1. set (w1 := with_step _ w) in *.
  destruct (run_posts_ok turns w1) as (r & ps & w2 & E & Ha2 & Hq & Hsub & Hd & Hr).
  { intros u. rewrite Hp. apply Hin. } { apply Ha1. }
  exists r, ps, w2. split_and!; try done; [by apply (advanced_trans [] [] [] ps _ w1)|by rewrite <- Hp|].
  destruct r; try done. by exists turns.
Qed.

(** ** Writing the outcomes *)
Lemma outcome_of_elem outcomes u o : outcome_of outcomes u = Some o -> (u, o) ∈ outcomes.
Proof.
  unfold outcome_of. destruct (list_find _ outcomes) as [[i [v x]]|] eqn:E; [|done]. cbn. intros [= <-].
  apply list_find_Some in E as (Hi & Hv & _). cbn in Hv. subst. by eapply list_elem_of_lookup_2.
Qed.

Lemma outcome_of_is_Some outcomes u : u ∈ map fst outcomes -> exists o, outcome_of outcomes u = Some o.
Proof.
  intros ([v o] & -> & Hin)%list_elem_of_fmap. unfold outcome_of.
  destruct (list_find _ outcomes) as [[i x]|] eqn:E; [cbn; by eauto|].
  apply list_find_None in E. rewrite list.Forall_forall in E. by destruct (E (v, o) Hin).
Qed.

Lemma outcome_of_unique outcomes u o :
  NoDup (map fst outcomes) -> (u, o) ∈ outcomes -> outcome_of outcomes u = Some o.
Proof.
  intros Hn Hin. destruct (outcome_of_is_Some outcomes u) as [o' Ho'].
  { apply list_elem_of_fmap. by exists (u, o). }
  rewrite Ho'. f_equal. apply outcome_of_elem in Ho'. revert Hn Hin Ho'. clear.
  induction outcomes as [|[v x] l IH]; [by intros _ ?%elem_of_nil|]. cbn.
  intros [Hv Hn]%NoDup_cons Hin Hin'. apply elem_of_cons in Hin as [[= -> ->]|Hin], Hin' as [[= Hx]|Hin'].
  - done.
  - exfalso. apply Hv, list_elem_of_fmap. by exists (v, o').
  - subst. exfalso. apply Hv, list_elem_of_fmap. by exists (v, o).
  - by apply IH.
Qed.

Lemma resolve_ok url outcome w :
  url ∈ candidates -> wf_db (tw_db w) ->
  exists r w', resolve env params scope record url outcome w = (r, w')
    /\ advanced (option_list (cleared_by_outcome outcome url)) [] w w'
    /\ match r with
       | Done _ => match outcome with
                   | AttemptAccepted => on_disk 3 url (tw_db w')
                   | AttemptAmbiguous => on_disk 2 url (tw_db w')
                   | AttemptDefiniteFailure => True
                   end
       | Raised _ => True
       | Starved => False
       end.
Proof.
  intros Hu Hwf. unfold resolve, try_storage, tr_bind.
  destruct (resolve_step (de_pass env) id url nullifier outcome false w Hothers Hwf (candidate_canonical _ Hu))
    as (r & w' & -> & Hs & Hok).
  apply advanced_stepped in Hs. destruct r as [[]|e]; [|by eexists _, _|by eexists _, _].
  eexists _, _. split; [done|]. split; [done|]. destruct (Hok eq_refl) as (row & Hr & _ & Hacc & Hamb).
  destruct outcome; [| |done]; intros row' Hr' _; rewrite Hr in Hr'; simplify_eq;
    [rewrite Hacc by done; cbn; lia|by apply Hamb].
Qed.

Lemma cleared_definite answer url u :
  u ∈ option_list (cleared_by_outcome (attempt_outcome answer) url) -> u = url /\ answer_level answer = 0%nat.
Proof.
  unfold answer_level. destruct (attempt_outcome answer); cbn; [set_solver|set_solver|].
  by intros ->%list_elem_of_singleton.
Qed.

(** The acceptances a delivery counts are distinct helpers of its list, and
    on disk. *)
Record counted (state : ShareDeliveryState) (w : TrackingWorld) : Prop := {
  ct_distinct : NoDup (dv_accepted_urls state);
  ct_candidates : forall u, u ∈ dv_accepted_urls state -> u ∈ candidates;
  ct_on_disk : alone -> forall u, u ∈ dv_accepted_urls state -> on_disk 3 u (tw_db w)
}.

Lemma counted_advanced state cleared ps w w' :
  advanced cleared ps w w' -> counted state w -> counted state w'.
Proof.
  intros Ha [H1c H2c H3c]. split; try done. intros Hal u Hu.
  eapply on_disk_still; [lia|done|exact Ha|by apply H3c].
Qed.

Lemma mark_outcome_counted state url answer state' w :
  url ∈ candidates -> counted state w ->
  match attempt_outcome answer with AttemptAccepted => on_disk 3 url (tw_db w) | _ => True end ->
  mark_outcome state url (attempt_outcome answer) = Ok state' -> counted state' w.
Proof.
  intros Hu [H1c H2c H3c] Hd. pose proof (candidate_canonical _ Hu) as Hcan.
  unfold mark_outcome, mark_accepted, mark_outcome_unknown. unfold canonical_url in Hcan.
  destruct (attempt_outcome answer); rewrite ?Hcan; intros Hm; simplify_eq/=; [|split; [exact H1c|exact H2c|exact H3c]..].
  split; cbn.
  - by apply NoDup_push_new.
  - intros u [?| ->]%elem_of_push_new; [by apply H2c|done].
  - intros Hal u [?| ->]%elem_of_push_new; [by apply H3c|done].
Qed.

Lemma settle_wave_ok outcomes wave : forall state elapsed w,
  (forall u, u ∈ wave -> u ∈ candidates) -> NoDup wave ->
  (forall u, u ∈ wave -> exists o, outcome_of outcomes u = Some o) -> wf_db (tw_db w) -> counted state w ->
  exists r cleared w', settle_wave env params scope record wave outcomes state elapsed w = (r, w')
    /\ advanced cleared [] w w'
    /\ (forall u, u ∈ cleared -> u ∈ wave /\ exists a, outcome_of outcomes u = Some (Ok a) /\ answer_level a = 0%nat)
    /\ match r with
       | Done (state', elapsed') =>
           counted state' w'
           /\ (forall u, u ∈ wave -> exists a, outcome_of outcomes u = Some (Ok a)
                 /\ (alone -> on_disk (answer_level a) u (tw_db w')))
           /\ (elapsed' = true -> elapsed = true \/ exists u, u ∈ wave /\ outcome_of outcomes u = Some (Ok None))
       | Raised _ => True
       | Starved => False
       end.
Proof.
  induction wave as [|url wave IH]; intros state elapsed w Hin Hnd Hsome Hwf Hc; cbn [settle_wave].
  { eexists _, [], w. split; [done|]. split; [by apply advanced_refl|]. split; [by intros u ?%elem_of_nil|].
    split_and!; [done|by intros u ?%elem_of_nil|by left]. }
  apply NoDup_cons in Hnd as [Hnew Hnd].
  destruct (Hsome url) as [o Ho]; [by left|]. rewrite Ho. destruct o as [answer|e].
  2: { eexists _, [], w. split; [done|]. split; [by apply advanced_refl|]. by split; [intros u ?%elem_of_nil|]. }
  assert (url ∈ candidates) as Hu by (apply Hin; by left).
  unfold tr_bind. destruct (resolve_ok url (attempt_outcome answer) w Hu Hwf) as (r & w1 & -> & Ha1 & Hr).
  set (c1 := option_list (cleared_by_outcome (attempt_outcome answer) url)) in *.
  assert (forall u, u ∈ c1 -> u ∈ url :: wave /\ exists a, outcome_of outcomes u = Some (Ok a) /\ answer_level a = 0%nat) as Hc1.
  { intros u [-> ?]%cleared_definite. split; [by left|]. eauto. }
  destruct r as [[]|e|]; [|by eexists _, c1, w1|done].
  destruct (mark_outcome state url (attempt_outcome answer)) as [state1|e] eqn:Em; cbn [tr_lift tr_ret tr_raise];
    [|by eexists _, c1, w1].
  assert (counted state1 w1) as Hs1.
  { eapply mark_outcome_counted; [done|by eapply counted_advanced| |done]. by destruct (attempt_outcome answer). }
  destruct (IH state1 (elapsed || bool_decide (answer = None)) w1) as (r & c2 & w2 & -> & Ha2 & Hc2 & Hr2); try done.
  { intros u Hx. apply Hin. by right. } { intros u Hx. apply Hsome. by right. } { apply Ha1. }
  exists r, (c1 ++ c2), w2. split; [done|]. split; [by apply (advanced_trans _ _ [] [] _ w1)|]. split.
  { intros u [Hx|Hx]%elem_of_app; [by apply Hc1|]. destruct (Hc2 u Hx). split; [by right|done]. }
  destruct r as [[state2 elapsed2]| |]; [|done|done]. destruct Hr2 as (Hs2 & Hd2 & He2). split_and!; [done| |].
  - intros u [->|Hx]%elem_of_cons; [|by apply Hd2]. exists answer. split; [done|]. intros Hal.
    assert (on_disk (answer_level answer) url (tw_db w1)) as Hd1.
    { unfold answer_level. destruct (attempt_outcome answer); [done|done|]. intros ? _ _. lia. }
    eapply on_disk_advanced; [done|exact Ha2| |exact Hd1]. intros Hx. by destruct (Hc2 _ Hx).
  - intros Ht. destruct (He2 Ht) as [Hx|(u & Hx & ?)]; [|right; exists u; split; [by right|done]].
    apply orb_true_iff in Hx as [Hx|Hx%bool_decide_eq_true]; [by left|right]. exists url. subst. split; [by left|done].
Qed.

Lemma one_wave_ok wave state w :
  (forall u, u ∈ wave -> u ∈ candidates) -> NoDup wave -> wf_db (tw_db w) -> counted state w ->
  exists r cleared ps w',
    tr_bind (post_wave env config params scope record candidates deadline wave)
      (fun outcomes => settle_wave env params scope record wave outcomes state false) w = (r, w')
    /\ advanced cleared ps w w' /\ Forall posted ps /\ map po_url ps ⊆+ wave
    /\ (forall u, u ∈ cleared -> u ∈ wave
          /\ forall p, p ∈ ps -> po_url p = u -> answer_level (po_answer p) = 0%nat)
    /\ (alone -> forall p, p ∈ ps -> (2 <= answer_level (po_answer p))%nat -> on_disk 1 (po_url p) (tw_db w'))
    /\ match r with
       | Done (state', elapsed) =>
           counted state' w'
           /\ (alone -> forall p, p ∈ ps -> on_disk (answer_level (po_answer p)) (po_url p) (tw_db w'))
           /\ (quiet -> elapsed = false /\ forall u, u ∈ wave -> exists p, p ∈ ps /\ po_url p = u)
       | Raised _ => True
       | Starved => stuck
       end.
Proof.
  intros Hin Hnd Hwf Hc. unfold tr_bind.
  destruct (post_wave_ok wave w Hin Hwf) as (r & ps & w1 & -> & Ha1 & Hp & Hsub & Hd & Hr).
  destruct r as [outcomes|e|]; [|done|].
  2: { exists Starved, [], ps, w1. split_and!; try done; [by intros u ?%elem_of_nil|]. intros Hal p Hx _. by apply Hd. }
  destruct Hr as (turns & Hperm & [Ht Hans Hask]).
  assert (NoDup (map fst outcomes)) as Hndo by (by rewrite Ht, Hperm).
  assert (forall p, p ∈ ps -> outcome_of outcomes (po_url p) = Some (Ok (po_answer p))) as Hout.
  { intros p Hx. by apply outcome_of_unique, Hans. }
  destruct (settle_wave_ok outcomes wave state false w1 Hin Hnd) as (r & c & w2 & -> & Ha2 & Hcl & Hr); [|apply Ha1| |].
  { intros u Hu. apply outcome_of_is_Some. by rewrite Ht, Hperm. } { by eapply counted_advanced. }
  assert (forall u, u ∈ c -> u ∈ wave /\ forall p, p ∈ ps -> po_url p = u -> answer_level (po_answer p) = 0%nat) as Hcl'.
  { intros u (Hu & a & Ho & Hl)%Hcl. split; [done|]. intros p Hx <-. rewrite Hout in Ho by done. congruence. }
  exists r, c, ps, w2. split; [done|]. split_and!; try done.
  - pose proof (advanced_trans [] c ps [] _ _ _ Ha1 Ha2) as Ha. by rewrite app_nil_r in Ha.
  - intros Hal p Hx Hl. eapply on_disk_advanced; [done|exact Ha2| |by apply Hd]. intros [_ Hz]%Hcl'.
    rewrite (Hz p Hx eq_refl) in Hl. lia.
  - destruct r as [[state' elapsed]|e|]; [|done|done]. destruct Hr as (Hs & Hon & Hel). split_and!; [done| |].
    + intros Hal p Hx. destruct (Hon (po_url p)) as (a & Ho & Hda).
      { eapply elem_of_submseteq; [|exact Hsub]. by apply list_elem_of_fmap_2. }
      rewrite Hout in Ho by done. simplify_eq. by apply Hda.
    + intros Hq. assert (forall u a, u ∈ wave -> outcome_of outcomes u = Some (Ok a) ->
        exists p, p ∈ ps /\ po_url p = u /\ a = po_answer p) as Hasked.
      { intros u a Hu Ho%outcome_of_elem. destruct (Hask u _ Ho) as [[[e ?]|[? _]]|(p & ? & ? & ?)]; [done|done|].
        exists p. split_and!; congruence. }
      split.
      * destruct elapsed; [|done]. destruct (Hel eq_refl) as [?|(u & Hu & Ho)]; [done|].
        destruct (Hasked u None Hu Ho) as (p & Hx & _ & Hn). rewrite list.Forall_forall in Hp.
        by destruct (pd_answered _ (Hp p Hx) Hq).
      * intros u Hu. destruct (Hon u Hu) as (a & Ho & _). destruct (Hasked u a Hu Ho) as (p & ? & ? & _). eauto.
Qed.

(** ** The waves *)
Record delivered (remaining : list string) (r : Ran unit) (cleared : list string) (ps : list Post)
    (w w' : TrackingWorld) : Prop := {
  dl_advanced : advanced cleared ps w w';
  dl_posted : Forall posted ps;
  dl_once : map po_url ps ⊆+ remaining;
  dl_cleared : forall u, u ∈ cleared -> u ∈ remaining
    /\ forall p, p ∈ ps -> po_url p = u -> answer_level (po_answer p) = 0%nat;
  dl_kept : alone -> forall p, p ∈ ps -> (2 <= answer_level (po_answer p))%nat -> on_disk 1 (po_url p) (tw_db w');
  dl_result : match r with
    | Done _ =>
        (alone -> forall p, p ∈ ps -> on_disk (answer_level (po_answer p)) (po_url p) (tw_db w'))
        /\ (quiet -> alone -> crowded (tw_db w')
              \/ forall u, u ∈ remaining -> (exists p, p ∈ ps /\ po_url p = u) \/ recorded u (tw_db w'))
    | Raised _ => True
    | Starved => stuck
    end
}.

Lemma counted_crowded state w :
  counted state w -> (target <= length (dv_accepted_urls state))%nat -> alone -> crowded (tw_db w).
Proof.
  intros [Hn Hc Hd] Ht Hal row Hr Hnf. etrans; [exact Ht|]. apply submseteq_length, NoDup_submseteq; [done|].
  intros u Hu. apply list_elem_of_filter. split; [|by apply Hc]. intros E.
  specialize (Hd Hal u Hu row Hr Hnf). cbv beta in Hd. rewrite E in Hd. cbn in Hd. lia.
Qed.

(** Without requests nothing is cleared and nothing is owed. *)
Lemma delivered_none remaining r w w' :
  advanced [] [] w w' ->
  match r with
  | Done _ => quiet -> alone -> crowded (tw_db w') \/ forall u, u ∈ remaining -> recorded u (tw_db w')
  | Raised _ => True
  | Starved => stuck
  end ->
  delivered remaining r [] [] w w'.
Proof.
  intros Ha Hr. split; try done; [by apply submseteq_nil_l|by intros u ?%elem_of_nil|by intros _ p ?%elem_of_nil|].
  destruct r; try done. split; [by intros _ p ?%elem_of_nil|]. intros Hq Hal.
  destruct (Hr Hq Hal) as [?|Hx]; [by left|right]. intros u Hu. right. by apply Hx.
Qed.

Lemma tr_bind_assoc {A B C} (m : Tr A) (f : A -> Tr B) (g : B -> Tr C) w :
  tr_bind m (fun a => tr_bind (f a) g) w = tr_bind (tr_bind m f) g w.
Proof. unfold tr_bind. by destruct (m w) as [[] ?]. Qed.

(** A wave that is followed by the rest of the delivery. *)
Lemma delivered_next added remaining remaining' r c1 c2 ps1 ps2 w w1 w2 w3 :
  NoDup remaining -> added ++ remaining' ⊆+ remaining ->
  advanced [] [] w w1 -> advanced c1 ps1 w1 w2 -> Forall posted ps1 -> map po_url ps1 ⊆+ added ->
  (forall u, u ∈ c1 -> u ∈ added /\ forall p, p ∈ ps1 -> po_url p = u -> answer_level (po_answer p) = 0%nat) ->
  (alone -> forall p, p ∈ ps1 -> on_disk (answer_level (po_answer p)) (po_url p) (tw_db w2)) ->
  (alone -> forall u, u ∈ remaining -> u ∈ added \/ u ∈ remaining' \/ recorded u (tw_db w1)) ->
  (quiet -> forall u, u ∈ added -> exists p, p ∈ ps1 /\ po_url p = u) ->
  delivered remaining' r c2 ps2 w2 w3 -> delivered remaining r (c1 ++ c2) (ps1 ++ ps2) w w3.
Proof.
  intros Hnd Hsub Ha1 Ha2 Hp1 Ho1 Hc1 Hd1 Hrec Hask [D1 D2 D3 D4 D5 D6].
  assert (NoDup (added ++ remaining')) as Hn by (by eapply contained_NoDup).
  apply NoDup_app in Hn as (Hn1 & Hn12 & Hn2).
  assert (forall u, u ∈ added \/ u ∈ remaining' -> u ∈ remaining) as Hin.
  { intros u Hu. eapply elem_of_submseteq; [|exact Hsub]. by apply elem_of_app. }
  assert (forall p, p ∈ ps1 -> po_url p ∈ added) as Hu1.
  { intros p Hx. eapply elem_of_submseteq; [|exact Ho1]. by apply list_elem_of_fmap_2. }
  assert (forall p, p ∈ ps2 -> po_url p ∈ remaining') as Hu2.
  { intros p Hx. eapply elem_of_submseteq; [|exact D3]. by apply list_elem_of_fmap_2. }
  assert (forall u, u ∈ added -> u ∉ c2) as Hc2 by (intros u Hu [Hx _]%D4; by apply (Hn12 u)).
  assert (alone -> forall p, p ∈ ps1 -> on_disk (answer_level (po_answer p)) (po_url p) (tw_db w3)) as Hd3.
  { intros Hal p Hx. eapply on_disk_advanced; [done|exact D1| |by apply Hd1]. by apply Hc2, Hu1. }
  split.
  - apply (advanced_trans [] (c1 ++ c2) [] (ps1 ++ ps2) _ w1); [done|]. by apply (advanced_trans _ _ _ _ _ w2).
  - by apply Forall_app.
  - rewrite map_app. etrans; [|exact Hsub]. by apply submseteq_app.
  - intros u [Hu|Hu]%elem_of_app.
    + destruct (Hc1 u Hu) as [Hx Hz]. split; [auto|]. intros p [Hq|Hq]%elem_of_app <-; [by apply Hz|].
      by destruct (Hn12 (po_url p)); auto.
    + destruct (D4 u Hu) as [Hx Hz]. split; [auto|]. intros p [Hq|Hq]%elem_of_app <-; [|by apply Hz].
      by destruct (Hn12 (po_url p)); auto.
  - intros Hal p [Hx|Hx]%elem_of_app Hl; [|by apply D5]. intros row Hr Hnf.
    etrans; [|by apply (Hd3 Hal p Hx row)]. lia.
  - destruct r as [[]| |]; try done. destruct D6 as [D6 D7]. split.
    + intros Hal p [Hx|Hx]%elem_of_app; [by apply Hd3|by apply D6].
    + intros Hq Hal. destruct (D7 Hq Hal) as [?|Hcov]; [by left|right]. setoid_rewrite elem_of_app.
      intros u Hu. destruct (Hrec Hal u Hu) as [Hx|[Hx|Hx]].
      * destruct (Hask Hq u Hx) as (p & ? & ?). left. eauto.
      * destruct (Hcov u Hx) as [(p & ? & ?)|?]; [left; eauto|by right].
      * destruct (decide (u ∈ added)) as [Hy|Hy]; [destruct (Hask Hq u Hy) as (p & ? & ?); left; eauto|].
        destruct (decide (u ∈ remaining')) as [Hz|Hz].
        { destruct (Hcov u Hz) as [(p & ? & ?)|?]; [left; eauto|by right]. }
        right. eapply recorded_advanced; [done|exact (advanced_trans _ _ _ _ _ _ _ Ha2 D1)| |done].
        rewrite not_elem_of_app. split; [by intros [? _]%Hc1|by intros [? _]%D4].
Qed.

(** A wave that ends the delivery early. *)
Lemma delivered_last added remaining' remaining r c ps w w1 w2 :
  added ++ remaining' ⊆+ remaining -> advanced [] [] w w1 -> advanced c ps w1 w2 -> Forall posted ps ->
  map po_url ps ⊆+ added ->
  (forall u, u ∈ c -> u ∈ added /\ forall p, p ∈ ps -> po_url p = u -> answer_level (po_answer p) = 0%nat) ->
  (alone -> forall p, p ∈ ps -> (2 <= answer_level (po_answer p))%nat -> on_disk 1 (po_url p) (tw_db w2)) ->
  match r with
  | Done _ => (alone -> forall p, p ∈ ps -> on_disk (answer_level (po_answer p)) (po_url p) (tw_db w2)) /\ ~ quiet
  | Raised _ => True
  | Starved => stuck
  end ->
  delivered remaining r c ps w w2.
Proof.
  intros Hsub Ha1 Ha2 Hp Hps Hcl Hk Hr. split; try done.
  - by apply (advanced_trans [] c [] ps _ w1).
  - etrans; [exact Hps|]. etrans; [|exact Hsub]. by apply submseteq_inserts_r.
  - intros u (Hu & Hz)%Hcl. split; [|done]. eapply elem_of_submseteq; [|exact Hsub]. apply elem_of_app. by left.
  - destruct r; try done. destruct Hr. split; [done|]. by intros.
Qed.

Lemma deliver_waves_ok fuel : forall remaining state w,
  (length remaining <= fuel)%nat -> NoDup remaining -> (forall u, u ∈ remaining -> u ∈ candidates) ->
  wf_db (tw_db w) -> counted state w ->
  exists r cleared ps w',
    deliver_waves env config params scope record planned candidates target deadline fuel remaining state w = (r, w')
    /\ delivered remaining r cleared ps w w'.
Proof.
  induction fuel as [|fuel IH]; intros remaining state w Hf Hnd Hin Hwf Hc; cbn [deliver_waves].
  all: destruct (_ || _) eqn:Estop;
    [exists (Done tt), [], [], w; split; [done|]; apply delivered_none; [by apply advanced_refl|];
     intros _ Hal; apply orb_true_iff in Estop as [->%bool_decide_eq_true|Es%Nat.leb_le];
     [right; by intros u ?%elem_of_nil|left; by eapply counted_crowded]|].
  { destruct remaining; cbn in Hf; [|lia]. by rewrite bool_decide_true in Estop. }
  apply orb_false_iff in Estop as [_ Eneed%Nat.leb_gt]. unfold cancel, look. cbn [tw_step].
  unfold tr_bind at 1. destruct (te_cancel (de_pass env) (tw_step w)) eqn:Ecancel.
  { eexists (Done tt), [], [], _. split; [done|]. apply delivered_none; [by apply advanced_clock|].
    intros Hq. pose proof (qt_cancel Hq (tw_step w)). congruence. }
  set (w0 := with_step _ w). assert (advanced [] [] w w0) as Ha0 by (by apply advanced_clock).
  destruct (reserve_wave_ok (length remaining) (target - length (dv_accepted_urls state)) [] remaining w0)
    as (r & w1 & E1 & Ha01 & Hdr); [done|done|apply Ha0|]. unfold tr_bind at 1. rewrite E1.
  pose proof (advanced_trans [] [] [] [] _ _ _ Ha0 Ha01) as Ha1.
  destruct r as [[[wave remaining'] stop]|e|]; [|eexists _, [], [], _; split; [done|]; by apply delivered_none|done].
  destruct Hdr as (added & E & Hsub & Hrec & Hq). cbn in E. subst wave.
  case_bool_decide as Hempty.
  { subst. eexists (Done tt), [], [], _. split; [done|]. apply delivered_none; [done|]. intros Hqu Hal.
    destruct (Hq Hqu) as [_ [Hn|[->|?]]]; [cbn in Hn; lia| |by left]. right. intros u Hu.
    destruct (Hrec Hal u Hu) as [?%elem_of_nil|[?%elem_of_nil|?]]; done. }
  assert (NoDup (added ++ remaining')) as Hn by (by eapply contained_NoDup).
  assert (forall u, u ∈ added ++ remaining' -> u ∈ candidates) as Hin'.
  { intros u Hu. apply Hin. by eapply elem_of_submseteq. }
  apply submseteq_length in Hsub as Hlen. rewrite length_app in Hlen. destruct added as [|x added]; [done|]. cbn in Hlen.
  set (wave := x :: added) in *. apply NoDup_app in Hn as (Hnw & _ & Hnr).
  rewrite tr_bind_assoc.
  destruct (one_wave_ok wave state w1) as (r & c & ps & w2 & E2 & Ha2 & Hp & Hps & Hcl & Hk & Hr);
    [set_solver|done|apply Ha1|by eapply counted_advanced|].
  unfold tr_bind at 1. rewrite E2. destruct r as [[state' elapsed]|e|].
  - destruct Hr as (Hc' & Hd & Hqw). destruct (elapsed || stop) eqn:Eend.
    + eexists (Done tt), c, ps, w2. split; [done|]. eapply delivered_last; [exact Hsub|exact Ha1|done..|].
      split; [done|]. intros Hqu. destruct (Hqw Hqu) as [-> _]. destruct (Hq Hqu) as [-> _]. done.
    + destruct (IH remaining' state' w2) as (r & c2 & ps2 & w3 & E3 & D); [lia|done|set_solver|apply Ha2|done|].
      exists r, (c ++ c2), (ps ++ ps2), w3. split; [done|]. eapply (delivered_next wave remaining remaining'); try done.
      intros Hqu. by apply Hqw.
  - eexists _, c, ps, w2. split; [done|]. by eapply delivered_last; [exact Hsub|exact Ha1|..].
  - eexists _, c, ps, w2. split; [done|]. by eapply delivered_last; [exact Hsub|exact Ha1|..].
Qed.
End fan.

(** ** The whole fan-out *)
Section dispatch.
Context `{Externals} `{SqliteText} `{RecoveryExternals} `{DomainExternals} `{ShareExternals}.
Context `{HelperIdentity} `{UrlListJson} `{HelperJson}.
Context (env : DeliveryEnv) (config : HelperClientConfig) (params : InitialShareSubmissionParams).
Context (scope : string) (record : ShareDelegationRecord) (planned fallback : list string).
Hypothesis (Hothers : others_wf (de_pass env)) (Hcanonical : Forall canonical_url (planned ++ fallback)).
Hypothesis (Hdistinct : NoDup (planned ++ fallback)).

Notation id := ((ip_round_id params, scope, ip_bundle_index params, ip_proposal_id params),
  ip_share_index params).
Notation nullifier := (sr_nullifier record).
Notation alone := (alone_on (de_pass env) id nullifier).
Notation candidates := (planned ++ fallback).
Notation disk := (on_disk params scope record).

(** The report is what the row says about the helpers of the list. *)
Record tells (report : ShareSubmissionReport) (db : ShareDb) : Prop := {
  te_row : exists row, sd_shares db !! id = Some row /\ sh_nullifier row = nullifier
    /\ (forall u, u ∈ su_accepted_urls report <-> u ∈ candidates /\ row_evidence row u = EvAccepted)
    /\ (forall u, u ∈ su_ambiguous_urls report
          <-> u ∈ candidates /\ (row_evidence row u = EvUnknown \/ row_evidence row u = EvInFlight));
  te_distinct : NoDup (su_accepted_urls report ++ su_ambiguous_urls report)
}.

Definition reported (report : ShareSubmissionReport) : list string :=
  su_accepted_urls report ++ su_ambiguous_urls report.

Lemma report_tells s row st target db :
  sd_shares db !! id = Some row -> sh_nullifier row = nullifier -> load_delivery row = Ok st -> wf_stored st ->
  s = within candidates (sv_state st) -> tells (delivery_report s target) db.
Proof.
  intros Hr Hn Hl Hst ->. pose proof (ws_state _ Hst) as Hw.
  assert (forall u, row_evidence row u = evidence (sv_state st) u) as Hev.
  { intros u. unfold row_evidence. by rewrite Hl. }
  destruct (within_wf candidates _ Hw) as [Wa Wu Wf Wua Wfo _]. destruct Hw as [_ _ _ Vua Vfo _]. split.
  - exists row. split_and!; try done; intros u; cbn [delivery_report within su_accepted_urls su_ambiguous_urls
      dv_accepted_urls dv_outcome_unknown_urls dv_in_flight_urls]; set (c := candidates) in *.
    all: try rewrite elem_of_app; rewrite !list_elem_of_filter, Hev; specialize (Vua u); specialize (Vfo u);
      clear -Vua Vfo; unfold evidence; repeat case_bool_decide; intuition congruence.
  - unfold delivery_report. cbn [su_accepted_urls su_ambiguous_urls].
    apply NoDup_app. split_and!; [done| |].
    + intros u Ha [Hu|Hu]%elem_of_app; [by apply (Wua u)|by destruct (Wfo u Hu)].
    + apply NoDup_app. split_and!; try done. intros u Hu Hf. by destruct (Wfo u Hf).
Qed.

Lemma reported_elem report db u row :
  tells report db -> sd_shares db !! id = Some row -> u ∈ candidates -> row_evidence row u <> EvNone ->
  u ∈ reported report.
Proof.
  intros [(row' & Hr' & _ & Ha & Hb) _] Hr Hu He. rewrite Hr in Hr'. simplify_eq. apply elem_of_app.
  rewrite Ha, Hb. destruct (row_evidence row' u); tauto.
Qed.

Lemma on_disk_reported report db u level :
  tells report db -> u ∈ candidates -> (1 <= level)%nat -> disk level u db ->
  u ∈ reported report /\ (level = 3%nat -> u ∈ su_accepted_urls report).
Proof.
  intros Ht Hu Hl Hd. pose proof Ht as [(row & Hr & Hn & Ha & _) _]. specialize (Hd row Hr Hn). cbv beta in Hd. split.
  - eapply reported_elem; [done|done|done|]. intros E. rewrite E in Hd. cbn in Hd. lia.
  - intros ->. apply Ha. split; [done|]. destruct (row_evidence row u); cbn in Hd; (done || lia).
Qed.

Lemma crowded_reported report db target :
  tells report db -> crowded params scope record candidates target db ->
  (target <= length (reported report))%nat.
Proof.
  intros Ht Hc. pose proof Ht as [(row & Hr & Hn & _) _]. etrans; [by apply (Hc row Hr Hn)|].
  apply submseteq_length, NoDup_submseteq; [by apply NoDup_filter|].
  intros u [He Hu]%list_elem_of_filter. by eapply reported_elem.
Qed.

(** Why a delivery that nobody disturbed asked no more helpers. *)
Definition thorough (report : ShareSubmissionReport) (ps : list Post) (db : ShareDb) : Prop :=
  (ip_target_count params <= length (reported report))%nat
  \/ (length candidates <= 2 * length (reported report))%nat
  \/ forall u, u ∈ candidates ->
       (exists p, p ∈ ps /\ po_url p = u) \/ u ∈ reported report
       \/ keeps id nullifier (fun row => sh_confirmed row = true) db.

(** The environment of a delivery that nobody disturbs. *)
Record undisturbed : Prop := {
  ud_lock : forall n, te_lock (de_pass env) n = Ok true;
  ud_quiet : forall n, quiet env (de_clock env n + SHARE_INITIAL_DELIVERY_TIMEOUT_MILLISECONDS)
}.

Definition admits : Prop :=
  forall m n, exists r, acquire (de_clock env m + SHARE_INITIAL_DELIVERY_TIMEOUT_MILLISECONDS) (de_admission env n) = Some r.

Record dispatched (r : Ran ShareSubmissionReport) (ps : list Post) (w w' : TrackingWorld) : Prop := {
  ds_posts : tw_posts w' = tw_posts w ++ ps;
  ds_wf : wf_db (tw_db w');
  ds_posted : exists deadline, Forall (posted env params scope record candidates deadline) ps;
  ds_once : NoDup (map po_url ps);
  ds_kept : alone -> forall p, p ∈ ps -> may_hold p = true -> disk 1 (po_url p) (tw_db w');
  ds_result : match r with
    | Done report =>
        tells report (tw_db w') /\ su_target_count report = ip_target_count params
        /\ (alone -> forall p, p ∈ ps ->
              (may_hold p = true -> po_url p ∈ reported report)
              /\ forall status, po_answer p = Some (Ok status) -> po_url p ∈ su_accepted_urls report)
        /\ (undisturbed -> alone -> thorough report ps (tw_db w'))
    | Raised _ => True
    | Starved => ~ admits
    end
}.

Notation advances := (advanced env params scope record).

Lemma report_ok w :
  wf_db (tw_db w) ->
  exists r w', tr_bind (try_storage (load_state env params scope record candidates))
                 (fun state => tr_ret (delivery_report state (ip_target_count params))) w = (r, w')
    /\ advances [] [] w w'
    /\ match r with
       | Done report => tells report (tw_db w') /\ su_target_count report = ip_target_count params
       | Raised _ => True
       | Starved => False
       end.
Proof.
  intros Hwf. destruct (load_state_ok env params scope record candidates Hothers w Hwf)
    as (r & w' & E & Ha & Hl).
  unfold try_storage, tr_bind. rewrite E. destruct r as [s|e]; [|by eexists _, _].
  destruct (Hl s eq_refl) as (row & st & Hr & Hn & Hst & Hwst & ->).
  eexists _, w'. split; [done|]. split; [done|]. split; [|done]. by eapply report_tells.
Qed.

Lemma may_hold_level p deadline :
  posted env params scope record candidates deadline p -> may_hold p = true ->
  (2 <= answer_level (po_answer p))%nat.
Proof. intros Hp. apply Hp. Qed.

Lemma without_requests r w w' :
  advances [] [] w w' ->
  match r with
  | Done report => (tells report (tw_db w') /\ su_target_count report = ip_target_count params) /\ ~ undisturbed
  | Raised _ => True
  | Starved => ~ admits
  end ->
  dispatched r [] w w'.
Proof.
  intros [Ha1 Ha2 _] Hr. split; try done; [by exists 0|constructor|by intros _ p ?%elem_of_nil|].
  destruct r; try done. destruct Hr as [[? ?] Hu]. split_and!; try done. by intros _ p ?%elem_of_nil.
Qed.

(** The acceptances counted at the start are on disk. *)
Lemma loaded_counted w row st :
  sd_shares (tw_db w) !! id = Some row -> load_delivery row = Ok st -> wf_stored st ->
  counted env params scope record candidates (within candidates (sv_state st)) w.
Proof.
  intros Hr Hl Hst. destruct (within_wf candidates _ (ws_state _ Hst)) as [Wa _ _ _ _ _]. split; [done|..].
  - by intros u [? _]%list_elem_of_filter.
  - intros _ u [_ Hu]%list_elem_of_filter row' Hr' _. rewrite Hr in Hr'. simplify_eq.
    unfold row_evidence. rewrite Hl. unfold evidence. by rewrite bool_decide_true.
Qed.

(** Every helper that is not asked because it is known from the start is
    still in the report. *)
Lemma known_reported report s row st cleared ps w w' u :
  alone -> sd_shares (tw_db w) !! id = Some row -> load_delivery row = Ok st -> s = within candidates (sv_state st) ->
  advances cleared ps w w' -> tells report (tw_db w') -> u ∈ candidates -> untouched s u = false -> u ∉ cleared ->
  u ∈ reported report.
Proof.
  intros Hal Hr Hl -> Ha Ht Hu Hun Hc. apply (on_disk_reported report (tw_db w') u 1); [done|done|done|].
  eapply on_disk_advanced; [done|exact Ha|done|]. intros row' Hr' _. rewrite Hr in Hr'. simplify_eq.
  assert (evidence (within candidates (sv_state st)) u <> EvNone) as He.
  { unfold evidence. unfold untouched in Hun. repeat case_bool_decide; done. }
  rewrite within_evidence, bool_decide_true in He by done. unfold row_evidence. rewrite Hl.
  destruct (evidence (sv_state st) u); cbn; (done || lia).
Qed.

Definition fresh_target (s : ShareDeliveryState) (remaining : list string) : nat :=
  Nat.min (ip_target_count params) (length (dv_accepted_urls s) + length remaining).

(** Enough helpers for the target that the fleet still allows are enough, or
    half of the fleet. *)
Lemma enough_reported report s row st cleared ps w w' :
  alone -> sd_shares (tw_db w) !! id = Some row -> load_delivery row = Ok st -> wf_stored st ->
  s = within candidates (sv_state st) -> advances cleared ps w w' -> tells report (tw_db w') ->
  (forall u, u ∈ cleared -> untouched s u = true) ->
  (fresh_target s (filter (fun u => untouched s u = true) candidates) <= length (reported report))%nat ->
  (ip_target_count params <= length (reported report))%nat
  \/ (length candidates <= 2 * length (reported report))%nat.
Proof.
  intros Hal Hr Hl Hst Hs Ha Ht Hcl Hf. unfold fresh_target in Hf.
  destruct (decide (ip_target_count params <= length (reported report))%nat) as [?|Hlt]; [by left|right].
  set (open := filter (fun u => untouched s u <> true /\ u ∉ dv_accepted_urls s) candidates).
  assert (length open <= length (reported report))%nat as Ho.
  { apply submseteq_length, NoDup_submseteq; [by apply NoDup_filter|].
    intros u [[Hu _] Hc]%list_elem_of_filter. eapply known_reported; try done; [by destruct (untouched s u)|].
    intros Hx%Hcl. done. }
  assert (length candidates
    <= length (dv_accepted_urls s) + length (filter (fun u => untouched s u = true) candidates) + length open)%nat.
  { rewrite <- !length_app. apply submseteq_length, NoDup_submseteq; [done|]. intros u Hu.
    rewrite !elem_of_app, !list_elem_of_filter. destruct (decide (u ∈ dv_accepted_urls s)); [tauto|].
    destruct (untouched s u) eqn:Eu; [left; by right|right]. apply list_elem_of_filter.
    split; [|done]. split; [congruence|done]. }
  lia.
Qed.

Lemma delivered_dispatched target deadline remaining r0 r cleared ps w w2 w3 w4 :
  NoDup remaining -> advances [] [] w w2 ->
  delivered env params scope record candidates target deadline remaining r0 cleared ps w2 w3 ->
  advances [] [] w3 w4 ->
  match r with
  | Done report =>
      r0 = Done tt /\ (tells report (tw_db w4) /\ su_target_count report = ip_target_count params)
      /\ (undisturbed -> alone -> thorough report ps (tw_db w4))
  | Raised _ => True
  | Starved => ~ admits
  end ->
  dispatched r ps w w4.
Proof.
  intros Hnd Ha2 [D1 D2 D3 D4 D5 D6] Ha4 Hr.
  assert (forall p, p ∈ ps -> po_url p ∈ candidates) as Hurl.
  { intros p Hp. rewrite list.Forall_forall in D2. apply (pd_url _ _ _ _ _ _ _ (D2 p Hp)). }
  pose proof (advanced_trans _ _ _ _ _ _ _ _ _ _ _ Ha2
    (advanced_trans _ _ _ _ _ _ _ _ _ _ _ D1 Ha4)) as Ha. rewrite !app_nil_r in Ha.
  split; [apply Ha|apply Ha|by exists deadline|by eapply contained_NoDup| |].
  - intros Hal p Hp Hh. eapply on_disk_advanced; [done|exact Ha4|by intros ?%elem_of_nil|].
    apply D5; [done|done|]. rewrite list.Forall_forall in D2. by apply (D2 p Hp).
  - destruct r as [report|e|]; [|done|done]. destruct Hr as (-> & [Ht Hc] & Hth). destruct D6 as [D6 _].
    split_and!; [done|done| |done]. intros Hal p Hp.
    assert (disk (answer_level (po_answer p)) (po_url p) (tw_db w4)) as Hd.
    { eapply on_disk_advanced; [done|exact Ha4|by intros ?%elem_of_nil|by apply D6]. }
    split.
    + intros Hh. rewrite list.Forall_forall in D2. pose proof (pd_hold _ _ _ _ _ _ _ (D2 p Hp) Hh) as Hlev.
      exact (proj1 (on_disk_reported report (tw_db w4) _ (answer_level (po_answer p)) Ht (Hurl p Hp) ltac:(lia) Hd)).
    + intros status Es. rewrite Es in Hd.
      exact (proj2 (on_disk_reported report (tw_db w4) _ 3 Ht (Hurl p Hp) ltac:(lia) Hd) eq_refl).
Qed.

Lemma crowded_advanced target ps w w' :
  alone -> advances [] ps w w' -> crowded params scope record candidates target (tw_db w) ->
  crowded params scope record candidates target (tw_db w').
Proof.
  intros Hal [_ _ Hr] Hc row' Hrow Hn. destruct (Hr Hal row' Hrow Hn) as (row & Hrow' & (Hn' & _) & Hm).
  etrans; [apply (Hc row Hrow'); congruence|]. apply submseteq_length, NoDup_submseteq; [by apply NoDup_filter|].
  intros u [He Hu]%list_elem_of_filter. apply list_elem_of_filter. split; [|done].
  assert (u ∉ []) as Hx by (by intros ?%elem_of_nil). specialize (Hm u Hx). intros E. rewrite E in Hm.
  destruct (row_evidence row u); cbn in Hm; (done || lia).
Qed.

Lemma dispatch_thorough deadline report s row st cleared ps w1 w2 w3 w4 :
  sd_shares (tw_db w1) !! id = Some row -> load_delivery row = Ok st -> wf_stored st ->
  s = within candidates (sv_state st) -> advances [] [] w1 w2 ->
  let remaining := filter (fun u => untouched s u = true) candidates in
  delivered env params scope record candidates (fresh_target s remaining) deadline remaining (Done tt)
    cleared ps w2 w3 ->
  advances [] [] w3 w4 -> tells report (tw_db w4) -> quiet env deadline -> alone ->
  thorough report ps (tw_db w4).
Proof.
  intros Hr Hl Hst Hs Ha2 remaining [D1 D2 D3 D4 D5 [_ D6]] Ha4 Ht Hq Hal.
  pose proof (advanced_trans _ _ _ _ _ _ _ _ _ _ _ Ha2
    (advanced_trans _ _ _ _ _ _ _ _ _ _ _ D1 Ha4)) as Ha. rewrite !app_nil_r in Ha. cbn in Ha.
  assert (forall u, u ∈ cleared -> untouched s u = true) as Hcl.
  { intros u [Hu _]%D4. by apply list_elem_of_filter in Hu as [? _]. }
  unfold thorough. destruct (D6 Hq Hal) as [Hc|Hcov].
  - apply (crowded_advanced _ _ _ _ Hal Ha4) in Hc. apply (crowded_reported _ _ _ Ht) in Hc.
    destruct (enough_reported report s row st cleared ps w1 w4) as [?|?]; auto.
  - right; right. intros u Hu. destruct (untouched s u) eqn:Eu.
    2: { right; left. eapply known_reported; try done. intros Hx%Hcl. congruence. }
    destruct (Hcov u) as [?|Hrec]; [by apply list_elem_of_filter|by left|right].
    pose proof Ht as [(row4 & Hr4 & Hn4 & _) _].
    assert (recorded params scope record u (tw_db w4)) as Hrec4.
    { eapply recorded_advanced; [done|exact Ha4|by intros ?%elem_of_nil|done]. }
    destruct (Hrec4 row4 Hr4 Hn4) as [Hconf|Hev].
    + right. intros row' Hr' _. rewrite Hr4 in Hr'. by simplify_eq.
    + left. eapply reported_elem; [done|done|done|]. intros E. rewrite E in Hev. cbn in Hev. lia.
Qed.

Lemma first_dispatch_ok w :
  wf_db (tw_db w) ->
  exists r ps w', dispatch_share_to_canonical_helpers env config params scope planned fallback record w = (r, w')
    /\ dispatched r ps w w'.
Proof.
  intros Hwf. unfold dispatch_share_to_canonical_helpers, lock_share_operation_or_cancel, look.
  unfold tr_bind at 1 2. cbn [tw_step]. set (w0 := with_step _ w).
  assert (advances [] [] w w0) as Ha0 by (by apply advanced_clock).
  destruct (te_lock (de_pass env) (tw_step w)) as [[]|e] eqn:Elock; cbn [tr_lift tr_ret tr_raise].
  3: { eexists _, [], w0. split; [done|]. by apply without_requests. }
  2: { destruct (report_ok w0 (ad_wf _ _ _ _ _ _ _ _ Ha0)) as (r & w1 & E & Ha1 & Hr).
       exists r, [], w1. split; [done|]. apply without_requests; [by apply (advanced_trans _ _ _ _ [] [] [] [] _ w0)|].
       destruct r; try done. split; [done|]. intros Hu. rewrite (ud_lock Hu) in Elock. done. }
  destruct (load_state_ok env params scope record candidates Hothers w0 (ad_wf _ _ _ _ _ _ _ _ Ha0))
    as (r & w1 & E1 & Ha01 & Hl).
  pose proof (advanced_trans _ _ _ _ [] [] [] [] _ _ _ Ha0 Ha01) as Ha1.
  unfold try_storage at 1. unfold tr_bind at 1 2. rewrite E1. destruct r as [s|e]; cbn [tr_lift tr_ret tr_raise].
  2: { eexists _, [], w1. split; [done|]. by apply without_requests. }
  destruct (Hl s eq_refl) as (row & st & Hr & Hn & Hst & Hwst & Hs). clear Hl.
  set (remaining := filter (fun u => untouched s u = true) candidates).
  unfold tr_bind at 1. set (deadline := de_clock env (tw_step w1) + SHARE_INITIAL_DELIVERY_TIMEOUT_MILLISECONDS).
  set (w2 := with_step _ w1). assert (advances [] [] w1 w2) as Ha12 by (apply advanced_clock, Ha1).
  destruct (deliver_waves_ok env config params scope record planned candidates (fresh_target s remaining) deadline
    Hothers Hcanonical Hdistinct (length remaining) remaining s w2) as (r & cleared & ps & w3 & E3 & D).
  { done. } { by apply NoDup_filter. } { by intros u [_ Hu]%list_elem_of_filter. } { apply Ha12. }
  { eapply counted_advanced; [exact Ha12|]. rewrite Hs. by eapply loaded_counted. }
  unfold tr_bind at 1. unfold fresh_target in E3. rewrite E3.
  pose proof (advanced_trans _ _ _ _ [] [] [] [] _ _ _ Ha1 Ha12) as Ha2.
  pose proof (ad_wf _ _ _ _ _ _ _ _ (dl_advanced _ _ _ _ _ _ _ _ _ _ _ _ _ D)) as Hwf3.
  assert (NoDup remaining) as Hnd by (by apply NoDup_filter).
  destruct r as [[]|e|].
  - destruct (report_ok w3 Hwf3) as (r & w4 & E4 & Ha4 & Hr4).
    exists r, ps, w4. split; [done|]. eapply delivered_dispatched; [exact Hnd|exact Ha2|exact D|exact Ha4|].
    destruct r as [report|e|]; [|done|done]. split_and!; [done|apply Hr4|apply Hr4|]. intros Hu Hal.
    eapply (dispatch_thorough deadline report s row st cleared ps w1 w2 w3 w4); try done; [apply Hr4|by apply Hu].
  - eexists _, ps, w3. split; [done|].
    eapply delivered_dispatched; [exact Hnd|exact Ha2|exact D|by apply advanced_refl|done].
  - eexists _, ps, w3. split; [done|].
    eapply delivered_dispatched; [exact Hnd|exact Ha2|exact D|by apply advanced_refl|].
    intros Had. destruct (dl_result _ _ _ _ _ _ _ _ _ _ _ _ _ D) as [n Hn0].
    destruct (Had (tw_step w1) n) as [r' Hr']. unfold deadline in Hn0. congruence.
Qed.
End dispatch.

(** ** The durable row *)
Section record_row.
Context `{Externals} `{SqliteText} `{RecoveryExternals} `{DomainExternals}.
Context `{HelperIdentity} `{UrlListJson}.

(** The time that a recording returns is the one on disk. *)
Lemma record_generation_spec id target nullifier submit created json db :
  wf_db db ->
  exists r db', record_share_delegation_for_vote_generation id [] [] target nullifier submit created json db
                = Some (r, db')
    /\ wf_db db'
    /\ forall s, r = Ok s -> exists row, sd_shares db' !! id = Some row
         /\ sh_nullifier row = nullifier /\ sh_submit_at row = s.
Proof.
  intros Hwf. unfold record_share_delegation_for_vote_generation, record_share_delegation_inner.
  destruct id as [[[[round wallet] bundle] proposal] share]. cbn [fst].
  destruct (match tb_votes _ !! _ with Some _ => _ | None => _ end) as [current|e]; [|by eexists _, _].
  case_bool_decide; [|by eexists _, _].
  destruct (ensure_share_matches_ballot_intent _ _); [|by eexists _, _].
  set (id := ((round, wallet, bundle, proposal), share)).
  set (step := record_step id [] [] target nullifier submit created).
  destruct (retry_returns id step [] db) as (r & db' & E). { intros. by eapply record_applies. }
  rewrite E. apply retry_alone in E. fold step in E. unfold step in E.
  destruct (record_step id [] [] target nullifier submit created db) as [attempt|] eqn:Ea;
    [|destruct E as [-> ->]; by eexists _, _].
  pose proof (record_sound _ _ _ _ _ _ _ _ _ (Forall_nil_2 _) (Forall_nil_2 _) Hwf Ea) as Hs.
  unfold record_step in Ea. destruct (sd_shares db !! id) as [row|] eqn:Hrow.
  - case_bool_decide as Hn; [done|]. destruct (load_delivery row); [|done].
    destruct (merge_persisted_report _ _ _); [|done]. simplify_eq.
    destruct E as (row' & Hr & Ho & -> & ->). assert (row' = row) as -> by congruence.
    eexists _, _. split; [done|]. split.
    { apply wf_put; [done|]. apply (st_wf None row), Hs; [by apply (Hwf id)|done]. }
    intros s [= <-]. eexists. cbn. rewrite lookup_insert_eq. by split.
  - destruct (from_url_lists [] [] []); [|done]. simplify_eq. destruct Hs as [Hs _].
    destruct E as [(e & -> & ->)|(_ & -> & ->)]; [by eexists _, _|].
    eexists _, _. split; [done|]. split; [by apply wf_put|]. intros s [= <-]. eexists. cbn.
    rewrite lookup_insert_eq. by split.
Qed.
End record_row.

(** ** One payload of a committed vote *)
Section submission.
Context `{Externals} `{SqliteText} `{RecoveryExternals} `{DomainExternals} `{ShareExternals}.
Context `{HelperIdentity} `{UrlListJson} `{HelperJson}.
Context (env : DeliveryEnv) (config : HelperClientConfig).
Hypothesis (Hothers : others_wf (de_pass env)).

(** Steps without requests, in which rows may also be created. *)
Definition settling (w w' : TrackingWorld) : Prop := tw_posts w' = tw_posts w /\ wf_db (tw_db w').

Lemma storage_settles {A} (op : ShareDb -> option (result A VotingError * ShareDb)) w :
  wf_db (tw_db w) -> (forall db, wf_db db -> exists r db', op db = Some (r, db') /\ wf_db db') ->
  exists r w', storage (de_pass env) op w = (Done r, w') /\ settling w w'
    /\ ((exists e, r = Err e) \/ op (te_others (de_pass env) (tw_step w) (tw_db w)) = Some (r, tw_db w')).
Proof.
  intros Hwf Hop. unfold storage. set (db := te_others _ _ _). assert (wf_db db) as Hdb by (by apply Hothers).
  destruct (te_fault _ _) as [e|]; [eexists _, _; split; [done|]; split; [done|left; by eexists]|].
  destruct (Hop db Hdb) as (r & db' & E & Hwf'). rewrite E. eexists _, _. split; [done|]. split; [done|by right].
Qed.

Lemma query_settles {A} (f : ShareDb -> result A VotingError) w :
  wf_db (tw_db w) ->
  exists r w', query (de_pass env) f w = (Done r, w') /\ settling w w'
    /\ ((exists e, r = Err e) \/ r = f (tw_db w') /\ tw_db w' = te_others (de_pass env) (tw_step w) (tw_db w)).
Proof.
  intros Hwf. destruct (storage_settles (fun db => Some (f db, db)) w Hwf) as (r & w' & E & Hs & Hr); [by eauto|].
  exists r, w'. split; [done|]. split; [done|]. destruct Hr as [?|[= Hr Hdb]]; [by left|right].
  by rewrite <- Hr, <- Hdb.
Qed.

Section prepare.
Context (params : InitialShareSubmissionParams) (scope json : string) (nullifier : list Z).

Notation id := ((ip_round_id params, scope, ip_bundle_index params, ip_proposal_id params),
  ip_share_index params).

Lemma prepare_ok w :
  wf_db (tw_db w) ->
  exists r w', prepare_committed_share_delivery env params scope json nullifier w = (r, w') /\ settling w w'
    /\ match r with
       | Done (submit_at, record) =>
           sr_nullifier record = nullifier
           /\ (alone_on (de_pass env) id nullifier ->
               sr_submit_at record = submit_at \/ sr_submit_at record = 0)
       | Raised _ => True
       | Starved => False
       end.
Proof.
  intros Hwf. unfold prepare_committed_share_delivery, record_delivery_for_committed_vote, look.
  destruct (persisted_delivery_target_count _) as [target|e]; [|by eexists _, _]. unfold tr_bind, try_storage, tr_bind.
  cbn [tr_lift tr_ret]. set (w1 := with_step _ w).
  destruct (storage_settles (record_share_delegation_for_vote_generation id [] [] target nullifier (ip_submit_at params)
    (de_wall_clock env (tw_step w)) json) w1 Hwf) as (r & w2 & -> & [Hp2 Hwf2] & Hr).
  { intros db Hdb. destruct (record_generation_spec id target nullifier (ip_submit_at params)
      (de_wall_clock env (tw_step w)) json db Hdb) as (r & db' & ? & ? & _). eauto. }
  destruct r as [submit_at|e]; [|by eexists _, _]. destruct Hr as [[e ?]|Hr]; [done|]. cbn [tr_lift tr_ret].
  destruct (record_generation_spec id target nullifier (ip_submit_at params) (de_wall_clock env (tw_step w)) json
    (te_others (de_pass env) (tw_step w1) (tw_db w1)) (Hothers _ _ Hwf)) as (r' & db' & E' & _ & Hrow).
  rewrite Hr in E'. simplify_eq. destruct (Hrow submit_at eq_refl) as (row & Hrow2 & Hn2 & Hs2).
  destruct (query_settles (get_share_delegation id) w2 Hwf2) as (r & w3 & -> & [Hp3 Hwf3] & Hr3).
  assert (settling w w3) as Hs by (split; [by rewrite Hp3, Hp2|done]).
  destruct r as [found|e]; [|by eexists _, _]. destruct Hr3 as [[e ?]|[Hr3 Hdb3]]; [done|].
  cbn [tr_lift tr_ret]. destruct found as [record|]; [|by eexists _, _]. cbn [mbind option_bind].
  case_bool_decide as Hn; [|by eexists _, _]. eexists _, _. split; [done|]. split; [done|]. split; [done|].
  intros Hal. unfold get_share_delegation in Hr3. destruct (sd_shares (tw_db w3) !! id) as [row3|] eqn:Hrow3; [|done].
  unfold share_record in Hr3. destruct (load_delivery row3); [|done]. simplify_eq/=.
  rewrite Hdb3 in Hrow3. destruct (Hal _ _ _ Hwf2 Hrow3) as (row' & Hr' & Hst); [done|].
  rewrite Hrow2 in Hr'. simplify_eq. destruct (st_submit _ _ _ Hst) as [Hx|Hx]; [left|right]; congruence.
Qed.
End prepare.

(** ** The helpers of a request *)
Lemma candidates_fleet (configured planned : list string) :
  NoDup configured -> NoDup planned ->
  let eligible := filter (fun url => url ∈ configured) planned in
  eligible ++ filter (fun url => url ∉ eligible) configured ≡ₚ configured.
Proof.
  intros Hc Hp eligible. apply NoDup_Permutation; [|done|].
  - apply NoDup_app. split_and!; [by apply NoDup_filter| |by apply NoDup_filter].
    intros u Hu [Hx _]%list_elem_of_filter. done.
  - intros u. rewrite elem_of_app, (list_elem_of_filter _ configured).
    destruct (decide (u ∈ eligible)) as [Hu|Hu]; [|tauto]. split; [|by left].
    intros _. by apply list_elem_of_filter in Hu as [? _].
Qed.

Lemma configured_fleet_ok urls fleet :
  Forall sound_url urls -> configured_fleet urls = Ok fleet -> Forall canonical_url fleet /\ NoDup fleet.
Proof.
  intros Hs. unfold configured_fleet. case_bool_decide; [done|].
  destruct (canonical_helper_url_list urls) as [l|] eqn:E; [|done]. case_bool_decide; [|done]. intros [= <-].
  split; [by eapply canonical_list_sound|by eapply canonical_list_NoDup].
Qed.

Lemma planned_distinct plan planning planned target :
  validate_planned_targets plan planning = Ok (planned, target) ->
  NoDup planned /\ target = Z.to_nat (pl_target_count plan)
  /\ target = share_submission_target_count (length planning).
Proof.
  unfold validate_planned_targets. destruct (canonical_helper_url_list _) as [l|] eqn:E; [|done].
  destruct (negb _); [done|]. destruct (_ || _) eqn:Et; [done|]. destruct (not_in_fleet _ _); [done|].
  intros [= <- <-]. split; [by eapply canonical_list_NoDup|]. split; [done|].
  apply orb_false_iff in Et as [Et _]. by apply negb_false_iff, bool_decide_eq_true in Et.
Qed.

Section one_payload.
Context (round : string) (bundle proposal : Z) (commitment : list Z) (payloads : list SharePayload).
Context (request : CommittedShareSubmissionRequest) (json scope : string).

Notation id := ((round, scope, bundle, proposal), cq_share_index request).

Notation submit_share :=
  (submit_committed_share_to_helpers env config round bundle proposal commitment payloads request json scope).

(** The confirmed position of the vote, as the delivery read it. *)
Definition position_read (w : TrackingWorld) (position : Z) : Prop :=
  helper_recovery_material_for_wallet scope round bundle proposal
    (te_others (de_pass env) (tw_step w) (tw_db w))
  = Ok (MaterialReady (mk_recoverable bundle proposal json position)).

(** The request is the committed share, at the vote's confirmed position and
    with the stored time of submission, which only a recovery resets. *)
Definition share_content (w : TrackingWorld) (record : ShareDelegationRecord) (body : string) : Prop :=
  exists payload position submit_at,
    find_payload payloads round proposal (cq_share_index request) = Ok payload
    /\ position_read w position
    /\ to_wire_json payload (Some position) submit_at = Ok body
    /\ (alone_on (de_pass env) id (sr_nullifier record) ->
        sr_submit_at record = submit_at \/ sr_submit_at record = 0).

Record first_request (fleet : list string) (w : TrackingWorld) (p : Post) : Prop := {
  fq_share : po_share p = id;
  fq_fleet : po_url p ∈ fleet;
  fq_identity : nullifier_from_recovery_json json proposal (cq_share_index request)
    = Ok (sr_nullifier (po_record p));
  fq_content : share_content w (po_record p) (po_json p);
  fq_journal : alone_on (de_pass env) id (sr_nullifier (po_record p)) ->
    keeps id (sr_nullifier (po_record p)) (fun row => row_evidence row (po_url p) <> EvNone) (po_db p)
}.

Lemma tr_bind_lift {A B} (r : result A VotingError) (k : A -> Tr B) w0 :
  tr_bind (tr_lift r) k w0 = match r with Ok a => k a w0 | Err e => (Raised e, w0) end.
Proof. by destruct r. Qed.

Lemma bind_storage {A B} (m : Tr (result A VotingError)) (k : A -> Tr B) w0 r w1 :
  m w0 = (Done r, w1) ->
  tr_bind (try_storage m) k w0 = match r with Ok a => k a w1 | Err e => (Raised e, w1) end.
Proof. intros E. unfold try_storage, tr_bind. rewrite E. by destruct r. Qed.

Lemma confirmed_material_ok share material position nullifier :
  confirmed_material round bundle proposal share commitment json material = Ok (position, nullifier) ->
  exists b, material = MaterialReady b /\ rc_commitment_bundle_json b = json /\ rc_vc_tree_position b = position
    /\ nullifier_from_recovery_json json proposal share = Ok nullifier.
Proof.
  unfold confirmed_material. destruct material as [b| |]; [|done|done].
  destruct (negb _) eqn:Ej; [done|]. apply negb_false_iff, bool_decide_eq_true in Ej.
  destruct (parse_recovery _); [|done]. destruct (negb _); [done|].
  destruct (nullifier_from_recovery_json _ _ _) as [n|] eqn:En; [|done]. intros [= <- <-].
  exists b. split_and!; try done. by rewrite <- Ej.
Qed.

Lemma material_ready db b :
  helper_recovery_material_for_wallet scope round bundle proposal db = Ok (MaterialReady b) ->
  b = mk_recoverable bundle proposal (rc_commitment_bundle_json b) (rc_vc_tree_position b).
Proof.
  unfold helper_recovery_material_for_wallet. destruct (tb_votes _ !! _) as [v|]; [|done].
  destruct (vt_commitment_bundle_json v), (vt_vc_tree_position v) as [p|]; try done.
  by destruct (p <? 0); intros [= <-].
Qed.

(** The delivery ended before the fan-out, or is one. *)
Lemma submit_share_ok w :
  wf_db (tw_db w) -> Forall sound_url (cq_configured_server_urls request) ->
  exists r w', submit_share w = (r, w')
    /\ (settling w w' /\ (exists e, r = Raised e)
        \/ exists fleet body target submit_at record planned fallback w1 ps,
             configured_fleet (cq_configured_server_urls request) = Ok fleet
             /\ planned ++ fallback ≡ₚ fleet /\ Forall canonical_url fleet
             /\ nullifier_from_recovery_json json proposal (cq_share_index request) = Ok (sr_nullifier record)
             /\ share_content w record body
             /\ target = Z.to_nat (pl_target_count (cq_plan request)) /\ settling w w1
             /\ dispatched env (mk_initial_params round bundle proposal (cq_share_index request) body target
                                  submit_at (cq_now_seconds request))
                  scope record planned fallback r ps w1 w').
Proof.
  intros Hwf Hsound. unfold submit_committed_share_to_helpers.
  assert (settling w w) as Hw by done.
  rewrite tr_bind_lift. destruct (configured_fleet (cq_configured_server_urls request)) as [fleet|e] eqn:Ef; [|by eexists _, w; eauto].
  destruct (configured_fleet_ok _ _ Hsound Ef) as [Hcan Hnd].
  rewrite tr_bind_lift. destruct (configured_fleet (cq_planning_server_urls request)) as [planning|e]; [|by eexists _, w; eauto].
  rewrite tr_bind_lift.
  destruct (validate_planned_targets (cq_plan request) planning) as [[planned target]|e] eqn:Ep; [|by eexists _, w; eauto].
  rewrite tr_bind_lift.
  destruct (find_payload payloads round proposal (cq_share_index request)) as [payload|e] eqn:Epay; [|by eexists _, w; eauto].
  destruct (query_settles (helper_recovery_material_for_wallet scope round bundle proposal) w Hwf)
    as (r & w1 & E1 & Hs1 & Hr1). rewrite (bind_storage _ _ _ _ _ E1).
  destruct r as [material|e]; [|by eexists _, w1; eauto]. destruct Hr1 as [[e ?]|[Hm Hdb]]; [done|].
  rewrite tr_bind_lift.
  destruct (confirmed_material round bundle proposal (cq_share_index request) commitment json material)
    as [[position nullifier]|e] eqn:Ec; [|by eexists _, w1; eauto].
  rewrite tr_bind_lift.
  destruct (to_wire_json payload (Some position) (pl_submit_at (cq_plan request))) as [body0|e]; [|by eexists _, w1; eauto].
  cbv zeta beta iota. unfold tr_bind at 1.
  match goal with |- context [prepare_committed_share_delivery env ?p scope json nullifier] => set (params := p) end.
  destruct (prepare_ok params scope json nullifier w1 (proj2 Hs1)) as (r & w2 & E2 & Hs2 & Hr2). rewrite E2.
  assert (settling w w2) as Hs by (split; [by rewrite (proj1 Hs2), (proj1 Hs1)|apply Hs2]).
  destruct r as [[submit_at record]|e|]; [|by eexists _, w2; eauto|done]. destruct Hr2 as [Hn Hsub].
  cbv beta iota. rewrite tr_bind_lift.
  destruct (to_wire_json payload (Some position) submit_at) as [body|e] eqn:Ej; [|by eexists _, w2; eauto].
  set (eligible := filter (fun url => url ∈ fleet) planned). set (fallback := filter (fun url => url ∉ eligible) fleet).
  assert (eligible ++ fallback ≡ₚ fleet) as Hperm.
  { apply candidates_fleet; [done|by eapply planned_distinct]. }
  destruct (planned_distinct _ _ _ _ Ep) as (_ & Htarget & _).
  apply confirmed_material_ok in Ec as (b & -> & Ejson & Epos & Enull).
  match goal with |- context [dispatch_share_to_canonical_helpers env config ?p scope eligible fallback record] =>
    set (durable := p) end.
  destruct (first_dispatch_ok env config durable scope record eligible fallback Hothers) with (w := w2)
    as (r & ps & w3 & E3 & D). { by rewrite Hperm. } { by rewrite Hperm. } { apply Hs2. }
  exists r, w3. split; [done|]. right.
  exists fleet, body, target, submit_at, record, eligible, fallback, w2, ps. split_and!; try done.
  - by rewrite Hn.
  - exists payload, position, submit_at. split_and!; try done.
    + unfold position_read. rewrite <- Hdb. pose proof (material_ready _ _ (eq_sym Hm)) as Hb.
      rewrite Ejson, Epos in Hb. by rewrite <- Hb.
    + rewrite Hn. apply Hsub.
Qed.


(** C14 (first delivery, evidence): A helper that may hold the share, because its
    request was cut off or one of its attempts may have been accepted, is on
    disk when the delivery ends, also when it fails; a report names every such
    helper and lists every helper that said it accepted, and what it lists as
    accepted is on disk as accepted. *)
Theorem no_helper_is_forgotten w r w' :
  wf_db (tw_db w) -> Forall sound_url (cq_configured_server_urls request) ->
  submit_share w = (r, w') ->
  exists ps, tw_posts w' = tw_posts w ++ ps
    /\ (forall p, p ∈ ps -> alone_on (de_pass env) id (sr_nullifier (po_record p)) ->
          (may_hold p = true ->
             keeps id (sr_nullifier (po_record p)) (fun row => row_evidence row (po_url p) <> EvNone) (tw_db w'))
          /\ forall report, r = Done report ->
               (may_hold p = true -> po_url p ∈ su_accepted_urls report ++ su_ambiguous_urls report)
               /\ forall status, po_answer p = Some (Ok status) -> po_url p ∈ su_accepted_urls report)
    /\ forall report, r = Done report -> exists row, sd_shares (tw_db w') !! id = Some row
         /\ forall u, u ∈ su_accepted_urls report -> row_evidence row u = EvAccepted.
Proof.
  intros Hwf Hs E. destruct (submit_share_ok w Hwf Hs) as (r' & w2 & E' & Hok). rewrite E in E'. simplify_eq.
  destruct Hok as [[[Hp _] [e ->]]|(fleet & body & target & submit_at & record & planned & fallback & w1 & ps
    & _ & _ & _ & _ & _ & _ & [Hp1 _] & [D1 _ [deadline D3] _ D5 D6])].
  { exists []. rewrite app_nil_r. split_and!; [done|by intros p ?%elem_of_nil|done]. }
  exists ps. rewrite D1, Hp1. split_and!; [done| |].
  - intros p Hp. rewrite list.Forall_forall in D3. destruct (D3 p Hp) as [_ P2 _ _ _ _ _]. rewrite P2. intros Hal. split.
    + intros Hh row Hr Hnf E0. specialize (D5 Hal p Hp Hh row Hr Hnf). cbv beta in D5. rewrite E0 in D5. cbn in D5. lia.
    + intros report ->. destruct D6 as (_ & _ & D6 & _). by apply D6.
  - intros report ->. destruct D6 as ([(row & Hr & _ & Ha & _) _] & _). exists row. split; [done|].
    intros u Hu. by apply Ha.
Qed.

(** C15 (first delivery, outcome): A first delivery returns whenever its waits
    for a slot do. When nobody cancels it, time does not run out and no other
    task works on the share, a report means that as many helpers as planned,
    or half of the fleet, have the share or may have it, or that every helper
    of the fleet has been asked, is in the report, or need not be because the
    share is confirmed. *)
Theorem first_delivery_is_thorough w r w' :
  wf_db (tw_db w) -> Forall sound_url (cq_configured_server_urls request) ->
  submit_share w = (r, w') ->
  (admits env -> r <> Starved)
  /\ forall report nullifier, r = Done report -> undisturbed env ->
       nullifier_from_recovery_json json proposal (cq_share_index request) = Ok nullifier ->
       alone_on (de_pass env) id nullifier ->
       exists fleet ps, configured_fleet (cq_configured_server_urls request) = Ok fleet
         /\ tw_posts w' = tw_posts w ++ ps
         /\ let reached := su_accepted_urls report ++ su_ambiguous_urls report in
            pl_target_count (cq_plan request) <= Z.of_nat (length reached)
            \/ (length fleet <= 2 * length reached)%nat
            \/ forall u, u ∈ fleet -> (exists p, p ∈ ps /\ po_url p = u) \/ u ∈ reached
                 \/ keeps id nullifier (fun row => sh_confirmed row = true) (tw_db w').
Proof.
  intros Hwf Hs E. destruct (submit_share_ok w Hwf Hs) as (r' & w2 & E' & Hok). rewrite E in E'. simplify_eq.
  destruct Hok as [[_ [e ->]]|(fleet & body & target & submit_at & record & planned & fallback & w1 & ps
    & Ef & Hperm & _ & Hn & _ & Ht & [Hp1 _] & [D1 _ _ _ _ D6])]; [by split|].
  split; [destruct r'; try done; intros Had _; by apply D6|].
  intros report nullifier -> Hu Hn' Hal. rewrite Hn in Hn'. simplify_eq. destruct D6 as (_ & _ & _ & D6).
  exists fleet, ps. split; [done|]. split; [by rewrite D1, Hp1|]. cbv zeta.
  destruct (D6 Hu Hal) as [D|[D|D]]; cbn in D.
  - left. unfold reported in D. lia.
  - right; left. by rewrite <- (Permutation_length Hperm).
  - right; right. intros u Hin. apply D. by rewrite Hperm.
Qed.
End one_payload.
End submission.

(** ** At a concrete share

    Two of three helpers are planned. The first takes the share, the answer of
    the second is lost, and the third is asked in a second wave. *)
#[local] Existing Instance example_externals.
#[local] Existing Instance example_text.
#[local] Existing Instance example_recovery_externals.
#[local] Existing Instance example_domain_externals.
#[local] Existing Instance sample_share_externals.
#[local] Existing Instance sample_identity.
#[local] Existing Instance sample_url_json.
#[local] Existing Instance sample_helper_json.

Definition sample_delivery_env : DeliveryEnv := {|
  de_pass := sample_env;
  de_clock := fun _ => 0;
  de_wall_clock := fun _ => 60;
  de_turns := fun _ => [1%nat];
  de_admission := fun _ => [mk_admission_turn false 0 PermitGranted];
  de_retry := fun _ =>
    mk_retry_env (fun _ => false) (fun _ => false) (fun _ => false) (fun _ => 0) (fun _ => 0) 1000000;
  de_token := fun _ _ => None;
  de_deadline_fits := fun _ _ => true;
  de_transport := fun n _ target body => te_transport sample_env n target body;
  de_elapses := fun _ => None
|}.

Definition sample_payloads : list SharePayload :=
  match recover_payloads sample_recovery with Ok payloads => payloads | Err _ => [] end.

Definition sample_request : CommittedShareSubmissionRequest :=
  mk_committed_request 0 (mk_share_plan false 7 2 ["https://a"; "https://b/"]%string)
    ["https://a"; "https://b"; "https://c"]%string ["https://a/"; "https://b"; "https://c"]%string 200.

Definition sample_start : TrackingWorld := mk_world 0 sample_share_db [] [] default_tracking_report.

Definition sample_delivery : Ran ShareSubmissionReport * TrackingWorld :=
  submit_committed_share_to_helpers sample_delivery_env default_client_config example_round
    (bundle_index example_identity) 3 (vr_vote_commitment sample_recovery) sample_payloads sample_request
    (sample_string (recovery_to_json sample_recovery)) (wallet_id example_identity) sample_start.

Lemma sample_delivery_asks :
  map po_url (tw_posts sample_delivery.2) = ["https://b"; "https://a"; "https://c"]%string.
Proof. vm_compute. reflexivity. Qed.

Lemma sample_delivered :
  exists report, sample_delivery.1 = Done report
    /\ su_accepted_urls report = ["https://a"; "https://c"]%string
    /\ su_ambiguous_urls report = ["https://b"]%string.
Proof.
  assert (match sample_delivery.1 with
          | Done report => (su_accepted_urls report, su_ambiguous_urls report)
          | _ => ([], [])
          end = (["https://a"; "https://c"], ["https://b"])%string) as E by (vm_compute; reflexivity).
  destruct sample_delivery.1 as [report| |]; [|discriminate E..]. injection E as E1 E2. by exists report.
Qed.

Lemma sample_request_sound : Forall sound_url (cq_configured_server_urls sample_request).
Proof. apply list.Forall_forall. intros u _. apply sample_sound. Qed.

Lemma sample_start_wf : wf_db (tw_db sample_start).
Proof. exact sample_db_wf. Qed.

Lemma sample_undisturbed : undisturbed sample_delivery_env.
Proof.
  split; [done|]. intros n. split; intros; try reflexivity.
  vm_compute. discriminate.
Qed.


Lemma no_helper_is_forgotten_witness :
  exists ps, tw_posts sample_delivery.2 = ps /\ length ps = 3%nat
    /\ forall p report, p ∈ ps -> sample_delivery.1 = Done report -> may_hold p = true ->
         po_url p ∈ su_accepted_urls report ++ su_ambiguous_urls report.
Proof.
  destruct (no_helper_is_forgotten sample_delivery_env default_client_config sample_others_wf example_round
    (bundle_index example_identity) 3 (vr_vote_commitment sample_recovery) sample_payloads sample_request
    (sample_string (recovery_to_json sample_recovery)) (wallet_id example_identity) sample_start
    sample_delivery.1 sample_delivery.2 sample_start_wf sample_request_sound (surjective_pairing _))
    as (ps & Hps & Hp & _).
  exists ps. split; [exact Hps|]. split.
  - rewrite <- (length_map po_url). pose proof sample_delivery_asks as Hrun.
    unfold sample_start in Hps. cbn in Hps. rewrite Hps in Hrun. rewrite Hrun. reflexivity.
  - intros p report Hin E. exact (proj1 (proj2 (Hp p Hin (sample_alone _ _)) report E)).
Defined.

Lemma first_delivery_is_thorough_witness :
  exists report fleet ps, sample_delivery.1 = Done report
    /\ configured_fleet (cq_configured_server_urls sample_request) = Ok fleet
    /\ tw_posts sample_delivery.2 = ps.
Proof.
  destruct sample_delivered as (report & E & _).
  destruct (proj2 (first_delivery_is_thorough sample_delivery_env default_client_config sample_others_wf example_round
    (bundle_index example_identity) 3 (vr_vote_commitment sample_recovery) sample_payloads sample_request
    (sample_string (recovery_to_json sample_recovery)) (wallet_id example_identity) sample_start
    sample_delivery.1 sample_delivery.2 sample_start_wf sample_request_sound (surjective_pairing _))
    report sample_nullifier E sample_undisturbed eq_refl (sample_alone _ _)) as (fleet & ps & Ef & Hps & _).
  exists report, fleet, ps. split; [exact E|]. split; [exact Ef|exact Hps].
Defined.
