(* ===== verification/MerkleTree.v ===== *)
(** * Hashes, roots and paths of the vote commitment tree

    Models [hash.rs], [anchor.rs] and [path.rs] of the crate
    [vote-commitment-tree]: the node hash and the precomputed roots of empty
    subtrees, and authentication paths with their byte form.

    What a path proves is stated against the plain definition of a Merkle
    root: hash the leaves in pairs, level by level, with empty subtrees to the
    right. The wrappers [MerkleHashVote] and [Anchor] of a field element are
    not kept apart from it. *)

From stdpp Require Import base gmap strings list numbers.
From Stdlib Require Import ZifyBool.
From S2P Require Import Prelude Outcome.
Local Open Scope Z_scope.
Local Open Scope voting_scope.

(** ** Little-endian byte strings

    [to_le_bytes] of an [n]-byte unsigned integer and [from_le_bytes]. *)
Definition le_bytes (n : nat) (z : Z) : list Z := rev (be_bytes n z).
Definition le_decode (l : list Z) : Z := be_decode (rev l).

(** ** Third-party functions

    The Pallas base field of [pasta_curves], whose elements have exactly one
    32-byte encoding, and Poseidon over it. *)
Class PallasHash := {
  Fp : Type;
  #[global] Fp_eq_dec :: EqDecision Fp;
  fp_zero : Fp;
  to_repr : Fp -> list Z;
  from_repr : list Z -> option Fp;
  poseidon_hash : Fp -> Fp -> Fp;
  to_repr_bytes : forall x, Forall is_u8 (to_repr x);
  to_repr_length : forall x, length (to_repr x) = 32%nat;
  from_to_repr : forall x, from_repr (to_repr x) = Some x;
  to_from_repr : forall b x, from_repr b = Some x -> to_repr x = b
}.

(** The depth as a number of levels. *)
Definition DEPTH : nat := Z.to_nat TREE_DEPTH.

Section merkle.
Context `{PallasHash}.

(** ** [hash.rs] *)
Definition combine (level : nat) (left right : Fp) : Fp := poseidon_hash left right.

Definition empty_leaf : Fp := poseidon_hash fp_zero fp_zero.

(** [scan] over the levels [level..level + n]. *)
Fixpoint scan_empty (level n : nat) (empty_root : Fp) : list Fp :=
  match n with
  | O => []
  | S n =>
      let empty_root := combine level empty_root empty_root in
      empty_root :: scan_empty (S level) n empty_root
  end.

Definition EMPTY_ROOTS : list Fp := empty_leaf :: scan_empty 0 DEPTH empty_leaf.

(** [EMPTY_ROOTS[level]]; the callers stay within its [DEPTH + 1] entries. *)
Definition empty_root (level : nat) : Fp := default fp_zero (EMPTY_ROOTS !! level).

(** ** [anchor.rs] *)
Definition empty_tree : Fp := empty_root DEPTH.

(** ** [path.rs] *)
Definition MERKLE_PATH_BYTES : nat := 4 + 32 * DEPTH.

Record MerklePath := mk_path {
  mp_position : Z;
  mp_auth_path : list Fp
}.

(** The fold of [root] from level [l] on. *)
Fixpoint fold_path (l : nat) (position : Z) (node : Fp) (auth_path : list Fp) : Fp :=
  match auth_path with
  | [] => node
  | sibling :: auth_path =>
      fold_path (S l) position
        (if Z.land position (Z.shiftl 1 (Z.of_nat l)) =? 0 then combine l node sibling
         else combine l sibling node)
        auth_path
  end.

Definition path_root (p : MerklePath) (leaf : Fp) : Fp :=
  fold_path 0 (mp_position p) leaf (mp_auth_path p).

Definition verify (p : MerklePath) (leaf root : Fp) : bool :=
  bool_decide (path_root p leaf = root).

Definition path_to_bytes (p : MerklePath) : list Z :=
  le_bytes 4 (mp_position p) ++ concat (map to_repr (mp_auth_path p)).

Fixpoint read_hashes (n : nat) (bytes : list Z) : option (list Fp) :=
  match n with
  | O => Some []
  | S n =>
      match from_repr (take 32 bytes) with
      | None => None
      | Some hash => cons hash <$> read_hashes n (drop 32 bytes)
      end
  end.

Definition path_from_bytes (bytes : list Z) : option MerklePath :=
  if (length bytes <? MERKLE_PATH_BYTES)%nat then None
  else mk_path (le_decode (take 4 bytes)) <$> read_hashes DEPTH (drop 4 bytes).

(** What the Rust type says of a path. *)
Record wf_path (p : MerklePath) : Prop := {
  wp_position : is_u32 (mp_position p);
  wp_length : length (mp_auth_path p) = DEPTH
}.

(** ** The plain Merkle root *)
Fixpoint empty_at (level : nat) : Fp :=
  match level with
  | O => empty_leaf
  | S level => let empty := empty_at level in poseidon_hash empty empty
  end.

Fixpoint pair_up (empty : Fp) (nodes : list Fp) : list Fp :=
  match nodes with
  | a :: b :: nodes => poseidon_hash a b :: pair_up empty nodes
  | [a] => [poseidon_hash a empty]
  | [] => []
  end.

Definition node_at (level : nat) (nodes : list Fp) (i : nat) : Fp :=
  default (empty_at level) (nodes !! i).

(** The root of the subtree of [depth] levels above [nodes] at [level]. *)
Fixpoint subtree_root (level depth : nat) (nodes : list Fp) : Fp :=
  match depth with
  | O => node_at level nodes 0
  | S depth => subtree_root (S level) depth (pair_up (empty_at level) nodes)
  end.

Definition merkle_root (leaves : list Fp) : Fp := subtree_root 0 DEPTH leaves.

Definition sibling (i : nat) : nat := if Nat.even i then S i else pred i.

Fixpoint siblings (level depth i : nat) (nodes : list Fp) : list Fp :=
  match depth with
  | O => []
  | S depth =>
      node_at level nodes (sibling i)
      :: siblings (S level) depth (Nat.div2 i) (pair_up (empty_at level) nodes)
  end.

Definition merkle_path (leaves : list Fp) (i : nat) : MerklePath :=
  mk_path (Z.of_nat i) (siblings 0 DEPTH i leaves).

(** Two different pairs with the same hash. *)
Definition Collision : Prop :=
  exists a b c d, (a, b) <> (c, d) /\ poseidon_hash a b = poseidon_hash c d.

(** ** Proofs *)
Lemma hash_inj a b c d :
  poseidon_hash a b = poseidon_hash c d -> (a = c /\ b = d) \/ Collision.
Proof.
  intros E. destruct (decide ((a, b) = (c, d))) as [Eq|Ne]; [left; by inversion Eq|].
  right. by exists a, b, c, d.
Qed.

Lemma scan_empty_lookup level n i :
  (i < n)%nat -> scan_empty level n (empty_at level) !! i = Some (empty_at (level + S i)).
Proof.
  revert level i. induction n as [|n IH]; intros level i Hi; [lia|].
  destruct i as [|i]; cbn; [by rewrite Nat.add_comm|].
  change (combine level (empty_at level) (empty_at level)) with (empty_at (S level)).
  rewrite IH by lia. f_equal. f_equal. lia.
Qed.

Lemma empty_roots_lookup n level :
  (level <= n)%nat -> (empty_leaf :: scan_empty 0 n empty_leaf) !! level = Some (empty_at level).
Proof. destruct level as [|level]; intros Hl; [done|]. cbn. by rewrite (scan_empty_lookup 0 n) by lia. Qed.

Lemma empty_root_at level : (level <= DEPTH)%nat -> empty_root level = empty_at level.
Proof. intros Hl. unfold empty_root, EMPTY_ROOTS. by rewrite empty_roots_lookup. Qed.

Lemma subtree_root_empty level depth : subtree_root level depth [] = empty_at (level + depth).
Proof.
  revert level. induction depth as [|depth IH]; intros level; cbn.
  - by rewrite Nat.add_0_r.
  - rewrite IH. f_equal. lia.
Qed.

Lemma merkle_root_empty : merkle_root [] = empty_tree.
Proof. unfold merkle_root, empty_tree. by rewrite subtree_root_empty, empty_root_at. Qed.

(** A node is the hash of its two children. *)
Lemma pair_up_node level nodes i :
  node_at (S level) (pair_up (empty_at level) nodes) i
  = poseidon_hash (node_at level nodes (2 * i)) (node_at level nodes (S (2 * i))).
Proof.
  revert nodes. induction i as [|i IH]; intros nodes.
  - by destruct nodes as [|a [|b nodes]].
  - replace (2 * S i)%nat with (S (S (2 * i)))%nat by lia.
    destruct nodes as [|a [|b nodes]]; [done..|]. apply IH.
Qed.

Lemma length_pair_up empty nodes : length (pair_up empty nodes) = Nat.div2 (S (length nodes)).
Proof.
  induction nodes as [nodes IH] using (induction_ltof1 _ length).
  destruct nodes as [|a [|b nodes]]; [done..|]. cbn. f_equal. apply IH. unfold ltof. cbn. lia.
Qed.

Lemma land_bit position l :
  (Z.land position (Z.shiftl 1 (Z.of_nat l)) =? 0) = negb (Z.testbit position (Z.of_nat l)).
Proof.
  destruct (Z.testbit position (Z.of_nat l)) eqn:E; cbn.
  - apply Z.eqb_neq. intros E0. apply (f_equal (fun z => Z.testbit z (Z.of_nat l))) in E0.
    rewrite Z.land_spec, Z.shiftl_spec, Z.sub_diag, E, Z.bits_0 in E0 by lia. done.
  - apply Z.eqb_eq. apply Z.bits_inj'. intros k Hk. rewrite Z.land_spec, Z.bits_0, Z.shiftl_spec by lia.
    destruct (decide (k = Z.of_nat l)) as [->|Ne]; [by rewrite E|].
    replace (Z.testbit 1 (k - Z.of_nat l)) with false; [by rewrite andb_false_r|].
    symmetry. destruct (Z.lt_ge_cases (k - Z.of_nat l) 0) as [Hn|Hp]; [by apply Z.testbit_neg_r|].
    change 1 with (2 ^ 0). apply Z.pow2_bits_false. lia.
Qed.

(** Following the siblings of a node leads to the root above it. *)
Lemma climb l depth i nodes position :
  Z.shiftr position (Z.of_nat l) = Z.of_nat i -> (i < 2 ^ depth)%nat ->
  fold_path l position (node_at l nodes i) (siblings l depth i nodes) = subtree_root l depth nodes.
Proof.
  revert l i nodes. induction depth as [|depth IH]; intros l i nodes Hp Hi.
  { cbn in *. by replace i with 0%nat by lia. }
  cbn [siblings fold_path subtree_root]. rewrite land_bit.
  assert (Hbit : Z.testbit position (Z.of_nat l) = Nat.odd i).
  { replace (Z.of_nat l) with (0 + Z.of_nat l) by lia. rewrite <- Z.shiftr_spec, Hp by lia.
    rewrite Z.bit0_odd. destruct (Nat.Even_or_Odd i) as [[k ->]|[k ->]].
    - rewrite Nat.odd_even. rewrite <- Z.negb_even, negb_false_iff. apply Z.even_spec. exists (Z.of_nat k). lia.
    - rewrite Nat.odd_odd. apply Z.odd_spec. exists (Z.of_nat k). lia. }
  rewrite Hbit. unfold combine, sibling.
  rewrite <- (IH (S l) (Nat.div2 i)).
  2: { rewrite Nat2Z.inj_succ, <- Z.add_1_r, <- Z.shiftr_shiftr, Hp by lia.
       rewrite Nat.div2_div, Nat2Z.inj_div, Z.shiftr_div_pow2 by lia. done. }
  2: { rewrite Nat.div2_div. cbn [Nat.pow] in Hi. apply Nat.Div0.div_lt_upper_bound. lia. }
  f_equal. rewrite pair_up_node. rewrite <- Nat.negb_even, negb_involutive.
  pose proof (Nat.div2_odd i) as Hd. rewrite <- Nat.negb_even in Hd.
  destruct (Nat.even i) eqn:Ev; cbn in Hd.
  - rewrite Nat.add_0_r in Hd. cbn [Nat.mul] in *. by rewrite Nat.add_0_r in *; rewrite <- Hd.
  - f_equal; f_equal; lia.
Qed.

Lemma length_siblings l depth i nodes : length (siblings l depth i nodes) = depth.
Proof. revert l i nodes. induction depth as [|depth IH]; intros; [done|]. cbn. by rewrite IH. Qed.

Lemma shiftr_0 z : Z.shiftr z 0 = z.
Proof. done. Qed.

Lemma merkle_path_root leaves i :
  (i < 2 ^ DEPTH)%nat -> path_root (merkle_path leaves i) (node_at 0 leaves i) = merkle_root leaves.
Proof. intros Hi. unfold path_root, merkle_root. cbn [merkle_path mp_position mp_auth_path]. by apply climb. Qed.

(** ** What a path binds *)
Lemma fold_path_inj position p q : forall l a b,
  length p = length q -> fold_path l position a p = fold_path l position b q ->
  (a = b /\ p = q) \/ Collision.
Proof.
  revert q. induction p as [|x p IH]; intros [|y q] l a b Hlen E; simplify_eq/=; [by left|].
  destruct (IH _ _ _ _ Hlen E) as [[E' ->]|]; [|by right].
  destruct (Z.land position _ =? 0); apply hash_inj in E' as [[-> ->]|]; auto.
Qed.

Lemma pair_up_inj empty nodes nodes' :
  length nodes = length nodes' -> pair_up empty nodes = pair_up empty nodes' ->
  nodes = nodes' \/ Collision.
Proof.
  revert nodes'. induction nodes as [nodes IH] using (induction_ltof1 _ length).
  intros nodes' Hlen E. destruct nodes as [|a [|b nodes]], nodes' as [|c [|d nodes']]; simplify_eq/=; [by left| |].
  - match goal with E : poseidon_hash _ _ = _ |- _ => apply hash_inj in E as [[-> _]|] end; auto.
  - match goal with E : poseidon_hash _ _ = _ |- _ => apply hash_inj in E as [[-> ->]|] end; [|by right].
    destruct (IH nodes ltac:(unfold ltof; cbn; lia) nodes') as [->|]; auto.
Qed.

Lemma subtree_root_inj depth : forall level nodes nodes',
  length nodes = length nodes' -> (length nodes <= 2 ^ depth)%nat ->
  subtree_root level depth nodes = subtree_root level depth nodes' -> nodes = nodes' \/ Collision.
Proof.
  induction depth as [|depth IH]; intros level nodes nodes' Hlen Hn E.
  - destruct nodes as [|a [|b nodes]], nodes' as [|c [|d nodes']]; simplify_eq/=; try lia; [by left|].
    left. f_equal. exact E.
  - cbn [subtree_root] in E. apply IH in E.
    + destruct E as [E|]; [|by right]. by apply pair_up_inj in E.
    + by rewrite !length_pair_up, Hlen.
    + rewrite length_pair_up, Nat.div2_div. cbn [Nat.pow] in Hn.
      assert (S (length nodes) < 2 * S (2 ^ depth))%nat as Hb by lia.
      apply Nat.Div0.div_lt_upper_bound in Hb. lia.
Qed.

Lemma merkle_root_inj leaves leaves' :
  length leaves = length leaves' -> (length leaves <= 2 ^ DEPTH)%nat ->
  merkle_root leaves = merkle_root leaves' -> leaves = leaves' \/ Collision.
Proof. apply subtree_root_inj. Qed.
End merkle.

(** ** Byte strings *)
Lemma length_le_bytes n z : length (le_bytes n z) = n.
Proof. unfold le_bytes. by rewrite length_rev, length_be_bytes. Qed.

Lemma le_decode_le_bytes n z : 0 <= z < 256 ^ Z.of_nat n -> le_decode (le_bytes n z) = z.
Proof. intros Hz. unfold le_decode, le_bytes. rewrite rev_involutive. by apply be_decode_be_bytes_small. Qed.

Lemma be_decode_bounds l : Forall is_u8 l -> 0 <= be_decode l < 256 ^ Z.of_nat (length l).
Proof.
  induction 1 as [|b l Hb _ IH]; [done|]. rewrite be_decode_cons. cbn [length].
  rewrite Nat2Z.inj_succ, Z.pow_succ_r by lia. unfold is_u8, u8_max in Hb. nia.
Qed.

Lemma be_bytes_shift n a z : be_bytes n (a * 256 ^ Z.of_nat n + z) = be_bytes n z.
Proof.
  assert (G : forall k a z, (n <= k)%nat -> be_bytes n (a * 256 ^ Z.of_nat k + z) = be_bytes n z); [|by apply G].
  induction n as [|n IH]; intros k a' z' Hk; [done|].
  assert (Hc : forall y, be_bytes (S n) y = y / 256 ^ Z.of_nat n mod 256 :: be_bytes n y) by done.
  rewrite !Hc, IH by lia. f_equal.
  assert (0 < 256 ^ Z.of_nat n) by (apply Z.pow_pos_nonneg; lia).
  replace (Z.of_nat k) with (Z.of_nat n + (1 + Z.of_nat (k - S n))) by lia.
  rewrite !Z.pow_add_r by lia.
  replace (a' * (256 ^ Z.of_nat n * (256 ^ 1 * 256 ^ Z.of_nat (k - S n))) + z')
    with (a' * 256 ^ Z.of_nat (k - S n) * 256 * 256 ^ Z.of_nat n + z') by (rewrite Z.pow_1_r; ring).
  rewrite Z.div_add_l by lia. rewrite Z.add_comm. by rewrite Z_mod_plus_full.
Qed.

Lemma be_bytes_be_decode l : Forall is_u8 l -> be_bytes (length l) (be_decode l) = l.
Proof.
  induction 1 as [|b l Hb Hl IH]; [done|]. rewrite be_decode_cons. cbn [length].
  pose proof (be_decode_bounds l Hl) as Hd. unfold is_u8, u8_max in Hb.
  change (be_bytes (S (length l)) (b * 256 ^ Z.of_nat (length l) + be_decode l)) with
    ((b * 256 ^ Z.of_nat (length l) + be_decode l) / 256 ^ Z.of_nat (length l) mod 256
     :: be_bytes (length l) (b * 256 ^ Z.of_nat (length l) + be_decode l)).
  rewrite be_bytes_shift, IH, Z.div_add_l, Z.div_small by lia. f_equal. rewrite Z.add_0_r. apply Z.mod_small. lia.
Qed.

Lemma le_bytes_le_decode l : Forall is_u8 l -> le_bytes (length l) (le_decode l) = l.
Proof.
  intros Hl. unfold le_bytes, le_decode. rewrite <- (length_rev l), be_bytes_be_decode, rev_involutive; [done|].
  by apply Forall_rev.
Qed.

Lemma le_decode_bounds l : Forall is_u8 l -> 0 <= le_decode l < 256 ^ Z.of_nat (length l).
Proof.
  intros Hl. unfold le_decode. rewrite <- (length_rev l). apply be_decode_bounds. by apply Forall_rev.
Qed.

Section paths.
Context `{PallasHash}.

Lemma read_hashes_write hs rest :
  read_hashes (length hs) (concat (map to_repr hs) ++ rest) = Some hs.
Proof.
  induction hs as [|h hs IH]; [done|]. cbn [length map concat read_hashes].
  rewrite <- app_assoc, take_app_length', drop_app_length' by (by rewrite to_repr_length).
  by rewrite from_to_repr, IH.
Qed.

Lemma write_read_hashes n bytes hs :
  (32 * n <= length bytes)%nat -> read_hashes n bytes = Some hs ->
  length hs = n /\ concat (map to_repr hs) = take (32 * n) bytes.
Proof.
  revert bytes hs. induction n as [|n IH]; intros bytes hs Hb E; cbn [read_hashes] in E; [by simplify_eq/=|].
  destruct (from_repr (take 32 bytes)) as [h|] eqn:Eh; [|done].
  destruct (read_hashes n (drop 32 bytes)) as [hs'|] eqn:E'; [|done].
  assert (hs = h :: hs') as -> by (by inversion E).
  destruct (IH (drop 32 bytes) hs' ltac:(rewrite length_drop; lia) E') as [Hl Hc]. split; [cbn; by rewrite Hl|].
  cbn [map concat]. rewrite Hc, (to_from_repr _ _ Eh), take_take_drop. by replace (32 * S n)%nat with (32 + 32 * n)%nat by lia.
Qed.

Lemma length_concat_reprs hs : length (concat (map to_repr hs)) = (32 * length hs)%nat.
Proof. induction hs as [|h hs IH]; [done|]. cbn [map concat]. rewrite length_app, to_repr_length, IH. cbn [length]. lia. Qed.

(** Tree, byte form of a path: The byte form of a path has the documented
    size and is read back as the path, whatever follows it; and whatever is
    read as a path is a path whose byte form is what was read. *)
Theorem path_bytes_round_trip p rest :
  wf_path p ->
  length (path_to_bytes p) = MERKLE_PATH_BYTES
  /\ path_from_bytes (path_to_bytes p ++ rest) = Some p
  /\ forall bytes q, Forall is_u8 bytes -> path_from_bytes bytes = Some q ->
       wf_path q /\ path_to_bytes q = take MERKLE_PATH_BYTES bytes.
Proof.
  intros [Hpos Hlen]. unfold path_from_bytes, path_to_bytes, MERKLE_PATH_BYTES.
  assert (Hl : length (le_bytes 4 (mp_position p) ++ concat (map to_repr (mp_auth_path p))) = (4 + 32 * DEPTH)%nat)
    by (by rewrite length_app, length_le_bytes, length_concat_reprs, Hlen).
  split; [done|split].
  - rewrite length_app, Hl. replace (_ <? _)%nat with false by lia.
    rewrite <- app_assoc, take_app_length', drop_app_length' by (by rewrite length_le_bytes).
    rewrite <- Hlen, read_hashes_write, le_decode_le_bytes; [by destruct p|].
    unfold is_u32, u32_max in Hpos. lia.
  - intros bytes q Hu E. destruct (length bytes <? 4 + 32 * DEPTH)%nat eqn:Hb; [done|]. apply Nat.ltb_ge in Hb.
    destruct (read_hashes DEPTH (drop 4 bytes)) as [hs|] eqn:Eh; [|done]. injection E as <-.
    destruct (write_read_hashes DEPTH (drop 4 bytes) hs ltac:(rewrite length_drop; lia) Eh) as [Hn Hc].
    assert (Ht : length (take 4 bytes) = 4%nat) by (rewrite length_take; lia).
    assert (Hu4 : Forall is_u8 (take 4 bytes)) by (by apply Forall_take).
    split.
    + split; cbn; [|done]. pose proof (le_decode_bounds _ Hu4) as Hd. rewrite Ht in Hd.
      unfold is_u32, u32_max. lia.
    + cbn [mp_position mp_auth_path]. rewrite Hc. replace (le_bytes 4 _) with (take 4 bytes).
      * by rewrite take_take_drop.
      * symmetry. rewrite <- Ht at 1. by apply le_bytes_le_decode.
Qed.

(** Only the low bits of a position steer the fold. *)
Lemma fold_path_mod position hs : forall l node,
  (l + length hs <= DEPTH)%nat ->
  fold_path l (position mod TREE_CAPACITY) node hs = fold_path l position node hs.
Proof.
  induction hs as [|h hs IH]; intros l node Hl; [done|]. cbn [fold_path]. cbn in Hl. rewrite IH by lia.
  rewrite !land_bit. change TREE_CAPACITY with (2 ^ 24). rewrite Z.mod_pow2_bits_low; [done|].
  change DEPTH with 24%nat in Hl. lia.
Qed.

(** The leaf a position stands for. *)
Definition leaf_index (position : Z) : nat := Z.to_nat (position mod TREE_CAPACITY).

Lemma leaf_index_lt position : (leaf_index position < 2 ^ DEPTH)%nat.
Proof.
  unfold leaf_index. apply Nat2Z.inj_lt. rewrite Nat2Z.inj_pow.
  pose proof (Z.mod_pos_bound position TREE_CAPACITY ltac:(done)).
  change (Z.of_nat 2 ^ Z.of_nat DEPTH) with TREE_CAPACITY. lia.
Qed.

Lemma leaf_index_Z position : Z.of_nat (leaf_index position) = position mod TREE_CAPACITY.
Proof.
  unfold leaf_index. pose proof (Z.mod_pos_bound position TREE_CAPACITY ltac:(done)). lia.
Qed.

Lemma fold_path_pins leaves position hs leaf :
  length hs = DEPTH -> fold_path 0 position leaf hs = merkle_root leaves ->
  (leaf = node_at 0 leaves (leaf_index position)
   /\ hs = siblings 0 DEPTH (leaf_index position) leaves) \/ Collision.
Proof.
  intros Hlen E. rewrite <- fold_path_mod, <- leaf_index_Z in E by (rewrite Hlen; lia).
  unfold merkle_root in E.
  rewrite <- (climb 0 DEPTH (leaf_index position) leaves (Z.of_nat (leaf_index position)) eq_refl (leaf_index_lt position)) in E.
  eapply fold_path_inj; [|exact E]. by rewrite length_siblings.
Qed.

End paths.

(** ** A concrete field

    Numbers below the Pallas modulus with their little-endian encoding, and an
    arithmetic stand-in for the hash. *)
Definition PALLAS_MODULUS : Z :=
  28948022309329048855892746252171976963363056481941560715954676764349967630337.

Definition in_field (z : Z) : bool := (0 <=? z) && (z <? PALLAS_MODULUS).

Definition sample_fp : Type := { z : Z | in_field z = true }.

Lemma in_field_mod z : in_field (z mod PALLAS_MODULUS) = true.
Proof. unfold in_field. pose proof (Z.mod_pos_bound z PALLAS_MODULUS ltac:(done)). lia. Qed.

Lemma in_field_bounds z : in_field z = true -> 0 <= z < PALLAS_MODULUS.
Proof. unfold in_field. lia. Qed.

Definition fp_of (z : Z) : sample_fp := exist _ (z mod PALLAS_MODULUS) (in_field_mod z).

Lemma sample_fp_eq (a b : sample_fp) : proj1_sig a = proj1_sig b -> a = b.
Proof. destruct a as [a Ha], b as [b Hb]. cbn. intros <-. f_equal. apply (proof_irrel _ _). Qed.

#[global] Instance sample_fp_dec : EqDecision sample_fp.
Proof.
  intros a b. destruct (decide (proj1_sig a = proj1_sig b)) as [E|N].
  - left. by apply sample_fp_eq.
  - right. intros ->. by apply N.
Defined.

Definition sample_from_repr (b : list Z) : option sample_fp :=
  if bool_decide (length b = 32%nat) && forallb (fun x => (0 <=? x) && (x <=? u8_max)) b
     && in_field (le_decode b)
  then Some (fp_of (le_decode b)) else None.

Definition sample_hash (a b : sample_fp) : sample_fp :=
  fp_of (31 * proj1_sig a * proj1_sig a + 17 * proj1_sig b + 5).

Lemma fp_of_field z : in_field z = true -> proj1_sig (fp_of z) = z.
Proof. intros Hz. cbn. by apply Z.mod_small, in_field_bounds. Qed.

Lemma all_u8 b : forallb (fun x => (0 <=? x) && (x <=? u8_max)) b = true <-> Forall is_u8 b.
Proof. rewrite forallb_forall, list.Forall_forall. setoid_rewrite list_elem_of_In. unfold is_u8. split; intros Hb x Hx; specialize (Hb x Hx); lia. Qed.

#[global] Program Instance sample_pallas : PallasHash := {|
  Fp := sample_fp;
  fp_zero := fp_of 0;
  to_repr x := le_bytes 32 (proj1_sig x);
  from_repr := sample_from_repr;
  poseidon_hash := sample_hash
|}.
Next Obligation. intros x. unfold le_bytes. apply Forall_rev, be_bytes_u8. Qed.
Next Obligation. intros x. apply length_le_bytes. Qed.
Next Obligation.
  intros x. assert (Hx : in_field (proj1_sig x) = true) by exact (proj2_sig x). unfold sample_from_repr.
  assert (Hd : le_decode (le_bytes 32 (proj1_sig x)) = proj1_sig x)
    by (apply le_decode_le_bytes; assert (PALLAS_MODULUS < 256 ^ Z.of_nat 32) by done;
        apply in_field_bounds in Hx; lia).
  rewrite Hd, Hx, length_le_bytes, bool_decide_true by done.
  replace (forallb _ _) with true by (symmetry; apply all_u8; unfold le_bytes; apply Forall_rev, be_bytes_u8).
  cbn [andb]. f_equal. apply sample_fp_eq. by apply fp_of_field.
Qed.
Next Obligation.
  intros b x. unfold sample_from_repr. destruct (bool_decide_reflect (length b = 32%nat)) as [Hl|]; [|done].
  destruct (forallb _ b) eqn:Hb; [|done]. destruct (in_field (le_decode b)) eqn:Hf; [|done].
  cbn [andb]. intros [= <-]. rewrite fp_of_field by done. rewrite <- Hl. apply le_bytes_le_decode. by apply all_u8.
Qed.

Lemma path_bytes_round_trip_witness :
  length (path_to_bytes (merkle_path (map fp_of [5; 6; 7]) 1)) = MERKLE_PATH_BYTES
  /\ path_from_bytes (path_to_bytes (merkle_path (map fp_of [5; 6; 7]) 1) ++ [9])
     = Some (merkle_path (map fp_of [5; 6; 7]) 1).
Proof.
  refine ((fun T => conj (proj1 T) (proj1 (proj2 T))) (path_bytes_round_trip _ _ _)).
  split; [done|]. apply length_siblings.
Defined.

