(* ===== verification/TreeSerde.v ===== *)
(** * The byte form of shards and checkpoints

    Models [serde.rs] of the crate [vote-commitment-tree]: the versioned blob of
    a shard of the tree and the blob of a checkpoint, as they are kept in a
    key-value store. *)

From stdpp Require Import base gmap strings list numbers sorting pretty.
From Stdlib Require Import ZifyBool.
From S2P Require Import Prelude Ordered Outcome Record MerkleTree.
Local Open Scope Z_scope.
Local Open Scope voting_scope.

(** ** Third-party data

    The tree of the crate [shardtree]: a shard is a binary tree with
    annotations; a leaf carries its retention flags, of which the crate defines
    the bits [all_flags]. A checkpoint is a position and the marks that were
    removed since. *)
Class RetentionBits := { all_flags : Z }.

Section data.
Context `{PallasHash}.

Inductive PrunableTree :=
| Nil
| Leaf (hash : Fp) (flags : Z)
| Parent (ann : option Fp) (l r : PrunableTree).

#[global] Instance PrunableTree_eq_dec : EqDecision PrunableTree.
Proof. solve_decision. Defined.
End data.

Inductive CheckpointState := CheckpointEmpty | AtPosition (position : Z).

(** [marks_removed] is a [BTreeSet], as the list of its elements in order. *)
Record Checkpoint := mk_checkpoint {
  cp_tree_state : CheckpointState;
  cp_marks_removed : list Z
}.

#[global] Instance CheckpointState_eq_dec : EqDecision CheckpointState.
Proof. solve_decision. Defined.
#[global] Instance Checkpoint_eq_dec : EqDecision Checkpoint.
Proof. solve_decision. Defined.

(** ** Reading bytes

    [Cursor] with [read_exact]: what was read and what is left. *)
Inductive IoError := UnexpectedEof | InvalidData (message : text).

Definition read_exact (n : nat) (r : list Z) : result (list Z * list Z) IoError :=
  if (length r <? n)%nat then Err UnexpectedEof else Ok (take n r, drop n r).

Definition read_byte (r : list Z) : result (Z * list Z) IoError :=
  match r with
  | [] => Err UnexpectedEof
  | b :: r => Ok (b, r)
  end.

(** ** Shards *)
Definition SHARD_SER_VERSION : Z := 1.
Definition NODE_NIL : Z := 0.
Definition NODE_LEAF : Z := 1.
Definition NODE_PARENT : Z := 2.

Section shards.
Context `{PallasHash} `{RetentionBits}.

Fixpoint write_node (tree : PrunableTree) : list Z :=
  match tree with
  | Parent ann l r =>
      [NODE_PARENT]
      ++ match ann with
         | None => [0]
         | Some h => [1] ++ to_repr h
         end
      ++ write_node l ++ write_node r
  | Leaf hash flags => [NODE_LEAF] ++ to_repr hash ++ [flags]
  | Nil => [NODE_NIL]
  end.

Definition write_shard_vote (tree : PrunableTree) : list Z := SHARD_SER_VERSION :: write_node tree.

Definition read_hash (r : list Z) : result (Fp * list Z) IoError :=
  let? (bytes, r) := read_exact 32 r in
  let? hash := ok_or (from_repr bytes) (InvalidData (lit "invalid MerkleHashVote")) in
  Ok (hash, r).

Definition from_bits_truncate (bits : Z) : Z := Z.land bits all_flags.

(** Every call takes a byte first, so the number of bytes bounds the depth of
    the calls: without bytes there is none to take. *)
Fixpoint read_node (fuel : nat) (r : list Z) : result (PrunableTree * list Z) IoError :=
  match fuel with
  | O => Err UnexpectedEof
  | S fuel =>
      let? (tag, r) := read_byte r in
      if tag =? NODE_NIL then Ok (Nil, r)
      else if tag =? NODE_LEAF then
        let? (hash, r) := read_hash r in
        let? (flag, r) := read_byte r in
        Ok (Leaf hash (from_bits_truncate flag), r)
      else if tag =? NODE_PARENT then
        let? (ann_flag, r) := read_byte r in
        let? (ann, r) :=
          (if ann_flag =? 1 then let? (hash, r) := read_hash r in Ok (Some hash, r)
           else Ok (None, r)) in
        let? (tl, r) := read_node fuel r in
        let? (tr, r) := read_node fuel r in
        Ok (Parent ann tl tr, r)
      else Err (InvalidData (lit "unknown node tag: " ++ decimal tag))
  end.

Definition read_shard_vote (data : list Z) : result PrunableTree IoError :=
  let? (version, r) := read_byte data in
  if negb (version =? SHARD_SER_VERSION) then
    Err (InvalidData (lit "unknown shard version: " ++ decimal version))
  else
    let? (tree, _) := read_node (length r) r in
    Ok tree.
End shards.

(** ** Checkpoints *)
Definition write_checkpoint (cp : Checkpoint) : list Z :=
  match cp_tree_state cp with
  | CheckpointEmpty => [0]
  | AtPosition position => 1 :: le_bytes 8 position
  end
  ++ le_bytes 4 (Z.of_nat (length (cp_marks_removed cp)))
  ++ concat (map (le_bytes 8) (cp_marks_removed cp)).

Fixpoint read_marks (count : nat) (marks : list Z) (r : list Z) : result (list Z) IoError :=
  match count with
  | O => Ok marks
  | S count =>
      let? (bytes, r) := read_exact 8 r in
      read_marks count (zset_insert (le_decode bytes) marks) r
  end.

Definition read_checkpoint (data : list Z) : result Checkpoint IoError :=
  let? (flag, r) := read_byte data in
  let? (tree_state, r) :=
    (if flag =? 0 then Ok (CheckpointEmpty, r)
     else let? (bytes, r) := read_exact 8 r in Ok (AtPosition (le_decode bytes), r)) in
  let? (count_bytes, r) := read_exact 4 r in
  let? marks := read_marks (Z.to_nat (le_decode count_bytes)) [] r in
  Ok (mk_checkpoint tree_state marks).

(** ** What the Rust types say *)
Section wellformed.
Context `{PallasHash} `{RetentionBits}.

Fixpoint wf_tree (tree : PrunableTree) : Prop :=
  match tree with
  | Nil => True
  | Leaf _ flags => is_u8 flags /\ Z.land flags all_flags = flags
  | Parent _ l r => wf_tree l /\ wf_tree r
  end.
End wellformed.

Record wf_checkpoint (cp : Checkpoint) : Prop := {
  wc_position : forall position, cp_tree_state cp = AtPosition position -> is_u64 position;
  wc_marks : Forall is_u64 (cp_marks_removed cp);
  wc_sorted : StronglySorted Z.lt (cp_marks_removed cp);
  wc_count : Z.of_nat (length (cp_marks_removed cp)) <= u32_max
}.

(** ** Proofs *)
Lemma read_exact_app n a r : length a = n -> read_exact n (a ++ r) = Ok (a, r).
Proof.
  intros <-. unfold read_exact. rewrite length_app. replace (_ <? _)%nat with false by lia.
  by rewrite take_app_length, drop_app_length.
Qed.

Lemma read_exact_inv n r a r' : read_exact n r = Ok (a, r') -> r = a ++ r' /\ length a = n.
Proof.
  unfold read_exact. destruct (length r <? n)%nat eqn:E; [done|]. intros [= <- <-].
  split; [by rewrite take_drop|]. rewrite length_take. lia.
Qed.

Lemma land_u8 a b : is_u8 a -> is_u8 (Z.land a b).
Proof.
  unfold is_u8, u8_max. intros Ha.
  assert (E : a = Z.land a (Z.ones 8)) by (rewrite Z.land_ones, Z.mod_small by lia; done).
  rewrite E, <- Z.land_assoc, (Z.land_comm (Z.ones 8)), Z.land_assoc, Z.land_ones by lia.
  pose proof (Z.mod_pos_bound (Z.land a b) (2 ^ 8) ltac:(done)). lia.
Qed.

Section shard_proofs.
Context `{PallasHash} `{RetentionBits}.

Lemma read_hash_write h r : read_hash (to_repr h ++ r) = Ok (h, r).
Proof. unfold read_hash. rewrite read_exact_app by apply to_repr_length. by rewrite from_to_repr. Qed.

Lemma read_hash_inv r h r' : read_hash r = Ok (h, r') -> r = to_repr h ++ r'.
Proof.
  unfold read_hash. destruct (read_exact 32 r) as [[bytes r1]|e] eqn:E; [|done].
  apply read_exact_inv in E as [-> _]. destruct (from_repr bytes) as [h'|] eqn:Eh; [|done].
  cbn. intros [= -> ->]. by rewrite (to_from_repr _ _ Eh).
Qed.

Lemma write_node_length tree : (1 <= length (write_node tree))%nat.
Proof. destruct tree; cbn; lia. Qed.

(** What was written is read back with any fuel that covers it. *)
Lemma read_write_node tree : forall fuel r,
  wf_tree tree -> (length (write_node tree) <= fuel)%nat ->
  read_node fuel (write_node tree ++ r) = Ok (tree, r).
Proof.
  induction tree as [|h flags|ann tl IHl tr IHr]; intros fuel r Hwf Hf;
    (destruct fuel as [|fuel]; [by cbn in Hf; lia|]); cbn [write_node app read_node read_byte].
  - done.
  - destruct Hwf as [_ Hfl]. rewrite <- app_assoc. change (NODE_LEAF =? NODE_NIL) with false. cbn.
    rewrite read_hash_write. cbn. unfold from_bits_truncate. by rewrite Hfl.
  - destruct Hwf as [Hl Hr]. cbn [write_node length app] in Hf. rewrite !length_app in Hf.
    change (NODE_PARENT =? NODE_NIL) with false. change (NODE_PARENT =? NODE_LEAF) with false.
    change (NODE_PARENT =? NODE_PARENT) with true. cbn [negb].
    destruct ann as [h|]; cbn [app read_byte length] in *; rewrite ?length_app in Hf.
    + change (1 =? 1) with true. rewrite <- app_assoc, read_hash_write, <- app_assoc. cbn iota beta.
      rewrite IHl by (try done; lia). cbn iota beta. by rewrite IHr by (try done; lia).
    + change (0 =? 1) with false. rewrite <- app_assoc. cbn iota beta.
      rewrite IHl by (try done; lia). cbn iota beta. by rewrite IHr by (try done; lia).
Qed.

Lemma read_node_wf fuel : forall r tree r',
  Forall is_u8 r -> read_node fuel r = Ok (tree, r') -> wf_tree tree /\ Forall is_u8 r' /\ (length r' < length r)%nat.
Proof.
  induction fuel as [|fuel IH]; intros r tree r' Hr E; [done|]. cbn [read_node] in E.
  destruct r as [|tag r]; [done|]. cbn [read_byte] in E. apply Forall_cons in Hr as [Ht Hr].
  destruct (tag =? NODE_NIL); [injection E as <- <-; cbn; auto with lia|].
  destruct (tag =? NODE_LEAF).
  { destruct (read_hash r) as [[h r1]|] eqn:Eh; [|done]. apply read_hash_inv in Eh as ->.
    apply Forall_app in Hr as [_ Hr]. destruct r1 as [|flag r1]; [done|]. cbn in E. injection E as <- <-.
    apply Forall_cons in Hr as [Hflag Hr]. split; [|split; [done|cbn; rewrite length_app; cbn; lia]].
    cbn. unfold from_bits_truncate. split; [|by rewrite <- Z.land_assoc, Z.land_diag].
    by apply land_u8. }
  destruct (tag =? NODE_PARENT); [|done].
  destruct r as [|af r]; [done|]. cbn [read_byte] in E. apply Forall_cons in Hr as [_ Hr].
  assert (exists ann r1, (if af =? 1 then let? (hash, r2) := read_hash r in Ok (Some hash, r2) else Ok (None, r)) = Ok (ann, r1)
    /\ Forall is_u8 r1 /\ (length r1 <= length r)%nat) as (ann & r1 & Ea & Hr1 & Hl1).
  { destruct (af =? 1); [|by eexists _, _]. destruct (read_hash r) as [[h r1]|] eqn:Eh; [|done].
    apply read_hash_inv in Eh as ->. apply Forall_app in Hr as [_ Hr]. eexists _, _.
    split; [done|]. split; [done|]. rewrite length_app. lia. }
  rewrite Ea in E.
  destruct (read_node fuel r1) as [[tl r2]|] eqn:E1; [|done]. destruct (IH _ _ _ Hr1 E1) as (W1 & Hr2 & Hl2).
  destruct (read_node fuel r2) as [[tr r3]|] eqn:E2; [|done]. destruct (IH _ _ _ Hr2 E2) as (W2 & Hr3 & Hl3).
  injection E as <- <-. cbn. split; [done|]. split; [done|]. lia.
Qed.
End shard_proofs.

Section round_trips.
Context `{PallasHash} `{RetentionBits}.

Lemma read_ann_shrinks (af : Z) r ann r1 :
  (if af =? 1 then let? (hash, r2) := read_hash r in Ok (Some hash, r2) else Ok (None, r)) = Ok (ann, r1) ->
  (length r1 <= length r)%nat.
Proof.
  destruct (af =? 1); [|by intros [= _ <-]]. destruct (read_hash r) as [[h r2]|] eqn:Eh; [|done].
  apply read_hash_inv in Eh as ->. intros [= _ <-]. rewrite length_app. lia.
Qed.

Lemma read_node_shrinks fuel : forall r tree r', read_node fuel r = Ok (tree, r') -> (length r' < length r)%nat.
Proof.
  induction fuel as [|fuel IH]; intros r tree r' E; [done|]. destruct r as [|tag r]; [done|]. cbn [read_node read_byte] in E.
  destruct (tag =? NODE_NIL); [injection E as <- <-; cbn; lia|].
  destruct (tag =? NODE_LEAF).
  { destruct (read_hash r) as [[h r1]|] eqn:Eh; [|done]. apply read_hash_inv in Eh as ->.
    destruct r1 as [|flag r1]; [done|]. injection E as <- <-. cbn. rewrite length_app. cbn. lia. }
  destruct (tag =? NODE_PARENT); [|done]. destruct r as [|af r]; [done|]. cbn [read_byte] in E.
  destruct (if af =? 1 then _ else _) as [[ann r1]|] eqn:Ea; [|done]. apply read_ann_shrinks in Ea.
  destruct (read_node fuel r1) as [[tl r2]|] eqn:E1; [|done]. apply IH in E1.
  destruct (read_node fuel r2) as [[tr r3]|] eqn:E2; [|done]. apply IH in E2.
  injection E as <- <-. cbn. lia.
Qed.

(** Any fuel that covers the bytes gives the same answer. *)
Lemma read_node_fuel fuel : forall fuel' r,
  (length r <= fuel)%nat -> (length r <= fuel')%nat -> read_node fuel r = read_node fuel' r.
Proof.
  induction fuel as [|fuel IH]; intros [|fuel'] r Hf Hf'; try by (destruct r; cbn in *; [done|lia]).
  destruct r as [|tag r]; [done|]. cbn [read_node read_byte length] in *.
  destruct (tag =? NODE_NIL); [done|]. destruct (tag =? NODE_LEAF); [done|]. destruct (tag =? NODE_PARENT); [|done].
  destruct r as [|af r]; [done|]. cbn [read_byte length] in *.
  destruct (if af =? 1 then _ else _) as [[ann r1]|] eqn:Ea; [|done]. apply read_ann_shrinks in Ea.
  rewrite (IH fuel' r1) by lia. destruct (read_node fuel' r1) as [[tl r2]|] eqn:E1; [|done].
  apply read_node_shrinks in E1. by rewrite (IH fuel' r2) by lia.
Qed.

Lemma read_write_shard tree rest : wf_tree tree -> read_shard_vote (write_shard_vote tree ++ rest) = Ok tree.
Proof.
  intros Hwf. unfold read_shard_vote, write_shard_vote. cbn [app read_byte].
  change (negb (SHARD_SER_VERSION =? SHARD_SER_VERSION)) with false. cbn iota beta.
  rewrite read_write_node; [done|done|]. rewrite length_app. lia.
Qed.

Lemma read_shard_wf data tree : Forall is_u8 data -> read_shard_vote data = Ok tree -> wf_tree tree.
Proof.
  unfold read_shard_vote. intros Hd E. destruct data as [|v r]; [done|]. cbn [read_byte] in E.
  apply Forall_cons in Hd as [_ Hd]. destruct (negb (v =? SHARD_SER_VERSION)); [done|].
  destruct (read_node (length r) r) as [[t r']|] eqn:Er; [|done]. injection E as ->.
  by apply read_node_wf in Er as [? _].
Qed.
End round_trips.

Lemma zset_insert_last k l : Forall (fun x => x < k) l -> zset_insert k l = l ++ [k].
Proof.
  induction 1 as [|x l Hx _ IH]; [done|]. cbn. replace (k <? x) with false by lia.
  replace (k =? x) with false by lia. by rewrite IH.
Qed.

Lemma read_marks_write ms : forall done rest,
  StronglySorted Z.lt (done ++ ms) -> Forall is_u64 ms ->
  read_marks (length ms) done (concat (map (le_bytes 8) ms) ++ rest) = Ok (done ++ ms).
Proof.
  induction ms as [|m ms IH]; intros done rest Hs Hu; [cbn; by rewrite app_nil_r|].
  apply Forall_cons in Hu as [Hm Hu]. cbn [length map concat read_marks].
  rewrite <- app_assoc, read_exact_app by apply length_le_bytes. cbn iota beta.
  rewrite le_decode_le_bytes by (unfold is_u64, u64_max in Hm; lia).
  rewrite zset_insert_last.
  - replace (done ++ m :: ms) with ((done ++ [m]) ++ ms) in * by (by rewrite <- app_assoc). by apply IH.
  - clear -Hs. induction done as [|x done IH]; [constructor|]. inversion_clear Hs as [|? ? Hs' Hx].
    constructor; [|by apply IH]. rewrite list.Forall_forall in Hx. apply Hx, elem_of_app. right. by left.
Qed.

Lemma read_write_checkpoint cp rest : wf_checkpoint cp -> read_checkpoint (write_checkpoint cp ++ rest) = Ok cp.
Proof.
  intros [Hp Hu Hs Hc]. unfold read_checkpoint, write_checkpoint. destruct cp as [ts marks]. cbn [cp_tree_state cp_marks_removed] in *.
  assert (Hm : forall ts', (let? (count_bytes, r) := read_exact 4
      (le_bytes 4 (Z.of_nat (length marks)) ++ concat (map (le_bytes 8) marks) ++ rest) in
      let? ms := read_marks (Z.to_nat (le_decode count_bytes)) [] r in Ok (mk_checkpoint ts' ms))
    = Ok (mk_checkpoint ts' marks) :> result Checkpoint IoError).
  { intros ts'. rewrite read_exact_app by apply length_le_bytes. cbn iota beta.
    rewrite le_decode_le_bytes by (unfold u32_max in Hc; lia). rewrite Nat2Z.id.
    by rewrite (read_marks_write marks []). }
  rewrite <- !app_assoc. destruct ts as [|position]; cbn [app read_byte].
  - change (0 =? 0) with true. apply Hm.
  - change (1 =? 0) with false. cbn iota. rewrite read_exact_app by apply length_le_bytes. cbn iota beta.
    rewrite le_decode_le_bytes; [apply Hm|]. specialize (Hp _ eq_refl). unfold is_u64, u64_max in Hp. lia.
Qed.

Lemma read_marks_wf count : forall marks r ms,
  Forall is_u8 r -> Forall is_u64 marks -> StronglySorted Z.lt marks -> read_marks count marks r = Ok ms ->
  Forall is_u64 ms /\ StronglySorted Z.lt ms /\ (length ms <= length marks + count)%nat.
Proof.
  induction count as [|count IH]; intros marks r ms Hr Hu Hs E; cbn [read_marks] in E; [injection E as <-; auto with lia|].
  destruct (read_exact 8 r) as [[b r']|] eqn:Er; [|done]. apply read_exact_inv in Er as [-> Hb].
  apply Forall_app in Hr as [Hb8 Hr'].
  assert (Hl : forall k, (length (zset_insert k marks) <= S (length marks))%nat).
  { intros k. clear. induction marks as [|x marks IH]; cbn; [lia|]. destruct (k <? x); cbn; [lia|]. destruct (k =? x); cbn; lia. }
  apply IH in E; [| done | | by apply zset_insert_sorted].
  - destruct E as (? & ? & ?). split_and!; [done..|]. specialize (Hl (le_decode b)). lia.
  - rewrite list.Forall_forall. intros x. rewrite zset_insert_elem. rewrite list.Forall_forall in Hu.
    intros [->|?]; [|by apply Hu]. pose proof (le_decode_bounds b Hb8) as Hd. rewrite Hb in Hd. unfold is_u64, u64_max. lia.
Qed.

Lemma read_checkpoint_wf data cp : Forall is_u8 data -> read_checkpoint data = Ok cp -> wf_checkpoint cp.
Proof.
  unfold read_checkpoint. intros Hd E. destruct data as [|flag r]; [done|]. cbn [read_byte] in E.
  apply Forall_cons in Hd as [_ Hr].
  destruct (if flag =? 0 then _ else _) as [[ts r1]|] eqn:Et; [|done].
  assert ((forall p, ts = AtPosition p -> is_u64 p) /\ Forall is_u8 r1) as [Hp Hr1].
  { destruct (flag =? 0); [by injection Et as <- <-|]. destruct (read_exact 8 r) as [[b r']|] eqn:Er; [|done].
    injection Et as <- <-. apply read_exact_inv in Er as [-> Hb]. apply Forall_app in Hr as [Hb8 Hr]. split; [|done].
    intros p [= <-]. pose proof (le_decode_bounds b Hb8) as Hb'. rewrite Hb in Hb'. unfold is_u64, u64_max. lia. }
  destruct (read_exact 4 r1) as [[c r2]|] eqn:Ec; [|done]. apply read_exact_inv in Ec as [-> Hc].
  apply Forall_app in Hr1 as [Hc8 Hr2]. destruct (read_marks _ [] r2) as [ms|] eqn:Em; [|done]. injection E as <-.
  apply read_marks_wf in Em; [|done|constructor..]. destruct Em as (Hu & Hs & Hl). split; cbn; try done.
  pose proof (le_decode_bounds c Hc8) as Hb. rewrite Hc in Hb. cbn in Hl. unfold u32_max. lia.
Qed.

Section claims.
Context `{PallasHash} `{RetentionBits}.

(** C37 (tree, stored form): A shard and a checkpoint are read back from the bytes
    they are stored as, whatever follows; and what can be read from any bytes
    is a proper shard or checkpoint, so that storing it again loses nothing. *)
Theorem stored_tree_round_trip tree cp rest :
  wf_tree tree -> wf_checkpoint cp ->
  read_shard_vote (write_shard_vote tree ++ rest) = Ok tree
  /\ read_checkpoint (write_checkpoint cp ++ rest) = Ok cp
  /\ forall data, Forall is_u8 data ->
       (forall tree', read_shard_vote data = Ok tree' ->
          wf_tree tree' /\ read_shard_vote (write_shard_vote tree') = Ok tree')
       /\ (forall cp', read_checkpoint data = Ok cp' ->
             wf_checkpoint cp' /\ read_checkpoint (write_checkpoint cp') = Ok cp').
Proof.
  intros Ht Hc. split_and!; [by apply read_write_shard|by apply read_write_checkpoint|].
  intros data Hd. split.
  - intros tree' E. apply read_shard_wf in E; [|done]. split; [done|].
    rewrite <- (app_nil_r (write_shard_vote tree')). by apply read_write_shard.
  - intros cp' E. apply read_checkpoint_wf in E; [|done]. split; [done|].
    rewrite <- (app_nil_r (write_checkpoint cp')). by apply read_write_checkpoint.
Qed.
End claims.

#[global] Instance sample_retention : RetentionBits := {| all_flags := 7 |}.

Lemma stored_tree_round_trip_witness :
  read_shard_vote (write_shard_vote (Parent (Some (fp_of 9)) (Leaf (fp_of 3) 2) Nil) ++ [7])
  = Ok (Parent (Some (fp_of 9)) (Leaf (fp_of 3) 2) Nil)
  /\ read_checkpoint (write_checkpoint (mk_checkpoint (AtPosition 12) [3; 300]) ++ [7])
     = Ok (mk_checkpoint (AtPosition 12) [3; 300]).
Proof.
  refine ((fun T => conj (proj1 T) (proj1 (proj2 T))) (stored_tree_round_trip _ _ [7] _ _)).
  - cbn. unfold is_u8, u8_max. split_and!; [lia..|done|done].
  - split; cbn; unfold u32_max; [|repeat constructor; unfold is_u64, u64_max; lia|repeat constructor; lia|lia].
    intros p [= <-]. unfold is_u64, u64_max. lia.
Defined.
