(* ===== verification/KvStore.v ===== *)
(** * The tree's shards in a key-value store

    Models [kv_shard_store.rs] of the crate [vote-commitment-tree]: every
    operation that [shardtree] asks of a shard store, carried out on the
    key-value store of the chain through callbacks that may fail.

    [KvStoreProofs.v] compares the operations with ordered maps. *)

From stdpp Require Import base gmap strings list numbers sorting.
From Stdlib Require Import ZifyBool.
From S2P Require Import Prelude Ordered Outcome Record MerkleTree TreeSerde.
Local Open Scope Z_scope.
Local Open Scope voting_scope.

(** ** Errors and keys *)
Inductive KvError := KvIoError | KvDeserialization | KvSerialization.

Definition SHARD_HEIGHT : Z := 4.

Definition SHARD_PREFIX : Z := 15.
Definition CAP_KEY : Z := 16.
Definition CHECKPOINT_PREFIX : Z := 17.
Definition RETAINED_CHECKPOINT_PREFIX : Z := 18.

Definition shard_key (index : Z) : list Z := SHARD_PREFIX :: be_bytes 8 index.
Definition cap_key : list Z := [CAP_KEY].
Definition checkpoint_key (id : Z) : list Z := CHECKPOINT_PREFIX :: be_bytes 4 id.
Definition retained_checkpoint_key (id : Z) : list Z := RETAINED_CHECKPOINT_PREFIX :: be_bytes 4 id.

(** ** The key-value store

    Keys are ordered byte by byte. An iterator runs over the entries with a
    prefix, in that order or against it. *)
Fixpoint key_leb (a b : list Z) : bool :=
  match a, b with
  | [], _ => true
  | _ :: _, [] => false
  | x :: a, y :: b => if x =? y then key_leb a b else x <? y
  end.

Fixpoint has_prefix (prefix key : list Z) : bool :=
  match prefix, key with
  | [], _ => true
  | _, [] => false
  | x :: prefix, y :: key => (x =? y) && has_prefix prefix key
  end.

Notation KvMap := (gmap (list Z) (list Z)).

Definition kv_range (prefix : list Z) (m : KvMap) : list (list Z * list Z) :=
  stable_sort (fun a b => key_leb a.1 b.1)
    (filter (fun e => has_prefix prefix e.1 = true) (map_to_list m)).

(** Which callbacks fail, by the number of the call. *)
Record KvEnv := mk_kv_env {
  kv_fails : nat -> bool;
  it_fails : nat -> bool
}.

Record KvWorld := mk_kv_world {
  kw_map : KvMap;
  kw_step : nat
}.

Definition Kv (A : Type) : Type := KvWorld -> A * KvWorld.

Definition kv_ret {A} (a : A) : Kv (result A KvError) := fun w => (Ok a, w).
Definition kv_err {A} (e : KvError) : Kv (result A KvError) := fun w => (Err e, w).

Definition kv_bind {A B} (m : Kv (result A KvError)) (k : A -> Kv (result B KvError))
    : Kv (result B KvError) :=
  fun w =>
    match m w with
    | (Ok a, w) => k a w
    | (Err e, w) => (Err e, w)
    end.

Definition kv_pure {A B} (m : Kv A) (k : A -> Kv B) : Kv B := fun w => let (a, w) := m w in k a w.

Notation "'kv!' x ':=' m 'in' k" := (kv_bind m (fun x => k))
  (at level 10, x pattern, m at level 100, k at level 200) : voting_scope.

(** What [shardtree] checks when a tree is put at an address: that it is not
    deeper than the level. *)
Class ShardCrate `{PallasHash} := { fits : Z -> PrunableTree -> bool }.

Record Address := mk_address { ad_level : Z; ad_index : Z }.

Section store.
Context `{PallasHash} `{RetentionBits} `{!ShardCrate}.
Context (env : KvEnv).

(** ** Callbacks ([KvCallbacks]) *)
Definition callback {A} (f : KvMap -> A * KvMap) : Kv (result A KvError) :=
  fun w =>
    if kv_fails env (kw_step w) then (Err KvIoError, mk_kv_world (kw_map w) (S (kw_step w)))
    else let (a, m) := f (kw_map w) in (Ok a, mk_kv_world m (S (kw_step w))).

Definition kv_get (key : list Z) : Kv (result (option (list Z)) KvError) :=
  callback (fun m => (m !! key, m)).

Definition kv_set (key val : list Z) : Kv (result unit KvError) :=
  callback (fun m => (tt, <[key := val]> m)).

Definition kv_delete (key : list Z) : Kv (result unit KvError) :=
  callback (fun m => (tt, delete key m)).

(** [KvIter]: a loop over an iterator. A step goes on ([inl]) or leaves the
    loop ([inr]); a null handle and a failing [iter_next] end it. *)
Fixpoint iter_next {S} (step : S -> list Z -> list Z -> S + S) (entries : list (list Z * list Z)) (s : S)
    : Kv S :=
  fun w =>
    let w' := mk_kv_world (kw_map w) (Datatypes.S (kw_step w)) in
    if it_fails env (kw_step w) then (s, w')
    else match entries with
         | [] => (s, w')
         | (key, val) :: entries =>
             match step s key val with
             | inl s => iter_next step entries s w'
             | inr s => (s, w')
             end
         end.

Definition iter {S} (prefix : list Z) (rev_order : bool) (step : S -> list Z -> list Z -> S + S) (s : S)
    : Kv S :=
  fun w =>
    let w' := mk_kv_world (kw_map w) (Datatypes.S (kw_step w)) in
    if it_fails env (kw_step w) then (s, w')
    else
      let entries := kv_range prefix (kw_map w) in
      iter_next step (if rev_order then rev entries else entries) s w'.

(** ** The shard store *)
Definition located (address : Address) (tree : PrunableTree) : option (Address * PrunableTree) :=
  if fits (ad_level address) tree then Some (address, tree) else None.

(** [u64::from_be_bytes(key[1..9])] and [u32::from_be_bytes(key[1..5])]. *)
Definition index_of_key (key : list Z) : Z := be_decode (take 8 (drop 1 key)).
Definition id_of_key (key : list Z) : Z := be_decode (take 4 (drop 1 key)).

Definition get_shard (shard_root : Address)
    : Kv (result (option (Address * PrunableTree)) KvError) :=
  kv! found := kv_get (shard_key (ad_index shard_root)) in
  match found with
  | None => kv_ret None
  | Some blob =>
      match read_shard_vote blob with
      | Ok tree => kv_ret (located shard_root tree)
      | Err _ => kv_err KvDeserialization
      end
  end.

Definition first_entry (prefix : Z) (rev_order : bool) : Kv (option (list Z * list Z)) :=
  iter [prefix] rev_order (fun _ key val => inr (Some (key, val))) None.

Definition last_shard : Kv (result (option (Address * PrunableTree)) KvError) :=
  kv_pure (first_entry SHARD_PREFIX true) (fun entry =>
    match entry with
    | None => kv_ret None
    | Some (key, val) =>
        if (length key <? 9)%nat then kv_ret None
        else match read_shard_vote val with
             | Ok tree => kv_ret (located (mk_address SHARD_HEIGHT (index_of_key key)) tree)
             | Err _ => kv_err KvDeserialization
             end
    end).

Definition put_shard (subtree : Address * PrunableTree) : Kv (result unit KvError) :=
  kv_set (shard_key (ad_index subtree.1)) (write_shard_vote subtree.2).

Definition get_shard_roots : Kv (result (list Address) KvError) :=
  kv_pure
    (iter [SHARD_PREFIX] false
       (fun roots key _ =>
          inl (if (length key <? 9)%nat then roots
               else roots ++ [mk_address SHARD_HEIGHT (index_of_key key)])) [])
    kv_ret.

Fixpoint delete_all (keys : list (list Z)) : Kv (result unit KvError) :=
  match keys with
  | [] => kv_ret tt
  | key :: keys => kv! _ := kv_delete key in delete_all keys
  end.

Definition truncate_shards (shard_index : Z) : Kv (result unit KvError) :=
  kv_pure
    (iter [SHARD_PREFIX] false
       (fun to_delete key _ =>
          inl (if (length key <? 9)%nat then to_delete
               else if shard_index <=? index_of_key key then to_delete ++ [key] else to_delete)) [])
    delete_all.

Definition get_cap : Kv (result PrunableTree KvError) :=
  kv! found := kv_get cap_key in
  match found with
  | None => kv_ret Nil
  | Some blob =>
      match read_shard_vote blob with
      | Ok tree => kv_ret tree
      | Err _ => kv_err KvDeserialization
      end
  end.

Definition put_cap (cap : PrunableTree) : Kv (result unit KvError) :=
  kv_set cap_key (write_shard_vote cap).

Definition checkpoint_id_at (rev_order : bool) : Kv (result (option Z) KvError) :=
  kv_pure (first_entry CHECKPOINT_PREFIX rev_order) (fun entry =>
    kv_ret match entry with
           | Some (key, _) => if (5 <=? length key)%nat then Some (id_of_key key) else None
           | None => None
           end).

Definition min_checkpoint_id := checkpoint_id_at false.
Definition max_checkpoint_id := checkpoint_id_at true.

Definition add_checkpoint (checkpoint_id : Z) (checkpoint : Checkpoint) : Kv (result unit KvError) :=
  kv_set (checkpoint_key checkpoint_id) (write_checkpoint checkpoint).

Definition checkpoint_count : Kv (result nat KvError) :=
  kv_pure (iter [CHECKPOINT_PREFIX] false (fun count _ _ => inl (S count)) 0%nat) kv_ret.

Definition read_ok (blob : list Z) : option Checkpoint :=
  match read_checkpoint blob with
  | Ok cp => Some cp
  | Err _ => None
  end.

Definition get_checkpoint_at_depth (checkpoint_depth : nat)
    : Kv (result (option (Z * Checkpoint)) KvError) :=
  kv_pure
    (iter [CHECKPOINT_PREFIX] true
       (fun '(seen, found) key val =>
          if (seen =? checkpoint_depth)%nat then
            inr (seen, if (length key <? 5)%nat then None
                       else (fun cp => (id_of_key key, cp)) <$> read_ok val)
          else inl (S seen, found)) (0%nat, None))
    (fun s => kv_ret s.2).

Definition get_checkpoint (checkpoint_id : Z) : Kv (result (option Checkpoint) KvError) :=
  kv! found := kv_get (checkpoint_key checkpoint_id) in
  kv_ret (found ≫= read_ok).

(** One turn of the loop of [with_checkpoints] and [for_each_checkpoint], which differ in how they
    borrow the store. The callback's own state is [T]. *)
Definition visit_checkpoint {T} (limit : nat) (callback : T -> Z -> Checkpoint -> result T KvError)
    (state : nat * result T KvError) (key val : list Z)
    : (nat * result T KvError) + (nat * result T KvError) :=
  let '(count, outcome) := state in
  match outcome with
  | Err e => inr (count, Err e)
  | Ok st =>
      if (length key <? 5)%nat then inl (count, Ok st)
      else
        match from_option (callback st (id_of_key key)) (Ok st) (read_ok val) with
        | Err e => inr (count, Err e)
        | Ok st => if (S count <? limit)%nat then inl (S count, Ok st) else inr (S count, Ok st)
        end
  end.

Definition for_each_checkpoint {T} (limit : nat) (callback : T -> Z -> Checkpoint -> result T KvError)
    (state : T) : Kv (result T KvError) :=
  if (limit =? 0)%nat then kv_ret state
  else
    kv_pure (iter [CHECKPOINT_PREFIX] false (visit_checkpoint limit callback) (0%nat, Ok state))
      (fun s w => (s.2, w)).

Definition update_checkpoint_with (checkpoint_id : Z) (update : Checkpoint -> result Checkpoint KvError)
    : Kv (result bool KvError) :=
  kv! found := kv_get (checkpoint_key checkpoint_id) in
  match found ≫= read_ok with
  | None => kv_ret false
  | Some cp =>
      match update cp with
      | Err e => kv_err e
      | Ok cp =>
          kv! _ := kv_set (checkpoint_key checkpoint_id) (write_checkpoint cp) in
          kv_ret true
      end
  end.

Definition remove_checkpoint (checkpoint_id : Z) : Kv (result unit KvError) :=
  kv_delete (checkpoint_key checkpoint_id).

Definition add_retained_checkpoint (checkpoint_id : Z) : Kv (result unit KvError) :=
  kv_set (retained_checkpoint_key checkpoint_id) [].

Definition remove_retained_checkpoint (checkpoint_id : Z) : Kv (result unit KvError) :=
  kv_delete (retained_checkpoint_key checkpoint_id).

Definition retained_checkpoints : Kv (result (list Z) KvError) :=
  kv_pure
    (iter [RETAINED_CHECKPOINT_PREFIX] false
       (fun checkpoints key _ =>
          inl (if (length key <? 5)%nat then checkpoints
               else zset_insert (id_of_key key) checkpoints)) [])
    kv_ret.

Definition truncate_checkpoints_retaining (checkpoint_id : Z) : Kv (result unit KvError) :=
  kv! _ :=
    kv_pure
      (iter [CHECKPOINT_PREFIX] false
         (fun to_delete key _ =>
            if (length key <? 5)%nat then inl to_delete
            else if id_of_key key <? checkpoint_id then inl (to_delete ++ [key]) else inr to_delete) [])
      delete_all in
  kv! found := kv_get (checkpoint_key checkpoint_id) in
  match found ≫= read_ok with
  | None => kv_ret tt
  | Some cp =>
      kv_set (checkpoint_key checkpoint_id) (write_checkpoint (mk_checkpoint (cp_tree_state cp) []))
  end.
End store.
