(* ===== verification/KvStoreProofs.v ===== *)
(** * The shard store refines ordered maps

    The operations of [KvStore.v] against a store of ordered maps: as long as
    no iterator fails, an operation that reports success has answered and
    changed the store as the maps say, and one that reports a failure has left
    it as it was, or, for the two truncations, has removed some of what it was
    asked to remove. A failing iterator is not reported. *)

From stdpp Require Import base gmap strings list numbers sorting.
From Stdlib Require Import ZifyBool.
From S2P Require Import Prelude Ordered Outcome Record MerkleTree TreeSerde KvStore.
Local Open Scope Z_scope.
Local Open Scope voting_scope.

(** ** The order of keys *)
Definition key_lt (a b : list Z) : Prop := key_leb a b = true /\ a <> b.

Lemma key_leb_total a b : key_leb a b = true \/ key_leb b a = true.
Proof.
  revert b. induction a as [|x a IH]; intros [|y b]; cbn; [by left..|by right|].
  destruct (x =? y) eqn:E; [|destruct (x <? y) eqn:?; [by left|right]; rewrite Z.eqb_sym, E; lia].
  rewrite Z.eqb_sym, E. apply IH.
Qed.

Lemma key_leb_trans a b c : key_leb a b = true -> key_leb b c = true -> key_leb a c = true.
Proof.
  revert b c. induction a as [|x a IH]; intros [|y b] [|z c]; cbn; try done.
  destruct (x =? y) eqn:E1, (y =? z) eqn:E2; intros H1 H2.
  - replace (x =? z) with true by lia. by eapply IH.
  - replace (x =? z) with false by lia. lia.
  - replace (x =? z) with false by lia. lia.
  - replace (x =? z) with false by lia. lia.
Qed.

Lemma key_leb_antisym a b : key_leb a b = true -> key_leb b a = true -> a = b.
Proof.
  revert b. induction a as [|x a IH]; intros [|y b]; cbn; try done.
  destruct (x =? y) eqn:E; rewrite Z.eqb_sym in E; rewrite E; intros H1 H2; [|lia].
  f_equal; [lia|by apply IH].
Qed.

(** Big-endian numbers are ordered as their bytes. *)
Lemma be_bytes_lt n a b :
  0 <= a < b -> b < 256 ^ Z.of_nat n -> key_leb (be_bytes n a) (be_bytes n b) = true.
Proof.
  assert (G : forall n a b, a mod 256 ^ Z.of_nat n <= b mod 256 ^ Z.of_nat n ->
    key_leb (be_bytes n a) (be_bytes n b) = true).
  { clear. induction n as [|n IH]; intros a b Hab; [done|].
    assert (0 < 256 ^ Z.of_nat n) by (apply Z.pow_pos_nonneg; lia).
    rewrite !Nat2Z.inj_succ, !Z.pow_succ_r, !(Z.mul_comm 256), !Z.rem_mul_r in Hab by lia.
    pose proof (Z.mod_pos_bound a (256 ^ Z.of_nat n)). pose proof (Z.mod_pos_bound b (256 ^ Z.of_nat n)).
    change (key_leb (be_bytes (S n) a) (be_bytes (S n) b)) with
      (if a / 256 ^ Z.of_nat n mod 256 =? b / 256 ^ Z.of_nat n mod 256
       then key_leb (be_bytes n a) (be_bytes n b)
       else a / 256 ^ Z.of_nat n mod 256 <? b / 256 ^ Z.of_nat n mod 256).
    destruct (_ =? _) eqn:E; [apply IH; nia|nia]. }
  intros Ha Hb. apply G. rewrite !Z.mod_small by lia. lia.
Qed.

(** ** Ranges *)
Lemma kv_range_elem p m k v : (k, v) ∈ kv_range p m <-> m !! k = Some v /\ has_prefix p k = true.
Proof.
  unfold kv_range. rewrite (stable_sort_perm _ _), list_elem_of_filter, elem_of_map_to_list. cbn. tauto.
Qed.

Lemma kv_range_eq p m l :
  StronglySorted key_lt (map fst l) ->
  (forall k v, (k, v) ∈ l <-> m !! k = Some v /\ has_prefix p k = true) ->
  kv_range p m = l.
Proof.
  intros Hs He.
  assert (Hl : StronglySorted (fun a b => key_leb a.1 b.1 = true) l /\ NoDup l).
  { clear He. induction l as [|a l IH]; [by split; constructor|]. cbn in Hs. inversion_clear Hs as [|? ? Hs' Ha].
    destruct (IH Hs') as [IH1 IH2]. rewrite list.Forall_forall in Ha. split.
    - constructor; [done|]. apply list.Forall_forall. intros b Hb. apply Ha. by apply list_elem_of_fmap_2.
    - constructor; [|done]. intros Hin. by apply (Ha a.1 (list_elem_of_fmap_2 fst _ _ Hin)). }
  destruct Hl as [Hl Hn].
  apply (StronglySorted_unique_strong (fun a b => key_leb a.1 b.1 = true)).
  - intros [k v] [k' v'] Hk Hk' H1 H2. cbn in *. apply kv_range_elem in Hk as [Hk _]. apply He in Hk' as [Hk' _].
    rewrite (key_leb_antisym k k' H1 H2) in *. by simplify_eq.
  - unfold kv_range. apply (stable_sort_sorted (fun a b : list Z * list Z => key_leb a.1 b.1)).
    + intros a b. apply key_leb_total.
    + intros a b c. apply key_leb_trans.
  - done.
  - apply NoDup_Permutation; [|done|].
    + unfold kv_range. rewrite (stable_sort_perm _ _). apply NoDup_filter, NoDup_map_to_list.
    + intros [k v]. rewrite kv_range_elem. symmetry. apply He.
Qed.

(** ** Ordered maps *)

Lemma keys_sorted_filter {V} (P : Z * V -> Prop) `{!forall e, Decision (P e)} l :
  StronglySorted Z.lt (map fst l) -> StronglySorted Z.lt (map fst (filter P l)).
Proof.
  induction l as [|e l IH]; intros Hs; [constructor|]. cbn in Hs. inversion_clear Hs as [|? ? Hs' He].
  rewrite filter_cons. destruct (decide (P e)); [|by apply IH]. cbn. constructor; [by apply IH|].
  apply list.Forall_forall. intros j Hj. apply list_elem_of_fmap in Hj as (e' & -> & He').
  apply list_elem_of_filter in He' as [_ He']. rewrite list.Forall_forall in He. apply He. by apply list_elem_of_fmap_2.
Qed.

Lemma bt_get_filter_ne {V} i j (l : list (Z * V)) :
  bt_get j (filter (fun e => e.1 <> i) l) = if decide (j = i) then None else bt_get j l.
Proof.
  induction l as [|[k x] l IH]; [by case_decide|]. rewrite filter_cons. cbn [fst].
  destruct (decide (k <> i)) as [Hk|Hk]; cbn; rewrite IH; repeat case_decide; naive_solver.
Qed.

(** ** Columns

    The entries with one prefix, as an ordered map from numbers. *)
Section column.
Context {V : Type} (p : Z) (key : Z -> list Z) (val : V -> list Z) (top : Z).
Context (Hkey : forall i, has_prefix [p] (key i) = true).
Context (Hmono : forall i j, 0 <= i -> i < j -> j <= top -> key_lt (key i) (key j)).

Definition entries (l : list (Z * V)) : list (list Z * list Z) := map (fun e => (key e.1, val e.2)) l.

Record column (l : list (Z * V)) (m : KvMap) : Prop := {
  co_range : kv_range [p] m = entries l;
  co_sorted : StronglySorted Z.lt (map fst l);
  co_bound : Forall (fun e => 0 <= e.1 <= top) l
}.

Lemma key_inj i j : 0 <= i <= top -> 0 <= j <= top -> key i = key j -> i = j.
Proof.
  intros Hi Hj E. destruct (Z.lt_trichotomy i j) as [Hl|[|Hl]]; [|done|].
  - destruct (Hmono i j); [lia..|]. done.
  - destruct (Hmono j i); [lia..|]. by rewrite E in *.
Qed.

Lemma sorted_nodup (l : list (Z * V)) : StronglySorted Z.lt (map fst l) -> NoDup (map fst l).
Proof.
  induction l as [|e l IH]; [constructor|]. cbn. inversion_clear 1 as [|? ? Hs He]. constructor; [|by apply IH].
  rewrite list.Forall_forall in He. intros Hin. specialize (He _ Hin). lia.
Qed.

Lemma entries_sorted l :
  StronglySorted Z.lt (map fst l) -> Forall (fun e => 0 <= e.1 <= top) l ->
  StronglySorted key_lt (map fst (entries l)).
Proof.
  induction l as [|e l IH]; intros Hs Hb; [constructor|]. cbn in *. inversion_clear Hs as [|? ? Hs' He].
  apply Forall_cons in Hb as [Hb0 Hb]. constructor; [by apply IH|].
  apply list.Forall_forall. intros k Hk. apply list_elem_of_fmap in Hk as ([k' v'] & -> & Hk).
  apply list_elem_of_fmap in Hk as (e' & [= -> ->] & He'). rewrite list.Forall_forall in He. rewrite list.Forall_forall in Hb. cbn.
  apply Hmono; [lia| |apply (Hb _ He')]. apply He. by apply list_elem_of_fmap_2.
Qed.

Lemma entries_elem l k v : (k, v) ∈ entries l <-> exists e, e ∈ l /\ k = key e.1 /\ v = val e.2.
Proof. unfold entries. rewrite list_elem_of_fmap. naive_solver. Qed.

Lemma column_lookup l m i : column l m -> 0 <= i <= top -> m !! key i = val <$> bt_get i l.
Proof.
  intros [Hr Hs Hb] Hi. destruct (bt_get i l) as [v|] eqn:E; cbn.
  - apply bt_get_elem in E. apply (kv_range_elem [p] m). rewrite Hr, entries_elem. by exists (i, v).
  - destruct (m !! key i) as [v|] eqn:El; [|done]. exfalso.
    assert (Hin : (key i, v) ∈ kv_range [p] m) by (apply kv_range_elem; by rewrite Hkey).
    rewrite Hr, entries_elem in Hin. destruct Hin as (e & He & Ek & _).
    rewrite list.Forall_forall in Hb. apply key_inj in Ek; [|done|by apply Hb]. subst i.
    apply bt_get_None in E. apply E. by apply list_elem_of_fmap_2.
Qed.

(** One entry changes, in the store and in the map. *)
Lemma column_update l l' m m' i o :
  column l m -> 0 <= i <= top ->
  StronglySorted Z.lt (map fst l') -> Forall (fun e => 0 <= e.1 <= top) l' ->
  (forall j, bt_get j l' = if decide (j = i) then o else bt_get j l) ->
  m' !! key i = val <$> o -> (forall k, k <> key i -> m' !! k = m !! k) ->
  column l' m'.
Proof.
  intros [Hr Hs Hb] Hi Hs' Hb' Hget Hm Hother. split; [|done|done].
  apply kv_range_eq; [by apply entries_sorted|]. intros k v. rewrite entries_elem.
  rewrite list.Forall_forall in Hb. rewrite list.Forall_forall in Hb'.
  destruct (decide (k = key i)) as [->|Hk].
  - rewrite Hm, Hkey. split.
    + intros (e & He & Ek & ->). apply key_inj in Ek; [|done|by apply Hb'].
      specialize (Hget i). rewrite decide_True in Hget by done. rewrite <- Hget.
      rewrite (bt_get_intro i e.2); [done|by apply sorted_nodup|]. rewrite Ek. by destruct e.
    + intros [Ho _]. destruct o as [x|]; [|done]. cbn in Ho. injection Ho as <-. exists (i, x).
      split; [|done]. apply bt_get_elem. by rewrite Hget, decide_True.
  - rewrite (Hother k Hk), <- kv_range_elem, Hr, entries_elem.
    assert (Hiff : forall e, key e.1 <> key i -> (e ∈ l' <-> e ∈ l)).
    { intros [j x] Hne. assert (j <> i) by (by intros ->). specialize (Hget j). rewrite decide_False in Hget by done.
      split; intros He.
      - apply bt_get_elem. rewrite <- Hget. by apply bt_get_intro; [apply sorted_nodup|].
      - apply bt_get_elem. rewrite Hget. by apply bt_get_intro; [apply sorted_nodup|]. }
    split; intros (e & He & -> & ->); exists e; (split; [by apply Hiff|done]).
Qed.

Lemma column_other l m m' :
  column l m -> (forall k, has_prefix [p] k = true -> m' !! k = m !! k) -> column l m'.
Proof.
  intros [Hr Hs Hb] Ho. split; [|done|done]. apply kv_range_eq; [by apply entries_sorted|].
  intros k v. rewrite <- Hr, kv_range_elem. destruct (has_prefix [p] k) eqn:E; [|naive_solver].
  by rewrite Ho.
Qed.

Lemma column_set l m i v :
  column l m -> 0 <= i <= top -> column (zmap_insert i v l) (<[key i := val v]> m).
Proof.
  intros Hc Hi. eapply (column_update l _ m _ i (Some v)); try done.
  - apply zmap_insert_sorted, Hc.
  - apply list.Forall_forall. intros e He. apply zmap_insert_elem in He as [->|He]; [done|].
    destruct Hc as [_ _ Hb]. rewrite list.Forall_forall in Hb. by apply Hb.
  - intros j. apply zmap_insert_get.
  - by rewrite lookup_insert_eq.
  - intros k Hk. by rewrite lookup_insert_ne.
Qed.

Lemma column_delete l m i :
  column l m -> 0 <= i <= top -> column (filter (fun e => e.1 <> i) l) (delete (key i) m).
Proof.
  intros Hc Hi. eapply (column_update l _ m _ i None); try done.
  - apply keys_sorted_filter, Hc.
  - destruct Hc as [_ _ Hb]. rewrite list.Forall_forall in Hb. apply list.Forall_forall.
    intros e [_ He]%list_elem_of_filter. by apply Hb.
  - intros j. apply bt_get_filter_ne.
  - by rewrite lookup_delete_eq.
  - intros k Hk. by rewrite lookup_delete_ne.
Qed.
End column.

(** ** The store as ordered maps *)
Section abstract_store.
Context `{PallasHash} `{RetentionBits} `{!ShardCrate}.

Record MemStore := mk_mem {
  ms_shards : list (Z * PrunableTree);
  ms_cap : option PrunableTree;
  ms_checkpoints : list (Z * Checkpoint);
  ms_retained : list (Z * unit)
}.

Definition with_shards (s : MemStore) shards := mk_mem shards (ms_cap s) (ms_checkpoints s) (ms_retained s).
Definition with_checkpoints (s : MemStore) cps := mk_mem (ms_shards s) (ms_cap s) cps (ms_retained s).
Definition with_retained (s : MemStore) ids := mk_mem (ms_shards s) (ms_cap s) (ms_checkpoints s) ids.

Inductive StoreOp :=
| OpGetShard (root : Address)
| OpLastShard
| OpPutShard (subtree : Address * PrunableTree)
| OpGetShardRoots
| OpTruncateShards (index : Z)
| OpGetCap
| OpPutCap (cap : PrunableTree)
| OpMinCheckpointId
| OpMaxCheckpointId
| OpAddCheckpoint (id : Z) (cp : Checkpoint)
| OpCheckpointCount
| OpCheckpointAtDepth (depth : nat)
| OpGetCheckpoint (id : Z)
| OpForEachCheckpoint (limit : nat) (stop : Z -> Checkpoint -> option KvError)
| OpUpdateCheckpoint (id : Z) (update : Checkpoint -> result Checkpoint KvError)
| OpRemoveCheckpoint (id : Z)
| OpAddRetained (id : Z)
| OpRemoveRetained (id : Z)
| OpRetained
| OpTruncateCheckpoints (id : Z).

Inductive StoreReply :=
| RUnit
| RBool (b : bool)
| RCount (n : nat)
| RId (id : option Z)
| RIds (ids : list Z)
| RShard (shard : option (Address * PrunableTree))
| RRoots (roots : list Address)
| RTree (tree : PrunableTree)
| RCheckpoint (cp : option Checkpoint)
| RCheckpointAt (cp : option (Z * Checkpoint))
| RCheckpoints (cps : list (Z * Checkpoint)).

(** The callback of a visit: it logs what it sees until it refuses. *)
Definition visit (stop : Z -> Checkpoint -> option KvError) (seen : list (Z * Checkpoint)) (id : Z)
    (cp : Checkpoint) : result (list (Z * Checkpoint)) KvError :=
  match stop id cp with
  | Some e => Err e
  | None => Ok (seen ++ [(id, cp)])
  end.

Definition mem_op (op : StoreOp) (s : MemStore) : result StoreReply KvError * MemStore :=
  let shards := ms_shards s in
  let cps := ms_checkpoints s in
  match op with
  | OpGetShard root => (Ok (RShard (bt_get (ad_index root) shards ≫= located root)), s)
  | OpLastShard =>
      (Ok (RShard (last shards ≫= fun e => located (mk_address SHARD_HEIGHT e.1) e.2)), s)
  | OpPutShard subtree => (Ok RUnit, with_shards s (zmap_insert (ad_index subtree.1) subtree.2 shards))
  | OpGetShardRoots => (Ok (RRoots (map (fun e => mk_address SHARD_HEIGHT e.1) shards)), s)
  | OpTruncateShards index => (Ok RUnit, with_shards s (filter (fun e => e.1 < index) shards))
  | OpGetCap => (Ok (RTree (default Nil (ms_cap s))), s)
  | OpPutCap cap => (Ok RUnit, mk_mem shards (Some cap) cps (ms_retained s))
  | OpMinCheckpointId => (Ok (RId (fst <$> head cps)), s)
  | OpMaxCheckpointId => (Ok (RId (fst <$> last cps)), s)
  | OpAddCheckpoint id cp => (Ok RUnit, with_checkpoints s (zmap_insert id cp cps))
  | OpCheckpointCount => (Ok (RCount (length cps)), s)
  | OpCheckpointAtDepth depth => (Ok (RCheckpointAt (rev cps !! depth)), s)
  | OpGetCheckpoint id => (Ok (RCheckpoint (bt_get id cps)), s)
  | OpForEachCheckpoint limit stop =>
      (let? seen := try_fold (fun seen e => visit stop seen e.1 e.2) [] (take limit cps) in
       Ok (RCheckpoints seen), s)
  | OpUpdateCheckpoint id update =>
      match bt_get id cps with
      | None => (Ok (RBool false), s)
      | Some cp =>
          match update cp with
          | Err e => (Err e, s)
          | Ok cp => (Ok (RBool true), with_checkpoints s (zmap_insert id cp cps))
          end
      end
  | OpRemoveCheckpoint id => (Ok RUnit, with_checkpoints s (filter (fun e => e.1 <> id) cps))
  | OpAddRetained id => (Ok RUnit, with_retained s (zmap_insert id tt (ms_retained s)))
  | OpRemoveRetained id => (Ok RUnit, with_retained s (filter (fun e => e.1 <> id) (ms_retained s)))
  | OpRetained => (Ok (RIds (map fst (ms_retained s))), s)
  | OpTruncateCheckpoints id =>
      let kept := filter (fun e => id <= e.1) cps in
      (Ok RUnit,
       with_checkpoints s
         match bt_get id kept with
         | None => kept
         | Some cp => zmap_insert id (mk_checkpoint (cp_tree_state cp) []) kept
         end)
  end.

(** The same operation on the key-value store. *)
Definition reply {A} (f : A -> StoreReply) (m : Kv (result A KvError)) : Kv (result StoreReply KvError) :=
  kv! a := m in kv_ret (f a).

Definition run_op (env : KvEnv) (op : StoreOp) : Kv (result StoreReply KvError) :=
  match op with
  | OpGetShard root => reply RShard (get_shard env root)
  | OpLastShard => reply RShard (last_shard env)
  | OpPutShard subtree => reply (fun _ => RUnit) (put_shard env subtree)
  | OpGetShardRoots => reply RRoots (get_shard_roots env)
  | OpTruncateShards index => reply (fun _ => RUnit) (truncate_shards env index)
  | OpGetCap => reply RTree (get_cap env)
  | OpPutCap cap => reply (fun _ => RUnit) (put_cap env cap)
  | OpMinCheckpointId => reply RId (min_checkpoint_id env)
  | OpMaxCheckpointId => reply RId (max_checkpoint_id env)
  | OpAddCheckpoint id cp => reply (fun _ => RUnit) (add_checkpoint env id cp)
  | OpCheckpointCount => reply RCount (checkpoint_count env)
  | OpCheckpointAtDepth depth => reply RCheckpointAt (get_checkpoint_at_depth env depth)
  | OpGetCheckpoint id => reply RCheckpoint (get_checkpoint env id)
  | OpForEachCheckpoint limit stop => reply RCheckpoints (for_each_checkpoint env limit (visit stop) [])
  | OpUpdateCheckpoint id update => reply RBool (update_checkpoint_with env id update)
  | OpRemoveCheckpoint id => reply (fun _ => RUnit) (remove_checkpoint env id)
  | OpAddRetained id => reply (fun _ => RUnit) (add_retained_checkpoint env id)
  | OpRemoveRetained id => reply (fun _ => RUnit) (remove_retained_checkpoint env id)
  | OpRetained => reply RIds (retained_checkpoints env)
  | OpTruncateCheckpoints id => reply (fun _ => RUnit) (truncate_checkpoints_retaining env id)
  end.

(** What the Rust types say of an operation's inputs, and that no checkpoint
    has more than [u32::MAX] removed marks. *)
Definition wf_op (op : StoreOp) : Prop :=
  match op with
  | OpGetShard root => is_u64 (ad_index root)
  | OpPutShard subtree => is_u64 (ad_index subtree.1) /\ wf_tree subtree.2
  | OpPutCap cap => wf_tree cap
  | OpAddCheckpoint id cp => is_u32 id /\ wf_checkpoint cp
  | OpGetCheckpoint id | OpRemoveCheckpoint id | OpAddRetained id | OpRemoveRetained id
  | OpTruncateCheckpoints id => is_u32 id
  | OpUpdateCheckpoint id update =>
      is_u32 id /\ forall cp cp', wf_checkpoint cp -> update cp = Ok cp' -> wf_checkpoint cp'
  | _ => True
  end.

(** What a failed operation may leave behind. *)
Definition torn (op : StoreOp) (s s' : MemStore) : Prop :=
  match op with
  | OpTruncateShards index =>
      exists n, s' = with_shards s (filter (fun e => e.1 < index) (ms_shards s)
                                    ++ drop n (filter (fun e => index <= e.1) (ms_shards s)))
  | OpTruncateCheckpoints id =>
      exists n, s' = with_checkpoints s (drop n (filter (fun e => e.1 < id) (ms_checkpoints s))
                                         ++ filter (fun e => id <= e.1) (ms_checkpoints s))
  | _ => s' = s
  end.

Notation shard_column := (column SHARD_PREFIX shard_key write_shard_vote u64_max).
Notation checkpoint_column := (column CHECKPOINT_PREFIX checkpoint_key write_checkpoint u32_max).
Notation retained_column := (column RETAINED_CHECKPOINT_PREFIX retained_checkpoint_key (fun _ : unit => []) u32_max).

Record represents (s : MemStore) (m : KvMap) : Prop := {
  re_shards : shard_column (ms_shards s) m;
  re_cap : m !! cap_key = write_shard_vote <$> ms_cap s;
  re_checkpoints : checkpoint_column (ms_checkpoints s) m;
  re_retained : retained_column (ms_retained s) m;
  re_shards_wf : Forall (fun e => wf_tree e.2) (ms_shards s);
  re_cap_wf : forall t, ms_cap s = Some t -> wf_tree t;
  re_checkpoints_wf : Forall (fun e => wf_checkpoint e.2) (ms_checkpoints s)
}.

Lemma shard_key_mono i j : 0 <= i -> i < j -> j <= u64_max -> key_lt (shard_key i) (shard_key j).
Proof.
  intros Hi Hij Hj. unfold u64_max in Hj. split.
  - unfold shard_key. cbn [key_leb]. rewrite Z.eqb_refl. apply be_bytes_lt; lia.
  - intros E. apply (f_equal (drop 1)) in E. change (be_bytes 8 i = be_bytes 8 j) in E.
    apply be_bytes_inj in E; lia.
Qed.

Lemma id_key_mono p i j : 0 <= i -> i < j -> j <= u32_max -> key_lt (p :: be_bytes 4 i) (p :: be_bytes 4 j).
Proof.
  intros Hi Hij Hj. unfold u32_max in Hj. split.
  - cbn [key_leb]. rewrite Z.eqb_refl. apply be_bytes_lt; lia.
  - intros E. apply (f_equal (drop 1)) in E. change (be_bytes 4 i = be_bytes 4 j) in E.
    apply be_bytes_inj in E; lia.
Qed.

Lemma shard_key_prefix i : has_prefix [SHARD_PREFIX] (shard_key i) = true.
Proof. done. Qed.
Lemma checkpoint_key_prefix i : has_prefix [CHECKPOINT_PREFIX] (checkpoint_key i) = true.
Proof. done. Qed.
Lemma retained_key_prefix i : has_prefix [RETAINED_CHECKPOINT_PREFIX] (retained_checkpoint_key i) = true.
Proof. done. Qed.
End abstract_store.

(** ** Loops over an iterator *)
Section loops.
Context (env : KvEnv).

(** The loop without failures. *)
Fixpoint run {S} (step : S -> list Z -> list Z -> S + S) (entries : list (list Z * list Z)) (s : S) : S :=
  match entries with
  | [] => s
  | (key, val) :: entries =>
      match step s key val with
      | inl s => run step entries s
      | inr s => s
      end
  end.

Context (Hit : forall n, it_fails env n = false).

Lemma iter_next_run {S} step l : forall (s : S) w,
  exists n, iter_next env step l s w = (run step l s, mk_kv_world (kw_map w) n).
Proof.
  induction l as [|[k v] l IH]; intros s w; cbn [iter_next run]; rewrite Hit; [by eexists|].
  destruct (step s k v) as [s'|s']; [|by eexists]. destruct (IH s' (mk_kv_world (kw_map w) (Datatypes.S (kw_step w)))) as [n E].
  by exists n.
Qed.

Lemma iter_run {S} p b step (s : S) w :
  exists n, iter env p b step s w
    = (run step (if b then rev (kv_range p (kw_map w)) else kv_range p (kw_map w)) s, mk_kv_world (kw_map w) n).
Proof.
  unfold iter. rewrite Hit. cbv zeta.
  by destruct (iter_next_run step (if b then rev (kv_range p (kw_map w)) else kv_range p (kw_map w)) s
    (mk_kv_world (kw_map w) (Datatypes.S (kw_step w)))) as [n ->]; exists n.
Qed.

Lemma callback_cases {A} (f : KvMap -> A * KvMap) w :
  exists n, (callback env f w = (Err KvIoError, mk_kv_world (kw_map w) n) /\ exists k, kv_fails env k = true)
         \/ callback env f w = (Ok (f (kw_map w)).1, mk_kv_world (f (kw_map w)).2 n).
Proof.
  unfold callback. exists (Datatypes.S (kw_step w)). destruct (kv_fails env (kw_step w)) eqn:E; [left; eauto|right].
  by destruct (f (kw_map w)).
Qed.
End loops.

Lemma filter_drop_middle {V} (A B C : list (Z * V)) i v :
  NoDup (map fst (A ++ (i, v) :: B ++ C)) ->
  filter (fun e => e.1 <> i) (A ++ (i, v) :: B ++ C) = A ++ B ++ C.
Proof.
  rewrite map_app. cbn [map fst]. rewrite NoDup_app, NoDup_cons. intros (_ & HA & HB & _).
  rewrite filter_app, filter_cons_False by (cbn; auto). f_equal; apply filter_all.
  all: apply list.Forall_forall; intros e He E.
  - apply (HA i); [|constructor]. rewrite <- E. by apply list_elem_of_fmap_2.
  - apply HB. rewrite <- E. by apply list_elem_of_fmap_2.
Qed.

(** ** Deleting several keys *)
Section deletions.
Context {V : Type} (env : KvEnv) (key : Z -> list Z) (Inv : list (Z * V) -> KvMap -> Prop).
Context (Hnd : forall l m, Inv l m -> NoDup (map fst l)).
Context (Hdel : forall l m e, Inv l m -> e ∈ l -> Inv (filter (fun e' => e'.1 <> e.1) l) (delete (key e.1) m)).

Lemma delete_all_column A C : forall B w r w',
  Inv (A ++ B ++ C) (kw_map w) -> delete_all env (map (fun e => key e.1) B) w = (r, w') ->
  match r with
  | Ok _ => Inv (A ++ C) (kw_map w')
  | Err e => e = KvIoError /\ (exists k, kv_fails env k = true) /\ exists n, Inv (A ++ drop n B ++ C) (kw_map w')
  end.
Proof.
  induction B as [|[i v] B IH]; intros w r w' Hinv E; cbn [map delete_all] in E; [by injection E as <- <-|].
  unfold kv_bind, kv_delete in E.
  destruct (callback_cases env (fun m => (tt, delete (key i) m)) w) as [n [[E1 Hf]|E1]]; cbn [fst] in E; rewrite E1 in E.
  - injection E as <- <-. split; [done|]. split; [done|]. by exists 0%nat.
  - cbn [fst snd] in E. apply IH in E.
    + destruct r; [done|]. destruct E as (-> & Hf & k & Hk). split; [done|]. split; [done|]. by exists (Datatypes.S k).
    + cbn [kw_map]. assert (Hin : (i, v) ∈ A ++ ((i, v) :: B) ++ C)
        by (apply elem_of_app; right; constructor).
      pose proof (Hdel _ _ _ Hinv Hin) as Hd. cbn [fst app] in Hd. rewrite filter_drop_middle in Hd; [done|].
      by apply (Hnd _ _ Hinv).
Qed.
End deletions.

(** ** Single writes keep the correspondence *)
Section writes.
Context `{PallasHash} `{RetentionBits} `{!ShardCrate}.

Ltac other_column :=
  eapply column_other; [|eassumption|];
  [solve [intros; apply shard_key_mono; lia | intros; apply id_key_mono; lia]|];
  intros k Hk; first [rewrite lookup_insert_ne | rewrite lookup_delete_ne]; [done|]; by intros <-.

Lemma wf_insert {V} (P : V -> Prop) i v (l : list (Z * V)) :
  P v -> Forall (fun e => P e.2) l -> Forall (fun e => P e.2) (zmap_insert i v l).
Proof.
  intros Hv Hl. apply list.Forall_forall. intros e He. rewrite list.Forall_forall in Hl.
  apply zmap_insert_elem in He as [->|He]; [done|by apply Hl].
Qed.

Lemma wf_filter {V} (P : V -> Prop) (Q : Z * V -> Prop) `{!forall e, Decision (Q e)} (l : list (Z * V)) :
  Forall (fun e => P e.2) l -> Forall (fun e => P e.2) (filter Q l).
Proof.
  intros Hl. apply list.Forall_forall. intros e [_ He]%list_elem_of_filter. rewrite list.Forall_forall in Hl. by apply Hl.
Qed.

Lemma set_shard s m i t :
  represents s m -> is_u64 i -> wf_tree t ->
  represents (with_shards s (zmap_insert i t (ms_shards s))) (<[shard_key i := write_shard_vote t]> m).
Proof.
  intros [R1 R2 R3 R4 R5 R6 R7] Hi Ht. split; cbn; try done; [| | other_column.. |by apply wf_insert].
  - apply column_set; [done|apply shard_key_mono|done|exact Hi].
  - by rewrite lookup_insert_ne by done.
Qed.

Lemma delete_shard s m i :
  represents s m -> is_u64 i ->
  represents (with_shards s (filter (fun e => e.1 <> i) (ms_shards s))) (delete (shard_key i) m).
Proof.
  intros [R1 R2 R3 R4 R5 R6 R7] Hi. split; cbn; try done; [| | other_column.. |by apply wf_filter].
  - apply column_delete; [done|apply shard_key_mono|done|exact Hi].
  - by rewrite lookup_delete_ne by done.
Qed.

Lemma set_cap s m t :
  represents s m -> wf_tree t ->
  represents (mk_mem (ms_shards s) (Some t) (ms_checkpoints s) (ms_retained s)) (<[cap_key := write_shard_vote t]> m).
Proof.
  intros [R1 R2 R3 R4 R5 R6 R7] Ht. split; cbn; try done; [other_column| |other_column..|].
  - by rewrite lookup_insert_eq.
  - by intros t' [= <-].
Qed.

Lemma set_checkpoint s m i cp :
  represents s m -> is_u32 i -> wf_checkpoint cp ->
  represents (with_checkpoints s (zmap_insert i cp (ms_checkpoints s))) (<[checkpoint_key i := write_checkpoint cp]> m).
Proof.
  intros [R1 R2 R3 R4 R5 R6 R7] Hi Ht. split; cbn; try done; [other_column| | |other_column|by apply wf_insert].
  - by rewrite lookup_insert_ne by done.
  - apply column_set; [done|apply id_key_mono|done|exact Hi].
Qed.

Lemma delete_checkpoint s m i :
  represents s m -> is_u32 i ->
  represents (with_checkpoints s (filter (fun e => e.1 <> i) (ms_checkpoints s))) (delete (checkpoint_key i) m).
Proof.
  intros [R1 R2 R3 R4 R5 R6 R7] Hi. split; cbn; try done; [other_column| | |other_column|by apply wf_filter].
  - by rewrite lookup_delete_ne by done.
  - apply column_delete; [done|apply id_key_mono|done|exact Hi].
Qed.

Lemma set_retained s m i :
  represents s m -> is_u32 i ->
  represents (with_retained s (zmap_insert i tt (ms_retained s))) (<[retained_checkpoint_key i := []]> m).
Proof.
  intros [R1 R2 R3 R4 R5 R6 R7] Hi. split; cbn; try done; [other_column| |other_column|].
  - by rewrite lookup_insert_ne by done.
  - apply (column_set _ _ (fun _ : unit => [])); [done|apply id_key_mono|done|exact Hi].
Qed.

Lemma delete_retained s m i :
  represents s m -> is_u32 i ->
  represents (with_retained s (filter (fun e => e.1 <> i) (ms_retained s))) (delete (retained_checkpoint_key i) m).
Proof.
  intros [R1 R2 R3 R4 R5 R6 R7] Hi. split; cbn; try done; [other_column| |other_column|].
  - by rewrite lookup_delete_ne by done.
  - apply column_delete; [done|apply id_key_mono|done|exact Hi].
Qed.

(** ** What is read back *)
Lemma read_shard_of s m i t :
  represents s m -> bt_get i (ms_shards s) = Some t -> read_shard_vote (write_shard_vote t) = Ok t.
Proof.
  intros R E. apply bt_get_elem in E. pose proof (re_shards_wf _ _ R) as Hw. rewrite list.Forall_forall in Hw.
  rewrite <- (app_nil_r (write_shard_vote t)). apply read_write_shard. by apply (Hw (i, t)).
Qed.

Lemma read_ok_write cp : wf_checkpoint cp -> read_ok (write_checkpoint cp) = Some cp.
Proof.
  intros Hw. unfold read_ok. rewrite <- (app_nil_r (write_checkpoint cp)). by rewrite read_write_checkpoint.
Qed.

Lemma checkpoint_lookup s m i :
  represents s m -> is_u32 i -> (m !! checkpoint_key i ≫= read_ok) = bt_get i (ms_checkpoints s).
Proof.
  intros R Hi. rewrite (column_lookup _ _ _ _ checkpoint_key_prefix (id_key_mono _) _ _ _ (re_checkpoints _ _ R) Hi).
  destruct (bt_get i (ms_checkpoints s)) as [cp|] eqn:E; [|done]. cbn. apply read_ok_write.
  apply bt_get_elem in E. pose proof (re_checkpoints_wf _ _ R) as Hw. rewrite list.Forall_forall in Hw. by apply (Hw (i, cp)).
Qed.

Lemma index_of_shard_key i : is_u64 i -> index_of_key (shard_key i) = i.
Proof.
  intros Hi. unfold index_of_key. change (drop 1 (shard_key i)) with (be_bytes 8 i).
  rewrite take_ge by (by rewrite length_be_bytes). apply be_decode_be_bytes_small. unfold is_u64, u64_max in Hi. lia.
Qed.

Lemma id_of_id_key p i : is_u32 i -> id_of_key (p :: be_bytes 4 i) = i.
Proof.
  intros Hi. unfold id_of_key. change (drop 1 (p :: be_bytes 4 i)) with (be_bytes 4 i).
  rewrite take_ge by (by rewrite length_be_bytes). apply be_decode_be_bytes_small. unfold is_u32, u32_max in Hi. lia.
Qed.

Lemma length_shard_key i : length (shard_key i) = 9%nat.
Proof. unfold shard_key. cbn [length]. by rewrite length_be_bytes. Qed.

Lemma length_id_key (p i : Z) : length (p :: be_bytes 4 i) = 5%nat.
Proof. cbn [length]. by rewrite length_be_bytes. Qed.
End writes.

(** ** The loops of the operations *)

Section op_loops.
Context `{PallasHash} `{RetentionBits} `{!ShardCrate}.

Lemma run_first l : run (fun (_ : option (list Z * list Z)) key val => inr (Some (key, val))) l None = head l.
Proof. by destruct l as [|[k v] l]. Qed.

Lemma roots_loop l : forall acc, Forall (fun e => 0 <= e.1 <= u64_max) l ->
  run (fun roots key _ => inl (if (length key <? 9)%nat then roots
         else roots ++ [mk_address SHARD_HEIGHT (index_of_key key)])) (entries shard_key write_shard_vote l) acc
  = acc ++ map (fun e => mk_address SHARD_HEIGHT e.1) l.
Proof.
  induction l as [|e l IH]; intros acc Hb; [by rewrite app_nil_r|]. apply Forall_cons in Hb as [He Hb].
  cbn [entries map run]. rewrite length_shard_key, index_of_shard_key by done. cbn [Nat.ltb Nat.leb].
  unfold entries in IH. rewrite IH by done. by rewrite <- app_assoc.
Qed.

Lemma truncate_loop index l : forall acc, Forall (fun e => 0 <= e.1 <= u64_max) l ->
  run (fun to_delete key _ => inl (if (length key <? 9)%nat then to_delete
         else if index <=? index_of_key key then to_delete ++ [key] else to_delete))
    (entries shard_key write_shard_vote l) acc
  = acc ++ map (fun e => shard_key e.1) (filter (fun e => index <= e.1) l).
Proof.
  induction l as [|e l IH]; intros acc Hb; [by rewrite app_nil_r|]. apply Forall_cons in Hb as [He Hb].
  cbn [entries map run]. rewrite length_shard_key, index_of_shard_key by done. cbn [Nat.ltb Nat.leb].
  unfold entries in IH. rewrite IH by done. rewrite filter_cons.
  destruct (index <=? e.1) eqn:E; [rewrite decide_True by lia|by rewrite decide_False by lia].
  cbn. by rewrite <- app_assoc.
Qed.

Lemma count_loop l : forall acc, run (fun count _ _ => inl (S count)) l acc = (acc + length l)%nat.
Proof. induction l as [|[k v] l IH]; intros acc; cbn; [lia|]. rewrite IH. lia. Qed.

Lemma retained_loop l : forall acc,
  Forall (fun e => 0 <= e.1 <= u32_max) l -> StronglySorted Z.lt (acc ++ map fst l) ->
  run (fun cps key _ => inl (if (length key <? 5)%nat then cps else zset_insert (id_of_key key) cps))
    (entries retained_checkpoint_key (fun _ : unit => []) l) acc = acc ++ map fst l.
Proof.
  induction l as [|e l IH]; intros acc Hb Hs; [by rewrite app_nil_r|]. apply Forall_cons in Hb as [He Hb].
  cbn [entries map run fst] in *. unfold retained_checkpoint_key. rewrite length_id_key, id_of_id_key by done.
  cbn [Nat.ltb Nat.leb]. rewrite zset_insert_last.
  - unfold entries, retained_checkpoint_key in IH. rewrite IH; [by rewrite <- app_assoc|done|by rewrite <- app_assoc].
  - clear -Hs. induction acc as [|x acc IH]; [constructor|]. inversion_clear Hs as [|? ? Hs' Hx].
    constructor; [|by apply IH]. rewrite list.Forall_forall in Hx. apply Hx, elem_of_app. right. by left.
Qed.

Lemma stale_loop id l : forall acc,
  Forall (fun e => 0 <= e.1 <= u32_max) l -> StronglySorted Z.lt (map fst l) ->
  run (fun to_delete key _ =>
         if (length key <? 5)%nat then inl to_delete
         else if id_of_key key <? id then inl (to_delete ++ [key]) else inr to_delete)
    (entries checkpoint_key write_checkpoint l) acc
  = acc ++ map (fun e => checkpoint_key e.1) (filter (fun e => e.1 < id) l).
Proof.
  induction l as [|e l IH]; intros acc Hb Hs; [by rewrite app_nil_r|]. apply Forall_cons in Hb as [He Hb].
  cbn [entries map run fst] in *. inversion_clear Hs as [|? ? Hs' Hl]. unfold checkpoint_key.
  rewrite length_id_key, id_of_id_key by done. cbn [Nat.ltb Nat.leb]. rewrite filter_cons.
  destruct (e.1 <? id) eqn:E.
  - rewrite decide_True by lia. unfold entries, checkpoint_key in IH. rewrite IH by done. cbn. by rewrite <- app_assoc.
  - rewrite decide_False by lia. replace (filter (fun e0 => e0.1 < id) l) with (@nil (Z * Checkpoint)); [by rewrite app_nil_r|].
    symmetry. apply filter_none, list.Forall_forall. intros x Hx. rewrite list.Forall_forall in Hl.
    specialize (Hl x.1 (list_elem_of_fmap_2 fst _ _ Hx)). lia.
Qed.

Lemma depth_loop depth l : forall seen,
  Forall (fun e => 0 <= e.1 <= u32_max /\ wf_checkpoint e.2) l -> (seen <= depth)%nat ->
  (run (fun '(seen, found) key val =>
          if (seen =? depth)%nat then
            inr (seen, if (length key <? 5)%nat then None else (fun cp => (id_of_key key, cp)) <$> read_ok val)
          else inl (S seen, found)) (entries checkpoint_key write_checkpoint l) (seen, None)).2
  = l !! (depth - seen)%nat.
Proof.
  induction l as [|e l IH]; intros seen Hb Hs; [done|]. apply Forall_cons in Hb as [[He Hw] Hb].
  cbn [entries map run]. destruct (Nat.eqb_spec seen depth) as [->|Hne].
  - rewrite Nat.sub_diag. unfold checkpoint_key. rewrite length_id_key, id_of_id_key, read_ok_write by done. cbn. by destruct e.
  - unfold entries in IH. rewrite IH by (done || lia). by replace (depth - seen)%nat with (S (depth - S seen)) by lia.
Qed.

Lemma visit_loop {T} (limit : nat) (callback : T -> Z -> Checkpoint -> result T KvError) l : forall count st,
  Forall (fun e => 0 <= e.1 <= u32_max /\ wf_checkpoint e.2) l -> (count < limit)%nat ->
  (run (visit_checkpoint limit callback) (entries checkpoint_key write_checkpoint l) (count, Ok st)).2
  = try_fold (fun st e => callback st e.1 e.2) st (take (limit - count) l).
Proof.
  induction l as [|e l IH]; intros count st Hb Hc; [by rewrite take_nil|]. apply Forall_cons in Hb as [[He Hw] Hb].
  replace (limit - count)%nat with (S (limit - S count)) by lia. cbn [take firstn try_fold].
  assert (Hstep : visit_checkpoint limit callback (count, Ok st) (checkpoint_key e.1) (write_checkpoint e.2)
    = match callback st e.1 e.2 with
      | Err err => inr (count, Err err)
      | Ok st => if (S count <? limit)%nat then inl (S count, Ok st) else inr (S count, Ok st)
      end).
  { unfold visit_checkpoint, checkpoint_key. by rewrite length_id_key, id_of_id_key, read_ok_write. }
  change (entries checkpoint_key write_checkpoint (e :: l)) with
    ((checkpoint_key e.1, write_checkpoint e.2) :: entries checkpoint_key write_checkpoint l).
  cbn [run]. rewrite Hstep. destruct (callback st e.1 e.2) as [st'|err]; [|done].
  destruct (S count <? limit)%nat eqn:El.
  - by rewrite IH by (done || lia).
  - replace (limit - S count)%nat with 0%nat by lia. by rewrite take_0.
Qed.
End op_loops.

(** ** The refinement *)
Section refinement.
Context `{PallasHash} `{RetentionBits} `{!ShardCrate}.
Context (env : KvEnv) (Hit : forall n, it_fails env n = false).

Definition op_result (op : StoreOp) (s : MemStore) (r : result StoreReply KvError) (w' : KvWorld) : Prop :=
  match r with
  | Ok answer => (mem_op op s).1 = Ok answer /\ represents (mem_op op s).2 (kw_map w')
  | Err e =>
      ((mem_op op s).1 = Err e \/ (e = KvIoError /\ exists n, kv_fails env n = true))
      /\ exists s', represents s' (kw_map w') /\ torn op s s'
  end.

Lemma io_failed op s w n :
  represents s (kw_map w) -> torn op s s -> (exists k, kv_fails env k = true) ->
  op_result op s (Err KvIoError) (mk_kv_world (kw_map w) n).
Proof. intros R T F. split; [by right|]. by exists s. Qed.

(** An operation that is one write. *)
Lemma write_op (op : StoreOp) (s s' : MemStore) (g : KvMap -> KvMap) (w : KvWorld) (r : result StoreReply KvError) w' :
  represents s (kw_map w) -> torn op s s -> mem_op op s = (Ok RUnit, s') -> represents s' (g (kw_map w)) ->
  reply (fun _ => RUnit) (callback env (fun m => (tt, g m))) w = (r, w') -> op_result op s r w'.
Proof.
  intros R T Hm R' E. unfold reply, kv_bind, kv_ret in E.
  destruct (callback_cases env (fun m => (tt, g m)) w) as [n [[E1 F]|E1]]; rewrite E1 in E; injection E as <- <-.
  - by apply io_failed.
  - cbn [fst snd]. unfold op_result. by rewrite Hm.
Qed.

(** An operation that only reads, through an iterator. *)
Lemma loop_op {S : Type} (op : StoreOp) (s : MemStore) (answer : StoreReply) (p : list Z) (b : bool)
    (step : S -> list Z -> list Z -> S + S) (s0 : S) (k : S -> Kv (result StoreReply KvError)) (w : KvWorld) (r : result StoreReply KvError) w' :
  represents s (kw_map w) -> mem_op op s = (Ok answer, s) ->
  (forall w1, k (run step (if b then rev (kv_range p (kw_map w)) else kv_range p (kw_map w)) s0) w1
     = (Ok answer, w1)) ->
  kv_pure (iter env p b step s0) k w = (r, w') -> op_result op s r w'.
Proof.
  intros R Hm Hk E. unfold kv_pure in E. destruct (iter_run env Hit p b step s0 w) as [n E1]. rewrite E1, Hk in E.
  injection E as <- <-. unfold op_result. by rewrite Hm.
Qed.

Lemma reply_pure {S A} (f : A -> StoreReply) (m : Kv S) k w :
  reply f (kv_pure m k) w = kv_pure m (fun a => reply f (k a)) w.
Proof. unfold reply, kv_bind, kv_pure. by destruct (m w). Qed.

Lemma checkpoint_facts s m :
  represents s m -> Forall (fun e => 0 <= e.1 <= u32_max /\ wf_checkpoint e.2) (ms_checkpoints s).
Proof.
  intros R. apply list.Forall_forall. intros e He.
  pose proof (re_checkpoints_wf _ _ R) as Hw. rewrite list.Forall_forall in Hw.
  pose proof (co_bound _ _ _ _ _ _ (re_checkpoints _ _ R)) as Hb. rewrite list.Forall_forall in Hb. by split; [apply Hb|apply Hw].
Qed.

Lemma head_rev {A} (l : list A) : head (rev l) = last l.
Proof. induction l as [|x l _] using rev_ind; [done|]. by rewrite rev_app_distr, last_snoc. Qed.

Lemma last_map {A B} (f : A -> B) l : last (map f l) = f <$> last l.
Proof. apply fmap_last. Qed.

Lemma head_map {A B} (f : A -> B) l : head (map f l) = f <$> head l.
Proof. by destruct l. Qed.

Lemma last_shard_ok s (w : KvWorld) (r : result StoreReply KvError) w' :
  represents s (kw_map w) -> run_op env OpLastShard w = (r, w') -> op_result OpLastShard s r w'.
Proof.
  intros R E. cbn [run_op] in E. unfold last_shard, first_entry in E. rewrite reply_pure in E.
  eapply loop_op in E; [exact E|exact R|reflexivity|]. intros w1. cbn beta iota.
  rewrite run_first, head_rev, (co_range _ _ _ _ _ _ (re_shards _ _ R)). unfold entries. rewrite last_map.
  destruct (last (ms_shards s)) as [[i t]|] eqn:El; [|done]. cbn [fmap option_fmap option_map fst snd].
  apply last_Some_elem_of in El.
  pose proof (co_bound _ _ _ _ _ _ (re_shards _ _ R)) as Hb. rewrite list.Forall_forall in Hb.
  pose proof (re_shards_wf _ _ R) as Hw. rewrite list.Forall_forall in Hw.
  assert (Hr : read_shard_vote (write_shard_vote t) = Ok t).
  { rewrite <- (app_nil_r (write_shard_vote t)). apply read_write_shard. by apply (Hw _ El). }
  rewrite length_shard_key, Hr. cbn [Nat.ltb Nat.leb]. unfold reply, kv_bind, kv_ret.
  rewrite index_of_shard_key; [done|]. by apply (Hb _ El).
Qed.

Lemma checkpoint_id_ok (b : bool) (s : MemStore) (op : StoreOp) (w : KvWorld) r w' :
  represents s (kw_map w) ->
  mem_op op s = (Ok (RId (fst <$> if b then last (ms_checkpoints s) else head (ms_checkpoints s))), s) ->
  reply RId (checkpoint_id_at env b) w = (r, w') -> op_result op s r w'.
Proof.
  intros R Hm E. unfold checkpoint_id_at, first_entry in E. rewrite reply_pure in E.
  eapply loop_op in E; [exact E|exact R|exact Hm|]. intros w1. unfold reply, kv_bind, kv_ret.
  pose proof (checkpoint_facts _ _ R) as Hf. rewrite list.Forall_forall in Hf.
  assert (G : forall o, (forall e, o = Some e -> e ∈ ms_checkpoints s) ->
    match (fun e : Z * Checkpoint => (checkpoint_key e.1, write_checkpoint e.2)) <$> o with
    | Some (key, _) => if (5 <=? length key)%nat then Some (id_of_key key) else None
    | None => None
    end = fst <$> o).
  { intros [e|] He; [|done]. cbn [fmap option_fmap option_map]. unfold checkpoint_key.
    rewrite length_id_key, id_of_id_key by apply (Hf e (He e eq_refl)). done. }
  rewrite (co_range _ _ _ _ _ _ (re_checkpoints _ _ R)), run_first. unfold entries. destruct b.
  - rewrite head_rev, last_map, G; [done|]. intros e. apply last_Some_elem_of.
  - rewrite head_map, G; [done|]. intros e. apply head_Some_elem_of.
Qed.

Lemma get_op_ok {A} (op : StoreOp) (s : MemStore) key (k : option (list Z) -> Kv (result A KvError)) answer w r w' (f : A -> StoreReply) :
  represents s (kw_map w) -> torn op s s -> mem_op op s = (Ok answer, s) ->
  (forall w1, reply f (k (kw_map w !! key)) w1 = (Ok answer, w1)) ->
  reply f (kv_bind (kv_get env key) k) w = (r, w') -> op_result op s r w'.
Proof.
  intros R T Hm Hk E. unfold reply, kv_bind at 1 2, kv_get in E.
  destruct (callback_cases env (fun m => (m !! key, m)) w) as [n [[E1 F]|E1]]; rewrite E1 in E.
  - injection E as <- <-. by apply io_failed.
  - cbn [fst snd] in E. specialize (Hk (mk_kv_world (kw_map w) n)). unfold reply, kv_bind in Hk. rewrite Hk in E.
    injection E as <- <-. unfold op_result. by rewrite Hm.
Qed.
End refinement.

Section operations.
Context `{PallasHash} `{RetentionBits} `{!ShardCrate}.
Context (env : KvEnv) (Hit : forall n, it_fails env n = false).

Lemma sorted_split {V} (l : list (Z * V)) i :
  StronglySorted Z.lt (map fst l) ->
  l = filter (fun e => e.1 < i) l ++ filter (fun e => i <= e.1) l.
Proof.
  induction l as [|e l IH]; intros Hs; [done|]. cbn in Hs. inversion_clear Hs as [|? ? Hs' He]. rewrite !filter_cons.
  destruct (decide (e.1 < i)).
  - rewrite decide_False by lia. cbn. f_equal. by apply IH.
  - rewrite decide_True by lia. rewrite (filter_none (fun e0 => e0.1 < i)), (filter_all (fun e0 => i <= e0.1)); [done|..].
    all: apply list.Forall_forall; intros x Hx; rewrite list.Forall_forall in He;
      specialize (He x.1 (list_elem_of_fmap_2 fst _ _ Hx)); lia.
Qed.

Lemma with_same_shards s : with_shards s (ms_shards s) = s.
Proof. by destruct s. Qed.
Lemma with_same_checkpoints s : with_checkpoints s (ms_checkpoints s) = s.
Proof. by destruct s. Qed.

Lemma shards_nodup s m : represents s m -> NoDup (map fst (ms_shards s)).
Proof. intros R. apply sorted_nodup, (co_sorted _ _ _ _ _ _ (re_shards _ _ R)). Qed.
Lemma checkpoints_nodup s m : represents s m -> NoDup (map fst (ms_checkpoints s)).
Proof. intros R. apply sorted_nodup, (co_sorted _ _ _ _ _ _ (re_checkpoints _ _ R)). Qed.

Lemma delete_shards_ok s A B C w r w' :
  represents (with_shards s (A ++ B ++ C)) (kw_map w) ->
  delete_all env (map (fun e => shard_key e.1) B) w = (r, w') ->
  match r with
  | Ok _ => represents (with_shards s (A ++ C)) (kw_map w')
  | Err e => e = KvIoError /\ (exists k, kv_fails env k = true)
             /\ exists n, represents (with_shards s (A ++ drop n B ++ C)) (kw_map w')
  end.
Proof.
  apply (delete_all_column env shard_key (fun l m => represents (with_shards s l) m)).
  - intros l m R. apply (shards_nodup _ _ R).
  - intros l m e R He. apply (delete_shard _ _ e.1) in R; [exact R|].
    pose proof (co_bound _ _ _ _ _ _ (re_shards _ _ R)) as Hb. rewrite list.Forall_forall in Hb. by apply (Hb e).
Qed.

Lemma delete_checkpoints_ok s A B C w r w' :
  represents (with_checkpoints s (A ++ B ++ C)) (kw_map w) ->
  delete_all env (map (fun e => checkpoint_key e.1) B) w = (r, w') ->
  match r with
  | Ok _ => represents (with_checkpoints s (A ++ C)) (kw_map w')
  | Err e => e = KvIoError /\ (exists k, kv_fails env k = true)
             /\ exists n, represents (with_checkpoints s (A ++ drop n B ++ C)) (kw_map w')
  end.
Proof.
  apply (delete_all_column env checkpoint_key (fun l m => represents (with_checkpoints s l) m)).
  - intros l m R. apply (checkpoints_nodup _ _ R).
  - intros l m e R He. apply (delete_checkpoint _ _ e.1) in R; [exact R|].
    pose proof (co_bound _ _ _ _ _ _ (re_checkpoints _ _ R)) as Hb. rewrite list.Forall_forall in Hb. by apply (Hb e).
Qed.

Lemma truncate_shards_ok index s w r w' :
  represents s (kw_map w) -> run_op env (OpTruncateShards index) w = (r, w') ->
  op_result env (OpTruncateShards index) s r w'.
Proof.
  intros R E. cbn [run_op] in E. unfold truncate_shards, reply, kv_bind, kv_pure in E.
  match type of E with context [iter env ?p ?b ?st ?s0 w] => destruct (iter_run env Hit p b st s0 w) as [n E1] end.
  rewrite E1 in E. clear E1. cbn iota in E. rewrite (co_range _ _ _ _ _ _ (re_shards _ _ R)) in E.
  rewrite truncate_loop in E by apply (co_bound _ _ _ _ _ _ (re_shards _ _ R)). cbn [app] in E.
  pose proof (sorted_split (ms_shards s) index (co_sorted _ _ _ _ _ _ (re_shards _ _ R))) as Hsp.
  set (A := filter (fun e => e.1 < index) (ms_shards s)) in *. set (B := filter (fun e => index <= e.1) (ms_shards s)) in *.
  match type of E with context [delete_all env ?ks ?w1] => destruct (delete_all env ks w1) as [r1 w2] eqn:Ed end.
  eapply (delete_shards_ok s A B []) in Ed; [|cbn; by rewrite app_nil_r, <- Hsp, with_same_shards].
  rewrite !app_nil_r in Ed. destruct r1 as [u|e]; cbn in E; injection E as <- <-; [done|].
  destruct Ed as (-> & F & k & R'). split; [by right|]. rewrite app_nil_r in R'. eexists. split; [exact R'|]. by exists k.
Qed.

Lemma bt_get_filter_ge {V} (i : Z) (l : list (Z * V)) : bt_get i (filter (fun e => i <= e.1) l) = bt_get i l.
Proof.
  induction l as [|[k x] l IH]; [done|]. rewrite filter_cons. cbn [fst bt_get].
  destruct (decide (i <= k)); cbn; case_decide; try done; lia.
Qed.

Lemma truncate_checkpoints_ok id s w r w' :
  is_u32 id -> represents s (kw_map w) -> run_op env (OpTruncateCheckpoints id) w = (r, w') ->
  op_result env (OpTruncateCheckpoints id) s r w'.
Proof.
  intros Hid R E. cbn [run_op] in E. unfold truncate_checkpoints_retaining, reply in E. unfold kv_bind at 1 2, kv_pure in E.
  match type of E with context [iter env ?p ?b ?st ?s0 w] => destruct (iter_run env Hit p b st s0 w) as [n E1] end.
  rewrite E1 in E. clear E1. cbn iota in E. rewrite (co_range _ _ _ _ _ _ (re_checkpoints _ _ R)) in E.
  rewrite stale_loop in E by apply (re_checkpoints _ _ R). cbn [app] in E.
  pose proof (sorted_split (ms_checkpoints s) id (co_sorted _ _ _ _ _ _ (re_checkpoints _ _ R))) as Hsp.
  set (B := filter (fun e => e.1 < id) (ms_checkpoints s)) in *. set (C := filter (fun e => id <= e.1) (ms_checkpoints s)) in *.
  match type of E with context [delete_all env ?ks ?w1] => destruct (delete_all env ks w1) as [r1 w2] eqn:Ed end.
  eapply (delete_checkpoints_ok s [] B C) in Ed; [|cbn; by rewrite <- Hsp, with_same_checkpoints].
  destruct r1 as [u|e]; cbn [app] in *.
  2: { injection E as <- <-. destruct Ed as (-> & F & k & R'). split; [by right|]. eexists. split; [exact R'|]. by exists k. }
  assert (T : torn (OpTruncateCheckpoints id) s (with_checkpoints s C)) by (exists (length B); by rewrite drop_all).
  assert (Hm : mem_op (OpTruncateCheckpoints id) s = (Ok RUnit, with_checkpoints s match bt_get id C with
    | None => C | Some cp => zmap_insert id (mk_checkpoint (cp_tree_state cp) []) C end)) by done.
  unfold kv_bind at 1, kv_get in E.
  destruct (callback_cases env (fun m => (m !! checkpoint_key id, m)) w2) as [n2 [[E2 F]|E2]]; rewrite E2 in E.
  { injection E as <- <-. split; [by right|]. eexists. split; [exact Ed|done]. }
  cbn [fst snd] in E. rewrite (checkpoint_lookup _ _ _ Ed Hid) in E. cbn [with_checkpoints ms_checkpoints] in E.
  destruct (bt_get id C) as [cp|] eqn:Eg; [|injection E as <- <-; unfold op_result; by rewrite Hm].
  unfold kv_set in E. destruct (callback_cases env (fun m => (tt, <[checkpoint_key id := write_checkpoint
    (mk_checkpoint (cp_tree_state cp) [])]> m)) (mk_kv_world (kw_map w2) n2)) as [n3 [[E3 F]|E3]]; rewrite E3 in E.
  { injection E as <- <-. split; [by right|]. eexists. split; [exact Ed|done]. }
  injection E as <- <-. unfold op_result. rewrite Hm. split; [done|]. cbn [snd kw_map].
  apply (set_checkpoint _ _ id (mk_checkpoint (cp_tree_state cp) [])) in Ed; [exact Ed|done|].
  apply bt_get_elem in Eg. pose proof (re_checkpoints_wf _ _ Ed) as Hw. rewrite list.Forall_forall in Hw.
  destruct (Hw _ Eg) as [W1 _ _ _]. split; cbn; [done|constructor|constructor|done].
Qed.
End operations.

Section all_operations.
Context `{PallasHash} `{RetentionBits} `{!ShardCrate}.
Context (env : KvEnv) (Hit : forall n, it_fails env n = false).

Lemma update_ok id update s w r w' :
  wf_op (OpUpdateCheckpoint id update) -> represents s (kw_map w) ->
  run_op env (OpUpdateCheckpoint id update) w = (r, w') -> op_result env (OpUpdateCheckpoint id update) s r w'.
Proof.
  intros [Hid Hup] R E. cbn [run_op] in E. unfold update_checkpoint_with, reply in E.
  unfold kv_bind at 1 2, kv_get in E.
  destruct (callback_cases env (fun m => (m !! checkpoint_key id, m)) w) as [n [[E1 F]|E1]]; rewrite E1 in E.
  { injection E as <- <-. by apply io_failed. }
  cbn [fst snd] in E. rewrite (checkpoint_lookup _ _ _ R Hid) in E. unfold op_result. cbn [mem_op torn].
  destruct (bt_get id (ms_checkpoints s)) as [cp|] eqn:Eg; [|by injection E as <- <-].
  destruct (update cp) as [cp'|e] eqn:Eu.
  - unfold kv_bind, kv_set in E. destruct (callback_cases env (fun m => (tt, <[checkpoint_key id := write_checkpoint cp']> m))
      (mk_kv_world (kw_map w) n)) as [n2 [[E2 F]|E2]]; rewrite E2 in E; injection E as <- <-.
    + split; [by right|]. by exists s.
    + split; [done|]. apply set_checkpoint; [done|done|].
      apply bt_get_elem in Eg. pose proof (re_checkpoints_wf _ _ R) as Hw. rewrite list.Forall_forall in Hw.
      by eapply Hup; [apply (Hw _ Eg)|].
  - injection E as <- <-. split; [by left|]. by exists s.
Qed.

Lemma get_shard_ok root s w r w' :
  is_u64 (ad_index root) -> represents s (kw_map w) ->
  run_op env (OpGetShard root) w = (r, w') -> op_result env (OpGetShard root) s r w'.
Proof.
  intros Hi R E. cbn [run_op] in E. unfold get_shard in E.
  eapply get_op_ok in E; [exact E|exact R|done|reflexivity|]. intros w1.
  rewrite (column_lookup _ _ _ _ shard_key_prefix shard_key_mono _ _ _ (re_shards _ _ R) Hi).
  destruct (bt_get (ad_index root) (ms_shards s)) as [t|] eqn:Eg; [|done]. cbn [fmap option_fmap option_map].
  by rewrite (read_shard_of _ _ _ _ R Eg).
Qed.

Lemma get_cap_ok s w r w' :
  represents s (kw_map w) -> run_op env OpGetCap w = (r, w') -> op_result env OpGetCap s r w'.
Proof.
  intros R E. cbn [run_op] in E. unfold get_cap in E.
  eapply get_op_ok in E; [exact E|exact R|done|reflexivity|]. intros w1. rewrite (re_cap _ _ R).
  destruct (ms_cap s) as [t|] eqn:Ec; [|done]. cbn [fmap option_fmap option_map].
  rewrite <- (app_nil_r (write_shard_vote t)), read_write_shard; [done|]. by apply (re_cap_wf _ _ R).
Qed.

Lemma loops_ok op s w r w' :
  op ∈ [OpGetShardRoots; OpCheckpointCount; OpRetained] ->
  represents s (kw_map w) -> run_op env op w = (r, w') -> op_result env op s r w'.
Proof.
  intros Hop R E. rewrite !elem_of_cons in Hop. destruct Hop as [->|[->|[->|?%elem_of_nil]]]; [| | |done];
    cbn [run_op] in E; unfold get_shard_roots, checkpoint_count, retained_checkpoints in E; rewrite reply_pure in E;
    (eapply loop_op in E; [exact E|exact Hit|exact R|reflexivity|]); intros w1; cbn iota.
  - rewrite (co_range _ _ _ _ _ _ (re_shards _ _ R)), roots_loop; [done|]. apply (re_shards _ _ R).
  - rewrite (co_range _ _ _ _ _ _ (re_checkpoints _ _ R)), count_loop. unfold entries. by rewrite length_map.
  - rewrite (co_range _ _ _ _ _ _ (re_retained _ _ R)), retained_loop; [done|apply (re_retained _ _ R)|].
    apply (re_retained _ _ R).
Qed.

Lemma at_depth_ok depth s w r w' :
  represents s (kw_map w) -> run_op env (OpCheckpointAtDepth depth) w = (r, w') ->
  op_result env (OpCheckpointAtDepth depth) s r w'.
Proof.
  intros R E. cbn [run_op] in E. unfold get_checkpoint_at_depth in E. rewrite reply_pure in E.
  eapply loop_op in E; [exact E|exact Hit|exact R|reflexivity|]. intros w1. cbn iota.
  rewrite (co_range _ _ _ _ _ _ (re_checkpoints _ _ R)). unfold reply, kv_bind, kv_ret.
  assert (Hrev : rev (entries checkpoint_key write_checkpoint (ms_checkpoints s))
    = entries checkpoint_key write_checkpoint (rev (ms_checkpoints s))) by (unfold entries; by rewrite map_rev).
  rewrite Hrev, (depth_loop depth (rev (ms_checkpoints s)) 0); [by rewrite Nat.sub_0_r| |lia].
  apply Forall_rev. apply (checkpoint_facts _ _ R).
Qed.

Lemma for_each_ok limit stop s w r w' :
  represents s (kw_map w) -> run_op env (OpForEachCheckpoint limit stop) w = (r, w') ->
  op_result env (OpForEachCheckpoint limit stop) s r w'.
Proof.
  intros R E. cbn [run_op] in E. unfold for_each_checkpoint in E. unfold op_result. cbn [mem_op torn].
  destruct limit as [|limit]; [by injection E as <- <-|]. cbn [Nat.eqb] in E. unfold reply, kv_bind, kv_pure in E.
  match type of E with context [iter env ?p ?b ?st ?s0 w] => destruct (iter_run env Hit p b st s0 w) as [n E1] end.
  rewrite E1 in E. clear E1. cbn iota in E. rewrite (co_range _ _ _ _ _ _ (re_checkpoints _ _ R)) in E.
  rewrite visit_loop, Nat.sub_0_r in E by (apply (checkpoint_facts _ _ R) || lia).
  destruct (try_fold _ [] (take (S limit) (ms_checkpoints s))) as [seen|e]; injection E as <- <-; [done|].
  split; [by left|]. by exists s.
Qed.

(** Every operation. *)
Lemma run_op_ok op s w r w' :
  wf_op op -> represents s (kw_map w) -> run_op env op w = (r, w') -> op_result env op s r w'.
Proof.
  intros Hop R E. destruct op; cbn [wf_op] in Hop.
  - by eapply get_shard_ok.
  - by eapply last_shard_ok.
  - destruct Hop. eapply (write_op env _ s _ (fun m => <[_ := _]> m)); [done|done|reflexivity| |exact E]. by apply set_shard.
  - eapply loops_ok; [|done|exact E]. left.
  - by eapply truncate_shards_ok.
  - by eapply get_cap_ok.
  - eapply (write_op env _ s _ (fun m => <[_ := _]> m)); [done|done|reflexivity| |exact E]. by apply set_cap.
  - by eapply (checkpoint_id_ok env Hit false).
  - by eapply (checkpoint_id_ok env Hit true).
  - destruct Hop. eapply (write_op env _ s _ (fun m => <[_ := _]> m)); [done|done|reflexivity| |exact E]. by apply set_checkpoint.
  - eapply loops_ok; [|done|exact E]. right. left.
  - by eapply at_depth_ok.
  - cbn [run_op] in E. unfold get_checkpoint in E. eapply get_op_ok in E; [exact E|exact R|done|reflexivity|].
    intros w1. by rewrite (checkpoint_lookup _ _ _ R Hop).
  - by eapply for_each_ok.
  - by eapply update_ok.
  - eapply (write_op env _ s _ (fun m => delete _ m)); [done|done|reflexivity| |exact E]. by apply delete_checkpoint.
  - eapply (write_op env _ s _ (fun m => <[_ := _]> m)); [done|done|reflexivity| |exact E]. by apply set_retained.
  - eapply (write_op env _ s _ (fun m => delete _ m)); [done|done|reflexivity| |exact E]. by apply delete_retained.
  - eapply loops_ok; [|done|exact E]. right. right. left.
  - by eapply truncate_checkpoints_ok.
Qed.

End all_operations.

(** ** A failing iterator

    An iterator that cannot be created, or that fails on the way, ends the
    loop as if the store had no further entries, and the operation succeeds. *)
Section silent_failures.
Context `{PallasHash} `{RetentionBits} `{!ShardCrate}.
Context (env : KvEnv).

Lemma failed_iterator {S} p b step (s : S) w :
  it_fails env (kw_step w) = true ->
  iter env p b step s w = (s, mk_kv_world (kw_map w) (Datatypes.S (kw_step w))).
Proof. intros F. unfold iter. by rewrite F. Qed.

Lemma iterator_failure_is_silent w index :
  it_fails env (kw_step w) = true ->
  (max_checkpoint_id env w).1 = Ok None
  /\ (checkpoint_count env w).1 = Ok 0%nat
  /\ (get_shard_roots env w).1 = Ok []
  /\ (truncate_shards env index w).1 = Ok tt /\ kw_map (truncate_shards env index w).2 = kw_map w.
Proof.
  intros F. unfold max_checkpoint_id, checkpoint_id_at, first_entry, checkpoint_count, get_shard_roots, truncate_shards, kv_pure.
  by rewrite !failed_iterator.
Qed.
End silent_failures.

(** ** A concrete store *)
#[global] Instance sample_shard_crate : ShardCrate := {| fits _ _ := true |}.

Definition steady_env : KvEnv := mk_kv_env (fun _ => false) (fun _ => false).

Definition empty_mem : MemStore := mk_mem [] None [] [].

Lemma empty_represents : represents empty_mem ∅.
Proof.
  split; cbn; try done; try constructor; try done; try constructor.
Qed.

Definition sample_checkpoint : Checkpoint := mk_checkpoint (AtPosition 3) [1].

Lemma sample_checkpoint_wf : wf_checkpoint sample_checkpoint.
Proof.
  split; cbn; unfold u32_max; [|repeat constructor; unfold is_u64, u64_max; lia|repeat constructor|lia].
  intros p [= <-]. unfold is_u64, u64_max. lia.
Qed.

