(* ===== verification/TreeServer.v ===== *)
(** * The servers of the vote commitment tree

    Models [server.rs], [memory_server.rs] and [sync_api.rs] of the crate
    [vote-commitment-tree]: the append-only tree with its checkpoints, the same
    tree over the chain's key-value store, and the server that also records
    which leaves each block added, so that clients can follow it. *)

From stdpp Require Import base gmap strings list numbers sorting.
From Stdlib Require Import ZifyBool.
From S2P Require Import Prelude Ordered Outcome Record MerkleTree TreeSerde KvStore.
Local Open Scope Z_scope.
Local Open Scope voting_scope.

Definition MAX_CHECKPOINTS : nat := 1000.

(** ** The tree of the crate [shardtree] *)
Inductive Retention := Ephemeral | Marked.

(** A full tree, any other failure of the tree itself, or of its store. *)
Inductive ShardTreeError (E : Type) :=
| TreeFull
| OtherTreeError (message : text)
| StorageError (e : E).
Arguments TreeFull {E}.
Arguments OtherTreeError {E} message.
Arguments StorageError {E} e.

(** The operations on a tree with state [T] and store errors [E]. What the crate
    documents of them is said through three views of a state: the leaves
    appended so far, the positions that were marked, and the checkpoints with
    the number of leaves each of them has.

    An operation that succeeds has its documented effect, and a full tree takes
    no leaf. A checkpoint is added
    exactly when its number exceeds all others, and the oldest ones are dropped
    beyond [MAX_CHECKPOINTS]. The root at a checkpoint is the Merkle root of
    its leaves, and a witness is the path of its position at the checkpoint. *)
Class ShardTree (T E : Type) `{PallasHash} := {
  sht_append : T -> Fp -> Retention -> result unit (ShardTreeError E) * T;
  sht_checkpoint : T -> Z -> result bool (ShardTreeError E) * T;
  sht_root_at : T -> Z -> result (option Fp) (ShardTreeError E);
  sht_witness_at : T -> Z -> Z -> result (option (Z * list Fp)) (ShardTreeError E);
  leaves_of : T -> list Fp;
  marks_of : T -> list Z;
  checkpoints_of : T -> list (Z * nat);
  sht_append_ok : forall t x r t', sht_append t x r = (Ok tt, t') ->
    Z.of_nat (length (leaves_of t)) < TREE_CAPACITY
    /\ leaves_of t' = leaves_of t ++ [x] /\ checkpoints_of t' = checkpoints_of t
    /\ marks_of t' = marks_of t ++ match r with Marked => [Z.of_nat (length (leaves_of t))] | Ephemeral => [] end;
  sht_checkpoint_ok : forall t id b t', sht_checkpoint t id = (Ok b, t') ->
    leaves_of t' = leaves_of t /\ marks_of t' = marks_of t
    /\ (b = true <-> Forall (fun c => c.1 < id) (checkpoints_of t))
    /\ checkpoints_of t' =
         if b then
           let all := checkpoints_of t ++ [(id, length (leaves_of t))] in
           drop (length all - MAX_CHECKPOINTS) all
         else checkpoints_of t;
  sht_root_ok : forall t id o, sht_root_at t id = Ok o ->
    o = (fun n => merkle_root (take n (leaves_of t))) <$> bt_get id (checkpoints_of t);
  sht_witness_ok : forall t pos id p, sht_witness_at t pos id = Ok (Some p) ->
    exists n, bt_get id (checkpoints_of t) = Some n /\ 0 <= pos < Z.of_nat n
      /\ p = (pos, siblings 0 DEPTH (Z.to_nat pos) (take n (leaves_of t)))
}.

(** Over a store that cannot fail the operations fail only for a reason: the
    tree is full, or a witness was asked for a position that is not in the
    checkpoint or was not marked. *)
Class MemoryTree (T : Type) `{PallasHash, !ShardTree T Empty_set} := {
  sht_empty : T;
  empty_views : leaves_of sht_empty = [] /\ marks_of sht_empty = [] /\ checkpoints_of sht_empty = [];
  mem_append : forall t x r, Z.of_nat (length (leaves_of t)) < TREE_CAPACITY -> (sht_append t x r).1 = Ok tt;
  mem_append_full : forall t x r e t', sht_append t x r = (Err e, t') ->
    e = TreeFull /\ TREE_CAPACITY <= Z.of_nat (length (leaves_of t))
    /\ leaves_of t' = leaves_of t /\ marks_of t' = marks_of t /\ checkpoints_of t' = checkpoints_of t;
  mem_checkpoint : forall t id, is_ok (sht_checkpoint t id).1 = true;
  mem_root : forall t id, is_ok (sht_root_at t id) = true;
  mem_witness : forall t pos id n,
    bt_get id (checkpoints_of t) = Some n -> 0 <= pos < Z.of_nat n -> pos ∈ marks_of t ->
    exists p, sht_witness_at t pos id = Ok (Some p)
}.

(** ** Servers *)
Record GenericTreeServer (T : Type) := mk_server {
  gs_inner : T;
  gs_latest_checkpoint : option Z;
  gs_next_position : Z
}.
Arguments mk_server {T}.
Arguments gs_inner {T}.
Arguments gs_latest_checkpoint {T}.
Arguments gs_next_position {T}.

Inductive CheckpointError (E : Type) :=
| NotMonotonic (prev requested : Z)
| CheckpointTreeError (e : ShardTreeError E).
Arguments NotMonotonic {E}.
Arguments CheckpointTreeError {E}.

Section server.
Context `{PallasHash} {T E : Type} `{!ShardTree T E}.
Implicit Types g : GenericTreeServer T.

Definition append g (leaf : Fp) : result Z (ShardTreeError E) * GenericTreeServer T :=
  let index := gs_next_position g in
  match sht_append (gs_inner g) leaf Marked with
  | (Ok _, inner) => (Ok index, mk_server inner (gs_latest_checkpoint g) (gs_next_position g + 1))
  | (Err e, inner) => (Err e, mk_server inner (gs_latest_checkpoint g) (gs_next_position g))
  end.

Definition append_two g (first second : Fp) : result Z (ShardTreeError E) * GenericTreeServer T :=
  match append g first with
  | (Err e, g) => (Err e, g)
  | (Ok index, g) =>
      match append g second with
      | (Err e, g) => (Err e, g)
      | (Ok _, g) => (Ok index, g)
      end
  end.

Definition not_after (latest : option Z) (height : Z) : option Z :=
  match latest with
  | Some prev => if height <=? prev then Some prev else None
  | None => None
  end.

Definition checkpoint g (height : Z) : result unit (CheckpointError E) * GenericTreeServer T :=
  match not_after (gs_latest_checkpoint g) height with
  | Some prev => (Err (NotMonotonic prev height), g)
  | None =>
      match sht_checkpoint (gs_inner g) height with
      | (Err e, inner) =>
          (Err (CheckpointTreeError e), mk_server inner (gs_latest_checkpoint g) (gs_next_position g))
      | (Ok _, inner) => (Ok tt, mk_server inner (Some height) (gs_next_position g))
      end
  end.

(** [.ok().flatten()]. *)
Definition ok_flatten {A} (r : result (option A) (ShardTreeError E)) : option A :=
  match r with
  | Ok o => o
  | Err _ => None
  end.

Definition root_at_height g (height : Z) : option Fp := ok_flatten (sht_root_at (gs_inner g) height).

Definition root g : Fp :=
  match gs_latest_checkpoint g with
  | Some id => default (empty_root DEPTH) (root_at_height g id)
  | None => empty_root DEPTH
  end.

Definition size g : Z := gs_next_position g.

Definition set_next_position g (pos : Z) : GenericTreeServer T :=
  mk_server (gs_inner g) (gs_latest_checkpoint g) pos.

(** [MerklePath::from]: the position is narrowed to a [u32]. *)
Definition path_of_witness (p : Z * list Fp) : MerklePath := mk_path (p.1 mod 2 ^ 32) p.2.

Definition path g (position anchor_height : Z) : option MerklePath :=
  path_of_witness <$> ok_flatten (sht_witness_at (gs_inner g) position anchor_height).
End server.

(** ** The tree over the key-value store *)
Inductive AppendFromKvError :=
| AfkKv (e : KvError)
| AfkMissingLeaf (index : Z)
| AfkMalformedLeaf (index : Z)
| AfkTree (e : ShardTreeError KvError).

Definition leaf_key (index : Z) : list Z := 2 :: be_bytes 8 index.

Section kv_server.
Context `{PallasHash} `{RetentionBits} `{!ShardTree KvWorld KvError}.
Context (env : KvEnv).
Notation TreeServer := (GenericTreeServer KvWorld).

Definition server_new (world : KvWorld) (next_position : Z) : TreeServer :=
  let (latest, world) := max_checkpoint_id env world in
  mk_server world match latest with Ok latest => latest | Err _ => None end next_position.

(** The loop over [cursor..cursor + count]; the sum fits in a [u64]. *)
Fixpoint append_from_kv (g : TreeServer) (cursor : Z) (count : nat) : result unit AppendFromKvError * TreeServer :=
  match count with
  | O => (Ok tt, g)
  | S count =>
      let (found, world) := kv_get env (leaf_key cursor) (gs_inner g) in
      let g := mk_server world (gs_latest_checkpoint g) (gs_next_position g) in
      match found with
      | Err e => (Err (AfkKv e), g)
      | Ok None => (Err (AfkMissingLeaf cursor), g)
      | Ok (Some blob) =>
          if negb (length blob =? 32)%nat then (Err (AfkMalformedLeaf cursor), g)
          else match from_repr blob with
               | None => (Err (AfkMalformedLeaf cursor), g)
               | Some fp =>
                   match append g fp with
                   | (Err e, g) => (Err (AfkTree e), g)
                   | (Ok _, g) => append_from_kv g (cursor + 1) count
                   end
               end
      end
  end.
End kv_server.

(** ** What clients follow *)
Section sync_data.
Context `{PallasHash}.

Record BlockCommitments := mk_block_commitments {
  bc_height : Z;
  bc_start_index : Z;
  bc_leaves : list Fp;
  bc_root : Fp
}.

Record BlockCommitmentsPage := mk_page {
  pg_blocks : list BlockCommitments;
  pg_next_from_height : Z
}.

Record SyncTreeState := mk_sync_state {
  sy_next_index : Z;
  sy_root : Fp;
  sy_height : Z
}.
End sync_data.

Section syncable.
Context `{PallasHash} {T E : Type} `{!ShardTree T E}.

(** [blocks] is a [BTreeMap] from heights. *)
Record SyncableServer := mk_syncable {
  ss_tree : GenericTreeServer T;
  ss_blocks : list (Z * BlockCommitments);
  ss_pending_leaves : list Fp;
  ss_pending_start : Z
}.

Definition syncable_new (tree : GenericTreeServer T) : SyncableServer := mk_syncable tree [] [] 0.

Definition ss_append (s : SyncableServer) (leaf : Fp) : result Z (ShardTreeError E) * SyncableServer :=
  match append (ss_tree s) leaf with
  | (Err e, tree) => (Err e, mk_syncable tree (ss_blocks s) (ss_pending_leaves s) (ss_pending_start s))
  | (Ok idx, tree) =>
      (Ok idx, mk_syncable tree (ss_blocks s) (ss_pending_leaves s ++ [leaf]) (ss_pending_start s))
  end.

Definition ss_append_two (s : SyncableServer) (first second : Fp)
    : result Z (ShardTreeError E) * SyncableServer :=
  match ss_append s first with
  | (Err e, s) => (Err e, s)
  | (Ok idx, s) =>
      match ss_append s second with
      | (Err e, s) => (Err e, s)
      | (Ok _, s) => (Ok idx, s)
      end
  end.

Definition ss_checkpoint (s : SyncableServer) (height : Z) : result unit (CheckpointError E) * SyncableServer :=
  match checkpoint (ss_tree s) height with
  | (Err e, tree) => (Err e, mk_syncable tree (ss_blocks s) (ss_pending_leaves s) (ss_pending_start s))
  | (Ok _, tree) =>
      let commitments :=
        mk_block_commitments height (ss_pending_start s) (ss_pending_leaves s)
          (default (root tree) (root_at_height tree height)) in
      (Ok tt, mk_syncable tree (zmap_insert height commitments (ss_blocks s)) [] (gs_next_position tree))
  end.

(** ** [memory_server.rs]

    A range of blocks that starts after its end would panic; the client asks for
    none. *)
Definition get_block_commitments (s : SyncableServer) (from_height to_height : Z) : BlockCommitmentsPage :=
  mk_page (map snd (filter (fun e => from_height <= e.1 <= to_height) (ss_blocks s))) 0.

Definition get_root_at_height (s : SyncableServer) (height : Z) : option Fp := root_at_height (ss_tree s) height.

Definition get_tree_state (s : SyncableServer) : SyncTreeState :=
  mk_sync_state (size (ss_tree s)) (root (ss_tree s)) (default 0 (gs_latest_checkpoint (ss_tree s))).
End syncable.
Arguments SyncableServer {_} T.

(** [SyncableServer::empty]. *)
Definition syncable_empty `{PallasHash} {T} `{!ShardTree T Empty_set} `{!MemoryTree T} : SyncableServer T :=
  mk_syncable (mk_server sht_empty None 0) [] [] 0.
