(* ===== verification/TreeClient.v ===== *)
(** * The client of the vote commitment tree

    Models [client.rs] of the crate [vote-commitment-tree]: a sparse local copy
    of the tree that follows a server page by page, checks every block it is
    given, and makes witnesses for the positions that were marked.

    The server may be anything: the [n]-th call of the interface is answered by
    the [n]-th entry of an environment, and so is the clock. *)

From stdpp Require Import base gmap strings list numbers sorting pretty.
From Stdlib Require Import ZifyBool.
From S2P Require Import Prelude Ordered Outcome Record MerkleTree TreeSerde KvStore TreeServer.
Local Open Scope Z_scope.
Local Open Scope voting_scope.

(** Durations are in nanoseconds. *)
Record SyncLimits := mk_limits {
  max_pages : nat;
  max_duration : Z
}.

Definition default_limits : SyncLimits := mk_limits (Z.to_nat 4096) (5 * 60 * 1000000000).

Section client.
Context `{PallasHash} {T : Type} `{!ShardTree T Empty_set} `{!MemoryTree T} {A : Type}.

Inductive SyncError :=
| SyncApiError (e : A)
| StartIndexMismatch (height expected got : Z)
| RootMismatch (height : Z) (local : option Fp) (server : Fp)
| IncompleteSync (local_next_index server_next_index : Z)
| InvalidPagination (current next : Z)
| TreeCapacityExceeded (height requested_next_index capacity : Z)
| CheckpointOutOfOrder (previous requested : Z)
| TreeUpdate (height : Z) (operation : text) (source : ShardTreeError Empty_set)
| PageLimitExceeded (pages : nat)
| TimeLimitExceeded (duration : Z).

Record TreeClient := mk_client {
  tc_inner : T;
  tc_next_position : Z;
  tc_last_synced_height : option Z;
  tc_marked_positions : list Z
}.

Definition client_empty : TreeClient := mk_client sht_empty 0 None [].

Definition mark_position (c : TreeClient) (position : Z) : TreeClient :=
  mk_client (tc_inner c) (tc_next_position c) (tc_last_synced_height c)
    (zset_insert position (tc_marked_positions c)).

Definition client_root_at_height (c : TreeClient) (height : Z) : option Fp :=
  ok_flatten (sht_root_at (tc_inner c) height).

Definition client_root (c : TreeClient) : Fp :=
  match tc_last_synced_height c with
  | Some id => default (empty_root DEPTH) (client_root_at_height c id)
  | None => empty_root DEPTH
  end.

Definition witness (c : TreeClient) (position anchor_height : Z) : option MerklePath :=
  path_of_witness <$> ok_flatten (sht_witness_at (tc_inner c) position anchor_height).

(** ** Checking a page *)
Fixpoint validate_blocks (expected_next_position : Z) (previous_height : option Z)
    (blocks : list BlockCommitments) : result unit SyncError :=
  match blocks with
  | [] => Ok tt
  | block :: blocks =>
      match not_after previous_height (bc_height block) with
      | Some previous => Err (CheckpointOutOfOrder previous (bc_height block))
      | None =>
          let leaf_count := Z.min (Z.of_nat (length (bc_leaves block))) u64_max in
          if (length (bc_leaves block) =? 0)%nat then
            validate_blocks expected_next_position (Some (bc_height block)) blocks
          else
            let declared_next_index := saturating_add_u64 (bc_start_index block) leaf_count in
            if TREE_CAPACITY <? declared_next_index then
              Err (TreeCapacityExceeded (bc_height block) declared_next_index TREE_CAPACITY)
            else if negb (bc_start_index block =? expected_next_position) then
              Err (StartIndexMismatch (bc_height block) expected_next_position (bc_start_index block))
            else
              let requested_next_index := saturating_add_u64 expected_next_position leaf_count in
              if TREE_CAPACITY <? requested_next_index then
                Err (TreeCapacityExceeded (bc_height block) requested_next_index TREE_CAPACITY)
              else validate_blocks requested_next_index (Some (bc_height block)) blocks
      end
  end.

Definition validate_page (c : TreeClient) (page : BlockCommitmentsPage) : result unit SyncError :=
  validate_blocks (tc_next_position c) (tc_last_synced_height c) (pg_blocks page).

(** ** Applying a page *)
Fixpoint apply_leaves (height : Z) (leaves : list Fp) (c : TreeClient)
    : result unit SyncError * TreeClient :=
  match leaves with
  | [] => (Ok tt, c)
  | leaf :: leaves =>
      let retention :=
        if bool_decide (tc_next_position c ∈ tc_marked_positions c) then Marked else Ephemeral in
      match sht_append (tc_inner c) leaf retention with
      | (Err source, inner) =>
          (Err match source with
               | TreeFull =>
                   TreeCapacityExceeded height (saturating_add_u64 (tc_next_position c) 1) TREE_CAPACITY
               | source => TreeUpdate height (lit "append") source
               end,
           mk_client inner (tc_next_position c) (tc_last_synced_height c) (tc_marked_positions c))
      | (Ok _, inner) =>
          apply_leaves height leaves
            (mk_client inner (tc_next_position c + 1) (tc_last_synced_height c) (tc_marked_positions c))
      end
  end.

Definition apply_block (block : BlockCommitments) (c : TreeClient) : result unit SyncError * TreeClient :=
  let height := bc_height block in
  if negb (length (bc_leaves block) =? 0)%nat && negb (bc_start_index block =? tc_next_position c) then
    (Err (StartIndexMismatch height (tc_next_position c) (bc_start_index block)), c)
  else
    match apply_leaves height (bc_leaves block) c with
    | (Err e, c) => (Err e, c)
    | (Ok _, c) =>
        match sht_checkpoint (tc_inner c) height with
        | (Err source, inner) =>
            (Err (TreeUpdate height (lit "checkpoint") source),
             mk_client inner (tc_next_position c) (tc_last_synced_height c) (tc_marked_positions c))
        | (Ok false, inner) =>
            (Err (CheckpointOutOfOrder (default height (tc_last_synced_height c)) height),
             mk_client inner (tc_next_position c) (tc_last_synced_height c) (tc_marked_positions c))
        | (Ok true, inner) =>
            let c := mk_client inner (tc_next_position c) (Some height) (tc_marked_positions c) in
            let local := client_root_at_height c height in
            if bool_decide (local = Some (bc_root block)) then (Ok tt, c)
            else (Err (RootMismatch height local (bc_root block)), c)
        end
    end.

Fixpoint apply_blocks (blocks : list BlockCommitments) (c : TreeClient) : result unit SyncError * TreeClient :=
  match blocks with
  | [] => (Ok tt, c)
  | block :: blocks =>
      match apply_block block c with
      | (Err e, c) => (Err e, c)
      | (Ok _, c) => apply_blocks blocks c
      end
  end.

(** ** The interface of a server

    The first call asks for the tree's state, the [n]-th further one for a
    page. [sa_elapsed n] is the time since the start at the [n]-th check. *)
Record SyncApi := mk_api {
  sa_state : result SyncTreeState A;
  sa_page : nat -> Z -> Z -> result BlockCommitmentsPage A;
  sa_elapsed : nat -> Z
}.

Section sync.
Context (api : SyncApi) (limits : SyncLimits).

Definition check_sync_duration (n : nat) : result unit SyncError :=
  if max_duration limits <? sa_elapsed api n then Err (TimeLimitExceeded (max_duration limits)) else Ok tt.

(** The loop over pages; [remaining] pages may still be fetched. *)
Fixpoint sync_pages (remaining n : nat) (to_height page_from : Z) (c : TreeClient)
    : result unit SyncError * TreeClient :=
  match check_sync_duration (2 * n + 1) with
  | Err e => (Err e, c)
  | Ok _ =>
      match remaining with
      | O => (Err (PageLimitExceeded (max_pages limits)), c)
      | S remaining =>
          match sa_page api n page_from to_height with
          | Err e => (Err (SyncApiError e), c)
          | Ok page =>
              match (let? _ := check_sync_duration (2 * n + 2) in validate_page c page) with
              | Err e => (Err e, c)
              | Ok _ =>
                  match apply_blocks (pg_blocks page) c with
                  | (Err e, c) => (Err e, c)
                  | (Ok _, c) =>
                      let next := pg_next_from_height page in
                      if next =? 0 then (Ok tt, c)
                      else if (next <=? page_from) || (to_height <? next) then
                        (Err (InvalidPagination page_from next), c)
                      else sync_pages remaining (S n) to_height next c
                  end
              end
          end
      end
  end.

Definition check_tip (state : SyncTreeState) (c : TreeClient) : result unit SyncError :=
  if (0 <? sy_next_index state) && negb (bool_decide (client_root c = sy_root state)) then
    Err (RootMismatch (sy_height state) (Some (client_root c)) (sy_root state))
  else Ok tt.

(** Heights of blocks stay below [u32::MAX], so that one more is a [u32]. *)
Definition from_height (c : TreeClient) : Z :=
  match tc_last_synced_height c with
  | Some h => h + 1
  | None => 0
  end.

Definition sync_with_limits (c : TreeClient) : result unit SyncError * TreeClient :=
  match sa_state api with
  | Err e => (Err (SyncApiError e), c)
  | Ok state =>
      match check_sync_duration 0 with
      | Err e => (Err e, c)
      | Ok _ =>
          if TREE_CAPACITY <? sy_next_index state then
            (Err (TreeCapacityExceeded (sy_height state) (sy_next_index state) TREE_CAPACITY), c)
          else if sy_next_index state =? tc_next_position c then (check_tip state c, c)
          else if sy_height state <? from_height c then (Ok tt, c)
          else
            match sync_pages (max_pages limits) 0 (sy_height state) (from_height c) c with
            | (Err e, c) => (Err e, c)
            | (Ok _, c) =>
                if negb (tc_next_position c =? sy_next_index state) then
                  (Err (IncompleteSync (tc_next_position c) (sy_next_index state)), c)
                else (check_tip state c, c)
            end
      end
  end.
End sync.
End client.
Arguments SyncError {_} A.
Arguments TreeClient T : clear implicits.
Arguments SyncApi {_} A.
