(* ===== verification/TreeSyncProofs.v ===== *)
(** * Following the tree: clients and servers

    What a client of the vote commitment tree may rely on. Whatever a server
    answers, a client that reports success holds exactly the leaves under the
    root the server announced, up to a hash collision; a client of an honest
    server always gets there, and its witnesses lead to the server's root. *)

From stdpp Require Import base gmap strings list numbers sorting.
From Stdlib Require Import ZifyBool.
From S2P Require Import Prelude Ordered Outcome Record MerkleTree TreeSerde KvStore KvStoreProofs TreeServer TreeClient.
Local Open Scope Z_scope.
Local Open Scope voting_scope.

Section trees.
Context `{PallasHash} {T : Type} `{!ShardTree T Empty_set} `{!MemoryTree T}.

(** ** A tree and its latest checkpoint

    [covered] is the number of leaves at the checkpoint [latest]. *)
Record tree_ok (t : T) (latest : option Z) (covered : nat) : Prop := {
  to_capacity : Z.of_nat (length (leaves_of t)) <= TREE_CAPACITY;
  to_covered : (covered <= length (leaves_of t))%nat;
  to_sorted : StronglySorted Z.lt (map fst (checkpoints_of t));
  to_latest : last (checkpoints_of t) = (fun h => (h, covered)) <$> latest;
  to_none : latest = None -> covered = 0%nat
}.

Lemma tree_ok_empty : tree_ok sht_empty None 0.
Proof. destruct empty_views as (E1 & E2 & E3). split; rewrite ?E1, ?E3; cbn; done || constructor. Qed.

Lemma append_ok t latest covered x r :
  tree_ok t latest covered -> Z.of_nat (length (leaves_of t)) < TREE_CAPACITY ->
  exists t', sht_append t x r = (Ok tt, t') /\ tree_ok t' latest covered
    /\ leaves_of t' = leaves_of t ++ [x]
    /\ marks_of t' = marks_of t ++ match r with Marked => [Z.of_nat (length (leaves_of t))] | Ephemeral => [] end.
Proof.
  intros [C1 C2 C3 C4 C5] Hc. pose proof (mem_append t x r Hc) as Ha.
  destruct (sht_append t x r) as [o t'] eqn:E. cbn in Ha. subst o. exists t'.
  destruct (sht_append_ok _ _ _ _ E) as (_ & L & K & M). split; [done|]. split; [|done].
  split; rewrite ?L, ?K, ?length_app; cbn; [lia|lia|done..].
Qed.

Lemma last_checkpoint_bound t latest covered height :
  tree_ok t latest covered -> not_after latest height = None -> Forall (fun c => c.1 < height) (checkpoints_of t).
Proof.
  intros [_ _ Hs Hl _] Hn. destruct latest as [h|]; cbn in Hl.
  - cbn in Hn. destruct (height <=? h) eqn:Eh; [done|]. apply last_Some in Hl as [l El]. rewrite El in *.
    apply list.Forall_forall. intros c Hc. apply elem_of_app in Hc as [Hc|Hc].
    + rewrite map_app in Hs. cbn in Hs. assert (c.1 < h); [|lia].
      clear -Hs Hc. induction l as [|a l IH]; [by apply elem_of_nil in Hc|]. cbn in Hs. inversion_clear Hs as [|? ? Hs' Ha].
      apply elem_of_cons in Hc as [->|Hc]; [|by apply IH]. rewrite list.Forall_forall in Ha. apply Ha, elem_of_app. right. by left.
    + apply list_elem_of_singleton in Hc as ->. cbn. lia.
  - apply last_None in Hl. rewrite Hl. constructor.
Qed.

Lemma last_drop {A} k (l : list A) : (k < length l)%nat -> last (drop k l) = last l.
Proof.
  revert k. induction l as [|a l IH]; intros [|k] Hk; try done. cbn in Hk.
  cbn [drop skipn]. rewrite IH by lia. by destruct l; [cbn in Hk; lia|].
Qed.

Lemma sorted_drop {V} k (l : list (Z * V)) : StronglySorted Z.lt (map fst l) -> StronglySorted Z.lt (map fst (drop k l)).
Proof.
  revert k. induction l as [|a l IH]; intros [|k] Hs; try done. cbn in Hs. inversion_clear Hs. cbn. by apply IH.
Qed.

Lemma sorted_snoc l x : StronglySorted Z.lt l -> Forall (fun y => y < x) l -> StronglySorted Z.lt (l ++ [x]).
Proof.
  induction l as [|a l IH]; intros Hs Hf; cbn; [by repeat constructor|]. inversion_clear Hs as [|? ? Hs' Ha].
  apply Forall_cons in Hf as [Hax Hf]. constructor; [by apply IH|]. apply Forall_app. split; [done|by constructor].
Qed.

Lemma checkpoint_ok t latest covered height :
  tree_ok t latest covered -> not_after latest height = None ->
  exists t', sht_checkpoint t height = (Ok true, t') /\ tree_ok t' (Some height) (length (leaves_of t))
    /\ leaves_of t' = leaves_of t /\ marks_of t' = marks_of t.
Proof.
  intros Hok Hn. pose proof (last_checkpoint_bound _ _ _ _ Hok Hn) as Hb. destruct Hok as [C1 C2 C3 C4 C5].
  pose proof (mem_checkpoint t height) as Hm. destruct (sht_checkpoint t height) as [[b|e] t'] eqn:E; [|done].
  destruct (sht_checkpoint_ok _ _ _ _ E) as (L & M & B & K). assert (b = true) as -> by (by apply B).
  exists t'. split; [done|]. split; [|done]. cbv zeta in K.
  split; rewrite ?L, ?K; try done.
  - apply sorted_drop. rewrite map_app. apply sorted_snoc; [done|]. by apply Forall_map.
  - rewrite last_drop, last_snoc; [done|]. rewrite length_app. cbn [length]. unfold MAX_CHECKPOINTS. lia.
Qed.

Lemma last_get (l : list (Z * nat)) h n : StronglySorted Z.lt (map fst l) -> last l = Some (h, n) -> bt_get h l = Some n.
Proof. intros Hs Hl. apply bt_get_intro; [by apply sorted_nodup|]. by apply last_Some_elem_of. Qed.

Lemma latest_get t h covered : tree_ok t (Some h) covered -> bt_get h (checkpoints_of t) = Some covered.
Proof. intros [_ _ Hs Hl _]. by apply last_get. Qed.

(** The root at a checkpoint, and at the latest one. *)
Lemma root_at t id : ok_flatten (sht_root_at t id)
  = (fun n => merkle_root (take n (leaves_of t))) <$> bt_get id (checkpoints_of t).
Proof.
  pose proof (mem_root t id) as Hm. destruct (sht_root_at t id) as [o|e] eqn:E; [|done]. cbn. by apply sht_root_ok.
Qed.

Lemma latest_root t latest covered :
  tree_ok t latest covered ->
  match latest with
  | Some id => default (empty_root DEPTH) (ok_flatten (sht_root_at t id))
  | None => empty_root DEPTH
  end = merkle_root (take covered (leaves_of t)).
Proof.
  intros Hok. destruct latest as [h|].
  - by rewrite root_at, (latest_get _ _ _ Hok).
  - rewrite (to_none _ _ _ Hok eq_refl). cbn [take]. by rewrite take_0, merkle_root_empty.
Qed.

(** A witness leads from its leaf to the root of its checkpoint. *)
Lemma capacity_pow : Z.of_nat (2 ^ DEPTH) = TREE_CAPACITY.
Proof. rewrite Nat2Z.inj_pow. done. Qed.

Lemma witness_verifies t latest covered pos id p x n :
  tree_ok t latest covered -> ok_flatten (sht_witness_at t pos id) = Some p ->
  bt_get id (checkpoints_of t) = Some n -> leaves_of t !! Z.to_nat pos = Some x ->
  verify (path_of_witness p) x (merkle_root (take n (leaves_of t))) = true /\ mp_position (path_of_witness p) = pos.
Proof.
  intros Hok E Hn Hx. destruct (sht_witness_at t pos id) as [o|e] eqn:Ew; [|done]. cbn in E. subst o.
  destruct (sht_witness_ok _ _ _ _ Ew) as (n' & Hn' & Hpos & ->). rewrite Hn in Hn'. injection Hn' as <-.
  pose proof (lookup_lt_Some _ _ _ Hx) as Hlt. pose proof (to_capacity _ _ _ Hok) as Hcap.
  change TREE_CAPACITY with (2 ^ 24) in Hcap.
  assert (Hmod : pos mod 2 ^ 32 = pos) by (apply Z.mod_small; lia).
  unfold path_of_witness. cbn [fst snd mp_position]. rewrite Hmod. split; [|done].
  apply bool_decide_eq_true.
  assert (Hd : node_at 0 (take n (leaves_of t)) (Z.to_nat pos) = x).
  { unfold node_at. rewrite lookup_take_lt by lia. by rewrite Hx. }
  rewrite <- Hd. rewrite <- (merkle_path_root (take n (leaves_of t)) (Z.to_nat pos)).
  - unfold path_root, merkle_path. cbn [mp_position mp_auth_path]. by rewrite Z2Nat.id by lia.
  - apply Nat2Z.inj_lt. rewrite capacity_pow. change TREE_CAPACITY with (2 ^ 24). lia.
Qed.
End trees.

(** ** The client *)
Section clients.
Context `{PallasHash} {T : Type} `{!ShardTree T Empty_set} `{!MemoryTree T} {A : Type}.
Notation client := (TreeClient T).
Notation client_leaves c := (leaves_of (tc_inner c)).

Record client_ok (c : client) : Prop := {
  cl_tree : tree_ok (tc_inner c) (tc_last_synced_height c) (length (client_leaves c));
  cl_next : tc_next_position c = Z.of_nat (length (client_leaves c))
}.

(** Every position that was marked in time is marked in the tree. *)
Definition client_marked (c : client) : Prop :=
  forall pos, pos ∈ tc_marked_positions c -> 0 <= pos < tc_next_position c -> pos ∈ marks_of (tc_inner c).

Lemma client_ok_empty : client_ok client_empty /\ client_marked client_empty.
Proof.
  destruct empty_views as (E1 & _). split; [|by intros pos ?%elem_of_nil].
  split; cbn; rewrite E1; [apply tree_ok_empty|done].
Qed.

Lemma client_root_ok c : client_ok c -> client_root c = merkle_root (client_leaves c).
Proof.
  intros [Ht _]. unfold client_root, client_root_at_height. rewrite (latest_root _ _ _ Ht).
  by rewrite take_ge.
Qed.

Lemma apply_leaves_ok height ls : forall (c : client) covered,
  tree_ok (tc_inner c) (tc_last_synced_height c) covered ->
  tc_next_position c = Z.of_nat (length (client_leaves c)) -> client_marked c ->
  Z.of_nat (length (client_leaves c) + length ls) <= TREE_CAPACITY ->
  exists c', apply_leaves (A := A) height ls c = (Ok tt, c')
    /\ tree_ok (tc_inner c') (tc_last_synced_height c) covered
    /\ tc_next_position c' = Z.of_nat (length (client_leaves c')) /\ client_marked c'
    /\ client_leaves c' = client_leaves c ++ ls
    /\ tc_last_synced_height c' = tc_last_synced_height c /\ tc_marked_positions c' = tc_marked_positions c.
Proof.
  induction ls as [|x ls IH]; intros c covered Ht Hn Hm Hcap.
  { exists c. cbn. rewrite app_nil_r. split_and!; done. }
  cbn [apply_leaves]. cbn [length] in Hcap.
  set (r := if bool_decide (tc_next_position c ∈ tc_marked_positions c) then Marked else Ephemeral).
  destruct (append_ok _ _ _ x r Ht ltac:(lia)) as (t' & E & Ht' & HL & HM). rewrite E.
  set (c1 := mk_client t' (tc_next_position c + 1) (tc_last_synced_height c) (tc_marked_positions c)).
  destruct (IH c1 covered) as (c' & E' & T' & N' & M' & L' & Q1 & Q2).
  - exact Ht'.
  - cbn. rewrite Hn, HL, length_app. cbn. lia.
  - intros pos Hp Hlt. cbn in *. rewrite HM, <- Hn. apply elem_of_app.
    destruct (decide (pos = tc_next_position c)) as [->|]; [right|left; apply Hm; [done|lia]].
    unfold r. rewrite bool_decide_true by done. by apply list_elem_of_singleton.
  - cbn. rewrite HL, length_app. cbn. lia.
  - exists c'. split_and!; try done. cbn in L'. by rewrite L', HL, <- app_assoc.
Qed.

(** A block that fits behind the client's leaves. *)
Record block_fits (c : client) (b : BlockCommitments) : Prop := {
  bf_after : not_after (tc_last_synced_height c) (bc_height b) = None;
  bf_start : bc_leaves b <> [] -> bc_start_index b = tc_next_position c;
  bf_room : Z.of_nat (length (client_leaves c) + length (bc_leaves b)) <= TREE_CAPACITY
}.

Lemma apply_block_ok c b :
  client_ok c -> client_marked c -> block_fits c b ->
  exists c', client_ok c' /\ client_marked c' /\ client_leaves c' = client_leaves c ++ bc_leaves b
    /\ tc_last_synced_height c' = Some (bc_height b) /\ tc_marked_positions c' = tc_marked_positions c
    /\ apply_block (A := A) b c
       = (if bool_decide (merkle_root (client_leaves c') = bc_root b) then Ok tt
          else Err (RootMismatch (bc_height b) (Some (merkle_root (client_leaves c'))) (bc_root b)), c').
Proof.
  intros [Ht Hn] Hm [F1 F2 F3]. unfold apply_block.
  replace (negb (length (bc_leaves b) =? 0)%nat && negb (bc_start_index b =? tc_next_position c)) with false.
  2: { destruct (bc_leaves b); [done|]. rewrite F2 by done. by rewrite Z.eqb_refl, andb_false_r. }
  destruct (apply_leaves_ok (bc_height b) (bc_leaves b) c _ Ht Hn Hm F3) as (c1 & E1 & T1 & N1 & M1 & L1 & Q1 & Q2).
  rewrite E1. destruct (checkpoint_ok _ _ _ (bc_height b) T1 F1) as (t' & E2 & T2 & L2 & K2). rewrite E2.
  set (c' := mk_client t' (tc_next_position c1) (Some (bc_height b)) (tc_marked_positions c1)).
  assert (Hok : client_ok c') by (split; cbn; rewrite L2; done).
  exists c'. split; [exact Hok|].
  split; [intros pos Hp Hlt; cbn in *; rewrite K2; by apply M1|].
  cbn [c' tc_inner tc_last_synced_height tc_marked_positions]. rewrite L2, L1. split_and!; try done.
  assert (Hroot : client_root_at_height c' (bc_height b) = Some (merkle_root (client_leaves c ++ bc_leaves b))).
  { unfold client_root_at_height. cbn. rewrite root_at, (latest_get _ _ _ T2). cbn. by rewrite L2, L1, take_ge. }
  fold c'. rewrite Hroot. repeat case_bool_decide; congruence.
Qed.

Lemma validate_cons next last b blocks :
  validate_blocks (A := A) next last (b :: blocks) = Ok tt ->
  not_after last (bc_height b) = None /\ (bc_leaves b <> [] -> bc_start_index b = next)
  /\ (0 <= next <= TREE_CAPACITY -> next + Z.of_nat (length (bc_leaves b)) <= TREE_CAPACITY
      /\ validate_blocks (A := A) (next + Z.of_nat (length (bc_leaves b))) (Some (bc_height b)) blocks = Ok tt).
Proof.
  cbn [validate_blocks]. destruct (not_after last (bc_height b)); [done|].
  destruct (length (bc_leaves b) =? 0)%nat eqn:E0.
  { apply Nat.eqb_eq in E0. rewrite E0. destruct (bc_leaves b); [|done]. intros Hv. split_and!; try done.
    intros Hn. rewrite Z.add_0_r. split; [lia|done]. }
  unfold saturating_add_u64. destruct (TREE_CAPACITY <? _) eqn:E1; [done|].
  destruct (negb (bc_start_index b =? next)) eqn:E2; [done|]. destruct (TREE_CAPACITY <? _) eqn:E3 in |- *; [done|].
  change TREE_CAPACITY with (2 ^ 24) in *. unfold u64_max in *. intros Hv. split_and!; [done|lia|]. intros Hn.
  replace (Z.min (next + Z.min (Z.of_nat (length (bc_leaves b))) 18446744073709551615) 18446744073709551615)
    with (next + Z.of_nat (length (bc_leaves b))) in Hv by lia. split; [lia|done].
Qed.

Definition block_leaves (blocks : list BlockCommitments) : list Fp := concat (map bc_leaves blocks).

(** The blocks of a page that was checked are applied up to the first one whose
    root is wrong. *)
Lemma apply_blocks_ok blocks : forall (c : client) r c',
  client_ok c -> client_marked c ->
  validate_blocks (A := A) (tc_next_position c) (tc_last_synced_height c) blocks = Ok tt ->
  apply_blocks (A := A) blocks c = (r, c') ->
  client_ok c' /\ client_marked c' /\ tc_marked_positions c' = tc_marked_positions c
  /\ exists applied rest, blocks = applied ++ rest /\ client_leaves c' = client_leaves c ++ block_leaves applied
     /\ tc_last_synced_height c' = default (tc_last_synced_height c) (Some <$> (bc_height <$> last applied))
     /\ (r = Ok tt -> rest = []).
Proof.
  induction blocks as [|b blocks IH]; intros c r c' Hok Hm Hv E.
  { cbn in E. injection E as <- <-. split_and!; try done. exists [], []. cbn. by rewrite app_nil_r. }
  destruct (validate_cons _ _ _ _ Hv) as (V1 & V2 & V3).
  pose proof (cl_next _ Hok) as Hn. pose proof (to_capacity _ _ _ (cl_tree _ Hok)) as Hcap.
  destruct (V3 ltac:(lia)) as [V4 V5].
  destruct (apply_block_ok c b Hok Hm) as (c1 & Hok1 & Hm1 & L1 & Q1 & Q2 & E1); [split; [done|done|lia]|].
  cbn [apply_blocks] in E. rewrite E1 in E. destruct (bool_decide _).
  - destruct (IH c1 r c' Hok1 Hm1) as (R1 & R2 & R3 & ap & rest & -> & L & K & Hr); [|exact E|].
    { rewrite (cl_next _ Hok1), L1, length_app, Q1. by replace (Z.of_nat _) with (tc_next_position c + Z.of_nat (length (bc_leaves b))) by lia. }
    split; [done|]. split; [done|]. split; [by rewrite R3|]. exists (b :: ap), rest. split_and!; [done| |  |done].
    + by rewrite L, L1, <- app_assoc.
    + rewrite K, Q1. destruct (last ap) as [x|] eqn:El; [by rewrite last_cons, El|]. apply last_None in El as ->. done.
  - injection E as <- <-. split_and!; try done. exists [b], blocks. cbn. rewrite app_nil_r. by rewrite Q1.
Qed.
End clients.

Section syncing.
Context `{PallasHash} {T : Type} `{!ShardTree T Empty_set} `{!MemoryTree T} {A : Type}.
Notation client := (TreeClient T).
Notation client_leaves c := (leaves_of (tc_inner c)).
Context (api : SyncApi A) (limits : SyncLimits).

Lemma sync_pages_ok remaining : forall n to_height page_from (c : client) r c',
  client_ok c -> client_marked c -> sync_pages api limits remaining n to_height page_from c = (r, c') ->
  client_ok c' /\ client_marked c' /\ tc_marked_positions c' = tc_marked_positions c
  /\ exists new, client_leaves c' = client_leaves c ++ new.
Proof.
  assert (Stay : forall (c : client), client_ok c -> client_marked c ->
    client_ok c /\ client_marked c /\ tc_marked_positions c = tc_marked_positions c
    /\ exists new, client_leaves c = client_leaves c ++ new)
    by (intros c Hc Hm; split_and!; try done; exists []; by rewrite app_nil_r).
  induction remaining as [|remaining IH]; intros n to_height page_from c r c' Hok Hm E; cbn [sync_pages] in E;
    (destruct (check_sync_duration api limits (2 * n + 1)); [|injection E as <- <-; by apply Stay]);
    [injection E as <- <-; by apply Stay|].
  destruct (sa_page api n page_from to_height) as [page|e]; [|injection E as <- <-; by apply Stay].
  destruct (check_sync_duration api limits (2 * n + 2)); [|injection E as <- <-; by apply Stay].
  destruct (validate_page c page) as [[]|e] eqn:Ev; [|injection E as <- <-; by apply Stay].
  destruct (apply_blocks (pg_blocks page) c) as [o c1] eqn:Ea.
  destruct (apply_blocks_ok _ _ _ _ Hok Hm Ev Ea) as (R1 & R2 & R3 & ap & rest & _ & L & _).
  assert (Hc1 : client_ok c1 /\ client_marked c1 /\ tc_marked_positions c1 = tc_marked_positions c
    /\ exists new, client_leaves c1 = client_leaves c ++ new) by (split_and!; try done; by eexists).
  destruct o as [u|e]; [|by injection E as <- <-].
  destruct (pg_next_from_height page =? 0); [by injection E as <- <-|].
  destruct ((pg_next_from_height page <=? page_from) || (to_height <? pg_next_from_height page)); [by injection E as <- <-|].
  destruct (IH _ _ _ _ _ _ R1 R2 E) as (S1 & S2 & S3 & new & S4). split_and!; [done|done|by rewrite S3|].
  exists (block_leaves ap ++ new). by rewrite S4, L, <- app_assoc.
Qed.

Lemma check_tip_ok state (c : client) :
  client_ok c -> tc_next_position c = sy_next_index state -> check_tip (A := A) state c = Ok tt ->
  forall announced, sy_root state = merkle_root announced -> Z.of_nat (length announced) = sy_next_index state ->
  client_leaves c = announced \/ Collision.
Proof.
  intros Hok Hn E announced Hr Hl. unfold check_tip in E. pose proof (cl_next _ Hok) as Hc.
  pose proof (to_capacity _ _ _ (cl_tree _ Hok)) as Hcap.
  destruct (0 <? sy_next_index state) eqn:E0; cbn in E.
  - case_bool_decide as Er; [|done]. rewrite client_root_ok, Hr in Er by done. apply merkle_root_inj in Er; [done|lia|].
    apply Nat2Z.inj_le. by rewrite capacity_pow.
  - left. rewrite (nil_length_inv announced) by lia. apply nil_length_inv. lia.
Qed.

Lemma sync_ok (c : client) r c' :
  client_ok c -> client_marked c -> sync_with_limits api limits c = (r, c') ->
  client_ok c' /\ client_marked c' /\ tc_marked_positions c' = tc_marked_positions c
  /\ (exists new, client_leaves c' = client_leaves c ++ new)
  /\ (r = Ok tt -> exists state, sa_state api = Ok state
      /\ ((tc_next_position c' = sy_next_index state /\ check_tip (A := A) state c' = Ok tt)
          \/ (c' = c /\ sy_next_index state <> tc_next_position c /\ sy_height state < from_height c))).
Proof.
  intros Hok Hm E. unfold sync_with_limits in E.
  assert (Stay : client_ok c /\ client_marked c /\ tc_marked_positions c = tc_marked_positions c
    /\ exists new, client_leaves c = client_leaves c ++ new) by (split_and!; try done; exists []; by rewrite app_nil_r).
  destruct Stay as (S1 & S2 & S3 & S4).
  destruct (sa_state api) as [state|e]; [|injection E as <- <-; split_and!; done].
  destruct (check_sync_duration api limits 0); [|injection E as <- <-; split_and!; done].
  destruct (TREE_CAPACITY <? sy_next_index state); [injection E as <- <-; split_and!; done|].
  destruct (sy_next_index state =? tc_next_position c) eqn:En.
  { injection E as Er <-. split_and!; try done. intros ->. exists state. split; [done|]. left. split; [lia|done]. }
  destruct (sy_height state <? from_height c) eqn:Eh.
  { injection E as <- <-. split_and!; try done. intros _. exists state. split; [done|]. right. split_and!; [done|lia|lia]. }
  destruct (sync_pages _ _ _ _ _ _ c) as [o c1] eqn:Ep.
  destruct (sync_pages_ok _ _ _ _ _ _ _ Hok Hm Ep) as (P1 & P2 & P3 & P4).
  destruct o as [u|e]; [|injection E as <- <-; split_and!; done].
  destruct (negb (tc_next_position c1 =? sy_next_index state)) eqn:Et; [injection E as <- <-; split_and!; done|].
  injection E as Er <-. split_and!; try done. intros ->. exists state. split; [done|]. left. split; [lia|done].
Qed.

End syncing.

(** ** The server *)
Section servers.
Context `{PallasHash} {T : Type} `{!ShardTree T Empty_set} `{!MemoryTree T}.
Notation server := (SyncableServer T).
Notation server_leaves s := (leaves_of (gs_inner (ss_tree s))).

(** Blocks that follow each other from the leaves [before] on. *)
Fixpoint chained (before : list Fp) (blocks : list BlockCommitments) : Prop :=
  match blocks with
  | [] => True
  | b :: blocks =>
      bc_start_index b = Z.of_nat (length before)
      /\ bc_root b = merkle_root (before ++ bc_leaves b)
      /\ chained (before ++ bc_leaves b) blocks
  end.

Lemma chained_app before bs bs' :
  chained before (bs ++ bs') <-> chained before bs /\ chained (before ++ block_leaves bs) bs'.
Proof.
  revert before. induction bs as [|b bs IH]; intros before; cbn; [by rewrite app_nil_r; tauto|].
  rewrite IH. unfold block_leaves. cbn. rewrite app_assoc. tauto.
Qed.

Lemma block_leaves_app bs bs' : block_leaves (bs ++ bs') = block_leaves bs ++ block_leaves bs'.
Proof. unfold block_leaves. by rewrite map_app, concat_app. Qed.

Notation blocks_of s := (map snd (ss_blocks s)).

Record server_ok (s : server) : Prop := {
  sv_tree : tree_ok (gs_inner (ss_tree s)) (gs_latest_checkpoint (ss_tree s)) (length (block_leaves (blocks_of s)));
  sv_next : gs_next_position (ss_tree s) = Z.of_nat (length (server_leaves s));
  sv_leaves : server_leaves s = block_leaves (blocks_of s) ++ ss_pending_leaves s;
  sv_start : ss_pending_start s = Z.of_nat (length (block_leaves (blocks_of s)));
  sv_marks : forall pos, 0 <= pos < gs_next_position (ss_tree s) -> pos ∈ marks_of (gs_inner (ss_tree s));
  sv_latest : gs_latest_checkpoint (ss_tree s) = fst <$> last (ss_blocks s);
  sv_sorted : StronglySorted Z.lt (map fst (ss_blocks s));
  sv_chain : chained [] (blocks_of s);
  sv_heights : Forall (fun e => bc_height e.2 = e.1 /\ 0 <= e.1) (ss_blocks s)
}.

(** A server's history: leaves, pairs of leaves, and checkpoints at heights. *)
Inductive server_step (s : server) : server -> Prop :=
| step_append leaf : server_step s (ss_append s leaf).2
| step_append_two first second : server_step s (ss_append_two s first second).2
| step_checkpoint height : 0 <= height -> server_step s (ss_checkpoint s height).2.

Definition server_reachable : server -> Prop := rtc server_step syncable_empty.

(** What came before stays. *)
Definition extends (s s' : server) : Prop :=
  (exists bs, ss_blocks s' = ss_blocks s ++ bs) /\ exists ls, server_leaves s' = server_leaves s ++ ls.

Lemma extends_refl s : extends s s.
Proof. split; exists []; by rewrite app_nil_r. Qed.

Lemma extends_trans s1 s2 s3 : extends s1 s2 -> extends s2 s3 -> extends s1 s3.
Proof.
  intros [[b1 B1] [l1 L1]] [[b2 B2] [l2 L2]]. split.
  - exists (b1 ++ b2). by rewrite B2, B1, app_assoc.
  - exists (l1 ++ l2). by rewrite L2, L1, app_assoc.
Qed.

Lemma server_ok_empty : server_ok syncable_empty.
Proof.
  destruct empty_views as (E1 & _). split; cbn; rewrite ?E1; try done; first [apply tree_ok_empty | intros; lia | constructor].
Qed.

Lemma ss_append_ok s leaf : server_ok s -> server_ok (ss_append s leaf).2 /\ extends s (ss_append s leaf).2.
Proof.
  intros [V1 V2 V3 V4 V5 V6 V7 V8 V9]. unfold ss_append, append.
  destruct (Z.lt_ge_cases (Z.of_nat (length (server_leaves s))) TREE_CAPACITY) as [Hlt|Hge].
  - destruct (append_ok _ _ _ leaf Marked V1 Hlt) as (t' & E & Ht & L & M). rewrite E. cbn. split.
    + split; cbn; rewrite ?L; try done.
      * rewrite V2, length_app. cbn. lia.
      * by rewrite V3, <- app_assoc.
      * intros pos Hp. rewrite M. apply elem_of_app. rewrite V2 in *.
        destruct (decide (pos = Z.of_nat (length (server_leaves s)))) as [->|].
        -- right. by apply list_elem_of_singleton.
        -- left. apply V5. lia.
    + split; cbn; [exists []; by rewrite app_nil_r|by exists [leaf]].
  - destruct (sht_append (gs_inner (ss_tree s)) leaf Marked) as [[[]|e] t'] eqn:E.
    { destruct (sht_append_ok _ _ _ _ E) as (L & _). lia. }
    destruct (mem_append_full _ _ _ _ _ E) as (_ & _ & L & M & K). cbn. split.
    + split; cbn; rewrite ?L, ?M; try done. destruct V1 as [C1 C2 C3 C4 C5]. by split; rewrite ?L, ?K.
    + split; exists []; cbn; by rewrite app_nil_r.
Qed.

Lemma ss_append_two_ok s first second :
  server_ok s -> server_ok (ss_append_two s first second).2 /\ extends s (ss_append_two s first second).2.
Proof.
  intros Hs. unfold ss_append_two. destruct (ss_append s first) as [o s1] eqn:E1.
  pose proof (ss_append_ok s first Hs) as [H1 X1]. rewrite E1 in H1, X1. cbn in H1, X1. destruct o as [i|e]; [|done].
  pose proof (ss_append_ok s1 second H1) as [H2 X2]. destruct (ss_append s1 second) as [[j|e] s2]; cbn in *;
    (split; [done|by eapply extends_trans]).
Qed.

Lemma zmap_insert_snoc {V} (l : list (Z * V)) k v :
  Forall (fun e => e.1 < k) l -> zmap_insert k v l = l ++ [(k, v)].
Proof.
  induction l as [|[j x] l IH]; intros Hf; [done|]. apply Forall_cons in Hf as [Hj Hf]. cbn in *.
  replace (k <? j) with false by lia. replace (k =? j) with false by lia. by rewrite IH.
Qed.

Lemma heights_below s height :
  server_ok s -> not_after (gs_latest_checkpoint (ss_tree s)) height = None -> Forall (fun e => e.1 < height) (ss_blocks s).
Proof.
  intros [_ _ _ _ _ V6 V7 _ _] Hn. rewrite V6 in Hn. destruct (last (ss_blocks s)) as [[h b]|] eqn:El; cbn in Hn.
  - destruct (height <=? h) eqn:Eh; [done|]. apply last_Some in El as [l El]. rewrite El in *.
    rewrite map_app in V7. apply list.Forall_forall. intros e He.
    assert (e.1 <= h); [|lia]. apply elem_of_app in He as [He|He].
    + clear -V7 He. induction l as [|a l IH]; [by apply elem_of_nil in He|]. cbn in V7. inversion_clear V7 as [|? ? V7' Ha].
      apply elem_of_cons in He as [->|He]; [|by apply IH]. rewrite list.Forall_forall in Ha.
      assert (a.1 < h); [|lia]. apply Ha, elem_of_app. right. by left.
    + by apply list_elem_of_singleton in He as ->.
  - apply last_None in El. rewrite El. constructor.
Qed.

Lemma ss_checkpoint_ok s height :
  0 <= height -> server_ok s -> server_ok (ss_checkpoint s height).2 /\ extends s (ss_checkpoint s height).2.
Proof.
  intros Hh Hs. unfold ss_checkpoint, checkpoint.
  destruct (not_after (gs_latest_checkpoint (ss_tree s)) height) as [prev|] eqn:En.
  { cbn. split; [by destruct s, Hs; split|by split; exists []; cbn; rewrite app_nil_r]. }
  pose proof (heights_below s height Hs En) as Hb. destruct Hs as [V1 V2 V3 V4 V5 V6 V7 V8 V9].
  destruct (checkpoint_ok _ _ _ height V1 En) as (t' & E & Ht & L & M). rewrite E. cbn.
  rewrite zmap_insert_snoc by done.
  assert (Hroot : root_at_height (mk_server t' (Some height) (gs_next_position (ss_tree s))) height
    = Some (merkle_root (server_leaves s))).
  { unfold root_at_height. cbn. rewrite root_at, (latest_get _ _ _ Ht). cbn. by rewrite L, take_ge. }
  rewrite Hroot. cbn.
  assert (Hall : block_leaves (map snd (ss_blocks s ++ [(height, mk_block_commitments height (ss_pending_start s)
    (ss_pending_leaves s) (merkle_root (server_leaves s)))])) = server_leaves s).
  { rewrite map_app, block_leaves_app, V3. f_equal. unfold block_leaves. cbn. by rewrite app_nil_r. }
  split.
  - split; cbn [ss_tree ss_blocks ss_pending_leaves ss_pending_start gs_inner gs_latest_checkpoint gs_next_position];
      rewrite ?L, ?M, ?Hall; try done.
    + by rewrite app_nil_r.
    + by rewrite last_snoc.
    + rewrite map_app. apply sorted_snoc; [done|]. by apply Forall_map.
    + rewrite map_app, chained_app. split; [done|]. cbn. by rewrite V3.
    + apply Forall_app. split; [done|]. by constructor.
  - split; cbn; [by eexists|]. exists []. by rewrite L, app_nil_r.
Qed.

Lemma server_step_ok s s' : server_ok s -> server_step s s' -> server_ok s' /\ extends s s'.
Proof.
  intros Hs [leaf|first second|height Hh]; [by apply ss_append_ok|by apply ss_append_two_ok|by apply ss_checkpoint_ok].
Qed.

Lemma server_steps_ok s s' : server_ok s -> rtc server_step s s' -> server_ok s' /\ extends s s'.
Proof.
  intros Hs Hr. revert Hs. induction Hr as [s|s1 s2 s3 H12 _ IH]; intros Hs; [split; [done|apply extends_refl]|].
  destruct (server_step_ok _ _ Hs H12) as [H2 X2]. destruct (IH H2) as [H3 X3]. split; [done|by eapply extends_trans].
Qed.
End servers.

(** ** A client of an honest server *)
Section following.
Context `{PallasHash} {T : Type} `{!ShardTree T Empty_set} `{!MemoryTree T}.
Notation server := (SyncableServer T).
Notation client := (TreeClient T).
Notation client_leaves c := (leaves_of (tc_inner c)).
Notation server_leaves s := (leaves_of (gs_inner (ss_tree s))).

(** The client has applied the first blocks of the server. *)
Record follows (c : client) (s : server) : Prop := {
  fo_ok : client_ok c;
  fo_marked : client_marked c;
  fo_split : exists applied rest, ss_blocks s = applied ++ rest
    /\ client_leaves c = block_leaves (map snd applied)
    /\ tc_last_synced_height c = fst <$> last applied
}.

Definition server_api {A : Type} (s : server) (elapsed : nat -> Z) : SyncApi A :=
  mk_api (Ok (get_tree_state s)) (fun _ from to => Ok (get_block_commitments s from to)) elapsed.

Lemma follows_extends c s s' : follows c s -> extends s s' -> follows c s'.
Proof.
  intros [F1 F2 (ap & rest & E & L & Q)] [[bs B] _]. split; try done. exists ap, (rest ++ bs).
  by rewrite B, E, <- app_assoc.
Qed.

(** Heights that follow each other. *)
Fixpoint ascending (previous : option Z) (blocks : list BlockCommitments) : Prop :=
  match blocks with
  | [] => True
  | b :: blocks => not_after previous (bc_height b) = None /\ ascending (Some (bc_height b)) blocks
  end.

Lemma validate_chained {A : Type} blocks : forall before previous,
  chained before blocks -> ascending previous blocks ->
  Z.of_nat (length before + length (block_leaves blocks)) <= TREE_CAPACITY ->
  validate_blocks (A := A) (Z.of_nat (length before)) previous blocks = Ok tt.
Proof.
  induction blocks as [|b blocks IH]; intros before previous Hch Ha Hcap; [done|].
  destruct Hch as (C1 & C2 & C3). destruct Ha as [A1 A2]. unfold block_leaves in Hcap. cbn [map concat] in Hcap. rewrite length_app in Hcap.
  assert (Hrec : validate_blocks (A := A) (Z.of_nat (length before) + Z.of_nat (length (bc_leaves b)))
    (Some (bc_height b)) blocks = Ok tt).
  { rewrite <- Nat2Z.inj_add, <- length_app. apply IH; [done|done|]. rewrite length_app. unfold block_leaves. lia. }
  cbn [validate_blocks]. rewrite A1. destruct (length (bc_leaves b) =? 0)%nat eqn:E0.
  { apply Nat.eqb_eq in E0. rewrite E0, Z.add_0_r in Hrec. done. }
  change TREE_CAPACITY with (2 ^ 24) in *. unfold saturating_add_u64, u64_max. rewrite C1, Z.eqb_refl. cbn [negb].
  replace (Z.min (Z.of_nat (length before) + Z.min (Z.of_nat (length (bc_leaves b))) 18446744073709551615) 18446744073709551615)
    with (Z.of_nat (length before) + Z.of_nat (length (bc_leaves b))) by lia.
  replace (2 ^ 24 <? _) with false by lia. done.
Qed.

Lemma apply_chained {A : Type} blocks : forall (c : client),
  client_ok c -> client_marked c -> chained (client_leaves c) blocks -> ascending (tc_last_synced_height c) blocks ->
  Z.of_nat (length (client_leaves c) + length (block_leaves blocks)) <= TREE_CAPACITY ->
  exists c', apply_blocks (A := A) blocks c = (Ok tt, c') /\ client_ok c' /\ client_marked c'
    /\ client_leaves c' = client_leaves c ++ block_leaves blocks
    /\ tc_marked_positions c' = tc_marked_positions c
    /\ tc_last_synced_height c' = default (tc_last_synced_height c) (Some <$> (bc_height <$> last blocks)).
Proof.
  induction blocks as [|b blocks IH]; intros c Hok Hm Hch Ha Hcap.
  { exists c. cbn. rewrite app_nil_r. by split_and!. }
  destruct Hch as (C1 & C2 & C3). destruct Ha as [A1 A2].
  unfold block_leaves in Hcap. cbn [map concat] in Hcap. rewrite length_app in Hcap.
  destruct (apply_block_ok (A := A) c b Hok Hm) as (c1 & Hok1 & Hm1 & L1 & Q1 & Q2 & E1).
  { split; [done|by rewrite C1, (cl_next _ Hok)|lia]. }
  rewrite L1, <- C2, bool_decide_true in E1 by done.
  destruct (IH c1) as (c' & E' & R1 & R2 & R3 & R4 & R5); [done|done|by rewrite L1|by rewrite Q1|..].
  { rewrite L1, length_app. unfold block_leaves. lia. }
  exists c'. cbn [apply_blocks]. rewrite E1, E'. split_and!; try done.
  - rewrite R3, L1, <- app_assoc. done.
  - by rewrite R4.
  - rewrite R5, Q1. destruct (last blocks) as [x|] eqn:El; [by rewrite last_cons, El|]. by apply last_None in El as ->.
Qed.

Lemma ascending_rest (ap rest : list (Z * BlockCommitments)) :
  StronglySorted Z.lt (map fst (ap ++ rest)) -> Forall (fun e => bc_height e.2 = e.1 /\ 0 <= e.1) (ap ++ rest) ->
  ascending (fst <$> last ap) (map snd rest).
Proof.
  revert ap. induction rest as [|e rest IH]; intros ap Hs Hh; [done|]. cbn [map ascending].
  assert (Heq : bc_height e.2 = e.1) by (rewrite list.Forall_forall in Hh; apply Hh, elem_of_app; right; by left).
  split.
  - rewrite Heq. destruct (last ap) as [[h b]|] eqn:El; [|done]. cbn. apply last_Some in El as [l ->].
    assert (h < e.1); [|by replace (e.1 <=? h) with false by lia].
    clear -Hs. induction l as [|a l IH].
    + cbn in Hs. inversion_clear Hs as [|? ? _ Ha]. rewrite list.Forall_forall in Ha. apply Ha. by left.
    + cbn in Hs. inversion_clear Hs as [|? ? Hs' _]. by apply IH.
  - rewrite Heq. replace (Some e.1) with (fst <$> last (ap ++ [e])) by (by rewrite last_snoc).
    apply IH; by rewrite <- app_assoc.
Qed.

Lemma fetched_blocks (ap rest : list (Z * BlockCommitments)) from to :
  StronglySorted Z.lt (map fst (ap ++ rest)) ->
  Forall (fun e => e.1 < from) ap -> Forall (fun e => from <= e.1 <= to) rest ->
  filter (fun e => from <= e.1 <= to) (ap ++ rest) = rest.
Proof.
  intros _ Ha Hr. rewrite filter_app, filter_none, (filter_all _ rest); [done|done|].
  eapply Forall_impl; [exact Ha|]. cbn. intros; lia.
Qed.

Lemma sorted_last_bound (l : list (Z * BlockCommitments)) h b :
  StronglySorted Z.lt (map fst l) -> last l = Some (h, b) -> Forall (fun e => e.1 <= h) l.
Proof.
  intros Hs Hl. apply last_Some in Hl as [l' ->]. apply Forall_app. split; [|by repeat constructor].
  induction l' as [|a l' IH]; [constructor|]. cbn in Hs. inversion_clear Hs as [|? ? Hs' Ha].
  constructor; [|by apply IH]. rewrite list.Forall_forall in Ha. apply Z.lt_le_incl, Ha.
  rewrite map_app. apply elem_of_app. right. by left.
Qed.

Lemma split_at_client (c : client) (ap rest : list (Z * BlockCommitments)) :
  StronglySorted Z.lt (map fst (ap ++ rest)) -> Forall (fun e => bc_height e.2 = e.1 /\ 0 <= e.1) (ap ++ rest) ->
  tc_last_synced_height c = fst <$> last ap ->
  Forall (fun e => e.1 < from_height c) ap /\ Forall (fun e => from_height c <= e.1) rest.
Proof.
  intros Hs Hh Q. unfold from_height. rewrite Q. destruct (last ap) as [[h b]|] eqn:El; cbn.
  - apply last_Some in El as [l ->]. rewrite <- app_assoc, map_app in Hs. cbn in Hs. split.
    + apply Forall_app. split; [|repeat constructor; cbn; lia]. apply list.Forall_forall. intros e He.
      assert (e.1 < h); [|lia]. clear -Hs He. induction l as [|a l IH]; [by apply elem_of_nil in He|]. cbn in Hs.
      inversion_clear Hs as [|? ? Hs' Ha]. apply elem_of_cons in He as [->|He]; [|by apply IH].
      rewrite list.Forall_forall in Ha. apply Ha, elem_of_app. right. by left.
    + clear Hh Q. induction l as [|a l IH]; cbn in Hs; inversion_clear Hs as [|? ? Hs' Ha]; [|by apply IH].
      apply list.Forall_forall. intros e He. rewrite list.Forall_forall in Ha.
      specialize (Ha e.1 (list_elem_of_fmap_2 fst _ _ He)). lia.
  - apply last_None in El as ->. split; [constructor|]. eapply Forall_impl; [exact Hh|]. cbn. intros e [_ He]. done.
Qed.

Lemma server_root_ok s : server_ok s -> ss_pending_leaves s = [] -> root (ss_tree s) = merkle_root (server_leaves s).
Proof.
  intros Hs Hp. unfold root, root_at_height. rewrite (latest_root _ _ _ (sv_tree _ Hs)).
  pose proof (sv_leaves _ Hs) as L. rewrite Hp, app_nil_r in L. by rewrite <- L, take_ge.
Qed.

Lemma tip_ok {A : Type} (c : client) s :
  client_ok c -> server_ok s -> ss_pending_leaves s = [] -> client_leaves c = server_leaves s ->
  check_tip (A := A) (get_tree_state s) c = Ok tt.
Proof.
  intros Hc Hs Hp HL. unfold check_tip. cbn [get_tree_state sy_root].
  rewrite (client_root_ok _ Hc), (server_root_ok _ Hs Hp), HL, bool_decide_true by done. by rewrite andb_false_r.
Qed.

(** One page brings the client to the server's last block. *)
Lemma one_page_ok {A : Type} limits elapsed (c : client) s :
  server_ok s -> ss_pending_leaves s = [] -> follows c s ->
  (1 <= max_pages limits)%nat -> (forall n, elapsed n <= max_duration limits) ->
  tc_next_position c <> gs_next_position (ss_tree s) ->
  from_height c <= default 0 (gs_latest_checkpoint (ss_tree s))
  /\ exists c', sync_pages (server_api (A := A) s elapsed) limits (max_pages limits) 0
       (default 0 (gs_latest_checkpoint (ss_tree s))) (from_height c) c = (Ok tt, c')
     /\ follows c' s /\ client_leaves c' = server_leaves s /\ tc_marked_positions c' = tc_marked_positions c.
Proof.
  intros Hs Hp [Fo Fm (ap & rest & E & L & Q)] Hpages Hel Hne.
  pose proof (sv_leaves _ Hs) as SL. rewrite Hp, app_nil_r, E, map_app, block_leaves_app in SL.
  pose proof (sv_sorted _ Hs) as Hso. pose proof (sv_heights _ Hs) as Hh. pose proof (sv_chain _ Hs) as Hch.
  rewrite E in Hso, Hh, Hch. rewrite map_app, chained_app in Hch. destruct Hch as [_ Hch]. cbn [app] in Hch.
  pose proof (to_capacity _ _ _ (sv_tree _ Hs)) as Hcap. rewrite SL, length_app in Hcap.
  assert (Hrest : rest <> []).
  { intros ->. apply Hne. rewrite (cl_next _ Fo), (sv_next _ Hs), SL, L. cbn. by rewrite app_nil_r. }
  destruct (last rest) as [[h b]|] eqn:Elast; [|by apply last_None in Elast].
  assert (Hlat : gs_latest_checkpoint (ss_tree s) = Some h).
  { rewrite (sv_latest _ Hs), E, last_app, Elast. done. }
  rewrite Hlat. change (default 0 (Some h)) with h.
  pose proof (ascending_rest ap rest Hso Hh) as Hasc. rewrite <- Q in Hasc.
  assert (Hall : Forall (fun e => e.1 <= h) (ap ++ rest)) by (eapply sorted_last_bound; [done|by rewrite last_app, Elast]).
  assert (Hap : Forall (fun e => e.1 < from_height c) ap /\ Forall (fun e => from_height c <= e.1) rest).
  { by apply split_at_client. }
  destruct Hap as [Hap Hre]. assert (Hbetween : Forall (fun e => from_height c <= e.1 <= h) rest).
  { apply Forall_app in Hall as [_ Hall]. rewrite list.Forall_forall in Hre. rewrite list.Forall_forall in Hall. apply list.Forall_forall. intros e He. split; [by apply Hre|by apply Hall]. }
  split.
  { rewrite list.Forall_forall in Hbetween. apply last_Some_elem_of in Elast. specialize (Hbetween _ Elast). cbn in Hbetween. lia. }
  rewrite <- L in Hch. rewrite <- L in Hcap.
  destruct (apply_chained (A := A) (map snd rest) c Fo Fm Hch Hasc Hcap) as (c' & Ea & R1 & R2 & R3 & R4 & R5).
  exists c'. destruct (max_pages limits) as [|pages] eqn:Ep; [lia|]. cbn [sync_pages]. unfold check_sync_duration. cbn [server_api sa_elapsed sa_page].
  rewrite !(proj2 (Z.ltb_ge _ _)) by apply Hel. unfold get_block_commitments. rewrite E, fetched_blocks by done.
  unfold validate_page. cbn [pg_blocks pg_next_from_height].
  rewrite (cl_next _ Fo), (validate_chained (A := A) (map snd rest) (client_leaves c)) by done. rewrite Ea.
  change (0 =? 0) with true. cbn iota. split; [done|]. split; [|split; [by rewrite R3, L, SL|done]].
  split; [done|done|]. exists (ap ++ rest), []. rewrite app_nil_r. split; [done|].
  split; [by rewrite map_app, block_leaves_app, R3, L|].
  rewrite R5, last_app, Elast. cbn. rewrite last_map, Elast. cbn.
  rewrite list.Forall_forall in Hh. apply last_Some_elem_of in Elast.
  destruct (Hh (h, b)) as [Eb _]; [apply elem_of_app; by right|]. cbn in Eb. by rewrite Eb.
Qed.
End following.

Section following_claims.
Context `{PallasHash} {T : Type} `{!ShardTree T Empty_set} `{!MemoryTree T}.
Notation server := (SyncableServer T).
Notation client := (TreeClient T).
Notation client_leaves c := (leaves_of (tc_inner c)).
Notation server_leaves s := (leaves_of (gs_inner (ss_tree s))).

(** A client that has not synced yet, whatever it has marked. *)
Lemma follows_fresh s positions : follows (mk_client sht_empty 0 None positions) s.
Proof.
  destruct empty_views as (E1 & _). split.
  - split; cbn; rewrite E1; [apply tree_ok_empty|done].
  - intros pos _. cbn. lia.
  - exists [], (ss_blocks s). cbn. by rewrite E1.
Qed.

(** A marked position of a client that holds the server's leaves. *)
Lemma marked_witness (c : client) pos :
  client_ok c -> client_marked c -> pos ∈ tc_marked_positions c -> 0 <= pos < tc_next_position c ->
  exists h p x, tc_last_synced_height c = Some h /\ witness c pos h = Some p
    /\ client_leaves c !! Z.to_nat pos = Some x /\ mp_position p = pos
    /\ verify p x (merkle_root (client_leaves c)) = true.
Proof.
  intros Hok Hm Hp Hpos. pose proof (cl_tree _ Hok) as Ht. pose proof (cl_next _ Hok) as Hn.
  destruct (tc_last_synced_height c) as [h|] eqn:Eh; [|pose proof (to_none _ _ _ Ht eq_refl); lia].
  pose proof (latest_get _ _ _ Ht) as Hget.
  destruct (lookup_lt_is_Some_2 (client_leaves c) (Z.to_nat pos)) as [x Hx]; [lia|].
  destruct (mem_witness (tc_inner c) pos h _ Hget) as [p Ew]; [lia|by apply Hm|].
  exists h, (path_of_witness p), x. unfold witness. rewrite Ew. cbn [ok_flatten fmap option_fmap option_map].
  assert (Ew' : ok_flatten (sht_witness_at (tc_inner c) pos h) = Some p) by (by rewrite Ew).
  destruct (witness_verifies _ _ _ _ _ _ _ _ Ht Ew' Hget Hx) as [V P]. rewrite take_ge in V by lia. by split_and!.
Qed.

(** One sync of a client of the server. *)
Lemma honest_sync {A : Type} s limits elapsed (c : client) :
  server_ok s -> ss_pending_leaves s = [] -> follows c s ->
  (1 <= max_pages limits)%nat -> (forall n, elapsed n <= max_duration limits) ->
  exists c', sync_with_limits (server_api (A := A) s elapsed) limits c = (Ok tt, c') /\ follows c' s
    /\ client_leaves c' = server_leaves s /\ tc_marked_positions c' = tc_marked_positions c.
Proof.
  intros Hs Hp Hx Hpages Hel. unfold sync_with_limits. cbn [server_api sa_state]. unfold check_sync_duration at 1. cbn [sa_elapsed].
  rewrite (proj2 (Z.ltb_ge _ _)) by apply Hel. cbn [get_tree_state sy_next_index sy_height]. unfold size.
  pose proof (to_capacity _ _ _ (sv_tree _ Hs)) as Hcap. rewrite (sv_next _ Hs).
  replace (TREE_CAPACITY <? _) with false by lia.
  destruct (Z.of_nat (length (server_leaves s)) =? tc_next_position c) eqn:En.
  - assert (HL : client_leaves c = server_leaves s).
    { destruct Hx as [Fo _ (ap & rest & E & L & _)]. pose proof (sv_leaves _ Hs) as SL.
      rewrite Hp, app_nil_r, E, map_app, block_leaves_app, <- L in SL. rewrite (cl_next _ Fo), SL, length_app in En.
      rewrite SL. rewrite (nil_length_inv (block_leaves (map snd rest))) by lia. by rewrite app_nil_r. }
    exists c. split; [|done]. f_equal. by apply tip_ok; [apply Hx|..].
  - destruct (one_page_ok (A := A) limits elapsed c s Hs Hp Hx Hpages Hel) as (Hle & c' & Ep & F' & L' & M');
      [rewrite (sv_next _ Hs); lia|].
    replace (_ <? from_height c) with false by lia. rewrite Ep. exists c'. split; [|done].
    rewrite (cl_next _ (fo_ok _ _ F')), L', Z.eqb_refl. cbn [negb]. f_equal. by apply tip_ok; [apply F'|..].
Qed.

(** C19 (tree client, honest server): Let a client follow some state of a server,
    or start afresh with any positions marked. Whatever the server appends and
    checkpoints after that, once every leaf is checkpointed the client's next
    sync succeeds within one page; the client then follows the server's
    current state, has its root, and for every position it marked in time and
    that is in the tree it has a witness that leads from the server's leaf to
    the server's root. *)
Theorem honest_server_is_followed {A : Type} s0 s limits elapsed (c : client) :
  server_reachable s0 -> rtc server_step s0 s -> ss_pending_leaves s = [] -> follows c s0 ->
  (1 <= max_pages limits)%nat -> (forall n, elapsed n <= max_duration limits) ->
  exists c', sync_with_limits (server_api (A := A) s elapsed) limits c = (Ok tt, c')
    /\ follows c' s /\ client_leaves c' = server_leaves s /\ client_root c' = root (ss_tree s)
    /\ forall pos, pos ∈ tc_marked_positions c -> 0 <= pos < size (ss_tree s) ->
         exists h p x, tc_last_synced_height c' = Some h /\ witness c' pos h = Some p
           /\ server_leaves s !! Z.to_nat pos = Some x /\ mp_position p = pos
           /\ verify p x (root (ss_tree s)) = true.
Proof.
  intros Hr0 Hr Hp Hf Hpages Hel. destruct (server_steps_ok _ _ server_ok_empty Hr0) as [Hs0 _].
  destruct (server_steps_ok _ _ Hs0 Hr) as [Hs Hx]. apply (follows_extends _ _ _ Hf) in Hx.
  destruct (honest_sync (A := A) s limits elapsed c Hs Hp Hx Hpages Hel) as (c' & E & F' & L' & M').
  exists c'. pose proof (fo_ok _ _ F') as Hok'.
  rewrite (client_root_ok _ Hok'), (server_root_ok _ Hs Hp), L'. split_and!; try done.
  intros pos Hpos Hlt. destruct (marked_witness c' pos Hok' (fo_marked _ _ F')) as (h & p & x & W); [by rewrite M'| |].
  - unfold size in Hlt. by rewrite (cl_next _ Hok'), L', <- (sv_next _ Hs).
  - rewrite L' in W. by exists h, p, x.
Qed.
End following_claims.

(** ** A concrete tree

    The views themselves as the state, with every operation as documented. *)
Section reference_tree.
Context `{PallasHash}.

Record RefTree := mk_ref {
  rt_leaves : list Fp;
  rt_marks : list Z;
  rt_checkpoints : list (Z * nat)
}.

Definition ref_append (t : RefTree) (x : Fp) (r : Retention) : result unit (ShardTreeError Empty_set) * RefTree :=
  if TREE_CAPACITY <=? Z.of_nat (length (rt_leaves t)) then (Err TreeFull, t)
  else (Ok tt, mk_ref (rt_leaves t ++ [x])
         (rt_marks t ++ match r with Marked => [Z.of_nat (length (rt_leaves t))] | Ephemeral => [] end)
         (rt_checkpoints t)).

Definition ref_checkpoint (t : RefTree) (id : Z) : result bool (ShardTreeError Empty_set) * RefTree :=
  if forallb (fun c => c.1 <? id) (rt_checkpoints t) then
    let all := rt_checkpoints t ++ [(id, length (rt_leaves t))] in
    (Ok true, mk_ref (rt_leaves t) (rt_marks t) (drop (length all - MAX_CHECKPOINTS) all))
  else (Ok false, t).

Definition ref_root_at (t : RefTree) (id : Z) : result (option Fp) (ShardTreeError Empty_set) :=
  Ok ((fun n => merkle_root (take n (rt_leaves t))) <$> bt_get id (rt_checkpoints t)).

Definition ref_witness_at (t : RefTree) (pos id : Z) : result (option (Z * list Fp)) (ShardTreeError Empty_set) :=
  Ok match bt_get id (rt_checkpoints t) with
     | Some n =>
         if (0 <=? pos) && (pos <? Z.of_nat n) && bool_decide (pos ∈ rt_marks t) then
           Some (pos, siblings 0 DEPTH (Z.to_nat pos) (take n (rt_leaves t)))
         else None
     | None => None
     end.

#[global] Program Instance ref_shard_tree : ShardTree RefTree Empty_set := {|
  sht_append := ref_append;
  sht_checkpoint := ref_checkpoint;
  sht_root_at := ref_root_at;
  sht_witness_at := ref_witness_at;
  leaves_of := rt_leaves;
  marks_of := rt_marks;
  checkpoints_of := rt_checkpoints
|}.
Next Obligation.
  intros t x r t'. unfold ref_append. destruct (TREE_CAPACITY <=? _) eqn:E; [done|]. intros [= <-]. cbn. split; [lia|done].
Qed.
Next Obligation.
  intros t id b t'. unfold ref_checkpoint. destruct (forallb _ _) eqn:E; intros [= <- <-]; split_and!; try done.
  - split; [|done]. intros _. apply list.Forall_forall. intros c Hc. rewrite forallb_forall in E.
    specialize (E c ltac:(by apply list_elem_of_In)). lia.
  - split; [done|]. intros Hf. rewrite list.Forall_forall in Hf. exfalso.
    assert (forallb (fun c => c.1 <? id) (rt_checkpoints t) = true); [|congruence].
    apply forallb_forall. intros c Hc. apply list_elem_of_In in Hc. specialize (Hf _ Hc). lia.
Qed.
Next Obligation. intros t id o. unfold ref_root_at. by intros [= <-]. Qed.
Next Obligation.
  intros t pos id p. unfold ref_witness_at. destruct (bt_get id (rt_checkpoints t)) as [n|]; [|done].
  destruct ((0 <=? pos) && (pos <? Z.of_nat n) && bool_decide (pos ∈ rt_marks t)) eqn:E; [|done].
  intros Ep. exists n. split; [done|]. split; [lia|].
  revert Ep. generalize (siblings 0 DEPTH (Z.to_nat pos) (take n (rt_leaves t))). by intros l [= <-].
Qed.

#[global] Program Instance ref_memory_tree : MemoryTree RefTree := {| sht_empty := mk_ref [] [] [] |}.
Next Obligation. done. Qed.
Next Obligation. intros t x r Hc. cbn in *. unfold ref_append. by replace (_ <=? _) with false by lia. Qed.
Next Obligation.
  intros t x r e t'. cbn. unfold ref_append. destruct (TREE_CAPACITY <=? _) eqn:E; [|done].
  intros [= <- <-]. split_and!; try done. lia.
Qed.
Next Obligation. intros t id. cbn. unfold ref_checkpoint. by destruct (forallb _ _). Qed.
Next Obligation. done. Qed.
Next Obligation.
  intros t pos id n Hg Hp Hm. cbn in *. unfold ref_witness_at. rewrite Hg.
  replace ((0 <=? pos) && (pos <? Z.of_nat n)) with true by lia. rewrite bool_decide_true by done. by eexists.
Qed.
End reference_tree.

(** Two leaves in one block, of which the client marked the second. *)
Definition sample_leaf (z : Z) : @Fp sample_pallas := fp_of z.
Definition sample_server1 : SyncableServer RefTree := (ss_append_two syncable_empty (sample_leaf 11) (sample_leaf 12)).2.
Definition sample_server : SyncableServer RefTree := (ss_checkpoint sample_server1 5).2.
Definition sample_client : TreeClient RefTree := mk_client sht_empty 0 None [1].

Lemma sample_reachable : rtc server_step syncable_empty sample_server.
Proof.
  eapply rtc_l; [apply (step_append_two _ (sample_leaf 11) (sample_leaf 12))|]. apply rtc_once. by apply step_checkpoint.
Qed.

Lemma honest_server_is_followed_witness :
  exists c', sync_with_limits (server_api (A := Empty_set) sample_server (fun _ => 0)) default_limits sample_client = (Ok tt, c')
    /\ client_root c' = root (ss_tree sample_server)
    /\ exists h p x, witness c' 1 h = Some p /\ leaves_of (gs_inner (ss_tree sample_server)) !! 1%nat = Some x
         /\ verify p x (root (ss_tree sample_server)) = true.
Proof.
  refine ((fun W => _) (honest_server_is_followed (A := Empty_set) syncable_empty sample_server default_limits (fun _ => 0) sample_client
    _ _ _ _ _ _)).
  - destruct W as (c' & E & _ & _ & R & W). exists c'. split; [exact E|]. split; [exact R|].
    destruct (W 1) as (h & p & x & _ & W1 & W2 & _ & W3); [by left|split; [lia|vm_compute; reflexivity]|]. exists h, p, x. split_and!; assumption.
  - apply rtc_refl.
  - exact sample_reachable.
  - reflexivity.
  - apply follows_fresh.
  - apply Nat.leb_le. vm_compute. reflexivity.
  - intros n. cbn. lia.
Defined.

