(* ===== verification/TreeSync.v ===== *)
(** * Synchronising the vote tree for witnesses

    Models [http_sync_api.rs] and [types.rs] of the crate
    [vote-commitment-tree-client], which map the client's interface to the
    chain's REST endpoints, and [tree_sync.rs] of [zcash_voting], which keeps a
    client per round, marks the positions of the wallet's notes, checks the
    notes against the synced tree and makes their witnesses.

    Every operation holds its round's lock from beginning to end, so it is one
    step here. A poisoned lock, which needs a panic in another thread, is left
    out. *)

From stdpp Require Import base gmap strings list numbers sorting pretty.
From Stdlib Require Import ZifyBool.
From S2P Require Import Prelude Ordered Identity Outcome Lifecycle Record Confirmation Rows Store VoteRecovery Generation.
From S2P Require Import MerkleTree TreeSerde KvStore TreeServer TreeClient.
Local Open Scope Z_scope.
Local Open Scope voting_scope.

(** ** Answers of the chain ([types.rs]) *)
Record ChainTreeState := mk_chain_state {
  ct_next_index : Z;
  ct_root : option text;
  ct_height : Z
}.

Record ChainBlockCommitments := mk_chain_block {
  cb_height : Z;
  cb_start_index : Z;
  cb_leaves : list text;
  cb_root : option text
}.

Record QueryCommitmentLeavesResponse := mk_leaves_response {
  ql_blocks : list ChainBlockCommitments;
  ql_next_from_height : Z
}.

(** [serde_json] on the two answers; an error is its text. *)
Class SyncJson := {
  json_tree_state : list Z -> result (option ChainTreeState) text;
  json_leaves_page : list Z -> result QueryCommitmentLeavesResponse text
}.

Inductive ParseError :=
| MissingField (field : text)
| Base64Error
| InvalidFpLength (context : text) (len : nat)
| NonCanonicalFp (context : text).

Inductive HttpSyncError :=
| HttpTransportFailed (message : text)
| HttpStatus (url : text) (status : Z) (body : list Z)
| HttpJson (message : text)
| HttpParse (e : ParseError)
| NoTreeState.

Section answers.
Context `{Externals} `{PallasHash}.

Definition decode_fp_base64 (b64 context : text) : result Fp ParseError :=
  let? bytes := ok_or (base64_decode b64) Base64Error in
  if negb (length bytes =? 32)%nat then Err (InvalidFpLength context (length bytes))
  else ok_or (from_repr bytes) (NonCanonicalFp context).

(** [as u32]. *)
Definition as_u32 (z : Z) : Z := z mod 2 ^ 32.

Definition into_tree_state (s : ChainTreeState) : result SyncTreeState ParseError :=
  let? root :=
    match ct_root s with
    | Some (c :: b64) => decode_fp_base64 (c :: b64) (lit "tree_state.root")
    | _ => Ok fp_zero
    end in
  Ok (mk_sync_state (ct_next_index s) root (as_u32 (ct_height s))).

Definition into_block_commitments (b : ChainBlockCommitments) : result BlockCommitments ParseError :=
  let? leaves := try_map (fun b64 => decode_fp_base64 b64 (lit "block_commitments.leaf")) (cb_leaves b) in
  let? b64 := ok_or (cb_root b) (MissingField (lit "block_commitments.root")) in
  let? root := decode_fp_base64 b64 (lit "block_commitments.root") in
  Ok (mk_block_commitments (as_u32 (cb_height b)) (cb_start_index b) leaves root).

Definition into_block_commitments_page (r : QueryCommitmentLeavesResponse)
    : result BlockCommitmentsPage ParseError :=
  let? blocks := try_map into_block_commitments (ql_blocks r) in
  Ok (mk_page blocks (as_u32 (ql_next_from_height r))).

(** ** Requests ([http_sync_api.rs]) *)
Context `{SyncJson}.

(** The transport: the answer to the [n]-th request. *)
Definition Transport : Type := nat -> text -> result (Z * list Z) text.

Section http.
Context (transport : Transport) (base_url round_id : string).

Definition get_json {A} (parse : list Z -> result A text) (n : nat) (url : text) : result A HttpSyncError :=
  let? (status, body) := map_err HttpTransportFailed (transport n url) in
  if (200 <=? status) && (status <? 300) then map_err HttpJson (parse body)
  else Err (HttpStatus url status body).

Definition tree_url : text :=
  lit base_url ++ lit "/shielded-vote/v1/commitment-tree/" ++ lit round_id.

Definition http_tree_state : result SyncTreeState HttpSyncError :=
  let? tree := get_json json_tree_state 0 (tree_url ++ lit "/latest") in
  let? state := ok_or tree NoTreeState in
  map_err HttpParse (into_tree_state state).

Definition http_root_at_height (n : nat) (height : Z) : result (option Fp) HttpSyncError :=
  let? tree := get_json json_tree_state n (tree_url ++ lit "/" ++ decimal height) in
  match tree with
  | Some state => let? ts := map_err HttpParse (into_tree_state state) in Ok (Some (sy_root ts))
  | None => Ok None
  end.

Definition http_block_commitments (n : nat) (from_height to_height : Z)
    : result BlockCommitmentsPage HttpSyncError :=
  let? page :=
    get_json json_leaves_page (S n)
      (tree_url ++ lit "/leaves?from_height=" ++ decimal from_height ++ lit "&to_height="
         ++ decimal to_height) in
  map_err HttpParse (into_block_commitments_page page).

Definition http_api (elapsed : nat -> Z) : SyncApi HttpSyncError :=
  mk_api http_tree_state http_block_commitments elapsed.
End http.
End answers.

(** ** The wallet's notes in the tree ([storage/queries/mod.rs]) *)
Section entries.
Context `{PallasHash}.

Record VanTreeEntry := mk_entry {
  ve_bundle_index : Z;
  ve_position : Z;
  ve_expected_delegation_van : option Fp
}.

Definition field_from_bytes (bytes : list Z) (name : text) : result Fp VotingError :=
  if negb (length bytes =? 32)%nat then
    Err (VInternal (name ++ lit " must be 32 bytes, got " ++ decimal (Z.of_nat (length bytes))))
  else ok_or (from_repr bytes) (VInternal (name ++ lit " is not a valid Pallas field element")).

(** A vote of the bundle has a transaction, or a submission that carries one
    may have been sent and was not rejected for good. *)
Definition has_submitted_vote (db : Db VotingTables) (round_id wallet : string) (bundle : Z) : bool :=
  bool_decide (map_Exists (fun (k : VoteId) v =>
    k.1 = (round_id, wallet, bundle) /\ vt_tx_hash v <> None) (tb_votes (db_rest db)))
  || bool_decide (map_Exists (fun _ row =>
       c_round_id row = round_id /\ c_wallet_id row = wallet /\ c_bundle_index row = bundle
       /\ c_kind row ∈ ["vote"; "vote_batch"; "delegate_and_cast_vote_batch"]%string
       /\ c_state row <> "rejected"%string) (db_table db)).

(** The bundles of the round with a position, by bundle. *)
Definition positioned_bundles (db : Db VotingTables) (round_id wallet : string) : list (Z * BundleRow) :=
  stable_sort (fun a b => a.1 <=? b.1)
    (omap (fun '(r, w, bundle, row) =>
             if bool_decide (r = round_id /\ w = wallet /\ bd_van_leaf_position row <> None)
             then Some (bundle, row) else None)
       (map_to_list (tb_bundles (db_rest db)))).

Definition van_tree_entry (db : Db VotingTables) (round_id wallet : string) (e : Z * BundleRow)
    : result VanTreeEntry VotingError :=
  let '(bundle, row) := e in
  let position := default 0 (bd_van_leaf_position row) in
  if negb ((0 <=? bundle) && (bundle <=? u32_max)) then
    Err (VInternal (lit "stored VAN bundle index does not fit in u32"))
  else if negb ((0 <=? position) && (position <=? u32_max)) then
    Err (VInternal (lit "stored VAN position for bundle " ++ decimal bundle ++ lit " does not fit in u32"))
  else if has_submitted_vote db round_id wallet bundle then Ok (mk_entry bundle position None)
  else
    let? commitment :=
      ok_or (bd_gov_comm row)
        (VInternal (lit "confirmed delegation bundle " ++ decimal bundle
           ++ lit " is missing its VAN commitment")) in
    let? van := field_from_bytes commitment (lit "bundle " ++ decimal bundle ++ lit " VAN commitment") in
    Ok (mk_entry bundle position (Some van)).

(** [fault] is the error of a failing statement, if it fails. *)
Definition load_van_tree_entries (fault : option VotingError) (db : Db VotingTables)
    (round_id wallet : string) : result (list VanTreeEntry) VotingError :=
  match fault with
  | Some e => Err e
  | None => try_map (van_tree_entry db round_id wallet) (positioned_bundles db round_id wallet)
  end.

Definition load_optional_van_position_u64 (missing : text) (db : Db VotingTables)
    (round_id wallet : string) (bundle : Z) : result (option Z) VotingError :=
  match tb_bundles (db_rest db) !! (round_id, wallet, bundle) with
  | None =>
      Err (VInvalidInput (lit "no van_leaf_position for round=" ++ lit round_id ++ lit ", bundle="
             ++ decimal bundle ++ lit " (" ++ missing ++ lit ")"))
  | Some row =>
      match bd_van_leaf_position row with
      | None => Ok None
      | Some position =>
          if 0 <=? position then Ok (Some position)
          else Err (VInternal (lit "stored van_leaf_position for round=" ++ lit round_id
                 ++ lit ", bundle=" ++ decimal bundle ++ lit " must be non-negative, got " ++ decimal position))
      end
  end.

Definition load_van_position (missing : text) (db : Db VotingTables) (round_id wallet : string) (bundle : Z)
    : result Z VotingError :=
  let? found := load_optional_van_position_u64 missing db round_id wallet bundle in
  let? position :=
    ok_or found
      (VInvalidInput (lit "van_leaf_position not yet set for round=" ++ lit round_id
         ++ lit ", bundle=" ++ decimal bundle)) in
  if position <=? u32_max then Ok position
  else Err (VInvalidInput (lit "van_leaf_position " ++ decimal position ++ lit " for round="
         ++ lit round_id ++ lit ", bundle=" ++ decimal bundle ++ lit " does not fit in u32")).
End entries.

(** ** Clients per round ([tree_sync.rs]) *)
Definition VAN_AUTH_PATH_LEN : nat := 24.

Record VanWitness := mk_van_witness {
  vw_auth_path : list (list Z);
  vw_position : Z;
  vw_anchor_height : Z
}.

Inductive CachedRoundState :=
| RoundAbsent
| RoundSyncing
| RoundSyncedTo (height : Z).

Section tree_sync.
Context `{PallasHash} {T : Type} `{!ShardTree T Empty_set} `{!MemoryTree T}.

Definition van_witness (path : MerklePath) (anchor_height : Z) : VanWitness :=
  mk_van_witness (map to_repr (take VAN_AUTH_PATH_LEN (mp_auth_path path))) (mp_position path) anchor_height.

Record RoundTreeClient := mk_round_client {
  rc_client : TreeClient T;
  rc_marked_positions : list Z
}.

Definition round_client_empty : RoundTreeClient := mk_round_client client_empty [].

Definition needs_resync_for (r : RoundTreeClient) (positions : list Z) : bool :=
  existsb (fun pos => negb (bool_decide (pos ∈ rc_marked_positions r)) && (pos <? tc_next_position (rc_client r)))
    positions.

Definition mark_positions (r : RoundTreeClient) (positions : list Z) : RoundTreeClient :=
  mk_round_client (foldl mark_position (rc_client r) positions)
    (foldl (fun set pos => zset_insert pos set) (rc_marked_positions r) positions).

Notation VoteTreeSync := (gmap string RoundTreeClient).

Definition cached_rounds (s : VoteTreeSync) : list string := (map_to_list s).*1.

Definition reset_locked (s : VoteTreeSync) (round_id : string) : VoteTreeSync :=
  if bool_decide (round_id = EmptyString) then ∅ else delete round_id s.

(** The state of a round as seen without waiting: [locked] says whether an
    operation of the round holds its lock. *)
Definition cached_round_state (locked : bool) (s : VoteTreeSync) (round_id : string) : CachedRoundState :=
  match s !! round_id with
  | None => RoundAbsent
  | Some r => if locked then RoundSyncing else RoundSyncedTo (default 0 (tc_last_synced_height (rc_client r)))
  end.

(** The check of the wallet's notes: the first bundle that is not in the tree
    yet, if any. *)
Fixpoint validate_entries (client : TreeClient T) (anchor_height : Z) (missing_bundle : option Z)
    (entries : list VanTreeEntry) : result (option Z) VotingError :=
  match entries with
  | [] => Ok missing_bundle
  | entry :: entries =>
      match ve_expected_delegation_van entry with
      | None => validate_entries client anchor_height missing_bundle entries
      | Some expected =>
          match witness client (ve_position entry) anchor_height with
          | None =>
              validate_entries client anchor_height
                (Some (default (ve_bundle_index entry) missing_bundle)) entries
          | Some path =>
              let? root :=
                ok_or (client_root_at_height client anchor_height)
                  (VInternal (lit "synced vote tree has no root at anchor height "
                     ++ decimal anchor_height)) in
              if verify path expected root then
                validate_entries client anchor_height missing_bundle entries
              else
                Err (VInvalidInput (lit "confirmed delegation bundle " ++ decimal (ve_bundle_index entry)
                       ++ lit " does not match its synced vote-tree leaf"))
          end
      end
  end.

(** The text of a failed sync; the crates' [Debug] forms are not modelled. *)
Context {A : Type} (sync_error_text : SyncError A -> text).

(** The round's client as a sync starts with it. *)
Definition prepared_client (s : VoteTreeSync) (round_id : string) (positions : list Z) : RoundTreeClient :=
  let r := default round_client_empty (s !! round_id) in
  mark_positions (if needs_resync_for r positions then round_client_empty else r) positions.

Definition sync_locked (entries : result (list VanTreeEntry) VotingError) (api : SyncApi A)
    (s : VoteTreeSync) (round_id : string) : result Z VotingError * VoteTreeSync :=
  match entries with
  | Err e => (Err e, s)
  | Ok entries =>
      let positions := foldl (fun set e => zset_insert (ve_position e) set) [] entries in
      let r := prepared_client s round_id positions in
      let (synced, client) := sync_with_limits api default_limits (rc_client r) in
      let s := <[round_id := mk_round_client client (rc_marked_positions r)]> s in
      match synced with
      | Err e => (Err (VInternal (lit "vote tree sync failed: " ++ sync_error_text e)), s)
      | Ok _ =>
          let anchor_height := default 0 (tc_last_synced_height client) in
          match validate_entries client anchor_height None entries with
          | Err e => (Err e, <[round_id := round_client_empty]> s)
          | Ok (Some bundle_index) =>
              (Err (VInvalidInput (lit "confirmed delegation bundle " ++ decimal bundle_index
                      ++ lit " is absent from the synced vote tree")), s)
          | Ok None => (Ok anchor_height, s)
          end
      end
  end.

Definition witness_locked (position : result Z VotingError) (s : VoteTreeSync) (round_id : string)
    (anchor_height : Z) : result VanWitness VotingError :=
  let? van_position := position in
  let? r := ok_or (s !! round_id) (VInvalidInput (lit "must call sync before generate_van_witness")) in
  let? path :=
    ok_or (witness (rc_client r) van_position anchor_height)
      (VInternal (lit "failed to generate witness for position " ++ decimal van_position
         ++ lit " at height " ++ decimal anchor_height)) in
  Ok (van_witness path anchor_height).

(** One node of [sync_and_witness]: its interface and what the database said
    while it was tried. *)
Record NodeTurn := mk_node_turn {
  nt_interrupted : option VotingError;
  nt_entries : result (list VanTreeEntry) VotingError;
  nt_api : SyncApi A;
  nt_position : result Z VotingError
}.

Fixpoint try_nodes (nodes : list NodeTurn) (failure : option VotingError) (s : VoteTreeSync) (round_id : string)
    : result VanWitness VotingError * VoteTreeSync :=
  match nodes with
  | [] => (Err (default (VInvalidInput (lit "vote tree sync requires a node URL")) failure), s)
  | node :: nodes =>
      match nt_interrupted node with
      | Some e => (Err e, s)
      | None =>
          match sync_locked (nt_entries node) (nt_api node) s round_id with
          | (Ok height, s) => (witness_locked (nt_position node) s round_id height, s)
          | (Err error, s) => try_nodes nodes (Some error) (reset_locked s round_id) round_id
          end
      end
  end.

Definition sync_and_witness (nodes : list NodeTurn) (s : VoteTreeSync) (round_id : string)
    : result VanWitness VotingError * VoteTreeSync :=
  try_nodes nodes None s round_id.
End tree_sync.
Arguments RoundTreeClient T : clear implicits.
Arguments NodeTurn {_} A.
