(* ===== verification/VanWitnessProofs.v ===== *)
(** * Witnesses of the wallet's notes

    What [VoteTreeSync] guarantees: a sync that succeeds has found every note
    it expects at its recorded position in the synced tree, and the witnesses
    made from it lead from those leaves to its root; against an honest node
    it always succeeds when the records are right, also when positions are
    learned only after the tree has grown past them. *)

From stdpp Require Import base gmap strings list numbers sorting pretty.
From Stdlib Require Import ZifyBool.
From S2P Require Import Prelude Ordered Identity Outcome Lifecycle Record Confirmation Rows Store VoteRecovery Generation.
From S2P Require Import MerkleTree TreeSerde KvStore KvStoreProofs TreeServer TreeClient TreeSyncProofs TreeSync.
Local Open Scope Z_scope.
Local Open Scope voting_scope.

Section rounds.
Context `{PallasHash} {T : Type} `{!ShardTree T Empty_set} `{!MemoryTree T}.
Notation client_leaves c := (leaves_of (tc_inner c)).
Notation VoteTreeSync := (gmap string (RoundTreeClient T)).

Record round_ok (r : RoundTreeClient T) : Prop := {
  ro_client : client_ok (rc_client r);
  ro_marked : client_marked (rc_client r);
  ro_known : forall pos, pos ∈ rc_marked_positions r -> pos ∈ tc_marked_positions (rc_client r)
}.

Definition rounds_ok (s : VoteTreeSync) : Prop := forall round_id r, s !! round_id = Some r -> round_ok r.

Lemma round_ok_empty : round_ok round_client_empty.
Proof. destruct client_ok_empty. split; [done|done|]. by intros pos ?%elem_of_nil. Qed.

Lemma foldl_mark_position positions : forall (c : TreeClient T),
  tc_inner (foldl mark_position c positions) = tc_inner c
  /\ tc_next_position (foldl mark_position c positions) = tc_next_position c
  /\ tc_last_synced_height (foldl mark_position c positions) = tc_last_synced_height c
  /\ forall pos, pos ∈ tc_marked_positions (foldl mark_position c positions)
       <-> pos ∈ tc_marked_positions c \/ pos ∈ positions.
Proof.
  induction positions as [|p positions IH]; intros c; cbn [foldl].
  - split_and!; try done. intros pos. split; [by left|]. intros [|?%elem_of_nil]; done.
  - destruct (IH (mark_position c p)) as (I1 & I2 & I3 & I4). split_and!; try done. intros pos. rewrite I4. cbn.
    rewrite zset_insert_elem, elem_of_cons. tauto.
Qed.

Lemma foldl_zset positions : forall set pos,
  pos ∈ foldl (fun set p => zset_insert p set) set positions <-> pos ∈ set \/ pos ∈ positions.
Proof.
  intros set pos. rewrite (zset_fold_elem (fun p => p)). split; intros [Hs|Hp]; auto.
  - destruct Hp as (a & Ha & ->). by right.
  - right. by exists pos.
Qed.

(** The client a sync starts with knows every position in time. *)
Lemma mark_positions_ok r positions :
  round_ok r -> needs_resync_for r positions = false -> round_ok (mark_positions r positions).
Proof.
  intros [R1 R2 R3] Hn. destruct (foldl_mark_position positions (rc_client r)) as (I1 & I2 & I3 & I4).
  split; unfold mark_positions; cbn [rc_client rc_marked_positions].
  - destruct R1 as [C1 C2]. split; rewrite ?I1, ?I2, ?I3; done.
  - intros pos Hp Hlt. rewrite I1. rewrite I2 in Hlt. apply I4 in Hp as [Hp|Hp]; [by apply R2|].
    apply R2; [|done]. destruct (decide (pos ∈ rc_marked_positions r)) as [Hk|Hk]; [by apply R3|]. exfalso.
    unfold needs_resync_for in Hn. assert (true = false); [|done]. rewrite <- Hn. symmetry. apply existsb_exists.
    exists pos. split; [by apply list_elem_of_In|]. rewrite bool_decide_false by done. cbn. lia.
  - intros pos Hp. apply I4. apply foldl_zset in Hp as [Hp|Hp]; [left; by apply R3|by right].
Qed.

Lemma empty_needs_no_resync positions :
  Forall (fun pos => 0 <= pos) positions -> needs_resync_for round_client_empty positions = false.
Proof.
  intros Hp. unfold needs_resync_for. apply not_true_is_false. rewrite existsb_exists. intros (pos & Hin & Hb).
  apply list_elem_of_In in Hin. rewrite list.Forall_forall in Hp. specialize (Hp _ Hin). cbn in Hb. lia.
Qed.

Lemma prepared_ok (s : VoteTreeSync) round_id positions :
  (forall r, s !! round_id = Some r -> round_ok r) -> Forall (fun pos => 0 <= pos) positions ->
  round_ok (prepared_client s round_id positions)
  /\ (forall pos, pos ∈ positions -> pos ∈ tc_marked_positions (rc_client (prepared_client s round_id positions)))
  /\ exists r, prepared_client s round_id positions = mark_positions r positions
       /\ (r = round_client_empty \/ s !! round_id = Some r).
Proof.
  intros Hs Hp. unfold prepared_client.
  set (r0 := default round_client_empty (s !! round_id)).
  set (r := if needs_resync_for r0 positions then round_client_empty else r0).
  assert (Hr : round_ok r /\ needs_resync_for r positions = false /\ (r = round_client_empty \/ s !! round_id = Some r)).
  { unfold r, r0. destruct (needs_resync_for _ positions) eqn:E.
    - split; [apply round_ok_empty|]. split; [by apply empty_needs_no_resync|by left].
    - destruct (s !! round_id) as [x|] eqn:Ex; cbn in *; [|split; [apply round_ok_empty|auto]].
      split; [by apply Hs|]. auto. }
  destruct Hr as (H1 & H2 & H3). split; [by apply mark_positions_ok|]. split; [|by exists r].
  intros pos Hin. apply (foldl_mark_position positions (rc_client r)). by right.
Qed.

(** ** Checking the wallet's notes *)
(** The witness of a position leads from its leaf to the root of its height. *)
Definition witness_leads (w : VanWitness) (leaf root : Fp) : Prop :=
  exists hashes, vw_auth_path w = map to_repr hashes /\ length hashes = DEPTH
    /\ verify (mk_path (vw_position w) hashes) leaf root = true.

Lemma witness_inv (c : TreeClient T) pos h p :
  client_ok c -> tc_last_synced_height c = Some h -> witness c pos h = Some p ->
  0 <= pos < tc_next_position c /\ p = mk_path pos (siblings 0 DEPTH (Z.to_nat pos) (client_leaves c)).
Proof.
  intros [Ht Hn] Eh E. rewrite Eh in Ht. unfold witness in E.
  destruct (sht_witness_at (tc_inner c) pos h) as [[q|]|e] eqn:Ew; try done.
  injection E as <-. destruct (sht_witness_ok _ _ _ _ Ew) as (n & Hg & Hpos & ->).
  rewrite (latest_get _ _ _ Ht) in Hg. injection Hg as <-. split; [lia|]. unfold path_of_witness. cbn [fst snd].
  pose proof (to_capacity _ _ _ Ht) as Hcap. change TREE_CAPACITY with (2 ^ 24) in Hcap.
  rewrite Z.mod_small by lia. by rewrite take_ge.
Qed.

Lemma same_path_same_leaf position hashes x van root :
  path_root (mk_path position hashes) x = root -> verify (mk_path position hashes) van root = true ->
  x = van \/ Collision.
Proof.
  unfold verify. rewrite bool_decide_eq_true. intros Er E. rewrite <- E in Er.
  apply fold_path_inj in Er as [[Ex _]|]; [by left|by right|done].
Qed.

Lemma leaf_path_root leaves pos x :
  0 <= pos -> Z.of_nat (length leaves) <= TREE_CAPACITY -> leaves !! Z.to_nat pos = Some x ->
  path_root (mk_path pos (siblings 0 DEPTH (Z.to_nat pos) leaves)) x = merkle_root leaves.
Proof.
  intros Hpos Hcap Hx. pose proof (lookup_lt_Some _ _ _ Hx) as Hlt.
  assert (Hn : node_at 0 leaves (Z.to_nat pos) = x) by (unfold node_at; by rewrite Hx).
  rewrite <- Hn. rewrite <- (merkle_path_root leaves (Z.to_nat pos)).
  - unfold path_root, merkle_path. cbn [mp_position mp_auth_path]. by rewrite Z2Nat.id by lia.
  - apply Nat2Z.inj_lt. rewrite capacity_pow. lia.
Qed.

Lemma verified_leaf leaves pos van :
  0 <= pos < Z.of_nat (length leaves) -> Z.of_nat (length leaves) <= TREE_CAPACITY ->
  verify (mk_path pos (siblings 0 DEPTH (Z.to_nat pos) leaves)) van (merkle_root leaves) = true ->
  leaves !! Z.to_nat pos = Some van \/ Collision.
Proof.
  intros Hpos Hcap Hv. destruct (lookup_lt_is_Some_2 leaves (Z.to_nat pos)) as [x Hx]; [lia|].
  pose proof (leaf_path_root leaves pos x (proj1 Hpos) Hcap Hx) as Hr. rewrite Hx.
  destruct (same_path_same_leaf _ _ x van _ Hr Hv) as [E|C]; [left; by f_equal|by right].
Qed.

Lemma root_at_tip (c : TreeClient T) h root :
  client_ok c -> tc_last_synced_height c = Some h -> client_root_at_height c h = Some root ->
  root = merkle_root (client_leaves c).
Proof.
  intros [Ht _] Eh E. rewrite Eh in Ht. unfold client_root_at_height in E.
  rewrite root_at, (latest_get _ _ _ Ht) in E. apply (inj Some) in E. by rewrite take_ge in E.
Qed.

Lemma unsynced_witness (c : TreeClient T) pos h :
  client_ok c -> tc_last_synced_height c = None -> witness c pos h = None.
Proof.
  intros [Ht _] Eh. unfold witness. destruct (sht_witness_at (tc_inner c) pos h) as [[q|]|e] eqn:Ew; try done.
  destruct (sht_witness_ok _ _ _ _ Ew) as (n & Hg & _). pose proof (to_latest _ _ _ Ht) as Hl.
  rewrite Eh in Hl. apply last_None in Hl. by rewrite Hl in Hg.
Qed.

Lemma validate_missing (c : TreeClient T) h entries : forall b, validate_entries c h (Some b) entries <> Ok None.
Proof.
  induction entries as [|e entries IH]; intros b; cbn [validate_entries]; [done|].
  destruct (ve_expected_delegation_van e) as [van|]; [|apply IH].
  destruct (witness c _ h) as [p|]; [|apply IH]. destruct (client_root_at_height c h) as [root|]; cbn; [|done].
  destruct (verify p van root); [apply IH|done].
Qed.

(** What a passed check says of each expected note. *)
Lemma validate_entries_ok (c : TreeClient T) entries :
  client_ok c -> validate_entries c (default 0 (tc_last_synced_height c)) None entries = Ok None ->
  forall e van, e ∈ entries -> ve_expected_delegation_van e = Some van ->
    client_leaves c !! Z.to_nat (ve_position e) = Some van \/ Collision.
Proof.
  intros Hok. induction entries as [|e entries IH]; intros E; [by intros e van ?%elem_of_nil|].
  cbn [validate_entries] in E. destruct (ve_expected_delegation_van e) as [van|] eqn:Ev.
  2: { intros e' van [->|Hin]%elem_of_cons Hv; [congruence|by apply IH]. }
  destruct (witness c (ve_position e) _) as [p|] eqn:Ew; [|by apply validate_missing in E].
  destruct (tc_last_synced_height c) as [h|] eqn:Eh; [|by rewrite unsynced_witness in Ew].
  change (default 0 (Some h)) with h in *. destruct (client_root_at_height c h) as [root|] eqn:Er; [|done].
  cbn [ok_or] in E. destruct (verify p van root) eqn:Evf; [|done].
  apply root_at_tip in Er; [|done..]. apply witness_inv in Ew as [Hpos ->]; [|done..]. subst root.
  intros e' van' [->|Hin]%elem_of_cons Hv; [|by apply IH]. rewrite Ev in Hv. injection Hv as <-.
  pose proof (cl_next _ Hok) as Hn. apply verified_leaf; [lia|apply (cl_tree _ Hok)|done].
Qed.

(** The other direction: notes at their positions pass. *)
Lemma validate_entries_pass (c : TreeClient T) entries :
  client_ok c -> client_marked c ->
  (forall e van, e ∈ entries -> ve_expected_delegation_van e = Some van ->
     ve_position e ∈ tc_marked_positions c /\ 0 <= ve_position e
     /\ client_leaves c !! Z.to_nat (ve_position e) = Some van) ->
  validate_entries c (default 0 (tc_last_synced_height c)) None entries = Ok None.
Proof.
  intros Hok Hm. induction entries as [|e entries IH]; intros He; [done|].
  assert (Hrec : validate_entries c (default 0 (tc_last_synced_height c)) None entries = Ok None).
  { apply IH. intros e' van Hin. apply He. by right. }
  cbn [validate_entries]. destruct (ve_expected_delegation_van e) as [van|] eqn:Ev; [|done].
  destruct (He e van) as (H1 & H2 & H3); [by left|done|]. pose proof (lookup_lt_Some _ _ _ H3) as Hlt.
  pose proof (cl_next _ Hok) as Hn.
  destruct (marked_witness c (ve_position e) Hok Hm H1) as (h & p & x & Eh & Ew & Hx & _ & V); [lia|].
  rewrite Eh in Hrec |- *. change (default 0 (Some h)) with h in *. rewrite Ew.
  unfold client_root_at_height. rewrite root_at. pose proof (cl_tree _ Hok) as Ht. rewrite Eh in Ht.
  rewrite (latest_get _ _ _ Ht). cbn [fmap option_fmap option_map ok_or]. rewrite take_ge by done.
  rewrite H3 in Hx. injection Hx as <-. by rewrite V.
Qed.
End rounds.

(** ** Syncing a round *)
Section syncs.
Context `{PallasHash} {T : Type} `{!ShardTree T Empty_set} `{!MemoryTree T}.
Context {A : Type} (sync_error_text : SyncError A -> text).
Notation round_leaves r := (leaves_of (tc_inner (rc_client r))).
Notation VoteTreeSync := (gmap string (RoundTreeClient T)).

Definition positions_ok (entries : list VanTreeEntry) : Prop := Forall (fun e => 0 <= ve_position e) entries.

(** The expected notes are at their positions. *)
Definition notes_found (entries : list VanTreeEntry) (leaves : list Fp) : Prop :=
  forall e van, e ∈ entries -> ve_expected_delegation_van e = Some van ->
    leaves !! Z.to_nat (ve_position e) = Some van \/ Collision.

(** The tree is the one the node announced, or it is newer than the block the
    node announced. *)
Definition announced (api : SyncApi A) (r : RoundTreeClient T) : Prop :=
  exists state, sa_state api = Ok state
    /\ ((0 < sy_next_index state -> sy_root state = merkle_root (round_leaves r))
        /\ sy_next_index state = Z.of_nat (length (round_leaves r))
        \/ sy_height state < from_height (rc_client r)).

Definition set_positions (entries : list VanTreeEntry) : list Z :=
  foldl (fun set e => zset_insert (ve_position e) set) [] entries.

Lemma set_positions_elem entries pos : pos ∈ set_positions entries <-> exists e, e ∈ entries /\ pos = ve_position e.
Proof.
  unfold set_positions. rewrite zset_fold_elem. split; [|by right]. intros [?%elem_of_nil|Hp]; done.
Qed.

Lemma set_positions_ok entries : positions_ok entries -> Forall (fun pos => 0 <= pos) (set_positions entries).
Proof.
  intros Hp. apply list.Forall_forall. intros pos (e & He & ->)%set_positions_elem. unfold positions_ok in Hp.
  rewrite list.Forall_forall in Hp. by apply Hp.
Qed.

Lemma rounds_ok_insert (s : VoteTreeSync) round_id r : rounds_ok s -> round_ok r -> rounds_ok (<[round_id := r]> s).
Proof. intros Hs Hr other r' [[<- <-]|[_ E]]%lookup_insert_Some; [done|by apply (Hs other)]. Qed.

Lemma sync_locked_ok entries api (s : VoteTreeSync) round_id o s' :
  rounds_ok s -> positions_ok entries -> sync_locked sync_error_text (Ok entries) api s round_id = (o, s') ->
  rounds_ok s' /\ (forall other, other <> round_id -> s' !! other = s !! other)
  /\ forall height, o = Ok height -> exists r, s' !! round_id = Some r
       /\ height = default 0 (tc_last_synced_height (rc_client r))
       /\ notes_found entries (round_leaves r) /\ announced api r
       /\ forall e, e ∈ entries -> ve_position e ∈ tc_marked_positions (rc_client r).
Proof.
  intros Hs Hp E. cbn [sync_locked] in E. fold (set_positions entries) in E.
  destruct (prepared_ok s round_id (set_positions entries) (Hs round_id) (set_positions_ok _ Hp)) as ([R1 R2 R3] & Hmk & _).
  set (r0 := prepared_client s round_id (set_positions entries)) in *.
  destruct (sync_with_limits api default_limits (rc_client r0)) as [synced c] eqn:Ec.
  destruct (sync_ok api default_limits _ _ _ R1 R2 Ec) as (C1 & C2 & C3 & _ & C5).
  assert (Hr : round_ok (mk_round_client c (rc_marked_positions r0))).
  { split; [done|done|]. cbn. rewrite C3. done. }
  assert (Hs1 := rounds_ok_insert s round_id _ Hs Hr).
  assert (Ho : forall x other, other <> round_id -> (<[round_id := x]> s : VoteTreeSync) !! other = s !! other).
  { intros x other Hne. by rewrite lookup_insert_ne. }
  destruct synced as [[]|e]; [|injection E as <- <-; split_and!; [done|apply Ho|done]].
  destruct (validate_entries c _ None entries) as [[b|]|e] eqn:Ev.
  - injection E as <- <-. split_and!; [done|apply Ho|done].
  - injection E as <- <-. split_and!; [done|apply Ho|]. intros height [= <-]. rewrite lookup_insert_eq.
    eexists. split; [done|]. cbn [rc_client]. split; [done|]. split; [exact (validate_entries_ok c entries C1 Ev)|].
    split; [|intros e He; rewrite C3; apply Hmk, set_positions_elem; by exists e].
    destruct (C5 eq_refl) as (state & Es & Hcase). exists state. split; [done|]. destruct Hcase as [[Hn Ht]|(-> & _ & Hlt)].
    + left. split; [|by rewrite <- Hn, (cl_next _ C1)]. intros Hpos. unfold check_tip in Ht.
      replace (0 <? sy_next_index state) with true in Ht by lia. cbn [andb] in Ht.
      case_bool_decide as Er; [|done]. rewrite <- Er. by apply client_root_ok.
    + by right.
  - injection E as <- <-. rewrite insert_insert_eq. split_and!; [|apply Ho|done].
    apply rounds_ok_insert; [done|apply round_ok_empty].
Qed.

(** A witness made at the tip. *)
Lemma tip_witness r pos p :
  round_ok r -> witness (rc_client r) pos (default 0 (tc_last_synced_height (rc_client r))) = Some p ->
  exists x, round_leaves r !! Z.to_nat pos = Some x /\ mp_position p = pos
    /\ witness_leads (van_witness p (default 0 (tc_last_synced_height (rc_client r)))) x (merkle_root (round_leaves r)).
Proof.
  intros [Hok _ _] Ew.
  destruct (tc_last_synced_height (rc_client r)) as [h|] eqn:Eh; [|by rewrite unsynced_witness in Ew].
  change (default 0 (Some h)) with h in *. apply witness_inv in Ew as [Hpos ->]; [|done..].
  pose proof (cl_next _ Hok) as Hn. destruct (lookup_lt_is_Some_2 (round_leaves r) (Z.to_nat pos)) as [x Hx]; [lia|].
  exists x. split; [done|]. split; [done|].
  pose proof (leaf_path_root _ _ _ (proj1 Hpos) (to_capacity _ _ _ (cl_tree _ Hok)) Hx) as Hr.
  revert Hr. pose proof (length_siblings 0 DEPTH (Z.to_nat pos) (round_leaves r)) as Hlen. revert Hlen.
  generalize (siblings 0 DEPTH (Z.to_nat pos) (round_leaves r)). intros hs Hlen Hr. exists hs.
  unfold van_witness. cbn [vw_auth_path vw_position mp_position mp_auth_path]. split_and!; [|done|].
  - by rewrite take_ge by (rewrite Hlen; done).
  - unfold verify. by apply bool_decide_eq_true.
Qed.

Lemma witness_locked_ok (position : result Z VotingError) (s : VoteTreeSync) round_id r w :
  round_ok r -> s !! round_id = Some r ->
  witness_locked position s round_id (default 0 (tc_last_synced_height (rc_client r))) = Ok w ->
  position = Ok (vw_position w) /\ vw_anchor_height w = default 0 (tc_last_synced_height (rc_client r))
  /\ exists x, round_leaves r !! Z.to_nat (vw_position w) = Some x
       /\ witness_leads w x (merkle_root (round_leaves r)).
Proof.
  intros Hr Es E. unfold witness_locked in E. destruct position as [pos|e]; [|done]. rewrite Es in E. cbn [ok_or] in E.
  destruct (witness (rc_client r) pos _) as [p|] eqn:Ew; [|done]. cbn [ok_or] in E. injection E as <-.
  destruct (tip_witness r pos p Hr Ew) as (x & Hx & Hp & Hl). cbn [van_witness vw_position vw_anchor_height].
  rewrite Hp. split; [done|]. split; [done|]. by exists x.
Qed.

(** ** Trying the nodes in turn *)
Definition node_ok (node : NodeTurn A) : Prop := forall entries, nt_entries node = Ok entries -> positions_ok entries.

Lemma rounds_ok_reset (s : VoteTreeSync) round_id : rounds_ok s -> rounds_ok (reset_locked s round_id).
Proof.
  intros Hs other r. unfold reset_locked. case_bool_decide; [by rewrite lookup_empty|].
  rewrite lookup_delete_Some. intros [_ E]. by apply (Hs other).
Qed.

Lemma sync_any_ok node (s : VoteTreeSync) round_id o s' :
  rounds_ok s -> node_ok node -> sync_locked sync_error_text (nt_entries node) (nt_api node) s round_id = (o, s') ->
  rounds_ok s' /\ (forall other, other <> round_id -> s' !! other = s !! other)
  /\ forall height, o = Ok height -> exists entries r, nt_entries node = Ok entries /\ s' !! round_id = Some r
       /\ height = default 0 (tc_last_synced_height (rc_client r))
       /\ notes_found entries (round_leaves r) /\ announced (nt_api node) r.
Proof.
  intros Hs Hn E. destruct (nt_entries node) as [entries|e] eqn:Ee; [|by injection E as <- <-].
  destruct (sync_locked_ok entries _ _ _ _ _ Hs (Hn _ Ee) E) as (S1 & S2 & S3). split_and!; [done|done|].
  intros height Ho. destruct (S3 height Ho) as (r & ? & ? & ? & ? & _). exists entries, r. by split_and!.
Qed.

End syncs.

(** ** The wallet's records *)
Section records.
Context `{PallasHash}.

Lemma van_tree_entry_ok db round_id wallet bundle row e :
  van_tree_entry db round_id wallet (bundle, row) = Ok e ->
  ve_bundle_index e = bundle /\ ve_position e = default 0 (bd_van_leaf_position row)
  /\ 0 <= ve_position e <= u32_max.
Proof.
  unfold van_tree_entry. destruct (negb _); [done|]. destruct (negb _) eqn:Ep; [done|].
  assert (Hp : 0 <= default 0 (bd_van_leaf_position row) <= u32_max) by lia.
  destruct (has_submitted_vote _ _ _ _); [by intros [= <-]|].
  destruct (bd_gov_comm row) as [commitment|]; [|done]. cbn [ok_or].
  destruct (field_from_bytes _ _) as [van|]; [|done]. by intros [= <-].
Qed.

Lemma loaded_positions fault db round_id wallet entries :
  load_van_tree_entries fault db round_id wallet = Ok entries -> positions_ok entries.
Proof.
  unfold load_van_tree_entries. destruct fault; [done|]. intros E. apply list.Forall_forall. intros e He.
  apply (try_map_elem _ _ _ _ E) in He as ([bundle row] & _ & Ee). by apply van_tree_entry_ok in Ee as (_ & _ & ? & _).
Qed.

(** The bundle whose position is asked for is among the loaded ones. *)
Lemma loaded_bundle fault db round_id wallet entries missing bundle pos :
  load_van_tree_entries fault db round_id wallet = Ok entries ->
  load_van_position missing db round_id wallet bundle = Ok pos ->
  exists e, e ∈ entries /\ ve_bundle_index e = bundle /\ ve_position e = pos.
Proof.
  unfold load_van_tree_entries. destruct fault; [done|]. intros E Hp.
  unfold load_van_position, load_optional_van_position_u64 in Hp.
  destruct (tb_bundles (db_rest db) !! _) as [row|] eqn:Er; [|done].
  destruct (bd_van_leaf_position row) as [p|] eqn:Epos; [|done].
  destruct (0 <=? p); [|done]. cbn [ok_or] in Hp. destruct (p <=? u32_max); [|done]. injection Hp as ->.
  assert (Hin : (bundle, row) ∈ positioned_bundles db round_id wallet).
  { unfold positioned_bundles. rewrite stable_sort_perm. apply list_elem_of_omap.
    exists (round_id, wallet, bundle, row). split; [by apply elem_of_map_to_list|].
    rewrite bool_decide_true; [done|]. by rewrite Epos. }
  destruct (van_tree_entry db round_id wallet (bundle, row)) as [e|err] eqn:Ee.
  - exists e. split; [apply (try_map_elem _ _ _ _ E); by exists (bundle, row)|].
    apply van_tree_entry_ok in Ee as (E1 & E2 & _). rewrite Epos in E2. done.
  - exfalso. revert E Hin. generalize (positioned_bundles db round_id wallet) as l. intros l. revert entries.
    induction l as [|a l IH]; intros entries E Hin; [by apply elem_of_nil in Hin|]. cbn [try_map] in E.
    apply elem_of_cons in Hin as [<-|Hin]; [by rewrite Ee in E|].
    destruct (van_tree_entry db round_id wallet a); [|done]. destruct (try_map _ l) eqn:El; [|done]. by eapply IH.
Qed.
End records.

(** ** An honest node *)
Section honest.
Context `{PallasHash} {T : Type} `{!ShardTree T Empty_set} `{!MemoryTree T}.
Context {A : Type} (sync_error_text : SyncError A -> text).
Notation round_leaves r := (leaves_of (tc_inner (rc_client r))).
Notation server_leaves s := (leaves_of (gs_inner (ss_tree s))).
Notation VoteTreeSync := (gmap string (RoundTreeClient T)).

(** The round's tree, if there is one, holds the first blocks of the server. *)
Definition round_follows (s : VoteTreeSync) (round_id : string) (srv : SyncableServer T) : Prop :=
  forall r, s !! round_id = Some r -> round_ok r /\ follows (rc_client r) srv.

Lemma mark_positions_follows r positions srv :
  round_ok (mark_positions r positions) -> follows (rc_client r) srv ->
  follows (rc_client (mark_positions r positions)) srv.
Proof.
  intros [R1 R2 _] [_ _ Hs]. split; [done|done|].
  destruct (foldl_mark_position positions (rc_client r)) as (I1 & _ & I3 & _).
  unfold mark_positions. cbn [rc_client]. by rewrite I1, I3.
Qed.

Lemma honest_sync_locked entries srv elapsed (s : VoteTreeSync) round_id :
  server_ok srv -> ss_pending_leaves srv = [] -> (forall n, elapsed n <= max_duration default_limits) ->
  round_follows s round_id srv -> positions_ok entries ->
  (forall e van, e ∈ entries -> ve_expected_delegation_van e = Some van ->
     server_leaves srv !! Z.to_nat (ve_position e) = Some van) ->
  exists s' r, sync_locked sync_error_text (Ok entries) (server_api srv elapsed) s round_id
      = (Ok (default 0 (tc_last_synced_height (rc_client r))), s')
    /\ s' !! round_id = Some r /\ round_ok r /\ follows (rc_client r) srv
    /\ round_leaves r = server_leaves srv
    /\ forall e, e ∈ entries -> ve_position e ∈ tc_marked_positions (rc_client r).
Proof.
  intros Hsrv Hp Hel Hf Hpos Hnotes. cbn [sync_locked]. fold (set_positions entries).
  destruct (prepared_ok s round_id (set_positions entries) (fun r Er => proj1 (Hf r Er)) (set_positions_ok _ Hpos))
    as (Hr & Hmk & r0 & Er0 & Hcase).
  assert (Hfol : follows (rc_client (prepared_client s round_id (set_positions entries))) srv).
  { rewrite Er0 in Hr |- *. apply mark_positions_follows; [done|].
    destruct Hcase as [->|Es]; [apply follows_fresh|by apply Hf]. }
  set (r1 := prepared_client s round_id (set_positions entries)) in *.
  destruct (honest_sync (A := A) srv default_limits elapsed (rc_client r1) Hsrv Hp Hfol) as (c & Ec & Fc & Lc & Mc); [|done|].
  { apply Nat.leb_le. vm_compute. reflexivity. }
  rewrite Ec. exists (<[round_id := mk_round_client c (rc_marked_positions r1)]> s), (mk_round_client c (rc_marked_positions r1)).
  cbn [rc_client]. rewrite validate_entries_pass; [|apply Fc|apply Fc|].
  - split; [done|]. rewrite lookup_insert_eq. split; [done|]. split; [split; [apply Fc|apply Fc|]|].
    + cbn. rewrite Mc. apply Hr.
    + split; [done|]. split; [done|]. intros e He. rewrite Mc. apply Hmk, set_positions_elem. by exists e.
  - intros e van He Hv. rewrite Mc, Lc. split_and!; [apply Hmk, set_positions_elem; by exists e| |by apply Hnotes].
    unfold positions_ok in Hpos. rewrite list.Forall_forall in Hpos. by apply Hpos.
Qed.

(** A node that cannot be reached. *)
Definition unreachable (node : NodeTurn A) : Prop :=
  nt_interrupted node = None /\ exists e, sa_state (nt_api node) = Err e.

Lemma unreachable_skipped node nodes failure (s : VoteTreeSync) round_id :
  unreachable node -> exists failure' s', s' !! round_id = None
    /\ try_nodes sync_error_text (node :: nodes) failure s round_id
       = try_nodes sync_error_text nodes failure' s' round_id.
Proof.
  intros [Hi [e He]]. cbn [try_nodes]. rewrite Hi.
  assert (Hr : forall s0 : VoteTreeSync, reset_locked s0 round_id !! round_id = None).
  { intros s0. unfold reset_locked. case_bool_decide; [done|apply lookup_delete_eq]. }
  destruct (nt_entries node) as [entries|err]; cbn [sync_locked]; [|by eexists _, _; split; [apply Hr|]].
  unfold sync_with_limits. rewrite He. by eexists _, _; split; [apply Hr|].
Qed.

(** The witness of a position the round's client marked. *)
Lemma marked_witness_locked (s : VoteTreeSync) round_id r pos :
  s !! round_id = Some r -> round_ok r -> pos ∈ tc_marked_positions (rc_client r) ->
  0 <= pos < Z.of_nat (length (round_leaves r)) ->
  exists w, witness_locked (Ok pos) s round_id (default 0 (tc_last_synced_height (rc_client r))) = Ok w.
Proof.
  intros Es [Hok Hm _] Hp Hpos. rewrite <- (cl_next _ Hok) in Hpos.
  destruct (marked_witness _ _ Hok Hm Hp Hpos) as (h & p & x & Eh & Ew & _). rewrite Eh.
  change (default 0 (Some h)) with h. unfold witness_locked. rewrite Es. cbn [ok_or]. rewrite Ew. by eexists.
Qed.

(** C17 (vote tree sync, an honest node suffices): Let the round's tree hold the
    first blocks of an honest server, or nothing, with whatever positions
    marked. Let the server have grown since, with every leaf checkpointed, and
    let the wallet's records be right: each expected delegation note is at its
    recorded position in the server's tree. Then, after any number of nodes
    that cannot be reached, the server's node gives a witness for each bundle
    whose recorded position is in the tree; it leads from the server's leaf to
    the server's root. The position may have been recorded long after the
    wallet's tree had grown past it. *)
Theorem honest_node_gives_witness before after (s : VoteTreeSync) round_id wallet bundle missing db entries pos
    srv0 srv elapsed :
  server_reachable srv0 -> rtc server_step srv0 srv -> ss_pending_leaves srv = [] ->
  (forall n, elapsed n <= max_duration default_limits) ->
  round_follows s round_id srv0 -> Forall unreachable before ->
  load_van_tree_entries None db round_id wallet = Ok entries ->
  load_van_position missing db round_id wallet bundle = Ok pos ->
  (forall e van, e ∈ entries -> ve_expected_delegation_van e = Some van ->
     server_leaves srv !! Z.to_nat (ve_position e) = Some van) ->
  pos < size (ss_tree srv) ->
  let node := mk_node_turn None (load_van_tree_entries None db round_id wallet) (server_api srv elapsed)
                (load_van_position missing db round_id wallet bundle) in
  exists w s' x, sync_and_witness sync_error_text (before ++ node :: after) s round_id = (Ok w, s')
    /\ round_follows s' round_id srv /\ vw_position w = pos
    /\ server_leaves srv !! Z.to_nat pos = Some x /\ witness_leads w x (root (ss_tree srv)).
Proof.
  intros Hr0 Hr Hp Hel Hf Hb El Epos Hnotes Hlt node. destruct (server_steps_ok _ _ server_ok_empty Hr0) as [Hs0 _].
  destruct (server_steps_ok _ _ Hs0 Hr) as [Hsrv Hx].
  assert (Hf' : round_follows s round_id srv).
  { intros r Er. destruct (Hf r Er). split; [done|]. by eapply follows_extends. }
  clear Hf. unfold sync_and_witness. revert s Hf'. generalize (None : option VotingError) as failure.
  induction Hb as [|nd before Hnd _ IH]; intros failure s Hf; cbn [app].
  2: { destruct (unreachable_skipped nd (before ++ node :: after) failure s round_id Hnd) as (f' & s1 & En & ->).
       apply IH. intros r. by rewrite En. }
  destruct (loaded_bundle _ _ _ _ _ _ _ _ El Epos) as (e & He & _ & Ee).
  pose proof (loaded_positions _ _ _ _ _ El) as Hpos. pose proof Hpos as Hge. unfold positions_ok in Hge.
  rewrite list.Forall_forall in Hge. specialize (Hge e He).
  destruct (honest_sync_locked entries srv elapsed s round_id Hsrv Hp Hel Hf Hpos Hnotes)
    as (s' & r & Esync & Es' & Hrok & Fr & Lr & Mr).
  cbn [try_nodes]. unfold node. cbn [nt_interrupted nt_entries nt_api nt_position]. rewrite El, Epos, Esync.
  unfold size in Hlt. rewrite (sv_next _ Hsrv), <- Lr in Hlt.
  destruct (marked_witness_locked s' round_id r pos Es' Hrok) as [w Hw]; [rewrite <- Ee; by apply Mr|lia|].
  destruct (witness_locked_ok _ _ _ _ _ Hrok Es' Hw) as ([= Ep] & _ & x & Hx' & Hl). rewrite Hw. exists w, s', x.
  rewrite (server_root_ok _ Hsrv Hp), <- Lr, Ep. split_and!; try done.
  intros r' Er'. rewrite Es' in Er'. by injection Er' as <-.
Qed.
End honest.

(** ** A wallet with one delegated bundle

    Its note is the second leaf of [sample_server], and the first node does
    not answer. *)
Definition sample_bundle : BundleRow :=
  mk_bundle_row None None None None None None None None None None None (Some (to_repr (sample_leaf 12)))
    None None (Some 1) None None None None None None.
Definition sample_db : Db VotingTables :=
  mk_db ∅ (mk_tables ∅ {[ ("r"%string, "w"%string, 0) := sample_bundle ]} ∅ ∅ ∅ ∅ ∅ ∅ ∅ ∅).
Definition sample_entries : result (list VanTreeEntry) VotingError := load_van_tree_entries None sample_db "r" "w".
Definition sample_text (e : SyncError unit) : text := lit "error".
Definition sample_dead_node : NodeTurn unit :=
  mk_node_turn None sample_entries (mk_api (Err tt) (fun _ _ _ => Err tt) (fun _ => 0)) (Ok 1).
Definition sample_live_node : NodeTurn unit :=
  mk_node_turn None sample_entries (server_api sample_server (fun _ => 0))
    (load_van_position (lit "no bundle") sample_db "r" "w" 0).

Lemma sample_loaded : sample_entries = Ok [mk_entry 0 1 (Some (sample_leaf 12))].
Proof.
  assert (E : (let? entries := sample_entries in
     Ok (map (fun e => (ve_bundle_index e, ve_position e, to_repr <$> ve_expected_delegation_van e)) entries))
     = Ok [(0, 1, Some (to_repr (sample_leaf 12)))]) by (vm_compute; reflexivity).
  destruct sample_entries as [entries|]; [|done]. injection E as E.
  destruct entries as [|[b p van] [|? ?]]; try done. cbn [map ve_bundle_index ve_position ve_expected_delegation_van] in E.
  apply (inj2 cons) in E as [E _]. apply pair_equal_spec in E as [Ebp E]. injection Ebp as -> ->. repeat f_equal.
  destruct van as [van|]; [|done]. apply (inj Some) in E.
  change (to_repr van = to_repr (sample_leaf 12)) in E. apply (f_equal from_repr) in E. by rewrite !from_to_repr in E.
Qed.

Lemma sample_notes e van :
  e ∈ [mk_entry 0 1 (Some (sample_leaf 12))] -> ve_expected_delegation_van e = Some van ->
  leaves_of (gs_inner (ss_tree sample_server)) !! Z.to_nat (ve_position e) = Some van.
Proof.
  intros ->%list_elem_of_singleton. cbn [ve_expected_delegation_van ve_position]. intros [= <-]. reflexivity.
Qed.

Lemma honest_node_gives_witness_witness :
  exists w s' x, sync_and_witness (T := RefTree) sample_text [sample_dead_node; sample_live_node] ∅ "r" = (Ok w, s')
    /\ vw_position w = 1 /\ leaves_of (gs_inner (ss_tree sample_server)) !! 1%nat = Some x
    /\ witness_leads w x (root (ss_tree sample_server)).
Proof.
  refine ((fun W => _) (honest_node_gives_witness sample_text [sample_dead_node] [] ∅ "r" "w" 0 (lit "no bundle") sample_db
    [mk_entry 0 1 (Some (sample_leaf 12))] 1 syncable_empty sample_server (fun _ => 0) _ _ _ _ _ _ _ _ _ _)).
  - destruct W as (w & s' & x & E & _ & W1 & W2 & W3). exists w, s', x. split; [exact E|]. split_and!; assumption.
  - apply rtc_refl.
  - exact sample_reachable.
  - reflexivity.
  - intros n. cbn. lia.
  - intros r Er. discriminate Er.
  - apply Forall_singleton. split; [reflexivity|]. by exists tt.
  - exact sample_loaded.
  - vm_compute. reflexivity.
  - exact sample_notes.
  - vm_compute. reflexivity.
Defined.

